(* ===== verification/_CoqProject ===== *)
-Q . S2P
Prelude.v
Bytes.v
BMap.v
Util.v
ConfigModel.v
ConfigPlan.v
ConfigValidate.v
ConfigEnv.v
Port.v
RunModel.v
Lifecycle.v
LifecycleInv.v
Json.v
Logfmt.v
LaunchEnv.v
LaunchPorts.v
Tasks.v
Files.v
Manifest.v
Restore.v
PortSync.v
Simulation.v
Systemd.v
Program.v
Launch.v
LaunchSteps.v
Commands.v
StopRun.v
Sources.v
SourcesInv.v
Sessions.v
LogIndex.v
LogText.v
LogCommit.v
LogIngest.v
Sort.v
LogQuery.v
LogFollow.v
SourceIngest.v
SourceBatches.v
SourceReplace.v
Readiness.v
PortOwners.v
Capture.v
CaptureProxy.v
LogTail.v
CliContext.v
LogPrint.v
AutoShare.v
Projects.v
WatchHash.v
Shim.v
Bootstrap.v
Diagnose.v
CliLogs.v
LogCommand.v
Events.v
Queries.v
CliCommands.v
Routes.v
Completions.v
AgentProxy.v
Output.v
Setup.v
Cli.v
RecentErrors.v
AutoRestart.v
TaskRun.v
SystemdBus.v
Server.v
Float64.v
Eviction.v
LogView.v
Gc.v
LogOpen.v
