(* ===== verification/Prelude.v ===== *)
(** * devstack: a verification development

    devstack is a daemon that runs the services of a project: it reads a
    configuration ([devstack.toml], [devstack.yml]), plans a start order, reserves
    ports, builds an environment per service, starts each service as a unit of the
    service manager, waits for its readiness, watches its health and its files,
    and keeps records of runs, globals, tasks, agents and logs that a command line
    and a dashboard query.  The Rust sources are under [src/src/]; this library
    models them as pure functions and state machines and proves what makes them
    correct.  Paths below are relative to [src/src/].

    ** Conventions

    - A Rust [String] or [PathBuf] is its bytes, a [string] ([Bytes]); [u8] is
      [ascii].  Sized integers are [Z] with their range and their saturation or
      wrap-around written out where the code depends on it.
    - [Result<T>] is [outcome]: [Ok], [Err] with the message, [Panic] (an [unwrap]
      that fails), [OutOfFuel] (never a result of the code).  Theorems of
      termination exclude the last two.
    - A [BTreeMap] is the sorted list of its entries ([BMap]), with the
      invariant [bwf]; iteration visits it in the order of the code.
    - Code that is not under [src/] is an argument: the JSON library ([Json]), TOML
      and YAML, the template engine, [.env] files, the file system, the kernel,
      clocks, hashes.  What is assumed of it is a named hypothesis or the law of a
      class, with an instance or a witness that has it.
    - A closure that runs under a lock is one step.  An interleaving of tasks is a
      list of steps in any order; what happens between two locks is not a step.

    ** Files, and the code they model

    - [Prelude]: [outcome] and its monad, folds that stop, tactics, list lemmas.
    - [Bytes], [BMap], [Json]: the parts of the standard library and of JSON used.
    - [Util]: [util.rs], [paths.rs] - names, keys, the layout of the data directory.
    - [ConfigModel]: [config/model.rs], [model/readiness.rs] - the configuration
      and what is derived from it (ports, readiness, capture, limits).
    - [ConfigPlan]: [config/plan.rs] - the start order and its restriction.
    - [ConfigValidate]: [config/validate.rs], [config/load.rs].
    - [ConfigEnv]: [config/env.rs] - references in environment values.
    - [Port]: [port.rs] - the port registry shared by the daemons of a machine.
    - [RunModel]: [model/*.rs], [app/handles.rs], [stores/runs.rs],
      [stores/globals.rs], the events of [api.rs] - records in memory.
    - [Lifecycle]: [app/launch/readiness.rs], [app/launch/watch.rs],
      [app/commands/{restart,watch,gc,reconcile,runs}.rs],
      [app/queries/status.rs] - the sections that change records, as [Action]s
      of a state machine on [Daemon].
    - [LifecycleInv]: the invariants of that machine.
    - [Logfmt]: [logfmt.rs] - one line of a log.
    - [LaunchEnv]: [app/launch/context.rs], [app/launch/prepare.rs] - environment,
      templates, unit names, fingerprint of a launch.
    - [LaunchPorts]: [app/launch/prepare.rs], [app/commands/runs.rs],
      [app/runtime.rs] - the ports of up and refresh, on top of [Port].
    - [Tasks]: [stores/tasks.rs], [app/commands/tasks.rs], [app/queries/tasks.rs],
      [services/tasks/*.rs].
    - [Sessions]: [stores/agent_sessions.rs], [app/commands/agent.rs],
      [stores/navigation.rs].
    - [Files]: [util.rs] ([atomic_write]) - files that are replaced at once.
    - [Manifest]: [persistence/manifest.rs], [persistence/codecs.rs], [ids.rs] -
      what runs and globals are on disk.
    - [Restore]: [persistence/daemon_state.rs], [app/runtime.rs] - records to
      manifests and back.
    - [PortSync]: [app/runtime.rs] - the ports of what can be restored.
    - [Simulation], [Systemd]: [systemd.rs] - refinement of transition systems, and
      the local service manager as a refinement of its contract.
    - [Program]: programs whose effects are answered from outside, their runs and
      the logic to reason on them.
    - [Launch]: [app/launch/{start,pipeline,readiness,watch}.rs],
      [app/commands/runs.rs] - the launch of a service and of a stack, as
      programs that call the sections of [Lifecycle].
    - [Commands]: [app/commands/{runs,ensure_globals,restart}.rs] - up, refresh,
      down, kill, the globals, restarts.
    - [LaunchSteps], [StopRun]: what launches, [down] and [kill] do.
    - [LogIndex]: [infra/logs/index/{ingest,schema,state,eviction,compaction}.rs];
      [LogText], [LogCommit], [LogIngest]: its invariant and theorems;
      [LogOpen]: [infra/logs/index/schema.rs] - opening its files.
    - [Sort], [LogQuery]: [infra/logs/index/{query,facets}.rs]; [LogView]: the
      theorems on views, facets and their cache.
    - [LogFollow]: [cli/commands/logs.rs] - the loop that follows the log of a
      service through the index.
    - [LogPrint]: [logs.rs] - printing a log file and following it.
    - [LogTail]: [daemon/log_tailing.rs] - the events of new lines.
    - [Sources], [SourcesInv]: [sources.rs] - the registry of log sources as a
      refinement of one map.
    - [SourceIngest]: [daemon/source_ingest.rs], [daemon/handlers/sources.rs];
      [SourceBatches], [SourceReplace]: the theorems on batches and indexing.
    - [Readiness]: [services/readiness/{coordinator,probes}.rs] - waiting for a
      service; [PortOwners]: [services/readiness/port_ownership.rs].
    - [Capture], [CaptureProxy]: [services/api_capture.rs] - what the proxy
      forwards and logs, its streams and the task that writes its log.
    - [AutoShare]: [agent/auto_share.rs], [agent/command.rs].
    - [Projects]: [projects.rs], [daemon/handlers/projects.rs].
    - [CliContext]: [cli/context.rs] - the stack and run that a command means.
    - [WatchHash]: [watch.rs]; [AutoRestart]: [app/launch/watch.rs] - the hash of
      the watched files, and the task that restarts a service for them.
    - [Gc]: [app/commands/gc.rs] - old runs and globals, as a program.
    - [Shim]: [shim.rs] - the process around a service and its log.
    - [TaskRun]: [services/tasks/*.rs], [app/commands/tasks.rs] - running a task:
      its command, the threads that write its log, its history.
    - [SystemdBus]: [systemd.rs] - the manager of the machine over its bus.
    - [Float64]: the arithmetic of [f64] and its error; [Eviction]:
      [infra/logs/index/{eviction,compaction,state}.rs] - eviction by size, and
      the maintenance.
    - [RecentErrors], [Queries]: [app/queries/*.rs] - the last errors of a service
      and their cache; the other queries and the handlers of logs.
    - [Events]: [daemon/event_bus.rs], [daemon/handlers/events.rs].
    - [Bootstrap]: [daemon/bootstrap.rs] - the start of the daemon.
    - [Routes]: [daemon/router.rs] - which handler a request goes to.
    - [Server]: [infra/ipc/unix_daemon_client.rs], [daemon/handlers/agent.rs],
      [daemon/handlers/navigation.rs], [app/error.rs], [api.rs] - from a call of
      the client through JSON and routes to the stores, and back.
    - [AgentProxy]: [agent/pty_proxy.rs] - the terminal of a wrapped agent.
    - [Diagnose]: [diagnose.rs].
    - [CliLogs], [LogCommand], [Output]: [cli/commands/logs.rs], [cli/output.rs] -
      the log command, its requests, and what a person is shown.
    - [CliCommands]: [cli/commands/{lifecycle,sources,projects,tasks}.rs].
    - [Cli], [Setup], [Completions]: [cli.rs], [cli/args.rs],
      [cli/commands/setup.rs], [cli/commands/completions.rs].

    A launch goes through them in this order: [ConfigValidate.load_from_path],
    [ConfigPlan.stack_plan], [Port.allocate_ports] or
    [LaunchPorts.resolve_ports_for_refresh], [LaunchEnv.prepare_service],
    [Tasks.run_init_tasks], the unit ([Systemd]), and then the actions of
    [Lifecycle]; [Commands.up] puts them together.  Between two sections a program
    of [Launch] or [Commands] lets the other tasks of the daemon do anything; its
    effects (service manager, probes, tasks, files, clock, registry of ports) may
    answer anything, unless a theorem says how they answer.

    ** What the theorems show

    - Plans: [topo_sort] never panics, returns every service once and after its
      dependencies, and fails exactly on a cycle; [filter_to] is the closure of
      its targets; a validated configuration always plans.
    - Configuration: [validate] accepts exactly the predicate [config_ok]; loading
      returns validated files only; the nearest file wins; references are
      expanded once and unknown ones kept.
    - Ports: a reservation of a living daemon is exclusive whatever others do;
      allocation is all or nothing; a free ephemeral port is found; a refresh
      keeps the ports of what runs and never gives two services one port.
    - Lifecycle, for every interleaving: every background task that was not told
      to stop has its handle in one record, but for those lost where a run is
      dropped with its handles; the events tell an observer the
      state of every service; a ready service has no failure; the health
      monitor restarts after three failures and at most three times;
      [recompute_run_state] is the function of the states it should be.  A
      stopped run can be revived by a status query: proved as it is.
    - Launch: the layers of an environment, the variables of the dependencies, the
      fingerprint that determines a launch, the names of units.
    - Tasks: the running records are the executions under way, each start sees
      those that were added before it looks (two starts that look before either
      adds are both let in), init tasks in order and incremental, the latest
      execution.
    - Sessions: each message is delivered once and in order.
    - Logs: writing and reading a line are inverse, the one-pass parser is the
      three extractors, levels, escape sequences, health checks; whatever commits
      failed and whenever the daemon stopped, also while it opened the index,
      ingestion indexes every line once, as long as the file of its cursors can
      be read; a follower prints each new line once, from the index or from the file, and
      a subscriber gets an event of each; facets are the exact counts of the
      documents, and what the cache of views answers is what the documents give.
    - Sources: the registry behaves as one map whoever writes its file; the
      batches of a source hold each file once, newest first, within their limits;
      after an indexing the index holds the lines of the files and the state says
      so.
    - Readiness: a wait succeeds exactly when a probe passes in time, the process
      being found alive where it is looked at, and ends; the owners of a port are those of the tables of
      the kernel.
    - Capture: no credential is logged; a request goes through with its end-to-end
      headers; an exchange is logged once with the bytes that went through; each
      event of the log is written, waits or is counted, and the writer ends.
    - Agents and projects: an agent is told of new errors at most every thirty
      seconds and of all that are bad enough; the ledger of the projects is one
      map; the stack that a command means has a plan.
    - Persistence: a manifest is read back as it was written, or as it was before,
      wherever a write stops; the next daemon restores a run and reserves the
      ports of what it can restore.
    - Service manager: every history of the local one is a history of its
      contract, restarts of the daemon included.
    - Commands: whatever the effects answer, a launch follows its plan and records
      nothing as ready that was not started and waited for: a wait or a later
      task that fails ends it, a service whose first tasks or start fail is
      recorded failed and it goes on; [down] and [kill] ask to stop every unit,
      tell every background task to stop and free every port, or say why not.
    - Recent errors: the cached lines are those of the file, or none after a
      reading that failed.

    - Log command and client: following through the daemon prints what the
      follower of the index finds; a filter is never dropped; the daemon reads
      from a request what was meant; a request arrives at its handler; the
      calls of an agent are the operations on its session.
    - Output of processes: the logs of services and tasks have every line, once
      and in order, whatever the order of the threads; the wrapped agent gets
      everything, and the proxy leaves terminal and daemon as they were.
    - Streams: a client is sent each event meant for it once; the tail of a run
      is started with its first stream, stopped with the release of its last one
      and counted meanwhile, and one that fails is not started anew.
    - Watching: the hash tells every change of the watched files; a service is
      restarted for changes that have settled, once for each.
    - Eviction and garbage: an index that is too large keeps its share of the
      documents, the newest, up to the error of the floating point; only runs and
      globals go that stopped long enough ago.

    Some theorems and lemmas state a defect: [stopped_run_revived],
    [failed_refresh_frees_backend], [start_task_race], [lossy_line_lost],
    [concurrent_writers_tear], a part of [unit_names_spec], [rotated_log_silent],
    [overlapping_request_stale], [failed_write_diverges],
    [colliding_names_lose_lines], a part of [failed_indexing_recorded],
    [space_hides_owner], [failed_tail_stays], [half_lines_printed],
    [concurrent_registration_lost], [captured_service_suspected],
    [no_fallback_unfollowed], [slashed_source_lost], [quiet_stream_stays],
    [commands_not_completed], [completion_panics], [lost_answer_loses_message],
    [failed_read_remembered], [paused_change_waits], [binary_line_silences_task],
    [unlogged_task_left_running], [silent_bus_no_unit],
    [unknown_agent_is_internal], [equal_times_all_evicted], [busy_index_deleted].

    ** Fuel

    [ConfigPlan.kahn] takes the number of services (each is dequeued once) and
    [reach] the number of targets and dependencies (each is pushed once);
    [find_nearest] takes the length of the starting directory (each parent is
    shorter); all three are proved to suffice.  The scanners of [ConfigEnv],
    [Logfmt] and [Bytes.utf8_decode] take the length of their text, of which each
    turn eats at least one character; their specifications hold at that fuel.
    [allocate_ephemeral_port] loops until the kernel offers a free port; its fuel is
    the number of binds, and [ephemeral_port_found] shows that one more than the
    registry has entries is enough when the kernel does not offer a port twice.
    [Launch.wait_down] asks at most fifty times, as the code does; the programs of
    [Program] are finite trees, so they need no fuel.  A loop that waits for the
    world ([Readiness], [LogPrint], [LogFollow], [AutoShare]) takes the list of
    the answers it gets, one for each turn, and is out of fuel when it is still
    waiting after the last; [wait_for_ready_ends] says how many turns are enough.

    ** Not modelled

    - The bodies of the background tasks between their sections: timers and HTTP.
      Events are sent after the lock of the run is released, so two events of
      different sections may arrive in the other order; the theorems on events
      take them in the order of the sections.
    - Other daemons during one command in [LaunchPorts] ([Port] treats them).
    - The bus and the manager behind [SystemdBus]; in [Systemd], failures to
      write the registry and process ids that are used again.
    - What is I/O of the kernel or of a library and nothing else: sockets and the
      loop that accepts them, the tunnel of an upgraded connection, the calls
      of ioctl and termios, the walk over a directory, the merging of segments
      of the index.
    - Code that is generated or declares only: the parsing of arguments (clap), the
      attributes of serde, the description of the interface (OpenAPI); the
      handlers that pass their request on to one command ([Routes] says which);
      the service file of macOS; the dashboard in TypeScript.
*)

From Stdlib Require Export Ascii String.
From stdpp Require Export prelude strings pretty.
From Stdlib Require Import Lia.

(** ** Outcomes *)

(** The result of a Rust computation of type [Result<A>]: a value, an error
    with its message, a panic ([unwrap] on [None], an index out of range), or
    a loop whose fuel ran out.  The last one is an artefact of the model: every
    looping definition comes with a theorem that it does not occur. *)
Inductive outcome (A : Type) : Type :=
  | Ok (a : A)
  | Err (msg : string)
  | Panic
  | OutOfFuel.
Arguments Ok {A} a.
Arguments Err {A} msg.
Arguments Panic {A}.
Arguments OutOfFuel {A}.

#[export] Instance outcome_ret : MRet outcome := @Ok.

#[export] Instance outcome_bind : MBind outcome := fun A B f o =>
  match o with
  | Ok a => f a
  | Err e => Err e
  | Panic => Panic
  | OutOfFuel => OutOfFuel
  end.

#[export] Instance outcome_fmap : FMap outcome := fun A B f o =>
  match o with
  | Ok a => Ok (f a)
  | Err e => Err e
  | Panic => Panic
  | OutOfFuel => OutOfFuel
  end.

#[export] Instance outcome_eq_dec {A} `{EqDecision A} : EqDecision (outcome A).
Proof. solve_decision. Defined.

(** [Result::map_err] *)
Definition map_err {A} (f : string -> string) (o : outcome A) : outcome A :=
  match o with Err e => Err (f e) | o => o end.

(** [anyhow::Context]: the chain of an error, as [{:#}] prints it. *)
Definition with_context {A} (c : string) (o : outcome A) : outcome A :=
  map_err (fun e => c +:+ ": " +:+ e) o.

(** The same, of an error that is printed with [{}]: the context hides the rest. *)
Definition in_context {A} (c : string) (o : outcome A) : outcome A := map_err (fun _ => c) o.

(** [Option::ok_or_else] *)
Definition ok_or {A} (o : option A) (msg : string) : outcome A :=
  match o with Some a => Ok a | None => Err msg end.

(** [Option::unwrap] *)
Definition unwrap {A} (o : option A) : outcome A :=
  match o with Some a => Ok a | None => Panic end.

(** [Result::ok] *)
Definition ok {A} (o : outcome A) : option A :=
  match o with Ok a => Some a | _ => None end.

(** [match o { Ok(a) => f(a), Err(_) => continue }] in a loop that stands at [s]. *)
Definition or_skip {A S} (o : outcome A) (s : S) (f : A -> outcome S) : outcome S :=
  match o with Ok a => f a | Err _ => Ok s | Panic => Panic | OutOfFuel => OutOfFuel end.

(** The guard of an early return: [if b { return Err(msg) }]. *)
Definition fail_if (b : bool) (msg : string) : outcome unit :=
  if b then Err msg else Ok tt.

(** A computation that returns, with a value or with an error. *)
Definition returns {A} (o : outcome A) : Prop :=
  match o with Ok _ | Err _ => True | _ => False end.

(** [for a in l { s = f(s, a)?; }] *)
Fixpoint ofold {A S} (f : S -> A -> outcome S) (l : list A) (s : S) : outcome S :=
  match l with
  | [] => Ok s
  | a :: l => s' ← f s a; ofold f l s'
  end.

(** [for a in l { f(a)?; }] *)
Fixpoint oforall {A} (f : A -> outcome unit) (l : list A) : outcome unit :=
  match l with
  | [] => Ok tt
  | a :: l => _ ← f a; oforall f l
  end.

Section outcome_lemmas.
Context {A B S : Type}.
Implicit Types (o : outcome A) (f : A -> outcome B).

Lemma bind_Ok o f b : (o ≫= f) = Ok b <-> exists a, o = Ok a /\ f a = Ok b.
Proof. destruct o; simpl; naive_solver. Qed.

Lemma bind_returns o f :
  returns o -> (forall a, o = Ok a -> returns (f a)) -> returns (o ≫= f).
Proof. destruct o; simpl; naive_solver. Qed.

Lemma fmap_Ok (g : A -> B) o b : g <$> o = Ok b <-> exists a, o = Ok a /\ b = g a.
Proof. destruct o; simpl; naive_solver. Qed.

Lemma map_err_Ok g o a : map_err g o = Ok a <-> o = Ok a.
Proof. destruct o; simpl; naive_solver. Qed.

Lemma map_err_returns g o : returns (map_err g o) <-> returns o.
Proof. by destruct o. Qed.

Lemma ok_or_Ok (x : option A) msg a : ok_or x msg = Ok a <-> x = Some a.
Proof. destruct x; simpl; naive_solver. Qed.

Lemma ok_or_returns (x : option A) msg : returns (ok_or x msg).
Proof. by destruct x. Qed.

Lemma ok_Some o a : ok o = Some a <-> o = Ok a.
Proof. destruct o; simpl; naive_solver. Qed.

Lemma mret_Ok (a b : A) : (mret a : outcome A) = Ok b <-> a = b.
Proof. unfold mret, outcome_ret. naive_solver. Qed.

Lemma unwrap_Ok (x : option A) a : unwrap x = Ok a <-> x = Some a.
Proof. destruct x; simpl; naive_solver. Qed.

End outcome_lemmas.

Section loop_lemmas.
Context {A S : Type}.

Lemma ofold_inv (P : S -> Prop) (f : S -> A -> outcome S) l s s' :
  (forall s a s', a ∈ l -> P s -> f s a = Ok s' -> P s') ->
  P s -> ofold f l s = Ok s' -> P s'.
Proof.
  revert s. induction l as [|a l IH]; intros s Hstep HP; simpl.
  { by intros [= <-]. }
  intros (s1 & Hs1 & Hrest)%bind_Ok.
  eapply (IH s1); [|by eapply (Hstep s a); [left|..]|done].
  intros s2 a2 s3 Hin. apply Hstep. by right.
Qed.

Lemma ofold_returns (P : S -> Prop) (f : S -> A -> outcome S) l s :
  (forall s a, a ∈ l -> P s -> returns (f s a)) ->
  (forall s a s', a ∈ l -> P s -> f s a = Ok s' -> P s') ->
  P s -> returns (ofold f l s).
Proof.
  revert s. induction l as [|a l IH]; intros s Hret Hstep HP; simpl; [done|].
  apply bind_returns; [apply Hret; [left|done]|].
  intros s' Hs'. apply IH; [intros; apply Hret; [by right|done]|
    intros s2 a2 s3 ?; apply Hstep; by right | by eapply Hstep; [left|..]].
Qed.

Lemma ofold_app (f : S -> A -> outcome S) l1 l2 s :
  ofold f (l1 ++ l2) s = ofold f l1 s ≫= ofold f l2.
Proof.
  revert s. induction l1 as [|a l1 IH]; intros s; simpl; [done|].
  destruct (f s a); simpl; auto.
Qed.

Lemma oforall_Ok (f : A -> outcome unit) l :
  oforall f l = Ok tt <-> Forall (fun a => f a = Ok tt) l.
Proof.
  induction l as [|a l IH]; simpl; [by split|].
  rewrite Forall_cons, <- IH, bind_Ok. split.
  - intros ([] & ? & ?); done.
  - intros [? ?]; by exists tt.
Qed.

Lemma oforall_returns (f : A -> outcome unit) l :
  (forall a, a ∈ l -> returns (f a)) -> returns (oforall f l).
Proof.
  induction l as [|a l IH]; simpl; [done|]. intros Hret.
  apply bind_returns; [apply Hret; left|].
  intros _ _. apply IH. intros; apply Hret. by right.
Qed.
End loop_lemmas.

(** ** State and outcomes *)

(** A computation on a state of type [S] that may stop early ([?]); what it did to
    the state before it stopped remains. *)
Definition stM (S A : Type) : Type := S -> outcome A * S.

#[export] Instance st_ret {S} : MRet (stM S) := fun A a s => (Ok a, s).

#[export] Instance st_bind {S} : MBind (stM S) := fun A B f m s =>
  match m s with
  | (Ok a, s) => f a s
  | (Err e, s) => (Err e, s)
  | (Panic, s) => (Panic, s)
  | (OutOfFuel, s) => (OutOfFuel, s)
  end.

(** A computation that leaves the state alone. *)
Definition st_lift {S A} (o : outcome A) : stM S A := fun s => (o, s).

(** [for a in l { b = f(b, a)?; }] *)
Fixpoint sfold {S A B} (f : B -> A -> stM S B) (l : list A) (b : B) : stM S B :=
  match l with
  | [] => mret b
  | a :: l => b ← f b a; sfold f l b
  end.

(** [or_skip] on a state. *)
Definition st_skip {S A B} (o : outcome A) (b : B) (f : A -> stM S B) : stM S B :=
  match o with Ok a => f a | Err _ => mret b | Panic => st_lift Panic | OutOfFuel => st_lift OutOfFuel end.

(** [hoare P m Q E]: from a state that satisfies [P], [m] ends in [Q] with its value,
    or stops in [E]. *)
Definition hoare {S A} (P : S -> Prop) (m : stM S A) (Q : A -> S -> Prop) (E : S -> Prop) : Prop :=
  forall s, P s -> match m s with (Ok a, s) => Q a s | (_, s) => E s end.

Section state_lemmas.
Context {S A B : Type}.
Implicit Types (m : stM S A) (f : A -> stM S B).

Lemma st_bind_Ok m f s b s' :
  (m ≫= f) s = (Ok b, s') -> exists a s1, m s = (Ok a, s1) /\ f a s1 = (Ok b, s').
Proof. unfold mbind, st_bind. destruct (m s) as [[a|e| |] s1]; try done. eauto. Qed.

Lemma sfold_Ok (P : B -> S -> Prop) (f : B -> A -> stM S B) l b s b' s' :
  (forall a b s b' s', a ∈ l -> P b s -> f b a s = (Ok b', s') -> P b' s') ->
  P b s -> sfold f l b s = (Ok b', s') -> P b' s'.
Proof.
  revert b s. induction l as [|a l IH]; intros b s Hstep HP; simpl; [by intros [= <- <-]|].
  unfold mbind, st_bind. destruct (f b a s) as [[b1|e| |] s1] eqn:Hf; try done.
  intros Hrest. eapply IH; [|by eapply Hstep; [left|..]|done].
  intros a2 c t c' t' Ha. apply Hstep. by right.
Qed.

Lemma st_lift_Ok (o : outcome A) (s : S) a s' : st_lift o s = (Ok a, s') -> o = Ok a /\ s = s'.
Proof. by intros [= -> ->]. Qed.

Lemma hoare_ret (Q : A -> S -> Prop) E a : hoare (Q a) (mret a) Q E.
Proof. by intros s. Qed.

Lemma hoare_bind P m f R (Q : B -> S -> Prop) E :
  hoare P m R E -> (forall a, hoare (R a) (f a) Q E) -> hoare P (m ≫= f) Q E.
Proof.
  intros Hm Hf s HP. specialize (Hm s HP). unfold mbind, st_bind.
  destruct (m s) as [[a|e| |] s1]; [by apply Hf|done..].
Qed.

Lemma hoare_bind_ok P a f (Q : B -> S -> Prop) E :
  hoare P (f a) Q E -> hoare P (st_lift (Ok a) ≫= f) Q E.
Proof. done. Qed.

Lemma hoare_pre (P P' : S -> Prop) m Q E : (forall s, P s -> P' s) -> hoare P' m Q E -> hoare P m Q E.
Proof. intros HP Hm s Hs. by apply Hm, HP. Qed.

Lemma hoare_weaken (P : S -> Prop) m (Q Q' : A -> S -> Prop) E :
  (forall a s, Q a s -> Q' a s) -> hoare P m Q E -> hoare P m Q' E.
Proof. intros HQ Hm s Hs. specialize (Hm s Hs). destruct (m s) as [[a|e| |] s1]; auto. Qed.

Lemma hoare_lift P (o : outcome A) (Q : A -> S -> Prop) (E : S -> Prop) :
  (forall s, P s -> match o with Ok a => Q a s | _ => E s end) -> hoare P (st_lift o) Q E.
Proof. intros Ho s HP. specialize (Ho s HP). by destruct o. Qed.
End state_lemmas.

Lemma hoare_fold {S A B} (I : B -> S -> Prop) (E : S -> Prop) (f : B -> A -> stM S B) l b :
  (forall a b, a ∈ l -> hoare (I b) (f b a) I E) -> hoare (I b) (sfold f l b) I E.
Proof.
  revert b. induction l as [|a l IH]; intros b Hf; [apply hoare_ret|].
  eapply hoare_bind; [apply Hf; left|]. intros b'. apply IH. intros c d Hc. apply Hf. by right.
Qed.

Lemma fail_if_Ok b msg u : fail_if b msg = Ok u <-> b = false.
Proof. destruct b, u; simpl; naive_solver. Qed.

Lemma fail_if_returns b msg : returns (fail_if b msg).
Proof. by destruct b. Qed.

Create HintDb outcome.
#[export] Hint Resolve bind_returns ok_or_returns fail_if_returns
  oforall_returns : outcome.

Lemma forallb_false {A} (p : A -> bool) l : forallb p l = false -> exists x, x ∈ l /\ p x = false.
Proof.
  induction l as [|a l IH]; simpl; [done|]. destruct (p a) eqn:Ha; simpl.
  - intros (x & ? & ?)%IH. exists x. split; [by right|done].
  - intros _. exists a. split; [left|done].
Qed.

Lemma eq_Permutation {A} (l k : list A) : l = k -> l ≡ₚ k.
Proof. by intros ->. Qed.

Lemma filter_permute {A} (p : A -> bool) l k : l ≡ₚ k -> List.filter p l ≡ₚ List.filter p k.
Proof.
  intros H. induction H as [|x l k _ IH|x y l|l k m _ IH1 _ IH2]; simpl.
  - done.
  - destruct (p x); [by constructor|done].
  - destruct (p x), (p y); by constructor || done.
  - by etrans.
Qed.

#[export] Instance filter_perm {A} (p : A -> bool) : Proper ((≡ₚ) ==> (≡ₚ)) (List.filter p).
Proof. intros l k. apply filter_permute. Qed.

Lemma filter_elem {A} (p : A -> bool) l x : x ∈ List.filter p l <-> x ∈ l /\ p x = true.
Proof. rewrite !list_elem_of_In. apply filter_In. Qed.

Lemma filter_all {A} (p : A -> bool) l : (forall x, x ∈ l -> p x = true) -> List.filter p l = l.
Proof.
  induction l as [|x l IH]; simpl; intros Hp; [done|]. rewrite Hp by left.
  f_equal. apply IH. intros y Hy. apply Hp. by right.
Qed.

Lemma filter_none {A} (p : A -> bool) l : (forall x, x ∈ l -> p x = false) -> List.filter p l = [].
Proof.
  induction l as [|x l IH]; simpl; intros Hp; [done|]. rewrite Hp by left.
  apply IH. intros y Hy. apply Hp. by right.
Qed.

Lemma filter_ext_elem {A} (p q : A -> bool) l :
  (forall x, x ∈ l -> p x = q x) -> List.filter p l = List.filter q l.
Proof. intros H. apply filter_ext_in. intros x Hx. apply H. by rewrite list_elem_of_In. Qed.

Lemma filter_filter {A} (p q : A -> bool) l :
  List.filter p (List.filter q l) = List.filter (fun x => q x && p x) l.
Proof.
  induction l as [|x l IH]; simpl; [done|]. destruct (q x) eqn:Hq; simpl; [|done].
  by rewrite IH.
Qed.

Lemma filter_sublist {A} (p : A -> bool) l : List.filter p l `sublist_of` l.
Proof. induction l as [|x l IH]; simpl; [done|]. destruct (p x); by constructor. Qed.

(** [outcome_simpl]: turn every equation [_ = Ok _] of the context about a
    composed computation into equations about its parts. *)
Ltac outcome_simpl :=
  repeat match goal with
  | H : (_ ≫= _) = Ok _ |- _ => apply bind_Ok in H as (? & ? & ?)
  | H : mbind _ _ = Ok _ |- _ => apply bind_Ok in H as (? & ? & ?)
  | H : fmap _ _ = Ok _ |- _ => apply fmap_Ok in H as (? & ? & ?)
  | H : fail_if _ _ = Ok _ |- _ => apply fail_if_Ok in H
  | H : map_err _ _ = Ok _ |- _ => apply map_err_Ok in H
  | H : ok_or _ _ = Ok _ |- _ => apply ok_or_Ok in H
  | H : unwrap _ = Ok _ |- _ => apply unwrap_Ok in H
  | H : mret _ = Ok _ |- _ => apply (proj1 (mret_Ok _ _)) in H; try subst
  | H : Ok _ = Ok _ |- _ => injection H as H; try subst
  | H : Err _ = Ok _ |- _ => discriminate H
  | H : Panic = Ok _ |- _ => discriminate H
  | H : OutOfFuel = Ok _ |- _ => discriminate H
  | u : unit |- _ => destruct u
  end.

(** [case_match_hyp H]: case analysis on the innermost [match] of [H]. *)
Ltac case_in H :=
  match type of H with
  | context [match ?x with _ => _ end] =>
      lazymatch x with
      | context [match _ with _ => _ end] => fail
      | _ => let E := fresh "E" in destruct x eqn:E; try discriminate H
      end
  end.

(** [ored]: reduce the outcome operations only. *)
Ltac ored :=
  cbn [mbind outcome_bind mret outcome_ret fmap outcome_fmap map_err ok_or unwrap ok
       fail_if returns].
Tactic Notation "ored" "in" hyp(H) :=
  cbn [mbind outcome_bind mret outcome_ret fmap outcome_fmap map_err ok_or unwrap ok
       fail_if returns] in H.
