(* ===== verification/Bytes.v ===== *)
(** * Rust strings and bytes

    A Rust [String] is its UTF-8 byte sequence, a Rocq [string]; [u8] is
    [ascii].  This file holds the parts of the standard library's [str], [u8]
    and [char] interfaces the sources use: ASCII classes and case, [trim] with
    Unicode [White_Space], [find], [contains], [starts_with], [parse::<usize>]
    and the decimal printer behind [format!]. *)

From S2P Require Import Prelude.
From Stdlib Require Import Lia ZArith.

Definition bytes := list ascii.

Abbreviation to_bytes := list_ascii_of_string (only parsing).
Abbreviation of_bytes := string_of_list_ascii (only parsing).

Lemma to_of_bytes (l : bytes) : to_bytes (of_bytes l) = l.
Proof. apply list_ascii_of_string_of_list_ascii. Qed.
Lemma of_to_bytes (s : string) : of_bytes (to_bytes s) = s.
Proof. apply string_of_list_ascii_of_string. Qed.

Lemma to_bytes_inj (s t : string) : to_bytes s = to_bytes t -> s = t.
Proof. intros H. by rewrite <- (of_to_bytes s), H, of_to_bytes. Qed.

Lemma to_bytes_app (s t : string) : to_bytes (s +:+ t) = to_bytes s ++ to_bytes t.
Proof. induction s as [|c s IH]; simpl; [done|]. by rewrite IH. Qed.

Lemma of_bytes_app (l k : bytes) : of_bytes (l ++ k) = of_bytes l +:+ of_bytes k.
Proof. induction l as [|c l IH]; simpl; [done|]. by rewrite IH. Qed.

Lemma str_app_assoc (a b c : string) : a +:+ (b +:+ c) = (a +:+ b) +:+ c.
Proof. apply to_bytes_inj. rewrite !to_bytes_app. apply app_assoc. Qed.

Lemma str_app_nil_r (a : string) : a +:+ "" = a.
Proof. apply to_bytes_inj. rewrite to_bytes_app. apply app_nil_r. Qed.

Lemma append_inj_l (a b c : string) : a +:+ b = a +:+ c -> b = c.
Proof. induction a as [|x a IH]; simpl; [done|]. intros [= H]. auto. Qed.

Lemma append_inj_r (a b c : string) : a +:+ c = b +:+ c -> a = b.
Proof.
  intros H. apply to_bytes_inj. apply (f_equal to_bytes) in H. rewrite !to_bytes_app in H.
  by apply app_inv_tail in H.
Qed.

(** Texts without the separator are told apart by it. *)
Lemma split_sep (x : ascii) (a b c d : string) :
  x ∉ to_bytes a -> x ∉ to_bytes c ->
  a +:+ of_bytes [x] +:+ b = c +:+ of_bytes [x] +:+ d -> a = c /\ b = d.
Proof.
  revert c. induction a as [|y a IH]; intros [|z c] Ha Hc Heq.
  - by injection Heq.
  - injection Heq as <- _. exfalso. apply Hc. left.
  - injection Heq as -> _. exfalso. apply Ha. left.
  - injection Heq as -> Heq. apply not_elem_of_cons in Ha as [_ Ha], Hc as [_ Hc].
    by destruct (IH c Ha Hc Heq) as [-> ->].
Qed.

Create Rewrite HintDb bytes.
#[export] Hint Rewrite to_of_bytes of_to_bytes to_bytes_app of_bytes_app : bytes.

(** ** ASCII classes *)

Definition byte_in (lo hi : nat) (c : ascii) : bool :=
  (lo <=? nat_of_ascii c)%nat && (nat_of_ascii c <=? hi)%nat.

Definition is_ascii_digit (c : ascii) : bool := byte_in 48 57 c.
Definition is_ascii_upper (c : ascii) : bool := byte_in 65 90 c.
Definition is_ascii_lower (c : ascii) : bool := byte_in 97 122 c.
Definition is_ascii_alphabetic (c : ascii) : bool := is_ascii_upper c || is_ascii_lower c.
Definition is_ascii_alphanumeric (c : ascii) : bool :=
  is_ascii_alphabetic c || is_ascii_digit c.

Definition to_ascii_uppercase (c : ascii) : ascii :=
  if is_ascii_lower c then ascii_of_nat (nat_of_ascii c - 32) else c.
Definition to_ascii_lowercase (c : ascii) : ascii :=
  if is_ascii_upper c then ascii_of_nat (nat_of_ascii c + 32) else c.

Definition str_to_ascii_lowercase (s : string) : string :=
  of_bytes (to_ascii_lowercase <$> to_bytes s).

(** [[u8]::eq_ignore_ascii_case] *)
Definition eq_ignore_ascii_case (a b : bytes) : bool :=
  bool_decide ((to_ascii_lowercase <$> a) = (to_ascii_lowercase <$> b)).

(** A UTF-8 continuation byte [10xxxxxx]: every other byte starts a [char]. *)
Definition is_continuation (c : ascii) : bool := byte_in 128 191 c.

(** ** Prefixes and searching *)

(** [str::strip_prefix] *)
Fixpoint strip_prefix (p s : bytes) : option bytes :=
  match p, s with
  | [], s => Some s
  | a :: p, b :: s => if Ascii.eqb a b then strip_prefix p s else None
  | _ :: _, [] => None
  end.

Definition starts_with (p s : string) : bool :=
  match strip_prefix (to_bytes p) (to_bytes s) with Some _ => true | None => false end.

Lemma strip_prefix_Some p s r : strip_prefix p s = Some r <-> s = p ++ r.
Proof.
  revert s. induction p as [|a p IH]; intros s; simpl; [naive_solver|].
  destruct s as [|b s]; [naive_solver|].
  destruct (Ascii.eqb_spec a b) as [->|Hne]; [|naive_solver].
  rewrite IH. naive_solver.
Qed.

Lemma starts_with_spec p s : starts_with p s = true <-> exists r, s = p +:+ r.
Proof.
  unfold starts_with. destruct (strip_prefix _ _) as [r|] eqn:E; split; try done.
  - intros _. exists (of_bytes r). apply to_bytes_inj.
    rewrite to_bytes_app, to_of_bytes. by apply strip_prefix_Some.
  - intros [r ->]. exfalso.
    assert (strip_prefix (to_bytes p) (to_bytes (p +:+ r)) = Some (to_bytes r)) as H
      by (apply strip_prefix_Some; apply to_bytes_app).
    congruence.
Qed.

(** [str::find] of a one-byte character or of a class of bytes: the offset of
    the first byte that satisfies the predicate. *)
Fixpoint find_byte (p : ascii -> bool) (s : bytes) : option nat :=
  match s with
  | [] => None
  | c :: s => if p c then Some O else S <$> find_byte p s
  end.

Lemma find_byte_Some p s n :
  find_byte p s = Some n <->
  exists l c r, s = l ++ c :: r /\ length l = n /\ p c = true /\ forallb (fun x => negb (p x)) l = true.
Proof.
  revert n. induction s as [|a s IH]; intros n; simpl.
  { split; [done|]. intros (l & c & r & ? & _). by destruct l. }
  destruct (p a) eqn:Ha.
  - split.
    + intros [= <-]. by exists [], a, s.
    + intros (l & c & r & Hs & <- & _ & Hl). destruct l as [|b l]; [done|].
      simplify_eq/=. by rewrite Ha in Hl.
  - split.
    + destruct (find_byte p s) as [m|]; [|done]. intros [= <-].
      destruct (proj1 (IH m) eq_refl) as (l & c & r & -> & <- & Hc & Hl).
      exists (a :: l), c, r. simpl. by rewrite Ha, Hl.
    + intros (l & c & r & Hs & <- & Hc & Hl).
      destruct l as [|b l]; simplify_eq/=; [congruence|].
      apply andb_prop in Hl as [_ Hl].
      rewrite (proj2 (IH (length l))); [done|]. by exists l, c, r.
Qed.

Lemma find_byte_None p s : find_byte p s = None <-> forallb (fun x => negb (p x)) s = true.
Proof.
  induction s as [|a s IH]; simpl; [done|].
  destruct (p a); simpl; [done|]. rewrite <- IH. by destruct (find_byte p s).
Qed.

(** [str::find] and [str::contains] of a substring. *)
Fixpoint find_sub (p s : bytes) : option nat :=
  match strip_prefix p s with
  | Some _ => Some O
  | None => match s with [] => None | _ :: s => S <$> find_sub p s end
  end.

Definition contains_sub (p s : string) : bool :=
  match find_sub (to_bytes p) (to_bytes s) with Some _ => true | None => false end.

(** [str::contains] of one byte. *)
Definition contains_byte (c : ascii) (s : string) : bool :=
  existsb (Ascii.eqb c) (to_bytes s).

(** ** Whitespace *)

(** The characters of Unicode's [White_Space], by their UTF-8 encodings of one,
    two and three bytes. *)
Definition ws1 (a : ascii) : bool := byte_in 9 13 a || byte_in 32 32 a.
Definition ws2 (a b : ascii) : bool :=
  byte_in 194 194 a && (byte_in 133 133 b || byte_in 160 160 b).
Definition ws3 (a b c : ascii) : bool :=
  (byte_in 225 225 a && byte_in 154 154 b && byte_in 128 128 c)
  || (byte_in 226 226 a && byte_in 128 128 b
      && (byte_in 128 138 c || byte_in 168 169 c || byte_in 175 175 c))
  || (byte_in 226 226 a && byte_in 129 129 b && byte_in 159 159 c)
  || (byte_in 227 227 a && byte_in 128 128 b && byte_in 128 128 c).

(** [str::trim_start] *)
Fixpoint trim_start (s : bytes) : bytes :=
  match s with
  | a :: s1 =>
      if ws1 a then trim_start s1 else
      match s1 with
      | b :: s2 =>
          if ws2 a b then trim_start s2 else
          match s2 with
          | c :: s3 => if ws3 a b c then trim_start s3 else s
          | [] => s
          end
      | [] => s
      end
  | [] => []
  end.

(** [str::trim_end], on the reversed bytes. *)
Fixpoint trim_start_rev (s : bytes) : bytes :=
  match s with
  | a :: s1 =>
      if ws1 a then trim_start_rev s1 else
      match s1 with
      | b :: s2 =>
          if ws2 b a then trim_start_rev s2 else
          match s2 with
          | c :: s3 => if ws3 c b a then trim_start_rev s3 else s
          | [] => s
          end
      | [] => s
      end
  | [] => []
  end.

Definition trim_end (s : bytes) : bytes := reverse (trim_start_rev (reverse s)).

Definition trim (s : bytes) : bytes := trim_end (trim_start s).

Definition str_trim (s : string) : string := of_bytes (trim (to_bytes s)).

(** A text between braces has no white space around it. *)
Lemma trim_braces s : trim ("{"%char :: s ++ ["}"%char]) = "{"%char :: s ++ ["}"%char].
Proof.
  assert (forall t, trim_start ("{"%char :: t) = "{"%char :: t) as Hl
    by (intros [|b [|c t]]; reflexivity).
  assert (forall t, trim_start_rev ("}"%char :: t) = "}"%char :: t) as Hr.
  { intros [|b [|c t]]; cbn [trim_start_rev]; unfold ws1, ws2, ws3;
      repeat match goal with |- context [byte_in ?l ?h "}"] =>
        change (byte_in l h "}") with false end;
      rewrite ?orb_false_r, ?andb_false_r; done. }
  unfold trim, trim_end. rewrite Hl.
  change ("{"%char :: s ++ ["}"%char]) with (("{"%char :: s) ++ ["}"%char]).
  rewrite reverse_snoc, Hr, reverse_cons, reverse_involutive. done.
Qed.

(** [trim_end_matches] of a class of one-byte characters. *)
Fixpoint drop_while (p : ascii -> bool) (s : bytes) : bytes :=
  match s with
  | [] => []
  | c :: s' => if p c then drop_while p s' else s
  end.

Definition trim_end_matches (p : ascii -> bool) (s : bytes) : bytes :=
  reverse (drop_while p (reverse s)).

Definition is_crlf (c : ascii) : bool := byte_in 10 10 c || byte_in 13 13 c.

Lemma drop_while_nil p s : forallb (fun c => negb (p c)) s = true -> drop_while p s = s.
Proof.
  destruct s as [|c s]; simpl; [done|]. by destruct (p c).
Qed.

Lemma forallb_reverse {A} (p : A -> bool) (l : list A) :
  forallb p (reverse l) = forallb p l.
Proof.
  apply eq_true_iff_eq. rewrite !forallb_forall.
  setoid_rewrite <- list_elem_of_In. by setoid_rewrite elem_of_reverse.
Qed.

Lemma trim_end_matches_id p s :
  forallb (fun c => negb (p c)) s = true -> trim_end_matches p s = s.
Proof.
  intros H. unfold trim_end_matches.
  rewrite drop_while_nil by (by rewrite forallb_reverse). apply reverse_involutive.
Qed.

(** [is_empty] *)
Definition is_empty (s : bytes) : bool := match s with [] => true | _ => false end.

Lemma is_empty_false s : is_empty s = false <-> s <> [].
Proof. by destruct s. Qed.

(** ** Numbers *)

Definition usize_max : Z := 2 ^ 64 - 1.
Definition u16_max : Z := 65535.
Definition u32_max : Z := 2 ^ 32 - 1.
Definition u64_max : Z := 2 ^ 64 - 1.
Definition i32_max : Z := 2 ^ 31 - 1.

Definition in_range (lo hi n : Z) : Prop := (lo <= n <= hi)%Z.

Definition digit_value (c : ascii) : Z := Z.of_nat (nat_of_ascii c) - 48.

(** [parse::<usize>] of a non-empty string of digits, [None] when it
    overflows: the value is accumulated with checked operations. *)
Fixpoint parse_digits (acc : Z) (s : bytes) : option Z :=
  match s with
  | [] => Some acc
  | c :: s =>
      if is_ascii_digit c then
        let acc' := (acc * 10 + digit_value c)%Z in
        if (acc' <=? usize_max)%Z then parse_digits acc' s else None
      else None
  end.

Lemma parse_digits_range acc s n :
  (0 <= acc <= usize_max)%Z -> parse_digits acc s = Some n -> in_range 0 usize_max n.
Proof.
  revert acc. induction s as [|c s IH]; intros acc Hacc; simpl; [intros [= <-]; done|].
  destruct (is_ascii_digit c) eqn:Hc; [|done].
  destruct (Z.leb_spec (acc * 10 + digit_value c) usize_max); [|done].
  apply IH. split; [|done].
  unfold is_ascii_digit, byte_in, digit_value in *.
  apply andb_prop in Hc as [H1%Nat.leb_le H2%Nat.leb_le]. lia.
Qed.

(** [checked_mul] on [usize]. *)
Definition checked_mul (a b : Z) : option Z :=
  if (a * b <=? usize_max)%Z then Some (a * b)%Z else None.

(** [saturating_add] on [u64]. *)
Definition saturating_add (a b : Z) : Z := Z.min (a + b) u64_max.

(** [x.to_string()] of an unsigned integer. *)
Definition show (n : Z) : string := pretty n.

Lemma pretty_N_go_digits x s :
  forallb is_ascii_digit (to_bytes s) = true ->
  forallb is_ascii_digit (to_bytes (pretty_N_go x s)) = true.
Proof.
  revert s. induction (N.lt_wf_0 x) as [x _ IH]. intros s Hs.
  destruct (decide (0 < x)%N) as [Hpos|Hz].
  - rewrite pretty_N_go_step by done. apply IH; [by apply N.div_lt|].
    simpl. rewrite Hs, andb_true_r. unfold pretty_N_char. by repeat case_match.
  - assert (x = 0)%N as -> by lia. by rewrite pretty_N_go_0.
Qed.

Lemma show_nat n : (0 < n)%Z -> show n = pretty_N_go (Z.to_N n) "".
Proof. by destruct n. Qed.

Lemma show_digits n : (0 <= n)%Z -> forallb is_ascii_digit (to_bytes (show n)) = true.
Proof.
  intros Hn. destruct (decide (n = 0)%Z) as [->|]; [done|].
  rewrite show_nat by lia. by apply pretty_N_go_digits.
Qed.

(** ** Joining *)

(** [slice::join] *)
Fixpoint join (sep : string) (l : list string) : string :=
  match l with
  | [] => ""
  | [s] => s
  | s :: l => s +:+ sep +:+ join sep l
  end.

(** ** UTF-8 *)

(** The bytes a leading byte asks for: the range of the second byte and how many
    continuation bytes follow it. *)
Definition utf8_lead (b : ascii) : option (nat * nat * nat) :=
  if byte_in 194 223 b then Some (128, 191, 0)
  else if byte_in 224 224 b then Some (160, 191, 1)
  else if byte_in 225 236 b || byte_in 238 239 b then Some (128, 191, 1)
  else if byte_in 237 237 b then Some (128, 159, 1)
  else if byte_in 240 240 b then Some (144, 191, 2)
  else if byte_in 241 243 b then Some (128, 191, 2)
  else if byte_in 244 244 b then Some (128, 143, 2)
  else None.

(** How many of the first [n] bytes are continuation bytes, in a row. *)
Fixpoint cont_run (n : nat) (s : bytes) : nat :=
  match n, s with
  | S n, c :: s => if is_continuation c then S (cont_run n s) else 0
  | _, _ => 0
  end.

(** The first sequence of a non-empty string: whether it is a well-formed
    character, and its length; an ill-formed sequence is as long as its longest
    well-formed prefix, and at least one byte. *)
Definition utf8_step (b : ascii) (r : bytes) : bool * nat :=
  if byte_in 0 127 b then (true, 1) else
  match utf8_lead b with
  | None => (false, 1)
  | Some (lo, hi, k) =>
      match r with
      | c :: r' =>
          if byte_in lo hi c
          then let n := cont_run k r' in ((n =? k)%nat, 2 + n)
          else (false, 1)
      | [] => (false, 1)
      end
  end.

Fixpoint utf8_decode (fuel : nat) (s : bytes) : list (bool * bytes) :=
  match fuel, s with
  | S fuel, b :: r =>
      let '(good, n) := utf8_step b r in
      (good, take n s) :: utf8_decode fuel (drop n s)
  | _, _ => []
  end.

(** The characters and the ill-formed sequences of a string. *)
Definition utf8_chunks (s : bytes) : list (bool * bytes) := utf8_decode (length s) s.

(** [str::from_utf8(s).is_ok()] *)
Definition utf8_valid (s : bytes) : bool := forallb fst (utf8_chunks s).

(** U+FFFD *)
Definition replacement : bytes := [ascii_of_nat 239; ascii_of_nat 191; ascii_of_nat 189].

(** [String::from_utf8_lossy] *)
Definition from_utf8_lossy (s : bytes) : bytes :=
  flat_map (fun c : bool * bytes => if c.1 then c.2 else replacement) (utf8_chunks s).

(** [Path::to_string_lossy] *)
Definition to_string_lossy (p : string) : string := of_bytes (from_utf8_lossy (to_bytes p)).

(** ASCII text is UTF-8, one character per byte. *)
Lemma utf8_chunks_ascii s :
  forallb (byte_in 0 127) s = true -> utf8_chunks s = map (fun c => (true, [c])) s.
Proof.
  unfold utf8_chunks. induction s as [|c s IH]; [done|].
  intros [Hc Hs]%andb_prop. cbn [length utf8_decode]. unfold utf8_step. rewrite Hc.
  cbn [drop take map]. by rewrite drop_0, IH.
Qed.

Lemma utf8_valid_ascii s : forallb (byte_in 0 127) s = true -> utf8_valid s = true.
Proof.
  intros Hs. unfold utf8_valid. rewrite utf8_chunks_ascii by done. clear Hs. by induction s.
Qed.

Lemma utf8_step_pos b r : 0 < (utf8_step b r).2.
Proof.
  unfold utf8_step. destruct (byte_in 0 127 b); [simpl; lia|].
  destruct (utf8_lead b) as [[[lo hi] k]|]; [|simpl; lia].
  destruct r as [|c r]; [simpl; lia|]. destruct (byte_in lo hi c); simpl; lia.
Qed.

(** The fuel of [utf8_chunks] is enough: every sequence eats a byte. *)
Lemma utf8_decode_fuel fuel s : length s <= fuel -> utf8_decode fuel s = utf8_chunks s.
Proof.
  revert s. assert (forall m n s, length s <= m -> length s <= n ->
    utf8_decode m s = utf8_decode n s) as Hmn.
  { induction m as [|m IH]; intros n [|b r] Hm Hn; simpl in Hm; [by destruct n|lia|by destruct n|].
    destruct n as [|n]; [simpl in Hn; lia|]. cbn [utf8_decode]. pose proof (utf8_step_pos b r).
    destruct (utf8_step b r) as [good k]. simpl in *. f_equal.
    apply IH; rewrite length_drop; simpl; lia. }
  intros s Hs. by apply Hmn.
Qed.

Lemma utf8_chunks_cons b r :
  utf8_chunks (b :: r) =
    ((utf8_step b r).1, take (utf8_step b r).2 (b :: r)) ::
    utf8_chunks (drop (utf8_step b r).2 (b :: r)).
Proof.
  unfold utf8_chunks at 1. cbn [length utf8_decode]. pose proof (utf8_step_pos b r).
  destruct (utf8_step b r) as [good n]. simpl in *. f_equal.
  apply utf8_decode_fuel. rewrite length_drop. simpl. lia.
Qed.

Lemma cont_run_app k l c s :
  is_continuation c = false ->
  cont_run k (l ++ c :: s) = cont_run k (l ++ [c]) /\ cont_run k (l ++ c :: s) <= length l.
Proof.
  intros Hc. revert k. induction l as [|x l IH]; intros [|k]; simpl; try (split; [done|lia]);
    [rewrite Hc; split; [done|lia]|].
  destruct (is_continuation x); [|split; [done|lia]]. destruct (IH k) as [-> ?]. split; [done|lia].
Qed.

Lemma byte_in_apart lo hi lo' hi' c :
  hi < lo' -> byte_in lo hi c = true -> byte_in lo' hi' c = false.
Proof.
  unfold byte_in. intros Hh [H1 H2]%andb_prop. apply andb_false_iff. left.
  apply Nat.leb_gt. apply Nat.leb_le in H2. lia.
Qed.

Lemma utf8_lead_high b lo hi k : utf8_lead b = Some (lo, hi, k) -> 127 < lo.
Proof. unfold utf8_lead. repeat case_match; intros; simplify_eq; lia. Qed.

(** An ASCII character is never part of a longer sequence. *)
Lemma utf8_step_app b l c s :
  byte_in 0 127 c = true ->
  utf8_step b (l ++ c :: s) = utf8_step b (l ++ [c]) /\ (utf8_step b (l ++ c :: s)).2 <= S (length l).
Proof.
  intros Hc. unfold utf8_step. destruct (byte_in 0 127 b); [split; [done|simpl; lia]|].
  destruct (utf8_lead b) as [[[lo hi] k]|] eqn:E; [|split; [done|simpl; lia]].
  apply utf8_lead_high in E. destruct l as [|x l]; simpl.
  - rewrite (byte_in_apart 0 127 lo hi c) by done. split; [done|simpl; lia].
  - destruct (byte_in lo hi x); [|split; [done|simpl; lia]].
    assert (is_continuation c = false) as Hn by (apply (byte_in_apart 0 127); [lia|done]).
    destruct (cont_run_app k l c s Hn) as [-> ?]. split; [done|simpl in *; lia].
Qed.

Lemma utf8_chunks_app l c s :
  byte_in 0 127 c = true ->
  utf8_chunks (l ++ c :: s) = utf8_chunks (l ++ [c]) ++ utf8_chunks s.
Proof.
  intros Hc. remember (length l) as n eqn:Hn. revert l Hn.
  induction (lt_wf n) as [n _ IH]; intros l ->. destruct l as [|b l]; simpl.
  - rewrite !utf8_chunks_cons. unfold utf8_step. rewrite Hc. cbn [fst snd drop take]. by rewrite drop_0.
  - rewrite !utf8_chunks_cons. pose proof (utf8_step_pos b (l ++ c :: s)) as Hpos.
    destruct (utf8_step_app b l c s Hc) as [<- Hle].
    destruct (utf8_step b (l ++ c :: s)) as [good k]. cbn [fst snd] in *.
    rewrite !app_comm_cons, !take_app_le, !drop_app_le by (simpl; lia).
    cbn [app]. f_equal. apply IH with (length (drop k (b :: l))); [|done].
    rewrite length_drop. simpl. lia.
Qed.

Lemma concat_chunks s : concat (map snd (utf8_chunks s)) = s.
Proof.
  unfold utf8_chunks. assert (length s <= length s) as Hf by lia. revert Hf.
  generalize (length s) at 2 3 as fuel. intros fuel. revert s.
  induction fuel as [|fuel IH]; intros [|b r] Hf; cbn [utf8_decode]; try done; [simpl in Hf; lia|].
  pose proof (utf8_step_pos b r) as Hp. destruct (utf8_step b r) as [good n]. simpl in Hp.
  cbn [map concat snd]. rewrite IH; [apply take_drop|].
  rewrite length_drop. simpl in *. lia.
Qed.

Lemma from_utf8_lossy_valid s : utf8_valid s = true -> from_utf8_lossy s = s.
Proof.
  intros Hs. rewrite <- (concat_chunks s) at 2. unfold from_utf8_lossy, utf8_valid in *.
  induction (utf8_chunks s) as [|[good c] l IH]; [done|]. simpl in *.
  apply andb_prop in Hs as [-> Hs]. by rewrite IH.
Qed.

(** ** Numbers as texts of digits, for concrete codecs *)

Fixpoint digits_of_pos (p : positive) : bytes :=
  match p with
  | xH => ["1"%char]
  | xO p => "0"%char :: digits_of_pos p
  | xI p => "2"%char :: digits_of_pos p
  end.

Fixpoint pos_of_digits (s : bytes) : positive :=
  match s with
  | "0"%char :: s => xO (pos_of_digits s)
  | "2"%char :: s => xI (pos_of_digits s)
  | _ => xH
  end.

Lemma pos_digits p : pos_of_digits (digits_of_pos p) = p.
Proof. induction p; simpl; by rewrite ?IHp. Qed.

Lemma pos_digits_end p : pos_of_digits (digits_of_pos p ++ ["}"%char]) = p.
Proof. induction p; simpl; by rewrite ?IHp. Qed.

Lemma digits_ascii p : forallb (byte_in 0 127) (digits_of_pos p) = true.
Proof. by induction p; simpl. Qed.
