(* ===== verification/BMap.v ===== *)
(** * [BTreeMap]

    A [BTreeMap<K, V>] is the list of its entries in strictly increasing key
    order, so that iterating the map visits the entries in the order the
    sources see.  The class [StrictOrd] is what the map asks of its keys; its
    instances are [String] (byte order) and the unsigned integers ([Z]). *)

From S2P Require Import Prelude.
From Stdlib Require Import Lia ZArith Sorted.

(** ** Ordered keys *)

Class StrictOrd (K : Type) := {
  kcmp : K -> K -> comparison;
  kcmp_eq a b : kcmp a b = Eq <-> a = b;
  kcmp_antisym a b : kcmp b a = CompOpp (kcmp a b);
  kcmp_trans a b c : kcmp a b = Lt -> kcmp b c = Lt -> kcmp a c = Lt;
}.

Lemma string_compare_trans (a b c : string) :
  String.compare a b = Lt -> String.compare b c = Lt -> String.compare a c = Lt.
Proof.
  revert b c. induction a as [|x a IH]; intros [|y b] [|z c]; simpl; try done.
  unfold Ascii.compare.
  destruct (N.compare_spec (N_of_ascii x) (N_of_ascii y)) as [E1|L1|];
  destruct (N.compare_spec (N_of_ascii y) (N_of_ascii z)) as [E2|L2|]; try done;
    intros H1 H2.
  - rewrite E1, E2, N.compare_refl. by eapply IH.
  - rewrite E1. by apply N.compare_lt_iff in L2 as ->.
  - rewrite <- E2. by apply N.compare_lt_iff in L1 as ->.
  - assert (N_of_ascii x < N_of_ascii z)%N as ->%N.compare_lt_iff by lia. done.
Qed.

#[export, refine] Instance string_strict_ord : StrictOrd string :=
  {| kcmp := String.compare |}.
Proof.
  - intros a b. split; [apply String.compare_eq_iff|intros ->].
    induction b as [|c b IH]; simpl; [done|]. unfold Ascii.compare. by rewrite N.compare_refl.
  - intros a b. rewrite (String.compare_antisym a b). by rewrite CompOpp_involutive.
  - apply string_compare_trans.
Defined.

#[export, refine] Instance Z_strict_ord : StrictOrd Z := {| kcmp := Z.compare |}.
Proof.
  - apply Z.compare_eq_iff.
  - intros a b. apply Z.compare_antisym.
  - intros a b c. rewrite !Z.compare_lt_iff. lia.
Defined.

Section keys.
Context `{StrictOrd K}.

Lemma kcmp_refl a : kcmp a a = Eq.
Proof. by apply kcmp_eq. Qed.

Lemma kcmp_gt a b : kcmp a b = Gt <-> kcmp b a = Lt.
Proof. rewrite (kcmp_antisym a b). destruct (kcmp a b); naive_solver. Qed.

Lemma kcmp_lt_ne a b : kcmp a b = Lt -> a ≠ b.
Proof. intros Hlt ->. by rewrite kcmp_refl in Hlt. Qed.

Lemma kcmp_le_trans a b c : kcmp a b <> Gt -> kcmp b c <> Gt -> kcmp a c <> Gt.
Proof.
  intros Hab Hbc. destruct (kcmp a b) eqn:E1; [apply kcmp_eq in E1 as ->; done| |done].
  destruct (kcmp b c) eqn:E2; [apply kcmp_eq in E2 as <-; by rewrite E1| |done].
  by rewrite (kcmp_trans a b c).
Qed.

Definition keqb (a b : K) : bool := match kcmp a b with Eq => true | _ => false end.

Lemma keqb_true a b : keqb a b = true <-> a = b.
Proof. unfold keqb. rewrite <- kcmp_eq. by destruct (kcmp a b). Qed.

Lemma keqb_false a b : keqb a b = false <-> a ≠ b.
Proof. rewrite <- keqb_true. by destruct (keqb a b). Qed.

Lemma keqb_refl a : keqb a a = true.
Proof. by apply keqb_true. Qed.
End keys.

#[global] Arguments keqb : simpl never.
#[global] Arguments kcmp : simpl never.

(** ** The map *)

Definition bmap (K V : Type) := list (K * V).

Section operations.
Context `{StrictOrd K} {V : Type}.
Implicit Types (m : bmap K V) (k : K) (v : V).

(** [BTreeMap::get] *)
Fixpoint bget k m : option V :=
  match m with
  | [] => None
  | (j, v) :: m => if keqb k j then Some v else bget k m
  end.

(** [BTreeMap::insert] *)
Fixpoint binsert k v m : bmap K V :=
  match m with
  | [] => [(k, v)]
  | (j, w) :: m' =>
      match kcmp k j with
      | Lt => (k, v) :: m
      | Eq => (k, v) :: m'
      | Gt => (j, w) :: binsert k v m'
      end
  end.

(** [BTreeMap::retain] *)
Definition bretain (f : K -> V -> bool) m : bmap K V :=
  List.filter (fun p => f p.1 p.2) m.

(** [BTreeMap::remove] *)
Definition bremove k m : bmap K V := bretain (fun j _ => negb (keqb k j)) m.

(** [BTreeMap::contains_key] *)
Definition bcontains k m : bool :=
  match bget k m with Some _ => true | None => false end.

Definition bkeys m : list K := m.*1.
Definition bvalues m : list V := m.*2.

(** Mutating the entry of a key through [get_mut]. *)
Definition bupdate k (f : V -> V) m : bmap K V :=
  match bget k m with Some v => binsert k (f v) m | None => m end.

(** [entry(k).or_insert(v)] *)
Definition bentry k v m : bmap K V :=
  match bget k m with Some _ => m | None => binsert k v m end.

(** [BTreeMap::extend] *)
Definition bextend m (l : list (K * V)) : bmap K V :=
  foldl (fun m p => binsert p.1 p.2 m) m l.

(** [collect::<BTreeMap<_, _>>()] *)
Definition bcollect (l : list (K * V)) : bmap K V := bextend [] l.

(** A loop over [values_mut]. *)
Definition bmap_values {W} (f : K -> V -> W) m : bmap K W :=
  map (fun p => (p.1, f p.1 p.2)) m.

(** The keys are strictly increasing. *)
Definition bwf m : Prop := StronglySorted (fun p q => kcmp p.1 q.1 = Lt) m.
End operations.

Create HintDb bmap.

Section lemmas.
Context `{StrictOrd K} {V : Type}.
Implicit Types (m : bmap K V) (k j : K) (v w : V).

Lemma bget_binsert_eq k v m : bget k (binsert k v m) = Some v.
Proof.
  induction m as [|[j w] m IH]; simpl; [by rewrite keqb_refl|].
  destruct (kcmp k j) eqn:E; simpl; rewrite ?keqb_refl; try done.
  unfold keqb. by rewrite E.
Qed.

Lemma bget_binsert_ne k j v m : k ≠ j -> bget j (binsert k v m) = bget j m.
Proof.
  intros Hne. induction m as [|[i w] m IH]; simpl.
  { by rewrite (proj2 (keqb_false j k)). }
  destruct (kcmp k i) eqn:E; simpl; rewrite ?(proj2 (keqb_false j k)) by done.
  - apply kcmp_eq in E as ->. by rewrite (proj2 (keqb_false j i)).
  - done.
  - by rewrite IH.
Qed.

Lemma bget_binsert k j v m :
  bget j (binsert k v m) = if keqb k j then Some v else bget j m.
Proof.
  destruct (keqb k j) eqn:E.
  - apply keqb_true in E as ->. apply bget_binsert_eq.
  - apply keqb_false in E. by apply bget_binsert_ne.
Qed.

Lemma bget_bupdate k j f m :
  bget j (bupdate k f m) = if keqb k j then f <$> bget j m else bget j m.
Proof.
  unfold bupdate. destruct (keqb k j) eqn:E.
  - apply keqb_true in E as <-. destruct (bget k m) eqn:Hk; [|by rewrite Hk].
    by rewrite bget_binsert_eq.
  - destruct (bget k m); [|done]. by rewrite bget_binsert, E.
Qed.

Lemma bget_bentry k j v m :
  bget j (bentry k v m) =
  match bget j m with Some w => Some w | None => if keqb k j then Some v else None end.
Proof.
  unfold bentry. destruct (bget k m) eqn:Hk.
  - destruct (bget j m) eqn:Hj; [done|]. destruct (keqb k j) eqn:E; [|done].
    apply keqb_true in E as ->. congruence.
  - rewrite bget_binsert. destruct (keqb k j) eqn:E; [|by destruct (bget j m)].
    apply keqb_true in E as ->. by rewrite Hk.
Qed.

Lemma bget_bremove k j m :
  bget j (bremove k m) = if keqb k j then None else bget j m.
Proof.
  unfold bremove, bretain. induction m as [|[i w] m IH]; simpl; [by destruct (keqb k j)|].
  destruct (keqb k i) eqn:E; simpl; rewrite IH.
  - apply keqb_true in E as <-. destruct (keqb k j) eqn:E2; [done|].
    apply keqb_false in E2. by rewrite (proj2 (keqb_false j k)).
  - destruct (keqb j i) eqn:E3; [|done]. apply keqb_true in E3 as ->. by rewrite E.
Qed.

Lemma bget_bmap_values {W} (f : K -> V -> W) k m :
  bget k (bmap_values f m) = f k <$> bget k m.
Proof.
  induction m as [|[j w] m IH]; simpl; [done|].
  destruct (keqb k j) eqn:E; [|done]. by apply keqb_true in E as ->.
Qed.

Lemma bget_Some_in k v m : bget k m = Some v -> (k, v) ∈ m.
Proof.
  induction m as [|[j w] m IH]; simpl; [done|].
  destruct (keqb k j) eqn:E; [|by right; auto].
  apply keqb_true in E as ->. intros [= ->]. by left.
Qed.

Lemma bget_keys k m : k ∈ bkeys m <-> is_Some (bget k m).
Proof.
  unfold bkeys. induction m as [|[j w] m IH]; simpl.
  { split; [by intros ?%elem_of_nil|by intros []]. }
  rewrite elem_of_cons, IH. destruct (keqb k j) eqn:E.
  - apply keqb_true in E. naive_solver.
  - apply keqb_false in E. naive_solver.
Qed.

Lemma bcontains_true k m : bcontains k m = true <-> is_Some (bget k m).
Proof. unfold bcontains. destruct (bget k m); split; naive_solver. Qed.

Lemma bcontains_keys k m : bcontains k m = true <-> k ∈ bkeys m.
Proof. by rewrite bcontains_true, bget_keys. Qed.

Lemma bget_None_keys k m : bget k m = None <-> k ∉ bkeys m.
Proof. rewrite bget_keys, <- eq_None_not_Some. done. Qed.

(** *** Well-formedness *)

Lemma bwf_nil : bwf ([] : bmap K V).
Proof. constructor. Qed.

Lemma bwf_cons_inv p m : bwf (p :: m) -> bwf m /\ Forall (fun q => kcmp p.1 q.1 = Lt) m.
Proof. inversion_clear 1. done. Qed.

Lemma Forall_binsert (P : K * V -> Prop) k v m :
  Forall P m -> P (k, v) -> Forall P (binsert k v m).
Proof.
  intros Hm Hkv. induction m as [|[j w] m IH]; simpl; [by constructor|].
  apply Forall_cons in Hm as [Hj Hm].
  destruct (kcmp k j); repeat constructor; auto.
Qed.

Lemma bwf_binsert k v m : bwf m -> bwf (binsert k v m).
Proof.
  intros Hwf. induction m as [|[j w] m IH]; simpl; [repeat constructor|].
  apply bwf_cons_inv in Hwf as [Hwf Hlt].
  destruct (kcmp k j) eqn:E.
  - apply kcmp_eq in E as ->. by constructor.
  - constructor; [by constructor|]. constructor; [done|].
    eapply Forall_impl; [exact Hlt|]. intros [i x]; simpl. by apply kcmp_trans.
  - constructor; [by apply IH|]. apply Forall_binsert; [done|]. by apply kcmp_gt.
Qed.

Lemma bwf_bretain f m : bwf m -> bwf (bretain f m).
Proof.
  intros Hwf. unfold bretain. induction m as [|p m IH]; simpl; [constructor|].
  apply bwf_cons_inv in Hwf as [Hwf Hlt]. destruct (f p.1 p.2); [|by apply IH].
  constructor; [by apply IH|].
  apply Forall_forall. intros q [Hq _]%list_elem_of_In%filter_In.
  apply list_elem_of_In in Hq. by eapply Forall_forall in Hlt.
Qed.

Lemma bwf_bremove k m : bwf m -> bwf (bremove k m).
Proof. apply bwf_bretain. Qed.

Lemma bwf_bupdate k f m : bwf m -> bwf (bupdate k f m).
Proof. unfold bupdate. destruct (bget k m); auto using bwf_binsert. Qed.

Lemma bwf_bentry k v m : bwf m -> bwf (bentry k v m).
Proof. unfold bentry. destruct (bget k m); auto using bwf_binsert. Qed.

Lemma bwf_bextend l m : bwf m -> bwf (bextend m l).
Proof.
  unfold bextend. revert m. induction l as [|p l IH]; intros m Hm; simpl; [done|].
  by apply IH, bwf_binsert.
Qed.

Lemma bwf_bcollect (l : list (K * V)) : bwf (bcollect l).
Proof. apply bwf_bextend, bwf_nil. Qed.

Lemma bwf_NoDup_keys m : bwf m -> NoDup (bkeys m).
Proof.
  unfold bkeys. induction m as [|p m IH]; intros Hwf; simpl; [constructor|].
  apply bwf_cons_inv in Hwf as [Hwf Hlt]. constructor; [|by apply IH].
  intros (q & Heq & Hq)%list_elem_of_fmap.
  eapply Forall_forall in Hlt; [|exact Hq]. rewrite Heq in Hlt.
  by rewrite kcmp_refl in Hlt.
Qed.

Lemma bget_in k v m : bwf m -> bget k m = Some v <-> (k, v) ∈ m.
Proof.
  intros Hwf. split; [apply bget_Some_in|].
  induction m as [|[j w] m IH]; [by intros ?%elem_of_nil|].
  apply bwf_cons_inv in Hwf as [Hwf Hlt]. simpl.
  intros [[= -> ->]|Hin]%elem_of_cons; [by rewrite keqb_refl|].
  eapply Forall_forall in Hlt; [|exact Hin]. simpl in Hlt.
  rewrite (proj2 (keqb_false k j)); [auto|]. intros ->. by rewrite kcmp_refl in Hlt.
Qed.

Lemma bget_bretain f k m :
  bwf m ->
  bget k (bretain f m) =
  match bget k m with Some v => if f k v then Some v else None | None => None end.
Proof.
  intros Hwf. unfold bretain. induction m as [|[j w] m IH]; simpl; [done|].
  apply bwf_cons_inv in Hwf as [Hwf Hlt].
  assert (bget j m = None) as Hj.
  { apply bget_None_keys. intros (q & -> & Hq)%list_elem_of_fmap.
    eapply Forall_forall in Hlt; [|exact Hq]. simpl in Hlt. by rewrite kcmp_refl in Hlt. }
  destruct (f j w) eqn:Hf; simpl; rewrite IH by done;
    destruct (keqb k j) eqn:E; try done; apply keqb_true in E as ->; by rewrite ?Hf, ?Hj.
Qed.

(** Two maps with the same lookups are the same map. *)
Lemma bmap_eq m1 m2 : bwf m1 -> bwf m2 -> (forall k, bget k m1 = bget k m2) -> m1 = m2.
Proof.
  revert m2. induction m1 as [|[k v] m1 IH]; intros [|[j w] m2] Hwf1 Hwf2 Heq; [done|..].
  { specialize (Heq j). simpl in Heq. by rewrite keqb_refl in Heq. }
  { specialize (Heq k). simpl in Heq. by rewrite keqb_refl in Heq. }
  apply bwf_cons_inv in Hwf1 as [Hwf1 Hlt1], Hwf2 as [Hwf2 Hlt2].
  assert (forall i x m, Forall (fun q => kcmp i q.1 = Lt) m -> bget x m = None \/ kcmp i x = Lt) as Hlow.
  { intros i x m Hall. destruct (bget x m) as [y|] eqn:Hx; [right|by left].
    apply bget_Some_in in Hx. by eapply Forall_forall in Hall; [|exact Hx]. }
  assert (k = j) as ->.
  { pose proof (Heq k) as Hk. pose proof (Heq j) as Hj. simpl in Hk, Hj.
    rewrite keqb_refl in Hk, Hj.
    destruct (keqb k j) eqn:E; [by apply keqb_true in E|]. exfalso.
    apply keqb_false in E. rewrite (proj2 (keqb_false j k)) in Hj by done.
    destruct (Hlow j k m2 Hlt2) as [|L1]; [congruence|].
    destruct (Hlow k j m1 Hlt1) as [|L2]; [congruence|].
    pose proof (kcmp_trans _ _ _ L1 L2) as L. by rewrite kcmp_refl in L. }
  assert (v = w) as ->.
  { specialize (Heq j). simpl in Heq. rewrite keqb_refl in Heq. congruence. }
  f_equal. apply IH; try done. intros i. specialize (Heq i). simpl in Heq.
  destruct (keqb i j) eqn:E; [|done]. apply keqb_true in E as ->.
  destruct (Hlow j j m1 Hlt1) as [->|L]; [|by rewrite kcmp_refl in L].
  destruct (Hlow j j m2 Hlt2) as [->|L]; [done|by rewrite kcmp_refl in L].
Qed.

Lemma length_bkeys m : length (bkeys m) = length m.
Proof. apply length_fmap. Qed.

Lemma bkeys_bmap_values {W} (f : K -> V -> W) m : bkeys (bmap_values f m) = bkeys m.
Proof.
  unfold bkeys, bmap_values.
  induction m as [|p m IH]; simpl; [done|]. by f_equal.
Qed.

Lemma bwf_bmap_values {W} (f : K -> V -> W) m : bwf m -> bwf (bmap_values f m).
Proof.
  unfold bwf. induction m as [|p m IH]; intros Hwf; simpl; [constructor|].
  apply bwf_cons_inv in Hwf as [Hwf Hlt]. constructor; [by apply IH|].
  apply Forall_map. by eapply Forall_impl.
Qed.

Lemma bkeys_binsert_mem k v m j : j ∈ bkeys (binsert k v m) <-> j = k \/ j ∈ bkeys m.
Proof.
  rewrite !bget_keys, bget_binsert. destruct (keqb k j) eqn:E.
  - apply keqb_true in E. naive_solver.
  - apply keqb_false in E. naive_solver.
Qed.

Lemma binsert_present k v m : bwf m -> is_Some (bget k m) -> bkeys (binsert k v m) = bkeys m.
Proof.
  unfold bkeys. intros Hwf. induction m as [|[j w] m IH]; simpl; [by intros []|].
  apply bwf_cons_inv in Hwf as [Hwf Hlt]. intros Hs.
  destruct (kcmp k j) eqn:E; simpl.
  - by apply kcmp_eq in E as ->.
  - exfalso. assert (keqb k j = false) as Hkj by (unfold keqb; by rewrite E).
    rewrite Hkj in Hs. destruct Hs as [x Hx]. apply bget_Some_in in Hx.
    eapply Forall_forall in Hlt; [|exact Hx]. simpl in Hlt.
    pose proof (kcmp_trans _ _ _ E Hlt) as L. by rewrite kcmp_refl in L.
  - assert (keqb k j = false) as Hkj by (unfold keqb; by rewrite E).
    rewrite Hkj in Hs. f_equal. by apply IH.
Qed.

Lemma bkeys_bupdate k f m : bwf m -> bkeys (bupdate k f m) = bkeys m.
Proof.
  intros Hwf. unfold bupdate. destruct (bget k m) eqn:E; [|done].
  apply binsert_present; [done|]. by rewrite E.
Qed.
End lemmas.

#[export] Hint Resolve bwf_nil bwf_binsert bwf_bretain bwf_bremove bwf_bupdate
  bwf_bentry bwf_bextend bwf_bcollect bwf_bmap_values : bmap.
Create Rewrite HintDb bmap.
#[export] Hint Rewrite @bget_binsert @bget_bupdate @bget_bentry @bget_bremove
  @bget_bmap_values : bmap.

(** [key_cases]: decide the key comparisons left by the rewriting of lookups. *)
Ltac key_cases :=
  repeat match goal with
  | |- context [keqb ?a ?b] =>
      let E := fresh "E" in destruct (keqb a b) eqn:E;
      [apply keqb_true in E; subst | apply keqb_false in E]
  | H : context [keqb ?a ?b] |- _ =>
      let E := fresh "E" in destruct (keqb a b) eqn:E;
      [apply keqb_true in E; subst | apply keqb_false in E]
  end.

(** Looking up in an extended map: the last entry for the key wins. *)
Lemma bget_bextend `{StrictOrd K} {V} (l : list (K * V)) (m : bmap K V) k :
  bget k (bextend m l) =
  match bget k (reverse l : bmap K V) with Some v => Some v | None => bget k m end.
Proof.
  unfold bextend. revert m. induction l as [|[j w] l IH] using rev_ind; intros m; [done|].
  rewrite foldl_app, reverse_snoc. simpl. rewrite bget_binsert, IH.
  destruct (keqb j k) eqn:E.
  - apply keqb_true in E as ->. by rewrite keqb_refl.
  - apply keqb_false in E. by rewrite (proj2 (keqb_false k j)).
Qed.

Lemma bget_NoDup `{StrictOrd K} {V} (m : bmap K V) k v :
  NoDup (bkeys m) -> bget k m = Some v <-> (k, v) ∈ m.
Proof.
  intros Hnd. split; [apply bget_Some_in|]. induction m as [|[j w] m IH]; [by intros ?%elem_of_nil|].
  apply NoDup_cons in Hnd as [Hj Hnd]. simpl in *.
  intros [[= -> ->]|Hin]%elem_of_cons; [by rewrite keqb_refl|].
  rewrite (proj2 (keqb_false k j)); [auto|]. intros ->. apply Hj.
  apply list_elem_of_fmap. by exists (j, v).
Qed.

(** Extending a map with another one: the new entries win. *)
Lemma bget_bextend_map `{StrictOrd K} {V} (l m : bmap K V) k :
  bwf l -> bget k (bextend m l) = match bget k l with Some v => Some v | None => bget k m end.
Proof.
  intros Hl. rewrite bget_bextend.
  assert (bget k (reverse l : bmap K V) = bget k l) as ->; [|done].
  apply option_eq. intros v. rewrite (bget_in k v l Hl), bget_NoDup, elem_of_reverse; [done|].
  unfold bkeys. rewrite (reverse_Permutation l). by apply bwf_NoDup_keys.
Qed.

(** Collecting the entries of a map in order gives the map back. *)
Section collect.
Context `{StrictOrd K} {V : Type}.

Lemma binsert_last k (v : V) m :
  Forall (fun p => kcmp p.1 k = Lt) m -> binsert k v m = m ++ [(k, v)].
Proof.
  induction 1 as [|[j w] m Hj _ IH]; simpl in *; [done|].
  rewrite (proj2 (kcmp_gt k j)) by done. by rewrite IH.
Qed.

Lemma bcollect_id (m : bmap K V) : bwf m -> bcollect m = m.
Proof.
  unfold bcollect, bextend. intros Hm.
  assert (forall acc, bwf (acc ++ m) -> foldl (fun m p => binsert p.1 p.2 m) acc m = acc ++ m)
    as Hgen.
  { clear Hm. induction m as [|[k v] m IH]; intros acc Hs; simpl; [by rewrite app_nil_r|].
    rewrite binsert_last, IH, <- app_assoc; [done|by rewrite <- app_assoc|].
    clear IH. induction acc as [|q acc IH]; [done|].
    apply bwf_cons_inv in Hs as [Hs Hq]. constructor; [|by apply IH].
    apply Forall_app in Hq as [_ Hq]. by inversion Hq. }
  by apply (Hgen []).
Qed.
End collect.

(** A map as the multiset of its entries: one entry for a key, and the rest. *)
Section permutation.
Context `{StrictOrd K} {V : Type}.
Implicit Types (m : bmap K V).

Lemma bremove_above k m : Forall (fun q => kcmp k q.1 = Lt) m -> bremove k m = m.
Proof.
  unfold bremove, bretain. induction 1 as [|[j w] m Hj _ IH]; [done|]. simpl in *.
  rewrite (proj2 (keqb_false k j)) by by apply kcmp_lt_ne. simpl. by rewrite IH.
Qed.

Lemma bremove_cons k j w m :
  bremove k ((j, w) :: m) = if keqb k j then bremove k m else (j, w) :: bremove k m.
Proof. unfold bremove, bretain. simpl. by destruct (keqb k j). Qed.

Lemma bwf_above k v m : bwf ((k, v) :: m) -> bremove k m = m.
Proof. intros [_ Hm]%bwf_cons_inv. by apply bremove_above. Qed.

Lemma bget_perm k v m : bwf m -> bget k m = Some v -> m ≡ₚ (k, v) :: bremove k m.
Proof.
  induction m as [|[j w] m IH]; [done|]. intros Hwf. cbn [bget]. rewrite bremove_cons.
  destruct (keqb k j) eqn:E.
  - apply keqb_true in E as ->. intros [= ->]. by rewrite (bwf_above j v).
  - intros Hk. apply bwf_cons_inv in Hwf as [Hwf _]. rewrite (IH Hwf Hk) at 1. constructor.
Qed.

Lemma bremove_absent k m : bget k m = None -> bremove k m = m.
Proof.
  induction m as [|[j w] m IH]; [done|]. cbn [bget]. rewrite bremove_cons.
  destruct (keqb k j); [done|]. intros Hk. by rewrite IH.
Qed.

Lemma binsert_perm k v m : bwf m -> binsert k v m ≡ₚ (k, v) :: bremove k m.
Proof.
  induction m as [|[j w] m IH]; [done|]. intros Hwf. cbn [binsert]. rewrite bremove_cons.
  pose proof (bwf_cons_inv _ _ Hwf) as [Hwf' Hm].
  destruct (kcmp k j) eqn:E; unfold keqb; rewrite E.
  - apply kcmp_eq in E as ->. by rewrite (bwf_above j w).
  - rewrite bremove_above; [done|]. eapply Forall_impl; [exact Hm|].
    intros q Hq. simpl in *. eapply kcmp_trans; [exact E|exact Hq].
  - rewrite IH by done. constructor.
Qed.
End permutation.

Lemma bmap_values_compose {K A B C} (f : K -> A -> B) (g : K -> B -> C) (m : bmap K A) :
  bmap_values g (bmap_values f m) = bmap_values (fun k a => g k (f k a)) m.
Proof. unfold bmap_values. rewrite map_map. done. Qed.

Lemma bmap_values_ext {K A B} (f g : K -> A -> B) (m : bmap K A) :
  (forall k a, (k, a) ∈ m -> f k a = g k a) -> bmap_values f m = bmap_values g m.
Proof.
  intros Hfg. apply map_ext_in. intros [k a] Hin%list_elem_of_In. simpl. by rewrite (Hfg k a).
Qed.
