(* ===== verification/Util.v ===== *)
(** * Names and paths

    Models [src/util.rs] ([sanitize_env_key], [expand_home]) and
    [src/paths.rs]: the validation of the names that become path components and
    the layout of the data directory.  A [Path] is its string; [Path::join],
    [Path::is_absolute] and the components of a path are those of the standard
    library on Unix.  The data directory itself comes from the [directories]
    crate, the project hash from [blake3]; both are parameters. *)

From S2P Require Import Prelude Bytes.
From Stdlib Require Import Lia.

(** ** [src/util.rs] *)

(** [sanitize_env_key]: one upper-case letter, digit or underscore per [char];
    the continuation bytes of a multi-byte [char] add nothing. *)
Definition sanitize_char (c : ascii) : bytes :=
  if is_continuation c then []
  else if is_ascii_alphanumeric c then [to_ascii_uppercase c] else ["_"%char].

Definition sanitize_env_key (name : string) : string :=
  let out := of_bytes (flat_map sanitize_char (to_bytes name)) in
  if bool_decide (out = "") then "_" else out.

(** ** Paths of the standard library *)

Definition is_absolute (p : string) : bool := starts_with "/" p.

Definition ends_with_slash (p : bytes) : bool :=
  match reverse p with "/"%char :: _ => true | _ => false end.

(** [Path::join] *)
Definition path_join (base p : string) : string :=
  if is_absolute p then p
  else if bool_decide (base = "") || ends_with_slash (to_bytes base) then base +:+ p
  else base +:+ "/" +:+ p.

(** The pieces of a path between separators. *)
Fixpoint split_on (sep : ascii) (s : bytes) : list bytes :=
  match s with
  | [] => [[]]
  | c :: s =>
      if Ascii.eqb c sep then [] :: split_on sep s
      else match split_on sep s with
           | w :: ws => (c :: w) :: ws
           | [] => [[c]]
           end
  end.

(** [str::lines] *)
Definition strip_cr (line : bytes) : bytes :=
  match reverse line with c :: rest => if Ascii.eqb c "013" then reverse rest else line | [] => [] end.

Definition str_lines (text : string) : list string :=
  match reverse (split_on "010" (to_bytes text)) with
  | final :: ended =>
      map (fun l => of_bytes (strip_cr l)) (reverse ended)
      ++ (if bool_decide (final = []) then [] else [of_bytes final])
  | [] => []
  end.

(** The normal components of a path: empty pieces and interior [.] pieces are
    not components. *)
Definition components (p : string) : list string :=
  List.filter (fun w => negb (bool_decide (w = "") || bool_decide (w = ".")))
    (of_bytes <$> split_on "/"%char (to_bytes p)).

(** [Components::as_path] drops the separators and [.] pieces at both ends. *)
Fixpoint trim_path_front (s : bytes) : bytes :=
  match s with
  | "/"%char :: s => trim_path_front s
  | "."%char :: s' =>
      match s' with
      | [] => []
      | "/"%char :: s'' => trim_path_front s''
      | _ => s
      end
  | s => s
  end.

Definition trim_path (s : bytes) : bytes :=
  reverse (trim_path_front (reverse (trim_path_front s))).

(** [expand_home]: [home] is the variable [HOME] of the process. *)
Definition expand_home (home : option string) (p : string) : string :=
  match strip_prefix (to_bytes "~") (to_bytes p), home with
  | Some rest, Some h =>
      if bool_decide (rest = []) || starts_with "/" (of_bytes rest)
      then path_join h (of_bytes (trim_path rest)) else p
  | _, _ => p
  end.

(** ** [src/paths.rs] *)

Definition absolutize_path (home : option string) (base p : string) : string :=
  let expanded := expand_home home p in
  if is_absolute expanded then expanded else path_join base expanded.

Definition name_char (c : ascii) : bool :=
  is_ascii_alphanumeric c || Ascii.eqb c "." || Ascii.eqb c "_" || Ascii.eqb c "-".

Definition validate_name_for_path_component (kind value : string) : outcome unit :=
  if bool_decide (value = "") then Err (kind +:+ " name cannot be empty")
  else if bool_decide (value = ".") || bool_decide (value = "..")
  then Err ("invalid " +:+ kind +:+ " name '" +:+ value +:+ "'")
  else if negb (forallb name_char (to_bytes value))
  then Err ("invalid " +:+ kind +:+ " name '" +:+ value
            +:+ "' (allowed: A-Z, a-z, 0-9, '.', '_', '-')")
  else Ok tt.

Section layout.
(** [BaseDirs::new()], or [HOME] when it has none. *)
Context (base_dir : outcome string).
(** The hexadecimal digest of [blake3]. *)
Context (blake3_hex : string -> string).

Definition project_hash (p : string) : string := String.substring 0 12 (blake3_hex p).

Definition runs_dir : outcome string := b ← base_dir; mret (path_join b "runs").

Definition run_dir (run_id : string) : outcome string :=
  _ ← validate_name_for_path_component "run id" run_id;
  d ← runs_dir; mret (path_join d run_id).

Definition run_manifest_path (run_id : string) : outcome string :=
  d ← run_dir run_id; mret (path_join d "manifest.json").

Definition run_snapshot_path (run_id : string) : outcome string :=
  d ← run_dir run_id; mret (path_join d "devstack.yml.snapshot").

Definition run_logs_dir (run_id : string) : outcome string :=
  d ← run_dir run_id; mret (path_join d "logs").

Definition run_log_path (run_id service : string) : outcome string :=
  _ ← validate_name_for_path_component "service" service;
  d ← run_logs_dir run_id; mret (path_join d (service +:+ ".log")).

Definition run_task_logs_dir (run_id : string) : outcome string :=
  _ ← validate_name_for_path_component "run id" run_id;
  b ← base_dir; mret (path_join (path_join b "task-logs") run_id).

Definition task_log_path (run_id task_name : string) : outcome string :=
  _ ← validate_name_for_path_component "task" task_name;
  d ← run_task_logs_dir run_id; mret (path_join d (task_name +:+ ".log")).

Definition task_history_path (run_id : string) : outcome string :=
  d ← run_task_logs_dir run_id; mret (path_join d "history.json").

Definition globals_root : outcome string := b ← base_dir; mret (path_join b "globals").

Definition global_key (project_dir name : string) : outcome string :=
  _ ← validate_name_for_path_component "service" name;
  mret (project_hash project_dir +:+ "__" +:+ name).

Definition global_dir (project_dir name : string) : outcome string :=
  r ← globals_root; k ← global_key project_dir name; mret (path_join r k).

Definition global_manifest_path (project_dir name : string) : outcome string :=
  d ← global_dir project_dir name; mret (path_join d "manifest.json").

Definition global_logs_dir (project_dir name : string) : outcome string :=
  d ← global_dir project_dir name; mret (path_join d "logs").

Definition global_log_path (project_dir name : string) : outcome string :=
  _ ← validate_name_for_path_component "service" name;
  d ← global_logs_dir project_dir name; mret (path_join d (name +:+ ".log")).

Definition task_hashes_dir (project_dir : string) : outcome string :=
  b ← base_dir; mret (path_join (path_join b "task-hashes") (project_hash project_dir)).

Definition ad_hoc_task_logs_dir (project_dir : string) : outcome string :=
  b ← base_dir;
  mret (path_join (path_join b "task-logs") ("adhoc-" +:+ project_hash project_dir)).

Definition ad_hoc_task_log_path (project_dir task_name : string) : outcome string :=
  _ ← validate_name_for_path_component "task" task_name;
  d ← ad_hoc_task_logs_dir project_dir; mret (path_join d (task_name +:+ ".log")).

Definition ad_hoc_task_history_path (project_dir : string) : outcome string :=
  d ← ad_hoc_task_logs_dir project_dir; mret (path_join d "history.json").
End layout.

(** ** Lemmas *)

(** A name that may become a path component. *)
Definition valid_name (v : string) : Prop :=
  v ≠ "" /\ v ≠ "." /\ v ≠ ".." /\ Forall (fun c => name_char c = true) (to_bytes v).

Lemma validate_name_Ok kind v :
  validate_name_for_path_component kind v = Ok tt <-> valid_name v.
Proof.
  unfold validate_name_for_path_component, valid_name.
  repeat case_bool_decide; simpl; try naive_solver.
  destruct (forallb name_char (to_bytes v)) eqn:E; simpl.
  - split; [|done]. intros _. repeat split; try done.
    apply Forall_forall. intros c Hc%list_elem_of_In. by eapply forallb_forall in E.
  - split; [done|]. intros (_ & _ & _ & Hall). exfalso.
    rewrite (proj2 (forallb_forall name_char (to_bytes v))) in E; [done|].
    intros c Hc%list_elem_of_In. by eapply Forall_forall in Hall.
Qed.

Lemma validate_name_returns kind v : returns (validate_name_for_path_component kind v).
Proof.
  unfold validate_name_for_path_component.
  repeat case_bool_decide; simpl; try done. by destruct (forallb _ _).
Qed.
#[export] Hint Resolve validate_name_returns : outcome.

(** A valid name has no byte outside its alphabet; in particular no separator. *)
Lemma valid_name_no_byte v c : valid_name v -> name_char c = false -> c ∉ to_bytes v.
Proof.
  intros (_ & _ & _ & Hall) Hc Hin. eapply Forall_forall in Hall; [|exact Hin]. congruence.
Qed.

(** *** Splitting *)

Lemma split_on_nonempty sep s : split_on sep s <> [].
Proof.
  destruct s as [|c s]; simpl; [done|]. destruct (Ascii.eqb c sep); [done|].
  by destruct (split_on sep s).
Qed.

Lemma split_on_app sep s t :
  split_on sep (s ++ sep :: t) = split_on sep s ++ split_on sep t.
Proof.
  induction s as [|c s IH]; simpl; [by rewrite Ascii.eqb_refl|].
  destruct (Ascii.eqb c sep); [by rewrite IH|]. rewrite IH.
  destruct (split_on sep s) eqn:E; [by apply split_on_nonempty in E|done].
Qed.

Lemma split_on_none sep s : sep ∉ s -> split_on sep s = [s].
Proof.
  induction s as [|c s IH]; intros Hn; simpl; [done|].
  apply not_elem_of_cons in Hn as [Hne Hn].
  destruct (Ascii.eqb_spec c sep); [congruence|]. by rewrite IH.
Qed.

Lemma components_sep b v : components (b +:+ "/" +:+ v) = components b ++ components v.
Proof.
  unfold components. rewrite to_bytes_app. change (to_bytes ("/" +:+ v)) with ("/"%char :: to_bytes v).
  by rewrite split_on_app, fmap_app, List.filter_app.
Qed.

(** The components of a path that is joined with a relative one. *)
Lemma components_join base v :
  is_absolute v = false -> components (path_join base v) = components base ++ components v.
Proof.
  intros Habs. unfold path_join. rewrite Habs. case_bool_decide as Hb; simpl; [by subst|].
  destruct (ends_with_slash (to_bytes base)) eqn:Hend; [|apply components_sep].
  unfold ends_with_slash in Hend. destruct (reverse (to_bytes base)) as [|c r] eqn:Hr; [done|].
  assert (c = "/"%char) as -> by (destruct c as [[] [] [] [] [] [] [] []]; done).
  assert (base = of_bytes (reverse r) +:+ "/" +:+ "") as ->.
  { apply to_bytes_inj. rewrite str_app_nil_r, to_bytes_app, to_of_bytes. simpl.
    by rewrite <- reverse_cons, <- Hr, reverse_involutive. }
  rewrite <- !str_app_assoc, !components_sep. simpl. by rewrite app_nil_r.
Qed.

Lemma components_segment v :
  "/"%char ∉ to_bytes v -> v ≠ "" -> v ≠ "." -> components v = [v].
Proof.
  intros Hslash Hne Hdot. unfold components. rewrite split_on_none by done. simpl. rewrite of_to_bytes.
  by rewrite !bool_decide_eq_false_2.
Qed.

Lemma components_join_segment base v :
  is_absolute v = false -> "/"%char ∉ to_bytes v -> v ≠ "" -> v ≠ "." ->
  components (path_join base v) = components base ++ [v].
Proof. intros Habs ???. by rewrite components_join, (components_segment v). Qed.

Lemma split_on_piece_free sep s piece : piece ∈ split_on sep s -> sep ∉ piece.
Proof.
  revert piece. induction s as [|c s IH]; intros piece; simpl.
  - intros ->%list_elem_of_singleton. apply not_elem_of_nil.
  - destruct (Ascii.eqb_spec c sep) as [->|Hne].
    + intros [->|Hp]%elem_of_cons; [apply not_elem_of_nil|by apply IH].
    + destruct (split_on sep s) as [|w ws] eqn:E.
      * intros ->%list_elem_of_singleton. rewrite list_elem_of_singleton. congruence.
      * intros [->|Hp]%elem_of_cons; [|apply IH; by right].
        rewrite elem_of_cons. intros [?|Hin]; [congruence|]. by apply (IH w ltac:(left)).
Qed.

Lemma component_plain p v : v ∈ components p -> ("/"%char ∉ to_bytes v) /\ v ≠ "" /\ v ≠ ".".
Proof.
  unfold components. rewrite list_elem_of_In, filter_In, <- list_elem_of_In. intros [Hv Hne].
  apply list_elem_of_fmap in Hv as (piece & -> & Hp). apply split_on_piece_free in Hp.
  rewrite to_of_bytes. apply negb_true_iff, orb_false_iff in Hne as [H1 H2].
  by rewrite bool_decide_eq_false in H1, H2.
Qed.

Lemma slash_free_relative v : "/"%char ∉ to_bytes v -> is_absolute v = false.
Proof.
  intros Hs. unfold is_absolute. apply not_true_iff_false. intros [r ->]%starts_with_spec.
  apply Hs. left.
Qed.

Lemma name_char_slash : name_char "/" = false.
Proof. reflexivity. Qed.

Lemma valid_name_relative v : valid_name v -> is_absolute v = false.
Proof.
  intros Hv. apply slash_free_relative. by eapply valid_name_no_byte.
Qed.

(** Joining a valid name adds exactly that component. *)
Lemma components_join_name base v :
  valid_name v -> components (path_join base v) = components base ++ [v].
Proof.
  intros Hv. apply components_join_segment.
  - by apply valid_name_relative.
  - by eapply valid_name_no_byte.
  - apply Hv.
  - apply Hv.
Qed.

Lemma valid_name_log v : valid_name v -> valid_name (v +:+ ".log").
Proof.
  intros (Hne & _ & _ & Hall). repeat split.
  1-3: destruct v as [|a [|b [|c v]]]; simpl; done.
  rewrite to_bytes_app. apply Forall_app. split; [done|].
  repeat (constructor; [reflexivity|]). constructor.
Qed.

(** The fixed segments of the layout. *)
Lemma components_join_const base v :
  forallb name_char (to_bytes v) && negb (bool_decide (v = "") || bool_decide (v = ".")
    || bool_decide (v = "..")) = true ->
  components (path_join base v) = components base ++ [v].
Proof.
  intros [Hall Hne]%andb_prop. apply components_join_name.
  repeat case_bool_decide; try done. repeat split; try done.
  apply Forall_forall. intros c Hc%list_elem_of_In. by eapply forallb_forall in Hall.
Qed.

Create Rewrite HintDb layout.
#[export] Hint Rewrite components_join_name using (by auto using valid_name_log) : layout.
#[export] Hint Rewrite components_join_const using reflexivity : layout.

(** ** The shape of sanitized names *)

Definition env_key_char (c : ascii) : bool :=
  is_ascii_upper c || is_ascii_digit c || Ascii.eqb c "_".

Lemma sanitize_char_shape c : forallb env_key_char (sanitize_char c) = true.
Proof. by destruct c as [[] [] [] [] [] [] [] []]. Qed.

Lemma sanitize_char_fixed c : env_key_char c = true -> sanitize_char c = [c].
Proof. by destruct c as [[] [] [] [] [] [] [] []]. Qed.

Lemma flat_map_shape (l : bytes) :
  forallb env_key_char (flat_map sanitize_char l) = true.
Proof.
  induction l as [|c l IH]; simpl; [done|].
  by rewrite forallb_app, sanitize_char_shape, IH.
Qed.

Lemma flat_map_fixed (l : bytes) :
  forallb env_key_char l = true -> flat_map sanitize_char l = l.
Proof.
  induction l as [|c l IH]; simpl; [done|]. intros [Hc Hl]%andb_prop.
  by rewrite sanitize_char_fixed, IH.
Qed.

Lemma sanitize_env_key_bytes s :
  forallb env_key_char (to_bytes (sanitize_env_key s)) = true.
Proof.
  unfold sanitize_env_key. case_bool_decide; [done|].
  rewrite to_of_bytes. apply flat_map_shape.
Qed.

(** ** Properties *)

(** [sanitize_env_key] always yields a shell identifier: it is not empty,
    every byte is an upper-case letter, a digit or an underscore, and the
    function leaves its own results unchanged. *)
Theorem sanitize_env_key_identifier (s : string) :
  sanitize_env_key s ≠ "" /\
  Forall (fun c => env_key_char c = true) (to_bytes (sanitize_env_key s)) /\
  sanitize_env_key (sanitize_env_key s) = sanitize_env_key s.
Proof.
  assert (sanitize_env_key s ≠ "") as Hne
    by (unfold sanitize_env_key; case_bool_decide; [done|by simpl]).
  pose proof (sanitize_env_key_bytes s) as Hb. repeat split.
  - done.
  - apply Forall_forall. intros c Hc%list_elem_of_In. by eapply forallb_forall in Hb.
  - unfold sanitize_env_key at 1. rewrite flat_map_fixed, of_to_bytes by done.
    by rewrite bool_decide_eq_false_2.
Qed.

(** A log path that [run_log_path] returns stays inside its run's directory:
    whatever the run id and the service name are, the components of the path
    are those of the data directory followed by [runs], the run id, [logs] and
    the service's file, so that different runs or services never share a file
    and no name escapes the tree. *)
Theorem run_log_path_confined (base : string) (run_id service p : string) :
  run_log_path (Ok base) run_id service = Ok p ->
  components p = components base ++ ["runs"; run_id; "logs"; service +:+ ".log"].
Proof.
  unfold run_log_path, run_logs_dir, run_dir, runs_dir. intros H.
  outcome_simpl. simplify_eq.
  repeat match goal with
  | H : validate_name_for_path_component _ _ = Ok tt |- _ => apply validate_name_Ok in H
  end.
  autorewrite with layout. by rewrite <- !app_assoc.
Qed.

Lemma run_log_path_confined_witness :
  components "/data/devstack/runs/dev-1/logs/api.log"
  = components "/data/devstack" ++ ["runs"; "dev-1"; "logs"; "api" +:+ ".log"].
Proof. apply run_log_path_confined. vm_compute. reflexivity. Defined.
