(* ===== verification/ConfigModel.v ===== *)
(** * The configuration file

    Models [src/config/model.rs] (the data and the derived settings of a
    service), the readiness data of [src/model/readiness.rs] and the capture
    defaults of [src/model/service.rs].  Parsing TOML and YAML is [serde]'s and
    is not modelled; what the sources do with the parsed entries, such as the
    rejection of duplicate keys and the reading of byte limits, is. *)

From S2P Require Import Prelude Bytes BMap Util.
From Stdlib Require Import Lia ZArith.

(** ** Readiness: [src/model/readiness.rs] *)

(** Durations are in milliseconds. *)
Inductive ReadinessKind : Type :=
  | Tcp
  | Http (path : string) (expect_min expect_max : Z)
  | LogRegex (pattern : string)
  | Cmd (command : string)
  | Delay (duration_ms : Z)
  | Exit
  | NoReadiness.

Record ReadinessSpec := mkReadinessSpec {
  rs_kind : ReadinessKind;
  rs_timeout_ms : Z;
}.

#[export] Instance ReadinessKind_eq_dec : EqDecision ReadinessKind.
Proof. solve_decision. Defined.
#[export] Instance ReadinessSpec_eq_dec : EqDecision ReadinessSpec.
Proof. solve_decision. Defined.

Definition ReadinessSpec_new (kind : ReadinessKind) : ReadinessSpec :=
  mkReadinessSpec kind 30000.

(** ** Capture defaults: [src/model/service.rs] *)

Definition DEFAULT_CAPTURE_API_BODY_LIMIT_BYTES : Z := 256 * 1024.
Definition DEFAULT_CAPTURE_API_IGNORE_PATHS : list string :=
  ["/health"; "/healthz"; "/api/health"; "/api/healthz"; "/ready"; "/readyz";
   "/live"; "/livez"; "/ping"; "/metrics"].

(** ** The data of [src/config/model.rs] *)

Inductive PortConfig : Type :=
  | PortNone (value : string)
  | PortFixed (value : Z).

Record ReadinessHttp := mkReadinessHttp {
  rh_path : string;
  rh_expect_status : option (list Z);
}.

Record ReadinessConfig := mkReadinessConfig {
  rc_tcp : option unit;
  rc_http : option ReadinessHttp;
  rc_log_regex : option string;
  rc_cmd : option string;
  rc_delay_ms : option Z;
  rc_exit : option unit;
  rc_timeout_ms : option Z;
}.

Record TaskDefinition := mkTaskDefinition {
  td_cmd : string;
  td_cwd : option string;
  td_watch : list string;
  td_env : bmap string string;
  td_env_file : option string;
}.

Inductive TaskConfig : Type :=
  | TaskCommand (cmd : string)
  | TaskStructured (def : TaskDefinition).

Record ServiceConfig := mkServiceConfig {
  sc_cmd : string;
  sc_deps : list string;
  sc_scheme : option string;
  sc_port_env : option string;
  sc_port : option PortConfig;
  sc_capture_api : option bool;
  sc_capture_api_body_limit : option Z;
  sc_capture_api_ignore : list string;
  sc_readiness : option ReadinessConfig;
  sc_env_file : option string;
  sc_env : bmap string string;
  sc_cwd : option string;
  sc_watch : list string;
  sc_ignore : list string;
  sc_auto_restart : bool;
  sc_init : option (list string);
  sc_post_init : option (list string);
  sc_tasks : option (bmap string TaskConfig);
}.

Record StackConfig := mkStackConfig { st_services : bmap string ServiceConfig }.

Record ConfigFile := mkConfigFile {
  cf_version : Z;
  cf_stacks : bmap string StackConfig;
  cf_default_stack : option string;
  cf_globals : option (bmap string ServiceConfig);
  cf_tasks : option (bmap string TaskConfig);
  cf_env : bmap string string;
  cf_env_file : option string;
}.

Record StackPlan := mkStackPlan {
  sp_name : string;
  sp_services : bmap string ServiceConfig;
  sp_order : list string;
}.

(** [UniqueMap::visit_map]: the entries of a mapping, in document order, become
    a map unless a key occurs twice. [debug] renders the key of the error. *)
Definition visit_map {V} (debug : string -> string) (entries : list (string * V))
    : outcome (bmap string V) :=
  ofold (fun values (kv : string * V) =>
    if bcontains kv.1 values then Err ("duplicate key " +:+ debug kv.1)
    else Ok (binsert kv.1 kv.2 values)) entries [].

(** ** Ports *)

Definition port_is_none (p : PortConfig) : bool :=
  match p with PortNone value => bool_decide (value = "none") | PortFixed _ => false end.

Definition port_fixed (p : PortConfig) : option Z :=
  match p with PortFixed v => Some v | PortNone _ => None end.

(** ** The settings of a service *)

Section service.
Context (svc : ServiceConfig).

Definition scheme : string := default "http" (sc_scheme svc).
Definition port_env : string := default "PORT" (sc_port_env svc).

Definition capture_api_body_limit : Z :=
  default DEFAULT_CAPTURE_API_BODY_LIMIT_BYTES (sc_capture_api_body_limit svc).

Definition capture_api_requested : bool := default true (sc_capture_api svc).

Definition capture_api_explicitly_enabled : bool :=
  bool_decide (sc_capture_api svc = Some true).

Definition has_service_port : bool :=
  match sc_port svc with Some p => negb (port_is_none p) | None => true end.

Definition http_capture_by_default : bool :=
  bool_decide (sc_scheme svc = Some "http")
  || match sc_readiness svc with
     | Some r => match rc_http r with Some _ => true | None => false end
     | None => false
     end.

Definition capture_api_enabled (allowed has_port : bool) (scheme : string) : bool :=
  if negb allowed || negb capture_api_requested || negb has_port
     || negb (bool_decide (scheme = "http"))
  then false
  else capture_api_explicitly_enabled || http_capture_by_default.

(** The defaults, then the configured patterns that are not there yet. *)
Definition push_new (paths : list string) (p : string) : list string :=
  if bool_decide (p ∈ paths) then paths else paths ++ [p].

Definition capture_api_ignore_paths : list string :=
  foldl push_new DEFAULT_CAPTURE_API_IGNORE_PATHS (sc_capture_api_ignore svc).

Definition cwd_or (project_dir : string) : string := default project_dir (sc_cwd svc).
End service.

(** ** Readiness checks *)

Definition normalize_expect_status (range : option (list Z)) : outcome (Z * Z) :=
  match range with
  | Some [min; max] =>
      if (max <? min)%Z then Err "expect_status min > max" else Ok (min, max)
  | Some _ => Err "expect_status must have two values"
  | None => Ok (200, 399)%Z
  end.

Definition opt_list {A B} (o : option A) (f : A -> B) : list B :=
  match o with Some a => [f a] | None => [] end.

(** The names of the checks that are present, in the order of the sources. *)
Definition found_checks (r : ReadinessConfig) : list string :=
  opt_list (rc_tcp r) (fun _ => "tcp") ++ opt_list (rc_http r) (fun _ => "http")
  ++ opt_list (rc_log_regex r) (fun _ => "log_regex") ++ opt_list (rc_cmd r) (fun _ => "cmd")
  ++ opt_list (rc_delay_ms r) (fun _ => "delay_ms") ++ opt_list (rc_exit r) (fun _ => "exit").

Definition readiness_kind (svc : ServiceConfig) (has_port : bool) : outcome ReadinessKind :=
  match sc_readiness svc with
  | Some r =>
      http ← (match rc_http r with
              | Some h =>
                  '(min, max) ← normalize_expect_status (rh_expect_status h);
                  mret [Http (rh_path h) min max]
              | None => mret []
              end);
      let chosen :=
        opt_list (rc_tcp r) (fun _ => Tcp) ++ http
        ++ opt_list (rc_log_regex r) LogRegex ++ opt_list (rc_cmd r) Cmd
        ++ opt_list (rc_delay_ms r) Delay ++ opt_list (rc_exit r) (fun _ => Exit) in
      match chosen with
      | [kind] => Ok kind
      | _ =>
          match found_checks r with
          | [] => Err "readiness must specify exactly one check (found none)"
          | found => Err ("readiness must specify exactly one check (found: "
                          +:+ join ", " found +:+ ")")
          end
      end
  | None => Ok (if has_port then Tcp else NoReadiness)
  end.

Definition readiness_spec (svc : ServiceConfig) (has_port : bool) : outcome ReadinessSpec :=
  kind ← readiness_kind svc has_port;
  let timeout := match sc_readiness svc with Some r => rc_timeout_ms r | None => None end in
  mret (mkReadinessSpec kind (default 30000%Z timeout)).

(** ** Byte limits *)

Inductive CaptureApiBodyLimitConfig : Type :=
  | LimitBytes (bytes : Z)
  | LimitText (text : string).

Definition remove_spaces (s : string) : string :=
  of_bytes (List.filter (fun c => negb (Ascii.eqb c " ")) (to_bytes s)).

(** The multiplier of a unit, [None] when the unit is not supported. *)
Definition unit_multiplier (u : string) : option Z :=
  if bool_decide (u ∈ [""; "b"; "byte"; "bytes"]) then Some 1%Z
  else if bool_decide (u ∈ ["k"; "kb"; "kib"]) then Some 1024%Z
  else if bool_decide (u ∈ ["m"; "mb"; "mib"]) then Some (1024 * 1024)%Z
  else if bool_decide (u ∈ ["g"; "gb"; "gib"]) then Some (1024 * 1024 * 1024)%Z
  else None.

Definition parse_capture_api_body_limit (debug : string -> string)
    (value : CaptureApiBodyLimitConfig) : outcome Z :=
  match value with
  | LimitBytes n => Ok n
  | LimitText text =>
      let text := trim (to_bytes text) in
      if bool_decide (text = []) then Err "capture_api_body_limit cannot be empty" else
      let digit_end :=
        default (length text) (find_byte (fun c => negb (is_ascii_digit c)) text) in
      if (digit_end =? 0)%nat
      then Err "capture_api_body_limit must start with a byte count" else
      count ← ok_or (parse_digits 0 (take digit_end text))
                "number too large to fit in target type";
      let unit :=
        remove_spaces (str_to_ascii_lowercase (of_bytes (trim (drop digit_end text)))) in
      multiplier ← ok_or (unit_multiplier unit)
        ("unsupported capture_api_body_limit unit " +:+ debug unit
         +:+ "; use bytes, kb, mb, or gb");
      ok_or (checked_mul count multiplier) "capture_api_body_limit is too large"
  end.

(** ** Lemmas and properties *)

Lemma push_new_elem paths p q : q ∈ push_new paths p <-> q ∈ paths \/ q = p.
Proof. unfold push_new. case_bool_decide; set_solver. Qed.

Lemma push_new_NoDup paths p : NoDup paths -> NoDup (push_new paths p).
Proof.
  unfold push_new. case_bool_decide; [done|]. intros Hnd.
  apply NoDup_app. split; [done|]. split; [set_solver|apply NoDup_singleton].
Qed.

Lemma foldl_push_new ps paths :
  NoDup paths ->
  NoDup (foldl push_new paths ps) /\
  forall q, q ∈ foldl push_new paths ps <-> q ∈ paths \/ q ∈ ps.
Proof.
  revert paths. induction ps as [|p ps IH]; intros paths Hnd; simpl; [set_solver|].
  destruct (IH (push_new paths p) (push_new_NoDup _ p Hnd)) as [? Hin]. split; [done|].
  intros q. rewrite Hin, push_new_elem. set_solver.
Qed.

(** The ignore patterns of a service are the built-in health endpoints and
    the configured patterns, each exactly once. *)
Theorem capture_ignore_paths_union (svc : ServiceConfig) :
  NoDup (capture_api_ignore_paths svc) /\
  forall p, p ∈ capture_api_ignore_paths svc <->
            p ∈ DEFAULT_CAPTURE_API_IGNORE_PATHS \/ p ∈ sc_capture_api_ignore svc.
Proof.
  apply foldl_push_new. apply (bool_decide_unpack (NoDup DEFAULT_CAPTURE_API_IGNORE_PATHS)).
  by vm_compute.
Qed.

Lemma normalize_expect_status_Ok range min max :
  normalize_expect_status range = Ok (min, max) -> (min <= max)%Z.
Proof.
  unfold normalize_expect_status.
  destruct range as [[|a [|b [|]]]|]; try done; [|by intros [= <- <-]].
  destruct (Z.ltb_spec b a); [done|]. by intros [= <- <-].
Qed.

(** What a configured check means. *)
Definition kind_of_config (r : ReadinessConfig) (k : ReadinessKind) : Prop :=
  match k with
  | Tcp => is_Some (rc_tcp r)
  | Http path min max =>
      exists h, rc_http r = Some h /\ rh_path h = path /\
                normalize_expect_status (rh_expect_status h) = Ok (min, max)
  | LogRegex p => rc_log_regex r = Some p
  | Cmd c => rc_cmd r = Some c
  | Delay d => rc_delay_ms r = Some d
  | Exit => is_Some (rc_exit r)
  | NoReadiness => False
  end.

(** A readiness section is accepted exactly when it names one check and its
    status range, if it has one, is a range; the kind returned is that check.
    Every other section, and no service without a section, is rejected. *)
Theorem readiness_kind_exactly_one (svc : ServiceConfig) (r : ReadinessConfig)
    (has_port : bool) (k : ReadinessKind) :
  sc_readiness svc = Some r ->
  readiness_kind svc has_port = Ok k <-> length (found_checks r) = 1 /\ kind_of_config r k.
Proof.
  intros Hr. unfold readiness_kind, found_checks. rewrite Hr.
  destruct r as [tcp http log cmd delay exit to]; simpl.
  destruct http as [h|]; simpl;
    [destruct (normalize_expect_status (rh_expect_status h)) as [[min max]|e| |] eqn:En|];
    simpl; destruct tcp, log, cmd, delay, exit; simpl;
    (split;
     [ try done; (intros [= <-]; (split; [done|simpl; eauto]))
     | intros [Hl Hk]; try done; (destruct k; simpl in *; try done; try congruence; try (by destruct Hk)) ]).
  all: destruct Hk as (? & [= <-] & <- & Hn); congruence.
Qed.

Definition sample_readiness : ReadinessConfig :=
  mkReadinessConfig None (Some (mkReadinessHttp "/health" (Some [200; 299]%Z)))
    None None None None (Some 5000%Z).

Definition sample_service : ServiceConfig :=
  mkServiceConfig "pnpm api" [] None None None None None [] (Some sample_readiness)
    None [] None [] [] false None None None.

Lemma readiness_kind_exactly_one_witness :
  readiness_kind sample_service true = Ok (Http "/health" 200 299).
Proof.
  apply (proj2 (readiness_kind_exactly_one sample_service sample_readiness true
    (Http "/health" 200 299) eq_refl)).
  split; [reflexivity|]. exists (mkReadinessHttp "/health" (Some [200; 299]%Z)).
  repeat split.
Defined.

(** A byte limit read from text is a [usize]: an accepted limit is between 0
    and [usize::MAX], a count that would overflow once multiplied by its unit
    is rejected, and reading always returns a value or an error. *)
Theorem body_limit_in_range (debug : string -> string) (text : string) :
  match parse_capture_api_body_limit debug (LimitText text) with
  | Ok n => in_range 0 usize_max n
  | Err _ => True
  | Panic | OutOfFuel => False
  end.
Proof.
  unfold parse_capture_api_body_limit. case_bool_decide; [done|].
  destruct (_ =? 0)%nat; [done|].
  destruct (parse_digits 0 _) as [n|] eqn:Hn; ored; [|done].
  destruct (unit_multiplier _) as [m|] eqn:Hm; ored; [|done].
  apply parse_digits_range in Hn; [|unfold usize_max; lia].
  assert (0 < m)%Z by (unfold unit_multiplier in Hm; repeat case_bool_decide; naive_solver lia).
  unfold checked_mul, in_range in *.
  destruct (Z.leb_spec (n * m) usize_max); ored; [nia|done].
Qed.

Example body_limit_kb :
  parse_capture_api_body_limit (fun s => s) (LimitText " 64 KB ") = Ok 65536%Z.
Proof. reflexivity. Qed.
Example body_limit_unit :
  parse_capture_api_body_limit (fun s => s) (LimitText "5 parsecs")
  = Err "unsupported capture_api_body_limit unit parsecs; use bytes, kb, mb, or gb".
Proof. reflexivity. Qed.
