(* ===== verification/ConfigPlan.v ===== *)
(** * Stack plans

    Models [src/config/plan.rs]: the dependency order of the services of a
    stack (Kahn's algorithm over in-degrees and a queue) and the restriction of
    a plan to the services some targets need.  Both loops run on fuel; the
    fuel the definitions pass is enough ([kahn_run], [reach_run]). *)

From S2P Require Import Prelude Bytes BMap ConfigModel.
From stdpp Require Import relations.
From Stdlib Require Import Lia ZArith.

(** ** [topo_sort] *)

Abbreviation degrees := (bmap string Z).
Abbreviation edges := (bmap string (list string)).

(** Every service starts with in-degree 0 and no dependents. *)
Definition init_graph (services : bmap string ServiceConfig) : degrees * edges :=
  foldl (fun st name => (binsert name 0%Z st.1, binsert name [] st.2))
    ([], []) (bkeys services).

(** [dep_edges.push(service_name); *in_degree.get_mut(service_name).unwrap() += 1] *)
Definition add_edge (name : string) (st : degrees * edges) (dep : string)
    : outcome (degrees * edges) :=
  match bget dep st.2 with
  | Some dep_edges =>
      d ← unwrap (bget name st.1);
      mret (binsert name (d + 1)%Z st.1, binsert dep (dep_edges ++ [name]) st.2)
  | None => Ok st
  end.

Definition build_graph (services : bmap string ServiceConfig) : outcome (degrees * edges) :=
  ofold (fun st (e : string * ServiceConfig) => ofold (add_edge e.1) (sc_deps e.2) st)
    services (init_graph services).

(** Lower the in-degree of a dependent; queue it when it reaches 0. *)
Definition relax (st : degrees * list string) (dependent : string)
    : outcome (degrees * list string) :=
  d ← unwrap (bget dependent st.1);
  let new_degree := (d - 1)%Z in
  mret (binsert dependent new_degree st.1,
        if (new_degree =? 0)%Z then st.2 ++ [dependent] else st.2).

(** [while let Some(service) = queue.pop_front()] *)
Fixpoint kahn (fuel : nat) (graph : edges) (in_degree : degrees)
    (queue result : list string) : outcome (list string) :=
  match queue with
  | [] => Ok result
  | service :: queue =>
      match fuel with
      | O => OutOfFuel
      | S fuel =>
          st ← match bget service graph with
               | Some dependents => ofold relax dependents (in_degree, queue)
               | None => Ok (in_degree, queue)
               end;
          kahn fuel graph st.1 st.2 (result ++ [service])
      end
  end.

Definition topo_sort (services : bmap string ServiceConfig) : outcome (list string) :=
  st ← build_graph services;
  let queue := bkeys (bretain (fun _ d => (d =? 0)%Z) st.1) in
  result ← kahn (length services) st.2 st.1 queue [];
  if negb (length result =? length services)%nat
  then Err "circular dependency detected" else Ok result.

(** ** [StackPlan::filter_to] *)

(** [while let Some(name) = queue.pop_front()]: the transitive closure of the
    targets under dependency. *)
Fixpoint reach (fuel : nat) (plan : StackPlan) (needed : bmap string unit)
    (queue : list string) : outcome (bmap string unit) :=
  match queue with
  | [] => Ok needed
  | name :: queue =>
      match fuel with
      | O => OutOfFuel
      | S fuel =>
          match bget name (sp_services plan) with
          | None => Err ("unknown service '" +:+ name +:+ "' in stack '" +:+ sp_name plan +:+ "'")
          | Some svc =>
              if bcontains name needed then reach fuel plan needed queue
              else reach fuel plan (binsert name tt needed) (queue ++ sc_deps svc)
          end
      end
  end.

Definition deps_total (services : bmap string ServiceConfig) : nat :=
  sum_list_with (fun e => length (sc_deps e.2)) services.

Definition filter_to (plan : StackPlan) (targets : list string) : outcome StackPlan :=
  needed ← reach (length targets + deps_total (sp_services plan)) plan [] targets;
  mret (mkStackPlan (sp_name plan)
          (bretain (fun name _ => bcontains name needed) (sp_services plan))
          (List.filter (fun name => bcontains name needed) (sp_order plan))).

(** ** The entry points of [ConfigFile] *)

Definition stack_plan (cfg : ConfigFile) (name : string) : outcome StackPlan :=
  stack ← ok_or (bget name (cf_stacks cfg)) ("stack " +:+ name +:+ " not found");
  order ← topo_sort (st_services stack);
  mret (mkStackPlan name (st_services stack) order).

Definition stack_plan_filtered (cfg : ConfigFile) (name : string) (only : list string)
    : outcome StackPlan :=
  plan ← stack_plan cfg name;
  if bool_decide (only = []) then mret plan else filter_to plan only.

Definition globals_map (cfg : ConfigFile) : bmap string ServiceConfig :=
  default [] (cf_globals cfg).

(** ** Counting occurrences *)

Fixpoint occ (x : string) (l : list string) : nat :=
  match l with
  | [] => 0
  | y :: l => (if decide (x = y) then 1 else 0) + occ x l
  end.

Lemma occ_app x l k : occ x (l ++ k) = occ x l + occ x k.
Proof. induction l as [|y l IH]; simpl; [done|]. rewrite IH. lia. Qed.

Lemma occ_elem x l : 0 < occ x l <-> x ∈ l.
Proof.
  induction l as [|y l IH]; simpl; [split; [lia|by intros ?%elem_of_nil]|].
  rewrite elem_of_cons. destruct (decide (x = y)); [naive_solver lia|].
  rewrite <- IH. naive_solver.
Qed.

Lemma occ_0 x l : occ x l = 0 <-> x ∉ l.
Proof. rewrite <- occ_elem. lia. Qed.

(** ** Dependencies *)

Section topo.
Context (services : bmap string ServiceConfig) (Hwf : bwf services).

Abbreviation K := (bkeys services).

(** The dependencies of a service inside the stack, with multiplicity. *)
Definition inside (l : list string) : list string :=
  List.filter (fun d => bcontains d services) l.

Definition deps_of (s : string) : list string :=
  match bget s services with Some svc => inside (sc_deps svc) | None => [] end.

(** [s] depends directly on [d]. *)
Definition depends (s d : string) : Prop := d ∈ deps_of s.

Lemma inside_elem d l : d ∈ inside l <-> d ∈ l /\ d ∈ K.
Proof.
  unfold inside. rewrite list_elem_of_In, filter_In, <- list_elem_of_In.
  by rewrite bcontains_keys.
Qed.

Lemma inside_app l k : inside (l ++ k) = inside l ++ inside k.
Proof. apply List.filter_app. Qed.

Lemma deps_of_K s d : d ∈ deps_of s -> d ∈ K.
Proof.
  unfold deps_of. destruct (bget s services); [|by intros ?%elem_of_nil].
  by intros [_ ?]%inside_elem.
Qed.

(** *** The graph *)

(** The graph has recorded the dependencies [F s] of every service [s]. *)
Definition graph_inv (st : degrees * edges) (F : string -> list string) : Prop :=
  bwf st.1 /\
  (forall s, s ∈ K -> bget s st.1 = Some (Z.of_nat (length (F s)))) /\
  (forall s, is_Some (bget s st.1) <-> s ∈ K) /\
  (forall d, match bget d st.2 with
             | Some ds => d ∈ K /\ forall s, occ s ds = occ d (F s)
             | None => d ∉ K
             end).

Lemma graph_inv_ext st F G : graph_inv st F -> (forall s, F s = G s) -> graph_inv st G.
Proof.
  intros (H0 & H1 & H2 & H3) Heq. split; [done|]. split; [|split; [done|]].
  - intros s Hs. by rewrite <- Heq, H1.
  - intros d. specialize (H3 d). destruct (bget d st.2); [|done].
    destruct H3 as [? H3]. split; [done|]. intros s. by rewrite <- Heq.
Qed.

Lemma init_graph_lookup L :
  let st := foldl (fun (st : degrees * edges) name =>
              (binsert name 0%Z st.1, binsert name [] st.2)) ([], []) L in
  bwf st.1 /\
  (forall s, bget s st.1 = if bool_decide (s ∈ L) then Some 0%Z else None) /\
  (forall s, bget s st.2 = if bool_decide (s ∈ L) then Some [] else None).
Proof.
  induction L as [|x L IH] using rev_ind; simpl.
  { split; [constructor|]. by split. }
  rewrite foldl_snoc. destruct (foldl _ _ L) as [deg g]. simpl in *.
  destruct IH as (Hb & H1 & H2). split; [by auto with bmap|].
  split; intros s; rewrite bget_binsert, ?H1, ?H2; key_cases;
    repeat case_bool_decide; set_solver.
Qed.

Lemma init_graph_inv : graph_inv (init_graph services) (fun _ => []).
Proof.
  destruct (init_graph_lookup K) as (Hb & H1 & H2). unfold init_graph.
  split; [done|]. split; [|split].
  - intros s Hs. rewrite H1. by rewrite bool_decide_eq_true_2.
  - intros s. rewrite H1. case_bool_decide; split; try done; by intros [].
  - intros d. rewrite H2. by case_bool_decide.
Qed.

Lemma add_edge_some name st d es n :
  bget d st.2 = Some es -> bget name st.1 = Some n ->
  add_edge name st d = Ok (binsert name (n + 1)%Z st.1, binsert d (es ++ [name]) st.2).
Proof. intros Hd Hn. unfold add_edge. by rewrite Hd, Hn. Qed.

Lemma add_edge_none name st d : bget d st.2 = None -> add_edge name st d = Ok st.
Proof. intros Hd. unfold add_edge. by rewrite Hd. Qed.

Lemma add_edges_inv name ds st F :
  name ∈ K -> graph_inv st F ->
  exists st', ofold (add_edge name) ds st = Ok st' /\
    graph_inv st' (fun s => F s ++ if decide (s = name) then inside ds else []).
Proof.
  intros Hname. revert st F. induction ds as [|d ds IH]; intros st F HF; simpl.
  { exists st. split; [done|]. eapply graph_inv_ext; [done|]. intros s.
    destruct (decide (s = name)); by rewrite app_nil_r. }
  destruct HF as (H0 & H1 & H2 & H3).
  pose proof (H3 d) as Hd. destruct (bget d st.2) as [es|] eqn:Ees.
  - destruct Hd as [HdK Hes].
    rewrite (add_edge_some name st d es _ Ees (H1 name Hname)). ored.
    edestruct (IH (binsert name (Z.of_nat (length (F name)) + 1)%Z st.1,
                   binsert d (es ++ [name]) st.2)
                  (fun s => F s ++ if decide (s = name) then [d] else [])) as (st' & -> & Hst').
    { split; [|split; [|split]]; simpl.
      - by auto with bmap.
      - intros s Hs. rewrite bget_binsert. key_cases.
        + rewrite decide_True by done. rewrite length_app. simpl. f_equal. lia.
        + rewrite decide_False by done. by rewrite app_nil_r, H1.
      - intros s. rewrite bget_binsert. key_cases; [naive_solver|done].
      - intros d'. rewrite bget_binsert. key_cases.
        + split; [done|]. intros s. rewrite !occ_app, Hes. simpl.
          destruct (decide (s = name)) as [->|]; simpl; [|lia].
          rewrite decide_True by done. lia.
        + specialize (H3 d'). destruct (bget d' st.2); [|done].
          destruct H3 as [? H3]. split; [done|]. intros s. rewrite occ_app, H3.
          destruct (decide (s = name)); simpl; [rewrite decide_False by done|]; lia. }
    exists st'. split; [done|]. eapply graph_inv_ext; [done|]. intros s. simpl.
    apply bcontains_keys in HdK. rewrite HdK.
    destruct (decide (s = name)); rewrite <- app_assoc; [done|]. by rewrite app_nil_l.
  - rewrite (add_edge_none name st d Ees). ored. destruct (IH st F) as (st' & -> & Hst'); [by split|].
    exists st'. split; [done|]. eapply graph_inv_ext; [done|]. intros s. simpl.
    destruct (bcontains d services) eqn:Hc; [|done]. by apply bcontains_keys in Hc.
Qed.

(** What a list of entries says of the dependencies of [s]. *)
Definition entry_deps (L : list (string * ServiceConfig)) (s : string) : list string :=
  flat_map (fun e => if decide (s = e.1) then inside (sc_deps e.2) else []) L.

Lemma build_entries_inv L st F :
  (forall e, e ∈ L -> e.1 ∈ K) -> graph_inv st F ->
  exists st', ofold (fun st (e : string * ServiceConfig) =>
                       ofold (add_edge e.1) (sc_deps e.2) st) L st = Ok st' /\
    graph_inv st' (fun s => F s ++ entry_deps L s).
Proof.
  revert st F. induction L as [|e L IH]; intros st F HL HF; simpl.
  { exists st. split; [done|]. eapply graph_inv_ext; [done|]. intros s. by rewrite app_nil_r. }
  destruct (add_edges_inv e.1 (sc_deps e.2) st F) as (st1 & -> & H1); [apply HL; left|done|].
  ored. destruct (IH st1 _ (fun e He => HL e (list_elem_of_further e _ _ He)) H1)
    as (st2 & -> & H2).
  exists st2. split; [done|]. eapply graph_inv_ext; [done|]. intros s. simpl.
  by rewrite app_assoc.
Qed.

Lemma entry_deps_deps_of s : entry_deps services s = deps_of s.
Proof.
  unfold entry_deps, deps_of. clear -Hwf.
  generalize (inside). intros ins. induction services as [|[n svc] m IH]; simpl; [done|].
  apply bwf_cons_inv in Hwf as [Hm Hlt]. rewrite (IH Hm).
  destruct (keqb s n) eqn:E.
  - apply keqb_true in E as ->. rewrite decide_True by done.
    assert (bget n m = None) as ->; [|by rewrite app_nil_r].
    apply bget_None_keys. intros (q & -> & Hq)%list_elem_of_fmap.
    eapply Forall_forall in Hlt; [|exact Hq]. simpl in Hlt. by rewrite kcmp_refl in Hlt.
  - apply keqb_false in E. by rewrite decide_False.
Qed.

Lemma build_graph_spec :
  exists st, build_graph services = Ok st /\ graph_inv st deps_of.
Proof.
  unfold build_graph.
  destruct (build_entries_inv services (init_graph services) (fun _ => [])) as (st & -> & Hst).
  { intros e He. apply list_elem_of_fmap. by exists e. }
  { apply init_graph_inv. }
  exists st. split; [done|]. eapply graph_inv_ext; [done|]. intros s. simpl.
  apply entry_deps_deps_of.
Qed.

(** *** Relaxing the dependents of a service *)

Lemma relax_some deg queue d n :
  bget d deg = Some n ->
  relax (deg, queue) d = Ok (binsert d (n - 1)%Z deg,
                             if (n - 1 =? 0)%Z then queue ++ [d] else queue).
Proof. intros Hn. unfold relax. simpl. by rewrite Hn. Qed.

Lemma relax_spec ds deg queue :
  bwf deg ->
  (forall s, s ∈ ds -> exists n, bget s deg = Some (Z.of_nat n) /\ occ s ds <= n) ->
  exists deg' new, ofold relax ds (deg, queue) = Ok (deg', queue ++ new) /\
    bwf deg' /\
    (forall s, bget s deg' = (fun n => n - Z.of_nat (occ s ds))%Z <$> bget s deg) /\
    NoDup new /\
    (forall s, s ∈ new <-> s ∈ ds /\ bget s deg = Some (Z.of_nat (occ s ds))).
Proof.
  revert deg queue. induction ds as [|d ds IH]; intros deg queue Hb Hds; simpl.
  { exists deg, []. rewrite app_nil_r. split; [done|]. split; [done|].
    split; [|split; [constructor|]].
    - intros s. destruct (bget s deg); simpl; [f_equal; lia|done].
    - intros s. set_solver. }
  destruct (Hds d) as (n & Hn & Hocc); [left|]. simpl in Hocc.
  rewrite decide_True in Hocc by done.
  rewrite (relax_some deg queue d _ Hn). ored.
  edestruct (IH (binsert d (Z.of_nat n - 1)%Z deg)
                (if (Z.of_nat n - 1 =? 0)%Z then queue ++ [d] else queue))
    as (deg' & new & Hfold & Hb' & Hdeg' & Hnd & Hnew); [by auto with bmap| |].
  { intros s Hs. rewrite bget_binsert. key_cases.
    - exists (n - 1). split; [f_equal; lia|]. lia.
    - destruct (Hds s) as (m & Hm & Ho); [by right|]. exists m. split; [done|].
      simpl in Ho. rewrite decide_False in Ho by done. lia. }
  exists deg', (if (Z.of_nat n - 1 =? 0)%Z then d :: new else new).
  split; [|split; [done|split; [|split]]].
  - simpl. rewrite Hfold. destruct (Z.of_nat n - 1 =? 0)%Z; [|done].
    by rewrite <- app_assoc.
  - intros s. rewrite Hdeg', bget_binsert. key_cases.
    + rewrite Hn, decide_True by done. simpl. f_equal. lia.
    + rewrite decide_False by done. destruct (bget s deg); simpl; [f_equal; lia|done].
  - destruct (Z.eqb_spec (Z.of_nat n - 1) 0) as [Hz|]; [|done].
    constructor; [|done]. rewrite Hnew. intros [Hd _].
    apply occ_elem in Hd. lia.
  - intros s. destruct (Z.eqb_spec (Z.of_nat n - 1) 0) as [Hz|Hz];
      rewrite ?elem_of_cons, Hnew, bget_binsert; key_cases.
    + rewrite Hn, decide_True by done. split; [|naive_solver].
      intros _. split; [by left|]. f_equal. assert (occ s ds = 0); lia.
    + rewrite decide_False by done. simpl. naive_solver.
    + rewrite Hn, decide_True by done. split.
      * intros [? [= Heq]]. split; [by left|]. f_equal. lia.
      * intros [_ [= Heq]]. assert (Z.of_nat n - 1 = Z.of_nat (occ s ds))%Z as Heq' by lia.
        rewrite Heq'. split; [|done]. apply occ_elem. lia.
    + rewrite decide_False by done. simpl. naive_solver.
Qed.

(** *** The loop *)

(** How many dependencies of [s] are not among the services [P] already taken
    from the queue. *)
Definition pending (P : list string) (s : string) : nat :=
  length (List.filter (fun d => negb (bool_decide (d ∈ P))) (deps_of s)).

Definition ordered (P : list string) : Prop :=
  forall P1 s P2, P = P1 ++ s :: P2 -> forall d, d ∈ deps_of s -> d ∈ P1.

Record kahn_inv (deg : degrees) (Q P : list string) : Prop := {
  ki_wf : bwf deg;
  ki_nodup : NoDup (P ++ Q);
  ki_keys : forall s, s ∈ P ++ Q -> s ∈ K;
  ki_deg : forall s, s ∈ K -> bget s deg = Some (Z.of_nat (pending P s));
  ki_zero : forall s, s ∈ K -> s ∈ P ++ Q <-> pending P s = 0;
  ki_ordered : ordered P;
}.

Lemma pending_0 P s : pending P s = 0 <-> forall d, d ∈ deps_of s -> d ∈ P.
Proof.
  unfold pending. induction (deps_of s) as [|d l IH]; simpl.
  { split; [set_solver|done]. }
  case_bool_decide as Hd; simpl; [|split; [done|set_solver]].
  rewrite IH. set_solver.
Qed.

Lemma pending_snoc P v s :
  v ∉ P -> pending (P ++ [v]) s + occ v (deps_of s) = pending P s.
Proof.
  intros Hv. unfold pending. induction (deps_of s) as [|d l IH]; simpl; [done|].
  destruct (decide (v = d)) as [<-|Hne].
  - rewrite (bool_decide_eq_true_2 (v ∈ P ++ [v])) by set_solver.
    rewrite (bool_decide_eq_false_2 (v ∈ P)) by done. simpl. lia.
  - destruct (bool_decide (d ∈ P)) eqn:E.
    + apply bool_decide_eq_true in E.
      rewrite bool_decide_eq_true_2 by set_solver. simpl. lia.
    + apply bool_decide_eq_false in E.
      rewrite bool_decide_eq_false_2 by set_solver. simpl. lia.
Qed.

Lemma ordered_snoc P v :
  ordered P -> (forall d, d ∈ deps_of v -> d ∈ P) -> ordered (P ++ [v]).
Proof.
  intros HP Hv P1 s P2 Heq d Hd.
  destruct P2 as [|x P2 _] using rev_ind.
  - apply app_inj_tail in Heq as [-> ->]. auto.
  - rewrite app_comm_cons, app_assoc in Heq. apply app_inj_tail in Heq as [-> ->].
    by eapply HP.
Qed.

Lemma kahn_step deg v Q P g :
  graph_inv (deg, g) deps_of -> forall deg0, kahn_inv deg0 (v :: Q) P ->
  exists deg1 new,
    (match bget v g with
     | Some ds => ofold relax ds (deg0, Q)
     | None => Ok (deg0, Q)
     end) = Ok (deg1, Q ++ new) /\ kahn_inv deg1 (Q ++ new) (P ++ [v]).
Proof.
  intros (_ & _ & _ & Hg) deg0 [Hb Hnd HK Hdeg Hzero Hord]. simpl in Hg.
  assert (v ∈ K) as HvK by (apply HK; set_solver).
  apply NoDup_app in Hnd as (HndP & Hdisj & HndQ).
  apply NoDup_cons in HndQ as [HvQ HndQ].
  assert (v ∉ P) as HvP by (intros Hv; by apply (Hdisj v Hv); left).
  specialize (Hg v). destruct (bget v g) as [ds|]; [|done].
  destruct Hg as [_ Hocc].
  assert (forall s, s ∈ ds -> s ∈ K) as HdsK.
  { intros s Hs%occ_elem. rewrite Hocc in Hs. unfold deps_of in Hs.
    destruct (bget s services) eqn:E; [|by simpl in Hs; lia].
    apply bget_keys. by rewrite E. }
  destruct (relax_spec ds deg0 Q Hb) as (deg1 & new & Hfold & Hb1 & Hdeg1 & Hndn & Hnew).
  { intros s Hs. exists (pending P s). split; [apply Hdeg; auto|].
    rewrite Hocc, <- (pending_snoc P v s HvP). lia. }
  exists deg1, new. split; [done|].
  assert (forall s, s ∈ new <-> s ∈ ds /\ pending P s = occ s ds) as Hnew'.
  { intros s. rewrite Hnew. split; intros [Hs Hp]; (split; [done|]).
    - rewrite Hdeg in Hp by auto. injection Hp. lia.
    - rewrite Hdeg, Hp; auto. }
  assert (forall s, s ∈ ds -> 0 < occ v (deps_of s)) as Hpos.
  { intros s Hs%occ_elem. by rewrite <- Hocc. }
  assert (forall s, s ∈ new -> s ∉ P ++ v :: Q) as Hfresh.
  { intros s [Hs Hp]%Hnew' Hin. apply Hzero in Hin; [|auto].
    specialize (Hpos s Hs). rewrite <- Hocc in Hpos. lia. }
  constructor.
  - done.
  - rewrite <- app_assoc. simpl. apply NoDup_app. split; [done|]. split.
    + intros x Hx [->|[HxQ|Hxn]%elem_of_app]%elem_of_cons; [done|..].
      * apply (Hdisj x Hx). by right.
      * apply (Hfresh x Hxn). set_solver.
    + constructor; [|apply NoDup_app; split; [done|split; [|done]]].
      * intros [?|Hn]%elem_of_app; [done|]. apply (Hfresh v Hn). set_solver.
      * intros x Hx Hxn. apply (Hfresh x Hxn). set_solver.
  - intros s [[Hs|Hs%list_elem_of_singleton]%elem_of_app|[Hs|Hs]%elem_of_app]%elem_of_app;
      [apply HK; set_solver|by subst|apply HK; set_solver|].
    apply Hnew' in Hs as [? _]. auto.
  - intros s Hs. rewrite Hdeg1, Hdeg by done. simpl. f_equal.
    rewrite Hocc, <- (pending_snoc P v s HvP). lia.
  - intros s Hs. pose proof (pending_snoc P v s HvP) as Hsn.
    rewrite <- app_assoc. simpl. split.
    + intros Hin. assert (s ∈ P ++ v :: Q \/ s ∈ new) as [Ho|Hn] by set_solver.
      * apply Hzero in Ho; [lia|done].
      * apply Hnew' in Hn as [_ Hn]. rewrite Hocc in Hn. lia.
    + intros Hz. destruct (decide (occ v (deps_of s) = 0)) as [H0|H0].
      * assert (s ∈ P ++ v :: Q) by (apply Hzero; [done|lia]). set_solver.
      * assert (s ∈ new); [|set_solver]. apply Hnew'. rewrite Hocc.
        split; [apply occ_elem; rewrite Hocc; lia|lia].
  - apply ordered_snoc; [done|]. apply pending_0, Hzero; [done|set_solver].
Qed.

(** The fuel is enough: the loop always ends with an empty queue. *)
Lemma kahn_run fuel deg g deg0 Q P :
  graph_inv (deg, g) deps_of -> kahn_inv deg0 Q P -> length K <= fuel + length P ->
  exists result deg', kahn fuel g deg0 Q P = Ok result /\ kahn_inv deg' [] result.
Proof.
  intros Hg. revert deg0 Q P. induction fuel as [|fuel IH]; intros deg0 Q P Hinv Hfuel.
  - destruct Q as [|v Q]; [by exists P, deg0|]. exfalso.
    assert (length (P ++ v :: Q) <= length K) as Hlen.
    { apply submseteq_length, NoDup_submseteq; [apply Hinv|]. apply Hinv. }
    rewrite length_app in Hlen. simpl in Hlen. lia.
  - destruct Q as [|v Q]; [by exists P, deg0|].
    destruct (kahn_step deg v Q P g Hg deg0 Hinv) as (deg1 & new & Hstep & Hinv1).
    simpl. rewrite Hstep. ored. apply (IH deg1); [done|].
    rewrite length_app. simpl. lia.
Qed.

Lemma kahn_init deg g :
  graph_inv (deg, g) deps_of -> kahn_inv deg (bkeys (bretain (fun _ d => (d =? 0)%Z) deg)) [].
Proof.
  intros (Hb & Hdeg & Hdom & Hg). simpl in *.
  assert (forall s, pending [] s = length (deps_of s)) as Hp.
  { intros s. unfold pending. induction (deps_of s); simpl; [done|]. by f_equal. }
  assert (forall s, s ∈ bkeys (bretain (fun _ d => (d =? 0)%Z) deg) <->
                    s ∈ K /\ length (deps_of s) = 0) as Hq.
  { intros s. rewrite bget_keys, bget_bretain by done. split.
    - destruct (bget s deg) as [n|] eqn:E; [|by intros []].
      destruct (Z.eqb_spec n 0); [|by intros []]. intros _.
      assert (s ∈ K) as Hs by (apply Hdom; by rewrite E).
      split; [done|]. rewrite Hdeg in E by done. injection E. lia.
    - intros [Hs H0]. rewrite Hdeg, H0 by done. simpl. done. }
  constructor; simpl.
  - done.
  - by apply bwf_NoDup_keys; auto with bmap.
  - intros s Hs. by apply Hq.
  - intros s Hs. by rewrite Hp, Hdeg.
  - intros s Hs. rewrite Hq, Hp. naive_solver.
  - intros P1 s P2 Heq. by destruct P1.
Qed.

Lemma topo_sort_run :
  exists result deg, kahn_inv deg [] result /\
    topo_sort services = if negb (length result =? length services)%nat
                         then Err "circular dependency detected" else Ok result.
Proof.
  destruct build_graph_spec as ([deg g] & Hbuild & Hg).
  destruct (kahn_run (length services) deg g deg _ [] Hg (kahn_init deg g Hg))
    as (result & deg' & Hrun & Hinv).
  { rewrite length_bkeys. simpl. lia. }
  exists result, deg'. split; [done|]. unfold topo_sort. rewrite Hbuild. ored. simpl.
  by rewrite Hrun.
Qed.

(** No service depends on itself, directly or through others. *)
Definition acyclic : Prop := forall s, ~ tc depends s s.

Lemma pred_cycle (R : list string) :
  acyclic -> (forall s, s ∈ R -> exists d, depends s d /\ d ∈ R) -> R = [].
Proof.
  intros Hac HR. destruct R as [|x R0]; [done|]. exfalso.
  set (R := x :: R0) in *. set (rel := fun s d => depends s d /\ d ∈ R).
  assert (sn rel x) as Hsn.
  { apply tc_finite_sn.
    - intros s Hs. apply (Hac s).
      assert (forall a b, tc rel a b -> tc depends a b) as Hsub; [|by apply Hsub].
      clear. induction 1 as [a b [? ?]|a b c [? ?] ? IH]; [by apply tc_once|by eapply tc_l].
    - exists R. intros y Hy.
      assert (forall a b, tc rel a b -> b ∈ R) as Hin; [|by eapply Hin].
      clear. by induction 1 as [a b [? ?]|]. }
  assert (x ∈ R) as Hx by left. clearbody R. clear -HR Hsn Hx.
  induction Hsn as [x _ IH]. destruct (HR x Hx) as (d & Hd & HdR).
  apply (IH d); [by split|done].
Qed.

Lemma ordered_acyclic P : ordered P -> (forall s, s ∈ K -> s ∈ P) -> NoDup P -> acyclic.
Proof.
  intros HP HK Hnd s Hs.
  assert (forall a b, tc depends a b -> forall P1 P2, P = P1 ++ a :: P2 -> b ∈ P1) as Hbefore.
  { intros a b Hab. induction Hab as [a b Hab|a b c Hab Hbc IH]; intros P1 P2 Heq.
    - by eapply HP.
    - assert (b ∈ P1) as (B1 & B2 & ->)%list_elem_of_split by (by eapply HP).
      rewrite <- app_assoc in Heq. simpl in Heq.
      apply elem_of_app. left. by eapply IH. }
  assert (s ∈ K) as HsK.
  { clear -Hs. assert (forall a b, tc depends a b -> b ∈ K) as H; [|by eapply H].
    induction 1; [by eapply deps_of_K|done]. }
  apply HK in HsK as HsP. apply list_elem_of_split in HsP as (P1 & P2 & Heq).
  pose proof (Hbefore s s Hs P1 P2 Heq) as Hin. subst P.
  apply NoDup_app in Hnd as (_ & Hdisj & _). apply (Hdisj s Hin). left.
Qed.

Lemma topo_sort_cases :
  (exists order, topo_sort services = Ok order /\ order ≡ₚ K /\ ordered order /\ acyclic) \/
  (topo_sort services = Err "circular dependency detected" /\ ~ acyclic).
Proof.
  destruct topo_sort_run as (P & deg & [_ Hnd HK _ Hzero Hord] & ->).
  rewrite app_nil_r in *. rewrite <- length_bkeys.
  assert (P ⊆+ K) as Hsub by (by apply NoDup_submseteq).
  destruct (Nat.eqb_spec (length P) (length K)) as [Hlen|Hlen]; simpl; [left|right].
  - assert (P ≡ₚ K) as Hperm by (apply submseteq_length_Permutation; [done|lia]).
    exists P. repeat split; try done. eapply ordered_acyclic; try done.
    intros s Hs. by rewrite Hperm.
  - split; [done|]. intros Hac. apply Hlen.
    assert (List.filter (fun s => negb (bool_decide (s ∈ P))) K = []) as Hnil.
    { apply pred_cycle; [done|]. intros s [HsK Hs]%list_elem_of_In%filter_In.
      apply list_elem_of_In in HsK. apply negb_true_iff, bool_decide_eq_false in Hs.
      assert (exists d, d ∈ deps_of s /\ d ∉ P) as (d & Hd & HdP).
      { clear -Hwf Hzero HsK Hs. rewrite Hzero, pending_0 in Hs by done.
        induction (deps_of s) as [|d l IH]; [by destruct Hs; intros ? ?%elem_of_nil|].
        destruct (decide (d ∈ P)); [|by exists d; split; [left|]].
        destruct IH as (d' & ? & ?); [|exists d'; split; [by right|done]].
        intros Hall. apply Hs. intros x [->|?]%elem_of_cons; auto. }
      exists d. split; [done|]. apply list_elem_of_In, filter_In. split.
      - apply list_elem_of_In. by eapply deps_of_K.
      - by rewrite bool_decide_eq_false_2. }
    assert (K ⊆+ P) as HKP.
    { apply NoDup_submseteq; [by apply bwf_NoDup_keys|]. intros s Hs.
      destruct (decide (s ∈ P)); [done|]. exfalso.
      assert (s ∈ @nil string) as []%elem_of_nil. rewrite <- Hnil.
      apply list_elem_of_In, filter_In. split; [by apply list_elem_of_In|].
      by rewrite bool_decide_eq_false_2. }
    apply submseteq_length in Hsub, HKP. lia.
Qed.
End topo.

(** [d] comes before [s] in [l]. *)
Definition before (d s : string) (l : list string) : Prop :=
  exists l1 l2, l = l1 ++ s :: l2 /\ d ∈ l1.

Lemma topo_sort_order (services : bmap string ServiceConfig) (order : list string) :
  bwf services -> topo_sort services = Ok order ->
  order ≡ₚ bkeys services /\
  forall s svc d, bget s services = Some svc -> d ∈ sc_deps svc ->
    d ∈ bkeys services -> before d s order.
Proof.
  intros Hwf Hok.
  destruct (topo_sort_cases services Hwf) as [(o & Ho & Hperm & Hord & _)|[Ho _]]; [|congruence].
  rewrite Ho in Hok. injection Hok as <-. split; [done|].
  intros s svc d Hs Hd HdK.
  assert (s ∈ o) as (l1 & l2 & Heq)%list_elem_of_split.
  { rewrite Hperm. apply bget_keys. by rewrite Hs. }
  exists l1, l2. split; [done|]. eapply Hord; [done|].
  unfold deps_of. rewrite Hs. by apply inside_elem.
Qed.

(** C1: a start order that [topo_sort] returns lists every service of the stack
    exactly once, and lists each service after every dependency of it that
    belongs to the stack. *)
Theorem topo_sort_sound (services : bmap string ServiceConfig) (order : list string) :
  bwf services -> topo_sort services = Ok order ->
  order ≡ₚ bkeys services /\
  forall s svc d, bget s services = Some svc -> d ∈ sc_deps svc ->
    is_Some (bget d services) -> before d s order.
Proof.
  intros Hwf [Hperm Hord]%topo_sort_order; [|done]. split; [done|].
  intros s svc d Hs Hd HdK%bget_keys. by eapply Hord.
Qed.

(** C36: [topo_sort] rejects a stack exactly when some service depends on itself
    through the others, with the error of the source; otherwise it returns an
    order. It never panics and never runs out of fuel. *)
Theorem topo_sort_total (services : bmap string ServiceConfig) :
  bwf services ->
  ((exists order, topo_sort services = Ok order) <-> acyclic services) /\
  (~ acyclic services <-> topo_sort services = Err "circular dependency detected").
Proof.
  intros Hwf. destruct (topo_sort_cases services Hwf) as [(o & Ho & _ & _ & Hac)|[He Hac]].
  - split; [naive_solver|]. split; [done|]. congruence.
  - split; [|naive_solver]. split; [|done]. intros [o Ho]. congruence.
Qed.

Definition bare_service (deps : list string) : ServiceConfig :=
  mkServiceConfig "run" deps None None None None None [] None None [] None [] [] false
    None None None.

Definition sample_stack : bmap string ServiceConfig :=
  bcollect [("web", bare_service ["api"]); ("api", bare_service ["db"; "cache"; "db"]);
            ("db", bare_service []); ("cache", bare_service ["db"])].

Lemma topo_sort_sound_witness :
  topo_sort sample_stack = Ok ["db"; "cache"; "api"; "web"] /\
  before "db" "api" ["db"; "cache"; "api"; "web"].
Proof.
  split; [vm_compute; reflexivity|].
  apply (proj2 (topo_sort_sound sample_stack ["db"; "cache"; "api"; "web"]
    (bwf_bcollect _) eq_refl) "api" (bare_service ["db"; "cache"; "db"]) "db" eq_refl).
  - left.
  - vm_compute. by eexists.
Defined.

Lemma topo_sort_total_witness : acyclic sample_stack.
Proof.
  apply (proj1 (topo_sort_total sample_stack (bwf_bcollect _))). by eexists.
Defined.

(** ** The restriction of a plan *)

Section filter.
Context (plan : StackPlan) (targets : list string).
Context (Hwf : bwf (sp_services plan)).

Abbreviation services := (sp_services plan).

Definition names_dep (s d : string) : Prop :=
  exists svc, bget s services = Some svc /\ d ∈ sc_deps svc.

(** [n] is a target or a dependency, direct or not, of a target. *)
Definition needs (n : string) : Prop := exists t, t ∈ targets /\ rtc names_dep t n.

Lemma needs_dep n d : needs n -> names_dep n d -> needs d.
Proof. intros (t & Ht & Hr) Hd. exists t. split; [done|]. by eapply rtc_r. Qed.

Record reach_inv (needed : bmap string unit) (queue : list string) : Prop := {
  ri_needed : forall n, n ∈ bkeys needed -> needs n /\ n ∈ bkeys services;
  ri_queue : forall n, n ∈ queue -> needs n;
  ri_targets : forall t, t ∈ targets -> t ∈ bkeys needed \/ t ∈ queue;
  ri_closed : forall n d, n ∈ bkeys needed -> names_dep n d ->
              d ∈ bkeys needed \/ d ∈ queue;
}.

(** The dependencies not yet expanded: with the queue, they bound the work. *)
Definition unexpanded (needed : bmap string unit) : nat :=
  sum_list_with (fun e : string * ServiceConfig =>
    if bcontains e.1 needed then 0 else length (sc_deps e.2)) services.

Lemma unexpanded_insert needed name svc :
  bget name services = Some svc -> bcontains name needed = false ->
  unexpanded (binsert name tt needed) + length (sc_deps svc) <= unexpanded needed.
Proof.
  intros Hs Hn. apply bget_Some_in in Hs. unfold unexpanded. revert Hs.
  assert (forall m : list (string * ServiceConfig),
    sum_list_with (fun e => if bcontains e.1 (binsert name tt needed) then 0
                            else length (sc_deps e.2)) m
    <= sum_list_with (fun e => if bcontains e.1 needed then 0
                               else length (sc_deps e.2)) m) as Hle.
  { induction m as [|[k v] m IH]; simpl; [done|]. unfold bcontains in *.
    rewrite bget_binsert. key_cases; [destruct (bget k needed); lia|].
    destruct (bget k needed); lia. }
  clear Hwf. induction services as [|[k v] m IH]; [by intros ?%elem_of_nil|].
  intros [[= <- <-]|Hin]%elem_of_cons; cbn [sum_list_with fst snd].
  - rewrite Hn. unfold bcontains at 1. rewrite bget_binsert_eq. specialize (Hle m). lia.
  - specialize (IH Hin). unfold bcontains at 1 3. rewrite bget_binsert.
    key_cases; [destruct (bget k needed); lia|]. destruct (bget k needed); lia.
Qed.

Definition reach_post (o : outcome (bmap string unit)) : Prop :=
  match o with
  | Ok needed => forall n, n ∈ bkeys needed <-> needs n /\ n ∈ bkeys services
  | Err msg => exists n, needs n /\ bget n services = None /\
      msg = "unknown service '" +:+ n +:+ "' in stack '" +:+ sp_name plan +:+ "'"
  | _ => False
  end.

Definition reach_closed (o : outcome (bmap string unit)) : Prop :=
  match o with Ok needed => forall n, needs n -> n ∈ bkeys needed | _ => True end.

(** The fuel is enough, and the loop computes the closure. *)
Lemma reach_run fuel needed queue :
  reach_inv needed queue -> length queue + unexpanded needed <= fuel ->
  reach_post (reach fuel plan needed queue) /\ reach_closed (reach fuel plan needed queue).
Proof.
  revert needed queue.
  assert (forall fuel needed, reach_inv needed [] ->
    reach_post (reach fuel plan needed []) /\ reach_closed (reach fuel plan needed []))
    as Hdone.
  { intros fuel0 needed [H1 _ H3 H4].
    assert (forall n, needs n -> n ∈ bkeys needed) as Hall.
    { intros n (t & Ht & Hr).
      assert (t ∈ bkeys needed) as Hin by (destruct (H3 t Ht); set_solver).
      clear -H4 Hr Hin. induction Hr as [|a b c Hab _ IH]; [done|].
      apply IH. destruct (H4 a b Hin Hab); set_solver. }
    destruct fuel0; simpl; (split; [|done]); intros n; split; auto; intros [? _]; auto. }
  induction fuel as [|fuel IH]; intros needed [|name queue] Hinv Hfuel; try by apply Hdone.
  { simpl in Hfuel. lia. }
  destruct Hinv as [H1 H2 H3 H4]. simpl.
  assert (needs name) as Hname by (apply H2; left).
  destruct (bget name services) as [svc|] eqn:Hs.
  2:{ split; [|done]. by exists name. }
  destruct (bcontains name needed) eqn:Hc; simpl in Hfuel.
  - apply bcontains_keys in Hc. apply IH; [|lia]. constructor; [done|set_solver|..].
    + intros t Ht. destruct (H3 t Ht); set_solver.
    + intros n d Hn Hd. destruct (H4 n d Hn Hd); set_solver.
  - pose proof (unexpanded_insert needed name svc Hs Hc) as Hun.
    apply IH; [|rewrite length_app; lia].
    assert (name ∈ bkeys services) as HK by (apply bget_keys; by rewrite Hs).
    constructor.
    + intros n [->|Hn]%bkeys_binsert_mem; [by split|by apply H1].
    + intros n [Hn|Hn]%elem_of_app; [apply H2; by right|].
      eapply needs_dep; [exact Hname|]. by exists svc.
    + intros t Ht. rewrite bkeys_binsert_mem. destruct (H3 t Ht); set_solver.
    + intros n d Hn Hd. rewrite bkeys_binsert_mem, elem_of_app.
      apply bkeys_binsert_mem in Hn as [->|Hn].
      * destruct Hd as (svc' & Hs' & Hd). rewrite Hs in Hs'. injection Hs' as <-. auto.
      * destruct (H4 n d Hn Hd) as [|[->|]%elem_of_cons]; auto.
Qed.

Lemma reach_start :
  reach_post (reach (length targets + deps_total services) plan [] targets) /\
  reach_closed (reach (length targets + deps_total services) plan [] targets).
Proof.
  apply reach_run; [|done]. constructor.
  - intros n Hn. by apply elem_of_nil in Hn.
  - intros n Hn. exists n. split; [done|apply rtc_refl].
  - auto.
  - intros n d Hn. by apply elem_of_nil in Hn.
Qed.
End filter.

Lemma filter_to_closed (plan : StackPlan) (targets : list string) :
  bwf (sp_services plan) ->
  (forall n, needs plan targets n -> n ∈ bkeys (sp_services plan)) ->
  exists plan', filter_to plan targets = Ok plan' /\
    forall n, needs plan targets n -> n ∈ sp_order plan -> n ∈ sp_order plan'.
Proof.
  intros Hwf Hin. unfold filter_to. destruct (reach_start plan targets Hwf) as [Hpost Hclosed].
  destruct (reach (length targets + deps_total (sp_services plan)) plan [] targets)
    as [needed|msg| |]; ored; try done; simpl in *.
  - eexists. split; [done|]. simpl. intros n Hn Ho. apply list_elem_of_In, filter_In.
    split; [by apply list_elem_of_In|]. by apply bcontains_keys, Hclosed.
  - destruct Hpost as (n & Hn & Hnone & _). apply Hin, bget_keys in Hn. rewrite Hnone in Hn.
    by destruct Hn.
Qed.

(** Restricting a plan to some targets keeps exactly the services the
    targets need (the targets and all their dependencies), with their
    configuration, in the order of the plan. It fails exactly when a needed
    service is not in the stack, naming such a service, and it always ends. *)
Theorem filter_to_spec (plan : StackPlan) (targets : list string) :
  bwf (sp_services plan) ->
  match filter_to plan targets with
  | Ok plan' =>
      (forall n, needs plan targets n -> is_Some (bget n (sp_services plan))) /\
      (forall n svc, bget n (sp_services plan') = Some svc <->
                     bget n (sp_services plan) = Some svc /\ needs plan targets n) /\
      sp_order plan' = List.filter (fun n => bcontains n (sp_services plan')) (sp_order plan)
  | Err msg =>
      exists n, needs plan targets n /\ bget n (sp_services plan) = None /\
        msg = "unknown service '" +:+ n +:+ "' in stack '" +:+ sp_name plan +:+ "'"
  | Panic | OutOfFuel => False
  end.
Proof.
  intros Hwf. unfold filter_to.
  destruct (reach_start plan targets Hwf) as [Hpost Hclosed].
  destruct (reach (length targets + deps_total (sp_services plan)) plan [] targets)
    as [needed|msg| |]; ored; try done. simpl in *.
  assert (forall n, bcontains n needed = true <-> needs plan targets n) as Hn.
  { intros n. rewrite bcontains_keys. split; [by intros [? _]%Hpost|apply Hclosed]. }
  assert (forall n, needs plan targets n -> is_Some (bget n (sp_services plan))) as Hsome.
  { intros n Hx. apply bget_keys. by apply Hpost, Hclosed. }
  split; [done|]. split.
  - intros n svc. rewrite bget_bretain by done. rewrite <- Hn.
    destruct (bget n (sp_services plan)); [|naive_solver].
    destruct (bcontains n needed); naive_solver.
  - apply List.filter_ext. intros n. unfold bcontains at 2. rewrite bget_bretain by done.
    destruct (bcontains n needed) eqn:E.
    + apply Hn, Hsome in E as [svc ->]. done.
    + by destruct (bget n (sp_services plan)).
Qed.

Definition sample_plan : StackPlan :=
  mkStackPlan "dev" sample_stack ["db"; "cache"; "api"; "web"].

Lemma filter_to_spec_witness :
  exists plan', filter_to sample_plan ["cache"] = Ok plan' /\ sp_order plan' = ["db"; "cache"] /\
  forall n, needs sample_plan ["cache"] n -> is_Some (bget n sample_stack).
Proof.
  pose proof (filter_to_spec sample_plan ["cache"] (bwf_bcollect _)) as H.
  eexists. split; [vm_compute; reflexivity|]. split; [reflexivity|]. exact (proj1 H).
Defined.
