(* ===== verification/ConfigValidate.v ===== *)
(** * Validation and loading of a configuration

    Models [src/config/validate.rs] (every check of [ConfigFile::validate], in
    the order of the code, with its messages) and [src/config/load.rs].  The
    parsers of TOML and YAML and the file system are parameters. *)

From S2P Require Import Prelude Bytes BMap Util ConfigModel ConfigPlan.
From Stdlib Require Import Lia.

(** ** The checks of one service *)

Definition quote : string := of_bytes [ascii_of_nat 34].

Definition service_msg (stack service what : string) : string :=
  "service " +:+ service +:+ " in stack " +:+ stack +:+ ": " +:+ what.

Definition validate_service_port (stack service : string) (svc : ServiceConfig) : outcome unit :=
  match sc_port svc with
  | Some (PortFixed port_num) =>
      if negb ((1024 <=? port_num)%Z && (port_num <=? 65535)%Z)
      then Err (service_msg stack service
                  ("port must be in range 1024-65535, got " +:+ show port_num))
      else Ok tt
  | Some (PortNone value) =>
      if negb (bool_decide (value = "none"))
      then Err (service_msg stack service
                  ("invalid port value " +:+ quote +:+ value +:+ quote
                   +:+ ", must be a number or " +:+ quote +:+ "none" +:+ quote))
      else Ok tt
  | None => Ok tt
  end.

Definition validate_service_capture (stack service : string) (svc : ServiceConfig)
    (allowed : bool) : outcome unit :=
  if negb (capture_api_requested svc) then Ok tt else
  if negb allowed then
    fail_if (capture_api_explicitly_enabled svc)
      (service_msg stack service "capture_api is only supported for stack services")
  else if negb (has_service_port svc) then
    fail_if (capture_api_explicitly_enabled svc)
      (service_msg stack service "capture_api requires a service port")
  else if negb (bool_decide (scheme svc = "http")) then
    fail_if (capture_api_explicitly_enabled svc)
      (service_msg stack service "capture_api only supports http services")
  else Ok tt.

Definition validate_service_readiness (stack service : string) (svc : ServiceConfig)
    : outcome unit :=
  let has_port := match sc_port svc with Some p => negb (port_is_none p) | None => true end in
  _ ← map_err (fun err => service_msg stack service ("readiness error: " +:+ err))
        (readiness_kind svc has_port);
  Ok tt.

Definition validate_service_tasks (stack service : string) (svc : ServiceConfig)
    : outcome unit :=
  match sc_tasks svc with
  | Some tasks =>
      oforall (fun task_name =>
        map_err (fun err => "invalid task name on service " +:+ service +:+ " in stack "
                            +:+ stack +:+ ": " +:+ err)
          (validate_name_for_path_component "task" task_name)) (bkeys tasks)
  | None => Ok tt
  end.

Definition has_task (name : string) (service : ServiceConfig)
    (global_tasks : option (bmap string TaskConfig)) : bool :=
  match sc_tasks service with Some svc_tasks => bcontains name svc_tasks | None => false end
  || match global_tasks with Some global => bcontains name global | None => false end.

Definition validate_service_init_tasks (stack service : string) (svc : ServiceConfig)
    (global_tasks : option (bmap string TaskConfig)) : outcome unit :=
  match sc_init svc with
  | Some init_tasks =>
      oforall (fun init_task =>
        fail_if (negb (has_task init_task svc global_tasks))
          (service_msg stack service ("unknown init task '" +:+ init_task +:+ "'"))) init_tasks
  | None => Ok tt
  end.

Definition validate_service_post_init_tasks (stack service : string) (svc : ServiceConfig)
    (global_tasks : option (bmap string TaskConfig)) : outcome unit :=
  match sc_post_init svc with
  | Some post_init_tasks =>
      oforall (fun post_init_task =>
        fail_if (negb (has_task post_init_task svc global_tasks))
          (service_msg stack service ("unknown post_init task '" +:+ post_init_task +:+ "'")))
        post_init_tasks
  | None => Ok tt
  end.

Definition validate_service_auto_restart (stack service : string) (svc : ServiceConfig)
    : outcome unit :=
  fail_if (sc_auto_restart svc && bool_decide (sc_watch svc = []))
    (service_msg stack service "auto_restart requires watch patterns").

(** The checks that services and globals share, in the order of the code. *)
Definition validate_service (stack service : string) (svc : ServiceConfig) (allowed : bool)
    (global_tasks : option (bmap string TaskConfig)) : outcome unit :=
  _ ← validate_service_port stack service svc;
  _ ← validate_service_capture stack service svc allowed;
  _ ← validate_service_readiness stack service svc;
  _ ← validate_service_tasks stack service svc;
  _ ← validate_service_init_tasks stack service svc global_tasks;
  _ ← validate_service_post_init_tasks stack service svc global_tasks;
  validate_service_auto_restart stack service svc.

(** ** [ConfigFile::validate] *)

Definition validate_stack_service (stack_name : string)
    (services : bmap string ServiceConfig) (tasks : option (bmap string TaskConfig))
    (entry : string * ServiceConfig) : outcome unit :=
  let '(svc_name, svc) := entry in
  _ ← map_err (fun err => "invalid service name in stack '" +:+ stack_name +:+ "': " +:+ err)
        (validate_name_for_path_component "service" svc_name);
  _ ← validate_service stack_name svc_name svc true tasks;
  oforall (fun dep =>
    fail_if (negb (bcontains dep services))
      ("service '" +:+ svc_name +:+ "' in stack '" +:+ stack_name
       +:+ "' depends on unknown service '" +:+ dep +:+ "'")) (sc_deps svc).

Definition validate_stack (tasks : option (bmap string TaskConfig))
    (entry : string * StackConfig) : outcome unit :=
  let '(stack_name, stack) := entry in
  let services := st_services stack in
  _ ← oforall (validate_stack_service stack_name services tasks) services;
  _ ← map_err (fun err => "stack '" +:+ stack_name +:+ "': " +:+ err) (topo_sort services);
  Ok tt.

Definition validate_global (tasks : option (bmap string TaskConfig))
    (entry : string * ServiceConfig) : outcome unit :=
  let '(svc_name, svc) := entry in
  _ ← map_err (fun err => "invalid global service name: " +:+ err)
        (validate_name_for_path_component "service" svc_name);
  _ ← validate_service "globals" svc_name svc false tasks;
  fail_if (negb (bool_decide (sc_deps svc = [])))
    ("global service '" +:+ svc_name +:+ "' cannot have deps").

Definition validate (cfg : ConfigFile) : outcome unit :=
  _ ← (match cf_default_stack cfg with
       | Some default_stack =>
           fail_if (negb (bcontains default_stack (cf_stacks cfg)))
             ("default_stack '" +:+ default_stack +:+ "' not found in stacks")
       | None => Ok tt
       end);
  _ ← oforall (validate_stack (cf_tasks cfg)) (cf_stacks cfg);
  _ ← (match cf_tasks cfg with
       | Some tasks =>
           oforall (fun task_name =>
             map_err (fun err => "invalid task name: " +:+ err)
               (validate_name_for_path_component "task" task_name)) (bkeys tasks)
       | None => Ok tt
       end);
  match cf_globals cfg with
  | Some globals => oforall (validate_global (cf_tasks cfg)) globals
  | None => Ok tt
  end.

(** ** Loading *)

(** [Path::file_name]: the last component, unless it is [..]. *)
Definition file_name (p : string) : option string :=
  match last (components p) with
  | Some w => if bool_decide (w = "..") then None else Some w
  | None => None
  end.

(** [Path::extension]: what follows the last dot of the file name, unless the
    name has no other dot and starts with it. *)
Definition extension (p : string) : option string :=
  name ← file_name p;
  let r := reverse (to_bytes name) in
  i ← find_byte (fun c => Ascii.eqb c ".") r;
  if (length r =? S i)%nat then None else Some (of_bytes (reverse (take i r))).

(** The parent of a path, [Path::parent]: [None] for the root and for the empty
    path.  The last name goes, with the separators and [.] pieces around it. *)
Definition trivial_piece (w : bytes) : bool := bool_decide (w = []) || bool_decide (w = ["."%char]).

Fixpoint drop_trivial (pieces : list bytes) : list bytes :=
  match pieces with
  | w :: ws => if trivial_piece w then drop_trivial ws else pieces
  | [] => []
  end.

Definition join_pieces (pieces : list bytes) : bytes :=
  match pieces with
  | [] => []
  | w :: ws => foldl (fun acc v => acc ++ "/"%char :: v) w ws
  end.

(** The prefix that is not a name (the root, or a leading [.]) and the rest. *)
Definition split_prefix (s : bytes) : bytes * bytes :=
  match s with
  | "/"%char :: r => (["/"%char], r)
  | ["."%char] => (["."%char], [])
  | "."%char :: "/"%char :: r => (["."%char], "/"%char :: r)
  | _ => ([], s)
  end.

Definition parent (p : string) : option string :=
  let '(prefix, body) := split_prefix (to_bytes p) in
  match drop_trivial (reverse (split_on "/"%char body)) with
  | _ :: rest => Some (of_bytes (prefix ++ join_pieces (reverse (drop_trivial rest))))
  | [] => if bool_decide (prefix = ["."%char]) then Some "" else None
  end.

Section load.
(** The parsers of the configuration, the debug form of a path, and the file
    system: the bytes of a file, whether a path exists and is a file. *)
Context (debug : string -> string).
Context (parse_yaml parse_toml : bytes -> outcome ConfigFile).
Context (read : string -> outcome bytes).
Context (exists_ is_file : string -> bool).

Definition parse_toml_bytes (raw : bytes) : outcome ConfigFile :=
  text ← with_context "read toml as utf-8"
           (if utf8_valid raw then Ok raw else Err "invalid utf-8 sequence");
  with_context "parse toml" (parse_toml text).

Definition load_from_path (path : string) : outcome ConfigFile :=
  raw ← with_context ("read config " +:+ debug path) (read path);
  config ←
    (if bool_decide (extension path = Some "toml") then parse_toml_bytes raw
     else if bool_decide (extension path = Some "yaml")
             || bool_decide (extension path = Some "yml")
     then with_context "parse yaml" (parse_yaml raw)
     else match parse_yaml raw with
          | Ok cfg => Ok cfg
          | Err _ => parse_toml_bytes raw
          | o => o
          end);
  if negb (cf_version config =? 1)%Z
  then Err ("unsupported config version " +:+ show (cf_version config)) else
  _ ← validate config;
  mret config.

Definition default_path (project_dir : string) : string :=
  let toml := path_join project_dir "devstack.toml" in
  if exists_ toml then toml else
  let yaml := path_join project_dir "devstack.yml" in
  if exists_ yaml then yaml else
  let yaml_alt := path_join project_dir "devstack.yaml" in
  if exists_ yaml_alt then yaml_alt else toml.

(** The configuration file of one directory, by precedence. *)
Definition config_in (dir : string) : option string :=
  let toml := path_join dir "devstack.toml" in
  if is_file toml then Some toml else
  let yaml := path_join dir "devstack.yml" in
  if is_file yaml then Some yaml else
  let yaml_alt := path_join dir "devstack.yaml" in
  if is_file yaml_alt then Some yaml_alt else None.

Fixpoint find_nearest (fuel : nat) (current : option string) : outcome (option string) :=
  match current with
  | None => Ok None
  | Some dir =>
      match config_in dir with
      | Some path => Ok (Some path)
      | None => match fuel with O => OutOfFuel | S fuel => find_nearest fuel (parent dir) end
      end
  end.

Definition find_nearest_path (start_dir : string) : outcome (option string) :=
  find_nearest (S (String.length start_dir)) (Some start_dir).
End load.

(** ** What validation promises *)

Definition port_ok (svc : ServiceConfig) : Prop :=
  match sc_port svc with
  | Some (PortFixed n) => (1024 <= n <= 65535)%Z
  | Some (PortNone v) => v = "none"
  | None => True
  end.

(** API capture that is asked for explicitly can be honoured. *)
Definition capture_ok (allowed : bool) (svc : ServiceConfig) : Prop :=
  sc_capture_api svc = Some true ->
  allowed = true /\ has_service_port svc = true /\ scheme svc = "http".

Definition tasks_known (tasks : option (bmap string TaskConfig)) (svc : ServiceConfig)
    (l : option (list string)) : Prop :=
  forall t, t ∈ default [] l ->
    t ∈ default [] (bkeys <$> sc_tasks svc) \/ t ∈ default [] (bkeys <$> tasks).

Record service_ok (allowed : bool) (tasks : option (bmap string TaskConfig))
    (svc : ServiceConfig) : Prop := {
  so_port : port_ok svc;
  so_capture : capture_ok allowed svc;
  so_readiness : exists k, readiness_kind svc (has_service_port svc) = Ok k;
  so_task_names : forall t, t ∈ default [] (bkeys <$> sc_tasks svc) -> valid_name t;
  so_init : tasks_known tasks svc (sc_init svc);
  so_post_init : tasks_known tasks svc (sc_post_init svc);
  so_auto_restart : sc_auto_restart svc = true -> sc_watch svc <> [];
}.

Record stack_ok (tasks : option (bmap string TaskConfig))
    (services : bmap string ServiceConfig) : Prop := {
  ko_names : forall n, n ∈ bkeys services -> valid_name n;
  ko_services : forall n svc, (n, svc) ∈ services -> service_ok true tasks svc;
  ko_deps : forall n svc d, (n, svc) ∈ services -> d ∈ sc_deps svc -> d ∈ bkeys services;
  ko_order : exists order, topo_sort services = Ok order;
}.

Record config_ok (cfg : ConfigFile) : Prop := {
  co_default : forall n, cf_default_stack cfg = Some n -> n ∈ bkeys (cf_stacks cfg);
  co_stacks : forall n st, (n, st) ∈ cf_stacks cfg ->
    stack_ok (cf_tasks cfg) (st_services st);
  co_task_names : forall t, t ∈ default [] (bkeys <$> cf_tasks cfg) -> valid_name t;
  co_globals : forall n svc, (n, svc) ∈ default [] (cf_globals cfg) ->
    valid_name n /\ service_ok false (cf_tasks cfg) svc /\ sc_deps svc = [];
}.

(** *** Each check decides its clause *)

Lemma bind_unit (o : outcome unit) (k : outcome unit) :
  (_ ← o; k) = Ok tt <-> o = Ok tt /\ k = Ok tt.
Proof. rewrite bind_Ok. split; [intros ([] & ? & ?); done|]. intros []; by exists tt. Qed.

Lemma fail_if_Ok' b msg : fail_if b msg = Ok tt <-> b = false.
Proof. apply fail_if_Ok. Qed.

Lemma has_task_spec name svc tasks :
  negb (has_task name svc tasks) = false <->
  name ∈ default [] (bkeys <$> sc_tasks svc) \/ name ∈ default [] (bkeys <$> tasks).
Proof.
  unfold has_task. rewrite negb_false_iff, orb_true_iff.
  destruct (sc_tasks svc), tasks; simpl; rewrite ?bcontains_keys; try done;
    split; intros [H|H]; try done; auto; by apply elem_of_nil in H.
Qed.

Lemma validate_service_port_Ok stack name svc :
  validate_service_port stack name svc = Ok tt <-> port_ok svc.
Proof.
  unfold validate_service_port, port_ok. destruct (sc_port svc) as [[v|n]|]; [| |done].
  - by case_bool_decide.
  - destruct (Z.leb_spec 1024 n), (Z.leb_spec n 65535); simpl; split; (done || lia).
Qed.

Lemma validate_service_capture_Ok stack name svc allowed :
  validate_service_capture stack name svc allowed = Ok tt <-> capture_ok allowed svc.
Proof.
  unfold validate_service_capture, capture_ok, capture_api_requested,
    capture_api_explicitly_enabled.
  destruct (sc_capture_api svc) as [[]|]; simpl; [|done|];
    destruct allowed, (has_service_port svc); simpl; try case_bool_decide; simpl;
    try done; naive_solver.
Qed.

Lemma validate_service_readiness_Ok stack name svc :
  validate_service_readiness stack name svc = Ok tt <->
  exists k, readiness_kind svc (has_service_port svc) = Ok k.
Proof.
  unfold validate_service_readiness, has_service_port. cbn zeta.
  destruct (readiness_kind svc _); simpl; naive_solver.
Qed.

Lemma validate_names_Ok (f : string -> string) kind l :
  oforall (fun t => map_err f (validate_name_for_path_component kind t)) l = Ok tt <->
  forall t, t ∈ l -> valid_name t.
Proof.
  rewrite oforall_Ok, Forall_forall. split; intros H t Ht; specialize (H t Ht).
  - by apply map_err_Ok, validate_name_Ok in H.
  - by apply map_err_Ok, validate_name_Ok.
Qed.

Lemma validate_service_tasks_Ok stack name svc :
  validate_service_tasks stack name svc = Ok tt <->
  forall t, t ∈ default [] (bkeys <$> sc_tasks svc) -> valid_name t.
Proof.
  unfold validate_service_tasks. destruct (sc_tasks svc) as [tasks|]; simpl.
  - apply (validate_names_Ok (fun err => _)).
  - split; [by intros _ t ?%elem_of_nil|done].
Qed.

Lemma tasks_known_spec (msg : string -> string) tasks svc l :
  match l with
  | Some l => oforall (fun t => fail_if (negb (has_task t svc tasks)) (msg t)) l
  | None => Ok tt
  end = Ok tt <-> tasks_known tasks svc l.
Proof.
  unfold tasks_known. destruct l as [l|]; simpl.
  - rewrite oforall_Ok, Forall_forall. setoid_rewrite fail_if_Ok'.
    by setoid_rewrite has_task_spec.
  - split; [by intros _ t ?%elem_of_nil|done].
Qed.

Lemma validate_service_auto_restart_Ok stack name svc :
  validate_service_auto_restart stack name svc = Ok tt <->
  (sc_auto_restart svc = true -> sc_watch svc <> []).
Proof.
  unfold validate_service_auto_restart. rewrite fail_if_Ok'.
  destruct (sc_auto_restart svc); simpl; [|naive_solver].
  rewrite bool_decide_eq_false. naive_solver.
Qed.

Lemma validate_service_Ok stack name svc allowed tasks :
  validate_service stack name svc allowed tasks = Ok tt <-> service_ok allowed tasks svc.
Proof.
  unfold validate_service. rewrite !bind_unit.
  rewrite validate_service_port_Ok, validate_service_capture_Ok,
    validate_service_readiness_Ok, validate_service_tasks_Ok,
    validate_service_auto_restart_Ok.
  unfold validate_service_init_tasks, validate_service_post_init_tasks.
  rewrite (tasks_known_spec (fun t => _)), (tasks_known_spec (fun t => _)).
  split; [intros (? & ? & ? & ? & ? & ? & ?); by constructor|intros []; auto 10].
Qed.

Lemma validate_stack_Ok tasks n st :
  validate_stack tasks (n, st) = Ok tt <-> stack_ok tasks (st_services st).
Proof.
  unfold validate_stack. rewrite bind_unit, bind_Ok, oforall_Ok, Forall_forall.
  setoid_rewrite map_err_Ok. split.
  - intros [Hall (order & Ho & _)].
    assert (forall m svc, (m, svc) ∈ st_services st ->
      valid_name m /\ service_ok true tasks svc /\
      forall d, d ∈ sc_deps svc -> d ∈ bkeys (st_services st)) as Hsvc.
    { intros m svc Hin. specialize (Hall _ Hin). unfold validate_stack_service in Hall.
      rewrite !bind_unit, map_err_Ok, validate_name_Ok, validate_service_Ok, oforall_Ok,
        Forall_forall in Hall. setoid_rewrite fail_if_Ok' in Hall.
      setoid_rewrite negb_false_iff in Hall. setoid_rewrite bcontains_keys in Hall.
      tauto. }
    constructor.
    + intros m [svc Hm]%bget_keys. apply bget_Some_in, Hsvc in Hm. tauto.
    + intros m svc Hm. apply (Hsvc m svc Hm).
    + intros m svc d Hm. by apply (Hsvc m svc Hm).
    + by exists order.
  - intros [Hn Hs Hd [order Ho]]. split; [|by exists order].
    intros [m svc] Hin. unfold validate_stack_service.
    rewrite !bind_unit, map_err_Ok, validate_name_Ok, validate_service_Ok, oforall_Ok,
      Forall_forall. setoid_rewrite fail_if_Ok'. setoid_rewrite negb_false_iff.
    setoid_rewrite bcontains_keys. split_and!; [|by eapply Hs|by intros; eapply Hd].
    apply Hn. apply list_elem_of_fmap. by exists (m, svc).
Qed.

Lemma validate_global_Ok tasks n svc :
  validate_global tasks (n, svc) = Ok tt <->
  valid_name n /\ service_ok false tasks svc /\ sc_deps svc = [].
Proof.
  unfold validate_global.
  rewrite !bind_unit, map_err_Ok, validate_name_Ok, validate_service_Ok, fail_if_Ok'.
  by rewrite negb_false_iff, bool_decide_eq_true.
Qed.

(** C28: [ConfigFile::validate] accepts exactly the configurations whose default
    stack exists, whose service and task names may be path components, whose
    ports are in range, whose API capture, readiness checks, init tasks and
    auto-restart settings can be honoured, whose dependencies stay inside their
    stack and have no cycle, and whose globals depend on nothing. *)
Theorem validate_accepts (cfg : ConfigFile) : validate cfg = Ok tt <-> config_ok cfg.
Proof.
  unfold validate. rewrite !bind_unit, oforall_Ok, Forall_forall.
  assert (match cf_tasks cfg with
          | Some tasks => oforall (fun t => map_err (fun err => "invalid task name: " +:+ err)
              (validate_name_for_path_component "task" t)) (bkeys tasks)
          | None => Ok tt end = Ok tt <->
          forall t, t ∈ default [] (bkeys <$> cf_tasks cfg) -> valid_name t) as ->.
  { destruct (cf_tasks cfg); simpl; [apply (validate_names_Ok (fun err => _))|].
    split; [by intros _ t ?%elem_of_nil|done]. }
  assert (match cf_globals cfg with
          | Some globals => oforall (validate_global (cf_tasks cfg)) globals
          | None => Ok tt end = Ok tt <->
          forall n svc, (n, svc) ∈ default [] (cf_globals cfg) ->
            valid_name n /\ service_ok false (cf_tasks cfg) svc /\ sc_deps svc = []) as ->.
  { destruct (cf_globals cfg) as [globals|]; simpl.
    - rewrite oforall_Ok, Forall_forall. setoid_rewrite <- validate_global_Ok.
      split; [intros H n svc; apply (H (n, svc))|intros H [n svc]; apply H].
    - split; [by intros _ n svc ?%elem_of_nil|done]. }
  assert (match cf_default_stack cfg with
          | Some d => fail_if (negb (bcontains d (cf_stacks cfg)))
              ("default_stack '" +:+ d +:+ "' not found in stacks")
          | None => Ok tt end = Ok tt <->
          forall n, cf_default_stack cfg = Some n -> n ∈ bkeys (cf_stacks cfg)) as ->.
  { destruct (cf_default_stack cfg) as [d|]; [|by split].
    rewrite fail_if_Ok', negb_false_iff, bcontains_keys. naive_solver. }
  split.
  - intros (? & Hst & ? & ?). constructor; try done.
    intros n st Hin. apply (validate_stack_Ok _ n), Hst, Hin.
  - intros [? Hst ? ?]. split_and!; try done.
    intros [n st] Hin. by apply validate_stack_Ok, (Hst n).
Qed.

Lemma validate_stacks (cfg : ConfigFile) n st :
  validate cfg = Ok tt -> (n, st) ∈ cf_stacks cfg -> stack_ok (cf_tasks cfg) (st_services st).
Proof.
  unfold validate. rewrite !bind_unit, oforall_Ok, Forall_forall. intros (_ & Hst & _) Hin.
  apply (validate_stack_Ok _ n), Hst, Hin.
Qed.

(** Dependencies that stay inside the stack: what targets need stays inside. *)
Lemma needs_inside plan targets :
  (forall n svc d, (n, svc) ∈ sp_services plan -> d ∈ sc_deps svc ->
     d ∈ bkeys (sp_services plan)) ->
  (forall t, t ∈ targets -> t ∈ bkeys (sp_services plan)) ->
  forall n, needs plan targets n -> n ∈ bkeys (sp_services plan).
Proof.
  intros Hd Ht n (t & Hin & Hr). apply Ht in Hin. induction Hr as [|a b c Hab _ IH]; [done|].
  apply IH. destruct Hab as (svc & Hs & Hb). eapply Hd; [by apply bget_Some_in|done].
Qed.

(** The maps of a configuration are maps. *)
Definition config_wf (cfg : ConfigFile) : Prop :=
  bwf (cf_stacks cfg) /\ forall n st, (n, st) ∈ cf_stacks cfg -> bwf (st_services st).

(** After validation, [stack_plan] succeeds on every stack of the
    configuration: its order starts every service once, after everything the
    service depends on; restricting the plan to services of the stack succeeds
    too. *)
Theorem validated_stacks_plan (cfg : ConfigFile) (n : string) (st : StackConfig)
    (only : list string) :
  config_wf cfg -> validate cfg = Ok tt -> bget n (cf_stacks cfg) = Some st ->
  (forall t, t ∈ only -> t ∈ bkeys (st_services st)) ->
  exists plan, stack_plan cfg n = Ok plan /\ sp_order plan ≡ₚ bkeys (st_services st) /\
    (forall s svc d, bget s (st_services st) = Some svc -> d ∈ sc_deps svc ->
       before d s (sp_order plan)) /\
    exists plan', stack_plan_filtered cfg n only = Ok plan' /\
      forall t, t ∈ only -> t ∈ sp_order plan'.
Proof.
  intros [_ Hwf] Hv Hst Honly. pose proof (bget_Some_in _ _ _ Hst) as Hin.
  specialize (Hwf _ _ Hin).
  destruct (validate_stacks _ _ _ Hv Hin) as [_ _ Hdeps [order Ho]].
  destruct (topo_sort_order _ _ Hwf Ho) as [Hperm Hbefore].
  set (plan := mkStackPlan n (st_services st) order).
  assert (stack_plan cfg n = Ok plan) as Hplan.
  { unfold stack_plan. rewrite Hst. ored. by rewrite Ho. }
  exists plan. split_and!; [done|done| |].
  { intros s svc d Hs Hd. eapply Hbefore; [done..|]. eapply Hdeps; [|done].
    by apply bget_Some_in. }
  unfold stack_plan_filtered. rewrite Hplan. ored. case_bool_decide as Hnil.
  { exists plan. subst only. split; [done|]. by intros t ?%elem_of_nil. }
  destruct (filter_to_closed plan only Hwf (needs_inside plan only Hdeps Honly))
    as (plan' & -> & Hkeep).
  exists plan'. split; [done|]. intros t Ht. apply Hkeep.
  - exists t. split; [done|apply rtc_refl].
  - simpl. rewrite Hperm. by apply Honly.
Qed.

Definition sample_config : ConfigFile :=
  mkConfigFile 1 [("dev", mkStackConfig sample_stack)] (Some "dev")
    (Some [("redis", bare_service [])]) None [] None.

Lemma validated_stacks_plan_witness :
  exists plan, stack_plan sample_config "dev" = Ok plan /\ sp_order plan ≡ₚ bkeys sample_stack.
Proof.
  destruct (validated_stacks_plan sample_config "dev" (mkStackConfig sample_stack) ["api"])
    as (plan & Hp & Hperm & _).
  - split; [repeat constructor|]. intros n st [[= -> ->]|?%elem_of_nil]%elem_of_cons; [|done].
    apply bwf_bcollect.
  - by vm_compute.
  - reflexivity.
  - intros t ->%list_elem_of_singleton. apply bget_keys. vm_compute. by eexists.
  - by exists plan.
Defined.

(** ** Loading *)

(** A configuration that [load_from_path] returns has version 1 and passed
    validation, whichever parser read it: no configuration reaches the planner
    unvalidated. *)
Theorem load_validated (yaml toml : bytes -> outcome ConfigFile) (debug : string -> string)
    (read : string -> outcome bytes) (path : string) (cfg : ConfigFile) :
  load_from_path debug yaml toml read path = Ok cfg ->
  cf_version cfg = 1%Z /\ validate cfg = Ok tt /\
  exists raw, read path = Ok raw /\ (yaml raw = Ok cfg \/ utf8_valid raw = true /\ toml raw = Ok cfg).
Proof.
  unfold load_from_path, parse_toml_bytes, with_context. intros H. outcome_simpl.
  rename x into raw, x0 into c. destruct (Z.eqb_spec (cf_version c) 1); [|done].
  cbn [negb] in *. outcome_simpl.
  split_and!; try done.
  exists raw. split; [done|].
  destruct (yaml raw) eqn:Hy; repeat case_bool_decide; simpl in *; outcome_simpl; auto;
    destruct (utf8_valid raw); outcome_simpl; auto.
Qed.

(** The size of a list of pieces: their bytes and one separator each. *)
Definition pieces_size (ws : list bytes) : nat := sum_list_with (fun w => S (length w)) ws.

Lemma pieces_size_split sep s : pieces_size (split_on sep s) = S (length s).
Proof.
  induction s as [|c s IH]; simpl; [done|]. destruct (Ascii.eqb c sep); simpl.
  - unfold pieces_size in *. simpl. lia.
  - destruct (split_on sep s) eqn:E; [by apply split_on_nonempty in E|].
    unfold pieces_size in *. simpl in *. lia.
Qed.

Lemma pieces_size_reverse ws : pieces_size (reverse ws) = pieces_size ws.
Proof. apply sum_list_with_reverse. Qed.

Lemma drop_trivial_size ws : pieces_size (drop_trivial ws) <= pieces_size ws.
Proof.
  induction ws as [|w ws IH]; simpl; [done|]. destruct (trivial_piece w); [|done].
  unfold pieces_size in *. simpl. lia.
Qed.

Lemma drop_trivial_head ws w rest : drop_trivial ws = w :: rest -> w <> [].
Proof.
  induction ws as [|v ws IH]; simpl; [done|]. destruct (trivial_piece v) eqn:E; [done|].
  intros [= <- <-] ->. done.
Qed.

Lemma join_pieces_size ws : length (join_pieces ws) <= pieces_size ws.
Proof.
  destruct ws as [|w ws]; simpl; [done|].
  assert (forall acc, length (foldl (fun acc v => acc ++ "/"%char :: v) acc ws)
                      = length acc + pieces_size ws) as ->.
  { induction ws as [|v ws IH]; intros acc; simpl; [unfold pieces_size; simpl; lia|].
    rewrite IH, length_app. unfold pieces_size. simpl. lia. }
  unfold pieces_size. simpl. lia.
Qed.

Lemma length_to_bytes s : length (to_bytes s) = String.length s.
Proof. induction s; simpl; auto. Qed.

Lemma parent_shorter p q : parent p = Some q -> String.length q < String.length p.
Proof.
  rewrite <- !length_to_bytes. unfold parent.
  assert (forall prefix body, split_prefix (to_bytes p) = (prefix, body) ->
    to_bytes p = prefix ++ body) as Hsplit.
  { intros prefix body. unfold split_prefix.
    repeat case_match; intros [= <- <-]; done. }
  destruct (split_prefix (to_bytes p)) as [prefix body]. rewrite (Hsplit _ _ eq_refl).
  destruct (drop_trivial _) as [|w rest] eqn:Hd.
  - case_bool_decide; [|done]. intros [= <-]. subst. simpl. lia.
  - intros [= <-]. rewrite to_of_bytes, !length_app.
    pose proof (drop_trivial_head _ _ _ Hd) as Hw.
    pose proof (drop_trivial_size (reverse (split_on "/"%char body))) as Hs.
    rewrite Hd, pieces_size_reverse, pieces_size_split in Hs.
    pose proof (join_pieces_size (reverse (drop_trivial rest))) as Hj.
    rewrite pieces_size_reverse in Hj. pose proof (drop_trivial_size rest).
    destruct w; [done|]. unfold pieces_size in *. simpl in *. lia.
Qed.

(** The [k]th directory of the search. *)
Fixpoint ancestor (k : nat) (dir : option string) : option string :=
  match k with O => dir | S k => ancestor k (dir ≫= parent) end.

Lemma find_nearest_run is_file fuel current :
  match current with Some dir => String.length dir < fuel | None => True end ->
  match find_nearest is_file fuel current with
  | Ok (Some path) =>
      exists k dir, ancestor k current = Some dir /\ config_in is_file dir = Some path /\
        forall j d, j < k -> ancestor j current = Some d -> config_in is_file d = None
  | Ok None => forall j d, ancestor j current = Some d -> config_in is_file d = None
  | _ => False
  end.
Proof.
  revert current. induction fuel as [|fuel IH]; intros [dir|] Hf; simpl; try lia.
  - intros j d. induction j; simpl; done.
  - destruct (config_in is_file dir) as [path|] eqn:Hc.
    { exists 0, dir. split_and!; try done. intros; lia. }
    specialize (IH (parent dir)).
    assert (match parent dir with Some q => String.length q < fuel | None => True end) as Hlt.
    { destruct (parent dir) eqn:E; [|done]. apply parent_shorter in E. lia. }
    specialize (IH Hlt). destruct (find_nearest is_file fuel (parent dir)) as [[path|]|e| |];
      try done.
    + destruct IH as (k & d & Hk & Hp & Hn). exists (S k), d. split_and!; try done.
      intros [|j] d' Hj; simpl; [by intros [= <-]|]. apply Hn. lia.
    + intros [|j] d'; simpl; [by intros [= <-]|]. apply IH.
  - intros j d. induction j; simpl; done.
Qed.

(** [find_nearest_path] always ends; it returns the configuration file of the
    nearest directory, from the start upwards, that has one, and nothing only
    when neither the start nor any of its parents has one. *)
Theorem find_nearest_path_spec (is_file : string -> bool) (start : string) :
  match find_nearest_path is_file start with
  | Ok (Some path) =>
      exists k dir, ancestor k (Some start) = Some dir /\ config_in is_file dir = Some path /\
        forall j d, j < k -> ancestor j (Some start) = Some d -> config_in is_file d = None
  | Ok None => forall j d, ancestor j (Some start) = Some d -> config_in is_file d = None
  | _ => False
  end.
Proof. apply find_nearest_run. lia. Qed.

Lemma load_validated_witness :
  let load := load_from_path (fun p => p) (fun _ => Ok sample_config)
                (fun _ => Err "not toml") (fun _ => Ok []) in
  load "/p/devstack.yml" = Ok sample_config /\ validate sample_config = Ok tt.
Proof.
  split; [by vm_compute|].
  apply (load_validated (fun _ => Ok sample_config) (fun _ => Err "not toml") (fun p => p)
    (fun _ => Ok []) "/p/devstack.yml" sample_config). by vm_compute.
Defined.

Example find_nearest_up :
  find_nearest_path (fun p => bool_decide (p = "/home/me/devstack.yaml")) "/home/me/app//src/."
  = Ok (Some "/home/me/devstack.yaml").
Proof. by vm_compute. Qed.

Example parent_dot : parent "./a/./" = Some ".".
Proof. by vm_compute. Qed.
