(* ===== verification/ConfigEnv.v ===== *)
(** * Environment references

    Models [src/config/env.rs]: the expansion of [$VAR] and [${VAR}] in the
    values of an environment.  Every character the scanner tests is ASCII, so
    the scan is written on bytes.  [var] is the process environment: the answer
    of [std::env::var]. *)

From S2P Require Import Prelude Bytes BMap.
From Stdlib Require Import Lia.

Definition ident_char (c : ascii) : bool := is_ascii_alphanumeric c || Ascii.eqb c "_".

(** The name of a [$VAR] reference: the longest run of identifier characters. *)
Fixpoint take_ident (s : bytes) : bytes * bytes :=
  match s with
  | c :: r => if ident_char c then let '(name, rest) := take_ident r in (c :: name, rest)
              else ([], s)
  | [] => ([], [])
  end.

(** The name of a [${VAR}] reference: up to the closing brace, which may be
    missing, and then the name is all that is left. *)
Fixpoint take_braced (s : bytes) : bytes * bool * bytes :=
  match s with
  | c :: r =>
      if Ascii.eqb c "}" then ([], true, r)
      else let '(name, closed, rest) := take_braced r in (c :: name, closed, rest)
  | [] => ([], false, [])
  end.

Section resolve.
Context (var : string -> option string).

Definition braced_value (name : bytes) (closed : bool) : bytes :=
  match var (of_bytes name) with
  | Some env_val => to_bytes env_val
  | None => to_bytes "${" ++ name ++ (if closed then ["}"%char] else [])
  end.

Definition plain_value (name : bytes) : bytes :=
  match name with
  | [] => ["$"%char]
  | _ => match var (of_bytes name) with
         | Some env_val => to_bytes env_val
         | None => "$"%char :: name
         end
  end.

(** The loop over the characters; each turn consumes at least one. *)
Fixpoint resolve_loop (fuel : nat) (s : bytes) : bytes :=
  match fuel, s with
  | S fuel, "$"%char :: "{"%char :: r =>
      let '(name, closed, rest) := take_braced r in
      braced_value name closed ++ resolve_loop fuel rest
  | S fuel, "$"%char :: r =>
      let '(name, rest) := take_ident r in
      plain_value name ++ resolve_loop fuel rest
  | S fuel, ch :: r => ch :: resolve_loop fuel r
  | _, _ => []
  end.

Definition resolve_env_vars (value : string) : string :=
  of_bytes (resolve_loop (String.length value) (to_bytes value)).

Definition resolve_env_map (env : bmap string string) : bmap string string :=
  bcollect (map (fun kv => (kv.1, resolve_env_vars kv.2)) env).
End resolve.

(** ** What the expansion means *)

(** A value read as literal characters and references. *)
Inductive piece : Type :=
  | Lit (c : ascii)
  | Dollar
  | Plain (name : bytes)
  | Braced (name : bytes) (closed : bool).

Definition print_piece (p : piece) : bytes :=
  match p with
  | Lit c => [c]
  | Dollar => ["$"%char]
  | Plain name => "$"%char :: name
  | Braced name closed => to_bytes "${" ++ name ++ (if closed then ["}"%char] else [])
  end.

(** What a piece stands for: the value of the variable when it is set, and the
    very text of the reference otherwise. *)
Definition expand_piece (var : string -> option string) (p : piece) : bytes :=
  match p with
  | Plain name | Braced name _ =>
      match var (of_bytes name) with Some v => to_bytes v | None => print_piece p end
  | _ => print_piece p
  end.

(** The reading is the longest one: a name ends where no identifier character
    follows, a [$] alone is followed by neither a brace nor an identifier
    character, and an unclosed brace is the end of the value. *)
Definition starts_ident (s : bytes) : bool := match s with c :: _ => ident_char c | [] => false end.
Definition starts_brace (s : bytes) : bool := match s with c :: _ => Ascii.eqb c "{" | [] => false end.

Fixpoint pieces_ok (ps : list piece) : Prop :=
  match ps with
  | [] => True
  | p :: ps =>
      let rest := flat_map print_piece ps in
      match p with
      | Lit c => c <> "$"%char
      | Dollar => starts_ident rest = false /\ starts_brace rest = false
      | Plain name => name <> [] /\ forallb ident_char name = true /\ starts_ident rest = false
      | Braced name closed => ("}"%char ∉ name) /\ (closed = true \/ ps = [])
      end /\ pieces_ok ps
  end.

Lemma take_ident_spec s :
  let '(name, rest) := take_ident s in
  s = name ++ rest /\ forallb ident_char name = true /\ starts_ident rest = false.
Proof.
  induction s as [|c s IH]; simpl; [done|]. destruct (ident_char c) eqn:E; simpl; [|done].
  destruct (take_ident s) as [name rest]. destruct IH as (-> & Hn & Hr). simpl. by rewrite E.
Qed.

Lemma take_braced_spec s :
  let '(name, closed, rest) := take_braced s in
  s = name ++ (if closed then "}"%char :: rest else []) /\ ("}"%char ∉ name) /\
  (closed = false -> rest = []).
Proof.
  induction s as [|c s IH]; simpl; [split_and!; [done|by intros ?%elem_of_nil|done]|].
  destruct (Ascii.eqb_spec c "}") as [->|Hne]; simpl.
  { split_and!; [done|by intros ?%elem_of_nil|done]. }
  destruct (take_braced s) as [[name closed] rest]. destruct IH as (-> & Hn & Hr).
  split_and!; [done| |done]. apply not_elem_of_cons. done.
Qed.

(** One turn of the loop. *)
Lemma resolve_loop_lit var fuel c r :
  c <> "$"%char -> resolve_loop var (S fuel) (c :: r) = c :: resolve_loop var fuel r.
Proof. destruct c as [[] [] [] [] [] [] [] []]; done. Qed.

Lemma resolve_loop_plain var fuel r :
  starts_brace r = false ->
  resolve_loop var (S fuel) ("$"%char :: r) =
  let '(name, rest) := take_ident r in plain_value var name ++ resolve_loop var fuel rest.
Proof. destruct r as [|c r]; [done|]. destruct c as [[] [] [] [] [] [] [] []]; done. Qed.

Lemma resolve_loop_pieces fuel s :
  length s <= fuel ->
  exists ps, pieces_ok ps /\ flat_map print_piece ps = s /\
    forall var, resolve_loop var fuel s = flat_map (expand_piece var) ps.
Proof.
  revert s. induction fuel as [|fuel IH]; intros [|c s] Hf; simpl in Hf; try lia;
    [by exists []..|].
  destruct (decide (c = "$"%char)) as [->|Hne].
  2:{ destruct (IH s) as (ps & Hok & <- & Hr); [lia|]. exists (Lit c :: ps).
      split_and!; [done|done|]. intros var. rewrite resolve_loop_lit, Hr; done. }
  destruct (starts_brace s) eqn:Hb.
  - destruct s as [|b s]; [done|]. simpl in Hb. apply Ascii.eqb_eq in Hb as ->.
    pose proof (take_braced_spec s) as Ht. destruct (take_braced s) as [[name closed] rest] eqn:E.
    destruct Ht as (-> & Hn & Hc).
    destruct (IH rest) as (ps & Hok & Hp & Hr).
    { simpl in Hf. rewrite length_app in Hf. destruct closed; simpl in Hf; [lia|].
      rewrite Hc by done. simpl. lia. }
    exists (Braced name closed :: ps). split_and!; [|simpl; rewrite Hp|].
    + split; [|done]. split; [done|]. destruct closed; [by left|right].
      destruct ps as [|p ps]; [done|]. exfalso. rewrite (Hc eq_refl) in Hp.
      by destruct p.
    + destruct closed; simpl; rewrite <- ?app_assoc; simpl; [done|].
      rewrite Hc by done. by rewrite !app_nil_r.
    + intros var. cbn [resolve_loop]. rewrite E, Hr. by unfold braced_value.
  - pose proof (take_ident_spec s) as Ht. destruct (take_ident s) as [name rest] eqn:E.
    destruct Ht as (-> & Hn & Hs).
    destruct (IH rest) as (ps & Hok & Hp & Hr); [rewrite length_app in Hf; lia|].
    exists ((if bool_decide (name = []) then Dollar else Plain name) :: ps).
    rewrite <- Hp in Hs, Hb.
    case_bool_decide as Hnil; [subst name|]; (split_and!; [|by simpl; rewrite Hp|]);
      [done| |done|]; intros var; rewrite resolve_loop_plain, E, Hr by (by rewrite <- Hp);
      [done|]. destruct name; done.
Qed.

(** The expansion of a value is one pass over its unique reading as literal
    text and references: a reference to a set variable becomes the value of the
    variable, which is not scanned again; a reference to an unset variable, an
    unclosed [${] and a [$] alone stay as they are written. *)
Theorem resolve_env_vars_spec (value : string) :
  exists ps, pieces_ok ps /\ flat_map print_piece ps = to_bytes value /\
    forall var, resolve_env_vars var value = of_bytes (flat_map (expand_piece var) ps).
Proof.
  destruct (resolve_loop_pieces (String.length value) (to_bytes value)) as (ps & Hok & Hp & Hr).
  { clear. induction value; simpl; lia. }
  exists ps. split_and!; [done..|]. intros var. unfold resolve_env_vars. by rewrite Hr.
Qed.

Lemma resolve_env_map_values var env :
  bwf env -> resolve_env_map var env = bmap_values (fun _ v => resolve_env_vars var v) env.
Proof. intros Hwf. unfold resolve_env_map. apply bcollect_id. by apply bwf_bmap_values. Qed.

(** Expanding an environment keeps its keys and expands each value; when no
    variable is set it changes nothing, so no reference is ever dropped. *)
Theorem resolve_env_map_spec (var : string -> option string) (env : bmap string string) :
  bwf env ->
  (forall k, bget k (resolve_env_map var env) = resolve_env_vars var <$> bget k env) /\
  ((forall x, var x = None) -> resolve_env_map var env = env).
Proof.
  intros Hwf. rewrite resolve_env_map_values by done. split.
  { intros k. by rewrite bget_bmap_values. }
  intros Hnone. unfold bmap_values. rewrite <- (List.map_id env) at 2. apply List.map_ext.
  intros [k v]. f_equal. simpl. unfold resolve_env_vars.
  destruct (resolve_loop_pieces (String.length v) (to_bytes v)) as (ps & _ & Hp & ->).
  { clear. induction v; simpl; lia. }
  rewrite <- (of_to_bytes v), <- Hp. f_equal. apply flat_map_ext.
  intros [c| |name|name closed]; simpl; by rewrite ?Hnone.
Qed.

Lemma resolve_env_map_spec_witness :
  resolve_env_map (fun _ => None) [("A", "${B}"); ("C", "$D/x")]
  = [("A", "${B}"); ("C", "$D/x")].
Proof.
  apply resolve_env_map_spec; [repeat constructor|done].
Defined.

Example resolve_mixed :
  resolve_env_vars (fun x => if bool_decide (x = "A") then Some "$B" else None)
    "x${A}y$A-$C_1.${D}$ ${A" = "x$By$B-$C_1.${D}$ $B".
Proof. by vm_compute. Qed.
