(* ===== verification/Port.v ===== *)
(** * The port reservation registry

    Models [src/port.rs] and the owner names of [src/app/runtime.rs].  The
    registry is a file shared by every daemon of the machine; an operation locks
    it, reads it, forgets the entries of dead daemons, acts, and writes it back
    only if the action succeeded.  What the kernel answers during one operation
    (signals, binds, failures of the file system) is a record; the JSON codec of
    the file is a class with its documented round trip. *)

From S2P Require Import Prelude Bytes BMap Util ConfigModel.
From Stdlib Require Import Lia.
From stdpp Require Import countable.

(** ** Data *)

Record PortReservationEntry := mkEntry { pe_owner : string; pe_daemon_pid : Z }.

Definition PortReservationRegistry := bmap Z PortReservationEntry.

(** The answers of the operating system during one operation.  The [n]th [bind]
    of the operation gets the [n]th answer. *)
Record Kernel := mkKernel {
  k_pid : Z;                               (** [std::process::id()] *)
  k_kill : Z -> option Z;                  (** [kill(pid, 0)]: [None], or an [errno] *)
  k_ephemeral : nat -> outcome Z;          (** [bind("127.0.0.1:0")], the port *)
  k_bind : nat -> Z -> outcome unit;       (** [bind("127.0.0.1:port")] *)
  k_open : outcome unit;                   (** opening and locking the file *)
  k_write : option (string * string);      (** a failed write: what it leaves, and why *)
}.

Definition EPERM : Z := 1.

Definition is_pid_alive (k : Kernel) (pid : Z) : bool :=
  if (pid =? 0)%Z || (i32_max <? pid)%Z then false
  else match k_kill k pid with
       | None => true
       | Some err => (err =? EPERM)%Z
       end.

Definition cleanup_stale (k : Kernel) (registry : PortReservationRegistry)
    : PortReservationRegistry :=
  bretain (fun _ entry => is_pid_alive k (pe_daemon_pid entry)) registry.

(** ** The actions on a registry in memory *)

(** An action threads the registry and the number of binds so far. *)
Definition RegState : Type := PortReservationRegistry * nat.
Definition action (T : Type) : Type := RegState -> outcome (T * RegState).

Definition reserved_msg (port : Z) : string :=
  "port " +:+ show port +:+ " is reserved by another devstack service".

Definition ensure_available (k : Kernel) (clock : nat) (port : Z) : outcome unit :=
  map_err (fun e => "port " +:+ show port +:+ " is unavailable: " +:+ e) (k_bind k clock port).

Section actions.
Context (k : Kernel).

Definition reserve_specific_port (port : Z) (owner : string) (require_available : bool)
    : action unit :=
  fun '(registry, clock) =>
    match bget port registry with
    | Some entry =>
        if bool_decide (pe_owner entry = owner) then Ok (tt, (registry, clock))
        else Err (reserved_msg port)
    | None =>
        _ ← (if require_available then ensure_available k clock port else Ok tt);
        Ok (tt, (binsert port (mkEntry owner (k_pid k)) registry,
                 if require_available then S clock else clock))
    end.

(** The loop of [allocate_ephemeral_port]; [fuel] bounds the binds. *)
Fixpoint allocate_ephemeral_port (fuel : nat) (owner : string) (s : RegState)
    : outcome (Z * RegState) :=
  match fuel with
  | O => OutOfFuel
  | S fuel =>
      let '(registry, clock) := s in
      port ← k_ephemeral k clock;
      if bcontains port registry then allocate_ephemeral_port fuel owner (registry, S clock)
      else Ok (port, (binsert port (mkEntry owner (k_pid k)) registry, S clock))
  end.

Definition allocate_one (fuel : nat) (owner_for : string -> string)
    (acc : bmap string (option Z) * RegState) (entry : string * ServiceConfig)
    : outcome (bmap string (option Z) * RegState) :=
  let '(allocated, s) := acc in
  let '(name, svc) := entry in
  let owner := owner_for name in
  '(port, s) ←
    match sc_port svc with
    | Some (PortFixed value) =>
        '(_, s) ← reserve_specific_port value owner true s; Ok (Some value, s)
    | Some (PortNone _) => Ok (None, s)
    | None => '(port, s) ← allocate_ephemeral_port fuel owner s; Ok (Some port, s)
    end;
  Ok (binsert name port allocated, s).

Definition allocate_ports_action (fuel : nat) (services : bmap string ServiceConfig)
    (owner_for : string -> string) : action (bmap string (option Z)) :=
  fun s => ofold (allocate_one fuel owner_for) services ([], s).

Definition release_action (port : Z) (owner : string) : action unit :=
  fun '(registry, clock) =>
    match bget port registry with
    | Some entry =>
        if bool_decide (pe_owner entry = owner) then Ok (tt, (bremove port registry, clock))
        else Err (reserved_msg port)
    | None => Ok (tt, (registry, clock))
    end.
End actions.

(** ** The registry file *)

(** The registries that the types of the source can hold: ordered by port, with
    16-bit ports, 32-bit process ids and owners that are text. *)
Definition is_text (s : string) : Prop := utf8_valid (to_bytes s) = true.

Definition entry_ok (port : Z) (e : PortReservationEntry) : Prop :=
  in_range 0 u16_max port /\ is_text (pe_owner e) /\ in_range 0 u32_max (pe_daemon_pid e).

Definition registry_ok (r : PortReservationRegistry) : Prop :=
  bwf r /\ forall port e, bget port r = Some e -> entry_ok port e.

(** The JSON codec of the registry ([serde_json::to_vec_pretty] and [from_str]):
    what is written is text that is not blank and reads back as the same
    registry. *)
Class RegistryCodec := {
  to_json : PortReservationRegistry -> string;
  from_json : string -> outcome PortReservationRegistry;
  json_text : forall r, registry_ok r -> is_text (to_json r);
  json_not_blank : forall r, registry_ok r -> str_trim (to_json r) <> "";
  json_roundtrip : forall r, registry_ok r -> from_json (to_json r) = Ok r;
}.

Section file.
Context `{RegistryCodec}.

Definition read_registry (contents : string) : outcome PortReservationRegistry :=
  if negb (utf8_valid (to_bytes contents)) then Err "stream did not contain valid UTF-8"
  else if bool_decide (str_trim contents = "") then Ok []
  else map_err (fun e => "parse port reservation registry: " +:+ e) (from_json contents).

(** The result of the operation and the file after it. *)
Definition with_registry {T} (k : Kernel) (act : action T) (file : string)
    : outcome T * string :=
  match k_open k with
  | Ok _ =>
      match registry ← read_registry file; act (cleanup_stale k registry, 0) with
      | Ok (output, (registry, _)) =>
          match k_write k with
          | None => (Ok output, to_json registry)
          | Some (leftover, e) => (Err e, leftover)
          end
      | Err e => (Err e, file)
      | Panic => (Panic, file)
      | OutOfFuel => (OutOfFuel, file)
      end
  | Err e => (Err e, file)
  | Panic => (Panic, file)
  | OutOfFuel => (OutOfFuel, file)
  end.

Definition allocate_ports (k : Kernel) (fuel : nat) (services : bmap string ServiceConfig)
    (owner_for : string -> string) (file : string) : outcome (bmap string (option Z)) * string :=
  with_registry k (allocate_ports_action k fuel services owner_for) file.

Definition reserve_port (k : Kernel) (port : Z) (owner : string) (file : string)
    : outcome unit * string :=
  with_registry k (reserve_specific_port k port owner false) file.

Definition reserve_available_port (k : Kernel) (port : Z) (owner : string) (file : string)
    : outcome unit * string :=
  with_registry k (reserve_specific_port k port owner true) file.

Definition reserve_ephemeral_port (k : Kernel) (fuel : nat) (owner : string) (file : string)
    : outcome Z * string :=
  with_registry k (allocate_ephemeral_port k fuel owner) file.

Definition release_port (k : Kernel) (port : Z) (owner : string) (file : string)
    : outcome unit * string :=
  with_registry k (release_action port owner) file.
End file.

(** ** The owners of [src/app/runtime.rs] *)

Definition port_owner (run_id service : string) : string :=
  "run:" +:+ run_id +:+ ":" +:+ service.

Definition capture_backend_port_owner (run_id service : string) : string :=
  "run:" +:+ run_id +:+ ":" +:+ service +:+ ":api-capture-backend".

Definition global_port_owner (key service : string) : string :=
  "global:" +:+ key +:+ ":" +:+ service.

(** ** What the actions do *)

Lemma bget_cleanup k r port :
  bwf r -> bget port (cleanup_stale k r) =
  match bget port r with
  | Some e => if is_pid_alive k (pe_daemon_pid e) then Some e else None
  | None => None
  end.
Proof. intros Hwf. unfold cleanup_stale. rewrite bget_bretain by done. by destruct (bget port r). Qed.

(** An action that gives ports to [owner] only adds entries, and only its own. *)
Record grants (k : Kernel) (owner : string -> Prop) (r r' : PortReservationRegistry) : Prop := {
  gr_keep : forall p e, bget p r = Some e -> bget p r' = Some e;
  gr_new : forall p e, bget p r = None -> bget p r' = Some e ->
           owner (pe_owner e) /\ pe_daemon_pid e = k_pid k /\ in_range 0 u16_max p;
  gr_wf : bwf r -> bwf r';
}.

Lemma grants_refl k owner r : grants k owner r r.
Proof. constructor; [auto|congruence|auto]. Qed.

Lemma grants_trans k (owner : string -> Prop) r1 r2 r3 :
  grants k owner r1 r2 -> grants k owner r2 r3 -> grants k owner r1 r3.
Proof.
  intros [K1 N1 W1] [K2 N2 W2]. constructor; [auto| |auto].
  intros p e H1 H3. destruct (bget p r2) as [e'|] eqn:H2.
  - rewrite (K2 _ _ H2) in H3. injection H3 as <-. by apply N1.
  - by apply N2.
Qed.

Lemma grants_mono k (P Q : string -> Prop) r r' :
  (forall o, P o -> Q o) -> grants k P r r' -> grants k Q r r'.
Proof.
  intros HPQ [Hkeep N W]. constructor; [done| |done].
  intros p e H1 H2. destruct (N p e H1 H2) as [? ?]. auto.
Qed.

Lemma grants_insert k owner r port :
  in_range 0 u16_max port -> bget port r = None ->
  grants k (eq owner) r (binsert port (mkEntry owner (k_pid k)) r).
Proof.
  intros Hp Hn. constructor; [| |by apply bwf_binsert].
  - intros p e He. rewrite bget_binsert. destruct (keqb port p) eqn:E; [|done].
    apply keqb_true in E as ->. congruence.
  - intros p e H1. rewrite bget_binsert. destruct (keqb port p) eqn:E; [|congruence].
    apply keqb_true in E as ->. by intros [= <-].
Qed.

(** The kernel hands out 16-bit ports. *)
Definition kernel_ok (k : Kernel) : Prop :=
  in_range 0 u32_max (k_pid k) /\
  forall n port, k_ephemeral k n = Ok port -> in_range 0 u16_max port.

Lemma reserve_specific_port_Ok k port owner avail r c u r' c' :
  in_range 0 u16_max port ->
  reserve_specific_port k port owner avail (r, c) = Ok (u, (r', c')) ->
  grants k (eq owner) r r' /\
  (exists e, bget port r' = Some e /\ pe_owner e = owner) /\
  (bget port r = None -> avail = true -> k_bind k c port = Ok tt).
Proof.
  unfold reserve_specific_port, ensure_available. intros Hp H.
  destruct (bget port r) as [e|] eqn:He.
  - case_bool_decide; [|done]. injection H as _ <- <-.
    split_and!; [apply grants_refl|by exists e|done].
  - outcome_simpl. split_and!.
    + by apply grants_insert.
    + rewrite bget_binsert_eq. by eexists.
    + intros _ ->. by outcome_simpl.
Qed.

Lemma allocate_ephemeral_port_Ok k fuel owner r c port r' c' :
  kernel_ok k -> allocate_ephemeral_port k fuel owner (r, c) = Ok (port, (r', c')) ->
  grants k (eq owner) r r' /\ bget port r = None /\
  bget port r' = Some (mkEntry owner (k_pid k)).
Proof.
  intros Hk. revert c. induction fuel as [|fuel IH]; intros c; simpl; [done|].
  intros H. outcome_simpl. destruct (bcontains x r) eqn:Hc; [by eapply IH|].
  injection H0 as -> <- <-. assert (bget port r = None) as Hn.
  { unfold bcontains in Hc. by destruct (bget port r). }
  split_and!; [|done|by rewrite bget_binsert_eq].
  apply grants_insert; [|done]. by eapply Hk.
Qed.

Lemma release_action_Ok port owner r c u r' c' :
  release_action port owner (r, c) = Ok (u, (r', c')) ->
  (forall p, bget p r' = if keqb port p then None else bget p r) /\
  (forall e, bget port r = Some e -> pe_owner e = owner) /\ (bwf r -> bwf r').
Proof.
  unfold release_action. destruct (bget port r) as [e|] eqn:He.
  - case_bool_decide as Ho; [|done]. intros [= _ <- <-].
    split_and!; [intros p; apply bget_bremove|naive_solver|apply bwf_bremove].
  - intros [= _ <- <-]. split_and!; [|done|done]. intros p.
    destruct (keqb port p) eqn:E; [|done]. apply keqb_true in E as <-. done.
Qed.

(** ** Allocation *)

Definition held (r : PortReservationRegistry) (port : Z) (owner : string) : Prop :=
  exists e, bget port r = Some e /\ pe_owner e = owner.

Lemma held_grants k owner r r' port o : grants k owner r r' -> held r port o -> held r' port o.
Proof. intros Hg (e & He & Ho). exists e. split; [by eapply gr_keep|done]. Qed.

(** What a service gets: nothing, its fixed port, or a port nobody had. *)
Definition granted (owner : string) (r r' : PortReservationRegistry) (svc : ServiceConfig)
    (got : option (option Z)) : Prop :=
  match sc_port svc with
  | Some (PortNone _) => got = Some None
  | Some (PortFixed v) => got = Some (Some v) /\ held r' v owner
  | None => exists port, got = Some (Some port) /\ held r' port owner /\ bget port r = None
  end.

Lemma granted_mono k P Q owner r0 r1 r2 r3 svc got :
  grants k P r0 r1 -> grants k Q r2 r3 -> granted owner r1 r2 svc got ->
  granted owner r0 r3 svc got.
Proof.
  unfold granted. intros H01 H23. destruct (sc_port svc) as [[v|v]|]; [done| |].
  - intros [-> Hh]. split; [done|]. by eapply held_grants.
  - intros (port & -> & Hh & Hn). exists port. split_and!; [done|by eapply held_grants|].
    destruct (bget port r0) eqn:E; [|done]. apply (gr_keep _ _ _ _ H01) in E. congruence.
Qed.

(** Fixed ports are 16-bit. *)
Definition port_typed (svc : ServiceConfig) : Prop :=
  forall v, sc_port svc = Some (PortFixed v) -> in_range 0 u16_max v.

Section allocation.
Context (k : Kernel) (Hk : kernel_ok k) (fuel : nat) (owner_for : string -> string).

Lemma allocate_one_Ok allocated r c name svc allocated' r' c' :
  port_typed svc ->
  allocate_one k fuel owner_for (allocated, (r, c)) (name, svc) = Ok (allocated', (r', c')) ->
  grants k (eq (owner_for name)) r r' /\
  (forall n, n <> name -> bget n allocated' = bget n allocated) /\
  granted (owner_for name) r r' svc (bget name allocated').
Proof.
  unfold allocate_one, granted. intros Hp H. outcome_simpl. destruct x as [port [r1 c1]].
  injection H0 as <- <- <-.
  assert (forall n, n <> name -> bget n (binsert name port allocated) = bget n allocated)
    as Hother by (intros n Hn; by apply bget_binsert_ne).
  rewrite bget_binsert_eq.
  destruct (sc_port svc) as [[v|v]|] eqn:Es; outcome_simpl.
  - split_and!; [apply grants_refl|done|done].
  - destruct x as [u s]. injection H0 as <- ->.
    apply reserve_specific_port_Ok in H as (Hg & Hh & _); [|by apply Hp]. by split_and!.
  - destruct x as [p s]. injection H0 as <- ->.
    apply allocate_ephemeral_port_Ok in H as (Hg & Hn & Hh); [|done].
    split_and!; [done..|]. exists p. split_and!; [done| |done]. by eexists.
Qed.

Lemma allocate_all_Ok (l : bmap string ServiceConfig) allocated r c allocated' r' c' :
  NoDup (bkeys l) -> (forall n svc, (n, svc) ∈ l -> port_typed svc) ->
  ofold (allocate_one k fuel owner_for) l (allocated, (r, c)) = Ok (allocated', (r', c')) ->
  grants k (fun o => exists n, n ∈ bkeys l /\ o = owner_for n) r r' /\
  (forall n, n ∉ bkeys l -> bget n allocated' = bget n allocated) /\
  (forall n svc, (n, svc) ∈ l -> granted (owner_for n) r r' svc (bget n allocated')).
Proof.
  revert allocated r c. induction l as [|[name svc] l IH]; intros allocated r c Hnd Ht;
    cbn [ofold].
  { intros [= <- <- <-]. split_and!; [apply grants_refl|done|].
    by intros n svc ?%elem_of_nil. }
  intros H. outcome_simpl. destruct x as [a1 [r1 c1]].
  change (bkeys ((name, svc) :: l)) with (name :: bkeys l) in *.
  pose proof (NoDup_cons_1_1 _ _ Hnd) as Hni. apply NoDup_cons_1_2 in Hnd.
  apply allocate_one_Ok in H as (Hg1 & Ho1 & Hgr1); [|apply (Ht name); left].
  apply IH in H0 as (Hg2 & Ho2 & Hgr2); [|done|intros; eapply Ht; by right].
  split_and!.
  - apply (grants_trans k _ r r1 r').
    + refine (grants_mono k _ _ _ _ _ Hg1). intros o <-. exists name. split; [left|done].
    + refine (grants_mono k _ _ _ _ _ Hg2). intros o (n & Hn & ->). exists n. split; [by right|done].
  - intros n [Hne Hn]%not_elem_of_cons. rewrite Ho2, Ho1; done.
  - intros n svc' [[= -> ->]|Hin]%elem_of_cons.
    + rewrite Ho2 by done. eapply granted_mono; [apply (grants_refl k (fun _ => True))|done..].
    + eapply granted_mono; [exact Hg1|apply (grants_refl k (fun _ => True))|by apply Hgr2].
Qed.
End allocation.

(** ** The file *)

Section file_lemmas.
Context `{RegistryCodec}.

(** The file holds a registry. *)
Definition holds (file : string) (r : PortReservationRegistry) : Prop :=
  read_registry file = Ok r /\ registry_ok r.

Lemma holds_json r : registry_ok r -> holds (to_json r) r.
Proof.
  intros Hr. split; [|done]. unfold read_registry.
  rewrite (json_text r Hr). simpl. rewrite bool_decide_eq_false_2 by by apply json_not_blank.
  by rewrite json_roundtrip.
Qed.

Lemma registry_ok_grants k (P : string -> Prop) r r' :
  kernel_ok k -> (forall o, P o -> is_text o) -> grants k P r r' ->
  registry_ok r -> registry_ok r'.
Proof.
  intros [Hpid _] HP Hg [Hwf He]. split; [by eapply gr_wf|].
  intros p e Hp. destruct (bget p r) as [e0|] eqn:E.
  - pose proof (gr_keep _ _ _ _ Hg _ _ E) as Hkeep. rewrite Hp in Hkeep.
    injection Hkeep as <-. by apply He.
  - destruct (gr_new _ _ _ _ Hg _ _ E Hp) as (Ho & Hd & Hr).
    split_and!; [done|by apply HP|]. by rewrite Hd.
Qed.

Lemma registry_ok_cleanup k r : registry_ok r -> registry_ok (cleanup_stale k r).
Proof.
  intros [Hwf He]. split; [by apply bwf_bretain|]. intros p e. rewrite bget_cleanup by done.
  destruct (bget p r) as [e0|] eqn:E; [|done].
  destruct (is_pid_alive k (pe_daemon_pid e0)); [|done]. intros [= <-]. by apply He.
Qed.

(** An operation either leaves the file as it is or stores what the action
    made of the registry without its stale entries. *)
Lemma with_registry_cases {T} k (act : action T) file r :
  holds file r -> k_write k = None ->
  (with_registry k act file).2 = file \/
  exists out r' c', act (cleanup_stale k r, 0) = Ok (out, (r', c')) /\
    with_registry k act file = (Ok out, to_json r').
Proof.
  intros [Hr _] Hw. unfold with_registry. rewrite Hr, Hw. ored.
  destruct (k_open k); simpl; auto.
  destruct (act (cleanup_stale k r, 0)) as [[out [r' c']]|e| |]; simpl; auto.
  right. by exists out, r', c'.
Qed.

(** *** Any operation of any daemon *)

Inductive PortOp : Type :=
  | OpAllocate (services : bmap string ServiceConfig) (owner_for : string -> string)
  | OpReserve (port : Z) (owner : string) (require_available : bool)
  | OpEphemeral (owner : string)
  | OpRelease (port : Z) (owner : string).

(** The values have the types of the source. *)
Definition op_typed (op : PortOp) : Prop :=
  match op with
  | OpAllocate services owner_for =>
      bwf services /\ (forall n svc, (n, svc) ∈ services -> port_typed svc) /\
      forall n, n ∈ bkeys services -> is_text (owner_for n)
  | OpReserve port owner _ => in_range 0 u16_max port /\ is_text owner
  | OpEphemeral owner => is_text owner
  | OpRelease _ _ => True
  end.

(** The file after one operation, [fuel] bounding the retries. *)
Definition run_op (k : Kernel) (fuel : nat) (op : PortOp) (file : string) : string :=
  match op with
  | OpAllocate services owner_for => (allocate_ports k fuel services owner_for file).2
  | OpReserve port owner true => (reserve_available_port k port owner file).2
  | OpReserve port owner false => (reserve_port k port owner file).2
  | OpEphemeral owner => (reserve_ephemeral_port k fuel owner file).2
  | OpRelease port owner => (release_port k port owner file).2
  end.

Lemma with_registry_grants {T} k (act : action T) (P : string -> Prop) file r :
  holds file r -> k_write k = None -> kernel_ok k -> (forall o, P o -> is_text o) ->
  (forall r0 out r' c', bwf r0 -> act (r0, 0) = Ok (out, (r', c')) -> grants k P r0 r') ->
  exists r', holds (with_registry k act file).2 r' /\
    (r' = r \/ grants k P (cleanup_stale k r) r').
Proof.
  intros Hh Hw Hk HP Hact.
  destruct (with_registry_cases k act file r Hh Hw) as [->|(out & r' & c' & Ha & ->)].
  { exists r. auto. }
  pose proof (registry_ok_cleanup k r (proj2 Hh)) as Hclean.
  pose proof (Hact _ _ _ _ (proj1 Hclean) Ha) as Hg. exists r'. split; [|by right].
  apply holds_json. by eapply registry_ok_grants.
Qed.

(** An operation keeps every reservation of a live daemon, unless it is its
    release by its owner. *)
Lemma run_op_keeps k fuel op file r port e :
  kernel_ok k -> k_write k = None -> op_typed op -> holds file r ->
  bget port r = Some e -> is_pid_alive k (pe_daemon_pid e) = true ->
  op <> OpRelease port (pe_owner e) ->
  exists r', holds (run_op k fuel op file) r' /\ bget port r' = Some e.
Proof.
  intros Hk Hw Ht Hh He Hlive Hrel.
  assert (bget port (cleanup_stale k r) = Some e) as Hc.
  { rewrite bget_cleanup by apply Hh. by rewrite He, Hlive. }
  assert (forall T (act : action T) (P : string -> Prop), (forall o, P o -> is_text o) ->
    (forall r0 out r' c', bwf r0 -> act (r0, 0) = Ok (out, (r', c')) -> grants k P r0 r') ->
    exists r', holds (with_registry k act file).2 r' /\ bget port r' = Some e) as Hgen.
  { intros T act P HP Hact.
    destruct (with_registry_grants k act P file r) as (r' & Hr' & [Heq|Hg]); try done;
      exists r'; (split; [done|]); [by rewrite Heq|]. by eapply gr_keep. }
  destruct op as [services owner_for|p o avail|o|p o]; simpl in *.
  - destruct Ht as (Hwf & Hp & Ho).
    apply (Hgen _ _ (fun o => exists n, n ∈ bkeys services /\ o = owner_for n)).
    { intros o (n & Hn & ->). by apply Ho. }
    intros r0 out r' c' _ Ha. eapply allocate_all_Ok; [done|by apply bwf_NoDup_keys|done..].
  - destruct Ht as [Hp Ho].
    destruct avail; apply (Hgen _ _ (eq o)); try by intros ? <-.
    all: intros r0 out r' c' _ Ha; by eapply reserve_specific_port_Ok.
  - apply (Hgen _ _ (eq o)); [by intros ? <-|].
    intros r0 out r' c' _ Ha. by eapply allocate_ephemeral_port_Ok.
  - unfold release_port.
    destruct (with_registry_cases k (release_action p o) file r Hh Hw)
      as [->|(out & r' & c' & Ha & ->)]; [by exists r|].
    apply release_action_Ok in Ha as (Hget & Hown & Hwf).
    assert (keqb p port = false) as Hne.
    { apply keqb_false. intros ->. apply Hrel. by rewrite (Hown e Hc). }
    exists r'. split; [|by rewrite Hget, Hne].
    destruct (registry_ok_cleanup k r (proj2 Hh)) as [Hcw Hce].
    apply holds_json. split; [auto|]. intros q e' Hq. rewrite Hget in Hq.
    destruct (keqb p q); [done|by apply Hce].
Qed.
End file_lemmas.

(** ** Properties *)

Section properties.
Context `{RegistryCodec}.

(** One step of the shared history: an operation, the kernel it ran against. *)
Definition PortStep : Type := Kernel * nat * PortOp.

Definition run_steps (steps : list PortStep) (file : string) : string :=
  foldl (fun file '(k, fuel, op) => run_op k fuel op file) file steps.

(** The step runs to its end, the holder of the entry is alive, and the step is
    not the release of that very entry by its owner. *)
Definition respects (port : Z) (e : PortReservationEntry) (step : PortStep) : Prop :=
  let '(k, _, op) := step in
  kernel_ok k /\ k_write k = None /\ is_pid_alive k (pe_daemon_pid e) = true /\
  op_typed op /\ op <> OpRelease port (pe_owner e).

Lemma run_steps_keeps steps file r port e :
  holds file r -> bget port r = Some e -> Forall (respects port e) steps ->
  exists r', holds (run_steps steps file) r' /\ bget port r' = Some e.
Proof.
  intros Hh He Hall. revert file r Hh He.
  induction Hall as [|[[k fuel] op] steps (Hk & Hw & Hl & Ht & Hr) _ IH]; intros file r Hh He.
  { by exists r. }
  destruct (run_op_keeps k fuel op file r port e) as (r1 & Hh1 & He1); try done.
  by eapply IH.
Qed.

(** C2: reservations exclude each other across daemons. While the daemon that holds
    a port lives, no sequence of allocations, reservations and releases by
    anybody else moves the port, and an attempt of another owner to reserve or
    to release it fails with the error of the source and leaves the registry
    file as it was. *)
Theorem reservation_exclusive (steps : list PortStep) (file : string)
    (r : PortReservationRegistry) (port : Z) (e : PortReservationEntry)
    (k : Kernel) (owner : string) :
  holds file r -> bget port r = Some e -> Forall (respects port e) steps ->
  k_open k = Ok tt -> is_pid_alive k (pe_daemon_pid e) = true -> owner <> pe_owner e ->
  let file' := run_steps steps file in
  reserve_port k port owner file' = (Err (reserved_msg port), file') /\
  reserve_available_port k port owner file' = (Err (reserved_msg port), file') /\
  release_port k port owner file' = (Err (reserved_msg port), file').
Proof.
  intros Hh He Hall Ho Hl Hne file'.
  destruct (run_steps_keeps steps file r port e Hh He Hall) as (r' & [Hr [Hwf _]] & He').
  assert (bget port (cleanup_stale k r') = Some e) as Hc.
  { rewrite bget_cleanup by done. by rewrite He', Hl. }
  unfold reserve_port, reserve_available_port, release_port, with_registry.
  fold file' in Hr. rewrite Ho, Hr. ored.
  unfold reserve_specific_port, release_action. rewrite Hc.
  rewrite bool_decide_eq_false_2 by congruence. done.
Qed.

(** [allocate_ports] is all or nothing. When it succeeds, every service has
    what its configuration asks for: no port, its fixed port, or a port that
    nobody held; the stored registry gives the port to the owner of the service,
    so services with different owners never share a port. When it fails, the
    registry file is the one before. *)
Theorem allocate_ports_spec (k : Kernel) (fuel : nat) (services : bmap string ServiceConfig)
    (owner_for : string -> string) (file : string) (r : PortReservationRegistry) :
  holds file r -> kernel_ok k -> k_write k = None ->
  op_typed (OpAllocate services owner_for) ->
  match allocate_ports k fuel services owner_for file with
  | (Ok allocated, file') =>
      exists r', holds file' r' /\
        (forall name svc, bget name services = Some svc ->
           granted (owner_for name) (cleanup_stale k r) r' svc (bget name allocated)) /\
        (forall n1 n2 port, bget n1 allocated = Some (Some port) ->
           bget n2 allocated = Some (Some port) -> owner_for n1 = owner_for n2)
  | (_, file') => file' = file
  end.
Proof.
  intros Hh Hk Hw (Hwf & Hp & Ho). unfold allocate_ports.
  pose proof (with_registry_cases k (allocate_ports_action k fuel services owner_for) file r Hh Hw)
    as Hcases.
  destruct (with_registry _ _ _) as [o file'] eqn:E. simpl in Hcases.
  destruct o as [allocated|msg| |]; try (by destruct Hcases as [|(? & ? & ? & _ & ?)]).
  destruct (decide (k_open k = Ok tt)) as [Hopen|Hopen].
  2:{ unfold with_registry in E. destruct (k_open k) as [[]| | |]; done. }
  unfold with_registry in E. rewrite Hopen, (proj1 Hh) in E. cbn [mbind outcome_bind] in E.
  destruct (allocate_ports_action _ _ _ _ _) as [[al [r' c']]|?| |] eqn:Ha; try done.
  rewrite Hw in E. injection E as -> <-. unfold allocate_ports_action in Ha.
  destruct (allocate_all_Ok k Hk fuel owner_for services [] _ 0 _ _ _
    (bwf_NoDup_keys _ Hwf) Hp Ha) as (Hg & Hother & Hgr).
  exists r'. split_and!.
  - apply holds_json. eapply registry_ok_grants; [done| |exact Hg|by apply registry_ok_cleanup, Hh].
    intros o (n & Hn & ->). by apply Ho.
  - intros name svc Hs%bget_Some_in. by apply Hgr.
  - assert (forall n port, bget n allocated = Some (Some port) -> held r' port (owner_for n))
      as Hheld.
    { intros n port Hn. destruct (bget n services) as [svc|] eqn:Hs.
      - apply bget_Some_in, Hgr in Hs. rewrite Hn in Hs. unfold granted in Hs.
        destruct (sc_port svc) as [[]|]; [done| |]; [by destruct Hs as [[= ->] ?]|].
        by destruct Hs as (? & [= ->] & ? & _).
      - apply bget_None_keys in Hs. by rewrite Hother in Hn. }
    intros n1 n2 port (e1 & He1 & <-)%Hheld (e2 & He2 & <-)%Hheld. congruence.
Qed.

Lemma ephemeral_cases (k : Kernel) owner r fuel c :
  (forall i, returns (k_ephemeral k i)) ->
  match allocate_ephemeral_port k fuel owner (r, c) with
  | Ok (port, (r', _)) =>
      (exists i, k_ephemeral k i = Ok port) /\ bget port r = None /\
      r' = binsert port (mkEntry owner (k_pid k)) r
  | Err e => exists i, k_ephemeral k i = Err e
  | Panic => False
  | OutOfFuel => forall i, c <= i < c + fuel ->
      exists p, k_ephemeral k i = Ok p /\ p ∈ bkeys r
  end.
Proof.
  intros Hret. revert c. induction fuel as [|fuel IH]; intros c; simpl; [lia|].
  pose proof (Hret c) as Hc. destruct (k_ephemeral k c) as [p|e| |] eqn:Ek; simpl; try done.
  2:{ by exists c. }
  destruct (bcontains p r) eqn:Hp.
  - specialize (IH (S c)).
    destruct (allocate_ephemeral_port k fuel owner (r, S c)) as [[q [r' c']]|e| |]; try done.
    intros i Hi. destruct (decide (i = c)) as [->|]; [|apply IH; lia].
    exists p. split; [done|]. by apply bcontains_keys.
  - split_and!; [by exists c| |done]. unfold bcontains in Hp. by destruct (bget p r).
Qed.

(** The search for a free port ends. If the kernel does not offer the same
    port twice in as many binds as the registry has entries, plus one, then that
    many binds are enough: the search fails only when a bind fails, and otherwise
    reserves an offered port that was not reserved. *)
Theorem ephemeral_port_found (k : Kernel) (owner : string) (r : PortReservationRegistry)
    (fuel : nat) :
  length r < fuel ->
  (forall i j p, i < j -> j <= length r -> k_ephemeral k i = Ok p -> k_ephemeral k j <> Ok p) ->
  (forall i, returns (k_ephemeral k i)) ->
  match allocate_ephemeral_port k fuel owner (r, 0) with
  | Ok (port, (r', _)) =>
      (exists i, k_ephemeral k i = Ok port) /\ bget port r = None /\
      r' = binsert port (mkEntry owner (k_pid k)) r
  | Err e => exists i, k_ephemeral k i = Err e
  | _ => False
  end.
Proof.
  intros Hf Hfresh Hret. pose proof (ephemeral_cases k owner r fuel 0 Hret) as Hc.
  destruct (allocate_ephemeral_port k fuel owner (r, 0)) as [[q [r' c']]|e| |]; try done.
  assert (forall n, n <= S (length r) -> exists l, length l = n /\ NoDup l /\ l ⊆ bkeys r /\
    forall p, p ∈ l -> exists i, i < n /\ k_ephemeral k i = Ok p) as Hl.
  { induction n as [|n IHn]; intros Hn.
    { exists []. split_and!; [done|constructor|intros ? ?%elem_of_nil; done|].
      by intros p ?%elem_of_nil. }
    destruct IHn as (l & Hlen & Hnd & Hsub & Hidx); [lia|].
    destruct (Hc n) as (p & Hp & Hin); [lia|]. exists (p :: l). split_and!.
    - simpl. by rewrite Hlen.
    - constructor; [|done]. intros Hpl. destruct (Hidx p Hpl) as (i & Hi & Hpi).
      apply (Hfresh i n p); (done || lia).
    - intros x [->|Hx]%elem_of_cons; auto.
    - intros x [->|Hx]%elem_of_cons; [exists n; split; [lia|done]|].
      destruct (Hidx x Hx) as (i & ? & ?). exists i. split; [lia|done]. }
  destruct (Hl (S (length r))) as (l & Hlen & Hnd & Hsub & _); [done|].
  pose proof (submseteq_length _ _ (NoDup_submseteq l (bkeys r) Hnd Hsub)) as Hle.
  rewrite length_bkeys in Hle. lia.
Qed.
End properties.

(** *** Owners *)

Definition no_colon (s : string) : Prop := ":"%char ∉ to_bytes s.

Lemma valid_name_no_colon v : valid_name v -> no_colon v.
Proof. intros Hv. by eapply valid_name_no_byte. Qed.

Lemma split_colon (a b c d : string) :
  no_colon a -> no_colon c -> a +:+ ":" +:+ b = c +:+ ":" +:+ d -> a = c /\ b = d.
Proof. apply (split_sep ":"). Qed.

(** The owner of a port names one service of one run, the capture proxy of one
    service of one run, or one global: owners of different kinds differ, and
    owners of the same kind are equal only for the same names. *)
Theorem port_owners_distinct (r1 s1 r2 s2 : string) :
  valid_name r1 -> valid_name s1 -> valid_name r2 -> valid_name s2 ->
  (port_owner r1 s1 = port_owner r2 s2 <-> r1 = r2 /\ s1 = s2) /\
  (capture_backend_port_owner r1 s1 = capture_backend_port_owner r2 s2 <-> r1 = r2 /\ s1 = s2) /\
  (global_port_owner r1 s1 = global_port_owner r2 s2 <-> r1 = r2 /\ s1 = s2) /\
  port_owner r1 s1 <> capture_backend_port_owner r2 s2 /\
  port_owner r1 s1 <> global_port_owner r2 s2 /\
  capture_backend_port_owner r1 s1 <> global_port_owner r2 s2.
Proof.
  unfold port_owner, capture_backend_port_owner, global_port_owner.
  intros Hr1%valid_name_no_colon Hs1%valid_name_no_colon Hr2%valid_name_no_colon
    Hs2%valid_name_no_colon.
  split_and!.
  - split; [|by intros [-> ->]]. intros Heq%append_inj_l. by apply split_colon.
  - split; [|by intros [-> ->]]. intros [-> Heq]%append_inj_l%split_colon; [|done..].
    by apply (split_colon s1 "api-capture-backend" s2 "api-capture-backend") in Heq as [-> _].
  - split; [|by intros [-> ->]]. intros Heq%append_inj_l. by apply split_colon.
  - intros [-> Heq]%append_inj_l%split_colon; [|done..]. apply Hs1. rewrite Heq, to_bytes_app.
    apply elem_of_app. right. left.
  - done.
  - done.
Qed.

(** *** Witnesses *)

(** A codec of the registry: the number of its canonical encoding, in binary. *)
Definition entry_tuple (e : PortReservationEntry) : string * Z := (pe_owner e, pe_daemon_pid e).

#[export] Instance entry_eq_dec : EqDecision PortReservationEntry.
Proof. solve_decision. Defined.

#[export] Instance entry_countable : Countable PortReservationEntry.
Proof.
  refine (inj_countable' entry_tuple (fun p => mkEntry p.1 p.2) _). by intros [].
Defined.

Definition sample_json (r : PortReservationRegistry) : string :=
  of_bytes ("{"%char :: digits_of_pos (encode r) ++ ["}"%char]).

Definition sample_parse (s : string) : outcome PortReservationRegistry :=
  match to_bytes s with
  | "{"%char :: rest => ok_or (decode (pos_of_digits rest)) "not a registry"
  | _ => Err "not an object"
  end.

#[local] Program Instance sample_codec : RegistryCodec :=
  {| to_json := sample_json; from_json := sample_parse |}.
Next Obligation.
  intros r _. unfold is_text, sample_json. rewrite to_of_bytes. apply utf8_valid_ascii.
  simpl. rewrite forallb_app. by rewrite digits_ascii.
Qed.
Next Obligation.
  intros r _. unfold sample_json, str_trim. by rewrite to_of_bytes, trim_braces.
Qed.
Next Obligation.
  intros r _. unfold sample_parse, sample_json. rewrite to_of_bytes.
  cbn [app]. by rewrite pos_digits_end, decode_encode.
Qed.

Definition sample_kernel : Kernel :=
  mkKernel 42 (fun pid => if (pid =? 42)%Z then None else Some 3%Z)
    (fun n => Ok (40000 + Z.of_nat n `mod` 1000)%Z) (fun _ _ => Ok tt) (Ok tt) None.

Lemma sample_kernel_ok : kernel_ok sample_kernel.
Proof.
  split; [by vm_compute|]. intros n port [= <-]. unfold in_range, u16_max.
  pose proof (Z.mod_pos_bound (Z.of_nat n) 1000 ltac:(lia)). lia.
Qed.

Definition sample_owner : string := "run:r1:web".
Definition sample_registry : PortReservationRegistry := [(40000%Z, mkEntry sample_owner 42)].

Lemma sample_registry_ok : registry_ok sample_registry.
Proof.
  split; [repeat constructor|]. intros port e. simpl.
  destruct (keqb port 40000%Z) eqn:E; [|done]. apply keqb_true in E as ->. intros [= <-].
  split_and!; by vm_compute.
Qed.

Definition sample_services : bmap string ServiceConfig :=
  bcollect [("web", mkServiceConfig "run" [] None None None None None [] None None [] None [] []
                      false None None None)].

Lemma sample_typed : op_typed (OpAllocate sample_services (port_owner "r2")).
Proof.
  split_and!; [apply bwf_bcollect| |].
  - by intros n svc [[= -> ->]|?%elem_of_nil]%elem_of_cons.
  - by intros n ->%list_elem_of_singleton.
Qed.

Lemma sample_holds : holds (to_json sample_registry) sample_registry.
Proof. apply holds_json, sample_registry_ok. Qed.

Lemma reservation_exclusive_witness :
  let file := run_steps [(sample_kernel, 5, OpAllocate sample_services (port_owner "r2"))]
                (to_json sample_registry) in
  reserve_port sample_kernel 40000%Z "run:r2:web" file
  = (Err (reserved_msg 40000), file).
Proof.
  refine (proj1 (reservation_exclusive
    [(sample_kernel, 5, OpAllocate sample_services (port_owner "r2"))]
    (to_json sample_registry) sample_registry 40000%Z (mkEntry sample_owner 42)
    sample_kernel "run:r2:web" _ _ _ _ _ _)).
  - apply sample_holds.
  - reflexivity.
  - constructor; [|constructor]. split_and!; [apply sample_kernel_ok|reflexivity|reflexivity| |done].
    apply sample_typed.
  - reflexivity.
  - reflexivity.
  - by vm_compute.
Defined.

Lemma allocate_ports_spec_witness :
  (allocate_ports sample_kernel 5 sample_services (port_owner "r2") (to_json sample_registry)).1
  = Ok [("web", Some 40001%Z)] /\
  exists r', holds (to_json r') r' /\ held r' 40001%Z "run:r2:web".
Proof.
  assert (allocate_ports sample_kernel 5 sample_services (port_owner "r2")
            (to_json sample_registry)
          = (Ok [("web", Some 40001%Z)],
             to_json (binsert 40001%Z (mkEntry "run:r2:web" 42) sample_registry))) as E
    by by vm_compute.
  pose proof (allocate_ports_spec sample_kernel 5 sample_services (port_owner "r2")
    (to_json sample_registry) sample_registry sample_holds sample_kernel_ok eq_refl sample_typed)
    as Hspec.
  rewrite E in *. split; [reflexivity|]. destruct Hspec as (r' & Hh & Hg & _). exists r'.
  split; [apply holds_json, Hh|]. specialize (Hg "web" _ eq_refl).
  destruct Hg as (p & [= <-] & Hheld & _). exact Hheld.
Defined.

Lemma ephemeral_port_found_witness :
  exists r', allocate_ephemeral_port sample_kernel 2 "o" (sample_registry, 0)
             = Ok (40001%Z, (r', 2)) /\
             r' = binsert 40001%Z (mkEntry "o" 42) sample_registry.
Proof.
  pose proof (ephemeral_port_found sample_kernel "o" sample_registry 2) as H.
  eexists. split; [vm_compute; reflexivity|].
  apply H; [simpl; lia| |done].
  simpl. intros i j p Hij Hj. assert (i = 0) as -> by lia. assert (j = 1) as -> by lia.
  intros [= <-]. done.
Defined.

Lemma port_owners_distinct_witness :
  port_owner "r1" "web" <> capture_backend_port_owner "r1" "web".
Proof.
  assert (forall v, validate_name_for_path_component "n" v = Ok tt -> valid_name v) as Hv
    by (intros v; apply validate_name_Ok).
  apply (port_owners_distinct "r1" "web" "r1" "web"); apply Hv; by vm_compute.
Defined.
