(* ===== verification/RunModel.v ===== *)
(** * Runs and services in memory

    Models [src/model/] (lifecycle states, service, run and global records, the
    scope of an instance), the handles of [src/app/handles.rs], the events of
    [src/api.rs], and the run store of [src/stores/runs.rs] with the two functions
    every state change goes through: [set_service_state] and
    [recompute_run_state].

    A handle is shared: the record that owns it and the task it controls see the
    same flags ([Arc<AtomicBool>]).  A handle is therefore the number of an entry
    of a table of flags, and stopping it changes the table.  [now] stands for
    [now_rfc3339()] at the call. *)

From S2P Require Import Prelude Bytes BMap Util ConfigModel.
From Stdlib Require Import Lia.
From stdpp Require Import gmap.

(** ** Lifecycle states *)

Inductive ServiceState : Type := Starting | Ready | Degraded | Stopped | Failed.

Inductive RunLifecycle : Type := RunStarting | RunRunning | RunDegraded | RunStopped.

#[export] Instance service_state_eq_dec : EqDecision ServiceState.
Proof. solve_decision. Defined.
#[export] Instance run_lifecycle_eq_dec : EqDecision RunLifecycle.
Proof. solve_decision. Defined.

(** ** Scopes *)

Inductive InstanceScope : Type :=
  | ScopeRun (run_id stack : string)
  | ScopeGlobal (key project_dir name : string).

Definition is_run (s : InstanceScope) : bool :=
  match s with ScopeRun _ _ => true | ScopeGlobal _ _ _ => false end.

Definition is_global (s : InstanceScope) : bool :=
  match s with ScopeRun _ _ => false | ScopeGlobal _ _ _ => true end.

Definition scope_run_id (s : InstanceScope) : option string :=
  match s with ScopeRun run_id _ => Some run_id | ScopeGlobal _ _ _ => None end.

Definition scope_project_dir (s : InstanceScope) : option string :=
  match s with ScopeRun _ _ => None | ScopeGlobal _ project_dir _ => Some project_dir end.

(** ** Shared handles *)

Record HealthSnapshot := mkHealthSnapshot {
  hs_passes : Z;
  hs_failures : Z;
  hs_consecutive_failures : Z;
  hs_last_check_at : option string;
  hs_last_ok : option bool;
}.

Definition HealthSnapshot_default : HealthSnapshot := mkHealthSnapshot 0 0 0 None None.

(** The flags of every handle made so far: handles below [fl_next] exist. *)
Record Flags := mkFlags {
  fl_next : nat;
  fl_stopped : gset nat;
  fl_paused : gmap nat bool;
  fl_stats : gmap nat HealthSnapshot;
}.

Definition Flags_empty : Flags := mkFlags 0 ∅ ∅ ∅.

Definition HealthHandle_new (fl : Flags) : nat * Flags :=
  (fl_next fl,
   mkFlags (S (fl_next fl)) (fl_stopped fl) (fl_paused fl)
     (<[fl_next fl := HealthSnapshot_default]> (fl_stats fl))).

Definition ServiceWatchHandle_new (paused : bool) (fl : Flags) : nat * Flags :=
  (fl_next fl,
   mkFlags (S (fl_next fl)) (fl_stopped fl) (<[fl_next fl := paused]> (fl_paused fl))
     (fl_stats fl)).

Definition ApiCaptureHandle_new (fl : Flags) : nat * Flags :=
  (fl_next fl, mkFlags (S (fl_next fl)) (fl_stopped fl) (fl_paused fl) (fl_stats fl)).

(** [stop_flag.store(true)] *)
Definition stop_handle (h : nat) (fl : Flags) : Flags :=
  mkFlags (fl_next fl) ({[h]} ∪ fl_stopped fl) (fl_paused fl) (fl_stats fl).

(** [paused.store(b)] *)
Definition store_paused (h : nat) (b : bool) (fl : Flags) : Flags :=
  mkFlags (fl_next fl) (fl_stopped fl) (<[h := b]> (fl_paused fl)) (fl_stats fl).

Definition store_stats (h : nat) (s : HealthSnapshot) (fl : Flags) : Flags :=
  mkFlags (fl_next fl) (fl_stopped fl) (fl_paused fl) (<[h := s]> (fl_stats fl)).

Record ServiceHandles := mkServiceHandles {
  sh_health : option nat;
  sh_watch : option nat;
  sh_api_capture : option nat;
}.

Definition ServiceHandles_default : ServiceHandles := mkServiceHandles None None None.

(** ** Services *)

Record ServiceSpec := mkServiceSpec {
  ss_name : string;
  ss_deps : list string;
  ss_readiness : ReadinessSpec;
  ss_auto_restart : bool;
  ss_watch_patterns : list string;
  ss_ignore_patterns : list string;
}.

Record ServiceLaunchPlan := mkServiceLaunchPlan {
  sl_unit_name : string;
  sl_cwd : string;
  sl_env : bmap string string;
  sl_cmd : string;
  sl_log_path : string;
  sl_port : option Z;
  sl_listen_port : option Z;
  sl_scheme : string;
  sl_url : option string;
  sl_capture_api : bool;
  sl_capture_api_body_limit : Z;
  sl_capture_api_ignore : list string;
  sl_watch_hash : string;
  sl_watch_fingerprint : bytes;
  sl_watch_extra_files : list string;
}.

Record ServiceRuntimeState := mkServiceRuntimeState {
  sr_state : ServiceState;
  sr_last_failure : option string;
  sr_last_started_at : option string;
  sr_watch_paused : bool;
}.

Definition ServiceRuntimeState_default : ServiceRuntimeState :=
  mkServiceRuntimeState Starting None None false.

Record ServiceRecord := mkServiceRecord {
  sv_spec : ServiceSpec;
  sv_launch : ServiceLaunchPlan;
  sv_runtime : ServiceRuntimeState;
  sv_handles : ServiceHandles;
}.

Definition ServiceRecord_new (spec : ServiceSpec) (launch : ServiceLaunchPlan) : ServiceRecord :=
  mkServiceRecord spec launch ServiceRuntimeState_default ServiceHandles_default.

(** Assignments to the fields of a record. *)
Definition set_runtime (r : ServiceRecord) (rt : ServiceRuntimeState) : ServiceRecord :=
  mkServiceRecord (sv_spec r) (sv_launch r) rt (sv_handles r).

Definition set_handles (r : ServiceRecord) (h : ServiceHandles) : ServiceRecord :=
  mkServiceRecord (sv_spec r) (sv_launch r) (sv_runtime r) h.

Definition put_state (r : ServiceRecord) (s : ServiceState) : ServiceRecord :=
  let rt := sv_runtime r in
  set_runtime r (mkServiceRuntimeState s (sr_last_failure rt) (sr_last_started_at rt)
                   (sr_watch_paused rt)).

Definition put_last_failure (r : ServiceRecord) (f : option string) : ServiceRecord :=
  let rt := sv_runtime r in
  set_runtime r (mkServiceRuntimeState (sr_state rt) f (sr_last_started_at rt)
                   (sr_watch_paused rt)).

Definition put_last_started_at (r : ServiceRecord) (t : option string) : ServiceRecord :=
  let rt := sv_runtime r in
  set_runtime r (mkServiceRuntimeState (sr_state rt) (sr_last_failure rt) t (sr_watch_paused rt)).

Definition put_watch_paused (r : ServiceRecord) (b : bool) : ServiceRecord :=
  let rt := sv_runtime r in
  set_runtime r (mkServiceRuntimeState (sr_state rt) (sr_last_failure rt)
                   (sr_last_started_at rt) b).

(** [ServiceRecord::set_state] *)
Definition set_state (now : string) (r : ServiceRecord) (s : ServiceState) : ServiceRecord :=
  let r := if bool_decide (s = Ready) then put_last_started_at r (Some now) else r in
  put_state r s.

(** [ServiceRecord::set_failure] *)
Definition set_failure (r : ServiceRecord) (reason : string) : ServiceRecord :=
  put_last_failure (put_state r Failed) (Some reason).

(** The handles are taken out of the record and stopped. *)
Definition stop_opt (h : option nat) (fl : Flags) : Flags :=
  match h with Some h => stop_handle h fl | None => fl end.

Definition stop_health_monitor (r : ServiceRecord) (fl : Flags) : ServiceRecord * Flags :=
  let h := sv_handles r in
  (set_handles r (mkServiceHandles None (sh_watch h) (sh_api_capture h)),
   stop_opt (sh_health h) fl).

Definition stop_watch (r : ServiceRecord) (fl : Flags) : ServiceRecord * Flags :=
  let h := sv_handles r in
  (set_handles r (mkServiceHandles (sh_health h) None (sh_api_capture h)),
   stop_opt (sh_watch h) fl).

Definition stop_api_capture (r : ServiceRecord) (fl : Flags) : ServiceRecord * Flags :=
  let h := sv_handles r in
  (set_handles r (mkServiceHandles (sh_health h) (sh_watch h) None),
   stop_opt (sh_api_capture h) fl).

Definition watch_active (r : ServiceRecord) : bool :=
  ss_auto_restart (sv_spec r)
  && match sh_watch (sv_handles r) with Some _ => true | None => false end
  && negb (sr_watch_paused (sv_runtime r)).

(** ** Runs *)

Record RunRecord := mkRunRecord {
  rr_run_id : string;
  rr_stack : string;
  rr_project_dir : string;
  rr_config_dir : string;
  rr_base_env : bmap string string;
  rr_services : bmap string ServiceRecord;
  rr_state : RunLifecycle;
  rr_created_at : string;
  rr_stopped_at : option string;
}.

Definition RunRecord_new (now run_id stack project_dir config_dir : string)
    (base_env : bmap string string) : RunRecord :=
  mkRunRecord run_id stack project_dir config_dir base_env [] RunStarting now None.

Definition put_services (run : RunRecord) (s : bmap string ServiceRecord) : RunRecord :=
  mkRunRecord (rr_run_id run) (rr_stack run) (rr_project_dir run) (rr_config_dir run)
    (rr_base_env run) s (rr_state run) (rr_created_at run) (rr_stopped_at run).

Definition put_run_state (run : RunRecord) (s : RunLifecycle) : RunRecord :=
  mkRunRecord (rr_run_id run) (rr_stack run) (rr_project_dir run) (rr_config_dir run)
    (rr_base_env run) (rr_services run) s (rr_created_at run) (rr_stopped_at run).

Definition put_stopped_at (run : RunRecord) (t : option string) : RunRecord :=
  mkRunRecord (rr_run_id run) (rr_stack run) (rr_project_dir run) (rr_config_dir run)
    (rr_base_env run) (rr_services run) (rr_state run) (rr_created_at run) t.

Definition put_base_env (run : RunRecord) (env : bmap string string) : RunRecord :=
  mkRunRecord (rr_run_id run) (rr_stack run) (rr_project_dir run) (rr_config_dir run)
    env (rr_services run) (rr_state run) (rr_created_at run) (rr_stopped_at run).

Definition is_stopped (run : RunRecord) : bool := bool_decide (rr_state run = RunStopped).
Definition is_active (run : RunRecord) : bool := negb (is_stopped run).
Definition get_service (run : RunRecord) (name : string) : option ServiceRecord :=
  bget name (rr_services run).
Definition insert_service (run : RunRecord) (name : string) (s : ServiceRecord) : RunRecord :=
  put_services run (binsert name s (rr_services run)).
Definition remove_service (run : RunRecord) (name : string) : RunRecord * option ServiceRecord :=
  (put_services run (bremove name (rr_services run)), bget name (rr_services run)).
Definition mark_stopped (now : string) (run : RunRecord) : RunRecord :=
  put_stopped_at (put_run_state run RunStopped) (Some now).

Record GlobalRecord := mkGlobalRecord {
  gr_key : string;
  gr_name : string;
  gr_project_dir : string;
  gr_config_path : string;
  gr_service_config : ServiceConfig;
  gr_tasks_map : bmap string TaskConfig;
  gr_service : ServiceRecord;
  gr_state : RunLifecycle;
  gr_created_at : string;
  gr_stopped_at : option string;
}.

(** ** Events *)

Inductive DaemonRunEventKind : Type := RunCreated | RunStateChanged | RunRemoved.

Record DaemonRunEvent := mkDaemonRunEvent {
  re_kind : DaemonRunEventKind;
  re_run_id : string;
  re_state : option RunLifecycle;
  re_stack : option string;
  re_project_dir : option string;
}.

Record DaemonServiceEvent := mkDaemonServiceEvent {
  se_run_id : string;
  se_service : string;
  se_state : ServiceState;
}.

Inductive DaemonEvent : Type :=
  | EvRun (e : DaemonRunEvent)
  | EvService (e : DaemonServiceEvent).

Definition service_state_changed_event (run_id service : string) (state : ServiceState)
    : DaemonEvent :=
  EvService (mkDaemonServiceEvent run_id service state).

Definition run_state_changed_event (run : RunRecord) : DaemonEvent :=
  EvRun (mkDaemonRunEvent RunStateChanged (rr_run_id run) (Some (rr_state run)) None None).

Definition run_created_event (run : RunRecord) : DaemonEvent :=
  EvRun (mkDaemonRunEvent RunCreated (rr_run_id run) (Some (rr_state run))
           (Some (rr_stack run)) (Some (rr_project_dir run))).

Definition run_removed_event (run_id : string) : DaemonEvent :=
  EvRun (mkDaemonRunEvent RunRemoved run_id None None None).

(** ** [set_service_state] and [recompute_run_state] *)

Definition set_service_state (now run_id service : string) (record : ServiceRecord)
    (state : ServiceState) : ServiceRecord * option DaemonEvent :=
  if bool_decide (sr_state (sv_runtime record) = state) then (record, None)
  else (set_state now record state, Some (service_state_changed_event run_id service state)).

(** The loop over the services: [all_ready] and [any_degraded]. *)
Definition scan_state (acc : bool * bool) (s : ServiceState) : bool * bool :=
  let '(all_ready, any_degraded) := acc in
  match s with
  | Ready => (all_ready, any_degraded)
  | Starting => (false, any_degraded)
  | Degraded | Failed => (false, true)
  | Stopped => (false, any_degraded)
  end.

Definition service_states (run : RunRecord) : list ServiceState :=
  map (fun s => sr_state (sv_runtime s)) (bvalues (rr_services run)).

Definition recompute_run_state (run : RunRecord) : RunRecord * option DaemonEvent :=
  if bool_decide (rr_state run = RunStopped) then (run, None) else
  let previous := rr_state run in
  let '(all_ready, any_degraded) := foldl scan_state (true, false) (service_states run) in
  let run := put_run_state run
    (if any_degraded then RunDegraded else if all_ready then RunRunning else RunStarting) in
  (run, if bool_decide (rr_state run <> previous) then Some (run_state_changed_event run)
        else None).

(** ** The run store *)

Definition RunMap := bmap string RunRecord.

Definition create_run (run : RunRecord) (runs : RunMap) : outcome RunMap :=
  let run_id := rr_run_id run in
  if bcontains run_id runs then Err ("run " +:+ run_id +:+ " already exists")
  else Ok (binsert run_id run runs).

Definition get_run (run_id : string) (runs : RunMap) : option RunRecord := bget run_id runs.
Definition list_runs (runs : RunMap) : list RunRecord := bvalues runs.
Definition remove_run (run_id : string) (runs : RunMap) : option RunRecord * RunMap :=
  (bget run_id runs, bremove run_id runs).
Definition contains_run (run_id : string) (runs : RunMap) : bool := bcontains run_id runs.

(** [with_run_mut]: the closure runs on the record in place, under the lock. *)
Definition with_run_mut {R} (run_id : string) (f : RunRecord -> RunRecord * R) (runs : RunMap)
    : outcome R * RunMap :=
  match bget run_id runs with
  | Some run => let '(run, r) := f run in (Ok r, binsert run_id run runs)
  | None => (Err ("run " +:+ run_id +:+ " not found"), runs)
  end.

Definition with_run {R} (run_id : string) (f : RunRecord -> R) (runs : RunMap) : outcome R :=
  match bget run_id runs with
  | Some run => Ok (f run)
  | None => Err ("run " +:+ run_id +:+ " not found")
  end.

(** ** The stores of the other daemon state *)

(** [src/stores/globals.rs]: the handles of the record that is replaced stop. *)
Definition stop_all_handles (r : ServiceRecord) (fl : Flags) : ServiceRecord * Flags :=
  let '(r, fl) := stop_health_monitor r fl in
  let '(r, fl) := stop_watch r fl in
  stop_api_capture r fl.

Definition upsert_global (record : GlobalRecord) (globals : bmap string GlobalRecord) (fl : Flags)
    : bmap string GlobalRecord * Flags :=
  let key := gr_key record in
  let fl := match bget key globals with
            | Some previous => (stop_all_handles (gr_service previous) fl).2
            | None => fl
            end in
  (binsert key record (bremove key globals), fl).

(** ** A prepared service, [src/app/launch/prepare.rs] *)

Record PreparedService := mkPreparedService {
  ps_name : string;
  ps_unit_name : string;
  ps_port : option Z;
  ps_listen_port : option Z;
  ps_scheme : string;
  ps_url : option string;
  ps_capture_api : bool;
  ps_capture_api_body_limit : Z;
  ps_capture_api_ignore : list string;
  ps_deps : list string;
  ps_readiness : ReadinessSpec;
  ps_log_path : string;
  ps_cwd : string;
  ps_env : bmap string string;
  ps_cmd : string;
  ps_watch_hash : string;
  ps_watch_patterns : list string;
  ps_ignore_patterns : list string;
  ps_watch_extra_files : list string;
  ps_watch_fingerprint : bytes;
  ps_auto_restart : bool;
}.

Definition prepared_spec (p : PreparedService) : ServiceSpec :=
  mkServiceSpec (ps_name p) (ps_deps p) (ps_readiness p) (ps_auto_restart p)
    (ps_watch_patterns p) (ps_ignore_patterns p).

Definition prepared_launch (p : PreparedService) : ServiceLaunchPlan :=
  mkServiceLaunchPlan (ps_unit_name p) (ps_cwd p) (ps_env p) (ps_cmd p) (ps_log_path p)
    (ps_port p) (ps_listen_port p) (ps_scheme p) (ps_url p) (ps_capture_api p)
    (ps_capture_api_body_limit p) (ps_capture_api_ignore p) (ps_watch_hash p)
    (ps_watch_fingerprint p) (ps_watch_extra_files p).

Definition into_service_record (p : PreparedService) (state : ServiceState)
    (last_failure last_started_at : option string) : ServiceRecord :=
  let record := ServiceRecord_new (prepared_spec p) (prepared_launch p) in
  put_last_started_at (put_last_failure (put_state record state) last_failure) last_started_at.

(** ** Lemmas and properties *)

Definition failing (s : ServiceState) : Prop := s = Degraded \/ s = Failed.

Lemma scan_states l a b :
  foldl scan_state (a, b) l =
  (a && forallb (fun s => bool_decide (s = Ready)) l,
   b || existsb (fun s => bool_decide (s = Degraded) || bool_decide (s = Failed)) l).
Proof.
  revert a b. induction l as [|s l IH]; intros a b; simpl; [by rewrite andb_true_r, orb_false_r|].
  destruct s; simpl; rewrite IH; simpl; rewrite ?andb_false_r, ?orb_true_r; done.
Qed.

Lemma all_ready_spec l :
  forallb (fun s => bool_decide (s = Ready)) l = true <-> forall s, s ∈ l -> s = Ready.
Proof.
  rewrite forallb_forall. split; intros H s Hs.
  - by eapply bool_decide_eq_true, H, list_elem_of_In.
  - by apply bool_decide_eq_true, H, list_elem_of_In.
Qed.

Lemma any_degraded_spec l :
  existsb (fun s => bool_decide (s = Degraded) || bool_decide (s = Failed)) l = true <->
  exists s, s ∈ l /\ failing s.
Proof.
  rewrite existsb_exists. unfold failing. split; intros (s & Hs & Hf); exists s.
  - rewrite orb_true_iff, !bool_decide_eq_true in Hf. by rewrite list_elem_of_In.
  - rewrite orb_true_iff, !bool_decide_eq_true. by rewrite <- list_elem_of_In.
Qed.

(** The state a run has when it agrees with its services. *)
Definition summary (run : RunRecord) : RunLifecycle :=
  let '(all_ready, any_degraded) := foldl scan_state (true, false) (service_states run) in
  if any_degraded then RunDegraded else if all_ready then RunRunning else RunStarting.

Lemma recompute_unfold run :
  rr_state run <> RunStopped ->
  recompute_run_state run =
  (put_run_state run (summary run),
   if bool_decide (summary run <> rr_state run)
   then Some (run_state_changed_event (put_run_state run (summary run))) else None).
Proof.
  intros Hs. unfold recompute_run_state, summary. rewrite bool_decide_eq_false_2 by done.
  by destruct (foldl scan_state (true, false) (service_states run)).
Qed.

Lemma recompute_stopped run :
  rr_state run = RunStopped -> recompute_run_state run = (run, None).
Proof. intros Hs. unfold recompute_run_state. by rewrite bool_decide_eq_true_2. Qed.

Lemma put_run_state_same run : put_run_state run (rr_state run) = run.
Proof. by destruct run. Qed.

Lemma recompute_services run : rr_services (recompute_run_state run).1 = rr_services run.
Proof.
  destruct (decide (rr_state run = RunStopped)).
  - by rewrite recompute_stopped.
  - by rewrite recompute_unfold.
Qed.

(** [recompute_run_state] gives a run that is not stopped the state its services
    have together: degraded when one is degraded or failed, running when all are
    ready, starting otherwise. It never stops a run nor revives a stopped one,
    it reports an event exactly when the state changes, and doing it again
    changes and reports nothing. *)
Theorem recompute_run_state_spec (run : RunRecord) :
  let '(run', event) := recompute_run_state run in
  (rr_state run = RunStopped -> run' = run /\ event = None) /\
  (rr_state run <> RunStopped ->
     run' = put_run_state run (rr_state run') /\
     (rr_state run' = RunDegraded <-> exists s, s ∈ service_states run /\ failing s) /\
     (rr_state run' = RunRunning <-> forall s, s ∈ service_states run -> s = Ready) /\
     rr_state run' <> RunStopped /\
     event = if bool_decide (rr_state run' = rr_state run) then None
             else Some (run_state_changed_event run')) /\
  recompute_run_state run' = (run', None).
Proof.
  destruct (decide (rr_state run = RunStopped)) as [Hs|Hs].
  { rewrite recompute_stopped by done. split_and!; [done|done|by apply recompute_stopped]. }
  rewrite recompute_unfold by done. set (s := summary run). split; [done|].
  assert (s <> RunStopped) as Hns.
  { unfold s, summary. by destruct (foldl _ _ _) as [[] []]. }
  split.
  - intros _. cbn [rr_state put_run_state]. split_and!; [done| | |done|].
    + rewrite <- any_degraded_spec. unfold s, summary. rewrite scan_states. simpl.
      match goal with |- context [if ?b then RunDegraded else if ?a then _ else _] =>
        by destruct b, a end.
    + rewrite <- all_ready_spec. unfold s, summary. rewrite scan_states. simpl.
      match goal with |- context [if ?b then RunDegraded else if ?a then _ else _] =>
        destruct b eqn:Ee, a eqn:Ef end; try done.
      apply any_degraded_spec in Ee as (x & Hx & Hf).
      rewrite all_ready_spec in Ef. specialize (Ef x Hx). by destruct Hf; subst.
    + repeat case_bool_decide; done.
  - rewrite recompute_unfold by done.
    assert (summary (put_run_state run s) = s) as -> by done.
    cbn [rr_state put_run_state]. by rewrite bool_decide_eq_false_2 by auto.
Qed.
