(* ===== verification/Lifecycle.v ===== *)
(** * The lifecycle of runs and services

    Models the sections of code that change a run under the lock of the run
    store, and their interleaving: [src/app/launch/readiness.rs] (readiness
    results and the health monitor), [src/app/launch/watch.rs] (watchers, API
    capture, [apply_prepared_to_runtime]), [src/app/commands/restart.rs],
    [watch.rs], [reconcile.rs] and [gc.rs], the parts of
    [src/app/commands/runs.rs] that change run records, and
    [src/app/queries/status.rs].

    Each closure passed to [with_run_mut] runs alone, so it is one [Action] of
    the state machine; tasks interleave between their closures in any order, so
    an execution is any list of actions. *)

From S2P Require Import Prelude Bytes BMap Util ConfigModel RunModel.
From Stdlib Require Import Lia.
From stdpp Require Import gmap.

(** ** The state of the daemon *)

Record Daemon := mkDaemon {
  dm_runs : RunMap;
  dm_flags : Flags;
}.

(** A closure on a run that also stores to the shared flags of handles. *)
Definition update_run {R} (run_id : string) (f : RunRecord -> Flags -> RunRecord * Flags * R)
    (d : Daemon) : outcome R * Daemon :=
  match with_run_mut run_id (fun run =>
          let '(run, fl, r) := f run (dm_flags d) in (run, (fl, r))) (dm_runs d) with
  | (Ok (fl, r), runs) => (Ok r, mkDaemon runs fl)
  | (Err e, _) => (Err e, d)
  | (Panic, _) => (Panic, d)
  | (OutOfFuel, _) => (OutOfFuel, d)
  end.

(** [run.services.get_mut(service)]: the record is changed in place; [None] when
    the service is missing. *)
Definition update_service {R} (service : string)
    (f : ServiceRecord -> Flags -> ServiceRecord * Flags * R) (run : RunRecord) (fl : Flags)
    : RunRecord * Flags * option R :=
  match bget service (rr_services run) with
  | Some record =>
      let '(record, fl, r) := f record fl in
      (put_services run (binsert service record (rr_services run)), fl, Some r)
  | None => (run, fl, None)
  end.

(** Most closures end by recomputing the state of the run. *)
Definition finish (run : RunRecord) (fl : Flags) (events : list DaemonEvent)
    : RunRecord * Flags * list DaemonEvent :=
  let '(run, e) := recompute_run_state run in (run, fl, events ++ option_list e).

(** ** Readiness results *)

Definition mark_service_ready (now run_id service : string) (d : Daemon)
    : outcome (bool * list DaemonEvent) * Daemon :=
  update_run run_id (fun run fl =>
    let '(run, fl, r) :=
      update_service service (fun record fl =>
        let '(record, e) := set_service_state now run_id service record Ready in
        let record := put_last_failure record None in
        match sh_health (sv_handles record), rs_kind (ss_readiness (sv_spec record)) with
        | None, Exit => (record, fl, (false, option_list e))
        | None, _ =>
            let '(h, fl) := HealthHandle_new fl in
            let hs := sv_handles record in
            (set_handles record (mkServiceHandles (Some h) (sh_watch hs) (sh_api_capture hs)),
             fl, (true, option_list e))
        | Some _, _ => (record, fl, (false, option_list e))
        end) run fl in
    let '(start_monitor, events) := default (false, []) r in
    let '(run, fl, events) := finish run fl events in
    (run, fl, (start_monitor, events))) d.

Definition mark_service_failed (now run_id service reason : string) (d : Daemon)
    : outcome (list DaemonEvent) * Daemon :=
  update_run run_id (fun run fl =>
    let '(run, fl, r) :=
      update_service service (fun record fl =>
        let '(record, e) := set_service_state now run_id service record Failed in
        (put_last_failure record (Some reason), fl, option_list e)) run fl in
    finish run fl (default [] r)) d.

(** ** The health monitor *)

Definition health_failing : string := "health checks failing".

Definition recover_to_ready (now run_id service : string) (d : Daemon)
    : outcome (list DaemonEvent) * Daemon :=
  update_run run_id (fun run fl =>
    let '(run, fl, r) :=
      update_service service (fun record fl =>
        if bool_decide (sr_state (sv_runtime record) = Degraded)
           && bool_decide (sr_last_failure (sv_runtime record) = Some health_failing)
        then
          let '(record, e) := set_service_state now run_id service record Ready in
          (put_last_failure record None, fl, option_list e)
        else (record, fl, [])) run fl in
    finish run fl (default [] r)) d.

Definition mark_degraded (now run_id service : string) (d : Daemon)
    : outcome (list DaemonEvent) * Daemon :=
  update_run run_id (fun run fl =>
    let '(run, fl, r) :=
      update_service service (fun record fl =>
        if bool_decide (sr_state (sv_runtime record) = Ready)
        then
          let '(record, e) := set_service_state now run_id service record Degraded in
          (put_last_failure record (Some health_failing), fl, option_list e)
        else (record, fl, [])) run fl in
    finish run fl (default [] r)) d.

Definition restart_limit (now run_id service : string) (d : Daemon)
    : outcome (list DaemonEvent) * Daemon :=
  mark_service_failed now run_id service "health restart limit exceeded" d.

(** The local state of a monitor task, and what one check makes it do. *)
Record Monitor := mkMonitor { mo_restart_count : Z; mo_consecutive_failures : Z }.

Inductive Transition : Type := Healthy | RecoverToReady | MarkDegraded.

Definition saturating_incr (n : Z) : Z := Z.min (n + 1) u32_max.

(** The counters after a check, and the transition. *)
Definition monitor_check (m : Monitor) (ok : bool) : Monitor * Transition :=
  let m := if ok then mkMonitor 0 0
           else mkMonitor (mo_restart_count m) (saturating_incr (mo_consecutive_failures m)) in
  (m, if ok && (mo_consecutive_failures m =? 0)%Z then RecoverToReady
      else if (3 <=? mo_consecutive_failures m)%Z then MarkDegraded
      else Healthy).

Definition record_check (checked_at : string) (m : Monitor) (ok : bool) (s : HealthSnapshot)
    : HealthSnapshot :=
  mkHealthSnapshot (if ok then hs_passes s + 1 else hs_passes s)
    (if ok then hs_failures s else hs_failures s + 1)
    (mo_consecutive_failures m) (Some checked_at) (Some ok).

Definition should_restart (m : Monitor) (t : Transition) (events : list DaemonEvent) : bool :=
  match t with
  | MarkDegraded => negb (bool_decide (events = [])) && (mo_restart_count m <? 3)%Z
  | _ => false
  end.

(** The pause before a restart, in seconds. *)
Definition backoff (restart_count : Z) : Z :=
  if (restart_count =? 1)%Z then 0 else if (restart_count =? 2)%Z then 5 else 30.

(** One turn of the loop: the check, the transition with the events of its
    section, and the restart with its pause; [true] when the loop breaks. *)
Definition monitor_turn (m : Monitor) (ok : bool) (events : list DaemonEvent)
    : Monitor * option Z * bool :=
  let '(m, t) := monitor_check m ok in
  if should_restart m t events then
    let m := mkMonitor (mo_restart_count m + 1) (mo_consecutive_failures m) in
    (m, Some (backoff (mo_restart_count m)), (3 <=? mo_restart_count m)%Z)
  else (m, None, false).

(** The turns of a monitor that nobody stops: the pauses before its restarts, and
    whether it ended by itself. *)
Fixpoint monitor_loop (m : Monitor) (checks : list (bool * list DaemonEvent)) : list Z * bool :=
  match checks with
  | [] => ([], false)
  | (ok, events) :: checks =>
      let '(m, restart, stop) := monitor_turn m ok events in
      if stop then (option_list restart, true)
      else let '(restarts, ended) := monitor_loop m checks in
           (option_list restart ++ restarts, ended)
  end.

(** ** Restarting a service *)

Record RestartSnapshot := mkRestartSnapshot {
  rsn_launch : ServiceLaunchPlan;
  rsn_readiness : ReadinessSpec;
  rsn_stack : string;
  rsn_project_dir : string;
}.

(** The first section of [restart_service_inner]: [None] when the service is not
    part of the run. *)
Definition restart_begin (now run_id service : string) (d : Daemon)
    : outcome (option RestartSnapshot * list DaemonEvent) * Daemon :=
  update_run run_id (fun run fl =>
    let '(run, fl, r) :=
      update_service service (fun record fl =>
        let '(record, e) := set_service_state now run_id service record Starting in
        let record := put_last_failure record None in
        (record, fl,
         (mkRestartSnapshot (sv_launch record) (ss_readiness (sv_spec record)) (rr_stack run)
            (rr_project_dir run), option_list e))) run fl in
    match r with
    | Some (snapshot, events) =>
        let '(run, fl, events) := finish run fl events in (run, fl, (Some snapshot, events))
    | None => (run, fl, (None, []))
    end) d.

(** After [restart_unit]. *)
Definition restart_started (now run_id service : string) (d : Daemon) : outcome unit * Daemon :=
  update_run run_id (fun run fl =>
    let '(run, fl, _) :=
      update_service service (fun record fl =>
        (put_last_started_at record (Some now), fl, tt)) run fl in
    (run, fl, tt)) d.

(** ** Pausing and resuming watchers *)

Definition store_watch_paused (b : bool) (record : ServiceRecord) (fl : Flags)
    : ServiceRecord * Flags :=
  let record := put_watch_paused record b in
  (record, match sh_watch (sv_handles record) with
           | Some h => store_paused h b fl
           | None => fl
           end).

(** A loop over [run.services.values_mut()]. *)
Fixpoint update_all (f : ServiceRecord -> Flags -> ServiceRecord * Flags)
    (services : bmap string ServiceRecord) (fl : Flags) : bmap string ServiceRecord * Flags :=
  match services with
  | [] => ([], fl)
  | (name, record) :: services =>
      let '(record, fl) := f record fl in
      let '(services, fl) := update_all f services fl in
      ((name, record) :: services, fl)
  end.

(** [pause_watch] and the first section of [resume_watch]: the services they act
    on; an error when the named service is missing or has no watcher. *)
Definition set_watch_paused (b : bool) (run_id : string) (service : option string) (d : Daemon)
    : outcome (outcome (list string)) * Daemon :=
  update_run run_id (fun run fl =>
    match service with
    | Some service =>
        match bget service (rr_services run) with
        | None => (run, fl, Err ("service " +:+ service +:+ " not found"))
        | Some record =>
            if negb (ss_auto_restart (sv_spec record))
            then (run, fl, Err ("service " +:+ service +:+ " does not have auto_restart enabled"))
            else
              let '(record, fl) := store_watch_paused b record fl in
              (put_services run (binsert service record (rr_services run)), fl, Ok [service])
        end
    | None =>
        let targets := (filter (fun e => ss_auto_restart (sv_spec e.2) = true)
                          (rr_services run)).*1 in
        let '(services, fl) :=
          update_all (fun record fl =>
            if ss_auto_restart (sv_spec record) then store_watch_paused b record fl
            else (record, fl)) (rr_services run) fl in
        (put_services run services, fl, Ok targets)
    end) d.

Definition pause_watch := set_watch_paused true.
Definition resume_watch := set_watch_paused false.

(** ** Watchers and API capture *)

(** The section of a watcher task after a change: whether to restart, [None] when
    the service is gone. [h] is the handle of the task. *)
Definition watcher_fire (run_id service next_hash : string) (h : nat) (d : Daemon)
    : outcome (option bool) * Daemon :=
  update_run run_id (fun run fl =>
    update_service service (fun record fl =>
      let fl := store_paused h (sr_watch_paused (sv_runtime record)) fl in
      if negb (ss_auto_restart (sv_spec record)) || sr_watch_paused (sv_runtime record)
         || bool_decide (sl_watch_hash (sv_launch record) = next_hash)
      then (record, fl, false)
      else
        let l := sv_launch record in
        (mkServiceRecord (sv_spec record)
           (mkServiceLaunchPlan (sl_unit_name l) (sl_cwd l) (sl_env l) (sl_cmd l) (sl_log_path l)
              (sl_port l) (sl_listen_port l) (sl_scheme l) (sl_url l) (sl_capture_api l)
              (sl_capture_api_body_limit l) (sl_capture_api_ignore l) next_hash
              (sl_watch_fingerprint l) (sl_watch_extra_files l))
           (sv_runtime record) (sv_handles record), fl, true)) run fl) d.

(** The first section of [sync_service_auto_restart_watcher]: the pause flag of the
    watcher to start, if one must start. *)
Definition sync_watcher_begin (run_id service : string) (d : Daemon)
    : outcome (option (option bool)) * Daemon :=
  update_run run_id (fun run fl =>
    update_service service (fun record fl =>
      if negb (ss_auto_restart (sv_spec record))
         || bool_decide (sr_last_started_at (sv_runtime record) = None)
      then let '(record, fl) := stop_watch record fl in (record, fl, None)
      else match sh_watch (sv_handles record) with
           | Some h => (record, store_paused h (sr_watch_paused (sv_runtime record)) fl, None)
           | None => (record, fl, Some (sr_watch_paused (sv_runtime record)))
           end) run fl) d.

(** The second section, with the handle of the watcher that was started: it is
    kept, or stopped when the service no longer wants it. *)
Definition sync_watcher_commit (run_id service : string) (paused : bool) (d : Daemon)
    : outcome unit * Daemon :=
  let '(h, fl) := ServiceWatchHandle_new paused (dm_flags d) in
  let '(keep, d) :=
    update_run run_id (fun run fl =>
      let '(run, fl, r) :=
        update_service service (fun record fl =>
          if ss_auto_restart (sv_spec record)
             && negb (bool_decide (sr_last_started_at (sv_runtime record) = None))
             && bool_decide (sh_watch (sv_handles record) = None)
          then
            let hs := sv_handles record in
            (set_handles record (mkServiceHandles (sh_health hs) (Some h) (sh_api_capture hs)),
             store_paused h (sr_watch_paused (sv_runtime record)) fl, true)
          else (record, fl, false)) run fl in
      (run, fl, default false r)) (mkDaemon (dm_runs d) fl) in
  let keep_handle := default false (ok keep) in
  (Ok tt, if keep_handle then d else mkDaemon (dm_runs d) (stop_handle h (dm_flags d))).

(** The first section of [sync_service_api_capture_proxy]: the ports of the proxy to
    start, if one must start. *)
Definition sync_capture_begin (run_id service : string) (d : Daemon)
    : outcome (option (option (Z * Z))) * Daemon :=
  update_run run_id (fun run fl =>
    update_service service (fun record fl =>
      if negb (sl_capture_api (sv_launch record))
         || bool_decide (sr_state (sv_runtime record) = Stopped)
         || bool_decide (sr_last_started_at (sv_runtime record) = None)
      then let '(record, fl) := stop_api_capture record fl in (record, fl, None)
      else match sh_api_capture (sv_handles record), sl_port (sv_launch record),
                 sl_listen_port (sv_launch record) with
           | Some _, _, _ => (record, fl, None)
           | None, Some public_port, Some target_port =>
               (record, fl, Some (public_port, target_port))
           | None, _, _ => (record, fl, None)
           end) run fl) d.

(** The second section, with the handle of the proxy that was started. *)
Definition sync_capture_commit (run_id service : string) (d : Daemon) : outcome unit * Daemon :=
  let '(h, fl) := ApiCaptureHandle_new (dm_flags d) in
  let '(kept, d) :=
    update_run run_id (fun run fl =>
      let '(run, fl, r) :=
        update_service service (fun record fl =>
          if sl_capture_api (sv_launch record)
             && bool_decide (sh_api_capture (sv_handles record) = None)
          then
            let hs := sv_handles record in
            (set_handles record (mkServiceHandles (sh_health hs) (sh_watch hs) (Some h)), fl, true)
          else (record, fl, false)) run fl in
      (run, fl, default false r)) (mkDaemon (dm_runs d) fl) in
  match kept with
  | Ok true => (Ok tt, d)
  | Ok false => (Ok tt, mkDaemon (dm_runs d) (stop_handle h (dm_flags d)))
  | Err e => (Err e, d)
  | Panic => (Panic, d)
  | OutOfFuel => (OutOfFuel, d)
  end.

(** ** Launching *)

(** [apply_prepared_to_runtime] *)
Definition apply_prepared_to_runtime (service : ServiceRecord) (prepared : PreparedService)
    (reset_state : bool) (fl : Flags) : ServiceRecord * Flags :=
  let '(service, fl) :=
    if reset_state then
      let '(service, fl) := stop_health_monitor service fl in
      let '(service, fl) := stop_watch service fl in
      (put_last_failure (put_state service Starting) None, fl)
    else (service, fl) in
  let service := mkServiceRecord (prepared_spec prepared) (sv_launch service)
                   (sv_runtime service) (sv_handles service) in
  let l := sv_launch service in
  let capture_config_changed :=
    negb (Bool.eqb (sl_capture_api l) (ps_capture_api prepared))
    || negb (bool_decide (sl_capture_api_body_limit l = ps_capture_api_body_limit prepared))
    || negb (bool_decide (sl_capture_api_ignore l = ps_capture_api_ignore prepared))
    || negb (bool_decide (sl_port l = ps_port prepared))
    || negb (bool_decide (sl_listen_port l = ps_listen_port prepared)) in
  let service := mkServiceRecord (sv_spec service) (prepared_launch prepared)
                   (sv_runtime service) (sv_handles service) in
  let service :=
    if negb (Bool.eqb (ss_auto_restart (sv_spec service)) (ps_auto_restart prepared))
    then put_watch_paused service false else service in
  if capture_config_changed then stop_api_capture service fl else (service, fl).

Definition sync_unchanged_service (run_id service : string) (prepared : PreparedService)
    (d : Daemon) : outcome unit * Daemon :=
  update_run run_id (fun run fl =>
    let '(run, fl, _) :=
      update_service service (fun record fl =>
        let '(record, fl) := apply_prepared_to_runtime record prepared false fl in
        (record, fl, tt)) run fl in
    (run, fl, tt)) d.

Definition replace_service_record (run : RunRecord) (service : string) (record : ServiceRecord)
    (fl : Flags) : RunRecord * Flags * option ServiceState :=
  let '(run, previous) := remove_service run service in
  let previous_state := (fun r => sr_state (sv_runtime r)) <$> previous in
  let fl := match previous with
            | Some previous => (stop_all_handles previous fl).2
            | None => fl
            end in
  (insert_service run service record, fl, previous_state).

Definition record_failed_init_service (run_id service : string) (prepared : PreparedService)
    (error : string) (d : Daemon) : outcome (list DaemonEvent) * Daemon :=
  let record := into_service_record prepared Failed
                  (Some ("init task failed: " +:+ error)) None in
  update_run run_id (fun run fl =>
    let '(run, fl, _) := replace_service_record run service record fl in
    (run, fl, [service_state_changed_event run_id service Failed])) d.

Definition store_service_launch_result (now run_id service : string)
    (prepared : PreparedService) (start_result : option string) (d : Daemon)
    : outcome (list DaemonEvent) * Daemon :=
  let initial_state := match start_result with None => Starting | Some _ => Failed end in
  let last_started_at := match start_result with None => Some now | Some _ => None end in
  let record := into_service_record prepared initial_state start_result last_started_at in
  update_run run_id (fun run fl =>
    let '(run, fl, previous_state) := replace_service_record run service record fl in
    (run, fl,
     if bool_decide (previous_state = Some initial_state) then []
     else [service_state_changed_event run_id service initial_state])) d.

Definition finalize_run_launch (run_id : string) (d : Daemon)
    : outcome (list DaemonEvent) * Daemon :=
  update_run run_id (fun run fl => finish run fl []) d.

Definition create_run_record (now run_id stack project_dir config_dir : string)
    (base_env : bmap string string) (d : Daemon) : outcome (list DaemonEvent) * Daemon :=
  let run := RunRecord_new now run_id stack project_dir config_dir base_env in
  match create_run run (dm_runs d) with
  | Ok runs => (Ok [run_created_event run], mkDaemon runs (dm_flags d))
  | Err e => (Err e, d)
  | Panic => (Panic, d)
  | OutOfFuel => (OutOfFuel, d)
  end.

(** One step of the loop of [remove_services_missing_from_stack]. *)
Definition remove_one (acc : RunRecord * Flags) (service : string) : RunRecord * Flags :=
  let '(run, fl) := acc in
  let '(run, removed) := remove_service run service in
  (run, match removed with Some r => (stop_all_handles r fl).2 | None => fl end).

Definition remove_services_missing_from_stack (run_id : string) (removed : list string)
    (d : Daemon) : outcome (list DaemonEvent) * Daemon :=
  update_run run_id (fun run fl =>
    let '(run, fl) := foldl remove_one (run, fl) removed in finish run fl []) d.

Definition update_run_launch_resources (run_id : string) (base_env : bmap string string)
    (d : Daemon) : outcome (list DaemonEvent) * Daemon :=
  update_run run_id (fun run fl =>
    let run := put_base_env run base_env in
    if bool_decide (rr_state run = RunStopped) then
      let run := put_stopped_at (put_run_state run RunStarting) None in
      (run, fl, [run_state_changed_event run])
    else (run, fl, [])) d.

(** ** Stopping *)

Definition stop_service_handles (run_id : string) (d : Daemon) : outcome unit * Daemon :=
  update_run run_id (fun run fl =>
    let '(services, fl) := update_all stop_all_handles (rr_services run) fl in
    (put_services run services, fl, tt)) d.

(** The loop over the services in [down] and [kill]. *)
Fixpoint stop_services (now run_id : string) (services : bmap string ServiceRecord)
    : bmap string ServiceRecord * list DaemonEvent :=
  match services with
  | [] => ([], [])
  | (name, record) :: services =>
      let '(record, e) := set_service_state now run_id name record Stopped in
      let '(services, events) := stop_services now run_id services in
      ((name, record) :: services, option_list e ++ events)
  end.

(** The section of [down], and the one of [kill], that marks the run stopped. *)
Definition down_commit (now run_id : string) (d : Daemon) : outcome (list DaemonEvent) * Daemon :=
  update_run run_id (fun run fl =>
    let run := put_stopped_at (put_run_state run RunStopped) (Some now) in
    let '(services, events) := stop_services now run_id (rr_services run) in
    let run := put_services run services in
    (run, fl, events ++ [run_state_changed_event run])) d.

(** The end of [down] with [purge]. *)
Definition purge_run (run_id : string) (d : Daemon) : list DaemonEvent * Daemon :=
  let '(removed, runs) := remove_run run_id (dm_runs d) in
  (match removed with Some _ => [run_removed_event run_id] | None => [] end,
   mkDaemon runs (dm_flags d)).

(** The section of [run_gc]: [after_threshold t] says whether the time [t] parses,
    and if so whether it is after the threshold. *)
Definition gc_keeps (after_threshold : string -> option bool) (run : RunRecord) : bool :=
  if negb (bool_decide (rr_state run = RunStopped)) then true else
  match rr_stopped_at run with
  | Some t => default true (after_threshold t)
  | None => false
  end.

Definition run_gc (after_threshold : string -> option bool) (d : Daemon)
    : list string * list DaemonEvent * Daemon :=
  let removed := (filter (fun e => gc_keeps after_threshold e.2 = false) (dm_runs d)).*1 in
  (removed, map run_removed_event removed,
   mkDaemon (foldl (fun runs run_id => bremove run_id runs) (dm_runs d) removed) (dm_flags d)).

(** ** Status and reconciliation *)

Record SystemdStatus := mkSystemdStatus {
  sd_active_state : string;
  sd_sub_state : string;
  sd_result : option string;
}.

Definition unit_broken (s : SystemdStatus) : bool :=
  bool_decide (sd_active_state s = "failed")
  || bool_decide (sd_result s = Some "start-limit-hit")
  || (negb (bool_decide (sd_active_state s = "active"))
      && match sd_result s with Some r => negb (bool_decide (r = "success")) | None => false end).

(** The state and the failure that the status shows for a service. *)
Definition derive_status (run_state : RunLifecycle) (status : option SystemdStatus)
    (rt : ServiceRuntimeState) : ServiceState * option string :=
  match status with
  | Some systemd =>
      if negb (bool_decide (run_state = RunStopped)) && unit_broken systemd then
        (match sr_state rt with
         | Starting => Failed
         | Ready => Degraded
         | Failed => Failed
         | Stopped => Stopped
         | Degraded => Degraded
         end,
         if bool_decide (sr_last_failure rt = None)
            && negb (bool_decide (sd_result systemd = Some "success"))
         then sd_result systemd else sr_last_failure rt)
      else (sr_state rt, sr_last_failure rt)
  | None => (sr_state rt, sr_last_failure rt)
  end.

Record ServiceStatus := mkServiceStatus {
  su_desired : string;
  su_systemd : option SystemdStatus;
  su_ready : bool;
  su_state : ServiceState;
  su_last_failure : option string;
  su_health : option HealthSnapshot;
  su_uptime_seconds : option Z;
  su_recent_errors : list (option string * string);
  su_url : option string;
  su_auto_restart : bool;
  su_watch_paused : bool;
  su_watch_active : bool;
}.

Record RunStatus := mkRunStatus {
  ru_run_id : string;
  ru_stack : string;
  ru_project_dir : string;
  ru_state : RunLifecycle;
  ru_services : bmap string ServiceStatus;
}.

(** [build_status]: [unit_status] is the answer of systemd for a unit,
    [uptime_seconds_since] reads the clock and [recent_stderr_lines] the log. *)
Section status.
Context (unit_status : string -> option SystemdStatus).
Context (uptime_seconds_since : option string -> option Z).
Context (recent_stderr_lines : string -> list (option string * string)).

Definition service_status (fl : Flags) (run : RunRecord) (service : ServiceRecord)
    : ServiceStatus :=
  let status := unit_status (sl_unit_name (sv_launch service)) in
  let '(derived_state, derived_failure) :=
    derive_status (rr_state run) status (sv_runtime service) in
  mkServiceStatus
    (if bool_decide (rr_state run = RunStopped) then "stopped" else "running")
    status (bool_decide (derived_state = Ready)) derived_state derived_failure
    ((fun h => default HealthSnapshot_default (fl_stats fl !! h)) <$> sh_health (sv_handles service))
    (uptime_seconds_since (sr_last_started_at (sv_runtime service)))
    (recent_stderr_lines (sl_log_path (sv_launch service)))
    (sl_url (sv_launch service)) (ss_auto_restart (sv_spec service))
    (sr_watch_paused (sv_runtime service)) (watch_active service).

Definition build_status (fl : Flags) (run : RunRecord) : RunStatus :=
  let services := bmap_values (fun _ => service_status fl run) (rr_services run) in
  let '(all_ready, any_degraded) :=
    foldl scan_state (true, false) (map su_state (bvalues services)) in
  mkRunStatus (rr_run_id run) (rr_stack run) (rr_project_dir run)
    (if any_degraded then RunDegraded else if all_ready then RunRunning else rr_state run)
    services.
End status.

(** One service of the loop of [reconcile_run]. *)
Definition reconcile_one (run_id : string) (acc : RunRecord * bool * list DaemonEvent)
    (entry : string * ServiceStatus) : RunRecord * bool * list DaemonEvent :=
  let '(run, changed, events) := acc in
  let '(name, service_status) := entry in
  let state := su_state service_status in
  let failure := su_last_failure service_status in
  match bget name (rr_services run) with
  | None => (run, changed, events)
  | Some service =>
      let '(service, changed, events) :=
        if bool_decide (sr_state (sv_runtime service) <> state)
        then (put_state service state, true,
              events ++ [service_state_changed_event run_id name state])
        else (service, changed, events) in
      let '(service, changed) :=
        if bool_decide (sr_last_failure (sv_runtime service) <> failure)
        then (put_last_failure service failure, true) else (service, changed) in
      (put_services run (binsert name service (rr_services run)), changed, events)
  end.

(** The section of [reconcile_run], with the status computed before it. *)
Definition reconcile_commit (run_id : string) (status : RunStatus) (d : Daemon)
    : outcome (bool * list DaemonEvent) * Daemon :=
  update_run run_id (fun run fl =>
    let previous_run_state := rr_state run in
    let '(run, changed, events) :=
      foldl (reconcile_one run_id) (run, false, []) (ru_services status) in
    let run := put_run_state run (ru_state status) in
    if bool_decide (rr_state run <> previous_run_state)
       && negb (bool_decide (rr_state run = RunStopped))
    then (run, fl, (true, events ++ [run_state_changed_event run]))
    else (run, fl, (changed, events))) d.

(** ** Executions *)

(** Every section, with what it reads from outside: the time, the answer of
    systemd, the outcome of a start, the status computed some time before. *)
Inductive Action : Type :=
  | ActCreateRun (now run_id stack project_dir config_dir : string) (env : bmap string string)
  | ActMarkReady (now run_id service : string)
  | ActMarkFailed (now run_id service reason : string)
  | ActRecoverToReady (now run_id service : string)
  | ActMarkDegraded (now run_id service : string)
  | ActRestartLimit (now run_id service : string)
  | ActRestartBegin (now run_id service : string)
  | ActRestartStarted (now run_id service : string)
  | ActPauseWatch (run_id : string) (service : option string)
  | ActResumeWatch (run_id : string) (service : option string)
  | ActWatcherFire (run_id service next_hash : string) (h : nat)
  | ActSyncWatcherBegin (run_id service : string)
  | ActSyncWatcherCommit (run_id service : string) (paused : bool)
  | ActSyncCaptureBegin (run_id service : string)
  | ActSyncCaptureCommit (run_id service : string)
  | ActSyncUnchanged (run_id service : string) (prepared : PreparedService)
  | ActFailedInit (run_id service : string) (prepared : PreparedService) (error : string)
  | ActLaunchResult (now run_id service : string) (prepared : PreparedService)
      (start_result : option string)
  | ActFinalize (run_id : string)
  | ActRemoveMissing (run_id : string) (removed : list string)
  | ActUpdateResources (run_id : string) (env : bmap string string)
  | ActStopHandles (run_id : string)
  | ActDown (now run_id : string)
  | ActPurge (run_id : string)
  | ActGc (after_threshold : string -> option bool)
  | ActReconcile (run_id : string) (status : RunStatus).

Definition events_of {R} (events : R -> list DaemonEvent) (r : outcome R * Daemon)
    : Daemon * list DaemonEvent :=
  (r.2, match r.1 with Ok x => events x | _ => [] end).

Definition silent {R} (r : outcome R * Daemon) : Daemon * list DaemonEvent := (r.2, []).

(** The daemon after an action, and the events it emits. *)
Definition perform (a : Action) (d : Daemon) : Daemon * list DaemonEvent :=
  match a with
  | ActCreateRun now run_id stack project_dir config_dir env =>
      events_of id (create_run_record now run_id stack project_dir config_dir env d)
  | ActMarkReady now run_id service => events_of snd (mark_service_ready now run_id service d)
  | ActMarkFailed now run_id service reason =>
      events_of id (mark_service_failed now run_id service reason d)
  | ActRecoverToReady now run_id service => events_of id (recover_to_ready now run_id service d)
  | ActMarkDegraded now run_id service => events_of id (mark_degraded now run_id service d)
  | ActRestartLimit now run_id service => events_of id (restart_limit now run_id service d)
  | ActRestartBegin now run_id service => events_of snd (restart_begin now run_id service d)
  | ActRestartStarted now run_id service => silent (restart_started now run_id service d)
  | ActPauseWatch run_id service => silent (pause_watch run_id service d)
  | ActResumeWatch run_id service => silent (resume_watch run_id service d)
  | ActWatcherFire run_id service next_hash h =>
      silent (watcher_fire run_id service next_hash h d)
  | ActSyncWatcherBegin run_id service => silent (sync_watcher_begin run_id service d)
  | ActSyncWatcherCommit run_id service paused =>
      silent (sync_watcher_commit run_id service paused d)
  | ActSyncCaptureBegin run_id service => silent (sync_capture_begin run_id service d)
  | ActSyncCaptureCommit run_id service => silent (sync_capture_commit run_id service d)
  | ActSyncUnchanged run_id service prepared =>
      silent (sync_unchanged_service run_id service prepared d)
  | ActFailedInit run_id service prepared error =>
      events_of id (record_failed_init_service run_id service prepared error d)
  | ActLaunchResult now run_id service prepared start_result =>
      events_of id (store_service_launch_result now run_id service prepared start_result d)
  | ActFinalize run_id => events_of id (finalize_run_launch run_id d)
  | ActRemoveMissing run_id removed =>
      events_of id (remove_services_missing_from_stack run_id removed d)
  | ActUpdateResources run_id env => events_of id (update_run_launch_resources run_id env d)
  | ActStopHandles run_id => silent (stop_service_handles run_id d)
  | ActDown now run_id => events_of id (down_commit now run_id d)
  | ActPurge run_id => let '(events, d) := purge_run run_id d in (d, events)
  | ActGc after_threshold =>
      let '(_, events, d) := run_gc after_threshold d in (d, events)
  | ActReconcile run_id status => events_of snd (reconcile_commit run_id status d)
  end.

(** Any interleaving of the tasks of the daemon is a list of actions. *)
Definition execute (d : Daemon) (actions : list Action) : Daemon * list DaemonEvent :=
  foldl (fun acc a =>
    let '(d, events) := perform a acc.1 in (d, acc.2 ++ events)) (d, []) actions.

Definition initial : Daemon := mkDaemon [] Flags_empty.
