(* ===== verification/LifecycleInv.v ===== *)
(** * Invariants of every interleaving

    What holds of the daemon of [Lifecycle] after any sequence of actions: the
    handles of the records are exactly the live handles, a ready service has no
    failure, and the events tell an observer the state of every service. *)

From S2P Require Import Prelude Bytes BMap Util ConfigModel RunModel Lifecycle.
From Stdlib Require Import Lia.
From stdpp Require Import gmap.

(** ** Ownership of handles *)

Definition handles_of (r : ServiceRecord) : list nat :=
  option_list (sh_health (sv_handles r)) ++ option_list (sh_watch (sv_handles r))
  ++ option_list (sh_api_capture (sv_handles r)).

(** The handles [L] are all the live ones, each once. *)
Definition owns (L : list nat) (fl : Flags) : Prop :=
  NoDup L /\ (forall h, h ∈ L <-> h < fl_next fl /\ h ∉ fl_stopped fl) /\
  forall h, h ∈ fl_stopped fl -> h < fl_next fl.

#[export] Instance owns_perm : Proper ((≡ₚ) ==> eq ==> iff) owns.
Proof.
  intros L1 L2 HL fl ? <-. unfold owns. rewrite HL. by setoid_rewrite HL.
Qed.

(** What a piece of code does to the handles it owns, whatever else is owned:
    from owning [L] under [fl] to owning [L'] under [fl']. *)
Definition transfer (fl : Flags) (L : list nat) (fl' : Flags) (L' : list nat) : Prop :=
  forall rest, owns (L ++ rest) fl -> owns (L' ++ rest) fl'.

#[export] Instance transfer_perm : Proper (eq ==> (≡ₚ) ==> eq ==> (≡ₚ) ==> iff) transfer.
Proof.
  intros fl ? <- L1 L2 HL fl' ? <- L1' L2' HL'. unfold transfer.
  by setoid_rewrite HL; setoid_rewrite HL'.
Qed.

Lemma transfer_refl fl L : transfer fl L fl L.
Proof. by intros rest. Qed.

Lemma transfer_trans fl1 L1 fl2 L2 fl3 L3 :
  transfer fl1 L1 fl2 L2 -> transfer fl2 L2 fl3 L3 -> transfer fl1 L1 fl3 L3.
Proof. intros H1 H2 rest Ho. by apply H2, H1. Qed.

Lemma transfer_frame F fl L fl' L' :
  transfer fl L fl' L' -> transfer fl (L ++ F) fl' (L' ++ F).
Proof. intros H rest. rewrite <- !app_assoc. apply H. Qed.

Lemma transfer_frame_l F fl L fl' L' :
  transfer fl L fl' L' -> transfer fl (F ++ L) fl' (F ++ L').
Proof. rewrite !(Permutation_app_comm F). apply transfer_frame. Qed.

Lemma transfer_stop fl h : transfer fl (option_list h) (stop_opt h fl) [].
Proof.
  destruct h as [h|]; [|apply transfer_refl]. intros rest (Hnd & Hin & Hlt). simpl in *.
  pose proof (NoDup_cons_1_1 _ _ Hnd) as Hh. apply NoDup_cons_1_2 in Hnd.
  assert (h < fl_next fl) as Hn by (apply Hin; left). split_and!; [done| |].
  - intros x. unfold stop_handle. simpl. rewrite not_elem_of_union, not_elem_of_singleton.
    specialize (Hin x). rewrite elem_of_cons in Hin. split; [|naive_solver].
    intros Hx. split_and!; [by apply Hin; right|congruence|by apply Hin; right].
  - simpl. intros x [->%elem_of_singleton|Hx]%elem_of_union; auto.
Qed.

(** A fresh handle is owned by whoever made it. *)
Lemma transfer_new fl fl' :
  fl_next fl' = S (fl_next fl) -> fl_stopped fl' = fl_stopped fl ->
  transfer fl [] fl' [fl_next fl].
Proof.
  intros Hn Hs rest (Hnd & Hin & Hlt). unfold owns. simpl in *. rewrite Hs, Hn. split_and!.
  - constructor; [|done]. rewrite Hin. lia.
  - intros h. rewrite elem_of_cons, Hin. split.
    + intros [->|[? ?]]; (split; [lia|]); [|done]. intros Hx%Hlt. lia.
    + intros [? ?]. destruct (decide (h = fl_next fl)); [by left|right]. split; [lia|done].
  - intros h Hh%Hlt. lia.
Qed.

(** Flags that only differ in what they tell a live task. *)
Lemma transfer_same fl fl' L :
  fl_next fl' = fl_next fl -> fl_stopped fl' = fl_stopped fl -> transfer fl L fl' L.
Proof. intros Hn Hs rest (? & ? & ?). unfold owns. by rewrite Hn, Hs. Qed.

Lemma stop_health_transfer r fl :
  transfer fl (handles_of r) (stop_health_monitor r fl).2 (handles_of (stop_health_monitor r fl).1).
Proof.
  unfold handles_of. simpl. apply (transfer_frame (_ ++ _) _ _ _ []), transfer_stop.
Qed.

Lemma stop_watch_transfer r fl :
  transfer fl (handles_of r) (stop_watch r fl).2 (handles_of (stop_watch r fl).1).
Proof.
  unfold handles_of. simpl. apply transfer_frame_l.
  apply (transfer_frame (option_list _) _ _ _ []), transfer_stop.
Qed.

Lemma stop_capture_transfer r fl :
  transfer fl (handles_of r) (stop_api_capture r fl).2 (handles_of (stop_api_capture r fl).1).
Proof.
  unfold handles_of. simpl. rewrite !app_assoc. apply transfer_frame_l, transfer_stop.
Qed.

Lemma stop_all_transfer r fl : transfer fl (handles_of r) (stop_all_handles r fl).2 [].
Proof.
  set (a := stop_health_monitor r fl). set (b := stop_watch a.1 a.2).
  apply (transfer_trans _ _ a.2 (handles_of a.1)); [apply stop_health_transfer|].
  apply (transfer_trans _ _ b.2 (handles_of b.1)); [apply stop_watch_transfer|].
  exact (stop_capture_transfer b.1 b.2).
Qed.

(** *** Maps of records *)

Section maps.
Context `{StrictOrd K} {V : Type} (f : V -> list nat).

Definition held_by (m : bmap K V) : list nat := flat_map (fun e => f e.2) m.

Lemma held_insert k v m : bwf m -> held_by (binsert k v m) ≡ₚ f v ++ held_by (bremove k m).
Proof. intros Hm. unfold held_by. by rewrite (Permutation_flat_map _ (binsert_perm k v m Hm)). Qed.

Lemma held_get k v m : bwf m -> bget k m = Some v -> held_by m ≡ₚ f v ++ held_by (bremove k m).
Proof.
  intros Hm Hk. unfold held_by. by rewrite (Permutation_flat_map _ (bget_perm k v m Hm Hk)) at 1.
Qed.

Lemma transfer_update fl fl' k v v' m :
  bwf m -> bget k m = Some v -> transfer fl (f v) fl' (f v') ->
  transfer fl (held_by m) fl' (held_by (binsert k v' m)).
Proof.
  intros Hm Hk Ht. rewrite held_insert, (held_get k v m) by done. by apply transfer_frame.
Qed.

Lemma transfer_remove fl fl' k v m :
  bwf m -> bget k m = Some v -> transfer fl (f v) fl' [] ->
  transfer fl (held_by m) fl' (held_by (bremove k m)).
Proof.
  intros Hm Hk Ht. rewrite (held_get k v m) by done. by apply (transfer_frame _ _ _ _ []).
Qed.

Lemma transfer_add fl fl' k v m :
  bwf m -> bget k m = None -> transfer fl [] fl' (f v) ->
  transfer fl (held_by m) fl' (held_by (binsert k v m)).
Proof.
  intros Hm Hk Ht. rewrite held_insert, bremove_absent by done.
  by apply (transfer_frame _ _ []).
Qed.
End maps.

Definition held_run (run : RunRecord) : list nat := held_by handles_of (rr_services run).
Definition held (runs : RunMap) : list nat := held_by held_run runs.

(** ** What an observer of the events sees *)

Definition View : Type := string -> string -> option ServiceState.

Definition observe (v : View) (e : DaemonEvent) : View :=
  match e with
  | EvService e => fun r s =>
      if bool_decide (r = se_run_id e) && bool_decide (s = se_service e)
      then Some (se_state e) else v r s
  | EvRun e =>
      match re_kind e with
      | RunStateChanged => v
      | RunCreated | RunRemoved => fun r s => if bool_decide (r = re_run_id e) then None else v r s
      end
  end.

Definition sees_run (v : View) (run_id : string) (run : RunRecord) : Prop :=
  forall s r, bget s (rr_services run) = Some r -> v run_id s = Some (sr_state (sv_runtime r)).

(** An event about the services of one run. *)
Definition local_event (run_id : string) (e : DaemonEvent) : Prop :=
  match e with
  | EvService e => se_run_id e = run_id
  | EvRun e => re_kind e = RunStateChanged
  end.

Lemma observe_other v run_id events r s :
  Forall (local_event run_id) events -> r <> run_id -> foldl observe v events r s = v r s.
Proof.
  intros Hall Hne. revert v. induction Hall as [|e events He _ IH]; intros v; simpl; [done|].
  rewrite IH. destruct e as [e|e]; simpl in *; [by rewrite He|].
  subst. by rewrite bool_decide_eq_false_2.
Qed.

(** ** What a section of code does to one service, and to one run *)

(** A ready service has no failure. *)
Definition clean (r : ServiceRecord) : Prop :=
  sr_state (sv_runtime r) = Ready -> sr_last_failure (sv_runtime r) = None.

Definition run_clean (run : RunRecord) : Prop :=
  forall s r, bget s (rr_services run) = Some r -> clean r.

Definition record_ok {R} (run_id service : string) (ev : R -> list DaemonEvent)
    (g : ServiceRecord -> Flags -> ServiceRecord * Flags * R) : Prop :=
  forall r fl, let '(r', fl', x) := g r fl in
  (clean r -> clean r') /\
  transfer fl (handles_of r) fl' (handles_of r') /\
  (sr_state (sv_runtime r') = sr_state (sv_runtime r) /\ ev x = [] \/
   ev x = [service_state_changed_event run_id service (sr_state (sv_runtime r'))]).

Record run_step (run_id : string) (run : RunRecord) (fl : Flags)
    (run' : RunRecord) (fl' : Flags) (events : list DaemonEvent) : Prop := {
  st_wf : bwf (rr_services run');
  st_clean : run_clean run -> run_clean run';
  st_transfer : transfer fl (held_run run) fl' (held_run run');
  st_local : Forall (local_event run_id) events;
  st_sees : forall v, sees_run v run_id run -> sees_run (foldl observe v events) run_id run';
}.

Definition run_ok {R} (run_id : string) (ev : R -> list DaemonEvent)
    (f : RunRecord -> Flags -> RunRecord * Flags * R) : Prop :=
  forall run fl, bwf (rr_services run) ->
    let '(run', fl', x) := f run fl in run_step run_id run fl run' fl' (ev x).

Lemma run_step_refl run_id run fl fl' :
  bwf (rr_services run) -> transfer fl (held_run run) fl' (held_run run) ->
  run_step run_id run fl run fl' [].
Proof. by constructor. Qed.

Lemma update_service_ok {R} run_id service (ev : R -> list DaemonEvent) g run fl :
  record_ok run_id service ev g -> bwf (rr_services run) ->
  let '(run', fl', x) := update_service service g run fl in
  run_step run_id run fl run' fl' (default [] (ev <$> x)).
Proof.
  intros Hg Hwf. unfold update_service. destruct (bget service (rr_services run)) as [r|] eqn:Hr.
  2:{ apply run_step_refl; [done|apply transfer_refl]. }
  specialize (Hg r fl). destruct (g r fl) as [[r' fl'] x]. destruct Hg as (Hc & Ht & Hev).
  simpl. constructor; simpl.
  - by apply bwf_binsert.
  - intros Hrun s q. simpl. rewrite bget_binsert. destruct (keqb service s); [|apply Hrun].
    intros [= <-]. by eapply Hc, Hrun.
  - by eapply transfer_update.
  - destruct Hev as [[_ ->]| ->]; [constructor|]. by repeat constructor.
  - intros v Hv s q. simpl. rewrite bget_binsert. destruct (keqb service s) eqn:E.
    + apply keqb_true in E as <-. intros [= <-]. destruct Hev as [[Hs ->]| ->]; simpl.
      * rewrite Hs. by apply Hv.
      * by rewrite !bool_decide_eq_true_2.
    + apply keqb_false in E. intros Hq. destruct Hev as [[_ ->]| ->]; simpl; [by apply Hv|].
      rewrite (bool_decide_eq_false_2 (s = service)) by done. rewrite andb_false_r. by apply Hv.
Qed.

Lemma finish_ok run_id run0 fl0 run fl events :
  run_step run_id run0 fl0 run fl events ->
  let '(run', fl', events') := finish run fl events in
  run_step run_id run0 fl0 run' fl' events'.
Proof.
  unfold finish. destruct (recompute_run_state run) as [run' e] eqn:E.
  assert (rr_services run' = rr_services run) as Hs.
  { pose proof (recompute_services run) as H. by rewrite E in H. }
  assert (forall x, e = Some x -> exists r, x = run_state_changed_event r) as He.
  { intros x ->. destruct (decide (rr_state run = RunStopped)).
    - by rewrite recompute_stopped in E.
    - rewrite recompute_unfold in E by done. injection E as _ E. case_bool_decide; [|done].
      injection E as <-. by eexists. }
  intros [Hwf Hc Ht Hl Hv]. constructor.
  - by rewrite Hs.
  - intros H s r. rewrite Hs. by apply Hc.
  - unfold held_run. by rewrite Hs.
  - apply Forall_app. split; [done|]. destruct e as [x|]; [|constructor].
    destruct (He x eq_refl) as [r ->]. by repeat constructor.
  - intros v H s r. rewrite Hs, foldl_app. destruct e as [x|]; [|by apply Hv].
    destruct (He x eq_refl) as [q ->]. by apply Hv.
Qed.

(** ** What a section does to the daemon *)

Definition runs_wf (d : Daemon) : Prop :=
  bwf (dm_runs d) /\ forall r run, bget r (dm_runs d) = Some run -> bwf (rr_services run).

Definition all_clean (d : Daemon) : Prop :=
  forall r run, bget r (dm_runs d) = Some run -> run_clean run.

Definition sees (v : View) (d : Daemon) : Prop :=
  forall r run, bget r (dm_runs d) = Some run -> sees_run v r run.

Definition owns_all (d : Daemon) : Prop := owns (held (dm_runs d)) (dm_flags d).

Record step_ok (d d' : Daemon) (events : list DaemonEvent) : Prop := {
  so_wf : runs_wf d';
  so_clean : all_clean d -> all_clean d';
  so_transfer : transfer (dm_flags d) (held (dm_runs d)) (dm_flags d') (held (dm_runs d'));
  so_sees : forall v, sees v d -> sees (foldl observe v events) d';
}.

Lemma step_ok_refl d : runs_wf d -> step_ok d d [].
Proof. intros Hd. by constructor; [|..|apply transfer_refl|]. Qed.

Lemma step_owns d d' events : step_ok d d' events -> owns_all d -> owns_all d'.
Proof.
  intros Hs Ho. unfold owns_all. rewrite <- (app_nil_r (held _)).
  apply (so_transfer _ _ _ Hs). by rewrite app_nil_r.
Qed.

Lemma update_run_ok {R} run_id (ev : R -> list DaemonEvent) f d :
  run_ok run_id ev f -> runs_wf d ->
  let '(r, d') := update_run run_id f d in
  step_ok d d' (match r with Ok x => ev x | _ => [] end).
Proof.
  intros Hf Hd. unfold update_run, with_run_mut.
  destruct (bget run_id (dm_runs d)) as [run|] eqn:Hr; [|by apply step_ok_refl].
  specialize (Hf run (dm_flags d) (proj2 Hd _ _ Hr)).
  destruct (f run (dm_flags d)) as [[run' fl'] x]. destruct Hf as [Hwf Hc Ht Hl Hv].
  destruct Hd as [Hw Hws]. constructor; simpl.
  - split; [by apply bwf_binsert|]. intros r q. simpl. rewrite bget_binsert.
    destruct (keqb run_id r); [by intros [= <-]|by apply Hws].
  - intros Hall r q. simpl. rewrite bget_binsert.
    destruct (keqb run_id r); [|by apply Hall]. intros [= <-]. by eapply Hc, Hall.
  - by apply (transfer_update held_run _ _ _ run).
  - intros v Hs r q. simpl. rewrite bget_binsert. destruct (keqb run_id r) eqn:E.
    + apply keqb_true in E as <-. intros [= <-]. by apply Hv, Hs.
    + apply keqb_false in E. intros Hq s rec Hrec.
      rewrite (observe_other _ run_id) by done. by eapply Hs.
Qed.

Definition section_ok (d : Daemon) (p : Daemon * list DaemonEvent) : Prop :=
  let '(d', events) := p in step_ok d d' events.

(** Sections whose events are their result. *)
Lemma events_of_ok {R} run_id (ev : R -> list DaemonEvent) f d :
  run_ok run_id ev f -> runs_wf d ->
  section_ok d (events_of ev (update_run run_id f d)).
Proof.
  intros Hf Hd. pose proof (update_run_ok run_id ev f d Hf Hd) as H. unfold section_ok, events_of.
  by destruct (update_run run_id f d) as [[] d'].
Qed.

Lemma silent_ok {R} run_id f (d : Daemon) :
  run_ok run_id (fun _ : R => []) f -> runs_wf d ->
  section_ok d (silent (update_run run_id f d)).
Proof.
  intros Hf Hd. pose proof (update_run_ok run_id (fun _ => []) f d Hf Hd) as H. unfold section_ok, silent.
  by destruct (update_run run_id f d) as [[] d'].
Qed.

(** A section that changes one service, recomputes the run, and returns the
    events. *)
Lemma service_then_finish run_id service g :
  record_ok run_id service id g ->
  run_ok run_id id (fun run fl =>
    let '(run, fl, r) := update_service service g run fl in finish run fl (default [] r)).
Proof.
  intros Hg run fl Hwf. pose proof (update_service_ok run_id service id g run fl Hg Hwf) as H.
  destruct (update_service service g run fl) as [[run1 fl1] r].
  rewrite option_fmap_id in H. by apply finish_ok in H.
Qed.

(** *** The records *)

Lemma set_service_state_ok now run_id service r s :
  let '(r', e) := set_service_state now run_id service r s in
  sr_state (sv_runtime r') = s /\ sv_handles r' = sv_handles r /\
  sr_last_failure (sv_runtime r') = sr_last_failure (sv_runtime r) /\
  (s = sr_state (sv_runtime r) /\ option_list e = [] \/
   option_list e = [service_state_changed_event run_id service s]).
Proof.
  unfold set_service_state. case_bool_decide as H; [split_and!; auto|].
  unfold set_state. case_bool_decide; simpl; auto.
Qed.

(** Setting a state and the failure. *)
Lemma set_and_fail_ok now run_id service s f :
  (s = Ready -> f = None) ->
  record_ok run_id service id (fun record fl =>
    let '(record, e) := set_service_state now run_id service record s in
    (put_last_failure record f, fl, option_list e)).
Proof.
  intros Hs r fl. pose proof (set_service_state_ok now run_id service r s) as H.
  destruct (set_service_state now run_id service r s) as [r' e].
  destruct H as (Hst & Hh & Hf & He). split_and!.
  - intros _. unfold clean. simpl. by rewrite Hst.
  - unfold handles_of. simpl. rewrite Hh. apply transfer_refl.
  - simpl. rewrite Hst. destruct He as [[-> ->]|He]; [by left|by right].
Qed.

Lemma guarded_ok run_id service (b : ServiceRecord -> bool) g :
  record_ok run_id service id g ->
  record_ok run_id service id (fun record fl => if b record then g record fl else (record, fl, [])).
Proof.
  intros Hg r fl. specialize (Hg r fl). destruct (b r); [done|].
  split_and!; [done|apply transfer_refl|by left].
Qed.

Lemma mark_service_failed_ok now run_id service reason d :
  runs_wf d ->
  section_ok d (events_of id (mark_service_failed now run_id service reason d)).
Proof. by apply events_of_ok, service_then_finish, set_and_fail_ok. Qed.

Lemma recover_to_ready_ok now run_id service d :
  runs_wf d ->
  section_ok d (events_of id (recover_to_ready now run_id service d)).
Proof.
  by apply events_of_ok, service_then_finish,
    (guarded_ok _ _ (fun record => bool_decide (sr_state (sv_runtime record) = Degraded)
       && bool_decide (sr_last_failure (sv_runtime record) = Some health_failing))),
    set_and_fail_ok.
Qed.

Lemma mark_degraded_ok now run_id service d :
  runs_wf d ->
  section_ok d (events_of id (mark_degraded now run_id service d)).
Proof.
  by apply events_of_ok, service_then_finish,
    (guarded_ok _ _ (fun record => bool_decide (sr_state (sv_runtime record) = Ready))),
    set_and_fail_ok.
Qed.

Lemma mark_service_ready_ok now run_id service d :
  runs_wf d ->
  section_ok d (events_of snd (mark_service_ready now run_id service d)).
Proof.
  apply events_of_ok. intros run fl Hwf.
  assert (record_ok run_id service snd (fun record fl =>
        let '(record, e) := set_service_state now run_id service record Ready in
        let record := put_last_failure record None in
        match sh_health (sv_handles record), rs_kind (ss_readiness (sv_spec record)) with
        | None, Exit => (record, fl, (false, option_list e))
        | None, _ =>
            let '(h, fl) := HealthHandle_new fl in
            let hs := sv_handles record in
            (set_handles record (mkServiceHandles (Some h) (sh_watch hs) (sh_api_capture hs)),
             fl, (true, option_list e))
        | Some _, _ => (record, fl, (false, option_list e))
        end)) as Hg.
  { clear. intros r fl. pose proof (set_and_fail_ok now run_id service Ready None ltac:(done) r fl)
      as H.
    cbn beta in H. destruct (set_service_state now run_id service r Ready) as [r' e].
    cbn beta iota zeta in H. destruct H as (Hc & Ht & He). simpl.
    destruct (sh_health (sv_handles r')) as [h|] eqn:Eh;
      [|destruct (rs_kind (ss_readiness (sv_spec r')))]; try (by split_and!);
      (split_and!; [done| |done]);
      (eapply transfer_trans; [exact Ht|]); unfold handles_of; simpl; rewrite Eh; simpl;
      apply (transfer_frame _ _ [] _ [_]); by apply transfer_new. }
  pose proof (update_service_ok run_id service snd _ run fl Hg Hwf) as H.
  destruct (update_service service _ run fl) as [[run1 fl1] r].
  assert (default [] (snd <$> r) = (default (false, []) r).2) as Heq by by destruct r.
  rewrite Heq in H. destruct (default (false, []) r) as [start events].
  apply finish_ok in H. by destruct (finish run1 fl1 _) as [[run2 fl2] events2].
Qed.

Lemma restart_begin_ok now run_id service d :
  runs_wf d ->
  section_ok d (events_of snd (restart_begin now run_id service d)).
Proof.
  apply events_of_ok. intros run fl Hwf.
  assert (record_ok run_id service snd (fun record fl =>
        let '(record, e) := set_service_state now run_id service record Starting in
        let record := put_last_failure record None in
        (record, fl,
         (mkRestartSnapshot (sv_launch record) (ss_readiness (sv_spec record)) (rr_stack run)
            (rr_project_dir run), option_list e)))) as Hg.
  { intros r fl0.
    pose proof (set_and_fail_ok now run_id service Starting None ltac:(done) r fl0) as H.
    cbn beta in H. by destruct (set_service_state now run_id service r Starting) as [r' e]. }
  pose proof (update_service_ok run_id service snd _ run fl Hg Hwf) as H.
  destruct (update_service service _ run fl) as [[run1 fl1] [[snapshot events]|]]; [|done].
  apply finish_ok in H. by destruct (finish run1 fl1 _) as [[run2 fl2] events2].
Qed.

(** Sections that change neither the state nor the failure, and report nothing. *)
Definition quiet (g : ServiceRecord -> Flags -> ServiceRecord * Flags) : Prop :=
  forall r fl, let '(r', fl') := g r fl in
  sr_state (sv_runtime r') = sr_state (sv_runtime r) /\
  sr_last_failure (sv_runtime r') = sr_last_failure (sv_runtime r) /\
  transfer fl (handles_of r) fl' (handles_of r').

Lemma quiet_record_ok {R} run_id service (g : ServiceRecord -> Flags -> ServiceRecord * Flags * R) :
  quiet (fun r fl => (g r fl).1) -> record_ok run_id service (fun _ => []) g.
Proof.
  intros Hg r fl. specialize (Hg r fl). cbn beta in Hg.
  destruct (g r fl) as [[r' fl'] x]. simpl in Hg.
  destruct Hg as (Hs & Hf & Ht). split_and!; [|done|by left].
  unfold clean. by rewrite Hs, Hf.
Qed.

Lemma quiet_update {R} run_id service (g : ServiceRecord -> Flags -> ServiceRecord * Flags * R) :
  quiet (fun r fl => (g r fl).1) -> run_ok run_id (fun _ => []) (update_service service g).
Proof.
  intros Hg run fl Hwf.
  pose proof (update_service_ok run_id service (fun _ => []) g run fl
    (quiet_record_ok run_id service g Hg) Hwf) as H.
  destruct (update_service service g run fl) as [[run1 fl1] []]; exact H.
Qed.

(** What is returned does not matter. *)
Lemma run_ok_map {R S} run_id (f : RunRecord -> Flags -> RunRecord * Flags * R) (k : R -> S) :
  run_ok run_id (fun _ => []) f ->
  run_ok run_id (fun _ => []) (fun run fl => let '(run, fl, r) := f run fl in (run, fl, k r)).
Proof.
  intros Hf run fl Hwf. specialize (Hf run fl Hwf). by destruct (f run fl) as [[run1 fl1] r].
Qed.

Lemma restart_started_ok now run_id service d :
  runs_wf d ->
  section_ok d (silent (restart_started now run_id service d)).
Proof.
  apply silent_ok, (run_ok_map run_id _ (fun _ => tt)), quiet_update.
  intros r fl. split_and!; [done|done|apply transfer_refl].
Qed.

Lemma watcher_fire_ok run_id service next_hash h d :
  runs_wf d ->
  section_ok d (silent (watcher_fire run_id service next_hash h d)).
Proof.
  apply silent_ok, quiet_update. intros r fl. simpl.
  match goal with |- context [if ?b then _ else _] => destruct b end;
    (split_and!; [done|done|by apply transfer_same]).
Qed.

Lemma sync_watcher_begin_ok run_id service d :
  runs_wf d ->
  section_ok d (silent (sync_watcher_begin run_id service d)).
Proof.
  apply silent_ok, quiet_update. intros r fl. simpl.
  match goal with |- context [if ?b then _ else _] => destruct b end.
  - split_and!; [done|done|apply stop_watch_transfer].
  - destruct (sh_watch (sv_handles r)); (split_and!; [done|done|by apply transfer_same]).
Qed.

Lemma sync_capture_begin_ok run_id service d :
  runs_wf d ->
  section_ok d (silent (sync_capture_begin run_id service d)).
Proof.
  apply silent_ok, quiet_update. intros r fl. simpl.
  match goal with |- context [if ?b then _ else _] => destruct b end.
  - split_and!; [done|done|apply stop_capture_transfer].
  - destruct (sh_api_capture (sv_handles r)), (sl_port (sv_launch r)),
      (sl_listen_port (sv_launch r)); (split_and!; [done|done|apply transfer_refl]).
Qed.

(** *** Preparing again *)

Lemma apply_prepared_quiet prepared :
  quiet (fun r fl => apply_prepared_to_runtime r prepared false fl).
Proof.
  intros r fl. unfold apply_prepared_to_runtime. cbn beta iota zeta.
  match goal with |- context [if negb (Bool.eqb ?a ?b) then _ else _] =>
    destruct (negb (Bool.eqb a b)) end;
  match goal with |- context [if ?b then _ else _] => destruct b end; simpl;
    (split_and!; [done|done|]); try apply transfer_refl.
  all: match goal with |- transfer ?fl (handles_of ?r) _ _ => apply (stop_capture_transfer r fl) end.
Qed.

Lemma sync_unchanged_service_ok run_id service prepared d :
  runs_wf d ->
  section_ok d (silent (sync_unchanged_service run_id service prepared d)).
Proof.
  apply silent_ok, (run_ok_map run_id _ (fun _ => tt)), quiet_update.
  intros r fl. pose proof (apply_prepared_quiet prepared r fl) as H. cbn beta in H.
  by destruct (apply_prepared_to_runtime r prepared false fl).
Qed.

(** *** Replacing and removing records *)

(** Everything a removed record held is stopped. *)
Lemma remove_transfer service run fl :
  bwf (rr_services run) ->
  transfer fl (held_run run)
    (match bget service (rr_services run) with
     | Some previous => (stop_all_handles previous fl).2
     | None => fl
     end) (held_by handles_of (bremove service (rr_services run))).
Proof.
  intros Hwf. unfold held_run. destruct (bget service (rr_services run)) as [r|] eqn:Hr.
  - eapply transfer_remove; [done|exact Hr|apply stop_all_transfer].
  - rewrite bremove_absent by done. apply transfer_refl.
Qed.

Lemma replace_service_record_ok run_id service record run fl events :
  bwf (rr_services run) -> clean record -> sv_handles record = ServiceHandles_default ->
  let '(run', fl', previous) := replace_service_record run service record fl in
  events = [service_state_changed_event run_id service (sr_state (sv_runtime record))] \/
    events = [] /\ previous = Some (sr_state (sv_runtime record)) ->
  run_step run_id run fl run' fl' events.
Proof.
  intros Hwf Hc Hh. unfold replace_service_record, remove_service. cbn beta iota zeta.
  intros Hev. constructor; simpl.
  - by apply bwf_binsert, bwf_bremove.
  - intros Hrun s r. simpl. rewrite bget_binsert. destruct (keqb service s); [by intros [= <-]|].
    rewrite bget_bremove. destruct (keqb service s); [done|apply Hrun].
  - eapply transfer_trans; [by apply (remove_transfer service)|].
    unfold held_run. simpl. apply transfer_add; [by apply bwf_bremove| |].
    + rewrite bget_bremove. by rewrite keqb_refl.
    + unfold handles_of. rewrite Hh. apply transfer_refl.
  - destruct Hev as [->|[-> _]]; [by repeat constructor|constructor].
  - intros v Hv s r. simpl. rewrite bget_binsert. destruct (keqb service s) eqn:E.
    + apply keqb_true in E as <-. intros [= <-]. destruct Hev as [->|[-> Hprev]]; simpl.
      * by rewrite !bool_decide_eq_true_2.
      * destruct (bget service (rr_services run)) as [q|] eqn:Hq; [|done].
        simpl in Hprev. injection Hprev as <-. by apply Hv.
    + rewrite bget_bremove, E. apply keqb_false in E. intros Hr.
      destruct Hev as [->|[-> _]]; simpl; [|by apply Hv].
      rewrite (bool_decide_eq_false_2 (s = service)) by done. rewrite andb_false_r. by apply Hv.
Qed.

Lemma record_failed_init_service_ok run_id service prepared error d :
  runs_wf d ->
  section_ok d (events_of id (record_failed_init_service run_id service prepared error d)).
Proof.
  apply events_of_ok. intros run fl Hwf.
  pose proof (replace_service_record_ok run_id service
    (into_service_record prepared Failed (Some ("init task failed: " +:+ error)) None) run fl
    [service_state_changed_event run_id service Failed] Hwf ltac:(done) eq_refl) as H.
  destruct (replace_service_record _ _ _ _) as [[run1 fl1] previous]. apply H. by left.
Qed.

Lemma store_service_launch_result_ok now run_id service prepared start_result d :
  runs_wf d ->
  section_ok d (events_of id (store_service_launch_result now run_id service prepared start_result d)).
Proof.
  apply events_of_ok. intros run fl Hwf. cbn beta zeta.
  set (s := match start_result with None => Starting | Some _ => Failed end).
  set (t := match start_result with None => Some now | Some _ => None end).
  assert (clean (into_service_record prepared s start_result t)) as Hc.
  { unfold clean, s. simpl. by destruct start_result. }
  pose proof (replace_service_record_ok run_id service
    (into_service_record prepared s start_result t) run fl) as H.
  destruct (replace_service_record _ _ _ _) as [[run1 fl1] previous].
  apply H; [done|done|done|]. case_bool_decide; [by right|by left].
Qed.

Lemma finalize_run_launch_ok run_id d :
  runs_wf d ->
  section_ok d (events_of id (finalize_run_launch run_id d)).
Proof.
  apply events_of_ok. intros run fl Hwf.
  pose proof (run_step_refl run_id run fl fl Hwf (transfer_refl _ _)) as H.
  by apply finish_ok in H.
Qed.

Lemma remove_one_step run_id run0 fl0 run fl service :
  run_step run_id run0 fl0 run fl [] ->
  let '(run', fl') := remove_one (run, fl) service in run_step run_id run0 fl0 run' fl' [].
Proof.
  unfold remove_one, remove_service. cbn beta iota zeta. intros [Hwf Hc Ht _ Hv].
  assert (forall s r, bget s (bremove service (rr_services run)) = Some r ->
                      bget s (rr_services run) = Some r) as Hsub.
  { intros s r. rewrite bget_bremove. by destruct (keqb service s). }
  constructor; simpl; [by apply bwf_bremove| | |constructor|].
  - intros H s r Hr%Hsub. by eapply Hc.
  - eapply transfer_trans; [exact Ht|]. by apply remove_transfer.
  - intros v H s r Hr%Hsub. by eapply Hv.
Qed.

Lemma remove_services_missing_from_stack_ok run_id removed d :
  runs_wf d ->
  section_ok d (events_of id (remove_services_missing_from_stack run_id removed d)).
Proof.
  apply events_of_ok. intros run fl Hwf.
  assert (forall run1 fl1, run_step run_id run fl run1 fl1 [] ->
    let '(run', fl') := foldl remove_one (run1, fl1) removed in
    run_step run_id run fl run' fl' []) as H.
  { induction removed as [|s removed IH]; intros run1 fl1 H0; [done|].
    cbn [foldl]. pose proof (remove_one_step run_id run fl run1 fl1 s H0) as H1.
    destruct (remove_one (run1, fl1) s) as [run2 fl2]. by apply IH. }
  specialize (H run fl (run_step_refl _ _ _ _ Hwf (transfer_refl _ _))).
  destruct (foldl remove_one (run, fl) removed) as [run1 fl1]. by apply finish_ok in H.
Qed.

Lemma update_run_launch_resources_ok run_id env d :
  runs_wf d ->
  section_ok d (events_of id (update_run_launch_resources run_id env d)).
Proof.
  apply events_of_ok. intros run fl Hwf. simpl. case_bool_decide; simpl.
  - constructor; simpl; [done|done|apply transfer_refl|by repeat constructor|done].
  - constructor; simpl; [done|done|apply transfer_refl|constructor|done].
Qed.

(** *** Starting watchers and proxies *)

(** A handle that is made and stopped leaves nothing to own. *)
Lemma new_stopped_transfer fl fl' L :
  fl_next fl' = S (fl_next fl) -> fl_stopped fl' = fl_stopped fl ->
  transfer fl L (stop_handle (fl_next fl) fl') L.
Proof.
  intros Hn Hs. eapply transfer_trans.
  - apply (transfer_frame L _ []). by apply transfer_new.
  - apply (transfer_frame L _ [_] _ []). apply (transfer_stop _ (Some (fl_next fl))).
Qed.

(** The commit as one section: the handle is kept by the record, or stopped. *)
Definition commit_section (new : Flags -> nat * Flags) (keep : ServiceRecord -> bool)
    (put : nat -> ServiceRecord -> Flags -> ServiceRecord * Flags) (service : string)
    (run : RunRecord) (fl : Flags) : RunRecord * Flags * unit :=
  let '(h, fl1) := new fl in
  match bget service (rr_services run) with
  | None => (run, stop_handle h fl1, tt)
  | Some r =>
      let '(r', fl2) := if keep r then put h r fl1 else (r, stop_handle h fl1) in
      (put_services run (binsert service r' (rr_services run)), fl2, tt)
  end.

Record puts (new : Flags -> nat * Flags)
    (put : nat -> ServiceRecord -> Flags -> ServiceRecord * Flags)
    (keep : ServiceRecord -> bool) : Prop := {
  pu_new : forall fl, (new fl).1 = fl_next fl /\ fl_next (new fl).2 = S (fl_next fl) /\
           fl_stopped (new fl).2 = fl_stopped fl;
  pu_runtime : forall h r fl, sv_runtime (put h r fl).1 = sv_runtime r;
  pu_handles : forall h r fl, keep r = true ->
               handles_of (put h r fl).1 ≡ₚ h :: handles_of r;
  pu_flags : forall h r fl, fl_next (put h r fl).2 = fl_next fl /\
             fl_stopped (put h r fl).2 = fl_stopped fl;
}.

Lemma commit_section_ok new keep put run_id service :
  puts new put keep -> run_ok run_id (fun _ => []) (commit_section new keep put service).
Proof.
  intros [Hnew Hrt Hh Hfl] run fl Hwf. unfold commit_section.
  destruct (Hnew fl) as (Hn1 & Hn2 & Hn3).
  destruct (new fl) as [h fl1] eqn:E. simpl in *. subst h.
  destruct (bget service (rr_services run)) as [r|] eqn:Hr.
  2:{ apply run_step_refl; [done|by apply new_stopped_transfer]. }
  set (g := fun (r : ServiceRecord) (fl : Flags) =>
    if keep r then put (fl_next fl) r (new fl).2 else (r, stop_handle (fl_next fl) (new fl).2)).
  assert (quiet g) as Hq.
  { intros q gl. unfold g. destruct (Hnew gl) as (Hg1 & Hg2 & Hg3).
    destruct (keep q) eqn:Hk.
    - specialize (Hrt (fl_next gl) q (new gl).2). specialize (Hh (fl_next gl) q (new gl).2 Hk).
      specialize (Hfl (fl_next gl) q (new gl).2).
      destruct (put (fl_next gl) q (new gl).2) as [q' gl']. simpl in *. rewrite Hrt.
      split_and!; [done|done|]. rewrite Hh. apply (transfer_frame _ _ [] _ [_]).
      apply transfer_new; [by rewrite (proj1 Hfl)|by rewrite (proj2 Hfl)].
    - split_and!; [done|done|by apply new_stopped_transfer]. }
  pose proof (quiet_update run_id service (fun r fl => let '(r, fl) := g r fl in (r, fl, tt)))
    as Hu.
  specialize (Hu ltac:(intros q gl; specialize (Hq q gl); by destruct (g q gl)) run fl Hwf).
  unfold update_service in Hu. rewrite Hr in Hu. unfold g in Hu. rewrite E in Hu. simpl in Hu.
  by destruct (if keep r then _ else _) as [r' fl2].
Qed.

(** A commit on a missing run stops the handle. *)
Lemma step_stopped d fl' :
  runs_wf d -> fl_next fl' = S (fl_next (dm_flags d)) ->
  fl_stopped fl' = fl_stopped (dm_flags d) ->
  step_ok d (mkDaemon (dm_runs d) (stop_handle (fl_next (dm_flags d)) fl')) [].
Proof. intros Hd Hn Hs. constructor; simpl; [done|done|by apply new_stopped_transfer|done]. Qed.

Definition watcher_wanted (r : ServiceRecord) : bool :=
  ss_auto_restart (sv_spec r) && negb (bool_decide (sr_last_started_at (sv_runtime r) = None))
  && bool_decide (sh_watch (sv_handles r) = None).

Definition put_watch (h : nat) (r : ServiceRecord) (fl : Flags) : ServiceRecord * Flags :=
  (set_handles r (mkServiceHandles (sh_health (sv_handles r)) (Some h)
                    (sh_api_capture (sv_handles r))),
   store_paused h (sr_watch_paused (sv_runtime r)) fl).

Lemma watcher_puts paused : puts (ServiceWatchHandle_new paused) put_watch watcher_wanted.
Proof.
  constructor; [done|done| |done]. intros h r fl Hw. unfold watcher_wanted in Hw.
  apply andb_prop in Hw as [_ Hw]. apply bool_decide_eq_true in Hw.
  unfold handles_of. simpl. rewrite Hw. by destruct (sh_health (sv_handles r)); simpl;
    [rewrite Permutation_swap|].
Qed.

Lemma sync_watcher_commit_ok run_id service paused d :
  runs_wf d ->
  section_ok d (silent (sync_watcher_commit run_id service paused d)).
Proof.
  intros Hd. unfold section_ok, silent, sync_watcher_commit. simpl.
  pose proof (update_run_ok run_id (fun _ => []) _ d
    (commit_section_ok _ _ _ run_id service (watcher_puts paused)) Hd) as H.
  unfold update_run, with_run_mut in *. simpl in *.
  destruct (bget run_id (dm_runs d)) as [run|];
    [|exact (step_stopped d (ServiceWatchHandle_new paused (dm_flags d)).2 Hd eq_refl eq_refl)].
  unfold commit_section, update_service in *. simpl in *.
  destruct (bget service (rr_services run)) as [r|]; [|exact H].
  unfold watcher_wanted in H. destruct (_ && _); exact H.
Qed.

Definition capture_wanted (r : ServiceRecord) : bool :=
  sl_capture_api (sv_launch r) && bool_decide (sh_api_capture (sv_handles r) = None).

Definition put_capture (h : nat) (r : ServiceRecord) (fl : Flags) : ServiceRecord * Flags :=
  (set_handles r (mkServiceHandles (sh_health (sv_handles r)) (sh_watch (sv_handles r)) (Some h)),
   fl).

Lemma capture_puts : puts ApiCaptureHandle_new put_capture capture_wanted.
Proof.
  constructor; [done|done| |done]. intros h r fl Hw. unfold capture_wanted in Hw.
  apply andb_prop in Hw as [_ Hw]. apply bool_decide_eq_true in Hw.
  unfold handles_of. simpl. rewrite Hw, !app_nil_r, app_assoc. by rewrite Permutation_app_comm.
Qed.

(** The proxy of a run that is gone is not stopped: the commit is sound only
    while the run exists. *)
Lemma sync_capture_commit_ok run_id service d :
  runs_wf d -> is_Some (bget run_id (dm_runs d)) ->
  section_ok d (silent (sync_capture_commit run_id service d)).
Proof.
  intros Hd [run Hrun]. unfold section_ok, silent, sync_capture_commit. simpl.
  pose proof (update_run_ok run_id (fun _ => []) _ d
    (commit_section_ok _ _ _ run_id service capture_puts) Hd) as H.
  unfold update_run, with_run_mut in *. simpl in *. rewrite Hrun in *.
  unfold commit_section, update_service in *. simpl in *.
  destruct (bget service (rr_services run)) as [r|]; [|exact H].
  unfold capture_wanted in H. destruct (_ && _); exact H.
Qed.

(** *** Loops over the services *)

Lemma update_all_ok f services fl :
  quiet f -> bwf services ->
  let '(services', fl') := update_all f services fl in
  bkeys services' = bkeys services /\
  (forall s r', bget s services' = Some r' -> exists r, bget s services = Some r /\
     sr_state (sv_runtime r') = sr_state (sv_runtime r) /\
     sr_last_failure (sv_runtime r') = sr_last_failure (sv_runtime r)) /\
  transfer fl (held_by handles_of services) fl' (held_by handles_of services').
Proof.
  intros Hf. revert fl. induction services as [|[name r] services IH]; intros fl Hwf.
  { split_and!; [done|done|apply transfer_refl]. }
  cbn [update_all]. specialize (Hf r fl). destruct (f r fl) as [r' fl1].
  destruct Hf as (Hs & Hfail & Ht). apply bwf_cons_inv in Hwf as [Hwf _].
  specialize (IH fl1 Hwf). destruct (update_all f services fl1) as [services' fl2].
  destruct IH as (Hk & Hget & Ht2). split_and!.
  - change (name :: bkeys services' = name :: bkeys services). by rewrite Hk.
  - intros s q. simpl. destruct (keqb s name); [|apply Hget]. intros [= <-]. by exists r.
  - unfold held_by. simpl. eapply transfer_trans; [by apply transfer_frame|].
    by apply transfer_frame_l.
Qed.

Lemma bwf_keys {V W} (m : bmap string V) (m' : bmap string W) :
  bkeys m' = bkeys m -> bwf m -> bwf m'.
Proof.
  unfold bkeys. revert m'. induction m as [|[k v] m IH]; intros [|[k' w] m'] Hk; try done;
    [constructor|].
  simpl in Hk. injection Hk as -> Hk. intros [Hwf Hlt]%bwf_cons_inv.
  constructor; [by apply (IH m')|]. clear -Hk Hlt. revert m' Hk.
  induction Hlt as [|[j v'] m Hj _ IH]; intros [|[j' w'] m'] Hk; try done.
  simpl in *. injection Hk as -> Hk. constructor; [done|by apply IH].
Qed.

Lemma update_all_step f run_id run fl :
  quiet f -> bwf (rr_services run) ->
  let '(services, fl') := update_all f (rr_services run) fl in
  run_step run_id run fl (put_services run services) fl' [].
Proof.
  intros Hf Hwf. pose proof (update_all_ok f (rr_services run) fl Hf Hwf) as H.
  destruct (update_all f (rr_services run) fl) as [services fl']. destruct H as (Hk & Hget & Ht).
  constructor; simpl; [by eapply bwf_keys| |done|constructor|].
  - intros Hc s r' (r & Hr & Hs & Hfail)%Hget. unfold clean. rewrite Hs, Hfail. by eapply Hc.
  - intros v Hv s r' (r & Hr & Hs & _)%Hget. rewrite Hs. by apply Hv.
Qed.

Lemma store_watch_paused_quiet b : quiet (store_watch_paused b).
Proof.
  intros r fl. unfold store_watch_paused. simpl.
  destruct (sh_watch (sv_handles r)); (split_and!; [done|done|by apply transfer_same]).
Qed.

Lemma set_watch_paused_ok b run_id service d :
  runs_wf d ->
  section_ok d (silent (set_watch_paused b run_id service d)).
Proof.
  apply silent_ok. intros run fl Hwf.
  destruct service as [service|].
  - pose proof (quiet_update run_id service
      (fun r fl => let '(r, fl) := store_watch_paused b r fl in (r, fl, tt))) as H.
    specialize (H ltac:(intros r gl; pose proof (store_watch_paused_quiet b r gl) as Hq;
      by destruct (store_watch_paused b r gl)) run fl Hwf).
    unfold update_service in H. destruct (bget service (rr_services run)) as [r|].
    2:{ by apply run_step_refl; [|apply transfer_refl]. }
    destruct (negb (ss_auto_restart (sv_spec r))).
    { by apply run_step_refl; [|apply transfer_refl]. }
    by destruct (store_watch_paused b r fl).
  - match goal with |- context [update_all ?f _ _] =>
      pose proof (update_all_step f run_id run fl) as H end.
    destruct (update_all _ _ _) as [services fl'].
    apply H; [|done]. intros r gl. destruct (ss_auto_restart (sv_spec r)).
    + apply store_watch_paused_quiet.
    + split_and!; [done|done|apply transfer_refl].
Qed.

Lemma stop_all_quiet : quiet stop_all_handles.
Proof. intros r fl. split_and!; [done|done|]. apply stop_all_transfer. Qed.

Lemma stop_service_handles_ok run_id d :
  runs_wf d ->
  section_ok d (silent (stop_service_handles run_id d)).
Proof.
  apply silent_ok. intros run fl Hwf.
  pose proof (update_all_step _ run_id run fl stop_all_quiet Hwf) as H.
  by destruct (update_all stop_all_handles (rr_services run) fl).
Qed.

(** *** Stopping *)

Lemma observe_state v now run_id name r s :
  v run_id name = Some (sr_state (sv_runtime r)) ->
  let '(r', e) := set_service_state now run_id name r s in
  foldl observe v (option_list e) run_id name = Some s /\
  forall x, x <> name -> foldl observe v (option_list e) run_id x = v run_id x.
Proof.
  intros Hv. pose proof (set_service_state_ok now run_id name r s) as H.
  destruct (set_service_state now run_id name r s) as [r' e]. destruct H as (_ & _ & _ & He).
  destruct He as [[-> ->]| ->]; [done|]. simpl. split; [by rewrite !bool_decide_eq_true_2|].
  intros x Hx. rewrite (bool_decide_eq_false_2 (x = name)) by done. by rewrite andb_false_r.
Qed.

Lemma stop_services_shape now run_id services :
  let '(services', events) := stop_services now run_id services in
  bkeys services' = bkeys services /\
  held_by handles_of services' = held_by handles_of services /\
  (forall s r, bget s services' = Some r -> sr_state (sv_runtime r) = Stopped) /\
  Forall (local_event run_id) events.
Proof.
  induction services as [|[name r] services IH]; [by split_and!|].
  cbn [stop_services]. pose proof (set_service_state_ok now run_id name r Stopped) as H.
  destruct (set_service_state now run_id name r Stopped) as [r' e].
  destruct H as (Hs & Hh & _ & He).
  destruct (stop_services now run_id services) as [services' events].
  destruct IH as (Hk & Hheld & Hst & Hl). split_and!.
  - change (name :: bkeys services' = name :: bkeys services). by rewrite Hk.
  - unfold held_by, handles_of in *. simpl. by rewrite Hh, Hheld.
  - intros s q. simpl. destruct (keqb s name); [by intros [= <-]|apply Hst].
  - apply Forall_app. split; [|done]. destruct He as [[_ ->]| ->]; by repeat constructor.
Qed.

Lemma stop_services_sees now run_id services v :
  NoDup (bkeys services) ->
  (forall s r, bget s services = Some r -> v run_id s = Some (sr_state (sv_runtime r))) ->
  let '(services', events) := stop_services now run_id services in
  (forall s, s ∈ bkeys services -> foldl observe v events run_id s = Some Stopped) /\
  (forall s, s ∉ bkeys services -> foldl observe v events run_id s = v run_id s).
Proof.
  revert v. induction services as [|[name r] services IH]; intros v Hnd Hv.
  { split; [by intros s ?%elem_of_nil|done]. }
  change (bkeys ((name, r) :: services)) with (name :: bkeys services) in *.
  pose proof (NoDup_cons_1_1 _ _ Hnd) as Hni. apply NoDup_cons_1_2 in Hnd.
  cbn [stop_services]. pose proof (observe_state v now run_id name r Stopped) as H.
  destruct (set_service_state now run_id name r Stopped) as [r' e].
  destruct H as [Hname Hother]; [apply Hv; simpl; by rewrite keqb_refl|].
  assert (forall x w, bget x services = Some w -> x <> name) as Hin.
  { intros x w Hx ->. apply Hni, bget_keys. by eexists. }
  specialize (IH (foldl observe v (option_list e)) Hnd).
  destruct (stop_services now run_id services) as [services' events].
  destruct IH as [Hs Ho].
  { intros x w Hx. rewrite Hother by by eapply Hin. apply Hv. simpl.
    by rewrite (proj2 (keqb_false x name)) by by eapply Hin. }
  split; intros s; rewrite foldl_app.
  - intros [->|Hs']%elem_of_cons; [|by apply Hs]. by rewrite Ho.
  - intros [Hne Hs']%not_elem_of_cons. by rewrite Ho, Hother.
Qed.

Lemma run_state_event_observed v events run :
  foldl observe v (events ++ [run_state_changed_event run]) = foldl observe v events.
Proof. by rewrite foldl_app. Qed.

Lemma down_commit_ok now run_id d :
  runs_wf d ->
  section_ok d (events_of id (down_commit now run_id d)).
Proof.
  apply events_of_ok. intros run fl Hwf. simpl.
  pose proof (stop_services_shape now run_id (rr_services run)) as H.
  pose proof (fun v Hv => stop_services_sees now run_id (rr_services run) v
    (bwf_NoDup_keys _ Hwf) Hv) as Hsee.
  destruct (stop_services now run_id (rr_services run)) as [services events].
  destruct H as (Hk & Hh & Hst & Hl). constructor; simpl.
  - by eapply bwf_keys.
  - intros _ s r Hr. unfold clean. by rewrite (Hst s r Hr).
  - unfold held_run. simpl. rewrite Hh. apply transfer_refl.
  - apply Forall_app. split; [done|]. by repeat constructor.
  - intros v Hv s r Hr. rewrite run_state_event_observed, (Hst s r Hr).
    apply (proj1 (Hsee v Hv)). rewrite <- Hk. apply bget_keys. by eexists.
Qed.

(** *** Reconciling *)

(** A status never shows a ready service with a failure. *)
Definition status_clean (status : RunStatus) : Prop :=
  forall s st, (s, st) ∈ ru_services status -> su_state st = Ready -> su_last_failure st = None.

Lemma derive_status_clean run_state status rt :
  (sr_state rt = Ready -> sr_last_failure rt = None) ->
  let '(state, failure) := derive_status run_state status rt in state = Ready -> failure = None.
Proof.
  intros Hrt. unfold derive_status. destruct status as [sd|]; [|done].
  destruct (_ && _); [|done]. by destruct (sr_state rt).
Qed.

Lemma build_status_clean unit_status uptime errors fl run :
  bwf (rr_services run) -> run_clean run -> status_clean (build_status unit_status uptime errors fl run).
Proof.
  intros Hwf Hc s st. unfold build_status.
  destruct (foldl _ _ _) as [all_ready any_degraded]. simpl.
  intros Hin. apply list_elem_of_fmap in Hin as ([s' r] & [= -> ->] & Hin).
  apply bget_in in Hin; [|done]. simpl. unfold service_status.
  pose proof (derive_status_clean (rr_state run) (unit_status (sl_unit_name (sv_launch r)))
    (sv_runtime r) (Hc s' r Hin)) as H.
  by destruct (derive_status _ _ _).
Qed.

Lemma reconcile_one_ok run_id run0 fl run changed events s st :
  (su_state st = Ready -> su_last_failure st = None) ->
  run_step run_id run0 fl run fl events ->
  let '(run', _, events') := reconcile_one run_id (run, changed, events) (s, st) in
  run_step run_id run0 fl run' fl events'.
Proof.
  intros Hst [Hwf Hc Ht Hl Hv]. unfold reconcile_one.
  destruct (bget s (rr_services run)) as [r|] eqn:Hr; [|by constructor].
  set (r1 := put_last_failure (put_state r (su_state st)) (su_last_failure st)).
  assert (forall run' changed' events',
    rr_services run' = binsert s r1 (rr_services run) ->
    (events' = events ++ [service_state_changed_event run_id s (su_state st)] \/
     events' = events /\ su_state st = sr_state (sv_runtime r)) ->
    let '(run', _, events') := (run', changed' : bool, events') in
    run_step run_id run0 fl run' fl events') as Hgen.
  { intros run' _ events' Hrun Hev. constructor.
    - rewrite Hrun. by apply bwf_binsert.
    - intros H x q. rewrite Hrun, bget_binsert. destruct (keqb s x); [|by apply Hc].
      by intros [= <-].
    - eapply transfer_trans; [exact Ht|]. unfold held_run. rewrite Hrun.
      eapply transfer_update; [done|exact Hr|apply transfer_refl].
    - destruct Hev as [->|[-> _]]; [|done]. apply Forall_app. split; [done|].
      by repeat constructor.
    - intros v H x q. rewrite Hrun, bget_binsert. specialize (Hv v H).
      destruct (keqb s x) eqn:E.
      + apply keqb_true in E as <-. intros [= <-].
        destruct Hev as [->|[-> Hs]]; [|simpl; rewrite Hs; by apply Hv].
        rewrite foldl_app. simpl. by rewrite !bool_decide_eq_true_2.
      + apply keqb_false in E. intros Hq. destruct Hev as [->|[-> _]]; [|by apply Hv].
        rewrite foldl_app. simpl. rewrite (bool_decide_eq_false_2 (x = s)) by done.
        rewrite andb_false_r. by apply Hv. }
  assert (forall q, sr_state (sv_runtime q) = su_state st ->
    sr_last_failure (sv_runtime q) = su_last_failure st ->
    sv_spec q = sv_spec r -> sv_launch q = sv_launch r -> sv_handles q = sv_handles r ->
    sr_last_started_at (sv_runtime q) = sr_last_started_at (sv_runtime r) ->
    sr_watch_paused (sv_runtime q) = sr_watch_paused (sv_runtime r) -> q = r1) as Heq.
  { clear. intros [qs ql [q1 q2 q3 q4] qh]. destruct r as [rs rl [a1 a2 a3 a4] rh].
    unfold r1. simpl. by intros -> -> -> -> -> -> ->. }
  repeat case_bool_decide; cbn beta iota zeta; apply Hgen; auto; simpl; f_equal; apply Heq;
    simpl; try done; by apply dec_stable.
Qed.

Lemma reconcile_commit_ok run_id status d :
  status_clean status -> runs_wf d ->
  section_ok d (events_of snd (reconcile_commit run_id status d)).
Proof.
  intros Hst. apply events_of_ok. intros run fl Hwf. simpl.
  assert (forall run1 changed events, run_step run_id run fl run1 fl events ->
    let '(run', _, events') :=
      foldl (reconcile_one run_id) (run1, changed, events) (ru_services status) in
    run_step run_id run fl run' fl events') as H.
  { unfold status_clean in Hst. induction (ru_services status) as [|[s st] l IH];
      intros run1 changed events H1; [done|].
    cbn [foldl].
    pose proof (reconcile_one_ok run_id run fl run1 changed events s st
      (Hst s st ltac:(left)) H1) as H2.
    destruct (reconcile_one run_id (run1, changed, events) (s, st)) as [[run2 c2] e2].
    apply IH; [|done]. intros x y Hin. apply (Hst x). by right. }
  specialize (H run false [] (run_step_refl _ _ _ _ Hwf (transfer_refl _ _))).
  destruct (foldl _ _ _) as [[run1 changed] events]. destruct H as [H1 H2 H3 H4 H5].
  destruct (_ && _); constructor; simpl; try done.
  - apply Forall_app. split; [done|]. by repeat constructor.
  - intros v Hv. rewrite run_state_event_observed. by apply H5.
Qed.

(** *** Creating and dropping runs *)

Lemma create_run_record_ok now run_id stack project_dir config_dir env d :
  runs_wf d ->
  section_ok d (events_of id (create_run_record now run_id stack project_dir config_dir env d)).
Proof.
  intros Hd. unfold section_ok, create_run_record, create_run. cbn [rr_run_id RunRecord_new].
  destruct (bcontains run_id (dm_runs d)) eqn:Hc; [by apply step_ok_refl|].
  assert (bget run_id (dm_runs d) = None) as Hn.
  { unfold bcontains in Hc. by destruct (bget run_id (dm_runs d)). }
  destruct Hd as [Hw Hws]. constructor; simpl.
  - split; [by apply bwf_binsert|]. intros r run. simpl. rewrite bget_binsert.
    destruct (keqb run_id r); [|by apply Hws]. intros [= <-]. apply bwf_nil.
  - intros H r run. simpl. rewrite bget_binsert. destruct (keqb run_id r); [|by apply H].
    by intros [= <-] s q.
  - apply transfer_add; [done|done|apply transfer_refl].
  - intros v H r run. simpl. rewrite bget_binsert. destruct (keqb run_id r) eqn:E.
    + by intros [= <-] s q.
    + apply keqb_false in E. intros Hr s q Hq.
      rewrite bool_decide_eq_false_2 by auto. by eapply H.
Qed.

(** What removing runs keeps. *)
Record drop_ok (d d' : Daemon) (events : list DaemonEvent) : Prop := {
  dr_wf : runs_wf d';
  dr_clean : all_clean d -> all_clean d';
  dr_sees : forall v, sees v d -> sees (foldl observe v events) d';
}.

Lemma step_drop d d' events : step_ok d d' events -> drop_ok d d' events.
Proof. by intros [H1 H2 _ H4]; constructor. Qed.

Lemma bremove_runs_ok run_id d events :
  runs_wf d -> Forall (fun e => e = run_removed_event run_id) events ->
  drop_ok d (mkDaemon (bremove run_id (dm_runs d)) (dm_flags d)) events.
Proof.
  intros [Hw Hws] Hall.
  assert (forall r run, bget r (bremove run_id (dm_runs d)) = Some run ->
    r <> run_id /\ bget r (dm_runs d) = Some run) as Hsub.
  { intros r run. rewrite bget_bremove. destruct (keqb run_id r) eqn:E; [done|].
    apply keqb_false in E. auto. }
  constructor; simpl.
  - split; [by apply bwf_bremove|]. intros r run [_ Hr]%Hsub. by eapply Hws.
  - intros H r run [_ Hr]%Hsub. by eapply H.
  - intros v H r run [Hne Hr]%Hsub.
    assert (forall s, foldl observe v events r s = v r s) as Hsame.
    { intros s. clear -Hall Hne. revert v. induction Hall as [|e events -> _ IH]; intros v; [done|].
      simpl. rewrite IH. by rewrite bool_decide_eq_false_2. }
    intros s q Hq. rewrite Hsame. by eapply H.
Qed.

Lemma purge_run_ok run_id d :
  runs_wf d -> let '(events, d') := purge_run run_id d in drop_ok d d' events.
Proof.
  intros Hd. unfold purge_run, remove_run.
  destruct (bget run_id (dm_runs d)); (apply bremove_runs_ok; [done|]);
    [by apply Forall_singleton|constructor].
Qed.

Lemma drop_trans d1 d2 d3 e1 e2 :
  drop_ok d1 d2 e1 -> drop_ok d2 d3 e2 -> drop_ok d1 d3 (e1 ++ e2).
Proof.
  intros [W1 C1 S1] [W2 C2 S2]. constructor; [done|auto|].
  intros v H. rewrite foldl_app. auto.
Qed.

Lemma gc_drop removed d :
  runs_wf d ->
  drop_ok d (mkDaemon (foldl (fun runs r => bremove r runs) (dm_runs d) removed) (dm_flags d))
    (map run_removed_event removed).
Proof.
  revert d. induction removed as [|r removed IH]; intros d Hd.
  { destruct d. by constructor. }
  pose proof (bremove_runs_ok r d [run_removed_event r] Hd
    (proj2 (Forall_singleton _ _) eq_refl)) as H.
  cbn [foldl map]. apply (drop_trans _ _ _ [_] _ H).
  apply (IH (mkDaemon (bremove r (dm_runs d)) (dm_flags d))), (dr_wf _ _ _ H).
Qed.

(** ** Every action *)

(** The handles that an action leaves in no record without telling them to stop: those
    of the runs it drops, and the proxy committed to a run that is gone. *)
Definition lost (a : Action) (d : Daemon) : list nat :=
  match a with
  | ActPurge run_id => from_option held_run [] (bget run_id (dm_runs d))
  | ActGc after => held (filter (fun e => gc_keeps after e.2 = false) (dm_runs d))
  | ActSyncCaptureCommit run_id _ =>
      if bget run_id (dm_runs d) is Some _ then [] else [fl_next (dm_flags d)]
  | _ => []
  end.

Definition status_known (seen : list RunStatus) (a : Action) : Prop :=
  match a with ActReconcile _ status => status ∈ seen | _ => True end.

Create HintDb sections.
#[export] Hint Resolve create_run_record_ok mark_service_ready_ok mark_service_failed_ok
  recover_to_ready_ok mark_degraded_ok restart_begin_ok restart_started_ok set_watch_paused_ok
  watcher_fire_ok sync_watcher_begin_ok sync_watcher_commit_ok sync_capture_begin_ok
  sync_capture_commit_ok sync_unchanged_service_ok record_failed_init_service_ok
  store_service_launch_result_ok finalize_run_launch_ok remove_services_missing_from_stack_ok
  update_run_launch_resources_ok stop_service_handles_ok down_commit_ok reconcile_commit_ok
  : sections.

Definition may_lose (a : Action) : bool :=
  match a with ActPurge _ | ActGc _ | ActSyncCaptureCommit _ _ => true | _ => false end.

Lemma perform_step seen a d :
  Forall status_clean seen -> status_known seen a -> runs_wf d -> may_lose a = false ->
  section_ok d (perform a d).
Proof.
  intros Hseen Hk Hd Hl. destruct a; try discriminate Hl;
    unfold perform, pause_watch, resume_watch, restart_limit; auto with sections.
  apply reconcile_commit_ok; [|done]. by eapply Forall_forall.
Qed.

Lemma perform_drop seen a d :
  Forall status_clean seen -> status_known seen a -> runs_wf d ->
  let '(d', events) := perform a d in drop_ok d d' events.
Proof.
  intros Hseen Hk Hd. destruct (may_lose a) eqn:Hl.
  2:{ pose proof (perform_step seen a d Hseen Hk Hd Hl) as H. destruct (perform a d). by apply step_drop. }
  destruct a; try discriminate Hl; unfold perform.
  - destruct (bget run_id (dm_runs d)) as [run|] eqn:Hr.
    + pose proof (sync_capture_commit_ok run_id service d Hd ltac:(by rewrite Hr)) as H.
      destruct (silent _) as [d' events]. by apply step_drop.
    + unfold silent, sync_capture_commit, update_run, with_run_mut. simpl. rewrite Hr. simpl.
      by constructor.
  - pose proof (purge_run_ok run_id d Hd) as H. by destruct (purge_run run_id d).
  - unfold run_gc. by apply gc_drop.
Qed.

(** Dropping runs splits what is held. *)
Lemma held_dropped (dropped : bmap string RunRecord) runs :
  bwf runs -> NoDup dropped.*1 -> (forall r run, (r, run) ∈ dropped -> bget r runs = Some run) ->
  held runs ≡ₚ held (foldl (fun runs r => bremove r runs) runs dropped.*1) ++ held dropped.
Proof.
  revert runs. induction dropped as [|[r run] dropped IH]; intros runs Hw Hnd Hin; cbn in *.
  { by rewrite app_nil_r. }
  apply NoDup_cons in Hnd as [Hr Hnd].
  unfold held at 1. rewrite (held_get held_run r run runs) by (done || apply Hin; left).
  change (held_by held_run (bremove r runs)) with (held (bremove r runs)).
  rewrite IH; [|by apply bwf_bremove|done|].
  - by rewrite Permutation_app_comm, <- app_assoc, (Permutation_app_comm (held dropped)).
  - intros x q Hx. rewrite bget_bremove, (proj2 (keqb_false r x)); [apply Hin; by right|].
    intros <-. apply Hr. apply list_elem_of_fmap. by exists (r, q).
Qed.

(** Every action hands on what it was given: to the records, or to nobody. *)
Lemma perform_transfer seen a d :
  Forall status_clean seen -> status_known seen a -> runs_wf d ->
  transfer (dm_flags d) (held (dm_runs d))
    (dm_flags (perform a d).1) (held (dm_runs (perform a d).1) ++ lost a d).
Proof.
  intros Hseen Hk Hd. destruct (may_lose a) eqn:Hl.
  2:{ pose proof (perform_step seen a d Hseen Hk Hd Hl) as H. destruct (perform a d) as [d' events].
      replace (lost a d) with (@nil nat) by by destruct a. rewrite app_nil_r. apply H. }
  destruct a as [| | | | | | | | | | | | | |run_id service| | | | | | | | |run_id|after|];
    try discriminate Hl; unfold lost, perform.
  - destruct (bget run_id (dm_runs d)) as [run|] eqn:Hr.
    + rewrite app_nil_r. apply (sync_capture_commit_ok run_id service d Hd). by rewrite Hr.
    + unfold silent, sync_capture_commit, update_run, with_run_mut. simpl. rewrite Hr. simpl.
      rewrite Permutation_app_comm. apply (transfer_frame _ _ []). by apply transfer_new.
  - unfold purge_run, remove_run. cbn.
    destruct (bget run_id (dm_runs d)) as [run|] eqn:Hr; cbn.
    + unfold held at 1. rewrite (held_get held_run run_id run) by (done || apply Hd).
      rewrite Permutation_app_comm. apply transfer_refl.
    + rewrite bremove_absent, app_nil_r by done. apply transfer_refl.
  - unfold run_gc. cbn. destruct Hd as [Hw _]. rewrite (held_dropped (filter (fun e => gc_keeps after e.2 = false) (dm_runs d)) (dm_runs d)); [..|done| |].
    + apply transfer_refl.
    + pose proof (bwf_NoDup_keys _ Hw) as Hnd. unfold bkeys in Hnd. eapply sublist_NoDup; [exact Hnd|]. apply (fmap_sublist fst), sublist_filter.
    + intros r run [_ Hin]%list_elem_of_filter. by apply bget_in.
Qed.

(** ** Reachable states *)

(** The states that the tasks of the daemon can reach from [start] when every
    action is [allowed]; [seen] are the statuses computed on the way, which a
    reconciliation may apply at any later time, and [events] what was emitted. *)
Inductive reachable (allowed : Action -> Daemon -> Prop) (start : Daemon)
    : Daemon -> list RunStatus -> list DaemonEvent -> Prop :=
  | reach_here : reachable allowed start start [] []
  | reach_status d seen events run_id run unit_status uptime errors :
      reachable allowed start d seen events ->
      get_run run_id (dm_runs d) = Some run ->
      reachable allowed start d
        (build_status unit_status uptime errors (dm_flags d) run :: seen) events
  | reach_action d seen events a d' emitted :
      reachable allowed start d seen events ->
      allowed a d -> status_known seen a -> perform a d = (d', emitted) ->
      reachable allowed start d' seen (events ++ emitted).

Definition anything (_ : Action) (_ : Daemon) : Prop := True.

Record reach_inv (v : View) (d : Daemon) (seen : list RunStatus) (events : list DaemonEvent)
    : Prop := {
  rv_wf : runs_wf d;
  rv_clean : all_clean d;
  rv_seen : Forall status_clean seen;
  rv_sees : sees (foldl observe v events) d;
}.

Lemma reachable_inv allowed start v d seen events :
  runs_wf start -> all_clean start -> sees v start ->
  reachable allowed start d seen events -> reach_inv v d seen events.
Proof.
  intros Hw Hc Hv Hr. induction Hr as [|d seen events run_id run us up er Hr IH Hrun
    |d seen events a d' emitted Hr IH _ Hk Hp].
  - by constructor.
  - destruct IH as [Hw' Hc' Hs' Hv']. constructor; [done|done| |done]. constructor; [|done].
    apply build_status_clean; [by eapply Hw'|by eapply Hc'].
  - destruct IH as [Hw' Hc' Hs' Hv'].
    pose proof (perform_drop seen a d Hs' Hk Hw') as H. rewrite Hp in H.
    destruct H as [Hw2 Hc2 Hv2]. constructor; [done|auto|done|].
    rewrite foldl_app. auto.
Qed.

Lemma sees_itself d :
  sees (fun r s => x ← get_run r (dm_runs d); y ← get_service x s; Some (sr_state (sv_runtime y))) d.
Proof. intros r x Hx s y Hy. unfold get_run, get_service. rewrite Hx. simpl. by rewrite Hy. Qed.

(** Whatever the tasks of the daemon do and however they interleave, with
    statuses applied long after they were computed, a service that is ready
    never carries a failure reason. *)
Theorem ready_never_failing (start d : Daemon) (seen : list RunStatus)
    (events : list DaemonEvent) (run_id service : string) (run : RunRecord)
    (record : ServiceRecord) :
  runs_wf start -> all_clean start -> reachable anything start d seen events ->
  get_run run_id (dm_runs d) = Some run -> get_service run service = Some record ->
  sr_state (sv_runtime record) = Ready -> sr_last_failure (sv_runtime record) = None.
Proof.
  intros Hw Hc Hr Hrun Hs.
  destruct (reachable_inv anything start
    (fun r s => x ← get_run r (dm_runs start); y ← get_service x s; Some (sr_state (sv_runtime y)))
    d seen events Hw Hc) as [_ Hd _ _]; [|done|by eapply Hd].
  intros r x Hx s y Hy. unfold get_run, get_service. rewrite Hx. simpl. by rewrite Hy.
Qed.

(** C21: the events are a complete account of the services. An observer that knew
    the states at the start and applies every event in order knows the state of
    every service of every run, after any interleaving. *)
Theorem events_tell_states (start d : Daemon) (seen : list RunStatus)
    (events : list DaemonEvent) (v : View) (run_id service : string) (run : RunRecord)
    (record : ServiceRecord) :
  runs_wf start -> all_clean start -> sees v start -> reachable anything start d seen events ->
  get_run run_id (dm_runs d) = Some run -> get_service run service = Some record ->
  foldl observe v events run_id service = Some (sr_state (sv_runtime record)).
Proof.
  intros Hw Hc Hv Hr Hrun Hs.
  destruct (reachable_inv anything start v d seen events Hw Hc Hv Hr) as [_ _ _ Hd].
  by apply (Hd run_id run).
Qed.

(** The handles lost on the way to a reachable state. *)
Inductive losing (start : Daemon) : Daemon -> list RunStatus -> list DaemonEvent -> list nat -> Prop :=
  | losing_here : losing start start [] [] []
  | losing_status d seen events handles run_id run unit_status uptime errors :
      losing start d seen events handles ->
      get_run run_id (dm_runs d) = Some run ->
      losing start d
        (build_status unit_status uptime errors (dm_flags d) run :: seen) events handles
  | losing_action d seen events handles a d' emitted :
      losing start d seen events handles ->
      status_known seen a -> perform a d = (d', emitted) ->
      losing start d' seen (events ++ emitted) (handles ++ lost a d).

Lemma reachable_losing start d seen events :
  reachable anything start d seen events -> exists handles, losing start d seen events handles.
Proof.
  induction 1 as [|d seen events run_id run us up er _ [handles IH] Hrun
    |d seen events a d' emitted _ [handles IH] _ Hk Hp].
  - eexists. apply losing_here.
  - eexists. by eapply losing_status.
  - eexists. by eapply losing_action.
Qed.

Lemma losing_reachable start d seen events handles :
  losing start d seen events handles -> reachable anything start d seen events.
Proof.
  induction 1; [apply reach_here|by eapply reach_status|by eapply reach_action].
Qed.

Lemma losing_owns start d seen events handles :
  runs_wf start -> all_clean start -> owns_all start -> losing start d seen events handles ->
  owns (held (dm_runs d) ++ handles) (dm_flags d).
Proof.
  intros Hw Hc Ho. induction 1 as [| |d seen events handles a d' emitted Hr IH Hk Hp].
  - by rewrite app_nil_r.
  - done.
  - pose proof (reachable_inv anything start _ d seen events Hw Hc (sees_itself start)
      (losing_reachable _ _ _ _ _ Hr)) as [Hwd _ Hs _].
    pose proof (perform_transfer seen a d Hs Hk Hwd handles IH) as H. rewrite Hp in H. cbn in H.
    by rewrite <- app_assoc, (Permutation_app_comm (lost a d)) in H.
Qed.

(** C20: No task is lost but where runs are dropped. In every reachable state, the
    handles not yet told to stop are those in the records and those that dropping a
    run - by a purge, a collection, or the commit of a proxy to a run that is gone - left
    without a record: each is in one place, and a handle that left the records in any
    other way (its record was replaced, removed or reconfigured, or it lost the race to be
    stored) was told to stop. Where no such step lost one, the records hold them all. *)
Theorem live_handles_are_held (start d : Daemon) (seen : list RunStatus)
    (events : list DaemonEvent) :
  runs_wf start -> all_clean start -> owns_all start ->
  reachable anything start d seen events ->
  exists handles, losing start d seen events handles /\
    NoDup (held (dm_runs d) ++ handles) /\
    forall h, h ∈ held (dm_runs d) \/ h ∈ handles <->
              h < fl_next (dm_flags d) /\ h ∉ fl_stopped (dm_flags d).
Proof.
  intros Hw Hc Ho [handles Hr]%reachable_losing. exists handles.
  destruct (losing_owns _ _ _ _ _ Hw Hc Ho Hr) as (Hnd & Hin & _). split_and!; [done..|].
  intros h. by rewrite <- elem_of_app.
Qed.

(** ** The policy of the health monitor *)

Definition failed_checks (l : list (bool * list DaemonEvent)) : Prop :=
  Forall (fun c => c.1 = false) l.

Definition three_failures (checks : list (bool * list DaemonEvent)) : Prop :=
  exists l1 l2 l3, checks = l1 ++ l2 ++ l3 /\ failed_checks l2 /\ length l2 = 3.

Lemma three_failures_cons c checks : three_failures checks -> three_failures (c :: checks).
Proof. intros (l1 & l2 & l3 & -> & ? & ?). by exists (c :: l1), l2, l3. Qed.

Lemma three_failures_prefix l2 l3 :
  failed_checks l2 -> (3 <= length l2)%nat -> three_failures (l2 ++ l3).
Proof.
  intros Hf Hl. exists [], (take 3 l2), (drop 3 l2 ++ l3). split_and!.
  - simpl. by rewrite app_assoc, take_drop.
  - by apply Forall_take.
  - rewrite length_take. lia.
Qed.

(** With [c] failures already counted, the first restart comes with the third. *)
Lemma monitor_loop_waits checks r c :
  (0 <= c < 3)%Z -> (monitor_loop (mkMonitor r c) checks).1 <> [] ->
  (exists l2 l3, checks = l2 ++ l3 /\ failed_checks l2 /\ (3 <= Z.of_nat (length l2) + c)%Z) \/
  three_failures checks.
Proof.
  revert r c. induction checks as [|[ok events] checks IH]; intros r c Hc; [done|].
  cbn [monitor_loop]. unfold monitor_turn, monitor_check. destruct ok; simpl.
  - specialize (IH 0%Z 0%Z ltac:(lia)).
    destruct (monitor_loop (mkMonitor 0 0) checks) as [restarts ended]. intros Hne.
    right. apply three_failures_cons. destruct (IH Hne) as [(l2 & l3 & -> & Hf & Hl)|H]; [|done].
    apply three_failures_prefix; [done|lia].
  - unfold saturating_incr. rewrite Z.min_l by (unfold u32_max; lia).
    destruct (Z.leb_spec 3 (c + 1)) as [H3|H3].
    + intros _. left. exists [(false, events)], checks. split_and!; [done|by constructor|].
      simpl. lia.
    + simpl. specialize (IH r (c + 1)%Z ltac:(lia)).
      destruct (monitor_loop _ checks) as [restarts ended]. intros Hne.
      destruct (IH Hne) as [(l2 & l3 & -> & Hf & Hl)|H]; [left|right; by apply three_failures_cons].
      exists ((false, events) :: l2), l3. split_and!; [done|by constructor|simpl; lia].
Qed.

Lemma monitor_loop_limit checks r c :
  failed_checks checks -> (r <= 2)%nat ->
  exists n, (n <= 3 - r)%nat /\
    monitor_loop (mkMonitor (Z.of_nat r) c) checks
    = (take n (drop r [0; 5; 30]%Z), (n =? 3 - r)%nat).
Proof.
  intros Hf. revert r c. induction Hf as [|[ok events] checks Hok Hf IH]; intros r c Hr.
  { exists 0. split; [lia|]. simpl. destruct r as [|[|[|]]]; (done || lia). }
  simpl in Hok. subst ok. cbn [monitor_loop]. unfold monitor_turn, monitor_check.
  cbn [andb mo_restart_count mo_consecutive_failures].
  match goal with |- context [should_restart ?m ?t ?e] =>
    destruct (should_restart m t e); cbn [mo_restart_count mo_consecutive_failures] end.
  - replace (Z.of_nat r + 1)%Z with (Z.of_nat (S r)) by lia.
    destruct (decide (r = 2)) as [->|Hne].
    { exists 1. split; [lia|done]. }
    rewrite (proj2 (Z.leb_gt 3 (Z.of_nat (S r)))) by lia.
    destruct (IH (S r) (saturating_incr c)) as (n & Hn & ->); [lia|].
    exists (S n). split; [lia|].
    destruct r as [|[|r]]; [done|done|lia].
  - destruct (IH r (saturating_incr c) Hr) as (n & Hn & E). rewrite E. by exists n.
Qed.

(** C38: the health monitor restarts a service only after three consecutive failed
    checks; while no check passes it restarts at most three times, at once, then
    after 5 and 30 seconds, and the third restart is its last act. *)
Theorem monitor_restart_policy (checks : list (bool * list DaemonEvent)) :
  ((monitor_loop (mkMonitor 0 0) checks).1 <> [] -> three_failures checks) /\
  (failed_checks checks ->
   exists n, (n <= 3)%nat /\
     monitor_loop (mkMonitor 0 0) checks = (take n [0; 5; 30]%Z, (n =? 3)%nat)).
Proof.
  split.
  - intros Hne. destruct (monitor_loop_waits checks 0 0 ltac:(lia) Hne) as
      [(l2 & l3 & -> & Hf & Hl)|H]; [|done]. apply three_failures_prefix; [done|lia].
  - intros Hf. exact (monitor_loop_limit checks 0 0%Z Hf ltac:(lia)).
Qed.

(** ** Scenarios *)

Lemma initial_wf : runs_wf initial.
Proof. split; [apply bwf_nil|]. done. Qed.

Lemma initial_clean : all_clean initial.
Proof. done. Qed.

Lemma initial_owns : owns_all initial.
Proof. split_and!; [constructor| |done]. intros h. simpl. split; [by intros ?%elem_of_nil|lia]. Qed.

Definition sample_prepared (name : string) : PreparedService :=
  mkPreparedService name "unit" (Some 3000%Z) (Some 3000%Z) "http" None false 1 []
    [] (mkReadinessSpec Tcp 30000) "/log" "/" [] "run" "hash" ["src"] [] [] [] true.

(** Starting a run with one service that becomes ready. *)
Definition start_web : list Action :=
  [ActCreateRun "t0" "r" "dev" "/p" "/p" [];
   ActLaunchResult "t1" "r" "web" (sample_prepared "web") None;
   ActSyncWatcherBegin "r" "web"; ActSyncWatcherCommit "r" "web" false;
   ActMarkReady "t2" "r" "web"; ActFinalize "r"].

(** An execution without reconciliations reaches its result. *)
Lemma execute_reachable allowed actions d0 :
  Forall (fun a => forall d, allowed a d) actions ->
  Forall (fun a => status_known [] a) actions ->
  reachable allowed d0 (execute d0 actions).1 [] (execute d0 actions).2.
Proof.
  intros Ha Hk. induction actions as [|a actions IH] using rev_ind; [constructor|].
  apply Forall_app in Hk as [Hk [Hka _]%Forall_cons].
  apply Forall_app in Ha as [Ha [Haa _]%Forall_cons].
  unfold execute. rewrite foldl_app. cbn [foldl].
  change (foldl _ (d0, []) actions) with (execute d0 actions).
  destruct (perform a (execute d0 actions).1) as [d' ev] eqn:E.
  eapply reach_action; [by apply IH|apply Haa|exact Hka|exact E].
Qed.

Lemma start_web_anything :
  reachable anything initial (execute initial start_web).1 [] (execute initial start_web).2.
Proof. by apply execute_reachable; repeat constructor. Qed.

Lemma live_handles_are_held_witness :
  held (dm_runs (execute initial start_web).1) = [1; 0] /\
  lost (ActPurge "r") (execute initial start_web).1 = [1; 0] /\
  exists handles, NoDup ([1; 0] ++ handles).
Proof.
  split; [vm_compute; reflexivity|]. split; [vm_compute; reflexivity|].
  destruct (live_handles_are_held initial _ _ _ initial_wf initial_clean initial_owns
    start_web_anything) as (handles & _ & Hnd & _).
  exists handles. exact Hnd.
Defined.

Lemma ready_never_failing_witness :
  exists run record,
    get_run "r" (dm_runs (execute initial start_web).1) = Some run /\
    get_service run "web" = Some record /\ sr_state (sv_runtime record) = Ready /\
    sr_last_failure (sv_runtime record) = None.
Proof.
  eexists _, _. split; [vm_compute; reflexivity|]. split; [vm_compute; reflexivity|].
  split; [reflexivity|].
  eapply (ready_never_failing initial _ _ _ "r" "web" _ _ initial_wf initial_clean
    start_web_anything); vm_compute; reflexivity.
Defined.

Lemma events_tell_states_witness :
  foldl observe (fun _ _ => None) (execute initial start_web).2 "r" "web" = Some Ready.
Proof.
  eapply (events_tell_states initial (execute initial start_web).1 [] _ (fun _ _ => None)
    "r" "web" _ (mkServiceRecord _ _ (mkServiceRuntimeState Ready _ _ _) _) initial_wf initial_clean
    ltac:(done) start_web_anything); vm_compute; reflexivity.
Defined.

(** A daemon where one run was stopped with [down]: a run without services, and a
    run whose service became ready just after it was stopped. *)
Definition empty_run_down : list Action :=
  [ActCreateRun "t0" "r" "dev" "/p" "/p" []; ActFinalize "r"; ActStopHandles "r";
   ActDown "t1" "r"].

Definition late_ready_down : list Action :=
  [ActCreateRun "t0" "r" "dev" "/p" "/p" [];
   ActLaunchResult "t1" "r" "web" (sample_prepared "web") None; ActFinalize "r";
   ActStopHandles "r"; ActDown "t2" "r"; ActMarkReady "t3" "r" "web"].

Definition run_of (actions : list Action) : RunRecord :=
  default (RunRecord_new "" "" "" "" "" []) (get_run "r" (dm_runs (execute initial actions).1)).

(** The status of the run as it is, with nothing known from systemd. *)
Definition status_now (actions : list Action) : RunStatus :=
  build_status (fun _ => None) (fun _ => None) (fun _ => [])
    (dm_flags (execute initial actions).1) (run_of actions).

(** Stopping a run is not final. A status query reconciles a stopped run to
    running, although it has a stop time, in two cases: the run has no service,
    or the readiness task of a service reports after [down] marked the service
    stopped; in the second case a health monitor runs for the stopped run. *)
Theorem stopped_run_revived :
  let d1 := (perform (ActReconcile "r" (status_now empty_run_down))
               (execute initial empty_run_down).1).1 in
  let d2 := (perform (ActReconcile "r" (status_now late_ready_down))
               (execute initial late_ready_down).1).1 in
  (exists run, get_run "r" (dm_runs d1) = Some run /\
     rr_state run = RunRunning /\ rr_stopped_at run = Some "t1") /\
  (exists run, get_run "r" (dm_runs d2) = Some run /\
     rr_state run = RunRunning /\ rr_stopped_at run = Some "t2" /\ held_run run = [0]) /\
  rr_state (run_of empty_run_down) = RunStopped /\
  rr_state (run_of late_ready_down) = RunStopped.
Proof.
  split_and!; [eexists|eexists|reflexivity|reflexivity];
    (split; [vm_compute; reflexivity|]); repeat split; reflexivity.
Qed.
