(* ===== verification/Json.v ===== *)
(** * JSON values

    The data type of [serde_json] and the interface of its parser, its printer
    and its numbers: what the sources build, read and print.  An object keeps the
    order of insertion, as the locked version of the crate does. *)

From S2P Require Import Prelude Bytes BMap.
From Stdlib Require Import ZArith.
From stdpp Require Import countable.

Class JsonNumber := {
  number : Type;
  number_to_string : number -> string;   (** [Number::to_string] *)
  as_i64 : number -> option Z;           (** [Number::as_i64] *)
  of_integer : Z -> number;              (** [Number::from] of an integer *)
}.

(** Integers that are not negative, as far as [u64]. *)
Class JsonUnsigned `{JsonNumber} := {
  as_u64 : number -> option Z;           (** [Number::as_u64] *)
  as_u64_of_integer : forall n, (0 <= n <= u64_max)%Z -> as_u64 (of_integer n) = Some n;
}.

#[warnings="-register-all"]
Inductive Value `{JsonNumber} : Type :=
| Null
| Bool (b : bool)
| Number (n : number)
| String (s : string)
| Array (l : list Value)
| Object (m : list (string * Value)).

(** [serde_json::from_str] and [serde_json::to_string]. *)
Class Json := {
  json_number :: JsonNumber;
  from_str : string -> option Value;
  to_string : Value -> outcome string;
}.

Section objects.
Context `{JsonNumber}.

Definition Map : Type := list (string * Value).

Fixpoint map_get (k : string) (m : Map) : option Value :=
  match m with
  | [] => None
  | (j, v) :: m => if bool_decide (j = k) then Some v else map_get k m
  end.

Fixpoint map_insert (k : string) (v : Value) (m : Map) : Map :=
  match m with
  | [] => [(k, v)]
  | (j, w) :: m => if bool_decide (j = k) then (j, v) :: m else (j, w) :: map_insert k v m
  end.

Definition as_str (value : Value) : option string :=
  match value with String s => Some s | _ => None end.

(** [json!] of the values the sources put into objects. *)
Definition json_opt {A} (f : A -> Value) (o : option A) : Value :=
  match o with Some a => f a | None => Null end.

Definition json_int (n : Z) : Value := Number (of_integer n).

Definition json_strings (l : list string) : Value := Array (String <$> l).

Definition json_env (env : bmap string string) : Value :=
  Object (map (fun kv => (kv.1, String kv.2)) env).

Lemma map_get_insert k j v (m : Map) :
  map_get j (map_insert k v m) = if bool_decide (k = j) then Some v else map_get j m.
Proof.
  induction m as [|[i w] m IH]; simpl; [done|].
  destruct (decide (i = k)) as [->|Hik].
  - rewrite (bool_decide_eq_true_2 (k = k)) by done. simpl. by destruct (bool_decide (k = j)).
  - rewrite (bool_decide_eq_false_2 (i = k)) by done. simpl. rewrite IH.
    destruct (decide (i = j)) as [->|]; [|by rewrite (bool_decide_eq_false_2 (i = j))].
    rewrite (bool_decide_eq_true_2 (j = j)) by done. by rewrite bool_decide_eq_false_2 by done.
Qed.
End objects.

(** The printer tells values apart, and numbers hold integers exactly. *)
Class JsonPrints `{Json} : Prop := {
  to_string_inj : forall v1 v2 s, to_string v1 = Ok s -> to_string v2 = Ok s -> v1 = v2;
  of_integer_inj : forall a b, of_integer a = of_integer b -> a = b;
}.

Section prints.
Context `{JsonPrints}.

Lemma object_field k m1 m2 v1 v2 :
  Object m1 = Object m2 -> map_get k m1 = Some v1 -> map_get k m2 = Some v2 -> v1 = v2.
Proof. intros [= ->] H1 H2. congruence. Qed.

Lemma String_inj a b : String a = String b -> a = b.
Proof. by intros [= ->]. Qed.

Lemma Bool_inj a b : Bool a = Bool b -> a = b.
Proof. by intros [= ->]. Qed.

Lemma json_int_inj a b : json_int a = json_int b -> a = b.
Proof. intros [= Heq]. by apply of_integer_inj. Qed.

Lemma json_opt_int_inj a b : json_opt json_int a = json_opt json_int b -> a = b.
Proof.
  destruct a as [a|], b as [b|]; simpl; try done. by intros ->%json_int_inj.
Qed.

Lemma json_strings_inj l k : json_strings l = json_strings k -> l = k.
Proof.
  intros [= Heq]. revert k Heq. induction l as [|a l IH]; intros [|b k]; simpl; try done.
  intros [= -> ?]. f_equal. by apply IH.
Qed.

Lemma json_env_inj l k : json_env l = json_env k -> l = k.
Proof.
  intros [= Heq]. revert k Heq. induction l as [|[a x] l IH]; intros [|[b y] k]; simpl; try done.
  intros [= -> -> ?]. f_equal. by apply IH.
Qed.
End prints.

(** ** A concrete codec *)

#[local] Instance integers : JsonNumber :=
  {| number := Z; number_to_string := show; as_i64 n := Some n; of_integer n := n |}.

#[local, refine] Instance integers_unsigned : JsonUnsigned :=
  {| as_u64 (n : number) := if ((0 <=? n) && (n <=? u64_max))%Z then Some n else None |}.
Proof. intros n Hn. cbn. by rewrite !(proj2 (Z.leb_le _ _)) by lia. Defined.

Fixpoint to_tree (v : Value) : gen_tree (string + Z) :=
  match v with
  | Null => GenNode 0 []
  | Bool b => GenNode (if b then 1 else 2) []
  | Number n => GenLeaf (inr n)
  | String s => GenLeaf (inl s)
  | Array l => GenNode 3 (map to_tree l)
  | Object m => GenNode 4 (map (fun kv => GenNode 5 [GenLeaf (inl kv.1); to_tree kv.2]) m)
  end.

Fixpoint of_tree (t : gen_tree (string + Z)) : Value :=
  match t with
  | GenLeaf (inl s) => String s
  | GenLeaf (inr n) => Number (n : number)
  | GenNode 1 _ => Bool true
  | GenNode 2 _ => Bool false
  | GenNode 3 l => Array (map of_tree l)
  | GenNode 4 l =>
      Object (map (fun t => match t with
                            | GenNode 5 [GenLeaf (inl k); v] => (k, of_tree v)
                            | _ => ("", Null)
                            end) l)
  | GenNode _ _ => Null
  end.

Fixpoint of_to_tree (v : Value) : of_tree (to_tree v) = v.
Proof.
  destruct v as [|[]|n|s|l|m]; try reflexivity; cbn [to_tree of_tree]; f_equal.
  - induction l as [|v l IH]; cbn [map]; [done|]. by rewrite of_to_tree, IH.
  - induction m as [|[k v] m IH]; cbn [map]; [done|]. cbn [fst snd]. by rewrite of_to_tree, IH.
Qed.

Definition brace (v : Value) : ascii := match v with Object _ => "{"%char | _ => "["%char end.

Definition print_value (v : Value) : outcome string :=
  Ok (of_bytes (brace v :: digits_of_pos (encode (to_tree v)) ++ ["}"%char])).

Definition parse_value (s : string) : option Value :=
  match to_bytes s with
  | _ :: rest => of_tree <$> decode (pos_of_digits rest)
  | [] => None
  end.

Lemma parse_print (v : Value) s : print_value v = Ok s -> parse_value s = Some v.
Proof.
  unfold print_value, parse_value. set (text := brace v :: _). intros Hs.
  assert (s = of_bytes text) as -> by congruence. rewrite to_of_bytes. unfold text.
  rewrite pos_digits_end, decode_encode. simpl. by rewrite of_to_tree.
Qed.

Definition concrete_json : Json := {| from_str := parse_value; to_string := print_value |}.

Lemma concrete_json_prints : @JsonPrints concrete_json.
Proof.
  split; [|done]. intros v1 v2 s H1%parse_print H2%parse_print. congruence.
Qed.
