(* ===== verification/Logfmt.v ===== *)
(** * Log lines ([src/src/logfmt.rs])

    The shim writes one JSON object per line of output; the readers take a line
    apart again: time stamp, stream, message, level.  JSON is
    the interface of [Json.v].  The regular expressions of the source are written as the
    functions they denote, on the characters of the text; each of them can match
    in one way only.  The decimal digits outside ASCII are a parameter. *)

From S2P Require Import Prelude Bytes Json.
From Stdlib Require Import Lia ZArith.

(** ** Fields *)

Section fields.
Context `{JsonNumber}.

Definition value_as_string (value : Value) : option string :=
  match value with
  | String s => Some s
  | Number n => Some (number_to_string n)
  | Bool b => Some (if b then "true" else "false")
  | _ => None
  end.

End fields.

(** ** The level of a text *)

Definition is_word_char (byte : ascii) : bool :=
  is_ascii_alphanumeric byte || byte_in 95 95 byte.

Definition has_word_boundaries (s : bytes) (start stop : nat) : bool :=
  let before_ok :=
    (start =? 0)%nat || negb (from_option is_word_char false (s !! (start - 1)%nat)) in
  let after_ok :=
    (stop =? length s)%nat || negb (from_option is_word_char false (s !! stop)) in
  before_ok && after_ok.

(** [&bytes[start..stop]], for [start <= stop <= length s]. *)
Definition slice (s : bytes) (start stop : nat) : bytes := take (stop - start) (drop start s).

Definition contains_keyword_case_insensitive (s keyword : bytes) : bool :=
  if (length s <? length keyword)%nat then false else
  existsb (fun start =>
             let stop := (start + length keyword)%nat in
             eq_ignore_ascii_case (slice s start stop) keyword
             && has_word_boundaries s start stop)
          (seq 0 (length s - length keyword + 1)).

Definition detect_log_level_fast (content : string) : string :=
  let has w := contains_keyword_case_insensitive (to_bytes content) (to_bytes w) in
  if has "error" || has "fatal" || has "panic" || has "exception" || has "traceback"
  then "error"
  else if has "warn" || has "warning" then "warn"
  else "info".

Definition str_eq_ignore_case (a b : string) : bool :=
  eq_ignore_ascii_case (to_bytes a) (to_bytes b).

Definition normalize_plain_text_level (level : string) : option string :=
  if str_eq_ignore_case level "error" || str_eq_ignore_case level "fatal"
     || str_eq_ignore_case level "panic" then Some "error"
  else if str_eq_ignore_case level "warn" || str_eq_ignore_case level "warning"
  then Some "warn"
  else if str_eq_ignore_case level "info" then Some "info"
  else if str_eq_ignore_case level "debug" then Some "debug"
  else if str_eq_ignore_case level "trace" then Some "trace"
  else None.

(** *** The patterns *)

(** The characters of a text, each with its bytes. *)
Definition chars (s : bytes) : list bytes := map snd (utf8_chunks s).

(** [\s] *)
Definition is_space (c : bytes) : bool :=
  match c with
  | [a] => ws1 a
  | [a; b] => ws2 a b
  | [a; b; c] => ws3 a b c
  | _ => false
  end.

Definition is_char (a : ascii) (c : bytes) : bool := bool_decide (c = [a]).

(** A greedy run of a class: the run and what follows it. *)
Fixpoint span {A} (p : A -> bool) (l : list A) : list A * list A :=
  match l with
  | [] => ([], [])
  | c :: l' => if p c then let '(a, b) := span p l' in (c :: a, b) else ([], l)
  end.

(** An ASCII keyword, whatever its case: the text it matches, and the rest. *)
Definition match_word (w : string) (cs : list bytes) : option (bytes * list bytes) :=
  let n := String.length w in
  let got := concat (take n cs) in
  if eq_ignore_ascii_case got (to_bytes w) then Some (got, drop n cs) else None.

Fixpoint first_match {A B} (f : A -> option B) (l : list A) : option B :=
  match l with
  | [] => None
  | a :: l => match f a with Some b => Some b | None => first_match f l end
  end.

(** [(error|fatal|panic|warn(?:ing)?|info|debug|trace)] *)
Definition level_words : list string :=
  ["error"; "fatal"; "panic"; "warning"; "warn"; "info"; "debug"; "trace"].

(** [(?i)^\s*\[(LEVEL)\](?:\s|$)]: the captured level. *)
Definition bracket_level (cs : list bytes) : option bytes :=
  match (span is_space cs).2 with
  | c :: cs =>
      if is_char "[" c then
        first_match (fun w =>
          match match_word w cs with
          | Some (got, c :: rest) =>
              if is_char "]" c && match rest with [] => true | d :: _ => is_space d end
              then Some got else None
          | _ => None
          end) level_words
      else None
  | [] => None
  end.

Section patterns.
(** [\d] on a character that is not ASCII. *)
Context (unicode_digit : bytes -> bool).

Definition is_digit (c : bytes) : bool :=
  match c with [a] => is_ascii_digit a | _ => unicode_digit c end.

(** [\d{n}] followed by the rest of the pattern. *)
Fixpoint digits (n : nat) (cs : list bytes) : option (list bytes) :=
  match n, cs with
  | O, _ => Some cs
  | S n, c :: cs => if is_digit c then digits n cs else None
  | S _, [] => None
  end.

Definition one_char (p : bytes -> bool) (cs : list bytes) : option (list bytes) :=
  match cs with c :: cs => if p c then Some cs else None | [] => None end.

(** A run of at least one character of a class. *)
Definition some_chars (p : bytes -> bool) (cs : list bytes) : option (list bytes) :=
  match span p cs with ([], _) => None | (_, rest) => Some rest end.

(** [\d{4}-\d{2}-\d{2}T\S+\s+] *)
Definition match_timestamp (cs : list bytes) : option (list bytes) :=
  cs ← digits 4 cs; cs ← one_char (is_char "-") cs;
  cs ← digits 2 cs; cs ← one_char (is_char "-") cs;
  cs ← digits 2 cs; cs ← one_char (fun c => is_char "T" c || is_char "t" c) cs;
  cs ← some_chars (fun c => negb (is_space c)) cs;
  some_chars is_space cs.

(** [(LEVEL)\b(?::|\s|$)]; the [\b] holds wherever what follows it matches. *)
Definition level_here (cs : list bytes) : option bytes :=
  first_match (fun w =>
    match match_word w cs with
    | Some (got, rest) =>
        if match rest with [] => true | d :: _ => is_char ":" d || is_space d end
        then Some got else None
    | None => None
    end) level_words.

(** [(?i)^\s*(?:TIMESTAMP)?(LEVEL)\b(?::|\s|$)]: the captured level. *)
Definition prefix_level (cs : list bytes) : option bytes :=
  let cs := (span is_space cs).2 in
  match (cs' ← match_timestamp cs; level_here cs') with
  | Some level => Some level
  | None => level_here cs
  end.

Definition detect_log_level_regex (content : string) : option string :=
  let cs := chars (to_bytes content) in
  match first_match (fun regex => regex cs) [bracket_level; prefix_level] with
  | Some level => normalize_plain_text_level (of_bytes level)
  | None => None
  end.

Definition detect_log_level (content : string) : string :=
  let fast_level := detect_log_level_fast content in
  if bool_decide (fast_level <> "info") then fast_level
  else default "info" (detect_log_level_regex content).
End patterns.

(** ** ANSI escapes *)

Definition ESC : ascii := ascii_of_nat 27.
Definition BEL : ascii := ascii_of_nat 7.

Definition csi_parameter (c : bytes) : bool :=
  match c with [a] => is_ascii_digit a || byte_in 59 59 a || byte_in 63 63 a | _ => false end.

Definition is_alpha (c : bytes) : bool :=
  match c with [a] => is_ascii_alphabetic a | _ => false end.

(** [[=>NOMDEHcZ78]] *)
Definition simple_escape (c : bytes) : bool :=
  existsb (fun a => is_char a c) (to_bytes "=>NOMDEHcZ78").

(** What follows an escape sequence whose [ESC] has been read, if it is one:
    [\[[0-9;?]*[A-Za-z]], [\][^\x07\x1b]*(?:\x07|\x1b\\)], [\([A-B]] or
    [[=>NOMDEHcZ78]]. *)
Definition escape_tail (cs : list bytes) : option (list bytes) :=
  match cs with
  | c :: cs =>
      if is_char "[" c then one_char is_alpha (span csi_parameter cs).2
      else if is_char "]" c then
        match (span (fun d => negb (is_char BEL d || is_char ESC d)) cs).2 with
        | d :: cs => if is_char BEL d then Some cs else one_char (is_char "\") cs
        | [] => None
        end
      else if is_char "(" c then one_char (fun d => is_char "A" d || is_char "B" d) cs
      else if simple_escape c then Some cs
      else None
  | [] => None
  end.

(** [ANSI_RE.replace_all(input, "")]: each turn removes a match or keeps a
    character. *)
Fixpoint remove_escapes (fuel : nat) (cs : list bytes) : list bytes :=
  match fuel, cs with
  | S fuel, c :: cs' =>
      match (if is_char ESC c then escape_tail cs' else None) with
      | Some rest => remove_escapes fuel rest
      | None => c :: remove_escapes fuel cs'
      end
  | _, _ => []
  end.

Definition strip_ansi (input : string) : string :=
  let cs := chars (to_bytes input) in of_bytes (concat (remove_escapes (length cs) cs)).

Definition contains_ansi (input : string) : bool := contains_byte ESC input.

Definition strip_ansi_if_needed (input : string) : string :=
  if contains_ansi input then strip_ansi input else input.

(** ** Encoding and parsing a line *)

Section lines.
Context `{Json} (unicode_digit : bytes -> bool).

(** The payload of a line: the object the content is, or a fresh one. *)
Definition payload (content : string) : Map :=
  match from_str content with
  | Some (Object map) =>
      if starts_with "{" (of_bytes (trim_start (to_bytes content))) then map
      else [("msg", String content)]
  | _ => [("msg", String content)]
  end.

(** [content.replace(quote, backslash quote)] *)
Definition escape_quotes (content : string) : string :=
  of_bytes (flat_map (fun c => if byte_in 34 34 c then ["\"%char; c] else [c]) (to_bytes content)).

Definition quoted (s : string) : string :=
  of_bytes [ascii_of_nat 34] +:+ s +:+ of_bytes [ascii_of_nat 34].

Definition encode_log_line (stream content timestamp : string) : string :=
  let content := of_bytes (trim_end_matches is_crlf (to_bytes content)) in
  let m := map_insert "time" (String timestamp) (payload content) in
  let m := map_insert "stream" (String stream) m in
  match to_string (Object m) with
  | Ok line => line
  | _ =>
      "{" +:+ quoted "time" +:+ ":" +:+ quoted timestamp +:+ ","
      +:+ quoted "stream" +:+ ":" +:+ quoted stream +:+ ","
      +:+ quoted "msg" +:+ ":" +:+ quoted (escape_quotes content) +:+ "}"
  end.

Definition parse_json_object (line : string) : option Map :=
  let trimmed := str_trim line in
  if negb (starts_with "{" trimmed) then None
  else match from_str trimmed with
       | Some (Object map) => Some map
       | _ => None
       end.

Definition normalize_numeric_level (level : Z) : option string :=
  if (level =? 10)%Z then Some "trace"
  else if (level =? 20)%Z then Some "debug"
  else if (level =? 30)%Z then Some "info"
  else if (level =? 40)%Z then Some "warn"
  else if (level =? 50)%Z || (level =? 60)%Z then Some "error"
  else None.

(** [parse::<i64>]: an optional sign and digits, in range. *)
Definition i64_digits (neg : bool) (s : bytes) : option Z :=
  if bool_decide (s = []) || negb (forallb is_ascii_digit s) then None else
  let n := foldl (fun acc c => acc * 10 + digit_value c)%Z 0%Z s in
  let n := if neg then (- n)%Z else n in
  if (- 2 ^ 63 <=? n)%Z && (n <=? 2 ^ 63 - 1)%Z then Some n else None.

Definition parse_i64 (s : string) : option Z :=
  match to_bytes s with
  | "-"%char :: r => i64_digits true r
  | "+"%char :: r => i64_digits false r
  | r => i64_digits false r
  end.

Definition normalize_level_token (token : string) : option string :=
  let lower := str_to_ascii_lowercase (str_trim token) in
  if bool_decide (lower = "") then None else
  match parse_i64 lower with
  | Some num => normalize_numeric_level num
  | None =>
      if bool_decide (lower ∈ ["warning"; "warn"]) then Some "warn"
      else if bool_decide (lower ∈ ["error"; "err"; "fatal"; "panic"]) then Some "error"
      else if bool_decide (lower = "trace") then Some "trace"
      else if bool_decide (lower = "debug") then Some "debug"
      else if bool_decide (lower ∈ ["info"; "information"]) then Some "info"
      else Some lower
  end.

Definition normalize_level_value (value : Value) : option string :=
  match value with
  | Number n => x ← as_i64 n; normalize_numeric_level x
  | String s => normalize_level_token s
  | _ => None
  end.

(** [str::find] of one byte, and the text before and after it. *)
Definition split_at_byte (c : ascii) (s : bytes) : option (bytes * bytes) :=
  n ← find_byte (Ascii.eqb c) s; Some (take n s, drop (S n) s).

Definition extract_bracket_timestamp (line : string) : option string :=
  rest ← strip_prefix ["["%char] (to_bytes line);
  '(ts, _) ← split_at_byte "]" rest;
  Some (of_bytes ts).

Definition extract_bracket_content (line : string) : option (string * string) :=
  rest ← strip_prefix ["["%char] (to_bytes line);
  '(_, after_ts) ← split_at_byte "]" rest;
  rest2 ← strip_prefix ["["%char] (trim_start after_ts);
  '(stream, content) ← split_at_byte "]" rest2;
  Some (of_bytes stream, of_bytes (trim_start content)).

Definition time_fields : list string := ["time"; "ts"; "timestamp"].

Definition find_string (fields : list string) (map : Map) : option string :=
  first_match (fun field => v ← map_get field map; value_as_string v) fields.

Definition orelse {A} (a b : option A) : option A :=
  match a with Some _ => a | None => b end.

(** The stream of an object: [map.get("stream")], unless it is empty. *)
Definition object_stream (map : Map) : string :=
  match (v ← map_get "stream" map; value_as_string v) with
  | Some value => if bool_decide (value = "") then "stdout" else value
  | None => "stdout"
  end.

Definition object_message (map : Map) (line : string) : string :=
  default line (v ← orelse (map_get "msg" map) (map_get "message" map); value_as_string v).

(** Text on stderr without a level of its own is a warning. *)
Definition text_level (stream message : string) : string :=
  let detected := detect_log_level unicode_digit message in
  if bool_decide (detected = "info") && bool_decide (stream = "stderr") then "warn"
  else detected.

Definition object_level (map : Map) : string :=
  match (v ← orelse (map_get "level" map) (map_get "severity" map); normalize_level_value v) with
  | Some level => level
  | None =>
      let msg := default "" (v ← map_get "msg" map; as_str v) in
      let stream := default "stdout" (v ← map_get "stream" map; as_str v) in
      text_level stream msg
  end.

Record ParsedLogLine := mkParsed {
  pl_timestamp : option string;
  pl_stream : string;
  pl_message : string;
  pl_level : string;
  pl_json : option Map;
}.

Definition parse_log_line (line : string) : ParsedLogLine :=
  match parse_json_object line with
  | Some map =>
      mkParsed (find_string time_fields map) (object_stream map) (object_message map line)
        (object_level map) (Some map)
  | None =>
      let timestamp := extract_bracket_timestamp line in
      let '(stream, message) := default ("stdout", line) (extract_bracket_content line) in
      mkParsed timestamp stream message (text_level stream message) None
  end.

Definition extract_timestamp_str (line : string) : option string :=
  match (m ← parse_json_object line; find_string time_fields m) with
  | Some ts => Some ts
  | None => extract_bracket_timestamp line
  end.

(** [parse] is [OffsetDateTime::parse] and [unix_timestamp_nanos]. *)
Definition parse_timestamp_nanos (parse : string -> option Z) (ts : string) : option Z :=
  nanos ← parse ts;
  if (- 2 ^ 63 <=? nanos)%Z && (nanos <=? 2 ^ 63 - 1)%Z then Some nanos else None.

Definition extract_log_content (line : string) : string * string :=
  match parse_json_object line with
  | Some map => (object_stream map, object_message map line)
  | None => default ("stdout", line) (extract_bracket_content line)
  end.

Definition classify_line_level (line : string) : string :=
  match parse_json_object line with
  | Some map => object_level map
  | None => let '(stream, content) := extract_log_content line in text_level stream content
  end.
End lines.

(** ** Health-check lines *)

Definition boundary_ok (b : option ascii) : bool :=
  match b with
  | None => true
  | Some b => byte_in 32 32 b || byte_in 63 63 b || byte_in 47 47 b
              || byte_in 34 34 b || byte_in 39 39 b
  end.

(** The loop over the occurrences; [offset] grows on each turn. *)
Fixpoint request_loop (fuel : nat) (message needle : bytes) (offset : nat) : bool :=
  match fuel with
  | O => false
  | S fuel =>
      match find_sub needle (drop offset message) with
      | Some found =>
          let start := (offset + found)%nat in
          boundary_ok (message !! (start + length needle)%nat)
          || request_loop fuel message needle (S start)
      | None => false
      end
  end.

Definition contains_request_for_endpoint (message_lower method endpoint : string) : bool :=
  let message := to_bytes message_lower in
  request_loop (S (length message)) message (to_bytes (method +:+ " " +:+ endpoint)) 0.

Definition METHODS : list string := ["get"; "head"; "options"].
Definition ENDPOINTS : list string :=
  ["/health"; "/api/health"; "/healthz"; "/livez"; "/readyz"; "/liveness"; "/readiness"].

Definition is_health_check_message (message : string) : bool :=
  let lower := str_to_ascii_lowercase message in
  contains_sub "kube-probe" lower || contains_sub "liveness probe" lower
  || contains_sub "readiness probe" lower || contains_sub "startup probe" lower
  || existsb (fun method =>
       existsb (fun endpoint => contains_request_for_endpoint lower method endpoint) ENDPOINTS)
       METHODS.

Definition is_health_check_line `{Json} (line : string) : bool :=
  is_health_check_message (extract_log_content line).2.

(** ** Lemmas *)

(** *** Occurrences of a text *)

Lemma find_sub_Some p s n :
  find_sub p s = Some n ->
  (exists r, drop n s = p ++ r) /\ n <= length s /\
  forall m, m < n -> forall r, drop m s <> p ++ r.
Proof.
  revert n. induction s as [|c s IH]; intros n; cbn [find_sub];
    destruct (strip_prefix p _) as [r|] eqn:E; try done.
  - intros [= <-]. apply strip_prefix_Some in E. rewrite drop_0.
    split_and!; [eauto|lia|intros m Hm; lia].
  - intros [= <-]. apply strip_prefix_Some in E. rewrite drop_0.
    split_and!; [eauto|lia|intros m Hm; lia].
  - destruct (find_sub p s) as [k|]; [|done]. intros [= <-].
    destruct (IH k eq_refl) as (Hd & Hl & Hm). split_and!; [done|simpl; lia|].
    intros [|m] Hlt r Hr.
    + rewrite drop_0 in Hr. apply strip_prefix_Some in Hr. congruence.
    + apply (Hm m ltac:(lia) r). done.
Qed.

Lemma find_sub_None p s : find_sub p s = None -> forall m r, drop m s <> p ++ r.
Proof.
  induction s as [|c s IH]; cbn [find_sub]; destruct (strip_prefix p _) as [r|] eqn:E; try done.
  - intros _ m r Hr. rewrite drop_nil in Hr. apply strip_prefix_Some in Hr. congruence.
  - destruct (find_sub p s) as [k|]; [done|]. intros _ [|m] r Hr.
    + rewrite drop_0 in Hr. apply strip_prefix_Some in Hr. congruence.
    + by apply (IH eq_refl m r).
Qed.

(** The request loop stops by itself and sees every occurrence. *)
Lemma request_loop_spec fuel message needle offset :
  needle <> [] -> length message < fuel + offset ->
  request_loop fuel message needle offset = true <->
  exists at_, offset <= at_ /\ (exists r, drop at_ message = needle ++ r) /\
    boundary_ok (message !! (at_ + length needle)%nat) = true.
Proof.
  intros Hn. revert offset. induction fuel as [|fuel IH]; intros offset Hf; cbn [request_loop].
  { split; [done|]. intros (a & Ha & [r Hr] & _).
    rewrite drop_ge in Hr by lia. destruct needle; done. }
  destruct (find_sub needle (drop offset message)) as [found|] eqn:E.
  - apply find_sub_Some in E as ([r Hr] & Hl & Hmin). rewrite drop_drop in Hr.
    rewrite orb_true_iff, IH by lia. split.
    + intros [Hb|(a & Ha & Hx)]; [exists (offset + found)%nat; split_and!; eauto; lia|].
      exists a. split; [lia|done].
    + intros (a & Ha & [r' Hr'] & Hb).
      destruct (decide (a = (offset + found)%nat)) as [->|Hne]; [by left|right].
      exists a. split_and!; eauto.
      destruct (decide (a < offset + found)%nat); [|lia]. exfalso.
      apply (Hmin (a - offset)%nat ltac:(lia) r'). rewrite drop_drop.
      by replace (offset + (a - offset))%nat with a by lia.
  - split; [done|]. intros (a & Ha & [r Hr] & _). exfalso.
    apply (find_sub_None _ _ E (a - offset)%nat r). rewrite drop_drop.
    by replace (offset + (a - offset))%nat with a by lia.
Qed.

(** *** Words *)

Definition free_end (a : bytes) : Prop := from_option is_word_char false (last a) = false.
Definition free_start (b : bytes) : Prop := from_option is_word_char false (head b) = false.

(** The word [w] stands alone in [s], in any case. *)
Definition occurs_word (w s : bytes) : Prop :=
  exists a m b, s = a ++ m ++ b /\ eq_ignore_ascii_case m w = true /\ free_end a /\ free_start b.

Lemma eq_ignore_length a b : eq_ignore_ascii_case a b = true -> length a = length b.
Proof.
  unfold eq_ignore_ascii_case. intros H%bool_decide_eq_true.
  apply (f_equal length) in H. by rewrite !length_fmap in H.
Qed.

Lemma boundaries_spec (a m b : bytes) :
  has_word_boundaries (a ++ m ++ b) (length a) (length a + length m) = true <->
  free_end a /\ free_start b.
Proof.
  unfold has_word_boundaries, free_end, free_start. rewrite andb_true_iff.
  assert ((length a =? 0)%nat
    || negb (from_option is_word_char false ((a ++ m ++ b) !! (length a - 1)%nat)) = true
    <-> from_option is_word_char false (last a) = false) as ->.
  { destruct a as [|c a] using rev_ind; [done|]. clear IHa.
    rewrite last_snoc, length_app. cbn [length]. rewrite <- app_assoc, lookup_app_r by lia.
    replace (length a + 1 - 1 - length a)%nat with 0%nat by lia. simpl.
    destruct (Nat.eqb_spec (length a + 1) 0); [lia|]. simpl. by destruct (is_word_char c). }
  assert ((length a + length m =? length (a ++ m ++ b))%nat
    || negb (from_option is_word_char false ((a ++ m ++ b) !! (length a + length m)%nat)) = true
    <-> from_option is_word_char false (head b) = false) as ->; [|done].
  rewrite !length_app, lookup_app_r by lia.
  replace (length a + length m - length a)%nat with (length m) by lia.
  rewrite lookup_app_r, Nat.sub_diag by lia. destruct b as [|c b]; simpl.
  - by rewrite Nat.add_0_r, Nat.eqb_refl.
  - destruct (Nat.eqb_spec (length a + length m) (length a + (length m + S (length b)))); [lia|].
    simpl. by destruct (is_word_char c).
Qed.

Lemma contains_keyword_spec s w :
  contains_keyword_case_insensitive s w = true <-> occurs_word w s.
Proof.
  unfold contains_keyword_case_insensitive, occurs_word. split.
  - destruct (Nat.ltb_spec (length s) (length w)); [done|].
    intros (st & Hin & [Heq Hb]%andb_prop)%existsb_exists.
    apply in_seq in Hin. unfold slice in Heq.
    replace (st + length w - st)%nat with (length w) in Heq by lia.
    exists (take st s), (take (length w) (drop st s)), (drop (length w) (drop st s)).
    assert (s = take st s ++ take (length w) (drop st s) ++ drop (length w) (drop st s)) as Hs
      by (by rewrite take_drop, take_drop).
    split_and!; [done|done|..];
      rewrite Hs in Hb; revert Hb;
      pose proof (boundaries_spec (take st s) (take (length w) (drop st s))
        (drop (length w) (drop st s))) as Hbs;
      rewrite !length_take, length_drop, !Nat.min_l in Hbs by lia; rewrite Hbs; tauto.
  - intros (a & m & b & -> & Heq & Ha & Hb). pose proof (eq_ignore_length _ _ Heq) as Hl.
    rewrite !length_app. destruct (Nat.ltb_spec (length a + (length m + length b)) (length w)); [lia|].
    apply existsb_exists. exists (length a). split; [apply in_seq; lia|].
    rewrite <- Hl. apply andb_true_iff. split; [|by apply boundaries_spec].
    unfold slice. replace (length a + length m - length a)%nat with (length m) by lia.
    by rewrite drop_app_length, take_app_length.
Qed.

(** *** Characters and patterns *)

Lemma concat_chars s : concat (chars s) = s.
Proof. apply concat_chunks. Qed.

Lemma span_spec {A} (p : A -> bool) l :
  l = (span p l).1 ++ (span p l).2 /\ forallb p (span p l).1 = true /\
  match (span p l).2 with [] => True | c :: _ => p c = false end.
Proof.
  induction l as [|c l IH]; [done|]. simpl. destruct (p c) eqn:Hc; [|done].
  destruct (span p l) as [a b]. simpl in *. destruct IH as (-> & Ha & Hb).
  by rewrite Hc, Ha.
Qed.

Lemma is_char_true a c : is_char a c = true <-> c = [a].
Proof. apply bool_decide_eq_true. Qed.

Lemma first_match_Some {A B} (f : A -> option B) l b :
  first_match f l = Some b -> exists a, a ∈ l /\ f a = Some b.
Proof.
  induction l as [|a l IH]; simpl; [done|]. destruct (f a) eqn:E.
  - intros [= ->]. exists a. split; [left|done].
  - intros (a' & ? & ?)%IH. exists a'. split; [by right|done].
Qed.

Lemma match_word_Some w cs got rest :
  match_word w cs = Some (got, rest) ->
  concat cs = got ++ concat rest /\ eq_ignore_ascii_case got (to_bytes w) = true.
Proof.
  unfold match_word. destruct (eq_ignore_ascii_case _ _) eqn:E; [|done].
  intros [= <- <-]. split; [|done]. by rewrite <- concat_app, take_drop.
Qed.

(** White space never touches a word. *)
Lemma is_space_free c : is_space c = true -> free_start c /\ free_end c.
Proof.
  assert (forall lo hi a, byte_in lo hi a = true -> (127 < lo \/ hi < 48)%nat -> is_word_char a = false)
    as Hb.
  { intros lo hi a. unfold is_word_char, is_ascii_alphanumeric, is_ascii_alphabetic,
      is_ascii_upper, is_ascii_lower, is_ascii_digit, byte_in.
    intros [H1%Nat.leb_le H2%Nat.leb_le]%andb_prop Hr.
    rewrite !orb_false_iff, !andb_false_iff, !Nat.leb_gt. lia. }
  destruct c as [|a [|b [|d [|]]]]; simpl; try done; unfold free_start, free_end; simpl.
  - unfold ws1. intros [H|H]%orb_prop; split; eapply Hb; eauto; lia.
  - unfold ws2. intros [H1 [H|H]%orb_prop]%andb_prop; split; eapply Hb; eauto; lia.
  - unfold ws3. intros H. rewrite !orb_true_iff, !andb_true_iff, !orb_true_iff in H.
    destruct H as [[[[[H1 H2] H3]|[[H1 H2] [[H3|H3]|H3]]]|[[H1 H2] H3]]|[[H1 H2] H3]];
      split; eapply Hb; eauto; lia.
Qed.

Lemma spaces_end pre l :
  forallb is_space l = true -> l <> [] -> free_end (pre ++ concat l).
Proof.
  intros H Hl. destruct l as [|c l] using rev_ind; [done|]. clear IHl Hl.
  rewrite forallb_app in H. apply andb_prop in H as [_ H]. simpl in H. rewrite andb_true_r in H.
  rewrite concat_app. simpl. rewrite app_nil_r, app_assoc.
  destruct (is_space_free _ H) as [_ He].
  unfold free_end in *. destruct c as [|a c]; [done|]. rewrite last_app.
  destruct (last (a :: c)) eqn:E; [done|]. by apply last_None in E.
Qed.

Lemma spaces_free_end l : forallb is_space l = true -> free_end (concat l).
Proof. destruct l as [|c l]; [done|]. intros H. by apply (spaces_end [] (c :: l)). Qed.

(** A captured level stands alone in the text. *)
Definition level_at (cs : list bytes) (got : bytes) : Prop :=
  exists w a b, w ∈ level_words /\ concat cs = a ++ got ++ b /\
    eq_ignore_ascii_case got (to_bytes w) = true /\ free_end a /\ free_start b.

Lemma bracket_level_at cs got : bracket_level cs = Some got -> level_at cs got.
Proof.
  unfold bracket_level. pose proof (span_spec is_space cs) as (Hcs & _ & _).
  destruct (span is_space cs) as [sp cs']. cbn [fst snd] in *.
  destruct cs' as [|c cs']; [done|]. destruct (is_char "[" c) eqn:Hc; [|done].
  apply is_char_true in Hc as ->. intros (w & Hw & H)%first_match_Some.
  destruct (match_word w cs') as [[g [|d rest]]|] eqn:E; try done.
  destruct (is_char "]" d) eqn:Hd; [|done]. apply is_char_true in Hd as ->.
  destruct (match rest with [] => true | d :: _ => is_space d end); [|done]. injection H as ->.
  apply match_word_Some in E as [Hconc Heq].
  exists w, (concat sp ++ ["["%char]), (concat (["]"%char] :: rest)).
  rewrite Hcs, concat_app. simpl. rewrite Hconc, <- app_assoc. split_and!; try done.
  unfold free_end. by rewrite last_snoc.
Qed.

Lemma level_here_at pre cs got :
  free_end (concat pre) -> level_here cs = Some got -> level_at (pre ++ cs) got.
Proof.
  intros Hpre. unfold level_here. intros (w & Hw & H)%first_match_Some.
  destruct (match_word w cs) as [[g rest]|] eqn:E; [|done].
  apply match_word_Some in E as [Hconc Heq].
  destruct rest as [|d rest].
  - injection H as ->. exists w, (concat pre), []. rewrite concat_app, Hconc. done.
  - destruct (is_char ":" d || is_space d) eqn:Hd; [|done]. injection H as ->.
    exists w, (concat pre), (concat (d :: rest)). rewrite concat_app, Hconc.
    split_and!; try done. apply orb_prop in Hd as [->%is_char_true|Hd]; [done|].
    destruct d as [|x d]; [done|]. by apply is_space_free in Hd as [Hs _].
Qed.

Section pattern_lemmas.
Context (ud : bytes -> bool).

Lemma digits_rest n a b : digits ud n a = Some b -> exists p, a = p ++ b.
Proof.
  revert a. induction n as [|n IH]; intros a; [intros [= ->]; by exists []|].
  destruct a as [|c a]; [done|]. simpl. destruct (is_digit ud c); [|done].
  intros (p & ->)%IH. by exists (c :: p).
Qed.

Lemma one_char_rest p a b : one_char p a = Some b -> exists c, a = c :: b /\ p c = true.
Proof.
  destruct a as [|c a]; [done|]. simpl. destruct (p c) eqn:E; [|done]. intros [= ->]. eauto.
Qed.

Lemma some_chars_rest p a b :
  some_chars p a = Some b -> exists q, a = q ++ b /\ forallb p q = true /\ q <> [].
Proof.
  unfold some_chars. pose proof (span_spec p a) as (Ha & Hq & _).
  destruct (span p a) as [[|q0 q] b'] eqn:Eb; [done|]. intros [= ->]. by exists (q0 :: q).
Qed.

Lemma match_timestamp_rest a rest :
  match_timestamp ud a = Some rest ->
  exists pre l, a = pre ++ l ++ rest /\ forallb is_space l = true /\ l <> [].
Proof.
  unfold match_timestamp. intros H. repeat (apply bind_Some in H as (? & ? & H)).
  apply some_chars_rest in H as (l & -> & Hl & Hne).
  repeat match goal with
  | H : digits _ _ _ = Some _ |- _ => apply digits_rest in H as [? ->]
  | H : one_char _ _ = Some _ |- _ => apply one_char_rest in H as (? & -> & _)
  | H : some_chars _ _ = Some _ |- _ => apply some_chars_rest in H as (? & -> & _)
  end.
  match goal with |- exists pre l', ?a = _ /\ _ => assert (l ++ rest `suffix_of` a) as [pre ->] end.
  { repeat first [reflexivity | apply suffix_app_r | apply suffix_cons_r]. }
  by exists pre, l.
Qed.

Lemma prefix_level_at cs got : prefix_level ud cs = Some got -> level_at cs got.
Proof.
  unfold prefix_level. pose proof (span_spec is_space cs) as (Hcs & Hsp & _).
  destruct (span is_space cs) as [sp cs']. cbn [fst snd] in *. rewrite Hcs.
  destruct (cs'' ← match_timestamp ud cs'; level_here cs'') as [level|] eqn:E.
  - intros [= <-]. apply bind_Some in E as (rest & Ht & Hl).
    apply match_timestamp_rest in Ht as (pre & l & -> & Hspl & Hne).
    rewrite !app_assoc. apply level_here_at; [|done].
    rewrite concat_app. by apply spaces_end.
  - intros Hl. apply level_here_at; [by apply spaces_free_end|done].
Qed.

Lemma detect_regex_level content level :
  detect_log_level_regex ud content = Some level ->
  exists w got, occurs_word (to_bytes w) (to_bytes content) /\ w ∈ level_words /\
    eq_ignore_ascii_case got (to_bytes w) = true /\
    normalize_plain_text_level (of_bytes got) = Some level.
Proof.
  unfold detect_log_level_regex.
  destruct (first_match _ _) as [got|] eqn:E; [|done]. intros Hn.
  assert (level_at (chars (to_bytes content)) got) as (w & a & b & Hw & Hc & Heq & Ha & Hb).
  { apply first_match_Some in E as (regex & Hin & Hr).
    apply elem_of_cons in Hin as [->|Hin]; [by apply bracket_level_at|].
    apply list_elem_of_singleton in Hin as ->. by apply prefix_level_at. }
  rewrite concat_chars in Hc. exists w, got. split_and!; try done. by exists a, got, b.
Qed.
End pattern_lemmas.

Lemma eq_ignore_trans a b c :
  eq_ignore_ascii_case a b = true -> eq_ignore_ascii_case a c = eq_ignore_ascii_case b c.
Proof. unfold eq_ignore_ascii_case. by intros ->%bool_decide_eq_true. Qed.

(** The level a keyword of the patterns stands for. *)
Lemma normalize_word w got :
  w ∈ level_words -> eq_ignore_ascii_case got (to_bytes w) = true ->
  normalize_plain_text_level (of_bytes got) =
    Some (if bool_decide (w ∈ ["error"; "fatal"; "panic"]) then "error"
          else if bool_decide (w ∈ ["warning"; "warn"]) then "warn" else w).
Proof.
  intros Hw Heq. unfold normalize_plain_text_level, str_eq_ignore_case.
  rewrite to_of_bytes, !(eq_ignore_trans _ _ _ Heq).
  repeat (apply elem_of_cons in Hw as [->|Hw]; [by vm_compute|]). by apply elem_of_nil in Hw.
Qed.

Definition error_words : list string := ["error"; "fatal"; "panic"; "exception"; "traceback"].
Definition warn_words : list string := ["warn"; "warning"].

(** One of the words stands alone in the text. *)
Definition has_word (words : list string) (content : string) : Prop :=
  exists w, w ∈ words /\ occurs_word (to_bytes w) (to_bytes content).

Lemma detect_fast content :
  let level := detect_log_level_fast content in
  (level = "error" /\ has_word error_words content) \/
  (level = "warn" /\ ~ has_word error_words content /\ has_word warn_words content) \/
  (level = "info" /\ ~ has_word error_words content /\ ~ has_word warn_words content).
Proof.
  assert (forall words,
    existsb (fun w => contains_keyword_case_insensitive (to_bytes content) (to_bytes w)) words = true
    <-> has_word words content) as Hw.
  { intros words. rewrite existsb_exists. unfold has_word.
    setoid_rewrite contains_keyword_spec. by setoid_rewrite list_elem_of_In. }
  pose proof (Hw error_words) as He. pose proof (Hw warn_words) as Hv. simpl in He, Hv.
  unfold detect_log_level_fast. rewrite !orb_false_r, !orb_assoc in *. cbv zeta.
  destruct (_ || _ || _ || _ || _); [left; split; [done|by apply He]|right].
  assert (~ has_word error_words content) by (intros ?%He; done).
  destruct (_ || _); [left|right]; split_and!; try done; [by apply Hv|by intros ?%Hv].
Qed.

(** The level of a text. It is [error], or else [warn], exactly when one of the
    words of that level stands alone somewhere in it, in any case; otherwise it
    is [info], or the word [debug] or [trace], which then stands alone in it. The
    patterns never find an error or a warning that the search for words missed. *)
Theorem detect_log_level_spec (unicode_digit : bytes -> bool) (content : string) :
  let level := detect_log_level unicode_digit content in
  (level = "error" <-> has_word error_words content) /\
  (level = "warn" <-> ~ has_word error_words content /\ has_word warn_words content) /\
  (~ has_word error_words content -> ~ has_word warn_words content ->
   level = "info" \/ (level = "debug" \/ level = "trace") /\ has_word [level] content).
Proof.
  cbv zeta. unfold detect_log_level. cbv zeta.
  destruct (detect_fast content) as [[-> He]|[(-> & He & Hw)|(-> & He & Hw)]]; simpl;
    [by split_and!; [split|split; [|intros [? _]]|]|by split_and!; [split; [|intros ?]|split|]|].
  destruct (detect_log_level_regex unicode_digit content) as [level|] eqn:E; simpl;
    [|by split_and!; [split|split; [|intros [_ ?]]|left]].
  apply detect_regex_level in E as (w & got & Ho & Hin & Heq & Hn).
  rewrite (normalize_word w got Hin Heq) in Hn. injection Hn as <-.
  assert (forall words, w ∈ words -> has_word words content) as Hh by (by exists w).
  destruct (decide (w ∈ error_words)) as [Hx|Hx]; [by destruct (He (Hh _ Hx))|].
  destruct (decide (w ∈ warn_words)) as [Hy|Hy]; [by destruct (Hw (Hh _ Hy))|].
  assert (w ∈ ["info"; "debug"; "trace"]) as Hz by set_solver.
  rewrite !bool_decide_eq_false_2 by set_solver.
  split_and!; [split; [|done]|split; [|by intros [_ ?]]|]; [set_solver..|].
  intros _ _. apply elem_of_cons in Hz as [->|Hz]; [by left|right].
  split; [set_solver|]. apply Hh. set_solver.
Qed.

(** *** Lines *)

Lemma trim_start_bracket c s : byte_in 33 127 c = true -> trim_start (c :: s) = c :: s.
Proof.
  unfold byte_in. intros [H1%Nat.leb_le H2%Nat.leb_le]%andb_prop.
  assert (forall lo hi, (hi < 33 \/ 127 < lo)%nat -> byte_in lo hi c = false) as Hb.
  { intros lo hi Hr. unfold byte_in. rewrite andb_false_iff, !Nat.leb_gt. lia. }
  assert (ws1 c = false) as H3 by (unfold ws1; by rewrite !Hb by lia).
  assert (forall b, ws2 c b = false) as H4 by (intros; unfold ws2; by rewrite !Hb by lia).
  assert (forall a b, ws3 c a b = false) as H5 by (intros; unfold ws3; by rewrite !Hb by lia).
  destruct s as [|b [|d s]]; cbn [trim_start]; by rewrite H3, ?H4, ?H5.
Qed.

Lemma trim_rev_keeps c l :
  byte_in 33 127 c = true -> exists l', trim_start_rev (l ++ [c]) = l' ++ [c].
Proof.
  intros Hc. assert (forall lo hi, (hi < 33 \/ 127 < lo)%nat -> byte_in lo hi c = false) as Hb.
  { unfold byte_in in *. apply andb_prop in Hc as [H1%Nat.leb_le H2%Nat.leb_le].
    intros lo hi Hr. rewrite andb_false_iff, !Nat.leb_gt. lia. }
  assert (ws1 c = false) as H3 by (unfold ws1; by rewrite !Hb by lia).
  assert (forall b, ws2 c b = false) as H4 by (intros; unfold ws2; by rewrite !Hb by lia).
  assert (forall a b, ws3 c a b = false) as H5 by (intros; unfold ws3; by rewrite !Hb by lia).
  assert (length l <= length l) as Hf by lia. revert Hf. generalize (length l) at 2 as n.
  intros n. revert l. induction n as [|n IH]; intros l Hl.
  { destruct l; [|simpl in Hl; lia]. exists []. simpl. by rewrite H3. }
  destruct l as [|a l]; [exists []; simpl; by rewrite H3|]. cbn [app trim_start_rev].
  simpl in Hl. destruct (ws1 a); [apply IH; lia|].
  destruct l as [|b l]; cbn [app]; [rewrite H4; by exists [a]|].
  destruct (ws2 b a); [apply IH; simpl in Hl; lia|].
  destruct l as [|d l]; cbn [app]; [rewrite H5; by exists [a; b]|].
  destruct (ws3 d b a); [apply IH; simpl in Hl; lia|]. by exists (a :: b :: d :: l).
Qed.

(** Trimming keeps the first character of a text that starts with a visible one. *)
Lemma trim_visible c s : byte_in 33 127 c = true -> exists r, trim (c :: s) = c :: r.
Proof.
  intros Hc. unfold trim, trim_end. rewrite trim_start_bracket by done.
  rewrite reverse_cons. destruct (trim_rev_keeps c (reverse s) Hc) as [l' ->].
  rewrite reverse_snoc. eauto.
Qed.

Section line_lemmas.
Context `{Json} (unicode_digit : bytes -> bool).

(** A line that is an object does not start with a bracket. *)
Lemma object_no_bracket line m :
  parse_json_object line = Some m -> extract_bracket_timestamp line = None.
Proof.
  unfold parse_json_object, extract_bracket_timestamp, str_trim.
  destruct (to_bytes line) as [|c s]; [done|]. cbn [strip_prefix].
  destruct (Ascii.eqb_spec "[" c) as [<-|]; [|done].
  destruct (trim_visible "["%char s eq_refl) as [r ->]. by unfold starts_with; rewrite to_of_bytes.
Qed.

(** One pass over a line gives what the separate extractors give: the time
    stamp of [extract_timestamp_str], the stream and message of
    [extract_log_content], the level of [classify_line_level]. *)
Theorem parse_log_line_parts (line : string) :
  parse_log_line unicode_digit line =
    mkParsed (extract_timestamp_str line) (extract_log_content line).1
      (extract_log_content line).2 (classify_line_level unicode_digit line)
      (parse_json_object line).
Proof.
  unfold parse_log_line, extract_timestamp_str, classify_line_level, extract_log_content.
  destruct (parse_json_object line) as [map|] eqn:E; simpl.
  - rewrite (object_no_bracket _ _ E). by destruct (find_string time_fields map).
  - by destruct (default _ _).
Qed.

(** The printer writes the object in braces and the parser reads it back. *)
Definition round_trips (m : Map) : Prop :=
  exists body, to_string (Object m) = Ok ("{" +:+ body +:+ "}") /\
    from_str ("{" +:+ body +:+ "}") = Some (Object m).

(** The object [encode_log_line] writes. *)
Definition encoded (stream text timestamp : string) : Map :=
  map_insert "stream" (String stream) (map_insert "time" (String timestamp) (payload text)).

Lemma parse_object_line body m :
  from_str ("{" +:+ body +:+ "}") = Some (Object m) ->
  parse_json_object ("{" +:+ body +:+ "}") = Some m.
Proof.
  intros Hf. unfold parse_json_object, str_trim. rewrite !to_bytes_app. cbn [to_bytes app].
  rewrite trim_braces. change ("{"%char :: to_bytes body ++ ["}"%char])
    with (to_bytes "{" ++ to_bytes body ++ to_bytes "}").
  rewrite <- !to_bytes_app, of_to_bytes. by rewrite Hf.
Qed.

(** The line that is written is the object of the payload with its time and stream. *)
Lemma encode_line_object (stream content timestamp : string) :
  let text := of_bytes (trim_end_matches is_crlf (to_bytes content)) in
  let m := encoded stream text timestamp in
  round_trips m ->
  to_string (Object m) = Ok (encode_log_line stream content timestamp) /\
  parse_json_object (encode_log_line stream content timestamp) = Some m.
Proof.
  cbv zeta. set (text := of_bytes _). set (m := encoded stream text timestamp).
  intros (body & Hp & Hf).
  assert (encode_log_line stream content timestamp = "{" +:+ body +:+ "}") as ->.
  { unfold encode_log_line. fold text. cbv zeta. change (map_insert "stream" _ _) with m.
    by rewrite Hp. }
  split; [done|]. by apply parse_object_line.
Qed.

Lemma encoded_get stream text timestamp k :
  map_get k (encoded stream text timestamp)
  = if bool_decide ("stream" = k) then Some (String stream)
    else if bool_decide ("time" = k) then Some (String timestamp) else map_get k (payload text).
Proof. unfold encoded. by rewrite !map_get_insert. Qed.

(** What the shim writes is what the readers see. If the printed object reads
    back as it was, parsing the encoded line gives the time stamp, the stream and
    the object that were written, with the fields of the output untouched; plain
    text comes back as the message, with its level, a warning on stderr. *)
Theorem encode_parse_roundtrip (stream content timestamp : string) :
  let text := of_bytes (trim_end_matches is_crlf (to_bytes content)) in
  let m := encoded stream text timestamp in
  let p := parse_log_line unicode_digit (encode_log_line stream content timestamp) in
  round_trips m -> stream <> "" ->
  pl_timestamp p = Some timestamp /\ pl_stream p = stream /\ pl_json p = Some m /\
  (forall k, k <> "time" -> k <> "stream" -> map_get k m = map_get k (payload text)) /\
  ((forall o, from_str text <> Some (Object o)) ->
   pl_message p = text /\ pl_level p = text_level unicode_digit stream text).
Proof.
  cbv zeta. set (text := of_bytes _). set (m := encoded stream text timestamp).
  intros Hm Hs. destruct (encode_line_object _ _ _ Hm) as [_ Hobject].
  unfold parse_log_line. rewrite Hobject. clear Hm Hobject.
  pose proof (encoded_get stream text timestamp) as Hm. fold m in Hm. cbn [pl_timestamp pl_stream pl_json].
  split_and!; try done.
  - unfold find_string, time_fields. cbn [first_match]. by rewrite Hm.
  - unfold object_stream. rewrite Hm. simpl. by rewrite bool_decide_eq_false_2.
  - intros k H1 H2. by rewrite Hm, !bool_decide_eq_false_2 by congruence.
  - intros Hno. assert (payload text = [("msg", String text)]) as Hpay.
    { unfold payload. destruct (from_str text) as [[]|] eqn:E; try done. by destruct (Hno m0). }
    rewrite Hpay in Hm. simpl. unfold object_message, object_level.
    by rewrite !Hm; simpl.
Qed.
End line_lemmas.

(** *** Escapes *)

(** The escape sequences, as the pattern describes them. *)
Inductive escape : list bytes -> Prop :=
| escape_csi ps f : forallb csi_parameter ps = true -> is_alpha f = true ->
    escape ([ESC] :: ["["%char] :: ps ++ [f])
| escape_osc_bel ts : forallb (fun d => negb (is_char BEL d || is_char ESC d)) ts = true ->
    escape ([ESC] :: ["]"%char] :: ts ++ [[BEL]])
| escape_osc_st ts : forallb (fun d => negb (is_char BEL d || is_char ESC d)) ts = true ->
    escape ([ESC] :: ["]"%char] :: ts ++ [[ESC]; ["\"%char]])
| escape_charset f : f = "A"%char \/ f = "B"%char ->
    escape [[ESC]; ["("%char]; [f]]
| escape_simple c : simple_escape c = true -> escape [[ESC]; c].

(** From left to right: an escape sequence is dropped, a character at which no
    escape sequence starts is kept. *)
Inductive stripped : list bytes -> list bytes -> Prop :=
| stripped_nil : stripped [] []
| stripped_escape e cs out : escape e -> stripped cs out -> stripped (e ++ cs) out
| stripped_keep c cs out : (forall e rest, escape e -> c :: cs <> e ++ rest) ->
    stripped cs out -> stripped (c :: cs) (c :: out).

Lemma escape_tail_sound cs rest :
  escape_tail cs = Some rest -> exists t, cs = t ++ rest /\ escape ([ESC] :: t).
Proof.
  destruct cs as [|c cs]; [done|]. unfold escape_tail.
  destruct (is_char "[" c) eqn:H1; [|destruct (is_char "]" c) eqn:H2;
    [|destruct (is_char "(" c) eqn:H3; [|destruct (simple_escape c) eqn:H4; [|done]]]].
  - apply is_char_true in H1 as ->. pose proof (span_spec csi_parameter cs) as (Hcs & Hp & _).
    destruct (span csi_parameter cs) as [ps cs']. cbn [fst snd] in *. subst cs.
    intros (f & -> & Hf)%one_char_rest. exists (["["%char] :: ps ++ [f]).
    split; [by rewrite <- app_comm_cons, <- app_assoc|by constructor].
  - apply is_char_true in H2 as ->. set (p := fun d => _).
    pose proof (span_spec p cs) as (Hcs & Hp & Hd').
    destruct (span p cs) as [ts [|d cs']]; cbn [fst snd] in *; [done|]. subst cs.
    destruct (is_char BEL d) eqn:Hd.
    + apply is_char_true in Hd as ->. intros [= ->]. exists (["]"%char] :: ts ++ [[BEL]]).
      split; [by rewrite <- app_comm_cons, <- app_assoc|by apply escape_osc_bel].
    + intros (f & -> & ->%is_char_true)%one_char_rest.
      unfold p in Hd'. rewrite Hd, negb_false_iff in Hd'. apply is_char_true in Hd' as ->.
      exists (["]"%char] :: ts ++ [[ESC]; ["\"%char]]).
      split; [by rewrite <- app_comm_cons, <- app_assoc|by apply escape_osc_st].
  - apply is_char_true in H3 as ->. intros (f & -> & Hf)%one_char_rest.
    apply orb_prop in Hf as [->%is_char_true | ->%is_char_true];
      [exists [["("%char]; ["A"%char]]|exists [["("%char]; ["B"%char]]];
      (split; [done|constructor; auto]).
  - intros [= ->]. exists [c]. split; [done|by constructor].
Qed.

Lemma span_stop {A} (p : A -> bool) l c r :
  forallb p l = true -> p c = false -> span p (l ++ c :: r) = (l, c :: r).
Proof.
  intros Hl Hc. induction l as [|a l IH]; simpl in *; [by rewrite Hc|].
  apply andb_prop in Hl as [-> Hl]. by rewrite IH.
Qed.

Lemma alpha_no_parameter f : is_alpha f = true -> csi_parameter f = false.
Proof.
  destruct f as [|a [|]]; [done| |done]. simpl.
  unfold is_ascii_alphabetic, is_ascii_upper, is_ascii_lower, is_ascii_digit, byte_in.
  rewrite !orb_true_iff, !andb_true_iff, !orb_false_iff, !andb_false_iff, !Nat.leb_le, !Nat.leb_gt.
  lia.
Qed.

Lemma escape_tail_complete e rest :
  escape e -> exists t, e = [ESC] :: t /\ escape_tail (t ++ rest) = Some rest.
Proof.
  intros [ps f Hp Hf|ts Ht|ts Ht|f Hf|c Hc]; (eexists; split; [reflexivity|]);
    rewrite <- ?app_comm_cons, <- ?app_assoc, <- ?app_comm_cons, ?app_nil_l; unfold escape_tail.
  - rewrite span_stop by (done || by apply alpha_no_parameter). simpl. by rewrite Hf.
  - change (is_char "[" ["]"%char]) with false. cbv iota. by rewrite span_stop by done.
  - change (is_char "[" ["]"%char]) with false. cbv iota. by rewrite span_stop by done.
  - by destruct Hf as [-> | ->].
  - destruct (is_char "[" c) eqn:H1; [by apply is_char_true in H1 as ->|].
    destruct (is_char "]" c) eqn:H2; [by apply is_char_true in H2 as ->|].
    destruct (is_char "(" c) eqn:H3; [by apply is_char_true in H3 as ->|]. by rewrite Hc.
Qed.

Lemma remove_escapes_stripped fuel cs :
  length cs <= fuel -> stripped cs (remove_escapes fuel cs).
Proof.
  revert cs. induction fuel as [|fuel IH]; intros [|c cs] Hf; simpl in Hf; try lia;
    [constructor..|]. cbn [remove_escapes].
  destruct (is_char ESC c) eqn:Hc.
  - apply is_char_true in Hc as ->. destruct (escape_tail cs) as [rest|] eqn:E.
    + destruct (escape_tail_sound _ _ E) as (t & -> & He).
      change ([ESC] :: t ++ rest) with (([ESC] :: t) ++ rest).
      constructor; [done|]. apply IH. rewrite length_app in Hf. lia.
    + constructor; [|apply IH; lia]. intros e rest He Heq.
      destruct (escape_tail_complete e rest He) as (t & -> & Ht).
      assert (cs = t ++ rest) as -> by (by injection Heq). by rewrite Ht in E.
  - constructor; [|apply IH; lia]. intros e rest He Heq.
    destruct (escape_tail_complete e rest He) as (t & -> & Ht). injection Heq as -> _. done.
Qed.

Lemma remove_escapes_none fuel cs :
  length cs <= fuel -> forallb (fun c => negb (is_char ESC c)) cs = true ->
  remove_escapes fuel cs = cs.
Proof.
  revert cs. induction fuel as [|fuel IH]; intros [|c cs] Hf Hn; simpl in Hf; try lia; try done.
  cbn [remove_escapes forallb] in *. apply andb_prop in Hn as [Hc Hn].
  apply negb_true_iff in Hc. rewrite Hc, IH; [done|lia|done].
Qed.

(** [strip_ansi] removes exactly the escape sequences that a scan from left to
    right meets and keeps every other character; the test for an escape byte that
    saves the work changes nothing. *)
Theorem strip_ansi_spec (input : string) :
  strip_ansi_if_needed input = strip_ansi input /\
  exists out, stripped (chars (to_bytes input)) out /\ to_bytes (strip_ansi input) = concat out.
Proof.
  split.
  - unfold strip_ansi_if_needed, contains_ansi, contains_byte.
    destruct (existsb _ _) eqn:E; [done|]. unfold strip_ansi.
    rewrite remove_escapes_none; [by rewrite concat_chars, of_to_bytes|done|].
    apply forallb_forall. intros c Hc. apply negb_true_iff. apply not_true_is_false.
    intros ->%is_char_true. apply not_true_iff_false in E. apply E, existsb_exists.
    exists ESC. split; [|by apply Ascii.eqb_eq]. rewrite <- (concat_chars (to_bytes input)).
    apply in_concat. exists [ESC]. split; [done|by left].
  - exists (remove_escapes (length (chars (to_bytes input))) (chars (to_bytes input))).
    unfold strip_ansi. rewrite to_of_bytes. split; [by apply remove_escapes_stripped|done].
Qed.

(** The request [method endpoint] occurs in the text and ends there: at the end, or
    before a space, a query, a slash or a quote. *)
Definition requests (message method endpoint : string) : Prop :=
  exists a b, to_bytes message = a ++ to_bytes (method +:+ " " +:+ endpoint) ++ b /\
    boundary_ok (head b) = true.

Lemma contains_request_spec message method endpoint :
  contains_request_for_endpoint message method endpoint = true <-> requests message method endpoint.
Proof.
  unfold contains_request_for_endpoint, requests.
  set (needle := to_bytes (method +:+ _)).
  rewrite request_loop_spec by (try lia; unfold needle; rewrite to_bytes_app; by destruct (to_bytes method)).
  split.
  - intros (n & _ & [r Hr] & Hb). exists (take n (to_bytes message)), r.
    rewrite <- Hr, take_drop. split; [done|].
    rewrite <- (take_drop n (to_bytes message)), Hr in Hb.
    destruct (decide (n <= length (to_bytes message))%nat) as [Hle|Hgt].
    + rewrite lookup_app_r in Hb by (rewrite length_take; lia).
      rewrite length_take, Nat.min_l in Hb by lia.
      rewrite lookup_app_r in Hb by lia.
      replace (n + length needle - n - length needle)%nat with 0%nat in Hb by lia.
      by destruct r.
    + rewrite drop_ge in Hr by lia. exfalso.
      assert (needle = []) by (by destruct needle). unfold needle in *.
      rewrite to_bytes_app in *. by destruct (to_bytes method).
  - intros (a & b & -> & Hb). exists (length a). split_and!; [lia|exists b; by rewrite drop_app_length|].
    rewrite lookup_app_r by lia. rewrite lookup_app_r by lia.
    replace (length a + length needle - length a - length needle)%nat with 0%nat by lia.
    by destruct b.
Qed.

Lemma contains_sub_spec p s :
  contains_sub p s = true <-> exists a b, s = a +:+ p +:+ b.
Proof.
  unfold contains_sub. destruct (find_sub _ _) as [n|] eqn:E; split; try done.
  - intros _. apply find_sub_Some in E as ([r Hr] & _).
    exists (of_bytes (take n (to_bytes s))), (of_bytes r). apply to_bytes_inj.
    by rewrite !to_bytes_app, !to_of_bytes, <- Hr, take_drop.
  - intros (a & b & ->). exfalso. apply (find_sub_None _ _ E (length (to_bytes a)) (to_bytes b)).
    by rewrite !to_bytes_app, drop_app_length.
Qed.

Definition probe_names : list string :=
  ["kube-probe"; "liveness probe"; "readiness probe"; "startup probe"].

(** A message is a health check exactly when, in lower case, it names a probe or
    contains a request of one of the methods for one of the endpoints that ends
    where the endpoint does: [/health] followed by more of a name is not one, and
    no occurrence is missed. *)
Theorem is_health_check_message_spec (message : string) :
  let lower := str_to_ascii_lowercase message in
  is_health_check_message message = true <->
    (exists name a b, name ∈ probe_names /\ lower = a +:+ name +:+ b) \/
    (exists method endpoint, method ∈ METHODS /\ endpoint ∈ ENDPOINTS /\
       requests lower method endpoint).
Proof.
  cbv zeta. unfold is_health_check_message. set (lower := str_to_ascii_lowercase message).
  assert (existsb (fun name => contains_sub name lower) probe_names = true <->
    exists name a b, name ∈ probe_names /\ lower = a +:+ name +:+ b) as Hp.
  { rewrite existsb_exists. setoid_rewrite contains_sub_spec. setoid_rewrite <- list_elem_of_In.
    naive_solver. }
  simpl in Hp. rewrite !orb_false_r, !orb_assoc in Hp. rewrite orb_true_iff, Hp.
  rewrite existsb_exists. setoid_rewrite existsb_exists. setoid_rewrite contains_request_spec.
  setoid_rewrite <- list_elem_of_In. apply or_iff_compat_l.
  split; [intros (m & Hm & e & He & Hr)|intros (m & e & Hm & He & Hr)]; eauto 8.
Qed.

(** ** Concrete runs *)

(** A printer of objects of three strings without bars, and its parser. *)
#[local] Instance sample_number : JsonNumber :=
  {| number := Z; number_to_string := show; as_i64 n := Some n; of_integer n := n |}.

Definition sample_print (v : Value) : outcome string :=
  match v with
  | Object [(_, String msg); (_, String time); (_, String stream)] =>
      Ok ("{" +:+ (msg +:+ "|" +:+ time +:+ "|" +:+ stream) +:+ "}")
  | _ => Err "unsupported"
  end.

Definition sample_read (s : string) : option Value :=
  rest ← strip_prefix ["{"%char] (to_bytes s);
  '(msg, rest) ← split_at_byte "|" rest;
  '(time, rest) ← split_at_byte "|" rest;
  '(stream, _) ← split_at_byte "}" rest;
  Some (Object [("msg", String (of_bytes msg)); ("time", String (of_bytes time));
                ("stream", String (of_bytes stream))]).

#[local] Instance sample_json : Json := {| from_str := sample_read; to_string := sample_print |}.

Definition no_digit (_ : bytes) : bool := false.

Lemma encode_parse_roundtrip_witness :
  pl_message (parse_log_line no_digit (encode_log_line "stderr" "disk low" "t1")) = "disk low" /\
  pl_level (parse_log_line no_digit (encode_log_line "stderr" "disk low" "t1")) = "warn".
Proof.
  destruct (encode_parse_roundtrip no_digit "stderr" "disk low" "t1") as (_ & _ & _ & _ & H).
  - exists "disk low|t1|stderr". split; reflexivity.
  - discriminate.
  - apply H. intros o. discriminate.
Defined.

(** The cases of the tests of the source. *)
Example detect_log_level_cases :
  map (detect_log_level no_digit)
    ["[ERROR] connection pool exhausted"; "[WARN] slow query"; "[INFO] request handled";
     "ERROR: something failed"; "warn: deprecated"; "2026-03-05T04:39:01Z error: timeout";
     "WARNING: deprecated"; "DEBUG: trace enabled"; "TRACE startup complete";
     "2026-03-05T04:39:01Z Debug x"; " [debug]"; "plain text with no level"; "no errors found"]
  = ["error"; "warn"; "info"; "error"; "warn"; "error"; "warn"; "debug"; "trace"; "debug";
     "debug"; "info"; "info"].
Proof. by vm_compute. Qed.

Example strip_ansi_cases :
  let esc s := of_bytes [ESC] +:+ s in
  map strip_ansi
    [esc "[31mERROR" +:+ esc "[0m: something failed"; esc "[38;5;196mred" +:+ esc "[0m";
     esc "]0;window title" +:+ of_bytes [BEL] +:+ "text"; esc "[A" +:+ esc "[2Kprogress: 100%"]
  = ["ERROR: something failed"; "red"; "text"; "progress: 100%"].
Proof. by vm_compute. Qed.

Example health_check_cases :
  map is_health_check_message
    ["GET /health HTTP/1.1 200"; "get /healthcheck then GET /health?x"; "GET /healthcheck";
     "Readiness probe failed"; "GET /users"]
  = [true; true; false; true; false].
Proof. by vm_compute. Qed.
