(* ===== verification/LaunchEnv.v ===== *)
(** * The environment of a service

    Models [src/app/launch/context.rs] and [prepare_service] with the unit names
    of [src/app/launch/prepare.rs]: the environment a service starts with, the
    context its templates see, and the plan of its launch.

    Parameters: the template engine ([minijinja]), the reader of [.env] files
    ([dotenvy]), the variables and the home directory of the process, the [Debug]
    printer of a readiness check, and the hash of the watched files. *)

From S2P Require Import Prelude Bytes BMap Util Json ConfigModel ConfigEnv RunModel.
From Stdlib Require Import Lia.

(** ** Names *)

(** [services::readiness::probes::readiness_url] *)
Definition readiness_url (scheme : string) (port : Z) : string :=
  if bool_decide (scheme = "https") then "https://localhost:" +:+ show port
  else "http://localhost:" +:+ show port.

Definition unit_name_for_run (run_id service : string) : string :=
  "devstack-run-" +:+ sanitize_env_key run_id +:+ "-" +:+ sanitize_env_key service +:+ ".service".

Definition unit_name_for_global (key service : string) : string :=
  "devstack-global-" +:+ sanitize_env_key key +:+ "-" +:+ sanitize_env_key service +:+ ".service".

Definition unit_name_for_scope (scope : InstanceScope) (service : string) : string :=
  match scope with
  | ScopeRun run_id _ => unit_name_for_run run_id service
  | ScopeGlobal key _ _ => unit_name_for_global key service
  end.

(** ** The variables the daemon sets *)

Definition PortMap : Type := bmap string (option Z).

(** [schemes.get(service).unwrap_or("http")] *)
Definition scheme_of (schemes : bmap string string) (service : string) : string :=
  default "http" (bget service schemes).

Definition scope_env (scope : InstanceScope) : bmap string string :=
  match scope with
  | ScopeRun run_id stack => binsert "DEV_STACK" stack (binsert "DEV_RUN_ID" run_id [])
  | ScopeGlobal key _ name =>
      binsert "DEV_GLOBAL_NAME" name
        (binsert "DEV_GLOBAL_KEY" key (binsert "DEV_STACK" "globals" []))
  end.

Definition insert_port_env (schemes : bmap string string) (env : bmap string string)
    (entry : string * option Z) : bmap string string :=
  let '(service, port) := entry in
  match port with
  | Some port =>
      let key := sanitize_env_key service in
      binsert ("DEV_URL_" +:+ key) (readiness_url (scheme_of schemes service) port)
        (binsert ("DEV_PORT_" +:+ key) (show port) env)
  | None => env
  end.

Definition insert_listen_port_env (env : bmap string string) (entry : string * option Z)
    : bmap string string :=
  let '(service, listen_port) := entry in
  match listen_port with
  | Some listen_port =>
      binsert ("DEV_LISTEN_PORT_" +:+ sanitize_env_key service) (show listen_port) env
  | None => env
  end.

Definition build_base_env (scope : InstanceScope) (project_dir : string)
    (port_map listen_port_map : PortMap) (schemes : bmap string string)
    : outcome (bmap string string) :=
  let env := binsert "DEV_PROJECT_DIR" project_dir (scope_env scope) in
  let env := foldl (insert_port_env schemes) env port_map in
  Ok (foldl insert_listen_port_env env listen_port_map).

Definition insert_dep_env (port_map : PortMap) (schemes : bmap string string)
    (env : bmap string string) (dep : string) : bmap string string :=
  match bget dep port_map with
  | Some (Some port) =>
      let key := sanitize_env_key dep in
      binsert ("DEV_DEP_" +:+ key +:+ "_URL") (readiness_url (scheme_of schemes dep) port)
        (binsert ("DEV_DEP_" +:+ key +:+ "_PORT") (show port) env)
  | _ => env
  end.

Definition inject_dep_env (env : bmap string string) (svc : ServiceConfig)
    (port_map : PortMap) (schemes : bmap string string) : bmap string string :=
  foldl (insert_dep_env port_map schemes) env (sc_deps svc).

(** The variables of a file, except the daemon's own. *)
Definition merge_env_file (into file_env : bmap string string) : bmap string string :=
  foldl (fun into (kv : string * string) =>
           if starts_with "DEV_" kv.1 then into else binsert kv.1 kv.2 into) into file_env.

(** ** Templates *)

Section templates.
Context `{Json}.

Definition service_entry (schemes : bmap string string) (listen_port_map : PortMap)
    (service : string) (port : option Z) : Map :=
  let listen_port := match bget service listen_port_map with Some l => l | None => None end in
  let entry :=
    match port with
    | Some port =>
        map_insert "url" (String (readiness_url (scheme_of schemes service) port))
          (map_insert "port" (json_int port) [])
    | None => map_insert "url" Null (map_insert "port" Null [])
    end in
  map_insert "listen_port" (json_opt json_int listen_port) entry.

(** [service.replace(dash, underscore)] *)
Definition underscore_key (service : string) : string :=
  of_bytes (map (fun c => if Ascii.eqb c "-" then "_"%char else c) (to_bytes service)).

Definition insert_service_entry (schemes : bmap string string) (listen_port_map : PortMap)
    (services : Map) (entry : string * option Z) : Map :=
  let '(service, port) := entry in
  let entry_value := Object (service_entry schemes listen_port_map service port) in
  let services :=
    if negb (bool_decide (underscore_key service = service))
    then map_insert (underscore_key service) entry_value services else services in
  map_insert service entry_value services.

Definition build_template_context (scope : InstanceScope) (project_dir : string)
    (port_map listen_port_map : PortMap) (schemes : bmap string string) : outcome Value :=
  let services := foldl (insert_service_entry schemes listen_port_map) [] port_map in
  let '(run_id, stack_name, global) :=
    match scope with
    | ScopeRun run_id stack => (String run_id, stack, Null)
    | ScopeGlobal key _ name =>
        (Null, "globals", Object [("key", String key); ("name", String name)])
    end in
  Ok (Object [("run", Object [("id", run_id)]); ("global", global);
              ("project", Object [("dir", String project_dir)]);
              ("stack", Object [("name", String stack_name)]); ("services", Object services)]).

(** [template_from_str] and [render], with [trim_blocks]. *)
Context (render_template : string -> Value -> outcome string).
Context (home : option string).

Definition render_env (env : bmap string string) (ctx : Value) : outcome (bmap string string) :=
  ofold (fun out (kv : string * string) =>
    rendered ← render_template kv.2 ctx; Ok (binsert kv.1 rendered out)) env [].

Definition render_patterns (patterns : list string) (ctx : Value) : outcome (list string) :=
  ofold (fun rendered pattern =>
    r ← render_template pattern ctx; Ok (rendered ++ [r])) patterns [].

Definition resolve_rendered_path (template : string) (ctx : Value) : outcome string :=
  rendered ← render_template template ctx; Ok (expand_home home rendered).

Definition resolve_cwd_path (template : string) (ctx : Value) (base_dir : string)
    : outcome string :=
  rendered ← resolve_rendered_path template ctx;
  if is_absolute rendered then Ok rendered else Ok (path_join base_dir rendered).

Definition resolve_env_file_path (svc : ServiceConfig) (cwd : string) (ctx : Value)
    : outcome string :=
  match sc_env_file svc with
  | Some env_file =>
      rendered ← resolve_rendered_path env_file ctx;
      if is_absolute rendered then Ok rendered else Ok (path_join cwd rendered)
  | None => Ok (path_join cwd ".env")
  end.
End templates.

(** ** [.env] files *)

Section env_file.
(** [Path::exists], and the items [dotenvy::from_path_iter] yields. *)
Context (exists_ : string -> bool).
Context (from_path_iter : string -> outcome (list (outcome (string * string)))).

Definition load_env_file (path : string) : outcome (bmap string string) :=
  if negb (exists_ path) then Ok [] else
  iter ← with_context ("read env file " +:+ path) (from_path_iter path);
  ofold (fun env item => '(key, value) ← item; Ok (binsert key value env)) iter [].
End env_file.

(** ** Preparing a service *)

Definition capture_ignore (svc : ServiceConfig) : list string :=
  let ignore := capture_api_ignore_paths svc in
  match sc_readiness svc with
  | Some readiness =>
      match rc_http readiness with
      | Some http =>
          if existsb (fun pattern => bool_decide (pattern = rh_path http)) ignore
          then ignore else ignore ++ [rh_path http]
      | None => ignore
      end
  | None => ignore
  end.

(** The parts of a plan that decide whether a running service is out of date. *)
Definition fingerprint_payload `{Json} (debug_readiness : ReadinessSpec -> string)
    (svc : ServiceConfig) (rendered_cmd rendered_cwd : string) (port listen_port : option Z)
    (scheme : string) (capture_api : bool) (capture_api_body_limit : Z)
    (capture_api_ignore : list string) (readiness : ReadinessSpec) (env_file_path : string)
    (env : bmap string string) (watch ignore : list string) : Value :=
  Object [("cmd", String rendered_cmd); ("cwd", String rendered_cwd);
    ("port", json_opt json_int port); ("listen_port", json_opt json_int listen_port);
    ("scheme", String scheme); ("capture_api", Bool capture_api);
    ("capture_api_body_limit", json_int capture_api_body_limit);
    ("capture_api_ignore", json_strings capture_api_ignore);
    ("deps", json_strings (sc_deps svc)); ("port_env", String (port_env svc));
    ("readiness", String (debug_readiness readiness)); ("env_file", String env_file_path);
    ("env", json_env env); ("watch", json_strings watch); ("ignore", json_strings ignore)].

Section prepare.
Context `{Json}.
Context (render_template : string -> Value -> outcome string).
Context (home : option string).
Context (exists_ : string -> bool).
Context (from_path_iter : string -> outcome (list (outcome (string * string)))).
(** [std::env::var] *)
Context (var : string -> option string).
Context (debug_readiness : ReadinessSpec -> string).
(** [watch::compute_watch_hash]: root, patterns, ignored, extra files, fingerprint. *)
Context (compute_watch_hash :
  string -> option (list string) -> list string -> list string -> bytes -> outcome string).
Context (base_dir : outcome string) (blake3_hex : string -> string).

Definition build_watch_fingerprint (payload : Value) : outcome bytes :=
  to_bytes <$> to_string payload.

Definition log_path_for_scope (scope : InstanceScope) (project_dir service : string)
    : outcome string :=
  match scope with
  | ScopeRun run_id _ => run_log_path base_dir run_id service
  | ScopeGlobal _ _ name => global_log_path base_dir blake3_hex project_dir name
  end.

(** The environment of the service, from the weakest layer to the strongest. *)
Definition service_env (svc : ServiceConfig) (port_map : PortMap) (listen_port : option Z)
    (service_schemes base_env global_env : bmap string string) (global_env_file : option string)
    (env_file_path : string) (ctx : Value) : outcome (bmap string string) :=
  env ← (match global_env_file with
         | Some path =>
             global_file_env ← load_env_file exists_ from_path_iter path;
             Ok (merge_env_file base_env global_file_env)
         | None => Ok base_env
         end);
  rendered_global_env ← render_env render_template global_env ctx;
  let env := bextend env rendered_global_env in
  file_env ← load_env_file exists_ from_path_iter env_file_path;
  let env := merge_env_file env file_env in
  let env := inject_dep_env env svc port_map service_schemes in
  let env := match listen_port with
             | Some listen_port => binsert (port_env svc) (show listen_port) env
             | None => env
             end in
  rendered_env ← render_env render_template (sc_env svc) ctx;
  let env := bextend env rendered_env in
  let env := resolve_env_map var env in
  Ok (binsert "DEV_GRACE_MS" "2000" env).

Definition prepare_service (scope : InstanceScope) (project_dir config_dir svc_name : string)
    (svc : ServiceConfig) (port_map listen_port_map : PortMap)
    (service_schemes base_env global_env : bmap string string) (global_env_file : option string)
    : outcome PreparedService :=
  let port := default None (bget svc_name port_map) in
  let listen_port := default port (bget svc_name listen_port_map) in
  let scheme := scheme svc in
  let url := readiness_url scheme <$> port in
  let capture_api :=
    capture_api_enabled svc (is_run scope) (bool_decide (is_Some port)) scheme in
  let capture_api_body_limit := capture_api_body_limit svc in
  let capture_api_ignore := capture_ignore svc in
  template_context ←
    build_template_context scope project_dir port_map listen_port_map service_schemes;
  rendered_cwd ←
    resolve_cwd_path render_template home (cwd_or svc project_dir) template_context config_dir;
  env_file_path ← resolve_env_file_path render_template home svc rendered_cwd template_context;
  env ← service_env svc port_map listen_port service_schemes base_env global_env global_env_file
          env_file_path template_context;
  readiness ← readiness_spec svc (bool_decide (is_Some listen_port));
  let unit_name := unit_name_for_scope scope svc_name in
  log_path ← log_path_for_scope scope project_dir svc_name;
  cmd ← render_template (sc_cmd svc) template_context;
  rendered_watch ← render_patterns render_template (sc_watch svc) template_context;
  rendered_ignore ← render_patterns render_template (sc_ignore svc) template_context;
  _ ← fail_if (sc_auto_restart svc
               && forallb (fun pattern => bool_decide (str_trim pattern = "")) rendered_watch)
        ("service " +:+ svc_name +:+ " sets auto_restart=true but has no watch patterns");
  watch_fingerprint ← build_watch_fingerprint
    (fingerprint_payload debug_readiness svc cmd rendered_cwd port listen_port scheme capture_api
       capture_api_body_limit capture_api_ignore readiness env_file_path env rendered_watch
       rendered_ignore);
  let watch_patterns :=
    if bool_decide (rendered_watch = []) then None else Some rendered_watch in
  let watch_extra_files := [env_file_path] in
  watch_hash ← compute_watch_hash rendered_cwd watch_patterns rendered_ignore watch_extra_files
    watch_fingerprint;
  Ok (mkPreparedService svc_name unit_name port listen_port scheme url capture_api
        capture_api_body_limit capture_api_ignore (sc_deps svc) readiness log_path rendered_cwd env
        cmd watch_hash rendered_watch rendered_ignore watch_extra_files watch_fingerprint
        (sc_auto_restart svc)).
End prepare.

(** ** Layers *)

(** The first layer that has the key. *)
Fixpoint layered (k : string) (layers : list (bmap string string)) : option string :=
  match layers with
  | [] => None
  | m :: layers => match bget k m with Some v => Some v | None => layered k layers end
  end.

(** A file without the variables of the daemon. *)
Definition user_vars (file_env : bmap string string) : bmap string string :=
  bretain (fun k _ => negb (starts_with "DEV_" k)) file_env.

Lemma merge_env_file_user into file_env :
  merge_env_file into file_env = bextend into (user_vars file_env).
Proof.
  unfold merge_env_file, user_vars, bretain, bextend. revert into.
  induction file_env as [|[k v] l IH]; intros into; simpl; [done|].
  rewrite IH. by destruct (starts_with "DEV_" k).
Qed.

Lemma bwf_user_vars m : bwf m -> bwf (user_vars m).
Proof. apply bwf_bretain. Qed.

Definition dep_env (svc : ServiceConfig) (port_map : PortMap) (schemes : bmap string string)
    : bmap string string := inject_dep_env [] svc port_map schemes.

Definition listen_env (svc : ServiceConfig) (listen_port : option Z) : bmap string string :=
  match listen_port with Some port => [(port_env svc, show port)] | None => [] end.

Lemma insert_over (k j : string) (v : string) (new env m : bmap string string) :
  (forall j, bget j env = layered j [new; m]) ->
  bget j (binsert k v env) = layered j [binsert k v new; m].
Proof.
  intros Hl. simpl. rewrite !bget_binsert. destruct (keqb k j); [done|]. by rewrite Hl.
Qed.

Lemma inject_dep_layers env svc port_map schemes k :
  bget k (inject_dep_env env svc port_map schemes) = layered k [dep_env svc port_map schemes; env].
Proof.
  unfold dep_env, inject_dep_env. revert k.
  induction (sc_deps svc) as [|dep deps IH] using rev_ind; intros k.
  { simpl. by destruct (bget k env). }
  rewrite !foldl_app. cbn [foldl]. unfold insert_dep_env at 1 3.
  destruct (bget dep port_map) as [[port|]|]; [|apply IH..].
  apply insert_over. intros j. by apply insert_over.
Qed.

Lemma bwf_dep_env env svc port_map schemes :
  bwf env -> bwf (inject_dep_env env svc port_map schemes).
Proof.
  unfold inject_dep_env. revert env. induction (sc_deps svc) as [|dep deps IH]; intros env Hw; [done|].
  cbn [foldl]. apply IH. unfold insert_dep_env.
  destruct (bget dep port_map) as [[port|]|]; [|done..]. by apply bwf_binsert, bwf_binsert.
Qed.

Lemma listen_env_layers svc listen_port env k :
  bget k (match listen_port with
          | Some port => binsert (port_env svc) (show port) env
          | None => env
          end) = layered k [listen_env svc listen_port; env].
Proof.
  destruct listen_port as [port|]; simpl; [|by destruct (bget k env)].
  rewrite bget_binsert. key_cases; try done; by destruct (bget k env).
Qed.

Section render_lemmas.
Context `{Json} (render_template : string -> Value -> outcome string).

(** The values of a map, each rendered. *)
Definition rendered (ctx : Value) (env out : bmap string string) : Prop :=
  forall k, match bget k env with
            | Some v => exists r, render_template v ctx = Ok r /\ bget k out = Some r
            | None => bget k out = None
            end.

Lemma render_env_Ok env ctx out :
  bwf env -> render_env render_template env ctx = Ok out -> bwf out /\ rendered ctx env out.
Proof.
  intros Hwf Hr. unfold render_env in Hr.
  assert (forall l acc, ofold (fun out (kv : string * string) =>
      rendered ← render_template kv.2 ctx; Ok (binsert kv.1 rendered out)) l acc = Ok out ->
    NoDup (bkeys l) -> bwf acc ->
    bwf out /\ forall k, match bget k l with
      | Some v => exists r, render_template v ctx = Ok r /\ bget k out = Some r
      | None => bget k out = bget k acc end) as Hgen.
  { induction l as [|[k v] l IH]; intros acc Hf Hnd Hacc; simpl in Hf; outcome_simpl; [done|].
    simplify_eq. apply NoDup_cons in Hnd as [Hk Hnd].
    destruct (IH _ ltac:(eassumption) Hnd ltac:(by apply bwf_binsert)) as [Hw Hl].
    split; [done|]. intros j. simpl. specialize (Hl j). rewrite bget_binsert in Hl.
    destruct (decide (j = k)) as [->|Hne].
    + rewrite keqb_refl in *. assert (bget k l = None) as Hn by (by apply bget_None_keys).
      rewrite Hn in Hl. eauto.
    + rewrite (proj2 (keqb_false j k)) by done. by rewrite (proj2 (keqb_false k j)) in Hl by done. }
  destruct (Hgen env [] Hr (bwf_NoDup_keys _ Hwf) bwf_nil) as [Hw Hl].
  split; [done|]. intros k. specialize (Hl k). by destruct (bget k env).
Qed.
End render_lemmas.

Lemma load_env_file_wf exists_ iter path out : load_env_file exists_ iter path = Ok out -> bwf out.
Proof.
  unfold load_env_file, with_context. destruct (negb (exists_ path)); [by intros [= <-]; constructor|].
  intros Hl. outcome_simpl.
  match goal with H : ofold _ ?l _ = Ok _ |- _ => revert H; generalize l end.
  intros l Hf. eapply (ofold_inv bwf); [|apply bwf_nil|exact Hf].
  intros s a s' _ Hs Hst. cbv beta in Hst. outcome_simpl.
  match goal with kv : (string * string)%type |- _ => destruct kv end. outcome_simpl.
  by apply bwf_binsert.
Qed.

(** ** Properties *)

(** The layers of a service's environment. When it can be built, a variable has
    the value of the first layer that sets it, references expanded: the
    service's own settings, its port, the ports and URLs of its dependencies,
    its [.env] file, the settings for all services, the file for all services,
    the daemon's variables; the files never set a variable of the daemon.
    [DEV_GRACE_MS] is always the daemon's. *)
Theorem service_env_layers `{Json} (render : string -> Value -> outcome string)
    (exists_ : string -> bool) (iter : string -> outcome (list (outcome (string * string))))
    (var : string -> option string) (svc : ServiceConfig) (port_map : PortMap)
    (listen_port : option Z) (schemes base_env global_env : bmap string string)
    (global_env_file : option string) (env_file_path : string) (ctx : Value)
    (env : bmap string string) :
  bwf base_env -> bwf global_env -> bwf (sc_env svc) ->
  service_env render exists_ iter var svc port_map listen_port schemes base_env global_env
    global_env_file env_file_path ctx = Ok env ->
  exists global_file file rendered_global rendered_own,
    (match global_env_file with
     | Some path => load_env_file exists_ iter path = Ok global_file
     | None => global_file = []
     end) /\
    load_env_file exists_ iter env_file_path = Ok file /\
    rendered render ctx global_env rendered_global /\ rendered render ctx (sc_env svc) rendered_own /\
    forall k, bget k env =
      if bool_decide (k = "DEV_GRACE_MS") then Some "2000"
      else resolve_env_vars var <$>
        layered k [rendered_own; listen_env svc listen_port; dep_env svc port_map schemes;
                   user_vars file; rendered_global; user_vars global_file; base_env].
Proof.
  intros Hb Hg Hs Henv. unfold service_env in Henv. outcome_simpl.
  match goal with H : (match global_env_file with Some _ => _ | None => _ end) = Ok ?e |- _ =>
    assert (exists global_file, (match global_env_file with
      | Some path => load_env_file exists_ iter path = Ok global_file
      | None => global_file = [] end) /\ e = bextend base_env (user_vars global_file) /\ bwf global_file)
      as (global_file & Hgf & -> & Hgw) end.
  { destruct global_env_file as [path|]; outcome_simpl; subst.
    - eexists. rewrite merge_env_file_user. split_and!; eauto using load_env_file_wf.
    - exists []. by split_and!; [| |constructor]. }
  repeat match goal with
  | H : render_env render global_env ctx = Ok _ |- _ => apply render_env_Ok in H as [? Hrg]; [|done]
  | H : render_env render (sc_env svc) ctx = Ok _ |- _ => apply render_env_Ok in H as [? Hro]; [|done]
  end.
  match goal with H : load_env_file _ _ env_file_path = Ok ?f |- _ =>
    pose proof (load_env_file_wf _ _ _ _ H) end.
  eexists global_file, _, _, _. split_and!; [done|eassumption|exact Hrg|exact Hro|].
  intros k. rewrite bget_binsert. case_bool_decide as Hk; [subst; by rewrite keqb_refl|].
  rewrite (proj2 (keqb_false _ _)) by congruence.
  rewrite resolve_env_map_values, bget_bmap_values.
  2:{ apply bwf_bextend. destruct listen_port; rewrite ?merge_env_file_user;
      eauto 10 using bwf_binsert, bwf_dep_env, bwf_bextend. }
  f_equal. rewrite bget_bextend_map, listen_env_layers by done.
  cbn [layered]. rewrite inject_dep_layers. cbn [layered].
  rewrite merge_env_file_user, !bget_bextend_map by auto using bwf_user_vars.
  repeat case_match; congruence.
Qed.

(** *** Dependencies *)

Definition dep_port_key (dep : string) : string :=
  "DEV_DEP_" +:+ sanitize_env_key dep +:+ "_PORT".
Definition dep_url_key (dep : string) : string :=
  "DEV_DEP_" +:+ sanitize_env_key dep +:+ "_URL".

Lemma dep_port_key_inj d1 d2 :
  dep_port_key d1 = dep_port_key d2 -> sanitize_env_key d1 = sanitize_env_key d2.
Proof. unfold dep_port_key. by intros H%append_inj_l%append_inj_r. Qed.

Lemma dep_url_key_inj d1 d2 :
  dep_url_key d1 = dep_url_key d2 -> sanitize_env_key d1 = sanitize_env_key d2.
Proof. unfold dep_url_key. by intros H%append_inj_l%append_inj_r. Qed.

Lemma dep_keys_differ d1 d2 : dep_port_key d1 <> dep_url_key d2.
Proof.
  unfold dep_port_key, dep_url_key. intros H%append_inj_l.
  apply (f_equal (fun s => last (to_bytes s))) in H.
  by rewrite !to_bytes_app, !last_app in H.
Qed.

(** A service sees its dependencies: for each of them that has a port, the
    variables named after it hold its port and its URL with its own scheme,
    provided no other dependency has the same name in upper case. *)
Theorem dep_env_spec (svc : ServiceConfig) (port_map : PortMap) (schemes : bmap string string)
    (dep : string) (port : Z) :
  dep ∈ sc_deps svc -> bget dep port_map = Some (Some port) ->
  (forall d, d ∈ sc_deps svc -> sanitize_env_key d = sanitize_env_key dep -> d = dep) ->
  bget (dep_port_key dep) (dep_env svc port_map schemes) = Some (show port) /\
  bget (dep_url_key dep) (dep_env svc port_map schemes) =
    Some (readiness_url (scheme_of schemes dep) port).
Proof.
  intros Hin Hp Huniq. unfold dep_env, inject_dep_env. revert Hin Huniq.
  induction (sc_deps svc) as [|d deps IH] using rev_ind; [by intros ?%elem_of_nil|].
  intros Hin Huniq. rewrite foldl_app. cbn [foldl].
  set (env := foldl _ _ _) in *. unfold insert_dep_env.
  destruct (decide (d = dep)) as [->|Hd].
  - rewrite Hp. cbv zeta. fold (dep_url_key dep) (dep_port_key dep). rewrite !bget_binsert.
    pose proof (not_eq_sym (dep_keys_differ dep dep)) as Hne.
    by rewrite !keqb_refl, (proj2 (keqb_false _ _) Hne).
  - apply elem_of_app in Hin as [Hin|Hin%list_elem_of_singleton]; [|congruence].
    destruct IH as [IH1 IH2]; [done|intros; apply Huniq; set_solver|].
    destruct (bget d port_map) as [[p|]|]; [|done..]. cbv zeta.
    fold (dep_url_key d) (dep_port_key d). rewrite !bget_binsert.
    assert (sanitize_env_key d <> sanitize_env_key dep) as Hs
      by (intros E; apply Hd, Huniq; [set_solver|done]).
    assert (dep_port_key d <> dep_port_key dep) as H1 by (intros ?%dep_port_key_inj; done).
    assert (dep_url_key d <> dep_url_key dep) as H2 by (intros ?%dep_url_key_inj; done).
    pose proof (dep_keys_differ d dep) as H3. pose proof (dep_keys_differ dep d) as H4.
    apply not_eq_sym in H4.
    by rewrite !(proj2 (keqb_false _ _) H1), !(proj2 (keqb_false _ _) H2),
      !(proj2 (keqb_false _ _) H3), !(proj2 (keqb_false _ _) H4).
Qed.

(** *** Units *)

Lemma sanitize_no_dash s : "-"%char ∉ to_bytes (sanitize_env_key s).
Proof.
  intros Hin%list_elem_of_In. pose proof (sanitize_env_key_bytes s) as Hb.
  rewrite forallb_forall in Hb. by apply Hb in Hin.
Qed.

(** Two services get the same unit exactly when the upper-case forms of their
    run ids and of their names agree, and a run and a global never share one.
    Names that differ only in a dash and an underscore, or in case, do collide. *)
Theorem unit_names_spec (r1 s1 r2 s2 : string) :
  (unit_name_for_run r1 s1 = unit_name_for_run r2 s2 <->
     sanitize_env_key r1 = sanitize_env_key r2 /\ sanitize_env_key s1 = sanitize_env_key s2) /\
  unit_name_for_run r1 s1 <> unit_name_for_global r2 s2 /\
  unit_name_for_run r1 "web-api" = unit_name_for_run r1 "web_api" /\
  unit_name_for_run r1 "web" = unit_name_for_run r1 "Web".
Proof.
  unfold unit_name_for_run, unit_name_for_global. split_and!; [|discriminate|reflexivity..].
  split; [|by intros [-> ->]]. intros H%append_inj_l.
  apply (split_sep "-") in H as [-> H%append_inj_r]; auto using sanitize_no_dash.
Qed.

(** *** The fingerprint *)

Section plan.
Context `{Json}.
Context (render : string -> Value -> outcome string) (home : option string).
Context (exists_ : string -> bool).
Context (iter : string -> outcome (list (outcome (string * string)))).
Context (var : string -> option string) (debug : ReadinessSpec -> string).
Context (hash :
  string -> option (list string) -> list string -> list string -> bytes -> outcome string).
Context (base_dir : outcome string) (blake3_hex : string -> string).

Abbreviation prepare := (prepare_service render home exists_ iter var debug hash base_dir blake3_hex).

(** What a prepared service is made of. *)
Lemma prepare_service_Ok scope project_dir config_dir name svc ports listen schemes base_env
    global_env global_env_file p :
  prepare scope project_dir config_dir name svc ports listen schemes base_env global_env
    global_env_file = Ok p ->
  exists env_file s,
    ps_unit_name p = unit_name_for_scope scope name /\
    ps_port p = default None (bget name ports) /\
    ps_listen_port p = default (ps_port p) (bget name listen) /\
    ps_url p = readiness_url (ps_scheme p) <$> ps_port p /\
    ps_capture_api p =
      capture_api_enabled svc (is_run scope) (bool_decide (is_Some (ps_port p))) (scheme svc) /\
    ps_scheme p = scheme svc /\ ps_deps p = sc_deps svc /\
    ps_auto_restart p = sc_auto_restart svc /\
    ps_watch_fingerprint p = to_bytes s /\ ps_watch_extra_files p = [env_file] /\
    readiness_spec svc (bool_decide (is_Some (ps_listen_port p))) = Ok (ps_readiness p) /\
    log_path_for_scope base_dir blake3_hex scope project_dir name = Ok (ps_log_path p) /\
    to_string (fingerprint_payload debug svc (ps_cmd p) (ps_cwd p) (ps_port p) (ps_listen_port p)
      (ps_scheme p) (ps_capture_api p) (ps_capture_api_body_limit p) (ps_capture_api_ignore p)
      (ps_readiness p) env_file (ps_env p) (ps_watch_patterns p) (ps_ignore_patterns p)) = Ok s /\
    (sc_auto_restart svc = true ->
     exists pattern, pattern ∈ ps_watch_patterns p /\ str_trim pattern <> "").
Proof.
  unfold prepare_service, build_watch_fingerprint. intros Hp. outcome_simpl.
  simplify_eq. eexists _, _. split_and!; try reflexivity; try eassumption. simpl.
  intros Ha. match goal with H : _ && _ = false |- _ => rename H into Hf end.
  rewrite Ha in Hf. apply forallb_false in Hf as (pattern & Hin & Hf).
  exists pattern. split; [done|]. by apply bool_decide_eq_false in Hf.
Qed.
End plan.

(** A launch plan but for the hash of the watched files. *)
Definition without_hash (l : ServiceLaunchPlan) : ServiceLaunchPlan :=
  mkServiceLaunchPlan (sl_unit_name l) (sl_cwd l) (sl_env l) (sl_cmd l) (sl_log_path l) (sl_port l)
    (sl_listen_port l) (sl_scheme l) (sl_url l) (sl_capture_api l) (sl_capture_api_body_limit l)
    (sl_capture_api_ignore l) "" (sl_watch_fingerprint l) (sl_watch_extra_files l).

(** A fingerprint covers the whole launch. If two configurations of one service
    of one scope, whatever else changed, give the same fingerprint, then the
    launches are the same but for the hash of the watched files: command,
    directory, environment, ports, scheme, URL, capture settings, files; so are
    the dependencies and the patterns. The printer of JSON tells values apart. *)
Theorem fingerprint_determines_launch `{JsonPrints} (render : string -> Value -> outcome string)
    (home : option string) (exists_ : string -> bool)
    (iter : string -> outcome (list (outcome (string * string))))
    (var : string -> option string) (debug : ReadinessSpec -> string)
    (hash : string -> option (list string) -> list string -> list string -> bytes -> outcome string)
    (base_dir : outcome string) (blake3_hex : string -> string) (scope : InstanceScope)
    (project_dir name : string) (dir1 dir2 : string) (svc1 svc2 : ServiceConfig)
    (ports1 ports2 listen1 listen2 : PortMap)
    (schemes1 schemes2 base1 base2 global1 global2 : bmap string string)
    (file1 file2 : option string) (p1 p2 : PreparedService) :
  let prepare := prepare_service render home exists_ iter var debug hash base_dir blake3_hex
                   scope project_dir in
  prepare dir1 name svc1 ports1 listen1 schemes1 base1 global1 file1 = Ok p1 ->
  prepare dir2 name svc2 ports2 listen2 schemes2 base2 global2 file2 = Ok p2 ->
  ps_watch_fingerprint p1 = ps_watch_fingerprint p2 ->
  without_hash (prepared_launch p1) = without_hash (prepared_launch p2) /\
  ps_deps p1 = ps_deps p2 /\ ps_watch_patterns p1 = ps_watch_patterns p2 /\
  ps_ignore_patterns p1 = ps_ignore_patterns p2.
Proof.
  cbv zeta. intros (e1 & s1 & ? & _ & _ & ? & _ & _ & Hd1 & _ & Hp1 & ? & _ & Hl1 & Hf1 & _)%prepare_service_Ok
    (e2 & s2 & ? & _ & _ & ? & _ & _ & Hd2 & _ & Hp2 & ? & _ & Hl2 & Hf2 & _)%prepare_service_Ok Hfp.
  rewrite Hp1, Hp2 in Hfp. apply to_bytes_inj in Hfp as ->.
  pose proof (to_string_inj _ _ _ Hf1 Hf2) as Heq. rewrite Hl1 in Hl2. clear Hf1 Hf2 Hl1.
  unfold fingerprint_payload in Heq. rewrite <- Hd1, <- Hd2 in Heq. clear Hd1 Hd2.
  set (port1 := port_env svc1) in *. set (port2 := port_env svc2) in *.
  destruct p1, p2. cbn -[json_int json_opt json_strings json_env readiness_url] in *.
  injection Hl2 as ->.
  pose proof (fun k v1 v2 => object_field k _ _ v1 v2 Heq) as Hk. clear Heq.
  pose proof (String_inj _ _ (Hk "cmd" _ _ eq_refl eq_refl)).
  pose proof (String_inj _ _ (Hk "cwd" _ _ eq_refl eq_refl)).
  pose proof (String_inj _ _ (Hk "scheme" _ _ eq_refl eq_refl)).
  pose proof (String_inj _ _ (Hk "env_file" _ _ eq_refl eq_refl)).
  pose proof (Bool_inj _ _ (Hk "capture_api" _ _ eq_refl eq_refl)).
  pose proof (json_opt_int_inj _ _ (Hk "port" _ _ eq_refl eq_refl)).
  pose proof (json_opt_int_inj _ _ (Hk "listen_port" _ _ eq_refl eq_refl)).
  pose proof (json_int_inj _ _ (Hk "capture_api_body_limit" _ _ eq_refl eq_refl)).
  pose proof (json_strings_inj _ _ (Hk "capture_api_ignore" _ _ eq_refl eq_refl)).
  pose proof (json_strings_inj _ _ (Hk "deps" _ _ eq_refl eq_refl)).
  pose proof (json_strings_inj _ _ (Hk "watch" _ _ eq_refl eq_refl)).
  pose proof (json_strings_inj _ _ (Hk "ignore" _ _ eq_refl eq_refl)).
  pose proof (json_env_inj _ _ (Hk "env" _ _ eq_refl eq_refl)).
  subst. done.
Qed.

(** ** Concrete runs *)

#[local] Existing Instance concrete_json.

(** An engine without templates, one [.env] file, no process environment. *)
Definition plain_render (template : string) (_ : Value) : outcome string := Ok template.
Definition one_file (path : string) : bool := bool_decide (path = "/p/.env").
Definition one_iter (path : string) : outcome (list (outcome (string * string))) :=
  Ok [Ok ("MODE", "file"); Ok ("DEV_STACK", "evil")].
Definition no_var (_ : string) : option string := None.

Definition web (auto_restart : bool) : ServiceConfig :=
  mkServiceConfig "serve" ["db-main"] None None None None None [] None None
    (binsert "COLOR" "red" []) None ["src"] [] auto_restart None None None.

Definition web_ports : PortMap :=
  binsert "db-main" (Some 5432%Z) (binsert "web" (Some 8080%Z) []).

Definition web_base : bmap string string := binsert "DEV_STACK" "dev" (binsert "MODE" "base" []).

Lemma service_env_layers_witness :
  exists env,
    service_env plain_render one_file one_iter no_var (web false) web_ports (Some 8080%Z) []
      web_base [] None "/p/.env" Null = Ok env /\
    bget "MODE" env = Some "file" /\ bget "DEV_STACK" env = Some "dev" /\
    bget "PORT" env = Some "8080" /\ bget "DEV_GRACE_MS" env = Some "2000".
Proof.
  eexists. split; [vm_compute; reflexivity|].
  destruct (service_env_layers plain_render one_file one_iter no_var (web false) web_ports
    (Some 8080%Z) [] web_base [] None "/p/.env" Null _
    ltac:(by apply bwf_binsert, bwf_binsert, bwf_nil) bwf_nil ltac:(by apply bwf_binsert, bwf_nil)
    ltac:(vm_compute; reflexivity)) as (gf & f & rg & ro & -> & [= <-] & Hrg & Hro & Hk).
  assert (forall k, bget k ro = bget k (sc_env (web false))) as Ho.
  { intros k. specialize (Hro k). destruct (bget k (sc_env (web false))); [|done].
    destruct Hro as (r & [= <-] & ->). done. }
  assert (forall k, bget k rg = None) as Hgl by exact Hrg.
  split_and!; rewrite Hk; cbn [layered]; rewrite Ho, ?Hgl; vm_compute; reflexivity.
Defined.

Lemma dep_env_spec_witness :
  bget "DEV_DEP_DB_MAIN_PORT" (dep_env (web false) web_ports []) = Some "5432" /\
  bget "DEV_DEP_DB_MAIN_URL" (dep_env (web false) web_ports []) = Some "http://localhost:5432".
Proof.
  apply (dep_env_spec (web false) web_ports [] "db-main" 5432); [left|reflexivity|].
  intros d [->|Hd%elem_of_nil]%elem_of_cons; done.
Defined.

(** Two configurations of a service that differ in what a launch does not show. *)
Lemma fingerprint_determines_launch_witness :
  let prepare svc := prepare_service plain_render None one_file one_iter no_var
    (fun _ => "readiness") (fun _ _ _ _ _ => Ok "hash") (Ok "/data") (fun s => s)
    (ScopeRun "r" "dev") "/p" "/p" "web" svc web_ports [] [] [] [] None in
  exists p1 p2, prepare (web false) = Ok p1 /\ prepare (web true) = Ok p2 /\
    without_hash (prepared_launch p1) = without_hash (prepared_launch p2).
Proof.
  eexists _, _. split_and!; [vm_compute; reflexivity..|].
  eapply (@fingerprint_determines_launch concrete_json concrete_json_prints plain_render None
    one_file one_iter no_var (fun _ => "readiness") (fun _ _ _ _ _ => Ok "hash") (Ok "/data")
    (fun s => s) (ScopeRun "r" "dev") "/p" "web" "/p" "/p" (web false) (web true) web_ports web_ports
    [] [] [] [] [] [] [] [] None None); vm_compute; reflexivity.
Defined.
