(* ===== verification/LaunchPorts.v ===== *)
(** * The ports of a launch

    Models what [up] and [refresh] do with ports: [resolve_ports_for_refresh] of
    [src/app/launch/prepare.rs], the public, listening and abandoned ports of
    [src/app/commands/runs.rs], the release functions of [src/app/runtime.rs], and
    the decision which services of a run are started again.

    A call of the port registry is one operation of [Port.v]; the [n]th call of a
    command meets the [n]th kernel, and the file between the calls is the state.
    What other daemons may do to the file meanwhile is the matter of [Port.v]. *)

From S2P Require Import Prelude Bytes BMap ConfigModel Port RunModel LaunchEnv.
From Stdlib Require Import Lia ZArith.

(** ** Sequences of registry calls *)

Definition PortState : Type := string * nat.
Definition PortM : Type -> Type := stM PortState.

(** [if let Err(err) = m { eprintln!(...) }] *)
Definition log_error (m : PortM unit) : PortM unit := fun s =>
  match m s with
  | (Err _, s) => (Ok tt, s)
  | r => r
  end.

(** [ExistingServiceSnapshot] *)
Record ExistingServiceSnapshot := mkSnapshot {
  es_watch_hash : option string;
  es_state : ServiceState;
  es_port : option Z;
  es_listen_port : option Z;
}.

Definition Existing : Type := bmap string ExistingServiceSnapshot.

Section launch.
Context `{RegistryCodec}.
(** The kernel at each call, and the binds that are enough for it. *)
Context (kernel : nat -> Kernel) (fuel : nat -> nat).

Definition call {A} (op : Kernel -> nat -> string -> outcome A * string) : PortM A :=
  fun '(file, n) =>
    let '(r, file) := op (kernel n) (fuel n) file in (r, (file, S n)).

Definition reserve (port : Z) (owner : string) : PortM unit :=
  call (fun k _ file => reserve_port k port owner file).
Definition reserve_available (port : Z) (owner : string) : PortM unit :=
  call (fun k _ file => reserve_available_port k port owner file).
Definition reserve_ephemeral (owner : string) : PortM Z :=
  call (fun k f file => reserve_ephemeral_port k f owner file).
Definition allocate (services : bmap string ServiceConfig) (owner_for : string -> string)
    : PortM (bmap string (option Z)) :=
  call (fun k f file => allocate_ports k f services owner_for file).
Definition release (port : Z) (owner : string) : PortM unit :=
  call (fun k _ file => release_port k port owner file).

(** ** The public ports *)

Section resolve.
Context (run_id : string) (existing : Existing) (reuse_ports : bool).

Definition existing_port (name : string) : option Z :=
  record ← bget name existing; es_port record.

(** The port of a service, and whether one must be allocated. *)
Definition resolve_one (name : string) (service : ServiceConfig) : PortM (option Z * bool) :=
  let owner := port_owner run_id name in
  match sc_port service with
  | Some (PortNone _) => mret (None, false)
  | Some (PortFixed value) =>
      _ ← (if bool_decide (existing_port name = Some value)
           then reserve value owner
           else reserve_available value owner);
      mret (Some value, false)
  | None =>
      if reuse_ports
      then match existing_port name with
           | Some existing_port =>
               _ ← reserve existing_port owner; mret (Some existing_port, false)
           | None => mret (None, true)
           end
      else mret (None, true)
  end.

Definition resolve_step (acc : PortMap * bmap string ServiceConfig)
    (entry : string * ServiceConfig) : PortM (PortMap * bmap string ServiceConfig) :=
  let '(port_map, needs_alloc) := acc in
  let '(name, service) := entry in
  '(port, needs) ← resolve_one name service;
  mret (binsert name port port_map,
        if needs : bool then binsert name service needs_alloc else needs_alloc).

Definition resolve_ports_for_refresh (services : bmap string ServiceConfig) : PortM PortMap :=
  '(port_map, needs_alloc) ← sfold resolve_step services ([], []);
  if bool_decide (needs_alloc = []) then mret port_map else
  allocated ← allocate needs_alloc (port_owner run_id);
  mret (bextend port_map allocated).

(** ** The ports behind capture proxies *)

Definition resolve_listen_one (port_map : PortMap) (listen_port_map : PortMap)
    (entry : string * ServiceConfig) : PortM PortMap :=
  let '(name, service) := entry in
  let public_port := default None (bget name port_map) in
  let owner := capture_backend_port_owner run_id name in
  let capture_api :=
    capture_api_enabled service true (bool_decide (is_Some public_port)) (scheme service) in
  listen_port ←
    (if capture_api then
       match public_port with
       | Some _ =>
           match (record ← bget name existing; es_listen_port record) with
           | Some existing_port =>
               if reuse_ports && negb (bool_decide (Some existing_port = public_port))
               then _ ← reserve existing_port owner; mret (Some existing_port)
               else port ← reserve_ephemeral owner; mret (Some port)
           | None => port ← reserve_ephemeral owner; mret (Some port)
           end
       | None => mret None
       end
     else mret public_port);
  mret (binsert name listen_port listen_port_map).

Definition resolve_listen_ports_for_launch (services : bmap string ServiceConfig)
    (port_map : PortMap) : PortM PortMap :=
  sfold (resolve_listen_one port_map) services [].
End resolve.

(** ** Releasing *)

Definition release_service_port (run_id service : string) (port : option Z) : PortM unit :=
  match port with
  | Some port => release port (port_owner run_id service)
  | None => mret tt
  end.

Definition release_service_capture_backend_port (run_id service : string)
    (port public_port : option Z) : PortM unit :=
  match port with
  | Some port =>
      if bool_decide (Some port = public_port) then mret tt
      else release port (capture_backend_port_owner run_id service)
  | None => mret tt
  end.

Definition release_unpreserved_one (run_id : string) (port_map listen_port_map : PortMap)
    (preserved : Existing) (service_name : string) : PortM unit :=
  let port := default None (bget service_name port_map) in
  let listen_port := default None (bget service_name listen_port_map) in
  let preserved_port := snapshot ← bget service_name preserved; es_port snapshot in
  let preserved_listen_port := snapshot ← bget service_name preserved; es_listen_port snapshot in
  _ ← (if bool_decide (is_Some preserved_listen_port)
          && bool_decide (preserved_listen_port <> preserved_port)
          && bool_decide (preserved_listen_port <> listen_port)
       then log_error (release_service_capture_backend_port run_id service_name
                         preserved_listen_port preserved_port)
       else mret tt);
  _ ← (if bool_decide (is_Some listen_port) && bool_decide (listen_port <> port)
          && bool_decide (preserved_listen_port <> listen_port)
       then log_error (release_service_capture_backend_port run_id service_name listen_port port)
       else mret tt);
  if bool_decide (is_Some port) && bool_decide (preserved_port <> port)
  then log_error (release_service_port run_id service_name port)
  else mret tt.

Definition release_unpreserved_stack_ports (run_id : string) (services : list string)
    (port_map listen_port_map : PortMap) (preserved : Existing) : PortM unit :=
  sfold (fun _ name => release_unpreserved_one run_id port_map listen_port_map preserved name)
    services tt.
End launch.

(** ** Which services start again *)

(** The snapshots [refresh_run] takes of a run. *)
Definition snapshot_of (service : ServiceRecord) : ExistingServiceSnapshot :=
  mkSnapshot (Some (sl_watch_hash (sv_launch service))) (sr_state (sv_runtime service))
    (sl_port (sv_launch service)) (sl_listen_port (sv_launch service)).

Definition snapshots (run : RunRecord) : Existing :=
  bmap_values (fun _ service => snapshot_of service) (rr_services run).

(** The services of a run that its stack no longer has. *)
Definition removed_services (run : RunRecord) (stack_plan : StackPlan) : list string :=
  List.filter (fun name => negb (bcontains name (sp_services stack_plan))) (bkeys (rr_services run)).

Definition service_needs_restart (force : bool) (existing : Existing) (service_name : string)
    (prepared : PreparedService) : bool :=
  force ||
  match bget service_name existing with
  | None => true
  | Some snapshot =>
      bool_decide (es_watch_hash snapshot <> Some (ps_watch_hash prepared))
      || bool_decide (es_state snapshot ∈ [Stopped; Failed; Degraded])
  end.

(** ** Lemmas *)

Lemma port_owner_inj run_id a b : port_owner run_id a = port_owner run_id b -> a = b.
Proof. unfold port_owner. by intros H%append_inj_l%append_inj_l%append_inj_l. Qed.

Section owned.
Context `{RegistryCodec} (kernel : nat -> Kernel) (fuel : nat -> nat) (pid : Z).
(** The owners that the entries of the command have. *)
Context (ours : string -> Prop).

(** The kernels of one command: they work, the files can be written, and they know
    the process of this daemon to be alive. *)
Definition kernels_ok : Prop :=
  forall n, kernel_ok (kernel n) /\ k_write (kernel n) = None /\ k_pid (kernel n) = pid /\
    is_pid_alive (kernel n) pid = true.

(** The entries of these owners are this daemon's. *)
Definition run_is_ours (r : PortReservationRegistry) : Prop :=
  forall p e, bget p r = Some e -> ours (pe_owner e) -> pe_daemon_pid e = pid.

Definition kept (r r' : PortReservationRegistry) : Prop :=
  forall p owner, ours owner -> held r p owner -> held r' p owner.

(** A step from one registry to the next that keeps what the run has. *)
Definition good (file : string) (r : PortReservationRegistry) : Prop :=
  holds file r /\ run_is_ours r.

Lemma kept_trans r1 r2 r3 : kept r1 r2 -> kept r2 r3 -> kept r1 r3.
Proof. intros H1 H2 p o Ho Hh. auto. Qed.

Lemma kept_refl r : kept r r.
Proof. by intros p o Ho Hh. Qed.

Lemma with_registry_Ok {T} k (act : action T) file r out file' :
  holds file r -> k_write k = None -> with_registry k act file = (Ok out, file') ->
  exists r' c', act (cleanup_stale k r, 0) = Ok (out, (r', c')) /\ file' = to_json r'.
Proof.
  intros [Hr _] Hw. unfold with_registry. rewrite Hr, Hw. ored.
  destruct (k_open k); try done.
  destruct (act (cleanup_stale k r, 0)) as [[o [r' c']]|e| |]; try done.
  intros [= -> <-]. eauto.
Qed.

Context (Hk : kernels_ok).

(** An entry that one of the owners has in the name of this daemon. *)
Definition held_us (r : PortReservationRegistry) (port : Z) (owner : string) : Prop :=
  exists e, bget port r = Some e /\ pe_owner e = owner /\ pe_daemon_pid e = pid.

Definition kept_us (r r' : PortReservationRegistry) : Prop :=
  forall p owner, held_us r p owner -> held_us r' p owner.

(** Before the first call there may be entries of the owners from a daemon that is
    dead. *)
Definition ours_or_stale (r : PortReservationRegistry) : Prop :=
  forall p e, bget p r = Some e -> ours (pe_owner e) ->
    pe_daemon_pid e = pid \/ forall n, is_pid_alive (kernel n) (pe_daemon_pid e) = false.

Lemma held_ours r p o : run_is_ours r -> ours o -> held r p o -> held_us r p o.
Proof. intros Hr Ho (e & He & <-). exists e. split_and!; [done..|]. by eapply Hr. Qed.

Lemma step_weak {T} n (act : action T) (P : string -> Prop) file r out file' :
  holds file r -> ours_or_stale r -> (forall o, P o -> is_text o) ->
  (forall r0 o r' c', bwf r0 -> act (r0, 0) = Ok (o, (r', c')) -> grants (kernel n) P r0 r') ->
  with_registry (kernel n) act file = (Ok out, file') ->
  exists r' c', act (cleanup_stale (kernel n) r, 0) = Ok (out, (r', c')) /\ good file' r' /\
    kept_us r r'.
Proof.
  intros Hh Ho HP Hact Hrun. destruct (Hk n) as (Hkn & Hw & Hpid & Hl).
  destruct (with_registry_Ok _ _ _ _ _ _ Hh Hw Hrun) as (r' & c' & Ha & ->).
  pose proof (registry_ok_cleanup (kernel n) r (proj2 Hh)) as Hclean.
  pose proof (Hact _ _ _ _ (proj1 Hclean) Ha) as Hg.
  exists r', c'. split_and!; [done|split|].
  - apply holds_json. by eapply registry_ok_grants.
  - intros p e He Hours. destruct (bget p (cleanup_stale (kernel n) r)) as [e0|] eqn:E.
    + pose proof (gr_keep _ _ _ _ Hg _ _ E) as Hkeep. rewrite He in Hkeep. injection Hkeep as <-.
      rewrite bget_cleanup in E by apply Hh. destruct (bget p r) as [e1|] eqn:E1; [|done].
      destruct (is_pid_alive (kernel n) (pe_daemon_pid e1)) eqn:Ealive; [|done]. injection E as <-.
      destruct (Ho p e1 E1 Hours) as [?|Hdead]; [done|]. by rewrite Hdead in Ealive.
    + destruct (gr_new _ _ _ _ Hg _ _ E He) as (_ & -> & _). done.
  - intros p o (e & He & Heo & Hep). exists e. split_and!; [|done..]. eapply gr_keep; [exact Hg|].
    rewrite bget_cleanup by apply Hh. by rewrite He, Hep, Hl.
Qed.

Lemma step_good {T} n (act : action T) (P : string -> Prop) file r out file' :
  good file r -> (forall o, P o -> is_text o) ->
  (forall r0 o r' c', bwf r0 -> act (r0, 0) = Ok (o, (r', c')) -> grants (kernel n) P r0 r') ->
  with_registry (kernel n) act file = (Ok out, file') ->
  exists r' c', act (cleanup_stale (kernel n) r, 0) = Ok (out, (r', c')) /\ good file' r' /\ kept r r'.
Proof.
  intros [Hh Ho] HP Hact Hrun.
  assert (ours_or_stale r) as Hos by (intros p e He Hown; left; by eapply Ho).
  destruct (step_weak n act P file r out file' Hh Hos HP Hact Hrun) as (r' & c' & Ha & Hg & Hkept).
  exists r', c'. split_and!; [done..|]. intros p o Hours Hheld.
  destruct (Hkept p o) as (e & ? & ? & _); [by apply held_ours|]. by exists e.
Qed.

Lemma reserve_weak n port owner file r s' :
  holds file r -> ours_or_stale r -> is_text owner -> ours owner -> in_range 0 u16_max port ->
  reserve kernel fuel port owner (file, n) = (Ok tt, s') ->
  exists r', good s'.1 r' /\ kept_us r r' /\ held_us r' port owner.
Proof.
  intros Hh Ho Ht Hown Hp. unfold reserve, call, reserve_port. cbv beta iota zeta.
  destruct (with_registry _ _ file) as [o f] eqn:Hw. intros [= -> <-].
  eapply (step_weak n _ (eq owner)) in Hw as (r' & c' & Ha & Hg' & Hkept);
    [|done..|by intros ? <-|intros r0 o r' c' _ Ha; by eapply reserve_specific_port_Ok].
  apply reserve_specific_port_Ok in Ha as (_ & Hheld & _); [|done].
  exists r'. split_and!; [done..|]. apply held_ours; [apply Hg'|done..].
Qed.

Lemma reserve_good avail n port owner file r u s' :
  good file r -> is_text owner -> in_range 0 u16_max port ->
  (if avail : bool then reserve_available kernel fuel port owner else reserve kernel fuel port owner)
    (file, n) = (Ok u, s') ->
  exists r', good s'.1 r' /\ kept r r' /\ held r' port owner.
Proof.
  intros Hg Ht Hp Hrun.
  assert (exists file', with_registry (kernel n)
    (reserve_specific_port (kernel n) port owner avail) file = (Ok u, file') /\ s'.1 = file')
    as (file' & Hw & ->).
  { destruct avail; unfold reserve_available, reserve, call, reserve_available_port, reserve_port in Hrun;
      cbv beta iota zeta in Hrun; destruct (with_registry _ _ file) as [o f]; injection Hrun as -> <-; eauto. }
  eapply (step_good n _ (eq owner)) in Hw as (r' & c' & Ha & Hg' & Hkept);
    [|done|by intros ? <-|intros r0 o r' c' _ Ha; by eapply reserve_specific_port_Ok].
  apply reserve_specific_port_Ok in Ha as (_ & Hheld & _); [|done].
  exists r'. by split_and!.
Qed.

End owned.

(** *** Public ports *)

Definition run_owner (run_id owner : string) : Prop := exists name, owner = port_owner run_id name.

Section refresh.
Context `{RegistryCodec} (kernel : nat -> Kernel) (fuel : nat -> nat) (pid : Z) (run_id : string).
Context (Hk : kernels_ok kernel pid).

Local Notation good := (good pid (run_owner run_id)).
Local Notation kept := (kept (run_owner run_id)).
Local Notation step_good := (step_good kernel pid (run_owner run_id) Hk).
Local Notation reserve_good := (reserve_good kernel fuel pid (run_owner run_id) Hk).

Context (existing : Existing) (reuse : bool).

(** What a service gets on a refresh. *)
Definition resolved (r : PortReservationRegistry) (name : string) (svc : ServiceConfig)
    (got : option (option Z)) : Prop :=
  match sc_port svc with
  | Some (PortNone _) => got = Some None
  | Some (PortFixed v) => got = Some (Some v) /\ held r v (port_owner run_id name)
  | None => exists port, got = Some (Some port) /\ held r port (port_owner run_id name) /\
      forall q, reuse = true -> existing_port existing name = Some q -> port = q
  end.

Lemma resolved_kept r r' name svc got : kept r r' -> resolved r name svc got -> resolved r' name svc got.
Proof.
  unfold resolved. intros Hk'. assert (run_owner run_id (port_owner run_id name)) as Ho by (by exists name).
  destruct (sc_port svc) as [[v|v]|]; [done| |].
  - intros [? ?]. auto.
  - intros (p & ? & ? & ?). exists p. auto.
Qed.

(** The inputs have the types of the source. *)
Record inputs_ok (services : bmap string ServiceConfig) : Prop := {
  in_wf : bwf services;
  in_typed : forall n svc, (n, svc) ∈ services -> port_typed svc;
  in_text : forall n, n ∈ bkeys services -> is_text (port_owner run_id n);
  in_existing : forall n q, existing_port existing n = Some q -> in_range 0 u16_max q;
}.

Lemma resolve_one_good name svc file r n port needs s' :
  port_typed svc -> is_text (port_owner run_id name) ->
  (forall q, existing_port existing name = Some q -> in_range 0 u16_max q) ->
  good file r -> resolve_one kernel fuel run_id existing reuse name svc (file, n) = (Ok (port, needs), s') ->
  exists r', good s'.1 r' /\ kept r r' /\
    if needs : bool
    then sc_port svc = None /\ (reuse = true -> existing_port existing name = None)
    else resolved r' name svc (Some port).
Proof.
  intros Ht Htext Hex Hg. unfold resolve_one, resolved.
  destruct (sc_port svc) as [[v|v]|] eqn:Es.
  - intros [= <- <- <-]. exists r. split_and!; try done; auto using kept_refl.
  - intros (u & s1 & Hr & [= <- <- <-])%st_bind_Ok.
    assert ((if bool_decide (existing_port existing name = Some v)
             then reserve kernel fuel v (port_owner run_id name)
             else reserve_available kernel fuel v (port_owner run_id name)) =
            (if negb (bool_decide (existing_port existing name = Some v))
             then reserve_available kernel fuel v (port_owner run_id name)
             else reserve kernel fuel v (port_owner run_id name))) as E by (by case_bool_decide).
    rewrite E in Hr. apply (reserve_good _ _ _ _ _ r) in Hr as (r' & Hg' & Hk' & Hh); auto.
    exists r'. by split_and!.
  - destruct reuse; [|intros [= <- <- <-]; exists r; split_and!; try done; auto using kept_refl].
    destruct (existing_port existing name) as [q|] eqn:Eq;
      [|intros [= <- <- <-]; exists r; split_and!; try done; auto using kept_refl].
    intros (u & s1 & Hr & [= <- <- <-])%st_bind_Ok.
    apply (reserve_good false _ _ _ _ r) in Hr as (r' & Hg' & Hk' & Hh); auto.
    exists r'. split_and!; [done..|]. exists q. split_and!; [done..|]. by intros q' _ [= ->].
Qed.

(** After some services: their ports are resolved, or wait for the allocation. *)
Definition progress (services : bmap string ServiceConfig) (r0 : PortReservationRegistry)
    (acc : PortMap * bmap string ServiceConfig) (s : PortState) : Prop :=
  exists r, good s.1 r /\ kept r0 r /\ bwf acc.1 /\ bwf acc.2 /\
    (forall n svc, bget n acc.2 = Some svc -> bget n services = Some svc /\ sc_port svc = None /\
       (reuse = true -> existing_port existing n = None)) /\
    (forall n, is_Some (bget n acc.1) -> is_Some (bget n services)) /\
    (forall n svc, bget n services = Some svc -> is_Some (bget n acc.1) ->
       bget n acc.2 = None -> resolved r n svc (bget n acc.1)).

Lemma resolve_step_good services r0 acc entry s acc' s' :
  inputs_ok services -> entry ∈ services ->
  progress services r0 acc s -> resolve_step kernel fuel run_id existing reuse acc entry s = (Ok acc', s') ->
  progress services r0 acc' s' /\ forall n, n = entry.1 \/ is_Some (bget n acc.1) -> is_Some (bget n acc'.1).
Proof.
  destruct acc as [pm na], entry as [name svc], s as [file n].
  intros Hin Hentry (r & Hg & Hkept & Hw1 & Hw2 & Hna & Hsub & Hres). unfold resolve_step.
  intros ([port needs] & s1 & Hone & [= <- <-])%st_bind_Ok. cbn [fst snd] in *.
  apply (resolve_one_good _ _ _ r) in Hone as (r' & Hg' & Hk' & Hcase); try done.
  2:{ by eapply (in_typed _ Hin). }
  2:{ apply (in_text _ Hin), list_elem_of_fmap. by exists (name, svc). }
  2:{ by apply (in_existing _ Hin). }
  assert (bget name services = Some svc) as Hsvc by (apply bget_in; [apply Hin|done]).
  assert (forall j, keqb name j = true -> j = name) as Heqb by (intros j E%keqb_true; done).
  split.
  - exists r'. cbn [fst snd]. split_and!; [done|by eapply kept_trans|by apply bwf_binsert|..].
    + destruct needs; auto using bwf_binsert.
    + intros j svc'. destruct needs; [|apply Hna]. rewrite bget_binsert.
      destruct (keqb name j) eqn:E; [|apply Hna]. apply Heqb in E as ->. intros [= <-].
      by destruct Hcase.
    + intros j. rewrite bget_binsert. destruct (keqb name j) eqn:E; [|apply Hsub].
      apply Heqb in E as ->. by rewrite Hsvc.
    + intros j svc'. rewrite bget_binsert. destruct (keqb name j) eqn:E.
      * apply Heqb in E as ->. rewrite Hsvc. intros [= <-] _.
        destruct needs; [by rewrite bget_binsert_eq|done].
      * intros Hj Hi Hn. eapply resolved_kept; [exact Hk'|]. apply Hres; [done|done|].
        destruct needs; [|done]. by rewrite bget_binsert, E in Hn.
  - intros j Hj. cbn [fst]. rewrite bget_binsert. destruct (keqb name j) eqn:E; [done|].
    destruct Hj as [->|?]; [|done]. by rewrite keqb_refl in E.
Qed.

Lemma resolve_fold_good services r0 l acc s acc' s' :
  inputs_ok services -> l ⊆ services ->
  progress services r0 acc s -> sfold (resolve_step kernel fuel run_id existing reuse) l acc s = (Ok acc', s') ->
  progress services r0 acc' s' /\
  forall n, n ∈ l.*1 \/ is_Some (bget n acc.1) -> is_Some (bget n acc'.1).
Proof.
  intros Hin. revert acc s. induction l as [|entry l IH]; intros acc s Hsub HP; cbn [sfold].
  { intros [= <- <-]. split; [done|]. by intros n [?%elem_of_nil|?]. }
  intros (acc1 & s1 & Hstep & Hrest)%st_bind_Ok.
  apply (resolve_step_good services r0) in Hstep as [HP1 Hk1]; [|done|apply Hsub; left|done].
  apply IH in Hrest as [HP2 Hk2]; [|intros x Hx; apply Hsub; by right|done].
  split; [done|]. intros n [[->|Hn]%elem_of_cons|Hn]; apply Hk2; auto.
Qed.

Lemma allocate_bwf k f owner_for l al s al' s' :
  ofold (allocate_one k f owner_for) l (al, s) = Ok (al', s') -> bwf al -> bwf al'.
Proof.
  intros Hf Hw. change (bwf (al', s').1). eapply (ofold_inv (fun x => bwf x.1) _ _ (al, s)); [|exact Hw|exact Hf].
  intros [a t] [name svc] [a' t'] _ Ha. unfold allocate_one. simpl. intros Hs. outcome_simpl.
  match goal with x : (option Z * RegState)%type |- _ => destruct x end.
  outcome_simpl. simplify_eq. by apply bwf_binsert.
Qed.

Lemma allocate_good n services file r al s' :
  bwf services -> (forall n svc, (n, svc) ∈ services -> port_typed svc) ->
  (forall n, n ∈ bkeys services -> is_text (port_owner run_id n)) ->
  good file r -> allocate kernel fuel services (port_owner run_id) (file, n) = (Ok al, s') ->
  exists r', good s'.1 r' /\ kept r r' /\ bwf al /\
    (forall m, bget m services = None -> bget m al = None) /\
    (forall m svc, bget m services = Some svc -> sc_port svc = None ->
       exists port, bget m al = Some (Some port) /\ held r' port (port_owner run_id m)).
Proof.
  intros Hwf Ht Htext Hg. unfold allocate, call, allocate_ports. cbv beta iota zeta.
  destruct (with_registry _ _ file) as [o file'] eqn:Hw. intros [= -> <-].
  eapply (step_good n _ (fun o => exists m, m ∈ bkeys services /\ o = port_owner run_id m)) in Hw
    as (r' & c' & Ha & Hg' & Hkept); [|done|intros o (m & Hm & ->); by apply Htext|].
  2:{ intros r0 o r1 c1 _ Ha. eapply allocate_all_Ok; [apply Hk|by apply bwf_NoDup_keys|done|exact Ha]. }
  unfold allocate_ports_action in Ha. pose proof (allocate_bwf _ _ _ _ _ _ _ _ Ha bwf_nil) as Hal.
  apply allocate_all_Ok in Ha as (_ & Hother & Hgr); [|apply Hk|by apply bwf_NoDup_keys|done].
  exists r'. split_and!; [done..| |].
  - intros m Hm%bget_None_keys. by rewrite Hother.
  - intros m svc Hm%bget_Some_in Hp. apply Hgr in Hm. unfold granted in Hm. rewrite Hp in Hm.
    destruct Hm as (port & ? & ? & _). eauto.
Qed.

Lemma resolve_good services file r n pm s' :
  inputs_ok services -> good file r ->
  resolve_ports_for_refresh kernel fuel run_id existing reuse services (file, n) = (Ok pm, s') ->
  exists r', good s'.1 r' /\ kept r r' /\
    (forall m, is_Some (bget m pm) <-> is_Some (bget m services)) /\
    (forall m svc, bget m services = Some svc -> resolved r' m svc (bget m pm)).
Proof.
  intros Hin Hg. unfold resolve_ports_for_refresh.
  intros ([pm1 na] & s1 & Hfold & Hrest)%st_bind_Ok.
  apply (resolve_fold_good services r) in Hfold as [(r1 & Hg1 & Hk1 & Hw1 & Hw2 & Hna & Hsub & Hres) Hall];
    [|done..|].
  2:{ exists r. cbn. split_and!; auto using bwf_nil, kept_refl; done. }
  cbn [fst snd] in *.
  assert (forall m, is_Some (bget m pm1) <-> is_Some (bget m services)) as Hkeys.
  { intros m. split; [apply Hsub|]. intros Hm. apply Hall. left. by apply bget_keys in Hm. }
  case_bool_decide as He.
  { injection Hrest as <- <-. exists r1. split_and!; try done.
    intros m svc Hm. apply Hres; [done|by apply Hkeys; rewrite Hm|by rewrite He]. }
  apply st_bind_Ok in Hrest as (al & s2 & Hal & [= <- <-]).
  destruct s1 as [file1 n1].
  assert (forall m, m ∈ bkeys na -> m ∈ bkeys services) as Hmem.
  { intros m [svc Hm]%bget_keys. apply bget_keys. destruct (Hna m svc Hm) as (-> & _). done. }
  apply (allocate_good _ _ _ r1) in Hal as (r2 & Hg2 & Hk2 & Hwal & Hnone & Hgot); [|done| | |done].
  2:{ intros m svc Hm. apply (in_typed _ Hin m). apply bget_in in Hm; [|done].
      apply bget_in; [apply Hin|]. by apply Hna. }
  2:{ intros m Hm. by apply (in_text _ Hin), Hmem. }
  exists r2. split_and!; [done|by eapply kept_trans|..].
  - intros m. rewrite bget_bextend_map by done. rewrite <- Hkeys.
    destruct (bget m al) as [x|] eqn:Ex; [|done]. split; [|by eauto]. intros _. apply Hkeys.
    destruct (bget m na) as [svc|] eqn:En; [|by rewrite Hnone in Ex].
    by destruct (Hna m svc En) as (-> & _).
  - intros m svc Hm. rewrite bget_bextend_map by done.
    destruct (bget m na) as [svc'|] eqn:En.
    + destruct (Hna m svc' En) as (Hm' & Hp & Hq). rewrite Hm in Hm'. injection Hm' as <-.
      destruct (Hgot m svc En Hp) as (port & -> & Hheld). unfold resolved. rewrite Hp.
      exists port. split_and!; [done..|]. intros q Hr E. by rewrite (Hq Hr) in E.
    + rewrite (Hnone m En). eapply resolved_kept; [exact Hk2|].
      apply Hres; [done|apply Hkeys; by rewrite Hm|done].
Qed.
End refresh.

(** ** Properties *)

(** The public ports of a refresh. When they can be resolved, exactly the
    services of the stack get an entry: none, the fixed port, or a port; a run
    that still runs keeps the port it has; each port is reserved for its service
    when the resolution ends, and no two services share one. *)
Theorem resolve_ports_for_refresh_spec `{RegistryCodec} (kernel : nat -> Kernel)
    (fuel : nat -> nat) (pid : Z) (run_id : string) (existing : Existing) (reuse_ports : bool)
    (services : bmap string ServiceConfig) (file : string) (r : PortReservationRegistry)
    (port_map : PortMap) (file' : string) (n' : nat) :
  kernels_ok kernel pid -> inputs_ok run_id existing services -> good pid (run_owner run_id) file r ->
  resolve_ports_for_refresh kernel fuel run_id existing reuse_ports services (file, 0) =
    (Ok port_map, (file', n')) ->
  exists r', holds file' r' /\
    (forall name, is_Some (bget name port_map) <-> is_Some (bget name services)) /\
    (forall name svc, bget name services = Some svc ->
       resolved run_id existing reuse_ports r' name svc (bget name port_map)) /\
    (forall n1 n2 port, bget n1 port_map = Some (Some port) ->
       bget n2 port_map = Some (Some port) -> n1 = n2).
Proof.
  intros Hk Hin Hg Hr. destruct (resolve_good _ _ _ _ Hk _ _ _ _ _ _ _ _ Hin Hg Hr)
    as (r' & [Hh _] & _ & Hkeys & Hres).
  exists r'. split_and!; try done.
  assert (forall n port, bget n port_map = Some (Some port) -> held r' port (port_owner run_id n))
    as Hheld.
  { intros n port Hn. destruct (proj1 (Hkeys n)) as [svc Hs]; [by rewrite Hn|].
    specialize (Hres n svc Hs). rewrite Hn in Hres. unfold resolved in Hres.
    destruct (sc_port svc) as [[]|]; [done| |]; [by destruct Hres as [[= ->] ?]|].
    by destruct Hres as (? & [= ->] & ? & _). }
  intros n1 n2 port (e1 & He1 & Ho1)%Hheld (e2 & He2 & Ho2)%Hheld.
  eapply port_owner_inj. rewrite <- Ho1, <- Ho2. congruence.
Qed.

(** A refresh that fails before the listening ports are known frees a port in
    use. The clean-up then runs with the snapshots of the running services and
    with no listening ports; for a service that keeps its public port it releases
    the port behind the capture proxy, although the service still listens there. *)
Theorem failed_refresh_frees_backend `{RegistryCodec} (kernel : nat -> Kernel)
    (fuel : nat -> nat) (run_id name : string) (state : ServiceState) (hash : option string)
    (port listen : Z) (file : string) (r : PortReservationRegistry) (e : PortReservationEntry) :
  holds file r -> k_open (kernel 0) = Ok tt -> k_write (kernel 0) = None ->
  bget listen r = Some e -> pe_owner e = capture_backend_port_owner run_id name ->
  is_pid_alive (kernel 0) (pe_daemon_pid e) = true -> listen <> port ->
  let existing := binsert name (mkSnapshot hash state (Some port) (Some listen)) [] in
  let port_map := binsert name (Some port) [] in
  exists file' r',
    release_unpreserved_stack_ports kernel fuel run_id [name] port_map [] existing (file, 0) =
      (Ok tt, (file', 1)) /\
    holds file' r' /\ bget listen r' = None.
Proof.
  intros Hh Ho Hw He Hown Hl Hne. cbv zeta.
  set (r' := bremove listen (cleanup_stale (kernel 0) r)).
  pose proof (registry_ok_cleanup (kernel 0) r (proj2 Hh)) as [Hcw Hce].
  assert (bget listen r' = None) as Hn by (unfold r'; rewrite bget_bremove, keqb_refl; done).
  assert (registry_ok r') as Hok.
  { split; [by apply bwf_bremove|]. intros q e'. unfold r'. rewrite bget_bremove.
    destruct (keqb listen q); [done|apply Hce]. }
  exists (to_json r'), r'. split_and!; [|by apply holds_json|done].
  assert (release_port (kernel 0) listen (capture_backend_port_owner run_id name) file =
          (Ok tt, to_json r')) as Hrel.
  { unfold release_port, with_registry. rewrite Ho, (proj1 Hh), Hw. ored.
    unfold release_action. rewrite bget_cleanup by apply Hh. rewrite He, Hl, Hown.
    by rewrite bool_decide_eq_true_2. }
  cbn [release_unpreserved_stack_ports sfold]. unfold release_unpreserved_one.
  rewrite !bget_binsert_eq. cbn [default bget mbind option_bind es_port es_listen_port id].
  rewrite (bool_decide_eq_true_2 (is_Some (Some listen))) by done.
  rewrite (bool_decide_eq_true_2 (Some listen <> Some port)) by congruence.
  rewrite (bool_decide_eq_true_2 (Some listen <> None)) by done.
  rewrite (bool_decide_eq_false_2 (is_Some None)) by (by intros [? ?]).
  rewrite (bool_decide_eq_false_2 (Some port <> Some port)) by auto.
  rewrite andb_false_r. unfold release_service_capture_backend_port, log_error.
  rewrite (bool_decide_eq_false_2 (Some listen = Some port)) by congruence.
  unfold release, call, mbind, st_bind, mret, st_ret. cbn. by rewrite Hrel.
Qed.

(** ** Concrete runs *)

#[local] Existing Instance sample_codec.

Definition sample_kernels (_ : nat) : Kernel := sample_kernel.
Definition sample_existing : Existing :=
  binsert "web" (mkSnapshot None Ready (Some 40000%Z) None) [].

Lemma sample_kernels_ok : kernels_ok sample_kernels 42.
Proof. intros n. split_and!; [apply sample_kernel_ok|done..]. Qed.

Lemma sample_inputs_ok : inputs_ok "r1" sample_existing sample_services.
Proof.
  constructor; [apply bwf_bcollect| | |].
  - by intros n svc [[= -> ->]|?%elem_of_nil]%elem_of_cons.
  - by intros n ->%list_elem_of_singleton.
  - intros n q. unfold existing_port, sample_existing. rewrite bget_binsert.
    destruct (keqb "web" n); [|done]. by intros [= <-].
Qed.

Lemma sample_good : good 42 (run_owner "r1") (to_json sample_registry) sample_registry.
Proof.
  split; [apply sample_holds|]. intros p e. simpl.
  destruct (keqb p 40000%Z); [|done]. by intros [= <-].
Qed.

Lemma resolve_ports_for_refresh_spec_witness :
  exists port_map file' n' r',
    resolve_ports_for_refresh sample_kernels (fun _ => 5) "r1" sample_existing true sample_services
      (to_json sample_registry, 0) = (Ok port_map, (file', n')) /\
    bget "web" port_map = Some (Some 40000%Z) /\ held r' 40000 "run:r1:web".
Proof.
  eexists _, _, _.
  destruct (resolve_ports_for_refresh_spec sample_kernels (fun _ => 5) 42 "r1" sample_existing true
    sample_services (to_json sample_registry) sample_registry _ _ _ sample_kernels_ok sample_inputs_ok
    sample_good ltac:(vm_compute; reflexivity)) as (r' & _ & _ & Hres & _).
  exists r'. split_and!; [vm_compute; reflexivity..|].
  destruct (Hres "web" _ eq_refl) as (port & _ & Hh & Hq).
  specialize (Hq 40000%Z eq_refl eq_refl). by rewrite Hq in Hh.
Defined.

Definition backend_registry : PortReservationRegistry :=
  [(40001%Z, mkEntry (capture_backend_port_owner "r1" "web") 42)].

Lemma failed_refresh_frees_backend_witness :
  exists file' r', holds file' r' /\ bget 40001%Z r' = None.
Proof.
  destruct (failed_refresh_frees_backend sample_kernels (fun _ => 5) "r1" "web" Ready None 40000 40001
    (to_json backend_registry) backend_registry
    (mkEntry (capture_backend_port_owner "r1" "web") 42)) as (file' & r' & _ & Hh & Hn);
    try reflexivity; try lia; [|eauto].
  apply holds_json. split; [repeat constructor|]. intros port e. simpl.
  destruct (keqb port 40001%Z) eqn:E; [|done]. apply keqb_true in E as ->. intros [= <-].
  split_and!; by vm_compute.
Defined.
