(* ===== verification/Tasks.v ===== *)
(** * Tasks

    Models the store of detached tasks ([src/stores/tasks.rs]), the steps of
    [start_task] and [execute_detached_task] on it ([src/app/commands/tasks.rs]),
    the history of executions and the listing of a run's tasks
    ([src/services/tasks/history.rs], [src/app/queries/tasks.rs]), and the runner
    of init and post-init tasks ([src/services/tasks/executor.rs],
    [src/services/tasks/orchestration.rs]).

    Instants are nanoseconds on the monotonic clock; [now] is the instant or the
    time of a call.  [canonicalize] of the file system and the execution of one
    task are parameters. *)

From S2P Require Import Prelude Bytes BMap Util ConfigModel.
From Stdlib Require Import Lia ZArith.

(** ** The store *)

Inductive TaskExecutionState : Type := TaskRunning | TaskCompleted | TaskFailed.

#[export] Instance task_state_eq_dec : EqDecision TaskExecutionState.
Proof. solve_decision. Defined.

Record DetachedTaskExecution := mkTask {
  dt_execution_id : string;
  dt_task : string;
  dt_project_dir : string;
  dt_run_id : option string;
  dt_state : TaskExecutionState;
  dt_started_at : string;
  dt_started_at_instant : Z;
  dt_finished_at : option string;
  dt_exit_code : option Z;
  dt_duration_ms : option Z;
}.

(** The time of a call: the wall clock as text, and the monotonic clock. *)
Record Now := mkNow { now_rfc3339 : string; now_instant : Z }.

Definition DetachedTaskExecution_new (now : Now) (execution_id task project_dir : string)
    (run_id : option string) : DetachedTaskExecution :=
  mkTask execution_id task project_dir run_id TaskRunning (now_rfc3339 now) (now_instant now)
    None None None.

(** [elapsed().as_millis().try_into().unwrap_or(u64::MAX)] *)
Definition elapsed_ms (now start : Z) : Z := Z.min (Z.max 0 (now - start) / 1000000) u64_max.

Definition mark_completed (now : Now) (exit_code : Z) (t : DetachedTaskExecution)
    : DetachedTaskExecution :=
  mkTask (dt_execution_id t) (dt_task t) (dt_project_dir t) (dt_run_id t)
    (if (exit_code =? 0)%Z then TaskCompleted else TaskFailed)
    (dt_started_at t) (dt_started_at_instant t) (Some (now_rfc3339 now)) (Some exit_code)
    (Some (elapsed_ms (now_instant now) (dt_started_at_instant t))).

Definition mark_failed (now : Now) (t : DetachedTaskExecution) : DetachedTaskExecution :=
  mkTask (dt_execution_id t) (dt_task t) (dt_project_dir t) (dt_run_id t) TaskFailed
    (dt_started_at t) (dt_started_at_instant t) (Some (now_rfc3339 now)) (dt_exit_code t)
    (Some (elapsed_ms (now_instant now) (dt_started_at_instant t))).

Definition current_duration_ms (now : Z) (t : DetachedTaskExecution) : Z :=
  default (elapsed_ms now (dt_started_at_instant t)) (dt_duration_ms t).

Definition TaskStore : Type := bmap string DetachedTaskExecution.

Definition add_task (task : DetachedTaskExecution) (store : TaskStore)
    : outcome unit * TaskStore :=
  if bcontains (dt_execution_id task) store
  then (Err ("task execution " +:+ dt_execution_id task +:+ " already exists"), store)
  else (Ok tt, binsert (dt_execution_id task) task store).

Definition get_task (execution_id : string) (store : TaskStore) : option DetachedTaskExecution :=
  bget execution_id store.

Definition list_tasks (store : TaskStore) : list DetachedTaskExecution := bvalues store.

Definition list_tasks_for_run (run_id : string) (store : TaskStore) : list DetachedTaskExecution :=
  List.filter (fun task => bool_decide (dt_run_id task = Some run_id)) (bvalues store).

Definition update_task_state (now : Now) (execution_id : string) (exit_code : option Z)
    (store : TaskStore) : outcome DetachedTaskExecution * TaskStore :=
  match bget execution_id store with
  | None => (Err ("task execution " +:+ execution_id +:+ " not found"), store)
  | Some task =>
      let task := match exit_code with
                  | Some code => mark_completed now code task
                  | None => mark_failed now task
                  end in
      (Ok task, binsert execution_id task store)
  end.

Definition remove_task (execution_id : string) (store : TaskStore)
    : option DetachedTaskExecution * TaskStore :=
  (bget execution_id store, bremove execution_id store).

(** [Instant::checked_sub] of a number of seconds: the seconds are an [i64]. *)
Definition checked_sub_secs (now secs : Z) : option Z :=
  let t := (now - secs * 1000000000)%Z in
  if (- 2 ^ 63 * 1000000000 <=? t)%Z then Some t else None.

(** [now2] is the second call of [Instant::now]. *)
Definition cleanup_finished_tasks (now now2 max_age_secs : Z) (store : TaskStore)
    : nat * TaskStore :=
  let cutoff := default now2 (checked_sub_secs now max_age_secs) in
  let kept := bretain (fun _ task =>
                match dt_state task with
                | TaskRunning => true
                | _ => (cutoff <? dt_started_at_instant task)%Z
                end) store in
  (length store - length kept, kept)%nat.

Section store.
(** [Path::canonicalize] *)
Context (canonicalize : string -> option string).

Definition same_project_dir (a b : string) : bool :=
  bool_decide (canonicalize a = canonicalize b).

Definition is_running (task_name : string) (run_id : option string) (project_dir : string)
    (task : DetachedTaskExecution) : bool :=
  bool_decide (dt_state task = TaskRunning) && bool_decide (dt_task task = task_name)
  && match dt_run_id task, run_id with
     | Some existing, Some candidate => bool_decide (existing = candidate)
     | None, None => same_project_dir (dt_project_dir task) project_dir
     | _, _ => false
     end.

Definition has_running_task (task_name : string) (run_id : option string) (project_dir : string)
    (store : TaskStore) : bool :=
  existsb (is_running task_name run_id project_dir) (bvalues store).
End store.

(** ** Starting and finishing *)

Inductive DaemonTaskEventKind : Type := TaskStarted | TaskEventCompleted | TaskEventFailed.

Record DaemonTaskEvent := mkTaskEvent {
  te_kind : DaemonTaskEventKind;
  te_execution_id : string;
  te_task : string;
  te_run_id : option string;
  te_state : TaskExecutionState;
  te_started_at : string;
  te_finished_at : option string;
  te_exit_code : option Z;
  te_duration_ms : option Z;
}.

Definition task_event (task : DetachedTaskExecution) (kind : DaemonTaskEventKind)
    : DaemonTaskEvent :=
  mkTaskEvent kind (dt_execution_id task) (dt_task task) (dt_run_id task) (dt_state task)
    (dt_started_at task) (dt_finished_at task) (dt_exit_code task) (dt_duration_ms task).

(** [start_task] takes the lock of the store twice: it looks for a running
    execution, then it adds its own. *)
Definition start_check (canonicalize : string -> option string) (task : DetachedTaskExecution)
    (store : TaskStore) : outcome unit :=
  fail_if (has_running_task canonicalize (dt_task task) (dt_run_id task) (dt_project_dir task) store)
    ("task '" +:+ dt_task task +:+ "' is already running").

Definition start_add (task : DetachedTaskExecution) (store : TaskStore)
    : outcome DaemonTaskEvent * TaskStore :=
  let '(r, store) := add_task task store in
  ((_ ← r; Ok (task_event task TaskStarted)), store).

(** What [execute_detached_task] does when the task has ended: [result] is its exit
    code, unless it could not be run. *)
Definition finish_task (now : Now) (detached_task : DetachedTaskExecution) (result : option Z)
    (store : TaskStore) : DaemonTaskEvent * TaskStore :=
  let '(updated, store) := update_task_state now (dt_execution_id detached_task) result store in
  let updated_task := default detached_task (ok updated) in
  let kind := if bool_decide (dt_state updated_task = TaskCompleted)
              then TaskEventCompleted else TaskEventFailed in
  (task_event updated_task kind, store).

(** ** History *)

Record TaskExecution := mkExecution {
  ex_task : string;
  ex_started_at : string;
  ex_finished_at : string;
  ex_exit_code : Z;
  ex_duration_ms : Z;
  ex_log_file : string;
  ex_scope : string;
}.

Definition TaskHistory : Type := list TaskExecution.

(** [left < right] and [left <= right] on strings. *)
Definition str_lt (a b : string) : bool := match kcmp a b with Lt => true | _ => false end.
Definition str_le (a b : string) : bool := match kcmp a b with Gt => false | _ => true end.

(** Whether an execution takes the place of the latest one so far. *)
Definition supersedes (execution current : TaskExecution) : bool :=
  str_lt (ex_finished_at current) (ex_finished_at execution)
  || (bool_decide (ex_finished_at execution = ex_finished_at current)
      && str_le (ex_started_at current) (ex_started_at execution)).

Definition latest_step (latest : bmap string TaskExecution) (execution : TaskExecution)
    : bmap string TaskExecution :=
  match bget (ex_task execution) latest with
  | None => binsert (ex_task execution) execution latest
  | Some current =>
      if supersedes execution current then binsert (ex_task execution) execution latest
      else latest
  end.

Definition latest_by_task (history : TaskHistory) : bmap string TaskExecution :=
  foldl latest_step [] history.

Inductive TaskLogScope : Type := ScopeOfRun (run_id : string) | AdHoc.

Definition task_scope_label (scope : TaskLogScope) : string :=
  match scope with ScopeOfRun run_id => "run:" +:+ run_id | AdHoc => "adhoc" end.

Record TaskResult := mkResult {
  tr_exit_code : Z;
  tr_duration_ms : Z;              (** [Duration::as_millis] *)
  tr_last_stderr_line : option string;
}.

Definition success (r : TaskResult) : bool := (tr_exit_code r =? 0)%Z.

(** [append_task_execution], on the history that was loaded. *)
Definition append_task_execution (history : TaskHistory) (task_name : string)
    (scope : TaskLogScope) (started_at finished_at : string) (result : TaskResult)
    : TaskHistory :=
  history ++ [mkExecution task_name started_at finished_at (tr_exit_code result)
                (Z.min (tr_duration_ms result) u64_max) (task_name +:+ ".log")
                (task_scope_label scope)].

Record TaskExecutionSummary := mkSummary {
  sm_task : string;
  sm_execution_id : option string;
  sm_state : TaskExecutionState;
  sm_started_at : string;
  sm_finished_at : option string;
  sm_exit_code : option Z;
  sm_duration_ms : option Z;
}.

Definition task_summary_from_history (execution : TaskExecution) : TaskExecutionSummary :=
  mkSummary (ex_task execution) None
    (if (ex_exit_code execution =? 0)%Z then TaskCompleted else TaskFailed)
    (ex_started_at execution) (Some (ex_finished_at execution)) (Some (ex_exit_code execution))
    (Some (ex_duration_ms execution)).

Definition task_summary_from_detached (now : Z) (task : DetachedTaskExecution)
    : TaskExecutionSummary :=
  mkSummary (dt_task task) (Some (dt_execution_id task)) (dt_state task) (dt_started_at task)
    (dt_finished_at task) (dt_exit_code task) (Some (current_duration_ms now task)).

Definition merge_task_summary (tasks : bmap string TaskExecutionSummary)
    (summary : TaskExecutionSummary) : bmap string TaskExecutionSummary :=
  let replace := match bget (sm_task summary) tasks with
                 | Some current => str_le (sm_started_at current) (sm_started_at summary)
                 | None => true
                 end in
  if replace then binsert (sm_task summary) summary tasks else tasks.

(** The tasks of a run, from its history and the store. *)
Definition run_tasks (now : Z) (run_id : string) (history : TaskHistory) (store : TaskStore)
    : list TaskExecutionSummary :=
  let tasks := foldl (fun tasks execution =>
                 merge_task_summary tasks (task_summary_from_history execution))
                 [] (bvalues (latest_by_task history)) in
  let tasks := foldl (fun tasks task =>
                 merge_task_summary tasks (task_summary_from_detached now task))
                 tasks (list_tasks_for_run run_id store) in
  bvalues tasks.

(** ** Init and post-init tasks *)

Definition task_watch (task : TaskConfig) : list string :=
  match task with TaskCommand _ => [] | TaskStructured def => td_watch def end.

Definition task_cwd (task : TaskConfig) (project_dir : string) : string :=
  match task with
  | TaskCommand _ => project_dir
  | TaskStructured def =>
      match td_cwd def with
      | Some p => if is_absolute p then p else path_join project_dir p
      | None => project_dir
      end
  end.

Section runner.
(** The [n]th task that is run, and the hash of its watched files, computed as the
    [n]th such hash. *)
Context (run_task : nat -> string -> TaskConfig -> outcome TaskResult).
Context (compute_watch_hash : nat -> string -> list string -> outcome string).
Context (project_dir : string).

(** The files of stored hashes by task, the tasks that ran so far, in order, and
    the number of hashes computed. *)
Record RunnerState := mkRunner {
  ru_hashes : bmap string string;
  ru_ran : list string;
  ru_clock : nat;
}.

(** [task_hash_path] rejects a name that is no path component. *)
Definition load_stored_hash (task_name : string) (s : RunnerState) : outcome (option string) :=
  _ ← validate_name_for_path_component "task" task_name;
  Ok (str_trim <$> bget task_name (ru_hashes s)).

Definition store_hash (task_name hash : string) (s : RunnerState) : outcome RunnerState :=
  _ ← validate_name_for_path_component "task" task_name;
  Ok (mkRunner (binsert task_name hash (ru_hashes s)) (ru_ran s) (ru_clock s)).

(** Runs one task; an exit code other than 0 is an error. *)
Definition run_and_expect_success (phase name : string) (task : TaskConfig) (s : RunnerState)
    : outcome unit * RunnerState :=
  let s' := mkRunner (ru_hashes s) (ru_ran s ++ [name]) (ru_clock s) in
  ((result ← run_task (length (ru_ran s)) name task;
    fail_if (negb (success result))
      (phase +:+ " task '" +:+ name +:+ "' failed with exit code "
       +:+ pretty (tr_exit_code result))), s').

Definition run_service_task (skip_if_unchanged : bool) (phase name : string) (task : TaskConfig)
    (s : RunnerState) : outcome unit * RunnerState :=
  let watch := task_watch task in
  if skip_if_unchanged && negb (bool_decide (watch = [])) then
    match compute_watch_hash (ru_clock s) (task_cwd task project_dir) watch with
    | Ok new_hash =>
        let s := mkRunner (ru_hashes s) (ru_ran s) (S (ru_clock s)) in
        match load_stored_hash name s with
        | Ok stored =>
            if bool_decide (stored = Some new_hash) then (Ok tt, s) else
            match run_and_expect_success phase name task s with
            | (Ok _, s) =>
                match store_hash name new_hash s with
                | Ok s => (Ok tt, s)
                | o => (_ ← o; Ok tt, s)
                end
            | r => r
            end
        | o => (_ ← o; Ok tt, s)
        end
    | o => (_ ← o; Ok tt, s)
    end
  else run_and_expect_success phase name task s.

Fixpoint run_service_tasks (tasks : bmap string TaskConfig) (skip_if_unchanged : bool)
    (phase : string) (task_names : list string) (s : RunnerState) : outcome unit * RunnerState :=
  match task_names with
  | [] => (Ok tt, s)
  | name :: task_names =>
      match bget name tasks with
      | None => (Err ("unknown " +:+ phase +:+ " task '" +:+ name +:+ "'"), s)
      | Some task =>
          match run_service_task skip_if_unchanged phase name task s with
          | (Ok _, s) => run_service_tasks tasks skip_if_unchanged phase task_names s
          | r => r
          end
      end
  end.

Definition run_init_tasks (tasks : bmap string TaskConfig) (init : list string)
    : RunnerState -> outcome unit * RunnerState := run_service_tasks tasks true "init" init.

Definition run_post_init_tasks (tasks : bmap string TaskConfig) (post_init : list string)
    : RunnerState -> outcome unit * RunnerState :=
  run_service_tasks tasks false "post_init" post_init.
End runner.

(** ** The runner *)

Section runner_lemmas.
Context (run_task : nat -> string -> TaskConfig -> outcome TaskResult).
Context (compute_watch_hash : nat -> string -> list string -> outcome string).
Context (project_dir : string) (tasks : bmap string TaskConfig).

Abbreviation run1 := (run_service_task run_task compute_watch_hash project_dir).
Abbreviation runs := (run_service_tasks run_task compute_watch_hash project_dir tasks).

(** What one task may do: nothing; run; run with success and store a new hash. *)
Inductive task_effect (name : string) (task : TaskConfig) (s : RunnerState)
    : outcome unit -> RunnerState -> Prop :=
| effect_none r c : task_effect name task s r (mkRunner (ru_hashes s) (ru_ran s) c)
| effect_ran r c :
    (r = Ok tt -> exists res, run_task (length (ru_ran s)) name task = Ok res /\ success res = true) ->
    task_effect name task s r (mkRunner (ru_hashes s) (ru_ran s ++ [name]) c)
| effect_stored c h res :
    run_task (length (ru_ran s)) name task = Ok res -> success res = true ->
    task_effect name task s (Ok tt)
      (mkRunner (binsert name h (ru_hashes s)) (ru_ran s ++ [name]) c).

Lemma run_and_expect_Ok phase name task s u s' :
  run_and_expect_success run_task phase name task s = (Ok u, s') ->
  exists res, run_task (length (ru_ran s)) name task = Ok res /\ success res = true.
Proof.
  unfold run_and_expect_success. intros [= H _]. outcome_simpl. eexists.
  split; [eassumption|]. by apply negb_false_iff.
Qed.

Lemma run_service_task_effect skip phase name task s :
  task_effect name task s (run1 skip phase name task s).1 (run1 skip phase name task s).2.
Proof.
  unfold run_service_task.
  assert (forall c, task_effect name task s
    (run_and_expect_success run_task phase name task (mkRunner (ru_hashes s) (ru_ran s) c)).1
    (run_and_expect_success run_task phase name task (mkRunner (ru_hashes s) (ru_ran s) c)).2) as Hrun.
  { intros c. unfold run_and_expect_success. cbn [fst snd ru_hashes ru_ran].
    apply effect_ran. intros Hr. outcome_simpl. eexists. split; [eassumption|by apply negb_false_iff]. }
  destruct (skip && _); [|destruct s; apply Hrun].
  destruct (compute_watch_hash _ _ _) as [h|e| |]; try (destruct s; apply effect_none).
  destruct (load_stored_hash _ _) as [stored|e| |]; try apply effect_none.
  case_bool_decide; [apply effect_none|]. specialize (Hrun (S (ru_clock s))).
  destruct (run_and_expect_success _ _ _ _ _) as [[u|e| |] s1] eqn:E; try done.
  apply run_and_expect_Ok in E as Hok. destruct Hok as (res & Hres & Hs).
  unfold run_and_expect_success in E. injection E as _ <-.
  unfold store_hash. destruct (validate_name_for_path_component _ _); simpl; try by apply effect_ran.
  by apply (effect_stored name task s _ h res).
Qed.

(** The init tasks of a service run one after the other, in the order of the
    list, and none after a failure. A stored hash changes only for a task that
    ran with success in this very run, so a task that failed runs again. *)
Theorem service_tasks_trace (skip : bool) (phase : string) (names : list string) (s : RunnerState) :
  let s' := (runs skip phase names s).2 in
  (exists ran, ru_ran s' = ru_ran s ++ ran /\ ran `sublist_of` names) /\
  (forall name, bget name (ru_hashes s') <> bget name (ru_hashes s) ->
   exists n task res, ru_ran s' !! n = Some name /\ (length (ru_ran s) <= n)%nat /\
     run_task n name task = Ok res /\ success res = true).
Proof.
  cbv zeta. revert s. induction names as [|name names IH]; intros s; cbn [run_service_tasks].
  { split; [exists []; by rewrite app_nil_r|done]. }
  destruct (bget name tasks) as [task|];
    [|split; [exists []; rewrite app_nil_r; split; [done|apply sublist_nil_l]|done]].
  pose proof (run_service_task_effect skip phase name task s) as Heff.
  destruct (run1 skip phase name task s) as [o s1]. cbn [fst snd] in Heff.
  assert ((exists l, ru_ran s1 = ru_ran s ++ l /\ (l = [] \/ l = [name])) /\
    forall j, bget j (ru_hashes s1) <> bget j (ru_hashes s) ->
      j = name /\ ru_ran s1 = ru_ran s ++ [name] /\ exists res,
        run_task (length (ru_ran s)) name task = Ok res /\ success res = true) as [(l & Hl & Hor) Hh].
  { destruct Heff as [o c|o c Ho|c h res Hr Hs]; simpl.
    - split; [exists []; rewrite app_nil_r; auto|done].
    - split; [exists [name]; auto|done].
    - split; [exists [name]; auto|]. intros j Hj. rewrite bget_binsert in Hj.
      destruct (keqb name j) eqn:E; [|done]. apply keqb_true in E as ->. eauto. }
  assert (l `sublist_of` [name]) as Hsub
    by (destruct Hor as [->| ->]; [apply sublist_nil_l|done]).
  assert (forall more, more `sublist_of` names -> l ++ more `sublist_of` name :: names) as Hcons
    by (intros more Hmore; change (name :: names) with ([name] ++ names); by apply sublist_app).
  assert (forall s2 more, ru_ran s2 = ru_ran s1 ++ more -> forall j,
    bget j (ru_hashes s1) <> bget j (ru_hashes s) ->
    exists n task res, ru_ran s2 !! n = Some j /\ (length (ru_ran s) <= n)%nat /\
      run_task n j task = Ok res /\ success res = true) as Hfirst.
  { intros s2 more Hs2 j Hj. destruct (Hh j Hj) as (-> & Hs1 & res & Hr & Hs).
    exists (length (ru_ran s)), task, res. rewrite Hs2, Hs1. split_and!; try done.
    rewrite <- app_assoc, lookup_app_r, Nat.sub_diag by lia. done. }
  destruct o as [u|e| |]; cbn [snd].
  2-4: split; [exists l; split; [done|]; rewrite <- (app_nil_r l); apply Hcons, sublist_nil_l|];
       intros j Hj; by apply (Hfirst s1 []); [rewrite app_nil_r|].
  destruct (IH s1) as [(more & Hmore & Hsub2) Hh2]. split.
  - exists (l ++ more). rewrite Hmore, Hl, app_assoc. split; [done|].
    by apply Hcons.
  - intros j Hj. destruct (decide (bget j (ru_hashes (runs skip phase names s1).2)
                                    = bget j (ru_hashes s1))) as [Heq|Hne].
    + rewrite Heq in Hj. by eapply Hfirst.
    + destruct (Hh2 j Hne) as (n & t & res & Hn & Hle & Hr & Hs).
      exists n, t, res. split_and!; try done. rewrite Hl, length_app in Hle. lia.
Qed.

(** *** Incremental runs *)

(** The watched files do not change: the hash is that of the task, and it is stored
    as it is. *)
Context (h : string -> list string -> string).

Definition hash_of (task : TaskConfig) : string := h (task_cwd task project_dir) (task_watch task).

Definition unchanged : Prop :=
  forall n cwd watch, compute_watch_hash n cwd watch = Ok (h cwd watch) /\
    str_trim (h cwd watch) = h cwd watch.

Definition watched (name : string) : bool :=
  match bget name tasks with
  | Some task => negb (bool_decide (task_watch task = []))
  | None => false
  end.

(** The hash of a watched task is stored. *)
Definition recorded (name : string) (s : RunnerState) : Prop :=
  forall task, bget name tasks = Some task -> watched name = true ->
    str_trim <$> bget name (ru_hashes s) = Some (hash_of task).

Lemma recorded_step (Hu : unchanged) phase name task s u s' :
  bget name tasks = Some task -> run1 true phase name task s = (Ok u, s') ->
  recorded name s' /\ forall j, recorded j s -> recorded j s'.
Proof.
  intros Ht. unfold run_service_task, recorded, watched. rewrite Ht. cbn [andb].
  destruct (Hu (ru_clock s) (task_cwd task project_dir) (task_watch task)) as [-> Htrim].
  case_bool_decide as Hw; cbn [negb].
  { unfold run_and_expect_success. intros [= _ <-]. split; [done|auto]. }
  unfold load_stored_hash.
  destruct (validate_name_for_path_component "task" name) as [[]| | |] eqn:Hv; try done.
  cbn [mbind outcome_bind ru_hashes].
  case_bool_decide as Hs.
  { intros [= _ <-]. cbn [ru_hashes]. split; [|auto]. intros t' [= <-] _. exact Hs. }
  unfold run_and_expect_success. destruct (run_task _ _ _) as [res| | |]; try done.
  cbn [mbind outcome_bind]. destruct (fail_if _ _); try done.
  unfold store_hash. rewrite Hv. cbn [mbind outcome_bind ru_hashes].
  intros [= _ <-]. cbn [ru_hashes]. split.
  - intros t' [= <-] _. rewrite bget_binsert_eq. simpl. unfold hash_of. by rewrite Htrim.
  - intros j Hj t' Ht' Hwj. rewrite bget_binsert. destruct (keqb name j) eqn:E; [|by apply Hj].
    apply keqb_true in E as ->. rewrite Ht in Ht'. injection Ht' as <-. simpl.
    unfold hash_of. by rewrite Htrim.
Qed.

Lemma recorded_after (Hu : unchanged) phase names s u s' :
  runs true phase names s = (Ok u, s') ->
  (forall name, name ∈ names -> recorded name s') /\ forall j, recorded j s -> recorded j s'.
Proof.
  revert s. induction names as [|name names IH]; intros s; cbn [run_service_tasks].
  { intros [= _ <-]. split; [by intros j ?%elem_of_nil|auto]. }
  destruct (bget name tasks) as [task|] eqn:Ht; [|done].
  destruct (run1 true phase name task s) as [[u1| | |] s1] eqn:E1; try done.
  intros Hrest. destruct (recorded_step Hu _ _ _ _ _ _ Ht E1) as [Hn Hk].
  destruct (IH _ Hrest) as [Hns Hks]. split.
  - intros j [->|Hj]%elem_of_cons; auto.
  - auto.
Qed.

Lemma skip_recorded (Hu : unchanged) phase names s u s' :
  (forall name, name ∈ names -> recorded name s) ->
  runs true phase names s = (Ok u, s') ->
  ru_ran s' = ru_ran s ++ List.filter (fun name => negb (watched name)) names /\
  ru_hashes s' = ru_hashes s.
Proof.
  revert s. induction names as [|name names IH]; intros s Hr; cbn [run_service_tasks].
  { intros [= _ <-]. by rewrite app_nil_r. }
  destruct (bget name tasks) as [task|] eqn:Ht; [|done].
  destruct (run1 true phase name task s) as [[u1| | |] s1] eqn:E1; try done.
  intros Hrest. pose proof (Hr name ltac:(left) task Ht) as Hrec.
  assert (ru_hashes s1 = ru_hashes s /\
    ru_ran s1 = ru_ran s ++ (if watched name then [] else [name])) as [Hh Hran].
  { revert E1. unfold run_service_task. cbn [andb].
    destruct (Hu (ru_clock s) (task_cwd task project_dir) (task_watch task)) as [-> _].
    assert (watched name = negb (bool_decide (task_watch task = []))) as Hw
      by (unfold watched; by rewrite Ht).
    rewrite <- Hw. destruct (watched name).
    - unfold load_stored_hash. destruct (validate_name_for_path_component _ _); try done.
      cbn [mbind outcome_bind ru_hashes]. rewrite Hrec by done.
      rewrite bool_decide_eq_true_2 by done. intros [= _ <-]. by rewrite app_nil_r.
    - unfold run_and_expect_success. by intros [= _ <-]. }
  apply IH in Hrest as [Hran2 Hh2].
  2:{ intros j Hj t' Ht' Hw. rewrite Hh. apply Hr; [by right|done..]. }
  rewrite Hran2, Hran, Hh2, Hh, <- app_assoc. cbn [List.filter]. by destruct (watched name).
Qed.

(** Init tasks are incremental. After a run that succeeded, and while the
    watched files do not change, another run of the same tasks skips every task
    that watches files and runs only the others; it stores nothing new. *)
Theorem init_tasks_incremental (names : list string) (s s1 s2 : RunnerState) :
  unchanged ->
  run_init_tasks run_task compute_watch_hash project_dir tasks names s = (Ok tt, s1) ->
  run_init_tasks run_task compute_watch_hash project_dir tasks names s1 = (Ok tt, s2) ->
  ru_ran s2 = ru_ran s1 ++ List.filter (fun name => negb (watched name)) names /\
  ru_hashes s2 = ru_hashes s1.
Proof.
  intros Hu H1 H2. eapply skip_recorded; [done| |exact H2].
  by eapply recorded_after.
Qed.
End runner_lemmas.

(** ** The store and the executions *)

(** Two executions of one task: for one run, or without a run in one directory. *)
Definition same_work (canonicalize : string -> option string) (t1 t2 : DetachedTaskExecution) : Prop :=
  dt_task t1 = dt_task t2 /\
  match dt_run_id t1, dt_run_id t2 with
  | Some run1, Some run2 => run1 = run2
  | None, None => canonicalize (dt_project_dir t1) = canonicalize (dt_project_dir t2)
  | _, _ => False
  end.

(** The store, the starts that have looked and not yet added, and the executions that
    [execute_detached_task] has not ended. *)
Record TaskSystem := mkTaskSystem {
  ts_store : TaskStore;
  ts_starting : list DetachedTaskExecution;
  ts_executing : list DetachedTaskExecution;
}.

Inductive TaskStep : Type :=
  | StartChecked (task : DetachedTaskExecution)
  | StartAdded (task : DetachedTaskExecution)
  | StartRefused (task : DetachedTaskExecution)
  | ExecutionEnded (now : Now) (task : DetachedTaskExecution) (result : option Z)
  | StoreCleaned (now now2 max_age_secs : Z).

Section system.
Context (canonicalize : string -> option string).

(** A step takes the lock of the store once; those of different requests and executions
    come in any order. A start that finds a running execution ends. *)
Inductive store_step : TaskSystem -> TaskStep -> TaskSystem -> Prop :=
  | step_checked now execution_id task project_dir run_id store starting executing :
      let task := DetachedTaskExecution_new now execution_id task project_dir run_id in
      start_check canonicalize task store = Ok tt ->
      store_step (mkTaskSystem store starting executing) (StartChecked task)
        (mkTaskSystem store (task :: starting) executing)
  | step_added task before after store executing event store' :
      start_add task store = (Ok event, store') ->
      store_step (mkTaskSystem store (before ++ task :: after) executing) (StartAdded task)
        (mkTaskSystem store' (before ++ after) (task :: executing))
  | step_refused task before after store executing err store' :
      start_add task store = (Err err, store') ->
      store_step (mkTaskSystem store (before ++ task :: after) executing) (StartRefused task)
        (mkTaskSystem store' (before ++ after) executing)
  | step_finished now task result before after store starting event store' :
      finish_task now task result store = (event, store') ->
      store_step (mkTaskSystem store starting (before ++ task :: after)) (ExecutionEnded now task result)
        (mkTaskSystem store' starting (before ++ after))
  | step_cleaned now now2 max_age_secs store starting executing :
      store_step (mkTaskSystem store starting executing) (StoreCleaned now now2 max_age_secs)
        (mkTaskSystem (cleanup_finished_tasks now now2 max_age_secs store).2 starting executing).

Inductive task_trace : list TaskStep -> TaskSystem -> Prop :=
  | trace_start : task_trace [] (mkTaskSystem [] [] [])
  | trace_step trace st step st' :
      task_trace trace st -> store_step st step st' -> task_trace (trace ++ [step]) st'.
End system.

(** A record that agrees with itself. *)
Definition task_ok (t : DetachedTaskExecution) : Prop :=
  (dt_state t = TaskRunning <-> dt_finished_at t = None) /\
  (dt_state t = TaskCompleted -> dt_exit_code t = Some 0%Z) /\
  match dt_duration_ms t with
  | Some d => dt_state t <> TaskRunning /\ in_range 0 u64_max d
  | None => dt_state t = TaskRunning
  end.

Lemma elapsed_range now start : in_range 0 u64_max (elapsed_ms now start).
Proof.
  unfold elapsed_ms, in_range, u64_max.
  pose proof (Z.div_pos (Z.max 0 (now - start)) 1000000 ltac:(lia) ltac:(lia)). lia.
Qed.

(** A record as it is when its task has ended. *)
Definition ended_task (now : Now) (result : option Z) (t : DetachedTaskExecution) : DetachedTaskExecution :=
  match result with Some code => mark_completed now code t | None => mark_failed now t end.

Lemma ended_task_ok now result t :
  task_ok (ended_task now result t) /\ dt_state (ended_task now result t) <> TaskRunning /\
  dt_execution_id (ended_task now result t) = dt_execution_id t /\
  (dt_state (ended_task now result t) = TaskCompleted <-> result = Some 0%Z).
Proof.
  pose proof (elapsed_range (now_instant now) (dt_started_at_instant t)) as Hr.
  destruct result as [code|]; unfold ended_task, task_ok; simpl; [|by split_and!].
  destruct (Z.eqb_spec code 0) as [->|]; split_and!; try done; naive_solver.
Qed.

(** What holds of the system all the time. *)
Record system_ok (st : TaskSystem) : Prop := {
  so_wf : bwf (ts_store st);
  so_record : forall id t, bget id (ts_store st) = Some t -> dt_execution_id t = id /\ task_ok t;
  so_running : forall t, t ∈ ts_executing st <->
    dt_state t = TaskRunning /\ bget (dt_execution_id t) (ts_store st) = Some t;
  so_once : NoDup (map dt_execution_id (ts_executing st));
  so_starting : forall t, t ∈ ts_starting st -> dt_state t = TaskRunning /\ task_ok t;
}.

(** The check looks for an execution of the same work. *)
Lemma start_check_spec canonicalize task st :
  system_ok st ->
  start_check canonicalize task (ts_store st) = Ok tt <->
  forall t, t ∈ ts_executing st -> ~ same_work canonicalize t task.
Proof.
  intros [Hw Hrec Hrun _ _].
  assert (forall t, is_running canonicalize (dt_task task) (dt_run_id task) (dt_project_dir task) t = true <->
    dt_state t = TaskRunning /\ same_work canonicalize t task) as Hspec.
  { intros t. unfold is_running, same_work, same_project_dir.
    rewrite !andb_true_iff, !bool_decide_eq_true.
    destruct (dt_run_id t), (dt_run_id task); rewrite ?bool_decide_eq_true; naive_solver. }
  assert (has_running_task canonicalize (dt_task task) (dt_run_id task) (dt_project_dir task) (ts_store st) = true <->
    exists t, t ∈ ts_executing st /\ same_work canonicalize t task) as Hhas.
  { unfold has_running_task. rewrite existsb_exists. split.
    - intros (t & Hin & [Ht Hs]%Hspec). exists t. split; [|done]. apply Hrun. split; [done|].
      apply list_elem_of_In, list_elem_of_fmap in Hin as ([id t'] & -> & Hin). simpl in *.
      apply bget_in in Hin; [|done]. by rewrite (proj1 (Hrec _ _ Hin)).
    - intros (t & [Ht Hb]%Hrun & Hs). exists t. split; [|by apply Hspec]. apply list_elem_of_In.
      apply bget_Some_in in Hb. apply list_elem_of_fmap. by exists (dt_execution_id t, t). }
  unfold start_check. rewrite fail_if_Ok, <- not_true_iff_false, Hhas. naive_solver.
Qed.

Lemma checked_ok st task :
  system_ok st -> dt_state task = TaskRunning -> task_ok task ->
  system_ok (mkTaskSystem (ts_store st) (task :: ts_starting st) (ts_executing st)).
Proof. intros [Hw Hrec Hrun Hnd Hst] ??. constructor; simpl; try done. intros t [->|?]%elem_of_cons; auto. Qed.

Lemma added_ok store before after executing task event store' :
  system_ok (mkTaskSystem store (before ++ task :: after) executing) ->
  start_add task store = (Ok event, store') ->
  system_ok (mkTaskSystem store' (before ++ after) (task :: executing)).
Proof.
  intros [Hw Hrec Hrun Hnd Hst] Ha. simpl in *. destruct (Hst task) as [Hr Hok]; [set_solver|].
  unfold start_add, add_task in Ha. destruct (bcontains (dt_execution_id task) store) eqn:Hc; [done|].
  injection Ha as _ <-. assert (bget (dt_execution_id task) store = None) as Hn.
  { unfold bcontains in Hc. by destruct (bget (dt_execution_id task) store). }
  constructor; simpl; [by apply bwf_binsert|..].
  - intros id t. rewrite bget_binsert. destruct (keqb _ id) eqn:E; [|apply Hrec].
    apply keqb_true in E as <-. by intros [= <-].
  - intros t. rewrite elem_of_cons, Hrun, bget_binsert.
    destruct (keqb (dt_execution_id task) (dt_execution_id t)) eqn:E; [|apply keqb_false in E; naive_solver].
    apply keqb_true in E. rewrite <- E, Hn. naive_solver.
  - constructor; [|done]. intros (t & Hid & Ht)%list_elem_of_fmap. apply Hrun in Ht as [_ Ht]. congruence.
  - intros t Ht. apply Hst. set_solver.
Qed.

Lemma refused_ok store before after executing task err store' :
  system_ok (mkTaskSystem store (before ++ task :: after) executing) ->
  start_add task store = (Err err, store') ->
  system_ok (mkTaskSystem store' (before ++ after) executing).
Proof.
  intros [Hw Hrec Hrun Hnd Hst] Ha. unfold start_add, add_task in Ha.
  destruct (bcontains _ _); [|done]. injection Ha as _ <-. constructor; simpl; try done.
  intros t Ht. apply Hst. simpl. set_solver.
Qed.

(** The end of an execution finds its record. *)
Lemma finish_spec now task result store store' event :
  bget (dt_execution_id task) store = Some task ->
  finish_task now task result store = (event, store') ->
  store' = binsert (dt_execution_id task) (ended_task now result task) store /\
  event = task_event (ended_task now result task)
            (if bool_decide (result = Some 0%Z) then TaskEventCompleted else TaskEventFailed).
Proof.
  intros Hb. unfold finish_task, update_task_state. rewrite Hb. fold (ended_task now result task).
  cbn [default ok]. intros [= <- <-]. split; [done|]. f_equal.
  destruct (ended_task_ok now result task) as (_ & _ & _ & Hc).
  by repeat case_bool_decide; naive_solver.
Qed.

Lemma execution_ended_ok now result store starting before after task event store' :
  system_ok (mkTaskSystem store starting (before ++ task :: after)) ->
  finish_task now task result store = (event, store') ->
  system_ok (mkTaskSystem store' starting (before ++ after)).
Proof.
  intros [Hw Hrec Hrun Hnd Hst] Hf. simpl in *.
  destruct (proj1 (Hrun task)) as [_ Hb]; [set_solver|].
  apply finish_spec in Hf as [-> _]; [|done]. destruct (ended_task_ok now result task) as (Hok & Hne & Hid & _).
  assert (map dt_execution_id (before ++ task :: after)
    ≡ₚ dt_execution_id task :: map dt_execution_id (before ++ after)) as Hp by by rewrite <- Permutation_middle.
  rewrite Hp in Hnd. apply NoDup_cons in Hnd as [Hni Hnd].
  assert (forall t, t ∈ before ++ after -> dt_execution_id t <> dt_execution_id task) as Hother.
  { intros t Ht Heq. apply Hni. rewrite <- Heq. by apply list_elem_of_fmap_2. }
  constructor; simpl; [by apply bwf_binsert|..|done|done].
  - intros id t. rewrite bget_binsert. destruct (keqb _ id) eqn:E; [|apply Hrec].
    apply keqb_true in E as <-. by intros [= <-].
  - intros t. rewrite bget_binsert. destruct (keqb (dt_execution_id task) (dt_execution_id t)) eqn:E.
    + apply keqb_true in E. split; [by intros ?%Hother|]. intros [? [= <-]]. done.
    + apply keqb_false in E. rewrite <- Hrun, !elem_of_app, elem_of_cons. naive_solver.
Qed.

Lemma cleaned_ok now now2 max_age_secs st :
  system_ok st ->
  system_ok (mkTaskSystem (cleanup_finished_tasks now now2 max_age_secs (ts_store st)).2
    (ts_starting st) (ts_executing st)).
Proof.
  intros [Hw Hrec Hrun Hnd Hst]. unfold cleanup_finished_tasks. cbn [snd]. set (f := fun (_ : string) task => _).
  constructor; simpl; [by apply bwf_bretain|..|done|done].
  - intros id t. rewrite bget_bretain by done. destruct (bget id (ts_store st)) as [t0|] eqn:Hb; [|done].
    destruct (f id t0); [|done]. intros [= <-]. by apply Hrec.
  - intros t. rewrite Hrun, bget_bretain by done.
    destruct (bget (dt_execution_id t) (ts_store st)) as [t0|]; [|done].
    split; [intros [Hr [= ->]]|]; [unfold f; by rewrite Hr|]. intros [Hr Hb]. split; [done|]. by destruct (f _ t0).
Qed.

Lemma trace_ok canonicalize trace st : task_trace canonicalize trace st -> system_ok st.
Proof.
  induction 1 as [|trace st step st' _ IH Hs].
  - constructor; simpl; [apply bwf_nil|done|by intros t; split; [intros ?%elem_of_nil|intros []]|constructor|].
    by intros t ?%elem_of_nil.
  - destruct Hs.
    + by apply (checked_ok _ _ IH).
    + by eapply added_ok.
    + by eapply refused_ok.
    + by eapply execution_ended_ok.
    + by apply (cleaned_ok _ _ _ _ IH).
Qed.

(** What executes was added, now or before. *)
Lemma step_executing canonicalize st step st' t :
  store_step canonicalize st step st' -> t ∈ ts_executing st' -> step = StartAdded t \/ t ∈ ts_executing st.
Proof. destruct 1; simpl; intros Hin; try by right. - apply elem_of_cons in Hin as [->|]; auto. - right. set_solver. Qed.

Lemma checked_first canonicalize trace st t :
  task_trace canonicalize trace st -> t ∈ ts_starting st \/ t ∈ ts_executing st -> StartChecked t ∈ trace.
Proof.
  induction 1 as [|trace st step st' _ IH Hs]; simpl; [by intros [?%elem_of_nil|?%elem_of_nil]|].
  rewrite elem_of_app, list_elem_of_singleton. destruct Hs; simpl in *; set_solver.
Qed.

(** An execution of the same work as one that was checked was added after that check. *)
Lemma overlapping canonicalize trace st before t after t' :
  task_trace canonicalize trace st -> trace = before ++ StartChecked t :: after ->
  t' ∈ ts_executing st -> same_work canonicalize t' t -> StartAdded t' ∈ after.
Proof.
  intros Htr. revert after. induction Htr as [|trace st step st' Htr IH Hs]; intros after Heq Hin Hsame.
  { by destruct before. }
  destruct after as [|last after _] using rev_ind.
  - apply app_inj_tail in Heq as [-> ->].
    destruct (step_executing _ _ _ _ _ Hs Hin) as [|Hold]; [done|]. exfalso.
    pose proof (trace_ok _ _ _ Htr) as Hok. inversion Hs as [now id name dir run_id store starting executing task Hc| | | |]. subst.
    by apply (proj1 (start_check_spec canonicalize _ _ Hok) Hc t').
  - rewrite app_comm_cons, app_assoc in Heq. apply app_inj_tail in Heq as [-> ->].
    apply elem_of_app. destruct (step_executing _ _ _ _ _ Hs Hin) as [->|Hold]; [right; by left|left].
    by apply IH.
Qed.

(** C39: The store of tasks tells what executes. However the steps of starts, ends and
    clean-ups interleave, every record has its key and agrees with itself (running without
    an end, completed with exit code 0, a duration that fits [u64]); the records that run are
    those of the tasks that execute, one each, so that no clean-up drops one; the end of an
    execution finds its record, and tells of a completion exactly when the exit code is 0.
    A start passes its check exactly when no execution of the same work - the task for the
    same run, or without a run in the same directory - is under way. Every execution was
    checked, and two of the same work are under way at once only when each was added after
    the other had been checked. *)
Theorem task_store_sound (canonicalize : string -> option string) (trace : list TaskStep) (st : TaskSystem) :
  task_trace canonicalize trace st ->
  (forall id t, bget id (ts_store st) = Some t -> dt_execution_id t = id /\ task_ok t) /\
  (forall t, t ∈ ts_executing st <->
     dt_state t = TaskRunning /\ bget (dt_execution_id t) (ts_store st) = Some t) /\
  NoDup (map dt_execution_id (ts_executing st)) /\
  (forall now t result, t ∈ ts_executing st ->
     let '(event, store) := finish_task now t result (ts_store st) in
     exists t', bget (dt_execution_id t) store = Some t' /\ dt_state t' <> TaskRunning /\
       event = task_event t' (te_kind event) /\
       (te_kind event = TaskEventCompleted <-> result = Some 0%Z) /\
       (te_kind event = TaskEventFailed <-> result <> Some 0%Z)) /\
  (forall task, start_check canonicalize task (ts_store st) = Ok tt <->
     forall t, t ∈ ts_executing st -> ~ same_work canonicalize t task) /\
  (forall t, t ∈ ts_executing st -> StartChecked t ∈ trace) /\
  (forall before t after t', trace = before ++ StartChecked t :: after ->
     t' ∈ ts_executing st -> same_work canonicalize t' t -> StartAdded t' ∈ after).
Proof.
  intros Htr. pose proof (trace_ok _ _ _ Htr) as Hok. destruct Hok as [Hw Hrec Hrun Hnd Hst] eqn:Heq.
  split_and!; [done..| | | |].
  - intros now t result Ht. destruct (finish_task now t result (ts_store st)) as [event store] eqn:Hf.
    apply finish_spec in Hf as [-> ->]; [|by apply Hrun]. exists (ended_task now result t).
    rewrite bget_binsert_eq. destruct (ended_task_ok now result t) as (_ & Hne & _).
    cbn [te_kind task_event]. case_bool_decide; naive_solver.
  - intros task. by apply start_check_spec.
  - intros t Ht. eapply checked_first; [done|by right].
  - intros before t after t'. by apply overlapping.
Qed.

(** [start_task] is a race. It checks under one lock and adds under another: two
    requests for one task of one run that check before either adds both succeed,
    and two executions of the task run. *)
Theorem start_task_race (canonicalize : string -> option string) (now1 now2 : Now)
    (id1 id2 task dir run_id : string) :
  id1 <> id2 ->
  let t1 := DetachedTaskExecution_new now1 id1 task dir (Some run_id) in
  let t2 := DetachedTaskExecution_new now2 id2 task dir (Some run_id) in
  start_check canonicalize t1 [] = Ok tt /\ start_check canonicalize t2 [] = Ok tt /\
  let '(r1, s1) := start_add t1 [] in
  let '(r2, s2) := start_add t2 s1 in
  returns r1 /\ returns r2 /\ bget id1 s2 = Some t1 /\ bget id2 s2 = Some t2 /\ same_work canonicalize t1 t2.
Proof.
  intros Hne. cbv zeta. split_and!; [done..|]. unfold start_add, add_task, bcontains.
  cbn [bget dt_execution_id DetachedTaskExecution_new].
  change (binsert id1 ?t ([] : TaskStore)) with [(id1, t)]. cbn [bget].
  assert (keqb id2 id1 = false) as -> by (apply keqb_false; congruence).
  rewrite bget_binsert_eq, bget_binsert_ne by congruence. cbn [bget]. rewrite keqb_refl.
  by split_and!.
Qed.

(** ** The latest execution *)

Lemma str_le_total a b : str_le a b = true \/ str_le b a = true.
Proof.
  unfold str_le. destruct (kcmp a b) eqn:E; auto. apply kcmp_gt in E. rewrite E. auto.
Qed.

Lemma str_lt_le a b : str_lt a b = true -> str_le b a = false.
Proof. unfold str_lt, str_le. destruct (kcmp a b) eqn:E; try done. apply kcmp_gt in E. by rewrite E. Qed.

Lemma str_le_cases a b : str_le a b = true <-> str_lt a b = true \/ a = b.
Proof.
  unfold str_le, str_lt. destruct (kcmp a b) eqn:E.
  - apply kcmp_eq in E. naive_solver.
  - naive_solver.
  - split; [done|]. intros [?| ->]; [done|]. by rewrite kcmp_refl in E.
Qed.

Lemma str_lt_trans a b c : str_lt a b = true -> str_lt b c = true -> str_lt a c = true.
Proof.
  unfold str_lt. destruct (kcmp a b) eqn:E1; try done. destruct (kcmp b c) eqn:E2; try done.
  by rewrite (kcmp_trans _ _ _ E1 E2).
Qed.

Lemma str_le_trans a b c : str_le a b = true -> str_le b c = true -> str_le a c = true.
Proof.
  rewrite !str_le_cases. intros [H1| ->] [H2| ->]; auto. left. by eapply str_lt_trans.
Qed.

Lemma supersedes_spec e c :
  supersedes e c = true <->
  str_lt (ex_finished_at c) (ex_finished_at e) = true \/
  ex_finished_at e = ex_finished_at c /\ str_le (ex_started_at c) (ex_started_at e) = true.
Proof. unfold supersedes. by rewrite orb_true_iff, andb_true_iff, bool_decide_eq_true. Qed.

Lemma supersedes_refl e : supersedes e e = true.
Proof.
  apply supersedes_spec. right. split; [done|]. apply str_le_cases. by right.
Qed.

Lemma supersedes_trans a b c : supersedes a b = true -> supersedes b c = true -> supersedes a c = true.
Proof.
  rewrite !supersedes_spec. intros [H1|[H1 H1']] [H2|[H2 H2']].
  - left. by eapply str_lt_trans.
  - left. by rewrite <- H2.
  - left. by rewrite H1.
  - right. split; [congruence|]. by eapply str_le_trans.
Qed.

Lemma supersedes_total a b : supersedes a b = false -> supersedes b a = true.
Proof.
  intros Hf. apply not_true_iff_false in Hf. rewrite supersedes_spec in Hf.
  apply supersedes_spec.
  assert (str_le (ex_finished_at a) (ex_finished_at b) = true) as H.
  { destruct (str_le_total (ex_finished_at a) (ex_finished_at b)) as [H|H]; [done|].
    apply str_le_cases in H as [H|H]; [by destruct Hf; left|]. apply str_le_cases. by right. }
  apply str_le_cases in H as [H|H]; [by left|right]. split; [done|].
  destruct (str_le_total (ex_started_at a) (ex_started_at b)) as [Hs|Hs]; [done|].
  destruct Hf. by right.
Qed.

(** The latest execution of a task is one of its executions, and no execution of
    the task in the history ended later, nor ended at the same time and started
    later; a task without executions has none. *)
Theorem latest_by_task_spec (history : TaskHistory) (name : string) :
  match bget name (latest_by_task history) with
  | Some e => e ∈ history /\ ex_task e = name /\
      forall e', e' ∈ history -> ex_task e' = name -> supersedes e e' = true
  | None => forall e, e ∈ history -> ex_task e <> name
  end.
Proof.
  unfold latest_by_task. induction history as [|x history IH] using rev_ind;
    [intros e ?%elem_of_nil; done|].
  rewrite foldl_app. cbn [foldl]. set (latest := foldl latest_step [] history) in *.
  assert (forall e, e ∈ history ++ [x] <-> e ∈ history \/ e = x) as Hin
    by (intros e; by rewrite elem_of_app, list_elem_of_singleton).
  unfold latest_step. destruct (decide (ex_task x = name)) as [Hx|Hx].
  - rewrite Hx. destruct (bget name latest) as [c|] eqn:Ec.
    + destruct IH as (Hc & Hcn & Hmax). destruct (supersedes x c) eqn:Es.
      * rewrite bget_binsert_eq. split_and!; [set_solver|done|].
        intros e' [He'| ->]%Hin Hn; [|apply supersedes_refl]. by eapply supersedes_trans, Hmax.
      * rewrite Ec. split_and!; [set_solver|done|].
        intros e' [He'| ->]%Hin Hn; [by apply Hmax|by apply supersedes_total].
    + rewrite bget_binsert_eq. split_and!; [set_solver|done|].
      intros e' [He'| ->]%Hin Hn; [by destruct (IH e' He')|apply supersedes_refl].
  - assert (bget name (match bget (ex_task x) latest with
                       | Some current => if supersedes x current
                                         then binsert (ex_task x) x latest else latest
                       | None => binsert (ex_task x) x latest
                       end) = bget name latest) as ->.
    { destruct (bget (ex_task x) latest) as [c|]; [destruct (supersedes x c)|];
        by rewrite ?bget_binsert_ne. }
    destruct (bget name latest) as [c|].
    + destruct IH as (Hc & Hcn & Hmax). split_and!; [set_solver|done|].
      intros e' [He'| ->]%Hin Hn; [by apply Hmax|done].
    + intros e [He| ->]%Hin; [by apply IH|done].
Qed.

(** ** Concrete runs *)

Definition sample_run (_ : nat) (_ : string) (_ : TaskConfig) : outcome TaskResult :=
  Ok (mkResult 0 5 None).
Definition sample_watch_hash (_ : nat) (cwd : string) (watch : list string) : outcome string :=
  Ok (if bool_decide (watch = ["src"]) then "abc" else "def").
Definition stable_hash (cwd : string) (watch : list string) : string :=
  if bool_decide (watch = ["src"]) then "abc" else "def".

Definition sample_tasks : bmap string TaskConfig :=
  bcollect [("build", TaskStructured (mkTaskDefinition "make" None ["src"] [] None));
            ("seed", TaskCommand "./seed")].

Lemma init_tasks_incremental_witness :
  let run := run_init_tasks sample_run sample_watch_hash "/p" sample_tasks ["build"; "seed"] in
  ru_ran (run (mkRunner [] [] 0)).2 = ["build"; "seed"] /\
  ru_ran (run (run (mkRunner [] [] 0)).2).2 = ["build"; "seed"; "seed"].
Proof.
  cbv zeta. split; [vm_compute; reflexivity|].
  etransitivity; [|vm_compute; reflexivity].
  refine (proj1 (init_tasks_incremental sample_run sample_watch_hash "/p" sample_tasks stable_hash
    ["build"; "seed"] (mkRunner [] [] 0)
    (run_init_tasks sample_run sample_watch_hash "/p" sample_tasks ["build"; "seed"]
       (mkRunner [] [] 0)).2 _ _ _ _)); [|vm_compute; reflexivity..].
  intros n cwd watch. split; [done|]. unfold stable_hash. by case_bool_decide.
Defined.

(** Two starts of a task that both check before either adds: both execute. *)
Definition two_starts : list TaskStep :=
  let t i := DetachedTaskExecution_new (mkNow "t" 0) i "build" "/p" (Some "r") in
  [StartChecked (t "a"); StartChecked (t "b"); StartAdded (t "a"); StartAdded (t "b")].

Lemma task_store_sound_witness :
  exists st, task_trace Some two_starts st /\ map dt_execution_id (ts_executing st) = ["b"; "a"] /\
    (forall task, start_check Some task (ts_store st) = Ok tt <->
       forall t, t ∈ ts_executing st -> ~ same_work Some t task).
Proof.
  set (t i := DetachedTaskExecution_new (mkNow "t" 0) i "build" "/p" (Some "r")).
  assert (task_trace Some two_starts
    (mkTaskSystem (binsert "b" (t "b") (binsert "a" (t "a") [])) [] [t "b"; t "a"])) as Htr.
  { apply (trace_step _ [StartChecked (t "a"); StartChecked (t "b"); StartAdded (t "a")]
      (mkTaskSystem (binsert "a" (t "a") []) ([] ++ [t "b"]) [t "a"])); [|by eapply (step_added _ _ [])].
    apply (trace_step _ [StartChecked (t "a"); StartChecked (t "b")]
      (mkTaskSystem [] ([t "b"] ++ [t "a"]) [])); [|by eapply (step_added _ _ [_])].
    apply (trace_step _ [StartChecked (t "a")] (mkTaskSystem [] [t "a"] [])); [|by apply step_checked].
    apply (trace_step _ [] (mkTaskSystem [] [] [])); [apply trace_start|by apply step_checked]. }
  eexists. split; [exact Htr|]. split; [reflexivity|].
  exact (proj1 (proj2 (proj2 (proj2 (proj2 (task_store_sound Some two_starts _ Htr)))))).
Defined.

Lemma start_task_race_witness :
  let t i := DetachedTaskExecution_new (mkNow "t" 0) i "build" "/p" (Some "r") in
  same_work Some (t "a") (t "b").
Proof.
  by destruct (start_task_race Some (mkNow "t" 0) (mkNow "t" 0) "a" "b" "build" "/p" "r"
    ltac:(done)) as (_ & _ & _ & _ & _ & _ & Hc).
Defined.
