(* ===== verification/Files.v ===== *)
(** * Files that are replaced at once

    Models [atomic_write] of [src/util.rs] step by step on a file system with
    names and contents of their own, because a file that is open keeps its
    contents when its name moves.  A writer may be stopped between any two steps
    (a crash), every system call may fail, and several writers may run at once.

    The manifests, the snapshots of configurations and the state of the daemon are
    written this way. *)

From S2P Require Import Prelude Bytes Util ConfigValidate.
From Stdlib Require Import Lia.
From stdpp Require Import gmap.

(** ** Names *)

(** [Path::file_stem]: the file name up to its last dot, or the whole name when
    the only dot starts it. *)
Definition file_stem (name : string) : string :=
  let r := reverse (to_bytes name) in
  match find_byte (fun c => Ascii.eqb c ".") r with
  | Some i => if (length r =? S i)%nat then name else of_bytes (reverse (drop (S i) r))
  | None => name
  end.

(** [Path::with_extension] *)
Definition with_extension (p ext : string) : string :=
  match file_name p with
  | None => p
  | Some name =>
      let trimmed :=
        join_pieces (reverse (drop_trivial (reverse (split_on "/"%char (to_bytes p))))) in
      let keep := (length trimmed - String.length name + String.length (file_stem name))%nat in
      of_bytes (take keep trimmed) +:+ "." +:+ ext
  end.

Example with_extension_manifest : with_extension "/d/runs/a.b/manifest.json" "tmp" = "/d/runs/a.b/manifest.tmp".
Proof. reflexivity. Qed.
Example with_extension_snapshot : with_extension "/d/devstack.yml.snapshot/" "tmp" = "/d/devstack.yml.tmp".
Proof. reflexivity. Qed.
Example with_extension_hidden : with_extension ".env" "tmp" = ".env.tmp".
Proof. reflexivity. Qed.

(** ** The file system *)

Record FileSystem := mkFileSystem {
  fs_names : gmap string nat;   (** the inode a name leads to *)
  fs_data : gmap nat string;    (** the contents of an inode *)
  fs_next : nat;
}.

Definition read_file (fs : FileSystem) (p : string) : option string :=
  i ← fs_names fs !! p; fs_data fs !! i.

(** [File::create]: a new file, or the old one without its contents. *)
Definition create_file (p : string) (fs : FileSystem) : nat * FileSystem :=
  match fs_names fs !! p with
  | Some i => (i, mkFileSystem (fs_names fs) (<[i := ""]> (fs_data fs)) (fs_next fs))
  | None =>
      (fs_next fs,
       mkFileSystem (<[p := fs_next fs]> (fs_names fs)) (<[fs_next fs := ""]> (fs_data fs))
         (S (fs_next fs)))
  end.

(** [write(2)] at the end of an open file. *)
Definition append_file (i : nat) (s : string) (fs : FileSystem) : FileSystem :=
  mkFileSystem (fs_names fs) (<[i := default "" (fs_data fs !! i) +:+ s]> (fs_data fs)) (fs_next fs).

(** [rename(2)]; [None] when there is no such file. *)
Definition rename_file (a b : string) (fs : FileSystem) : option FileSystem :=
  i ← fs_names fs !! a;
  Some (mkFileSystem (<[b := i]> (delete a (fs_names fs))) (fs_data fs) (fs_next fs)).

(** No two names lead to one file, and every name leads to one. *)
Record fs_ok (fs : FileSystem) : Prop := {
  ok_names : forall p q i, fs_names fs !! p = Some i -> fs_names fs !! q = Some i -> p = q;
  ok_fresh : forall p i, fs_names fs !! p = Some i -> (i < fs_next fs)%nat;
  ok_data : forall p i, fs_names fs !! p = Some i -> is_Some (fs_data fs !! i);
}.

(** ** [atomic_write] *)

(** What the kernel answers to the next call: it works, a [write] for at least one
    byte and at most [S n], or it fails. *)
Inductive Answer : Type := Works (n : nat) | Fails (e : string).

Section atomic_write.
Context (debug : string -> string).

(** Where a writer is. *)
Inductive Writer : Type :=
  | WBegin (path data : string)
  | WCreate (path data : string)
  | WWrite (path : string) (file : nat) (rest : string)
  | WRename (path : string)
  | WEnd (path : string) (r : outcome unit).

Definition tmp_path (path : string) : string := with_extension path "tmp".

Definition atomic_write_step (a : Answer) (w : Writer) (fs : FileSystem) : Writer * FileSystem :=
  match w with
  | WBegin path data =>
      match parent path with
      | None => (WEnd path (Err "atomic_write requires parent dir"), fs)
      | Some dir =>
          match a with
          | Works _ => (WCreate path data, fs)
          | Fails e => (WEnd path (Err ("create dir " +:+ debug dir +:+ ": " +:+ e)), fs)
          end
      end
  | WCreate path data =>
      match a with
      | Works _ => let '(i, fs) := create_file (tmp_path path) fs in (WWrite path i data, fs)
      | Fails e => (WEnd path (Err ("create tmp file " +:+ debug (tmp_path path) +:+ ": " +:+ e)), fs)
      end
  | WWrite path i "" => (WRename path, fs)
  | WWrite path i rest =>
      match a with
      | Works n =>
          (WWrite path i (of_bytes (drop (S n) (to_bytes rest))),
           append_file i (of_bytes (take (S n) (to_bytes rest))) fs)
      | Fails e => (WEnd path (Err ("write tmp file " +:+ debug (tmp_path path) +:+ ": " +:+ e)), fs)
      end
  | WRename path =>
      let failed e := WEnd path (Err ("rename tmp to " +:+ debug path +:+ ": " +:+ e)) in
      match a with
      | Works _ =>
          match rename_file (tmp_path path) path fs with
          | Some fs => (WEnd path (Ok tt), fs)
          | None => (failed "No such file or directory (os error 2)", fs)
          end
      | Fails e => (failed e, fs)
      end
  | WEnd _ _ => (w, fs)
  end.

(** A writer alone, until it ends or is stopped. *)
Fixpoint atomic_write_run (answers : list Answer) (w : Writer) (fs : FileSystem)
    : Writer * FileSystem :=
  match answers with
  | [] => (w, fs)
  | a :: answers => let '(w, fs) := atomic_write_step a w fs in atomic_write_run answers w fs
  end.

Definition atomic_write (path data : string) (answers : list Answer) (fs : FileSystem)
    : Writer * FileSystem := atomic_write_run answers (WBegin path data) fs.

(** Several writers: each turn says whose call is next. *)
Fixpoint writers_run (turns : list (nat * Answer)) (ws : list Writer) (fs : FileSystem)
    : list Writer * FileSystem :=
  match turns with
  | [] => (ws, fs)
  | (t, a) :: turns =>
      match ws !! t with
      | Some w =>
          let '(w, fs) := atomic_write_step a w fs in writers_run turns (<[t := w]> ws) fs
      | None => writers_run turns ws fs
      end
  end.

(** ** One writer *)

Lemma read_file_append fs i s p :
  fs_ok fs -> fs_names fs !! p <> Some i -> read_file (append_file i s fs) p = read_file fs p.
Proof.
  intros Hok Hp. unfold read_file, append_file. simpl.
  destruct (fs_names fs !! p) as [j|] eqn:E; simpl; [|done].
  by rewrite lookup_insert_ne by congruence.
Qed.

Lemma fs_ok_append fs i s : fs_ok fs -> fs_ok (append_file i s fs).
Proof.
  intros [Hn Hf Hd]. split; simpl; [done..|]. intros p j Hp.
  destruct (decide (i = j)) as [->|]; [rewrite lookup_insert_eq; eauto|].
  rewrite lookup_insert_ne by done. eauto.
Qed.

Lemma fs_ok_create fs p : fs_ok fs -> fs_ok (create_file p fs).2.
Proof.
  intros [Hn Hf Hd]. unfold create_file.
  destruct (fs_names fs !! p) as [i|] eqn:E; split; simpl.
  - done.
  - done.
  - intros q j Hq. destruct (decide (i = j)) as [->|]; [rewrite lookup_insert_eq; eauto|].
    rewrite lookup_insert_ne by done. eauto.
  - intros q r j Hq Hr. apply lookup_insert_Some in Hq, Hr.
    destruct Hq as [[<- <-]|[? Hq]], Hr as [[<- ?]|[? Hr]]; subst; try done.
    + apply Hf in Hr. lia.
    + apply Hf in Hq. lia.
    + eauto.
  - intros q j Hq. apply lookup_insert_Some in Hq as [[<- <-]|[? Hq]]; [lia|].
    apply Hf in Hq. lia.
  - intros q j Hq. apply lookup_insert_Some in Hq as [[<- <-]|[? Hq]].
    + rewrite lookup_insert_eq. eauto.
    + rewrite lookup_insert_ne; [eauto|]. apply Hf in Hq. lia.
Qed.

Lemma create_file_spec fs p :
  fs_ok fs -> let '(i, fs') := create_file p fs in
  fs_names fs' !! p = Some i /\ fs_data fs' !! i = Some "" /\
  forall q, q <> p -> read_file fs' q = read_file fs q.
Proof.
  intros [Hn Hf Hd]. unfold create_file, read_file.
  destruct (fs_names fs !! p) as [i|] eqn:E; simpl.
  - split_and!; [done|by rewrite lookup_insert_eq|]. intros q Hq.
    destruct (fs_names fs !! q) as [j|] eqn:Ej; simpl; [|done].
    rewrite lookup_insert_ne; [done|]. intros ->. eauto.
  - split_and!; [by rewrite lookup_insert_eq..|]. intros q Hq.
    rewrite lookup_insert_ne by done.
    destruct (fs_names fs !! q) as [j|] eqn:Ej; simpl; [|done].
    rewrite lookup_insert_ne; [done|]. apply Hf in Ej. lia.
Qed.

(** Where a writer is and what the files are, given what they were at its start. *)
Definition writing (fs0 : FileSystem) (path data : string) (w : Writer) (fs : FileSystem) : Prop :=
  fs_ok fs /\
  (forall q, q <> path -> q <> tmp_path path -> read_file fs q = read_file fs0 q) /\
  match w with
  | WBegin p d | WCreate p d => p = path /\ d = data /\ read_file fs path = read_file fs0 path
  | WWrite p i rest =>
      p = path /\ fs_names fs !! tmp_path path = Some i /\ read_file fs path = read_file fs0 path /\
      exists written, fs_data fs !! i = Some written /\ data = written +:+ rest
  | WRename p =>
      p = path /\ read_file fs path = read_file fs0 path /\
      read_file fs (tmp_path path) = Some data
  | WEnd p (Ok _) => p = path /\ read_file fs path = Some data
  | WEnd p (Err _) => p = path /\ read_file fs path = read_file fs0 path
  | WEnd p _ => False
  end.

Section one_writer.
Context (fs0 : FileSystem) (path data : string) (Htmp : tmp_path path <> path).

Lemma writing_step a w fs :
  writing fs0 path data w fs ->
  let '(w, fs) := atomic_write_step a w fs in writing fs0 path data w fs.
Proof using Htmp.
  intros (Hok & Hrest & Hw). destruct w as [p d|p d|p i rest|p|p r]; simpl.
  - destruct Hw as (-> & -> & Hr). by destruct (parent path), a.
  - destruct Hw as (-> & -> & Hr). destruct a; [|done].
    pose proof (create_file_spec fs (tmp_path path) Hok) as Hc.
    pose proof (fs_ok_create fs (tmp_path path) Hok) as Hok'.
    destruct (create_file (tmp_path path) fs) as [i fs']. destruct Hc as (Hi & Hd & Hq).
    split_and!; [done| |done|done|by rewrite Hq|by exists ""].
    intros q ??. by rewrite Hq, Hrest.
  - destruct Hw as (-> & Hi & Hr & written & Hd & Hdata).
    destruct rest as [|c rest].
    { split_and!; [done..|]. unfold read_file. rewrite Hi. simpl. rewrite Hd, Hdata.
      by rewrite str_app_nil_r. }
    destruct a as [n|e]; [|done]. set (text := String c rest) in *.
    assert (forall q, q <> tmp_path path ->
      read_file (append_file i (of_bytes (take (S n) (to_bytes text))) fs) q = read_file fs q) as Hq.
    { intros q Hq. apply read_file_append; [done|]. intros E.
      apply Hq. by eapply ok_names. }
    split_and!; [by apply fs_ok_append|intros; rewrite Hq; auto|done|done|by rewrite Hq|].
    exists (written +:+ of_bytes (take (S n) (to_bytes text))).
    unfold append_file. cbn [fs_data]. rewrite lookup_insert_eq, Hd. split; [done|].
    rewrite Hdata, <- str_app_assoc, <- of_bytes_app, take_drop. by rewrite of_to_bytes.
  - destruct Hw as (-> & Hr & Ht). destruct a as [n|e]; [|done].
    unfold rename_file, read_file in *.
    destruct (fs_names fs !! tmp_path path) as [i|] eqn:Hi; simpl in *; [|done].
    assert (forall q, q <> path -> q <> tmp_path path ->
      (<[path := i]> (delete (tmp_path path) (fs_names fs)) : gmap string nat) !! q = fs_names fs !! q)
      as Hq by (intros; rewrite lookup_insert_ne, lookup_delete_ne by done; done).
    split_and!; [|intros; unfold read_file; simpl; rewrite Hq by done; by apply Hrest|done|].
    + destruct Hok as [Hn Hf Hd].
      assert (forall q j, (<[path := i]> (delete (tmp_path path) (fs_names fs)) : gmap string nat) !! q
        = Some j -> exists q', fs_names fs !! q' = Some j /\
          (q = path /\ q' = tmp_path path \/ q = q' /\ q <> path)) as Hold.
      { intros q j Hj. apply lookup_insert_Some in Hj as [[<- <-]|[? Hj]]; [eauto|].
        apply lookup_delete_Some in Hj as [? ?]. exists q. auto. }
      split; simpl.
      * intros q r j Hqj Hrj. destruct (Hold _ _ Hqj) as (q' & Eq & Hq').
        destruct (Hold _ _ Hrj) as (r' & Er & Hr').
        assert (q' = r') as -> by eauto. clear Hold Hq.
        destruct Hq' as [[-> ->]|[-> ?]], Hr' as [[-> ?]|[-> ?]]; subst; try done.
        -- apply lookup_insert_Some in Hrj as [[? _]|[_ Hrj]]; [done|].
           by apply lookup_delete_Some in Hrj as [? ?].
        -- apply lookup_insert_Some in Hqj as [[? _]|[_ Hqj]]; [done|].
           by apply lookup_delete_Some in Hqj as [? ?].
      * intros q j (q' & E & _)%Hold. eauto.
      * intros q j (q' & E & _)%Hold. eauto.
    + unfold read_file. simpl. by rewrite lookup_insert_eq.
  - exact (conj Hok (conj Hrest Hw)).
Qed.

Lemma writing_run answers w fs :
  writing fs0 path data w fs ->
  let '(w, fs) := atomic_write_run answers w fs in writing fs0 path data w fs.
Proof using Htmp.
  revert w fs. induction answers as [|a answers IH]; intros w fs Hw; simpl; [done|].
  apply (writing_step a) in Hw. destruct (atomic_write_step a w fs) as [w' fs']. by apply IH.
Qed.
End one_writer.

(** The turns a writer still takes when every call works. *)
Definition turns_left (w : Writer) : nat :=
  match w with
  | WBegin _ data => String.length data + 4
  | WCreate _ data => String.length data + 3
  | WWrite _ _ rest => String.length rest + 2
  | WRename _ => 1
  | WEnd _ _ => 0
  end.

Lemma turns_left_step n w fs :
  (turns_left (atomic_write_step (Works n) w fs).1 <= turns_left w - 1)%nat.
Proof.
  destruct w as [p d|p d|p i rest|p|p r]; simpl.
  - destruct (parent p); simpl; lia.
  - destruct (create_file (tmp_path p) fs); simpl; lia.
  - destruct rest as [|c rest]; simpl; [lia|].
    rewrite <- (length_to_bytes (of_bytes _)), to_of_bytes, length_drop, length_to_bytes. lia.
  - destruct (rename_file (tmp_path p) p fs); simpl; lia.
  - lia.
Qed.

Lemma turns_left_run answers w fs :
  (forall e, Fails e ∉ answers) ->
  (turns_left (atomic_write_run answers w fs).1 <= turns_left w - length answers)%nat.
Proof.
  revert w fs. induction answers as [|a answers IH]; intros w fs Hf; simpl; [lia|].
  destruct a as [n|e]; [|by destruct (Hf e); left].
  pose proof (turns_left_step n w fs) as Hs.
  destruct (atomic_write_step (Works n) w fs) as [w' fs']. simpl in Hs.
  etrans; [apply IH|lia]. intros e He. apply (Hf e). by right.
Qed.

Definition no_error (w : Writer) : Prop :=
  match w with WEnd _ (Err _) => False | _ => True end.

Lemma no_error_run fs0 path data answers w fs :
  tmp_path path <> path -> is_Some (parent path) -> (forall e, Fails e ∉ answers) ->
  writing fs0 path data w fs -> no_error w -> no_error (atomic_write_run answers w fs).1.
Proof.
  intros Htmp [dir Hdir]. revert w fs. induction answers as [|a answers IH]; intros w fs Hf Hw He.
  { done. }
  destruct a as [n|e]; [|by destruct (Hf e); left].
  pose proof (writing_step fs0 path data Htmp (Works n) w fs Hw) as Hw'. simpl.
  assert (no_error (atomic_write_step (Works n) w fs).1) as He'.
  { destruct Hw as (_ & _ & Hw). destruct w as [p d|p d|p i rest|p|p r]; simpl in *.
    - destruct Hw as (-> & _). by rewrite Hdir.
    - by destruct (create_file (tmp_path p) fs).
    - by destruct rest.
    - destruct Hw as (-> & _ & Hr). unfold rename_file, read_file in *.
      by destruct (fs_names fs !! tmp_path path).
    - done. }
  destruct (atomic_write_step (Works n) w fs) as [w' fs']. apply IH; [|done..].
  intros e Hin. apply (Hf e). by right.
Qed.
End atomic_write.

(** Wherever a writer is stopped, the file has its old contents or the new ones. *)
Lemma atomic_write_spec (debug : string -> string) (path data : string)
    (answers : list Answer) (fs0 : FileSystem) :
  fs_ok fs0 -> tmp_path path <> path ->
  let '(w, fs) := atomic_write debug path data answers fs0 in
  fs_ok fs /\
  (read_file fs path = read_file fs0 path \/ read_file fs path = Some data) /\
  (forall q, q <> path -> q <> tmp_path path -> read_file fs q = read_file fs0 q) /\
  match w with
  | WEnd p (Ok _) => p = path /\ read_file fs path = Some data
  | WEnd p (Err _) => p = path /\ read_file fs path = read_file fs0 path
  | WEnd _ _ => False
  | _ => True
  end /\
  (is_Some (parent path) -> (forall e, Fails e ∉ answers) ->
   (String.length data + 4 <= length answers)%nat -> w = WEnd path (Ok tt)).
Proof.
  intros Hok Htmp. unfold atomic_write.
  assert (writing fs0 path data (WBegin path data) fs0) as Hw0 by (by split_and!).
  pose proof (writing_run debug fs0 path data Htmp answers _ _ Hw0) as Hw.
  pose proof (turns_left_run debug answers (WBegin path data) fs0) as Hturns.
  pose proof (fun Hp Hf => no_error_run debug fs0 path data answers _ _ Htmp Hp Hf Hw0 I) as Herr.
  destruct (atomic_write_run debug answers (WBegin path data) fs0) as [w fs]. simpl in Hturns, Herr.
  destruct Hw as (Hok' & Hrest & Hw). split_and!; [done| |done| |].
  - destruct w as [| | | |p [[]|e| |]]; naive_solver.
  - by destruct w as [| | | |p [[]|e| |]].
  - intros Hp Hf Hlen. specialize (Herr Hp Hf). specialize (Hturns Hf).
    destruct w as [| | | |p [[]|e| |]]; simpl in *; try lia; try done.
    by destruct Hw as [-> _].
Qed.

(** Two writers of one file share its temporary file. One schedule of two writers
    whose calls all work: after the first has renamed, the file is empty, which
    is none of the three contents it should have, and a daemon that stops there
    loses it; if both go on, the second reports an error. *)
Theorem concurrent_writers_tear (debug : string -> string) :
  let path := "/d/manifest.json" in
  let fs0 := mkFileSystem {[ path := 0 ]} {[ 0 := "old" ]} 1 in
  let turns := [(0, Works 0); (0, Works 0); (0, Works 9); (0, Works 0);
                (1, Works 0); (1, Works 0); (0, Works 0)] in
  let later := [(1, Works 9); (1, Works 0); (1, Works 0)] in
  let '(ws, fs) := writers_run debug turns [WBegin path "first"; WBegin path "second"] fs0 in
  fs_ok fs0 /\ read_file fs path = Some "" /\ ws !! 0 = Some (WEnd path (Ok tt)) /\
  let '(ws, fs) := writers_run debug later ws fs in
  read_file fs path = Some "second" /\
  exists e, ws !! 1 = Some (WEnd path (Err e)).
Proof.
  cbv zeta. set (fs0 := mkFileSystem _ _ _).
  assert (fs_ok fs0) as Hok.
  { split; simpl.
    - by intros p q i [<- _]%lookup_singleton_Some [<- _]%lookup_singleton_Some.
    - intros p i [_ <-]%lookup_singleton_Some. lia.
    - intros p i [_ <-]%lookup_singleton_Some. rewrite lookup_singleton_eq. eauto. }
  destruct (writers_run _ _ _ _) as [ws fs] eqn:E. vm_compute in E. injection E as <- <-.
  split_and!; [done|reflexivity..|].
  destruct (writers_run _ _ _ _) as [ws fs] eqn:E. vm_compute in E. injection E as <- <-.
  split; [reflexivity|]. eexists. reflexivity.
Qed.
