(* ===== verification/Manifest.v ===== *)
(** * Manifests

    Models [src/persistence/manifest.rs]: what a run and a global leave on disk, the
    JSON form [serde] derives for it, with the forms of older versions, and
    writing and reading the file.

    The text of JSON is the matter of [serde_json], an interface here; what its
    [derive] makes of the attributes of the sources is written out. *)

From S2P Require Import Prelude Bytes BMap Util Json ConfigModel ConfigValidate RunModel Files.
From Stdlib Require Import Lia ZArith.

(** ** Reading typed values *)

(** [serde_json::to_vec_pretty] and [serde_json::from_slice] on the level of
    values, and the messages of [serde]. *)
Class JsonFile `{Json} := {
  jf_unsigned :: JsonUnsigned;
  to_vec_pretty : Value -> outcome string;
  from_slice : string -> outcome Value;
  serde_error : Value -> string;
}.

(** Values whose numbers are integers of the range of [u64]. *)
Fixpoint integral `{JsonNumber} (v : Value) : Prop :=
  match v with
  | Null | Bool _ | String _ => True
  | Number n => exists k, n = of_integer k /\ (0 <= k <= u64_max)%Z
  | Array l => (fix all l := match l with [] => True | v :: l => integral v /\ all l end) l
  | Object m =>
      (fix all m := match m with [] => True | (_, v) :: m => integral v /\ all m end) m
  end.

(** What is written can be written and is read back. *)
Class JsonFileLaws `{JsonFile} : Prop := {
  to_vec_pretty_total : forall v, integral v -> exists s, to_vec_pretty v = Ok s;
  from_slice_pretty : forall v s, integral v -> to_vec_pretty v = Ok s -> from_slice s = Ok v;
}.

Section readers.
Context `{JsonUnsigned}.

Definition de_bool (v : Value) : option bool := match v with Bool b => Some b | _ => None end.

(** An unsigned integer with the maximum [hi]. *)
Definition de_unsigned (hi : Z) (v : Value) : option Z :=
  match v with
  | Number n => k ← as_u64 n; if (k <=? hi)%Z then Some k else None
  | _ => None
  end.

Definition de_option {A} (f : Value -> option A) (v : Value) : option (option A) :=
  match v with Null => Some None | v => Some <$> f v end.

Definition de_vec {A} (f : Value -> option A) (v : Value) : option (list A) :=
  match v with Array l => mapM f l | _ => None end.

(** A [BTreeMap]; of two equal keys the last one counts. *)
Definition de_map {A} (f : Value -> option A) (v : Value) : option (bmap string A) :=
  match v with
  | Object m => bcollect <$> mapM (fun kv => a ← f kv.2; Some (kv.1, a)) m
  | _ => None
  end.

(** A variant without data, [ready] or [{ready: null}]. *)
Definition de_variant {A} (variants : list (string * A)) (v : Value) : option A :=
  match v with
  | String s | Object [(s, Null)] => bget s variants
  | _ => None
  end.

(** The fields of a structure, from an object without repeated fields or from an
    array in order; [true] for the latter. *)
Definition de_struct (names : list string) (v : Value) : option (bool * Map) :=
  match v with
  | Object m =>
      if existsb (fun n => (1 <? length (List.filter (fun kv => bool_decide (kv.1 = n)) m))%nat) names
      then None else Some (false, m)
  | Array l => if (length l <=? length names)%nat then Some (true, zip names l) else None
  | _ => None
  end.

Definition field {A} (f : Value -> option A) (name : string) (s : bool * Map) : option A :=
  v ← map_get name s.2; f v.

(** A field of type [Option]: it may be missing in an object. *)
Definition optional_field {A} (f : Value -> option A) (name : string) (s : bool * Map)
    : option (option A) :=
  match map_get name s.2 with
  | Some v => de_option f v
  | None => if s.1 then None else Some None
  end.

(** [#[serde(default)]] *)
Definition default_field {A} (d : A) (f : Value -> option A) (name : string) (s : bool * Map)
    : option A :=
  match map_get name s.2 with Some v => f v | None => Some d end.
End readers.

(** ** Services *)

Record PersistedService := mkPersistedService {
  pv_port : option Z;
  pv_url : option string;
  pv_listen_port : option Z;
  pv_capture_api : bool;
  pv_capture_api_body_limit : Z;
  pv_capture_api_ignore : list string;
  pv_state : ServiceState;
  pv_watch_hash : option string;
  pv_last_failure : option string;
  pv_last_started_at : option string;
  pv_watch_paused : bool;
}.

Definition service_state_variants : list (string * ServiceState) :=
  [("starting", Starting); ("ready", Ready); ("degraded", Degraded); ("stopped", Stopped);
   ("failed", Failed)].

Definition service_state_name (s : ServiceState) : string :=
  match s with
  | Starting => "starting" | Ready => "ready" | Degraded => "degraded" | Stopped => "stopped"
  | Failed => "failed"
  end.

Definition run_lifecycle_variants : list (string * RunLifecycle) :=
  [("starting", RunStarting); ("running", RunRunning); ("degraded", RunDegraded);
   ("stopped", RunStopped)].

Definition run_lifecycle_name (s : RunLifecycle) : string :=
  match s with
  | RunStarting => "starting" | RunRunning => "running" | RunDegraded => "degraded"
  | RunStopped => "stopped"
  end.

(** [skip_serializing_if = "Option::is_none"] *)
Definition skip_none `{JsonNumber} {A} (name : string) (f : A -> Value) (o : option A) : Map :=
  match o with Some a => [(name, f a)] | None => [] end.

Section service.
Context `{JsonUnsigned}.

Definition json_of_service (s : PersistedService) : Value :=
  Object (
    [("port", json_opt json_int (pv_port s)); ("url", json_opt String (pv_url s))]
    ++ skip_none "listen_port" json_int (pv_listen_port s)
    ++ [("capture_api", Bool (pv_capture_api s));
        ("capture_api_body_limit", json_int (pv_capture_api_body_limit s));
        ("capture_api_ignore", json_strings (pv_capture_api_ignore s));
        ("state", String (service_state_name (pv_state s)))]
    ++ skip_none "watch_hash" String (pv_watch_hash s)
    ++ skip_none "last_failure" String (pv_last_failure s)
    ++ skip_none "last_started_at" String (pv_last_started_at s)
    ++ [("watch_paused", Bool (pv_watch_paused s))]).

Definition service_fields : list string :=
  ["port"; "url"; "listen_port"; "capture_api"; "capture_api_body_limit"; "capture_api_ignore";
   "state"; "watch_hash"; "last_failure"; "last_started_at"; "watch_paused"].

Definition service_of_json (v : Value) : option PersistedService :=
  s ← de_struct service_fields v;
  port ← optional_field (de_unsigned u16_max) "port" s;
  url ← optional_field as_str "url" s;
  listen_port ← default_field None (de_option (de_unsigned u16_max)) "listen_port" s;
  capture_api ← default_field false de_bool "capture_api" s;
  capture_api_body_limit ← default_field DEFAULT_CAPTURE_API_BODY_LIMIT_BYTES
    (de_unsigned usize_max) "capture_api_body_limit" s;
  capture_api_ignore ← default_field [] (de_vec as_str) "capture_api_ignore" s;
  state ← field (de_variant service_state_variants) "state" s;
  watch_hash ← default_field None (de_option as_str) "watch_hash" s;
  last_failure ← default_field None (de_option as_str) "last_failure" s;
  last_started_at ← default_field None (de_option as_str) "last_started_at" s;
  watch_paused ← default_field false de_bool "watch_paused" s;
  Some (mkPersistedService port url listen_port capture_api capture_api_body_limit
          capture_api_ignore state watch_hash last_failure last_started_at watch_paused).
End service.

(** ** Runs *)

Record PersistedRun := mkPersistedRun {
  pr_run_id : string;
  pr_project_dir : string;
  pr_config_dir : string;
  pr_manifest_path : string;
  pr_stack : string;
  pr_services : bmap string PersistedService;
  pr_env : bmap string string;
  pr_state : RunLifecycle;
  pr_created_at : string;
  pr_stopped_at : option string;
}.

Section run.
Context `{JsonUnsigned}.
Context (serde_error : Value -> string).

Definition json_of_services (services : bmap string PersistedService) : Value :=
  Object (map (fun kv => (kv.1, json_of_service kv.2)) services).

Definition json_of_run (r : PersistedRun) : Value :=
  Object [("run_id", String (pr_run_id r)); ("project_dir", String (pr_project_dir r));
    ("config_dir", String (pr_config_dir r)); ("manifest_path", String (pr_manifest_path r));
    ("stack", String (pr_stack r)); ("services", json_of_services (pr_services r));
    ("env", json_env (pr_env r)); ("state", String (run_lifecycle_name (pr_state r)));
    ("created_at", String (pr_created_at r)); ("stopped_at", json_opt String (pr_stopped_at r))].

Definition run_fields : list string :=
  ["run_id"; "project_dir"; "config_dir"; "manifest_path"; "stack"; "services"; "env"; "state";
   "created_at"; "stopped_at"].

(** [PersistedRunWire], the directory of the configuration still optional. *)
Definition run_wire (v : Value) : option (PersistedRun * option string) :=
  s ← de_struct run_fields v;
  run_id ← field as_str "run_id" s;
  project_dir ← field as_str "project_dir" s;
  config_dir ← default_field None (de_option as_str) "config_dir" s;
  manifest_path ← field as_str "manifest_path" s;
  stack ← field as_str "stack" s;
  services ← field (de_map service_of_json) "services" s;
  env ← field (de_map as_str) "env" s;
  state ← field (de_variant run_lifecycle_variants) "state" s;
  created_at ← field as_str "created_at" s;
  stopped_at ← optional_field as_str "stopped_at" s;
  Some (mkPersistedRun run_id project_dir "" manifest_path stack services env state created_at
          stopped_at, config_dir).

Definition run_of_json (v : Value) : outcome PersistedRun :=
  match run_wire v with
  | None => Err (serde_error v)
  | Some (r, config_dir) =>
      let config_dir :=
        match config_dir with
        | Some value => if bool_decide (str_trim value = "") then pr_project_dir r else value
        | None => pr_project_dir r
        end in
      Ok (mkPersistedRun (pr_run_id r) (pr_project_dir r) config_dir (pr_manifest_path r)
            (pr_stack r) (pr_services r) (pr_env r) (pr_state r) (pr_created_at r)
            (pr_stopped_at r))
  end.
End run.

Definition run_manifest_is_restorable (exists_ : string -> bool) (manifest : PersistedRun) : bool :=
  negb (bool_decide (pr_state manifest = RunStopped))
  && bool_decide (pr_stopped_at manifest = None)
  && exists_ (pr_project_dir manifest).

(** ** Globals *)

Record PersistedGlobal := mkPersistedGlobal {
  pg_key : string;
  pg_name : string;
  pg_project_dir : string;
  pg_config_path : string;
  pg_manifest_path : string;
  pg_service : PersistedService;
  pg_env : bmap string string;
  pg_state : RunLifecycle;
  pg_created_at : string;
  pg_stopped_at : option string;
}.

(** [PersistedGlobalLegacyWire] *)
Record PersistedGlobalLegacy := mkPersistedGlobalLegacy {
  gl_project_dir : string;
  gl_manifest_path : string;
  gl_services : bmap string PersistedService;
  gl_env : bmap string string;
  gl_state : RunLifecycle;
  gl_created_at : string;
  gl_stopped_at : option string;
}.

Section global.
Context `{JsonUnsigned}.
Context (serde_error : Value -> string).
Context (exists_ is_file : string -> bool).
Context (blake3_hex : string -> string).

Definition json_of_global (g : PersistedGlobal) : Value :=
  Object [("key", String (pg_key g)); ("name", String (pg_name g));
    ("project_dir", String (pg_project_dir g)); ("config_path", String (pg_config_path g));
    ("manifest_path", String (pg_manifest_path g)); ("service", json_of_service (pg_service g));
    ("env", json_env (pg_env g)); ("state", String (run_lifecycle_name (pg_state g)));
    ("created_at", String (pg_created_at g)); ("stopped_at", json_opt String (pg_stopped_at g))].

Definition global_fields : list string :=
  ["key"; "name"; "project_dir"; "config_path"; "manifest_path"; "service"; "env"; "state";
   "created_at"; "stopped_at"].

Definition global_current (v : Value) : option PersistedGlobal :=
  s ← de_struct global_fields v;
  key ← field as_str "key" s;
  name ← field as_str "name" s;
  project_dir ← field as_str "project_dir" s;
  config_path ← field as_str "config_path" s;
  manifest_path ← field as_str "manifest_path" s;
  service ← field service_of_json "service" s;
  env ← field (de_map as_str) "env" s;
  state ← field (de_variant run_lifecycle_variants) "state" s;
  created_at ← field as_str "created_at" s;
  stopped_at ← optional_field as_str "stopped_at" s;
  Some (mkPersistedGlobal key name project_dir config_path manifest_path service env state
          created_at stopped_at).

Definition global_legacy_fields : list string :=
  ["project_dir"; "manifest_path"; "services"; "env"; "state"; "created_at"; "stopped_at"].

Definition global_legacy (v : Value) : option PersistedGlobalLegacy :=
  s ← de_struct global_legacy_fields v;
  project_dir ← field as_str "project_dir" s;
  manifest_path ← field as_str "manifest_path" s;
  services ← field (de_map service_of_json) "services" s;
  env ← field (de_map as_str) "env" s;
  state ← field (de_variant run_lifecycle_variants) "state" s;
  created_at ← field as_str "created_at" s;
  stopped_at ← optional_field as_str "stopped_at" s;
  Some (mkPersistedGlobalLegacy project_dir manifest_path services env state created_at stopped_at).

Definition global_of_legacy (w : PersistedGlobalLegacy) : outcome PersistedGlobal :=
  match gl_services w with
  | [] => Err "legacy global manifest missing service record"
  | _ :: _ :: _ => Err "legacy global manifest must contain exactly one service record"
  | [(name, service)] =>
      let key :=
        match dir ← parent (gl_manifest_path w); file_name dir with
        | Some value => value
        | None => match global_key blake3_hex (gl_project_dir w) name with
                  | Ok key => key
                  | _ => "legacy__" +:+ name
                  end
        end in
      nearest ← find_nearest_path is_file (gl_project_dir w);
      let config_path := default (default_path exists_ (gl_project_dir w)) nearest in
      Ok (mkPersistedGlobal key name (gl_project_dir w) config_path (gl_manifest_path w) service
            (gl_env w) (gl_state w) (gl_created_at w) (gl_stopped_at w))
  end.

Definition global_of_json (v : Value) : outcome PersistedGlobal :=
  match global_current v with
  | Some g => Ok g
  | None =>
      match global_legacy v with
      | Some w => global_of_legacy w
      | None => Err (serde_error v)
      end
  end.
End global.

Definition global_manifest_is_restorable (exists_ : string -> bool) (manifest : PersistedGlobal)
    : bool :=
  negb (bool_decide (pg_state manifest = RunStopped))
  && bool_decide (pg_stopped_at manifest = None)
  && exists_ (pg_project_dir manifest) && exists_ (pg_config_path manifest).

(** ** Files *)

Section files.
Context `{JsonFile} (debug : string -> string).
Context (exists_ is_file : string -> bool) (blake3_hex : string -> string).
(** [std::fs::read] *)
Context (read : string -> outcome string).

(** The bytes [write_to_path] hands to [atomic_write]. *)
Definition run_manifest_text (r : PersistedRun) : outcome string :=
  with_context "serialize run manifest" (to_vec_pretty (json_of_run r)).

Definition global_manifest_text (g : PersistedGlobal) : outcome string :=
  with_context "serialize global manifest" (to_vec_pretty (json_of_global g)).

Definition load_run_manifest (path : string) : outcome PersistedRun :=
  data ← with_context ("read run manifest " +:+ debug path) (read path);
  with_context "parse run manifest" (v ← from_slice data; run_of_json serde_error v).

Definition load_global_manifest (path : string) : outcome PersistedGlobal :=
  data ← with_context ("read global manifest " +:+ debug path) (read path);
  with_context "parse global manifest"
    (v ← from_slice data; global_of_json serde_error exists_ is_file blake3_hex v).
End files.

(** ** What is written is read back *)

Definition port_in_range (p : option Z) : Prop :=
  match p with Some p => in_range 0 u16_max p | None => True end.

(** The types of the fields. *)
Record service_typed (s : PersistedService) : Prop := {
  ty_port : port_in_range (pv_port s);
  ty_listen_port : port_in_range (pv_listen_port s);
  ty_body_limit : in_range 0 usize_max (pv_capture_api_body_limit s);
}.

Record run_typed (r : PersistedRun) : Prop := {
  ty_services : bwf (pr_services r);
  ty_each : forall n s, (n, s) ∈ pr_services r -> service_typed s;
  ty_env : bwf (pr_env r);
}.

Record global_typed (g : PersistedGlobal) : Prop := {
  ty_service : service_typed (pg_service g);
  ty_genv : bwf (pg_env g);
}.

Section roundtrip.
Context `{JsonUnsigned}.

Lemma de_unsigned_int hi n :
  in_range 0 hi n -> (hi <= u64_max)%Z -> de_unsigned hi (json_int n) = Some n.
Proof.
  intros [? ?] ?. simpl. rewrite as_u64_of_integer by lia. simpl.
  by rewrite (proj2 (Z.leb_le _ _)).
Qed.

Lemma de_option_port p : port_in_range p -> de_option (de_unsigned u16_max) (json_opt json_int p) = Some p.
Proof.
  destruct p as [p|]; [|done]. intros Hp. unfold json_opt.
  change (de_option (de_unsigned u16_max) (json_int p)) with (Some <$> de_unsigned u16_max (json_int p)).
  by rewrite de_unsigned_int.
Qed.

Lemma de_option_str o : de_option as_str (json_opt String o) = Some o.
Proof. by destruct o. Qed.

Lemma de_vec_strings l : de_vec as_str (json_strings l) = Some l.
Proof.
  apply mapM_Some_2, Forall2_fmap_l. by induction l; constructor.
Qed.

Lemma de_map_of {A} (f : Value -> option A) (g : A -> Value) (m : bmap string A) :
  bwf m -> (forall k a, (k, a) ∈ m -> f (g a) = Some a) ->
  de_map f (Object (map (fun kv => (kv.1, g kv.2)) m)) = Some m.
Proof.
  intros Hwf Hf. unfold de_map.
  assert (mapM (fun kv : string * Value => a ← f kv.2; Some (kv.1, a))
            (map (fun kv => (kv.1, g kv.2)) m) = Some m) as ->.
  { clear Hwf. induction m as [|[k a] m IH]; [done|]. simpl.
    rewrite (Hf k a) by left. simpl. rewrite IH; [done|]. intros j b ?. apply (Hf j b). by right. }
  simpl. by rewrite bcollect_id.
Qed.

Lemma de_map_env env : bwf env -> de_map as_str (json_env env) = Some env.
Proof. intros Hwf. by apply (de_map_of as_str String). Qed.

Lemma de_service_state s : de_variant service_state_variants (String (service_state_name s)) = Some s.
Proof. by destruct s. Qed.

Lemma de_run_lifecycle s : de_variant run_lifecycle_variants (String (run_lifecycle_name s)) = Some s.
Proof. by destruct s. Qed.

(** Reading the fields of a service in the order they are written. *)
Lemma service_of_fields port url listen capture limit ignore state hash failure started paused :
  service_of_json (Object (
    [("port", port); ("url", url)] ++ skip_none "listen_port" id listen
    ++ [("capture_api", capture); ("capture_api_body_limit", limit); ("capture_api_ignore", ignore);
        ("state", state)]
    ++ skip_none "watch_hash" id hash ++ skip_none "last_failure" id failure
    ++ skip_none "last_started_at" id started ++ [("watch_paused", paused)])) =
  (let skipped {A} (f : Value -> option A) o :=
     match o with Some v => de_option f v | None => Some None end in
   port ← de_option (de_unsigned u16_max) port;
   url ← de_option as_str url;
   listen_port ← skipped (de_unsigned u16_max) listen;
   capture_api ← de_bool capture;
   capture_api_body_limit ← de_unsigned usize_max limit;
   capture_api_ignore ← de_vec as_str ignore;
   state ← de_variant service_state_variants state;
   watch_hash ← skipped as_str hash;
   last_failure ← skipped as_str failure;
   last_started_at ← skipped as_str started;
   watch_paused ← de_bool paused;
   Some (mkPersistedService port url listen_port capture_api capture_api_body_limit
           capture_api_ignore state watch_hash last_failure last_started_at watch_paused)).
Proof. destruct listen, hash, failure, started; reflexivity. Qed.

Lemma skip_none_id {A} name (f : A -> Value) o : skip_none name f o = skip_none name id (f <$> o).
Proof. by destruct o. Qed.

Lemma service_roundtrip s : service_typed s -> service_of_json (json_of_service s) = Some s.
Proof.
  intros [Hp Hl Hb]. destruct s as [p u l c b i st h f t w]. unfold json_of_service. simpl in Hp, Hl, Hb.
  cbn [pv_port pv_url pv_listen_port pv_capture_api pv_capture_api_body_limit pv_capture_api_ignore
       pv_state pv_watch_hash pv_last_failure pv_last_started_at pv_watch_paused].
  rewrite (skip_none_id "listen_port"), (skip_none_id "watch_hash"), (skip_none_id "last_failure"),
    (skip_none_id "last_started_at"), service_of_fields.
  cbv zeta. rewrite de_option_port, de_option_str by done. cbn [mbind option_bind].
  pose proof (de_option_port l Hl) as Hl'.
  destruct l as [l|]; cbn [fmap option_fmap option_map json_opt] in *; [rewrite Hl'|];
    cbn [mbind option_bind de_bool];
    rewrite de_unsigned_int by done; cbn [mbind option_bind];
    rewrite de_vec_strings; cbn [mbind option_bind]; rewrite de_service_state;
    by destruct h, f, t.
Qed.

Lemma services_roundtrip services :
  bwf services -> (forall n s, (n, s) ∈ services -> service_typed s) ->
  de_map service_of_json (json_of_services services) = Some services.
Proof.
  intros Hwf Hty. apply (de_map_of service_of_json json_of_service); [done|].
  intros n s Hs. eapply service_roundtrip, Hty, Hs.
Qed.

Lemma run_of_json_of_run err r :
  run_typed r -> str_trim (pr_config_dir r) <> "" -> run_of_json err (json_of_run r) = Ok r.
Proof.
  intros [Hs Heach He] Hdir. destruct r as [id dir cfg path stack services env state at_ stopped].
  simpl in Hs, Heach, He, Hdir. unfold run_of_json.
  assert (run_wire (json_of_run (mkPersistedRun id dir cfg path stack services env state at_ stopped))
    = Some (mkPersistedRun id dir "" path stack services env state at_ stopped, Some cfg)) as ->.
  { transitivity (services ← de_map service_of_json (json_of_services services);
      env ← de_map as_str (json_env env);
      state ← de_variant run_lifecycle_variants (String (run_lifecycle_name state));
      stopped_at ← de_option as_str (json_opt String stopped);
      Some (mkPersistedRun id dir "" path stack services env state at_ stopped_at, Some cfg)).
    { reflexivity. }
    rewrite services_roundtrip by done. cbn [mbind option_bind].
    rewrite de_map_env by done. cbn [mbind option_bind].
    rewrite de_run_lifecycle. cbn [mbind option_bind]. by rewrite de_option_str. }
  simpl. by rewrite bool_decide_eq_false_2.
Qed.

Lemma global_of_json_of_global err exists_ is_file blake3 g :
  global_typed g -> global_of_json err exists_ is_file blake3 (json_of_global g) = Ok g.
Proof.
  intros [Hs He]. destruct g as [key name dir cfg path service env state at_ stopped].
  simpl in Hs, He. unfold global_of_json.
  assert (global_current (json_of_global (mkPersistedGlobal key name dir cfg path service env state
    at_ stopped)) = Some (mkPersistedGlobal key name dir cfg path service env state at_ stopped)) as ->;
    [|done].
  transitivity (service ← service_of_json (json_of_service service);
      env ← de_map as_str (json_env env);
      state ← de_variant run_lifecycle_variants (String (run_lifecycle_name state));
      stopped_at ← de_option as_str (json_opt String stopped);
      Some (mkPersistedGlobal key name dir cfg path service env state at_ stopped_at)).
  { reflexivity. }
  rewrite service_roundtrip by done. cbn [mbind option_bind].
  rewrite de_map_env by done. cbn [mbind option_bind].
  rewrite de_run_lifecycle. cbn [mbind option_bind]. by rewrite de_option_str.
Qed.
End roundtrip.

Section integral.
Context `{JsonUnsigned}.

Lemma integral_array l : integral (Array l) <-> Forall integral l.
Proof. induction l as [|v l IH]; [done|]. rewrite Forall_cons, <- IH. done. Qed.

Lemma integral_object m : integral (Object m) <-> Forall (fun kv => integral kv.2) m.
Proof. induction m as [|[k v] m IH]; [done|]. rewrite Forall_cons, <- IH. done. Qed.

Lemma integral_int n : in_range 0 u64_max n -> integral (json_int n).
Proof. intros Hn. by exists n. Qed.

Lemma integral_opt {A} (f : A -> Value) o :
  (forall a, o = Some a -> integral (f a)) -> integral (json_opt f o).
Proof. destruct o; simpl; auto. Qed.

Lemma integral_port p : port_in_range p -> integral (json_opt json_int p).
Proof.
  intros Hp. apply integral_opt. intros n ->. apply integral_int. simpl in Hp.
  unfold in_range, u16_max, u64_max in *. lia.
Qed.

Lemma integral_strings l : integral (json_strings l).
Proof. apply integral_array. by induction l; constructor. Qed.

Lemma integral_map {A} (g : A -> Value) (m : bmap string A) :
  (forall k a, (k, a) ∈ m -> integral (g a)) ->
  integral (Object (map (fun kv => (kv.1, g kv.2)) m)).
Proof.
  intros Hg. apply integral_object, List.Forall_map, Forall_forall. intros [k a] Hin.
  by apply (Hg k a).
Qed.

Lemma integral_skip {A} name (f : A -> Value) o :
  integral (json_opt f o) -> Forall (fun kv => integral kv.2) (skip_none name f o).
Proof. destruct o; simpl; [by repeat constructor|constructor]. Qed.

Lemma integral_env env : integral (json_env env).
Proof. by apply integral_map. Qed.

Lemma integral_service s : service_typed s -> integral (json_of_service s).
Proof.
  intros [Hp Hl Hb]. apply integral_object.
  repeat (apply Forall_app_2 || apply Forall_cons_2 || apply Forall_nil_2 || apply integral_skip);
    cbn [fst snd]; try done; auto using integral_port, integral_int, integral_strings;
    by apply integral_opt.
Qed.

Lemma integral_run r : run_typed r -> integral (json_of_run r).
Proof.
  intros [Hs Heach He]. apply integral_object.
  repeat (apply Forall_cons_2 || apply Forall_nil_2); cbn [fst snd]; try done.
  - apply integral_map. intros n s Hin. eapply integral_service, Heach, Hin.
  - apply integral_env.
  - by apply integral_opt.
Qed.

Lemma integral_global g : global_typed g -> integral (json_of_global g).
Proof.
  intros [Hs He]. apply integral_object.
  repeat (apply Forall_cons_2 || apply Forall_nil_2); cbn [fst snd]; try done.
  - by apply integral_service.
  - apply integral_env.
  - by apply integral_opt.
Qed.
End integral.

(** [std::fs::read] of a file system. *)
Definition read_of (fs : FileSystem) (path : string) : outcome string :=
  ok_or (read_file fs path) "No such file or directory (os error 2)".

Section load.
Context `{JsonFileLaws} (debug : string -> string).
Context (exists_ is_file : string -> bool) (blake3_hex : string -> string).

Lemma run_text r : run_typed r -> str_trim (pr_config_dir r) <> "" ->
  exists text, run_manifest_text r = Ok text /\
    forall read path, read path = Ok text -> load_run_manifest debug read path = Ok r.
Proof.
  intros Hr Hdir. destruct (to_vec_pretty_total (json_of_run r) (integral_run r Hr)) as [text Htext].
  exists text. unfold run_manifest_text, with_context. rewrite Htext. split; [done|]. intros read path Hread.
  unfold load_run_manifest, with_context. rewrite Hread. ored.
  rewrite (from_slice_pretty _ _ (integral_run r Hr) Htext). ored. by rewrite run_of_json_of_run.
Qed.

Lemma global_text g : global_typed g ->
  exists text, global_manifest_text g = Ok text /\
    forall read path, read path = Ok text ->
      load_global_manifest debug exists_ is_file blake3_hex read path = Ok g.
Proof.
  intros Hg. destruct (to_vec_pretty_total (json_of_global g) (integral_global g Hg)) as [text Htext].
  exists text. unfold global_manifest_text, with_context. rewrite Htext. split; [done|]. intros read path Hread.
  unfold load_global_manifest, with_context. rewrite Hread. ored.
  rewrite (from_slice_pretty _ _ (integral_global g Hg) Htext). ored. by rewrite global_of_json_of_global.
Qed.

(** What is computed from the contents of a file is computed from the old ones or
    from the new ones. *)
Lemma atomic_load {A} (load : FileSystem -> A) (new : A) path text answers fs0 :
  fs_ok fs0 -> tmp_path path <> path ->
  (forall fs fs', read_file fs path = read_file fs' path -> load fs = load fs') ->
  (forall fs, read_file fs path = Some text -> load fs = new) ->
  let '(w, fs) := atomic_write debug path text answers fs0 in
  (load fs = load fs0 \/ load fs = new) /\ (w = WEnd path (Ok tt) -> load fs = new) /\
  (is_Some (parent path) -> (forall e, Fails e ∉ answers) ->
   (String.length text + 4 <= length answers)%nat -> w = WEnd path (Ok tt)).
Proof.
  intros Hok Htmp Hext Hnew.
  pose proof (atomic_write_spec debug path text answers fs0 Hok Htmp) as Hw.
  destruct (atomic_write debug path text answers fs0) as [w fs].
  destruct Hw as (_ & Hold & _ & Hend & Hworks). split_and!; [|intros ->; apply Hnew, Hend|done].
  destruct Hold as [Hr|Hr]; [left|right]; auto.
Qed.
End load.

(** C29: manifests survive. A run that is written is read back as it was, and
    wherever the writing is stopped, by a crash or a failing call, reading gives
    what it gave before or the new run; the same of globals. When every call works
    the writing ends, with success, within one turn per byte and four more. A run whose
    configuration directory is blank is not covered: it is read back with the
    directory of its project. *)
Theorem manifest_survives `{JsonFileLaws} (debug : string -> string)
    (exists_ is_file : string -> bool) (blake3_hex : string -> string) (path : string)
    (answers : list Answer) (fs0 : FileSystem) (r : PersistedRun) (g : PersistedGlobal) :
  fs_ok fs0 -> tmp_path path <> path -> run_typed r -> global_typed g ->
  str_trim (pr_config_dir r) <> "" ->
  exists run_text global_text,
    run_manifest_text r = Ok run_text /\ global_manifest_text g = Ok global_text /\
    (let '(w, fs) := atomic_write debug path run_text answers fs0 in
     let load fs := load_run_manifest debug (read_of fs) path in
     (load fs = load fs0 \/ load fs = Ok r) /\ (w = WEnd path (Ok tt) -> load fs = Ok r) /\
     (is_Some (parent path) -> (forall e, Fails e ∉ answers) ->
      (String.length run_text + 4 <= length answers)%nat -> w = WEnd path (Ok tt))) /\
    (let '(w, fs) := atomic_write debug path global_text answers fs0 in
     let load fs := load_global_manifest debug exists_ is_file blake3_hex (read_of fs) path in
     (load fs = load fs0 \/ load fs = Ok g) /\ (w = WEnd path (Ok tt) -> load fs = Ok g) /\
     (is_Some (parent path) -> (forall e, Fails e ∉ answers) ->
      (String.length global_text + 4 <= length answers)%nat -> w = WEnd path (Ok tt))).
Proof.
  intros Hok Htmp Hr Hg Hdir.
  destruct (run_text debug r Hr Hdir) as (run_text & Hrt & Hload_run).
  destruct (global_text debug exists_ is_file blake3_hex g Hg) as (global_text & Hgt & Hload_global).
  exists run_text, global_text. split_and!; [done|done| |]; cbv zeta.
  - apply (atomic_load debug (fun fs => load_run_manifest debug (read_of fs) path)); [done|done| |].
    + intros fs fs' E. unfold load_run_manifest, read_of. by rewrite E.
    + intros fs Hfs. apply Hload_run. unfold read_of. by rewrite Hfs.
  - apply (atomic_load debug (fun fs =>
      load_global_manifest debug exists_ is_file blake3_hex (read_of fs) path)); [done|done| |].
    + intros fs fs' E. unfold load_global_manifest, read_of. by rewrite E.
    + intros fs Hfs. apply Hload_global. unfold read_of. by rewrite Hfs.
Qed.

(** ** A concrete run *)

#[local] Existing Instance concrete_json.
#[local] Existing Instance integers_unsigned.

#[local] Instance concrete_json_file : JsonFile :=
  {| to_vec_pretty := print_value;
     from_slice s := ok_or (parse_value s) "expected value";
     serde_error _ := "invalid type" |}.

Lemma concrete_json_file_laws : JsonFileLaws.
Proof.
  split.
  - intros v _. unfold to_vec_pretty. cbn. unfold print_value. eauto.
  - intros v s _ Hs. cbn in *. by rewrite (parse_print v s).
Qed.

Definition sample_saved : PersistedService :=
  mkPersistedService (Some 8080%Z) (Some "http://localhost:8080") (Some 9090%Z) true 1024 ["/health"]
    Degraded (Some "h") (Some "health checks failing") None true.

Definition sample_manifest : PersistedRun :=
  mkPersistedRun "dev-1" "/p" "/p" "/d/manifest.json" "dev" [("web", sample_saved)]
    [("A", "1")] RunDegraded "t0" None.

Definition sample_global_manifest : PersistedGlobal :=
  mkPersistedGlobal "k__db" "db" "/p" "/p/devstack.toml" "/d/manifest.json" sample_saved [("A", "1")]
    RunRunning "t0" None.

Lemma sample_saved_typed : service_typed sample_saved.
Proof. repeat split; cbn; unfold u16_max, usize_max; lia. Qed.

(** A writer that is stopped after its first bytes, on an empty file system. *)
Lemma manifest_survives_witness :
  let load fs := load_run_manifest id (read_of fs) "/d/manifest.json" in
  let fs0 := mkFileSystem ∅ ∅ 0 in
  exists text, run_manifest_text sample_manifest = Ok text /\
    let '(_, fs) := atomic_write id "/d/manifest.json" text [Works 0; Works 0; Works 5] fs0 in
    load fs = load fs0 \/ load fs = Ok sample_manifest.
Proof.
  destruct (@manifest_survives concrete_json concrete_json_file concrete_json_file_laws id
    (fun _ => true) (fun _ => true) id "/d/manifest.json" [Works 0; Works 0; Works 5]
    (mkFileSystem ∅ ∅ 0) sample_manifest sample_global_manifest) as (text & _ & Ht & _ & Hrun & _).
  - by split.
  - by vm_compute.
  - split; [repeat constructor| |repeat constructor].
    intros n s [[= -> ->]|?%elem_of_nil]%elem_of_cons; [apply sample_saved_typed|done].
  - split; [apply sample_saved_typed|repeat constructor].
  - by vm_compute.
  - exists text. split; [exact Ht|]. destruct (atomic_write _ _ text _ _) as [w fs]. apply Hrun.
Defined.
