(* ===== verification/Restore.v ===== *)
(** * What survives a restart of the daemon

    Models how runs and globals go to disk and come back: [persist_manifest],
    [persisted_global_from_record], [write_daemon_state] and
    [sync_port_reservations_from_disk] of [src/app/runtime.rs], and
    [src/persistence/daemon_state.rs], which the daemon runs when it starts.

    A manifest keeps what happened (states, ports, hashes, times); what a service
    is comes from the snapshot of the configuration, prepared again. *)

From S2P Require Import Prelude Bytes BMap Util Json ConfigModel ConfigPlan.
From S2P Require Import ConfigValidate RunModel Port LaunchEnv LaunchPorts Files Manifest.
From Stdlib Require Import Lia ZArith.

(** ** To disk *)

Definition persisted_service (service : ServiceRecord) : PersistedService :=
  let l := sv_launch service in
  let rt := sv_runtime service in
  mkPersistedService (sl_port l) (sl_url l) (sl_listen_port l) (sl_capture_api l)
    (sl_capture_api_body_limit l) (sl_capture_api_ignore l) (sr_state rt) (Some (sl_watch_hash l))
    (sr_last_failure rt) (sr_last_started_at rt) (sr_watch_paused rt).

(** The section of [persist_manifest]: the manifest and its path. *)
Definition persisted_run (base_dir : outcome string) (run : RunRecord)
    : outcome (PersistedRun * string) :=
  match run_manifest_path base_dir (rr_run_id run) with
  | Ok path =>
      Ok (mkPersistedRun (rr_run_id run) (to_string_lossy (rr_project_dir run))
            (to_string_lossy (rr_config_dir run)) (to_string_lossy path) (rr_stack run)
            (bmap_values (fun _ => persisted_service) (rr_services run)) (rr_base_env run)
            (rr_state run) (rr_created_at run) (rr_stopped_at run), path)
  | _ => Panic
  end.

Definition persisted_global_from_record (global : GlobalRecord) (path : string) : PersistedGlobal :=
  mkPersistedGlobal (gr_key global) (gr_name global) (to_string_lossy (gr_project_dir global))
    (to_string_lossy (gr_config_path global)) (to_string_lossy path)
    (persisted_service (gr_service global)) (sl_env (sv_launch (gr_service global)))
    (gr_state global) (gr_created_at global) (gr_stopped_at global).

(** [write_daemon_state]: the index of the runs. *)
Definition daemon_state_json `{JsonNumber} (now : string) (runs : bmap string RunRecord) : Value :=
  Object [("runs", json_strings (bkeys runs)); ("updated_at", String now)].

(** ** From disk *)

Definition with_watch_hash (p : PreparedService) (hash : string) : PreparedService :=
  mkPreparedService (ps_name p) (ps_unit_name p) (ps_port p) (ps_listen_port p) (ps_scheme p)
    (ps_url p) (ps_capture_api p) (ps_capture_api_body_limit p) (ps_capture_api_ignore p)
    (ps_deps p) (ps_readiness p) (ps_log_path p) (ps_cwd p) (ps_env p) (ps_cmd p) hash
    (ps_watch_patterns p) (ps_ignore_patterns p) (ps_watch_extra_files p) (ps_watch_fingerprint p)
    (ps_auto_restart p).

(** The schemes of the services of a plan and of the globals. *)
Definition build_service_schemes (plan : StackPlan) (globals : bmap string ServiceConfig)
    : bmap string string :=
  bextend (bmap_values (fun _ => scheme) (sp_services plan)) (bmap_values (fun _ => scheme) globals).

Definition resolve_global_env_file_path (config : ConfigFile) (config_dir : string)
    : option string :=
  (fun p => if is_absolute p then p else path_join config_dir p) <$> cf_env_file config.

(** [config.tasks.as_ref().map(..).unwrap_or_default()] *)
Definition build_tasks_map (config : ConfigFile) : bmap string TaskConfig :=
  default [] (cf_tasks config).

Section restore.
Context `{JsonFile}.
(** What [prepare_service] takes from outside. *)
Context (render_template : string -> Value -> outcome string) (home : option string).
Context (exists_ is_file : string -> bool).
Context (from_path_iter : string -> outcome (list (outcome (string * string)))).
Context (var : string -> option string) (debug_readiness : ReadinessSpec -> string).
Context (compute_watch_hash :
  string -> option (list string) -> list string -> list string -> bytes -> outcome string).
Context (base_dir : outcome string) (blake3_hex : string -> string).
(** The parsers of configurations, and the files. *)
Context (debug : string -> string).
Context (parse_yaml parse_toml : bytes -> outcome ConfigFile).
Context (read : string -> outcome string).

Definition read_bytes (path : string) : outcome bytes := to_bytes <$> read path.

Definition prepare := prepare_service render_template home exists_ from_path_iter var
  debug_readiness compute_watch_hash base_dir blake3_hex.

Definition load_global := load_global_manifest debug exists_ is_file blake3_hex read.
Definition load_run := load_run_manifest debug read.
Definition load_config := load_from_path debug parse_yaml parse_toml read_bytes.

(** The ports of the globals of a project, from their manifests or else from their
    configurations. *)
Definition global_port_map (project_dir : string) (globals : bmap string ServiceConfig)
    : outcome PortMap :=
  ofold (fun ports (entry : string * ServiceConfig) =>
    let '(name, service) := entry in
    let fixed := config ← sc_port service; port_fixed config in
    manifest_path ← global_manifest_path base_dir blake3_hex project_dir name;
    let port :=
      if exists_ manifest_path
      then match load_global manifest_path with
           | Ok manifest => pv_port (pg_service manifest)
           | _ => fixed
           end
      else fixed in
    Ok (binsert name port ports)) globals [].

Definition restored_runtime (saved : PersistedService) (prepared : PreparedService) : ServiceRecord :=
  let prepared := match pv_watch_hash saved with
                  | Some hash => with_watch_hash prepared hash
                  | None => prepared
                  end in
  let record := into_service_record prepared (pv_state saved) (pv_last_failure saved)
                  (pv_last_started_at saved) in
  put_watch_paused record (pv_watch_paused saved).

(** [entry(name).or_insert(port)] for each global. *)
Definition add_global_ports (globals : PortMap) (ports : PortMap) : PortMap :=
  foldl (fun ports (entry : string * option Z) => bentry entry.1 entry.2 ports) ports globals.

Definition saved_ports (services : bmap string PersistedService) : PortMap :=
  bmap_values (fun _ => pv_port) services.

(** [service.listen_port.or(service.port)] *)
Definition saved_listen_port (service : PersistedService) : option Z :=
  match pv_listen_port service with Some p => Some p | None => pv_port service end.

Definition saved_listen_ports (services : bmap string PersistedService) : PortMap :=
  bmap_values (fun _ => saved_listen_port) services.

Definition convert_manifest_to_run_record (manifest : PersistedRun) (config : ConfigFile)
    : outcome RunRecord :=
  let run_id := pr_run_id manifest in
  let project_dir := pr_project_dir manifest in
  let config_dir := pr_config_dir manifest in
  let services := pr_services manifest in
  let scope := ScopeRun run_id (pr_stack manifest) in
  stack_plan ← stack_plan config (pr_stack manifest);
  let globals := globals_map config in
  global_ports ← global_port_map project_dir globals;
  let port_map := add_global_ports global_ports (saved_ports services) in
  let listen_port_map := add_global_ports global_ports (saved_listen_ports services) in
  let service_schemes := build_service_schemes stack_plan globals in
  let record := mkRunRecord run_id (pr_stack manifest) project_dir config_dir (pr_env manifest) []
                  (pr_state manifest) (pr_created_at manifest) (pr_stopped_at manifest) in
  ofold (fun record service_name =>
    match bget service_name services, bget service_name (sp_services stack_plan) with
    | Some saved_service, Some service_config =>
        prepared ← prepare scope project_dir config_dir service_name service_config port_map
          listen_port_map service_schemes (pr_env manifest) (cf_env config)
          (resolve_global_env_file_path config config_dir);
        Ok (insert_service record service_name (restored_runtime saved_service prepared))
    | _, _ => Ok record
    end) (sp_order stack_plan) record.

Definition convert_manifest_to_global_record (manifest : PersistedGlobal) (config : ConfigFile)
    : outcome GlobalRecord :=
  let name := pg_name manifest in
  let project_dir := pg_project_dir manifest in
  let config_path := pg_config_path manifest in
  let service := pg_service manifest in
  match bget name (globals_map config) with
  | None => Err ("global " +:+ name +:+ " missing from " +:+ config_path)
  | Some service_config =>
      let scope := ScopeGlobal (pg_key manifest) project_dir name in
      let port_map := [(name, pv_port service)] in
      let listen_port_map := [(name, saved_listen_port service)] in
      let service_schemes := [(name, scheme service_config)] in
      base_env ← build_base_env scope project_dir port_map listen_port_map service_schemes;
      let config_dir := default project_dir (parent config_path) in
      prepared ← prepare scope project_dir config_dir name service_config port_map listen_port_map
        service_schemes base_env (cf_env config) (resolve_global_env_file_path config config_dir);
      Ok (mkGlobalRecord (pg_key manifest) name project_dir config_path service_config
            (build_tasks_map config) (restored_runtime service prepared) (pg_state manifest)
            (pg_created_at manifest) (pg_stopped_at manifest))
  end.

(** One entry of [read_dir]: the manifests that cannot be read, restored or prepared
    are skipped. *)
Definition load_run_entry (runs : bmap string RunRecord) (entry : outcome string)
    : outcome (bmap string RunRecord) :=
  entry ← entry;
  let manifest_path := path_join entry "manifest.json" in
  if negb (exists_ manifest_path) then Ok runs else
  or_skip (load_run manifest_path) runs (fun manifest =>
  if negb (run_manifest_is_restorable exists_ manifest) then Ok runs else
  snapshot_path ← run_snapshot_path base_dir (pr_run_id manifest);
  if negb (exists_ snapshot_path) then Ok runs else
  or_skip (load_config snapshot_path) runs (fun config =>
  or_skip (convert_manifest_to_run_record manifest config) runs (fun record =>
  Ok (binsert (rr_run_id record) record runs)))).

Definition load_global_entry (globals : bmap string GlobalRecord) (entry : outcome string)
    : outcome (bmap string GlobalRecord) :=
  entry ← entry;
  let manifest_path := path_join entry "manifest.json" in
  if negb (exists_ manifest_path) then Ok globals else
  or_skip (load_global manifest_path) globals (fun manifest =>
  if negb (global_manifest_is_restorable exists_ manifest) then Ok globals else
  or_skip (load_config (pg_config_path manifest)) globals (fun config =>
  or_skip (convert_manifest_to_global_record manifest config) globals (fun record =>
  Ok (binsert (gr_key record) record globals)))).

Section directory.
(** [std::fs::read_dir] *)
Context (read_dir : string -> outcome (list (outcome string))).

Definition load_state_from_disk : outcome (bmap string RunRecord) :=
  runs_dir ← runs_dir base_dir;
  if negb (exists_ runs_dir) then Ok [] else
  entries ← read_dir runs_dir; ofold load_run_entry entries [].

Definition load_globals_from_disk : outcome (bmap string GlobalRecord) :=
  globals_root ← globals_root base_dir;
  if negb (exists_ globals_root) then Ok [] else
  entries ← read_dir globals_root; ofold load_global_entry entries [].
End directory.

(** ** Lemmas *)

Lemma to_string_lossy_text p : is_text p -> to_string_lossy p = p.
Proof. intros Hp. unfold to_string_lossy. rewrite from_utf8_lossy_valid by done. apply of_to_bytes. Qed.

(** A service, and a run, without the tasks that served it. *)
Definition cold (service : ServiceRecord) : ServiceRecord :=
  set_handles service ServiceHandles_default.

Definition cold_run (run : RunRecord) : RunRecord :=
  put_services run (bmap_values (fun _ => cold) (rr_services run)).

(** A prepared service describes a record, the hash of its files aside. *)
Definition describes (prepared : PreparedService) (service : ServiceRecord) : Prop :=
  sv_spec service = prepared_spec prepared /\
  without_hash (sv_launch service) = without_hash (prepared_launch prepared).

Lemma restored_cold prepared service :
  describes prepared service -> restored_runtime (persisted_service service) prepared = cold service.
Proof.
  intros [Hs Hl]. destruct service as [spec [] rt h], prepared, rt. simpl in *.
  injection Hl as ->; subst. done.
Qed.

(** The ports a run has at its launch: those of its services and of the globals. *)
Definition launch_ports (port : ServiceLaunchPlan -> option Z) (globals : PortMap) (run : RunRecord)
    : PortMap :=
  add_global_ports globals (bmap_values (fun _ s => port (sv_launch s)) (rr_services run)).

(** A service that has a port listens on one. *)
Definition listens (run : RunRecord) : Prop :=
  forall name s, (name, s) ∈ rr_services run ->
    sl_listen_port (sv_launch s) = None -> sl_port (sv_launch s) = None.

Lemma saved_launch_ports globals run :
  add_global_ports globals (saved_ports (bmap_values (fun _ => persisted_service) (rr_services run)))
  = launch_ports sl_port globals run.
Proof. unfold launch_ports, saved_ports. by rewrite bmap_values_compose. Qed.

Lemma saved_launch_listen_ports globals run : listens run ->
  add_global_ports globals
    (saved_listen_ports (bmap_values (fun _ => persisted_service) (rr_services run)))
  = launch_ports sl_listen_port globals run.
Proof.
  intros Hl. unfold launch_ports, saved_listen_ports. rewrite bmap_values_compose. f_equal.
  apply bmap_values_ext. intros name s Hin. unfold saved_listen_port. simpl.
  specialize (Hl name s Hin). destruct (sl_listen_port (sv_launch s)); [done|]. by rewrite Hl.
Qed.

(** What a run needs to be restored as it was: its plan and its services are what
    the snapshot of its configuration gives today, with the ports it has, those
    of the globals and the files that are there. *)
Record restorable (config : ConfigFile) (run : RunRecord) (plan : StackPlan) (globals : PortMap)
    : Prop := {
  re_wf : bwf (rr_services run);
  re_text : is_text (rr_project_dir run) /\ is_text (rr_config_dir run);
  re_dir : str_trim (rr_config_dir run) <> "";
  re_typed : forall name s, (name, s) ∈ rr_services run -> service_typed (persisted_service s);
  re_env : bwf (rr_base_env run);
  re_listens : listens run;
  re_stacks : forall stack, bget (rr_stack run) (cf_stacks config) = Some stack ->
    bwf (st_services stack);
  re_plan : stack_plan config (rr_stack run) = Ok plan;
  re_globals : global_port_map (rr_project_dir run) (globals_map config) = Ok globals;
  re_each : forall name s, bget name (rr_services run) = Some s ->
    exists svc prepared, bget name (sp_services plan) = Some svc /\ describes prepared s /\
      prepare (ScopeRun (rr_run_id run) (rr_stack run)) (rr_project_dir run) (rr_config_dir run)
        name svc (launch_ports sl_port globals run) (launch_ports sl_listen_port globals run)
        (build_service_schemes plan (globals_map config)) (rr_base_env run) (cf_env config)
        (resolve_global_env_file_path config (rr_config_dir run)) = Ok prepared;
}.

Lemma stack_plan_order config name plan :
  (forall stack, bget name (cf_stacks config) = Some stack -> bwf (st_services stack)) ->
  stack_plan config name = Ok plan -> sp_order plan ≡ₚ bkeys (sp_services plan).
Proof.
  intros Hwf Hplan. unfold stack_plan in Hplan. outcome_simpl. simpl.
  eapply topo_sort_order; eauto.
Qed.

(** The loop over the plan puts each service of the run in its place. *)
Lemma restore_loop run (cfg : bmap string ServiceConfig)
    (prepare_one : string -> ServiceConfig -> outcome PreparedService) order acc :
  (forall name s, bget name (rr_services run) = Some s -> exists svc prepared,
    bget name cfg = Some svc /\ describes prepared s /\ prepare_one name svc = Ok prepared) ->
  bwf acc ->
  exists acc', ofold (fun record name =>
      match bget name (bmap_values (fun _ => persisted_service) (rr_services run)),
            bget name cfg with
      | Some saved_service, Some service_config =>
          prepared ← prepare_one name service_config;
          Ok (insert_service record name (restored_runtime saved_service prepared))
      | _, _ => Ok record
      end) order (put_services run acc) = Ok (put_services run acc') /\ bwf acc' /\
    forall k, bget k acc' =
      if bool_decide (k ∈ order) then
        match bget k (rr_services run) with Some s => Some (cold s) | None => bget k acc end
      else bget k acc.
Proof.
  intros Heach. revert acc. induction order as [|name order IH]; intros acc Hacc.
  { exists acc. split_and!; [done..|]. intros k.
    by rewrite bool_decide_eq_false_2 by apply not_elem_of_nil. }
  cbn [ofold]. rewrite bget_bmap_values.
  assert (forall k, k <> name -> bool_decide (k ∈ name :: order) = bool_decide (k ∈ order)) as Hother.
  { intros k Hk. apply bool_decide_ext. rewrite elem_of_cons. tauto. }
  destruct (bget name (rr_services run)) as [s|] eqn:Es; cbn [fmap option_fmap option_map].
  - destruct (Heach name s Es) as (svc & prepared & -> & Hd & ->). cbn [mbind outcome_bind].
    rewrite restored_cold by done.
    destruct (IH (binsert name (cold s) acc)) as (acc' & Hrun & Hwf' & Hk); [by apply bwf_binsert|].
    exists acc'. split_and!; [exact Hrun|done|]. intros k. rewrite Hk, bget_binsert.
    destruct (decide (k = name)) as [->|Hne].
    + rewrite keqb_refl, Es. rewrite (bool_decide_eq_true_2 (name ∈ name :: order)) by left.
      by destruct (bool_decide (name ∈ order)).
    + by rewrite (proj2 (keqb_false _ _)), Hother.
  - cbn [mbind outcome_bind]. destruct (IH acc Hacc) as (acc' & -> & Hwf' & Hk).
    exists acc'. split_and!; [done..|]. intros k. rewrite Hk. destruct (decide (k = name)) as [->|Hne].
    + rewrite Es. by destruct (bool_decide (name ∈ order)), (bool_decide (name ∈ name :: order)).
    + by rewrite Hother.
Qed.

Lemma convert_restores config run plan globals manifest path :
  restorable config run plan globals -> persisted_run base_dir run = Ok (manifest, path) ->
  convert_manifest_to_run_record manifest config = Ok (cold_run run).
Proof.
  intros [Hwf [Hpd Hcd] _ _ _ Hlisten Hstacks Hplan Hglobals Heach] Hper.
  unfold persisted_run in Hper. destruct (run_manifest_path _ _) as [mpath|e| |]; try done.
  injection Hper as <- <-. unfold convert_manifest_to_run_record.
  cbn [pr_run_id pr_stack pr_project_dir pr_config_dir pr_services pr_env pr_state pr_created_at
       pr_stopped_at].
  rewrite !to_string_lossy_text, Hplan by done. cbn [mbind outcome_bind]. rewrite Hglobals.
  cbn [mbind outcome_bind]. rewrite saved_launch_ports, saved_launch_listen_ports by done.
  destruct (restore_loop run (sp_services plan) _ (sp_order plan) [] Heach bwf_nil)
    as (services & Hrun & Hwf' & Hk).
  etrans; [exact Hrun|]. unfold cold_run. do 2 f_equal.
  apply bmap_eq; [done|by apply bwf_bmap_values|]. intros k. rewrite Hk, bget_bmap_values.
  destruct (bget k (rr_services run)) as [s|] eqn:Es; simpl.
  - rewrite bool_decide_eq_true_2; [done|]. rewrite (stack_plan_order _ _ _ Hstacks Hplan).
    apply bget_keys. destruct (Heach k s Es) as (svc & ? & -> & _). eauto.
  - by destruct (bool_decide _).
Qed.
Lemma persisted_typed config run plan globals manifest path :
  restorable config run plan globals -> persisted_run base_dir run = Ok (manifest, path) ->
  run_typed manifest /\ str_trim (pr_config_dir manifest) <> "".
Proof.
  intros [Hwf [Hpd Hcd] Hdir Hty Henv _ _ _ _ _] Hper.
  unfold persisted_run in Hper. destruct (run_manifest_path _ _) as [mpath|e| |]; try done.
  injection Hper as <- <-. split; [split|]; simpl.
  - by apply bwf_bmap_values.
  - intros n s ([m t] & Heq & Hin%list_elem_of_In)%list_elem_of_In%in_map_iff.
    injection Heq as <- <-. by apply (Hty m t).
  - done.
  - by rewrite to_string_lossy_text.
Qed.

(** C8: a restart of the daemon brings a run back as it was. The manifest that
    [persist_manifest] writes for a run, read by the next daemon with the snapshot
    of its configuration, gives the run with every service, state, failure, time,
    port, hash and variable it had, and only without its background tasks; a
    stopped run, or one whose project is gone, is not loaded. *)
Theorem restart_restores_run (laws : JsonFileLaws) (config : ConfigFile) (run : RunRecord)
    (plan : StackPlan) (globals : PortMap) (manifest : PersistedRun)
    (path text entry snapshot : string) (runs : bmap string RunRecord) :
  restorable config run plan globals ->
  persisted_run base_dir run = Ok (manifest, path) -> run_manifest_text manifest = Ok text ->
  path_join entry "manifest.json" = path -> exists_ path = true -> read path = Ok text ->
  run_snapshot_path base_dir (rr_run_id run) = Ok snapshot -> exists_ snapshot = true ->
  load_config snapshot = Ok config ->
  load_run_entry runs (Ok entry) =
    Ok (if negb (is_stopped run) && bool_decide (rr_stopped_at run = None)
           && exists_ (rr_project_dir run)
        then binsert (rr_run_id run) (cold_run run) runs else runs).
Proof.
  intros Hre Hper Htext Hentry Hpath Hread Hsnap Hexists Hconfig.
  destruct (persisted_typed _ _ _ _ _ _ Hre Hper) as [Hty Hdir].
  destruct (run_text debug manifest Hty Hdir) as (text' & Htext' & Hload).
  rewrite Htext in Htext'. injection Htext' as <-. unfold load_run_entry. cbn [mbind outcome_bind].
  rewrite Hentry, Hpath. unfold load_run. rewrite (Hload _ _ Hread). cbn [negb or_skip].
  pose proof (convert_restores _ _ _ _ _ _ Hre Hper) as Hconv.
  assert (pr_run_id manifest = rr_run_id run /\
    run_manifest_is_restorable exists_ manifest = negb (is_stopped run)
      && bool_decide (rr_stopped_at run = None) && exists_ (rr_project_dir run)) as [-> ->].
  { clear -Hper Hre. unfold persisted_run in Hper. destruct (run_manifest_path _ _); try done.
    injection Hper as <- <-. unfold run_manifest_is_restorable, is_stopped. simpl.
    by rewrite to_string_lossy_text by apply Hre. }
  destruct (_ && _); [|done]. cbn [negb]. rewrite Hsnap. cbn [mbind outcome_bind].
  rewrite Hexists, Hconfig. cbn [negb or_skip]. rewrite Hconv. done.
Qed.
End restore.

(** ** A concrete restart *)

#[local] Existing Instance concrete_json.
#[local] Existing Instance integers_unsigned.
#[local] Existing Instance concrete_json_file.

Definition restart_config : ConfigFile :=
  mkConfigFile 1 [("dev", mkStackConfig [("web", bare_service [])])] (Some "dev") None None
    [("COLOR", "red")] None.

Definition restart_prepare (ports : PortMap) : outcome PreparedService :=
  prepare (fun t _ => Ok t) None (fun _ => true) (fun _ => Ok []) no_var (fun _ => "readiness")
    (fun _ _ _ _ _ => Ok "new hash") (Ok "/data") id (ScopeRun "dev-1" "dev") "/p" "/p" "web"
    (bare_service []) ports ports [("web", "http")] [("DEV_STACK", "dev")] [("COLOR", "red")] None.

(** A run with one service, which has a port, a monitor and the hash of its launch. *)
Definition restart_run (prepared : PreparedService) : RunRecord :=
  let record := into_service_record (with_watch_hash prepared "old hash") Ready None (Some "t1") in
  mkRunRecord "dev-1" "dev" "/p" "/p" [("DEV_STACK", "dev")]
    [("web", set_handles record (mkServiceHandles (Some 3) None None))] RunRunning "t0" None.

Definition ok_default {A} (d : A) (o : outcome A) : A := match o with Ok a => a | _ => d end.

Definition restart_run_now : RunRecord :=
  match restart_prepare [("web", Some 8080%Z)] with
  | Ok prepared => restart_run prepared
  | _ => RunRecord_new "" "" "" "" "" []
  end.

Definition restart_manifest : PersistedRun :=
  match persisted_run (Ok "/data") restart_run_now with
  | Ok (manifest, _) => manifest
  | _ => sample_manifest
  end.

Definition restart_text : string := ok_default "" (run_manifest_text restart_manifest).

Lemma restart_restores_run_witness :
  load_run_entry (fun t _ => Ok t) None (fun _ => true) (fun _ => true) (fun _ => Ok []) no_var
    (fun _ => "readiness") (fun _ _ _ _ _ => Ok "new hash") (Ok "/data") id id
    (fun _ => Ok restart_config) (fun _ => Err "not toml") (fun _ => Ok restart_text) []
    (Ok "/data/runs/dev-1")
  = Ok [("dev-1", cold_run restart_run_now)].
Proof.
  apply (@restart_restores_run concrete_json concrete_json_file (fun t _ => Ok t) None (fun _ => true)
    (fun _ => true) (fun _ => Ok []) no_var (fun _ => "readiness") (fun _ _ _ _ _ => Ok "new hash")
    (Ok "/data") id id (fun _ => Ok restart_config) (fun _ => Err "not toml")
    (fun _ => Ok restart_text) concrete_json_file_laws restart_config restart_run_now
    (mkStackPlan "dev" [("web", bare_service [])] ["web"]) [] restart_manifest
    "/data/runs/dev-1/manifest.json" restart_text "/data/runs/dev-1"
    "/data/runs/dev-1/devstack.yml.snapshot" []); [|vm_compute; reflexivity..].
  split; [vm_compute; by repeat constructor| | | |vm_compute; by repeat constructor| |
    |vm_compute; reflexivity..|].
  - split; vm_compute; reflexivity.
  - vm_compute. discriminate.
  - intros name s [[= -> ->]|?%elem_of_nil]%elem_of_cons; [|done].
    repeat split; vm_compute; discriminate.
  - intros name s [[= -> ->]|?%elem_of_nil]%elem_of_cons; [|done]. by vm_compute.
  - intros stack [= <-]. repeat constructor.
  - intros name s Hs. simpl in Hs. destruct (keqb name "web") eqn:E; [|done].
    apply keqb_true in E as ->. injection Hs as <-.
    exists (bare_service []). eexists. split_and!; [by vm_compute| |by vm_compute].
    by split.
Defined.
