(* ===== verification/PortSync.v ===== *)
(** * The ports of what is restored

    Models [sync_port_reservations_from_disk] of [src/app/runtime.rs], which runs
    when the daemon starts and before each launch: the ports in the manifests of
    the runs and globals that can be restored are reserved again, because the
    entries of a daemon that is dead are stale. *)

From S2P Require Import Prelude Bytes BMap Util Json.
From S2P Require Import ConfigModel RunModel Port LaunchPorts Manifest.
From Stdlib Require Import Lia ZArith.

Section sync.
Context `{RegistryCodec} (kernel : nat -> Kernel) (fuel : nat -> nat).
Context (exists_ : string -> bool) (base_dir : outcome string).
Context (read_dir : string -> outcome (list (outcome string))).
(** [PersistedRun::load_from_path] and [PersistedGlobal::load_from_path]. *)
Context (load_run : string -> outcome PersistedRun) (load_global : string -> outcome PersistedGlobal).

Local Notation reserve := (reserve kernel fuel).

Definition reserve_opt (port : option Z) (owner : string) : PortM unit :=
  match port with Some port => reserve port owner | None => mret tt end.

(** The port behind the capture proxy of a service, if there is one. *)
Definition backend_port (record : PersistedService) : option Z :=
  match pv_listen_port record with
  | Some listen_port =>
      if pv_capture_api record && negb (bool_decide (Some listen_port = pv_port record))
      then Some listen_port else None
  | None => None
  end.

Definition sync_service (run_id : string) (_ : unit) (entry : string * PersistedService)
    : PortM unit :=
  let '(service, record) := entry in
  _ ← reserve_opt (pv_port record) (port_owner run_id service);
  reserve_opt (backend_port record) (capture_backend_port_owner run_id service).

Definition sync_run_entry (_ : unit) (entry : outcome string) : PortM unit :=
  entry ← st_lift entry;
  let manifest_path := path_join entry "manifest.json" in
  if negb (exists_ manifest_path) then mret tt else
  st_skip (load_run manifest_path) tt (fun manifest =>
  if negb (run_manifest_is_restorable exists_ manifest) then mret tt else
  sfold (sync_service (pr_run_id manifest)) (pr_services manifest) tt).

Definition sync_global_entry (_ : unit) (entry : outcome string) : PortM unit :=
  entry ← st_lift entry;
  let manifest_path := path_join entry "manifest.json" in
  if negb (exists_ manifest_path) then mret tt else
  st_skip (load_global manifest_path) tt (fun manifest =>
  if negb (global_manifest_is_restorable exists_ manifest) then mret tt else
  reserve_opt (pv_port (pg_service manifest)) (global_port_owner (pg_key manifest) (pg_name manifest))).

Definition sync_dir (dir : string) (f : unit -> outcome string -> PortM unit) : PortM unit :=
  if exists_ dir
  then entries ← st_lift (read_dir dir); sfold f entries tt
  else mret tt.

Definition sync_port_reservations_from_disk : PortM unit :=
  runs_dir ← st_lift (runs_dir base_dir);
  _ ← sync_dir runs_dir sync_run_entry;
  globals_root ← st_lift (globals_root base_dir);
  sync_dir globals_root sync_global_entry.

(** ** What is claimed *)

(** The ports and owners of the manifest of a run, and of a global. *)
Definition run_claims (manifest : PersistedRun) (port : Z) (owner : string) : Prop :=
  exists service record, (service, record) ∈ pr_services manifest /\
    (pv_port record = Some port /\ owner = port_owner (pr_run_id manifest) service \/
     backend_port record = Some port /\
       owner = capture_backend_port_owner (pr_run_id manifest) service).

Definition global_claims (manifest : PersistedGlobal) (port : Z) (owner : string) : Prop :=
  pv_port (pg_service manifest) = Some port /\
  owner = global_port_owner (pg_key manifest) (pg_name manifest).

(** A manifest of a directory that will be restored. *)
Definition on_disk {M} (load : string -> outcome M) (restorable : M -> bool) (dir : outcome string)
    (manifest : M) : Prop :=
  exists d entries entry, dir = Ok d /\ exists_ d = true /\ read_dir d = Ok entries /\
    Ok entry ∈ entries /\ exists_ (path_join entry "manifest.json") = true /\
    load (path_join entry "manifest.json") = Ok manifest /\ restorable manifest = true.

(** What the daemon will restore claims a port for an owner. *)
Definition claimed (port : Z) (owner : string) : Prop :=
  (exists m, on_disk load_run (run_manifest_is_restorable exists_) (runs_dir base_dir) m /\
     run_claims m port owner) \/
  (exists m, on_disk load_global (global_manifest_is_restorable exists_) (globals_root base_dir) m /\
     global_claims m port owner).

Context (pid : Z) (Hk : kernels_ok kernel pid).
Context (Htyped : forall port owner, claimed port owner -> is_text owner /\ in_range 0 u16_max port).

Definition ours (owner : string) : Prop := exists port, claimed port owner.

(** The registry is sound, and entries of the owners are ours or stale. *)
Definition synced (s : PortState) : Prop :=
  exists r, holds s.1 r /\ ours_or_stale kernel pid ours r.

Definition has (port : Z) (owner : string) (s : PortState) : Prop :=
  forall r, holds s.1 r -> held_us pid r port owner.

Lemma holds_fun file r1 r2 : holds file r1 -> holds file r2 -> r1 = r2.
Proof. intros [H1 _] [H2 _]. congruence. Qed.

(** [claims f claim]: when [f] succeeds, what it claims is held, and nothing is lost. *)
Definition claims (m : PortM unit) (claim : Z -> string -> Prop) : Prop :=
  forall s s', synced s -> m s = (Ok tt, s') ->
    synced s' /\ (forall p o, claim p o -> has p o s') /\ forall p o, has p o s -> has p o s'.

Lemma claims_ret : claims (mret tt) (fun _ _ => False).
Proof. intros s s' Hs [= <-]. by split_and!. Qed.

Lemma claims_bind m1 m2 (c1 c2 c : Z -> string -> Prop) :
  claims m1 c1 -> claims m2 c2 -> (forall p o, c p o -> c1 p o \/ c2 p o) ->
  claims (_ ← m1; m2) c.
Proof.
  intros H1 H2 Hc s s' Hs ([] & s1 & Hm1 & Hm2)%st_bind_Ok.
  destruct (H1 s s1 Hs Hm1) as (Hs1 & Hc1 & Hk1). destruct (H2 s1 s' Hs1 Hm2) as (Hs2 & Hc2 & Hk2).
  split_and!; [done| |auto]. intros p o [?|?]%Hc; auto.
Qed.

Lemma claims_reserve port owner :
  (forall p, port = Some p -> claimed p owner) ->
  claims (reserve_opt port owner) (fun p o => port = Some p /\ o = owner).
Proof.
  destruct port as [port|]; intros Hclaim; [|].
  2:{ intros s s' Hs [= <-]. split_and!; [done|by intros ? ? [? _]|done]. }
  intros [file n] s' (r & Hh & Ho) Hres. destruct (Htyped port owner (Hclaim port eq_refl)) as [Ht Hp].
  eapply reserve_weak in Hres as (r' & [Hh' Hr'] & Hkept & Hheld); [|done..|by exists port; apply Hclaim|done].
  split_and!.
  - exists r'. split; [done|]. intros p e He Hown. left. by eapply Hr'.
  - intros p o [[= <-] ->] r2 Hr2. by rewrite (holds_fun _ _ _ Hr2 Hh').
  - intros p o Hhas r2 Hr2. rewrite (holds_fun _ _ _ Hr2 Hh'). apply Hkept, Hhas, Hh.
Qed.

Lemma claims_weaken m (c c' : Z -> string -> Prop) :
  claims m c -> (forall p o, c' p o -> c p o) -> claims m c'.
Proof. intros Hm Hc s s' Hs Hrun. destruct (Hm s s' Hs Hrun) as (? & ? & ?). split_and!; auto. Qed.

Lemma claims_fold {A} (f : unit -> A -> PortM unit) (c : A -> Z -> string -> Prop) l :
  (forall a, a ∈ l -> claims (f tt a) (c a)) ->
  claims (sfold f l tt) (fun p o => exists a, a ∈ l /\ c a p o).
Proof.
  induction l as [|a l IH]; intros Hf; cbn [sfold].
  { eapply claims_weaken; [apply claims_ret|]. by intros p o (a & ?%elem_of_nil & _). }
  assert (claims (sfold f l tt) (fun p o => exists a, a ∈ l /\ c a p o)) as Hl.
  { apply IH. intros b Hb. apply Hf. by right. }
  intros s s' Hs ([] & s1 & H1 & H2)%st_bind_Ok.
  assert (claims (_ ← f tt a; sfold f l tt) (fun p o => exists b, b ∈ a :: l /\ c b p o)) as Hboth.
  { eapply claims_bind; [apply Hf; left|exact Hl|].
    intros p o (b & [->|Hb]%elem_of_cons & Hc); [by left|right; eauto]. }
  apply (Hboth s s' Hs). unfold mbind, st_bind. by rewrite H1.
Qed.

Lemma claims_lift {A} (o : outcome A) f (c : Z -> string -> Prop) :
  (forall a, o = Ok a -> claims (f a) c) -> claims (a ← st_lift o; f a) c.
Proof. intros Hf s s' Hs (a & s1 & [-> ->]%st_lift_Ok & Hrun)%st_bind_Ok. by eapply Hf. Qed.

Lemma claims_skip {A} (o : outcome A) f (c : A -> Z -> string -> Prop) :
  (forall a, o = Ok a -> claims (f a) (c a)) ->
  claims (st_skip o tt f) (fun p ow => exists a, o = Ok a /\ c a p ow).
Proof.
  intros Hf. destruct o as [a|e| |]; simpl.
  - eapply claims_weaken; [by apply Hf|]. by intros p o (b & [= <-] & ?).
  - eapply claims_weaken; [apply claims_ret|]. by intros p o (b & ? & _).
  - by intros s s' Hs.
  - by intros s s' Hs.
Qed.

Lemma claims_if (b : bool) m (c : Z -> string -> Prop) :
  (b = false -> claims m c) -> claims (if b then mret tt else m) (fun p o => b = false /\ c p o).
Proof.
  destruct b; intros Hm.
  - eapply claims_weaken; [apply claims_ret|]. by intros p o [? _].
  - eapply claims_weaken; [by apply Hm|]. by intros p o [_ ?].
Qed.

(** A manifest of an entry, if it is restorable. *)
Definition of_entry {M} (load : string -> outcome M) (restorable : M -> bool)
    (c : M -> Z -> string -> Prop) (entry : outcome string) (p : Z) (o : string) : Prop :=
  exists d, entry = Ok d /\ negb (exists_ (path_join d "manifest.json")) = false /\
  exists m, load (path_join d "manifest.json") = Ok m /\ negb (restorable m) = false /\ c m p o.

Lemma claims_entry {M} (load : string -> outcome M) restorable f (c : M -> Z -> string -> Prop) entry :
  (forall d m, entry = Ok d -> exists_ (path_join d "manifest.json") = true ->
     load (path_join d "manifest.json") = Ok m -> restorable m = true -> claims (f m) (c m)) ->
  claims (d ← st_lift entry;
          if negb (exists_ (path_join d "manifest.json")) then mret tt else
          st_skip (load (path_join d "manifest.json")) tt (fun m =>
          if negb (restorable m) then mret tt else f m)) (of_entry load restorable c entry).
Proof.
  intros Hf. apply claims_lift. intros d ->.
  eapply claims_weaken.
  - apply claims_if. intros Hex%negb_false_iff. apply claims_skip. intros m Hm.
    apply claims_if. intros Hr%negb_false_iff. by eapply Hf.
  - intros p o (d' & [= <-] & He & m & Hm & Hr & Hc). split; [done|]. exists m. by split_and!.
Qed.

Lemma claims_dir {M} (load : string -> outcome M) restorable (c : M -> Z -> string -> Prop) dir d f :
  dir = Ok d ->
  (forall entries entry, exists_ d = true -> read_dir d = Ok entries -> entry ∈ entries ->
     claims (f tt entry) (of_entry load restorable c entry)) ->
  claims (sync_dir d f) (fun p o => exists m, on_disk load restorable dir m /\ c m p o).
Proof.
  intros -> Hf. unfold sync_dir. destruct (exists_ d) eqn:Hd.
  - apply claims_lift. intros entries Hentries. eapply claims_weaken.
    + apply (claims_fold f (of_entry load restorable c)). eauto.
    + intros p o (m & (d' & entries' & entry & [= <-] & _ & Hent & Hin & Hex & Hm & Hr) & Hc).
      rewrite Hentries in Hent. injection Hent as <-. exists (Ok entry). split; [done|].
      exists entry. split_and!; [done|by rewrite Hex|]. exists m. by rewrite Hr.
  - eapply claims_weaken; [apply claims_ret|].
    intros p o (m & (d' & ? & ? & [= <-] & Hd' & _) & _). by rewrite Hd in Hd'.
Qed.
Lemma claims_service run_id entry (c : Z -> string -> Prop) :
  (forall p o, c p o -> claimed p o) ->
  (forall p o, c p o <->
     (pv_port entry.2 = Some p /\ o = port_owner run_id entry.1 \/
      backend_port entry.2 = Some p /\ o = capture_backend_port_owner run_id entry.1)) ->
  claims (sync_service run_id tt entry) c.
Proof.
  destruct entry as [service record]. simpl. intros Hc Hiff.
  eapply claims_bind; [apply claims_reserve|apply claims_reserve|]; [..|by intros p o ?%Hiff];
    intros p Hp; apply Hc, Hiff; auto.
Qed.

Lemma claims_runs d :
  runs_dir base_dir = Ok d -> claims (sync_dir d sync_run_entry)
    (fun p o => exists m, on_disk load_run (run_manifest_is_restorable exists_) (runs_dir base_dir) m /\
       run_claims m p o).
Proof.
  intros Hd. apply claims_dir; [done|]. intros entries entry Hex Hread Hin.
  apply claims_entry. intros path m -> He Hm Hr.
  assert (on_disk load_run (run_manifest_is_restorable exists_) (runs_dir base_dir) m) as Hdisk
    by (exists d, entries, path; by split_and!).
  eapply claims_weaken.
  - apply (claims_fold (sync_service (pr_run_id m)) (fun e p o =>
      e ∈ pr_services m /\
      (pv_port e.2 = Some p /\ o = port_owner (pr_run_id m) e.1 \/
       backend_port e.2 = Some p /\ o = capture_backend_port_owner (pr_run_id m) e.1))).
    intros e Hin'. apply claims_service; [|by intuition].
    intros p o [_ Hcl]. left. exists m. split; [done|]. destruct e as [service record]. by exists service, record.
  - intros p o (service & record & Hs & Hcl). by exists (service, record).
Qed.

Lemma claims_globals d :
  globals_root base_dir = Ok d -> claims (sync_dir d sync_global_entry)
    (fun p o => exists m, on_disk load_global (global_manifest_is_restorable exists_)
       (globals_root base_dir) m /\ global_claims m p o).
Proof.
  intros Hd. apply claims_dir; [done|]. intros entries entry Hex Hread Hin.
  apply claims_entry. intros path m -> He Hm Hr. eapply claims_weaken.
  - apply claims_reserve. intros p Hp. right. exists m. split; [|by split].
    exists d, entries, path. by split_and!.
  - by intros p o [? ?].
Qed.

(** The ports of what a daemon restores are its own. When the reservations are
    brought in line with the manifests on disk, every port that a run or a global
    which can be restored has, and every port behind a capture proxy, is reserved
    to its owner in the name of this daemon, whatever stale entries of a dead
    daemon there were, and no reservation of this daemon is lost. *)
Theorem sync_reserves_restorable (file file' : string) (n n' : nat) (r : PortReservationRegistry) :
  holds file r -> ours_or_stale kernel pid ours r ->
  sync_port_reservations_from_disk (file, n) = (Ok tt, (file', n')) ->
  exists r', holds file' r' /\ (forall p o, claimed p o -> held_us pid r' p o) /\
    (forall p o, held_us pid r p o -> held_us pid r' p o).
Proof.
  intros Hh Ho Hrun.
  assert (claims sync_port_reservations_from_disk claimed) as Hsync.
  { apply claims_lift. intros d1 Hd1. eapply claims_bind; [by apply claims_runs| |].
    - apply claims_lift. intros d2 Hd2. by apply claims_globals.
    - by intros p o [?|?]; [left|right]. }
  destruct (Hsync (file, n) (file', n')) as ((r' & Hh' & _) & Hclaims & Hkept);
    [by exists r|done|]. exists r'. split_and!; [done| |].
  - intros p o Hc. by apply (Hclaims p o Hc).
  - intros p o Hheld. apply (Hkept p o); [|done]. intros r2 Hr2. by rewrite (holds_fun _ _ _ Hr2 Hh).
Qed.
End sync.

(** ** A concrete start *)

#[local] Existing Instance sample_codec.

(** One run on disk, whose ports a dead daemon had. *)
Definition stale_registry : PortReservationRegistry :=
  [(40000%Z, mkEntry (port_owner "dev-1" "web") 7)].

Definition started_manifest : PersistedRun :=
  mkPersistedRun "dev-1" "/p" "/p" "/d/manifest.json" "dev"
    [("web", mkPersistedService (Some 40000%Z) None (Some 40001%Z) true 1024 [] Ready None None None
        false)] [] RunRunning "t0" None.

Definition start_dir (dir : string) : outcome (list (outcome string)) :=
  if bool_decide (dir = "/data/runs") then Ok [Ok "/data/runs/dev-1"] else Ok [].

Definition start_load (_ : string) : outcome PersistedRun := Ok started_manifest.
Definition start_no_global (_ : string) : outcome PersistedGlobal := Err "no such file".

Lemma started_claims port owner :
  claimed (fun _ => true) (Ok "/data") start_dir start_load start_no_global port owner <->
  (port = 40000%Z /\ owner = "run:dev-1:web" \/
   port = 40001%Z /\ owner = "run:dev-1:web:api-capture-backend").
Proof.
  split.
  - intros [(m & (d & es & e & _ & _ & _ & _ & _ & [= <-] & _) & Hc)|
            (m & (d & es & e & _ & _ & _ & _ & _ & Hm & _) & _)]; [|done].
    destruct Hc as (service & record & [[= -> ->]|?%elem_of_nil]%elem_of_cons & Hp); [|done].
    destruct Hp as [[[= <-] ->]|[[= <-] ->]]; auto.
  - intros Hp. left. exists started_manifest. split.
    + exists "/data/runs", [Ok "/data/runs/dev-1"], "/data/runs/dev-1".
      split_and!; try reflexivity. left.
    + eexists "web", _. split; [left|]. destruct Hp as [[-> ->]|[-> ->]]; auto.
Qed.

Lemma sync_reserves_restorable_witness :
  exists file' n' r',
    sync_port_reservations_from_disk sample_kernels (fun _ => 5) (fun _ => true) (Ok "/data") start_dir
      start_load start_no_global (to_json stale_registry, 0) = (Ok tt, (file', n')) /\
    holds file' r' /\ held_us 42 r' 40000 "run:dev-1:web" /\
    held_us 42 r' 40001 "run:dev-1:web:api-capture-backend".
Proof.
  eexists _, _.
  destruct (sync_reserves_restorable sample_kernels (fun _ => 5) (fun _ => true) (Ok "/data") start_dir
    start_load start_no_global 42 sample_kernels_ok) with (file := to_json stale_registry)
    (n := 0) (r := stale_registry) (file' := (sync_port_reservations_from_disk sample_kernels
      (fun _ => 5) (fun _ => true) (Ok "/data") start_dir start_load start_no_global
      (to_json stale_registry, 0)).2.1) (n' := 2) as (r' & Hh & Hc & _).
  - intros p o [[-> ->]|[-> ->]]%started_claims; (split; [by vm_compute|split; by vm_compute]).
  - apply holds_json. split; [repeat constructor|]. intros port e. simpl.
    destruct (keqb port 40000%Z) eqn:E; [|done]. apply keqb_true in E as ->. intros [= <-].
    split_and!; by vm_compute.
  - intros p e. simpl. destruct (keqb p 40000%Z); [|done]. intros [= <-] _. right.
    intros n. by vm_compute.
  - by vm_compute.
  - exists r'. split_and!; [vm_compute; reflexivity|exact Hh|..];
      apply Hc, started_claims; auto.
Defined.
