(* ===== verification/Simulation.v ===== *)
(** * Refinement

    A component and its specification as labelled transition systems, and the
    forward simulation that makes every history of the one a history of the other. *)

From S2P Require Import Prelude.

Section histories.
Context {S L : Type} (step : S -> L -> S -> Prop).

(** The states reached by a sequence of labels. *)
Inductive history : S -> list L -> S -> Prop :=
  | history_nil s : history s [] s
  | history_cons s l s1 ls s' : step s l s1 -> history s1 ls s' -> history s (l :: ls) s'.

Lemma history_app s ls1 s1 ls2 s2 :
  history s ls1 s1 -> history s1 ls2 s2 -> history s (ls1 ++ ls2) s2.
Proof. induction 1; [done|]. intros H2. econstructor; eauto. Qed.

Lemma history_preserves (P : S -> Prop) s ls s' :
  (forall s l s', P s -> step s l s' -> P s') -> history s ls s' -> P s -> P s'.
Proof. intros Hstep. induction 1; eauto. Qed.
End histories.

Section simulation.
Context {C A L : Type} (cstep : C -> L -> C -> Prop) (astep : A -> L -> A -> Prop).
Context (R : C -> A -> Prop).

(** A step of the component is a step of the specification with the same label. *)
Definition simulates : Prop :=
  forall c a l c', R c a -> cstep c l c' -> exists a', astep a l a' /\ R c' a'.

Lemma simulates_history c a ls c' :
  simulates -> R c a -> history cstep c ls c' -> exists a', history astep a ls a' /\ R c' a'.
Proof.
  intros Hsim HR Hh. revert a HR. induction Hh as [c|c l c1 ls c' Hs Hh IH]; intros a HR.
  { exists a. split; [constructor|done]. }
  destruct (Hsim c a l c1 HR Hs) as (a1 & Ha & HR1). destruct (IH a1 HR1) as (a' & Ha' & HR').
  exists a'. split; [by econstructor|done].
Qed.
End simulation.
