(* ===== verification/Systemd.v ===== *)
(** * The local service manager

    Models [LocalSystemd] of [src/systemd.rs], which runs the units of the daemon as
    child processes where systemd is not used, and the data every manager gets.

    Each section that holds the lock on the units is one step; the operations are
    sequences of them ([start]: [take_unit], [stop_and_reap], [put_unit]), with
    anything in between.  The daemon may stop at any time; the next one loads the
    registry.  Processes are the kernel's: a child, which leads a group of its
    own, runs until it exits, and its group may outlive it.  Process ids are not
    used twice, and writing the registry works. *)

From S2P Require Import Prelude Bytes BMap Simulation.
From Stdlib Require Import Lia ZArith.
From stdpp Require Import gmap fin_maps.

(** ** Units *)

Record ExecStart := mkExecStart {
  ex_path : string;
  ex_argv : list string;
  ex_ignore_failure : bool;
}.

Record UnitProperties := mkUnitProperties {
  up_description : string;
  up_working_directory : string;
  up_environment : list string;
  up_exec_start : ExecStart;
  up_kill_mode : string;
  up_kill_signal : Z;
  up_timeout_stop_usec : Z;
  up_send_sigkill : bool;
  up_restart : string;
  up_restart_usec : Z;
  up_start_limit_interval_usec : Z;
  up_start_limit_burst : Z;
  up_remain_after_exit : bool;
}.

Definition UnitProperties_new (description working_directory : string) (environment : list string)
    (exec_start : ExecStart) : UnitProperties :=
  mkUnitProperties description working_directory environment exec_start "control-group" 2 2000000
    true "on-failure" 250000 30000000 20 false.

Definition with_restart (p : UnitProperties) (restart : string) : UnitProperties :=
  mkUnitProperties (up_description p) (up_working_directory p) (up_environment p) (up_exec_start p)
    (up_kill_mode p) (up_kill_signal p) (up_timeout_stop_usec p) (up_send_sigkill p) restart
    (up_restart_usec p) (up_start_limit_interval_usec p) (up_start_limit_burst p)
    (up_remain_after_exit p).

Definition with_remain_after_exit (p : UnitProperties) (remain_after_exit : bool) : UnitProperties :=
  mkUnitProperties (up_description p) (up_working_directory p) (up_environment p) (up_exec_start p)
    (up_kill_mode p) (up_kill_signal p) (up_timeout_stop_usec p) (up_send_sigkill p) (up_restart p)
    (up_restart_usec p) (up_start_limit_interval_usec p) (up_start_limit_burst p)
    remain_after_exit.

Record UnitStatus := mkUnitStatus {
  us_active_state : string;
  us_sub_state : string;
  us_result : option string;
}.

Record LocalExitStatus := mkLocalExitStatus { le_success : bool; le_code : option Z }.

Definition exit_result (s : LocalExitStatus) : string :=
  if le_success s then "success" else "exit-code".

Record LocalUnit := mkLocalUnit {
  lu_props : UnitProperties;
  lu_child : option nat;              (** the handle of the child *)
  lu_pgid : option nat;
  lu_last_status : option LocalExitStatus;
}.

Record PersistedLocalUnit := mkPersistedLocalUnit {
  pu_props : UnitProperties;
  pu_pgid : option nat;
  pu_last_status : option LocalExitStatus;
}.

Abbreviation Units := (gmap string LocalUnit).

(** The JSON of the registry file. *)
Class RegistryFile := {
  units_to_json : gmap string PersistedLocalUnit -> string;
  units_of_json : string -> option (gmap string PersistedLocalUnit);
  units_roundtrip : forall m, units_of_json (units_to_json m) = Some m;
}.

(** ** Processes *)

Record Os := mkOs {
  os_next : nat;                         (** the id of the next process *)
  os_exits : gmap nat LocalExitStatus;   (** the children that ended *)
  os_groups : gset nat;                  (** the groups that have a process *)
}.

Definition process_group_exists (os : Os) (pgid : nat) : bool := bool_decide (pgid ∈ os_groups os).

(** [unit.pgid.is_some_and(process_group_exists)] *)
Definition group_exists (os : Os) (pgid : option nat) : bool :=
  match pgid with Some pgid => process_group_exists os pgid | None => false end.

Definition spawn (os : Os) : nat * Os :=
  (os_next os, mkOs (S (os_next os)) (os_exits os) ({[os_next os]} ∪ os_groups os)).

(** What the child runs: the program, its arguments without a leading copy of the
    program, its directory, and the settings of its environment. *)
Definition split_once_eq (item : string) : option (string * string) :=
  let s := to_bytes item in
  i ← find_byte (fun c => Ascii.eqb c "=") s;
  Some (of_bytes (take i s), of_bytes (drop (S i) s)).

Definition spawn_child (props : UnitProperties) : string * list string * string * list (string * string) :=
  let exec := up_exec_start props in
  let args := match ex_argv exec with
              | arg :: rest => if bool_decide (arg = ex_path exec) then rest else arg :: rest
              | [] => []
              end in
  (ex_path exec, args, up_working_directory props,
   omap split_once_eq (up_environment props)).

(** ** The registry *)

Section manager.
Context `{RegistryFile}.
(** The error of [try_wait] for a child, if it fails. *)
Context (wait_error : Os -> nat -> option string).

Record Manager := mkManager {
  mg_units : Units;
  mg_file : option string;   (** the registry file *)
}.

Definition persisted (u : LocalUnit) : PersistedLocalUnit :=
  mkPersistedLocalUnit (lu_props u) (lu_pgid u) (lu_last_status u).

Definition persist_units_sync (units : Units) : option string :=
  if bool_decide (units = ∅) then None else Some (units_to_json (persisted <$> units)).

(** The units change and are persisted. *)
Definition persist_units (units : Units) : Manager := mkManager units (persist_units_sync units).

Definition load_units (file : option string) : Units :=
  match file with
  | None => ∅
  | Some raw =>
      match units_of_json raw with
      | None => ∅
      | Some m =>
          (fun u => mkLocalUnit (pu_props u) None (pu_pgid u) (pu_last_status u)) <$> m
      end
  end.

Definition should_keep_loaded_unit (os : Os) (u : LocalUnit) : bool :=
  (up_remain_after_exit (lu_props u) && bool_decide (is_Some (lu_last_status u)))
  || group_exists os (lu_pgid u).

(** A new daemon. *)
Definition with_registry_path (os : Os) (file : option string) : Manager :=
  persist_units (filter (fun nu => should_keep_loaded_unit os nu.2 = true) (load_units file)).

(** [child.try_wait()] *)
Definition try_wait (os : Os) (child : nat) : outcome (option LocalExitStatus) :=
  match wait_error os child with
  | Some e => Err e
  | None => Ok (os_exits os !! child)
  end.

(** ** The reaper *)

(** One unit: what becomes of it, whether it changed, and whether it is removed. *)
Definition reap_unit (os : Os) (u : LocalUnit) : LocalUnit * bool * bool :=
  match lu_child u with
  | Some child =>
      match try_wait os child with
      | Ok (Some status) =>
          (mkLocalUnit (lu_props u) None (lu_pgid u) (Some status), true,
           negb (up_remain_after_exit (lu_props u)))
      | Ok None => (u, false, false)
      | _ => (u, false, true)
      end
  | None =>
      if up_remain_after_exit (lu_props u) && bool_decide (is_Some (lu_last_status u))
      then (u, false, false)
      else if group_exists os (lu_pgid u) then (u, false, false)
      else (u, false, true)
  end.

Definition reaper_tick (os : Os) (m : Manager) : Manager :=
  let scanned := reap_unit os <$> mg_units m in
  let units := omap (fun '(u, _, remove) => if remove : bool then None else Some u) scanned in
  if bool_decide (map_Forall (fun _ '(_, changed, remove) => changed = false /\ remove = false) scanned)
  then mkManager units (mg_file m) else persist_units units.

(** ** The sections of the operations *)

(** The first section of [start_transient_service], [stop_unit], [restart_unit] and
    [kill_unit]. *)
Definition take_unit (unit_name : string) (m : Manager) : option LocalUnit * Manager :=
  (mg_units m !! unit_name, persist_units (delete unit_name (mg_units m))).

(** The last section of [start_transient_service] and [restart_unit]. *)
Definition put_unit (unit_name : string) (props : UnitProperties) (pid : nat) (m : Manager) : Manager :=
  persist_units (<[unit_name := mkLocalUnit props (Some pid) (Some pid) None]> (mg_units m)).

Definition running : UnitStatus := mkUnitStatus "active" "running" None.

Definition unit_status (os : Os) (unit_name : string) (m : Manager)
    : outcome (option UnitStatus) * Manager :=
  match mg_units m !! unit_name with
  | None => (Ok None, m)
  | Some u =>
      let remain := up_remain_after_exit (lu_props u) in
      let rest :=
        if remain && bool_decide (is_Some (lu_last_status u))
        then (Ok (Some (mkUnitStatus "active" "exited" (exit_result <$> lu_last_status u))), m)
        else if group_exists os (lu_pgid u) then (Ok (Some running), m)
        else (Ok (Some (mkUnitStatus "inactive" "exited" (exit_result <$> lu_last_status u))),
              persist_units (delete unit_name (mg_units m))) in
      match lu_child u with
      | Some child =>
          match try_wait os child with
          | Ok (Some status) =>
              let u := mkLocalUnit (lu_props u) None (lu_pgid u) (Some status) in
              (Ok (Some (mkUnitStatus (if remain then "active" else "inactive") "exited"
                           (Some (exit_result status)))),
               persist_units (<[unit_name := u]> (mg_units m)))
          | Ok None => (Ok (Some running), m)
          | Err e => (Err e, m)
          | Panic => (Panic, m)
          | OutOfFuel => (OutOfFuel, m)
          end
      | None => rest
      end
  end.
End manager.

(** ** Stopping a process *)

(** The end of [timeout(child.wait())]: the time ran out, or the wait ended. *)
Definition Wait : Type := option (outcome LocalExitStatus).

Definition SIGTERM : Z := 15.
Definition SIGKILL : Z := 9.

(** To a group or to a process. *)
Inductive Signal : Type := ToGroup (pgid : nat) (signal : Z) | ToProcess (pid : nat) (signal : Z).

Definition signal_unit (u : LocalUnit) (signal : Z) : list Signal :=
  match lu_pgid u with
  | Some pgid => [ToGroup pgid signal]
  | None => match lu_child u with Some pid => [ToProcess pid signal] | None => [] end
  end.

Definition set_last_status (u : LocalUnit) (s : LocalExitStatus) : LocalUnit :=
  mkLocalUnit (lu_props u) (lu_child u) (lu_pgid u) (Some s).

(** [stop_and_reap]: what the waits of 3 s and of 1 s end in, and whether the group is
    gone after 3 s when there is no child handle; the result, the unit and the
    signals it sends, in order. *)
Definition stop_and_reap (u : LocalUnit) (signal : Z) (wait3 wait1 : Wait) (gone3 : bool)
    : outcome unit * LocalUnit * list Signal :=
  let first := signal_unit u signal in
  match lu_child u with
  | Some _ =>
      match wait3 with
      | Some (Ok status) => (Ok tt, set_last_status u status, first)
      | Some (Err e) => (with_context "wait for local service" (Err e), u, first)
      | Some Panic => (Panic, u, first)
      | Some OutOfFuel => (OutOfFuel, u, first)
      | None =>
          let second := match lu_pgid u with
                        | Some pgid => [ToGroup pgid SIGKILL]
                        | None => []
                        end in
          (Ok tt, match wait1 with Some (Ok status) => set_last_status u status | _ => u end,
           first ++ second)
      end
  | None =>
      match lu_pgid u with
      | None => (Ok tt, u, first)
      | Some pgid =>
          if gone3 then (Ok tt, u, first)
          else (Ok tt, u, first ++ signal_unit u SIGKILL)
      end
  end.

(** What a wait ended in holds of the child: its status is the one it ended with. *)
Definition wait_ok (os : Os) (u : LocalUnit) (w : Wait) : Prop :=
  match w, lu_child u with
  | Some (Ok status), Some pid => os_exits os !! pid = Some status
  | _, _ => True
  end.

(** ** The operations *)

Inductive Op : Type :=
  | OpStart (unit_name : string) (props : UnitProperties)
  | OpStop (unit_name : string)
  | OpRestart (unit_name : string)
  | OpKill (unit_name : string) (signal : Z).

Definition op_unit (op : Op) : string :=
  match op with OpStart n _ | OpStop n | OpRestart n | OpKill n _ => n end.

(** An operation between two of its sections: it stops the process of the unit it
    took, with what it starts then; it spawns; it inserts the unit. *)
Inductive Task : Type :=
  | Stopping (unit_name : string) (u : LocalUnit) (signal : Z) (then_start : option UnitProperties)
  | Spawning (unit_name : string) (props : UnitProperties)
  | Inserting (unit_name : string) (props : UnitProperties) (pid : nat).

(** How an operation goes on after it took what the manager had of the unit. *)
Definition after_take (op : Op) (existing : option LocalUnit) : option Task :=
  match op, existing with
  | OpStart n props, Some u => Some (Stopping n u SIGTERM (Some props))
  | OpStart n props, None => Some (Spawning n props)
  | OpStop n, Some u => Some (Stopping n u SIGTERM None)
  | OpRestart n, Some u => Some (Stopping n u SIGTERM (Some (lu_props u)))
  | OpKill n signal, Some u => Some (Stopping n u signal None)
  | (OpStop _ | OpRestart _ | OpKill _ _), None => None
  end.

Definition after_stop (unit_name : string) (then_start : option UnitProperties)
    (result : outcome unit) : option Task :=
  match result, then_start with
  | Ok _, Some props => Some (Spawning unit_name props)
  | _, _ => None
  end.

(** ** The manager and its surroundings *)

Section system.
Context `{RegistryFile}.
Context (wait_error : Os -> nat -> option string).

Record System := mkSystem {
  sy_manager : Manager;
  sy_os : Os;
  sy_tasks : list Task;   (** the operations under way *)
}.

(** What is seen of a step. *)
Inductive Label : Type :=
  | LTake (unit_name : string)
  | LStopped
  | LSpawn (unit_name : string)
  | LInsert (unit_name : string)
  | LStatus (unit_name : string) (answer : outcome (option UnitStatus))
  | LTick
  | LRestart
  | LExit (pid : nat) (status : LocalExitStatus)
  | LGroupEnd (pgid : nat).

Definition os_exit (os : Os) (pid : nat) (status : LocalExitStatus) : Os :=
  mkOs (os_next os) (<[pid := status]> (os_exits os)) (os_groups os).

Definition os_group_end (os : Os) (pgid : nat) : Os :=
  mkOs (os_next os) (os_exits os) (os_groups os ∖ {[pgid]}).

Inductive step : System -> Label -> System -> Prop :=
  | step_take (m : Manager) os ts op existing m' :
      take_unit (op_unit op) m = (existing, m') ->
      step (mkSystem m os ts) (LTake (op_unit op))
        (mkSystem m' os (ts ++ option_list (after_take op existing)))
  | step_stopped m os ts1 ts2 n u signal then_start wait3 wait1 gone3 :
      wait_ok os u wait3 -> wait_ok os u wait1 ->
      step (mkSystem m os (ts1 ++ Stopping n u signal then_start :: ts2)) LStopped
        (mkSystem m os (ts1 ++ option_list (after_stop n then_start
           (stop_and_reap u signal wait3 wait1 gone3).1.1) ++ ts2))
  | step_spawn m os ts1 ts2 n props pid os' :
      spawn os = (pid, os') ->
      step (mkSystem m os (ts1 ++ Spawning n props :: ts2)) (LSpawn n)
        (mkSystem m os' (ts1 ++ Inserting n props pid :: ts2))
  | step_spawn_fails m os ts1 ts2 n props :
      step (mkSystem m os (ts1 ++ Spawning n props :: ts2)) (LSpawn n)
        (mkSystem m os (ts1 ++ ts2))
  | step_insert m os ts1 ts2 n props pid :
      step (mkSystem m os (ts1 ++ Inserting n props pid :: ts2)) (LInsert n)
        (mkSystem (put_unit n props pid m) os (ts1 ++ ts2))
  | step_status m os ts n answer m' :
      unit_status wait_error os n m = (answer, m') ->
      step (mkSystem m os ts) (LStatus n answer) (mkSystem m' os ts)
  | step_tick m os ts :
      step (mkSystem m os ts) LTick (mkSystem (reaper_tick wait_error os m) os ts)
  | step_restart m os ts :
      step (mkSystem m os ts) LRestart (mkSystem (with_registry_path os (mg_file m)) os [])
  | step_exit m os ts pid status :
      (pid < os_next os)%nat -> os_exits os !! pid = None ->
      step (mkSystem m os ts) (LExit pid status) (mkSystem m (os_exit os pid status) ts)
  | step_group_end m os ts pgid :
      is_Some (os_exits os !! pgid) ->
      step (mkSystem m os ts) (LGroupEnd pgid) (mkSystem m (os_group_end os pgid) ts).
End system.

(** ** What a manager promises *)

(** A unit that was started and not stopped since: its main process, and whether
    this daemon started it. *)
Record SpecUnit := mkSpecUnit { su_remain : bool; su_pid : nat; su_watched : bool }.

Record Spec := mkSpec {
  sp_units : gmap string SpecUnit;
  sp_os : Os;
  sp_spawned : list (string * bool * nat);   (** started, not yet in the map *)
}.

Definition ended (os : Os) (u : SpecUnit) : Prop := is_Some (os_exits os !! su_pid u).

(** A unit that is never forgotten while the daemon runs. *)
Definition lasting (u : SpecUnit) : bool := su_watched u && su_remain u.

(** The answers about a unit: while its main process runs, that it runs; then how it
    ended, as long as it is known and, unless it is lasting, as long as nothing of
    its group runs. *)
Definition answers (os : Os) (u : option SpecUnit) (a : option UnitStatus) : Prop :=
  match u with
  | None => a = None
  | Some u =>
      match os_exits os !! su_pid u with
      | None => a = Some running
      | Some e =>
          (a = Some running /\ lasting u = false /\ process_group_exists os (su_pid u) = true) \/
          exists (active : bool) (result : option string),
            a = Some (mkUnitStatus (if active then "active" else "inactive") "exited" result) /\
            (active = true -> su_remain u = true) /\ (su_watched u = true -> active = su_remain u) /\
            (result = Some (exit_result e) \/ result = None /\ su_watched u = false)
      end
  end.

(** Some units are forgotten, all of them such that [P]. *)
Definition forgets (P : SpecUnit -> Prop) (units units' : gmap string SpecUnit) : Prop :=
  forall n, units' !! n = units !! n \/
            units' !! n = None /\ exists u, units !! n = Some u /\ P u.

Definition unwatched (u : SpecUnit) : SpecUnit := mkSpecUnit (su_remain u) (su_pid u) false.

Inductive spec_step : Spec -> Label -> Spec -> Prop :=
  | spec_take units os l n :
      spec_step (mkSpec units os l) (LTake n) (mkSpec (delete n units) os l)
  | spec_stopped a : spec_step a LStopped a
  | spec_spawn units os l1 l2 n remain :
      spec_step (mkSpec units os (l1 ++ l2)) (LSpawn n)
        (mkSpec units (spawn os).2 (l1 ++ (n, remain, (spawn os).1) :: l2))
  | spec_spawn_fails a n : spec_step a (LSpawn n) a
  | spec_insert units os l1 l2 n remain pid :
      spec_step (mkSpec units os (l1 ++ (n, remain, pid) :: l2)) (LInsert n)
        (mkSpec (<[n := mkSpecUnit remain pid true]> units) os (l1 ++ l2))
  | spec_status units os l n a units' :
      answers os (units !! n) a ->
      forgets (fun u => ended os u /\ lasting u = false) units units' ->
      (forall j, j <> n -> units' !! j = units !! j) ->
      spec_step (mkSpec units os l) (LStatus n (Ok a)) (mkSpec units' os l)
  | spec_tick units os l units' :
      forgets (fun u => ended os u /\ lasting u = false) units units' ->
      spec_step (mkSpec units os l) LTick (mkSpec units' os l)
  | spec_restart units os l units' :
      forgets (ended os) units units' ->
      spec_step (mkSpec units os l) LRestart (mkSpec (unwatched <$> units') os [])
  | spec_exit units os l pid status :
      os_exits os !! pid = None ->
      spec_step (mkSpec units os l) (LExit pid status) (mkSpec units (os_exit os pid status) l)
  | spec_group_end units os l pgid :
      is_Some (os_exits os !! pgid) ->
      spec_step (mkSpec units os l) (LGroupEnd pgid) (mkSpec units (os_group_end os pgid) l).

(** ** The refinement *)

(** What happens to processes keeps what is known of them. *)
Record os_le (os os' : Os) : Prop := {
  le_next : (os_next os <= os_next os')%nat;
  le_exits : os_exits os ⊆ os_exits os';
  le_groups : forall p, (p < os_next os)%nat -> p ∈ os_groups os -> os_exits os' !! p = None ->
    p ∈ os_groups os';
}.

#[export] Instance os_le_refl : Reflexive os_le.
Proof. intros os. split; auto. Qed.

Lemma os_le_spawn os : os_le os (spawn os).2.
Proof. split; simpl; [lia|done|]. intros p _ Hp _. set_solver. Qed.

Lemma os_le_exit os pid status : os_exits os !! pid = None -> os_le os (os_exit os pid status).
Proof. intros Hn. split; simpl; [lia|by apply insert_subseteq|done]. Qed.

Lemma os_le_group_end os pgid :
  is_Some (os_exits os !! pgid) -> os_le os (os_group_end os pgid).
Proof.
  intros [e He]. split; simpl; [lia|done|]. intros p _ Hp Hn.
  apply elem_of_difference. split; [done|]. intros ->%elem_of_singleton. congruence.
Qed.

(** A process was started, and has a group as long as it runs. *)
Definition alive (os : Os) (pid : nat) : Prop :=
  (pid < os_next os)%nat /\ (os_exits os !! pid = None -> pid ∈ os_groups os).

Lemma alive_mono os os' pid : os_le os os' -> alive os pid -> alive os' pid.
Proof.
  intros Hle [Hlt Hg]. split; [pose proof (le_next _ _ Hle); lia|]. intros Hn.
  apply (le_groups _ _ Hle); [done| |done]. apply Hg.
  by apply (lookup_weaken_None _ _ _ Hn), (le_exits _ _ Hle).
Qed.

Lemma alive_spawn os : alive (spawn os).2 (spawn os).1.
Proof. split; simpl; [lia|set_solver]. Qed.

(** A unit of the manager and what is promised of it. *)
Record unit_rel (os : Os) (u : LocalUnit) (su : SpecUnit) : Prop := {
  ur_pgid : lu_pgid u = Some (su_pid su);
  ur_remain : up_remain_after_exit (lu_props u) = su_remain su;
  ur_child : forall pid, lu_child u = Some pid -> pid = su_pid su;
  ur_status : forall e, lu_last_status u = Some e -> os_exits os !! su_pid su = Some e;
  ur_watched : su_watched su = true -> lu_child u = None -> is_Some (lu_last_status u);
  ur_alive : alive os (su_pid su);
}.

Lemma unit_rel_mono os os' u su : os_le os os' -> unit_rel os u su -> unit_rel os' u su.
Proof.
  intros Hle []. split; auto; [|by eapply alive_mono].
  intros e He. eapply lookup_weaken; [by auto|apply Hle].
Qed.

Definition units_rel (os : Os) (units : Units) (specs : gmap string SpecUnit) : Prop :=
  forall n, option_Forall2 (unit_rel os) (units !! n) (specs !! n).

Lemma units_rel_mono os os' units specs :
  os_le os os' -> units_rel os units specs -> units_rel os' units specs.
Proof. intros Hle Hrel n. destruct (Hrel n); constructor. by eapply unit_rel_mono. Qed.

Lemma units_rel_insert os units specs n u su :
  units_rel os units specs -> unit_rel os u su -> units_rel os (<[n := u]> units) (<[n := su]> specs).
Proof.
  intros Hrel Hu j. destruct (decide (j = n)) as [->|].
  - rewrite !lookup_insert_eq. by constructor.
  - rewrite !lookup_insert_ne by done. apply Hrel.
Qed.

Lemma units_rel_delete os units specs n :
  units_rel os units specs -> units_rel os (delete n units) (delete n specs).
Proof.
  intros Hrel j. destruct (decide (j = n)) as [->|].
  - rewrite !lookup_delete_eq. constructor.
  - rewrite !lookup_delete_ne by done. apply Hrel.
Qed.

(** Units that are kept or removed one by one, [g] telling which and as what: the
    specification forgets the removed ones. *)
Lemma units_rel_omap os units specs (g : LocalUnit -> option LocalUnit) P :
  units_rel os units specs ->
  (forall u su, unit_rel os u su ->
     match g u with Some u' => unit_rel os u' su | None => P su end) ->
  exists specs', forgets P specs specs' /\ units_rel os (omap g units) specs'.
Proof.
  intros Hrel Hg.
  exists (map_imap (fun n su => u ← units !! n; _ ← g u; Some su) specs). split; intros n.
  - rewrite map_lookup_imap. destruct (Hrel n) as [u su Hu|]; [|by left].
    simpl. specialize (Hg u su Hu). destruct (g u); [by left|]. right. eauto.
  - rewrite map_lookup_imap, lookup_omap. destruct (Hrel n) as [u su Hu|]; [|constructor].
    simpl. specialize (Hg u su Hu). by destruct (g u); constructor.
Qed.

Lemma group_exists_rel os u su :
  unit_rel os u su -> group_exists os (lu_pgid u) = process_group_exists os (su_pid su).
Proof. intros []. by rewrite ur_pgid0. Qed.

(** A group that is gone had its leader. *)
Lemma group_gone_ended os u su :
  unit_rel os u su -> group_exists os (lu_pgid u) = false -> ended os su.
Proof.
  intros Hu Hg. rewrite (group_exists_rel _ _ _ Hu) in Hg. apply bool_decide_eq_false in Hg.
  unfold ended. destruct (ur_alive _ _ _ Hu) as [_ Hal].
  destruct (os_exits os !! su_pid su); [done|]. destruct Hg. by apply Hal.
Qed.

Section refinement.
Context `{RegistryFile}.
Context (wait_error : Os -> nat -> option string).

Definition inserting (t : Task) : option (string * bool * nat) :=
  match t with
  | Inserting n props pid => Some (n, up_remain_after_exit props, pid)
  | _ => None
  end.

Record refines (c : System) (a : Spec) : Prop := {
  rf_units : units_rel (sy_os c) (mg_units (sy_manager c)) (sp_units a);
  rf_file : mg_file (sy_manager c) = persist_units_sync (mg_units (sy_manager c));
  rf_os : sp_os a = sy_os c;
  rf_spawned : sp_spawned a = omap inserting (sy_tasks c);
  rf_alive : Forall (fun s => alive (sy_os c) s.2) (sp_spawned a);
}.

(** A child that is waited for. *)
Lemma unit_rel_waited os u su pid e :
  unit_rel os u su -> lu_child u = Some pid -> os_exits os !! pid = Some e ->
  unit_rel os (mkLocalUnit (lu_props u) None (lu_pgid u) (Some e)) su.
Proof.
  intros [] Hc He. rewrite (ur_child0 pid Hc) in He. split; simpl; auto; [done|].
  by intros ? [= <-].
Qed.

(** Unless a child is gone or a lasting unit remembers how, only what ended is
    removed. *)
Lemma lasting_false os u su :
  unit_rel os u su -> lu_child u = None ->
  up_remain_after_exit (lu_props u) && bool_decide (is_Some (lu_last_status u)) = false ->
  lasting su = false.
Proof.
  intros [] Hc Hb. unfold lasting. destruct (su_watched su); [|done]. rewrite <- ur_remain0. simpl.
  apply andb_false_iff in Hb as [Hb|Hb]; [done|]. apply bool_decide_eq_false in Hb.
  by destruct Hb; auto.
Qed.

Section waits.
Hypothesis wait_works : forall os pid, wait_error os pid = None.

Lemma try_wait_works os pid : try_wait wait_error os pid = Ok (os_exits os !! pid).
Proof. unfold try_wait. by rewrite wait_works. Qed.

Lemma reap_unit_rel os u su :
  unit_rel os u su ->
  let '(u', _, remove) := reap_unit wait_error os u in
  if remove : bool then ended os su /\ lasting su = false else unit_rel os u' su.
Proof.
  intros Hu. unfold reap_unit. destruct (lu_child u) as [pid|] eqn:Hc.
  - rewrite try_wait_works. destruct (os_exits os !! pid) as [e|] eqn:He; [|done]. cbv iota beta.
    pose proof (unit_rel_waited _ _ _ _ _ Hu Hc He) as Hu'.
    destruct (up_remain_after_exit (lu_props u)) eqn:Hr; simpl; [done|].
    destruct Hu. split; [rewrite (ur_child0 pid Hc) in He; by eexists|].
    unfold lasting. rewrite <- ur_remain0, Hr. apply andb_false_r.
  - destruct (_ && _) eqn:Hb; [done|]. destruct (group_exists os (lu_pgid u)) eqn:Hg; [done|].
    split; [by eapply group_gone_ended|by eapply lasting_false].
Qed.

Lemma reaper_tick_units os m :
  mg_units (reaper_tick wait_error os m) =
    omap (fun u => let '(u', _, remove) := reap_unit wait_error os u in
                   if remove : bool then None else Some u') (mg_units m).
Proof.
  unfold reaper_tick. cbv zeta. transitivity
    (omap (fun '(u, _, remove) => if remove : bool then None else Some u) (reap_unit wait_error os <$> mg_units m));
    [by destruct (bool_decide _)|].
  apply map_eq. intros n. rewrite !lookup_omap, lookup_fmap. by destruct (mg_units m !! n).
Qed.

(** A tick that writes nothing changes nothing. *)
Lemma reaper_tick_file os m :
  mg_file m = persist_units_sync (mg_units m) ->
  mg_file (reaper_tick wait_error os m) = persist_units_sync (mg_units (reaper_tick wait_error os m)).
Proof.
  intros Hf. rewrite reaper_tick_units. unfold reaper_tick. cbv zeta.
  destruct (bool_decide_reflect (map_Forall (fun _ '(_, changed, remove) => changed = false /\ remove = false)
    (reap_unit wait_error os <$> mg_units m))) as [Hall|_]; simpl.
  - rewrite Hf. f_equal. apply map_eq. intros n. rewrite lookup_omap.
    destruct (mg_units m !! n) as [u|] eqn:Hn; [|done]. simpl.
    specialize (Hall n (reap_unit wait_error os u)). rewrite lookup_fmap, Hn in Hall.
    specialize (Hall eq_refl). unfold reap_unit in *.
    repeat case_match; simplify_eq/=; naive_solver.
  - f_equal. apply map_eq. intros n. rewrite !lookup_omap, lookup_fmap. by destruct (mg_units m !! n).
Qed.

Lemma answers_running os u su :
  unit_rel os u su -> group_exists os (lu_pgid u) = true -> lasting su = false ->
  answers os (Some su) (Some running).
Proof.
  intros Hu Hg Hl. rewrite (group_exists_rel _ _ _ Hu) in Hg. unfold answers.
  destruct (os_exits os !! su_pid su); [by left|done].
Qed.

(** A unit whose process was waited for, or is found gone. *)
Lemma answers_exited os u su active :
  unit_rel os u su -> lu_child u = None -> ended os su ->
  (active = true -> up_remain_after_exit (lu_props u) = true) ->
  (su_watched su = true -> active = up_remain_after_exit (lu_props u)) ->
  answers os (Some su) (Some (mkUnitStatus (if active : bool then "active" else "inactive") "exited"
                                (exit_result <$> lu_last_status u))).
Proof.
  intros [] Hc [e He] Ha Hw. unfold answers. rewrite He, <- ur_remain0. right.
  exists active, (exit_result <$> lu_last_status u). split_and!; [done|done|done|].
  destruct (lu_last_status u) as [e'|]; [left; simpl; rewrite (ur_status0 e' eq_refl) in He; congruence|].
  right. split; [done|]. destruct (su_watched su); [|done]. by destruct ur_watched0.
Qed.

(** The answer, and what is left of the unit. *)
Lemma unit_status_rel os n m specs answer m' :
  units_rel os (mg_units m) specs ->
  unit_status wait_error os n m = (answer, m') ->
  exists a specs', answer = Ok a /\ answers os (specs !! n) a /\
    forgets (fun u => ended os u /\ lasting u = false) specs specs' /\
    (forall j, j <> n -> specs' !! j = specs !! j) /\ units_rel os (mg_units m') specs'.
Proof.
  intros Hrel. pose proof (Hrel n) as Hn. unfold unit_status.
  assert (Hkeep : forgets (fun u => ended os u /\ lasting u = false) specs specs) by (intros j; by left).
  destruct (mg_units m !! n) as [u|] eqn:Em, (specs !! n) as [su|] eqn:Es; inversion Hn as [? ? Hu|];
    simplify_eq; cycle 1.
  { intros [= <- <-]. by exists None, specs. }
  destruct (lu_child u) as [pid|] eqn:Hc; [rewrite try_wait_works; destruct (os_exits os !! pid) as [e|] eqn:He|].
  - pose proof (unit_rel_waited _ _ _ _ _ Hu Hc He) as Hu'. intros [= <- <-]. eexists _, specs.
    split_and!; [done| |done|done|].
    + apply (answers_exited os _ su (up_remain_after_exit (lu_props u)) Hu'); [done| |done|done].
      rewrite (ur_child _ _ _ Hu pid Hc) in He. by eexists.
    + rewrite <- (insert_id specs n su) by done. by apply units_rel_insert.
  - intros [= <- <-]. exists (Some running), specs. split_and!; [done| |done|done|done].
    unfold answers. rewrite (ur_child _ _ _ Hu pid Hc) in He. by rewrite He.
  - destruct (_ && _) eqn:Hb; [|destruct (group_exists os (lu_pgid u)) eqn:Hg]; intros [= <- <-].
    + apply andb_true_iff in Hb as [Hr Hl%bool_decide_eq_true]. eexists _, specs.
      split_and!; [done| |done|done|done]. apply (answers_exited os u su true); auto.
      destruct Hl as [e Hl]. exists e. by apply (ur_status _ _ _ Hu).
    + exists (Some running), specs. split_and!; [done| |done|done|done].
      apply (answers_running os u); [done|done|]. by eapply lasting_false.
    + pose proof (group_gone_ended _ _ _ Hu Hg) as Hend. eexists _, (delete n specs). split_and!; [done| | | |].
      * apply (answers_exited os u su false); [done..|]. intros Hw.
        pose proof (lasting_false _ _ _ Hu Hc Hb) as Hla. unfold lasting in Hla. rewrite Hw in Hla.
        by rewrite (ur_remain _ _ _ Hu).
      * intros j. destruct (decide (j = n)) as [->|]; [|left; by rewrite lookup_delete_ne].
        right. rewrite lookup_delete_eq. split; [done|]. exists su. split; [done|].
        split; [done|]. by eapply lasting_false.
      * intros j Hj. by rewrite lookup_delete_ne.
      * by apply units_rel_delete.
Qed.

Lemma unit_status_file os n m answer m' :
  mg_file m = persist_units_sync (mg_units m) ->
  unit_status wait_error os n m = (answer, m') -> mg_file m' = persist_units_sync (mg_units m').
Proof.
  intros Hf. unfold unit_status. repeat case_match; intros [= <- <-]; done.
Qed.

(** ** A new daemon *)

Definition loaded (u : LocalUnit) : LocalUnit :=
  mkLocalUnit (lu_props u) None (lu_pgid u) (lu_last_status u).

(** What is persisted is loaded. *)
Lemma load_persisted units : load_units (persist_units_sync units) = loaded <$> units.
Proof.
  unfold persist_units_sync. case_bool_decide as Hu; [by rewrite Hu, fmap_empty|].
  simpl. rewrite units_roundtrip, <- map_fmap_compose. done.
Qed.

Lemma with_registry_path_units os m :
  mg_file m = persist_units_sync (mg_units m) ->
  mg_units (with_registry_path os (mg_file m)) =
    omap (fun u => if should_keep_loaded_unit os u then Some (loaded u) else None) (mg_units m).
Proof.
  intros ->. unfold with_registry_path. rewrite load_persisted. apply map_eq. intros n. simpl.
  rewrite lookup_omap. destruct (mg_units m !! n) as [u|] eqn:Hn; simpl.
  - destruct (should_keep_loaded_unit os u) eqn:Hk.
    + apply map_lookup_filter_Some. by rewrite lookup_fmap, Hn.
    + apply map_lookup_filter_None. right. rewrite lookup_fmap, Hn. intros ? [= <-]. simpl.
      change (should_keep_loaded_unit os (loaded u)) with (should_keep_loaded_unit os u). by rewrite Hk.
  - apply map_lookup_filter_None. left. by rewrite lookup_fmap, Hn.
Qed.

Lemma unit_rel_loaded os u su :
  unit_rel os u su -> unit_rel os (loaded u) (unwatched su).
Proof. intros []. by split. Qed.

Lemma with_registry_path_rel os m specs :
  mg_file m = persist_units_sync (mg_units m) -> units_rel os (mg_units m) specs ->
  exists specs', forgets (ended os) specs specs' /\
    units_rel os (mg_units (with_registry_path os (mg_file m))) (unwatched <$> specs').
Proof.
  intros Hf Hrel. rewrite with_registry_path_units by done.
  destruct (units_rel_omap os (mg_units m) specs
    (fun u => if should_keep_loaded_unit os u then Some u else None) (ended os)) as (specs' & Hfo & Hrel');
    [done| |].
  { intros u su Hu. destruct (should_keep_loaded_unit os u) eqn:Hk; [done|].
    apply orb_false_iff in Hk as [_ Hk]. by eapply group_gone_ended. }
  exists specs'. split; [done|]. intros n. specialize (Hrel' n). rewrite lookup_fmap.
  rewrite lookup_omap in *. destruct (mg_units m !! n) as [u|]; simpl in *.
  - destruct (should_keep_loaded_unit os u); inversion Hrel'; constructor. by apply unit_rel_loaded.
  - inversion Hrel'. constructor.
Qed.

(** ** Every step *)

Lemma omap_inserting_take ts op existing :
  omap inserting (ts ++ option_list (after_take op existing)) = omap inserting ts.
Proof. rewrite omap_app. destruct op, existing; simpl; apply app_nil_r. Qed.

Lemma alive_spawned_mono os os' (l : list (string * bool * nat)) :
  os_le os os' -> Forall (fun s => alive os s.2) l -> Forall (fun s => alive os' s.2) l.
Proof. intros Hle Hl. eapply Forall_impl; [exact Hl|]. intros s. by apply alive_mono. Qed.

(** What happens to processes. *)
Lemma refines_os m os ts specs l os' :
  os_le os os' -> refines (mkSystem m os ts) (mkSpec specs os l) ->
  refines (mkSystem m os' ts) (mkSpec specs os' l).
Proof.
  intros Hle []. split; simpl in *; auto; [by eapply units_rel_mono|by eapply alive_spawned_mono].
Qed.

Lemma step_refines : simulates (step wait_error) spec_step refines.
Proof.
  intros c [specs os0 l] lab c' HR Hs. pose proof HR as [Hrel Hf Hos Hsp Hal]. simpl in *.
  destruct Hs as [m os ts op existing m' Ht|m os ts1 ts2 n u signal thn w3 w1 g3 _ _
    |m os ts1 ts2 n props pid os' Hs|m os ts1 ts2 n props|m os ts1 ts2 n props pid
    |m os ts n answer m' Ht|m os ts|m os ts|m os ts pid status Hlt Hn|m os ts pgid Hn]; simpl in *; subst os0.
  - injection Ht as <- <-. eexists. split; [apply spec_take|]. split; simpl; auto.
    + by apply units_rel_delete.
    + by rewrite omap_inserting_take.
  - eexists. split; [apply spec_stopped|]. split; simpl; auto. rewrite Hsp, !omap_app.
    destruct (after_stop _ _ _) as [[]|] eqn:Ha; simpl; try done. unfold after_stop in Ha.
    repeat case_match; discriminate.
  - injection Hs as <- <-. rewrite omap_app in Hsp. subst l. eexists. split; [apply spec_spawn|].
    pose proof (os_le_spawn os) as Hle. split; simpl in *; auto.
    + by eapply units_rel_mono.
    + rewrite omap_app. simpl. reflexivity.
    + apply (alive_spawned_mono _ _ _ Hle) in Hal. rewrite Forall_app in *. destruct Hal.
      split; [done|]. constructor; [apply alive_spawn|done].
  - eexists. split; [apply spec_spawn_fails|]. split; simpl; auto. rewrite Hsp, !omap_app. done.
  - rewrite omap_app in Hsp. simpl in Hsp. subst l. eexists. split; [apply spec_insert|].
    rewrite Forall_app, Forall_cons in Hal. destruct Hal as (? & ? & ?).
    split; simpl; auto.
    + apply units_rel_insert; [done|]. split; simpl; auto; try done. by intros ? [= <-].
    + by rewrite omap_app.
    + by rewrite Forall_app.
  - destruct (unit_status_rel _ _ _ _ _ _ Hrel Ht) as (a & specs' & -> & Ha & Hfo & Hj & Hrel').
    eexists. split; [by apply spec_status|]. split; simpl; auto. by eapply unit_status_file.
  - destruct (units_rel_omap os (mg_units m) specs
      (fun u => let '(u', _, remove) := reap_unit wait_error os u in
                if remove : bool then None else Some u')
      (fun u => ended os u /\ lasting u = false)) as (specs' & Hfo & Hrel'); [done| |].
    { intros u su Hu. pose proof (reap_unit_rel _ _ _ Hu). by destruct (reap_unit _ _ _) as [[? ?] []]. }
    eexists. split; [by apply spec_tick|]. split; simpl; auto.
    + by rewrite reaper_tick_units.
    + by apply reaper_tick_file.
  - destruct (with_registry_path_rel os m specs Hf Hrel) as (specs' & Hfo & Hrel').
    eexists. split; [by apply spec_restart|]. split; simpl; auto.
  - eexists. split; [by apply spec_exit|]. eapply refines_os; [by apply os_le_exit|done].
  - eexists. split; [by apply spec_group_end|]. eapply refines_os; [by apply os_le_group_end|done].
Qed.
End waits.
End refinement.

(** C9: the local manager refines its contract. Whatever operations run and however
    their sections interleave, and whatever becomes of processes and of the daemon,
    each answer about a unit is one the contract allows: a unit that was started and
    not stopped since is running while its main process runs, also for a new daemon;
    a unit is forgotten only when its main process ended, and one that remains
    after exit not before the daemon that started it ends; how a unit ended is
    reported as it was. *)
Theorem local_manager_refines `{RegistryFile} (wait_error : Os -> nat -> option string)
    (os : Os) (labels : list Label) (c : System) :
  (forall os pid, wait_error os pid = None) ->
  history (step wait_error) (mkSystem (with_registry_path os None) os []) labels c ->
  exists a, history spec_step (mkSpec ∅ os []) labels a /\ refines c a.
Proof.
  intros Hw. eapply simulates_history; [by apply step_refines|].
  split; simpl; [|by rewrite map_filter_empty|done..]. intros n.
  rewrite map_filter_empty, !lookup_empty. constructor.
Qed.

(** A new daemon finds a unit whose group has a process. *)
Lemma status_after_restart `{RegistryFile} wait_error os m n props pid :
  process_group_exists os pid = true ->
  let m' := with_registry_path os (mg_file (put_unit n props pid m)) in
  unit_status wait_error os n m' = (Ok (Some running), m').
Proof.
  intros Hg m'. unfold unit_status.
  assert (mg_units m' !! n = Some (mkLocalUnit props None (Some pid) None)) as ->.
  { unfold m'. rewrite with_registry_path_units by done. rewrite lookup_omap. simpl.
    rewrite lookup_insert_eq. simpl. unfold should_keep_loaded_unit. simpl.
    by rewrite Hg, orb_true_r. }
  simpl. by rewrite andb_false_r, Hg.
Qed.

(** ** A concrete registry *)

#[local] Instance exec_start_eq : EqDecision ExecStart.
Proof. solve_decision. Defined.
#[local] Instance unit_properties_eq : EqDecision UnitProperties.
Proof. solve_decision. Defined.
#[local] Instance exit_status_eq : EqDecision LocalExitStatus.
Proof. solve_decision. Defined.
#[local] Instance persisted_unit_eq : EqDecision PersistedLocalUnit.
Proof. solve_decision. Defined.

#[local] Instance exec_start_countable : Countable ExecStart.
Proof.
  refine (inj_countable' (fun e => (ex_path e, ex_argv e, ex_ignore_failure e))
    (fun '(a, b, c) => mkExecStart a b c) _). by intros [].
Defined.

#[local] Instance unit_properties_countable : Countable UnitProperties.
Proof.
  refine (inj_countable' (fun p =>
      ((up_description p, up_working_directory p, up_environment p, up_exec_start p),
       (up_kill_mode p, up_kill_signal p, up_timeout_stop_usec p, up_send_sigkill p),
       (up_restart p, up_restart_usec p, up_start_limit_interval_usec p, up_start_limit_burst p),
       up_remain_after_exit p))
    (fun '((a, b, c, d), (e, f, g, h), (i, j, k, l), m) =>
       mkUnitProperties a b c d e f g h i j k l m) _). by intros [].
Defined.

#[local] Instance exit_status_countable : Countable LocalExitStatus.
Proof.
  refine (inj_countable' (fun s => (le_success s, le_code s))
    (fun '(a, b) => mkLocalExitStatus a b) _). by intros [].
Defined.

#[local] Instance persisted_unit_countable : Countable PersistedLocalUnit.
Proof.
  refine (inj_countable' (fun u => (pu_props u, pu_pgid u, pu_last_status u))
    (fun '(a, b, c) => mkPersistedLocalUnit a b c) _). by intros [].
Defined.

#[local, refine] Instance concrete_registry : RegistryFile :=
  {| units_to_json m := of_bytes (digits_of_pos (encode m) ++ ["}"%char]);
     units_of_json s := decode (pos_of_digits (to_bytes s)) |}.
Proof. intros m. by rewrite to_of_bytes, pos_digits_end, decode_encode. Defined.

Definition sample_props : UnitProperties :=
  UnitProperties_new "web" "/p" ["PORT=8080"] (mkExecStart "/d" ["/d"; "__shim"] false).

(** A unit that is started, then found by the next daemon. *)
Lemma local_manager_refines_witness :
  let os := mkOs 7 ∅ ∅ in
  exists c a,
    history (step (fun _ _ => None)) (mkSystem (with_registry_path os None) os [])
      [LTake "web"; LSpawn "web"; LInsert "web"; LRestart; LStatus "web" (Ok (Some running))] c /\
    history spec_step (mkSpec ∅ os [])
      [LTake "web"; LSpawn "web"; LInsert "web"; LRestart; LStatus "web" (Ok (Some running))] a.
Proof.
  intros os.
  assert (exists c, history (step (fun _ _ => None)) (mkSystem (with_registry_path os None) os [])
    [LTake "web"; LSpawn "web"; LInsert "web"; LRestart; LStatus "web" (Ok (Some running))] c)
    as [c Hc].
  { eexists. econstructor.
    { apply (step_take _ _ os [] (OpStart "web" sample_props)). reflexivity. }
    econstructor; [by apply (step_spawn _ _ os [] [])|].
    econstructor; [by apply (step_insert _ _ _ [] [])|].
    econstructor; [by apply step_restart|].
    econstructor; [by apply step_status, status_after_restart, bool_decide_eq_true_2, elem_of_union_l,
                     elem_of_singleton|].
    constructor. }
  destruct (local_manager_refines (fun _ _ => None) os _ c (fun _ _ => eq_refl) Hc) as (a & Ha & _).
  by exists c, a.
Defined.
