(* ===== verification/Program.v ===== *)
(** * Programs with effects

    A command of the daemon awaits answers from outside between the sections that
    run under a lock.  It is a tree here: an effect, and what follows each answer.
    A run threads a state through the effects, which other tasks may change before
    each of them, and leaves the list of the effects with their answers. *)

From S2P Require Import Prelude.

Inductive prog (E : Type -> Type) (A : Type) : Type :=
  | Ret (o : outcome A)
  | Vis {R : Type} (e : E R) (k : R -> prog E A).
Arguments Ret {E A} o.
Arguments Vis {E A R} e k.

(** An effect with the answer it got. *)
Inductive event (E : Type -> Type) : Type :=
  | Ev {R : Type} (e : E R) (r : R).
Arguments Ev {E R} e r.

Section programs.
Context {E : Type -> Type}.

#[export] Instance prog_ret : MRet (prog E) := fun A a => Ret (Ok a).

(** [?]: an error ends the program. *)
#[export] Instance prog_bind : MBind (prog E) := fun A B f =>
  fix bind (p : prog E A) : prog E B :=
    match p with
    | Ret (Ok a) => f a
    | Ret (Err e) => Ret (Err e)
    | Ret Panic => Ret Panic
    | Ret OutOfFuel => Ret OutOfFuel
    | Vis e k => Vis e (fun r => bind (k r))
    end.

(** An effect that cannot fail, and one whose failure ends the program. *)
Definition trigger {R} (e : E R) : prog E R := Vis e (fun r => Ret (Ok r)).
Definition try_trigger {R} (e : E (outcome R)) : prog E R := Vis e Ret.

(** The result of a computation as a value, to match on. *)
Fixpoint attempt {A} (p : prog E A) : prog E (outcome A) :=
  match p with
  | Ret Panic => Ret Panic
  | Ret OutOfFuel => Ret OutOfFuel
  | Ret o => Ret (Ok o)
  | Vis e k => Vis e (fun r => attempt (k r))
  end.

(** [let _ = p.await;] *)
Definition ignore {A} (p : prog E A) : prog E unit := _ ← attempt p; mret tt.

(** [for a in l { b = f(b, a)?; }] *)
Fixpoint pfold {A B} (f : B -> A -> prog E B) (l : list A) (b : B) : prog E B :=
  match l with
  | [] => mret b
  | a :: l => b ← f b a; pfold f l b
  end.

Definition pforeach {A} (f : A -> prog E unit) (l : list A) : prog E unit :=
  pfold (fun _ => f) l tt.

(** [p.map_err(f)] *)
Definition on_error {A} (f : string -> string) (p : prog E A) : prog E A :=
  r ← attempt p; Ret (map_err f r).

(** ** Runs *)

Section semantics.
Context {S : Type}.
(** What an effect answers in a state, with the next state; and what other tasks do
    before it. *)
Context (handle : forall R, E R -> S -> R -> S -> Prop) (other : S -> S -> Prop).

Fixpoint runs {A} (p : prog E A) (s : S) (t : list (event E)) (o : outcome A) (s' : S) : Prop :=
  match p with
  | Ret r => t = [] /\ o = r /\ s' = s
  | Vis e k => exists s1 r s2 t2, other s s1 /\ handle _ e s1 r s2 /\ t = Ev e r :: t2 /\
                 runs (k r) s2 t2 o s'
  end.

Lemma runs_vis {R A} (e : E R) (k : R -> prog E A) s s1 r s2 t o s' :
  other s s1 -> handle R e s1 r s2 -> runs (k r) s2 t o s' -> runs (Vis e k) s (Ev e r :: t) o s'.
Proof. intros Ho Hh Hr. by exists s1, r, s2, t. Qed.

(** Every run from [s] satisfies [Q]. *)
Fixpoint wp {A} (p : prog E A) (Q : list (event E) -> outcome A -> S -> Prop) (s : S) : Prop :=
  match p with
  | Ret o => Q [] o s
  | Vis e k => forall s1 r s2, other s s1 -> handle _ e s1 r s2 ->
                 wp (k r) (fun t => Q (Ev e r :: t)) s2
  end.

Lemma wp_runs {A} (p : prog E A) Q s t o s' : wp p Q s -> runs p s t o s' -> Q t o s'.
Proof.
  revert Q s t. induction p as [r|R e k IH]; intros Q s t; simpl.
  - by intros HQ (-> & -> & ->).
  - intros Hwp (s1 & r & s2 & t2 & Ho & Hh & -> & Hr). by apply (IH r _ s2 t2 (Hwp _ _ _ Ho Hh)).
Qed.

Lemma wp_mono {A} (p : prog E A) (Q Q' : list (event E) -> outcome A -> S -> Prop) s :
  (forall t o s', Q t o s' -> Q' t o s') -> wp p Q s -> wp p Q' s.
Proof.
  revert Q Q' s. induction p as [r|R e k IH]; intros Q Q' s HQ; simpl; [apply HQ|].
  intros Hwp s1 r s2 Ho Hh. eapply IH; [|by eapply Hwp]. intros t o s'. apply HQ.
Qed.

Lemma wp_runs_all {A} (p : prog E A) s : wp p (fun t o s' => runs p s t o s') s.
Proof.
  revert s. induction p as [r|R e k IH]; intros s; simpl; [done|].
  intros s1 r s2 Ho Hh. eapply wp_mono; [|apply IH]. intros t o s' Hr. by exists s1, r, s2, t.
Qed.

(** What follows a value, and what an error becomes. *)
Definition then_post {A B} (Q : list (event E) -> outcome B -> S -> Prop) (f : A -> prog E B)
    (t : list (event E)) (o : outcome A) (s : S) : Prop :=
  match o with
  | Ok a => wp (f a) (fun t2 => Q (t ++ t2)) s
  | Err e => Q t (Err e) s
  | Panic => Q t Panic s
  | OutOfFuel => Q t OutOfFuel s
  end.

Lemma wp_bind {A B} (p : prog E A) (f : A -> prog E B) Q s :
  wp p (then_post Q f) s -> wp (p ≫= f) Q s.
Proof.
  revert Q s. induction p as [[a|e| |]|R e k IH]; intros Q s; simpl; try done.
  intros Hwp s1 r s2 Ho Hh. apply IH. eapply wp_mono; [|by apply (Hwp s1 r s2)].
  intros t [a|m| |] s'; simpl; done.
Qed.

Lemma wp_attempt {A} (p : prog E A) Q s :
  wp p (fun t o s' => match o with
                      | Panic => Q t Panic s'
                      | OutOfFuel => Q t OutOfFuel s'
                      | _ => Q t (Ok o) s'
                      end) s -> wp (attempt p) Q s.
Proof.
  revert Q s. induction p as [[a|e| |]|R e k IH]; intros Q s; simpl; try done.
  intros Hwp s1 r s2 Ho Hh. apply IH. by apply (Hwp s1 r s2).
Qed.

(** A loop, from an invariant of what happened so far and of what is left to do. *)
Lemma wp_pfold {A B} (f : B -> A -> prog E B) (l : list A) (b : B) s
    (I : list A -> list (event E) -> B -> S -> Prop) (Q : list (event E) -> outcome B -> S -> Prop) :
  (forall a l t b s, I (a :: l) t b s ->
     wp (f b a) (fun t2 o s' => match o with
                                | Ok b' => I l (t ++ t2) b' s'
                                | Err e => Q (t ++ t2) (Err e) s'
                                | Panic => Q (t ++ t2) Panic s'
                                | OutOfFuel => Q (t ++ t2) OutOfFuel s'
                                end) s) ->
  (forall t b s, I [] t b s -> Q t (Ok b) s) ->
  forall t, I l t b s -> wp (pfold f l b) (fun t2 => Q (t ++ t2)) s.
Proof.
  intros Hf HQ. revert b s. induction l as [|a l IH]; intros b s t HI; simpl.
  - rewrite app_nil_r. by apply HQ.
  - apply wp_bind. eapply wp_mono; [|by apply Hf]. intros t2 [b'|e| |] s' H; simpl; [|done..].
    eapply wp_mono; [|by apply (IH b' s' (t ++ t2))]. intros t3 o s2. by rewrite app_assoc.
Qed.
End semantics.

(** ** What is seen of a run *)

Section steps.
Context {L : Type} (observe : event E -> option L).

Definition observed (t : list (event E)) : list L := omap observe t.

(** Whatever the answers are, what is seen and the result satisfy [P]. *)
Fixpoint seen {A} (p : prog E A) (P : list L -> outcome A -> Prop) : Prop :=
  match p with
  | Ret o => P [] o
  | Vis e k => forall r, seen (k r) (fun l => P (option_list (observe (Ev e r)) ++ l))
  end.

(** A program of which nothing is seen. *)
Definition quiet {A} (p : prog E A) : Prop := seen p (fun l _ => l = []).

Lemma seen_runs {S} handle (other : S -> S -> Prop) {A} (p : prog E A) P s t o s' :
  seen p P -> runs handle other p s t o s' -> P (observed t) o.
Proof.
  revert P s t. induction p as [r|R e k IH]; intros P s t; simpl.
  - by intros HP (-> & -> & _).
  - intros Hs (s1 & r & s2 & t2 & _ & _ & -> & Hr). pose proof (IH r _ s2 t2 (Hs r) Hr) as H.
    unfold observed in *. simpl in *. by destruct (observe (Ev e r)).
Qed.

Lemma seen_mono {A} (p : prog E A) (P P' : list L -> outcome A -> Prop) :
  (forall l o, P l o -> P' l o) -> seen p P -> seen p P'.
Proof.
  revert P P'. induction p as [r|R e k IH]; intros P P' HP; simpl; [apply HP|].
  intros Hs r. eapply IH; [|apply Hs]. intros l o. apply HP.
Qed.

Lemma seen_bind {A B} (p : prog E A) (f : A -> prog E B) P :
  seen p (fun l o => match o with
                     | Ok a => seen (f a) (fun l2 => P (l ++ l2))
                     | Err e => P l (Err e)
                     | Panic => P l Panic
                     | OutOfFuel => P l OutOfFuel
                     end) -> seen (p ≫= f) P.
Proof.
  revert P. induction p as [[a|e| |]|R e k IH]; intros P; simpl; try done.
  intros Hs r. apply IH. eapply seen_mono; [|apply Hs]. intros l [a|m| |]; simpl; try done.
  apply seen_mono. intros l2 o. by rewrite app_assoc.
Qed.

Lemma seen_attempt {A} (p : prog E A) P :
  seen p (fun l o => match o with
                     | Panic => P l Panic
                     | OutOfFuel => P l OutOfFuel
                     | _ => P l (Ok o)
                     end) -> seen (attempt p) P.
Proof.
  revert P. induction p as [[a|e| |]|R e k IH]; intros P; simpl; try done.
  intros Hs r. by apply IH.
Qed.

Lemma seen_all {A} (p : prog E A) (P : list L -> outcome A -> Prop) :
  (forall l o, P l o) -> seen p P.
Proof. revert P. induction p as [r|R e k IH]; intros P HP; simpl; auto. Qed.

Lemma seen_on_error {A} f (p : prog E A) P :
  seen p (fun l o => P l (map_err f o)) -> seen (on_error f p) P.
Proof.
  intros Hs. apply seen_bind, seen_attempt. eapply seen_mono; [|exact Hs].
  intros l [a|e| |]; simpl; by rewrite ?app_nil_r.
Qed.

(** *** Quiet programs *)

Lemma quiet_trigger {R} (e : E R) : (forall r, observe (Ev e r) = None) -> quiet (trigger e).
Proof. intros Ho r. simpl. by rewrite Ho. Qed.

Lemma quiet_try {R} (e : E (outcome R)) : (forall r, observe (Ev e r) = None) -> quiet (try_trigger e).
Proof. intros Ho r. simpl. by rewrite Ho. Qed.

Lemma quiet_ret {A} (o : outcome A) : quiet (Ret o).
Proof. done. Qed.

Lemma quiet_bind {A B} (p : prog E A) (f : A -> prog E B) :
  quiet p -> (forall a, quiet (f a)) -> quiet (p ≫= f).
Proof.
  intros Hp Hf. apply seen_bind. eapply seen_mono; [|exact Hp]. intros l [a|e| |] ->; try done.
  apply Hf.
Qed.

Lemma quiet_attempt {A} (p : prog E A) : quiet p -> quiet (attempt p).
Proof. intros Hp. apply seen_attempt. eapply seen_mono; [|exact Hp]. by intros l [a|e| |]. Qed.

Lemma quiet_ignore {A} (p : prog E A) : quiet p -> quiet (ignore p).
Proof. intros Hp. apply quiet_bind; [by apply quiet_attempt|done]. Qed.

(** What a quiet program does does not matter for what is seen of the rest. *)
Lemma seen_quiet {A B} (p : prog E A) (f : A -> prog E B) P :
  quiet p -> (forall a, seen (f a) P) -> (forall e, P [] (Err e)) -> P [] Panic ->
  P [] OutOfFuel -> seen (p ≫= f) P.
Proof.
  intros Hp Hf He Hpa Hou. apply seen_bind. eapply seen_mono; [|exact Hp].
  intros l [a|e| |] ->; simpl; [|done..]. apply (seen_mono _ P); [done|apply Hf].
Qed.
End steps.

(** ** The run with given answers *)

Section answers.
Context {S : Type} (answer : forall R, E R -> S -> R * S).

Fixpoint run_with {A} (p : prog E A) (s : S) : list (event E) * outcome A * S :=
  match p with
  | Ret o => ([], o, s)
  | Vis e k => let '(r, s) := answer _ e s in
               let '(t, o, s) := run_with (k r) s in (Ev e r :: t, o, s)
  end.

Lemma run_with_runs (handle : forall R, E R -> S -> R -> S -> Prop) {A} (p : prog E A) s :
  (forall R e s, handle R e s (answer R e s).1 (answer R e s).2) ->
  runs handle eq p s (run_with p s).1.1 (run_with p s).1.2 (run_with p s).2.
Proof.
  intros Hh. revert s. induction p as [o|R e k IH]; intros s; [done|]. simpl.
  specialize (Hh R e s). destruct (answer R e s) as [r s2]. specialize (IH r s2).
  destruct (run_with (k r) s2) as [[t o] s3]. by exists s, r, s2, t.
Qed.
End answers.
End programs.

Create HintDb quiet.
#[export] Hint Resolve quiet_ret quiet_trigger quiet_try quiet_bind quiet_attempt quiet_ignore : quiet.
