(* ===== verification/Launch.v ===== *)
(** * The launch of services

    Models [src/app/launch/start.rs], [pipeline.rs], the part of [readiness.rs] and
    [watch.rs] that runs in a command, and [launch_services] of
    [src/app/commands/runs.rs]: what happens between the sections of [Lifecycle],
    as programs whose effects are calls of the service manager, the registry of
    ports, the file system, the tasks and the sections themselves.

    The message of an error is what its [to_string] gives, the last context.  The
    kind of an [AppError] only chooses the status of the HTTP answer and is left
    out.  The emission of events belongs to the section that made them. *)

From S2P Require Import Prelude Bytes BMap Util Json Logfmt.
From S2P Require Import ConfigModel ConfigPlan ConfigValidate Port RunModel Lifecycle.
From S2P Require Import LaunchEnv LaunchPorts Manifest Restore Systemd Program.
From Stdlib Require Import Lia ZArith.

(** ** Effects *)

(** What a launch reads of the file system and the process at one time. *)
Record World := mkWorld {
  w_read : string -> outcome string;
  w_exists : string -> bool;
  w_is_file : string -> bool;
  w_canonicalize : string -> option string;
  w_read_dir : string -> outcome (list (outcome string));
  w_from_path_iter : string -> outcome (list (outcome (string * string)));
  w_var : string -> option string;
  w_compute_watch_hash :
    string -> option (list string) -> list string -> list string -> bytes -> outcome string;
}.

(** [ReadinessContext] *)
Record ReadinessContext := mkReadinessContext {
  rc_port : option Z;
  rc_scheme : string;
  rc_log_path : string;
  rc_cwd : string;
  rc_env : bmap string string;
  rc_unit_name : option string;
}.

Record ServiceLogSink := mkServiceLogSink { lk_path : string; lk_stream_prefix : string }.

(** [PostInitContext] *)
Record PostInitContext := mkPostInitContext {
  pi_tasks_map : bmap string TaskConfig;
  pi_post_init_tasks : list string;
  pi_project_dir : string;
  pi_run_id : option string;
  pi_base_env : bmap string string;
  pi_service_log : option ServiceLogSink;
}.

(** The globals and the flags of their handles. *)
Definition GlobalState : Type := bmap string GlobalRecord * Flags.

(** What is read or changed under one lock, a call from outside, or the start of a
    task. *)
Inductive Effect : Type -> Type :=
  | Look {R} (f : Daemon -> R) : Effect R
  | Act {R} (a : Action) (result : Daemon -> R) : Effect R
  | Globals {R} (f : GlobalState -> R * GlobalState) : Effect R
  | EmitGlobal (key : string) (state : RunLifecycle) : Effect unit
  | Registry {R} (m : PortM R) : Effect (outcome R)
  | StartUnit (unit_name : string) (props : UnitProperties) : Effect (outcome unit)
  | StopUnit (unit_name : string) : Effect (outcome unit)
  | RestartUnit (unit_name : string) : Effect (outcome unit)
  | KillUnit (unit_name : string) (signal : Z) : Effect (outcome unit)
  | UnitState (unit_name : string) : Effect (outcome (option UnitStatus))
  | WaitReady (readiness : ReadinessSpec) (context : ReadinessContext) : Effect (outcome unit)
  | RunInit (tasks : bmap string TaskConfig) (init : list string) (project_dir run_id : string)
      (history_path : string) (env : bmap string string) (log : ServiceLogSink)
      : Effect (outcome unit)
  | RunPostInit (context : PostInitContext) (history_path : string) : Effect (outcome unit)
  | StartWatcher (owner service : string) : Effect (outcome unit)
  | StartProxy (run_id service : string) (public_port target_port : Z) : Effect (outcome unit)
  | SpawnMonitor (run_id service : string) : Effect unit
  | SpawnReadiness (run_id service unit_name : string) (readiness : ReadinessSpec)
      (context : ReadinessContext) (post_init : option PostInitContext) : Effect unit
  | SpawnGlobal (key : string) (prepared : PreparedService) (post_init : option PostInitContext)
      : Effect unit
  | WriteRun (path : string) (manifest : PersistedRun) : Effect (outcome unit)
  | WriteGlobal (path : string) (manifest : PersistedGlobal) : Effect (outcome unit)
  | WriteState (now : string) (runs : bmap string RunRecord) : Effect (outcome unit)
  | CreateDirs (path : string) : Effect (outcome unit)
  | CopyFile (from to : string) : Effect (outcome unit)
  | RemoveDir (path : string) : Effect (outcome unit)
  | DeleteLogs (run_id : string) : Effect (outcome unit)
  | TouchProject (project_dir : string) : Effect (outcome unit)
  | ReadText (path : string) : Effect (outcome string)
  | RandomSuffix : Effect string
  | See : Effect World
  | Now : Effect string
  | Sleep (ms : Z) : Effect unit.

Abbreviation command := (prog Effect).

(** A section of a run, with the result it has. *)
Definition act {R} (a : Action) (section : Daemon -> outcome R * Daemon) : command R :=
  try_trigger (Act a (fun d => (section d).1)).

Section launch.
Context `{Json}.
Context (render_template : string -> Value -> outcome string) (home : option string).
Context (debug_readiness : ReadinessSpec -> string).
Context (base_dir : outcome string) (blake3_hex : string -> string).
Context (binary_path : string).

(** ** Starting a unit *)

Definition scope_identifier (scope : InstanceScope) : string :=
  match scope with ScopeRun run_id _ => run_id | ScopeGlobal key _ _ => key end.

Definition scope_label (scope : InstanceScope) : string :=
  match scope with ScopeRun run_id _ => run_id | ScopeGlobal key _ _ => "global:" +:+ key end.

Definition unit_properties (scope : InstanceScope) (prepared : PreparedService) : UnitProperties :=
  let binary := to_string_lossy binary_path in
  let exec := mkExecStart binary
    [binary; "__shim"; "--run-id"; scope_identifier scope; "--service"; ps_name prepared;
     "--cmd"; ps_cmd prepared; "--cwd"; to_string_lossy (ps_cwd prepared); "--log-file";
     to_string_lossy (ps_log_path prepared)] false in
  with_remain_after_exit
    (with_restart
       (UnitProperties_new ("devstack " +:+ scope_label scope +:+ " " +:+ ps_name prepared)
          (to_string_lossy (ps_cwd prepared))
          (map (fun kv => kv.1 +:+ "=" +:+ kv.2) (ps_env prepared)) exec)
       "no")
    (bool_decide (rs_kind (ps_readiness prepared) = Exit)).

Definition unit_is_up (active_state : string) : bool :=
  bool_decide (active_state ∈
    ["active"; "activating"; "deactivating"; "reloading"; "maintenance"]).

(** The loop that waits until the unit is down, [n] turns at most. *)
Fixpoint wait_down (n : nat) (unit_name : string) : command unit :=
  match n with
  | O => mret tt
  | S n =>
      status ← trigger (UnitState unit_name);
      match status with
      | Ok (Some status) =>
          if unit_is_up (us_active_state status)
          then _ ← trigger (Sleep 100); wait_down n unit_name else mret tt
      | _ => mret tt
      end
  end.

Definition start_prepared_service (scope : InstanceScope) (prepared : PreparedService)
    (restart_existing : bool) : command unit :=
  let unit_name := ps_unit_name prepared in
  _ ← (if restart_existing
       then _ ← trigger (StopUnit unit_name); wait_down 50 unit_name
       else mret tt);
  on_error (fun _ => "start unit " +:+ unit_name)
    (try_trigger (StartUnit unit_name (unit_properties scope prepared))).

(** ** Readiness *)

Definition build_post_init_context (service : ServiceConfig) (tasks_map : bmap string TaskConfig)
    (project_dir : string) (run_id : option string) (base_env : bmap string string)
    (service_log : option ServiceLogSink) : option PostInitContext :=
  post_init ← sc_post_init service;
  if bool_decide (post_init = []) then None
  else Some (mkPostInitContext tasks_map post_init project_dir run_id base_env service_log).

Definition run_init_tasks_blocking (tasks_map : bmap string TaskConfig) (init_tasks : list string)
    (project_dir run_id : string) (base_env : bmap string string) (log : ServiceLogSink)
    : command unit :=
  history_path ← Ret (task_history_path base_dir run_id);
  try_trigger (RunInit tasks_map init_tasks project_dir run_id history_path base_env log).

Definition run_post_init_tasks_blocking (context : PostInitContext) : command unit :=
  history_path ← Ret (match pi_run_id context with
                      | Some run_id => task_history_path base_dir run_id
                      | None => ad_hoc_task_history_path base_dir blake3_hex (pi_project_dir context)
                      end);
  try_trigger (RunPostInit context history_path).

Definition readiness_context (prepared : PreparedService) : ReadinessContext :=
  mkReadinessContext (ps_listen_port prepared) (ps_scheme prepared) (ps_log_path prepared)
    (ps_cwd prepared) (ps_env prepared) (Some (ps_unit_name prepared)).

Definition wait_for_prepared_service (service_name : string) (prepared : PreparedService)
    (post_init : option PostInitContext) : command unit :=
  _ ← try_trigger (WaitReady (ps_readiness prepared) (readiness_context prepared));
  match post_init with
  | Some context =>
      on_error (fun err => service_name +:+ " post_init task failed: " +:+ err)
        (run_post_init_tasks_blocking context)
  | None => mret tt
  end.

Definition format_terminal_unit_status (status : UnitStatus) : option string :=
  let failed :=
    bool_decide (us_active_state status = "failed")
    || (bool_decide (us_active_state status = "inactive")
        && match us_result status with Some r => negb (bool_decide (r = "success")) | None => false end) in
  if negb failed then None else
  Some ("exited before readiness (active_state=" +:+ us_active_state status +:+ ", sub_state="
        +:+ us_sub_state status +:+ ", result=" +:+ default "unknown" (us_result status) +:+ ")").

Definition tail_log_messages (content : outcome string) (limit : nat) : list string :=
  match content with
  | Ok content =>
      let lines := str_lines content in
      List.filter (fun m => negb (bool_decide (m = "")))
        (map (fun line => str_trim (extract_log_content line).2) (drop (length lines - limit) lines))
  | _ => []
  end.

Definition enrich_readiness_error (service unit_name log_path err : string) : command string :=
  status ← trigger (UnitState unit_name);
  let message :=
    match status with
    | Ok (Some status) =>
        match format_terminal_unit_status status with
        | Some reason => "service " +:+ reason +:+ " for '" +:+ service +:+ "'"
        | None => err
        end
    | _ => err
    end in
  content ← trigger (ReadText log_path);
  let recent_logs := tail_log_messages content 10 in
  mret (if bool_decide (recent_logs = []) then message
        else message +:+ String.String "010" ("last log lines:" +:+ String.String "010"
               (String.concat (String.String "010" EmptyString) recent_logs))).

Definition mark_service_ready_now (run_id service : string) : command unit :=
  now ← trigger Now;
  '(start_monitor, _) ← act (ActMarkReady now run_id service) (mark_service_ready now run_id service);
  if start_monitor : bool then trigger (SpawnMonitor run_id service) else mret tt.

Definition mark_service_failed_now (run_id service reason : string) : command unit :=
  now ← trigger Now;
  _ ← act (ActMarkFailed now run_id service reason) (mark_service_failed now run_id service reason);
  mret tt.

Definition handle_readiness (run_id : string) (prepared : PreparedService) (no_wait : bool)
    (post_init : option PostInitContext) : command unit :=
  if no_wait
  then trigger (SpawnReadiness run_id (ps_name prepared) (ps_unit_name prepared)
                  (ps_readiness prepared) (readiness_context prepared) post_init)
  else
    result ← attempt (wait_for_prepared_service (ps_name prepared) prepared post_init);
    match result with
    | Err err =>
        detailed ← enrich_readiness_error (ps_name prepared) (ps_unit_name prepared)
          (ps_log_path prepared) err;
        _ ← mark_service_failed_now run_id (ps_name prepared) detailed;
        Ret (Err detailed)
    | _ => mark_service_ready_now run_id (ps_name prepared)
    end.

(** ** Watchers and capture proxies *)

Definition sync_service_auto_restart_watcher (run_id service : string) : command unit :=
  start_args ← trigger (Act (ActSyncWatcherBegin run_id service)
                          (fun d => (sync_watcher_begin run_id service d).1));
  match start_args with
  | Ok (Some (Some paused)) =>
      _ ← try_trigger (StartWatcher run_id service);
      act (ActSyncWatcherCommit run_id service paused) (sync_watcher_commit run_id service paused)
  | _ => mret tt
  end.

Definition sync_service_api_capture_proxy (run_id service : string) : command unit :=
  start_config ← trigger (Act (ActSyncCaptureBegin run_id service)
                            (fun d => (sync_capture_begin run_id service d).1));
  match start_config with
  | Ok (Some (Some (public_port, target_port))) =>
      _ ← try_trigger (StartProxy run_id service public_port target_port);
      act (ActSyncCaptureCommit run_id service) (sync_capture_commit run_id service)
  | _ => mret tt
  end.

(** ** Manifests *)

Definition write_daemon_state : command unit :=
  runs ← trigger (Look dm_runs);
  now ← trigger Now;
  try_trigger (WriteState now runs).

Definition manifest_of (run_id : string) (d : Daemon) : outcome (PersistedRun * string) :=
  r ← with_run run_id (persisted_run base_dir) (dm_runs d); r.

Definition persist_manifest (run_id : string) : command unit :=
  '(manifest, path) ← try_trigger (Look (manifest_of run_id));
  _ ← try_trigger (WriteRun path manifest);
  write_daemon_state.

(** What [spawn_readiness_task] runs. *)
Definition readiness_task (run_id : string) (prepared : PreparedService)
    (post_init : option PostInitContext) : command unit :=
  result ← attempt (wait_for_prepared_service (ps_name prepared) prepared post_init);
  _ ← (match result with
       | Err err =>
           detailed ← enrich_readiness_error (ps_name prepared) (ps_unit_name prepared)
             (ps_log_path prepared) err;
           ignore (mark_service_failed_now run_id (ps_name prepared) detailed)
       | _ => ignore (mark_service_ready_now run_id (ps_name prepared))
       end);
  ignore (persist_manifest run_id).

(** ** The services of a stack *)

Record LaunchResources := mkLaunchResources {
  lr_config_dir : string;
  lr_tasks_map : bmap string TaskConfig;
  lr_port_map : PortMap;
  lr_listen_port_map : PortMap;
  lr_service_schemes : bmap string string;
  lr_base_env : bmap string string;
  lr_global_env : bmap string string;
  lr_global_env_file_path : option string;
}.

Definition resolve_service_tasks (service : ServiceConfig) (global_tasks : bmap string TaskConfig)
    : bmap string TaskConfig :=
  match sc_tasks service with
  | Some service_tasks => bextend global_tasks service_tasks
  | None => global_tasks
  end.

Section registry.
Context `{RegistryCodec} (kernel : nat -> Kernel) (fuel : nat -> nat).

Definition release_public (run_id service : string) (port : option Z) : command unit :=
  try_trigger (Registry (release_service_port kernel fuel run_id service port)).

Definition release_backend (run_id service : string) (port public_port : option Z)
    : command unit :=
  try_trigger (Registry (release_service_capture_backend_port kernel fuel run_id service port public_port)).

Definition sync_unchanged (run_id service_name : string) (prepared : PreparedService)
    : command unit :=
  _ ← act (ActSyncUnchanged run_id service_name prepared)
        (sync_unchanged_service run_id service_name prepared);
  _ ← ignore (sync_service_auto_restart_watcher run_id service_name);
  ignore (sync_service_api_capture_proxy run_id service_name).

Definition record_failed_init (run_id service_name : string) (prepared : PreparedService)
    (error : string) : command unit :=
  _ ← act (ActFailedInit run_id service_name prepared error)
        (record_failed_init_service run_id service_name prepared error);
  ignore (sync_service_auto_restart_watcher run_id service_name).

(** [None] for a start that worked, else its error. *)
Definition store_launch_result (run_id service_name : string) (prepared : PreparedService)
    (start_result : option string) : command unit :=
  now ← trigger Now;
  _ ← act (ActLaunchResult now run_id service_name prepared start_result)
        (store_service_launch_result now run_id service_name prepared start_result);
  ignore (sync_service_auto_restart_watcher run_id service_name).

(** The ports of the service that it does not use any more. *)
Definition release_previous_ports (run_id service_name : string) (existing : Existing)
    (prepared : PreparedService) : command unit :=
  let previous_port := snapshot ← bget service_name existing; es_port snapshot in
  let previous_listen_port := snapshot ← bget service_name existing; es_listen_port snapshot in
  _ ← (if bool_decide (is_Some previous_port) && bool_decide (previous_port <> ps_port prepared)
       then release_public run_id service_name previous_port else mret tt);
  if bool_decide (is_Some previous_listen_port)
     && bool_decide (previous_listen_port <> ps_listen_port prepared)
     && bool_decide (previous_listen_port <> previous_port)
  then release_backend run_id service_name previous_listen_port previous_port else mret tt.

(** The end of [launch_service], after a start that worked. *)
Definition settle_started (run_id service_name : string) (prepared : PreparedService)
    (no_wait : bool) (post_init : option PostInitContext) : command unit :=
  capture ← attempt (sync_service_api_capture_proxy run_id service_name);
  match capture with
  | Err err =>
      let reason := "API capture proxy failed: " +:+ err in
      _ ← mark_service_failed_now run_id service_name reason;
      _ ← ignore (persist_manifest run_id);
      Ret (Err reason)
  | _ =>
      ready ← attempt (handle_readiness run_id prepared no_wait post_init);
      match ready with
      | Err err => _ ← ignore (persist_manifest run_id); Ret (Err err)
      | _ => mret tt
      end
  end.

Definition launch_service (scope : InstanceScope) (run_id : string) (stack_plan : StackPlan)
    (project_dir : string) (resources : LaunchResources) (service_name : string)
    (no_wait force : bool) (existing : Existing) : command unit :=
  service ← Ret (ok_or (bget service_name (sp_services stack_plan))
                   ("service " +:+ service_name +:+ " missing"));
  w ← trigger See;
  prepared ← Ret (prepare_service render_template home (w_exists w) (w_from_path_iter w) (w_var w)
    debug_readiness (w_compute_watch_hash w) base_dir blake3_hex scope project_dir
    (lr_config_dir resources) service_name service (lr_port_map resources)
    (lr_listen_port_map resources) (lr_service_schemes resources) (lr_base_env resources)
    (lr_global_env resources) (lr_global_env_file_path resources));
  if negb (bool_decide (existing = []))
     && negb (service_needs_restart force existing service_name prepared)
  then sync_unchanged run_id service_name prepared else
  let resolved_tasks := resolve_service_tasks service (lr_tasks_map resources) in
  let log_path := ps_log_path prepared in
  init ← (match sc_init service with
          | Some ((_ :: _) as init_tasks) =>
              attempt (run_init_tasks_blocking resolved_tasks init_tasks project_dir run_id
                         (ps_env prepared) (mkServiceLogSink log_path "init"))
          | _ => mret (Ok tt)
          end);
  match init with
  | Err err => record_failed_init run_id service_name prepared err
  | _ =>
      start_result ←
        attempt (start_prepared_service scope prepared (bcontains service_name existing));
      _ ← release_previous_ports run_id service_name existing prepared;
      let failure := match start_result with Err err => Some err | _ => None end in
      _ ← store_launch_result run_id service_name prepared failure;
      match failure with
      | Some _ => mret tt
      | None =>
          settle_started run_id service_name prepared no_wait
            (build_post_init_context service resolved_tasks project_dir (Some run_id)
               (ps_env prepared) (Some (mkServiceLogSink log_path "post_init")))
      end
  end.

Definition launch_services (run_id : string) (stack_plan : StackPlan) (project_dir : string)
    (resources : LaunchResources) (no_wait force : bool) (existing : Existing) : command unit :=
  let scope := ScopeRun run_id (sp_name stack_plan) in
  pforeach (fun service_name =>
    launch_service scope run_id stack_plan project_dir resources service_name no_wait force existing)
    (sp_order stack_plan).
End registry.
End launch.
