(* ===== verification/LaunchSteps.v ===== *)
(** * What a launch does, in order

    The steps of [launch_services] that matter outside the daemon - tasks, units,
    readiness, the states it records - and the specification of their order. *)

From S2P Require Import Prelude Bytes BMap Util Json.
From S2P Require Import ConfigModel ConfigPlan ConfigValidate Port RunModel Lifecycle.
From S2P Require Import LaunchEnv LaunchPorts Systemd Program Launch.
From Stdlib Require Import Lia ZArith.

(** ** Steps *)

Inductive LaunchStep : Type :=
  | DidInit (ok : bool)
  | DidStop (unit_name : string)
  | DidStart (unit_name : string) (ok : bool)
  | DidWait (unit_name : option string) (ok : bool)
  | DidPostInit (ok : bool)
  | DidSpawnReadiness (unit_name : string)
  | DidRecord (service : string) (state : ServiceState).

Definition is_ok {A} (o : outcome A) : bool := match o with Ok _ => true | _ => false end.

Definition recorded_state (a : Action) : option LaunchStep :=
  match a with
  | ActMarkReady _ _ service => Some (DidRecord service Ready)
  | ActMarkFailed _ _ service _ => Some (DidRecord service Failed)
  | ActFailedInit _ service _ _ => Some (DidRecord service Failed)
  | ActLaunchResult _ _ service _ None => Some (DidRecord service Starting)
  | ActLaunchResult _ _ service _ (Some _) => Some (DidRecord service Failed)
  | _ => None
  end.

Definition launch_step (ev : event Effect) : option LaunchStep :=
  match ev with
  | Ev e r =>
      match e in Effect R return R -> option LaunchStep with
      | Act a _ => fun _ => recorded_state a
      | StartUnit u _ => fun r => Some (DidStart u (is_ok r))
      | StopUnit u => fun _ => Some (DidStop u)
      | WaitReady _ c => fun r => Some (DidWait (rc_unit_name c) (is_ok r))
      | RunInit _ _ _ _ _ _ _ => fun r => Some (DidInit (is_ok r))
      | RunPostInit _ _ => fun r => Some (DidPostInit (is_ok r))
      | SpawnReadiness _ _ u _ _ _ => fun _ => Some (DidSpawnReadiness u)
      | _ => fun _ => None
      end r
  end.

(** ** What a service may do *)

(** What follows a start that worked: readiness, then tasks, then the record; and
    whether the launch goes on. *)
Inductive settled (s u : string) (post no_wait : bool) : list LaunchStep -> bool -> Prop :=
  | settled_later : no_wait = true -> settled s u post no_wait [DidSpawnReadiness u] true
  | settled_ready : no_wait = false ->
      settled s u post no_wait
        (DidWait (Some u) true :: (if post then [DidPostInit true] else []) ++ [DidRecord s Ready]) true
  | settled_not_ready : no_wait = false ->
      settled s u post no_wait [DidWait (Some u) false; DidRecord s Failed] false
  | settled_post_failed (ran : bool) : no_wait = false -> post = true ->
      settled s u post no_wait
        (DidWait (Some u) true :: (if ran then [DidPostInit false] else []) ++ [DidRecord s Failed]) false
  | settled_broken : settled s u post no_wait [DidRecord s Failed] false.

(** The steps of a service that is launched as the unit [u]. [init] and [post] tell
    whether it has such tasks, [existing] whether a former unit is stopped first. *)
Inductive launched (s u : string) (init post existing no_wait : bool) : list LaunchStep -> bool -> Prop :=
  | launched_init_failed (ran : bool) : init = true ->
      launched s u init post existing no_wait
        ((if ran then [DidInit false] else []) ++ [DidRecord s Failed]) true
  | launched_start_failed :
      launched s u init post existing no_wait
        ((if init then [DidInit true] else []) ++ (if existing then [DidStop u] else [])
         ++ [DidStart u false; DidRecord s Failed]) true
  | launched_started rest goes_on :
      settled s u post no_wait rest goes_on ->
      launched s u init post existing no_wait
        ((if init then [DidInit true] else []) ++ (if existing then [DidStop u] else [])
         ++ [DidStart u true; DidRecord s Starting] ++ rest) goes_on.

Definition some_tasks (tasks : option (list string)) : bool :=
  match tasks with Some (_ :: _) => true | _ => false end.

Section steps.
Context `{Json}.
Context (render_template : string -> Value -> outcome string) (home : option string).
Context (debug_readiness : ReadinessSpec -> string).
Context (base_dir : outcome string) (blake3_hex : string -> string).
Context (binary_path : string).
Context `{RegistryCodec} (kernel : nat -> Kernel) (fuel : nat -> nat).
Context (run_id : string) (stack_plan : StackPlan) (project_dir : string).
Context (resources : LaunchResources) (no_wait force : bool) (existing : Existing).

#[local] Abbreviation scope := (ScopeRun run_id (sp_name stack_plan)).

(** How the service is prepared in a world. *)
Definition prepared_in (w : World) (s : string) (service : ServiceConfig) : outcome PreparedService :=
  prepare_service render_template home (w_exists w) (w_from_path_iter w) (w_var w)
    debug_readiness (w_compute_watch_hash w) base_dir blake3_hex scope project_dir
    (lr_config_dir resources) s service (lr_port_map resources)
    (lr_listen_port_map resources) (lr_service_schemes resources) (lr_base_env resources)
    (lr_global_env resources) (lr_global_env_file_path resources).

(** A service that runs as it would be launched now, and is well. *)
Definition unchanged (s : string) (p : PreparedService) : Prop :=
  force = false /\ exists snapshot, bget s existing = Some snapshot /\
    es_watch_hash snapshot = Some (ps_watch_hash p) /\
    (es_state snapshot = Ready \/ es_state snapshot = Starting).

(** The steps of one service of the plan: none when it is unchanged. *)
Definition service_steps (s : string) (steps : list LaunchStep) (goes_on : bool) : Prop :=
  exists service w p, bget s (sp_services stack_plan) = Some service /\
    prepared_in w s service = Ok p /\
    (unchanged s p /\ steps = [] /\ goes_on = true \/
     ~ unchanged s p /\
     launched s (unit_name_for_run run_id s) (some_tasks (sc_init service))
       (some_tasks (sc_post_init service)) (bcontains s existing) no_wait steps goes_on).

#[local] Abbreviation quiet := (quiet launch_step).
#[local] Abbreviation seen := (seen launch_step).

Ltac quiet_auto := repeat first
  [ done | assumption | apply quiet_ret | apply quiet_trigger; reflexivity | apply quiet_try; reflexivity
  | apply quiet_ignore | apply quiet_attempt
  | apply quiet_bind; [|let a := fresh "a" in intros a; repeat case_match] ].

Lemma quiet_sync_watcher s : quiet (sync_service_auto_restart_watcher run_id s).
Proof. unfold sync_service_auto_restart_watcher, act. quiet_auto. Qed.

Lemma quiet_sync_capture s : quiet (sync_service_api_capture_proxy run_id s).
Proof. unfold sync_service_api_capture_proxy, act. quiet_auto. Qed.

Lemma quiet_persist : quiet (persist_manifest base_dir run_id).
Proof. unfold persist_manifest, write_daemon_state. quiet_auto. Qed.

Lemma quiet_enrich s u path err : quiet (enrich_readiness_error s u path err).
Proof. unfold enrich_readiness_error. quiet_auto. Qed.

Lemma quiet_wait_down n u : quiet (wait_down n u).
Proof. induction n as [|n IH]; cbn [wait_down]; quiet_auto. Qed.

Lemma quiet_release s p : quiet (release_previous_ports kernel fuel run_id s existing p).
Proof.
  unfold release_previous_ports, release_public, release_backend.
  apply quiet_bind; [|intros []]; case_match; quiet_auto.
Qed.

Lemma quiet_unchanged s p : quiet (sync_unchanged run_id s p).
Proof.
  unfold sync_unchanged, act. apply quiet_bind; [quiet_auto|]. intros _.
  apply quiet_bind; intros; apply quiet_ignore; [apply quiet_sync_watcher|apply quiet_sync_capture].
Qed.

(** ** What is seen of the parts *)

(** A result that ends in [P], or breaks off on the way there. *)
Definition ends_or_breaks (P : list LaunchStep -> bool -> Prop) (l : list LaunchStep) (o : outcome unit)
    : Prop :=
  match o with
  | Ok _ => P l true
  | Err _ => exists rest goes_on, P (l ++ rest) goes_on
  | _ => True
  end.

Lemma seen_mark_ready s (P : list LaunchStep -> outcome unit -> Prop) :
  (forall o, P [DidRecord s Ready] o) -> seen (mark_service_ready_now run_id s) P.
Proof.
  intros HP. unfold mark_service_ready_now, act. simpl. intros now r.
  destruct r as [[[] ev]|e| |]; simpl; try apply HP. intros []. apply HP.
Qed.

Lemma seen_mark_failed s reason (P : list LaunchStep -> outcome unit -> Prop) :
  (forall o, P [DidRecord s Failed] o) -> seen (mark_service_failed_now run_id s reason) P.
Proof.
  intros HP. unfold mark_service_failed_now, act. simpl. intros now r.
  destruct r as [ev|e| |]; simpl; apply HP.
Qed.

(** The wait for readiness, with the tasks after it. *)
Lemma seen_wait s p post_init :
  seen (wait_for_prepared_service base_dir blake3_hex s p post_init) (fun l o =>
    let post := bool_decide (is_Some post_init) in
    match o with
    | Ok _ => l = DidWait (Some (ps_unit_name p)) true :: (if post then [DidPostInit true] else [])
    | Err _ => l = [DidWait (Some (ps_unit_name p)) false] \/
               post = true /\ exists ran : bool,
                 l = DidWait (Some (ps_unit_name p)) true :: (if ran then [DidPostInit false] else [])
    | _ => True
    end).
Proof.
  unfold wait_for_prepared_service. simpl. intros [[]|e| |]; simpl; [|by left|done|done].
  destruct post_init as [c|]; simpl; [|done]. unfold on_error, run_post_init_tasks_blocking.
  destruct (match pi_run_id c with Some _ => _ | None => _ end) as [path|e| |]; simpl;
    [|right; split; [done|]; by exists false|done|done].
  intros [[]|e| |]; simpl; [done| |done|done]. right. split; [done|]. by exists true.
Qed.

Lemma seen_handle_readiness s u p post_init :
  ps_name p = s -> ps_unit_name p = u ->
  seen (handle_readiness base_dir blake3_hex run_id p no_wait post_init)
    (ends_or_breaks (settled s u (bool_decide (is_Some post_init)) no_wait)).
Proof.
  intros <- <-. unfold handle_readiness. destruct no_wait eqn:Hnw.
  { simpl. intros _. by apply settled_later. }
  apply seen_bind, seen_attempt. eapply seen_mono; [|apply seen_wait].
  intros l [[]|e| |]; cbv beta iota; [| |done|done].
  - intros ->. apply seen_mark_ready. intros [[]|e| |]; simpl; [| |done|done].
    + by apply settled_ready.
    + exists [], true. rewrite app_nil_r. by apply settled_ready.
  - intros Hl. apply seen_quiet; [apply quiet_enrich| | |done|done].
    + intros detailed. apply seen_bind, seen_mark_failed.
      assert (settled (ps_name p) (ps_unit_name p) (bool_decide (is_Some post_init)) false
                (l ++ [DidRecord (ps_name p) Failed]) false) as Hset.
      { destruct Hl as [->|(Hpost & ran & ->)]; [by apply settled_not_ready|].
        by apply (settled_post_failed _ _ _ _ ran). }
      intros [[]|e'| |]; simpl; try done; eexists [], false; by rewrite !app_nil_r.
    + intros e'. destruct Hl as [->|(Hpost & ran & ->)].
      * eexists [DidRecord (ps_name p) Failed], false. by apply settled_not_ready.
      * eexists [DidRecord (ps_name p) Failed], false. simpl.
        rewrite app_nil_r. by apply (settled_post_failed _ _ _ _ ran).
Qed.

Lemma seen_settle_started s u p post_init :
  ps_name p = s -> ps_unit_name p = u ->
  seen (settle_started base_dir blake3_hex run_id s p no_wait post_init)
    (ends_or_breaks (settled s u (bool_decide (is_Some post_init)) no_wait)).
Proof.
  intros Hs Hu. unfold settle_started.
  apply seen_quiet; [apply quiet_attempt, quiet_sync_capture| | |done|done].
  - intros capture.
    assert (seen (ready ← attempt (handle_readiness base_dir blake3_hex run_id p no_wait post_init);
                  match ready with
                  | Err err => _ ← ignore (persist_manifest base_dir run_id); Ret (Err err)
                  | _ => mret tt
                  end)
      (ends_or_breaks (settled s u (bool_decide (is_Some post_init)) no_wait))) as Hready.
    { apply seen_bind, seen_attempt. eapply seen_mono; [|by apply (seen_handle_readiness s u)].
      intros l [[]|e| |]; cbv beta iota; [simpl; by rewrite app_nil_r| |done|done]. intros (rest & b & Hset).
      apply seen_quiet; [apply quiet_ignore, quiet_persist| | |done|done].
      - intros []. simpl. exists rest, b. by rewrite app_nil_r.
      - intros e'. exists rest, b. by rewrite app_nil_r. }
    destruct capture as [[]|err| |]; [done| |done|done].
    apply seen_bind, seen_mark_failed.
    assert (settled s u (bool_decide (is_Some post_init)) no_wait [DidRecord s Failed] false) as Hb
      by apply settled_broken.
    intros [[]|e| |]; cbv beta iota; [|by exists [], false|done|done].
    apply seen_quiet; [apply quiet_ignore, quiet_persist|intros []|intros e|done|done]; simpl;
      by exists [], false.
  - intros e. exists [DidRecord s Failed], false. apply settled_broken.
Qed.

Lemma seen_wait_down n u : seen (wait_down n u) (fun l o => l = [] /\ o = Ok tt).
Proof.
  induction n as [|n IH]; simpl; [done|]. intros [[status|]|e| |]; simpl; try done.
  destruct (unit_is_up _); simpl; [|done]. by intros _.
Qed.

(** A former unit is stopped, then the unit is started. *)
Lemma seen_start p restart :
  seen (start_prepared_service binary_path scope p restart) (fun l o =>
    l = (if restart then [DidStop (ps_unit_name p)] else [])
        ++ [DidStart (ps_unit_name p) (is_ok o)]).
Proof.
  unfold start_prepared_service. apply seen_bind.
  assert (forall l0, seen (on_error (fun _ => "start unit " +:+ ps_unit_name p)
    (try_trigger (StartUnit (ps_unit_name p) (unit_properties binary_path scope p))))
    (fun l o => l0 ++ l = l0 ++ [DidStart (ps_unit_name p) (is_ok o)])) as Hstart.
  { intros l0. apply seen_on_error. simpl. by intros [[]|e| |]. }
  destruct restart; [|exact (Hstart [])]. intros r. cbn [option_list launch_step].
  eapply (seen_mono _ (wait_down 50 (ps_unit_name p))); [|apply seen_wait_down].
  intros l o [-> ->]. exact (Hstart [_]).
Qed.

Definition launch_state (failure : option string) : ServiceState :=
  match failure with Some _ => Failed | None => Starting end.

Lemma seen_store s p failure :
  seen (store_launch_result run_id s p failure) (fun l _ => l = [DidRecord s (launch_state failure)]).
Proof.
  unfold store_launch_result, act. intros now r. destruct r as [ev|e| |]; [|by destruct failure..].
  eapply seen_mono; [|apply quiet_ignore, quiet_sync_watcher]. intros l o ->. by destruct failure.
Qed.

(** The end of a launch, once its first tasks are done. *)
Definition start_and_settle (s : string) (p : PreparedService) (post_init : option PostInitContext)
    : command unit :=
  start_result ←
    attempt (start_prepared_service binary_path scope p (bcontains s existing));
  _ ← release_previous_ports kernel fuel run_id s existing p;
  let failure := match start_result with Err err => Some err | _ => None end in
  _ ← store_launch_result run_id s p failure;
  match failure with
  | Some _ => mret tt
  | None => settle_started base_dir blake3_hex run_id s p no_wait post_init
  end.

Lemma seen_start_and_settle s u init p post_init :
  ps_name p = s -> ps_unit_name p = u ->
  seen (start_and_settle s p post_init) (fun l =>
    ends_or_breaks (launched s u init (bool_decide (is_Some post_init)) (bcontains s existing) no_wait)
      ((if init then [DidInit true] else []) ++ l)).
Proof.
  intros Hs Hu. unfold start_and_settle. apply seen_bind, seen_attempt.
  eapply seen_mono; [|apply seen_start]. rewrite Hu. set (stop := if bcontains s existing then _ else _).
  set (first := if init then _ else _).
  pose proof (launched_start_failed s u init (bool_decide (is_Some post_init)) (bcontains s existing)
    no_wait) as Hfail.
  assert (forall rest b, settled s u (bool_decide (is_Some post_init)) no_wait rest b ->
    launched s u init (bool_decide (is_Some post_init)) (bcontains s existing) no_wait
      (first ++ stop ++ [DidStart u true; DidRecord s Starting] ++ rest) b) as Hstarted
    by (intros; by apply launched_started).
  assert (Hcut := Hstarted _ _ (settled_broken s u (bool_decide (is_Some post_init)) no_wait)).
  intros l [[]|err| |] ->; cbv beta iota; [| |done|done].
  - apply seen_quiet; [apply quiet_release| | |done|done]; cycle 1.
    { intros e. eexists _, _. rewrite <- !app_assoc. exact Hcut. }
    intros _. apply seen_bind. eapply seen_mono; [|apply seen_store]. intros l o ->.
    destruct o as [[]|e| |]; cbv beta iota; [| |done|done].
    + eapply seen_mono; [|by apply (seen_settle_started s u p post_init)].
      intros l [[]|e| |]; simpl; [| |done|done].
      * intros Hset. rewrite <- !app_assoc. by apply Hstarted.
      * intros (rest & b & Hset). exists rest, b. rewrite <- !app_assoc. simpl.
        by apply Hstarted.
    + eexists _, _. rewrite <- !app_assoc. exact Hcut.
  - apply seen_quiet; [apply quiet_release| | |done|done]; cycle 1.
    { intros e. eexists [_], _. rewrite <- !app_assoc. exact Hfail. }
    intros _. apply seen_bind. eapply seen_mono; [|apply seen_store]. intros l o ->.
    destruct o as [[]|e| |]; cbv beta iota; [| |done|done].
    + simpl. rewrite ?app_nil_r, <- !app_assoc. exact Hfail.
    + exists [], true. rewrite app_nil_r, <- !app_assoc. exact Hfail.
Qed.

(** *** One service *)

Lemma unchanged_spec s p :
  negb (bool_decide (existing = [])) && negb (service_needs_restart force existing s p) = true <->
  unchanged s p.
Proof.
  unfold unchanged, service_needs_restart. rewrite andb_true_iff, !negb_true_iff, orb_false_iff,
    bool_decide_eq_false. split.
  - intros (_ & -> & Hs). split; [done|]. destruct (bget s existing) as [snapshot|] eqn:Hb; [|done].
    exists snapshot. apply orb_false_iff in Hs as [Hh Hst]. apply bool_decide_eq_false in Hh, Hst.
    split; [done|]. split; [by apply dec_stable|]. destruct (es_state snapshot); auto; destruct Hst;
      set_solver.
  - intros (-> & snapshot & Hb & Hh & Hst). split; [by intros ->|]. split; [done|].
    rewrite Hb. apply orb_false_iff. rewrite !bool_decide_eq_false. split; [naive_solver|].
    destruct Hst as [-> | ->]; set_solver.
Qed.

Lemma prepared_names w s service p :
  prepared_in w s service = Ok p -> ps_name p = s /\ ps_unit_name p = unit_name_for_run run_id s.
Proof.
  unfold prepared_in, prepare_service. intros Hp. outcome_simpl. by simplify_eq.
Qed.

Lemma post_init_some service tasks dir id env log :
  bool_decide (is_Some (build_post_init_context service tasks dir id env log)) =
    some_tasks (sc_post_init service).
Proof. unfold build_post_init_context. by destruct (sc_post_init service) as [[|t l]|]. Qed.

(** The tasks before a start. *)
Lemma seen_init service tasks s p :
  seen (match sc_init service with
        | Some ((_ :: _) as init_tasks) =>
            attempt (run_init_tasks_blocking base_dir tasks init_tasks project_dir run_id (ps_env p)
                       (mkServiceLogSink (ps_log_path p) s))
        | _ => mret (Ok tt)
        end) (fun l o =>
    match o with
    | Ok (Ok _) => l = if some_tasks (sc_init service) then [DidInit true] else []
    | Ok (Err _) => some_tasks (sc_init service) = true /\
                    exists ran : bool, l = if ran then [DidInit false] else []
    | Ok _ | Err _ => False
    | _ => True
    end).
Proof.
  destruct (sc_init service) as [[|t init]|]; simpl; [done| |done].
  apply seen_attempt. unfold run_init_tasks_blocking.
  destruct (task_history_path base_dir run_id) as [path|e| |]; simpl; [|split; [done|]; by exists false|done|done].
  intros [[]|e| |]; simpl; [done| |done|done]. split; [done|]. by exists true.
Qed.

Lemma seen_failed_init s p e :
  seen (record_failed_init run_id s p e) (fun l _ => l = [DidRecord s Failed]).
Proof.
  unfold record_failed_init, act. intros r. destruct r as [ev|e'| |]; [|done..].
  eapply seen_mono; [|apply quiet_ignore, quiet_sync_watcher]. by intros l o ->.
Qed.

Definition service_result (s : string) (steps : list LaunchStep) (o : outcome unit) : Prop :=
  match o with
  | Ok _ => service_steps s steps true
  | Err _ => steps = [] \/ exists rest goes_on, service_steps s (steps ++ rest) goes_on
  | _ => True
  end.

Lemma seen_launch_service s :
  seen (launch_service render_template home debug_readiness base_dir blake3_hex binary_path kernel
          fuel scope run_id stack_plan project_dir resources s no_wait force existing)
    (service_result s).
Proof.
  unfold launch_service. destruct (bget s (sp_services stack_plan)) as [service|] eqn:Hs;
    [|simpl; by left]. cbn [ok_or]. apply seen_bind. cbn [seen].
  apply seen_bind. intros w. cbn [option_list launch_step app seen].
  apply seen_bind. fold (prepared_in w s service).
  destruct (prepared_in w s service) as [p|e| |] eqn:Hp; [|by left|done|done]. cbn [seen].
  destruct (prepared_names _ _ _ _ Hp) as [Hname Hunit].
  destruct (negb (bool_decide (existing = [])) && _) eqn:Hu.
  { apply unchanged_spec in Hu. eapply seen_mono; [|apply quiet_unchanged].
    intros l o ->. assert (service_steps s [] true) by (exists service, w, p; naive_solver).
    destruct o as [[]|e| |]; simpl; [done| |done|done]. by left. }
  assert (~ unchanged s p) as Hchanged by (intros H1%unchanged_spec; congruence).
  assert (forall l o,
    ends_or_breaks (launched s (unit_name_for_run run_id s) (some_tasks (sc_init service))
      (some_tasks (sc_post_init service)) (bcontains s existing) no_wait) l o ->
    service_result s l o) as Hresult.
  { intros l [[]|e| |]; simpl; [| |done|done].
    - intros Hl. exists service, w, p. naive_solver.
    - intros (rest & b & Hl). right. exists rest, b, service, w, p. naive_solver. }
  set (post_init := build_post_init_context _ _ _ _ _ _).
  apply seen_bind. eapply seen_mono; [|apply seen_init]. cbn [option_list app].
  intros l [[[]|err| |]| | |]; try done; cbv beta iota.
  - intros ->. eapply seen_mono; [intros l o; apply Hresult|].
    rewrite <- (post_init_some service (resolve_service_tasks service (lr_tasks_map resources))
      project_dir (Some run_id) (ps_env p) (Some (mkServiceLogSink (ps_log_path p) "post_init"))).
    exact (seen_start_and_settle s _ (some_tasks (sc_init service)) p post_init Hname Hunit).
  - intros (Hinit & ran & ->). eapply seen_mono; [|apply seen_failed_init]. intros l o ->.
    apply Hresult. pose proof (launched_init_failed s (unit_name_for_run run_id s)
      (some_tasks (sc_init service)) (some_tasks (sc_post_init service)) (bcontains s existing) no_wait
      ran Hinit) as Hl.
    destruct o as [[]|e| |]; simpl; [done| |done|done]. exists [], true. by rewrite app_nil_r.
Qed.

(** *** The services of a plan *)

(** What happened up to some point of a launch: the services with their steps, the
    last one possibly not done. *)
Definition launch_so_far (order : list string) (launches : list (string * list LaunchStep))
    (o : outcome unit) : Prop :=
  launches.*1 `prefix_of` order /\ (is_ok o = true -> launches.*1 = order) /\
  (launches = [] -> o = Ok tt) /\
  forall l1 s steps l2, launches = l1 ++ (s, steps) :: l2 ->
    service_result s steps (if l2 is [] then o else Ok tt).

(** A wait that failed, or the tasks after one. *)
Definition not_ready (steps : list LaunchStep) : Prop :=
  (exists u, DidWait u false ∈ steps) \/ DidPostInit false ∈ steps.

Lemma settled_on_ready s u post wait rest : settled s u post wait rest true -> ~ not_ready rest.
Proof.
  unfold not_ready. remember true as b eqn:Hb. destruct 1 as [Hw|Hw| | |]; try done; intros [[v Hv]|Hv];
    destruct post; set_solver.
Qed.

Lemma launched_on_ready s u init post existed wait steps :
  launched s u init post existed wait steps true -> ~ not_ready steps.
Proof.
  remember true as b eqn:Hb. destruct 1 as [ran Hi| |rest goes_on Hrest].
  - unfold not_ready. destruct ran; set_solver.
  - unfold not_ready. destruct init, existed; set_solver.
  - subst goes_on. apply settled_on_ready in Hrest. intros Hn. apply Hrest. unfold not_ready in *.
    destruct init, existed; set_solver.
Qed.

(** Nothing is launched after a service that did not get ready, and that is an error. *)
Lemma not_ready_ends order launches o :
  launch_so_far order launches o ->
  forall l1 s steps l2, launches = l1 ++ (s, steps) :: l2 -> not_ready steps -> l2 = [] /\ o <> Ok tt.
Proof.
  intros (_ & _ & _ & Hall) l1 s steps l2 Heq Hn. specialize (Hall l1 s steps l2 Heq).
  assert (service_result s steps (Ok tt) -> False) as Hno.
  { simpl. intros (service & w & p & _ & _ & [(_ & -> & _)|(_ & Hl)]).
    - destruct Hn as [[u Hu]|Hu]; set_solver.
    - by apply launched_on_ready in Hl. }
  destruct l2 as [|x l2]; [|by destruct Hno]. split; [done|]. intros ->. by apply Hno.
Qed.

Lemma seen_launch_services order :
  seen (pforeach (fun s => launch_service render_template home debug_readiness base_dir blake3_hex
          binary_path kernel fuel scope run_id stack_plan project_dir resources s no_wait force
          existing) order)
    (fun l o => exists launches, l = concat launches.*2 /\ launch_so_far order launches o).
Proof.
  unfold pforeach. induction order as [|s order IH]; simpl.
  { exists []. split; [done|]. split_and!; [done|done|done|]. by intros []. }
  apply seen_bind. eapply seen_mono; [|apply seen_launch_service].
  assert (forall l o, service_result s l o -> is_ok o = false ->
    exists launches, l = concat launches.*2 /\ launch_so_far (s :: order) launches o) as Hstop.
  { intros l o Hr Ho. exists [(s, l)]. split; [simpl; by rewrite app_nil_r|].
    split_and!; [simpl; by apply prefix_cons, prefix_nil|by rewrite Ho|done|].
    intros [|x [|y l1]] * [= -> -> <-]; done. }
  intros l [[]|e| |] Hr; cbv beta iota; [|by apply Hstop..].
  eapply seen_mono; [|exact IH]. intros l2 o (launches & -> & Hpre & Hall & Hnil & Hsteps).
  exists ((s, l) :: launches). split; [done|]. split_and!; [|intros Ho|done|].
  - by apply prefix_cons.
  - simpl. f_equal. by apply Hall.
  - intros [|x l1] s2 steps l3; simpl; [|intros [= <- Heq]; by apply (Hsteps l1)].
    intros [= ? ? ?]. subst. destruct l3 as [|x l3]; [|done]. by rewrite Hnil.
Qed.
End steps.

(** ** The order of a plan *)

Definition plan_ordered (plan : StackPlan) : Prop :=
  NoDup (sp_order plan) /\
  forall s svc d, bget s (sp_services plan) = Some svc -> d ∈ sc_deps svc ->
    is_Some (bget d (sp_services plan)) -> before d s (sp_order plan).

Lemma filter_ordered plan targets plan' :
  bwf (sp_services plan) -> plan_ordered plan -> filter_to plan targets = Ok plan' ->
  plan_ordered plan'.
Proof.
  intros Hwf [Hnd Hord] Hf. unfold filter_to in Hf. outcome_simpl. rename x into needed. split; simpl.
  { apply NoDup_ListNoDup, List.NoDup_filter. by apply NoDup_ListNoDup. }
  intros s svc d. rewrite !bget_bretain by done.
  destruct (bget s _) as [svc'|] eqn:Hs; [|done]. destruct (bcontains s needed) eqn:Hsn; [|done].
  intros [= <-] Hd. destruct (bget d _) as [svd|] eqn:Hds; [|by intros []].
  destruct (bcontains d needed) eqn:Hdn; [|by intros []]. intros _.
  destruct (Hord s svc' d Hs Hd) as (l1 & l2 & -> & Hin); [by eexists|].
  exists (List.filter (fun name => bcontains name needed) l1),
    (List.filter (fun name => bcontains name needed) l2).
  rewrite List.filter_app. simpl. rewrite Hsn. split; [done|]. by apply filter_elem.
Qed.

Lemma plan_is_ordered cfg stack only plan :
  config_wf cfg -> stack_plan_filtered cfg stack only = Ok plan -> plan_ordered plan.
Proof.
  intros [_ Hwf] Hplan. unfold stack_plan_filtered, stack_plan in Hplan. outcome_simpl.
  match goal with H : bget stack _ = Some ?st |- _ =>
    rename st into c; apply bget_Some_in in H; specialize (Hwf _ _ H) end.
  match goal with H : topo_sort _ = Ok ?o |- _ =>
    rename o into order; destruct (topo_sort_order _ _ Hwf H) as [Hperm Hord] end.
  assert (plan_ordered (mkStackPlan stack (st_services c) order)) as Hfull.
  { split; simpl; [rewrite Hperm; by apply bwf_NoDup_keys|]. intros s svc d Hs Hd Hin%bget_keys.
    by eapply Hord. }
  case_bool_decide; [|by apply (filter_ordered (mkStackPlan stack (st_services c) order) only)].
  match goal with H : mret _ = _ |- _ => by injection H as <- end.
Qed.

Lemma nodup_split (l1 l2 k1 k2 : list string) x :
  NoDup (l1 ++ x :: l2) -> l1 ++ x :: l2 = k1 ++ x :: k2 -> l1 = k1.
Proof.
  revert k1. induction l1 as [|y l1 IH]; intros [|z k1]; simpl; intros Hnd ?; simplify_eq; [done|..].
  - apply NoDup_cons in Hnd as [Hx _]. destruct Hx. set_solver.
  - apply NoDup_cons in Hnd as [Hx _]. destruct Hx. set_solver.
  - apply NoDup_cons in Hnd as [_ Hnd]. f_equal. by apply IH.
Qed.


(** ** A concrete launch *)

#[local] Existing Instance concrete_json.
#[local] Existing Instance sample_codec.

Definition launch_config : ConfigFile :=
  mkConfigFile 1 [("dev", mkStackConfig [("db", bare_service []); ("web", bare_service ["db"])])]
    (Some "dev") None None [] None.

Definition launch_plan : StackPlan :=
  mkStackPlan "dev" [("db", bare_service []); ("web", bare_service ["db"])] ["db"; "web"].

Definition launch_world : World :=
  mkWorld (fun _ => Err "no file") (fun _ => false) (fun _ => false) Some (fun _ => Ok [])
    (fun _ => Ok []) (fun _ => None)
    (fun _ _ _ _ _ => Ok "hash").

Definition launch_daemon : Daemon :=
  mkDaemon [("r1", RunRecord_new "t0" "r1" "dev" "/p" "/p" [])] Flags_empty.

(** Everything works, but the service that is waited for last is not ready. *)
Definition launch_answer (R : Type) (e : Effect R) : R :=
  match e in Effect R return R with
  | Look f => f launch_daemon
  | Act _ f => f launch_daemon
  | Globals f => (f ([], Flags_empty)).1
  | Registry m => (m ("", 0)).1
  | UnitState _ => Ok None
  | WaitReady _ c => if bool_decide (rc_unit_name c = Some "devstack-run-R1-WEB.service")
                     then Err "timed out" else Ok tt
  | ReadText _ => Ok ""
  | RandomSuffix => ""
  | See => launch_world
  | Now => "t1"
  | EmitGlobal _ _ | SpawnMonitor _ _ | SpawnReadiness _ _ _ _ _ _ | SpawnGlobal _ _ _ | Sleep _ => tt
  | _ => Ok tt
  end.

Definition launch_resources : LaunchResources := mkLaunchResources "/p" [] [] [] [] [] [] None.

Definition launch_twice : command unit :=
  launch_services (fun t _ => Ok t) None (fun _ => "readiness") (Ok "/data") id "/devstack"
    (fun _ => sample_kernel) (fun _ => 5) "r1" launch_plan "/p" launch_resources false false [].

