(* ===== verification/Commands.v ===== *)
(** * The commands on runs and globals

    Models [src/app/commands/runs.rs] (up, refresh, down, kill),
    [ensure_globals.rs] and [restart.rs] as programs over the effects of
    [Launch]: what they read, reserve, start, stop, record and write, in the
    order of the code, with every early return. *)

From S2P Require Import Prelude Bytes BMap Util Json.
From S2P Require Import ConfigModel ConfigPlan ConfigValidate Port RunModel Lifecycle.
From S2P Require Import LaunchEnv LaunchPorts PortSync Manifest Restore Systemd Program Launch.
From Stdlib Require Import Lia ZArith.

(** [UpRequest] *)
Record UpRequest := mkUpRequest {
  up_stack : string;
  up_project_dir : string;
  up_run_id : option string;
  up_file : option string;
  up_no_wait : bool;
  up_new_run : bool;
  up_force : bool;
  up_services : list string;
}.

Record ServiceResponse := mkServiceResponse {
  sp_port : option Z;
  sp_url : option string;
  sp_capture_api : bool;
  sp_capture_api_body_limit : Z;
  sp_capture_api_ignore : list string;
  sp_state : ServiceState;
  sp_last_failure : option string;
}.

Record RunResponse := mkRunResponse {
  rp_run_id : string;
  rp_project_dir : string;
  rp_stack : string;
  rp_manifest_path : string;
  rp_services : bmap string ServiceResponse;
  rp_env : bmap string string;
  rp_state : RunLifecycle;
  rp_created_at : string;
  rp_stopped_at : option string;
}.

Definition service_response (service : ServiceRecord) : ServiceResponse :=
  let l := sv_launch service in
  mkServiceResponse (sl_port l) (sl_url l) (sl_capture_api l) (sl_capture_api_body_limit l)
    (sl_capture_api_ignore l) (sr_state (sv_runtime service)) (sr_last_failure (sv_runtime service)).

Section commands.
Context `{JsonFile}.
Context (render_template : string -> Value -> outcome string) (home : option string).
Context (debug_readiness : ReadinessSpec -> string) (debug : string -> string).
Context (base_dir : outcome string) (blake3_hex : string -> string).
Context (binary_path : string).
Context (parse_yaml parse_toml : bytes -> outcome ConfigFile).
Context `{RegistryCodec} (kernel : nat -> Kernel) (fuel : nat -> nat).

#[local] Abbreviation launch_services :=
  (launch_services render_template home debug_readiness base_dir blake3_hex binary_path kernel fuel).
#[local] Abbreviation persist_manifest := (persist_manifest base_dir).
#[local] Abbreviation release_unpreserved := (release_unpreserved_stack_ports kernel fuel).

Definition run_response_from_record (run : RunRecord) : outcome RunResponse :=
  match run_manifest_path base_dir (rr_run_id run) with
  | Ok manifest_path =>
      Ok (mkRunResponse (rr_run_id run) (to_string_lossy (rr_project_dir run)) (rr_stack run)
            (to_string_lossy manifest_path) (bmap_values (fun _ => service_response) (rr_services run))
            (rr_base_env run) (rr_state run) (rr_created_at run) (rr_stopped_at run))
  | _ => Panic
  end.

Definition response_of (run_id : string) (d : Daemon) : outcome RunResponse :=
  r ← with_run run_id run_response_from_record (dm_runs d); r.

Definition run_response (run_id : string) : command RunResponse := try_trigger (Look (response_of run_id)).

(** The registry of ports, by a computation that logs its errors. *)
Definition registry (m : PortM unit) : command unit := try_trigger (Registry m).

Definition load_config_at (w : World) (path : string) : outcome ConfigFile :=
  load_from_path debug parse_yaml parse_toml (fun p => to_bytes <$> w_read w p) path.

(** ** Globals *)

Definition load_global_at (w : World) (path : string) : option PersistedGlobal :=
  if w_exists w path
  then ok (load_global_manifest debug (w_exists w) (w_is_file w) blake3_hex (w_read w) path)
  else None.

Definition resolve_global_port (name : string) (service : ServiceConfig) (owner : string)
    (existing : option PersistedGlobal) (active_existing : bool) : PortM (option Z) :=
  let reuse_port := manifest ← existing; pv_port (pg_service manifest) in
  match sc_port service with
  | Some (PortNone _) => mret None
  | Some (PortFixed value) =>
      _ ← (if active_existing && bool_decide (reuse_port = Some value)
           then reserve kernel fuel value owner else reserve_available kernel fuel value owner);
      mret (Some value)
  | None =>
      match reuse_port with
      | Some port => _ ← reserve kernel fuel port owner; mret (Some port)
      | None =>
          allocated ← allocate kernel fuel [(name, service)] (fun _ => owner);
          mret (default None (bget name allocated))
      end
  end.

Definition prepare_global_service (w : World) (key name : string) (service_config : ServiceConfig)
    (project_dir config_dir : string) (port : option Z) : outcome PreparedService :=
  let scope := ScopeGlobal key project_dir name in
  let ports := [(name, port)] in
  let schemes := [(name, scheme service_config)] in
  base_env ← build_base_env scope project_dir ports ports schemes;
  prepare_service render_template home (w_exists w) (w_from_path_iter w) (w_var w) debug_readiness
    (w_compute_watch_hash w) base_dir blake3_hex scope project_dir config_dir name service_config
    ports ports schemes base_env [] None.

Definition build_global_record (key name project_dir config_path : string)
    (service_config : ServiceConfig) (tasks_map : bmap string TaskConfig) (prepared : PreparedService)
    (state : ServiceState) (last_failure last_started_at : option string) (watch_paused : bool)
    (lifecycle : RunLifecycle) (created_at : string) (stopped_at : option string) : GlobalRecord :=
  let service := into_service_record prepared state last_failure last_started_at in
  mkGlobalRecord key name project_dir config_path service_config tasks_map
    (put_watch_paused service watch_paused) lifecycle created_at stopped_at.

Definition put_global_service (g : GlobalRecord) (service : ServiceRecord) : GlobalRecord :=
  mkGlobalRecord (gr_key g) (gr_name g) (gr_project_dir g) (gr_config_path g) (gr_service_config g)
    (gr_tasks_map g) service (gr_state g) (gr_created_at g) (gr_stopped_at g).

Definition put_global_state (g : GlobalRecord) (state : RunLifecycle) : GlobalRecord :=
  mkGlobalRecord (gr_key g) (gr_name g) (gr_project_dir g) (gr_config_path g) (gr_service_config g)
    (gr_tasks_map g) (gr_service g) state (gr_created_at g) (gr_stopped_at g).

(** [with_global_mut] *)
Definition with_global_mut {R} (key : string) (f : GlobalRecord -> Flags -> GlobalRecord * Flags * R)
    (g : GlobalState) : outcome R * GlobalState :=
  match bget key g.1 with
  | Some record =>
      let '(record, fl, r) := f record g.2 in (Ok r, (binsert key record g.1, fl))
  | None => (Err ("global " +:+ key +:+ " not found"), g)
  end.

Definition persist_global_manifest (key : string) : command unit :=
  '(manifest, path) ← try_trigger (Globals (fun g =>
     (match bget key g.1 with
      | Some global =>
          match global_manifest_path base_dir blake3_hex (gr_project_dir global) (gr_name global) with
          | Ok path => Ok (persisted_global_from_record global path, path)
          | _ => Panic
          end
      | None => Err ("global " +:+ key +:+ " not found")
      end, g)));
  try_trigger (WriteGlobal path manifest).

(** The two sections of [sync_global_auto_restart_watcher]. *)
Definition sync_global_begin (key : string) : GlobalState -> outcome (option bool) * GlobalState :=
  with_global_mut key (fun global fl =>
    let record := gr_service global in
    if negb (ss_auto_restart (sv_spec record))
       || bool_decide (sr_last_started_at (sv_runtime record) = None)
    then let '(record, fl) := stop_watch record fl in (put_global_service global record, fl, None)
    else match sh_watch (sv_handles record) with
         | Some h => (global, store_paused h (sr_watch_paused (sv_runtime record)) fl, None)
         | None => (global, fl, Some (sr_watch_paused (sv_runtime record)))
         end).

Definition sync_global_commit (key : string) (paused : bool) (g : GlobalState) : unit * GlobalState :=
  let '(h, fl) := ServiceWatchHandle_new paused g.2 in
  let '(kept, g) :=
    with_global_mut key (fun global fl =>
      let record := gr_service global in
      let hs := sv_handles record in
      if ss_auto_restart (sv_spec record)
         && negb (bool_decide (sr_last_started_at (sv_runtime record) = None))
         && bool_decide (sh_watch hs = None)
      then (put_global_service global
              (set_handles record (mkServiceHandles (sh_health hs) (Some h) (sh_api_capture hs))),
            store_paused h (sr_watch_paused (sv_runtime record)) fl, true)
      else (global, fl, false)) (g.1, fl) in
  (tt, if default false (ok kept) then g else (g.1, stop_handle h g.2)).

Definition sync_global_auto_restart_watcher (key : string) : command unit :=
  start_args ← trigger (Globals (sync_global_begin key));
  match start_args with
  | Ok (Some paused) =>
      _ ← try_trigger (StartWatcher key key); trigger (Globals (sync_global_commit key paused))
  | _ => mret tt
  end.

Definition store_global (record : GlobalRecord) : command unit :=
  _ ← trigger (Globals (fun g => (tt, upsert_global record g.1 g.2)));
  _ ← persist_global_manifest (gr_key record);
  sync_global_auto_restart_watcher (gr_key record).

(** How a global is started: the failure, if it fails. *)
Definition start_global (scope : InstanceScope) (name project_dir : string)
    (service_config : ServiceConfig) (tasks_map : bmap string TaskConfig) (prepared : PreparedService)
    : command (option string) :=
  started ← attempt (start_prepared_service binary_path scope prepared false);
  match started with
  | Err _ => mret (Some ("start global service '" +:+ name +:+ "'"))
  | _ =>
      ready ← attempt (wait_for_prepared_service base_dir blake3_hex name prepared
                 (build_post_init_context service_config tasks_map project_dir None
                    (ps_env prepared) None));
      mret (match ready with
            | Err _ => Some ("launch global service '" +:+ name +:+ "'")
            | _ => None
            end)
  end.

(** [unwrap_or_else(now_rfc3339)] *)
Definition now_unless (time : option string) : command string :=
  match time with Some time => mret time | None => trigger Now end.

(** One global of [ensure_globals]. *)
Definition ensure_global (tasks_map : bmap string TaskConfig) (project_dir config_path config_dir : string)
    (ports : PortMap) (entry : string * ServiceConfig) : command PortMap :=
  let '(name, service_config) := entry in
  dir ← Ret (global_dir base_dir blake3_hex project_dir name);
  _ ← try_trigger (CreateDirs dir);
  logs_dir ← Ret (global_logs_dir base_dir blake3_hex project_dir name);
  _ ← try_trigger (CreateDirs logs_dir);
  key ← Ret (global_key blake3_hex project_dir name);
  let scope := ScopeGlobal key project_dir name in
  let unit_name := unit_name_for_scope scope name in
  manifest_path ← Ret (global_manifest_path base_dir blake3_hex project_dir name);
  w ← trigger See;
  let existing := load_global_at w manifest_path in
  status ← trigger (UnitState unit_name);
  let active_existing :=
    match status with
    | Ok (Some status) => bool_decide (us_active_state status = "active")
    | _ => false
    end in
  port ← try_trigger (Registry
    (resolve_global_port name service_config (global_port_owner key name) existing active_existing));
  prepared ← Ret (prepare_global_service w key name service_config project_dir config_dir port);
  created_at ← now_unless (pg_created_at <$> existing);
  let previous_state := pg_state <$> existing in
  if active_existing then
    started_at ← now_unless (manifest ← existing; pv_last_started_at (pg_service manifest));
    _ ← store_global (build_global_record key name project_dir config_path service_config tasks_map
          prepared Ready None (Some started_at)
          (default false ((fun m => pv_watch_paused (pg_service m)) <$> existing)) RunRunning
          created_at None);
    _ ← (if bool_decide (previous_state = Some RunRunning) then mret tt
         else trigger (EmitGlobal key RunRunning));
    mret (binsert name (ps_port prepared) ports)
  else
    now ← trigger Now;
    failure ← start_global scope name project_dir service_config tasks_map prepared;
    let '(state, lifecycle, started_at) :=
      match failure with
      | None => (Ready, RunRunning, Some now)
      | Some _ => (Failed, RunDegraded, None)
      end in
    _ ← store_global (build_global_record key name project_dir config_path service_config tasks_map
          prepared state failure started_at false lifecycle created_at None);
    stored ← trigger (Globals (fun g => (bget key g.1, g)));
    global ← Ret (unwrap stored);
    _ ← (if bool_decide (previous_state = Some (gr_state global)) then mret tt
         else trigger (EmitGlobal key (gr_state global)));
    match failure with
    | Some failure => Ret (Err failure)
    | None => mret (binsert name (ps_port prepared) ports)
    end.

Definition ensure_globals (globals : bmap string ServiceConfig) (tasks_map : bmap string TaskConfig)
    (project_dir config_path config_dir : string) : command PortMap :=
  pfold (ensure_global tasks_map project_dir config_path config_dir) globals [].

(** ** What a launch needs *)

Definition sync_ports : command unit :=
  w ← trigger See;
  registry (sync_port_reservations_from_disk kernel fuel (w_exists w) base_dir (w_read_dir w)
    (load_run_manifest debug (w_read w))
    (load_global_manifest debug (w_exists w) (w_is_file w) blake3_hex (w_read w))).

Definition load_requested_stack (request : UpRequest) (project_dir : string) (w : World)
    : outcome (string * ConfigFile * StackPlan * string) :=
  let config_path := default (default_path (w_exists w) project_dir) (up_file request) in
  config ← load_config_at w config_path;
  stack_plan ← stack_plan_filtered config (up_stack request) (up_services request);
  let config_dir := default project_dir (parent config_path) in
  Ok (config_path, config, stack_plan, config_dir).

Definition initialize_new_run_layout (run_id config_path : string) : command unit :=
  base ← Ret base_dir;
  _ ← try_trigger (CreateDirs base);
  run_dir ← Ret (run_dir base_dir run_id);
  logs_dir ← Ret (run_logs_dir base_dir run_id);
  _ ← try_trigger (CreateDirs logs_dir);
  _ ← try_trigger (CreateDirs run_dir);
  snapshot_path ← Ret (run_snapshot_path base_dir run_id);
  _ ← try_trigger (CopyFile config_path snapshot_path);
  sync_ports.

(** [port_map.entry(name).or_insert(port)] for the ports of the globals, and the
    listening ports of the globals. *)
Definition add_listen_ports (globals : bmap string ServiceConfig) (port_map listen_port_map : PortMap)
    : PortMap :=
  foldl (fun listen name =>
    match bget name port_map with
    | Some port => if bcontains name listen then listen else binsert name port listen
    | None => listen
    end) listen_port_map (bkeys globals).

(** The common part of [build_new_launch_resources] and
    [build_refresh_launch_resources], after the public ports. [existing] and
    [reuse_ports] are those of the refresh; [preserved] is what a failure leaves. *)
Definition build_resources (run_id : string) (stack_plan : StackPlan) (config : ConfigFile)
    (project_dir config_path config_dir : string) (existing : Existing) (reuse_ports : bool)
    (preserved : Existing) (port_map : PortMap) : command LaunchResources :=
  let services := bkeys (sp_services stack_plan) in
  let tasks_map := build_tasks_map config in
  let globals := globals_map config in
  ensured ← attempt (ensure_globals globals tasks_map project_dir config_path config_dir);
  match ensured with
  | Ok global_ports =>
      let service_schemes := build_service_schemes stack_plan globals in
      let port_map := add_global_ports global_ports port_map in
      listen ← try_trigger (Registry
        (resolve_listen_ports_for_launch kernel fuel run_id existing reuse_ports
           (sp_services stack_plan) port_map));
      let listen_port_map := add_listen_ports globals port_map listen in
      let scope := ScopeRun run_id (sp_name stack_plan) in
      match build_base_env scope project_dir port_map listen_port_map service_schemes with
      | Ok base_env =>
          mret (mkLaunchResources config_dir tasks_map port_map listen_port_map service_schemes
                  base_env (cf_env config) (resolve_global_env_file_path config config_dir))
      | o =>
          _ ← registry (release_unpreserved run_id services port_map listen_port_map preserved);
          Ret (_ ← o; Panic)
      end
  | o =>
      _ ← registry (release_unpreserved run_id services port_map [] preserved);
      Ret (_ ← o; Panic)
  end.

Definition build_new_launch_resources (run_id : string) (stack_plan : StackPlan)
    (config : ConfigFile) (project_dir config_path config_dir : string) : command LaunchResources :=
  _ ← sync_ports;
  port_map ← try_trigger (Registry
    (allocate kernel fuel (sp_services stack_plan) (port_owner run_id)));
  build_resources run_id stack_plan config project_dir config_path config_dir [] false [] port_map.

Definition build_refresh_launch_resources (run_id : string) (stack_plan : StackPlan)
    (config : ConfigFile) (project_dir config_path : string) (existing : Existing)
    (reuse_ports : bool) : command LaunchResources :=
  _ ← sync_ports;
  port_map ← try_trigger (Registry
    (resolve_ports_for_refresh kernel fuel run_id existing reuse_ports (sp_services stack_plan)));
  let config_dir := default project_dir (parent config_path) in
  build_resources run_id stack_plan config project_dir config_path config_dir existing reuse_ports
    (if reuse_ports then existing else []) port_map.

(** [release_unrecorded_stack_ports] *)
Definition release_unrecorded (run_id : string) (stack_plan : StackPlan)
    (resources : LaunchResources) : command unit :=
  recorded ← trigger (Look (fun d => default [] (ok (with_run run_id snapshots (dm_runs d)))));
  registry (release_unpreserved run_id (bkeys (sp_services stack_plan)) (lr_port_map resources)
              (lr_listen_port_map resources) recorded).

(** ** Up and refresh *)

Definition finalize_launch (run_id : string) : command RunResponse :=
  _ ← act (ActFinalize run_id) (finalize_run_launch run_id);
  _ ← persist_manifest run_id;
  run_response run_id.

Definition launch_or_release (run_id : string) (stack_plan : StackPlan) (project_dir : string)
    (resources : LaunchResources) (no_wait force : bool) (existing : Existing) : command RunResponse :=
  launched ← attempt (launch_services run_id stack_plan project_dir resources no_wait force existing);
  match launched with
  | Err err => _ ← release_unrecorded run_id stack_plan resources; Ret (Err err)
  | _ => finalize_launch run_id
  end.

(** The ports of the services that left the stack. *)
Definition release_removed (run_id : string) (existing : Existing) (service_name : string)
    : command unit :=
  let public_port := snapshot ← bget service_name existing; es_port snapshot in
  let listen_port := snapshot ← bget service_name existing; es_listen_port snapshot in
  _ ← release_backend kernel fuel run_id service_name listen_port public_port;
  release_public kernel fuel run_id service_name public_port.

Definition remove_missing (run_id : string) (removed : list string) (existing : Existing)
    : command unit :=
  if bool_decide (removed = []) then mret tt else
  _ ← pforeach (fun service_name =>
        ignore (try_trigger (StopUnit (unit_name_for_run run_id service_name)))) removed;
  _ ← act (ActRemoveMissing run_id removed) (remove_services_missing_from_stack run_id removed);
  pforeach (release_removed run_id existing) removed.

(** What [refresh_run] reads of the run: the services, those that left the stack, and
    whether the run is not stopped. *)
Definition refresh_view (run_id : string) (stack_plan : StackPlan) (d : Daemon)
    : outcome (Existing * list string * bool) :=
  with_run run_id (fun run =>
    (snapshots run, removed_services run stack_plan, bool_decide (rr_stopped_at run = None)))
    (dm_runs d).

Definition refresh_run (run_id : string) (config : ConfigFile) (stack_plan : StackPlan)
    (project_dir config_path : string) (no_wait force : bool) : command RunResponse :=
  '(existing, removed, reuse_ports) ←
    on_error (fun _ => "run " +:+ run_id +:+ " not found")
      (try_trigger (Look (refresh_view run_id stack_plan)));
  _ ← remove_missing run_id removed existing;
  resources ← build_refresh_launch_resources run_id stack_plan config project_dir config_path
    existing reuse_ports;
  _ ← act (ActUpdateResources run_id (lr_base_env resources))
        (update_run_launch_resources run_id (lr_base_env resources));
  snapshot_path ← Ret (run_snapshot_path base_dir run_id);
  _ ← trigger (CopyFile config_path snapshot_path);
  launch_or_release run_id stack_plan project_dir resources no_wait force existing.

(** [same_project_dir] *)
Definition same_dir (canonicalize : string -> option string) (a b : string) : bool :=
  bool_decide (a = b)
  || bool_decide (default a (canonicalize a) = default b (canonicalize b)).

(** The latest of the runs that [keep] holds of: the first of those with the greatest
    time of creation. *)
Definition latest_run (keep : RunRecord -> bool) (runs : RunMap) : option string :=
  rr_run_id <$> foldl (fun best run =>
    if negb (keep run) then best else
    match best with
    | Some b => match kcmp (rr_created_at b) (rr_created_at run) with Lt => Some run | _ => best end
    | None => Some run
    end) None (bvalues runs).

Definition find_latest_run_for_project_stack (w : World) (project_dir stack : string) (d : Daemon)
    : option string :=
  latest_run (fun run =>
    bool_decide (rr_stack run = stack) && same_dir (w_canonicalize w) (rr_project_dir run) project_dir
    && negb (bool_decide (rr_state run = RunStopped)) && bool_decide (rr_stopped_at run = None))
    (dm_runs d).

Definition create_record (run_id : string) (stack_plan : StackPlan) (project_dir : string)
    (resources : LaunchResources) : command unit :=
  now ← trigger Now;
  _ ← act (ActCreateRun now run_id (sp_name stack_plan) project_dir (lr_config_dir resources)
             (lr_base_env resources))
        (create_run_record now run_id (sp_name stack_plan) project_dir (lr_config_dir resources)
           (lr_base_env resources));
  mret tt.

Definition up (request : UpRequest) : command RunResponse :=
  let project_dir := up_project_dir request in
  _ ← trigger (TouchProject project_dir);
  w ← trigger See;
  '(config_path, config, stack_plan, config_dir) ← Ret (load_requested_stack request project_dir w);
  existing ← (if negb (up_new_run request) && bool_decide (up_run_id request = None)
              then trigger (Look (find_latest_run_for_project_stack w project_dir (up_stack request)))
              else mret None);
  match existing with
  | Some existing =>
      refresh_run existing config stack_plan project_dir config_path (up_no_wait request)
        (up_force request)
  | None =>
      run_id ← (match up_run_id request with
                | Some run_id => mret run_id
                | None => suffix ← trigger RandomSuffix; mret (up_stack request +:+ "-" +:+ suffix)
                end);
      _ ← initialize_new_run_layout run_id config_path;
      resources ← build_new_launch_resources run_id stack_plan config project_dir config_path
        config_dir;
      _ ← create_record run_id stack_plan project_dir resources;
      launch_or_release run_id stack_plan project_dir resources (up_no_wait request) false []
  end.

(** ** Down and kill *)

(** The services of a run with their public and listening ports. *)
Definition run_ports (run_id : string) (d : Daemon) : outcome (list (string * option Z * option Z)) :=
  with_run run_id (fun run =>
    map (fun e => (e.1, sl_port (sv_launch e.2), sl_listen_port (sv_launch e.2))) (rr_services run))
    (dm_runs d).

Definition release_stopped (run_id : string) (service : string * option Z * option Z) : command unit :=
  let '(name, port, listen_port) := service in
  _ ← release_backend kernel fuel run_id name listen_port port;
  release_public kernel fuel run_id name port.

(** [down] and [kill] up to the manifest; [stop] is what is done to each unit. *)
Definition stop_run (stop : string -> command unit) (run_id : string) : command RunResponse :=
  _ ← trigger (Act (ActStopHandles run_id) (fun d => (stop_service_handles run_id d).1));
  services ← on_error (fun _ => "run " +:+ run_id +:+ " not found")
    (try_trigger (Look (run_ports run_id)));
  _ ← pforeach (fun service => stop (unit_name_for_run run_id service.1.1)) services;
  _ ← pforeach (release_stopped run_id) services;
  now ← trigger Now;
  _ ← act (ActDown now run_id) (down_commit now run_id);
  _ ← persist_manifest run_id;
  run_response run_id.

Definition stop_one (unit_name : string) : command unit := ignore (try_trigger (StopUnit unit_name)).

Definition kill_one (unit_name : string) : command unit :=
  _ ← ignore (try_trigger (KillUnit unit_name 9)); stop_one unit_name.

Definition down (run_id : string) (purge : bool) : command RunResponse :=
  response ← stop_run stop_one run_id;
  if negb purge then mret response else
  run_dir ← Ret (run_dir base_dir run_id);
  _ ← trigger (RemoveDir run_dir);
  _ ← trigger (Act (ActPurge run_id) (fun _ => tt));
  _ ← trigger (DeleteLogs run_id);
  _ ← ignore write_daemon_state;
  mret response.

Definition kill (run_id : string) : command RunResponse := stop_run kill_one run_id.

(** ** Restarts *)

(** [load_post_init_context_for_run_service] *)
Definition load_post_init_context (w : World) (run_id stack project_dir service : string)
    (service_env : bmap string string) (service_log : option ServiceLogSink)
    : outcome (option PostInitContext) :=
  snapshot_path ← run_snapshot_path base_dir run_id;
  if negb (w_exists w snapshot_path) then Ok None else
  config ← load_config_at w snapshot_path;
  service_config ←
    (if bool_decide (stack = "globals") then Ok (bget service (globals_map config))
     else plan ← stack_plan config stack; Ok (bget service (sp_services plan)));
  Ok (service_config ← service_config;
      build_post_init_context service_config
        (resolve_service_tasks service_config (build_tasks_map config)) project_dir (Some run_id)
        service_env service_log).

(** What a restart waits for. *)
Definition restart_context (l : ServiceLaunchPlan) : ReadinessContext :=
  mkReadinessContext (sl_listen_port l) (sl_scheme l) (sl_log_path l) (sl_cwd l) (sl_env l)
    (Some (sl_unit_name l)).

Definition restart_service (run_id service : string) (no_wait : bool) : command RunResponse :=
  now ← trigger Now;
  '(snapshot, _) ← on_error (fun _ => "run " +:+ run_id +:+ " not found")
    (act (ActRestartBegin now run_id service) (restart_begin now run_id service));
  snapshot ← Ret (ok_or snapshot ("service " +:+ service +:+ " not found"));
  let l := rsn_launch snapshot in
  let context := restart_context l in
  w ← trigger See;
  post_init ← Ret (load_post_init_context w run_id (rsn_stack snapshot) (rsn_project_dir snapshot)
    service (sl_env l) (Some (mkServiceLogSink (sl_log_path l) "post_init")));
  _ ← try_trigger (RestartUnit (sl_unit_name l));
  started ← trigger Now;
  _ ← ignore (act (ActRestartStarted started run_id service) (restart_started started run_id service));
  let answer := _ ← persist_manifest run_id; run_response run_id in
  if no_wait
  then _ ← trigger (SpawnReadiness run_id service (sl_unit_name l) (rsn_readiness snapshot)
                      context post_init);
       answer
  else
    ready ← attempt (try_trigger (WaitReady (rsn_readiness snapshot) context));
    match ready with
    | Err message =>
        _ ← mark_service_failed_now run_id service message;
        _ ← ignore (persist_manifest run_id);
        Ret (Err message)
    | _ =>
        tasks ← (match post_init with
                 | Some tasks => attempt (run_post_init_tasks_blocking base_dir blake3_hex tasks)
                 | None => mret (Ok tt)
                 end);
        match tasks with
        | Err err =>
            let reason := "post_init task failed: " +:+ err in
            _ ← mark_service_failed_now run_id service reason;
            _ ← ignore (persist_manifest run_id);
            Ret (Err reason)
        | _ => _ ← mark_service_ready_now run_id service; answer
        end
    end.

(** A [PreparedService] from the record of a global. *)
Definition prepared_service_from_global (g : GlobalRecord) : PreparedService :=
  let s := sv_spec (gr_service g) in
  let l := sv_launch (gr_service g) in
  mkPreparedService (ss_name s) (sl_unit_name l) (sl_port l) (sl_listen_port l) (sl_scheme l)
    (sl_url l) (sl_capture_api l) (sl_capture_api_body_limit l) (sl_capture_api_ignore l) (ss_deps s)
    (ss_readiness s) (sl_log_path l) (sl_cwd l) (sl_env l) (sl_cmd l) (sl_watch_hash l)
    (ss_watch_patterns s) (ss_ignore_patterns s) (sl_watch_extra_files l) (sl_watch_fingerprint l)
    (ss_auto_restart s).

Definition restart_global_begin (now key : string)
    : GlobalState -> outcome GlobalRecord * GlobalState :=
  with_global_mut key (fun global fl =>
    let record := put_last_failure (put_state (gr_service global) Starting) None in
    let global := put_global_state (put_global_service global (put_last_started_at record (Some now)))
                    RunStarting in
    (global, fl, global)).

Definition restart_global_end (key : string) (result : outcome unit)
    : GlobalState -> outcome unit * GlobalState :=
  with_global_mut key (fun global fl =>
    let '(state, failure, lifecycle) :=
      match result with
      | Err err => (Failed, Some err, RunDegraded)
      | _ => (Ready, None, RunRunning)
      end in
    (put_global_state
       (put_global_service global (put_last_failure (put_state (gr_service global) state) failure))
       lifecycle, fl, tt)).

Definition restart_global_no_wait (key : string) : command unit :=
  now ← trigger Now;
  global ← try_trigger (Globals (restart_global_begin now key));
  let prepared := prepared_service_from_global global in
  _ ← persist_global_manifest key;
  _ ← trigger (EmitGlobal key RunStarting);
  _ ← try_trigger (RestartUnit (sl_unit_name (sv_launch (gr_service global))));
  trigger (SpawnGlobal key prepared
    (build_post_init_context (gr_service_config global) (gr_tasks_map global) (gr_project_dir global)
       None (ps_env prepared) None)).

(** The task it spawns. *)
Definition global_readiness_task (key : string) (prepared : PreparedService)
    (post_init : option PostInitContext) : command unit :=
  result ← attempt (wait_for_prepared_service base_dir blake3_hex (ps_name prepared) prepared post_init);
  _ ← trigger (Globals (restart_global_end key result));
  _ ← ignore (persist_global_manifest key);
  stored ← trigger (Globals (fun g => (bget key g.1, g)));
  match stored with
  | Some global => trigger (EmitGlobal key (gr_state global))
  | None => mret tt
  end.
End commands.
