(* ===== verification/StopRun.v ===== *)
(** * Stopping a run

    What [down] and [kill] of [Commands] do to the records, the units and the ports
    of a run when no other task of the daemon interferes. *)

From S2P Require Import Prelude Bytes BMap Util Json.
From S2P Require Import ConfigModel Port RunModel Lifecycle LifecycleInv.
From S2P Require Import LaunchEnv LaunchPorts Manifest Restore Systemd Program Launch Commands.
From Stdlib Require Import Lia ZArith.

(** ** The daemon and its registry *)

Record Host := mkHost { ho_daemon : Daemon; ho_ports : PortState }.

(** What is under a lock is read and changed as it is; the registry is the file of
    ports; anything else may answer anything. *)
Definition host_step (R : Type) (e : Effect R) (s : Host) (r : R) (s' : Host) : Prop :=
  match e in Effect R return R -> Prop with
  | Look f => fun r => r = f (ho_daemon s) /\ s' = s
  | Act a f => fun r =>
      r = f (ho_daemon s) /\ s' = mkHost (perform a (ho_daemon s)).1 (ho_ports s)
  | Registry m => fun r => r = (m (ho_ports s)).1 /\ s' = mkHost (ho_daemon s) (m (ho_ports s)).2
  | _ => fun _ => s' = s
  end r.

(** What the service manager is asked for, whatever it answers, and what a purge deletes. *)
Inductive StopCall := Killed (unit_name : string) (signal : Z) | Stopped_ (unit_name : string)
  | DirRemoved (dir : string) | LogsDeleted (run_id : string).

Definition stopped_unit (ev : event Effect) : option StopCall :=
  match ev with
  | Ev e r => match e in Effect R return R -> option StopCall with
              | StopUnit u => fun _ => Some (Stopped_ u)
              | KillUnit u signal => fun _ => Some (Killed u signal)
              | RemoveDir dir => fun _ => Some (DirRemoved dir)
              | DeleteLogs run_id => fun _ => Some (LogsDeleted run_id)
              | _ => fun _ => None
              end r
  end.

(** ** The sections *)

Definition unhandled (r : ServiceRecord) : ServiceRecord := set_handles r ServiceHandles_default.

Lemma update_all_unhandled services fl :
  (update_all stop_all_handles services fl).1 = bmap_values (fun _ => unhandled) services.
Proof.
  revert fl. induction services as [|[name r] services IH]; intros fl; [done|].
  cbn [update_all]. destruct (stop_all_handles r fl) as [r' fl'] eqn:E.
  assert (r' = unhandled r) as -> by (by injection E as <- _).
  specialize (IH fl'). destruct (update_all stop_all_handles services fl') as [services' fl2].
  simpl in *. by rewrite IH.
Qed.

Lemma stop_opt_stops h fl i : h = Some i \/ i ∈ fl_stopped fl -> i ∈ fl_stopped (stop_opt h fl).
Proof. destruct h as [j|]; simpl; [|naive_solver]. intros [[= ->]|Hi]; set_solver. Qed.

(** The flag of each of the tasks is set, and none is reset. *)
Lemma update_all_stops services fl h :
  h ∈ flat_map (fun e => handles_of e.2) services \/ h ∈ fl_stopped fl ->
  h ∈ fl_stopped (update_all stop_all_handles services fl).2.
Proof.
  revert fl. induction services as [|[name r] services IH]; intros fl; [set_solver|].
  cbn [flat_map update_all]. intros Hh. destruct (stop_all_handles r fl) as [r' fl'] eqn:E.
  assert (h ∈ flat_map (fun e => handles_of e.2) services \/ h ∈ fl_stopped fl') as Hh'.
  { cut (h ∈ handles_of r \/ h ∈ fl_stopped fl -> h ∈ fl_stopped fl'); [set_solver|]. clear Hh.
    unfold stop_all_handles in E. simpl in E. injection E as _ <-. intros Hh.
    unfold handles_of in Hh. destruct (sv_handles r) as [[i|] [j|] [k|]]; simpl in *; set_solver. }
  specialize (IH fl' Hh'). by destruct (update_all stop_all_handles services fl').
Qed.

(** The run without its background tasks. *)
Definition unhandled_run (run : RunRecord) : RunRecord :=
  put_services run (bmap_values (fun _ => unhandled) (rr_services run)).

(** The run [down] leaves. *)
Definition stopped_run (now run_id : string) (run : RunRecord) : RunRecord :=
  put_services (put_stopped_at (put_run_state run RunStopped) (Some now))
    (stop_services now run_id (rr_services run)).1.

Lemma update_run_get {R} run_id (f : RunRecord -> Flags -> RunRecord * Flags * R) d run :
  get_run run_id (dm_runs d) = Some run ->
  update_run run_id f d =
    (Ok (f run (dm_flags d)).2,
     mkDaemon (binsert run_id (f run (dm_flags d)).1.1 (dm_runs d)) (f run (dm_flags d)).1.2).
Proof.
  unfold get_run, update_run, with_run_mut. intros ->. by destruct (f run (dm_flags d)) as [[run' fl] r].
Qed.

Lemma get_binsert_run run_id run runs : get_run run_id (binsert run_id run runs) = Some run.
Proof. apply bget_binsert_eq. Qed.

Lemma stop_handles_get run_id d run :
  get_run run_id (dm_runs d) = Some run ->
  get_run run_id (dm_runs (stop_service_handles run_id d).2) = Some (unhandled_run run).
Proof.
  intros Hg. unfold stop_service_handles. rewrite (update_run_get _ _ _ _ Hg). simpl.
  pose proof (update_all_unhandled (rr_services run) (dm_flags d)) as Hu.
  destruct (update_all stop_all_handles (rr_services run) (dm_flags d)) as [services fl].
  simpl in *. subst services. apply get_binsert_run.
Qed.

Definition tasks_stopped (run : RunRecord) (d : Daemon) : Prop :=
  forall h, h ∈ held_run run -> h ∈ fl_stopped (dm_flags d).

Lemma stop_handles_stops run_id d run :
  get_run run_id (dm_runs d) = Some run -> tasks_stopped run (stop_service_handles run_id d).2.
Proof.
  intros Hg h Hh. unfold stop_service_handles. rewrite (update_run_get _ _ _ _ Hg). simpl.
  pose proof (update_all_stops (rr_services run) (dm_flags d) h (or_introl Hh)) as Hs.
  by destruct (update_all stop_all_handles (rr_services run) (dm_flags d)).
Qed.

Lemma down_commit_flags now run_id d run :
  get_run run_id (dm_runs d) = Some run -> dm_flags (down_commit now run_id d).2 = dm_flags d.
Proof.
  intros Hg. unfold down_commit. rewrite (update_run_get _ _ _ _ Hg). simpl.
  by destruct (stop_services now run_id (rr_services run)).
Qed.

Lemma down_commit_get now run_id d run :
  get_run run_id (dm_runs d) = Some run ->
  is_Some (ok (down_commit now run_id d).1) /\
  get_run run_id (dm_runs (down_commit now run_id d).2) = Some (stopped_run now run_id run).
Proof.
  intros Hg. unfold down_commit. rewrite (update_run_get _ _ _ _ Hg). split; [by eexists|].
  unfold stopped_run. simpl. destruct (stop_services now run_id (rr_services run)) as [services ev].
  apply get_binsert_run.
Qed.

(** What a stopped run is. *)
Record is_down (run : RunRecord) : Prop := {
  dn_state : rr_state run = RunStopped;
  dn_stopped_at : is_Some (rr_stopped_at run);
  dn_services : forall s r, bget s (rr_services run) = Some r -> sr_state (sv_runtime r) = Stopped;
  dn_handles : held_run run = [];
}.

Lemma held_unhandled run : held_run (unhandled_run run) = [].
Proof. unfold held_run, unhandled_run. simpl. by induction (rr_services run) as [|[n r] l IH]. Qed.

Lemma stopped_is_down now run_id run : held_run run = [] -> is_down (stopped_run now run_id run).
Proof.
  intros Hh. pose proof (stop_services_shape now run_id (rr_services run)) as H.
  unfold stopped_run. destruct (stop_services now run_id (rr_services run)) as [services ev].
  destruct H as (_ & Hheld & Hst & _). split; simpl; [done|by eexists|done|].
  unfold held_run in *. simpl. by rewrite Hheld.
Qed.

Lemma stopped_keys now run_id run :
  bkeys (rr_services (stopped_run now run_id run)) = bkeys (rr_services run).
Proof.
  pose proof (stop_services_shape now run_id (rr_services run)) as H. unfold stopped_run.
  destruct (stop_services now run_id (rr_services run)) as [services ev]. by destruct H as (Hk & _).
Qed.

(** ** Ports *)

Section ports.
Context `{RegistryCodec} (kernel : nat -> Kernel) (fuel : nat -> nat).

Definition free_in (ports : PortState) (l : list Z) : Prop :=
  exists r, holds ports.1 r /\ forall p, p ∈ l -> bget p r = None.

Lemma release_frees port owner ports l u ports' :
  free_in ports l -> release kernel fuel port owner ports = (Ok u, ports') ->
  free_in ports' (port :: l).
Proof.
  intros (r & Hr & Hl). unfold release, call, release_port. destruct ports as [file n]. simpl in *.
  destruct (with_registry (kernel n) (release_action port owner) file) as [res file'] eqn:E.
  intros [= -> <-].
  assert (k_write (kernel n) = None) as Hw.
  { unfold with_registry in E. by repeat case_match; simplify_eq/=. }
  destruct (with_registry_Ok _ _ _ _ _ _ Hr Hw E) as (r' & c' & Ha & ->).
  pose proof (registry_ok_cleanup (kernel n) r (proj2 Hr)) as Hc.
  destruct (release_action_Ok _ _ _ _ _ _ _ Ha) as (Hget & _ & Hwf). exists r'. split.
  - apply holds_json. split; [by apply Hwf, Hc|]. intros p e. rewrite Hget.
    destruct (keqb port p); [done|]. apply Hc.
  - intros p. rewrite elem_of_cons, Hget. intros Hp. destruct (keqb port p) eqn:E2; [done|].
    destruct Hp as [->|Hp]; [by rewrite keqb_refl in E2|].
    rewrite bget_cleanup by apply Hr. by rewrite Hl.
Qed.
End ports.

(** ** The commands *)

#[local] Abbreviation wp := (wp host_step eq).
#[local] Abbreviation calls := (observed stopped_unit).

Lemma observed_app t t2 : calls (t ++ t2) = calls t ++ calls t2.
Proof. apply omap_app. Qed.

(** Nothing under a lock changes and no unit is stopped. *)
Definition steady {A} (p : command A) : Prop :=
  forall s, wp p (fun t _ s' => s' = s /\ calls t = []) s.

Lemma steady_bind {A B} (p : command A) (f : A -> command B) :
  steady p -> (forall a, steady (f a)) -> steady (p ≫= f).
Proof.
  intros Hp Hf s. apply wp_bind. eapply wp_mono; [|apply Hp]. intros t o s' [-> Ht].
  destruct o as [a|e| |]; simpl; try done. eapply wp_mono; [|apply Hf].
  intros t2 o2 s2 [-> Ht2]. split; [done|]. by rewrite observed_app, Ht, Ht2.
Qed.

Section commands.
Context `{JsonFile}.
Context (base_dir : outcome string).
Context `{RegistryCodec} (kernel : nat -> Kernel) (fuel : nat -> nat).
Context (run_id : string).

Lemma steady_persist : steady (persist_manifest base_dir run_id).
Proof.
  intros s. simpl. intros s1 r s2 <- [-> ->]. destruct (manifest_of _ _ _) as [[m path]|e| |]; simpl;
    [|by split..].
  intros ? [[]|e| |] ? <- ->; simpl; [|by split..].
  intros ? runs ? <- [-> ->] ? now ? <- -> ? r ? <- ->. simpl. by split.
Qed.

Lemma steady_response : steady (run_response base_dir run_id).
Proof. intros s. simpl. intros s1 r s2 <- [-> ->]. by split. Qed.

(** The ports of a service that [down] releases. *)
Definition ports_of (service : string * option Z * option Z) : list Z :=
  let '(_, port, listen_port) := service in
  option_list port ++ (if bool_decide (listen_port = port) then [] else option_list listen_port).

Lemma wp_release_public name port s l :
  wp (release_public kernel fuel run_id name port) (fun t o s' =>
    ho_daemon s' = ho_daemon s /\ calls t = [] /\
    (o = Ok tt -> free_in (ho_ports s) l -> free_in (ho_ports s') (option_list port ++ l))) s.
Proof.
  unfold release_public. simpl. intros s1 r s2 <- [-> ->]. split_and!; [done..|]. simpl.
  destruct port as [port|]; simpl; [|done]. intros Hok Hl.
  destruct (release kernel fuel port (port_owner run_id name) (ho_ports s)) as [o ports'] eqn:E.
  simpl in *. subst o. by eapply release_frees.
Qed.

Lemma wp_release_backend name port public s l :
  wp (release_backend kernel fuel run_id name port public) (fun t o s' =>
    ho_daemon s' = ho_daemon s /\ calls t = [] /\
    (o = Ok tt -> free_in (ho_ports s) l ->
     free_in (ho_ports s') ((if bool_decide (port = public) then [] else option_list port) ++ l))) s.
Proof.
  unfold release_backend. simpl. intros s1 r s2 <- [-> ->]. split_and!; [done..|]. simpl.
  destruct port as [port|]; simpl; [|by case_bool_decide].
  destruct (bool_decide (Some port = public)); [done|]. intros Hok Hl.
  destruct (release kernel fuel port (capture_backend_port_owner run_id name) (ho_ports s))
    as [o ports'] eqn:E.
  simpl in *. subst o. by eapply release_frees.
Qed.

Lemma wp_release_stopped service s l :
  wp (release_stopped kernel fuel run_id service) (fun t o s' =>
    ho_daemon s' = ho_daemon s /\ calls t = [] /\
    (o = Ok tt -> free_in (ho_ports s) l -> free_in (ho_ports s') (ports_of service ++ l))) s.
Proof.
  destruct service as [[name port] listen_port]. unfold release_stopped. apply wp_bind.
  eapply wp_mono; [|apply (wp_release_backend _ _ _ _ l)]. intros t o s' (Hd & Ht & Hfree).
  destruct o as [[]|e| |]; cbn [then_post]; try done.
  eapply wp_mono; [|apply wp_release_public]. intros t2 o2 s2 (Hd2 & Ht2 & Hfree2).
  split_and!; [congruence|by rewrite observed_app, Ht, Ht2|].
  intros Ho Hl. unfold ports_of. rewrite <- app_assoc. by apply Hfree2, Hfree.
Qed.

Lemma wp_release_all services s :
  wp (pforeach (release_stopped kernel fuel run_id) services) (fun t o s' =>
    ho_daemon s' = ho_daemon s /\ calls t = [] /\
    (o = Ok tt -> free_in (ho_ports s) [] -> free_in (ho_ports s') (flat_map ports_of services))) s.
Proof.
  set (I := fun (rest : list (string * option Z * option Z)) (t : list (event Effect)) (_ : unit) (s' : Host) =>
    ho_daemon s' = ho_daemon s /\ calls t = [] /\
    exists done_, services = done_ ++ rest /\
      (free_in (ho_ports s) [] -> free_in (ho_ports s') (flat_map ports_of done_))).
  eapply wp_mono; [|apply (wp_pfold host_step eq (fun _ => release_stopped kernel fuel run_id) services
    tt s I (fun t o s' => ho_daemon s' = ho_daemon s /\ calls t = [] /\
      (o = Ok tt -> free_in (ho_ports s) [] -> free_in (ho_ports s') (flat_map ports_of services))) )
    with (t := [])].
  - intros t o s'. done.
  - intros a rest t [] s1 (Hd & Ht & before & Heq & Hfree).
    eapply wp_mono; [|apply (wp_release_stopped a s1 (flat_map ports_of before))].
    intros t2 o s2 (Hd2 & Ht2 & Hfree2).
    assert (calls (t ++ t2) = []) as Hc by (by rewrite observed_app, Ht, Ht2).
    destruct o as [[]|e| |]; try (split_and!; [congruence|done|done]).
    split_and!; [congruence|done|]. exists (before ++ [a]). split; [by rewrite <- app_assoc|].
    intros Hnil. destruct (Hfree2 eq_refl (Hfree Hnil)) as (r & Hr & Hn). exists r. split; [done|].
    intros p Hp. apply Hn. rewrite flat_map_app in Hp. simpl in Hp. rewrite app_nil_r in Hp. set_solver.
  - intros t [] s1 (Hd & Ht & before & Heq & Hfree). split_and!; [done..|]. intros _.
    rewrite app_nil_r in Heq. by subst before.
  - split_and!; [done..|]. exists []. by split.
Qed.

(** What is done to one unit, to stop it or to kill it. *)
Definition unit_calls (forced : bool) (u : string) : list StopCall :=
  (if forced then [Killed u 9] else []) ++ [Stopped_ u].

Definition stops_one (forced : bool) (stop : string -> command unit) : Prop :=
  forall u s, wp (stop u) (fun t o s' => s' = s /\ (returns o -> o = Ok tt /\ calls t = unit_calls forced u)) s.

Lemma stop_one_stops : stops_one false stop_one.
Proof. intros u s. simpl. intros ? [[]|e| |] ? <- ->; simpl; split; by try done. Qed.

Lemma kill_one_stops : stops_one true kill_one.
Proof.
  intros u s. simpl. intros ? [[]|e| |] ? <- ->; simpl; try done;
    intros ? [[]|e'| |] ? <- ->; simpl; split; by try done.
Qed.

Lemma wp_look_error {R} f (g : Daemon -> outcome R) Q s :
  Q [Ev (Look g) (g (ho_daemon s))] (map_err f (g (ho_daemon s))) s ->
  wp (on_error f (try_trigger (Look g))) Q s.
Proof.
  intros HQ. unfold on_error. apply wp_bind, wp_attempt. intros ? r ? <- [-> ->].
  destruct (g (ho_daemon s)); simpl; exact HQ.
Qed.

Lemma wp_stop_all {B} forced stop (name : B -> string) l s :
  stops_one forced stop ->
  wp (pforeach (fun b => stop (name b)) l) (fun t o s' =>
    s' = s /\ (returns o -> o = Ok tt /\ calls t = flat_map (fun b => unit_calls forced (name b)) l)) s.
Proof.
  intros Hstop. unfold pforeach. generalize tt at 1. induction l as [|b l IH]; intros x; [by destruct x|].
  simpl. apply wp_bind. eapply wp_mono; [|apply Hstop]. intros t o s' [-> Ho].
  destruct o as [y|e| |]; cbn [then_post]; [|by destruct (Ho I)|by split..].
  eapply wp_mono; [|apply (IH y)]. intros t2 o2 s2 [-> Ho2]. split; [done|]. intros Hr.
  destruct (Ho I) as [_ Ht]. destruct (Ho2 Hr) as [-> Ht2]. split; [done|].
  by rewrite observed_app, Ht, Ht2.
Qed.

(** What [down] and [kill] leave of a run they find: its background tasks are told to stop,
    and none is left in its record. *)
Definition record_end (run : RunRecord) (done : bool) (s' : Host) : Prop :=
  exists run', get_run run_id (dm_runs (ho_daemon s')) = Some run' /\
    bkeys (rr_services run') = bkeys (rr_services run) /\ held_run run' = [] /\
    (is_down run' \/ done = false /\ run' = unhandled_run run).

Definition ports_end (run : RunRecord) (ports : PortState) (s' : Host) : Prop :=
  free_in ports [] -> exists r, holds (ho_ports s').1 r /\
    forall name service port, bget name (rr_services run) = Some service ->
      Some port = sl_port (sv_launch service) \/ Some port = sl_listen_port (sv_launch service) ->
      bget port r = None.

Definition stop_end (purge : bool) (run : RunRecord) (ports : PortState) (o : outcome RunResponse) (s' : Host) : Prop :=
  tasks_stopped run (ho_daemon s') /\
  match o with
  | Ok response => rp_state response = RunStopped /\ ports_end run ports s' /\
      if purge then get_run run_id (dm_runs (ho_daemon s')) = None else record_end run true s'
  | _ => record_end run false s'
  end.

(** The services of a run with their ports. *)
Definition service_ports (run : RunRecord) : list (string * option Z * option Z) :=
  map (fun e => (e.1, sl_port (sv_launch e.2), sl_listen_port (sv_launch e.2))) (rr_services run).

Lemma in_ports_of run name service port :
  bget name (rr_services run) = Some service ->
  Some port = sl_port (sv_launch service) \/ Some port = sl_listen_port (sv_launch service) ->
  port ∈ flat_map ports_of (service_ports run).
Proof.
  intros Hs%bget_Some_in Hp. apply list_elem_of_In, in_flat_map.
  exists (name, sl_port (sv_launch service), sl_listen_port (sv_launch service)). split.
  - apply in_map_iff. exists (name, service). split; [done|]. by apply list_elem_of_In.
  - apply list_elem_of_In. unfold ports_of. rewrite elem_of_app.
    destruct Hp as [<- | Hp]; [left; simpl; set_solver|]. case_bool_decide as Heq; [left; rewrite <- Heq|right];
      rewrite <- Hp; simpl; set_solver.
Qed.

Lemma run_ports_of d run :
  get_run run_id (dm_runs d) = Some (unhandled_run run) -> run_ports run_id d = Ok (service_ports run).
Proof.
  unfold run_ports, with_run, get_run, service_ports. intros ->. f_equal. simpl.
  induction (rr_services run) as [|[n r] l IH]; [done|]. simpl. by rewrite IH.
Qed.

Lemma unhandled_keys run : bkeys (rr_services (unhandled_run run)) = bkeys (rr_services run).
Proof. apply bkeys_bmap_values. Qed.

Lemma response_state d run response :
  get_run run_id (dm_runs d) = Some run -> response_of base_dir run_id d = Ok response ->
  rp_state response = rr_state run.
Proof.
  unfold response_of, with_run, get_run, run_response_from_record. intros ->. simpl.
  destruct (run_manifest_path base_dir (rr_run_id run)); simpl; try done. by intros [= <-].
Qed.

(** The end of both commands, once the ports are released. *)
Lemma wp_stop_end run ports s :
  get_run run_id (dm_runs (ho_daemon s)) = Some (unhandled_run run) -> tasks_stopped run (ho_daemon s) ->
  (free_in ports [] -> free_in (ho_ports s) (flat_map ports_of (service_ports run))) ->
  wp (now ← trigger Now;
      _ ← act (ActDown now run_id) (down_commit now run_id);
      _ ← persist_manifest base_dir run_id;
      run_response base_dir run_id)
    (fun t o s' => calls t = [] /\ stop_end false run ports o s') s.
Proof.
  intros Hg Htasks Hfree. apply wp_bind. intros ? now ? <- ->. cbn [then_post]. apply wp_bind.
  intros ? r ? <- [-> ->]. destruct (down_commit_get now run_id _ _ Hg) as [[ev Hok] Hg'].
  pose proof (down_commit_flags now run_id _ _ Hg) as Hflags.
  destruct (down_commit now run_id (ho_daemon s)) as [o d'] eqn:Ed. cbn [fst snd ok] in *.
  destruct o as [ev'|e| |]; try done. cbn [then_post].
  assert (perform (ActDown now run_id) (ho_daemon s) = (d', ev')) as -> by (simpl; by rewrite Ed).
  set (run' := stopped_run now run_id (unhandled_run run)) in *.
  assert (is_down run') as Hdown by apply stopped_is_down, held_unhandled.
  assert (bkeys (rr_services run') = bkeys (rr_services run)) as Hkeys
    by (unfold run'; rewrite stopped_keys; apply unhandled_keys).
  apply wp_bind. eapply wp_mono; [|apply steady_persist]. intros t o s' [-> Ht].
  assert (forall o, (forall response, o = Ok response -> rp_state response = RunStopped) ->
    stop_end false run ports o (mkHost d' (ho_ports s))) as Hend.
  { intros o' Hresp. split; [unfold tasks_stopped in *; simpl in *; by rewrite Hflags|].
    assert (forall b, record_end run b (mkHost d' (ho_ports s))) as Hrec.
    { intros b. exists run'. split_and!; [done..|apply Hdown|by left]. }
    destruct o' as [response|e| |]; try apply Hrec. split_and!; [by apply Hresp| |apply Hrec].
    intros Hp. destruct (Hfree Hp) as (r & Hr & Hnone). exists r. split; [done|].
    intros name service port Hs Hport. by eapply Hnone, in_ports_of. }
  destruct o as [[]|e| |]; cbn [then_post]; try (split; [done|by apply Hend]).
  simpl. intros ? r ? <- [-> ->]. split; [by rewrite observed_app, Ht|].
  apply Hend. intros response Hr. rewrite (response_state _ _ _ Hg' Hr). apply Hdown.
Qed.

Lemma service_ports_names forced run :
  flat_map (fun e => unit_calls forced (unit_name_for_run run_id e.1.1)) (service_ports run) =
  flat_map (fun name => unit_calls forced (unit_name_for_run run_id name)) (bkeys (rr_services run)).
Proof. unfold service_ports, bkeys. by rewrite !flat_map_concat_map, !map_map. Qed.

(** The calls to the service manager for a run. *)
Definition run_calls (forced : bool) (run : RunRecord) : list StopCall :=
  flat_map (fun name => unit_calls forced (unit_name_for_run run_id name)) (bkeys (rr_services run)).

Lemma wp_stop_run forced stop run s :
  stops_one forced stop -> get_run run_id (dm_runs (ho_daemon s)) = Some run ->
  wp (stop_run base_dir kernel fuel stop run_id) (fun t o s' => returns o ->
    calls t = run_calls forced run /\ stop_end false run (ho_ports s) o s') s.
Proof.
  intros Hstop Hg. unfold stop_run. apply wp_bind. intros ? r ? <- [-> ->]. cbn [then_post].
  pose proof (stop_handles_get _ _ _ Hg) as Hg1.
  change (perform (ActStopHandles run_id) (ho_daemon s)).1
    with (stop_service_handles run_id (ho_daemon s)).2.
  pose proof (stop_handles_stops _ _ _ Hg) as Hts.
  set (d1 := (stop_service_handles run_id (ho_daemon s)).2) in *.
  apply wp_bind, wp_look_error. cbn [ho_daemon]. rewrite (run_ports_of _ _ Hg1). cbn [map_err then_post].
  apply wp_bind. eapply wp_mono;
    [|by apply (wp_stop_all forced stop (fun e : string * option Z * option Z => unit_name_for_run run_id e.1.1))].
  rewrite service_ports_names.
  intros t o s' [-> Ho]. destruct o as [[]|e| |]; cbn [then_post]; [|by destruct (Ho I)|by intros []..].
  destruct (Ho I) as [_ Ht]. clear Ho. apply wp_bind.
  eapply wp_mono; [|apply wp_release_all]. intros t2 o s' (Hd & Ht2 & Hfree).
  assert (bkeys (rr_services (unhandled_run run)) = bkeys (rr_services run) /\
    held_run (unhandled_run run) = []) as [Hk Hh] by (split; [apply unhandled_keys|apply held_unhandled]).
  destruct o as [[]|e| |]; cbn [then_post].
  { eapply wp_mono; [|apply (wp_stop_end run (ho_ports s)); [by rewrite Hd|by rewrite Hd|by apply Hfree]].
    intros t3 o s2 [Ht3 Hend] _. split; [|done]. rewrite !observed_app, Ht, Ht2, Ht3. simpl.
    by rewrite app_nil_r. }
  all: intros _; rewrite !observed_app, Ht, Ht2; simpl; rewrite app_nil_r; split; [done|].
  all: split; [by rewrite Hd|]; exists (unhandled_run run); rewrite Hd; split_and!; [done..|by right].
Qed.

Lemma wp_stop_unknown stop s :
  get_run run_id (dm_runs (ho_daemon s)) = None ->
  wp (stop_run base_dir kernel fuel stop run_id) (fun t o s' =>
    o = Err ("run " +:+ run_id +:+ " not found") /\ calls t = [] /\ s' = s) s.
Proof.
  intros Hg. assert (stop_service_handles run_id (ho_daemon s) =
    (Err ("run " +:+ run_id +:+ " not found"), ho_daemon s)) as Hs.
  { unfold stop_service_handles, update_run, with_run_mut. unfold get_run in Hg. by rewrite Hg. }
  unfold stop_run. apply wp_bind. intros ? r ? <- [-> ->]. cbn [then_post].
  change (perform (ActStopHandles run_id) (ho_daemon s)).1
    with (stop_service_handles run_id (ho_daemon s)).2. rewrite Hs.
  apply wp_bind, wp_look_error. cbn [ho_daemon snd]. unfold run_ports, with_run.
  unfold get_run in Hg. rewrite Hg. cbn [map_err then_post]. by destruct s.
Qed.

(** What a command may end in, and what a purge deletes besides. *)
Definition purge_calls (purge : bool) (o : outcome RunResponse) (l : list StopCall) : Prop :=
  match o with
  | Ok _ => if purge then exists dir, run_dir base_dir run_id = Ok dir /\ l = [DirRemoved dir; LogsDeleted run_id]
            else l = []
  | _ => l = []
  end.

Definition stop_post (forced purge : bool) (s : Host) (t : list (event Effect)) (o : outcome RunResponse)
    (s' : Host) : Prop :=
  returns o ->
  match get_run run_id (dm_runs (ho_daemon s)) with
  | Some run =>
      (exists l, calls t = run_calls forced run ++ l /\ purge_calls purge o l) /\
      stop_end purge run (ho_ports s) o s'
  | None => o = Err ("run " +:+ run_id +:+ " not found") /\ calls t = [] /\ s' = s
  end.

Lemma wp_stop_post forced stop s :
  stops_one forced stop -> wp (stop_run base_dir kernel fuel stop run_id) (stop_post forced false s) s.
Proof.
  intros Hstop. unfold stop_post. destruct (get_run run_id (dm_runs (ho_daemon s))) as [run|] eqn:Hg.
  - eapply wp_mono; [|by apply wp_stop_run]. intros t o s' Hp Hr. destruct (Hp Hr) as [Hc He].
    split; [|done]. exists []. rewrite app_nil_r. split; [done|]. by destruct o.
  - eapply wp_mono; [|by apply wp_stop_unknown]. done.
Qed.

Lemma steady_state : steady write_daemon_state.
Proof. intros s. simpl. intros ? runs ? <- [-> ->] ? now ? <- -> ? r ? <- ->. by split. Qed.

Lemma ignore_steady {A} (p : command A) s :
  steady p -> wp (ignore p) (fun t o s' => s' = s /\ calls t = [] /\ (returns o -> o = Ok tt)) s.
Proof.
  intros Hp. unfold ignore. apply wp_bind, wp_attempt. eapply wp_mono; [|apply Hp].
  intros t [a|e| |] s' [-> Ht]; simpl; rewrite ?app_nil_r; by split_and!.
Qed.

(** What [down] with purge does after the run is stopped. *)
Lemma wp_purge response run ports s :
  stop_end false run ports (Ok response) s ->
  wp (run_dir ← Ret (run_dir base_dir run_id);
      _ ← trigger (RemoveDir run_dir);
      _ ← trigger (Act (ActPurge run_id) (fun _ => tt));
      _ ← trigger (DeleteLogs run_id);
      _ ← ignore write_daemon_state;
      mret response)
    (fun t o s' => returns o -> purge_calls true o (calls t) /\ stop_end true run ports o s') s.
Proof.
  intros (Hts & Hresp & Hports & run' & Hg & Hrest).
  destruct (run_dir base_dir run_id) as [dir|e| |] eqn:Hdir; [|..].
  2:{ intros _. simpl. split; [done|]. split; [done|]. exists run'.
      destruct Hrest as (? & ? & [?|[? _]]); [|done]. by split_and!; [..|left]. }
  2-3: by intros [].
  intros ? u ? <- ->. intros ? v ? <- [_ ->]. intros ? w ? <- ->.
  cbn [mbind prog_bind]. apply wp_bind. eapply wp_mono; [|apply ignore_steady, steady_state].
  intros t o s' (-> & Ht & Ho).
  set (d := (perform (ActPurge run_id) (ho_daemon s)).1).
  assert (dm_flags d = dm_flags (ho_daemon s) /\ get_run run_id (dm_runs d) = None) as [Hf Hnone].
  { unfold d. simpl. unfold purge_run, remove_run. simpl. unfold get_run.
    destruct (bget run_id (dm_runs (ho_daemon s))); simpl; rewrite ?bget_bremove, ?keqb_refl; done. }
  assert (tasks_stopped run d) as Hts' by (intros h Hh; rewrite Hf; by apply Hts).
  destruct o as [[]|e| |]; cbn [then_post]; [|by specialize (Ho I)|by intros []..].
  intros _. rewrite app_nil_r. split; [|by split].
  exists dir. split; [done|].
  change (calls _) with (DirRemoved dir :: LogsDeleted run_id :: calls t). by rewrite Ht.
Qed.
End commands.

(** C14: [down], with or without purge, and [kill], on a daemon that nothing else changes
    meanwhile, whatever the service manager answers. The run is unknown: an error, and
    nothing is touched. Otherwise the manager is asked, in the order of the names, to stop the
    unit of every service of the run - after [kill] has sent it SIGKILL - also when it refuses
    for one of them; every background task of the run is told to stop, and none is left in its
    record. When the command succeeds the answer says that the run is stopped, and no port of
    it, public or backend, is reserved any more; the run and all of its services are recorded
    stopped, or with purge the run is gone from the records, its directory is removed and its
    documents are deleted. When it fails, the run is recorded as stopped, or as it was but
    without its background tasks, and nothing is purged. *)
Theorem stop_run_spec `{JsonFile} `{RegistryCodec} base_dir kernel fuel run_id (forced purge : bool) s t o s' :
  runs host_step eq
    (if forced then kill base_dir kernel fuel run_id else down base_dir kernel fuel run_id purge) s t o s' ->
  returns o ->
  match get_run run_id (dm_runs (ho_daemon s)) with
  | Some run =>
      (exists l, calls t = run_calls run_id forced run ++ l /\
         purge_calls base_dir run_id (negb forced && purge) o l) /\
      stop_end run_id (negb forced && purge) run (ho_ports s) o s'
  | None => o = Err ("run " +:+ run_id +:+ " not found") /\ calls t = [] /\ s' = s
  end.
Proof.
  intros Hruns. enough (stop_post base_dir run_id forced (negb forced && purge) s t o s') as Hpost by exact Hpost.
  refine (wp_runs _ _ _ _ _ _ _ _ _ Hruns). unfold kill, down.
  destruct forced; [apply wp_stop_post, kill_one_stops|].
  apply wp_bind. eapply wp_mono; [|apply (wp_stop_post _ _ _ _ false), stop_one_stops].
  intros t' o' s2 Hpost. unfold stop_post in *. cbn [negb andb].
  destruct o' as [response|e| |]; cbn [then_post].
  2:{ intros Hr. specialize (Hpost Hr). destruct (get_run _ _) as [run|]; [|done].
      destruct Hpost as ((l & Hc & ->) & He). split; [|done]. by exists []. }
  2-3: by intros [].
  specialize (Hpost I). destruct purge; cbn [negb].
  - destruct (get_run run_id (dm_runs (ho_daemon s))) as [run|]; [|by destruct Hpost].
    destruct Hpost as ((l & Hc & ->) & He). eapply wp_mono; [|by apply (wp_purge base_dir)].
    intros t2 o2 s3 Hp Hr. destruct (Hp Hr) as [Hc2 He2]. split; [|done].
    eexists. split; [|exact Hc2]. by rewrite observed_app, Hc, app_nil_r.
  - intros _. by rewrite app_nil_r.
Qed.

(** ** A run that is stopped *)

#[local] Existing Instance concrete_json.
#[local] Existing Instance concrete_json_file.
#[local] Existing Instance sample_codec.

(** Answers of a host where everything works. *)
Definition host_answer (R : Type) (e : Effect R) (s : Host) : R * Host :=
  match e in Effect R return R * Host with
  | Look f => (f (ho_daemon s), s)
  | Act a f => (f (ho_daemon s), mkHost (perform a (ho_daemon s)).1 (ho_ports s))
  | Registry m => ((m (ho_ports s)).1, mkHost (ho_daemon s) (m (ho_ports s)).2)
  | Globals f => ((f ([], Flags_empty)).1, s)
  | UnitState _ => (Ok None, s)
  | ReadText _ => (Ok "", s)
  | RandomSuffix => ("", s)
  | See => (mkWorld (fun _ => Err "no file") (fun _ => false) (fun _ => false) Some (fun _ => Ok [])
              (fun _ => Ok []) (fun _ => None) (fun _ _ _ _ _ => Ok "hash"), s)
  | Now => ("t1", s)
  | EmitGlobal _ _ | SpawnMonitor _ _ | SpawnReadiness _ _ _ _ _ _ | SpawnGlobal _ _ _ | Sleep _ => (tt, s)
  | _ => (Ok tt, s)
  end.

Definition running_web : ServiceRecord :=
  mkServiceRecord (mkServiceSpec "web" [] (ReadinessSpec_new NoReadiness) false [] [])
    (mkServiceLaunchPlan "u" "/p" [] "run" "/l" (Some 40000%Z) None "http" None false 0 [] "h" [] [])
    (mkServiceRuntimeState Ready None (Some "t0") false) ServiceHandles_default.

Definition running_host : Host :=
  mkHost (mkDaemon [("r1", mkRunRecord "r1" "dev" "/p" "/p" [] [("web", running_web)] RunRunning "t0" None)]
            Flags_empty) (to_json sample_registry, 0).

(** The run of [down r1] on that host. *)
Definition down_web : list (event Effect) * outcome RunResponse * Host :=
  run_with host_answer (down (Ok "/data") (fun _ => sample_kernel) (fun _ => 5) "r1" false) running_host.

Lemma host_answer_step R (e : Effect R) s : host_step R e s (host_answer R e s).1 (host_answer R e s).2.
Proof. by destruct e. Qed.

Lemma down_web_runs :
  runs host_step eq (down (Ok "/data") (fun _ => sample_kernel) (fun _ => 5) "r1" false) running_host
    down_web.1.1 down_web.1.2 down_web.2.
Proof. exact (run_with_runs host_answer host_step _ _ host_answer_step). Qed.

Lemma down_web_ok : exists response, down_web.1.2 = Ok response.
Proof. vm_compute. by eexists. Qed.

Lemma running_free : free_in (ho_ports running_host) [].
Proof. exists sample_registry. split; [apply sample_holds|]. by intros p ?%elem_of_nil. Qed.

Lemma stop_run_spec_witness :
  observed stopped_unit down_web.1.1 = [Stopped_ "devstack-run-R1-WEB.service"] /\
  exists r, holds (ho_ports down_web.2).1 r /\ bget 40000%Z r = None.
Proof.
  destruct down_web_ok as [response Ho].
  pose proof (stop_run_spec (Ok "/data") (fun _ => sample_kernel) (fun _ => 5) "r1" false false
    running_host down_web.1.1 down_web.1.2 down_web.2 down_web_runs) as H.
  rewrite Ho in H. destruct (H I) as ((l & Hcalls & ->) & _ & _ & Hfree & _).
  split; [exact Hcalls|]. destruct (Hfree running_free) as (r & Hr & Hnone).
  exists r. split; [exact Hr|]. apply (Hnone "web" running_web); [reflexivity|by left].
Defined.
