(* ===== verification/Sources.v ===== *)
(** * Sources of logs

    Models [src/sources.rs]: the ledger of registered sources on disk, the registry
    that keeps it in memory and reads it again when the file was changed, the
    names of the log files of a source, and the states of their ingestion.

    The files of the ledger and of the states are replaced at once ([Files]): a write
    that fails leaves the file.  Each operation of the registry holds its lock; the
    answers of the file system ([glob], [is_file]) may change with time. *)

From S2P Require Import Prelude Bytes BMap Util Json.
From S2P Require Import ConfigValidate Files Manifest Simulation.
From Stdlib Require Import Lia ZArith.

(** ** Data *)

Record SourceEntry := mkSourceEntry {
  se_name : string;
  se_paths : list string;
  se_created_at : string;
  se_retention_seconds : option Z;
}.

Definition SourcesLedger : Type := bmap string SourceEntry.

Record ResolvedSourcePath := mkResolved { rv_service : string; rv_path : string }.

#[export] Instance source_entry_eq_dec : EqDecision SourceEntry.
Proof. solve_decision. Defined.
#[export] Instance resolved_eq_dec : EqDecision ResolvedSourcePath.
Proof. solve_decision. Defined.

Inductive SourceIndexStatus := Queued | Indexing | Current | SourceError.

Record SourceFileIndexState := mkSourceFileIndexState {
  sx_service : string;
  sx_path : string;
  sx_len : Z;
  sx_modified_nanos : option Z;
  sx_indexed_offset : Z;
  sx_next_seq : Z;
  sx_first_ts_nanos : option Z;
  sx_last_ts_nanos : option Z;
  sx_skipped_by_retention : bool;
}.

Record SourceIndexState := mkSourceIndexState {
  si_name : string;
  si_run_id : string;
  si_status : SourceIndexStatus;
  si_retention_seconds : Z;
  si_retention_cutoff_nanos : option Z;
  si_retained_docs : Z;
  si_retained_through_nanos : option Z;
  si_files : list SourceFileIndexState;
  si_last_indexed_at : option string;
  si_error : option string;
}.

(** [SourceIndexStateFile] *)
Record StateFile := mkStateFile { st_version : Z; st_sources : bmap string SourceIndexState }.
Definition state_file_default : StateFile := mkStateFile 0 [].

Definition SOURCE_INDEX_STATE_VERSION : Z := 1.
Definition RESOLVED_SOURCE_CACHE_TTL : Z := 2000.

Definition source_run_id (name : string) : string := "source:" +:+ name.

Definition source_retention_seconds (entry : SourceEntry) (default_retention : Z) : Z :=
  default default_retention (se_retention_seconds entry).

(** ** The names of the files of a source *)

(** The order of [PathBuf], by components: the root, then [.] and [..] where they are
    components, then names. *)
Definition component_rank (w : string) : Z := if bool_decide (w = "..") then 0 else 1.

Definition leading_dot (p : string) : bool :=
  match to_bytes p with "."%char :: [] | "."%char :: "/"%char :: _ => true | _ => false end.

Definition path_key (p : string) : list (Z * string) :=
  (if is_absolute p then [((-2)%Z, "")] else if leading_dot p then [((-1)%Z, "")] else [])
  ++ map (fun w => (component_rank w, w)) (components p).

Fixpoint compare_keys (a b : list (Z * string)) : comparison :=
  match a, b with
  | [], [] => Eq
  | [], _ => Lt
  | _, [] => Gt
  | (m, v) :: a, (n, w) :: b =>
      match Z.compare m n with
      | Eq => match String.compare v w with Eq => compare_keys a b | c => c end
      | c => c
      end
  end.

Definition path_compare (a b : string) : comparison := compare_keys (path_key a) (path_key b).

(** [BTreeSet::insert]: an equal path that is there stays. *)
Fixpoint path_insert (p : string) (l : list string) : list string :=
  match l with
  | [] => [p]
  | q :: l' => match path_compare p q with Lt => p :: l | Eq => l | Gt => q :: path_insert p l' end
  end.

Definition base_name (source_name path : string) : string :=
  match file_stem <$> file_name path with
  | Some stem =>
      let stem := to_string_lossy stem in
      if bool_decide (str_trim stem = "") then source_name else stem
  | None => source_name
  end.

(** One turn of the loop: the names used so far, and the result. *)
Definition name_one (source_name : string) (acc : bmap string Z * list ResolvedSourcePath)
    (path : string) : bmap string Z * list ResolvedSourcePath :=
  let '(seen, out) := acc in
  let base := base_name source_name path in
  let slot := (default 0%Z (bget base seen) + 1)%Z in
  let service := if (slot =? 1)%Z then base else base +:+ "-" +:+ show slot in
  (binsert base slot seen, out ++ [mkResolved service path]).

Definition resolved_paths_to_log_sources (source_name : string) (paths : list string)
    : list ResolvedSourcePath :=
  if (length paths <=? 1)%nat then map (mkResolved source_name) paths
  else (foldl (name_one source_name) ([], []) paths).2.

Definition contains_glob (pattern : string) : bool :=
  contains_sub "*" pattern || contains_sub "?" pattern || contains_sub "[" pattern.

(** ** The ledger *)

(** The text of the two files, by [serde_json]. *)
Class SourceFiles := {
  ledger_to_vec_pretty : SourcesLedger -> string;
  ledger_from_str : string -> outcome SourcesLedger;
  states_to_vec_pretty : StateFile -> string;
  states_from_str : string -> outcome StateFile;
}.

Definition ledger_ok (l : SourcesLedger) : Prop :=
  bwf l /\ forall name e n, bget name l = Some e -> se_retention_seconds e = Some n ->
    (0 <= n <= u64_max)%Z.

Class SourceFilesLaws `{SourceFiles} : Prop := {
  ledger_roundtrip : forall l, ledger_ok l -> ledger_from_str (ledger_to_vec_pretty l) = Ok l;
  states_roundtrip : forall s, bwf (st_sources s) -> states_from_str (states_to_vec_pretty s) = Ok s;
}.

(** The ledger with its time of modification, and the file of the states. *)
Record SourceDisk := mkSourceDisk { dk_ledger : option (string * Z); dk_states : option string }.

Definition modified_time (d : SourceDisk) : option Z := snd <$> dk_ledger d.

(** What one operation is answered: the time, the clock, whether a write works and the
    time of modification it gives, and the file system. *)
Record SourceEnv := mkSourceEnv {
  ev_now : string;
  ev_instant : Z;
  ev_write : outcome unit;
  ev_modified : Z;
  ev_write_states : outcome unit;
  ev_glob : string -> outcome (list (outcome string));
  ev_is_file : string -> bool;
}.

(** [SourceRegistryInner] *)
Record SourceRegistry := mkSourceRegistry {
  rg_ledger : SourcesLedger;
  rg_loaded_modified : option Z;
  rg_resolved : bmap string (list ResolvedSourcePath * Z);
}.

Section registry.
Context `{SourceFiles} (home : option string).

Definition RegM : Type -> Type := stM (SourceRegistry * SourceDisk).

Definition ledger_load_from_path (d : SourceDisk) : outcome SourcesLedger :=
  match dk_ledger d with
  | None => Ok []
  | Some (data, _) => with_context "parse sources ledger" (ledger_from_str data)
  end.

Definition save_to_path (env : SourceEnv) (ledger : SourcesLedger) (d : SourceDisk)
    : outcome unit * SourceDisk :=
  match ev_write env with
  | Ok _ => (Ok tt, mkSourceDisk (Some (ledger_to_vec_pretty ledger, ev_modified env)) (dk_states d))
  | o => (o, d)
  end.

(** [SourcesLedger::add_at]: the ledger in memory has the source even when it cannot be
    written. *)
Definition add_at (env : SourceEnv) (name : string) (paths : list string)
    (retention_seconds : option Z) (ledger : SourcesLedger) (d : SourceDisk)
    : outcome unit * (SourcesLedger * SourceDisk) :=
  if bool_decide (str_trim name = "") then (Err "source name cannot be empty", (ledger, d)) else
  let normalized_paths :=
    List.filter (fun p => negb (bool_decide (p = ""))) (map str_trim paths) in
  if bool_decide (normalized_paths = [])
  then (Err "source must include at least one path or glob", (ledger, d)) else
  let ledger :=
    binsert name (mkSourceEntry name normalized_paths (ev_now env) retention_seconds) ledger in
  let '(o, d) := save_to_path env ledger d in
  (o, (ledger, d)).

Definition remove_at (env : SourceEnv) (name : string) (ledger : SourcesLedger) (d : SourceDisk)
    : outcome bool * (SourcesLedger * SourceDisk) :=
  let removed := bcontains name ledger in
  let ledger := bremove name ledger in
  if removed then let '(o, d) := save_to_path env ledger d in (_ ← o; Ok true, (ledger, d))
  else (Ok false, (ledger, d)).

Definition expand_pattern (env : SourceEnv) (pattern : string) : outcome (list string) :=
  let expanded := expand_home home pattern in
  let pattern_text := to_string_lossy expanded in
  if negb (contains_glob pattern_text) then Ok [expanded] else
  let valid := fun found : list (outcome string) => omap ok found in
  valid <$> with_context ("invalid glob pattern: " +:+ pattern_text) (ev_glob env pattern_text).

Definition resolve_pattern (env : SourceEnv) (resolved : list string) (pattern : string)
    : outcome (list string) :=
  candidates ← expand_pattern env pattern;
  Ok (foldl (fun resolved candidate =>
        if ev_is_file env candidate then path_insert candidate resolved else resolved)
        resolved candidates).

Definition resolve_paths (env : SourceEnv) (entry : SourceEntry) : outcome (list string) :=
  ofold (resolve_pattern env) (se_paths entry) [].

Definition ledger_resolve_log_sources (env : SourceEnv) (name : string) (ledger : SourcesLedger)
    : outcome (list ResolvedSourcePath) :=
  entry ← ok_or (bget name ledger) ("source " +:+ name +:+ " not found");
  paths ← resolve_paths env entry;
  Ok (resolved_paths_to_log_sources name paths).

(** ** The registry *)

Definition registry_load (d : SourceDisk) : outcome SourceRegistry :=
  ledger ← ledger_load_from_path d; Ok (mkSourceRegistry ledger (modified_time d) []).

Definition refresh_if_changed : RegM unit := fun '(reg, d) =>
  if bool_decide (modified_time d = rg_loaded_modified reg) then (Ok tt, (reg, d)) else
  match ledger_load_from_path d with
  | Ok ledger => (Ok tt, (mkSourceRegistry ledger (modified_time d) [], d))
  | o => (_ ← o; Ok tt, (reg, d))
  end.

(** Every operation looks at the file first. *)
Definition reading_first {A} (f : SourceRegistry -> SourceDisk -> outcome A * (SourceRegistry * SourceDisk))
    : RegM A :=
  mbind (M := RegM) (fun _ '(reg, d) => f reg d) refresh_if_changed.

Definition registry_list : RegM (list SourceEntry) :=
  reading_first (fun reg d => (Ok (bvalues (rg_ledger reg)), (reg, d))).

Definition registry_get (name : string) : RegM (option SourceEntry) :=
  reading_first (fun reg d => (Ok (bget name (rg_ledger reg)), (reg, d))).

(** The file of the states; it is read for each operation. *)
Definition load_index_state_file (d : SourceDisk) : outcome StateFile :=
  match dk_states d with
  | None => Ok state_file_default
  | Some data => with_context "parse source index state" (states_from_str data)
  end.

Definition save_index_state_file (env : SourceEnv) (states : StateFile) (d : SourceDisk)
    : outcome unit * SourceDisk :=
  match ev_write_states env with
  | Ok _ => (Ok tt, mkSourceDisk (dk_ledger d) (Some (states_to_vec_pretty states)))
  | o => (o, d)
  end.

Definition index_state (name : string) (d : SourceDisk) : outcome (option SourceIndexState) :=
  file ← load_index_state_file d; Ok (bget name (st_sources file)).

Definition set_index_state (env : SourceEnv) (state : SourceIndexState) (d : SourceDisk)
    : outcome unit * SourceDisk :=
  match load_index_state_file d with
  | Ok file =>
      save_index_state_file env
        (mkStateFile SOURCE_INDEX_STATE_VERSION (binsert (si_name state) state (st_sources file))) d
  | o => (_ ← o; Ok tt, d)
  end.

Definition remove_index_state (env : SourceEnv) (name : string) (d : SourceDisk)
    : outcome unit * SourceDisk :=
  match load_index_state_file d with
  | Ok file =>
      if bcontains name (st_sources file)
      then save_index_state_file env (mkStateFile (st_version file) (bremove name (st_sources file))) d
      else (Ok tt, d)
  | o => (_ ← o; Ok tt, d)
  end.

(** The write of [add] and [remove]: what follows it only when it worked. *)
Definition after_write (name : string) (ledger : SourcesLedger) (reg : SourceRegistry)
    (d : SourceDisk) : SourceRegistry :=
  mkSourceRegistry ledger (modified_time d) (bremove name (rg_resolved reg)).

Definition registry_add (env : SourceEnv) (name : string) (paths : list string)
    (retention_seconds : option Z) : RegM SourceEntry :=
  reading_first (fun reg d =>
    let '(o, (ledger, d)) := add_at env name paths retention_seconds (rg_ledger reg) d in
    match o with
    | Ok _ =>
        (ok_or (bget name ledger) ("source " +:+ name +:+ " was not persisted"),
         (after_write name ledger reg d, d))
    | _ => (_ ← o; Panic, (mkSourceRegistry ledger (rg_loaded_modified reg) (rg_resolved reg), d))
    end).

Definition registry_remove (env : SourceEnv) (name : string) : RegM bool :=
  reading_first (fun reg d =>
    let '(o, (ledger, d)) := remove_at env name (rg_ledger reg) d in
    match o with
    | Ok true =>
        let '(o, d') := remove_index_state env name d in
        (_ ← o; Ok true, (after_write name ledger reg d, d'))
    | o => (o, (mkSourceRegistry ledger (rg_loaded_modified reg) (rg_resolved reg), d))
    end).

Definition registry_resolve (env : SourceEnv) (name : string) : RegM (list ResolvedSourcePath) :=
  reading_first (fun reg d =>
    if negb (bcontains name (rg_ledger reg))
    then (Err ("source " +:+ name +:+ " not found"), (reg, d)) else
    let resolve :=
      match ledger_resolve_log_sources env name (rg_ledger reg) with
      | Ok resolved =>
          (Ok resolved,
           (mkSourceRegistry (rg_ledger reg) (rg_loaded_modified reg)
              (binsert name (resolved, (ev_instant env + RESOLVED_SOURCE_CACHE_TTL)%Z)
                 (rg_resolved reg)), d))
      | o => (o, (reg, d))
      end in
    match bget name (rg_resolved reg) with
    | Some (paths, expires_at) =>
        if (ev_instant env <? expires_at)%Z then (Ok paths, (reg, d)) else resolve
    | None => resolve
    end).
End registry.
