(* ===== verification/SourcesInv.v ===== *)
(** * The registry of sources is one map

    The registry of [Sources] against its contract: a map of sources that other
    processes may replace, and a resolution of paths that may be two seconds old. *)

From S2P Require Import Prelude Bytes BMap Util Files Simulation Sources.
From Stdlib Require Import Lia ZArith.
From stdpp Require Import countable.

Section contract.
Context `{SourceFilesLaws} (home : option string).
(** The file system as it is at a time. *)
Context (glob_at : Z -> string -> outcome (list (outcome string))).
Context (is_file_at : Z -> string -> bool).

Inductive SourceLabel :=
  | LList (r : list SourceEntry)
  | LGet (name : string) (r : option SourceEntry)
  | LAdd (name : string) (paths : list string) (retention : option Z) (now : string)
         (r : outcome SourceEntry)
  | LRemove (name : string) (r : outcome bool)
  | LResolve (name : string) (r : outcome (list ResolvedSourcePath))
  | LOther (ledger : SourcesLedger).

(** ** The registry, its files and the clock *)

Record SourceSystem := mkSourceSystem {
  sy_registry : SourceRegistry;
  sy_disk : SourceDisk;
  sy_clock : Z;
  sy_stamp : Z;
}.

(** Writes work, and each of them is later than what was written before. *)
Definition env_ok (env : SourceEnv) (s : SourceSystem) : Prop :=
  ev_write env = Ok tt /\ (sy_stamp s < ev_modified env)%Z /\ (sy_clock s <= ev_instant env)%Z /\
  ev_glob env = glob_at (ev_instant env) /\ ev_is_file env = is_file_at (ev_instant env).

Definition u64_opt (n : option Z) : Prop := forall k, n = Some k -> (0 <= k <= u64_max)%Z.

(** One operation of the registry, by its label. *)
Definition performs (env : SourceEnv) (l : SourceLabel) (s : SourceRegistry * SourceDisk)
    (s' : SourceRegistry * SourceDisk) : Prop :=
  match l with
  | LList r => registry_list s = (Ok r, s')
  | LGet name r => registry_get name s = (Ok r, s')
  | LAdd name paths retention now r =>
      now = ev_now env /\ u64_opt retention /\ registry_add env name paths retention s = (r, s')
  | LRemove name r => registry_remove env name s = (r, s')
  | LResolve name r => registry_resolve home env name s = (r, s')
  | LOther _ => False
  end.

Inductive source_step : SourceSystem -> SourceLabel -> SourceSystem -> Prop :=
  | step_performs env s l reg d :
      env_ok env s -> performs env l (sy_registry s, sy_disk s) (reg, d) ->
      source_step s l (mkSourceSystem reg d (ev_instant env) (ev_modified env))
  | step_other s ledger text stamp :
      ledger_ok ledger -> ledger_from_str text = Ok ledger -> (sy_stamp s < stamp)%Z ->
      source_step s (LOther ledger)
        (mkSourceSystem (sy_registry s) (mkSourceDisk (Some (text, stamp)) (dk_states (sy_disk s)))
           (sy_clock s) stamp).

(** ** The contract *)

Definition resolution_at (t : Z) (name : string) (entry : SourceEntry)
    : outcome (list ResolvedSourcePath) :=
  paths ← resolve_paths home (mkSourceEnv "" t (Ok tt) 0 (Ok tt) (glob_at t) (is_file_at t)) entry;
  Ok (resolved_paths_to_log_sources name paths).

(** A valid source: what [add] stores of it. *)
Definition normalized (paths : list string) : list string :=
  List.filter (fun p => negb (bool_decide (p = ""))) (map str_trim paths).

Inductive contract_step : SourcesLedger * Z -> SourceLabel -> SourcesLedger * Z -> Prop :=
  | spec_list m t t' : (t <= t')%Z -> contract_step (m, t) (LList (bvalues m)) (m, t')
  | spec_get m t t' name : (t <= t')%Z -> contract_step (m, t) (LGet name (bget name m)) (m, t')
  | spec_add m t t' name paths retention now entry :
      (t <= t')%Z -> str_trim name <> "" -> normalized paths <> [] ->
      entry = mkSourceEntry name (normalized paths) now retention ->
      contract_step (m, t) (LAdd name paths retention now (Ok entry)) (binsert name entry m, t')
  | spec_add_refused m t t' name paths retention now e :
      (t <= t')%Z -> str_trim name = "" \/ normalized paths = [] ->
      contract_step (m, t) (LAdd name paths retention now (Err e)) (m, t')
  | spec_remove m t t' name r :
      (t <= t')%Z -> bcontains name m = true -> r <> Ok false ->
      contract_step (m, t) (LRemove name r) (bremove name m, t')
  | spec_remove_none m t t' name :
      (t <= t')%Z -> bcontains name m = false ->
      contract_step (m, t) (LRemove name (Ok false)) (m, t')
  | spec_resolve_none m t t' name e :
      (t <= t')%Z -> bget name m = None -> contract_step (m, t) (LResolve name (Err e)) (m, t')
  | spec_resolve m t t' name entry t0 :
      (t <= t')%Z -> bget name m = Some entry -> (t' - RESOLVED_SOURCE_CACHE_TTL < t0 <= t')%Z ->
      contract_step (m, t) (LResolve name (resolution_at t0 name entry)) (m, t')
  | spec_other m t m' : contract_step (m, t) (LOther m') (m', t).

(** ** The refinement *)

Definition cache_ok (clock : Z) (reg : SourceRegistry) : Prop :=
  forall name paths expires, bget name (rg_resolved reg) = Some (paths, expires) ->
  exists entry t0, bget name (rg_ledger reg) = Some entry /\ (t0 <= clock)%Z /\
    expires = (t0 + RESOLVED_SOURCE_CACHE_TTL)%Z /\ resolution_at t0 name entry = Ok paths.

Definition on_disk (d : SourceDisk) (m : SourcesLedger) (stamp : Z) : Prop :=
  ledger_ok m /\
  match dk_ledger d with
  | None => m = []
  | Some (text, st) => ledger_from_str text = Ok m /\ (st <= stamp)%Z
  end.

(** The registry has read the file as it is. *)
Definition is_fresh (reg : SourceRegistry) (d : SourceDisk) (m : SourcesLedger) (clock : Z) : Prop :=
  rg_ledger reg = m /\ rg_loaded_modified reg = modified_time d /\
  bwf (rg_resolved reg) /\ cache_ok clock reg.

Definition represents (s : SourceSystem) (a : SourcesLedger * Z) : Prop :=
  sy_clock s = a.2 /\ on_disk (sy_disk s) a.1 (sy_stamp s) /\
  (forall st, rg_loaded_modified (sy_registry s) = Some st -> (st <= sy_stamp s)%Z) /\
  bwf (rg_resolved (sy_registry s)) /\ cache_ok (sy_clock s) (sy_registry s) /\
  (rg_loaded_modified (sy_registry s) = modified_time (sy_disk s) ->
   rg_ledger (sy_registry s) = a.1).

Lemma refresh_fresh s a t :
  represents s a -> (sy_clock s <= t)%Z ->
  exists reg, refresh_if_changed (sy_registry s, sy_disk s) = (Ok tt, (reg, sy_disk s)) /\
    is_fresh reg (sy_disk s) a.1 t.
Proof.
  intros (Hclock & [Hok Hdisk] & Hst & Hbwf & Hcache & Hsame) Ht. unfold refresh_if_changed.
  case_bool_decide as Hm.
  - exists (sy_registry s). split; [done|]. split_and!; [by apply Hsame|done|done|].
    intros name paths expires Hg. destruct (Hcache _ _ _ Hg) as (e & t0 & ? & ? & ? & ?).
    exists e, t0. split_and!; [done|lia|done..].
  - assert (ledger_load_from_path (sy_disk s) = Ok a.1) as ->.
    { unfold ledger_load_from_path. destruct (dk_ledger (sy_disk s)) as [[text st]|]; [|by rewrite Hdisk].
      destruct Hdisk as [Hd _]. by rewrite Hd. }
    eexists. split; [done|]. split_and!; [done..|constructor|]. intros ? ? ? Hg. done.
Qed.

(** The same for an operation: it runs on the registry that has read the file. *)
Lemma fresh_runs s a t :
  represents s a -> (sy_clock s <= t)%Z ->
  exists reg, is_fresh reg (sy_disk s) a.1 t /\
    forall A f, reading_first (A := A) f (sy_registry s, sy_disk s) = f reg (sy_disk s).
Proof.
  intros Hr Ht. destruct (refresh_fresh s a t Hr Ht) as (reg & E & Hf). exists reg. split; [done|].
  intros A f. unfold reading_first, mbind, st_bind. by rewrite E.
Qed.

Lemma fresh_represents reg d d' m t stamp stamp' :
  is_fresh reg d m t -> on_disk d m stamp -> dk_ledger d' = dk_ledger d -> (stamp < stamp')%Z ->
  represents (mkSourceSystem reg d' t stamp') (m, t).
Proof.
  intros (Hm & Hl & Hb & Hc) [Hok Hd] Heq Hst. unfold represents, on_disk, modified_time in *.
  cbn [sy_clock sy_disk sy_registry sy_stamp fst snd]. rewrite Heq, Hl.
  destruct (dk_ledger d) as [[text st]|]; [destruct Hd as [Hd Hle]|]; split_and!; try done; [lia|].
  intros ? [= <-]. simpl. lia.
Qed.

(** A ledger that is written and differs from the old one at one name only. *)
Lemma written_represents reg d d' m m' name t stamp :
  is_fresh reg d m t -> ledger_ok m' -> (forall n, n <> name -> bget n m' = bget n m) ->
  dk_ledger d' = Some (ledger_to_vec_pretty m', stamp) ->
  represents (mkSourceSystem (after_write name m' reg d') d' t stamp) (m', t).
Proof.
  intros (Hm & Hl & Hb & Hc) Hok Hsame Hd. unfold represents, on_disk, after_write, modified_time.
  cbn [sy_clock sy_disk sy_registry sy_stamp fst snd rg_ledger rg_loaded_modified rg_resolved].
  rewrite Hd. split_and!; try done.
  - by apply ledger_roundtrip.
  - by intros ? [= <-].
  - by apply bwf_bremove.
  - intros n paths expires. cbn [rg_resolved]. rewrite bget_bremove.
    destruct (keqb name n) eqn:E; [done|]. intros Hg. destruct (Hc _ _ _ Hg) as (e & t0 & He & Hrest).
    exists e, t0. split; [|done]. cbn [rg_ledger]. apply keqb_false in E. by rewrite Hsame, <- Hm.
Qed.

Lemma ledger_ok_add m name paths now retention :
  ledger_ok m -> u64_opt retention -> ledger_ok (binsert name (mkSourceEntry name paths now retention) m).
Proof.
  intros [Hb Hm] Hr. split; [by apply bwf_binsert|]. intros n e k. rewrite bget_binsert.
  destruct (keqb name n); [|apply Hm]. intros [= <-]. apply Hr.
Qed.

Lemma ledger_ok_remove m name : ledger_ok m -> ledger_ok (bremove name m).
Proof.
  intros [Hb Hm]. split; [by apply bwf_bremove|]. intros n e k. rewrite bget_bremove.
  destruct (keqb name n); [done|apply Hm].
Qed.

Lemma add_simulated env s a name paths retention r reg d :
  represents s a -> env_ok env s -> u64_opt retention ->
  registry_add env name paths retention (sy_registry s, sy_disk s) = (r, (reg, d)) ->
  exists a', contract_step a (LAdd name paths retention (ev_now env) r) a' /\
    represents (mkSourceSystem reg d (ev_instant env) (ev_modified env)) a'.
Proof.
  intros Hr (Hw & Hst & Ht & _) Hu. destruct a as [m t]. pose proof Hr as (Hclock & Hdisk & _).
  cbn [fst snd] in *. destruct (fresh_runs s _ _ Hr Ht) as (reg' & Hf & Hrun).
  unfold registry_add. rewrite Hrun. unfold add_at. fold (normalized paths).
  pose proof Hf as (Hm & _). cbn [fst] in *. rewrite Hm.
  case_bool_decide as Hname; [|case_bool_decide as Hpaths].
  1,2: intros [= <- <- <-]; exists (m, ev_instant env); split;
    [apply spec_add_refused; [lia|tauto]|].
  1,2: destruct reg' as [l lm res]; cbn [rg_ledger rg_loaded_modified rg_resolved] in *; subst l;
    by eapply fresh_represents.
  unfold save_to_path. rewrite Hw. cbv beta iota zeta. rewrite bget_binsert_eq. cbn [ok_or].
  intros [= <- <- <-]. eexists (_, ev_instant env). split; [by apply spec_add; [lia|..]|].
  apply (written_represents _ (sy_disk s) _ m _ name); try done.
  - apply ledger_ok_add; [apply Hdisk|done].
  - intros n Hn. by apply bget_binsert_ne.
Qed.

Lemma remove_simulated env s a name r reg d :
  represents s a -> env_ok env s ->
  registry_remove env name (sy_registry s, sy_disk s) = (r, (reg, d)) ->
  exists a', contract_step a (LRemove name r) a' /\
    represents (mkSourceSystem reg d (ev_instant env) (ev_modified env)) a'.
Proof.
  intros Hr (Hw & Hst & Ht & _). destruct a as [m t]. pose proof Hr as (Hclock & Hdisk & _).
  cbn [fst snd] in *. destruct (fresh_runs s _ _ Hr Ht) as (reg' & Hf & Hrun).
  unfold registry_remove. rewrite Hrun. unfold remove_at. pose proof Hf as (Hm & _).
  cbn [fst] in *. rewrite Hm. destruct (bcontains name m) eqn:Hc.
  - unfold save_to_path. rewrite Hw. cbn [mbind outcome_bind]. set (d1 := mkSourceDisk _ _).
    assert (dk_ledger (remove_index_state env name d1).2 = dk_ledger d1) as Hsame.
    { unfold remove_index_state, save_index_state_file. by repeat case_match. }
    destruct (remove_index_state env name d1) as [o d2] eqn:E. cbn [snd] in Hsame.
    intros [= <- <- <-]. exists (bremove name m, ev_instant env). split.
    + apply spec_remove; [lia|done|]. by destruct o.
    + assert (after_write name (bremove name m) reg' d1 = after_write name (bremove name m) reg' d2)
        as -> by (unfold after_write, modified_time; by rewrite Hsame).
      apply (written_represents _ (sy_disk s) _ m _ name); try done.
      * by apply ledger_ok_remove, Hdisk.
      * intros n Hn. rewrite bget_bremove. by apply not_eq_sym, keqb_false in Hn as ->.
  - intros [= <- <- <-]. exists (m, ev_instant env). split; [apply spec_remove_none; [lia|done]|].
    assert (bremove name m = m) as ->.
    { apply bremove_absent. unfold bcontains in Hc. by destruct (bget name m). }
    destruct reg' as [l lm res]. cbn [rg_ledger rg_loaded_modified rg_resolved] in *. subst l.
    by eapply fresh_represents.
Qed.

Lemma resolve_simulated env s a name r reg d :
  represents s a -> env_ok env s ->
  registry_resolve home env name (sy_registry s, sy_disk s) = (r, (reg, d)) ->
  exists a', contract_step a (LResolve name r) a' /\
    represents (mkSourceSystem reg d (ev_instant env) (ev_modified env)) a'.
Proof.
  intros Hr (Hw & Hst & Ht & Hglob & Hfile). destruct a as [m t].
  pose proof Hr as (Hclock & Hdisk & _).
  cbn [fst snd] in *. destruct (fresh_runs s _ _ Hr Ht) as (reg' & Hf & Hrun).
  unfold registry_resolve. rewrite Hrun. pose proof Hf as (Hm & Hl & Hb & Hcache). cbn [fst] in *.
  unfold bcontains. rewrite Hm. destruct (bget name m) as [entry|] eqn:He; cbn [negb].
  2: { intros [= <- <- <-]. exists (m, ev_instant env).
       split; [by apply spec_resolve_none; [lia|]|by eapply fresh_represents]. }
  assert (ledger_resolve_log_sources home env name m = resolution_at (ev_instant env) name entry)
    as Hres.
  { unfold ledger_resolve_log_sources, resolution_at. rewrite He. cbn [ok_or].
    destruct env; cbn in *. by subst. }
  set (now := ev_instant env) in *. rewrite Hres.
  assert (forall o reg1, (o, (reg1, sy_disk s)) = (r, (reg, d)) ->
    is_fresh reg1 (sy_disk s) m now ->
    (exists t0, (now - RESOLVED_SOURCE_CACHE_TTL < t0 <= now)%Z /\ o = resolution_at t0 name entry) ->
    exists a', contract_step (m, t) (LResolve name r) a' /\
      represents (mkSourceSystem reg d now (ev_modified env)) a') as Hdone.
  { intros o reg1 [= <- <- <-] Hf1 (t0 & Ht0 & ->). exists (m, now).
    split; [by apply spec_resolve; [lia|..]|by eapply fresh_represents]. }
  assert (exists t0, (now - RESOLVED_SOURCE_CACHE_TTL < t0 <= now)%Z /\
    resolution_at now name entry = resolution_at t0 name entry) as Hnow
    by (exists now; unfold RESOLVED_SOURCE_CACHE_TTL; split; [lia|done]).
  assert (forall paths, resolution_at now name entry = Ok paths ->
    is_fresh (mkSourceRegistry m (rg_loaded_modified reg')
      (binsert name (paths, (now + RESOLVED_SOURCE_CACHE_TTL)%Z) (rg_resolved reg'))) (sy_disk s) m now)
    as Hstored.
  { intros paths Hp. split_and!; [done|done|by apply bwf_binsert|].
    intros n ps ex. cbn [rg_resolved rg_ledger]. rewrite bget_binsert.
    destruct (keqb name n) eqn:E; [|intros Hg; rewrite <- Hm; by apply Hcache].
    apply keqb_true in E as <-. intros [= <- <-]. by exists entry, now. }
  destruct (bget name (rg_resolved reg')) as [[paths expires]|] eqn:Hc;
    [destruct (Z.ltb_spec now expires)|].
  { intros Heq. apply (Hdone _ _ Heq Hf). destruct (Hcache _ _ _ Hc) as (e & t0 & He' & Hle & -> & Hp).
    rewrite Hm, He in He'. injection He' as <-. exists t0. split; [lia|done]. }
  all: destruct (resolution_at now name entry) as [ps|e| |]; intros Heq;
    [exact (Hdone _ _ Heq (Hstored _ eq_refl) Hnow)|exact (Hdone _ _ Heq Hf Hnow)..].
Qed.

Lemma registry_simulates : simulates source_step contract_step represents.
Proof.
  intros s a l s' Hr Hstep. destruct Hstep as [env s l reg d Henv Hp|s ledger text stamp Hok Htext Hst].
  - pose proof Henv as (_ & Hst & Ht & _).
    destruct l as [r|name r|name paths retention now r|name r|name r|]; cbn [performs] in Hp.
    + destruct (fresh_runs s _ _ Hr Ht) as (reg' & Hf & Hrun). unfold registry_list in Hp.
      rewrite Hrun in Hp. injection Hp as <- <- <-. destruct a as [m t]. pose proof Hf as (Hm & _).
      cbn [fst] in *. rewrite Hm. pose proof Hr as (Hc & Hd & _). cbn [snd] in Hc.
      exists (m, ev_instant env). split; [apply spec_list; lia|by eapply fresh_represents].
    + destruct (fresh_runs s _ _ Hr Ht) as (reg' & Hf & Hrun). unfold registry_get in Hp.
      rewrite Hrun in Hp. injection Hp as <- <- <-. destruct a as [m t]. pose proof Hf as (Hm & _).
      cbn [fst] in *. rewrite Hm. pose proof Hr as (Hc & Hd & _). cbn [snd] in Hc.
      exists (m, ev_instant env). split; [apply spec_get; lia|by eapply fresh_represents].
    + destruct Hp as (-> & Hu & Hp). by apply (add_simulated env s a name paths retention).
    + by apply (remove_simulated env s a name).
    + by apply (resolve_simulated env s a name).
    + done.
  - destruct a as [m t]. exists (ledger, t). split; [constructor|].
    destruct Hr as (Hc & Hd & Hl & Hb & Hcache & _). unfold represents, on_disk, modified_time.
    cbn [sy_clock sy_disk sy_registry sy_stamp fst snd dk_ledger] in *.
    split_and!; try done.
    + intros st Hs. apply Hl in Hs. lia.
    + intros Hs. apply Hl in Hs. simpl in Hs. lia.
Qed.
End contract.

(** C18: the registry is one map.  Whatever the registry of the daemon is asked, and
    however other processes replace the ledger meanwhile, its answers are those of a
    single map: every source that was added and not removed, with its paths, and no
    other; and the files of a source are those of its entry as it is, in the file
    system of at most two seconds before.  Writes of the ledger work here, and each
    changes its time of modification. *)
Theorem registry_is_one_map `{SourceFilesLaws} (home : option string)
    (glob_at : Z -> string -> outcome (list (outcome string))) (is_file_at : Z -> string -> bool)
    (reg : SourceRegistry) (d : SourceDisk) (m : SourcesLedger) (clock stamp : Z)
    (labels : list SourceLabel) (s' : SourceSystem) :
  on_disk d m stamp -> registry_load d = Ok reg ->
  history (source_step home glob_at is_file_at) (mkSourceSystem reg d clock stamp) labels s' ->
  exists a', history (contract_step home glob_at is_file_at) (m, clock) labels a' /\
    on_disk (sy_disk s') a'.1 (sy_stamp s').
Proof.
  intros Hdisk Hload Hhist. pose proof Hdisk as [Hok Hd].
  assert (represents home glob_at is_file_at (mkSourceSystem reg d clock stamp) (m, clock)) as Hr.
  { unfold registry_load, ledger_load_from_path, modified_time in Hload.
    unfold represents, modified_time. cbn [sy_clock sy_disk sy_registry sy_stamp fst snd].
    destruct (dk_ledger d) as [[text st]|]; [destruct Hd as [Hd Hle]; rewrite Hd in Hload|subst m];
      cbn in Hload; injection Hload as <-; split_and!; try done; try constructor.
    by intros ? [= <-]. }
  destruct (simulates_history _ _ _ _ _ _ _ (registry_simulates home glob_at is_file_at) Hr Hhist)
    as (a' & Ha & Hr').
  exists a'. split; [done|apply Hr'].
Qed.

(** A write that fails.  The source stays in the memory of the daemon (or is gone
    from it, when it is removed) although the command fails and the file is as it
    was; the next source that is added takes it to the file. *)
Theorem failed_write_diverges `{SourceFilesLaws} (env env2 : SourceEnv) (reg : SourceRegistry)
    (d : SourceDisk) (m : SourcesLedger) (name other e : string) (paths paths2 : list string)
    (retention : option Z) :
  rg_ledger reg = m -> rg_loaded_modified reg = modified_time d ->
  str_trim name <> "" -> normalized paths <> [] -> str_trim other <> "" -> normalized paths2 <> [] ->
  ev_write env = Err e -> ev_write env2 = Ok tt ->
  let entry := mkSourceEntry name (normalized paths) (ev_now env) retention in
  let entry2 := mkSourceEntry other (normalized paths2) (ev_now env2) None in
  let '(added, (reg1, d1)) := registry_add env name paths retention (reg, d) in
  added = Err e /\ d1 = d /\
  registry_get name (reg1, d1) = (Ok (Some entry), (reg1, d1)) /\
  (let '(r, (_, d2)) := registry_add env2 other paths2 None (reg1, d1) in
   r = Ok entry2 /\
   dk_ledger d2 = Some (ledger_to_vec_pretty (binsert other entry2 (binsert name entry m)),
                        ev_modified env2)) /\
  (bcontains name m = true ->
   let '(removed, (reg3, d3)) := registry_remove env name (reg, d) in
   removed = Err e /\ d3 = d /\ registry_get name (reg3, d3) = (Ok None, (reg3, d3))).
Proof.
  intros Hm Hl Hname Hpaths Hother Hpaths2 Hfail Hwork. cbv zeta.
  unfold registry_add, registry_get, registry_remove, reading_first, mbind, st_bind, refresh_if_changed.
  rewrite Hl, bool_decide_eq_true_2 by done. unfold add_at, remove_at, save_to_path.
  fold (normalized paths) (normalized paths2). rewrite !bool_decide_eq_false_2, Hfail by done.
  cbv beta iota zeta. cbn [rg_ledger rg_loaded_modified]. rewrite Hl, bool_decide_eq_true_2 by done.
  cbv beta iota zeta. rewrite Hwork. cbv beta iota zeta.
  cbn [rg_ledger rg_loaded_modified dk_ledger]. rewrite Hm, !bget_binsert_eq.
  split_and!; try done. intros ->. cbn [mbind outcome_bind]. cbv beta iota zeta.
  cbn [rg_ledger rg_loaded_modified]. split_and!; [done..|].
  rewrite bool_decide_eq_true_2 by done. cbv beta iota zeta. cbn [rg_ledger].
  rewrite bget_bremove, keqb_refl. done.
Qed.

(** ** A concrete registry *)

#[local] Instance source_entry_countable : Countable SourceEntry.
Proof.
  refine (inj_countable' (fun e => (se_name e, se_paths e, se_created_at e, se_retention_seconds e))
    (fun '(a, b, c, d) => mkSourceEntry a b c d) _). by intros [].
Defined.

#[local] Instance status_eq_dec : EqDecision SourceIndexStatus.
Proof. solve_decision. Defined.
#[local] Instance file_state_eq_dec : EqDecision SourceFileIndexState.
Proof. solve_decision. Defined.
#[local] Instance index_state_eq_dec : EqDecision SourceIndexState.
Proof. solve_decision. Defined.
#[local] Instance state_file_eq_dec : EqDecision StateFile.
Proof. solve_decision. Defined.

#[local] Instance status_countable : Countable SourceIndexStatus.
Proof.
  refine (inj_countable
    (fun s => match s with Queued => 0 | Indexing => 1 | Current => 2 | SourceError => 3 end)
    (fun n => match n with 0 => Some Queued | 1 => Some Indexing | 2 => Some Current
              | _ => Some SourceError end) _). by intros [].
Defined.

#[local] Instance file_state_countable : Countable SourceFileIndexState.
Proof.
  refine (inj_countable' (fun f =>
      ((sx_service f, sx_path f, sx_len f, sx_modified_nanos f),
       (sx_indexed_offset f, sx_next_seq f, sx_first_ts_nanos f, sx_last_ts_nanos f),
       sx_skipped_by_retention f))
    (fun '((a, b, c, d), (e, f, g, h), i) => mkSourceFileIndexState a b c d e f g h i) _).
  by intros [].
Defined.

#[local] Instance index_state_countable : Countable SourceIndexState.
Proof.
  refine (inj_countable' (fun s =>
      ((si_name s, si_run_id s, si_status s, si_retention_seconds s, si_retention_cutoff_nanos s),
       (si_retained_docs s, si_retained_through_nanos s, si_files s, si_last_indexed_at s, si_error s)))
    (fun '((a, b, c, d, e), (f, g, h, i, j)) => mkSourceIndexState a b c d e f g h i j) _).
  by intros [].
Defined.

#[local] Instance state_file_countable : Countable StateFile.
Proof.
  refine (inj_countable' (fun s => (st_version s, st_sources s)) (fun '(a, b) => mkStateFile a b) _).
  by intros [].
Defined.

Definition print_encoded {A} `{Countable A} (a : A) : string :=
  of_bytes (digits_of_pos (encode a) ++ ["}"%char]).

Definition read_encoded {A} `{Countable A} (s : string) : outcome A :=
  ok_or (decode (pos_of_digits (to_bytes s))) "not a number".

Lemma read_print {A} `{Countable A} (a : A) : read_encoded (print_encoded a) = Ok a.
Proof. unfold read_encoded, print_encoded. by rewrite to_of_bytes, pos_digits_end, decode_encode. Qed.

#[local] Instance concrete_source_files : SourceFiles :=
  {| ledger_to_vec_pretty := print_encoded; ledger_from_str := read_encoded;
     states_to_vec_pretty := print_encoded; states_from_str := read_encoded |}.

#[local] Instance concrete_source_laws : SourceFilesLaws.
Proof. split; intros; apply read_print. Qed.

Definition no_glob (_ : Z) (_ : string) : outcome (list (outcome string)) := Ok [].

Definition sample_env (write : outcome unit) (instant : Z) : SourceEnv :=
  mkSourceEnv "t0" instant write instant (Ok tt) (no_glob instant) (fun _ => true).

Definition app_entry : SourceEntry := mkSourceEntry "app" ["/a.log"] "t0" None.

(** A source is added, and its files resolved; then another process empties the
    ledger. *)
Definition sample_labels : list SourceLabel :=
  [LAdd "app" [" /a.log"; ""] None "t0" (Ok app_entry);
   LResolve "app" (Ok [mkResolved "app" "/a.log"]); LOther []; LGet "app" None].

Lemma registry_is_one_map_witness :
  exists s' a',
    history (source_step None no_glob (fun _ _ => true))
      (mkSourceSystem (mkSourceRegistry [] None []) (mkSourceDisk None None) 0 0) sample_labels s' /\
    history (contract_step None no_glob (fun _ _ => true)) ([], 0%Z) sample_labels a'.
Proof.
  assert (exists s', history (source_step None no_glob (fun _ _ => true))
    (mkSourceSystem (mkSourceRegistry [] None []) (mkSourceDisk None None) 0 0) sample_labels s')
    as [s' Hs'].
  { eexists. econstructor; [apply (step_performs _ _ _ (sample_env (Ok tt) 1)); [by split_and!|]|].
    { split_and!; [done..|]. vm_compute. reflexivity. }
    econstructor; [apply (step_performs _ _ _ (sample_env (Ok tt) 2)); [by split_and!|]|].
    { vm_compute. reflexivity. }
    econstructor; [apply (step_other _ _ _ _ [] (print_encoded ([] : SourcesLedger)) 3)|].
    { split; [constructor|]. by intros. }
    { apply read_print. }
    { done. }
    econstructor; [apply (step_performs _ _ _ (sample_env (Ok tt) 4)); [by split_and!|]|].
    { vm_compute. reflexivity. }
    constructor. }
  destruct (registry_is_one_map None no_glob (fun _ _ => true) (mkSourceRegistry [] None [])
    (mkSourceDisk None None) [] 0 0 sample_labels s') as (a' & Ha & _).
  - split; [|done]. split; [constructor|]. by intros.
  - done.
  - done.
  - by exists s', a'.
Defined.

Lemma failed_write_diverges_witness :
  let '(added, (reg, d)) :=
    registry_add (sample_env (Err "disk full") 1) "app" ["/a.log"] None
      (mkSourceRegistry [] None [], mkSourceDisk None None) in
  added = Err "disk full" /\ d = mkSourceDisk None None /\
  registry_get "app" (reg, d) = (Ok (Some app_entry), (reg, d)).
Proof.
  pose proof (failed_write_diverges (sample_env (Err "disk full") 1) (sample_env (Ok tt) 2)
    (mkSourceRegistry [] None []) (mkSourceDisk None None) [] "app" "web" "disk full" ["/a.log"]
    ["/b.log"] None) as H.
  do 8 (specialize (H ltac:(vm_compute; (reflexivity || discriminate)))).
  cbv zeta in H. destruct (registry_add _ _ _ _ _) as [added [reg d]]. by destruct H as (? & ? & ? & _).
Defined.
