(* ===== verification/Sessions.v ===== *)
(** * Agent sessions and the navigation intent

    Models [src/stores/agent_sessions.rs], [src/model/agent_session.rs] and
    [src/app/commands/agent.rs] (the sessions of agents and their queues of
    messages), and [src/stores/navigation.rs].  Every operation on the sessions
    first drops those whose process is gone; [kill] answers [kill(pid, 0)] with
    [None] or an [errno]. *)

From S2P Require Import Prelude Bytes BMap.
From Stdlib Require Import Lia ZArith.

Record AgentSessionState := mkSession {
  as_agent_id : string;
  as_project_dir : string;
  as_stack : option string;
  as_command : string;
  as_pid : Z;
  as_created_at : string;
  as_pending_messages : list string;
}.

Definition AgentSessionState_new (now agent_id project_dir : string) (stack : option string)
    (command : string) (pid : Z) : AgentSessionState :=
  mkSession agent_id project_dir stack command pid now [].

(** The length of the queue, and the session. *)
Definition session_queue_message (message : string) (s : AgentSessionState)
    : nat * AgentSessionState :=
  let queue := as_pending_messages s ++ [message] in
  (length queue, mkSession (as_agent_id s) (as_project_dir s) (as_stack s) (as_command s) (as_pid s)
                   (as_created_at s) queue).

Definition drain_messages (s : AgentSessionState) : list string * AgentSessionState :=
  (as_pending_messages s, mkSession (as_agent_id s) (as_project_dir s) (as_stack s) (as_command s)
                            (as_pid s) (as_created_at s) []).

Definition session_update (project_dir : string) (stack : option string) (command : string) (pid : Z)
    (s : AgentSessionState) : AgentSessionState :=
  mkSession (as_agent_id s) project_dir stack command pid (as_created_at s) (as_pending_messages s).

Definition AgentSessionStore : Type := bmap string AgentSessionState.

(** The answers of the API carry everything but the messages. *)
Record AgentSession := mkAgentSession {
  ag_agent_id : string;
  ag_project_dir : string;
  ag_stack : option string;
  ag_command : string;
  ag_pid : Z;
  ag_created_at : string;
}.

Definition convert_to_api_session (s : AgentSessionState) : AgentSession :=
  mkAgentSession (as_agent_id s) (as_project_dir s) (as_stack s) (as_command s) (as_pid s)
    (as_created_at s).

Definition EPERM : Z := 1.

Section store.
Context (kill : Z -> option Z).

Definition session_pid_alive (pid : Z) : bool :=
  if (pid =? 0)%Z || (i32_max <? pid)%Z then false
  else match kill pid with
       | None => true
       | Some err => (err =? EPERM)%Z
       end.

Definition cleanup_stale_sessions_internal (sessions : AgentSessionStore) : AgentSessionStore :=
  bretain (fun _ session => session_pid_alive (as_pid session)) sessions.

Definition register_session (now agent_id project_dir : string) (stack : option string)
    (command : string) (pid : Z) (sessions : AgentSessionStore)
    : AgentSession * AgentSessionStore :=
  let sessions := cleanup_stale_sessions_internal sessions in
  let entry := default (AgentSessionState_new now agent_id project_dir stack command pid)
                 (bget agent_id sessions) in
  let entry := session_update project_dir stack command pid entry in
  (convert_to_api_session entry, binsert agent_id entry sessions).

Definition unregister_session (agent_id : string) (sessions : AgentSessionStore)
    : bool * AgentSessionStore :=
  let sessions := cleanup_stale_sessions_internal sessions in
  (bcontains agent_id sessions, bremove agent_id sessions).

Definition not_found (agent_id : string) : string :=
  "agent session " +:+ agent_id +:+ " not found".

Definition queue_message (agent_id message : string) (sessions : AgentSessionStore)
    : outcome nat * AgentSessionStore :=
  let sessions := cleanup_stale_sessions_internal sessions in
  match bget agent_id sessions with
  | None => (Err (not_found agent_id), sessions)
  | Some session =>
      let '(queued, session) := session_queue_message message session in
      (Ok queued, binsert agent_id session sessions)
  end.

Definition poll_messages (agent_id : string) (sessions : AgentSessionStore)
    : outcome (list string) * AgentSessionStore :=
  let sessions := cleanup_stale_sessions_internal sessions in
  match bget agent_id sessions with
  | None => (Err (not_found agent_id), sessions)
  | Some session =>
      let '(messages, session) := drain_messages session in
      (Ok messages, binsert agent_id session sessions)
  end.

(** The order of [find_latest_for_project]: by time of creation, then by id. *)
Definition session_cmp (a b : AgentSessionState) : comparison :=
  match kcmp (as_created_at a) (as_created_at b) with
  | Eq => kcmp (as_agent_id a) (as_agent_id b)
  | c => c
  end.

(** [Iterator::max_by]: the last of the greatest. *)
Definition max_by {A} (cmp : A -> A -> comparison) (l : list A) : option A :=
  foldl (fun best x => match best with
                       | Some b => match cmp b x with Gt => Some b | _ => Some x end
                       | None => Some x
                       end) None l.

Definition find_latest_for_project (project_dir : string) (sessions : AgentSessionStore)
    : option AgentSession * AgentSessionStore :=
  let sessions := cleanup_stale_sessions_internal sessions in
  (convert_to_api_session <$>
     max_by session_cmp
       (List.filter (fun session => bool_decide (as_project_dir session = project_dir))
          (bvalues sessions)), sessions).

Definition list_sessions (sessions : AgentSessionStore) : list AgentSession * AgentSessionStore :=
  let sessions := cleanup_stale_sessions_internal sessions in
  (convert_to_api_session <$> bvalues sessions, sessions).

Definition cleanup_stale_sessions (sessions : AgentSessionStore) : nat * AgentSessionStore :=
  let kept := cleanup_stale_sessions_internal sessions in
  (length sessions - length kept, kept)%nat.
End store.

(** ** The commands *)

Definition unregister_agent_session (kill : Z -> option Z) (agent_id : string)
    (sessions : AgentSessionStore) : outcome unit * AgentSessionStore :=
  let '(removed, sessions) := unregister_session kill agent_id sessions in
  (if removed then Ok tt else Err (not_found agent_id), sessions).

Definition share_text (message : string) (command : option string) : string :=
  match command with
  | Some command =>
      if bool_decide (command = "") then message
      else message +:+ of_bytes [ascii_of_nat 10] +:+ "Run `" +:+ command +:+ "`"
  | None => message
  end.

(** Two calls on the store: [kill1] and [kill2] answer for each of them, and other
    calls may come in between: [meanwhile]. *)
Definition share_agent_message (kill1 kill2 : Z -> option Z)
    (meanwhile : AgentSessionStore -> AgentSessionStore) (project_dir message : string)
    (command : option string) (sessions : AgentSessionStore)
    : outcome (string * nat) * AgentSessionStore :=
  let '(session, sessions) := find_latest_for_project kill1 project_dir sessions in
  match session with
  | None => (Err ("no active agent session found for project " +:+ project_dir), sessions)
  | Some session =>
      let '(queued, sessions) :=
        queue_message kill2 (ag_agent_id session) (share_text message command)
          (meanwhile sessions) in
      ((queued ← queued; Ok (ag_agent_id session, queued)), sessions)
  end.

(** ** The navigation intent *)

Record NavigationIntent := mkIntent {
  ni_run_id : option string;
  ni_service : option string;
  ni_search : option string;
  ni_level : option string;
  ni_stream : option string;
  ni_since : option string;
  ni_last : option Z;
  ni_created_at : string;
}.

Definition NavigationStore : Type := option NavigationIntent.

Definition set_intent (intent : NavigationIntent) (_ : NavigationStore) : NavigationStore :=
  Some intent.
Definition get_intent (store : NavigationStore) : option NavigationIntent := store.
Definition clear_intent (store : NavigationStore) : bool * NavigationStore :=
  (bool_decide (is_Some store), None).
Definition update_intent (updater : NavigationIntent -> NavigationIntent) (store : NavigationStore)
    : bool * NavigationStore :=
  match store with
  | Some intent => (true, Some (updater intent))
  | None => (false, None)
  end.

(** [request] holds the fields of the request; the time is that of the call. *)
Definition set_navigation_intent (now : string) (request : NavigationIntent)
    (store : NavigationStore) : NavigationIntent * NavigationStore :=
  let intent := mkIntent (ni_run_id request) (ni_service request) (ni_search request)
                  (ni_level request) (ni_stream request) (ni_since request) (ni_last request) now in
  (intent, set_intent intent store).

(** ** Messages *)

Inductive SessionOp : Type :=
| OpRegister (now agent_id project_dir : string) (stack : option string) (command : string) (pid : Z)
| OpUnregister (agent_id : string)
| OpQueue (agent_id message : string)
| OpPoll (agent_id : string)
| OpFindLatest (project_dir : string)
| OpList
| OpCleanup.

(** One call on the store, with the answers of the system at that call. *)
Definition session_op (call : (Z -> option Z) * SessionOp) (sessions : AgentSessionStore)
    : AgentSessionStore :=
  let '(kill, op) := call in
  match op with
  | OpRegister now agent_id dir stack command pid =>
      (register_session kill now agent_id dir stack command pid sessions).2
  | OpUnregister agent_id => (unregister_session kill agent_id sessions).2
  | OpQueue agent_id message => (queue_message kill agent_id message sessions).2
  | OpPoll agent_id => (poll_messages kill agent_id sessions).2
  | OpFindLatest dir => (find_latest_for_project kill dir sessions).2
  | OpList => (list_sessions kill sessions).2
  | OpCleanup => (cleanup_stale_sessions kill sessions).2
  end.

Definition session_ops (calls : list ((Z -> option Z) * SessionOp)) (sessions : AgentSessionStore)
    : AgentSessionStore := foldl (fun sessions call => session_op call sessions) sessions calls.

(** The messages that are sent to an agent. *)
Definition sent (agent : string) (call : (Z -> option Z) * SessionOp) : list string :=
  match call.2 with
  | OpQueue agent_id message => if bool_decide (agent_id = agent) then [message] else []
  | _ => []
  end.

(** The messages that polls for the agent return, in order. *)
Fixpoint received (agent : string) (calls : list ((Z -> option Z) * SessionOp))
    (sessions : AgentSessionStore) : list string :=
  match calls with
  | [] => []
  | call :: calls =>
      match call.2 with
      | OpPoll agent_id =>
          if bool_decide (agent_id = agent)
          then default [] (ok (poll_messages call.1 agent_id sessions).1) else []
      | _ => []
      end ++ received agent calls (session_op call sessions)
  end.

(** The process of the agent lives through the call, and the agent stays registered. *)
Definition stays (agent : string) (pids : list Z) (call : (Z -> option Z) * SessionOp) : Prop :=
  (forall pid, pid ∈ pids -> session_pid_alive call.1 pid = true) /\
  match call.2 with
  | OpRegister _ agent_id _ _ _ pid => agent_id = agent -> pid ∈ pids
  | OpUnregister agent_id => agent_id <> agent
  | _ => True
  end.

Lemma bget_alive kill agent sessions session :
  bwf sessions -> bget agent sessions = Some session ->
  session_pid_alive kill (as_pid session) = true ->
  bget agent (cleanup_stale_sessions_internal kill sessions) = Some session.
Proof.
  intros Hw Hg Hl. unfold cleanup_stale_sessions_internal. rewrite bget_bretain by done.
  by rewrite Hg, Hl.
Qed.

Lemma bwf_session_op call sessions : bwf sessions -> bwf (session_op call sessions).
Proof.
  intros Hw. destruct call as [kill op].
  assert (bwf (cleanup_stale_sessions_internal kill sessions)) as Hc by by apply bwf_bretain.
  destruct op; simpl; try done.
  - by apply bwf_binsert.
  - by apply bwf_bremove.
  - unfold queue_message. destruct (bget _ _); [|done]. by apply bwf_binsert.
  - unfold poll_messages. destruct (bget _ _); [|done]. by apply bwf_binsert.
Qed.

(** One call moves messages only as sending and polling say. *)
Lemma session_op_messages agent pids call sessions session :
  bwf sessions -> bget agent sessions = Some session -> as_pid session ∈ pids ->
  stays agent pids call ->
  exists session', bget agent (session_op call sessions) = Some session' /\
    as_pid session' ∈ pids /\
    as_pending_messages session ++ sent agent call =
    received agent [call] sessions ++ as_pending_messages session'.
Proof.
  intros Hw Hg Hpid [Hlive Hst]. destruct call as [kill op]. simpl in *.
  pose proof (bget_alive kill agent sessions session Hw Hg (Hlive _ Hpid)) as Hc.
  rewrite app_nil_r. unfold sent. simpl.
  assert (forall b x, agent <> b ->
    bget agent (binsert b x (cleanup_stale_sessions_internal kill sessions)) = Some session) as Hne
    by (intros b x Hb; by rewrite bget_binsert_ne by congruence).
  destruct op as [now b dir stack cmd pid|b|b msg|b|dir| |]; simpl;
    try (exists session; by rewrite app_nil_r).
  - destruct (decide (b = agent)) as [->|Hb].
    + rewrite bget_binsert_eq, Hc. eexists. split; [done|]. simpl. rewrite app_nil_r. auto.
    + rewrite Hne by congruence. exists session. by rewrite app_nil_r.
  - rewrite bget_bremove, (proj2 (keqb_false b agent) Hst). exists session. by rewrite app_nil_r.
  - unfold queue_message. case_bool_decide as Hb.
    + subst b. rewrite Hc. simpl. rewrite bget_binsert_eq. by eexists.
    + destruct (bget b _); simpl; rewrite ?Hne by congruence; exists session; by rewrite app_nil_r.
  - unfold poll_messages. case_bool_decide as Hb.
    + subst b. rewrite Hc. simpl. rewrite bget_binsert_eq. by eexists.
    + destruct (bget b _); simpl; rewrite ?Hne by congruence; exists session; by rewrite app_nil_r.
Qed.

(** No message is lost, repeated or reordered. While an agent stays registered
    and its process lives, whatever else is registered, unregistered, queued or
    polled, the messages its polls returned followed by those that still wait are
    the ones that waited followed by the ones sent, in the order of sending. *)
Theorem messages_delivered_once (agent : string) (pids : list Z)
    (calls : list ((Z -> option Z) * SessionOp)) (sessions : AgentSessionStore)
    (session : AgentSessionState) :
  bwf sessions -> bget agent sessions = Some session -> as_pid session ∈ pids ->
  Forall (stays agent pids) calls ->
  exists session', bget agent (session_ops calls sessions) = Some session' /\
    as_pending_messages session ++ flat_map (sent agent) calls =
    received agent calls sessions ++ as_pending_messages session'.
Proof.
  intros Hw Hg Hp Hall. revert sessions session Hw Hg Hp.
  induction Hall as [|call calls Hst _ IH]; intros sessions session Hw Hg Hp.
  { exists session. simpl. by rewrite app_nil_r. }
  destruct (session_op_messages agent pids call sessions session Hw Hg Hp Hst)
    as (s1 & Hg1 & Hp1 & Heq1).
  destruct (IH (session_op call sessions) s1 (bwf_session_op _ _ Hw) Hg1 Hp1) as (s2 & Hg2 & Heq2).
  exists s2. split; [done|]. cbn [flat_map received]. cbn [received] in Heq1.
  rewrite app_nil_r in Heq1. by rewrite app_assoc, Heq1, <- !app_assoc, Heq2.
Qed.

(** ** A concrete run *)

Definition all_alive (_ : Z) : option Z := None.

Definition sample_calls : list ((Z -> option Z) * SessionOp) :=
  [(all_alive, OpQueue "a" "one"); (all_alive, OpRegister "t2" "b" "/q" None "codex" 8%Z);
   (all_alive, OpPoll "a"); (all_alive, OpQueue "b" "other");
   (all_alive, OpRegister "t3" "a" "/p" None "claude" 7%Z); (all_alive, OpQueue "a" "two")].

Definition sample_sessions : AgentSessionStore :=
  [("a", AgentSessionState_new "t1" "a" "/p" None "claude" 7%Z)].

Lemma messages_delivered_once_witness :
  exists session, bget "a" (session_ops sample_calls sample_sessions) = Some session /\
    ["one"; "two"] = ["one"] ++ as_pending_messages session.
Proof.
  refine (messages_delivered_once "a" [7%Z] sample_calls sample_sessions
    (AgentSessionState_new "t1" "a" "/p" None "claude" 7%Z) _ _ _ _).
  - apply (bwf_binsert "a" _ []), bwf_nil.
  - reflexivity.
  - left.
  - repeat (constructor; [split; [intros pid ->%list_elem_of_singleton; reflexivity|simpl; try done]|]).
    + intros _. left.
    + constructor.
Defined.
