(* ===== verification/LogIndex.v ===== *)
(** * The log index: ingestion

    Models [src/infra/logs/index/ingest.rs], the reading of dynamic fields and the
    opening of the index in [schema.rs], the data of [state.rs], eviction by age
    ([eviction.rs]) and the removal of a run ([compaction.rs]).

    The search engine ([tantivy]) is an interface: an index holds the documents
    that were committed, and a writer knows what a commit would make of them.  The
    contents of the log files, the answers of the file system and the codec of the
    cursors are parameters.  The maps are hash maps in the code, whose order
    nothing depends on; here they are sorted.  The writer of the code is an option
    that is always [Some].  [ingest_gate] makes the operations exclude each other,
    so each of them is one function of the state. *)

From S2P Require Import Prelude Bytes BMap Json Logfmt.
From Stdlib Require Import Lia ZArith.

(** ** Data, [state.rs] *)

Record LogSource := mkSource {
  ls_run_id : string;
  ls_service : string;
  ls_path : string;
}.

#[export] Instance log_source_eq_dec : EqDecision LogSource.
Proof. solve_decision. Defined.

Record IngestCursor := mkCursor { ic_offset : Z; ic_next_seq : Z }.
Definition cursor_default : IngestCursor := mkCursor 0 0.

Record IngestStateFile := mkIngestState {
  is_version : Z;
  is_sources : bmap string IngestCursor;
  is_facet_fields : bmap string (bmap string unit);
}.
Definition ingest_state_default : IngestStateFile := mkIngestState 0 [] [].

Record FacetCacheKey := mkFacetKey {
  fk_run_id : string;
  fk_service : option string;
  fk_since : option string;
  fk_search : option string;
  fk_level : option string;
  fk_stream : option string;
}.

Record PendingDoc := mkDoc {
  pd_run_id : string;
  pd_service : string;
  pd_stream : string;
  pd_level : string;
  pd_ts_nanos : Z;
  pd_ts : string;
  pd_seq : Z;
  pd_message : string;
  pd_raw : string;
  pd_dynamic_fields : bmap string string;
}.

Record PendingUpdate := mkUpdate {
  pu_key : string;
  pu_cursor : IngestCursor;
  pu_run_id : string;
  pu_service : string;
  pu_delete_from_seq : option Z;
}.

Record IngestBatch := mkBatch {
  ib_pending_updates : list PendingUpdate;
  ib_pending_docs : list PendingDoc;
  ib_pending_doc_bytes : Z;
  ib_dynamic_field_names : bmap string (bmap string unit);
}.
Definition batch_default : IngestBatch := mkBatch [] [] 0 [].

Definition INGEST_COMMIT_DOC_LIMIT : Z := 10000.
Definition INGEST_COMMIT_BYTE_LIMIT : Z := 8 * 1024 * 1024.

Definition source_key (run_id service : string) : string := run_id +:+ "/" +:+ service.

Definition key_of (source : LogSource) : string :=
  source_key (ls_run_id source) (ls_service source).

(** ** Dynamic fields, [schema.rs] *)

Definition underscore : ascii := "_"%char.

(** The loop of [normalize_dynamic_field_name]; a character outside ASCII is
    several bytes, which become one underscore together. *)
Fixpoint normalize_loop (last_was_underscore : bool) (s : bytes) : bytes :=
  match s with
  | [] => []
  | ch :: s =>
      if is_ascii_alphanumeric ch then to_ascii_lowercase ch :: normalize_loop false s
      else if last_was_underscore then normalize_loop true s
      else underscore :: normalize_loop true s
  end.

Definition is_underscore (c : ascii) : bool := byte_in 95 95 c.

Definition normalize_dynamic_field_name (field_name : string) : option string :=
  let normalized := trim_end_matches is_underscore
                      (drop_while is_underscore (normalize_loop false (to_bytes field_name))) in
  match normalized with [] => None | _ => Some (of_bytes normalized) end.

Definition is_reserved_dynamic_field (field_name : string) : bool :=
  bool_decide (field_name ∈ ["time"; "ts"; "timestamp"; "msg"; "message"; "level"; "severity";
                             "stream"; "run_id"; "service"; "ts_nanos"; "seq"; "raw"]).

Section dynamic.
Context `{JsonNumber}.

Definition dynamic_value_to_string (value : Value) : option string :=
  value ← match value with
          | String value => Some value
          | Number value => Some (number_to_string value)
          | Bool value => Some (if value then "true" else "false")
          | Array _ | Object _ | Null => None
          end;
  if bool_decide (value = "") || (256 <? length (chars (to_bytes value)))%nat then None
  else Some value.

Definition extract_dynamic_one (fields : bmap string string) (entry : string * Value)
    : bmap string string :=
  match normalize_dynamic_field_name entry.1 with
  | None => fields
  | Some field_name =>
      if is_reserved_dynamic_field field_name then fields else
      match dynamic_value_to_string entry.2 with
      | None => fields
      | Some value => bentry field_name value fields
      end
  end.

Definition extract_dynamic_json_fields_from_map (map : Map) : bmap string string :=
  foldl extract_dynamic_one [] map.
End dynamic.

(** ** The batch, [ingest.rs] *)

Definition add_field_name (key : string) (names : bmap string (bmap string unit))
    (field_name : string) : bmap string (bmap string unit) :=
  binsert key (binsert field_name tt (default [] (bget key names))) names.

Definition add_doc (doc : PendingDoc) (b : IngestBatch) : IngestBatch :=
  mkBatch (ib_pending_updates b) (ib_pending_docs b ++ [doc])
    (saturating_add (saturating_add (ib_pending_doc_bytes b) (Z.of_nat (String.length (pd_raw doc))))
       (Z.of_nat (String.length (pd_message doc))))
    (foldl (add_field_name (source_key (pd_run_id doc) (pd_service doc)))
       (ib_dynamic_field_names b) (bkeys (pd_dynamic_fields doc))).

Fixpoint update_pending (update : PendingUpdate) (l : list PendingUpdate) : list PendingUpdate :=
  match l with
  | [] => [update]
  | existing :: l =>
      if bool_decide (pu_key existing = pu_key update)
      then mkUpdate (pu_key existing) (pu_cursor update) (pu_run_id existing) (pu_service existing)
             (match pu_delete_from_seq existing with
              | None => pu_delete_from_seq update
              | Some seq => Some seq
              end) :: l
      else existing :: update_pending update l
  end.

Definition record_update (update : PendingUpdate) (b : IngestBatch) : IngestBatch :=
  mkBatch (update_pending update (ib_pending_updates b)) (ib_pending_docs b)
    (ib_pending_doc_bytes b) (ib_dynamic_field_names b).

Definition should_flush (b : IngestBatch) : bool :=
  (INGEST_COMMIT_DOC_LIMIT <=? Z.of_nat (length (ib_pending_docs b)))%Z
  || (INGEST_COMMIT_BYTE_LIMIT <=? ib_pending_doc_bytes b)%Z.

(** ** Lines *)

Definition is_newline (c : ascii) : bool := byte_in 10 10 c.

(** [str::split_inclusive] of a newline. *)
Fixpoint split_inclusive (s : bytes) : list bytes :=
  match s with
  | [] => []
  | c :: s =>
      if is_newline c then [c] :: split_inclusive s
      else match split_inclusive s with
           | [] => [[c]]
           | line :: lines => (c :: line) :: lines
           end
  end.

(** [Iterator::rposition] *)
Definition rposition (p : ascii -> bool) (s : bytes) : option nat :=
  i ← find_byte p (reverse s); Some (length s - 1 - i)%nat.

(** ** The search engine *)

Inductive DocQuery :=
| QFromSeq (run_id service : string) (seq : Z)   (** one source, [seq] and above *)
| QBefore (cutoff_nanos : Z)                     (** older than a time *)
| QRun (run_id : string).

Definition matches (q : DocQuery) (d : PendingDoc) : bool :=
  match q with
  | QFromSeq run_id service seq =>
      bool_decide (pd_run_id d = run_id) && bool_decide (pd_service d = service)
      && (seq <=? pd_seq d)%Z
  | QBefore cutoff_nanos => (pd_ts_nanos d <? cutoff_nanos)%Z
  | QRun run_id => bool_decide (pd_run_id d = run_id)
  end.

(** [tantivy]'s index and its writer. *)
Class SearchIndex := {
  writer : Type;
  committed : writer -> list PendingDoc;   (** what a search sees *)
  outlook : writer -> list PendingDoc;     (** what it would see after a commit *)
  delete_query : DocQuery -> writer -> outcome unit * writer;
  add_document : PendingDoc -> writer -> outcome unit * writer;
  delete_term : string -> writer -> writer;   (** the documents of a run; it cannot fail *)
  commit : writer -> outcome unit * writer;
  open_index : writer -> writer;           (** the index, opened by a new process *)
}.

(** What [tantivy] documents. A deletion applies to the documents added before it,
    committed or not; a commit makes the outlook visible; an operation that fails
    leaves the state of before or has happened; what was not committed is lost when
    the process ends. *)
Class SearchIndexLaws `{SearchIndex} : Prop := {
  delete_query_law : forall q w, let '(r, w') := delete_query q w in
    committed w' ≡ₚ committed w /\
    (outlook w' ≡ₚ List.filter (fun d => negb (matches q d)) (outlook w) \/
     r <> Ok tt /\ outlook w' ≡ₚ outlook w);
  add_document_law : forall d w, let '(r, w') := add_document d w in
    committed w' ≡ₚ committed w /\
    (outlook w' ≡ₚ d :: outlook w \/ r <> Ok tt /\ outlook w' ≡ₚ outlook w);
  delete_term_law : forall run w,
    committed (delete_term run w) ≡ₚ committed w /\
    outlook (delete_term run w) ≡ₚ
      List.filter (fun d => negb (matches (QRun run) d)) (outlook w);
  commit_law : forall w, let '(r, w') := commit w in
    (committed w' ≡ₚ outlook w /\ outlook w' ≡ₚ outlook w) \/
    (r <> Ok tt /\ (committed w' ≡ₚ committed w \/ committed w' ≡ₚ outlook w) /\
     (outlook w' ≡ₚ committed w \/ outlook w' ≡ₚ outlook w));
  open_index_law : forall w,
    committed (open_index w) ≡ₚ committed w /\ outlook (open_index w) ≡ₚ committed w;
}.

(** The cursors as the bytes of their file. *)
Class StateCodec := {
  state_to_vec : IngestStateFile -> bytes;
  state_from_slice : bytes -> option IngestStateFile;
}.

(** The cursors survive the round trip. *)
Class StateCodecLaws `{StateCodec} : Prop := {
  state_roundtrip : forall state, exists state',
    state_from_slice (state_to_vec state) = Some state' /\
    forall key, bget key (is_sources state') = bget key (is_sources state);
}.

(** A log file: what [metadata] says ([is_file] and the length), and the
    results of the reads after opening it and seeking to an offset, until one
    returns nothing. *)
Record LogFile := mkFile {
  lf_metadata : option (bool * Z);
  lf_reads : Z -> outcome (list (outcome bytes));
}.

(** What happens during one operation: the files, and for each commit whether the
    reader reloads and whether the cursors are written. *)
Record LogEnv := mkEnv {
  le_files : string -> LogFile;
  le_reload : nat -> outcome unit;
  le_save : nat -> outcome unit;
}.

Section index.
Context `{Json} `{SearchIndex} `{StateCodec} {Response : Type}.
(** The characters that [char::is_numeric] accepts outside ASCII, and RFC 3339. *)
Context (unicode_digit : bytes -> bool) (parse_rfc3339 : string -> option Z).

(** The index, the cursors in memory, and their file. *)
Record LogIndex := mkLogIndex {
  lx_writer : writer;
  lx_ingest : IngestStateFile;
  lx_saved : option bytes;
  lx_facet_cache : list (FacetCacheKey * Response);
  lx_commits : nat;
}.

Definition LogM : Type -> Type := stM LogIndex.

Definition with_writer {A} (op : writer -> outcome A * writer) : LogM A := fun st =>
  let '(r, w) := op (lx_writer st) in
  (r, mkLogIndex w (lx_ingest st) (lx_saved st) (lx_facet_cache st) (lx_commits st)).

Definition clear_facet_cache : LogM unit := fun st =>
  (Ok tt, mkLogIndex (lx_writer st) (lx_ingest st) (lx_saved st) [] (lx_commits st)).

(** Changing the cursors in memory and writing them: [atomic_write] leaves the old
    file when it fails. *)
Definition update_ingest (env : LogEnv) (f : IngestStateFile -> IngestStateFile) : LogM unit :=
  fun st =>
    let ingest := f (lx_ingest st) in
    match le_save env (lx_commits st) with
    | Ok _ => (Ok tt, mkLogIndex (lx_writer st) ingest (Some (state_to_vec ingest))
                        (lx_facet_cache st) (S (lx_commits st)))
    | r => (r, mkLogIndex (lx_writer st) ingest (lx_saved st) (lx_facet_cache st)
                 (S (lx_commits st)))
    end.

Definition reload_reader (env : LogEnv) : LogM unit := fun st =>
  (le_reload env (lx_commits st), st).

(** ** Committing a batch *)

Definition delete_update (_ : unit) (update : PendingUpdate) : LogM unit :=
  match pu_delete_from_seq update with
  | None => mret tt
  | Some seq => with_writer (delete_query (QFromSeq (pu_run_id update) (pu_service update) seq))
  end.

Definition add_pending (_ : unit) (doc : PendingDoc) : LogM unit :=
  with_writer (add_document doc).

Definition apply_updates (b : IngestBatch) (ingest : IngestStateFile) : IngestStateFile :=
  mkIngestState 1
    (foldl (fun m u => binsert (pu_key u) (pu_cursor u) m) (is_sources ingest)
       (ib_pending_updates b))
    (foldl (fun m (kv : string * bmap string unit) =>
              binsert kv.1 (bextend (default [] (bget kv.1 m)) kv.2) m)
       (is_facet_fields ingest) (ib_dynamic_field_names b)).

Definition commit_ingest_batch (env : LogEnv) (b : IngestBatch) : LogM IngestBatch :=
  match ib_pending_updates b with
  | [] => mret b
  | _ =>
      _ ← sfold delete_update (ib_pending_updates b) tt;
      _ ← sfold add_pending (ib_pending_docs b) tt;
      _ ← with_writer commit;
      _ ← reload_reader env;
      _ ← clear_facet_cache;
      _ ← update_ingest env (apply_updates b);
      mret batch_default
  end.

(** ** Collecting lines *)

Definition doc_of (source : LogSource) (seq : Z) (line : string) : PendingDoc :=
  let parsed := parse_log_line unicode_digit line in
  let ts := default "" (pl_timestamp parsed) in
  mkDoc (ls_run_id source) (ls_service source) (pl_stream parsed) (pl_level parsed)
    (default 0%Z (parse_timestamp_nanos parse_rfc3339 ts)) ts seq (pl_message parsed) line
    (default [] (extract_dynamic_json_fields_from_map <$> pl_json parsed)).

Definition is_some_and_less (min_ts_nanos : option Z) (ts_nanos : Z) : bool :=
  match min_ts_nanos with Some min => (ts_nanos <? min)%Z | None => false end.

(** The variables of the loop: cursor, batch, [consumed_bytes], [saw_complete_line]. *)
Definition Collect : Type := IngestCursor * IngestBatch * Z * bool.

Definition collect_line (source : LogSource) (min_ts_nanos : option Z) (st : Collect)
    (raw_line : bytes) : Collect :=
  let '(cursor, batch, consumed_bytes, _) := st in
  let consumed_bytes := saturating_add consumed_bytes (Z.of_nat (length raw_line)) in
  let raw_line := trim_end_matches is_crlf raw_line in
  if is_empty raw_line then (cursor, batch, consumed_bytes, true) else
  let line := strip_ansi_if_needed (of_bytes raw_line) in
  let doc := doc_of source (ic_next_seq cursor) line in
  let cursor := mkCursor (ic_offset cursor) (saturating_add (ic_next_seq cursor) 1) in
  if is_some_and_less min_ts_nanos (pd_ts_nanos doc) then (cursor, batch, consumed_bytes, true)
  else (cursor, add_doc doc batch, consumed_bytes, true).

Definition collect_complete_lines (source : LogSource) (key : string) (cursor : IngestCursor)
    (delete_from_seq : option Z) (complete : bytes) (min_ts_nanos : option Z)
    (batch : IngestBatch) : IngestCursor * IngestBatch :=
  let text := from_utf8_lossy complete in
  let starting_offset := ic_offset cursor in
  let '(cursor, batch, consumed_bytes, saw_complete_line) :=
    foldl (collect_line source min_ts_nanos) (cursor, batch, 0%Z, false) (split_inclusive text) in
  if saw_complete_line then
    let cursor := mkCursor (saturating_add starting_offset consumed_bytes) (ic_next_seq cursor) in
    (cursor, record_update (mkUpdate key cursor (ls_run_id source) (ls_service source)
                              delete_from_seq) batch)
  else (cursor, batch).

(** ** Ingesting sources *)

(** The loop that reads a source; [reads] are the answers still to come. *)
Fixpoint read_loop (env : LogEnv) (source : LogSource) (key : string)
    (min_ts_nanos : option Z) (reads : list (outcome bytes)) (carry : bytes)
    (cursor : IngestCursor) (delete_from_seq : option Z) (batch : IngestBatch)
    : LogM IngestBatch :=
  match reads with
  | [] => mret batch
  | read :: reads =>
      chunk ← st_lift read;
      if is_empty chunk then mret batch else
      let carry := carry ++ chunk in
      match rposition is_newline carry with
      | None => read_loop env source key min_ts_nanos reads carry cursor delete_from_seq batch
      | Some last_nl =>
          let complete_len := (last_nl + 1)%nat in
          let complete := take complete_len carry in
          let carry := drop complete_len carry in
          let previous_offset := ic_offset cursor in
          let '(cursor, batch) :=
            collect_complete_lines source key cursor delete_from_seq complete min_ts_nanos batch in
          let '(cursor, batch) :=
            if (ic_offset cursor =? previous_offset)%Z then
              let cursor := mkCursor (saturating_add (ic_offset cursor) (Z.of_nat complete_len))
                              (ic_next_seq cursor) in
              (cursor, record_update (mkUpdate key cursor (ls_run_id source) (ls_service source)
                                        None) batch)
            else (cursor, batch) in
          batch ← (if should_flush batch then commit_ingest_batch env batch else mret batch);
          read_loop env source key min_ts_nanos reads carry cursor None batch
      end
  end.

Definition read_source (env : LogEnv) (source : LogSource) (min_ts_nanos : option Z)
    (cursor : IngestCursor) (batch : IngestBatch) : LogM IngestBatch :=
  reads ← st_lift (lf_reads (le_files env (ls_path source)) (ic_offset cursor));
  read_loop env source (key_of source) min_ts_nanos reads [] cursor (Some (ic_next_seq cursor))
    batch.

Definition ingest_source (env : LogEnv) (cursors : bmap string IngestCursor)
    (min_ts_nanos : option Z) (batch : IngestBatch) (source : LogSource) : LogM IngestBatch :=
  match lf_metadata (le_files env (ls_path source)) with
  | Some (true, file_len) =>
      let cursor := default cursor_default (bget (key_of source) cursors) in
      if (file_len <? ic_offset cursor)%Z
      then read_source env source min_ts_nanos cursor_default batch
      else if (file_len =? ic_offset cursor)%Z then mret batch
      else read_source env source min_ts_nanos cursor batch
  | _ => mret batch
  end.

Definition cursors_of (sources : list LogSource) (ingest : IngestStateFile)
    : bmap string IngestCursor :=
  bcollect (map (fun source =>
      (key_of source, default cursor_default (bget (key_of source) (is_sources ingest)))) sources).

Definition ingest_sources_after (env : LogEnv) (sources : list LogSource)
    (min_ts_nanos : option Z) : LogM unit := fun st =>
  match sources with
  | [] => (Ok tt, st)
  | _ =>
      let cursors := cursors_of sources (lx_ingest st) in
      (batch ← sfold (ingest_source env cursors min_ts_nanos) sources batch_default;
       _ ← commit_ingest_batch env batch;
       mret tt) st
  end.

Definition ingest_sources (env : LogEnv) (sources : list LogSource) : LogM unit :=
  ingest_sources_after env sources None.

(** ** The other operations *)

Definition sources_are_current (env : LogEnv) (sources : list LogSource) (st : LogIndex) : bool :=
  forallb (fun source =>
    match lf_metadata (le_files env (ls_path source)) with
    | Some (true, len) =>
        match bget (key_of source) (is_sources (lx_ingest st)) with
        | Some cursor => (ic_offset cursor =? len)%Z
        | None => false
        end
    | _ => true
    end) sources.

Definition ingest_cursor (run_id service : string) (st : LogIndex) : option IngestCursor :=
  bget (source_key run_id service) (is_sources (lx_ingest st)).

Definition mark_one (env : LogEnv) (m : bmap string IngestCursor) (source : LogSource)
    : bmap string IngestCursor :=
  match lf_metadata (le_files env (ls_path source)) with
  | Some (true, len) =>
      let cursor := default cursor_default (bget (key_of source) m) in
      binsert (key_of source)
        (mkCursor len (if (len <? ic_offset cursor)%Z then 0 else ic_next_seq cursor)) m
  | _ => m
  end.

Definition mark_sources_current (env : LogEnv) (sources : list LogSource) : LogM unit :=
  match sources with
  | [] => mret tt
  | _ => update_ingest env (fun ingest =>
           mkIngestState 1 (foldl (mark_one env) (is_sources ingest) sources)
             (is_facet_fields ingest))
  end.

(** [count] is what the search for the old documents answered. *)
Definition evict_older_than (count : outcome nat) (cutoff_nanos : Z) : LogM nat :=
  count ← st_lift count;
  if (count =? 0)%nat then mret 0%nat else
  _ ← with_writer (delete_query (QBefore cutoff_nanos));
  _ ← with_writer commit;
  _ ← clear_facet_cache;
  mret count.

Definition delete_run (env : LogEnv) (run_id : string) : LogM unit :=
  _ ← with_writer (fun w => (Ok tt, delete_term run_id w));
  _ ← with_writer commit;
  _ ← clear_facet_cache;
  let keep := fun key : string => negb (starts_with (run_id +:+ "/") key) in
  update_ingest env (fun ingest =>
    mkIngestState (is_version ingest)
      (bretain (fun key _ => keep key) (is_sources ingest))
      (bretain (fun key _ => keep key) (is_facet_fields ingest))).

(** A new process opens the index: [open_from_tantivy_index]. The file of the
    cursors may be missing or unreadable. *)
Definition open_from_tantivy_index (readable : bool) (st : LogIndex) : LogIndex :=
  mkLogIndex (open_index (lx_writer st))
    (match lx_saved st with
     | Some data =>
         default ingest_state_default (state_from_slice (if readable then data else []))
     | None => ingest_state_default
     end) (lx_saved st) [] (lx_commits st).
End index.
