(* ===== verification/LogText.v ===== *)
(** * The lines of a log and their documents

    The complete lines of a text, how they split and decode, the documents they
    become, and what one pass of the collecting loop of [LogIndex] adds to a batch. *)

From S2P Require Import Prelude Bytes BMap Util Json Logfmt LogIndex.
From Stdlib Require Import Lia ZArith.

(** ** Complete lines *)

Definition ends_line (s : bytes) : Prop := s = [] \/ exists a c, s = a ++ [c] /\ is_newline c = true.

Definition no_newline (s : bytes) : Prop := forallb (fun c => negb (is_newline c)) s = true.

(** The complete lines of a text, and what follows them. *)
Definition complete (s : bytes) : bytes :=
  match rposition is_newline s with Some i => take (i + 1) s | None => [] end.

Lemma rposition_spec s :
  match rposition is_newline s with
  | Some i => (i < length s)%nat /\ ends_line (take (i + 1) s) /\ take (i + 1) s <> [] /\
              no_newline (drop (i + 1) s)
  | None => no_newline s
  end.
Proof.
  unfold rposition. destruct (find_byte is_newline (reverse s)) as [i|] eqn:E; simpl.
  - apply find_byte_Some in E as (a & c & b & Hs & Hl & Hc & Ha).
    assert (s = (reverse b ++ [c]) ++ reverse a) as ->.
    { by rewrite <- (reverse_involutive s), Hs, reverse_app, reverse_cons. }
    set (k := reverse b ++ [c]). rewrite length_app.
    assert (0 < length k)%nat as Hk by (unfold k; rewrite length_app; simpl; lia).
    replace (length k + length (reverse a) - 1 - i + 1)%nat with (length k)
      by (rewrite length_reverse; lia).
    rewrite take_app_length, drop_app_length. split_and!; [lia|right; by exists (reverse b), c| |].
    + intros Hn. rewrite Hn in Hk. simpl in Hk. lia.
    + unfold no_newline. by rewrite forallb_reverse.
  - apply find_byte_None in E. unfold no_newline. by rewrite <- forallb_reverse.
Qed.

Lemma complete_split s : exists r, s = complete s ++ r /\ ends_line (complete s) /\ no_newline r.
Proof.
  unfold complete. pose proof (rposition_spec s) as Hr.
  destruct (rposition is_newline s) as [i|].
  - destruct Hr as (_ & He & _ & Hn). exists (drop (i + 1) s). by rewrite take_drop.
  - exists s. split_and!; [done|by left|done].
Qed.

Lemma no_newline_app a b : no_newline (a ++ b) <-> no_newline a /\ no_newline b.
Proof. unfold no_newline. rewrite forallb_app. apply andb_true_iff. Qed.

Lemma no_newline_ends a : ends_line a -> no_newline a -> a = [].
Proof.
  intros [->|(l & c & -> & Hc)]; [done|]. intros [_ Hn]%no_newline_app.
  unfold no_newline in Hn. simpl in Hn. by rewrite Hc in Hn.
Qed.

Lemma ends_line_app a b : ends_line a -> ends_line b -> ends_line (a ++ b).
Proof.
  intros Ha [->|(l & c & -> & Hc)]; [by rewrite app_nil_r|].
  right. exists (a ++ l), c. by rewrite app_assoc.
Qed.

Lemma ends_line_suffix a b : b <> [] -> ends_line (a ++ b) -> ends_line b.
Proof.
  intros Hb [Hn|(l & c & Hl & Hc)]; [by apply app_eq_nil in Hn as [_ ->]|].
  destruct (exists_last Hb) as (b' & x & ->). rewrite app_assoc in Hl.
  apply app_inj_tail in Hl as [_ ->]. right. eauto.
Qed.

(** The complete lines are the longest prefix that ends a line. *)
Lemma complete_max a s : ends_line a -> a `prefix_of` s -> a `prefix_of` complete s.
Proof.
  intros Ha [k Hk]. destruct (complete_split s) as (r & Hs & _ & Hn).
  rewrite Hs in Hk at 1. apply app_eq_inv in Hk as [(l & Hl & _)|(l & -> & Hr)]; [by exists l|].
  destruct (decide (l = [])) as [->|Hne]; [by rewrite app_nil_r|].
  apply ends_line_suffix in Ha; [|done]. rewrite Hr in Hn.
  apply no_newline_app in Hn as [Hn _]. by rewrite (no_newline_ends l) in Hne.
Qed.

Lemma complete_prefix s t : s `prefix_of` t -> complete s `prefix_of` complete t.
Proof.
  intros Hp. destruct (complete_split s) as (r & Hs & He & _).
  apply complete_max; [done|]. etrans; [|exact Hp]. rewrite Hs at 2. by exists r.
Qed.

Lemma complete_app a b : ends_line a -> complete (a ++ b) = a ++ complete b.
Proof.
  intros Ha. destruct (complete_split b) as (r & Hb & He & Hn).
  apply (anti_symm prefix).
  - destruct (complete_split (a ++ b)) as (r' & Hs & He' & Hn').
    assert (a `prefix_of` complete (a ++ b)) as [k Hk] by (apply complete_max; [done|by exists b]).
    rewrite Hk in *. apply prefix_app. apply complete_max.
    + destruct (decide (k = [])) as [->|]; [by left|by eapply ends_line_suffix].
    + rewrite <- app_assoc in Hs. apply app_inv_head in Hs. by exists r'.
  - apply complete_max; [by apply ends_line_app|]. apply prefix_app. rewrite Hb at 2. by exists r.
Qed.

Lemma complete_ends s : ends_line s -> complete s = s.
Proof.
  intros Hs. rewrite <- (app_nil_r s) at 1. rewrite complete_app by done. apply app_nil_r.
Qed.

Lemma complete_none s : no_newline s -> complete s = [].
Proof.
  intros Hn. destruct (complete_split s) as (r & Hs & He & _). rewrite Hs in Hn.
  apply no_newline_app in Hn as [Hn _]. by apply no_newline_ends.
Qed.

(** ** Lines of a text *)

Lemma split_inclusive_app a b :
  ends_line a -> split_inclusive (a ++ b) = split_inclusive a ++ split_inclusive b.
Proof.
  intros [->|(l & c & -> & Hc)]; [done|]. rewrite <- app_assoc. simpl.
  induction l as [|x l IH]; simpl; [by rewrite Hc|]. rewrite IH.
  destruct (is_newline x); [done|].
  destruct (split_inclusive (l ++ [c])) as [|y ys] eqn:E; [|done].
  destruct l as [|z l]; simpl in E; [by rewrite Hc in E|].
  destruct (is_newline z); [done|]. by destruct (split_inclusive (l ++ [c])).
Qed.

Lemma concat_split_inclusive s : concat (split_inclusive s) = s.
Proof.
  induction s as [|c s IH]; simpl; [done|]. destruct (is_newline c); simpl; [by rewrite IH|].
  destruct (split_inclusive s) as [|l ls]; simpl in *; by rewrite <- IH.
Qed.

(** The lines of a text that are not blank, without their ends. *)
Definition log_lines (text : bytes) : list bytes :=
  List.filter (fun line => negb (is_empty line))
    (map (trim_end_matches is_crlf) (split_inclusive text)).

Lemma log_lines_app a b : ends_line a -> log_lines (a ++ b) = log_lines a ++ log_lines b.
Proof.
  intros Ha. unfold log_lines. by rewrite split_inclusive_app, map_app, List.filter_app.
Qed.

Definition nlines (text : bytes) : Z := Z.of_nat (length (log_lines text)).

Lemma nlines_length text : (nlines text <= Z.of_nat (length text))%Z.
Proof.
  unfold nlines, log_lines. assert (length (split_inclusive text) <= length text)%nat as Hs.
  { induction text as [|c s IH]; simpl; [done|]. destruct (is_newline c); simpl; [lia|].
    destruct (split_inclusive s); simpl in *; lia. }
  pose proof (List.filter_length_le (fun line => negb (is_empty line))
    (map (trim_end_matches is_crlf) (split_inclusive text))) as Hf.
  rewrite length_map in Hf. lia.
Qed.

Lemma nlines_app a b : ends_line a -> nlines (a ++ b) = (nlines a + nlines b)%Z.
Proof. intros Ha. unfold nlines. rewrite log_lines_app, length_app by done. lia. Qed.

(** A text that ends a line is decoded on its own. *)
Lemma is_newline_ascii c : is_newline c = true -> byte_in 0 127 c = true.
Proof.
  unfold is_newline, byte_in. intros [H1 H2]%andb_prop.
  apply Nat.leb_le in H2. apply andb_true_iff. split; [done|]. apply Nat.leb_le. lia.
Qed.

Lemma utf8_valid_app a b :
  ends_line a -> utf8_valid (a ++ b) = utf8_valid a && utf8_valid b.
Proof.
  intros [->|(l & c & -> & Hc)]; [done|]. unfold utf8_valid. rewrite <- app_assoc. simpl.
  rewrite utf8_chunks_app by (by apply is_newline_ascii). apply forallb_app.
Qed.

(** ** The text of a log, line by line *)

Lemma ends_line_snoc s : ends_line s -> s = [] \/ exists l, s = l ++ ["010"%char].
Proof.
  intros [->|(l & c & -> & Hc)]; [by left|]. right. exists l. do 2 f_equal.
  unfold is_newline, byte_in in Hc. apply andb_prop in Hc as [H1%Nat.leb_le H2%Nat.leb_le].
  rewrite <- (ascii_nat_embedding c). by replace (nat_of_ascii c) with 10 by lia.
Qed.

Lemma str_lines_app a b :
  ends_line a -> str_lines (of_bytes (a ++ b)) = str_lines (of_bytes a) ++ str_lines (of_bytes b).
Proof.
  intros [->|[l ->]]%ends_line_snoc; [done|]. unfold str_lines. rewrite !to_of_bytes.
  rewrite <- app_assoc. cbn [app]. rewrite !split_on_app. cbn [split_on].
  rewrite !reverse_app. change (reverse [[]]) with [@nil ascii]. cbn [app].
  rewrite bool_decide_true, app_nil_r by done.
  destruct (reverse (split_on "010" b)) as [|final ended] eqn:E.
  { apply (f_equal reverse) in E. rewrite reverse_involutive in E.
    by apply split_on_nonempty in E. }
  cbn [app]. by rewrite reverse_app, reverse_involutive, map_app, <- app_assoc.
Qed.

Lemma from_utf8_lossy_app a b :
  ends_line a -> from_utf8_lossy (a ++ b) = from_utf8_lossy a ++ from_utf8_lossy b.
Proof.
  intros [->|(l & c & -> & Hc)]; [done|]. unfold from_utf8_lossy. rewrite <- app_assoc. simpl.
  rewrite utf8_chunks_app by (by apply is_newline_ascii). apply flat_map_app.
Qed.

Lemma utf8_chunks_snoc l c :
  byte_in 0 127 c = true -> exists chunks, utf8_chunks (l ++ [c]) = chunks ++ [(true, [c])].
Proof.
  intros Hc. remember (length l) as n eqn:Hn. revert l Hn.
  induction (lt_wf n) as [n _ IH]; intros l ->. destruct l as [|b l]; simpl.
  - exists []. rewrite utf8_chunks_cons. unfold utf8_step. by rewrite Hc.
  - rewrite utf8_chunks_cons. pose proof (utf8_step_pos b (l ++ [c])) as Hpos.
    destruct (utf8_step_app b l c [] Hc) as [_ Hle].
    destruct (utf8_step b (l ++ [c])) as [good k]. cbn [fst snd] in *.
    rewrite !app_comm_cons, drop_app_le by (simpl; lia).
    destruct (IH (length (drop k (b :: l)))) with (l := drop k (b :: l)) as [chunks ->]; [|done|].
    + rewrite length_drop. simpl. lia.
    + eexists (_ :: chunks). done.
Qed.

Lemma lossy_ends a : ends_line a -> ends_line (from_utf8_lossy a).
Proof.
  intros [->|(l & c & -> & Hc)]; [by left|]. right. unfold from_utf8_lossy.
  destruct (utf8_chunks_snoc l c (is_newline_ascii c Hc)) as [chunks ->].
  rewrite flat_map_app. simpl. eauto.
Qed.

(** ** Documents of a text *)

Section docs.
Context `{Json} (unicode_digit : bytes -> bool) (parse_rfc3339 : string -> option Z).

Definition doc_at (s : LogSource) (seq : Z) (line : bytes) : PendingDoc :=
  doc_of unicode_digit parse_rfc3339 s seq (strip_ansi_if_needed (of_bytes line)).

Fixpoint docs_from (s : LogSource) (seq : Z) (lines : list bytes) : list PendingDoc :=
  match lines with
  | [] => []
  | line :: lines => doc_at s seq line :: docs_from s (seq + 1) lines
  end.

(** What the lines of a text are in the index: one document each, numbered. *)
Definition all_docs (s : LogSource) (seq : Z) (text : bytes) : list PendingDoc :=
  docs_from s seq (log_lines text).

Definition retained (min_ts_nanos : option Z) (d : PendingDoc) : bool :=
  negb (is_some_and_less min_ts_nanos (pd_ts_nanos d)).

Definition of_source (s : LogSource) (d : PendingDoc) : bool :=
  bool_decide (pd_run_id d = ls_run_id s) && bool_decide (pd_service d = ls_service s).

Lemma docs_from_app s n l1 l2 :
  docs_from s n (l1 ++ l2) = docs_from s n l1 ++ docs_from s (n + Z.of_nat (length l1)) l2.
Proof.
  revert n. induction l1 as [|x l1 IH]; intros n; simpl; [by rewrite Z.add_0_r|].
  rewrite IH. do 3 f_equal. lia.
Qed.

Lemma all_docs_app s n a b :
  ends_line a -> all_docs s n (a ++ b) = all_docs s n a ++ all_docs s (n + nlines a) b.
Proof. intros Ha. unfold all_docs, nlines. by rewrite log_lines_app, docs_from_app. Qed.

Lemma docs_from_seq s n l d :
  d ∈ docs_from s n l -> (n <= pd_seq d < n + Z.of_nat (length l))%Z /\ of_source s d = true.
Proof.
  revert n. induction l as [|x l IH]; intros n; simpl; [by intros ?%elem_of_nil|].
  intros [->|Hd]%elem_of_cons.
  - split; [simpl; lia|]. unfold of_source. simpl. by rewrite !bool_decide_eq_true_2.
  - apply IH in Hd as [? ?]. split; [lia|done].
Qed.

Lemma all_docs_seq s n a d :
  d ∈ all_docs s n a -> (n <= pd_seq d < n + nlines a)%Z /\ of_source s d = true.
Proof. apply docs_from_seq. Qed.

(** *** The loop over the lines *)

Definition add_docs (docs : list PendingDoc) (b : IngestBatch) : IngestBatch :=
  foldl (fun b d => add_doc d b) b docs.

Lemma add_docs_updates docs b : ib_pending_updates (add_docs docs b) = ib_pending_updates b.
Proof. revert b. induction docs as [|d docs IH]; intros b; [done|]. etrans; [by apply IH|done]. Qed.

Lemma add_docs_docs docs b : ib_pending_docs (add_docs docs b) = ib_pending_docs b ++ docs.
Proof.
  revert b. induction docs as [|d docs IH]; intros b; simpl; [by rewrite app_nil_r|].
  etrans; [by apply IH|]. simpl. by rewrite <- app_assoc.
Qed.

Lemma saturating_add_small a b : (a + b <= u64_max)%Z -> saturating_add a b = (a + b)%Z.
Proof. unfold saturating_add. lia. Qed.

Definition raw_lines (lines : list bytes) : list bytes :=
  List.filter (fun line => negb (is_empty line)) (map (trim_end_matches is_crlf) lines).

Lemma raw_lines_cons line lines :
  raw_lines (line :: lines) =
    let line := trim_end_matches is_crlf line in
    if is_empty line then raw_lines lines else line :: raw_lines lines.
Proof. unfold raw_lines. cbn [map List.filter]. by destruct (is_empty _). Qed.

Lemma collect_lines s min lines off n batch k saw :
  (0 <= n)%Z -> (0 <= k)%Z ->
  (n + Z.of_nat (length (raw_lines lines)) <= u64_max)%Z ->
  (k + Z.of_nat (length (concat lines)) <= u64_max)%Z ->
  foldl (collect_line unicode_digit parse_rfc3339 s min) (mkCursor off n, batch, k, saw) lines =
    (mkCursor off (n + Z.of_nat (length (raw_lines lines))),
     add_docs (List.filter (retained min) (docs_from s n (raw_lines lines))) batch,
     (k + Z.of_nat (length (concat lines)))%Z, saw || match lines with [] => false | _ => true end).
Proof.
  revert n batch k saw. induction lines as [|line lines IH]; intros n batch k saw Hn Hk Hlines Hbytes.
  { simpl. by rewrite !Z.add_0_r, orb_false_r. }
  rewrite orb_true_r. cbn [concat] in *. rewrite length_app in *.
  cbn [foldl collect_line ic_offset ic_next_seq]. rewrite (saturating_add_small k) by lia.
  rewrite raw_lines_cons in *. cbv zeta in *.
  destruct (is_empty (trim_end_matches is_crlf line)).
  - rewrite IH by lia. rewrite orb_true_l. do 2 f_equal. lia.
  - cbn [length docs_from List.filter] in *. rewrite (saturating_add_small n) by lia.
    fold (doc_at s n (trim_end_matches is_crlf line)).
    destruct (retained min (doc_at _ _ _)) eqn:E; unfold retained in E;
      [apply negb_true_iff in E|apply negb_false_iff in E]; rewrite E, IH by lia;
      by rewrite orb_true_l, Nat2Z.inj_succ, Nat2Z.inj_add, <- Z.add_1_l, !Z.add_assoc.
Qed.

Lemma collect_complete_lines_spec s key off del text min batch n :
  utf8_valid text = true -> text <> [] -> (0 <= n)%Z -> (0 <= off)%Z ->
  (n + nlines text <= u64_max)%Z -> (off + Z.of_nat (length text) <= u64_max)%Z ->
  collect_complete_lines unicode_digit parse_rfc3339 s key (mkCursor off n) del text min batch =
    let cursor := mkCursor (off + Z.of_nat (length text)) (n + nlines text) in
    (cursor, record_update (mkUpdate key cursor (ls_run_id s) (ls_service s) del)
       (add_docs (List.filter (retained min) (all_docs s n text)) batch)).
Proof.
  intros Hv Hne Hn Hoff Hlines Hbytes. unfold collect_complete_lines.
  rewrite from_utf8_lossy_valid by done. cbn [ic_offset].
  pose proof (concat_split_inclusive text) as Hc.
  rewrite collect_lines by (rewrite ?Hc; done || lia). rewrite Hc.
  rewrite orb_false_l. destruct (split_inclusive text) eqn:E; [by subst|].
  cbn [ic_next_seq]. rewrite Z.add_0_l, saturating_add_small by lia.
  unfold nlines, all_docs, log_lines. by rewrite E.
Qed.
End docs.
