(* ===== verification/LogCommit.v ===== *)
(** * Committing a batch to the log index

    The invariant of the log index: the cursors of a source, in memory and on disk,
    mark positions in its log, and the index holds the documents up to them.  A
    batch holds the documents between the cursors in memory and new ones;
    committing it keeps the invariant wherever it stops. *)

From S2P Require Import Prelude Bytes BMap Json Logfmt LogIndex LogText.
From Stdlib Require Import Lia ZArith.

(** ** One source *)

(** A position in a log: [ends_line] before it, and the lines before it counted. *)
Definition text_at (log : bytes) (c : IngestCursor) : bytes :=
  take (Z.to_nat (ic_offset c)) (complete log).

Record at_line (log : bytes) (c : IngestCursor) : Prop := {
  al_low : (0 <= ic_offset c)%Z;
  al_high : (ic_offset c <= Z.of_nat (length (complete log)))%Z;
  al_ends : ends_line (text_at log c);
  al_seq : ic_next_seq c = nlines (text_at log c);
}.

Lemma at_line_default log : at_line log cursor_default.
Proof.
  split; simpl; [lia|lia|unfold text_at; by left|].
  unfold text_at. simpl. done.
Qed.

Lemma at_line_offset log c : at_line log c -> ic_offset c = Z.of_nat (length (text_at log c)).
Proof. intros [Hl Hh _ _]. unfold text_at. rewrite length_take. lia. Qed.

(** The position after one more piece of whole lines. *)
Lemma at_line_next log c text rest :
  at_line log c -> log = text_at log c ++ text ++ rest -> ends_line text ->
  let c' := mkCursor (ic_offset c + Z.of_nat (length text)) (ic_next_seq c + nlines text) in
  at_line log c' /\ text_at log c' = text_at log c ++ text.
Proof.
  intros Hc Hlog Ht c'. pose proof (al_ends _ _ Hc) as He.
  assert (complete log = (text_at log c ++ text) ++ complete rest) as Hcomp.
  { rewrite Hlog at 1. rewrite app_assoc. apply complete_app. by apply ends_line_app. }
  assert (text_at log c' = text_at log c ++ text) as Hat.
  { unfold text_at at 1. rewrite Hcomp. unfold c'. cbn [ic_offset].
    rewrite (at_line_offset _ _ Hc), <- Nat2Z.inj_add, Nat2Z.id, <- length_app.
    apply take_app_length. }
  split; [|done]. split; rewrite ?Hat; unfold c'; cbn [ic_offset ic_next_seq].
  - destruct Hc. lia.
  - rewrite Hcomp, !length_app, (at_line_offset _ _ Hc). lia.
  - by apply ends_line_app.
  - by rewrite nlines_app, (al_seq _ _ Hc).
Qed.

Lemma text_at_mono log log' c :
  log `prefix_of` log' -> at_line log c -> text_at log' c = text_at log c.
Proof.
  intros [k Hk]%complete_prefix [_ Hh _ _]. unfold text_at. rewrite Hk.
  rewrite take_app_le by lia. done.
Qed.

Lemma at_line_mono log log' c : log `prefix_of` log' -> at_line log c -> at_line log' c.
Proof.
  intros Hp Hc. pose proof (text_at_mono _ _ _ Hp Hc) as Ht.
  destruct Hc as [Hl Hh He Hs]. split; rewrite ?Ht; try done.
  apply complete_prefix, prefix_length in Hp. lia.
Qed.

Lemma text_at_le log c c' :
  (0 <= ic_offset c <= ic_offset c')%Z ->
  exists rest, text_at log c' = text_at log c ++ rest.
Proof.
  intros Hc. exists (drop (Z.to_nat (ic_offset c)) (text_at log c')).
  unfold text_at. rewrite <- (take_drop (Z.to_nat (ic_offset c)) (take _ (complete log))) at 1.
  f_equal. rewrite take_take. f_equal. lia.
Qed.

Lemma nlines_le a b : ends_line a -> (nlines a <= nlines (a ++ b))%Z.
Proof. intros Ha. rewrite nlines_app by done. unfold nlines. lia. Qed.

Lemma at_line_seq_mono log c c' :
  at_line log c -> at_line log c' -> (ic_offset c <= ic_offset c')%Z ->
  (ic_next_seq c <= ic_next_seq c')%Z.
Proof.
  intros Hc Hc' Hle. destruct (text_at_le log c c') as [r Hr]; [destruct Hc; lia|].
  rewrite (al_seq _ _ Hc), (al_seq _ _ Hc'), Hr. apply nlines_le, Hc.
Qed.

Section source.
Context `{Json} (unicode_digit : bytes -> bool) (parse_rfc3339 : string -> option Z).
(** A source, and a time no document older than which is promised. *)
Context (oldest : Z) (s : LogSource).

Abbreviation all_docs := (all_docs unicode_digit parse_rfc3339 s).

Definition below (n : Z) (d : PendingDoc) : bool := of_source s d && (pd_seq d <? n)%Z.

Definition bounded (n : Z) (docs : list PendingDoc) : Prop :=
  forall d, d ∈ docs -> of_source s d = true -> (pd_seq d < n)%Z.

(** [kept] are documents of a text in their order, all the recent ones among them. *)
Definition subset_of (n : Z) (text : bytes) (kept : list PendingDoc) : Prop :=
  kept `sublist_of` all_docs n text /\
  forall d, d ∈ all_docs n text -> (oldest <= pd_ts_nanos d)%Z -> d ∈ kept.

(** The documents [docs] hold of the source are those of its text up to [c], and
    perhaps others from the rest of the first [limit] lines. *)
Definition docs_ok (log : bytes) (limit : Z) (c : IngestCursor) (docs : list PendingDoc) : Prop :=
  (exists kept, List.filter (below (ic_next_seq c)) docs ≡ₚ kept /\
                subset_of 0 (text_at log c) kept) /\
  bounded limit docs.

Lemma below_true n d : below n d = true <-> of_source s d = true /\ (pd_seq d < n)%Z.
Proof. unfold below. rewrite andb_true_iff, Z.ltb_lt. done. Qed.

Lemma docs_ok_perm log n c l k : l ≡ₚ k -> docs_ok log n c l -> docs_ok log n c k.
Proof.
  intros Hp ((kept & Hk & Hs) & Hb). split.
  - exists kept. by rewrite <- Hp.
  - intros d. rewrite <- Hp. apply Hb.
Qed.

Lemma docs_ok_filter log n c p l :
  (forall d, d ∈ l -> below (ic_next_seq c) d = true -> p d = true) ->
  docs_ok log n c l -> docs_ok log n c (List.filter p l).
Proof.
  intros Hp ((kept & Hk & Hs) & Hb). split.
  - exists kept. split; [|done]. rewrite <- Hk, filter_filter.
    rewrite (filter_ext_elem _ (below (ic_next_seq c))); [done|]. intros d Hd. destruct (below _ d) eqn:E; [|apply andb_false_r].
    by rewrite (Hp d).
  - intros d [Hd _]%filter_elem. by apply Hb.
Qed.

Lemma docs_ok_app log n c new l :
  (forall d, d ∈ new -> of_source s d = true -> (ic_next_seq c <= pd_seq d < n)%Z) ->
  docs_ok log n c l -> docs_ok log n c (new ++ l).
Proof.
  intros Hn ((kept & Hk & Hs) & Hb). split.
  - exists kept. split; [|done]. rewrite <- Hk, List.filter_app, filter_none; [done|].
    intros d Hd. apply not_true_iff_false. intros [Ho ?]%below_true.
    specialize (Hn d Hd Ho). lia.
  - intros d [Hd|Hd]%elem_of_app Ho; [specialize (Hn d Hd Ho); lia|by apply Hb].
Qed.

Lemma docs_ok_limit log n n' c l : (n <= n')%Z -> docs_ok log n c l -> docs_ok log n' c l.
Proof.
  intros Hn [Hk Hb]. split; [done|]. intros d Hd Ho. specialize (Hb d Hd Ho). lia.
Qed.

Lemma docs_ok_mono log log' n c l :
  log `prefix_of` log' -> at_line log c -> docs_ok log n c l -> docs_ok log' n c l.
Proof. intros Hp Hc. unfold docs_ok. by rewrite (text_at_mono log log'). Qed.

Lemma docs_ok_shrink log n c c' l :
  at_line log c -> at_line log c' -> (ic_offset c' <= ic_offset c)%Z ->
  docs_ok log n c l -> docs_ok log n c' l.
Proof.
  intros Hc Hc' Hle ((kept & Hk & Hs & Hold) & Hb). split; [|done].
  pose proof (at_line_seq_mono log c' c Hc' Hc Hle) as Hseq.
  destruct (text_at_le log c' c) as [r Hr]; [destruct Hc'; lia|].
  rewrite Hr, all_docs_app in Hs by apply Hc'.
  apply sublist_app_r in Hs as (k1 & k2 & -> & Hs1 & Hs2).
  assert (forall d, d ∈ k1 -> below (ic_next_seq c') d = true) as H1.
  { intros d Hd. apply below_true. rewrite (al_seq _ _ Hc').
    apply (elem_of_sublist _ _ _ Hd), all_docs_seq in Hs1 as [? ?]. split; [done|lia]. }
  assert (forall d, d ∈ k2 -> below (ic_next_seq c') d = false) as H2.
  { intros d Hd. apply not_true_iff_false. rewrite below_true, (al_seq _ _ Hc').
    apply (elem_of_sublist _ _ _ Hd), all_docs_seq in Hs2 as [? ?]. lia. }
  exists k1. split; [|split; [done|]].
  - trans (List.filter (below (ic_next_seq c')) (k1 ++ k2));
      [|by rewrite List.filter_app, filter_all, filter_none, app_nil_r].
    rewrite <- (filter_permute _ _ _ Hk), filter_filter. apply eq_Permutation, filter_ext_elem.
    intros d _. unfold below. destruct (of_source s d); [|done]. simpl.
    destruct (Z.ltb_spec (pd_seq d) (ic_next_seq c')); [|by rewrite andb_false_r].
    rewrite andb_true_r. symmetry. apply Z.ltb_lt. lia.
  - intros d Hd Ho. assert (d ∈ k1 ++ k2) as [|Hin]%elem_of_app; [|done|].
    + apply Hold; [|done]. rewrite Hr, all_docs_app by apply Hc'. apply elem_of_app. by left.
    + apply H2 in Hin. apply all_docs_seq in Hd as [Hd Hos].
      apply not_true_iff_false in Hin. destruct Hin. apply below_true.
      rewrite (al_seq _ _ Hc'). split; [done|lia].
Qed.

(** Deleting documents that are older than promised. *)
Lemma docs_ok_evict log n c cutoff l :
  (cutoff <= oldest)%Z -> docs_ok log n c l ->
  docs_ok log n c (List.filter (fun d => negb (matches (QBefore cutoff) d)) l).
Proof.
  intros Hcut ((kept & Hk & Hs & Hold) & Hb).
  set (p := fun d => negb (matches (QBefore cutoff) d)). split.
  - exists (List.filter p kept). split; [|split].
    + rewrite <- (filter_permute p _ _ Hk), !filter_filter. apply eq_Permutation, filter_ext_elem.
      intros d _. apply andb_comm.
    + etrans; [apply filter_sublist|done].
    + intros d Hd Ho. apply filter_elem. split; [by apply Hold|]. unfold p, matches.
      apply negb_true_iff, Z.ltb_ge. lia.
  - intros d [Hd _]%filter_elem. by apply Hb.
Qed.

(** Adding the documents of the lines between two positions. *)
Lemma docs_ok_grow log n c c' new l :
  at_line log c -> at_line log c' -> (ic_offset c <= ic_offset c')%Z ->
  docs_ok log n c l -> bounded (ic_next_seq c) l ->
  (exists rest, text_at log c' = text_at log c ++ rest /\
     subset_of (ic_next_seq c) rest (List.filter (of_source s) new)) ->
  docs_ok log (ic_next_seq c') c' (new ++ l).
Proof.
  intros Hc Hc' Hle ((kept & Hk & Hs & Hold) & _) Hl (rest & Hr & Hns & Hnold).
  assert (ic_next_seq c' = ic_next_seq c + nlines rest)%Z as Hn.
  { rewrite (al_seq _ _ Hc'), Hr, nlines_app by apply Hc. by rewrite (al_seq _ _ Hc). }
  assert (forall d, d ∈ new -> of_source s d = true ->
    (ic_next_seq c <= pd_seq d < ic_next_seq c')%Z) as Hseq.
  { intros d Hd Ho. assert (d ∈ List.filter (of_source s) new) as Hf by by apply filter_elem.
    apply (elem_of_sublist _ _ _ Hf), all_docs_seq in Hns as [? _]. lia. }
  pose proof (at_line_seq_mono log c c' Hc Hc' Hle) as Hmono. split.
  - exists (kept ++ List.filter (of_source s) new). split.
    + rewrite List.filter_app, (Permutation_app_comm (List.filter _ new)). f_equiv.
      * rewrite <- Hk. rewrite (filter_ext_elem _ (below (ic_next_seq c)) l); [done|].
        intros d Hd. unfold below. destruct (of_source s d) eqn:Ho; [|done]. simpl.
        specialize (Hl d Hd Ho). rewrite !(proj2 (Z.ltb_lt _ _)) by lia. done.
      * rewrite (filter_ext_elem _ (of_source s)); [done|]. intros d Hd. unfold below.
        destruct (of_source s d) eqn:Ho; [|done]. apply Z.ltb_lt. by apply Hseq.
    + rewrite Hr. split.
      * rewrite all_docs_app by apply Hc. rewrite Z.add_0_l, <- (al_seq _ _ Hc).
        by apply sublist_app.
      * intros d. rewrite all_docs_app by apply Hc.
        rewrite Z.add_0_l, <- (al_seq _ _ Hc).
        intros [Hd|Hd]%elem_of_app Ho; apply elem_of_app; [left|right]; auto.
  - intros d [Hd|Hd]%elem_of_app Ho; [by apply Hseq|]. specialize (Hl d Hd Ho). lia.
Qed.
End source.

(** ** The index *)

Definition cursor_in (ingest : IngestStateFile) (s : LogSource) : IngestCursor :=
  default cursor_default (bget (key_of s) (is_sources ingest)).

Definition find_update (key : string) (l : list PendingUpdate) : option PendingUpdate :=
  List.find (fun u => bool_decide (pu_key u = key)) l.

Lemma find_update_Some key l u :
  NoDup (pu_key <$> l) -> find_update key l = Some u <-> u ∈ l /\ pu_key u = key.
Proof.
  induction l as [|v l IH]; simpl; [intros _; split; [done|by intros [?%elem_of_nil _]]|].
  intros [Hv Hn]%NoDup_cons. destruct (decide (pu_key v = key)) as [<-|Hne].
  - rewrite bool_decide_eq_true_2 by done. split.
    + intros [= ->]. split; [left|done].
    + intros [[->|Hu]%elem_of_cons Hk]; [done|]. destruct Hv. rewrite <- Hk.
      by apply list_elem_of_fmap_2.
  - rewrite bool_decide_eq_false_2, IH, elem_of_cons by done. naive_solver.
Qed.

Lemma find_update_None key l : find_update key l = None <-> key ∉ pu_key <$> l.
Proof.
  induction l as [|v l IH]; simpl; [split; [by intros _ ?%elem_of_nil|done]|].
  rewrite not_elem_of_cons. destruct (decide (pu_key v = key)) as [<-|Hne].
  - rewrite bool_decide_eq_true_2 by done. split; [done|]. by intros [? _].
  - rewrite bool_decide_eq_false_2, IH by done. split; [intros ?; by split|by intros [_ ?]].
Qed.

Definition effective (b : IngestBatch) (ingest : IngestStateFile) (s : LogSource) : IngestCursor :=
  match find_update (key_of s) (ib_pending_updates b) with
  | Some u => pu_cursor u
  | None => cursor_in ingest s
  end.

Lemma cursor_in_apply b ingest s :
  NoDup (pu_key <$> ib_pending_updates b) ->
  cursor_in (apply_updates b ingest) s = effective b ingest s.
Proof.
  unfold effective, cursor_in. cbn [is_sources apply_updates]. generalize (is_sources ingest) as m.
  induction (ib_pending_updates b) as [|u l IH]; intros m; simpl; [done|].
  intros [Hu Hn]%NoDup_cons. case_bool_decide as Hk.
  - rewrite IH by done. replace (find_update (key_of s) l) with (@None PendingUpdate);
      [by rewrite <- Hk, bget_binsert_eq|].
    symmetry. apply find_update_None. by rewrite <- Hk.
  - rewrite IH by done. destruct (find_update (key_of s) l); [done|]. by rewrite bget_binsert_ne.
Qed.

Section index.
Context `{Json} `{SearchIndexLaws} `{StateCodecLaws} {Response : Type}.
Context (unicode_digit : bytes -> bool) (parse_rfc3339 : string -> option Z) (oldest : Z).
(** The sources of the index, each with its own key. *)
Context (universe : list LogSource) (Hkeys : NoDup (key_of <$> universe)).

Abbreviation docs_ok := (docs_ok unicode_digit parse_rfc3339 oldest).
Abbreviation subset_of := (subset_of unicode_digit parse_rfc3339 oldest).
Abbreviation state := (LogIndex (Response := Response)).
Implicit Types (s : LogSource) (st : state) (b : IngestBatch).

Lemma key_of_inj s s' : s ∈ universe -> s' ∈ universe -> key_of s = key_of s' -> s = s'.
Proof.
  intros Hs Hs' Hk. apply list_elem_of_lookup in Hs as [i Hi], Hs' as [j Hj].
  assert (i = j) as ->; [|congruence].
  apply (NoDup_lookup _ _ _ (key_of s) Hkeys); rewrite list_lookup_fmap; [by rewrite Hi|].
  by rewrite Hj, Hk.
Qed.

Lemma of_source_inj s s' d :
  s ∈ universe -> s' ∈ universe -> of_source s d = true -> of_source s' d = true -> s = s'.
Proof.
  unfold of_source. intros Hs Hs' [Hr%bool_decide_eq_true Hv%bool_decide_eq_true]%andb_prop
    [Hr'%bool_decide_eq_true Hv'%bool_decide_eq_true]%andb_prop.
  apply key_of_inj; [done..|]. unfold key_of. congruence.
Qed.

Definition saved_ingest (saved : option bytes) : IngestStateFile :=
  match saved with
  | Some data => default ingest_state_default (state_from_slice data)
  | None => ingest_state_default
  end.

(** The logs: the contents of each path. *)
Definition log_of (logs : string -> bytes) s : bytes := logs (ls_path s).
Definition limit (logs : string -> bytes) s : Z := nlines (complete (log_of logs s)).

(** The cursors of a source in memory and on disk mark positions in its log, the
    one on disk not after the other, and the documents up to them are there. *)
Record src_ok (logs : string -> bytes) (ingest : IngestStateFile) (saved : option bytes)
    (C O : list PendingDoc) s : Prop := {
  so_mem : at_line (log_of logs s) (cursor_in ingest s);
  so_disk : at_line (log_of logs s) (cursor_in (saved_ingest saved) s);
  so_le : (ic_offset (cursor_in (saved_ingest saved) s) <= ic_offset (cursor_in ingest s))%Z;
  so_committed : docs_ok s (log_of logs s) (limit logs s) (cursor_in ingest s) C;
  so_outlook : docs_ok s (log_of logs s) (limit logs s) (cursor_in ingest s) O;
}.

Definition inv (logs : string -> bytes) st : Prop :=
  forall s, s ∈ universe ->
    src_ok logs (lx_ingest st) (lx_saved st) (committed (lx_writer st)) (outlook (lx_writer st)) s.

Lemma inv_mono logs logs' st :
  (forall s, s ∈ universe -> log_of logs s `prefix_of` log_of logs' s) -> inv logs st -> inv logs' st.
Proof.
  intros Hp Hinv s Hs. specialize (Hp s Hs). destruct (Hinv s Hs) as [Hm Hd Hle HC HO].
  assert (limit logs s <= limit logs' s)%Z as Hlim.
  { unfold limit. destruct (complete_prefix _ _ Hp) as [k ->]. apply nlines_le.
    by destruct (complete_split (log_of logs s)) as (r & _ & He & _). }
  split; [by eapply at_line_mono|by eapply at_line_mono|done|..];
    (eapply docs_ok_limit; [done|]; by eapply docs_ok_mono).
Qed.

(** What a batch holds of a source: the documents between the cursor in memory and
    the one of the update. *)
Record upd_ok (logs : string -> bytes) (ingest : IngestStateFile) (O : list PendingDoc)
    (docs : list PendingDoc) s (u : PendingUpdate) : Prop := {
  uo_run : pu_run_id u = ls_run_id s;
  uo_service : pu_service u = ls_service s;
  uo_at : at_line (log_of logs s) (pu_cursor u);
  uo_le : (ic_offset (cursor_in ingest s) <= ic_offset (pu_cursor u))%Z;
  uo_docs : exists rest,
    text_at (log_of logs s) (pu_cursor u) = text_at (log_of logs s) (cursor_in ingest s) ++ rest /\
    subset_of s (ic_next_seq (cursor_in ingest s)) rest (List.filter (of_source s) docs);
  uo_delete : pu_delete_from_seq u = Some (ic_next_seq (cursor_in ingest s)) \/
    pu_delete_from_seq u = None /\ bounded s (ic_next_seq (cursor_in ingest s)) O;
}.

Record batch_ok (logs : string -> bytes) st b : Prop := {
  bo_nodup : NoDup (pu_key <$> ib_pending_updates b);
  bo_known : forall u, u ∈ ib_pending_updates b -> pu_key u ∈ key_of <$> universe;
  bo_source : forall s, s ∈ universe ->
    match find_update (key_of s) (ib_pending_updates b) with
    | Some u => upd_ok logs (lx_ingest st) (outlook (lx_writer st)) (ib_pending_docs b) s u
    | None => forall d, d ∈ ib_pending_docs b -> of_source s d = false
    end;
}.

Lemma batch_default_ok logs st : batch_ok logs st batch_default.
Proof.
  split; simpl; [constructor|by intros u ?%elem_of_nil|by intros s _ d ?%elem_of_nil].
Qed.

Lemma update_source logs st b u :
  batch_ok logs st b -> u ∈ ib_pending_updates b ->
  exists s, s ∈ universe /\ find_update (key_of s) (ib_pending_updates b) = Some u /\
    upd_ok logs (lx_ingest st) (outlook (lx_writer st)) (ib_pending_docs b) s u.
Proof.
  intros [Hn Hk Hs] Hu. apply Hk in Hu as Hin. apply list_elem_of_fmap in Hin as (s & Hks & Hin).
  exists s. assert (find_update (key_of s) (ib_pending_updates b) = Some u) as Hf
    by (by apply find_update_Some).
  split_and!; [done..|]. specialize (Hs s Hin). by rewrite Hf in Hs.
Qed.

(** *** Committing a batch *)

Section commit.
Context (env : LogEnv) (logs : string -> bytes) (st0 : state) (b : IngestBatch).
Context (Hinv : inv logs st0) (Hb : batch_ok logs st0 b).

Let ingest0 : IngestStateFile := lx_ingest st0.

(** Documents that keep what the cursors in memory promise. *)
Definition good (D : list PendingDoc) : Prop :=
  forall s, s ∈ universe -> docs_ok s (log_of logs s) (limit logs s) (cursor_in ingest0 s) D.

Definition at_docs (C D : list PendingDoc) st : Prop :=
  lx_ingest st = ingest0 /\ lx_saved st = lx_saved st0 /\
  committed (lx_writer st) ≡ₚ C /\ outlook (lx_writer st) ≡ₚ D.

Lemma at_docs_inv C D st : good C -> good D -> at_docs C D st -> inv logs st.
Proof.
  intros HC HD (Hi & Hs & HCs & HDs) s Hin. destruct (Hinv s Hin) as [Hm Hd Hle _ _].
  rewrite Hi, Hs. split; try done; by eapply docs_ok_perm; [symmetry; eassumption|auto].
Qed.

Lemma good_start : good (committed (lx_writer st0)) /\ good (outlook (lx_writer st0)).
Proof. split; intros s Hs; [apply (so_committed _ _ _ _ _ _ (Hinv s Hs))|apply (so_outlook _ _ _ _ _ _ (Hinv s Hs))]. Qed.

Definition deletes (u : PendingUpdate) (d : PendingDoc) : bool :=
  match pu_delete_from_seq u with
  | Some seq => matches (QFromSeq (pu_run_id u) (pu_service u) seq) d
  | None => false
  end.

Lemma deletes_above u d s :
  u ∈ ib_pending_updates b -> s ∈ universe -> deletes u d = true ->
  below s (ic_next_seq (cursor_in ingest0 s)) d = true -> False.
Proof.
  intros Hu Hs Hdel [Ho Hseq]%below_true. destruct (update_source _ _ _ _ Hb Hu) as (s' & Hs' & _ & Hok).
  unfold deletes in Hdel. destruct (uo_delete _ _ _ _ _ _ Hok) as [Hd|[Hd _]]; rewrite Hd in Hdel; [|done].
  cbn [matches] in Hdel. rewrite (uo_run _ _ _ _ _ _ Hok), (uo_service _ _ _ _ _ _ Hok) in Hdel.
  apply andb_prop in Hdel as [Ho' Hle%Z.leb_le].
  rewrite (of_source_inj s' s d) in Hle by done. fold ingest0 in Hle. lia.
Qed.

Lemma good_deletes u D : u ∈ ib_pending_updates b -> good D ->
  good (List.filter (fun d => negb (deletes u d)) D).
Proof.
  intros Hu HD s Hs. apply docs_ok_filter; [|by apply HD]. intros d _ Hbelow.
  apply negb_true_iff, not_true_iff_false. intros Hdel. by eapply deletes_above.
Qed.

Lemma with_writer_hoare (op : writer -> outcome unit * writer) C C' D D' :
  good C -> good D -> good C' -> good D' ->
  (forall w, committed w ≡ₚ C -> outlook w ≡ₚ D -> let '(r, w') := op w in
     (committed w' ≡ₚ C' /\ outlook w' ≡ₚ D') \/
     (r <> Ok tt /\ (committed w' ≡ₚ C \/ committed w' ≡ₚ C') /\
      (outlook w' ≡ₚ C \/ outlook w' ≡ₚ D \/ outlook w' ≡ₚ D'))) ->
  hoare (at_docs C D) (with_writer (Response := Response) op) (fun _ => at_docs C' D') (inv logs).
Proof.
  intros HC HD HC' HD' Hop st (Hi & Hs & HCs & HDs). unfold with_writer.
  specialize (Hop _ HCs HDs). destruct (op (lx_writer st)) as [r w'].
  set (st' := mkLogIndex _ _ _ _ _).
  assert (forall X Y, good X -> good Y -> committed w' ≡ₚ X -> outlook w' ≡ₚ Y -> inv logs st')
    as Hgood by (intros X Y HX HY ??; by apply (at_docs_inv X Y)).
  destruct Hop as [[HC1 HD1]|(Hr & HC1 & HD1)].
  - assert (at_docs C' D' st') as Hat by done. destruct r as [[]|e| |]; [done|by (eapply Hgood; [..|eassumption|eassumption])..].
  - destruct r as [[]|e| |]; [done|destruct HC1, HD1 as [|[|]]; by (eapply Hgood; [..|eassumption|eassumption])..].
Qed.

Lemma delete_updates_hoare us C D :
  (forall u, u ∈ us -> u ∈ ib_pending_updates b) -> good C -> good D ->
  hoare (at_docs C D) (sfold delete_update us tt)
    (fun _ => at_docs C (List.filter (fun d => negb (existsb (fun u => deletes u d) us)) D))
    (inv logs).
Proof.
  revert D. induction us as [|u us IH]; intros D Hus HC HD.
  { rewrite filter_all by done. apply (hoare_ret (fun _ => at_docs C D)). }
  set (D1 := List.filter (fun d => negb (deletes u d)) D).
  assert (u ∈ ib_pending_updates b) as Hu by (apply Hus; left).
  assert (good D1) as HD1 by by apply good_deletes.
  eapply hoare_bind with (R := fun _ => at_docs C D1).
  - unfold delete_update, D1, deletes in *. destruct (pu_delete_from_seq u) as [seq|].
    + apply with_writer_hoare; [done..|]. intros w HCw HDw.
      pose proof (delete_query_law (QFromSeq (pu_run_id u) (pu_service u) seq) w) as Hl.
      destruct (delete_query _ w) as [r w']. destruct Hl as [HC' [HD'|[Hr HD']]].
      * left. by rewrite HC', HD', HDw.
      * right. split; [done|]. rewrite HC', HD', HCw, HDw. auto.
    + cbn [negb]. rewrite filter_all by done. apply (hoare_ret (fun _ => at_docs C D)).
  - intros []. unfold D1 in *.
    replace (List.filter (fun d => negb (existsb (fun u => deletes u d) (u :: us))) D)
      with (List.filter (fun d => negb (existsb (fun u => deletes u d) us))
              (List.filter (fun d => negb (deletes u d)) D)).
    { apply IH; [intros v Hv; apply Hus; by right|done..]. }
    rewrite filter_filter. apply filter_ext_elem. intros d _. simpl. by rewrite negb_orb.
Qed.

Lemma add_docs_hoare docs C D :
  (forall d s, d ∈ docs -> s ∈ universe -> of_source s d = true ->
    (ic_next_seq (cursor_in ingest0 s) <= pd_seq d < limit logs s)%Z) ->
  good C -> good D ->
  hoare (at_docs C D) (sfold add_pending docs tt) (fun _ => at_docs C (docs ++ D)) (inv logs).
Proof.
  revert D. induction docs as [|d docs IH]; intros D Hd HC HD;
    [apply (hoare_ret (fun _ => at_docs C D))|].
  assert (good (d :: D)) as HD1.
  { intros s Hs. apply (docs_ok_app _ _ _ _ _ _ _ [d]); [|by apply HD].
    intros d' Hd'%list_elem_of_singleton Ho.
    apply Hd; [|done..]. rewrite Hd'. left. }
  eapply hoare_bind with (R := fun _ => at_docs C (d :: D)).
  - apply with_writer_hoare; [done..|]. intros w HCw HDw.
    pose proof (add_document_law d w) as Hl. destruct (add_document d w) as [r w'].
    destruct Hl as [HC' [HD'|[Hr HD']]].
    + left. by rewrite HC', HD', HDw.
    + right. split; [done|]. rewrite HC', HD', HCw, HDw. auto.
  - intros []. eapply hoare_weaken; [|apply (IH (d :: D)); [|done..]].
    + intros [] st (Hi & Hs & HCs & HDs). split_and!; try done. rewrite HDs. simpl.
      by rewrite Permutation_middle.
    + intros d' s Hd'. apply Hd. by right.
Qed.

Lemma commit_hoare C D :
  good C -> good D ->
  hoare (at_docs C D) (with_writer commit) (fun _ => at_docs D D) (inv logs).
Proof.
  intros HC HD. apply with_writer_hoare; [done..|]. intros w HCw HDw.
  pose proof (commit_law w) as Hl. destruct (commit w) as [r w'].
  destruct Hl as [[HC' HD']|(Hr & HC' & HD')].
  - left. by rewrite HC', HD', HDw.
  - right. rewrite HCw, HDw in HC'. rewrite HCw, HDw in HD'. naive_solver.
Qed.

Abbreviation updates := (ib_pending_updates b).

(** The documents once the batch is committed. *)
Definition kept_docs : list PendingDoc :=
  List.filter (fun d => negb (existsb (fun u => deletes u d) updates)) (outlook (lx_writer st0)).
Definition final_docs : list PendingDoc := ib_pending_docs b ++ kept_docs.

Lemma good_kept : good kept_docs.
Proof.
  intros s Hs. apply docs_ok_filter; [|by apply good_start]. intros d _ Hbelow.
  apply negb_true_iff, not_true_iff_false. intros (u & Hu & Hdel)%existsb_exists.
  rewrite <- list_elem_of_In in Hu. by eapply deletes_above.
Qed.

Lemma at_line_limit s c : at_line (log_of logs s) c -> (ic_next_seq c <= limit logs s)%Z.
Proof.
  intros Hc. rewrite (al_seq _ _ Hc). unfold limit, text_at.
  rewrite <- (take_drop (Z.to_nat (ic_offset c)) (complete (log_of logs s))) at 2.
  apply nlines_le, Hc.
Qed.

Lemma kept_bounded s u :
  s ∈ universe -> find_update (key_of s) updates = Some u ->
  bounded s (ic_next_seq (cursor_in ingest0 s)) kept_docs.
Proof.
  intros Hs Hf d [Hd Hdel]%filter_elem Ho. pose proof (bo_source _ _ _ Hb s Hs) as Hok.
  rewrite Hf in Hok. destruct (uo_delete _ _ _ _ _ _ Hok) as [Hu|[_ Hbnd]];
    [|by apply Hbnd]. apply negb_true_iff in Hdel.
  apply Z.nle_gt. intros Hle. apply not_true_iff_false in Hdel. apply Hdel, existsb_exists.
  exists u. apply find_update_Some in Hf as [Hin _]; [|apply Hb]. split; [by apply list_elem_of_In|].
  unfold deletes. rewrite Hu, (uo_run _ _ _ _ _ _ Hok), (uo_service _ _ _ _ _ _ Hok).
  unfold matches. rewrite (proj2 (Z.leb_le _ _)) by done. by rewrite andb_true_r.
Qed.

Lemma pending_range d s :
  d ∈ ib_pending_docs b -> s ∈ universe -> of_source s d = true ->
  (ic_next_seq (cursor_in ingest0 s) <= pd_seq d < ic_next_seq (effective b ingest0 s))%Z.
Proof.
  intros Hd Hs Ho. pose proof (bo_source _ _ _ Hb s Hs) as Hok. unfold effective.
  destruct (find_update _ _) as [u|]; [|by rewrite Hok in Ho].
  destruct (uo_docs _ _ _ _ _ _ Hok) as (rest & Hr & Hsub & _).
  assert (d ∈ List.filter (of_source s) (ib_pending_docs b)) as Hf by by apply filter_elem.
  apply (elem_of_sublist _ _ _ Hf), all_docs_seq in Hsub as [Hseq _].
  destruct (Hinv s Hs) as [Hm _ _ _ _].
  rewrite (al_seq _ _ (uo_at _ _ _ _ _ _ Hok)), Hr, nlines_app by apply Hm.
  rewrite <- (al_seq _ _ Hm). done.
Qed.

Lemma effective_ok s :
  s ∈ universe ->
  at_line (log_of logs s) (effective b ingest0 s) /\
  (ic_offset (cursor_in ingest0 s) <= ic_offset (effective b ingest0 s))%Z.
Proof.
  intros Hs. pose proof (bo_source _ _ _ Hb s Hs) as Hok. unfold effective.
  destruct (find_update _ _) as [u|]; [split; apply Hok|]. split; [apply (Hinv s Hs)|lia].
Qed.

Lemma good_final : good final_docs.
Proof.
  intros s Hs. apply docs_ok_app; [|by apply good_kept]. intros d Hd Ho.
  pose proof (pending_range d s Hd Hs Ho).
  pose proof (at_line_limit s _ (proj1 (effective_ok s Hs))). lia.
Qed.

Lemma final_ok s :
  s ∈ universe ->
  docs_ok s (log_of logs s) (limit logs s) (effective b ingest0 s) final_docs /\
  match find_update (key_of s) updates with
  | Some _ => bounded s (ic_next_seq (effective b ingest0 s)) final_docs
  | None => forall n, bounded s n (outlook (lx_writer st0)) -> bounded s n final_docs
  end.
Proof.
  intros Hs. destruct (effective_ok s Hs) as [He Hle]. pose proof (bo_source _ _ _ Hb s Hs) as Hok.
  pose proof (good_final s Hs) as Hg. unfold effective in *.
  destruct (find_update (key_of s) (ib_pending_updates b)) as [u|] eqn:Hf.
  - destruct (Hinv s Hs) as [Hm _ _ _ _].
    assert (docs_ok s (log_of logs s) (ic_next_seq (pu_cursor u)) (pu_cursor u) final_docs) as Hd.
    { eapply docs_ok_grow; [exact Hm|done|done|by apply good_kept|by eapply kept_bounded|].
      apply (uo_docs _ _ _ _ _ _ Hok). }
    split; [|apply Hd]. eapply docs_ok_limit; [|exact Hd]. by apply at_line_limit.
  - split; [done|]. intros n Hn d [Hd|[Hd _]%filter_elem]%elem_of_app Ho; [by rewrite Hok in Ho|].
    by apply Hn.
Qed.

(** What a commit leaves. *)
Definition committed_post st : Prop :=
  inv logs st /\ forall s, s ∈ universe ->
    cursor_in (lx_ingest st) s = effective b ingest0 s /\
    let C := committed (lx_writer st) in let O := outlook (lx_writer st) in
    match find_update (key_of s) updates with
    | Some _ => let n := ic_next_seq (effective b ingest0 s) in bounded s n C /\ bounded s n O
    | None => forall n, bounded s n (outlook (lx_writer st0)) ->
                bounded s n (committed (lx_writer st0)) -> bounded s n C /\ bounded s n O
    end.

Lemma bounded_perm s n l k : l ≡ₚ k -> bounded s n l -> bounded s n k.
Proof. intros Hp Hl d. rewrite <- Hp. apply Hl. Qed.

Lemma saved_cursor ingest s :
  cursor_in (saved_ingest (Some (state_to_vec ingest))) s = cursor_in ingest s.
Proof.
  unfold cursor_in, saved_ingest. destruct (state_roundtrip ingest) as (st' & -> & Hk).
  simpl. by rewrite Hk.
Qed.

Lemma update_ingest_hoare :
  hoare (at_docs final_docs final_docs) (update_ingest env (apply_updates b))
    (fun _ => committed_post) (inv logs).
Proof.
  intros st (Hi & Hs & HC & HO). unfold update_ingest. rewrite Hi, Hs.
  assert (forall saved cache n,
    (saved = lx_saved st0 \/ saved = Some (state_to_vec (apply_updates b ingest0))) ->
    inv logs (mkLogIndex (lx_writer st) (apply_updates b ingest0) saved cache n)) as Hnew.
  { intros saved cache n Hsaved s Hin. destruct (effective_ok s Hin) as [He Hle].
    destruct (Hinv s Hin) as [Hm Hd Hdle _ _]. destruct (final_ok s Hin) as [Hf _].
    assert (cursor_in (apply_updates b ingest0) s = effective b ingest0 s) as Hcur
      by (apply cursor_in_apply, Hb).
    split; cbn [lx_ingest lx_saved lx_writer]; rewrite ?Hcur; try done.
    - destruct Hsaved as [->| ->]; [done|]. by rewrite saved_cursor, Hcur.
    - destruct Hsaved as [->| ->]; [fold ingest0 in Hdle; lia|]. rewrite saved_cursor, Hcur. lia.
    - by eapply docs_ok_perm; [symmetry; exact HC|].
    - by eapply docs_ok_perm; [symmetry; exact HO|]. }
  destruct (le_save env (lx_commits st)); try (apply Hnew; by left).
  split; [apply Hnew; by right|]. intros s Hin. cbn [lx_ingest lx_writer].
  split; [apply cursor_in_apply, Hb|]. cbv zeta. destruct (final_ok s Hin) as [_ Hf].
  destruct (find_update (key_of s) updates).
  - split; eapply bounded_perm; [symmetry; exact HC|done|symmetry; exact HO|done].
  - intros n Hn _. apply Hf in Hn. split; eapply bounded_perm; [symmetry; exact HC|done|symmetry; exact HO|done].
Qed.

Lemma commit_batch_hoare :
  hoare (eq st0) (commit_ingest_batch env b)
    (fun b' st => committed_post st /\ batch_ok logs st b' /\ ib_pending_updates b' = [])
    (inv logs).
Proof.
  unfold commit_ingest_batch. destruct (ib_pending_updates b) as [|u0 us0] eqn:Hu.
  - intros st <-. cbn. split; [|split; [done|done]]. split; [done|]. intros s Hs.
    unfold effective. rewrite Hu. done.
  - rewrite <- Hu. destruct good_start as [HC HD].
    eapply hoare_bind with (R := fun _ => at_docs (committed (lx_writer st0)) kept_docs).
    { eapply hoare_pre; [|by apply delete_updates_hoare]. by intros st <-. }
    intros []. eapply hoare_bind with (R := fun _ => at_docs (committed (lx_writer st0)) final_docs).
    { apply add_docs_hoare; [|done|apply good_kept]. intros d s Hd Hs Ho.
      pose proof (pending_range d s Hd Hs Ho).
      pose proof (at_line_limit s _ (proj1 (effective_ok s Hs))). lia. }
    intros []. eapply hoare_bind; [apply commit_hoare; [done|apply good_final]|].
    intros []. eapply hoare_bind with (R := fun _ => at_docs final_docs final_docs).
    { intros st Hst. unfold reload_reader. destruct (le_reload env (lx_commits st)) as [[]|e| |];
        [done|by eapply at_docs_inv; [apply good_final..|exact Hst]..]. }
    intros []. eapply hoare_bind with (R := fun _ => at_docs final_docs final_docs).
    { by intros st Hst. }
    intros []. eapply hoare_bind; [apply update_ingest_hoare|]. intros [].
    intros st Hst. cbn. split; [done|]. split; [apply batch_default_ok|done].
Qed.
End commit.

(** *** Extending a batch *)

Lemma find_update_pending key u l :
  find_update key (update_pending u l) =
    if bool_decide (pu_key u = key) then
      Some match find_update key l with
           | Some v => mkUpdate (pu_key v) (pu_cursor u) (pu_run_id v) (pu_service v)
                         (match pu_delete_from_seq v with
                          | None => pu_delete_from_seq u
                          | Some seq => Some seq
                          end)
           | None => u
           end
    else find_update key l.
Proof.
  induction l as [|v l IH]; simpl; [by case_bool_decide|].
  destruct (decide (pu_key v = pu_key u)) as [E|E].
  - rewrite (bool_decide_eq_true_2 (pu_key v = pu_key u)) by done. simpl. rewrite E.
    destruct (bool_decide (pu_key u = key)); [by rewrite E|done].
  - rewrite (bool_decide_eq_false_2 (pu_key v = pu_key u)) by done. simpl. rewrite IH.
    destruct (decide (pu_key u = key)) as [<-|Hne].
    + by rewrite (bool_decide_eq_false_2 (pu_key v = pu_key u)) by done.
    + by rewrite (bool_decide_eq_false_2 (pu_key u = key)) by done.
Qed.

Lemma update_pending_keys u l key :
  key ∈ pu_key <$> update_pending u l <-> key = pu_key u \/ key ∈ pu_key <$> l.
Proof.
  induction l as [|v l IH]; simpl; [rewrite list_elem_of_singleton, elem_of_nil; tauto|].
  case_bool_decide as E; simpl; rewrite !elem_of_cons; [rewrite E|rewrite IH]; tauto.
Qed.

Lemma update_pending_nodup u l :
  NoDup (pu_key <$> l) -> NoDup (pu_key <$> update_pending u l).
Proof.
  induction l as [|v l IH]; simpl; [intros _; apply NoDup_singleton|].
  intros [Hv Hn]%NoDup_cons. case_bool_decide as E; simpl; apply NoDup_cons; [done|].
  split; [|by apply IH]. rewrite update_pending_keys. tauto.
Qed.

Lemma subset_of_app s n a c k1 k2 :
  ends_line a -> subset_of s n a k1 -> subset_of s (n + nlines a) c k2 ->
  subset_of s n (a ++ c) (k1 ++ k2).
Proof.
  intros Ha [Hs1 Ho1] [Hs2 Ho2]. split; rewrite all_docs_app by done; [by apply sublist_app|].
  intros d [Hd|Hd]%elem_of_app Ho; apply elem_of_app; [left|right]; auto.
Qed.

Lemma subset_of_retained s n text min :
  (forall m, min = Some m -> (m <= oldest)%Z) ->
  subset_of s n text
    (List.filter (retained min) (all_docs unicode_digit parse_rfc3339 s n text)).
Proof.
  intros Hmin. split; [apply filter_sublist|]. intros d Hd Ho. apply filter_elem. split; [done|].
  unfold retained, is_some_and_less. destruct min as [m|]; [|done]. specialize (Hmin m eq_refl).
  apply negb_true_iff, Z.ltb_ge. lia.
Qed.

(** A piece [text] of the log after the effective cursor of a source, collected. *)
Lemma batch_extend logs st b s text min del :
  let c := effective b (lx_ingest st) s in
  let c' := mkCursor (ic_offset c + Z.of_nat (length text)) (ic_next_seq c + nlines text) in
  inv logs st -> batch_ok logs st b -> s ∈ universe ->
  (forall m, min = Some m -> (m <= oldest)%Z) ->
  at_line (log_of logs s) c' -> text_at (log_of logs s) c' = text_at (log_of logs s) c ++ text ->
  (match find_update (key_of s) (ib_pending_updates b) with
   | Some _ => del = None
   | None => del = Some (ic_next_seq c) \/
             del = None /\ bounded s (ic_next_seq c) (outlook (lx_writer st))
   end) ->
  batch_ok logs st
    (record_update (mkUpdate (key_of s) c' (ls_run_id s) (ls_service s) del)
       (add_docs (List.filter (retained min)
          (all_docs unicode_digit parse_rfc3339 s (ic_next_seq c) text)) b)).
Proof.
  intros c c' Hinv Hb Hs Hmin Hc' Ht Hdel. set (new := List.filter _ _).
  assert (forall d, d ∈ new -> of_source s d = true) as Hnew
    by (by intros d [Hd _]%filter_elem; apply all_docs_seq in Hd as [_ ?]).
  assert (forall s', s' ∈ universe -> s' <> s -> List.filter (of_source s') new = []) as Hother.
  { intros s' Hs' Hne. apply filter_none. intros d Hd. apply not_true_iff_false. intros Ho.
    apply Hne. by apply (of_source_inj s' s d); auto. }
  destruct Hb as [Hn Hk Hsrc]. split; cbn [ib_pending_updates ib_pending_docs record_update];
    rewrite add_docs_updates.
  - by apply update_pending_nodup.
  - intros u Hu. assert (pu_key u ∈ pu_key <$> update_pending
      (mkUpdate (key_of s) c' (ls_run_id s) (ls_service s) del) (ib_pending_updates b)) as Hin
      by (by apply list_elem_of_fmap_2).
    apply update_pending_keys in Hin as [->|(v & -> & Hv)%list_elem_of_fmap]; [|by apply Hk].
    apply list_elem_of_fmap. by exists s.
  - intros s' Hs'. rewrite add_docs_docs, find_update_pending. cbn [pu_key pu_delete_from_seq pu_cursor].
    specialize (Hsrc s' Hs'). destruct (decide (s' = s)) as [->|Hne].
    + rewrite bool_decide_eq_true_2 by done. destruct (Hinv s Hs) as [Hm _ _ _ _].
      unfold effective in c. destruct (find_update (key_of s) (ib_pending_updates b)) as [u|] eqn:Hf.
      * destruct Hsrc as [Hr Hv Ha Hl (rest & Hrest & Hsub) Hd]. split; cbn; try done.
        -- unfold c. simpl. lia.
        -- exists (rest ++ text). split; [rewrite Ht; unfold c; by rewrite Hrest, app_assoc|].
           rewrite List.filter_app, (filter_all _ new) by done.
           assert (ends_line rest) as He.
           { destruct (decide (rest = [])) as [->|]; [by left|].
             eapply ends_line_suffix; [done|]. rewrite <- Hrest. apply Ha. }
           apply subset_of_app; [done|done|].
           replace (ic_next_seq (cursor_in (lx_ingest st) s) + nlines rest)%Z with (ic_next_seq c);
             [by apply subset_of_retained|].
           unfold c. rewrite (al_seq _ _ Ha), (al_seq _ _ Hm), Hrest, nlines_app; [done|apply Hm].
        -- rewrite Hdel. by destruct Hd as [->|[-> ?]]; auto.
      * split; cbn; try done; [unfold c; simpl; lia|].
        exists text. split; [done|]. rewrite List.filter_app, (filter_all _ new) by done.
        rewrite filter_none by done. by apply subset_of_retained.
    + assert (key_of s <> key_of s') as Hkne by (intros Hk'; apply Hne; by apply key_of_inj).
      rewrite bool_decide_eq_false_2 by done.
      destruct (find_update (key_of s') (ib_pending_updates b)) as [u|].
      * destruct Hsrc as [Hr Hv Ha Hl (rest & Hrest & Hsub) Hd]. split; try done.
        exists rest. split; [done|]. by rewrite List.filter_app, (Hother s'), app_nil_r.
      * intros d [Hd|Hd]%elem_of_app; [by apply Hsrc|]. apply not_true_iff_false. intros Ho.
        apply Hne. by apply (of_source_inj s' s d); auto.
Qed.
End index.
