(* ===== verification/LogIngest.v ===== *)
(** * Ingestion keeps every line once

    What the index holds of a source when its file has been ingested, whatever
    commits failed, whenever the process stopped, and however the file grew. *)

From S2P Require Import Prelude Bytes BMap Json Logfmt LogIndex LogText LogCommit.
From Stdlib Require Import Lia ZArith.

(** ** What the file system answers *)

(** The reads of a file return its contents, in pieces of any size; one that fails
    ends the operation, so what would follow it does not matter. *)
Fixpoint gives_text (reads : list (outcome bytes)) (text : bytes) : Prop :=
  match reads with
  | [] => text = []
  | Ok [] :: _ => text = []
  | Ok chunk :: reads => exists rest, text = chunk ++ rest /\ gives_text reads rest
  | _ :: _ => True
  end.

(** A file that held [before] when it was examined and [after] when it was read to
    its end; lines may have been appended in between. *)
Definition serves (file : LogFile) (before after : bytes) : Prop :=
  before `prefix_of` after /\
  match lf_metadata file with
  | Some (true, len) =>
      len = Z.of_nat (length before) /\
      forall offset, (0 <= offset <= Z.of_nat (length before))%Z ->
        match lf_reads file offset with
        | Ok reads => gives_text reads (drop (Z.to_nat offset) after)
        | _ => True
        end
  | _ => True
  end.

(** Its complete lines are UTF-8, and its length fits [u64]. *)
Definition readable (log : bytes) : Prop :=
  utf8_valid (complete log) = true /\ (Z.of_nat (length log) <= u64_max)%Z.

Section index.
Context `{Json} `{SearchIndexLaws} `{StateCodecLaws} {Response : Type}.
Context (unicode_digit : bytes -> bool) (parse_rfc3339 : string -> option Z) (oldest : Z).
Context (universe : list LogSource) (Hkeys : NoDup (key_of <$> universe)).

Abbreviation state := (LogIndex (Response := Response)).
Abbreviation inv := (inv (Response := Response) unicode_digit parse_rfc3339 oldest universe).
Abbreviation batch_ok :=
  (batch_ok (Response := Response) unicode_digit parse_rfc3339 oldest universe).
Implicit Types (s : LogSource) (st : state) (b : IngestBatch).

(** *** The sources during one operation *)

(** A source that waits for its turn, or has had it. *)
Inductive phase := Waiting (c : IngestCursor) (n : Z) | Done (c : IngestCursor).

Definition clean s (n : Z) st : Prop :=
  bounded s n (committed (lx_writer st)) /\ bounded s n (outlook (lx_writer st)).

Definition in_phase (ph : phase) s b st : Prop :=
  match ph with
  | Waiting c n => find_update (key_of s) (ib_pending_updates b) = None /\
                   cursor_in (lx_ingest st) s = c /\ clean s n st
  | Done c => effective b (lx_ingest st) s = c /\
      (find_update (key_of s) (ib_pending_updates b) = None -> clean s (ic_next_seq c) st)
  end.

Lemma in_phase_commit logs st0 st b b' ph s :
  s ∈ universe ->
  committed_post unicode_digit parse_rfc3339 oldest universe logs st0 b st ->
  ib_pending_updates b' = [] -> in_phase ph s b st0 -> in_phase ph s b' st.
Proof.
  intros Hs [_ Hpost] Hb'. destruct (Hpost s Hs) as [Hc Hd]. unfold in_phase, effective in *.
  rewrite Hb'. cbn [find_update List.find]. destruct ph as [c n|c].
  - intros (Hf & <- & HC & HO). rewrite Hf in Hc, Hd. split_and!; [done..|]. by apply Hd.
  - intros [<- Hclean]. split; [done|]. intros _. destruct (find_update _ _); [done|].
    destruct (Hclean eq_refl) as [HC HO]. by apply Hd.
Qed.

Lemma in_phase_same ph s b b' st :
  find_update (key_of s) (ib_pending_updates b') = find_update (key_of s) (ib_pending_updates b) ->
  in_phase ph s b st -> in_phase ph s b' st.
Proof. unfold in_phase, effective. by intros ->. Qed.

(** *** Reading one source *)

Section read.
Context (env : LogEnv) (logs : string -> bytes) (min : option Z) (s : LogSource).
Context (Hmin : forall m, min = Some m -> (m <= oldest)%Z) (Hs : s ∈ universe).
Context (Hlog : readable (log_of logs s)) (phases : LogSource -> phase).

Let log : bytes := log_of logs s.

Definition others b st : Prop :=
  forall s', s' ∈ universe -> s' <> s -> in_phase (phases s') s' b st.

Record reading (c : IngestCursor) (del : option Z) b st : Prop := {
  rd_inv : inv logs st;
  rd_batch : batch_ok logs st b;
  rd_cursor : effective b (lx_ingest st) s = c;
  rd_line : at_line log c;
  rd_delete : match find_update (key_of s) (ib_pending_updates b) with
              | Some _ => del = None
              | None => del = Some (ic_next_seq c) \/
                        del = None /\ bounded s (ic_next_seq c) (outlook (lx_writer st))
              end;
  rd_others : others b st;
}.

Lemma reading_flush c b :
  find_update (key_of s) (ib_pending_updates b) <> None ->
  hoare (reading c None b) (if should_flush b then commit_ingest_batch env b else mret b)
    (fun b' => reading c None b') (inv logs).
Proof.
  intros Hf. destruct (should_flush b); [|apply (hoare_ret (fun b' => reading c None b'))].
  intros st [Hinv Hb Hc Hline _ Ho].
  pose proof (commit_batch_hoare unicode_digit parse_rfc3339 oldest universe Hkeys env logs st b
    Hinv Hb st eq_refl) as Hcommit.
  destruct (commit_ingest_batch env b st) as [[b'|e| |] st']; [|done..].
  destruct Hcommit as (Hpost & Hb' & Hnone). destruct (Hpost) as [Hinv' _].
  assert (forall ph s', s' ∈ universe -> in_phase ph s' b st -> in_phase ph s' b' st') as Hphase
    by (intros ph s' Hs'; by eapply in_phase_commit).
  destruct (Hphase (Done c) s Hs) as [Heff Hclean]; [done|].
  split; try done.
  - rewrite Hnone. right. split; [done|]. apply Hclean. by rewrite Hnone.
  - intros s' Hs' Hne. apply Hphase; [done|]. by apply Ho.
Qed.

Lemma complete_all a r : ends_line a -> no_newline r -> complete (a ++ r) = a.
Proof. intros Ha Hr. by rewrite complete_app, complete_none, app_nil_r. Qed.

(** One piece of whole lines. *)
Lemma reading_piece c del b st text rest :
  reading c del b st -> log = text_at log c ++ text ++ rest -> ends_line text -> text <> [] ->
  exists c' b',
    collect_complete_lines unicode_digit parse_rfc3339 s (key_of s) c del text min b = (c', b') /\
    ic_offset c' <> ic_offset c /\ text_at log c' = text_at log c ++ text /\
    reading c' None b' st /\ find_update (key_of s) (ib_pending_updates b') <> None.
Proof.
  intros [Hinv Hb Hc Hline Hdel Ho] Hsplit He Hne. destruct Hlog as [Hutf8 Hlen].
  destruct (at_line_next log c text rest Hline Hsplit He) as [Hline' Ht].
  set (c' := mkCursor _ _) in *. pose proof (al_low _ _ Hline). pose proof (al_high _ _ Hline').
  pose proof (complete_split log) as (r & Hr & _). apply (f_equal length) in Hr.
  rewrite length_app in Hr. fold log in Hlen.
  pose proof (nlines_length (text_at log c')) as Hn. pose proof (al_seq _ _ Hline') as Hseq'.
  pose proof (at_line_offset _ _ Hline') as Hoff'. pose proof (al_seq _ _ Hline) as Hseq.
  assert (0 <= nlines (text_at log c))%Z by (unfold nlines; lia).
  exists c', (record_update (mkUpdate (key_of s) c' (ls_run_id s) (ls_service s) del)
    (add_docs (List.filter (retained min)
       (all_docs unicode_digit parse_rfc3339 s (ic_next_seq c) text)) b)).
  split; [|split; [|split; [done|split]]].
  - destruct c as [off n]. cbn [ic_offset ic_next_seq] in *.
    rewrite collect_complete_lines_spec; [done| |done|lia|lia| |]; cbn in *; try lia.
    assert (complete log = (text_at log (mkCursor off n) ++ text) ++ complete rest) as Hcomp.
    { rewrite Hsplit at 1. rewrite app_assoc. apply complete_app. apply ends_line_app; [apply Hline|done]. }
    fold log in Hutf8. rewrite Hcomp, !utf8_valid_app in Hutf8;
      [|apply Hline|apply ends_line_app; [apply Hline|done]].
    by apply andb_prop in Hutf8 as [[_ ?]%andb_prop _].
  - unfold c'. cbn. destruct text; [done|]. simpl. lia.
  - pose proof (batch_extend unicode_digit parse_rfc3339 oldest universe Hkeys logs st b s text min del)
      as Hext. cbv zeta in Hext. rewrite Hc in Hext. fold c' in Hext.
    specialize (Hext Hinv Hb Hs Hmin Hline' Ht Hdel).
    split; try done.
    + unfold effective. cbn [record_update ib_pending_updates].
      rewrite find_update_pending, bool_decide_eq_true_2 by done. by repeat case_match.
    + cbn [record_update ib_pending_updates].
      by rewrite find_update_pending, bool_decide_eq_true_2 by done.
    + intros s' Hs' Hne'. apply (in_phase_same _ _ b); [|by apply Ho].
      cbn [record_update ib_pending_updates]. rewrite find_update_pending, add_docs_updates.
      rewrite bool_decide_eq_false_2; [done|]. intros Hk. apply Hne'. symmetry. by eapply key_of_inj.
  - cbn [record_update ib_pending_updates]. by rewrite find_update_pending, bool_decide_eq_true_2 by done.
Qed.

(** The whole file read: the effective cursor is at the end of its last line. *)
Definition read_to_end b st : Prop :=
  exists c del, reading c del b st /\ text_at log c = complete log.

Lemma read_loop_hoare reads carry c del b rest :
  (at_line log c -> log = text_at log c ++ carry ++ rest) -> no_newline carry ->
  gives_text reads rest ->
  hoare (reading c del b)
    (read_loop unicode_digit parse_rfc3339 env s (key_of s) min reads carry c del b)
    read_to_end (inv logs).
Proof.
  revert carry c del b rest. induction reads as [|read reads IH]; intros carry c del b rest Hsplit Hn Hg.
  - cbn [read_loop]. intros st Hst. cbn. exists c, del. split; [done|].
    simpl in Hg. subst rest. specialize (Hsplit (rd_line _ _ _ _ Hst)).
    rewrite app_nil_r in Hsplit. rewrite Hsplit at 2.
    symmetry. apply complete_all; [|done]. apply (rd_line _ _ _ _ Hst).
  - cbn [read_loop]. destruct read as [chunk|e| |]; [|intros st Hst; apply Hst..].
    apply hoare_bind_ok. cbv beta.
    destruct chunk as [|x chunk]; cbn [is_empty gives_text] in *.
    + intros st Hst. cbn. exists c, del. split; [done|]. subst rest.
      specialize (Hsplit (rd_line _ _ _ _ Hst)). rewrite app_nil_r in Hsplit. rewrite Hsplit at 2.
      symmetry. apply complete_all; [|done]. apply (rd_line _ _ _ _ Hst).
    + destruct Hg as (rest' & -> & Hg).
      pose proof (rposition_spec (carry ++ x :: chunk)) as Hr.
      destruct (rposition is_newline (carry ++ x :: chunk)) as [i|].
      * destruct Hr as (_ & He & Hne & Hn'). set (text := take (i + 1) _) in *.
        set (tail := drop (i + 1) _) in *. intros st Hst.
        pose proof (rd_line _ _ _ _ Hst) as Hline. specialize (Hsplit Hline).
        assert (log = text_at log c ++ text ++ tail ++ rest') as Hsplit'.
        { rewrite Hsplit at 1. f_equal. rewrite (app_assoc text). unfold text, tail.
          by rewrite take_drop, <- app_assoc. }
        destruct (reading_piece c del b st text _ Hst Hsplit' He Hne)
          as (c' & b' & Hcollect & Hoff & Ht & Hst' & Hf).
        cbv zeta. rewrite Hcollect, (proj2 (Z.eqb_neq _ _) Hoff).
        cut (hoare (reading c' None b')
          (b'' ← (if should_flush b' then commit_ingest_batch env b' else mret b');
           read_loop unicode_digit parse_rfc3339 env s (key_of s) min reads tail c' None b'')
          read_to_end (inv logs)); [intros Hh; exact (Hh st Hst')|].
        eapply hoare_bind; [by apply reading_flush|]. intros b''.
        apply (IH _ _ _ _ rest'); [|done|done]. intros _. by rewrite Ht, <- app_assoc.
      * apply (IH _ _ _ _ rest'); [|done|done]. intros Hl. rewrite (Hsplit Hl) at 1.
        by rewrite <- app_assoc.
Qed.

(** *** One source of the list *)

Context (before : string -> bytes).
Context (Hserves : serves (le_files env (ls_path s)) (log_of before s) log).

Definition is_file : Prop :=
  exists len, lf_metadata (le_files env (ls_path s)) = Some (true, len).

(** The source has its place, and the others theirs. *)
Definition placed (ph : phase) b st : Prop :=
  inv logs st /\ batch_ok logs st b /\ others b st /\ in_phase ph s b st.

Lemma log_at_cursor c :
  at_line log c -> log = text_at log c ++ [] ++ drop (Z.to_nat (ic_offset c)) log.
Proof.
  intros Hline. destruct (complete_split log) as (r & Hr & _ & _).
  rewrite <- (take_drop (Z.to_nat (ic_offset c)) log) at 1. f_equal.
  unfold text_at. rewrite Hr at 1. apply take_app_le. destruct Hline. lia.
Qed.

Lemma finished b st :
  read_to_end b st ->
  exists c, placed (Done c) b st /\ complete (log_of before s) `prefix_of` text_at log c.
Proof.
  intros (c & del & [Hinv Hb Hc Hline Hdel Ho] & Ht). exists c. split.
  - split_and!; try done. split; [done|]. intros _. destruct (Hinv s Hs) as [_ _ _ [_ HC] [_ HO]].
    unfold clean. rewrite (al_seq _ _ Hline), Ht. by split.
  - rewrite Ht. apply complete_prefix. by destruct Hserves.
Qed.

Lemma ingest_source_hoare cursors c b :
  at_line (log_of before s) c -> default cursor_default (bget (key_of s) cursors) = c ->
  hoare (placed (Waiting c (nlines (complete (log_of before s)))) b)
    (ingest_source unicode_digit parse_rfc3339 env cursors min b s)
    (fun b' st => exists ph, placed ph b' st /\
       (is_file -> exists c', ph = Done c' /\ complete (log_of before s) `prefix_of` text_at log c'))
    (inv logs).
Proof.
  intros Hline Hcur st Hst. pose proof Hst as (Hinv & Hb & Ho & Hf & Hmem & HC & HO).
  unfold ingest_source. destruct Hserves as [Hprefix Hserve]. unfold is_file.
  pose proof (at_line_mono _ _ _ Hprefix Hline) as Hline'.
  destruct (lf_metadata (le_files env (ls_path s))) as [[[] len]|]; cbn;
    [|eexists; split; [exact Hst|by intros [? ?]]..].
  destruct Hserve as [-> Hreads]. rewrite Hcur.
  destruct (complete_split (log_of before s)) as (r & Hr & _ & _).
  apply (f_equal length) in Hr. rewrite length_app in Hr.
  destruct (Z.ltb_spec (Z.of_nat (length (log_of before s))) (ic_offset c)); [destruct Hline; lia|].
  destruct (Z.eqb_spec (Z.of_nat (length (log_of before s))) (ic_offset c)) as [Heq|Hne].
  - assert (text_at (log_of before s) c = complete (log_of before s)) as Ht.
    { unfold text_at. apply take_ge. lia. }
    assert (ic_next_seq c = nlines (complete (log_of before s))) as Hseq
      by (by rewrite (al_seq _ _ Hline), Ht).
    exists (Done c). split.
    + split_and!; try done. split; [unfold effective; by rewrite Hf|]. intros _. by rewrite Hseq.
    + intros _. exists c. split; [done|]. by rewrite (text_at_mono (log_of before s)), Ht.
  - assert (0 <= ic_offset c <= Z.of_nat (length (log_of before s)))%Z as Hrange by (destruct Hline; lia).
    specialize (Hreads _ Hrange). unfold read_source.
    destruct (lf_reads (le_files env (ls_path s)) (ic_offset c)) as [reads|e| |]; [|done..].
    assert (reading c (Some (ic_next_seq c)) b st) as Hrd.
    { split; try done; [unfold effective; by rewrite Hf|]. rewrite Hf. by left. }
    pose proof (read_loop_hoare reads [] c (Some (ic_next_seq c)) b
      (drop (Z.to_nat (ic_offset c)) log)) as Hloop.
    specialize (Hloop (log_at_cursor c) eq_refl Hreads st Hrd).
    unfold st_lift, mbind, st_bind.
    destruct (read_loop _ _ _ _ _ _ _ _ _ _ _ st) as [[b'|e| |] st']; [|done..].
    destruct (finished b' st' Hloop) as (c' & Hp & Hc'). exists (Done c'). eauto.
Qed.
End read.

(** *** The whole operation *)

Section operation.
Context (env : LogEnv) (before logs : string -> bytes) (min : option Z).
Context (Hmin : forall m, min = Some m -> (m <= oldest)%Z).
Context (Hserves : forall s, s ∈ universe ->
  serves (le_files env (ls_path s)) (log_of before s) (log_of logs s) /\ readable (log_of logs s)).

Definition all_phases (phases : LogSource -> phase) b st : Prop :=
  inv logs st /\ batch_ok logs st b /\
  forall s, s ∈ universe -> in_phase (phases s) s b st.

Definition had_turn (ph : phase) s : Prop :=
  is_file env s -> exists c, ph = Done c /\
    complete (log_of before s) `prefix_of` text_at (log_of logs s) c.

Definition waiting (cursors : bmap string IngestCursor) (ph : phase) s : Prop :=
  exists c, ph = Waiting c (nlines (complete (log_of before s))) /\
    at_line (log_of before s) c /\ default cursor_default (bget (key_of s) cursors) = c.

Lemma ingest_fold_hoare cursors l phases b :
  NoDup l -> (forall s, s ∈ l -> s ∈ universe /\ waiting cursors (phases s) s) ->
  hoare (all_phases phases b)
    (sfold (ingest_source unicode_digit parse_rfc3339 env cursors min) l b)
    (fun b' st => exists phases', all_phases phases' b' st /\
       (forall s, s ∉ l -> phases' s = phases s) /\ forall s, s ∈ l -> had_turn (phases' s) s)
    (inv logs).
Proof.
  revert phases b. induction l as [|s l IH]; intros phases b Hnd Hl.
  { intros st Hst. cbn. exists phases. split_and!; [done..|by intros s ?%elem_of_nil]. }
  apply NoDup_cons in Hnd as [Hnin Hnd].
  destruct (Hl s) as (Hs & c & Hph & Hline & Hcur); [left|]. destruct (Hserves s Hs) as [Hsv Hrd].
  pose proof (ingest_source_hoare env logs min s Hmin Hs Hrd phases before Hsv cursors c b Hline Hcur)
    as Hone.
  cbn [sfold]. intros st (Hinv & Hb & Hall).
  specialize (Hone st). rewrite <- Hph in Hone.
  assert (placed logs s phases (phases s) b st) as Hplaced.
  { split_and!; [done..|intros s' Hs' _; by apply Hall|by apply Hall]. }
  specialize (Hone Hplaced). unfold mbind, st_bind.
  destruct (ingest_source _ _ _ _ _ _ _ st) as [[b1|e| |] st1]; [|done..].
  destruct Hone as (ph & (Hinv1 & Hb1 & Ho1 & Hp1) & Hturn).
  set (phases1 := fun x => if decide (x = s) then ph else phases x).
  assert (all_phases phases1 b1 st1) as Hall1.
  { split_and!; [done..|]. intros s' Hs'. unfold phases1. destruct (decide (s' = s)) as [->|Hne];
      [done|by apply Ho1]. }
  assert (forall x, x ∈ l -> x ∈ universe /\ waiting cursors (phases1 x) x) as Hl1.
  { intros x Hx. unfold phases1. rewrite decide_False by (by intros ->). apply Hl. by right. }
  specialize (IH phases1 b1 Hnd Hl1 st1 Hall1).
  destruct (sfold _ l b1 st1) as [[b2|e| |] st2]; [|done..].
  destruct IH as (phases2 & Hall2 & Hsame & Hturns). exists phases2. split_and!; [done| |].
  - intros x [Hne Hx]%not_elem_of_cons. rewrite Hsame by done. unfold phases1. by rewrite decide_False.
  - intros x [->|Hx]%elem_of_cons; [|by apply Hturns]. rewrite Hsame by done. unfold phases1.
    by rewrite decide_True.
Qed.

Lemma cursors_of_get sources ingest s :
  s ∈ sources ->
  default cursor_default (bget (key_of s) (cursors_of sources ingest)) = cursor_in ingest s.
Proof.
  intros Hs. unfold cursors_of, bcollect. set (f := fun source => (key_of source, _)).
  rewrite bget_bextend. destruct (bget (key_of s) (reverse (map f sources))) as [v|] eqn:Hv.
  - apply bget_Some_in, elem_of_reverse, list_elem_of_fmap in Hv as (s' & [= Hk ->] & _).
    unfold cursor_in. by rewrite Hk.
  - exfalso. apply bget_None_keys in Hv. apply Hv, list_elem_of_fmap. exists (f s).
    split; [done|]. apply elem_of_reverse, list_elem_of_fmap. by exists s.
Qed.

(** A source that waits outside the list stays as it is. *)
Definition untouched (sources : list LogSource) (cursor0 : LogSource -> IngestCursor)
    (bound : LogSource -> Z) st : Prop :=
  forall s, s ∈ universe -> s ∉ sources ->
    cursor_in (lx_ingest st) s = cursor0 s /\ clean s (bound s) st.

Definition indexed (sources : list LogSource) st : Prop :=
  forall s, s ∈ sources -> is_file env s ->
    exists c, cursor_in (lx_ingest st) s = c /\ clean s (ic_next_seq c) st /\
      complete (log_of before s) `prefix_of` text_at (log_of logs s) c.

Lemma ingest_frame sources cursor0 bound (Hnd : NoDup sources)
    (Hsub : forall s, s ∈ sources -> s ∈ universe) :
  hoare (fun st => inv before st /\ untouched sources cursor0 bound st)
    (ingest_sources_after unicode_digit parse_rfc3339 env sources min)
    (fun _ st => inv logs st /\ indexed sources st /\ untouched sources cursor0 bound st)
    (inv logs).
Proof.
  intros st [Hbefore Hun]. assert (inv logs st) as Hinv.
  { apply (inv_mono unicode_digit parse_rfc3339 oldest universe before); [|done].
    intros s Hs. by destruct (Hserves s Hs) as [[? _] _]. }
  unfold ingest_sources_after. destruct sources as [|s0 l0] eqn:Hsources.
  { split_and!; [done| |done]. by intros s ?%elem_of_nil. }
  rewrite <- Hsources in *. clear s0 l0 Hsources.
  set (cursors := cursors_of sources (lx_ingest st)).
  set (phases := fun s => Waiting (cursor_in (lx_ingest st) s)
    (if decide (s ∈ sources) then nlines (complete (log_of before s)) else bound s)).
  assert (all_phases phases batch_default st) as Hstart.
  { split; [done|]. split; [apply batch_default_ok|]. intros s Hs. unfold phases.
    destruct (decide (s ∈ sources)) as [Hin|Hnin]; split_and!; try done; [|by apply Hun].
    destruct (Hbefore s Hs) as [_ _ _ [_ HC] [_ HO]]. by split. }
  pose proof (ingest_fold_hoare cursors sources phases batch_default Hnd) as Hfold.
  specialize (Hfold ltac:(intros s Hs; split; [by apply Hsub|]; unfold phases; rewrite decide_True by done;
    eexists; split_and!; [done|apply (Hbefore s (Hsub s Hs))|by apply cursors_of_get]) st Hstart).
  unfold mbind, st_bind at 1. destruct (sfold _ sources batch_default st) as [[b|e| |] st1]; [|done..].
  destruct Hfold as (phases' & (Hinv1 & Hb1 & Hall) & Hsame & Hturns).
  pose proof (commit_batch_hoare unicode_digit parse_rfc3339 oldest universe Hkeys env logs st1 b
    Hinv1 Hb1 st1 eq_refl) as Hcommit. unfold st_bind.
  destruct (commit_ingest_batch env b st1) as [[b'|e| |] st2]; [|done..].
  destruct Hcommit as (Hpost & _ & Hnone). cbn. split_and!; [by apply Hpost| |].
  - intros s Hs Hfile. destruct (Hturns s Hs Hfile) as (c & Hph & Hc). exists c.
    specialize (Hall s (Hsub s Hs)). rewrite Hph in Hall.
    apply (in_phase_commit logs st1 st2 b b' _ s (Hsub s Hs) Hpost Hnone) in Hall as [Heff Hclean].
    unfold effective in Heff. rewrite Hnone in Hclean, Heff. split_and!; [done|by apply Hclean|done].
  - intros s Hs Hnin. specialize (Hall s Hs). rewrite Hsame in Hall by done. unfold phases in Hall.
    rewrite decide_False in Hall by done. destruct (Hun s Hs Hnin) as [<- _].
    by apply (in_phase_commit logs st1 st2 b b' _ s Hs Hpost Hnone) in Hall as (_ & Hc & Hclean).
Qed.

Lemma ingest_hoare sources (Hnd : NoDup sources) (Hsub : forall s, s ∈ sources -> s ∈ universe) :
  hoare (inv before) (ingest_sources_after unicode_digit parse_rfc3339 env sources min)
    (fun _ st => inv logs st /\ indexed sources st) (inv logs).
Proof.
  intros st Hbefore. pose proof (ingest_frame sources (cursor_in (lx_ingest st))
    (fun s => nlines (complete (log_of before s))) Hnd Hsub st) as Hh.
  destruct (ingest_sources_after _ _ _ _ _ st) as [[u|e| |] st']; [split|..]; apply Hh;
    (split; [done|intros s Hs _; split; [done|]; by destruct (Hbefore s Hs) as [_ _ _ [_ HC] [_ HO]]]).
Qed.
End operation.

(** *** Eviction and restarts *)

Lemma evict_hoare logs count cutoff :
  (cutoff <= oldest)%Z ->
  hoare (inv logs) (evict_older_than (Response := Response) count cutoff) (fun _ => inv logs) (inv logs).
Proof.
  intros Hcut. unfold evict_older_than. destruct count as [n|e| |]; [|by intros st ?..].
  apply hoare_bind_ok. destruct (n =? 0)%nat; [by intros st ?|]. intros st Hinv.
  destruct (good_start _ _ oldest universe logs st Hinv) as [HC HO].
  set (D := List.filter (fun d => negb (matches (QBefore cutoff) d)) (outlook (lx_writer st))).
  assert (good unicode_digit parse_rfc3339 oldest universe logs st D) as HD
    by (intros s Hs; by apply docs_ok_evict, HO).
  set (C := committed (lx_writer st)) in *.
  cut (hoare (at_docs st C (outlook (lx_writer st)))
    (_ ← with_writer (delete_query (QBefore cutoff)); _ ← with_writer commit;
     _ ← clear_facet_cache; mret n) (fun _ => inv logs) (inv logs)).
  { intros Hh. by apply Hh. }
  eapply hoare_bind with (R := fun _ => at_docs st C D).
  - eapply with_writer_hoare; [done..|]. intros w HCw HOw.
    pose proof (delete_query_law (QBefore cutoff) w) as Hl.
    destruct (delete_query _ w) as [r w']. destruct Hl as [HC' [HO'|[Hr HO']]].
    + left. by rewrite HC', HO', HOw.
    + right. split; [done|]. rewrite HC', HO', HCw, HOw. auto.
  - intros []. eapply hoare_bind; [by eapply commit_hoare|]. intros [] st1 Hst1. cbn.
    by apply (at_docs_inv unicode_digit parse_rfc3339 oldest universe logs st Hinv D D).
Qed.

Lemma open_inv logs st : inv logs st -> inv logs (open_from_tantivy_index true st).
Proof.
  intros Hinv s Hs. destruct (Hinv s Hs) as [Hm Hd Hle HC HO].
  destruct (open_index_law (lx_writer st)) as [HoC HoO].
  replace (lx_ingest (open_from_tantivy_index true st)) with (saved_ingest (lx_saved st))
    by (by destruct st as [w i []]).
  assert (forall D, D ≡ₚ committed (lx_writer st) -> docs_ok unicode_digit parse_rfc3339 oldest s
    (log_of logs s) (limit logs s) (cursor_in (saved_ingest (lx_saved st)) s) D) as HD.
  { intros D HDC. eapply docs_ok_perm; [symmetry; exact HDC|].
    by eapply docs_ok_shrink; [exact Hm|..]. }
  split; try done; by apply HD.
Qed.

(** The file of the cursors is lost: everything is read again. *)
Definition without_cursors (st : state) : state :=
  mkLogIndex (lx_writer st) (lx_ingest st) None (lx_facet_cache st) (lx_commits st).

Lemma without_cursors_inv logs st : inv logs st -> inv logs (without_cursors st).
Proof.
  intros Hinv s Hs. destruct (Hinv s Hs) as [Hm Hd Hle HC HO].
  split; [done|apply at_line_default| |done|done].
  destruct Hm. cbn. lia.
Qed.

(** *** Histories *)

(** What happened to an index since it was created: operations that succeeded or
    failed at any point, ends of the process, while the logs grew. *)
Inductive history : (string -> bytes) -> state -> Prop :=
| history_start logs st :
    committed (lx_writer st) = [] -> outlook (lx_writer st) = [] ->
    lx_ingest st = ingest_state_default -> lx_saved st = None -> history logs st
| history_grow before logs st :
    history before st -> (forall path, before path `prefix_of` logs path) -> history logs st
| history_ingest env before logs st sources min :
    history before st -> NoDup sources -> (forall s, s ∈ sources -> s ∈ universe) ->
    (forall m, min = Some m -> (m <= oldest)%Z) ->
    (forall s, s ∈ universe ->
       serves (le_files env (ls_path s)) (log_of before s) (log_of logs s) /\
       readable (log_of logs s)) ->
    history logs (ingest_sources_after unicode_digit parse_rfc3339 env sources min st).2
| history_evict logs st count cutoff :
    history logs st -> (cutoff <= oldest)%Z ->
    history logs (evict_older_than count cutoff st).2
| history_restart logs st :
    history logs st -> history logs (open_from_tantivy_index true st)
| history_forgotten logs st : history logs st -> history logs (without_cursors st).

Lemma history_inv logs st : history logs st -> inv logs st.
Proof.
  induction 1 as [logs st HC HO Hi Hs|before logs st _ IH Hp|env before logs st sources min _ IH Hnd Hsub
    Hmin Hserves|logs st count cutoff _ IH Hcut|logs st _ IH|logs st _ IH].
  - intros s Hin. rewrite HC, HO, Hi, Hs.
    assert (forall n, docs_ok unicode_digit parse_rfc3339 oldest s (log_of logs s) n
      (cursor_in ingest_state_default s) []) as Hd.
    { intros n. split; [|by intros d ?%elem_of_nil]. exists []. split; [done|].
      split; [done|]. by intros d ?%elem_of_nil. }
    split; [apply at_line_default|apply at_line_default|done|apply Hd|apply Hd].
  - eapply inv_mono; [|done]. intros s _. apply Hp.
  - pose proof (ingest_hoare env before logs min Hmin Hserves sources Hnd Hsub st IH) as Hh.
    destruct (ingest_sources_after _ _ _ _ _ st) as [[[]|e| |] st']; [apply Hh|done..].
  - pose proof (evict_hoare logs count cutoff Hcut st IH) as Hh.
    destruct (evict_older_than count cutoff st) as [[n|e| |] st']; exact Hh.
  - by apply open_inv.
  - by apply without_cursors_inv.
Qed.
End index.

(** C3: every line is indexed once.  Whatever happened before - operations that failed
    at any point, processes that ended between the commit and the writing of the
    cursors, evictions, a lost file of cursors, logs that grew - when the ingestion of some sources succeeds,
    the index holds of each of them exactly one document for each of its complete
    lines, numbered in order, but for documents older than the oldest cutoff used. *)
Theorem lines_indexed_once `{Json} `{SearchIndexLaws} `{StateCodecLaws} {Response : Type}
    (unicode_digit : bytes -> bool) (parse_rfc3339 : string -> option Z) (oldest : Z)
    (universe : list LogSource) (env : LogEnv) (before after : string -> bytes)
    (st st' : LogIndex (Response := Response)) (sources : list LogSource) (min : option Z) :
  NoDup (key_of <$> universe) ->
  history unicode_digit parse_rfc3339 oldest universe before st ->
  NoDup sources -> (forall s, s ∈ sources -> s ∈ universe) ->
  (forall m, min = Some m -> (m <= oldest)%Z) ->
  (forall s, s ∈ universe ->
     serves (le_files env (ls_path s)) (log_of before s) (log_of after s) /\
     readable (log_of after s)) ->
  ingest_sources_after unicode_digit parse_rfc3339 env sources min st = (Ok tt, st') ->
  forall s, s ∈ sources -> is_file env s ->
  exists text kept,
    complete (log_of before s) `prefix_of` text /\ text `prefix_of` complete (log_of after s) /\
    List.filter (of_source s) (committed (lx_writer st')) ≡ₚ kept /\
    kept `sublist_of` all_docs unicode_digit parse_rfc3339 s 0 text /\
    forall d, d ∈ all_docs unicode_digit parse_rfc3339 s 0 text ->
      (oldest <= pd_ts_nanos d)%Z -> d ∈ kept.
Proof.
  intros Hkeys Hist Hnd Hsub Hmin Hserves Hrun s Hs Hfile.
  apply (history_inv unicode_digit parse_rfc3339 oldest universe Hkeys) in Hist.
  pose proof (ingest_hoare unicode_digit parse_rfc3339 oldest universe Hkeys env before after min Hmin
    Hserves sources Hnd Hsub st Hist) as Hh.
  rewrite Hrun in Hh. destruct Hh as [Hinv Hpost].
  destruct (Hpost s Hs Hfile) as (c & Hc & [Hclean _] & Hbefore).
  destruct (Hinv s (Hsub s Hs)) as [Hline _ _ ((kept & Hkept & Hsubset & Hold) & _) _].
  rewrite Hc in *. exists (text_at (log_of after s) c), kept. split_and!; try done.
  - unfold text_at. eexists. symmetry. apply take_drop.
  - rewrite <- Hkept. apply eq_Permutation, filter_ext_elem. intros d Hd. unfold below.
    destruct (of_source s d) eqn:Ho; [|done]. symmetry. apply Z.ltb_lt. by apply Hclean.
Qed.

(** ** A concrete index *)

From stdpp Require Import countable.

#[local] Instance list_index : SearchIndex :=
  {| writer := list PendingDoc * list PendingDoc;
     committed := fst; outlook := snd;
     delete_query q w := (Ok tt, (w.1, List.filter (fun d => negb (matches q d)) w.2));
     add_document d w := (Ok tt, (w.1, d :: w.2));
     delete_term run w := (w.1, List.filter (fun d => negb (matches (QRun run) d)) w.2);
     commit w := (Ok tt, (w.2, w.2));
     open_index w := (w.1, w.1) |}.

#[local] Instance list_index_laws : SearchIndexLaws.
Proof. split; intros; cbn; auto. Qed.

Definition state_to_tree (st : IngestStateFile)
    : Z * list (string * (Z * Z)) * list (string * list (string * unit)) :=
  (is_version st, map (fun kv => (kv.1, (ic_offset kv.2, ic_next_seq kv.2))) (is_sources st),
   is_facet_fields st).

Definition state_of_tree
    (t : Z * list (string * (Z * Z)) * list (string * list (string * unit))) : IngestStateFile :=
  mkIngestState t.1.1 (map (fun kv => (kv.1, mkCursor kv.2.1 kv.2.2)) t.1.2) t.2.

#[local] Instance tree_codec : StateCodec :=
  {| state_to_vec st := digits_of_pos (encode (state_to_tree st));
     state_from_slice b := state_of_tree <$> decode (pos_of_digits b) |}.

#[local] Instance tree_codec_laws : StateCodecLaws.
Proof.
  split. intros st. exists st. split; [|done]. cbn. rewrite pos_digits, decode_encode. cbn.
  unfold state_of_tree, state_to_tree. cbn. rewrite map_map. destruct st as [v sources facets]. cbn.
  do 3 f_equal. rewrite <- (map_id sources) at 2. apply map_ext. by intros [k [o n]].
Qed.

(** A file with these contents, read in two pieces. *)
Definition text_file (text : bytes) : LogFile :=
  mkFile (Some (true, Z.of_nat (length text)))
    (fun offset => let rest := drop (Z.to_nat offset) text in
                   Ok [Ok (take 3 rest); Ok (drop 3 rest); Ok []]).

Lemma text_file_serves text : serves (text_file text) text text.
Proof.
  split; [done|]. split; [done|]. intros offset _. cbn. set (rest := drop _ text).
  destruct rest as [|a rest']; [done|]. cbn [take drop].
  exists (drop 2 rest'). split; [simpl; by rewrite take_drop|].
  destruct (drop 2 rest') as [|x l]; [done|]. exists []. by rewrite app_nil_r.
Qed.

Definition sample_source : LogSource := mkSource "run" "web" "/web.log".

Definition sample_env (text : bytes) (reload : outcome unit) : LogEnv :=
  mkEnv (fun _ => text_file text) (fun _ => reload) (fun _ => Ok tt).

#[local] Existing Instance concrete_json.

Definition sample_ingest (text : bytes) (reload : outcome unit) : LogM (Response := unit) unit :=
  ingest_sources_after (fun _ => false) (fun _ => None) (sample_env text reload) [sample_source] None.

Definition sample_text : bytes := to_bytes "one" ++ [ascii_of_nat 10] ++ to_bytes "two" ++ [ascii_of_nat 10].
Definition sample_prefix : bytes := to_bytes "one" ++ [ascii_of_nat 10] ++ to_bytes "t".

Definition empty_index : LogIndex (Response := unit) :=
  mkLogIndex ([], []) ingest_state_default None [] 0.

(** The first ingestion stops between the commit and the cursors, the process ends,
    the log grows. *)
Definition sample_state : LogIndex (Response := unit) :=
  open_from_tantivy_index true (sample_ingest sample_prefix (Err "reload") empty_index).2.

Lemma sample_history :
  history (Response := unit) (fun _ => false) (fun _ => None) 0 [sample_source]
    (fun _ => sample_text) sample_state.
Proof.
  apply (history_grow _ _ _ _ (fun _ => sample_prefix)); [|by intros _; eexists].
  apply history_restart, (history_ingest _ _ _ _ _ (fun _ => sample_prefix));
    [by apply history_start|apply NoDup_singleton|done|done|].
  intros s _. split; [apply text_file_serves|by split].
Qed.

Lemma lines_indexed_once_witness :
  exists st' kept,
    sample_ingest sample_text (Ok tt) sample_state = (Ok tt, st') /\
    List.filter (of_source sample_source) (committed (lx_writer st')) ≡ₚ kept /\
    kept `sublist_of` all_docs (fun _ => false) (fun _ => None) sample_source 0 sample_text /\
    forall d, d ∈ all_docs (fun _ => false) (fun _ => None) sample_source 0 sample_text ->
      (0 <= pd_ts_nanos d)%Z -> d ∈ kept.
Proof.
  pose proof (lines_indexed_once (Response := unit) (fun _ => false) (fun _ => None) 0 [sample_source]
    (sample_env sample_text (Ok tt)) (fun _ => sample_text) (fun _ => sample_text) sample_state
    (sample_ingest sample_text (Ok tt) sample_state).2 [sample_source] None) as H.
  destruct (H ltac:(apply NoDup_singleton) sample_history ltac:(apply NoDup_singleton)
    ltac:(done) ltac:(done)
    ltac:(intros s _; split; [apply text_file_serves|by split])
    ltac:(vm_compute; reflexivity) sample_source ltac:(left) ltac:(by eexists))
    as (text & kept & Hb & Ha & Hk & Hs & Hall).
  assert (text = sample_text) as ->.
  { apply (anti_symm prefix); [exact Ha|exact Hb]. }
  exists (sample_ingest sample_text (Ok tt) sample_state).2, kept. split; [vm_compute; reflexivity|].
  by split_and!.
Defined.

Example sample_documents :
  map (fun d => (pd_seq d, pd_raw d))
    (committed (lx_writer (sample_ingest sample_text (Ok tt) sample_state).2)) =
  [(1%Z, "two"); (0%Z, "one")].
Proof. vm_compute. reflexivity. Qed.

(** A log whose first line is one byte that is not UTF-8, and the same log with one
    more line. *)
Definition invalid_log : bytes := [ascii_of_nat 255; ascii_of_nat 10].
Definition grown_log : bytes := invalid_log ++ to_bytes "ab" ++ [ascii_of_nat 10].

(** The cursor counts the bytes of the decoded text, in which an ill-formed byte
    is three.  After such a line it is beyond the end of the file; when the file
    has grown past it, the bytes in between are never read: the line is lost, and
    the source counts as current. *)
Theorem lossy_line_lost :
  let '(r1, st1) := sample_ingest invalid_log (Ok tt) empty_index in
  let '(r2, st2) := sample_ingest grown_log (Ok tt) st1 in
  r1 = Ok tt /\ r2 = Ok tt /\
  ic_offset (cursor_in (lx_ingest st1) sample_source) = 4%Z /\ length invalid_log = 2%nat /\
  sources_are_current (sample_env grown_log (Ok tt)) [sample_source] st2 = true /\
  log_lines grown_log !! 1%nat = Some (to_bytes "ab") /\
  forallb (fun d => negb (contains_sub "ab" (pd_raw d))) (committed (lx_writer st2)) = true.
Proof. by vm_compute. Qed.
