(* ===== verification/Sort.v ===== *)
(** * Stable sorting

    [slice::sort_by] of Rust, for an order given by a boolean function. *)

From S2P Require Import Prelude.
From Stdlib Require Import Lia Sorted.

Section sort.
Context {A : Type} (le : A -> A -> bool).

Fixpoint insert_by (a : A) (l : list A) : list A :=
  match l with
  | [] => [a]
  | b :: l' => if le a b then a :: l else b :: insert_by a l'
  end.

Definition sort_by (l : list A) : list A := foldr insert_by [] l.

Definition sorted_by (l : list A) : Prop := StronglySorted (fun a b => le a b = true) l.

Lemma insert_by_perm a l : insert_by a l ≡ₚ a :: l.
Proof.
  induction l as [|b l IH]; simpl; [done|]. destruct (le a b); [done|].
  rewrite IH. apply Permutation_swap.
Qed.

Lemma sort_by_perm l : sort_by l ≡ₚ l.
Proof. induction l as [|a l IH]; simpl; [done|]. by rewrite insert_by_perm, IH. Qed.

Section order.
Context (Htotal : forall a b, le a b = true \/ le b a = true).
Context (Htrans : forall a b c, le a b = true -> le b c = true -> le a c = true).

Lemma insert_by_sorted a l : sorted_by l -> sorted_by (insert_by a l).
Proof.
  induction 1 as [|b l Hl IH Hall]; simpl; [repeat constructor|].
  destruct (le a b) eqn:E.
  - constructor; [by constructor|]. constructor; [done|].
    eapply Forall_impl; [exact Hall|]. intros c Hc. by eapply Htrans.
  - constructor; [done|]. rewrite insert_by_perm. constructor; [|done].
    destruct (Htotal a b); congruence.
Qed.

Lemma sort_by_sorted l : sorted_by (sort_by l).
Proof. induction l; simpl; [constructor|by apply insert_by_sorted]. Qed.
End order.

(** What is sorted stays as it is. *)
Lemma sort_by_id l : sorted_by l -> sort_by l = l.
Proof.
  induction 1 as [|a l Hl IH Hall]; simpl; [done|]. rewrite IH.
  destruct l as [|b l]; simpl; [done|]. by apply Forall_cons in Hall as [-> _].
Qed.

Lemma sorted_by_app l k :
  sorted_by l -> sorted_by k -> (forall a b, a ∈ l -> b ∈ k -> le a b = true) -> sorted_by (l ++ k).
Proof.
  induction 1 as [|a l Hl IH Hall]; simpl; [done|]. intros Hk Hle. constructor.
  - apply IH; [done|]. intros x y Hx Hy. apply Hle; [by right|done].
  - rewrite Forall_forall in *. intros x [Hx|Hx]%elem_of_app; [by apply Hall|]. apply Hle; [left|done].
Qed.

Lemma sorted_by_app_inv l k :
  sorted_by (l ++ k) ->
  sorted_by l /\ sorted_by k /\ forall a b, a ∈ l -> b ∈ k -> le a b = true.
Proof.
  induction l as [|a l IH]; simpl; intros Hs.
  { split_and!; [constructor|done|]. by intros a b ?%elem_of_nil. }
  inversion Hs as [|? ? Hs' Hall]; subst. destruct (IH Hs') as (Hl & Hk & Hle).
  apply Forall_app in Hall as [Hall Hallk]. split_and!; [by constructor|done|].
  intros x y [->|Hx]%elem_of_cons Hy; [|by apply Hle]. rewrite Forall_forall in Hallk. by apply Hallk.
Qed.

Lemma sorted_by_lookup l i j a b :
  sorted_by l -> i < j -> l !! i = Some a -> l !! j = Some b -> le a b = true.
Proof.
  intros Hs Hij Ha Hb. rewrite <- (take_drop_middle l i a Ha) in Hs.
  apply sorted_by_app_inv in Hs as (_ & Hs & _). inversion Hs as [|? ? _ Hall]; subst.
  rewrite Forall_forall in Hall. apply Hall. apply list_elem_of_lookup. exists (j - S i).
  rewrite lookup_drop. by replace (S i + (j - S i)) with j by lia.
Qed.

(** Two sorted permutations of a list on which the order is antisymmetric. *)
Lemma sorted_by_unique l k :
  (forall a b, a ∈ l -> b ∈ l -> le a b = true -> le b a = true -> a = b) ->
  sorted_by l -> sorted_by k -> l ≡ₚ k -> l = k.
Proof.
  intros Hanti Hl. revert k. induction Hl as [|a l Hl IH Hall]; intros k Hk Hp.
  { by apply Permutation_nil_l in Hp as ->. }
  destruct k as [|b k]; [by apply symmetry, Permutation_nil_cons in Hp|].
  inversion Hk as [|? ? Hk' Hallb]; subst.
  assert (a = b) as <-.
  { assert (a ∈ b :: k) as Ha by (rewrite <- Hp; left).
    assert (b ∈ a :: l) as Hb by (rewrite Hp; left).
    apply elem_of_cons in Ha as [->|Ha]; [done|]. apply elem_of_cons in Hb as [->|Hb]; [done|].
    rewrite Forall_forall in Hall, Hallb. apply Hanti; [left|by right|by apply Hall|by apply Hallb]. }
  f_equal. apply IH; [|done|by apply Permutation_cons_inv in Hp].
  intros x y Hx Hy. apply Hanti; by right.
Qed.
End sort.
