(* ===== verification/LogQuery.v ===== *)
(** * Queries of the log index

    Models [src/infra/logs/index/query.rs] and [facets.rs]: the lines of a service that
    match a filter, for a client that polls, and the view of a run or source with
    its entries and facets, which is cached.

    The search engine answers from the committed documents: how many match, the
    first of them by a field, the counts of their terms.  It parses the text of a
    query; what such a query matches is its matter. *)

From S2P Require Import Prelude Bytes BMap Json Logfmt Sort LogIndex.
From Stdlib Require Import Lia ZArith.

(** ** Requests and answers *)

Record LogFilterQuery := mkLogFilterQuery {
  lf_last : option nat;
  lf_since : option string;
  lf_search : option string;
  lf_level : option string;
  lf_stream : option string;
}.
Definition LogFilterQuery_default : LogFilterQuery := mkLogFilterQuery None None None None None.

Record LogsQuery := mkLogsQuery { lq_filter : LogFilterQuery; lq_after : option Z }.

Record LogsResponse := mkLogsResponse {
  lg_lines : list string;
  lg_truncated : bool;
  lg_total : nat;
  lg_error_count : nat;
  lg_warn_count : nat;
  lg_next_after : option Z;
  lg_matched_total : nat;
}.

Record LogViewQuery := mkLogViewQuery {
  lv_filter : LogFilterQuery;
  lv_service : option string;
  lv_include_entries : bool;
  lv_include_facets : bool;
  lv_include_total : bool;
}.

Section queries.
Context `{Json}.

Record LogEntry := mkLogEntry {
  le_ts : string;
  le_service : string;
  le_stream : string;
  le_level : string;
  le_message : string;
  le_raw : string;
  le_json : option Value;
  le_attributes : bmap string string;
}.

Record FacetValueCount := mkFacetValueCount { fv_value : string; fv_count : nat }.

Record FacetFilter := mkFacetFilter {
  ff_field : string;
  ff_kind : string;
  ff_values : list FacetValueCount;
}.

Record LogViewResponse := mkLogViewResponse {
  vr_entries : list LogEntry;
  vr_truncated : bool;
  vr_total : nat;
  vr_total_exact : bool;
  vr_filters : list FacetFilter;
}.

(** ** The search engine *)

(** The first [n] of some documents by a number, upwards or downwards; what a text
    query matches, when it is well formed. *)
Class Searcher := {
  top_docs : (PendingDoc -> Z) -> bool -> nat -> list PendingDoc -> list PendingDoc;
  parse_query : string -> outcome (PendingDoc -> bool);
}.

(** The order of equal documents is the engine's. *)
Class SearcherLaws `{Searcher} : Prop := {
  top_docs_law : forall f up n docs, exists l,
    l ≡ₚ docs /\ sorted_by (fun a b => if up : bool then (f a <=? f b)%Z else (f b <=? f a)%Z) l /\
    top_docs f up n docs = take n l;
}.

Context `{SearchIndex} `{StateCodec} `{Searcher}.
Context (unicode_digit : bytes -> bool) (parse_rfc3339 : string -> option Z).

Abbreviation Index := (LogIndex (Response := LogViewResponse)).
Abbreviation IndexM := (LogM (Response := LogViewResponse)).
Abbreviation Query := (PendingDoc -> bool).

Definition both (p q : Query) : Query := fun d => p d && q d.

Definition build_scope_query (run_id : string) (service : option string) (since_nanos : option Z)
    (stream : option string) (after_seq : option Z) : Query := fun d =>
  bool_decide (pd_run_id d = run_id)
  && match service with Some service => bool_decide (pd_service d = service) | None => true end
  && match stream with
     | Some stream =>
         if bool_decide (stream = "") || bool_decide (stream = "all") then true
         else bool_decide (pd_stream d = stream)
     | None => true
     end
  && match since_nanos with Some since => (since <=? pd_ts_nanos d)%Z | None => true end
  && match after_seq with Some after => (after <? pd_seq d)%Z | None => true end.

Definition add_level_filter (base : Query) (level : string) : Query :=
  let level := str_trim level in
  if bool_decide (level = "error") then both base (fun d => bool_decide (pd_level d = "error"))
  else if bool_decide (level = "warn") then both base (fun d => bool_decide (pd_level d = "warn"))
  else base.

Definition add_text_query (base : Query) (query : option string) : outcome Query :=
  match query with
  | None => Ok base
  | Some query =>
      let query := str_trim query in
      if bool_decide (query = "") then Ok base else
      match parse_query query with
      | Ok parsed => Ok (both base parsed)
      | Err err => Err ("bad_query: " +:+ err)
      | Panic => Panic
      | OutOfFuel => OutOfFuel
      end
  end.

Definition searched (st : Index) : list PendingDoc := committed (lx_writer st).
Definition select (q : Query) (st : Index) : list PendingDoc := List.filter q (searched st).

(** ** The lines of a service *)

Definition line_le (a b : Z * Z * string) : bool :=
  match Z.compare a.1.1 b.1.1 with Lt => true | Eq => (a.1.2 <=? b.1.2)%Z | Gt => false end.

Definition line_of (d : PendingDoc) : Z * Z * string := (pd_ts_nanos d, pd_seq d, pd_raw d).

Definition next_of (next : option Z) (d : PendingDoc) : option Z :=
  Some (match next with Some value => Z.max value (pd_seq d) | None => pd_seq d end).

Definition count_level (level : string) (docs : list PendingDoc) : nat :=
  length (List.filter (fun d => bool_decide (pd_level d = level)) docs).

Definition search_lines (run_id service : string) (query : LogsQuery) (st : Index)
    : outcome LogsResponse :=
  let filter := lq_filter query in
  let tail := default 500%nat (lf_last filter) in
  let since_nanos := since ← lf_since filter; parse_timestamp_nanos parse_rfc3339 since in
  let scope := build_scope_query run_id (Some service) since_nanos (lf_stream filter) None in
  let result := add_level_filter
    (build_scope_query run_id (Some service) since_nanos (lf_stream filter) (lq_after query))
    (default "all" (lf_level filter)) in
  result ← add_text_query result (lf_search filter);
  let in_scope := select scope st in
  let matching := select result st in
  let found :=
    if (tail =? 0)%nat then []
    else match lq_after query with
         | Some _ => top_docs pd_seq true tail matching
         | None => top_docs pd_ts_nanos false tail matching
         end in
  let lines :=
    match lq_after query with
    | Some _ => map line_of found
    | None => sort_by line_le (map line_of found)
    end in
  Ok (mkLogsResponse (map snd lines)
        ((tail <? length matching)%nat && (0 <? tail)%nat)
        (length in_scope) (count_level "error" in_scope) (count_level "warn" in_scope)
        (foldl next_of None found) (length matching)).

Definition search_service (env : LogEnv) (run_id service log_path : string) (query : LogsQuery)
    : IndexM LogsResponse :=
  mbind (M := IndexM) (fun _ st => (search_lines run_id service query st, st))
    (ingest_sources unicode_digit parse_rfc3339 env [mkSource run_id service log_path]).

(** ** Facets *)

Record FacetFieldSpec := mkFacetFieldSpec { fs_field : string; fs_column : string }.

Definition facet_base (field : string) : FacetFieldSpec := mkFacetFieldSpec field field.
Definition facet_attr (field : string) : FacetFieldSpec :=
  mkFacetFieldSpec field ("attrs." +:+ field).

Definition facet_fields_for_scope (run_id : string) (service : option string) (st : Index)
    : list FacetFieldSpec :=
  let fields := is_facet_fields (lx_ingest st) in
  let dynamic_fields :=
    match service with
    | Some service => default [] (bget (source_key run_id service) fields)
    | None =>
        foldl (fun names (kv : string * bmap string unit) =>
                 if starts_with (run_id +:+ "/") kv.1 then bextend names kv.2 else names) [] fields
    end in
  map facet_base ["service"; "level"; "stream"] ++ map facet_attr (bkeys dynamic_fields).

(** The term of a document in a column; attributes have columns of their own. *)
Definition term_of (column : string) (d : PendingDoc) : option string :=
  if bool_decide (column = "service") then Some (pd_service d)
  else if bool_decide (column = "level") then Some (pd_level d)
  else if bool_decide (column = "stream") then Some (pd_stream d)
  else field ← strip_prefix (to_bytes "attrs.") (to_bytes column);
       bget (of_bytes field) (pd_dynamic_fields d).

(** [FacetCountCollector], one field; empty terms do not count. *)
Definition count_term (column : string) (counts : bmap string nat) (d : PendingDoc)
    : bmap string nat :=
  match term_of column d with
  | Some value =>
      if bool_decide (value = "") then counts
      else binsert value (S (default 0%nat (bget value counts))) counts
  | None => counts
  end.

Definition facet_counts (column : string) (docs : list PendingDoc) : bmap string nat :=
  foldl (count_term column) [] docs.

Definition FACET_TERMS_LIMIT : nat := 50.

Definition facet_value_le (a b : FacetValueCount) : bool :=
  match Nat.compare (fv_count b) (fv_count a) with
  | Lt => true
  | Eq => match kcmp (fv_value a) (fv_value b) with Gt => false | _ => true end
  | Gt => false
  end.

Definition facet_values_from_counts (counts : bmap string nat) : list FacetValueCount :=
  take FACET_TERMS_LIMIT
    (sort_by facet_value_le
       (map (fun kv => mkFacetValueCount kv.1 kv.2)
          (List.filter (fun kv => negb (bool_decide (kv.1 = ""))) counts))).

Definition facet_kind_for (field : string) : string :=
  if bool_decide (field = "level") || bool_decide (field = "stream") then "toggle" else "select".

Definition facet_sort_rank (field : string) : nat :=
  if bool_decide (field = "service") then 0 else if bool_decide (field = "level") then 1
  else if bool_decide (field = "stream") then 2 else 3.

Definition filter_le (a b : FacetFilter) : bool :=
  match Nat.compare (facet_sort_rank (ff_field a)) (facet_sort_rank (ff_field b)) with
  | Lt => true
  | Eq => match kcmp (ff_field a) (ff_field b) with Gt => false | _ => true end
  | Gt => false
  end.

Definition facet_filter (docs : list PendingDoc) (spec : FacetFieldSpec) : option FacetFilter :=
  match facet_values_from_counts (facet_counts (fs_column spec) docs) with
  | [] => None
  | values => Some (mkFacetFilter (fs_field spec) (facet_kind_for (fs_field spec)) values)
  end.

(** ** The view *)

Definition facet_cache_key (run_id : string) (query : LogViewQuery) : option FacetCacheKey :=
  let filter := lv_filter query in
  if lv_include_facets query && negb (lv_include_entries query)
  then Some (mkFacetKey run_id (lv_service query) (lf_since filter) (lf_search filter)
               (lf_level filter) (lf_stream filter))
  else None.

Definition parse_raw_json_object (raw : string) : option Value :=
  let trimmed := str_trim raw in
  if negb (starts_with "{" trimmed) then None else
  match from_str trimmed with Some (Object m) => Some (Object m) | _ => None end.

Definition log_entry (d : PendingDoc) : LogEntry :=
  mkLogEntry (pd_ts d) (pd_service d) (pd_stream d) (pd_level d) (pd_message d) (pd_raw d)
    (parse_raw_json_object (pd_raw d))
    (bretain (fun _ value => negb (bool_decide (value = ""))) (pd_dynamic_fields d)).

Definition entry_le (a b : Z * Z * LogEntry) : bool :=
  match Z.compare a.1.1 b.1.1 with Lt => true | Eq => (a.1.2 <=? b.1.2)%Z | Gt => false end.

(** The documents of the view, how many match and whether that is exact, and whether
    there are more. *)
Definition view_search (query : LogViewQuery) (tail : nat) (matching : list PendingDoc)
    : nat * bool * list PendingDoc * bool :=
  let total := length matching in
  let newest := fun n => top_docs pd_ts_nanos false n matching in
  if lv_include_entries query && (0 <? tail)%nat then
    if lv_include_facets query || lv_include_total query
    then (total, true, newest tail, (tail <? total)%nat)
    else
      let found := newest (S tail) in
      if (tail <? length found)%nat then (S tail, false, take tail found, true)
      else (length found, false, found, false)
  else if lv_include_facets query || lv_include_total query then (total, true, [], false)
  else (0%nat, false, [], false).

Definition compute_view (run_id : string) (query : LogViewQuery) (st : Index)
    : outcome LogViewResponse :=
  let filter := lv_filter query in
  let tail := default 500%nat (lf_last filter) in
  let since_nanos := since ← lf_since filter; parse_timestamp_nanos parse_rfc3339 since in
  let view := add_level_filter
    (build_scope_query run_id (lv_service query) since_nanos (lf_stream filter) None)
    (default "all" (lf_level filter)) in
  view ← add_text_query view (lf_search filter);
  let matching := select view st in
  let '(total, total_exact, found, truncated) := view_search query tail matching in
  let entries := sort_by entry_le (map (fun d => (pd_ts_nanos d, pd_seq d, log_entry d)) found) in
  let filters :=
    if lv_include_facets query
    then sort_by filter_le
           (omap (facet_filter matching) (facet_fields_for_scope run_id (lv_service query) st))
    else [] in
  Ok (mkLogViewResponse (map snd entries) (lv_include_entries query && truncated) total total_exact
        filters).

Definition facet_key_eqb (a b : FacetCacheKey) : bool :=
  bool_decide (fk_run_id a = fk_run_id b) && bool_decide (fk_service a = fk_service b)
  && bool_decide (fk_since a = fk_since b) && bool_decide (fk_search a = fk_search b)
  && bool_decide (fk_level a = fk_level b) && bool_decide (fk_stream a = fk_stream b).

Definition cached (key : FacetCacheKey) (st : Index) : option LogViewResponse :=
  snd <$> List.find (fun kv => facet_key_eqb key kv.1) (lx_facet_cache st).

Definition cache_response (key : FacetCacheKey) (response : LogViewResponse) (st : Index) : Index :=
  mkLogIndex (lx_writer st) (lx_ingest st) (lx_saved st) ((key, response) :: lx_facet_cache st)
    (lx_commits st).

Definition query_view (run_id : string) (query : LogViewQuery) : IndexM LogViewResponse := fun st =>
  let key := facet_cache_key run_id query in
  match key ≫= fun key => cached key st with
  | Some response => (Ok response, st)
  | None =>
      match compute_view run_id query st with
      | Ok response =>
          (Ok response, match key with Some key => cache_response key response st | None => st end)
      | o => (o, st)
      end
  end.

Definition warm_facets (run_id : string) (st : Index) : Index :=
  (query_view run_id (mkLogViewQuery LogFilterQuery_default None false true true) st).2.

Definition count_run (run_id : string) (st : Index) : nat :=
  length (select (build_scope_query run_id None None None None) st).
End queries.
