(* ===== verification/LogFollow.v ===== *)
(** * Following the log of a service

    The loop of [src/cli/commands/logs.rs] that prints the new lines of a service: it
    polls [search_service] with the cursor of the last answer.  What it prints is
    every new line, once and in order, as long as the log only grows. *)

From S2P Require Import Prelude Bytes BMap Json Logfmt Sort LogIndex LogIngest LogQuery.
From Stdlib Require Import Lia ZArith Sorted.

Section follow.
Context `{Json} `{SearchIndex} `{StateCodec} `{Searcher}.
Context (parse_rfc3339 : string -> option Z).

Abbreviation Index := (LogIndex (Response := LogViewResponse)).

Definition FOLLOW_LIMIT : nat := 500.

Definition with_last (filter : LogFilterQuery) (last : nat) : LogFilterQuery :=
  mkLogFilterQuery (Some last) (lf_since filter) (lf_search filter) (lf_level filter)
    (lf_stream filter).

Definition next_cursor (after : option Z) (response : LogsResponse) : option Z :=
  match lg_next_after response with
  | Some next => Some (match after with Some current => Z.max current next | None => next end)
  | None => after
  end.

(** The turns of the loop, on the index as it is at each of them. *)
Fixpoint follow_loop (run_id service : string) (filter : LogFilterQuery) (after : option Z)
    (indexes : list Index) : outcome (list string * option Z) :=
  match indexes with
  | [] => Ok ([], after)
  | st :: indexes =>
      response ← search_lines parse_rfc3339 run_id service
        (mkLogsQuery (with_last filter FOLLOW_LIMIT) after) st;
      '(printed, final) ← follow_loop run_id service filter (next_cursor after response) indexes;
      Ok (lg_lines response ++ printed, final)
  end.

(** The whole command: first the last lines. *)
Definition follow_logs (run_id service : string) (filter : LogFilterQuery) (initial_tail : nat)
    (st : Index) (indexes : list Index) : outcome (list string * option Z) :=
  response ← search_lines parse_rfc3339 run_id service
    (mkLogsQuery (with_last filter initial_tail) None) st;
  '(printed, final) ← follow_loop run_id service filter (lg_next_after response) indexes;
  Ok (lg_lines response ++ printed, final).

(** ** Documents by their numbers *)

Definition seq_le (a b : PendingDoc) : bool := (pd_seq a <=? pd_seq b)%Z.

(** Numbered between two cursors. *)
Definition between (a b : Z) (d : PendingDoc) : bool := (a <? pd_seq d)%Z && (pd_seq d <=? b)%Z.

Definition numbered (docs : list PendingDoc) : Prop := NoDup (map pd_seq docs).

Definition in_order (docs : list PendingDoc) : list PendingDoc := sort_by seq_le docs.

Lemma seq_le_total a b : seq_le a b = true \/ seq_le b a = true.
Proof. unfold seq_le. rewrite !Z.leb_le. lia. Qed.

Lemma seq_le_trans a b c : seq_le a b = true -> seq_le b c = true -> seq_le a c = true.
Proof. unfold seq_le. rewrite !Z.leb_le. lia. Qed.

Lemma in_order_sorted docs : sorted_by seq_le (in_order docs).
Proof. apply sort_by_sorted; [apply seq_le_total|apply seq_le_trans]. Qed.

Lemma numbered_inj docs a b : numbered docs -> a ∈ docs -> b ∈ docs -> pd_seq a = pd_seq b -> a = b.
Proof.
  intros Hn [i Hi]%list_elem_of_lookup [j Hj]%list_elem_of_lookup Heq.
  assert (i = j) as <-; [|congruence].
  apply (NoDup_lookup _ i j (pd_seq a) Hn).
  - by rewrite list_lookup_fmap, Hi.
  - by rewrite list_lookup_fmap, Hj, Heq.
Qed.

Lemma numbered_filter p docs : numbered docs -> numbered (List.filter p docs).
Proof.
  unfold numbered. induction docs as [|d docs IH]; simpl; [done|]. intros [Hd Hn]%NoDup_cons.
  destruct (p d); simpl; [|by apply IH]. apply NoDup_cons. split; [|by apply IH].
  contradict Hd. apply list_elem_of_fmap in Hd as (x & -> & [Hx _]%filter_elem).
  apply list_elem_of_fmap. by exists x.
Qed.

Lemma filter_split {A} (p q r : A -> bool) l :
  (forall x, p x = q x || r x) -> (forall x, q x && r x = false) ->
  List.filter p l ≡ₚ List.filter q l ++ List.filter r l.
Proof.
  intros Hor Hand. induction l as [|x l IH]; simpl; [done|]. specialize (Hor x). specialize (Hand x).
  destruct (q x), (r x); try done; simpl in *; rewrite Hor, IH; [done|apply Permutation_middle|done].
Qed.

(** There is one list of numbered documents in order. *)
Lemma in_order_unique docs l : numbered docs -> sorted_by seq_le l -> l ≡ₚ docs -> l = in_order docs.
Proof.
  intros Hn Hl Hp. symmetry. apply (sorted_by_unique seq_le); [|apply in_order_sorted|done|].
  - intros a b Ha Hb. unfold in_order in Ha, Hb. rewrite sort_by_perm in Ha, Hb.
    unfold seq_le. rewrite !Z.leb_le. intros. apply (numbered_inj docs); [done..|lia].
  - by rewrite Hp; apply sort_by_perm.
Qed.

Lemma between_split docs a b c :
  (a <= b)%Z -> (b <= c)%Z -> numbered docs ->
  in_order (List.filter (between a c) docs)
  = in_order (List.filter (between a b) docs) ++ in_order (List.filter (between b c) docs).
Proof.
  intros Hab Hbc Hn. symmetry. apply in_order_unique.
  - by apply numbered_filter.
  - apply sorted_by_app; [apply in_order_sorted..|]. intros x y Hx Hy. unfold in_order in *.
    rewrite sort_by_perm in Hx, Hy. apply filter_elem in Hx as [_ Hx], Hy as [_ Hy].
    unfold between, seq_le in *. rewrite andb_true_iff, Z.ltb_lt, Z.leb_le in Hx, Hy.
    apply Z.leb_le. lia.
  - unfold in_order. rewrite !sort_by_perm. symmetry.
    apply filter_split; intros d; unfold between;
      destruct (Z.ltb_spec a (pd_seq d)), (Z.leb_spec (pd_seq d) c), (Z.leb_spec (pd_seq d) b),
        (Z.ltb_spec b (pd_seq d)); simpl; (done || lia).
Qed.

(** The cursor of an answer is the greatest number in it. *)
Lemma next_of_spec docs v :
  exists c, foldl next_of (Some v) docs = Some c /\ (v <= c)%Z /\
    (c = v \/ c ∈ map pd_seq docs) /\ forall d, d ∈ docs -> (pd_seq d <= c)%Z.
Proof.
  revert v. induction docs as [|d docs IH]; intros v; simpl.
  { exists v. split_and!; [done|lia|by left|]. by intros d ?%elem_of_nil. }
  change (next_of (Some v) d) with (Some (Z.max v (pd_seq d))).
  destruct (IH (Z.max v (pd_seq d))) as (c & -> & Hle & Hc & Hall). exists c. split_and!; [done|lia| |].
  - destruct Hc as [->|Hc]; [|right; by right]. destruct (Z.max_spec v (pd_seq d)) as [[_ ->]|[_ ->]];
      [right; left|by left].
  - intros x [->|Hx]%elem_of_cons; [lia|by apply Hall].
Qed.

Lemma next_cursor_spec docs b :
  (forall d, d ∈ docs -> (b < pd_seq d)%Z) ->
  exists c, (b <= c)%Z /\ (c = b \/ c ∈ map pd_seq docs) /\ (forall d, d ∈ docs -> (pd_seq d <= c)%Z) /\
    match foldl next_of None docs with Some next => Z.max b next = c | None => docs = [] /\ c = b end.
Proof.
  intros Hb. destruct docs as [|d docs].
  { exists b. split_and!; [lia|by left| |done]. by intros d ?%elem_of_nil. }
  destruct (next_of_spec docs (pd_seq d)) as (c & Hf & Hle & Hc & Hall).
  specialize (Hb d ltac:(left)). exists c. split_and!; [lia| | |].
  - right. destruct Hc as [->|Hc]; [by left|by right].
  - intros x [->|Hx]%elem_of_cons; [done|by apply Hall].
  - change (foldl next_of None (d :: docs)) with (foldl next_of (Some (pd_seq d)) docs).
    rewrite Hf. lia.
Qed.

(** ** One poll *)

Context (run_id service : string) (filter : LogFilterQuery).

(** What the filter keeps, without a cursor. *)
Definition matcher : outcome (PendingDoc -> bool) :=
  let since_nanos := since ← lf_since filter; parse_timestamp_nanos parse_rfc3339 since in
  add_text_query
    (add_level_filter (build_scope_query run_id (Some service) since_nanos (lf_stream filter) None)
       (default "all" (lf_level filter)))
    (lf_search filter).

Lemma matcher_after q after :
  matcher = Ok q ->
  exists q', let since_nanos := since ← lf_since filter; parse_timestamp_nanos parse_rfc3339 since in
    add_text_query
      (add_level_filter
         (build_scope_query run_id (Some service) since_nanos (lf_stream filter) (Some after))
         (default "all" (lf_level filter)))
      (lf_search filter) = Ok q' /\
    forall d, q' d = q d && (after <? pd_seq d)%Z.
Proof.
  unfold matcher. set (since := _ ≫= _). set (level := default _ _).
  set (base := build_scope_query run_id (Some service) since (lf_stream filter)).
  assert (forall d, base (Some after) d = base None d && (after <? pd_seq d)%Z) as Hbase.
  { intros d. unfold base, build_scope_query. by rewrite andb_true_r. }
  assert (forall d, add_level_filter (base (Some after)) level d
                    = add_level_filter (base None) level d && (after <? pd_seq d)%Z) as Hlevel.
  { intros d. unfold add_level_filter, both. repeat case_bool_decide; rewrite Hbase;
      by destruct (base None d), (after <? pd_seq d)%Z, (_ : bool). }
  unfold add_text_query. destruct (lf_search filter) as [text|]; [|intros [= <-]; by eexists].
  case_bool_decide; [intros [= <-]; by eexists|].
  destruct (parse_query (str_trim text)) as [parsed|e| |]; try done. intros [= <-]. eexists.
  split; [done|]. intros d. unfold both. rewrite Hlevel.
  by destruct (add_level_filter (base None) level d), (parsed d), (after <? pd_seq d)%Z.
Qed.

Context `{!SearcherLaws}.

Lemma prefix_below found rest c :
  numbered (found ++ rest) -> (forall x d, x ∈ found -> d ∈ rest -> seq_le x d = true) ->
  (forall d, d ∈ found -> (pd_seq d <= c)%Z) ->
  c ∈ map pd_seq found \/ (forall d, d ∈ rest -> (c < pd_seq d)%Z) ->
  List.filter (fun d => (pd_seq d <=? c)%Z) (found ++ rest) = found.
Proof.
  intros Hn Hcross Hall Hc. rewrite List.filter_app, (filter_all _ found), filter_none, app_nil_r;
    [done| |].
  - intros d Hd. apply Z.leb_gt. destruct Hc as [Hc|Hc]; [|by apply Hc].
    apply list_elem_of_fmap in Hc as (x & -> & Hx). specialize (Hcross x d Hx Hd).
    unfold seq_le in Hcross. apply Z.leb_le in Hcross.
    destruct (decide (pd_seq x = pd_seq d)) as [Heq|Hne]; [exfalso|lia].
    unfold numbered in Hn. rewrite map_app in Hn. apply NoDup_app in Hn as (_ & Hdis & _).
    apply (Hdis (pd_seq x)); apply list_elem_of_fmap; [by exists x|by exists d].
  - intros d Hd. apply Z.leb_le. by apply Hall.
Qed.

(** The first documents after a cursor are all of them up to another one. *)
Lemma top_docs_between n docs b :
  numbered docs ->
  let found := top_docs pd_seq true n (List.filter (fun d => (b <? pd_seq d)%Z) docs) in
  exists c, (b <= c)%Z /\ (c = b \/ c ∈ map pd_seq docs) /\
    found = in_order (List.filter (between b c) docs) /\
    match foldl next_of None found with Some next => Z.max b next = c | None => found = [] /\ c = b end /\
    ((length (List.filter (fun d => (b <? pd_seq d)%Z) docs) <= n)%nat ->
     forall d, d ∈ docs -> (pd_seq d <= c)%Z).
Proof.
  intros Hn found. set (after := List.filter _ docs) in *.
  destruct (top_docs_law pd_seq true n after) as (l & Hp & Hs & Hfound).
  fold found in Hfound. pose proof (numbered_filter (fun d => (b <? pd_seq d)%Z) docs Hn) as Hna.
  fold after in Hna. assert (sorted_by seq_le (take n l ++ drop n l)) as Hs' by (by rewrite take_drop).
  apply sorted_by_app_inv in Hs' as (Hs1 & _ & Hcross). rewrite <- Hfound in *.
  assert (found ++ drop n l ≡ₚ after) as Hsplit by (by rewrite Hfound, take_drop).
  assert (forall d, d ∈ after -> d ∈ docs /\ (b < pd_seq d)%Z) as Hin.
  { intros d [Hd Hb]%filter_elem. by apply Z.ltb_lt in Hb. }
  assert (forall d, d ∈ found -> d ∈ after) as Hfa.
  { intros d Hd. rewrite <- Hsplit. apply elem_of_app. by left. }
  destruct (next_cursor_spec found b) as (c & Hle & Hc & Hall & Hnext); [intros d Hd; by apply Hin, Hfa|].
  exists c. split_and!; [done| | |done|].
  - destruct Hc as [->|Hc]; [by left|right]. apply list_elem_of_fmap in Hc as (d & -> & Hd).
    apply list_elem_of_fmap. exists d. split; [done|]. by apply Hin, Hfa.
  - apply in_order_unique; [by apply numbered_filter|done|].
    assert (List.filter (between b c) docs = List.filter (fun d => (pd_seq d <=? c)%Z) after) as ->.
    { unfold after. rewrite filter_filter. by apply filter_ext_elem. }
    rewrite <- Hsplit. rewrite (prefix_below found (drop n l) c); [done| | |done|].
    + unfold numbered. by rewrite Hsplit.
    + done.
    + destruct Hc as [->|Hc]; [right|by left]. intros d Hd. apply Hin. rewrite <- Hsplit.
      apply elem_of_app. by right.
  - intros Hlen d Hd. destruct (Z.le_gt_cases (pd_seq d) c) as [Hle'|Hgt]; [done|].
    assert (d ∈ found) as Hdf; [|by apply Hall in Hdf].
    rewrite Hfound, take_ge by (by rewrite Hp). rewrite Hp. apply filter_elem. split; [done|].
    apply Z.ltb_lt. lia.
Qed.

Definition poll (b : Z) : Index -> outcome LogsResponse :=
  search_lines parse_rfc3339 run_id service (mkLogsQuery (with_last filter FOLLOW_LIMIT) (Some b)).

Lemma poll_spec q st b :
  matcher = Ok q -> numbered (select q st) ->
  exists r c, poll b st = Ok r /\ next_cursor (Some b) r = Some c /\ (b <= c)%Z /\
    (c = b \/ c ∈ map pd_seq (select q st)) /\
    lg_lines r = map pd_raw (in_order (List.filter (between b c) (select q st))) /\
    ((forall d, d ∈ select q st -> (pd_seq d <= c)%Z) \/ length (lg_lines r) = FOLLOW_LIMIT).
Proof.
  intros Hq Hn. destruct (matcher_after q b Hq) as (q' & Hq' & Hspec). cbv zeta in Hq'.
  unfold poll, search_lines, with_last.
  cbn [lq_filter lq_after lf_last lf_since lf_search lf_level lf_stream].
  change (default 500%nat (Some FOLLOW_LIMIT)) with FOLLOW_LIMIT.
  rewrite Hq'. cbn [mbind outcome_bind]. change (FOLLOW_LIMIT =? 0)%nat with false.
  cbv beta iota zeta. unfold select. fold (searched st).
  assert (List.filter q' (searched st) = List.filter (fun d => (b <? pd_seq d)%Z) (select q st)) as ->.
  { unfold select. rewrite filter_filter. by apply filter_ext_elem. }
  fold (select q st). destruct (top_docs_between FOLLOW_LIMIT (select q st) b Hn)
    as (c & Hle & Hc & Hfound & Hnext & Hall).
  eexists _, c. split; [reflexivity|]. unfold next_cursor.
  cbn [lg_next_after lg_lines]. split_and!; try done.
  - destruct (foldl next_of None _) as [next|]; [by rewrite Hnext|]. by destruct Hnext as [_ ->].
  - by rewrite map_map, Hfound.
  - destruct (Nat.le_gt_cases (length (List.filter (fun d => (b <? pd_seq d)%Z) (select q st)))
      FOLLOW_LIMIT) as [Hlen|Hlen]; [left; by apply Hall|right].
    rewrite !length_map. destruct (top_docs_law pd_seq true FOLLOW_LIMIT
      (List.filter (fun d => (b <? pd_seq d)%Z) (select q st))) as (l & Hp & _ & ->).
    rewrite length_take, Hp. lia.
Qed.

(** ** The loop *)

(** The log only grew: what is new has greater numbers. *)
Definition grows (docs docs' : list PendingDoc) : Prop :=
  exists new, docs' ≡ₚ docs ++ new /\
    forall d x, d ∈ docs -> x ∈ new -> (pd_seq d < pd_seq x)%Z.

Fixpoint growing (q : PendingDoc -> bool) (docs : list PendingDoc) (indexes : list Index) : Prop :=
  match indexes with
  | [] => True
  | st :: indexes => numbered (select q st) /\ grows docs (select q st) /\
      growing q (select q st) indexes
  end.

Lemma between_grows a b docs docs' :
  grows docs docs' -> numbered docs' -> b = a \/ b ∈ map pd_seq docs ->
  in_order (List.filter (between a b) docs') = in_order (List.filter (between a b) docs).
Proof.
  intros (new & Hp & Hnew) Hn Hb. symmetry. apply in_order_unique; [by apply numbered_filter| |].
  - apply in_order_sorted.
  - unfold in_order. rewrite sort_by_perm, Hp, List.filter_app, (filter_none _ new), app_nil_r; [done|].
    intros x Hx. unfold between. destruct Hb as [->|Hb].
    + destruct (Z.ltb_spec a (pd_seq x)), (Z.leb_spec (pd_seq x) a); simpl; (done || lia).
    + apply list_elem_of_fmap in Hb as (d & -> & Hd). specialize (Hnew d x Hd Hx).
      destruct (Z.leb_spec (pd_seq x) (pd_seq d)); [lia|]. by rewrite andb_false_r.
Qed.

(** What the loop has printed, and where its cursor is. *)
Lemma follow_loop_spec q docs indexes a b :
  matcher = Ok q -> growing q docs indexes -> numbered docs ->
  (a <= b)%Z -> b = a \/ b ∈ map pd_seq docs ->
  let final := from_option (select q) docs (last indexes) in
  exists printed c, follow_loop run_id service filter (Some b) indexes = Ok (printed, Some c) /\
    (b <= c)%Z /\ (c = a \/ c ∈ map pd_seq final) /\ numbered final /\
    map pd_raw (in_order (List.filter (between a b) docs)) ++ printed
      = map pd_raw (in_order (List.filter (between a c) final)) /\
    (indexes = [] \/ (forall d, d ∈ final -> (pd_seq d <= c)%Z) \/
     (FOLLOW_LIMIT <= length printed)%nat).
Proof.
  intros Hq. revert docs b. induction indexes as [|st indexes IH]; intros docs b Hg Hnd Hab Hb final.
  { exists [], b. split_and!; try done; [by rewrite app_nil_r|by left]. }
  destruct Hg as (Hn & Hgrow & Hg). destruct (poll_spec q st b Hq Hn)
    as (r & c & Hpoll & Hnext & Hbc & Hc & Hlines & Hrest).
  assert (c = a \/ c ∈ map pd_seq (select q st)) as Hca.
  { destruct Hc as [->|Hc]; [|by right]. destruct Hb as [->|Hb]; [by left|right].
    destruct Hgrow as (new & Hp & _). rewrite Hp, map_app. apply elem_of_app. by left. }
  destruct (IH (select q st) c Hg Hn ltac:(lia) Hca)
    as (printed & c' & Hloop & Hcc & Hc' & Hn' & Hprinted & Hdone).
  assert (from_option (select q) (select q st) (last indexes) = final) as Hfinal.
  { unfold final. destruct indexes as [|st' l]; [done|]. change (last (st :: st' :: l)) with (last (st' :: l)).
    by destruct (proj2 (last_is_Some (st' :: l))) as [x ->]. }
  rewrite Hfinal in *. exists (lg_lines r ++ printed), c'. split_and!; try done; try lia.
  - cbn [follow_loop]. unfold poll in Hpoll. rewrite Hpoll. cbn [mbind outcome_bind].
    rewrite Hnext, Hloop. done.
  - rewrite app_assoc, <- Hprinted. f_equal.
    rewrite (between_split (select q st) a b c Hab Hbc Hn), map_app, <- Hlines. f_equal.
    by rewrite (between_grows a b docs (select q st) Hgrow Hn Hb).
  - right. rewrite length_app. destruct Hdone as [->|[Hall|Hlen]]; [|by left|right; lia].
    simpl in Hfinal. subst final. simpl in *. destruct Hrest as [Hall|Hlen]; [|right; lia].
    injection Hloop as <- <-. by left.
Qed.
End follow.

(** C4: a follower misses nothing.  While the log of a service only grows, whatever the
    filter keeps of it with a number above the first cursor is printed once and in
    order, up to the cursor of the follower; and that is all of it, unless the
    follower has just printed the five hundred lines it takes at a time. *)
Theorem follow_prints_once `{Json} `{SearchIndex} `{StateCodec} `{SearcherLaws}
    (parse_rfc3339 : string -> option Z) (run_id service : string) (filter : LogFilterQuery)
    (q : PendingDoc -> bool) (indexes : list (LogIndex (Response := LogViewResponse)))
    (final : LogIndex (Response := LogViewResponse)) (a : Z) :
  matcher parse_rfc3339 run_id service filter = Ok q -> growing q [] (indexes ++ [final]) ->
  exists printed c,
    follow_loop parse_rfc3339 run_id service filter (Some a) (indexes ++ [final])
      = Ok (printed, Some c) /\ (a <= c)%Z /\
    printed = map pd_raw (in_order (List.filter (between a c) (select q final))) /\
    ((forall d, d ∈ select q final -> (pd_seq d <= c)%Z) \/ (FOLLOW_LIMIT <= length printed)%nat).
Proof.
  intros Hq Hg. destruct (follow_loop_spec parse_rfc3339 run_id service filter q [] (indexes ++ [final])
    a a Hq Hg) as (printed & c & Hloop & Hac & _ & _ & Hprinted & Hdone).
  - constructor.
  - lia.
  - by left.
  - rewrite last_snoc in Hprinted, Hdone. cbn [from_option] in *. exists printed, c.
    split_and!; try done. destruct Hdone as [Hnil|Hdone]; [|done]. by destruct indexes.
Qed.

(** ** Concrete logs *)

#[local] Existing Instance list_index.
#[local] Existing Instance tree_codec.
#[local] Existing Instance concrete_json.

#[local] Instance sorted_search : Searcher :=
  {| top_docs f up n docs :=
       take n (sort_by (fun a b => if up : bool then (f a <=? f b)%Z else (f b <=? f a)%Z) docs);
     parse_query text := Ok (fun d => contains_sub text (pd_message d)) |}.

#[local] Instance sorted_search_laws : SearcherLaws.
Proof.
  split. intros f up n docs. eexists. split_and!; [apply sort_by_perm| |reflexivity].
  apply sort_by_sorted; destruct up; intros; rewrite ?Z.leb_le in *; lia.
Qed.

(** The index after one more ingestion of the log of [web]. *)
Definition ingested (text : bytes) (st : LogIndex (Response := LogViewResponse))
    : LogIndex (Response := LogViewResponse) :=
  (ingest_sources (fun _ => false) (fun _ => None) (LogIngest.sample_env text (Ok tt)) [sample_source] st).2.

Definition no_documents : LogIndex (Response := LogViewResponse) :=
  mkLogIndex ([], []) ingest_state_default None [] 0.

Definition first_poll : LogIndex (Response := LogViewResponse) := ingested sample_prefix no_documents.
Definition second_poll : LogIndex (Response := LogViewResponse) := ingested sample_text first_poll.

Definition doc_one : PendingDoc := doc_of (fun _ => false) (fun _ => None) sample_source 0 "one".
Definition doc_two : PendingDoc := doc_of (fun _ => false) (fun _ => None) sample_source 1 "two".

Definition of_web : PendingDoc -> bool := build_scope_query "run" (Some "web") None None None.

Lemma polls_grow : growing of_web [] [first_poll; second_poll].
Proof.
  assert (select of_web first_poll = [doc_one]) as E1 by (vm_compute; reflexivity).
  assert (select of_web second_poll = [doc_two; doc_one]) as E2 by (vm_compute; reflexivity).
  cbn [growing]. rewrite E1, E2. assert (pd_seq doc_one = 0%Z) as Eo by reflexivity.
  assert (pd_seq doc_two = 1%Z) as Et by reflexivity. revert Eo Et. clear E1 E2.
  generalize doc_one doc_two. intros one two Eo Et. split_and!; [| | | |exact I].
  - apply NoDup_singleton.
  - exists [one]. split; [reflexivity|]. intros d x Hd. by apply elem_of_nil in Hd.
  - unfold numbered. cbn [map]. rewrite Eo, Et. apply NoDup_cons. split; [|apply NoDup_singleton].
    by intros ?%list_elem_of_singleton.
  - exists [two]. split; [apply Permutation_swap|].
    intros d x ->%list_elem_of_singleton ->%list_elem_of_singleton. lia.
Qed.

Lemma follow_prints_once_witness :
  exists printed c,
    follow_loop (fun _ => None) "run" "web" LogFilterQuery_default (Some (-1)%Z)
      [first_poll; second_poll] = Ok (printed, Some c) /\ printed = ["one"; "two"].
Proof.
  destruct (follow_prints_once (fun _ => None) "run" "web" LogFilterQuery_default of_web [first_poll]
    second_poll (-1) eq_refl polls_grow) as (printed & c & Hloop & _ & _ & _).
  exists printed, c. split; [exact Hloop|].
  assert (follow_loop (fun _ => None) "run" "web" LogFilterQuery_default (Some (-1)%Z)
    [first_poll; second_poll] = Ok (["one"; "two"], Some 1%Z)) as Hv by (vm_compute; reflexivity).
  change ([first_poll] ++ [second_poll]) with [first_poll; second_poll] in Hloop.
  rewrite Hv in Hloop. by injection Hloop.
Defined.

(** A log that is emptied and begun again: its lines have the first numbers, and a
    follower waits for greater ones. *)
Definition rotated_text : bytes := to_bytes "new" ++ [ascii_of_nat 10].
Definition rotated_poll : LogIndex (Response := LogViewResponse) := ingested rotated_text second_poll.

(** After the file of a log was emptied and written again (a rotation), its new
    lines are in the index, and a follower prints none of them: its cursor is the
    number of the last line of the old file. *)
Theorem rotated_log_silent :
  let follow := follow_loop (fun _ => None) "run" "web" LogFilterQuery_default in
  follow (Some (-1)%Z) [first_poll; second_poll] = Ok (["one"; "two"], Some 1%Z) /\
  map pd_raw (select of_web rotated_poll) = ["new"] /\
  follow (Some (-1)%Z) [first_poll; second_poll; rotated_poll; rotated_poll]
    = Ok (["one"; "two"], Some 1%Z).
Proof. vm_compute. by split_and!. Qed.
