(* ===== verification/SourceIngest.v ===== *)
(** * The ingestion of sources

    Models [src/daemon/source_ingest.rs] and the handlers of sources of
    [src/daemon/handlers/sources.rs]: the files of a source from the newest to the
    oldest, in batches of bounded size; the files beyond the retention, which are
    passed over; the state that is recorded for a source meanwhile; the task that
    indexes a source behind the requests; and the files a request waits for. *)

From S2P Require Import Prelude Bytes BMap Util Json Logfmt Sort Sources LogIndex LogQuery.
From Stdlib Require Import Lia ZArith.

(** ** Limits *)

Definition SYNC_SOURCE_INGEST_MAX_BYTES : Z := 32 * 1024 * 1024.
Definition SYNC_SOURCE_INGEST_MAX_FILES : nat := 32.
Definition SOURCE_BACKFILL_BATCH_MAX_BYTES : Z := 16 * 1024 * 1024.
Definition SOURCE_BACKFILL_BATCH_MAX_FILES : nat := 8.
Definition SOURCE_QUERY_WARMUP_MAX_BYTES : Z := 16 * 1024 * 1024.
Definition SOURCE_QUERY_WARMUP_MAX_FILES : nat := 8.
Definition SOURCE_TIMESTAMP_SAMPLE_BYTES : Z := 1024 * 1024.

Definition i64_max : Z := 2 ^ 63 - 1.

(** [as i64] *)
Definition as_i64 (n : Z) : Z := (n + 2 ^ 63) mod 2 ^ 64 - 2 ^ 63.

(** The time now and an age, in nanoseconds. *)
Definition retention_cutoff_nanos (now max_age : Z) : Z := as_i64 (Z.max 0 (now - max_age)).

(** A time since the epoch that an [i64] holds. *)
Definition system_time_nanos (time : Z) : option Z :=
  if (0 <=? time)%Z && (time <=? i64_max)%Z then Some time else None.

(** ** Files *)

Record SourceFile := mkSourceFile {
  sf_source : LogSource;
  sf_modified_nanos : Z;
  sf_len : Z;
  sf_first_ts_nanos : option Z;
  sf_last_ts_nanos : option Z;
}.

(** The file system during one operation: what the index reads, the times of
    modification that are known, and the result of opening a file: its length and
    its contents. [io_batch] is the index's view of it for each of the batches. *)
Record SourceIo := mkSourceIo {
  io_log : LogEnv;
  io_batch : nat -> LogEnv;
  io_modified : string -> option Z;
  io_open : string -> outcome (Z * bytes);
  io_registry : SourceEnv;
}.

Definition newline : ascii := ascii_of_nat 10.

Section source_ingest.
Context `{Json} `{SearchIndex} `{StateCodec} `{Searcher} `{SourceFiles}.
Context (unicode_digit : bytes -> bool) (parse_rfc3339 : string -> option Z).

Fixpoint timestamp_from_lines (lines : list bytes) : option Z :=
  match lines with
  | [] => None
  | line :: lines =>
      if is_empty line then timestamp_from_lines lines else
      match extract_timestamp_str (of_bytes (from_utf8_lossy line)) with
      | None => timestamp_from_lines lines
      | Some timestamp =>
          match parse_timestamp_nanos parse_rfc3339 timestamp with
          | Some nanos => Some nanos
          | None => timestamp_from_lines lines
          end
      end
  end.

Definition read_prefix (io : SourceIo) (path : string) (max_bytes : Z) : outcome bytes :=
  '(_, contents) ← io_open io path; Ok (take (Z.to_nat max_bytes) contents).

Definition read_suffix (io : SourceIo) (path : string) (max_bytes : Z) : outcome bytes :=
  '(len, contents) ← io_open io path;
  let start := Z.max 0 (len - max_bytes) in
  Ok (drop (Z.to_nat start) contents).

Definition first_timestamp_nanos (io : SourceIo) (path : string) : outcome (option Z) :=
  bytes ← read_prefix io path SOURCE_TIMESTAMP_SAMPLE_BYTES;
  Ok (timestamp_from_lines (split_on newline bytes)).

Definition last_timestamp_nanos (io : SourceIo) (path : string) : outcome (option Z) :=
  bytes ← read_suffix io path SOURCE_TIMESTAMP_SAMPLE_BYTES;
  Ok (timestamp_from_lines (reverse (split_on newline bytes))).

(** [.ok().flatten()] *)
Definition ok_flatten {A} (o : outcome (option A)) : option A :=
  match o with Ok (Some a) => Some a | _ => None end.

Definition source_file (io : SourceIo) (source : LogSource) : option SourceFile :=
  match lf_metadata (le_files (io_log io) (ls_path source)) with
  | Some (true, len) =>
      Some (mkSourceFile source
              (default 0%Z (time ← io_modified io (ls_path source); system_time_nanos time)) len
              (ok_flatten (first_timestamp_nanos io (ls_path source)))
              (ok_flatten (last_timestamp_nanos io (ls_path source))))
  | _ => None
  end.

Definition is_before_retention (cutoff_nanos : Z) (file : SourceFile) : bool :=
  if (sf_len file =? 0)%Z then true else
  match sf_last_ts_nanos file with
  | Some last_ts_nanos => (last_ts_nanos <? cutoff_nanos)%Z
  | None => (0 <? sf_modified_nanos file)%Z && (sf_modified_nanos file <? cutoff_nanos)%Z
  end.

Definition is_expired (min_ts_nanos : option Z) (file : SourceFile) : bool :=
  match min_ts_nanos with Some cutoff => is_before_retention cutoff file | None => false end.

Definition file_le (left right : SourceFile) : bool :=
  match Z.compare (sf_modified_nanos right) (sf_modified_nanos left) with
  | Lt => true
  | Eq => match path_compare (ls_path (sf_source left)) (ls_path (sf_source right)) with
          | Gt => false | _ => true end
  | Gt => false
  end.

Definition source_files_newest_first (io : SourceIo) (sources : list LogSource) : list SourceFile :=
  sort_by file_le (omap (source_file io) sources).

(** ** Batches *)

Record Batching := mkBatching {
  bt_batches : list (list LogSource);
  bt_skipped : list LogSource;
  bt_current : list LogSource;
  bt_current_bytes : Z;
}.

Definition batch_file (min_ts_nanos : option Z) (b : Batching) (file : SourceFile) : Batching :=
  let '(mkBatching batches skipped current current_bytes) := b in
  if is_expired min_ts_nanos file
  then mkBatching batches (skipped ++ [sf_source file]) current current_bytes else
  let would_exceed_bytes :=
    (0 <? current_bytes)%Z
    && (SOURCE_BACKFILL_BATCH_MAX_BYTES <? saturating_add current_bytes (sf_len file))%Z in
  let would_exceed_files := (SOURCE_BACKFILL_BATCH_MAX_FILES <=? length current)%nat in
  let is_full := negb (bool_decide (current = [])) && (would_exceed_bytes || would_exceed_files) in
  let '(batches, current, current_bytes) :=
    if is_full then (batches ++ [current], [], 0%Z) else (batches, current, current_bytes) in
  mkBatching batches skipped (current ++ [sf_source file])
    (saturating_add current_bytes (sf_len file)).

Definition priority_source_batches (io : SourceIo) (sources : list LogSource)
    (min_ts_nanos : option Z) : list (list LogSource) * list LogSource :=
  let '(mkBatching batches skipped current _) :=
    foldl (batch_file min_ts_nanos) (mkBatching [] [] [] 0) (source_files_newest_first io sources) in
  (match current with [] => batches | _ => batches ++ [current] end, skipped).

(** The sum stops being defined when it passes the limit. *)
Definition add_limited (limit : Z) (total : option Z) (len : Z) : option Z :=
  total ← total;
  if (total + len <=? u64_max)%Z && (total + len <=? limit)%Z then Some (total + len)%Z else None.

Definition should_ingest_source_synchronously (io : SourceIo) (sources : list LogSource) : bool :=
  if (SYNC_SOURCE_INGEST_MAX_FILES <? length sources)%nat then false else
  match foldl (add_limited SYNC_SOURCE_INGEST_MAX_BYTES) (Some 0%Z)
          (omap (fun source => snd <$> lf_metadata (le_files (io_log io) (ls_path source))) sources) with
  | Some _ => true
  | None => false
  end.

(** ** The files a request waits for *)

Definition count_newlines (chunk : bytes) : nat := length (List.filter is_newline chunk).

Fixpoint count_loop (reads : list (outcome bytes)) (limit lines : nat) : outcome nat :=
  match reads with
  | [] => Ok lines
  | read :: reads =>
      chunk ← read;
      if is_empty chunk then Ok lines else
      let lines := (lines + count_newlines chunk)%nat in
      if (limit <=? lines)%nat then Ok limit else count_loop reads limit lines
  end.

Definition count_complete_lines_up_to (io : SourceIo) (path : string) (limit : nat) : outcome nat :=
  if (limit =? 0)%nat then Ok 0%nat else
  reads ← lf_reads (le_files (io_log io) path) 0;
  count_loop reads limit 0.

Definition is_given (value : option string) : bool :=
  match value with Some value => negb (bool_decide (str_trim value = "")) | None => false end.
Definition is_restricting (value : option string) : bool :=
  match value with
  | Some value => negb (bool_decide (str_trim value = "")) && negb (bool_decide (value = "all"))
  | None => false
  end.

Definition is_selective (query : LogViewQuery) : bool :=
  let filter := lv_filter query in
  lv_include_facets query || is_given (lf_search filter) || is_restricting (lf_level filter)
  || is_restricting (lf_stream filter).

Fixpoint warmup_loop (io : SourceIo) (min_ts_nanos since_nanos : option Z) (selective : bool)
    (target_lines : nat) (files : list SourceFile) (selected : list LogSource)
    (selected_bytes : Z) (selected_lines : nat) : outcome (list LogSource) :=
  match files with
  | [] => Ok selected
  | file :: files =>
      if is_expired min_ts_nanos file
      then warmup_loop io min_ts_nanos since_nanos selective target_lines files selected
             selected_bytes selected_lines
      else if (SOURCE_QUERY_WARMUP_MAX_FILES <=? length selected)%nat
              || (SOURCE_QUERY_WARMUP_MAX_BYTES <=? selected_bytes)%Z
      then Ok selected
      else if match since_nanos with
              | Some since => (0 <? sf_modified_nanos file)%Z && (sf_modified_nanos file <? since)%Z
                              && bool_decide (selected = [])
              | None => false
              end
      then Ok selected else
      let selected_bytes := saturating_add selected_bytes (sf_len file) in
      selected_lines ←
        (if negb selective && (selected_lines <? target_lines)%nat
         then n ← count_complete_lines_up_to io (ls_path (sf_source file)) (target_lines - selected_lines);
              Ok (selected_lines + n)%nat
         else Ok selected_lines);
      let selected := selected ++ [sf_source file] in
      if negb selective && (target_lines <=? selected_lines)%nat then Ok selected
      else if bool_decide (is_Some since_nanos) && (target_lines <=? selected_lines)%nat
      then Ok selected
      else warmup_loop io min_ts_nanos since_nanos selective target_lines files selected
             selected_bytes selected_lines
  end.

Definition warmup_sources_for_query (io : SourceIo) (sources : list LogSource)
    (query : LogViewQuery) (min_ts_nanos : option Z) : outcome (list LogSource) :=
  if negb (lv_include_entries query) && negb (lv_include_facets query) then Ok [] else
  let files := source_files_newest_first io sources in
  let since_nanos := since ← lf_since (lv_filter query); parse_timestamp_nanos parse_rfc3339 since in
  let target_lines := Nat.max (default 500%nat (lf_last (lv_filter query))) 1 in
  warmup_loop io min_ts_nanos since_nanos (is_selective query) target_lines files [] 0 0.

(** ** The state of a source *)

(** The index, the registry, and its files. *)
Record Daemon := mkDaemon {
  dm_index : LogIndex (Response := LogViewResponse);
  dm_registry : SourceRegistry;
  dm_disk : SourceDisk;
}.

Abbreviation DaemonM := (stM Daemon).

(** A step that looks at the state first. *)
Definition reading {A} (f : Daemon -> DaemonM A) : DaemonM A := fun st => f st st.

Definition on_index {A} (m : LogM (Response := LogViewResponse) A) : DaemonM A := fun st =>
  let '(o, index) := m (dm_index st) in (o, mkDaemon index (dm_registry st) (dm_disk st)).

Definition on_registry {A} (m : RegM A) : DaemonM A := fun st =>
  let '(o, (registry, disk)) := m (dm_registry st, dm_disk st) in
  (o, mkDaemon (dm_index st) registry disk).

Definition file_state (io : SourceIo) (index : LogIndex (Response := LogViewResponse))
    (retention_cutoff : option Z) (source : LogSource) : option SourceFileIndexState :=
  file ← source_file io source;
  let cursor := default cursor_default (ingest_cursor (ls_run_id source) (ls_service source) index) in
  Some (mkSourceFileIndexState (ls_service source) (to_string_lossy (ls_path source)) (sf_len file)
          (if (0 <? sf_modified_nanos file)%Z then Some (sf_modified_nanos file) else None)
          (ic_offset cursor) (ic_next_seq cursor) (sf_first_ts_nanos file) (sf_last_ts_nanos file)
          (is_expired retention_cutoff file)).

Definition max_of (m : option Z) (n : Z) : option Z :=
  Some (match m with Some m => Z.max m n | None => n end).

Definition source_state (io : SourceIo) (index : LogIndex (Response := LogViewResponse))
    (name : string) (sources : list LogSource) (retention_seconds : Z)
    (retention_cutoff : option Z) (status : SourceIndexStatus) (error : option string)
    : SourceIndexState :=
  let run_id := source_run_id name in
  let files := omap (file_state io index retention_cutoff) sources in
  let retained_through_nanos :=
    foldl max_of None
      (omap sx_last_ts_nanos (List.filter (fun file => negb (sx_skipped_by_retention file)) files)) in
  mkSourceIndexState name run_id status retention_seconds retention_cutoff
    (Z.of_nat (count_run run_id index)) retained_through_nanos files
    (Some (ev_now (io_registry io))) error.

Definition record_source_state (io : SourceIo) (name : string) (sources : list LogSource)
    (retention_seconds : Z) (retention_cutoff : option Z) (status : SourceIndexStatus)
    (error : option string) : DaemonM unit := fun st =>
  let '(o, disk) := set_index_state (io_registry io)
    (source_state io (dm_index st) name sources retention_seconds retention_cutoff status error)
    (dm_disk st) in
  (o, mkDaemon (dm_index st) (dm_registry st) disk).

(** ** Indexing *)

Definition source_log_sources (io : SourceIo) (home : option string) (name : string)
    : DaemonM (list LogSource) :=
  resolved ← on_registry (registry_resolve home (io_registry io) name);
  mret (map (fun item => mkSource (source_run_id name) (rv_service item) (rv_path item)) resolved).

Fixpoint ingest_batches (io : SourceIo) (min_ts_nanos : option Z) (batch_index : nat)
    (batches : list (list LogSource)) : LogM (Response := LogViewResponse) unit :=
  match batches with
  | [] => mret tt
  | batch :: batches =>
      _ ← ingest_sources_after unicode_digit parse_rfc3339 (io_batch io batch_index) batch min_ts_nanos;
      ingest_batches io min_ts_nanos (S batch_index) batches
  end.

Definition ingest_sources_in_priority_batches (io : SourceIo) (sources : list LogSource)
    (min_ts_nanos : option Z) : LogM (Response := LogViewResponse) unit :=
  let '(batches, skipped) := priority_source_batches io sources min_ts_nanos in
  _ ← (match skipped with [] => mret tt | _ => mark_sources_current (io_log io) skipped end);
  ingest_batches io min_ts_nanos 0 batches.

Definition replace_source_index (io : SourceIo) (name : string) (sources : list LogSource)
    (retention_seconds : Z) (min_ts_nanos : option Z) : DaemonM unit :=
  let run_id := source_run_id name in
  _ ← record_source_state io name sources retention_seconds min_ts_nanos Indexing None;
  _ ← on_index (delete_run (io_log io) run_id);
  _ ← (match sources with
       | [] => mret tt
       | _ => on_index (ingest_sources_in_priority_batches io sources min_ts_nanos)
       end);
  record_source_state io name sources retention_seconds min_ts_nanos Current None.

(** What is to be indexed behind the requests. *)
Record Backfill := mkBackfill {
  bf_name : string;
  bf_sources : list LogSource;
  bf_retention_seconds : Z;
  bf_min_ts_nanos : option Z;
}.

Definition record_backfill (io : SourceIo) (b : Backfill) (status : SourceIndexStatus)
    (error : option string) : DaemonM unit :=
  record_source_state io (bf_name b) (bf_sources b) (bf_retention_seconds b) (bf_min_ts_nanos b)
    status error.

(** [let _ = m] *)
Definition ignoring {S A} (m : stM S A) : stM S unit := fun st =>
  match m st with
  | (Ok _, st') | (Err _, st') => (Ok tt, st')
  | (Panic, st') => (Panic, st')
  | (OutOfFuel, st') => (OutOfFuel, st')
  end.

Definition warm_source (name : string) : DaemonM unit := fun st =>
  (Ok tt, mkDaemon (warm_facets parse_rfc3339 (source_run_id name) (dm_index st)) (dm_registry st)
            (dm_disk st)).

Definition when_outdated (io : SourceIo) (b : Backfill) (before : DaemonM unit) : DaemonM unit :=
  reading (fun st =>
    if sources_are_current (io_log io) (bf_sources b) (dm_index st) then mret tt else
    _ ← before;
    _ ← on_index (ingest_sources_in_priority_batches io (bf_sources b) (bf_min_ts_nanos b));
    warm_source (bf_name b)).

(** The blocking part of the task; [spawn_source_backfill] records the source as queued
    and spawns the task. *)
Definition backfill (io : SourceIo) (b : Backfill) : DaemonM unit :=
  _ ← record_backfill io b Indexing None;
  _ ← when_outdated io b (mret tt);
  record_backfill io b Current None.

(** [join_error] is the text tokio has for a task that panicked. *)
Definition backfill_task (io : SourceIo) (join_error : string) (b : Backfill) : DaemonM unit := fun st =>
  match backfill io b st with
  | (Err err, st') => ignoring (record_backfill io b SourceError (Some err)) st'
  | (Panic, st') => ignoring (record_backfill io b SourceError (Some join_error)) st'
  | r => r
  end.

Definition spawn_source_backfill (io : SourceIo) (b : Backfill) : DaemonM (option Backfill) :=
  _ ← ignoring (record_backfill io b Queued None);
  mret (Some b).

(** What the task at the start of the daemon does for one source. *)
Definition registered_backfill (io : SourceIo) (home : option string) (now default_retention : Z)
    (_ : unit) (source : SourceEntry) : DaemonM unit :=
  let retention := source_retention_seconds source default_retention in
  let min_ts_nanos := Some (retention_cutoff_nanos now (retention * 10 ^ 9)) in
  sources ← source_log_sources io home (se_name source);
  let b := mkBackfill (se_name source) sources retention min_ts_nanos in
  _ ← record_backfill io b Queued None;
  _ ← when_outdated io b (record_backfill io b Indexing None);
  record_backfill io b Current None.

(** [io] and the time are those of each source of the list. *)
Definition registered_source_backfill (io : SourceEntry -> SourceIo) (home : option string)
    (now : SourceEntry -> Z) (default_retention : Z) : DaemonM unit :=
  sources ← on_registry registry_list;
  sfold (fun u source => registered_backfill (io source) home (now source) default_retention u source)
    sources tt.

(** ** The handlers *)

Record SourceSummary := mkSourceSummary {
  sm_name : string;
  sm_paths : list string;
  sm_created_at : string;
  sm_retention_seconds : option Z;
  sm_effective_retention_seconds : Z;
}.

Record AddSourceRequest := mkAddSourceRequest {
  ar_name : string;
  ar_paths : list string;
  ar_retention : option string;
}.

Record SourceStatusResponse := mkSourceStatusResponse {
  sr_source : SourceSummary;
  sr_index : option SourceIndexState;
}.

(** The answer of [humantime], in seconds, and of the variable that sets the retention. *)
Context (parse_duration : string -> outcome Z) (home : option string) (log_index_max_age : Z).
(** The debug form of a string. *)
Context (debug : string -> string).

Definition source_summary (entry : SourceEntry) (default_retention : Z) : SourceSummary :=
  mkSourceSummary (se_name entry) (se_paths entry) (se_created_at entry) (se_retention_seconds entry)
    (source_retention_seconds entry default_retention).

Definition parse_retention_seconds (retention : option string) : outcome (option Z) :=
  match retention with
  | None => Ok None
  | Some retention =>
      let retention := str_trim retention in
      if bool_decide (retention = "") || eq_ignore_ascii_case (to_bytes retention) (to_bytes "default")
      then Ok None
      else Some <$> map_err (fun err => "invalid source retention " +:+ debug retention +:+ ": " +:+ err)
                      (parse_duration retention)
  end.

Definition map_log_index_error {A} (o : outcome A) : outcome A :=
  map_err (fun message =>
    match strip_prefix (to_bytes "bad_query:") (to_bytes message) with
    | Some rest => of_bytes (trim rest)
    | None => message
    end) o.

Definition list_sources : DaemonM (list SourceSummary) :=
  sources ← on_registry registry_list;
  mret (map (fun entry => source_summary entry log_index_max_age) sources).

(** The answer, and the task that was spawned. *)
Definition add_source (io : SourceIo) (now : Z) (request : AddSourceRequest)
    : DaemonM (SourceSummary * option Backfill) :=
  retention_seconds ← st_lift (parse_retention_seconds (ar_retention request));
  source ← on_registry (registry_add (io_registry io) (ar_name request) (ar_paths request)
                          retention_seconds);
  sources ← source_log_sources io home (ar_name request);
  let retention := source_retention_seconds source log_index_max_age in
  let min_ts_nanos := Some (retention_cutoff_nanos now (retention * 10 ^ 9)) in
  spawned ←
    (if should_ingest_source_synchronously io sources
     then _ ← replace_source_index io (ar_name request) sources retention min_ts_nanos; mret None
     else _ ← on_index (delete_run (io_log io) (source_run_id (ar_name request)));
          spawn_source_backfill io (mkBackfill (ar_name request) sources retention min_ts_nanos));
  mret (source_summary source log_index_max_age, spawned).

Definition found_source (name : string) : DaemonM SourceEntry :=
  found ← on_registry (registry_get name);
  st_lift (ok_or found ("source " +:+ name +:+ " not found")).

Definition source_status (name : string) : DaemonM SourceStatusResponse :=
  source ← found_source name;
  index ← reading (fun st => st_lift (index_state name (dm_disk st)));
  mret (mkSourceStatusResponse (source_summary source log_index_max_age) index).

Definition remove_source (io : SourceIo) (name : string) : DaemonM unit :=
  removed ← on_registry (registry_remove (io_registry io) name);
  if negb removed then st_lift (Err ("source " +:+ name +:+ " not found")) else
  on_index (delete_run (io_log io) (source_run_id name)).

(** Indexing what the request needs, and the request. *)
Definition ingest_and_query (io : SourceIo) (min_ts_nanos : option Z) (sources : list LogSource)
    (run_id : string) (query : LogViewQuery) : DaemonM LogViewResponse := fun st =>
  let '(o, st) := on_index
    (_ ← ingest_sources_after unicode_digit parse_rfc3339 (io_log io) sources min_ts_nanos;
     query_view parse_rfc3339 run_id query) st in
  (map_log_index_error o, st).

Definition source_logs_view (io : SourceIo) (now : Z) (name : string) (query : LogViewQuery)
    : DaemonM (LogViewResponse * option Backfill) :=
  source ← found_source name;
  sources ← source_log_sources io home name;
  let retention := source_retention_seconds source log_index_max_age in
  let min_ts_nanos := Some (retention_cutoff_nanos now (retention * 10 ^ 9)) in
  let run_id := source_run_id name in
  if should_ingest_source_synchronously io sources then
    response ← ingest_and_query io min_ts_nanos sources run_id query;
    mret (response, None)
  else
    warmup_sources ← st_lift (warmup_sources_for_query io sources query min_ts_nanos);
    response ←
      reading (fun st =>
        if negb (bool_decide (warmup_sources = []))
           && negb (sources_are_current (io_log io) warmup_sources (dm_index st))
        then ingest_and_query io min_ts_nanos warmup_sources run_id query
        else ingest_and_query io min_ts_nanos [] run_id query);
    spawned ←
      reading (fun st =>
        if negb (sources_are_current (io_log io) sources (dm_index st))
        then spawn_source_backfill io (mkBackfill name sources retention min_ts_nanos)
        else mret None);
    mret (response, spawned).
End source_ingest.
