(* ===== verification/SourceBatches.v ===== *)
(** * The batches of a source

    How [priority_source_batches] divides the files of a source: every file is in one
    batch or is skipped, the newest come first, and a batch is closed exactly when the
    next file would exceed its limits. *)

From S2P Require Import Prelude Bytes BMap Json Logfmt Sort Sources LogIndex LogIngest LogQuery LogFollow SourceIngest.
From Stdlib Require Import Lia ZArith.

(** ** The order of files *)

(** The order of paths is one of their keys. *)
#[local, refine] Instance keys_strict_ord : StrictOrd (list (Z * string)) := {| kcmp := compare_keys |}.
Proof.
  - intros a. induction a as [|[m v] a IH]; intros [|[n w] b]; simpl; [done..|].
    specialize (IH b). destruct (Z.compare_spec m n) as [->|?|?];
      [|by split; [|intros [= -> _ _]; lia]..].
    pose proof (kcmp_eq v w) as Hk. unfold kcmp in Hk. simpl in Hk.
    destruct (String.compare v w); naive_solver.
  - intros a. induction a as [|[m v] a IH]; intros [|[n w] b]; simpl; [done..|].
    rewrite (Z.compare_antisym m n).
    destruct (m ?= n)%Z; simpl; [|done..]. rewrite (String.compare_antisym w v).
    destruct (String.compare v w); simpl; [apply IH|done..].
  - intros a. induction a as [|[m v] a IH]; intros [|[n w] b] [|[k x] c]; simpl; try done.
    destruct (Z.compare_spec m n) as [->|?|?], (Z.compare_spec n k) as [->|?|?]; try done;
      try (intros _ _; by rewrite (proj2 (Z.compare_lt_iff _ _)) by lia).
    + pose proof (kcmp_trans v w x) as Ht. pose proof (kcmp_eq v w) as He.
      pose proof (kcmp_eq w x) as He'. unfold kcmp in Ht, He, He'. simpl in Ht, He, He'.
      destruct (String.compare v w) eqn:E1; [pose proof (proj1 He eq_refl) as ->| |done].
      * destruct (String.compare w x); [apply IH|done..].
      * destruct (String.compare w x) eqn:E2; [pose proof (proj1 He' eq_refl) as <-; by rewrite E1| |done].
        intros _ _. by rewrite Ht.
Defined.

Lemma file_le_lex a b :
  file_le a b = true <->
  (sf_modified_nanos b < sf_modified_nanos a)%Z \/
  sf_modified_nanos a = sf_modified_nanos b /\
  kcmp (path_key (ls_path (sf_source a))) (path_key (ls_path (sf_source b))) <> Gt.
Proof.
  unfold file_le. change path_compare with (fun p q => kcmp (path_key p) (path_key q)). cbv beta.
  destruct (Z.compare_spec (sf_modified_nanos b) (sf_modified_nanos a)),
    (kcmp (path_key (ls_path (sf_source a))) (path_key (ls_path (sf_source b))));
    (split; [intros; first [done|left; lia|right; split; [lia|done]]
            |intros [?|[? ?]]; first [done|lia]]).
Qed.

Lemma file_le_total a b : file_le a b = true \/ file_le b a = true.
Proof.
  rewrite !file_le_lex, (kcmp_antisym (path_key (ls_path (sf_source a)))).
  destruct (Z.lt_trichotomy (sf_modified_nanos a) (sf_modified_nanos b)) as [?|[?|?]];
    [by right; left| |by left; left].
  destruct (kcmp (path_key (ls_path (sf_source a))) (path_key (ls_path (sf_source b))));
    [left; by right|left; by right|right; right; split; [done|by simpl]].
Qed.

Lemma file_le_trans a b c : file_le a b = true -> file_le b c = true -> file_le a c = true.
Proof.
  rewrite !file_le_lex. intros [Hab|[Hab Hk]] [Hbc|[Hbc Hk']]; try (left; lia).
  right. split; [lia|]. by eapply kcmp_le_trans.
Qed.

Section batches.
Context `{Json} (parse_rfc3339 : string -> option Z) (io : SourceIo).

Abbreviation source_file := (source_file parse_rfc3339 io).

Lemma source_file_source s f : source_file s = Some f -> sf_source f = s.
Proof. unfold SourceIngest.source_file. destruct (lf_metadata _) as [[[] len]|]; by intros [= <-]. Qed.

(** The length that the metadata of a file give. *)
Definition file_size (s : LogSource) : Z :=
  match lf_metadata (le_files (io_log io) (ls_path s)) with Some (_, len) => len | None => 0 end.

Lemma source_file_len s f : source_file s = Some f -> sf_len f = file_size s.
Proof.
  unfold SourceIngest.source_file, file_size. destruct (lf_metadata _) as [[[] len]|]; by intros [= <-].
Qed.

Lemma source_file_regular s f :
  source_file s = Some f ->
  exists len, lf_metadata (le_files (io_log io) (ls_path s)) = Some (true, len) /\ len = file_size s.
Proof.
  unfold SourceIngest.source_file, file_size. destruct (lf_metadata _) as [[[] len]|]; try done.
  intros _. by exists len.
Qed.

Definition batch_size (batch : list LogSource) : Z := foldr (fun s n => file_size s + n)%Z 0%Z batch.

Lemma batch_size_app a b : batch_size (a ++ b) = (batch_size a + batch_size b)%Z.
Proof. induction a as [|s a IH]; simpl; [done|]. rewrite IH. lia. Qed.

(** A batch holds some files, at most eight, and no more bytes than the limit, but for
    one file behind others that are empty, or alone. *)
Definition good_batch (batch : list LogSource) : Prop :=
  batch <> [] /\ (length batch <= SOURCE_BACKFILL_BATCH_MAX_FILES)%nat /\
  ((batch_size batch <= SOURCE_BACKFILL_BATCH_MAX_BYTES)%Z \/
   exists empty s, batch = empty ++ [s] /\ batch_size empty = 0%Z).

(** The next file had no place in a batch. *)
Definition no_place (batch : list LogSource) (next : LogSource) : Prop :=
  length batch = SOURCE_BACKFILL_BATCH_MAX_FILES \/
  (SOURCE_BACKFILL_BATCH_MAX_BYTES < batch_size batch + file_size next)%Z.

Definition closed_when_full (batches : list (list LogSource)) : Prop :=
  forall i batch next rest, batches !! i = Some batch -> batches !! S i = Some (next :: rest) ->
  no_place batch next.

Lemma closed_snoc batches batch s :
  closed_when_full (batches ++ [batch]) -> no_place batch s ->
  closed_when_full ((batches ++ [batch]) ++ [[s]]).
Proof.
  intros Hc Hno i b next rest Hi Hn. destruct (decide (S i < length (batches ++ [batch]))%nat) as [Hlt|Hge].
  - rewrite lookup_app_l in Hn by done. rewrite lookup_app_l in Hi by lia. by eapply Hc.
  - assert (S i = length (batches ++ [batch])) as Hlen.
    { apply lookup_lt_Some in Hn. rewrite (length_app (_ ++ _)) in Hn. simpl in Hn. lia. }
    rewrite Hlen, list_lookup_middle in Hn by done. injection Hn as <- <-.
    rewrite length_app in Hlen. simpl in Hlen. assert (i = length batches) as -> by lia.
    rewrite lookup_app_l, list_lookup_middle in Hi by (rewrite ?length_app; simpl; lia || done).
    by injection Hi as <-.
Qed.

Lemma closed_grow batches batch s :
  batch <> [] -> closed_when_full (batches ++ [batch]) -> closed_when_full (batches ++ [batch ++ [s]]).
Proof.
  intros Hne Hc i b next rest Hi Hn. destruct (decide (S i < length batches)%nat) as [Hlt|Hge].
  - apply (Hc i b next rest); rewrite lookup_app_l in * by lia; done.
  - assert (S i = length batches) as Hlen.
    { apply lookup_lt_Some in Hn. rewrite length_app in Hn. simpl in Hn. lia. }
    rewrite Hlen, list_lookup_middle in Hn by done. rewrite lookup_app_l in Hi by lia.
    destruct batch as [|x batch]; [done|]. simpl in Hn. injection Hn as <- <-.
    apply (Hc i b x batch); [by rewrite lookup_app_l by lia|]. by rewrite Hlen, list_lookup_middle.
Qed.

Section fold.
Context (min_ts_nanos : option Z).

Abbreviation kept := (List.filter (fun f => negb (is_expired min_ts_nanos f))).
Abbreviation expired := (List.filter (is_expired min_ts_nanos)).

(** The batches so far, after some files. *)
Record batched (files : list SourceFile) (b : Batching) : Prop := {
  ba_all : concat (bt_batches b) ++ bt_current b = map sf_source (kept files);
  ba_skipped : bt_skipped b = map sf_source (expired files);
  ba_good : Forall good_batch (bt_batches b);
  ba_current : bt_current b = [] \/ good_batch (bt_current b);
  ba_bytes : bt_current_bytes b = Z.min (batch_size (bt_current b)) u64_max;
  ba_size : (0 <= batch_size (bt_current b))%Z;
  ba_closed : closed_when_full (bt_batches b ++ [bt_current b]);
  ba_start : bt_current b = [] -> bt_batches b = [];
}.

Lemma kept_snoc files f : is_expired min_ts_nanos f = false -> kept (files ++ [f]) = kept files ++ [f].
Proof. intros E. rewrite List.filter_app. simpl. by rewrite E. Qed.

Lemma batch_file_step files b f :
  sf_len f = file_size (sf_source f) -> (0 <= sf_len f <= u64_max)%Z ->
  batched files b -> batched (files ++ [f]) (batch_file min_ts_nanos b f).
Proof.
  intros Hlen Hrange [Hall Hskip Hgood Hcur Hbytes Hsize Hclosed Hstart].
  destruct b as [batches skipped current bytes]. cbn [bt_batches bt_skipped bt_current bt_current_bytes] in *.
  unfold batch_file. destruct (is_expired min_ts_nanos f) eqn:E.
  { split; cbn; rewrite ?List.filter_app; simpl; rewrite ?E; simpl; rewrite ?app_nil_r; try done.
    by rewrite map_app, Hskip. }
  unfold saturating_add. rewrite Hlen in *. set (s := sf_source f) in *.
  assert (expired (files ++ [f]) = expired files) as Hexp.
  { rewrite List.filter_app. simpl. by rewrite E, app_nil_r. }
  set (full := negb (bool_decide (current = [])) && _).
  destruct full eqn:Hfull; subst full.
  - apply andb_prop in Hfull as [Hne%negb_true_iff%bool_decide_eq_false Hfull].
    destruct Hcur as [?|Hcur]; [done|]. split; cbn [bt_batches bt_skipped bt_current bt_current_bytes].
    + rewrite concat_app, kept_snoc, map_app, <- Hall by done. simpl. by rewrite app_nil_r.
    + by rewrite Hexp.
    + apply Forall_app. split; [done|]. by constructor.
    + right. split_and!; [done|cbn; unfold SOURCE_BACKFILL_BATCH_MAX_FILES; lia|].
      right. by exists [], s.
    + simpl. lia.
    + simpl. lia.
    + apply closed_snoc; [done|]. apply orb_prop in Hfull as [Hb|Hf].
      * right. apply andb_prop in Hb as [_ Hb%Z.ltb_lt]. lia.
      * left. apply Nat.leb_le in Hf. destruct Hcur as (_ & ? & _). lia.
    + done.
  - assert (batch_size (current ++ [s]) = batch_size current + file_size s)%Z as Hsum.
    { rewrite batch_size_app. simpl. lia. }
    split; cbn [bt_batches bt_skipped bt_current bt_current_bytes].
    + rewrite kept_snoc, map_app, <- Hall, app_assoc by done. done.
    + by rewrite Hexp.
    + done.
    + right. destruct Hcur as [->|(Hne & Hl & Hs)].
      { split_and!; [done|cbn; unfold SOURCE_BACKFILL_BATCH_MAX_FILES; lia|]. right. by exists [], s. }
      rewrite bool_decide_eq_false_2 in Hfull by done. cbn [negb andb] in Hfull.
      apply orb_false_iff in Hfull as [Hb Hf%Nat.leb_gt].
      split_and!; [by destruct current|rewrite length_app; simpl; lia|].
      destruct (decide (batch_size current = 0)%Z) as [Hz|Hz]; [right; by exists current, s|left].
      apply andb_false_iff in Hb as [Hb%Z.ltb_ge|Hb%Z.ltb_ge];
        unfold SOURCE_BACKFILL_BATCH_MAX_BYTES, u64_max in *; lia.
    + rewrite Hsum. lia.
    + rewrite Hsum. lia.
    + destruct current as [|x current]; [|by apply closed_grow].
      rewrite Hstart by done. intros i b next rest Hi Hn. by destruct i.
    + by destruct current.
Qed.

Lemma batches_fold files :
  Forall (fun f => sf_len f = file_size (sf_source f) /\ 0 <= sf_len f <= u64_max)%Z files ->
  batched files (foldl (batch_file min_ts_nanos) (mkBatching [] [] [] 0) files).
Proof.
  induction files as [|f files IH] using rev_ind; intros Hall.
  { split; cbn; first [done|lia|by left]. }
  apply Forall_app in Hall as [Hall [Hl Hr]%Forall_singleton]. rewrite foldl_app. simpl.
  apply batch_file_step; [done..|]. by apply IH.
Qed.
End fold.
End batches.

Section result.
Context `{Json} (parse_rfc3339 : string -> option Z) (io : SourceIo).
Context (sources : list LogSource) (min_ts_nanos : option Z).

(** The lengths of the files fit [u64]. *)
Definition sizes_fit : Prop :=
  forall s len, s ∈ sources -> lf_metadata (le_files (io_log io) (ls_path s)) = Some (true, len) ->
    (0 <= len <= u64_max)%Z.

Abbreviation files := (source_files_newest_first parse_rfc3339 io sources).
Abbreviation kept := (List.filter (fun f => negb (is_expired min_ts_nanos f)) files).
Abbreviation expired := (List.filter (is_expired min_ts_nanos) files).

Lemma files_perm : files ≡ₚ omap (source_file parse_rfc3339 io) sources.
Proof. apply sort_by_perm. Qed.

Lemma batches_parts :
  sizes_fit ->
  let '(batches, skipped) := priority_source_batches parse_rfc3339 io sources min_ts_nanos in
  concat batches = map sf_source kept /\ skipped = map sf_source expired /\
  Forall (good_batch io) batches /\ closed_when_full io batches.
Proof.
  intros Hsize. unfold priority_source_batches.
  destruct (foldl _ _ files) as [batches skipped current bytes] eqn:E.
  pose proof (batches_fold io min_ts_nanos files) as Hb. rewrite E in Hb.
  destruct Hb as [Hall Hskip Hgood Hcur _ _ Hclosed Hstart].
  - apply Forall_forall. intros f Hf. rewrite files_perm in Hf.
    apply list_elem_of_omap in Hf as (s & Hs & Hf). rewrite (source_file_source _ _ _ _ Hf).
    rewrite (source_file_len _ _ _ _ Hf). split; [done|].
    destruct (source_file_regular _ _ _ _ Hf) as (len & Hm & <-). by apply (Hsize s).
  - cbn [bt_batches bt_skipped bt_current] in *. split_and!; [|done| |].
    + rewrite <- Hall. destruct current; [by rewrite app_nil_r|].
      rewrite concat_app. simpl. by rewrite app_nil_r.
    + destruct current; [done|]. apply Forall_app. split; [done|]. constructor; [|done].
      by destruct Hcur as [?|?].
    + destruct current; [|done]. by rewrite Hstart.
Qed.

(** Every file is in a batch or skipped, once. *)
Lemma batches_cover :
  sizes_fit ->
  let '(batches, skipped) := priority_source_batches parse_rfc3339 io sources min_ts_nanos in
  concat batches ++ skipped ≡ₚ
    List.filter (fun s => bool_decide (is_Some (source_file parse_rfc3339 io s))) sources.
Proof.
  intros Hsize. pose proof (batches_parts Hsize) as Hp.
  destruct (priority_source_batches _ _ _ _) as [batches skipped]. destruct Hp as (-> & -> & _).
  rewrite <- map_app.
  assert (kept ++ expired ≡ₚ files) as ->.
  { rewrite Permutation_app_comm. rewrite <- (filter_split (fun _ => true)); [|by intros f; destruct (is_expired _ f)..].
    by rewrite filter_all. }
  rewrite files_perm. clear Hsize. induction sources as [|s l IH]; [done|]. cbn [omap list_omap List.filter].
  destruct (source_file parse_rfc3339 io s) as [f|] eqn:E; simpl.
  - rewrite (source_file_source _ _ _ _ E). by f_equiv.
  - done.
Qed.

Lemma batched_elem s :
  sizes_fit ->
  let '(batches, _) := priority_source_batches parse_rfc3339 io sources min_ts_nanos in
  s ∈ concat batches <->
  s ∈ sources /\ exists f, source_file parse_rfc3339 io s = Some f /\ is_expired min_ts_nanos f = false.
Proof.
  intros Hsize. pose proof (batches_parts Hsize) as Hp.
  destruct (priority_source_batches _ _ _ _) as [batches skipped]. destruct Hp as (-> & _).
  rewrite list_elem_of_fmap. split.
  - intros (f & -> & [Hf He%negb_true_iff]%filter_elem). rewrite files_perm in Hf.
    apply list_elem_of_omap in Hf as (s' & Hs & Hf). rewrite (source_file_source _ _ _ _ Hf).
    split; [done|]. by exists f.
  - intros (Hs & f & Hf & He). exists f. split; [by rewrite (source_file_source _ _ _ _ Hf)|].
    apply filter_elem. rewrite He, files_perm. split; [|done]. apply list_elem_of_omap. by exists s.
Qed.
End result.

(** the batches of a source.  Each file of the source that is not beyond the
    retention is in exactly one batch, the others are skipped; from batch to batch and
    within a batch the files go from the newest to the oldest; no batch is empty, has
    more than eight files or, unless a single file does, more than 16 MiB; and a batch
    ends only where the next file has no place in it. *)
Theorem priority_batches_spec `{Json} (parse_rfc3339 : string -> option Z) (io : SourceIo)
    (sources : list LogSource) (min_ts_nanos : option Z) :
  sizes_fit io sources ->
  let files := source_files_newest_first parse_rfc3339 io sources in
  let '(batches, skipped) := priority_source_batches parse_rfc3339 io sources min_ts_nanos in
  files ≡ₚ omap (source_file parse_rfc3339 io) sources /\ sorted_by file_le files /\
  concat batches = map sf_source (List.filter (fun f => negb (is_expired min_ts_nanos f)) files) /\
  skipped = map sf_source (List.filter (is_expired min_ts_nanos) files) /\
  Forall (good_batch io) batches /\ closed_when_full io batches.
Proof.
  intros Hsize files. pose proof (batches_parts parse_rfc3339 io sources min_ts_nanos Hsize) as Hp.
  destruct (priority_source_batches _ _ _ _) as [batches skipped]. destruct Hp as (Hb & Hs & Hg & Hc).
  split_and!; [apply files_perm| |done..]. apply sort_by_sorted; [apply file_le_total|apply file_le_trans].
Qed.
