(* ===== verification/SourceReplace.v ===== *)
(** * Indexing a source anew

    [replace_source_index] of [SourceIngest] from end to end: whatever the index held
    before, when it succeeds the index holds of every file of the source within the
    retention one document for each of its complete lines, and the state that is
    recorded says so. *)

From S2P Require Import Prelude Bytes BMap Json Sources SourcesInv LogIndex LogText LogCommit LogIngest LogQuery LogFollow SourceIngest SourceBatches.
From Stdlib Require Import Lia ZArith.

Section replace.
Context `{Json} `{SearchIndexLaws} `{StateCodecLaws} `{Searcher} `{SourceFilesLaws}.
Context (unicode_digit : bytes -> bool) (parse_rfc3339 : string -> option Z) (oldest : Z).

Abbreviation Index := (LogIndex (Response := LogViewResponse)).
Implicit Types (st : Index) (s : LogSource).

(** ** After the removal of a run *)

Lemma bget_bretain_dropped {V} (f : string -> bool) key (m : bmap string V) :
  f key = false -> bget key (bretain (fun k _ => f k) m) = None.
Proof.
  intros Hf. unfold bretain. induction m as [|[j v] m IH]; simpl; [done|].
  destruct (f j) eqn:Ej; simpl; [|done]. destruct (keqb key j) eqn:E; [|done].
  apply keqb_true in E as ->. congruence.
Qed.

(** No document and no cursor of a source. *)
Definition forgotten st s : Prop :=
  (forall d, d ∈ committed (lx_writer st) -> of_source s d = false) /\
  (forall d, d ∈ outlook (lx_writer st) -> of_source s d = false) /\
  cursor_in (lx_ingest st) s = cursor_default /\
  cursor_in (saved_ingest (lx_saved st)) s = cursor_default.

Lemma delete_run_forgets env run_id st st' s :
  delete_run env run_id st = (Ok tt, st') -> ls_run_id s = run_id -> forgotten st' s.
Proof.
  intros Hd Hrun. unfold delete_run, mbind, st_bind, with_writer in Hd.
  pose proof (delete_term_law run_id (lx_writer st)) as [_ Ho].
  cbn [lx_writer lx_ingest lx_saved lx_facet_cache lx_commits] in Hd.
  pose proof (commit_law (delete_term run_id (lx_writer st))) as Hc.
  destruct (commit (delete_term run_id (lx_writer st))) as [[[]|e| |] w]; try done.
  destruct Hc as [[HC HO]|[? _]]; [|done].
  cbn in Hd. unfold update_ingest in Hd. cbn [lx_writer lx_ingest lx_saved lx_facet_cache lx_commits] in Hd.
  destruct (le_save env _); try done. injection Hd as <-.
  assert (forall l, l ≡ₚ outlook (delete_term run_id (lx_writer st)) ->
    forall d, d ∈ l -> of_source s d = false) as Hnone.
  { intros l Hl d Hin. rewrite Hl, Ho in Hin. apply filter_elem in Hin as [_ Hn].
    apply negb_true_iff in Hn. simpl in Hn. unfold of_source. by rewrite Hrun, Hn. }
  split_and!; cbn [lx_writer lx_ingest lx_saved]; [by apply Hnone|by apply Hnone| |].
  2: rewrite saved_cursor.
  all: unfold cursor_in; cbn [is_sources]; rewrite bget_bretain_dropped; [done|].
  all: apply negb_false_iff, starts_with_spec; rewrite <- Hrun; unfold key_of, source_key.
  all: exists (ls_service s); by rewrite <- str_app_assoc.
Qed.

(** ** The invariant of the index while the source is indexed *)

Context (logs : string -> bytes) (universe : list LogSource) (Hkeys : NoDup (key_of <$> universe)).

Abbreviation inv := (LogCommit.inv (Response := LogViewResponse) unicode_digit parse_rfc3339 oldest
                       universe logs).
Abbreviation log := (log_of logs).

Lemma docs_ok_none s n docs :
  (forall d, d ∈ docs -> of_source s d = false) ->
  docs_ok unicode_digit parse_rfc3339 oldest s (log s) n cursor_default docs.
Proof.
  intros Hd. split.
  - exists []. rewrite filter_none; [|intros d Hin; unfold below; by rewrite Hd].
    split; [done|]. split; [done|]. by intros d ?%elem_of_nil.
  - intros d Hin Ho. by rewrite Hd in Ho.
Qed.

Lemma forgotten_inv st : (forall s, s ∈ universe -> forgotten st s) -> inv st.
Proof.
  intros Hf s Hs. destruct (Hf s Hs) as (HC & HO & Hm & Hd).
  split; rewrite ?Hm, ?Hd; [apply at_line_default..|done|by apply docs_ok_none|by apply docs_ok_none].
Qed.

Lemma mark_one_other env m x s :
  key_of s <> key_of x -> bget (key_of s) (mark_one env m x) = bget (key_of s) m.
Proof.
  intros Hne. unfold mark_one. destruct (lf_metadata _) as [[[] len]|]; try done.
  by rewrite bget_binsert_ne.
Qed.

(** Marking files as current touches no other source. *)
Lemma mark_inv env skipped :
  (forall s x, s ∈ universe -> x ∈ skipped -> key_of s <> key_of x) ->
  hoare inv (mark_sources_current env skipped) (fun _ => inv) (fun _ => True).
Proof.
  intros Hother st Hinv. unfold mark_sources_current. destruct skipped as [|x0 l0] eqn:El; [done|].
  rewrite <- El in *. clear El x0 l0. unfold update_ingest.
  set (ingest := mkIngestState 1 _ _).
  assert (forall s, s ∈ universe -> cursor_in ingest s = cursor_in (lx_ingest st) s) as Hcur.
  { intros s Hs. unfold cursor_in, ingest. cbn [is_sources]. f_equal.
    assert (forall x, x ∈ skipped -> key_of s <> key_of x) as Hne by (intros x; by apply Hother).
    clear Hother ingest. generalize (is_sources (lx_ingest st)) as m.
    induction skipped as [|x l IH]; intros m; simpl; [done|].
    rewrite IH by (intros y Hy; apply Hne; by right). apply mark_one_other, Hne. left. }
  destruct (le_save env _); try done. intros s Hs. cbn [lx_ingest lx_saved lx_writer].
  destruct (Hinv s Hs) as [Hm Hd Hle HC HO].
  split; rewrite ?saved_cursor, ?Hcur by done; try done.
Qed.

(** ** The batches *)

(** A file that was read to its end. *)
Definition at_end s : IngestCursor :=
  mkCursor (Z.of_nat (length (complete (log s)))) (nlines (complete (log s))).

Lemma at_line_end s c :
  at_line (log s) c -> complete (log s) `prefix_of` text_at (log s) c -> c = at_end s.
Proof.
  intros Hc Hp. assert (text_at (log s) c = complete (log s)) as Ht.
  { apply (anti_symm prefix); [|done]. unfold text_at. eexists. symmetry. apply take_drop. }
  pose proof (at_line_offset _ _ Hc) as Ho. pose proof (al_seq _ _ Hc) as Hs. rewrite Ht in Ho, Hs.
  destruct c as [o n]. unfold at_end. simpl in *. by subst.
Qed.

Definition finished s st : Prop :=
  cursor_in (lx_ingest st) s = at_end s /\ clean s (limit logs s) st.

Definition progress (done : list LogSource) st : Prop :=
  inv st /\ forall s, s ∈ done -> s ∈ universe -> finished s st.

Context (io : SourceIo) (min : option Z) (Hmin : forall m, min = Some m -> (m <= oldest)%Z).
Context (Hfiles : forall k s, s ∈ universe ->
  serves (le_files (io_batch io k) (ls_path s)) (log s) (log s) /\ is_file (io_batch io k) s).
Context (Hreadable : forall s, s ∈ universe -> readable (log s)).

Lemma ingest_batches_progress k batches done :
  NoDup (done ++ concat batches) -> (forall s, s ∈ concat batches -> s ∈ universe) ->
  hoare (progress done) (ingest_batches unicode_digit parse_rfc3339 io min k batches)
    (fun _ => progress (done ++ concat batches)) (fun _ => True).
Proof.
  revert k done. induction batches as [|batch batches IH]; intros k done Hnd Hsub; cbn [concat ingest_batches].
  { intros st Hst. cbn. by rewrite app_nil_r. }
  simpl in Hnd, Hsub. rewrite app_assoc in Hnd. rewrite app_assoc.
  pose proof (NoDup_app (done ++ batch) (concat batches)) as [[Hdb _] _]; [done|].
  apply NoDup_app in Hdb as (_ & Hdis & Hb).
  assert (forall s, s ∈ batch -> s ∈ universe) as Hbu by (intros s Hs; apply Hsub, elem_of_app; by left).
  eapply hoare_bind with (R := fun _ => progress (done ++ batch));
    [|intros []; apply IH; [done|intros s Hs; apply Hsub, elem_of_app; by right]].
  intros st [Hinv Hdone].
  pose proof (ingest_frame unicode_digit parse_rfc3339 oldest universe Hkeys (io_batch io k) logs logs min
    Hmin ltac:(intros s Hs; split; [by apply Hfiles|by apply Hreadable]) batch
    (cursor_in (lx_ingest st)) (limit logs) Hb Hbu st) as Hframe.
  destruct (ingest_sources_after _ _ _ _ _ st) as [[u|e| |] st']; [|done..].
  destruct Hframe as (Hinv' & Hindexed & Hun).
  { split; [done|]. intros s Hs _. split; [done|]. by destruct (Hinv s Hs) as [_ _ _ [_ HC] [_ HO]]. }
  split; [done|]. intros s Hin Hs. destruct (decide (s ∈ batch)) as [Hsb|Hnb].
  - destruct (Hindexed s Hsb) as (c & Hc & Hclean & Hp); [by apply Hfiles|].
    assert (c = at_end s) as ->.
    { apply at_line_end; [|done]. rewrite <- Hc. by destruct (Hinv' s Hs). }
    by split.
  - apply elem_of_app in Hin as [Hin|?]; [|done]. destruct (Hun s Hs Hnb) as [Hc Hclean].
    destruct (Hdone s Hin Hs) as [Hd _]. split; [by rewrite Hc|done].
Qed.

(** What the index holds of a file that was read to its end. *)
Definition holds s st : Prop :=
  exists kept, List.filter (of_source s) (committed (lx_writer st)) ≡ₚ kept /\
    kept `sublist_of` all_docs unicode_digit parse_rfc3339 s 0 (complete (log s)) /\
    forall d, d ∈ all_docs unicode_digit parse_rfc3339 s 0 (complete (log s)) ->
      (oldest <= pd_ts_nanos d)%Z -> d ∈ kept.

Lemma finished_holds s st : inv st -> s ∈ universe -> finished s st -> holds s st.
Proof.
  intros Hinv Hs [Hc [Hclean _]].
  destruct (Hinv s Hs) as [_ _ _ ((kept & Hkept & Hsubset & Hold) & _) _]. rewrite Hc in *.
  assert (text_at (log s) (at_end s) = complete (log s)) as Ht.
  { unfold text_at, at_end. cbn [ic_offset]. by rewrite Nat2Z.id, firstn_all. }
  rewrite Ht in *. exists kept. split_and!; [|done|done].
  rewrite <- Hkept. apply eq_Permutation, filter_ext_elem. intros d Hd. unfold below.
  destruct (of_source s d) eqn:Ho; [|done]. symmetry. apply Z.ltb_lt. by apply Hclean.
Qed.
End replace.

(** ** The whole operation *)

Section operation.
Context `{Json} `{SearchIndexLaws} `{StateCodecLaws} `{Searcher} `{SourceFilesLaws}.
Context (unicode_digit : bytes -> bool) (parse_rfc3339 : string -> option Z) (io : SourceIo).

Lemma on_index_Ok {A} (m : LogM (Response := LogViewResponse) A) st a st' :
  on_index m st = (Ok a, st') ->
  m (dm_index st) = (Ok a, dm_index st') /\ dm_disk st' = dm_disk st.
Proof. unfold on_index. destruct (m (dm_index st)) as [o index]. by intros [= -> <-]. Qed.

(** What serde reads is a map. *)
Definition states_ok (d : SourceDisk) : Prop :=
  forall file, load_index_state_file d = Ok file -> bwf (st_sources file).

Lemma set_index_state_Ok env state d d' :
  set_index_state env state d = (Ok tt, d') -> states_ok d ->
  index_state (si_name state) d' = Ok (Some state) /\ states_ok d'.
Proof.
  unfold set_index_state, save_index_state_file, states_ok, index_state. intros E Hok.
  destruct (load_index_state_file d) as [file|e| |]; try done. specialize (Hok file eq_refl).
  destruct (ev_write_states env); try done. injection E as <-. unfold load_index_state_file.
  cbn [dk_states]. rewrite states_roundtrip by (cbn; auto with bmap). cbn. rewrite bget_binsert_eq.
  split; [done|]. intros ? [= <-]. cbn. auto with bmap.
Qed.

Lemma record_source_state_Ok name sources retention cutoff status error st st' :
  record_source_state parse_rfc3339 io name sources retention cutoff status error st = (Ok tt, st') ->
  states_ok (dm_disk st) ->
  dm_index st' = dm_index st /\ states_ok (dm_disk st') /\
  index_state name (dm_disk st') =
    Ok (Some (source_state parse_rfc3339 io (dm_index st) name sources retention cutoff status error)).
Proof.
  unfold record_source_state. intros E Hok. destruct (set_index_state _ _ _) as [o d] eqn:Es.
  injection E as -> <-. apply set_index_state_Ok in Es as [Hs Hd]; [|done]. done.
Qed.

(** The files of a source, with these contents throughout. *)
Record steady (sources : list LogSource) (logs : string -> bytes) : Prop := {
  sy_same k s : s ∈ sources ->
    lf_metadata (le_files (io_batch io k) (ls_path s)) = lf_metadata (le_files (io_log io) (ls_path s));
  sy_serves k s : s ∈ sources ->
    serves (le_files (io_batch io k) (ls_path s)) (log_of logs s) (log_of logs s);
  sy_readable s : s ∈ sources -> readable (log_of logs s);
}.

Lemma steady_sizes sources logs : steady sources logs -> sizes_fit io sources.
Proof.
  intros [Hsame Hserves Hread] s len Hs Hm. destruct (Hserves 0%nat s Hs) as [_ Hm'].
  rewrite Hsame, Hm in Hm' by done. destruct Hm' as [-> _]. destruct (Hread s Hs) as [_ Hl]. lia.
Qed.

Section indexed.
Context (name : string) (sources : list LogSource) (logs : string -> bytes) (oldest : Z).
Context (min : option Z) (Hmin : forall m, min = Some m -> (m <= oldest)%Z).
Context (Hrun : forall s, s ∈ sources -> ls_run_id s = source_run_id name).
Context (Hservices : NoDup (ls_service <$> sources)) (Hsteady : steady sources logs).

Lemma source_keys : NoDup (key_of <$> sources).
Proof.
  clear Hsteady. revert Hservices Hrun. generalize sources as l. induction l as [|s l IH]; [constructor|].
  intros [Hs Hnd]%NoDup_cons Hr. cbn [fmap list_fmap]. apply NoDup_cons. split.
  - intros (x & Hk & Hx)%list_elem_of_fmap. apply Hs. apply list_elem_of_fmap. exists x. split; [|done].
    unfold key_of, source_key in Hk. rewrite (Hr s), (Hr x) in Hk by (by left || by right).
    by apply append_inj_l, append_inj_l in Hk.
  - apply IH; [done|]. intros x Hx. apply Hr. by right.
Qed.

Abbreviation batches := (priority_source_batches parse_rfc3339 io sources min).1.
Abbreviation skipped := (priority_source_batches parse_rfc3339 io sources min).2.
Abbreviation finished := (SourceReplace.finished logs).

(** Every file within the retention is read to its end. *)
Lemma priority_batches_finish st st' :
  (forall s, ls_run_id s = source_run_id name -> forgotten st s) ->
  ingest_sources_in_priority_batches unicode_digit parse_rfc3339 io sources min st = (Ok tt, st') ->
  forall s, s ∈ concat batches ->
    finished s st' /\ holds unicode_digit parse_rfc3339 oldest logs s st'.
Proof.
  intros Hforgot Hrunning s Hs.
  pose proof (batches_cover parse_rfc3339 io sources min (steady_sizes _ _ Hsteady)) as Hcover.
  pose proof (fun s => batched_elem parse_rfc3339 io sources min s (steady_sizes _ _ Hsteady)) as Helem.
  unfold ingest_sources_in_priority_batches in Hrunning.
  destruct (priority_source_batches _ _ _ _) as [bs sk]. cbn [fst snd] in *.
  assert (NoDup (key_of <$> concat bs ++ sk)) as Hkeys.
  { rewrite Hcover. eapply sublist_NoDup; [apply source_keys|].
    apply fmap_sublist, filter_sublist. }
  rewrite fmap_app in Hkeys. apply NoDup_app in Hkeys as (Hkb & Hdis & _).
  assert (forall x, x ∈ concat bs -> x ∈ sources) as Hsub by (intros x Hx; by apply Helem).
  set (invariant := LogCommit.inv (Response := LogViewResponse) unicode_digit parse_rfc3339 oldest
    (concat bs) logs).
  assert (hoare invariant (match sk with [] => mret tt | _ => mark_sources_current (io_log io) sk end)
    (fun _ => invariant) (fun _ => True)) as Hmark.
  { pose proof (mark_inv unicode_digit parse_rfc3339 oldest logs (concat bs) (io_log io) sk) as Hm.
    destruct sk; [apply (hoare_ret (fun _ => invariant))|]. apply Hm. intros x y Hx Hy Hk.
    apply (Hdis (key_of x)); [by apply list_elem_of_fmap_2|]. rewrite Hk. by apply list_elem_of_fmap_2. }
  pose proof (ingest_batches_progress unicode_digit parse_rfc3339 oldest logs (concat bs) Hkb io min Hmin)
    as Hbatches.
  assert (forall k x, x ∈ concat bs ->
    serves (le_files (io_batch io k) (ls_path x)) (log_of logs x) (log_of logs x) /\
    is_file (io_batch io k) x) as Hfiles.
  { intros k x Hx. split; [by apply Hsteady, Hsub|]. destruct (proj1 (Helem x) Hx) as (Hxs & f & Hf & _).
    apply source_file_regular in Hf as (len & Hm & _). exists len. by rewrite (sy_same _ _ Hsteady). }
  assert (forall x, x ∈ concat bs -> readable (log_of logs x)) as Hreadable
    by (intros x Hx; by apply Hsteady, Hsub).
  assert (hoare invariant
    (_ ← match sk with [] => mret tt | _ => mark_sources_current (io_log io) sk end;
     ingest_batches unicode_digit parse_rfc3339 io min 0 bs)
    (fun _ => progress unicode_digit parse_rfc3339 oldest logs (concat bs) (concat bs)) (fun _ => True))
    as Hall.
  { eapply hoare_bind; [exact Hmark|]. intros u.
    apply (hoare_pre _ (progress unicode_digit parse_rfc3339 oldest logs (concat bs) [])).
    { intros x Hx. split; [done|]. by intros y ?%elem_of_nil. }
    apply (Hbatches Hfiles Hreadable 0%nat bs []); [|done]. simpl. by apply NoDup_fmap_1 in Hkb. }
  specialize (Hall st). rewrite Hrunning in Hall. destruct Hall as [Hinv Hdone].
  { apply forgotten_inv. intros x Hx. by apply Hforgot, Hrun, Hsub. }
  split; [by apply Hdone|]. eapply finished_holds; [done..|by apply Hdone].
Qed.

(** What is recorded of a file that was read to its end. *)
Lemma file_state_finished s f st cutoff :
  source_file parse_rfc3339 io s = Some f -> cursor_in (lx_ingest st) s = at_end logs s ->
  file_state parse_rfc3339 io st cutoff s =
    Some (mkSourceFileIndexState (ls_service s) (to_string_lossy (ls_path s)) (sf_len f)
            (if (0 <? sf_modified_nanos f)%Z then Some (sf_modified_nanos f) else None)
            (Z.of_nat (length (complete (log_of logs s)))) (nlines (complete (log_of logs s)))
            (sf_first_ts_nanos f) (sf_last_ts_nanos f) (is_expired cutoff f)).
Proof.
  intros Hf Hc. unfold file_state. rewrite Hf. cbn [mbind option_bind].
  unfold cursor_in, key_of in Hc. unfold ingest_cursor. by rewrite Hc.
Qed.
End indexed.

Lemma replace_source_index_Ok name sources retention min st st' :
  states_ok (dm_disk st) ->
  replace_source_index unicode_digit parse_rfc3339 io name sources retention min st = (Ok tt, st') ->
  exists index,
    (forall s, ls_run_id s = source_run_id name -> forgotten index s) /\
    (sources <> [] ->
     ingest_sources_in_priority_batches unicode_digit parse_rfc3339 io sources min index
       = (Ok tt, dm_index st')) /\
    index_state name (dm_disk st') =
      Ok (Some (source_state parse_rfc3339 io (dm_index st') name sources retention min Current None)).
Proof.
  intros Hok Hr. unfold replace_source_index in Hr.
  apply st_bind_Ok in Hr as ([] & st1 & H1' & Hr).
  apply record_source_state_Ok in H1' as (_ & Hok1 & _); [|done].
  apply st_bind_Ok in Hr as ([] & st2 & H2' & Hr). apply on_index_Ok in H2' as [Hdel Hdisk2].
  apply st_bind_Ok in Hr as (u & st3 & H3' & Hr).
  assert (states_ok (dm_disk st3) /\ (sources <> [] ->
    ingest_sources_in_priority_batches unicode_digit parse_rfc3339 io sources min (dm_index st2)
      = (Ok tt, dm_index st3))) as [Hok3 Hing].
  { destruct sources as [|s l]; [injection H3' as _ <-; by rewrite Hdisk2|].
    apply on_index_Ok in H3' as [Hi Hdisk3]. destruct u. rewrite Hdisk3, Hdisk2. done. }
  apply record_source_state_Ok in Hr as (Hindex & _ & Hstate); [|done].
  exists (dm_index st2). split_and!; [|by rewrite Hindex|by rewrite Hindex].
  intros s Hs. by eapply delete_run_forgets.
Qed.
End operation.

(** C19: indexing a source anew.  Whatever was in the index before, when
    [replace_source_index] succeeds the index holds of each file of the source that is
    within the retention one document for each of its complete lines, in order, but for
    lines older than the retention; and the state that is recorded says that the source
    is current and that each of these files is read to its last complete line. *)
Theorem reindexed_source `{Json} `{SearchIndexLaws} `{StateCodecLaws} `{Searcher} `{SourceFilesLaws}
    (unicode_digit : bytes -> bool) (parse_rfc3339 : string -> option Z) (io : SourceIo)
    (name : string) (sources : list LogSource) (logs : string -> bytes) (oldest : Z)
    (retention : Z) (min : option Z) (st st' : Daemon) :
  (forall m, min = Some m -> (m <= oldest)%Z) ->
  (forall s, s ∈ sources -> ls_run_id s = source_run_id name) ->
  NoDup (ls_service <$> sources) -> steady io sources logs -> states_ok (dm_disk st) ->
  replace_source_index unicode_digit parse_rfc3339 io name sources retention min st = (Ok tt, st') ->
  exists state,
    index_state name (dm_disk st') = Ok (Some state) /\
    si_status state = Current /\ si_error state = None /\
    forall s file, s ∈ sources -> source_file parse_rfc3339 io s = Some file ->
    is_expired min file = false ->
    holds unicode_digit parse_rfc3339 oldest logs s (dm_index st') /\
    exists entry, entry ∈ si_files state /\ sx_service entry = ls_service s /\
      sx_indexed_offset entry = Z.of_nat (length (complete (log_of logs s))) /\
      sx_next_seq entry = nlines (complete (log_of logs s)).
Proof.
  intros Hmin Hrun Hnd Hsteady Hok Hreplace.
  apply replace_source_index_Ok in Hreplace as (index & Hforgot & Hing & Hstate); [|done].
  eexists. split; [exact Hstate|]. split_and!; [done..|]. intros s file Hs Hf He.
  assert (sources <> []) as Hne by (intros ->; by apply elem_of_nil in Hs).
  pose proof (priority_batches_finish unicode_digit parse_rfc3339 io name sources logs oldest min Hmin
    Hrun Hnd Hsteady index (dm_index st') Hforgot (Hing Hne) s) as Hdone.
  pose proof (batched_elem parse_rfc3339 io sources min s (steady_sizes _ _ _ Hsteady)) as Helem.
  destruct (priority_source_batches _ _ _ _) as [bs sk]. cbn [fst] in Hdone.
  destruct Hdone as [[Hc _] Hholds]; [apply Helem; split; [done|by exists file]|].
  split; [done|]. eexists. split_and!.
  - cbn [si_files source_state]. apply list_elem_of_omap. exists s. split; [done|].
    by apply (file_state_finished parse_rfc3339 io logs s file _ _ Hf Hc).
  - done.
  - done.
  - done.
Qed.

(** ** Failures *)

Section failures.
Context `{Json} `{SearchIndex} `{StateCodec} `{Searcher} `{SourceFilesLaws}.
Context (unicode_digit : bytes -> bool) (parse_rfc3339 : string -> option Z) (io : SourceIo).
(** The file of the states can be written. *)
Context (Hwrite : ev_write_states (io_registry io) = Ok tt).

Definition loads (d : SourceDisk) : Prop :=
  exists file, load_index_state_file d = Ok file /\ bwf (st_sources file).

Definition recorded (name : string) (status : SourceIndexStatus) (error : option string)
    (st : Daemon) : Prop :=
  loads (dm_disk st) /\
  exists state, index_state name (dm_disk st) = Ok (Some state) /\
    si_status state = status /\ si_error state = error.

Lemma record_records name sources retention cutoff status error st :
  loads (dm_disk st) ->
  exists st', record_source_state parse_rfc3339 io name sources retention cutoff status error st
    = (Ok tt, st') /\ recorded name status error st'.
Proof.
  intros (file & Hload & Hwf). unfold record_source_state, set_index_state, save_index_state_file.
  rewrite Hload, Hwrite. eexists. split; [reflexivity|]. unfold recorded, loads, index_state, load_index_state_file.
  cbn [dm_disk dk_states]. rewrite states_roundtrip by (cbn; auto with bmap). cbn. split.
  - eexists. split; [done|]. cbn. auto with bmap.
  - eexists. by rewrite bget_binsert_eq.
Qed.

(** What only changes the index leaves the record. *)
Lemma on_index_recorded {A} (m : LogM (Response := LogViewResponse) A) name status error :
  hoare (recorded name status error) (on_index m) (fun _ => recorded name status error)
    (recorded name status error).
Proof. intros st Hst. unfold on_index. by destruct (m (dm_index st)) as [[a|e| |] index]. Qed.

Lemma record_hoare name sources retention cutoff status error status' error' E :
  hoare (recorded name status error)
    (record_source_state parse_rfc3339 io name sources retention cutoff status' error')
    (fun _ => recorded name status' error') E.
Proof.
  intros st [Hl _]. by destruct (record_records name sources retention cutoff status' error' st Hl)
    as (st' & -> & Hst').
Qed.

Lemma replace_hoare name sources retention min :
  hoare (fun st => loads (dm_disk st))
    (replace_source_index unicode_digit parse_rfc3339 io name sources retention min)
    (fun _ => recorded name Current None) (recorded name Indexing None).
Proof.
  unfold replace_source_index. eapply hoare_bind with (R := fun _ => recorded name Indexing None).
  { intros st Hl. by destruct (record_records name sources retention min Indexing None st Hl)
      as (st' & -> & Hst'). }
  intros _. eapply hoare_bind; [apply on_index_recorded|]. intros u.
  apply (hoare_bind _ _ _ (fun _ => recorded name Indexing None)).
  - destruct sources; [by apply (hoare_ret (fun _ => recorded name Indexing None))|apply on_index_recorded].
  - intros _. apply record_hoare.
Qed.

Lemma backfill_hoare b :
  hoare (fun st => loads (dm_disk st)) (backfill unicode_digit parse_rfc3339 io b)
    (fun _ => recorded (bf_name b) Current None) (recorded (bf_name b) Indexing None).
Proof.
  unfold backfill. eapply hoare_bind with (R := fun _ => recorded (bf_name b) Indexing None).
  { intros st Hl. by destruct (record_records (bf_name b) (bf_sources b) (bf_retention_seconds b)
      (bf_min_ts_nanos b) Indexing None st Hl) as (st' & E & Hst'); unfold record_backfill; rewrite E. }
  intros u. apply (hoare_bind _ _ _ (fun _ => recorded (bf_name b) Indexing None)); [|intros _; apply record_hoare].
  intros st Hst. unfold when_outdated, reading. destruct (sources_are_current _ _ _); [done|].
  revert st Hst. change (hoare (recorded (bf_name b) Indexing None)
    (_ ← mret tt; _ ← on_index (ingest_sources_in_priority_batches unicode_digit parse_rfc3339 io
       (bf_sources b) (bf_min_ts_nanos b)); warm_source parse_rfc3339 (bf_name b))
    (fun _ => recorded (bf_name b) Indexing None) (recorded (bf_name b) Indexing None)).
  apply (hoare_bind _ _ _ (fun _ => recorded (bf_name b) Indexing None));
    [by apply (hoare_ret (fun _ => recorded (bf_name b) Indexing None))|].
  intros _. eapply hoare_bind; [apply on_index_recorded|]. by intros _ st.
Qed.
End failures.

(** C40: what is recorded when the indexing fails.  The task behind the requests records
    a source as current, or in error with the message; the indexing that a request waits
    for records it as current too, but when it fails it leaves the source in the state
    of being indexed, without an error. *)
Theorem failed_indexing_recorded `{Json} `{SearchIndex} `{StateCodec} `{Searcher} `{SourceFilesLaws}
    (unicode_digit : bytes -> bool) (parse_rfc3339 : string -> option Z) (io : SourceIo)
    (join_error : string) (b : Backfill) (st : Daemon) :
  ev_write_states (io_registry io) = Ok tt -> loads (dm_disk st) ->
  let task := backfill_task unicode_digit parse_rfc3339 io join_error b st in
  let replaced := replace_source_index unicode_digit parse_rfc3339 io (bf_name b) (bf_sources b)
    (bf_retention_seconds b) (bf_min_ts_nanos b) st in
  match (backfill unicode_digit parse_rfc3339 io b st).1 with
  | Ok _ => recorded (bf_name b) Current None task.2
  | Err err => task.1 = Ok tt /\ recorded (bf_name b) SourceError (Some err) task.2
  | Panic => task.1 = Ok tt /\ recorded (bf_name b) SourceError (Some join_error) task.2
  | OutOfFuel => True
  end /\
  match replaced.1 with
  | Ok _ => recorded (bf_name b) Current None replaced.2
  | _ => recorded (bf_name b) Indexing None replaced.2
  end.
Proof.
  intros Hw Hl task replaced. split.
  - unfold task, backfill_task. pose proof (backfill_hoare unicode_digit parse_rfc3339 io Hw b st Hl) as Hb.
    destruct (backfill _ _ io b st) as [[u|err| |] st1]; cbn [fst]; [done| | |done].
    all: unfold ignoring, record_backfill.
    + destruct (record_records parse_rfc3339 io Hw (bf_name b) (bf_sources b) (bf_retention_seconds b)
        (bf_min_ts_nanos b) SourceError (Some err) st1) as (st2 & -> & Hst2); [apply Hb|done].
    + destruct (record_records parse_rfc3339 io Hw (bf_name b) (bf_sources b) (bf_retention_seconds b)
        (bf_min_ts_nanos b) SourceError (Some join_error) st1) as (st2 & -> & Hst2); [apply Hb|done].
  - unfold replaced. pose proof (replace_hoare unicode_digit parse_rfc3339 io Hw (bf_name b) (bf_sources b)
      (bf_retention_seconds b) (bf_min_ts_nanos b) st Hl) as Hr.
    by destruct (replace_source_index _ _ io _ _ _ _ st) as [[u|err| |] st1].
Qed.

(** ** Concrete sources *)

#[local] Existing Instance list_index.
#[local] Existing Instance list_index_laws.
#[local] Existing Instance tree_codec.
#[local] Existing Instance tree_codec_laws.
#[local] Existing Instance concrete_json.
#[local] Existing Instance sorted_search.
#[local] Existing Instance concrete_source_files.
#[local] Existing Instance concrete_source_laws.

Definition line (text : string) : bytes := to_bytes text ++ [newline].

(** Files with these contents. *)
Definition files_io (text : string -> bytes) (save : outcome unit) : SourceIo :=
  let env := mkEnv (fun p => text_file (text p)) (fun _ => Ok tt) (fun _ => save) in
  mkSourceIo env (fun _ => env) (fun _ => Some 5%Z) (fun p => Ok (Z.of_nat (length (text p)), text p))
    (SourcesInv.sample_env (Ok tt) 1).

Definition contents (path : string) : bytes :=
  if bool_decide (path = "/a.log") then line "one" ++ line "two" ++ to_bytes "thr"
  else if bool_decide (path = "/b.log") then line "other" else [].

Definition two_files : list LogSource :=
  [mkSource "source:app" "a" "/a.log"; mkSource "source:app" "b" "/b.log";
   mkSource "source:app" "c" "/c.log"].

(** Another log was indexed under the name of the source. *)
Definition old_daemon : Daemon :=
  mkDaemon (ingest_sources_after (fun _ => false) (fun _ => None)
              (LogIngest.sample_env (line "old") (Ok tt)) two_files None no_documents).2
    (mkSourceRegistry [] None []) (mkSourceDisk None None).

Definition replaced (save : outcome unit) : outcome unit * Daemon :=
  replace_source_index (fun _ => false) (fun _ => None) (files_io contents save) "app" two_files 100
    (Some 0%Z) old_daemon.

Definition indexed_lines (st : LogIndex (Response := LogViewResponse)) : list string :=
  map pd_raw (committed (lx_writer st)).

Lemma ran_Ok {S A} (p : outcome A * S) a : p.1 = Ok a -> p = (Ok a, p.2).
Proof. by destruct p as [o s]; intros [= ->]. Qed.

Lemma files_steady text save sources :
  (forall s, s ∈ sources -> readable (text (ls_path s))) ->
  steady (files_io text save) sources (fun path => text path).
Proof. intros Hr. split; intros; [done|apply text_file_serves|by apply Hr]. Qed.

Lemma priority_batches_spec_witness :
  sizes_fit (files_io contents (Ok tt)) two_files /\
  priority_source_batches (fun _ => None) (files_io contents (Ok tt)) two_files (Some 0%Z)
    = ([take 2 two_files], drop 2 two_files) /\
  Forall (good_batch (files_io contents (Ok tt))) [take 2 two_files].
Proof.
  assert (sizes_fit (files_io contents (Ok tt)) two_files) as Hs.
  { intros s len _. intros [= <-]. split; [lia|]. unfold contents, u64_max. repeat case_bool_decide; simpl; lia. }
  pose proof (priority_batches_spec (fun _ => None) (files_io contents (Ok tt)) two_files (Some 0%Z) Hs) as Hp.
  assert (priority_source_batches (fun _ => None) (files_io contents (Ok tt)) two_files (Some 0%Z)
    = ([take 2 two_files], drop 2 two_files)) as E by (vm_compute; reflexivity).
  rewrite E in Hp. split; [exact Hs|]. split; [exact E|]. by destruct Hp as (_ & _ & _ & _ & Hg & _).
Defined.

Lemma reindexed_source_witness :
  indexed_lines (dm_index old_daemon) = ["old"; "old"; "old"] /\
  indexed_lines (dm_index (replaced (Ok tt)).2) = ["other"; "two"; "one"] /\
  exists state, index_state "app" (dm_disk (replaced (Ok tt)).2) = Ok (Some state) /\
    si_status state = Current /\
    holds (fun _ => false) (fun _ => None) 0 contents (mkSource "source:app" "a" "/a.log")
      (dm_index (replaced (Ok tt)).2).
Proof.
  split; [vm_compute; reflexivity|]. split; [vm_compute; reflexivity|].
  destruct (reindexed_source (fun _ => false) (fun _ => None) (files_io contents (Ok tt)) "app" two_files
    contents 0 100 (Some 0%Z) old_daemon (replaced (Ok tt)).2) as (state & Hs & Hc & _ & Hf).
  - by intros m [= <-].
  - apply Forall_forall. by repeat constructor.
  - apply (bool_decide_unpack (NoDup (ls_service <$> two_files))). vm_compute. exact I.
  - apply files_steady. intros s _. unfold contents. repeat case_bool_decide; split; vm_compute; done.
  - intros file Hf. cbn in Hf. injection Hf as <-. constructor.
  - unfold replaced. apply ran_Ok. vm_compute. reflexivity.
  - exists state. split; [exact Hs|]. split; [exact Hc|].
    eapply (proj1 (Hf (mkSource "source:app" "a" "/a.log") _ ltac:(left) eq_refl eq_refl)).
Defined.

(** The writing of the cursors fails: the request is told, and the record stays. *)
Lemma failed_indexing_recorded_witness :
  (replaced (Err "disk full")).1 = Err "disk full" /\
  recorded "app" Indexing None (replaced (Err "disk full")).2 /\
  recorded "app" SourceError (Some "disk full")
    (backfill_task (fun _ => false) (fun _ => None) (files_io contents (Err "disk full")) "panicked"
       (mkBackfill "app" two_files 100 (Some 0%Z)) old_daemon).2.
Proof.
  pose proof (failed_indexing_recorded (fun _ => false) (fun _ => None)
    (files_io contents (Err "disk full")) "panicked" (mkBackfill "app" two_files 100 (Some 0%Z)) old_daemon
    eq_refl) as Hf.
  destruct Hf as [Htask Hreplaced].
  { exists state_file_default. split; [reflexivity|constructor]. }
  assert ((replaced (Err "disk full")).1 = Err "disk full") as E by (vm_compute; reflexivity).
  split; [exact E|]. split.
  - unfold replaced in E. cbn [bf_name bf_sources bf_retention_seconds bf_min_ts_nanos] in Hreplaced.
    rewrite E in Hreplaced. exact Hreplaced.
  - assert ((backfill (fun _ => false) (fun _ => None) (files_io contents (Err "disk full"))
      (mkBackfill "app" two_files 100 (Some 0%Z)) old_daemon).1 = Err "disk full") as Eb
      by (vm_compute; reflexivity).
    rewrite Eb in Htask. exact (proj2 Htask).
Defined.

(** Three files of which two get one name. *)
Definition colliding : list LogSource :=
  map (fun r => mkSource (source_run_id "app") (rv_service r) (rv_path r))
    (resolved_paths_to_log_sources "app" ["/x/app.log"; "/y/app.log"; "/z/app-2.log"]).

Definition colliding_contents (path : string) : bytes :=
  if bool_decide (path = "/y/app.log") then line "y1" ++ line "y2"
  else if bool_decide (path = "/z/app-2.log") then line "z1" else [].

(** One more request for the source. *)
Definition requested (st : LogIndex (Response := LogViewResponse)) : LogIndex (Response := LogViewResponse) :=
  (ingest_sources_after (fun _ => false) (fun _ => None)
     (io_log (files_io colliding_contents (Ok tt))) colliding None st).2.

(** Files whose names are numbered alike are one to the index.  Of [/y/app.log] and
    [/z/app-2.log] both are called [app-2]; all their lines are indexed at first, and
    two requests later, while no file changes, the lines of the longer one are gone. *)
Theorem colliding_names_lose_lines :
  map ls_service colliding = ["app"; "app-2"; "app-2"] /\
  let run := replace_source_index (fun _ => false) (fun _ => None)
    (files_io colliding_contents (Ok tt)) "app" colliding 100 None
    (mkDaemon no_documents (mkSourceRegistry [] None []) (mkSourceDisk None None)) in
  run.1 = Ok tt /\ indexed_lines (dm_index run.2) = ["z1"; "y2"; "y1"] /\
  indexed_lines (requested (requested (dm_index run.2))) = ["z1"].
Proof. split; [reflexivity|]. cbv zeta. split_and!; vm_compute; reflexivity. Qed.
