(* ===== verification/Readiness.v ===== *)
(** * Waiting for a service

    Models [src/services/readiness/coordinator.rs], [probes.rs] and
    [port_ownership.rs]: the loop that waits until a service is ready, its probes, and
    the tables of the system that tell which processes listen on a port.

    The loop sees the world through the answers to its calls, one record for each of
    its turns.  That a call is answered is an assumption: the deadline is looked at
    between the calls only. *)

From S2P Require Import Prelude Bytes BMap Util Json Logfmt ConfigModel RunModel Systemd Launch.
From Stdlib Require Import Lia ZArith.

(** ** Probes *)

(** What the probes of one turn find: whether a connection is accepted, the status of
    an HTTP answer, the log, whether the command succeeds, the state of the unit.  Their
    errors are as [{}] prints them, which is how the loop reports them. *)
Record Probes := mkProbes {
  pr_connects : Z -> bool;
  pr_http : Z -> string -> outcome Z;
  pr_log : outcome string;
  pr_command : string -> outcome bool;
  pr_unit : outcome (option UnitStatus);
}.

Section readiness.
(** [Regex::new] and [is_match] of the third-party crate. *)
Context (regex : string -> outcome (string -> bool)).
(** Whether the context has a service manager. *)
Context (has_systemd : bool).
Implicit Types (ctx : ReadinessContext).

Definition is_success_status (code min max : Z) : bool := (min <=? code)%Z && (code <=? max)%Z.

Definition tcp_ready (probes : Probes) (port : Z) : bool := pr_connects probes port.

Definition http_ready (probes : Probes) (port : Z) (path : string) (min max : Z) : outcome bool :=
  status ← pr_http probes port path; Ok (is_success_status status min max).

Definition log_regex_ready (probes : Probes) (pattern : string) : outcome bool :=
  match pr_log probes with
  | Ok content => matches ← in_context "compile log regex" (regex pattern); Ok (matches content)
  | _ => Ok false
  end.

Definition cmd_ready (probes : Probes) (command : string) : outcome bool :=
  in_context "run readiness command" (pr_command probes command).

Definition exit_ready_once (ctx : ReadinessContext) (unit_status : outcome (option UnitStatus))
    : outcome bool :=
  if negb has_systemd then Err "exit readiness requires systemd" else
  match rc_unit_name ctx with
  | None => Err "exit readiness requires unit name"
  | Some _ =>
      status ← unit_status;
      match status with
      | None => Ok false
      | Some status =>
          if bool_decide (us_active_state status = "failed")
          then Err ("service failed (result=" +:+ default "unknown" (us_result status) +:+ ")")
          else if bool_decide (us_active_state status = "active")
                  && bool_decide (us_sub_state status = "exited")
                  && (bool_decide (us_result status = Some "success")
                      || bool_decide (us_result status = None))
          then Ok true
          else if bool_decide (us_active_state status = "inactive") then
            if bool_decide (us_result status = Some "success") then Ok true
            else if (bool_decide (us_sub_state status = "exited")
                     || bool_decide (us_sub_state status = "dead"))
                    && bool_decide (us_result status = None)
            then Ok true
            else match us_result status with
                 | Some result => Err ("service exited (result=" +:+ result +:+ ")")
                 | None => Ok false
                 end
          else Ok false
      end
  end.

Definition check_ready_once (spec : ReadinessSpec) (ctx : ReadinessContext) (probes : Probes)
    : outcome bool :=
  match rs_kind spec with
  | Tcp =>
      match rc_port ctx with
      | Some port => Ok (tcp_ready probes port)
      | None => Err "TCP readiness check requires port"
      end
  | Http path expect_min expect_max =>
      match rc_port ctx with
      | Some port => http_ready probes port path expect_min expect_max
      | None => Err "HTTP readiness check requires port"
      end
  | LogRegex pattern => log_regex_ready probes pattern
  | Cmd command => cmd_ready probes command
  | Exit => exit_ready_once ctx (pr_unit probes)
  | Delay _ => Ok false
  | NoReadiness => Ok true
  end.

Definition readiness_process_failure (ctx : ReadinessContext)
    (unit_status : outcome (option UnitStatus)) : outcome (option string) :=
  if negb has_systemd then Ok None else
  match rc_unit_name ctx with
  | None => Ok None
  | Some _ =>
      status ← unit_status;
      match status with
      | None => Ok None
      | Some status =>
          if bool_decide (us_active_state status = "failed") then
            Ok (Some ("service exited before readiness (active_state=failed, sub_state="
                      +:+ us_sub_state status +:+ ", result="
                      +:+ default "unknown" (us_result status) +:+ ")"))
          else if bool_decide (us_active_state status = "inactive") then
            if bool_decide (us_result status = Some "success") then Ok None
            else match us_result status with
                 | Some result =>
                     Ok (Some ("service exited before readiness (active_state=inactive, sub_state="
                               +:+ us_sub_state status +:+ ", result=" +:+ result +:+ ")"))
                 | None => Ok None
                 end
          else Ok None
      end
  end.

(** ** The loops *)

(** The answers of one turn, and the time that has passed when the deadline is looked
    at, in milliseconds. *)
Record Turn := mkTurn {
  tn_before : outcome (option UnitStatus);
  tn_probes : Probes;
  tn_after : outcome (option UnitStatus);
  tn_elapsed : Z;
}.

Definition timed_out {A} (last_err : option string) : outcome A :=
  match last_err with
  | Some err => Err ("readiness timed out: " +:+ err)
  | None => Err "readiness timed out"
  end.

Definition keep_error (checked : outcome bool) (last_err : option string) : option string :=
  match checked with Err err => Some err | _ => last_err end.

(** A probe that fails has not passed. *)
Definition tolerated (checked : outcome bool) : outcome bool :=
  match checked with Err _ => Ok false | o => o end.

(** Without more turns the loop still waits. *)
Fixpoint wait_loop (spec : ReadinessSpec) (ctx : ReadinessContext) (last_err : option string)
    (turns : list Turn) : outcome unit :=
  match turns with
  | [] => OutOfFuel
  | turn :: turns =>
      failure ← readiness_process_failure ctx (tn_before turn);
      match failure with
      | Some reason => Err reason
      | None =>
          let checked := check_ready_once spec ctx (tn_probes turn) in
          passed ← tolerated checked;
          if passed : bool then Ok tt else
          let last_err := keep_error checked last_err in
          failure ← readiness_process_failure ctx (tn_after turn);
          match failure with
          | Some reason => Err reason
          | None =>
              if (rs_timeout_ms spec <=? tn_elapsed turn)%Z then timed_out last_err
              else wait_loop spec ctx last_err turns
          end
      end
  end.

Definition wait_for_delay (duration timeout : Z) : outcome unit :=
  if (timeout <? duration)%Z then timed_out None else Ok tt.

Fixpoint exit_loop (ctx : ReadinessContext) (timeout : Z) (last_err : option string)
    (turns : list Turn) : outcome unit :=
  match turns with
  | [] => OutOfFuel
  | turn :: turns =>
      let checked := exit_ready_once ctx (pr_unit (tn_probes turn)) in
      passed ← tolerated checked;
      if passed : bool then Ok tt else
      let last_err := keep_error checked last_err in
      if (timeout <=? tn_elapsed turn)%Z then timed_out last_err
      else exit_loop ctx timeout last_err turns
  end.

(** A log that cannot be read does not match. *)
Definition log_matches (matches : string -> bool) (turn : Turn) : bool :=
  match pr_log (tn_probes turn) with Ok content => matches content | _ => false end.

Fixpoint log_loop (matches : string -> bool) (timeout : Z) (turns : list Turn) : outcome unit :=
  match turns with
  | [] => OutOfFuel
  | turn :: turns =>
      if log_matches matches turn then Ok tt
      else if (timeout <=? tn_elapsed turn)%Z then timed_out None
      else log_loop matches timeout turns
  end.

Definition wait_for_exit_success (ctx : ReadinessContext) (timeout : Z) (turns : list Turn)
    : outcome unit := exit_loop ctx timeout None turns.

Definition wait_for_log_regex (pattern : string) (timeout : Z) (turns : list Turn) : outcome unit :=
  matches ← with_context "compile regex" (regex pattern); log_loop matches timeout turns.

Definition wait_for_ready (spec : ReadinessSpec) (ctx : ReadinessContext) (turns : list Turn)
    : outcome unit :=
  match rs_kind spec with
  | Delay duration => wait_for_delay duration (rs_timeout_ms spec)
  | Exit => wait_for_exit_success ctx (rs_timeout_ms spec) turns
  | LogRegex pattern => wait_for_log_regex pattern (rs_timeout_ms spec) turns
  | _ => wait_loop spec ctx None turns
  end.

(** ** What the loops do *)

(** The probe of a turn passes. *)
Definition passes (spec : ReadinessSpec) (ctx : ReadinessContext) (turn : Turn) : bool :=
  match rs_kind spec with
  | LogRegex pattern =>
      match regex pattern with Ok matches => log_matches matches turn | _ => false end
  | _ => bool_decide (check_ready_once spec ctx (tn_probes turn) = Ok true)
  end.

(** The process has not failed, as far as the loop for this kind of probe looks. *)
Definition alive (spec : ReadinessSpec) (ctx : ReadinessContext)
    (unit_status : outcome (option UnitStatus)) : bool :=
  match rs_kind spec with
  | LogRegex _ | Exit => true
  | _ => bool_decide (readiness_process_failure ctx unit_status = Ok None)
  end.

(** A turn after which the loop goes on. *)
Definition goes_on (spec : ReadinessSpec) (ctx : ReadinessContext) (turn : Turn) : Prop :=
  alive spec ctx (tn_before turn) = true /\ passes spec ctx turn = false /\
  alive spec ctx (tn_after turn) = true /\ (tn_elapsed turn < rs_timeout_ms spec)%Z.

(** Every call was answered. *)
Record answered (turn : Turn) : Prop := {
  an_before : returns (tn_before turn);
  an_after : returns (tn_after turn);
  an_unit : returns (pr_unit (tn_probes turn));
  an_http port path : returns (pr_http (tn_probes turn) port path);
  an_command command : returns (pr_command (tn_probes turn) command);
}.

Context (Hregex : forall pattern, returns (regex pattern)).

Lemma exit_ready_returns ctx status : returns status -> returns (exit_ready_once ctx status).
Proof.
  intros Hs. unfold exit_ready_once. destruct (negb has_systemd); [done|].
  destruct (rc_unit_name ctx); [|done]. destruct status as [[status|]|e| |]; try done. simpl.
  by repeat case_match.
Qed.

Lemma process_failure_returns ctx status :
  returns status -> returns (readiness_process_failure ctx status).
Proof.
  intros Hs. unfold readiness_process_failure. destruct (negb has_systemd); [done|].
  destruct (rc_unit_name ctx); [|done]. destruct status as [[status|]|e| |]; try done. simpl.
  by repeat case_match.
Qed.

Lemma check_returns spec ctx turn :
  answered turn -> returns (check_ready_once spec ctx (tn_probes turn)).
Proof.
  intros [_ _ Hu Hh Hc]. unfold check_ready_once.
  destruct (rs_kind spec) as [|path min max|pattern|command|duration| |]; try done.
  - by destruct (rc_port ctx).
  - destruct (rc_port ctx) as [port|]; [|done]. unfold http_ready.
    specialize (Hh port path). by destruct (pr_http _ _ _).
  - unfold log_regex_ready. specialize (Hregex pattern). destruct (pr_log _); try done.
    by destruct (regex pattern).
  - unfold cmd_ready. specialize (Hc command). by destruct (pr_command _ _).
  - by apply exit_ready_returns.
Qed.

(** ** Loops over turns *)

(** What every loop does with its first turn. *)
Definition loop_step (spec : ReadinessSpec) (ctx : ReadinessContext)
    (loop : option string -> list Turn -> outcome unit) : Prop :=
  forall last turn turns, answered turn ->
    (alive spec ctx (tn_before turn) = true /\ passes spec ctx turn = true /\
     loop last (turn :: turns) = Ok tt) \/
    (goes_on spec ctx turn /\ exists last', loop last (turn :: turns) = loop last' turns) \/
    (~ goes_on spec ctx turn /\
     ~ (alive spec ctx (tn_before turn) = true /\ passes spec ctx turn = true) /\
     exists e, loop last (turn :: turns) = Err e).

(** The turn that ends the wait. *)
Definition ready_turn (spec : ReadinessSpec) (ctx : ReadinessContext) (turns : list Turn) : Prop :=
  exists before turn rest, turns = before ++ turn :: rest /\
    Forall (goes_on spec ctx) before /\
    alive spec ctx (tn_before turn) = true /\ passes spec ctx turn = true.

Lemma goes_on_not_passes spec ctx turn :
  goes_on spec ctx turn -> passes spec ctx turn = true -> False.
Proof. intros (_ & Hp & _) Hp'. congruence. Qed.

Lemma ready_turn_cons spec ctx turn turns :
  ready_turn spec ctx (turn :: turns) <->
  (alive spec ctx (tn_before turn) = true /\ passes spec ctx turn = true) \/
  (goes_on spec ctx turn /\ ready_turn spec ctx turns).
Proof.
  split.
  - intros ([|t before] & turn' & rest & Heq & Hgo & Ha & Hp); simplify_eq/=; [by left|].
    inversion_clear Hgo. right. split; [done|]. by exists before, turn', rest.
  - intros [[Ha Hp]|[Hgo (before & turn' & rest & -> & Hall & Ha & Hp)]].
    + by exists [], turn, turns.
    + exists (turn :: before), turn', rest. split; [done|]. split; [by constructor|done].
Qed.

Lemma loop_ready spec ctx loop turns :
  loop_step spec ctx loop -> (forall last, loop last [] = OutOfFuel) ->
  Forall answered turns ->
  forall last, loop last turns = Ok tt <-> ready_turn spec ctx turns.
Proof.
  intros Hstep Hnil. induction turns as [|turn turns IH]; intros Hans last.
  - rewrite Hnil. split; [done|]. intros ([] & turn & rest & Heq & _); simplify_eq/=.
  - inversion_clear Hans as [|? ? Hturn Hturns]. rewrite ready_turn_cons.
    destruct (Hstep last turn turns Hturn)
      as [(Ha & Hp & ->)|[[Hgo [last' ->]]|(Hgo & Hn & e & ->)]].
    + split; [by left|done].
    + rewrite (IH Hturns last'). split; [by right|]. intros [[_ Hp]|[_ Hr]]; [|done].
      by destruct (goes_on_not_passes _ _ _ Hgo Hp).
    + split; [done|]. intros [Hr|[Hg _]]; [by destruct (Hn Hr)|by destruct (Hgo Hg)].
Qed.

Lemma loop_ends spec ctx loop turns :
  loop_step spec ctx loop -> Forall answered turns ->
  Exists (fun turn => (rs_timeout_ms spec <= tn_elapsed turn)%Z) turns ->
  forall last, returns (loop last turns).
Proof.
  intros Hstep. induction turns as [|turn turns IH]; intros Hans Hex last.
  - inversion Hex.
  - inversion_clear Hans as [|? ? Hturn Hturns].
    destruct (Hstep last turn turns Hturn)
      as [(Ha & Hp & ->)|[[Hgo [last' ->]]|(Hgo & Hn & e & ->)]]; [done| |done].
    apply IH; [done|]. apply Exists_cons in Hex as [Hle|Hex]; [|done].
    destruct Hgo as (_ & _ & _ & Hlt). lia.
Qed.

Definition polled (kind : ReadinessKind) : bool :=
  match kind with Delay _ | Exit | LogRegex _ => false | _ => true end.

(** The loop ends with an error, or takes its next turn. *)
Ltac stops :=
  right; right; rewrite ?bool_decide_eq_true, ?bool_decide_eq_false; unfold timed_out;
  repeat split; try (intros Hx; destruct_and? Hx; (discriminate || lia));
  repeat case_match; by eauto.

Ltac continues :=
  right; left; rewrite ?bool_decide_eq_true, ?bool_decide_eq_false; by eauto 10.

Lemma wait_loop_step spec ctx : polled (rs_kind spec) = true -> loop_step spec ctx (wait_loop spec ctx).
Proof.
  intros Hk last turn turns Hans.
  assert (Halive : forall status,
    alive spec ctx status = bool_decide (readiness_process_failure ctx status = Ok None))
    by (intros; unfold alive; by destruct (rs_kind spec)).
  assert (Hpasses : passes spec ctx turn
    = bool_decide (check_ready_once spec ctx (tn_probes turn) = Ok true))
    by (unfold passes; by destruct (rs_kind spec)).
  unfold goes_on. rewrite !Halive, Hpasses. clear Halive Hpasses. simpl.
  pose proof (process_failure_returns ctx _ (an_before _ Hans)) as Hb.
  pose proof (process_failure_returns ctx _ (an_after _ Hans)) as Ha.
  pose proof (check_returns spec ctx _ Hans) as Hc.
  destruct (readiness_process_failure ctx (tn_before turn)) as [[reason|]|e| |]; try done; simpl;
    [stops| |stops].
  destruct (check_ready_once spec ctx (tn_probes turn)) as [[]|e| |]; try done; simpl;
    [left; rewrite ?bool_decide_eq_true; by eauto| |];
    (destruct (readiness_process_failure ctx (tn_after turn)) as [[reason|]|e'| |]; try done; simpl;
      [stops| |stops];
    destruct (Z.leb_spec (rs_timeout_ms spec) (tn_elapsed turn)); [stops|continues]).
Qed.

Lemma exit_loop_step spec ctx :
  rs_kind spec = Exit -> loop_step spec ctx (exit_loop ctx (rs_timeout_ms spec)).
Proof.
  intros Hk last turn turns Hans. unfold goes_on, alive, passes, check_ready_once. rewrite Hk. simpl.
  pose proof (exit_ready_returns ctx _ (an_unit _ Hans)) as Hc.
  destruct (exit_ready_once ctx (pr_unit (tn_probes turn))) as [[]|e| |]; try done; simpl;
    [left; rewrite ?bool_decide_eq_true; by eauto| |];
    (destruct (Z.leb_spec (rs_timeout_ms spec) (tn_elapsed turn)); [stops|continues]).
Qed.

Lemma log_loop_step spec ctx pattern matches :
  rs_kind spec = LogRegex pattern -> regex pattern = Ok matches ->
  loop_step spec ctx (fun _ => log_loop matches (rs_timeout_ms spec)).
Proof.
  intros Hk Hm last turn turns Hans. unfold goes_on, alive, passes. rewrite Hk, Hm. simpl.
  destruct (log_matches matches turn); [by left|right].
  destruct (Z.leb_spec (rs_timeout_ms spec) (tn_elapsed turn)).
  - right. split; [intros (_ & _ & _ & ?); lia|]. split; [by intros [_ ?]|]. by eexists.
  - left. split; [by repeat split|]. by exists None.
Qed.

Lemma bad_regex_not_ready spec ctx pattern turns :
  rs_kind spec = LogRegex pattern -> (forall matches, regex pattern <> Ok matches) ->
  ~ ready_turn spec ctx turns.
Proof.
  intros Hk Hm (before & turn & rest & _ & _ & _ & Hp). unfold passes in Hp. rewrite Hk in Hp.
  by destruct (regex pattern) as [matches| | |]; [destruct (Hm matches)|..].
Qed.

(** *** What is looked for *)

(** A unit that ended without success. *)
Definition unit_failed (status : UnitStatus) : Prop :=
  us_active_state status = "failed" \/
  us_active_state status = "inactive" /\ exists result, us_result status = Some result /\ result <> "success".

(** A unit that ended well. *)
Definition unit_ended_well (status : UnitStatus) : Prop :=
  us_active_state status = "active" /\ us_sub_state status = "exited" /\
    (us_result status = Some "success" \/ us_result status = None) \/
  us_active_state status = "inactive" /\
    (us_result status = Some "success" \/
     us_result status = None /\ (us_sub_state status = "exited" \/ us_sub_state status = "dead")).

(** The probe of a turn finds the service ready, by the kind of the probe. *)
Inductive found_ready (spec : ReadinessSpec) (ctx : ReadinessContext) (turn : Turn) : Prop :=
  | found_open port : rs_kind spec = Tcp -> rc_port ctx = Some port ->
      pr_connects (tn_probes turn) port = true -> found_ready spec ctx turn
  | found_status path min max port status : rs_kind spec = Http path min max -> rc_port ctx = Some port ->
      pr_http (tn_probes turn) port path = Ok status -> (min <= status <= max)%Z -> found_ready spec ctx turn
  | found_line pattern matches content : rs_kind spec = LogRegex pattern -> regex pattern = Ok matches ->
      pr_log (tn_probes turn) = Ok content -> matches content = true -> found_ready spec ctx turn
  | found_success command : rs_kind spec = Cmd command ->
      pr_command (tn_probes turn) command = Ok true -> found_ready spec ctx turn
  | found_ended unit status : rs_kind spec = Exit -> has_systemd = true -> rc_unit_name ctx = Some unit ->
      pr_unit (tn_probes turn) = Ok (Some status) -> unit_ended_well status -> found_ready spec ctx turn
  | found_anyway : rs_kind spec = NoReadiness -> found_ready spec ctx turn.

(** The loops that wait for a port, an answer or a command look at the process before and
    after each probe; those that wait for a line of the log or for the end do not. *)
Definition looks_at_process (kind : ReadinessKind) : Prop :=
  match kind with Tcp | Http _ _ _ | Cmd _ | NoReadiness => True | _ => False end.

(** A look at the process that was answered and does not find that it failed. *)
Definition found_alive (ctx : ReadinessContext) (unit_status : outcome (option UnitStatus)) : Prop :=
  has_systemd = true -> is_Some (rc_unit_name ctx) ->
  exists status, unit_status = Ok status /\ forall st, status = Some st -> ~ unit_failed st.

Definition looked_alive (spec : ReadinessSpec) (ctx : ReadinessContext) (unit_status : outcome (option UnitStatus)) : Prop :=
  looks_at_process (rs_kind spec) -> found_alive ctx unit_status.

Lemma failure_spec ctx unit_status :
  readiness_process_failure ctx unit_status = Ok None <-> found_alive ctx unit_status.
Proof.
  unfold readiness_process_failure, found_alive, unit_failed. destruct has_systemd; simpl; [|by split].
  destruct (rc_unit_name ctx) as [unit|]; [|by split; [intros _ _ []|]].
  destruct unit_status as [[[active sub result]|]|e| |]; simpl.
  2:{ split; [|done]. intros _ _ _. exists None. by split. }
  2-4: by split; [|intros Hfa; destruct (Hfa eq_refl ltac:(by eexists)) as (? & ? & _)].
  repeat case_bool_decide; subst; split; try done.
  - intros Hfa. destruct (Hfa eq_refl ltac:(by eexists)) as (? & [= <-] & Hf). by destruct (Hf _ eq_refl); left.
  - intros _ _ _. eexists. split; [done|]. intros st [= <-]. simpl. intros [?|(_ & r & [= <-] & ?)]; done.
  - destruct result; intros; [done|]. eexists. split; [done|]. intros st [= <-]. simpl.
    intros [?|(_ & r & ? & _)]; done.
  - intros Hfa. destruct result as [r|]; [|done]. destruct (Hfa eq_refl ltac:(by eexists)) as (? & [= <-] & Hf).
    destruct (Hf _ eq_refl). right. split; [done|]. exists r. split; [done|]. congruence.
  - intros _ _ _. eexists. split; [done|]. intros st [= <-]. simpl. by intros [?|(? & _)].
Qed.

Lemma exit_spec ctx unit_status :
  exit_ready_once ctx unit_status = Ok true <->
  has_systemd = true /\ is_Some (rc_unit_name ctx) /\
    exists status, unit_status = Ok (Some status) /\ unit_ended_well status.
Proof.
  unfold exit_ready_once, unit_ended_well. destruct has_systemd; simpl; [|by split; [|intros [? _]]].
  destruct (rc_unit_name ctx) as [unit|]; [|by split; [|intros (_ & [] & _)]].
  destruct unit_status as [[[active sub result]|]|e| |]; simpl; try (by split; [|intros (_ & _ & ? & ? & _)]).
  split.
  - intros Hr. split; [done|]. split; [by eexists|]. eexists. split; [done|]. simpl.
    repeat case_bool_decide; subst; simpl in *; try done; try (destruct result); naive_solver.
  - intros (_ & _ & st & [= <-] & Hw). simpl in Hw.
    destruct Hw as [(-> & -> & [-> | ->])|(-> & [-> |(-> & [-> | ->])])]; done.
Qed.

Lemma passes_spec spec ctx turn : passes spec ctx turn = true <-> found_ready spec ctx turn.
Proof.
  unfold passes, check_ready_once. destruct (rs_kind spec) as [|path min max|pattern|command|duration| |] eqn:Hk.
  - rewrite bool_decide_eq_true. destruct (rc_port ctx) as [port|] eqn:Hp; unfold tcp_ready.
    + split; [intros [= ?]; by eapply found_open|intros []; congruence].
    + split; [done|intros []; congruence].
  - rewrite bool_decide_eq_true. destruct (rc_port ctx) as [port|] eqn:Hp; [|split; [done|intros []; congruence]].
    unfold http_ready, is_success_status. split.
    + destruct (pr_http (tn_probes turn) port path) as [status|e| |] eqn:Hh; try done. intros [= Hs].
      apply andb_true_iff in Hs as [Hmin%Z.leb_le Hmax%Z.leb_le].
      by apply (found_status _ _ _ path min max port status).
    + intros []; try congruence. replace port0 with port in * by congruence.
      replace path0 with path in * by congruence. match goal with H : pr_http _ _ _ = _ |- _ => rewrite H end.
      rewrite Hk in *. simplify_eq. simpl. f_equal. apply andb_true_iff. rewrite !Z.leb_le. lia.
  - unfold log_matches. split.
    + destruct (regex pattern) as [matches| | |] eqn:Hm; try done.
      destruct (pr_log (tn_probes turn)) as [content| | |] eqn:Hl; try done. intros Hc. by eapply found_line.
    + intros []; try congruence. rewrite Hk in *. simplify_eq.
      repeat match goal with H : _ = Ok _ |- _ => rewrite H end. done.
  - rewrite bool_decide_eq_true. unfold cmd_ready. split.
    + destruct (pr_command (tn_probes turn) command) as [[]|e| |] eqn:Hc; try done. intros _. by eapply found_success.
    + intros []; try congruence. rewrite Hk in *. simplify_eq. by match goal with H : _ = Ok true |- _ => rewrite H end.
  - rewrite bool_decide_eq_true. split; [done|intros []; congruence].
  - rewrite bool_decide_eq_true, exit_spec. split.
    + intros (? & [unit ?] & status & ? & ?). by eapply found_ended.
    + intros []; try congruence. split; [done|]. split; [by eexists|]. by eexists.
  - rewrite bool_decide_eq_true. split; [by constructor|done].
Qed.

Lemma alive_spec spec ctx unit_status :
  (forall duration, rs_kind spec <> Delay duration) ->
  alive spec ctx unit_status = true <-> looked_alive spec ctx unit_status.
Proof.
  unfold alive, looked_alive. intros Hd.
  destruct (rs_kind spec); rewrite ?bool_decide_eq_true, ?failure_spec; simpl; try naive_solver.
Qed.

(** A turn at which the wait goes on: in time, the process alive, the service not ready. *)
Definition keeps_waiting (spec : ReadinessSpec) (ctx : ReadinessContext) (turn : Turn) : Prop :=
  looked_alive spec ctx (tn_before turn) /\ ~ found_ready spec ctx turn /\
  looked_alive spec ctx (tn_after turn) /\ (tn_elapsed turn < rs_timeout_ms spec)%Z.


Lemma wait_returns spec ctx turns :
  Forall answered turns ->
  Exists (fun turn => (rs_timeout_ms spec <= tn_elapsed turn)%Z) turns ->
  returns (wait_for_ready spec ctx turns).
Proof.
  intros Hans Hex. unfold wait_for_ready.
  destruct (rs_kind spec) as [|path min max|pattern|command|duration| |] eqn:Hk;
    try by (apply (loop_ends spec ctx); [apply wait_loop_step; by rewrite Hk|..]).
  - unfold wait_for_log_regex. specialize (Hregex pattern).
    destruct (regex pattern) as [matches|e| |] eqn:Hm; try done; simpl.
    by apply (loop_ends spec ctx (fun _ => log_loop matches (rs_timeout_ms spec)));
      [eapply log_loop_step|..|exact None].
  - unfold wait_for_delay. by case_match.
  - by apply (loop_ends spec ctx); [apply exit_loop_step|..].
Qed.

(** C37: When every call of the loop is answered and each turn comes 100 ms after the one
    before at the earliest, waiting for a service ends within one turn more than its timeout
    has tenths of a second, a part of one counted as one: at the latest with the first turn at
    which the deadline is reached. *)
Theorem wait_for_ready_ends spec ctx turns :
  (0 <= rs_timeout_ms spec)%Z -> Forall answered turns ->
  (forall i turn, turns !! i = Some turn -> (100 * Z.of_nat i <= tn_elapsed turn)%Z) ->
  ((rs_timeout_ms spec + 99) / 100 + 1 <= Z.of_nat (length turns))%Z ->
  returns (wait_for_ready spec ctx turns).
Proof.
  intros Ht Hans Hel Hlen. apply wait_returns; [done|]. apply Exists_exists.
  pose proof (Z.div_pos (rs_timeout_ms spec + 99) 100 ltac:(lia) eq_refl).
  destruct (lookup_lt_is_Some_2 turns (Z.to_nat ((rs_timeout_ms spec + 99) / 100))) as [turn Hturn];
    [lia|].
  exists turn. split; [by eapply list_elem_of_lookup_2|]. apply Hel in Hturn.
  pose proof (Z.div_mod (rs_timeout_ms spec + 99) 100 ltac:(done)).
  pose proof (Z.mod_pos_bound (rs_timeout_ms spec + 99) 100 eq_refl).
  lia.
Qed.
End readiness.

(** ** A concrete wait *)

(** A port that takes connections from the third turn on, 100 ms apart. *)
Definition example_turn (i : nat) : Turn :=
  let unit_status := Ok (Some (mkUnitStatus "active" "running" None)) in
  mkTurn unit_status
    (mkProbes (fun port => bool_decide (2 <= i)) (fun _ _ => Err "refused") (Ok "starting")
      (fun _ => Ok false) unit_status)
    unit_status (100 * Z.of_nat i).

Lemma example_turns_answered turns : Forall answered (example_turn <$> turns).
Proof. apply Forall_fmap, Forall_true. by split. Qed.

Definition example_spec : ReadinessSpec := mkReadinessSpec Tcp 1000.
Definition example_ctx : ReadinessContext :=
  mkReadinessContext (Some 8080%Z) "http" "api.log" "." [] (Some "devstack-run-api.service").

Definition example_regex (pattern : string) : outcome (string -> bool) :=
  Ok (String.eqb pattern).


Lemma wait_for_ready_ends_witness :
  returns (wait_for_ready example_regex true example_spec example_ctx (example_turn <$> seq 0 11)).
Proof.
  apply (wait_for_ready_ends example_regex true ltac:(done)); [done|apply example_turns_answered| |done].
  intros i turn Hi. apply list_lookup_fmap_Some in Hi as (j & -> & Hj).
  apply lookup_seq in Hj as [-> _]. simpl. lia.
Defined.
