(* ===== verification/PortOwners.v ===== *)
(** * Who listens on a port

    Models [src/services/readiness/port_ownership.rs] on Linux: the table that [ss]
    prints, the socket tables of the kernel with the descriptors of the processes, and
    the control group of a unit.  The world gives the texts of the files and of the
    commands; a text that cannot be had is [None]. *)

From stdpp Require Import gmap pretty.
From S2P Require Import Prelude Bytes BMap Util Launch.
From Stdlib Require Import Lia ZArith.

(** ** Words and numbers *)

(** [str::split_whitespace]: the words between white space, [word] the one begun. *)
Definition push_word (word : bytes) (rest : list bytes) : list bytes :=
  match word with [] => rest | _ => word :: rest end.

Fixpoint split_words (word s : bytes) : list bytes :=
  match s with
  | [] => push_word word []
  | a :: s1 =>
      if ws1 a then push_word word (split_words [] s1) else
      match s1 with
      | [] => push_word (word ++ [a]) []
      | b :: s2 =>
          if ws2 a b then push_word word (split_words [] s2) else
          match s2 with
          | [] => split_words (word ++ [a]) s1
          | c :: s3 =>
              if ws3 a b c then push_word word (split_words [] s3)
              else split_words (word ++ [a]) s1
          end
      end
  end.

Definition split_whitespace (s : bytes) : list bytes := split_words [] s.

Definition digit10 (c : ascii) : option Z :=
  if is_ascii_digit c then Some (digit_value c) else None.

Definition digit16 (c : ascii) : option Z :=
  if is_ascii_digit c then Some (digit_value c)
  else if byte_in 65 70 c then Some (Z.of_nat (nat_of_ascii c) - 55)%Z
  else if byte_in 97 102 c then Some (Z.of_nat (nat_of_ascii c) - 87)%Z
  else None.

Section radix.
Context (digit : ascii -> option Z) (radix max : Z).

Fixpoint radix_digits (acc : Z) (s : bytes) : option Z :=
  match s with
  | [] => Some acc
  | c :: s =>
      match digit c with
      | Some d =>
          let acc := (acc * radix + d)%Z in
          if (acc <=? max)%Z then radix_digits acc s else None
      | None => None
      end
  end.

(** [from_str_radix] of an unsigned type: a sign is allowed, no digits are not. *)
Definition from_str_radix (s : bytes) : option Z :=
  match s with
  | [] | ["+"%char] => None
  | "+"%char :: digits => radix_digits 0 digits
  | _ => radix_digits 0 s
  end.
End radix.

Definition parse_u32 : bytes -> option Z := from_str_radix digit10 10 u32_max.
Definition parse_u64 : bytes -> option Z := from_str_radix digit10 10 u64_max.

(** ** The world *)

(** The socket tables, the processes with the targets of their descriptors, the control
    groups, and what [ss] prints for a port and [systemctl] for a unit. *)
Record ProcWorld := mkProcWorld {
  pw_read : string -> option string;
  pw_entries : option (list string);
  pw_fds : Z -> option (list (option string));
  pw_ss : Z -> option string;
  pw_show : string -> option string;
}.

Record PortBindingInfo := mkPortBindingInfo {
  pb_probe_supported : bool;
  pb_has_listener : bool;
  pb_listening_pids : list Z;
  pb_owned_by_unit : option bool;
}.

Implicit Types (w : ProcWorld) (port : Z).

(** ** The output of [ss] *)

Definition part_pid (part : bytes) : option Z :=
  pid_part ← strip_prefix (to_bytes "pid=") part; parse_u32 pid_part.

Definition line_pids (line : string) : list Z :=
  match last (split_whitespace (to_bytes line)) with
  | Some process_info =>
      if contains_sub "pid=" (of_bytes process_info)
      then omap part_pid (split_on "," process_info)
      else []
  | None => []
  end.

Definition parse_ss_output_for_pids (output : string) : bool * list Z :=
  let lines := List.filter (fun line => negb (is_empty (trim (to_bytes line))))
    (skipn 1 (str_lines output)) in
  (negb (bool_decide (lines = [])), lines ≫= line_pids).

(** ** The tables of the kernel *)

Definition line_inode port (line : string) : option Z :=
  let fields := split_whitespace (to_bytes line) in
  if (length fields <? 10) then None else
  local_address ← fields !! 1;
  state ← fields !! 3;
  if negb (bool_decide (state = to_bytes "0A")) then None else
  match find_byte (Ascii.eqb ":") local_address with
  | Some i =>
      parsed_port ← from_str_radix digit16 16 u16_max (drop (S i) local_address);
      if (parsed_port =? port)%Z then inode ← fields !! 9; parse_u64 inode else None
  | None => None
  end.

Definition linux_collect_inodes_from_proc_net w (path : string) port (into : gset Z) : gset Z :=
  match pw_read w path with
  | Some content => list_to_set (omap (line_inode port) (skipn 1 (str_lines content))) ∪ into
  | None => into
  end.

Definition linux_listen_inodes_for_port w port : gset Z :=
  linux_collect_inodes_from_proc_net w "/proc/net/tcp6" port
    (linux_collect_inodes_from_proc_net w "/proc/net/tcp" port ∅).

(** The inode of the socket a descriptor names. *)
Definition target_inode (target : string) : option Z :=
  let target := to_bytes target in
  match strip_prefix (to_bytes "socket:[") target with
  | Some _ =>
      if bool_decide (last target = Some "]"%char)
      then parse_u64 (take (length target - 1 - 8) (drop 8 target))
      else None
  | None => None
  end.

Definition holds_inode (inodes : gset Z) (fd : option string) : bool :=
  match fd ≫= target_inode with Some inode => bool_decide (inode ∈ inodes) | None => false end.

Definition entry_pid w (inodes : gset Z) (name : string) : option Z :=
  pid ← parse_u32 (to_bytes name);
  fds ← pw_fds w pid;
  if existsb (holds_inode inodes) fds then Some pid else None.

Definition linux_pids_for_inodes w (inodes : gset Z) : list Z :=
  omap (entry_pid w inodes) (default [] (pw_entries w)).

(** ** Control groups *)

Definition control_group_of_line (line : string) : option string :=
  cgroup ← strip_prefix (to_bytes "ControlGroup=") (to_bytes line);
  if is_empty cgroup then None else Some (of_bytes cgroup).

Definition linux_unit_control_group w (unit_name : string) : option string :=
  stdout ← pw_show w unit_name; head (omap control_group_of_line (str_lines stdout)).

Definition cgroup_content_mentions_unit (content unit_name : string) : bool :=
  contains_sub unit_name content.

(** [splitn] *)
Fixpoint splitn (n : nat) (sep : ascii) (s : bytes) : list bytes :=
  match n with
  | O => []
  | S O => [s]
  | S n =>
      match find_byte (Ascii.eqb sep) s with
      | Some i => take i s :: splitn n sep (drop (S i) s)
      | None => [s]
      end
  end.

Definition cgroup_path_from_line (line : string) : option string :=
  let parts := splitn 3 ":" (to_bytes line) in
  if length parts =? 3 then of_bytes <$> parts !! 2 else None.

Definition cgroup_content_has_path (content target : string) : bool :=
  existsb (fun line => bool_decide (cgroup_path_from_line line = Some target)) (str_lines content).

Definition pid_in_unit_cgroup w (unit_name : string) (control_group : option string) (pid : Z)
    : bool :=
  match pw_read w ("/proc/" +:+ show pid +:+ "/cgroup") with
  | None => false
  | Some content =>
      if cgroup_content_mentions_unit content unit_name then true
      else match control_group with
           | Some target_path => cgroup_content_has_path content target_path
           | None => false
           end
  end.

(** ** Bindings *)

Definition owned_by w (unit_name : option string) (pids : list Z) : option bool :=
  unit_name ← unit_name;
  let control_group := linux_unit_control_group w unit_name in
  Some (existsb (pid_in_unit_cgroup w unit_name control_group) pids).

Definition linux_port_binding_info_from_ss w port : option (bool * list Z) :=
  parse_ss_output_for_pids <$> pw_ss w port.

Definition linux_port_binding_info_impl w port (unit_name : option string) : PortBindingInfo :=
  match linux_port_binding_info_from_ss w port with
  | Some (bound, pids) => mkPortBindingInfo true bound pids (owned_by w unit_name pids)
  | None =>
      let inodes := linux_listen_inodes_for_port w port in
      let bound := negb (bool_decide (inodes = ∅)) in
      let pids := linux_pids_for_inodes w inodes in
      mkPortBindingInfo true bound pids (owned_by w unit_name pids)
  end.

Definition show_pids (pids : list Z) : string := "[" +:+ join ", " (show <$> pids) +:+ "]".

Definition verify_port_binding w port (unit_name : option string) : outcome unit :=
  let info := linux_port_binding_info_impl w port unit_name in
  if negb (pb_has_listener info) then Err ("port " +:+ show port +:+ " is not bound by any process")
  else match unit_name, pb_owned_by_unit info with
       | Some unit_name, Some false =>
           Err ("port " +:+ show port +:+ " is bound but not by unit '" +:+ unit_name
                +:+ "' (bound by PIDs: " +:+ show_pids (pb_listening_pids info) +:+ ")")
       | _, _ => Ok tt
       end.

(** ** What the kernel prints *)

(** A socket of a table of the kernel. *)
Record SocketEntry := mkSocketEntry {
  so_index : string;
  so_address : string;
  so_port : Z;
  so_remote : string;
  so_state : string;
  so_counters : list string;
  so_inode : Z;
  so_rest : list string;
}.

Definition hex_digit (d : Z) : ascii :=
  ascii_of_nat (Z.to_nat (if (d <? 10)%Z then d + 48 else d + 55)).

Definition hex4 (n : Z) : bytes :=
  hex_digit <$> [n / 4096; (n / 256) `mod` 16; (n / 16) `mod` 16; n `mod` 16]%Z.

Definition entry_fields (e : SocketEntry) : list bytes :=
  [to_bytes (so_index e); to_bytes (so_address e) ++ ":"%char :: hex4 (so_port e);
   to_bytes (so_remote e); to_bytes (so_state e)]
  ++ (to_bytes <$> so_counters e) ++ [to_bytes (show (so_inode e))] ++ (to_bytes <$> so_rest e).

(** Fields with spaces before, [pad i] more than one before the field [i], and after. *)
Fixpoint spaced (pad : nat -> nat) (fields : list bytes) : bytes :=
  match fields with
  | [] => repeat " "%char (pad O)
  | f :: fields => repeat " "%char (S (pad O)) ++ f ++ spaced (pad ∘ S) fields
  end.

Definition graphic (c : ascii) : bool := byte_in 33 126 c.
Definition word (s : bytes) : Prop := s <> [] /\ forallb graphic s = true.

Record entry_ok (e : SocketEntry) : Prop := {
  eo_port : in_range 0 u16_max (so_port e);
  eo_inode : in_range 0 u64_max (so_inode e);
  eo_counters : length (so_counters e) = 5;
  eo_address : contains_byte ":" (so_address e) = false;
  eo_words : Forall (word ∘ to_bytes) ([so_index e; so_address e; so_remote e; so_state e]
               ++ so_counters e ++ so_rest e);
}.

Definition table_text (header : string) (pad : nat -> nat) (entries : list SocketEntry) : string :=
  header +:+ "
" +:+ foldr (fun e text => of_bytes (spaced pad (entry_fields e)) +:+ "
" +:+ text) "" entries.

(** What a descriptor of a process names. *)
Inductive Descriptor :=
| OpenSocket (inode : Z)
| OpenOther (target : option string).

Definition descriptor_target (fd : Descriptor) : option string :=
  match fd with
  | OpenSocket inode => Some ("socket:[" +:+ show inode +:+ "]")
  | OpenOther target => target
  end.

Definition descriptor_ok (fd : Descriptor) : Prop :=
  match fd with
  | OpenSocket inode => in_range 0 u64_max inode
  | OpenOther target => target ≫= target_inode = None
  end.

(** The sockets of both families, and the processes with their descriptors as far as
    they may be read. *)
Record System := mkSystem {
  sy_tcp : list SocketEntry;
  sy_tcp6 : list SocketEntry;
  sy_processes : list (Z * option (list Descriptor));
}.

Definition listens (port : Z) (e : SocketEntry) : bool :=
  bool_decide (so_state e = "0A") && (so_port e =? port)%Z.

Definition listeners (port : Z) (sys : System) : list Z :=
  so_inode <$> List.filter (listens port) (sy_tcp sys ++ sy_tcp6 sys).

Definition holds (inodes : list Z) (process : Z * option (list Descriptor)) : bool :=
  match process.2 with
  | Some fds => existsb (fun fd => match fd with
                                   | OpenSocket inode => bool_decide (inode ∈ inodes)
                                   | OpenOther _ => false
                                   end) fds
  | None => false
  end.

(** The files of the world print the system; [ss] is not there. *)
Record prints (w : ProcWorld) (sys : System) : Prop := {
  pr_ss port : pw_ss w port = None;
  pr_tcp : exists header pad, contains_byte "010" header = false /\
    pw_read w "/proc/net/tcp" = Some (table_text header pad (sy_tcp sys));
  pr_tcp6 : exists header pad, contains_byte "010" header = false /\
    pw_read w "/proc/net/tcp6" = Some (table_text header pad (sy_tcp6 sys));
  pr_entries_ok : Forall entry_ok (sy_tcp sys ++ sy_tcp6 sys);
  pr_names : omap (parse_u32 ∘ to_bytes) (default [] (pw_entries w)) = (sy_processes sys).*1;
  pr_processes : Forall (fun process => pw_fds w process.1 = option_map (map descriptor_target) process.2)
    (sy_processes sys);
  pr_descriptors : Forall (fun process => Forall descriptor_ok (default [] process.2))
    (sy_processes sys);
}.

(** ** Numbers *)

Lemma radix_digits_pretty max x s :
  (Z.of_N x <= max)%Z ->
  radix_digits digit10 10 max 0 (to_bytes (pretty_N_go x s))
    = radix_digits digit10 10 max (Z.of_N x) (to_bytes s).
Proof.
  revert s. induction (N.lt_wf_0 x) as [x _ IH]. intros s Hx.
  destruct (decide (0 < x)%N) as [Hpos|Hz].
  - rewrite pretty_N_go_step by done. rewrite IH; [|by apply N.div_lt|].
    2:{ pose proof (N.Div0.div_le_mono x x 10). pose proof (N.Div0.div_le_upper_bound x 10 x). lia. }
    cbn [to_bytes list_ascii_of_string radix_digits].
    assert (digit10 (pretty_N_char (x `mod` 10)) = Some (Z.of_N (x `mod` 10))) as ->.
    { pose proof (N.mod_lt x 10 ltac:(done)) as Hm.
      destruct (x `mod` 10)%N as [|p]; [done|].
      by do 4 (destruct p as [p|p|]; try reflexivity; try lia). }
    pose proof (N.Div0.div_mod x 10).
    replace (Z.of_N (x / 10) * 10 + Z.of_N (x `mod` 10))%Z with (Z.of_N x) by lia.
    by rewrite (proj2 (Z.leb_le _ _)).
  - assert (x = 0)%N as -> by lia. by rewrite pretty_N_go_0.
Qed.

Lemma show_radix max n :
  in_range 0 max n -> radix_digits digit10 10 max 0 (to_bytes (show n)) = Some n.
Proof.
  intros [Hn Hmax]. destruct (decide (n = 0)%Z) as [->|].
  - change (to_bytes (show 0)) with ["0"%char]. cbn [radix_digits].
    change (digit10 "0") with (Some 0%Z). cbv beta iota. by rewrite (proj2 (Z.leb_le _ _)).
  - rewrite show_nat by lia. rewrite radix_digits_pretty by lia. simpl. by rewrite Z2N.id.
Qed.

Lemma show_nonempty n : (0 <= n)%Z -> to_bytes (show n) <> [].
Proof.
  intros Hn He. pose proof (show_radix n n ltac:(split; lia)) as Hr. rewrite He in Hr.
  cbn in Hr. by simplify_eq.
Qed.

Lemma digit_graphic c : is_ascii_digit c = true -> graphic c = true.
Proof.
  unfold is_ascii_digit, graphic, byte_in. rewrite !andb_true_iff, !Nat.leb_le. lia.
Qed.

Lemma show_word n : (0 <= n)%Z -> word (to_bytes (show n)).
Proof.
  intros Hn. split; [by apply show_nonempty|]. apply forallb_forall. intros c Hc.
  apply digit_graphic. by apply (proj1 (forallb_forall _ _) (show_digits n Hn)).
Qed.

(** What [to_string] prints is parsed back. *)
Lemma parse_show max n :
  in_range 0 max n -> from_str_radix digit10 10 max (to_bytes (show n)) = Some n.
Proof.
  intros Hn. pose proof (show_radix max n Hn) as Hr. destruct Hn as [Hn _].
  pose proof (show_digits n Hn) as Hd. pose proof (show_nonempty n Hn) as He.
  destruct (to_bytes (show n)) as [|c s]; [done|]. apply andb_prop in Hd as [Hc _].
  unfold from_str_radix. destruct (decide (c = "+"%char)) as [->|Hne]; [done|].
  destruct c as [[] [] [] [] [] [] [] []]; done.
Qed.

Lemma hex_digit_value d : in_range 0 15 d -> digit16 (hex_digit d) = Some d /\ graphic (hex_digit d) = true.
Proof.
  intros Hd. assert (forall i, i < 16 -> digit16 (hex_digit (Z.of_nat i)) = Some (Z.of_nat i)
    /\ graphic (hex_digit (Z.of_nat i)) = true) as H
    by (intros i Hi; do 16 (destruct i as [|i]; [done|]); lia).
  destruct Hd. specialize (H (Z.to_nat d) ltac:(lia)). by rewrite Z2Nat.id in H.
Qed.

Lemma hex4_digits n : in_range 0 u16_max n ->
  in_range 0 15 (n / 4096) /\ in_range 0 15 ((n / 256) `mod` 16) /\ in_range 0 15 ((n / 16) `mod` 16) /\
  in_range 0 15 (n `mod` 16) /\
  n = (((n / 4096 * 16 + (n / 256) `mod` 16) * 16 + (n / 16) `mod` 16) * 16 + n `mod` 16)%Z.
Proof.
  unfold in_range, u16_max. intros Hn.
  pose proof (Z.div_mod n 16 ltac:(done)). pose proof (Z.div_mod (n / 16) 16 ltac:(done)).
  pose proof (Z.div_mod (n / 256) 16 ltac:(done)).
  rewrite (Z.div_div n 16 16) in * by done. rewrite (Z.div_div n 256 16) in * by done.
  change (16 * 16)%Z with 256%Z in *. change (256 * 16)%Z with 4096%Z in *.
  pose proof (Z.mod_pos_bound n 16 eq_refl). pose proof (Z.mod_pos_bound (n / 16) 16 eq_refl).
  pose proof (Z.mod_pos_bound (n / 256) 16 eq_refl).
  pose proof (Z.div_pos n 4096 ltac:(lia) eq_refl).
  pose proof (Z.div_le_mono n 65535 4096 eq_refl ltac:(lia)).
  change (65535 / 4096)%Z with 15%Z in *. lia.
Qed.

Lemma parse_hex4 n :
  in_range 0 u16_max n -> from_str_radix digit16 16 u16_max (hex4 n) = Some n.
Proof.
  intros Hn. pose proof (hex4_digits n Hn) as (Ha & Hb & Hc & Hd & Heq). destruct Hn as [Hn Hm].
  unfold hex4. cbn [fmap list_fmap].
  destruct (hex_digit_value _ Ha) as [Ea _], (hex_digit_value _ Hb) as [Eb _],
    (hex_digit_value _ Hc) as [Ec _], (hex_digit_value _ Hd) as [Ed _].
  set (a := (n / 4096)%Z) in *. set (b := ((n / 256) `mod` 16)%Z) in *.
  set (c := ((n / 16) `mod` 16)%Z) in *. set (d := (n `mod` 16)%Z) in *.
  assert (radix_digits digit16 16 u16_max 0 [hex_digit a; hex_digit b; hex_digit c; hex_digit d]
    = Some n) as Hr.
  { cbn [radix_digits]. unfold in_range, u16_max in *. rewrite Ea, Eb, Ec, Ed.
    rewrite !(proj2 (Z.leb_le _ _)) by lia. f_equal. lia. }
  unfold from_str_radix. destruct (decide (hex_digit a = "+"%char)) as [E|Hne]; [by rewrite E in Ea|].
  destruct (hex_digit a) as [[] [] [] [] [] [] [] []]; done.
Qed.

(** ** Words and lines *)

Lemma graphic_not_space c : graphic c = true ->
  ws1 c = false /\ (forall b, ws2 c b = false) /\ (forall b d, ws3 c b d = false).
Proof.
  unfold graphic, ws1, ws2, ws3, byte_in. rewrite andb_true_iff, !Nat.leb_le. intros Hc.
  repeat split; intros; repeat match goal with
    | |- context [nat_of_ascii c <=? ?n] => destruct (Nat.leb_spec (nat_of_ascii c) n); try lia
    | |- context [?n <=? nat_of_ascii c] => destruct (Nat.leb_spec n (nat_of_ascii c)); try lia
    end; done.
Qed.

Lemma split_words_graphic (w s rest : bytes) :
  forallb graphic s = true -> split_words w (s ++ rest) = split_words (w ++ s) rest.
Proof.
  revert w. induction s as [|c s IH]; intros w Hs; [by rewrite app_nil_r|].
  apply andb_prop in Hs as [Hc Hs]. destruct (graphic_not_space c Hc) as (H1 & H2 & H3).
  rewrite <- app_comm_cons. cbn [split_words]. rewrite H1.
  assert (split_words (w ++ [c]) (s ++ rest) = split_words (w ++ c :: s) rest) as Heq
    by (rewrite IH by done; by rewrite <- app_assoc).
  destruct (s ++ rest) as [|b s2]; [by rewrite <- Heq|]. rewrite H2.
  destruct s2 as [|d s3]; [done|]. by rewrite H3.
Qed.

Lemma split_words_spaces (w : bytes) n s :
  split_words w (repeat " "%char (S n) ++ s) = push_word w (split_words [] s).
Proof.
  revert w. induction n as [|n IH]; intros w; [done|].
  change (repeat " "%char (S (S n)) ++ s) with (" "%char :: repeat " "%char (S n) ++ s).
  cbn [split_words]. change (ws1 " ") with true. cbv iota. f_equal. apply (IH []).
Qed.

Lemma split_words_spaced (w : bytes) pad fields :
  Forall word fields -> split_words w (spaced pad fields) = push_word w fields.
Proof.
  revert w pad. induction fields as [|f fields IH]; intros w pad Hf; cbn [spaced].
  - destruct (pad O) as [|n]; [done|].
    by rewrite <- (app_nil_r (repeat _ _)), split_words_spaces.
  - inversion_clear Hf as [|? ? [Hne Hg] Hfs].
    rewrite split_words_spaces, split_words_graphic, (IH _ (pad ∘ S)) by done. by destruct f.
Qed.

Lemma split_spaced pad fields :
  Forall word fields -> split_whitespace (spaced pad fields) = fields.
Proof. apply split_words_spaced. Qed.

Lemma spaced_plain pad fields :
  Forall word fields -> forallb (byte_in 32 126) (spaced pad fields) = true.
Proof.
  assert (forall n, forallb (byte_in 32 126) (repeat " "%char n) = true) as Hs
    by (by induction n).
  revert pad. induction fields as [|f fields IH]; intros pad Hf; cbn [spaced]; [apply Hs|].
  inversion_clear Hf as [|? ? [_ Hg] Hfs]. rewrite !forallb_app, Hs, IH by done.
  rewrite andb_true_r. cbn. apply forallb_forall. intros c Hc.
  apply (proj1 (forallb_forall _ _) Hg) in Hc. unfold graphic, byte_in in *.
  rewrite andb_true_iff, !Nat.leb_le in *. lia.
Qed.

(** ** The lines of a table *)

Lemma split_on_piece (sep : ascii) piece rest :
  forallb (fun c => negb (Ascii.eqb c sep)) piece = true ->
  split_on sep (piece ++ sep :: rest) = piece :: split_on sep rest.
Proof.
  induction piece as [|c piece IH]; simpl; [by rewrite Ascii.eqb_refl|].
  intros [Hc Hp]%andb_prop. apply negb_true_iff in Hc. rewrite Hc. by rewrite IH.
Qed.

Lemma strip_cr_plain line :
  forallb (byte_in 32 126) line = true -> strip_cr line = line.
Proof.
  unfold strip_cr. rewrite <- forallb_reverse. destruct (reverse line) as [|c rest] eqn:E; simpl.
  - intros _. by rewrite <- (reverse_involutive line), E.
  - intros [Hc _]%andb_prop. by destruct (Ascii.eqb_spec c "013") as [->|].
Qed.

Lemma split_on_ended (sep : ascii) (pieces : list bytes) :
  Forall (fun piece => forallb (fun c => negb (Ascii.eqb c sep)) piece = true) pieces ->
  split_on sep (foldr (fun piece text => piece ++ sep :: text) [] pieces) = pieces ++ [[]].
Proof.
  induction 1 as [|piece pieces Hp Hps IH]; simpl; [done|]. by rewrite split_on_piece, IH.
Qed.

Lemma plain_no_newline s :
  forallb (byte_in 32 126) s = true -> forallb (fun c => negb (Ascii.eqb c "010")) s = true.
Proof.
  rewrite !forallb_forall. intros Hs c Hc. apply negb_true_iff, Ascii.eqb_neq. intros ->.
  by apply Hs in Hc.
Qed.

(** The lines after the header of a text whose lines all end. *)
Lemma ended_lines (header : string) (pieces : list bytes) text :
  contains_byte "010" header = false ->
  Forall (fun piece => forallb (byte_in 32 126) piece = true) pieces ->
  to_bytes text = to_bytes header ++ "010"%char ::
    foldr (fun piece text => piece ++ "010"%char :: text) [] pieces ->
  skipn 1 (str_lines text) = of_bytes <$> pieces.
Proof.
  intros Hh Hp Ht. unfold str_lines. rewrite Ht, split_on_piece, split_on_ended.
  - rewrite app_comm_cons, reverse_snoc, bool_decide_true by done.
    rewrite reverse_involutive, app_nil_r. simpl. rewrite drop_0. unfold fmap, list_fmap.
    clear -Hp. induction Hp as [|piece pieces H Hps IH]; simpl; [done|].
    by rewrite strip_cr_plain, IH.
  - eapply Forall_impl; [exact Hp|]. apply plain_no_newline.
  - unfold contains_byte in Hh. apply forallb_forall. intros c Hc.
    apply negb_true_iff, Ascii.eqb_neq. intros ->.
    by rewrite (proj2 (existsb_exists _ _) (ex_intro _ _ (conj Hc (Ascii.eqb_refl _)))) in Hh.
Qed.

Lemma entry_fields_words e : entry_ok e -> Forall word (entry_fields e).
Proof.
  intros [Hp Hi Hc Ha Hw]. unfold entry_fields.
  rewrite !Forall_app, !Forall_cons, !Forall_nil in Hw.
  destruct Hw as [(H1 & [H2 H2'] & H3 & H4 & _) [H5 H6]]. unfold compose in *.
  rewrite !Forall_app, !Forall_cons, !Forall_nil, !Forall_fmap. repeat split; try done;
    try (by apply H1 || by apply H3 || by apply H4); try by (apply show_word; destruct Hi).
  - by destruct (to_bytes (so_address e)).
  - rewrite forallb_app, H2'. destruct (hex4_digits _ Hp) as (Ea & Eb & Ec & Ed & _).
    unfold hex4. simpl. by rewrite !(fun d H => proj2 (hex_digit_value d H)) by done.
Qed.

Lemma find_byte_app (p : ascii -> bool) s c rest :
  forallb (fun x => negb (p x)) s = true -> p c = true -> find_byte p (s ++ c :: rest) = Some (length s).
Proof. intros Hs Hc. apply find_byte_Some. by exists s, c, rest. Qed.

Lemma no_byte c s :
  contains_byte c s = false -> forallb (fun x => negb (Ascii.eqb c x)) (to_bytes s) = true.
Proof.
  unfold contains_byte. induction (to_bytes s) as [|x l IH]; simpl; [done|].
  intros [Hx Hl]%orb_false_elim. by rewrite Hx, IH.
Qed.

Lemma drop_app_cons {A} (l : list A) x r : drop (S (length l)) (l ++ x :: r) = r.
Proof. by induction l. Qed.

Lemma line_inode_entry port pad e :
  entry_ok e ->
  line_inode port (of_bytes (spaced pad (entry_fields e)))
    = if listens port e then Some (so_inode e) else None.
Proof.
  intros Hok. unfold line_inode. rewrite to_of_bytes, split_spaced by by apply entry_fields_words.
  destruct Hok as [Hp Hi Hc Ha _]. unfold entry_fields.
  rewrite (proj2 (Nat.ltb_ge _ _))
    by (rewrite !length_app, !length_fmap, Hc; simpl; lia).
  cbn [app lookup list_lookup mbind option_bind]. unfold listens.
  destruct (decide (so_state e = "0A")) as [Hs|Hs].
  2:{ rewrite (bool_decide_false (_ = to_bytes "0A")) by (by intros E%to_bytes_inj).
      by rewrite bool_decide_false. }
  rewrite Hs, !bool_decide_true by done. cbn [negb andb].
  rewrite find_byte_app; [|by apply no_byte|done].
  rewrite drop_app_cons, parse_hex4 by done. cbn [mbind option_bind].
  destruct (Z.eqb_spec (so_port e) port); [|done].
  assert (((to_bytes <$> so_counters e) ++ to_bytes (show (so_inode e)) :: (to_bytes <$> so_rest e))
    !! 5 = Some (to_bytes (show (so_inode e)))) as Hl
    by (apply list_lookup_middle; by rewrite length_fmap).
  etransitivity; [exact (f_equal (fun o => o ≫= parse_u64) Hl)|]. by apply parse_show.
Qed.

(** The inodes a table gives for a port. *)
Lemma collect_inodes w path port header pad entries into :
  contains_byte "010" header = false -> Forall entry_ok entries ->
  pw_read w path = Some (table_text header pad entries) ->
  linux_collect_inodes_from_proc_net w path port into
    = list_to_set (so_inode <$> List.filter (listens port) entries) ∪ into.
Proof.
  intros Hh Hok Hr. unfold linux_collect_inodes_from_proc_net. rewrite Hr. do 2 f_equal.
  rewrite (ended_lines header (spaced pad <$> (entry_fields <$> entries))); [..|].
  - clear Hr. induction Hok as [|e entries He Hes IH]; [done|]. simpl.
    setoid_rewrite (line_inode_entry port pad e He). destruct (listens port e); simpl; [f_equal|]; apply IH.
  - done.
  - rewrite !Forall_fmap. eapply Forall_impl; [exact Hok|]. intros e He.
    by apply spaced_plain, entry_fields_words.
  - unfold table_text. autorewrite with bytes. simpl. do 2 f_equal. clear.
    induction entries as [|e entries IH]; simpl; [done|]. autorewrite with bytes. simpl.
    by rewrite IH.
Qed.

Lemma listen_inodes w sys port :
  prints w sys ->
  forall inode, inode ∈ linux_listen_inodes_for_port w port <-> inode ∈ listeners port sys.
Proof.
  intros Hw inode. destruct Hw as [_ (h4 & p4 & Hh4 & H4) (h6 & p6 & Hh6 & H6) Hok _ _ _].
  apply Forall_app in Hok as [Hok4 Hok6]. unfold linux_listen_inodes_for_port.
  rewrite (collect_inodes _ _ _ _ _ _ _ Hh6 Hok6 H6), (collect_inodes _ _ _ _ _ _ _ Hh4 Hok4 H4).
  unfold listeners. rewrite List.filter_app, fmap_app. set_solver.
Qed.

(** ** The descriptors of the processes *)

Lemma target_inode_socket inode :
  in_range 0 u64_max inode ->
  target_inode ("socket:[" +:+ show inode +:+ "]") = Some inode.
Proof.
  intros Hi. unfold target_inode. autorewrite with bytes.
  set (digits := to_bytes (show inode)).
  rewrite (proj2 (strip_prefix_Some _ _ (digits ++ ["]"%char])) eq_refl).
  assert (last (to_bytes "socket:[" ++ digits ++ to_bytes "]") = Some "]"%char) as ->
    by (rewrite app_assoc; apply last_snoc).
  rewrite bool_decide_true, !length_app by done.
  change (drop 8 (to_bytes "socket:[" ++ digits ++ to_bytes "]")) with (digits ++ to_bytes "]").
  replace (_ - 1 - 8) with (length digits) by (simpl; lia).
  rewrite take_app_length. by apply parse_show.
Qed.

Lemma holds_spec (inodes : gset Z) (held : list Z) fds :
  (forall inode, inode ∈ inodes <-> inode ∈ held) -> Forall descriptor_ok fds ->
  existsb (holds_inode inodes) (map descriptor_target fds)
    = existsb (fun fd => match fd with
                         | OpenSocket inode => bool_decide (inode ∈ held)
                         | OpenOther _ => false
                         end) fds.
Proof.
  intros Hin. induction 1 as [|fd fds Hfd Hfds IH]; simpl; [done|]. rewrite IH. f_equal.
  destruct fd as [inode|target]; unfold holds_inode; simpl in *; [|by rewrite Hfd].
  rewrite target_inode_socket by done. by apply bool_decide_ext.
Qed.

Lemma pids_of_processes w sys (inodes : gset Z) (held : list Z) :
  prints w sys -> (forall inode, inode ∈ inodes <-> inode ∈ held) ->
  linux_pids_for_inodes w inodes = (List.filter (holds held) (sy_processes sys)).*1.
Proof.
  intros [_ _ _ _ Hn Hp Hd] Hin. unfold linux_pids_for_inodes.
  assert (forall names, omap (entry_pid w inodes) names
    = omap (fun pid => fds ← pw_fds w pid; if existsb (holds_inode inodes) fds then Some pid else None)
        (omap (parse_u32 ∘ to_bytes) names)) as ->.
  { induction names as [|name names IH]; [done|]. cbn. unfold entry_pid at 1, compose.
    destruct (parse_u32 (to_bytes name)) as [pid|]; simpl; [|done]. by rewrite IH. }
  rewrite Hn. clear Hn. induction (sy_processes sys) as [|[pid fds] processes IH]; [done|].
  inversion_clear Hp as [|? ? Hfds Hps]. inversion_clear Hd as [|? ? Hok Hoks].
  specialize (IH Hps Hoks). simpl in *. rewrite Hfds. unfold holds at 1. simpl.
  destruct fds as [fds|]; simpl; [|apply IH]. rewrite (holds_spec _ held) by done.
  destruct (existsb _ fds); simpl; [f_equal|]; apply IH.
Qed.

Lemma elem_of_nil_inv_iff {A} (l : list A) : l = [] <-> forall x, x ∉ l.
Proof. split; [by intros -> x; apply not_elem_of_nil|]. apply elem_of_nil_inv. Qed.

(** The listeners that somebody may see. *)
Definition listening_pids (port : Z) (sys : System) : list Z :=
  (List.filter (holds (listeners port sys)) (sy_processes sys)).*1.

(** Without [ss] the answer about a port comes from the tables of the kernel alone: a
    port has a listener exactly when a socket listens on it, its owners are the
    processes with a descriptor of such a socket, in the order of the directory, and the
    check for a unit passes exactly when there is a listener and, if a unit is named, one
    of the owners is in its control group. *)
Theorem port_owners_found w sys port unit_name :
  prints w sys ->
  let info := linux_port_binding_info_impl w port unit_name in
  (pb_has_listener info = true <-> listeners port sys <> []) /\
  pb_listening_pids info = listening_pids port sys /\
  (verify_port_binding w port unit_name = Ok tt <->
   listeners port sys <> [] /\
   forall name, unit_name = Some name ->
     exists pid, pid ∈ listening_pids port sys /\
       pid_in_unit_cgroup w name (linux_unit_control_group w name) pid = true).
Proof.
  intros Hw. pose proof (listen_inodes w sys port Hw) as Hin.
  pose proof (pids_of_processes w sys _ _ Hw Hin) as Hpids.
  assert (linux_listen_inodes_for_port w port = ∅ <-> listeners port sys = []) as Hemp
    by (rewrite elem_of_equiv_empty_L, elem_of_nil_inv_iff; by setoid_rewrite Hin).
  unfold verify_port_binding, linux_port_binding_info_impl, linux_port_binding_info_from_ss.
  rewrite (pr_ss _ _ Hw). cbn [fmap option_fmap option_map pb_has_listener pb_listening_pids pb_owned_by_unit].
  fold (listening_pids port sys) in Hpids. rewrite Hpids.
  destruct (bool_decide_reflect (linux_listen_inodes_for_port w port = ∅)) as [He|He]; rewrite Hemp in He;
    (split; [done|split; [done|]]); [naive_solver|].
  unfold owned_by. destruct unit_name as [name|]; simpl; [|naive_solver].
  destruct (existsb _ _) eqn:Hex; split; try done.
  - intros _. split; [done|]. intros ? [= <-]. apply existsb_exists in Hex as (pid & Hp & Hc).
    exists pid. by rewrite list_elem_of_In.
  - intros [_ Howned]. destruct (Howned _ eq_refl) as (pid & Hp & Hc).
    rewrite (proj2 (existsb_exists _ _)) in Hex; [done|]. exists pid. by rewrite <- list_elem_of_In.
Qed.

(** ** A concrete system *)

Definition example_entry : SocketEntry :=
  mkSocketEntry "0:" "0100007F" 8080 "00000000:0000" "0A"
    ["00000000:00000000"; "00:00000000"; "00000000"; "1000"; "0"] 4242 ["1"; "0000000000000000"].

Definition example_system : System :=
  mkSystem [example_entry] [] [(1, None); (77, Some [OpenOther (Some "/dev/null"); OpenSocket 4242])]%Z.

Definition example_proc : ProcWorld :=
  mkProcWorld
    (fun path =>
       if bool_decide (path = "/proc/net/tcp")
       then Some (table_text "  sl  local_address" (fun i => if i =? 0 then 2 else 0) [example_entry])
       else if bool_decide (path = "/proc/net/tcp6") then Some (table_text "  sl" (fun _ => 0) [])
       else if bool_decide (path = "/proc/77/cgroup") then Some "0::/user.slice/devstack-run-api.service"
       else None)
    (Some ["1"; "77"; "meminfo"])
    (fun pid => if (pid =? 77)%Z then Some [Some "/dev/null"; Some "socket:[4242]"] else None)
    (fun _ => None) (fun _ => None).

Lemma port_owners_found_witness :
  prints example_proc example_system /\
  verify_port_binding example_proc 8080 (Some "devstack-run-api.service") = Ok tt.
Proof.
  assert (prints example_proc example_system) as Hw.
  { split.
    - done.
    - exists "  sl  local_address", (fun i => if i =? 0 then 2 else 0). split; by vm_compute.
    - exists "  sl", (fun _ => 0). split; by vm_compute.
    - apply Forall_singleton. split; [done..|]. repeat constructor; done.
    - by vm_compute.
    - repeat constructor; by vm_compute.
    - repeat constructor; by vm_compute. }
  split; [done|].
  destruct (port_owners_found example_proc example_system 8080
    (Some "devstack-run-api.service") Hw) as (_ & _ & Hv).
  apply Hv. split; [by vm_compute|]. intros name [= <-]. exists 77%Z.
  split; [apply list_elem_of_In; vm_compute; by left|by vm_compute].
Defined.

(** A process whose name has a space hides the process before it in the output of [ss]. *)
Definition quoted (s : string) : string := String "034" s +:+ String "034" "".

Lemma space_hides_owner :
  line_pids ("LISTEN 0 511 *:80 *:* users:((" +:+ quoted "my app" +:+ ",pid=1,fd=6),("
             +:+ quoted "my app" +:+ ",pid=2,fd=6))") = [2%Z].
Proof. by vm_compute. Qed.
