(* ===== verification/Capture.v ===== *)
(** * The requests and answers a capture proxy sees

    Models the functions of [src/services/api_capture.rs] without effects: the headers
    that go through the proxy, which requests are captured, how much of a body is kept,
    and the log entry of an exchange.

    [HeaderMap] of the third-party crate is an interface: what it lists, and how its
    operations change that.  The names of headers are in lower case, as that crate
    keeps them. *)

From S2P Require Import Prelude Bytes Util Json Logfmt.
From Stdlib Require Import Lia ZArith.

(** ** Headers *)

Class HeaderMap := {
  headers : Type;
  hm_new : headers;
  hm_entries : headers -> list (string * bytes);   (** the iterator *)
  hm_append : string -> bytes -> headers -> headers;
  hm_insert : string -> bytes -> headers -> headers;
  hv_to_str : bytes -> option string;              (** [HeaderValue::to_str] *)
  hv_from_str : string -> outcome bytes;           (** [HeaderValue::from_str] *)
}.

Section header_map.
Context `{HeaderMap}.

(** [get_all] *)
Definition hm_get_all (name : string) (hs : headers) : list bytes :=
  (List.filter (fun entry => bool_decide (entry.1 = name)) (hm_entries hs)).*2.

(** [get] *)
Definition hm_get (name : string) (hs : headers) : option bytes := head (hm_get_all name hs).
End header_map.

Class HeaderMapLaws `{HeaderMap} : Prop := {
  get_all_new name : hm_get_all name hm_new = [];
  get_all_append name key value hs :
    hm_get_all name (hm_append key value hs)
      = hm_get_all name hs ++ (if bool_decide (key = name) then [value] else []);
  get_all_insert name key value hs :
    hm_get_all name (hm_insert key value hs)
      = if bool_decide (key = name) then [value] else hm_get_all name hs;
  from_str_visible text :
    forallb (byte_in 32 126) (to_bytes text) = true -> hv_from_str text = Ok (to_bytes text);
}.

Definition MAX_CAPTURE_HEADER_BYTES : nat := 512.

Inductive HeaderForwardMode := Standard | Upgrade.

#[export] Instance HeaderForwardMode_eq_dec : EqDecision HeaderForwardMode.
Proof. solve_decision. Defined.

(** ** Bodies *)

Record CapturedBody := mkCapturedBody {
  cb_total_bytes : Z;
  cb_captured : bytes;
  cb_limit : Z;
}.

Definition CapturedBody_new (limit : Z) : CapturedBody := mkCapturedBody 0 [] limit.

(** [usize::saturating_add] and [saturating_sub] *)
Definition usize_add (a b : Z) : Z := Z.min (a + b) usize_max.
Definition usize_sub (a b : Z) : Z := Z.max (a - b) 0.

Definition append (body : CapturedBody) (chunk : bytes) : CapturedBody :=
  let remaining := usize_sub (cb_limit body) (Z.of_nat (length (cb_captured body))) in
  mkCapturedBody
    (usize_add (cb_total_bytes body) (Z.of_nat (length chunk)))
    (if (0 <? remaining)%Z
     then let to_capture := Z.min remaining (Z.of_nat (length chunk)) in
          cb_captured body ++ take (Z.to_nat to_capture) chunk
     else cb_captured body)
    (cb_limit body).

(** [Utf8Error::valid_up_to] *)
Definition valid_up_to (s : bytes) : nat := length (concat (span fst (utf8_chunks s)).1.*2).

Definition from_utf8 (s : bytes) : option string :=
  if utf8_valid s then Some (of_bytes s) else None.

Definition captured_text (s : bytes) : option string :=
  match from_utf8 s with
  | Some text => Some text
  | None => if (0 <? valid_up_to s)%nat then from_utf8 (take (valid_up_to s) s) else None
  end.

(** [str::is_char_boundary] *)
Definition is_char_boundary (s : bytes) (i : nat) : bool :=
  (i =? 0)%nat || match s !! i with
                  | Some b => negb (is_continuation b)
                  | None => (i =? length s)%nat
                  end.

Fixpoint boundary_down (s : bytes) (stop : nat) : nat :=
  match stop with
  | O => O
  | S n => if is_char_boundary s stop then stop else boundary_down s n
  end.

Definition trim_to_char_boundary (text : string) (max_bytes : nat) : string :=
  let s := to_bytes text in
  if (length s <=? max_bytes)%nat then text else of_bytes (take (boundary_down s max_bytes) s).

Definition truncate_chars (value : string) (max_bytes : nat) : string :=
  if (String.length value <=? max_bytes)%nat then value
  else trim_to_char_boundary value max_bytes +:+ "...".

(** ** Requests *)

Record Request `{HeaderMap} := mkRequest {
  rq_method : string;
  rq_version : string;
  rq_uri : string;
  rq_headers : headers;
}.

Record Response `{HeaderMap} := mkResponse { rp_status : Z; rp_headers : headers }.

Section capture.
Context `{HM : HeaderMap} `{J : Json}.
(** [StatusCode::is_server_error] and [is_client_error]; the parser of URIs, by what it
    prints. *)
Context (is_server_error is_client_error : Z -> bool) (parse_uri : string -> outcome string).
Implicit Types (hs : headers).

Definition is_hop_by_hop (name : string) : bool :=
  bool_decide (name ∈ ["connection"; "keep-alive"; "proxy-authenticate"; "proxy-authorization";
                       "te"; "trailer"; "transfer-encoding"; "upgrade"]).

Definition copy_forward_headers (from to : headers) (mode : HeaderForwardMode) : headers :=
  foldl (fun to entry =>
           if bool_decide (mode = Standard) && is_hop_by_hop entry.1 then to
           else hm_append entry.1 entry.2 to) to (hm_entries from).

(** A generated host that is no header value would be a panic. *)
Definition public_host (inbound : headers) (public_port : Z) : outcome bytes :=
  match hm_get "host" inbound with
  | Some host => Ok host
  | None => unwrap (ok (hv_from_str ("127.0.0.1:" +:+ show public_port)))
  end.

Definition apply_forwarded_request_context (inbound outbound : headers) (public_port : Z)
    : outcome headers :=
  public_host ← public_host inbound public_port;
  let outbound := hm_insert "host" public_host outbound in
  let outbound := hm_insert "x-forwarded-host" public_host outbound in
  let outbound := hm_insert "x-forwarded-proto" (to_bytes "http") outbound in
  port ← hv_from_str (show public_port);
  Ok (hm_insert "x-forwarded-port" port outbound).

Definition build_upstream_request (method version path_and_query : string) hs
    (public_port target_port : Z) (mode : HeaderForwardMode) : outcome Request :=
  uri ← in_context "build upstream URI"
    (parse_uri ("http://127.0.0.1:" +:+ show target_port +:+ path_and_query));
  let outbound_headers := copy_forward_headers hs hm_new mode in
  outbound_headers ← apply_forwarded_request_context hs outbound_headers public_port;
  Ok (mkRequest _ method version uri outbound_headers).

Definition response_with_body (status : Z) hs (mode : HeaderForwardMode) : Response :=
  mkResponse _ status (copy_forward_headers hs hm_new mode).

Definition header_contains_token hs (name token : string) : bool :=
  existsb (fun value =>
    match hv_to_str value with
    | Some value =>
        existsb (fun part => eq_ignore_ascii_case (trim part) (to_bytes token))
          (split_on "," (to_bytes value))
    | None => false
    end) (hm_get_all name hs).

Definition is_upgrade_request hs : bool :=
  header_contains_token hs "connection" "upgrade"
  && match hm_get "upgrade" hs ≫= hv_to_str with
     | Some value => str_eq_ignore_case value "websocket"
     | None => false
     end.

(** ** Which requests are captured *)

Definition pattern_ignores (path pattern : string) : bool :=
  let pattern := trim (to_bytes pattern) in
  if is_empty pattern then false
  else if bool_decide (last pattern = Some "*"%char)
  then starts_with (of_bytes (take (length pattern - 1) pattern)) path
  else bool_decide (of_bytes pattern = path).

Definition should_ignore_path (patterns : list string) (path : string) : bool :=
  existsb (pattern_ignores path) patterns.

Definition header_to_str hs (name : string) : option string := hm_get name hs ≫= hv_to_str.

Definition header_eq_ignore_ascii_case hs (name expected : string) : bool :=
  match header_to_str hs name with
  | Some value => str_eq_ignore_case value expected
  | None => false
  end.

Definition accepts_html_document hs : bool :=
  match header_to_str hs "accept" with
  | Some value =>
      let value := str_to_ascii_lowercase value in
      contains_sub "text/html" value && negb (contains_sub "application/json" value)
  | None => false
  end.

Definition is_browser_non_xhr_request (method : string) hs : bool :=
  if header_eq_ignore_ascii_case hs "x-requested-with" "XMLHttpRequest" then false else
  match header_to_str hs "sec-fetch-dest" with
  | Some dest =>
      let dest := trim (to_bytes dest) in
      negb (is_empty dest) && negb (eq_ignore_ascii_case dest (to_bytes "empty"))
  | None => bool_decide (method = "GET") && accepts_html_document hs
  end.

Definition should_capture_request (patterns : list string) (method path : string) hs : bool :=
  negb (should_ignore_path patterns path) && negb (is_browser_non_xhr_request method hs).

(** ** The log entry *)

Definition is_sensitive_header (name : string) : bool :=
  bool_decide (name ∈ ["authorization"; "cookie"; "set-cookie"; "proxy-authorization"]).

Definition header_value_to_string (value : bytes) : string :=
  truncate_chars (default "<non-utf8>" (hv_to_str value)) MAX_CAPTURE_HEADER_BYTES.

Definition sanitized_headers hs : Value :=
  Object (foldl (fun out entry =>
    let key := str_to_ascii_lowercase entry.1 in
    let value := if is_sensitive_header key then "[redacted]"
                 else header_value_to_string entry.2 in
    map_insert key (String value) out) [] (hm_entries hs)).

Definition body_looks_json hs (text : string) : bool :=
  let content_type_json :=
    match header_to_str hs "content-type" with
    | Some value => contains_sub "json" (str_to_ascii_lowercase value)
    | None => false
    end in
  if content_type_json then true else
  let trimmed := of_bytes (trim_start (to_bytes text)) in
  starts_with "{" trimmed || starts_with "[" trimmed.

Definition body_snapshot hs (body : CapturedBody) : Value :=
  let total_bytes := cb_total_bytes body in
  let captured := cb_captured body in
  let truncated := (Z.of_nat (length captured) <? total_bytes)%Z in
  if (total_bytes =? 0)%Z then Object [("bytes", json_int 0); ("truncated", Bool false)] else
  let out := map_insert "bytes" (json_int total_bytes) [] in
  let out := map_insert "captured_bytes" (json_int (Z.of_nat (length captured))) out in
  let out := map_insert "truncated" (Bool truncated) out in
  if is_empty captured then Object out else
  match captured_text captured with
  | Some text =>
      match (if body_looks_json hs text then from_str text else None) with
      | Some json => Object (map_insert "json" json out)
      | None => Object (map_insert "text" (String text) out)
      end
  | None => Object (map_insert "binary" (Bool true) out)
  end.

Definition capture_entry (method path target : string) (request_headers : headers)
    (request_body : CapturedBody) (status : Z) (response_headers : headers)
    (response_body : CapturedBody) (duration_ms : Z) : Value :=
  Object
    [("level", String (if is_server_error status then "error"
                       else if is_client_error status then "warn" else "info"));
     ("event", String "api_capture");
     ("msg", String (method +:+ " " +:+ target +:+ " -> " +:+ show status +:+ " ("
                     +:+ show duration_ms +:+ " ms)"));
     ("method", String method);
     ("path", String path);
     ("target", String target);
     ("status", json_int status);
     ("duration_ms", json_int duration_ms);
     ("request", Object [("headers", sanitized_headers request_headers);
                         ("body", body_snapshot request_headers request_body)]);
     ("response", Object [("headers", sanitized_headers response_headers);
                          ("body", body_snapshot response_headers response_body)])].
End capture.

(** ** What is kept of a body *)

Lemma append_take limit total seen chunk :
  (0 <= limit)%Z ->
  append (mkCapturedBody total (take (Z.to_nat limit) seen) limit) chunk
    = mkCapturedBody (usize_add total (Z.of_nat (length chunk)))
        (take (Z.to_nat limit) (seen ++ chunk)) limit.
Proof.
  intros Hl. unfold append, usize_sub. cbn [cb_total_bytes cb_captured cb_limit]. f_equal.
  rewrite length_take, take_app. assert (limit = Z.of_nat (Z.to_nat limit)) as Heq by lia.
  revert Heq. generalize (Z.to_nat limit). intros n ->.
  destruct (Z.ltb_spec 0 (Z.max (Z.of_nat n - Z.of_nat (n `min` length seen)) 0)) as [Hr|Hr].
  - f_equal. rewrite Nat.min_r in * by lia.
    destruct (Nat.le_ge_cases (length chunk) (n - length seen)).
    + rewrite !take_ge by lia. done.
    + f_equal. lia.
  - replace (n - length seen) with O by lia. by rewrite take_0, app_nil_r.
Qed.

Lemma appended limit total seen chunks :
  (0 <= limit)%Z ->
  foldl append (mkCapturedBody total (take (Z.to_nat limit) seen) limit) chunks
    = mkCapturedBody (foldl usize_add total (Z.of_nat ∘ length <$> chunks))
        (take (Z.to_nat limit) (seen ++ concat chunks)) limit.
Proof.
  intros Hl. revert total seen. induction chunks as [|chunk chunks IH]; intros total seen.
  - simpl. by rewrite app_nil_r.
  - cbn [foldl concat]. by rewrite append_take, IH, <- app_assoc.
Qed.

Lemma saturating_sum total (lengths : list nat) :
  in_range 0 usize_max total ->
  foldl usize_add total (Z.of_nat <$> lengths)
    = Z.min (total + Z.of_nat (sum_list lengths)) usize_max.
Proof.
  unfold in_range. revert total. induction lengths as [|n l IH]; intros total Ht.
  - simpl. lia.
  - cbn [fmap list_fmap foldl]. rewrite IH; unfold usize_add; [|lia].
    change (sum_list (n :: l)) with (n + sum_list l). lia.
Qed.

(** The captured body after any chunks. *)
Lemma captured_body limit chunks :
  (0 <= limit)%Z ->
  foldl append (CapturedBody_new limit) chunks
    = mkCapturedBody (Z.min (Z.of_nat (length (concat chunks))) usize_max)
        (take (Z.to_nat limit) (concat chunks)) limit.
Proof.
  intros Hl. unfold CapturedBody_new. rewrite <- (take_nil (Z.to_nat limit)) at 1.
  rewrite appended by done. rewrite list_fmap_compose, saturating_sum by done. f_equal.
  rewrite Z.add_0_l. do 2 f_equal. induction chunks as [|c l IH]; simpl; [done|].
  by rewrite length_app, <- IH.
Qed.

(** ** What is not logged *)

Section secrets.
Context `{HM : HeaderMap} `{J : Json} (is_server_error is_client_error : Z -> bool).

(** The headers that carry credentials. *)
Definition credential_headers : list string :=
  ["authorization"; "proxy-authorization"; "cookie"; "set-cookie"].

(** The same headers but for the values of those that carry credentials. *)
Definition same_but_secrets (hs hs' : headers) : Prop :=
  Forall2 (fun e e' => e.1 = e'.1 /\
    (str_to_ascii_lowercase e.1 ∉ credential_headers -> e.2 = e'.2))
    (hm_entries hs) (hm_entries hs').

Lemma credential_sensitive name : name ∈ credential_headers -> is_sensitive_header name = true.
Proof. unfold is_sensitive_header, credential_headers. rewrite bool_decide_eq_true. set_solver. Qed.

Lemma not_sensitive name : is_sensitive_header name = false -> name ∉ credential_headers.
Proof. intros Hns Hin. by rewrite (credential_sensitive name Hin) in Hns. Qed.

Lemma sanitized_same hs hs' :
  same_but_secrets hs hs' -> sanitized_headers hs = sanitized_headers hs'.
Proof.
  unfold sanitized_headers. intros Hs. f_equal. generalize (@nil (string * Value)).
  induction Hs as [|[n v] [n' v'] l l' [Hn Hv] Hl IH]; intros out; simpl in *; [done|].
  subst n'. rewrite <- IH. do 3 f_equal.
  destruct (is_sensitive_header _) eqn:Hs'; [done|]. by rewrite (Hv (not_sensitive _ Hs')).
Qed.

Lemma get_same name hs hs' :
  is_sensitive_header (str_to_ascii_lowercase name) = false ->
  same_but_secrets hs hs' -> hm_get name hs = hm_get name hs'.
Proof.
  intros Hns Hs. unfold hm_get, hm_get_all. f_equal.
  induction Hs as [|[n v] [n' v'] l l' [Hn Hv] Hl IH]; simpl in *; [done|]. subst n'.
  case_bool_decide; simpl; [|done]. subst n. rewrite Hv by by apply not_sensitive. f_equal. apply IH.
Qed.

Lemma snapshot_same hs hs' body :
  same_but_secrets hs hs' -> body_snapshot hs body = body_snapshot hs' body.
Proof.
  intros Hs. unfold body_snapshot, body_looks_json, header_to_str.
  by rewrite (get_same "content-type" hs hs').
Qed.

(** C26: The log entry of an exchange does not depend on the values of the headers that
    carry credentials: two exchanges that differ in nothing else have the same entry. *)
Theorem secrets_not_logged method path target qhs qhs' qbody status rhs rhs' rbody duration :
  same_but_secrets qhs qhs' -> same_but_secrets rhs rhs' ->
  capture_entry is_server_error is_client_error method path target qhs qbody status rhs rbody duration
    = capture_entry is_server_error is_client_error method path target qhs' qbody status rhs' rbody
        duration.
Proof.
  intros Hq Hr. unfold capture_entry.
  by rewrite (sanitized_same _ _ Hq), (sanitized_same _ _ Hr), (snapshot_same _ _ qbody Hq),
    (snapshot_same _ _ rbody Hr).
Qed.
End secrets.

(** ** What goes through *)

Section forward.
Context `{HM : HeaderMap} {HL : HeaderMapLaws} (parse_uri : string -> outcome string).
Implicit Types (hs : headers).

Lemma copied name from to mode :
  hm_get_all name (copy_forward_headers from to mode)
    = hm_get_all name to
      ++ (if bool_decide (mode = Standard) && is_hop_by_hop name then [] else hm_get_all name from).
Proof.
  unfold copy_forward_headers, hm_get_all at 3. revert to.
  induction (hm_entries from) as [|[key value] entries IH]; intros to; simpl.
  - case_match; by rewrite app_nil_r.
  - rewrite IH. destruct (decide (key = name)) as [->|Hne].
    + rewrite (bool_decide_true (name = name)) by done. simpl.
      destruct (bool_decide (mode = Standard) && is_hop_by_hop name); [done|].
      by rewrite get_all_append, bool_decide_true, <- app_assoc.
    + rewrite (bool_decide_false (key = name)) by done.
      destruct (bool_decide (mode = Standard) && is_hop_by_hop key); [done|].
      by rewrite get_all_append, (bool_decide_false (key = name)), app_nil_r.
Qed.

Lemma header_of_port (prefix : string) port :
  forallb (byte_in 32 126) (to_bytes prefix) = true -> (0 <= port)%Z ->
  hv_from_str (prefix +:+ show port) = Ok (to_bytes (prefix +:+ show port)).
Proof.
  intros Hp Hport. apply from_str_visible. rewrite to_bytes_app, forallb_app, Hp. simpl.
  apply forallb_forall. intros c Hc.
  apply (proj1 (forallb_forall _ _) (show_digits port Hport)) in Hc.
  unfold is_ascii_digit, byte_in in *. rewrite andb_true_iff, !Nat.leb_le in *. lia.
Qed.

(** The host the service sees. *)
Definition seen_host hs (public_port : Z) : bytes :=
  default (to_bytes ("127.0.0.1:" +:+ show public_port)) (hm_get "host" hs).

(** Whenever the address of the service can be built, the request to it is, and
    carries every header of the client once for once, except those of the connection
    that the proxy ends itself; the host and the forwarding headers are the proxy's. *)
Theorem request_forwarded method version target hs public_port target_port mode uri :
  (0 <= public_port)%Z ->
  parse_uri ("http://127.0.0.1:" +:+ show target_port +:+ target) = Ok uri ->
  exists rq,
    build_upstream_request parse_uri method version target hs public_port target_port mode = Ok rq /\
    rq_method rq = method /\ rq_version rq = version /\ rq_uri rq = uri /\
    forall name, hm_get_all name (rq_headers rq) =
      if bool_decide (name = "x-forwarded-port") then [to_bytes (show public_port)]
      else if bool_decide (name = "x-forwarded-proto") then [to_bytes "http"]
      else if bool_decide (name ∈ ["host"; "x-forwarded-host"]) then [seen_host hs public_port]
      else if bool_decide (mode = Standard) && is_hop_by_hop name then []
      else hm_get_all name hs.
Proof.
  intros Hport Huri. unfold build_upstream_request. rewrite Huri. simpl.
  unfold apply_forwarded_request_context.
  assert (public_host hs public_port = Ok (seen_host hs public_port)) as ->.
  { unfold public_host, seen_host. destruct (hm_get "host" hs); [done|].
    by rewrite (header_of_port "127.0.0.1:"). }
  simpl. pose proof (header_of_port "" public_port eq_refl Hport) as Hp.
  change ("" +:+ show public_port) with (show public_port) in Hp.
  rewrite Hp. simpl. eexists. split; [done|].
  do 3 (split; [done|]). intros name. cbn [rq_headers].
  rewrite !get_all_insert, copied, get_all_new. simpl.
  rewrite !(bool_decide_ext (name = _) (_ = name)) by done.
  case_bool_decide; [done|]. case_bool_decide; [done|].
  repeat case_bool_decide; subst; try done; set_solver.
Qed.
End forward.

(** ** A concrete map of headers *)

Definition list_insert (key : string) (value : bytes) (l : list (string * bytes)) :=
  List.filter (fun entry => negb (bool_decide (entry.1 = key))) l ++ [(key, value)].

Definition visible (value : bytes) : bool := forallb (byte_in 32 126) value.

Definition list_headers : HeaderMap :=
  {| headers := list (string * bytes);
     hm_new := [];
     hm_entries hs := hs;
     hm_append key value hs := hs ++ [(key, value)];
     hm_insert := list_insert;
     hv_to_str value := if visible value then Some (of_bytes value) else None;
     hv_from_str text := if visible (to_bytes text) then Ok (to_bytes text) else Err "invalid" |}.

Lemma removed key name (l : list (string * bytes)) :
  (List.filter (fun entry => bool_decide (entry.1 = name))
    (List.filter (fun entry => negb (bool_decide (entry.1 = key))) l)).*2
  = if bool_decide (key = name) then []
    else (List.filter (fun entry => bool_decide (entry.1 = name)) l).*2.
Proof.
  induction l as [|[k v] l IH]; simpl; [by case_bool_decide|].
  destruct (decide (k = key)) as [->|Hk].
  - rewrite (bool_decide_true (key = key)) by done. cbn [negb]. rewrite IH.
    by case_bool_decide.
  - rewrite (bool_decide_false (k = key)) by done. simpl. destruct (decide (k = name)) as [->|Hn].
    + rewrite (bool_decide_true (name = name)), fmap_cons, IH, bool_decide_false by done. done.
    + by rewrite !(bool_decide_false (k = name)).
Qed.

Lemma list_headers_laws : @HeaderMapLaws list_headers.
Proof.
  split; unfold hm_get_all; simpl.
  - done.
  - intros name key value hs. rewrite List.filter_app, fmap_app. simpl. by case_bool_decide.
  - intros name key value hs. unfold list_insert. rewrite List.filter_app, fmap_app, removed. simpl.
    case_bool_decide; [done|]. by rewrite app_nil_r.
  - intros text Ht. unfold visible. by rewrite Ht.
Qed.

Definition example_headers (token : string) : @headers list_headers :=
  [("host", to_bytes "localhost:8080"); ("authorization", to_bytes token);
   ("content-type", to_bytes "application/json"); ("connection", to_bytes "keep-alive")].

Lemma secrets_not_logged_witness :
  let entry token := @capture_entry list_headers concrete_json (Z.leb 500) (Z.leb 400) "POST" "/login"
    "/login" (example_headers token) (append (CapturedBody_new 100) (to_bytes "{}")) 200 []
    (CapturedBody_new 100) 3 in
  entry "Bearer 1" = entry "Bearer 2".
Proof.
  apply (@secrets_not_logged list_headers concrete_json); [|by apply Forall2_nil].
  repeat (apply Forall2_cons_2; [split; [done|try done]|]); [|done].
  intros Hn. destruct Hn. by left.
Defined.

Lemma request_forwarded_witness :
  exists rq, @build_upstream_request list_headers Ok "POST" "HTTP/1.1" "/login"
    (example_headers "Bearer 1") 8080 41000 Standard = Ok rq /\
  hm_get_all "authorization" (rq_headers rq) = [to_bytes "Bearer 1"] /\
  hm_get_all "connection" (rq_headers rq) = [].
Proof.
  destruct (@request_forwarded list_headers list_headers_laws Ok "POST" "HTTP/1.1" "/login"
    (example_headers "Bearer 1") 8080 41000 Standard _ ltac:(done) eq_refl)
    as (rq & Hb & _ & _ & _ & Hh).
  exists rq. split; [exact Hb|]. split; rewrite Hh; vm_compute; reflexivity.
Defined.
