(* ===== verification/CaptureProxy.v ===== *)
(** * The capture proxy at work

    Models [src/services/api_capture.rs] where it acts: what the proxy does with a
    request, the two streams of an exchange with the one record it leaves, and the queue
    of the log with the task that writes it.

    The service is a function from the request to its answer; the bodies come and go by
    polls, in any order the other ends choose. *)

From S2P Require Import Prelude Bytes Json Logfmt Capture.
From Stdlib Require Import Lia ZArith.

(** ** The data *)

Record CaptureApiRecord `{HeaderMap} := mkCaptureApiRecord {
  ar_method : string;
  ar_path : string;
  ar_target : string;
  ar_request_headers : headers;
  ar_request_body : CapturedBody;
  ar_status : Z;
  ar_response_headers : headers;
  ar_response_body : CapturedBody;
  ar_duration_ms : Z;
}.

Inductive CaptureLogEvent `{HeaderMap} `{Json} :=
| Entry (entry : Value)
| Api (record : CaptureApiRecord).

Record ApiCaptureState := mkApiCaptureState {
  as_public_port : Z;
  as_target_port : Z;
  as_body_limit : Z;
  as_ignore_paths : list string;
}.

(** What a poll of a body gives. *)
Inductive Poll :=
| Pending
| Chunk (chunk : bytes)
| Failed (err : string)
| Ended.

Record CaptureResponseStream `{HeaderMap} := mkCaptureResponseStream {
  cs_method : string;
  cs_path : string;
  cs_target : string;
  cs_request_headers : headers;
  cs_status : Z;
  cs_response_headers : headers;
  cs_response_body : CapturedBody;
  cs_logged : bool;
}.

(** A captured exchange: the cell the request stream fills, and the response stream. *)
Record Exchange `{HeaderMap} := mkExchange {
  xc_request_body : CapturedBody;
  xc_response : CaptureResponseStream;
}.

Section proxy.
Context `{HM : HeaderMap} `{J : Json}.
Context (is_server_error is_client_error : Z -> bool) (parse_uri : string -> outcome string).
Implicit Types (hs : headers) (st : ApiCaptureState).

(** ** The streams *)

Definition request_poll_next (capture : CapturedBody) (polled : Poll) : CapturedBody :=
  match polled with Chunk chunk => append capture chunk | _ => capture end.

(** [as_millis() as u64] *)
Definition as_u64_millis (elapsed : Z) : Z := elapsed mod 2 ^ 64.

(** The fields the record takes over are left empty. *)
Definition log_once (request_body : CapturedBody) (s : CaptureResponseStream) (elapsed : Z)
    : CaptureResponseStream * list CaptureLogEvent :=
  if cs_logged s then (s, []) else
  let record := mkCaptureApiRecord _ (cs_method s) (cs_path s) (cs_target s) (cs_request_headers s)
    request_body (cs_status s) (cs_response_headers s) (cs_response_body s)
    (as_u64_millis elapsed) in
  (mkCaptureResponseStream _ (cs_method s) "" "" hm_new (cs_status s) hm_new (CapturedBody_new 0) true,
   [Api record]).

Definition append_response (s : CaptureResponseStream) (chunk : bytes) : CaptureResponseStream :=
  mkCaptureResponseStream _ (cs_method s) (cs_path s) (cs_target s) (cs_request_headers s)
    (cs_status s) (cs_response_headers s) (append (cs_response_body s) chunk) (cs_logged s).

Definition response_poll_next (request_body : CapturedBody) (s : CaptureResponseStream) (polled : Poll)
    (elapsed : Z) : CaptureResponseStream * list CaptureLogEvent :=
  match polled with
  | Chunk chunk => (append_response s chunk, [])
  | Failed _ | Ended => log_once request_body s elapsed
  | Pending => (s, [])
  end.

(** What happens to an exchange, with the time since its start. *)
Inductive ExchangeEvent :=
| RequestPolled (polled : Poll)
| ResponsePolled (polled : Poll) (elapsed : Z)
| ResponseDropped (elapsed : Z).

Definition exchange_step (x : Exchange) (event : ExchangeEvent) : Exchange * list CaptureLogEvent :=
  match event with
  | RequestPolled polled =>
      (mkExchange _ (request_poll_next (xc_request_body x) polled) (xc_response x), [])
  | ResponsePolled polled elapsed =>
      let '(s, sent) := response_poll_next (xc_request_body x) (xc_response x) polled elapsed in
      (mkExchange _ (xc_request_body x) s, sent)
  | ResponseDropped elapsed =>
      let '(s, sent) := log_once (xc_request_body x) (xc_response x) elapsed in
      (mkExchange _ (xc_request_body x) s, sent)
  end.

(** The events the exchange sends to the log. *)
Fixpoint exchange_run (x : Exchange) (events : list ExchangeEvent) : list CaptureLogEvent :=
  match events with
  | [] => []
  | event :: events =>
      let '(x, sent) := exchange_step x event in sent ++ exchange_run x events
  end.

(** ** A request *)

(** What the client gets: an answer whose body passes through, one whose body is
    captured, or an answer that opens a tunnel. *)
Inductive Forwarded :=
| Plain (response : Response)
| Capturing (response : Response) (exchange : Exchange)
| Tunnel (response : Response) (sent : list CaptureLogEvent).

Record Incoming := mkIncoming {
  in_method : string;
  in_version : string;
  in_path : string;
  in_path_and_query : option string;
  in_headers : headers;
}.

Definition path_and_query (request : Incoming) : string := default "/" (in_path_and_query request).

Definition upstream_request st (request : Incoming) (mode : HeaderForwardMode) : outcome Request :=
  build_upstream_request parse_uri (in_method request) (in_version request) (path_and_query request)
    (in_headers request) (as_public_port st) (as_target_port st) mode.

Definition SWITCHING_PROTOCOLS : Z := 101.
Definition BAD_GATEWAY : Z := 502.

Definition proxy_upgrade_request st (client : Request -> outcome Response) (request : Incoming)
    (elapsed : Z) (capture : bool) : outcome Forwarded :=
  upstream_request ← upstream_request st request Upgrade;
  upstream_response ← in_context "forward upgrade request to service" (client upstream_request);
  let status := rp_status upstream_response in
  let response_headers := rp_headers upstream_response in
  if negb (status =? SWITCHING_PROTOCOLS)%Z
  then Ok (Plain (response_with_body status response_headers Standard))
  else
    let sent :=
      if capture then
        [Api (mkCaptureApiRecord _ (in_method request) (in_path request) (path_and_query request)
                (in_headers request) (CapturedBody_new (as_body_limit st)) status response_headers
                (CapturedBody_new (as_body_limit st)) (as_u64_millis elapsed))]
      else [] in
    Ok (Tunnel (response_with_body status response_headers Upgrade) sent).

Definition proxy_request_inner st (client : Request -> outcome Response) (request : Incoming)
    (elapsed : Z) : outcome Forwarded :=
  let hs := in_headers request in
  let capture := should_capture_request (as_ignore_paths st) (in_method request) (in_path request) hs in
  if is_upgrade_request hs then proxy_upgrade_request st client request elapsed capture else
  upstream_request ← upstream_request st request Standard;
  upstream_response ← in_context "forward request to service" (client upstream_request);
  let status := rp_status upstream_response in
  let response_headers := rp_headers upstream_response in
  let response := response_with_body status response_headers Standard in
  if negb capture then Ok (Plain response) else
  Ok (Capturing response
        (mkExchange _ (CapturedBody_new (as_body_limit st))
           (mkCaptureResponseStream _ (in_method request) (in_path request) (path_and_query request)
              hs status response_headers (CapturedBody_new (as_body_limit st)) false))).

(** A request that cannot be answered is answered with an error, and logged. *)
Definition proxy_request st (client : Request -> outcome Response) (request : Incoming) (elapsed : Z)
    : outcome (Forwarded * list CaptureLogEvent) :=
  match proxy_request_inner st client request elapsed with
  | Ok forwarded => Ok (forwarded, [])
  | Err err =>
      let entry := Object [("level", String "error"); ("event", String "api_capture");
                           ("msg", String ("API capture proxy error: " +:+ err));
                           ("error", String err)] in
      Ok (Plain (response_with_body BAD_GATEWAY hm_new Standard), [Entry entry])
  | Panic => Panic
  | OutOfFuel => OutOfFuel
  end.

(** ** The listener *)

(** A try to bind the port and the time that has passed since the first. *)
Inductive BindResult := Bound | AddrInUse (err : string) | BindFailed (err : string).

Definition CAPTURE_BIND_RETRY_TIMEOUT : Z := 750.

Definition bind_error (run_id service : string) (public_port : Z) : string :=
  "bind API capture proxy for " +:+ run_id +:+ "." +:+ service +:+ " on 0.0.0.0:" +:+ show public_port.

Fixpoint bind_capture_listener (run_id service : string) (public_port : Z)
    (tries : list (BindResult * Z)) : outcome unit :=
  match tries with
  | [] => OutOfFuel
  | (Bound, _) :: _ => Ok tt
  | (AddrInUse err, elapsed) :: tries =>
      if (elapsed <? CAPTURE_BIND_RETRY_TIMEOUT)%Z
      then bind_capture_listener run_id service public_port tries
      else with_context (bind_error run_id service public_port) (Err err)
  | (BindFailed err, _) :: _ => with_context (bind_error run_id service public_port) (Err err)
  end.

(** ** The log *)

Definition CAPTURE_LOG_QUEUE : nat := 1024.

(** What the task does after it has looked at the counter. *)
Inductive AfterSummary := ThenEvent (event : CaptureLogEvent) | ThenTick | ThenEnd.

Inductive WriterPhase :=
| Selecting
| Swapping (next : AfterSummary)
| Summarizing (count : Z) (next : AfterSummary)
| Writing (event : CaptureLogEvent)
| Drained.

(** The channel, the counter of dropped events, whether a sender is left, the file, and
    where the task is. *)
Record CaptureLog := mkCaptureLog {
  cl_queue : list CaptureLogEvent;
  cl_dropped : Z;
  cl_senders : bool;
  cl_file : string;
  cl_phase : WriterPhase;
}.

(** How a write of an entry ends: whole, cut short in its line, or without its newline. *)
Inductive WriteResult := Whole | LineCut (n : nat) | NewlineCut.

Inductive LogEvent :=
| Send (event : CaptureLogEvent)
| SendersDropped
| Recv
| Tick
| Swap
| Write (timestamp : string) (result : WriteResult).

(** The text of a value; the printer of values does not fail. *)
Definition value_text (entry : Value) : string := default "" (ok (to_string entry)).

Definition entry_line (timestamp : string) (entry : Value) : string :=
  encode_log_line "api" (value_text entry) timestamp.

Definition newline_text : string := String.String "010" "".

Definition write_log_entry (timestamp : string) (entry : Value) (result : WriteResult) (file : string)
    : string :=
  let line := entry_line timestamp entry in
  match result with
  | Whole => file +:+ line +:+ newline_text
  | LineCut n => file +:+ of_bytes (take n (to_bytes line))
  | NewlineCut => file +:+ line
  end.

Definition dropped_entry (count : Z) : Value :=
  Object [("level", String "warn"); ("event", String "api_capture_dropped");
          ("msg", String ("dropped " +:+ show count
             +:+ " API capture events because the capture log queue was full"));
          ("dropped_events", json_int count)].

Definition event_entry (event : CaptureLogEvent) : Value :=
  match event with
  | Entry entry => entry
  | Api r =>
      capture_entry is_server_error is_client_error (ar_method r) (ar_path r) (ar_target r)
        (ar_request_headers r) (ar_request_body r) (ar_status r) (ar_response_headers r)
        (ar_response_body r) (ar_duration_ms r)
  end.

(** [CaptureLogWriter::write]: an event for which the queue has no place is counted. *)
Definition write (log : CaptureLog) (event : CaptureLogEvent) : CaptureLog :=
  if (length (cl_queue log) <? CAPTURE_LOG_QUEUE)%nat
  then mkCaptureLog (cl_queue log ++ [event]) (cl_dropped log) (cl_senders log) (cl_file log)
         (cl_phase log)
  else mkCaptureLog (cl_queue log) ((cl_dropped log + 1) mod 2 ^ 64) (cl_senders log) (cl_file log)
         (cl_phase log).

Definition set_phase (log : CaptureLog) (phase : WriterPhase) : CaptureLog :=
  mkCaptureLog (cl_queue log) (cl_dropped log) (cl_senders log) (cl_file log) phase.

Definition set_file (log : CaptureLog) (file : string) : CaptureLog :=
  mkCaptureLog (cl_queue log) (cl_dropped log) (cl_senders log) file (cl_phase log).

Definition after_summary (next : AfterSummary) : WriterPhase :=
  match next with ThenEvent event => Writing event | ThenTick => Selecting | ThenEnd => Drained end.

(** A step of the task, [None] where the task cannot take it. *)
Definition writer_step (log : CaptureLog) (event : LogEvent) : option CaptureLog :=
  match event, cl_phase log with
  | Recv, Selecting =>
      match cl_queue log with
      | event :: queue =>
          Some (mkCaptureLog queue (cl_dropped log) (cl_senders log) (cl_file log)
                  (Swapping (ThenEvent event)))
      | [] => if cl_senders log then None else Some (set_phase log (Swapping ThenEnd))
      end
  | Tick, Selecting => Some (set_phase log (Swapping ThenTick))
  | Swap, Swapping next =>
      let count := cl_dropped log in
      Some (mkCaptureLog (cl_queue log) 0 (cl_senders log) (cl_file log)
              (if (count =? 0)%Z then after_summary next else Summarizing count next))
  | Write timestamp result, Summarizing count next =>
      let file := write_log_entry timestamp (dropped_entry count) result (cl_file log) in
      Some (set_phase (set_file log file) (after_summary next))
  | Write timestamp result, Writing event =>
      let file := write_log_entry timestamp (event_entry event) result (cl_file log) in
      Some (set_phase (set_file log file) Selecting)
  | _, _ => None
  end.

Definition log_step (log : CaptureLog) (event : LogEvent) : option CaptureLog :=
  match event with
  | Send event => if cl_senders log then Some (write log event) else None
  | SendersDropped =>
      Some (mkCaptureLog (cl_queue log) (cl_dropped log) false (cl_file log) (cl_phase log))
  | _ => writer_step log event
  end.

Fixpoint log_run (log : CaptureLog) (events : list LogEvent) : option CaptureLog :=
  match events with
  | [] => Some log
  | event :: events => log ← log_step log event; log_run log events
  end.

Definition CaptureLog_new (file : string) : CaptureLog := mkCaptureLog [] 0 true file Selecting.
End proxy.

(** ** One record of every exchange *)

Section exchange.
Context `{HM : HeaderMap} `{J : Json}.
Implicit Types (event : ExchangeEvent) (s : CaptureResponseStream).

(** The events that end an exchange: the last poll of the answer, or its end in between. *)
Definition ends (event : ExchangeEvent) : option Z :=
  match event with
  | ResponsePolled (Failed _) elapsed | ResponsePolled Ended elapsed | ResponseDropped elapsed =>
      Some elapsed
  | _ => None
  end.

Definition request_chunks (events : list ExchangeEvent) : bytes :=
  concat (omap (fun event => match event with
                             | RequestPolled (Chunk chunk) => Some chunk
                             | _ => None
                             end) events).

Definition response_chunks (events : list ExchangeEvent) : bytes :=
  concat (omap (fun event => match event with
                             | ResponsePolled (Chunk chunk) _ => Some chunk
                             | _ => None
                             end) events).

Lemma logged_silent x events : cs_logged (xc_response x) = true -> exchange_run x events = [].
Proof.
  revert x. induction events as [|event events IH]; intros x Hl; [done|].
  assert (forall body s elapsed, cs_logged s = true -> log_once body s elapsed = (s, [])) as Hlog
    by (intros body s elapsed Hs; unfold log_once; by rewrite Hs).
  destruct event as [polled|[|chunk|err|] elapsed|elapsed]; simpl; rewrite ?Hlog by done;
    simpl; by apply IH.
Qed.

Lemma log_once_sends body s elapsed :
  cs_logged s = false ->
  exists s', cs_logged s' = true /\
    log_once body s elapsed
      = (s', [Api (mkCaptureApiRecord _ (cs_method s) (cs_path s) (cs_target s) (cs_request_headers s)
                body (cs_status s) (cs_response_headers s) (cs_response_body s)
                (as_u64_millis elapsed))]).
Proof. intros Hs. unfold log_once. rewrite Hs. eexists. split; [|reflexivity]. done. Qed.

(** The body a stream has collected when it started with [body]. *)
Definition collected (body : CapturedBody) (chunks : list bytes) : CapturedBody :=
  foldl append body chunks.

Lemma exchange_before x before event elapsed after :
  cs_logged (xc_response x) = false ->
  Forall (fun event => ends event = None) before -> ends event = Some elapsed ->
  exists qchunks rchunks,
    concat qchunks = request_chunks before /\ concat rchunks = response_chunks before /\
    let s := xc_response x in
    exchange_run x (before ++ event :: after)
      = [Api (mkCaptureApiRecord _ (cs_method s) (cs_path s) (cs_target s) (cs_request_headers s)
           (collected (xc_request_body x) qchunks) (cs_status s) (cs_response_headers s)
           (collected (cs_response_body s) rchunks) (as_u64_millis elapsed))].
Proof.
  intros Hl Hb He. revert x Hl. induction Hb as [|e before Hend Hb IH]; intros x Hl.
  - exists [], []. do 2 (split; [done|]). cbn.
    destruct (log_once_sends (xc_request_body x) (xc_response x) elapsed Hl) as (s'' & Hs & Hlo).
    destruct event as [polled|[|chunk|err|] ms|ms]; simplify_eq/=; rewrite Hlo; simpl; f_equal;
      by apply logged_silent.
  - destruct e as [[|chunk|err|]|[|chunk|err|] ms|ms]; simplify_eq/=.
    + apply (IH (mkExchange _ (xc_request_body x) (xc_response x)) Hl).
    + destruct (IH (mkExchange _ (append (xc_request_body x) chunk) (xc_response x)) Hl)
        as (q & r & Hq & Hr & Hrun). exists (chunk :: q), r. unfold request_chunks. simpl.
      by rewrite Hq.
    + apply (IH (mkExchange _ (xc_request_body x) (xc_response x)) Hl).
    + apply (IH (mkExchange _ (xc_request_body x) (xc_response x)) Hl).
    + apply (IH (mkExchange _ (xc_request_body x) (xc_response x)) Hl).
    + destruct (IH (mkExchange _ (xc_request_body x) (append_response (xc_response x) chunk)) Hl)
        as (q & r & Hq & Hr & Hrun). exists q, (chunk :: r). unfold response_chunks. simpl.
      by rewrite Hr.
Qed.

(** C6: Whatever the order in which the bodies are polled, an exchange leaves exactly one
    record, when its answer ends, fails or is dropped, and nothing after it; the record
    holds the first bytes of what had gone through in each direction, as many as the
    limit, with how many there were. *)
Theorem exchange_logged_once limit s before event elapsed after :
  (0 <= limit)%Z -> cs_logged s = false -> cs_response_body s = CapturedBody_new limit ->
  Forall (fun event => ends event = None) before -> ends event = Some elapsed ->
  let kept body := mkCapturedBody (Z.min (Z.of_nat (length body)) usize_max)
    (take (Z.to_nat limit) body) limit in
  exchange_run (mkExchange _ (CapturedBody_new limit) s) (before ++ event :: after)
    = [Api (mkCaptureApiRecord _ (cs_method s) (cs_path s) (cs_target s) (cs_request_headers s)
         (kept (request_chunks before)) (cs_status s) (cs_response_headers s)
         (kept (response_chunks before)) (as_u64_millis elapsed))].
Proof.
  intros Hlim Hl Hbody Hb He kept.
  destruct (exchange_before (mkExchange _ (CapturedBody_new limit) s) before event elapsed after Hl Hb He)
    as (q & r & Hq & Hr & Hrun).
  rewrite Hrun. cbn [xc_request_body xc_response]. unfold collected.
  by rewrite Hbody, !captured_body, Hq, Hr.
Qed.
End exchange.

(** ** The account of the log *)

Section account.
Context `{HM : HeaderMap} `{J : Json}.
Context (is_server_error is_client_error : Z -> bool).

(** What was written: an event, or a summary of dropped ones. *)
Inductive Logged :=
| LoggedEvent (timestamp : string) (event : CaptureLogEvent)
| LoggedSummary (timestamp : string) (count : Z).

Definition logged_text (item : Logged) : string :=
  match item with
  | LoggedEvent timestamp event =>
      entry_line timestamp (event_entry is_server_error is_client_error event) +:+ newline_text
  | LoggedSummary timestamp count => entry_line timestamp (dropped_entry count) +:+ newline_text
  end.

Definition logged_texts (items : list Logged) : string :=
  foldr (fun item text => logged_text item +:+ text) "" items.

Definition logged_events : list Logged -> list CaptureLogEvent :=
  omap (fun item => match item with LoggedEvent _ event => Some event | _ => None end).

Definition logged_count (items : list Logged) : Z :=
  foldr (fun item n => match item with LoggedSummary _ count => (count + n)%Z | _ => n end) 0%Z items.

Definition next_events (next : AfterSummary) : list CaptureLogEvent :=
  match next with ThenEvent event => [event] | _ => [] end.

(** The events that have a place but are not written yet. *)
Definition waiting (log : CaptureLog) : list CaptureLogEvent :=
  match cl_phase log with
  | Swapping next | Summarizing _ next => next_events next
  | Writing event => [event]
  | Selecting | Drained => []
  end ++ cl_queue log.

(** The dropped events no summary tells of yet. *)
Definition untold (log : CaptureLog) : Z :=
  match cl_phase log with Summarizing count _ => count | _ => 0 end + cl_dropped log.

Definition sent (events : list LogEvent) : list CaptureLogEvent :=
  omap (fun event => match event with Send event => Some event | _ => None end) events.

Definition whole (event : LogEvent) : Prop :=
  match event with Write _ result => result = Whole | _ => True end.

(** The task has seen that no sender is left. *)
Definition ending (log : CaptureLog) : Prop :=
  match cl_phase log with
  | Swapping ThenEnd => cl_senders log = false /\ cl_queue log = []
  | Summarizing _ ThenEnd | Drained =>
      cl_senders log = false /\ cl_queue log = [] /\ cl_dropped log = 0%Z
  | _ => True
  end.

Record accounted (file : string) (sends : list CaptureLogEvent) (items : list Logged)
    (log : CaptureLog) : Prop := {
  ac_file : cl_file log = file +:+ logged_texts items;
  ac_order : (logged_events items ++ waiting log) `sublist_of` sends;
  ac_count : (Z.of_nat (length sends)
    = Z.of_nat (length (logged_events items ++ waiting log)) + logged_count items + untold log)%Z;
  ac_dropped : (0 <= cl_dropped log)%Z;
  ac_counts : (0 <= logged_count items)%Z /\ (0 <= untold log - cl_dropped log)%Z;
  ac_ending : ending log;
}.

Lemma logged_texts_snoc items item :
  logged_texts (items ++ [item]) = logged_texts items +:+ logged_text item.
Proof.
  unfold logged_texts. rewrite foldr_app. cbn [foldr].
  induction items as [|i items IH]; cbn [foldr].
  - apply to_bytes_inj. autorewrite with bytes. by rewrite app_nil_r.
  - rewrite IH. apply to_bytes_inj. autorewrite with bytes. by rewrite app_assoc.
Qed.

Lemma logged_events_snoc items item :
  logged_events (items ++ [item])
    = logged_events items ++ match item with LoggedEvent _ event => [event] | _ => [] end.
Proof. unfold logged_events. rewrite omap_app. by destruct item. Qed.

Lemma logged_count_snoc items item :
  logged_count (items ++ [item])
    = (logged_count items + match item with LoggedSummary _ count => count | _ => 0 end)%Z.
Proof.
  unfold logged_count. rewrite foldr_app. cbn [foldr].
  induction items as [|[t e|t n] items IH]; cbn [foldr]; [by destruct item; lia|done|lia].
Qed.

Lemma app_text (a b c : string) : (a +:+ b) +:+ c = a +:+ (b +:+ c).
Proof. apply to_bytes_inj. autorewrite with bytes. by rewrite app_assoc. Qed.

Lemma send_accounted file sends items log event :
  accounted file sends items log -> cl_senders log = true ->
  (Z.of_nat (length (sends ++ [event])) < 2 ^ 64)%Z ->
  accounted file (sends ++ [event]) items (write log event).
Proof.
  intros [Hf Ho Hc Hd [Hi Hu] He] Hs Hlen. rewrite length_app in *.
  destruct log as [queue dropped senders text phase]. unfold write, waiting, untold, ending in *.
  cbn [cl_queue cl_dropped cl_senders cl_file cl_phase length] in *. subst senders.
  assert (ending (mkCaptureLog (queue ++ [event]) dropped true text phase) /\
          ending (mkCaptureLog queue ((dropped + 1) mod 2 ^ 64) true text phase)) as [He1 He2]
    by (unfold ending; simpl; destruct phase as [|[]|count []| |]; naive_solver).
  rewrite !length_app in Hc. destruct (length queue <? CAPTURE_LOG_QUEUE)%nat; split; try done;
    unfold waiting, untold; cbn [cl_queue cl_dropped cl_senders cl_file cl_phase].
  - rewrite !app_assoc. by apply sublist_app; [rewrite <- app_assoc|].
  - rewrite !length_app. simpl. lia.
  - by apply sublist_inserts_r.
  - rewrite Z.mod_small by lia. rewrite !length_app. simpl. lia.
  - apply Z.mod_pos_bound. lia.
  - rewrite Z.mod_small by lia. lia.
Qed.

Lemma writer_accounted file sends items log event log' :
  accounted file sends items log -> whole event ->
  writer_step is_server_error is_client_error log event = Some log' ->
  exists items', accounted file sends items' log'.
Proof.
  intros [Hf Ho Hc Hd [Hi Hu] He] Hw Hstep.
  destruct log as [queue dropped senders text phase].
  unfold waiting, untold, ending in *. cbn [cl_queue cl_dropped cl_senders cl_file cl_phase] in *.
  destruct event as [event| | | | |timestamp result], phase as [|next|count next|event'|];
    simplify_eq/=.
  - exists items. destruct queue as [|e queue].
    + destruct senders; simplify_eq/=. by split.
    + simplify_eq/=. by split.
  - exists items. by split.
  - exists items. split; try done; unfold waiting, untold, ending; simpl;
      destruct (Z.eqb_spec dropped 0); destruct next; simpl in *; naive_solver lia.
  - exists (items ++ [LoggedSummary timestamp count]).
    split; unfold waiting, untold, ending; simpl;
      rewrite ?logged_texts_snoc, ?logged_events_snoc, ?logged_count_snoc, ?app_nil_r, ?app_text;
      destruct next; simpl in *; naive_solver lia.
  - exists (items ++ [LoggedEvent timestamp event']).
    split; unfold waiting, untold, ending; simpl;
      rewrite ?logged_texts_snoc, ?logged_events_snoc, ?logged_count_snoc, ?app_text, <- ?app_assoc;
      simpl in *; naive_solver lia.
Qed.

Lemma step_accounted file sends items log event log' :
  accounted file sends items log -> whole event ->
  (Z.of_nat (length (sends ++ sent [event])) < 2 ^ 64)%Z ->
  log_step is_server_error is_client_error log event = Some log' ->
  exists items', accounted file (sends ++ sent [event]) items' log'.
Proof.
  intros Ha Hw Hlen Hstep. destruct event as [event| | | | |timestamp result].
  - simpl in Hstep. destruct (cl_senders log) eqn:Hs; simplify_eq/=. exists items.
    by apply send_accounted.
  - simplify_eq/=. rewrite app_nil_r. exists items. destruct Ha as [? ? ? ? ? He]. split; try done.
    revert He. unfold ending. simpl. destruct (cl_phase log) as [|[]|count []| |]; naive_solver.
  - simpl. rewrite app_nil_r. by eapply writer_accounted.
  - simpl. rewrite app_nil_r. by eapply writer_accounted.
  - simpl. rewrite app_nil_r. by eapply writer_accounted.
  - simpl. rewrite app_nil_r. by eapply writer_accounted.
Qed.

Lemma sent_cons event events : sent (event :: events) = sent [event] ++ sent events.
Proof. by destruct event. Qed.

Lemma run_accounted file events sends items log log' :
  accounted file sends items log -> Forall whole events ->
  (Z.of_nat (length (sends ++ sent events)) < 2 ^ 64)%Z ->
  log_run is_server_error is_client_error log events = Some log' ->
  exists items', accounted file (sends ++ sent events) items' log'.
Proof.
  revert sends items log. induction events as [|event events IH]; intros sends items log Ha Hw Hlen Hrun.
  - simplify_eq/=. rewrite app_nil_r. by exists items.
  - inversion_clear Hw as [|? ? Hev Hevs]. cbn [log_run] in Hrun.
    destruct (log_step _ _ log event) as [log1|] eqn:Hstep; [|done]. cbn [mbind option_bind] in Hrun.
    rewrite sent_cons in Hlen |- *. rewrite app_assoc in Hlen |- *.
    destruct (step_accounted file sends items log event log1) as [items' Ha']; try done.
    + rewrite !length_app in *. lia.
    + by eapply IH.
Qed.

Lemma new_accounted file : accounted file [] [] (CaptureLog_new file).
Proof.
  split; try done. simpl. apply to_bytes_inj. autorewrite with bytes. by rewrite app_nil_r.
Qed.

(** C7: While the writes succeed, every event sent to the log is in its file, waits, or is
    counted: the file grows by one line for each event in the order they were sent and by
    lines that tell how many were dropped.  When the task has ended nothing waits and no
    dropped event is untold. *)
Theorem capture_log_accounts file events log :
  Forall whole events -> (Z.of_nat (length (sent events)) < 2 ^ 64)%Z ->
  log_run is_server_error is_client_error (CaptureLog_new file) events = Some log ->
  exists items,
    cl_file log = file +:+ logged_texts items /\
    (logged_events items ++ waiting log) `sublist_of` sent events /\
    (Z.of_nat (length (sent events))
      = Z.of_nat (length (logged_events items ++ waiting log)) + logged_count items + untold log)%Z /\
    (cl_phase log = Drained -> waiting log = [] /\ untold log = 0%Z).
Proof.
  intros Hw Hlen Hrun.
  destruct (run_accounted file events [] [] _ log (new_accounted file) Hw Hlen Hrun)
    as [items [Hf Ho Hc Hd Hi He]].
  exists items. do 3 (split; [done|]). intros Hp. unfold waiting, untold, ending in *.
  rewrite Hp in *. naive_solver.
Qed.
End account.

(** ** The end of the log *)

Section drain.
Context `{HM : HeaderMap} `{J : Json}.
Context (is_server_error is_client_error : Z -> bool).

(** The steps the task still takes on its own account. *)
Definition phase_steps (phase : WriterPhase) : nat :=
  match phase with
  | Drained => 0
  | Summarizing _ ThenEnd => 1
  | Swapping ThenEnd => 2
  | Selecting => 3
  | Writing _ | Summarizing _ ThenTick => 4
  | Summarizing _ (ThenEvent _) | Swapping ThenTick => 5
  | Swapping (ThenEvent _) => 6
  end.

Definition steps_left (log : CaptureLog) : nat := 4 * length (cl_queue log) + phase_steps (cl_phase log).

Definition by_writer (event : LogEvent) : bool :=
  match event with Send _ | SendersDropped => false | _ => true end.

Definition is_tick (event : LogEvent) : bool := match event with Tick => true | _ => false end.

Definition ticks (events : list LogEvent) : nat := length (List.filter is_tick events).

Lemma writer_step_left log event log' :
  writer_step is_server_error is_client_error log event = Some log' ->
  S (steps_left log') <= steps_left log + (if is_tick event then 3 else 0) /\
  (cl_senders log' = cl_senders log).
Proof.
  destruct log as [queue dropped senders text phase]. unfold steps_left.
  destruct event as [event| | | | |timestamp result], phase as [|next|count next|event'|];
    intros Hstep; simplify_eq/=.
  - destruct queue as [|e queue]; [destruct senders|]; simplify_eq/=; split; try done; lia.
  - split; [lia|done].
  - split; [|done]. destruct (dropped =? 0)%Z, next; simpl; lia.
  - split; [|done]. destruct next; simpl; lia.
  - split; [lia|done].
Qed.

Lemma writer_enabled log :
  cl_senders log = false -> cl_phase log <> Drained ->
  exists event log', is_tick event = false /\ by_writer event = true /\
    log_step is_server_error is_client_error log event = Some log'.
Proof.
  destruct log as [queue dropped senders text phase]. simpl. intros -> Hp.
  destruct phase as [|next|count next|event'|]; try done.
  - exists Recv. destruct queue; simpl; eauto.
  - exists Swap. simpl. eauto.
  - exists (Write "" Whole). simpl. eauto.
  - exists (Write "" Whole). simpl. eauto.
Qed.

(** C27: Once no sender is left the task of the log comes to its end: as long as it has not,
    it can take a step that is no tick, and however its writes end it takes no more steps
    than four for each event that waits, three for each tick, and six. *)
Theorem capture_log_drains log events log' :
  cl_senders log = false -> forallb by_writer events = true ->
  log_run is_server_error is_client_error log events = Some log' ->
  length events <= 4 * length (cl_queue log) + 6 + 3 * ticks events /\
  (cl_phase log' = Drained \/
   exists event log'', is_tick event = false /\ by_writer event = true /\
     log_step is_server_error is_client_error log' event = Some log'').
Proof.
  intros Hs Hw Hrun.
  assert (length events + steps_left log' <= steps_left log + 3 * ticks events /\
    cl_senders log' = false) as [Hlen Hs'].
  { revert log Hs Hrun. induction events as [|event events IH]; intros log Hs Hrun.
    - simplify_eq/=. split; [unfold ticks; simpl; lia|done].
    - apply andb_prop in Hw as [He Hevs]. cbn [log_run] in Hrun.
      destruct (log_step _ _ log event) as [log1|] eqn:Hstep; [|done]. cbn [mbind option_bind] in Hrun.
      assert (writer_step is_server_error is_client_error log event = Some log1) as Hstep'
        by (by destruct event).
      apply writer_step_left in Hstep' as [Hleft Hsame].
      destruct (IH Hevs log1) as [Hl Hs']; [congruence|done|]. split; [|done].
      unfold ticks in *. cbn [List.filter length]. destruct (is_tick event); cbn [length]; lia. }
  split.
  - assert (phase_steps (cl_phase log) <= 6) by (by destruct (cl_phase log) as [|[]|count []| |]; simpl; lia).
    unfold steps_left in Hlen. lia.
  - destruct (decide (steps_left log' = 0)) as [H0|H0].
    + left. unfold steps_left in H0. by destruct (cl_phase log') as [|[]|count []| |]; simpl in H0; try lia.
    + destruct (cl_phase log') eqn:Hp; [..|by left]; right; apply writer_enabled; try done; by rewrite Hp.
Qed.
End drain.

(** ** A concrete log *)

#[local] Existing Instance list_headers.
#[local] Existing Instance concrete_json.

Definition example_event (n : Z) : CaptureLogEvent :=
  Entry (@Number integers n).

(** Three events; the task writes two of them. *)
Definition example_log_events : list LogEvent :=
  (Send ∘ example_event ∘ Z.of_nat <$> seq 0 3)
  ++ [Recv; Swap; Write "t1" Whole; SendersDropped; Recv; Swap; Write "t2" Whole].

(** How many events wait in the queue and are counted in the end. *)
Lemma example_log_ends :
  (fun log => (length (cl_queue log), cl_dropped log, cl_phase log))
    <$> log_run (Z.leb 500) (Z.leb 400) (CaptureLog_new "") example_log_events
  = Some (1, 0%Z, Selecting).
Proof. reflexivity. Qed.

Lemma capture_log_accounts_witness :
  exists log items,
    log_run (Z.leb 500) (Z.leb 400) (CaptureLog_new "") example_log_events = Some log /\
    cl_file log = "" +:+ logged_texts (Z.leb 500) (Z.leb 400) items /\ length (cl_queue log) = 1.
Proof.
  pose proof example_log_ends as Hends.
  destruct (log_run (Z.leb 500) (Z.leb 400) (CaptureLog_new "") example_log_events)
    as [log|] eqn:Hrun; [|discriminate Hends].
  destruct (capture_log_accounts (Z.leb 500) (Z.leb 400) "" example_log_events log
    ltac:(apply Forall_app; split; [apply Forall_fmap, Forall_true; done|repeat constructor])
    eq_refl Hrun) as (items & Hf & _).
  exists log, items. split; [done|]. split; [done|]. by simplify_eq/=.
Defined.

Definition example_stream : CaptureResponseStream :=
  mkCaptureResponseStream list_headers "GET" "/users" "/users?page=2" [] 200 [] (CapturedBody_new 4) false.

Lemma exchange_logged_once_witness :
  exchange_run
    (mkExchange list_headers (CapturedBody_new 4) example_stream)
    [ResponsePolled (Chunk (to_bytes "abc")) 1; ResponsePolled Pending 2;
     ResponsePolled (Chunk (to_bytes "def")) 3; ResponseDropped 4; ResponseDropped 5]
  = [Api (mkCaptureApiRecord list_headers "GET" "/users" "/users?page=2" [] (CapturedBody_new 4) 200 []
       (mkCapturedBody 6 (to_bytes "abcd") 4) 4)].
Proof.
  apply (exchange_logged_once 4 example_stream
    [ResponsePolled (Chunk (to_bytes "abc")) 1; ResponsePolled Pending 2;
     ResponsePolled (Chunk (to_bytes "def")) 3] (ResponseDropped 4) 4 [ResponseDropped 5]);
    try done. by repeat constructor.
Defined.

Lemma capture_log_drains_witness :
  exists log, log_run (Z.leb 500) (Z.leb 400)
      (mkCaptureLog [example_event 1] 2 false "" Selecting)
      [Recv; Swap; Write "t1" (LineCut 3); Write "t2" NewlineCut; Tick; Swap; Recv; Swap] = Some log /\
    (cl_phase log = Drained \/
     exists event log', is_tick event = false /\ by_writer event = true /\
       log_step (Z.leb 500) (Z.leb 400) log event = Some log').
Proof.
  eexists. split; [reflexivity|].
  eapply (capture_log_drains (Z.leb 500) (Z.leb 400) (mkCaptureLog [example_event 1] 2 false "" Selecting)
    [Recv; Swap; Write "t1" (LineCut 3); Write "t2" NewlineCut; Tick; Swap; Recv; Swap]); reflexivity.
Defined.
