(* ===== verification/LogTail.v ===== *)
(** * The tails of the logs

    Models [src/daemon/log_tailing.rs]: the events a daemon makes of the lines that come
    to the logs of a run, the cursors of its files, and the registry that keeps one task
    for each run somebody listens to.

    What is told of a file when the task looks at it is a view; the texts of the files
    are bytes. *)

From stdpp Require Import gmap.
From S2P Require Import Prelude Bytes BMap Util Json Logfmt ConfigValidate Files LogIndex LogText.
From Stdlib Require Import Lia ZArith.

(** ** Events *)

Record DaemonLogEvent `{Json} := mkDaemonLogEvent {
  le_run_id : string;
  le_service : string;
  le_ts : string;
  le_stream : string;
  le_level : string;
  le_message : string;
  le_raw : string;
  le_json : option Value;
  le_attributes : bmap string string;
}.

(** What a look at a file gives: whether it is there, its length, what is read. *)
Record FileView := mkFileView {
  fv_exists : bool;
  fv_len : Z;
  fv_content : outcome bytes;
}.

(** The offset up to which each file was read. *)
Abbreviation Cursors := (gmap string Z).

Inductive EventKind := KindAny | KindCreate | KindModify | KindRemove | KindOther.

Section tail.
Context `{J : Json} (unicode_digit : bytes -> bool).

Definition extract_log_json (line : string) : option Value :=
  let trimmed := str_trim line in
  if negb (starts_with "{" trimmed) then None else
  match from_str trimmed with
  | Some (Object map) => Some (Object map)
  | _ => None
  end.

Definition normalize_log_attribute_name (field_name : string) : option string :=
  let normalized := trim_end_matches is_underscore
                      (drop_while is_underscore (normalize_loop false (to_bytes field_name))) in
  match normalized with [] => None | _ => Some (of_bytes normalized) end.

Definition is_reserved_log_attribute (field_name : string) : bool :=
  bool_decide (field_name ∈ ["time"; "ts"; "timestamp"; "msg"; "message"; "level"; "severity";
                             "stream"; "run_id"; "service"; "ts_nanos"; "seq"; "raw"]).

Definition log_attribute_value_to_string (value : Value) : option string :=
  value ← match value with
          | String value => Some value
          | Number value => Some (number_to_string value)
          | Bool value => Some (if value then "true" else "false")
          | Array _ | Object _ | Null => None
          end;
  if bool_decide (value = "") || (256 <? length (chars (to_bytes value)))%nat then None
  else Some value.

Definition attribute_one (attributes : bmap string string) (field : string * Value)
    : bmap string string :=
  match normalize_log_attribute_name field.1 with
  | None => attributes
  | Some name =>
      if is_reserved_log_attribute name then attributes else
      match log_attribute_value_to_string field.2 with
      | None => attributes
      | Some value => bentry name value attributes
      end
  end.

Definition extract_log_attributes (line : string) : bmap string string :=
  let trimmed := str_trim line in
  if negb (starts_with "{" trimmed) then [] else
  match from_str trimmed with
  | Some (Object map) => foldl attribute_one [] map
  | _ => []
  end.

Definition parse_log_tail_event (run_id service raw_line : string) : option DaemonLogEvent :=
  let raw := strip_ansi_if_needed
    (of_bytes (trim_end_matches is_crlf (to_bytes raw_line))) in
  if bool_decide (raw = "") then None else
  let ts := default "" (extract_timestamp_str raw) in
  let '(stream, message) := extract_log_content raw in
  Some (mkDaemonLogEvent _ run_id service ts stream (classify_line_level unicode_digit raw) message raw
          (extract_log_json raw) (extract_log_attributes raw)).

(** ** Files and their cursors *)

Definition is_tailed_log_path (path : string) : bool := bool_decide (extension path = Some "log").

(** [file_stem] and [to_str] *)
Definition service_of (path : string) : option string :=
  stem ← file_stem <$> file_name path; if utf8_valid (to_bytes stem) then Some stem else None.

(** The events, and the cursor, which moves even when the name of the file is bad. *)
Definition read_new_log_events (run_id path : string) (offset : Z) (view : FileView)
    : outcome (list DaemonLogEvent) * Z :=
  let offset := if (fv_len view <? offset)%Z then 0%Z else offset in
  match with_context ("open log " +:+ path) (fv_content view) with
  | Ok content =>
      let buf := drop (Z.to_nat offset) content in
      match rposition is_newline buf with
      | None => (Ok [], offset)
      | Some last_newline =>
          let complete := take (last_newline + 1) buf in
          let offset := saturating_add offset (Z.of_nat (length complete)) in
          match service_of path with
          | None => (Err ("invalid log path " +:+ path), offset)
          | Some service =>
              (Ok (omap (parse_log_tail_event run_id service)
                     (str_lines (of_bytes (from_utf8_lossy complete)))), offset)
          end
      end
  | Err e => (Err e, offset)
  | Panic => (Panic, offset)
  | OutOfFuel => (OutOfFuel, offset)
  end.

Definition initial_log_tail_cursors (entries : list (string * FileView)) : Cursors :=
  foldl (fun cursors entry =>
           if is_tailed_log_path entry.1 then <[entry.1 := fv_len entry.2]> cursors else cursors)
    ∅ entries.

(** A changed path: its events, each with the path it comes from. *)
Definition tail_path (run_id : string) (cursors : Cursors) (changed : string * FileView)
    : Cursors * list (string * DaemonLogEvent) :=
  let '(path, view) := changed in
  if negb (is_tailed_log_path path) then (cursors, [])
  else if negb (fv_exists view) then (delete path cursors, [])
  else
    let '(events, offset) := read_new_log_events run_id path (default 0%Z (cursors !! path)) view in
    (<[path := offset]> cursors,
     match events with Ok events => pair path <$> events | _ => [] end).

Fixpoint tail_paths (run_id : string) (cursors : Cursors) (changed : list (string * FileView))
    : Cursors * list (string * DaemonLogEvent) :=
  match changed with
  | [] => (cursors, [])
  | change :: changed =>
      let '(cursors, events) := tail_path run_id cursors change in
      let '(cursors, rest) := tail_paths run_id cursors changed in
      (cursors, events ++ rest)
  end.

(** A message of the watcher; an error of it is printed. *)
Definition tail_step (run_id : string) (cursors : Cursors)
    (event : option (EventKind * list (string * FileView))) : Cursors * list (string * DaemonLogEvent) :=
  match event with
  | Some ((KindAny | KindCreate | KindModify), changed) => tail_paths run_id cursors changed
  | Some (KindRemove, changed) =>
      (foldl (fun cursors change => delete change.1 cursors) cursors changed, [])
  | Some (KindOther, _) | None => (cursors, [])
  end.

Fixpoint tail_run_logs_in_dir (run_id : string) (cursors : Cursors)
    (events : list (option (EventKind * list (string * FileView))))
    : Cursors * list (string * DaemonLogEvent) :=
  match events with
  | [] => (cursors, [])
  | event :: events =>
      let '(cursors, emitted) := tail_step run_id cursors event in
      let '(cursors, rest) := tail_run_logs_in_dir run_id cursors events in
      (cursors, emitted ++ rest)
  end.
End tail.

(** ** The registry *)

Record RunLogTailHandle := mkRunLogTailHandle { lt_subscribers : Z; lt_task : nat }.

(** The handles, the tasks that run, and the number of the next task. *)
Record TailRegistry := mkTailRegistry {
  tr_runs : gmap string RunLogTailHandle;
  tr_live : gset nat;
  tr_next : nat;
}.

Definition retain_run_log_tail (run_id : string) (r : TailRegistry) : TailRegistry :=
  match tr_runs r !! run_id with
  | Some handle =>
      mkTailRegistry
        (<[run_id := mkRunLogTailHandle (lt_subscribers handle + 1) (lt_task handle)]> (tr_runs r))
        (tr_live r) (tr_next r)
  | None =>
      mkTailRegistry (<[run_id := mkRunLogTailHandle 1 (tr_next r)]> (tr_runs r))
        ({[tr_next r]} ∪ tr_live r) (S (tr_next r))
  end.

Definition release_run_log_tail (run_id : string) (r : TailRegistry) : TailRegistry :=
  match tr_runs r !! run_id with
  | None => r
  | Some entry =>
      if (1 <? lt_subscribers entry)%Z
      then mkTailRegistry
             (<[run_id := mkRunLogTailHandle (lt_subscribers entry - 1) (lt_task entry)]> (tr_runs r))
             (tr_live r) (tr_next r)
      else mkTailRegistry (delete run_id (tr_runs r)) (tr_live r ∖ {[lt_task entry]}) (tr_next r)
  end.

(** A task that fails prints its error and is gone. *)
Definition tail_task_ends (task : nat) (r : TailRegistry) : TailRegistry :=
  mkTailRegistry (tr_runs r) (tr_live r ∖ {[task]}) (tr_next r).

Inductive TailOp := Retain (run_id : string) | Release (run_id : string) | TaskEnds (task : nat).

Definition tail_op (r : TailRegistry) (op : TailOp) : TailRegistry :=
  match op with
  | Retain run_id => retain_run_log_tail run_id r
  | Release run_id => release_run_log_tail run_id r
  | TaskEnds task => tail_task_ends task r
  end.

Definition TailRegistry_default : TailRegistry := mkTailRegistry ∅ ∅ 0.

Section once.
Context `{J : Json} (unicode_digit : bytes -> bool) (run_id : string).

(** The events of the lines of a text. *)
Definition text_events (service : string) (text : bytes) : list DaemonLogEvent :=
  omap (parse_log_tail_event unicode_digit run_id service)
    (str_lines (of_bytes (from_utf8_lossy text))).

Lemma text_events_app service a b :
  ends_line a -> text_events service (a ++ b) = text_events service a ++ text_events service b.
Proof.
  intros Ha. unfold text_events. rewrite from_utf8_lossy_app by done.
  rewrite str_lines_app by by apply lossy_ends. by rewrite omap_app.
Qed.

(** A view of a file that holds [content], whose length was looked up a little before. *)
Definition views (content : bytes) (seen : nat) (view : FileView) : Prop :=
  fv_exists view = true /\ fv_content view = Ok content /\ (Z.of_nat seen <= fv_len view)%Z.

(** What was read of a text from [start] on. *)
Definition consumed (start : nat) (content : bytes) : Z :=
  (Z.of_nat start + Z.of_nat (length (complete (drop start content))))%Z.

Lemma consumed_le start content :
  start <= length content -> (consumed start content <= Z.of_nat (length content))%Z.
Proof.
  intros Hs. unfold consumed. destruct (complete_split (drop start content)) as (r & Heq & _).
  apply (f_equal length) in Heq. rewrite length_app, length_drop in Heq. lia.
Qed.

Lemma read_more path service start old new view :
  service_of path = Some service -> start <= length old -> old `prefix_of` new ->
  (Z.of_nat (length new) <= u64_max)%Z -> views new (length old) view ->
  exists events,
    read_new_log_events unicode_digit run_id path (consumed start old) view
      = (Ok events, consumed start new) /\
    text_events service (complete (drop start new))
      = text_events service (complete (drop start old)) ++ events.
Proof.
  intros Hserv Hs [more ->] Hmax (_ & Hc & Hlen). unfold read_new_log_events.
  rewrite (proj2 (Z.ltb_ge _ _)) by (pose proof (consumed_le start old Hs); lia).
  rewrite Hc. cbn [with_context map_err].
  destruct (complete_split (drop start old)) as (rest & Hold & He & Hn).
  set (done := complete (drop start old)) in *.
  assert (drop start (old ++ more) = done ++ (rest ++ more)) as Hnew
    by (rewrite drop_app_le by done; rewrite Hold at 1; by rewrite app_assoc).
  assert (drop (Z.to_nat (consumed start old)) (old ++ more) = rest ++ more) as ->.
  { unfold consumed. fold done. replace (Z.to_nat _) with (start + length done) by lia.
    rewrite <- drop_drop, Hnew. apply drop_app_length. }
  assert (complete (drop start (old ++ more)) = done ++ complete (rest ++ more)) as Hcomp
    by (rewrite Hnew; by apply complete_app).
  assert (consumed start (old ++ more)
    = consumed start old + Z.of_nat (length (complete (rest ++ more))))%Z as Hcons
    by (unfold consumed; rewrite Hcomp, length_app; fold done; lia).
  pose proof (consumed_le start (old ++ more) ltac:(rewrite length_app; lia)).
  rewrite Hcomp, text_events_app, Hcons by done. unfold complete.
  destruct (rposition is_newline (rest ++ more)) as [i|] eqn:Ei.
  - rewrite Hserv. eexists. split; [|reflexivity]. f_equal. unfold saturating_add.
    apply Z.min_l. unfold complete in *. rewrite Ei in *. lia.
  - exists []. simpl. by rewrite Z.add_0_r.
Qed.

(** ** A growing log among others *)

(** The looks at one file in a message of the watcher find texts that grow. *)
Inductive grows_in (path : string) : bytes -> list (string * FileView) -> bytes -> Prop :=
| grows_nil content : grows_in path content [] content
| grows_other content changed content' other view :
    other <> path -> grows_in path content changed content' ->
    grows_in path content ((other, view) :: changed) content'
| grows_more old new changed content view :
    old `prefix_of` new -> views new (length old) view -> grows_in path new changed content ->
    grows_in path old ((path, view) :: changed) content.

(** So they do in all messages, and none says that the file is removed. *)
Inductive grows (path : string) : bytes -> list (option (EventKind * list (string * FileView))) ->
    bytes -> Prop :=
| grows_end content : grows path content [] content
| grows_error content events content' :
    grows path content events content' -> grows path content (None :: events) content'
| grows_removed content changed events content' :
    Forall (fun change => change.1 <> path) changed -> grows path content events content' ->
    grows path content (Some (KindRemove, changed) :: events) content'
| grows_ignored content changed events content' :
    grows path content events content' ->
    grows path content (Some (KindOther, changed) :: events) content'
| grows_changed kind old new changed events content :
    kind = KindAny \/ kind = KindCreate \/ kind = KindModify ->
    grows_in path old changed new -> grows path new events content ->
    grows path old (Some (kind, changed) :: events) content.

Lemma grows_in_prefix path old changed new : grows_in path old changed new -> old `prefix_of` new.
Proof. induction 1; [done|done|by etrans]. Qed.

Lemma grows_prefix path old events new : grows path old events new -> old `prefix_of` new.
Proof.
  induction 1 as [| | | |kind old mid changed events new Hk Hin Hg IH]; try done.
  etrans; [by eapply grows_in_prefix|done].
Qed.

(** The events that come from one file. *)
Definition events_of (path : string) (emitted : list (string * DaemonLogEvent)) : list DaemonLogEvent :=
  (List.filter (fun event => bool_decide (event.1 = path)) emitted).*2.

Lemma events_of_app path a b : events_of path (a ++ b) = events_of path a ++ events_of path b.
Proof. unfold events_of. by rewrite List.filter_app, fmap_app. Qed.

Lemma events_of_pairs path other events :
  events_of path (pair other <$> events) = if bool_decide (other = path) then events else [].
Proof.
  unfold events_of. induction events as [|e events IH]; simpl in *; [by case_bool_decide|].
  case_bool_decide; simpl; [f_equal|]; apply IH.
Qed.

Lemma tail_other path other view cursors cursors' emitted :
  other <> path -> tail_path unicode_digit run_id cursors (other, view) = (cursors', emitted) ->
  cursors' !! path = cursors !! path /\ events_of path emitted = [].
Proof.
  intros Hne. unfold tail_path. destruct (negb _); [by intros [= <- <-]|].
  destruct (negb _); [intros [= <- <-]; by rewrite lookup_delete_ne|].
  destruct (read_new_log_events _ _ _ _ _) as [events offset]. intros [= <- <-].
  rewrite lookup_insert_ne by done. split; [done|]. destruct events; try done.
  rewrite events_of_pairs. by rewrite bool_decide_false.
Qed.

Section one_file.
Context (path service : string) (start : nat).
Context (Htail : is_tailed_log_path path = true) (Hservice : service_of path = Some service).

(** The cursor stands behind what was told of a text. *)
Definition told (cursors : Cursors) (content : bytes) : Prop :=
  start <= length content /\ default 0%Z (cursors !! path) = consumed start content.

(** What of a new text was not told of the old one. *)
Definition tells (old new : bytes) (events : list DaemonLogEvent) : Prop :=
  text_events service (complete (drop start new))
    = text_events service (complete (drop start old)) ++ events.

Lemma tells_trans a b c e1 e2 : tells a b e1 -> tells b c e2 -> tells a c (e1 ++ e2).
Proof. unfold tells. intros -> ->. by rewrite app_assoc. Qed.

Lemma tells_nothing a : tells a a [].
Proof. unfold tells. by rewrite app_nil_r. Qed.

Lemma tail_paths_tell old changed new cursors cursors' emitted :
  grows_in path old changed new -> told cursors old -> (Z.of_nat (length new) <= u64_max)%Z ->
  tail_paths unicode_digit run_id cursors changed = (cursors', emitted) ->
  told cursors' new /\ tells old new (events_of path emitted).
Proof.
  intros Hg. revert cursors cursors' emitted.
  induction Hg as [content|content changed new other view Hne Hg IH|old mid changed new view Hp Hv Hg IH];
    intros cursors cursors' emitted Htold Hmax; cbn [tail_paths].
  - intros [= <- <-]. split; [done|apply tells_nothing].
  - destruct (tail_path _ _ _ _) as [c1 e1] eqn:H1. destruct (tail_paths _ _ c1 changed) as [c2 e2] eqn:H2.
    intros [= <- <-]. destruct (tail_other _ _ _ _ _ _ Hne H1) as [Hc He].
    destruct (IH c1 c2 e2) as [Ht Htells]; try done.
    { unfold told in *. by rewrite Hc. }
    split; [done|]. by rewrite events_of_app, He.
  - destruct (tail_path _ _ _ _) as [c1 e1] eqn:H1. destruct (tail_paths _ _ c1 changed) as [c2 e2] eqn:H2.
    intros [= <- <-]. destruct Htold as [Hs Hcur]. unfold tail_path in H1. rewrite Htail in H1.
    pose proof Hv as (Hex & _). rewrite Hex, Hcur in H1. cbn [negb] in H1.
    pose proof (prefix_length _ _ Hp). pose proof (prefix_length _ _ (grows_in_prefix _ _ _ _ Hg)).
    destruct (read_more path service start old mid view) as (events & Hread & Htext); try done; [lia|].
    rewrite Hread in H1. injection H1 as <- <-.
    destruct (IH (<[path:=consumed start mid]> cursors) c2 e2) as [Ht Htells]; try done.
    { split; [lia|]. by rewrite lookup_insert_eq. }
    split; [done|]. rewrite events_of_app, events_of_pairs, bool_decide_true by done.
    by eapply tells_trans.
Qed.

Lemma deletes_keep (changed : list (string * FileView)) (cursors : Cursors) :
  Forall (fun change => change.1 <> path) changed ->
  foldl (fun cursors change => delete change.1 cursors) cursors changed !! path = cursors !! path.
Proof.
  intros Hf. revert cursors. induction Hf as [|change changed Hne Hf IH]; intros cursors; [done|].
  cbn [foldl]. by rewrite IH, lookup_delete_ne.
Qed.

Lemma run_tells old events new cursors cursors' emitted :
  grows path old events new -> told cursors old -> (Z.of_nat (length new) <= u64_max)%Z ->
  tail_run_logs_in_dir unicode_digit run_id cursors events = (cursors', emitted) ->
  tells old new (events_of path emitted).
Proof.
  intros Hg. revert cursors cursors' emitted.
  induction Hg as [| |content changed events new Hn Hg IH| |kind old mid changed events new Hk Hin Hg IH];
    intros cursors cursors' emitted Htold Hmax; cbn [tail_run_logs_in_dir tail_step].
  - intros [= <- <-]. apply tells_nothing.
  - destruct (tail_run_logs_in_dir _ _ _ _) as [c e] eqn:H. intros [= <- <-]. by eapply IHHg.
  - destruct (tail_run_logs_in_dir _ _ _ _) as [c e] eqn:H. intros [= <- <-]. eapply IH; [|done|exact H].
    unfold told in *. by rewrite deletes_keep.
  - destruct (tail_run_logs_in_dir _ _ _ _) as [c e] eqn:H. intros [= <- <-]. by eapply IHHg.
  - assert (tail_step unicode_digit run_id cursors (Some (kind, changed))
      = tail_paths unicode_digit run_id cursors changed) as Hstep by (by destruct Hk as [-> | [-> | ->]]).
    cbn [tail_step] in Hstep. rewrite Hstep.
    destruct (tail_paths _ _ _ changed) as [c1 e1] eqn:H1.
    destruct (tail_run_logs_in_dir _ _ c1 _) as [c e] eqn:H. intros [= <- <-].
    pose proof (prefix_length _ _ (grows_prefix _ _ _ _ Hg)).
    destruct (tail_paths_tell old changed mid cursors c1 e1) as [Ht Htells]; try done; [lia|].
    rewrite events_of_app. eapply tells_trans; [exact Htells|]. by eapply IH.
Qed.
End one_file.

(** C25: While a log only grows, whoever listens to its run gets an event of each line that
    is completed since, once and in order, whatever happens to the other files and however
    the messages of the watcher are spread; an unfinished line waits for its end. *)
Theorem tail_tells_lines_once path service cursors events old new cursors' emitted :
  is_tailed_log_path path = true -> service_of path = Some service ->
  default 0%Z (cursors !! path) = Z.of_nat (length old) -> grows path old events new ->
  (Z.of_nat (length new) <= u64_max)%Z ->
  tail_run_logs_in_dir unicode_digit run_id cursors events = (cursors', emitted) ->
  events_of path emitted = text_events service (complete (drop (length old) new)).
Proof.
  intros Htail Hservice Hcur Hg Hmax Hrun.
  pose proof (run_tells path service (length old) Htail Hservice old events new cursors cursors'
    emitted Hg) as Htells.
  unfold tells in Htells. rewrite drop_all in Htells. rewrite Htells; try done.
  split; [done|]. unfold consumed. rewrite drop_all. simpl. lia.
Qed.
End once.

(** ** One task for each run with listeners *)

(** How many listen to a run: those who came less those who left. *)
Definition listening (run_id : string) (n : Z) (op : TailOp) : Z :=
  match op with
  | Retain id => if bool_decide (id = run_id) then n + 1 else n
  | Release id => if bool_decide (id = run_id) then Z.max 0 (n - 1) else n
  | TaskEnds _ => n
  end.

Definition listeners_after (ops : list TailOp) (run_id : string) : Z :=
  foldl (listening run_id) 0%Z ops.

Definition registry_after (ops : list TailOp) : TailRegistry := foldl tail_op TailRegistry_default ops.

Record registry_ok (count : string -> Z) (ended : Prop) (r : TailRegistry) : Prop := {
  ro_none run_id : tr_runs r !! run_id = None -> count run_id = 0%Z;
  ro_some run_id handle : tr_runs r !! run_id = Some handle ->
    count run_id = lt_subscribers handle /\ (0 < lt_subscribers handle)%Z /\ lt_task handle < tr_next r;
  ro_distinct run1 run2 h1 h2 : tr_runs r !! run1 = Some h1 -> tr_runs r !! run2 = Some h2 ->
    lt_task h1 = lt_task h2 -> run1 = run2;
  ro_no_orphan task : task ∈ tr_live r ->
    exists run_id handle, tr_runs r !! run_id = Some handle /\ lt_task handle = task;
  ro_live run_id handle : tr_runs r !! run_id = Some handle -> ended \/ lt_task handle ∈ tr_live r;
}.

Lemma retain_ok count ended r run_id :
  registry_ok count ended r ->
  registry_ok (fun id => if bool_decide (run_id = id) then count id + 1 else count id)%Z ended
    (retain_run_log_tail run_id r).
Proof.
  intros [Hn Hs Hd Ho Hl]. unfold retain_run_log_tail.
  destruct (tr_runs r !! run_id) as [handle|] eqn:Hr.
  - pose proof (Hs _ _ Hr) as (Hc & Hpos & Ht). split; cbn [tr_runs tr_live tr_next].
    + intros id. rewrite lookup_insert_None. intros [? ?]. rewrite bool_decide_false by done. by apply Hn.
    + intros id h. rewrite lookup_insert_Some. intros [[<- <-]|[Hne Hh]]; simpl.
      * rewrite bool_decide_true by done. lia.
      * rewrite bool_decide_false by done. by apply Hs.
    + intros run1 run2 h1 h2. rewrite !lookup_insert_Some. naive_solver.
    + intros task Htask. destruct (Ho task Htask) as (id & h & Hid & Hh).
      destruct (decide (id = run_id)) as [->|]; [|by exists id, h; rewrite lookup_insert_ne].
      eexists run_id, _. rewrite lookup_insert_eq. split; [done|]. simpl. congruence.
    + intros id h. rewrite lookup_insert_Some. intros [[<- <-]|[Hne Hh]]; simpl; [|by eapply Hl].
      by eapply (Hl run_id).
  - pose proof (Hn _ Hr) as Hc. split; cbn [tr_runs tr_live tr_next].
    + intros id. rewrite lookup_insert_None. intros [? ?]. rewrite bool_decide_false by done. by apply Hn.
    + intros id h. rewrite lookup_insert_Some. intros [[<- <-]|[Hne Hh]]; simpl.
      * rewrite bool_decide_true by done. lia.
      * rewrite bool_decide_false by done. destruct (Hs id h Hh) as (? & ? & ?). lia.
    + intros run1 run2 h1 h2. rewrite !lookup_insert_Some.
      intros [[<- <-]|[H1 Hh1]] [[<- <-]|[H2 Hh2]]; simpl; try done; [| |by eapply Hd].
      * intros Heq. destruct (Hs _ _ Hh2) as (_ & _ & ?). lia.
      * intros Heq. destruct (Hs _ _ Hh1) as (_ & _ & ?). lia.
    + intros task [->%elem_of_singleton|Htask]%elem_of_union.
      * eexists run_id, _. by rewrite lookup_insert_eq.
      * destruct (Ho task Htask) as (id & h & Hid & Hh). exists id, h.
        rewrite lookup_insert_ne by congruence. done.
    + intros id h. rewrite lookup_insert_Some. intros [[<- <-]|[Hne Hh]]; simpl; [set_solver|].
      destruct (Hl id h Hh); [by left|set_solver].
Qed.

Lemma release_ok count ended r run_id :
  registry_ok count ended r ->
  registry_ok (fun id => if bool_decide (run_id = id) then Z.max 0 (count id - 1) else count id) ended
    (release_run_log_tail run_id r).
Proof.
  intros [Hn Hs Hd Ho Hl]. unfold release_run_log_tail.
  destruct (tr_runs r !! run_id) as [entry|] eqn:Hr.
  2:{ pose proof (Hn _ Hr) as Hc. split; try done.
      - intros id Hid. rewrite (Hn _ Hid). by case_bool_decide.
      - intros id h Hh. rewrite bool_decide_false by congruence. by apply Hs. }
  pose proof (Hs _ _ Hr) as (Hc & Hpos & Ht).
  destruct (Z.ltb_spec 1 (lt_subscribers entry)); split; cbn [tr_runs tr_live tr_next].
  - intros id. rewrite lookup_insert_None. intros [? ?]. rewrite bool_decide_false by done. by apply Hn.
  - intros id h. rewrite lookup_insert_Some. intros [[<- <-]|[Hne Hh]]; simpl.
    + rewrite bool_decide_true by done. lia.
    + rewrite bool_decide_false by done. by apply Hs.
  - intros run1 run2 h1 h2. rewrite !lookup_insert_Some. naive_solver.
  - intros task Htask. destruct (Ho task Htask) as (id & h & Hid & Hh).
    destruct (decide (id = run_id)) as [->|]; [|by exists id, h; rewrite lookup_insert_ne].
    eexists run_id, _. rewrite lookup_insert_eq. split; [done|]. simpl. congruence.
  - intros id h. rewrite lookup_insert_Some. intros [[<- <-]|[Hne Hh]]; simpl; [|by eapply Hl].
    by eapply (Hl run_id).
  - intros id. rewrite lookup_delete_None. intros [<-|Hid].
    + rewrite bool_decide_true by done. lia.
    + rewrite (Hn _ Hid). by case_bool_decide.
  - intros id h [Hne Hh]%lookup_delete_Some. rewrite bool_decide_false by done. by apply Hs.
  - intros run1 run2 h1 h2 [? ?]%lookup_delete_Some [? ?]%lookup_delete_Some. by eapply Hd.
  - intros task [Htask Hne]%elem_of_difference. destruct (Ho task Htask) as (id & h & Hid & Hh).
    exists id, h. rewrite lookup_delete_ne; [done|]. intros ->. set_solver.
  - intros id h [Hne Hh]%lookup_delete_Some. destruct (Hl id h Hh); [by left|right].
    apply elem_of_difference. split; [done|]. rewrite elem_of_singleton. intros Heq.
    by destruct Hne; eapply Hd.
Qed.

Lemma registry_ok_ext (count count' : string -> Z) (ended ended' : Prop) r :
  (forall id, count id = count' id) -> (ended -> ended') ->
  registry_ok count ended r -> registry_ok count' ended' r.
Proof.
  intros Hc He [Hn Hs Hd Ho Hl]. split; try done.
  - intros id Hid. rewrite <- Hc. by apply Hn.
  - intros id h Hh. rewrite <- Hc. by apply Hs.
  - intros id h Hh. destruct (Hl id h Hh); auto.
Qed.

Definition some_task_ended (ops : list TailOp) : Prop :=
  Exists (fun op => match op with TaskEnds _ => True | _ => False end) ops.

(** After any comings and goings of listeners, a run has a handle exactly while
    somebody listens to it, with the number of those who do; no task runs without its
    handle, no two runs share one, and as long as no task failed every handle's runs. *)
Theorem tail_registry_counts ops :
  registry_ok (listeners_after ops) (some_task_ended ops) (registry_after ops).
Proof.
  unfold listeners_after, registry_after, some_task_ended.
  induction ops as [|op ops IH] using rev_ind; [by split; try set_solver|].
  rewrite foldl_snoc. destruct op as [run_id|run_id|task]; cbn [tail_op].
  - eapply registry_ok_ext; [| |by apply retain_ok, IH].
    + intros id. by rewrite foldl_snoc.
    + intros H. apply Exists_app. by left.
  - eapply registry_ok_ext; [| |by apply release_ok, IH].
    + intros id. by rewrite foldl_snoc.
    + intros H. apply Exists_app. by left.
  - destruct IH as [Hn Hs Hd Ho Hl]. split; cbn [tail_task_ends tr_runs tr_live tr_next].
    + intros id Hid. rewrite foldl_snoc. by apply Hn.
    + intros id h Hh. rewrite foldl_snoc. by apply Hs.
    + done.
    + intros t [Ht _]%elem_of_difference. by apply Ho.
    + intros id h _. left. apply Exists_app. right. by constructor.
Qed.

(** A task that failed is not started again while somebody listens: who comes later hears
    nothing. *)
Lemma failed_tail_stays :
  let r := registry_after [Retain "r1"; TaskEnds 0; Retain "r1"] in
  tr_live r = ∅ /\ listeners_after [Retain "r1"; TaskEnds 0; Retain "r1"] "r1" = 2%Z.
Proof. by vm_compute. Qed.

(** ** A concrete log *)

Definition newline_in (a b : string) : bytes := to_bytes a ++ "010"%char :: to_bytes b.

Definition example_view (content : bytes) : FileView :=
  mkFileView true (Z.of_nat (length content)) (Ok content).

Lemma example_views content seen : seen <= length content -> views content seen (example_view content).
Proof. intros Hs. split; [done|]. split; [done|]. simpl. lia. Qed.

(** A log of one line grows by a line and a half, then by the other half. *)
Definition example_old : bytes := newline_in "up" "".
Definition example_mid : bytes := example_old ++ newline_in "one" "tw".
Definition example_new : bytes := example_mid ++ newline_in "o" "".

Definition example_messages : list (option (EventKind * list (string * FileView))) :=
  [Some (KindModify, [("/logs/api.log", example_view example_mid); ("/logs/x.tmp", example_view [])]);
   None; Some (KindAny, [("/logs/api.log", example_view example_new)])].

Lemma tail_tells_lines_once_witness :
  let tail := @tail_run_logs_in_dir concrete_json (fun _ => false) "r1"
    {["/logs/api.log" := 3%Z]} example_messages in
  events_of "/logs/api.log" tail.2 = @text_events concrete_json (fun _ => false) "r1" "api"
    (newline_in "one" "" ++ newline_in "two" "") /\
  map (@le_message concrete_json) (events_of "/logs/api.log" tail.2) = ["one"; "two"].
Proof.
  intros tail.
  assert (events_of "/logs/api.log" tail.2 = @text_events concrete_json (fun _ => false) "r1" "api"
    (newline_in "one" "" ++ newline_in "two" "")) as He.
  { apply (@tail_tells_lines_once concrete_json (fun _ => false) "r1" "/logs/api.log" "api"
      {["/logs/api.log" := 3%Z]} example_messages example_old example_new tail.1 tail.2);
      [reflexivity|reflexivity|reflexivity| |vm_compute; discriminate|apply surjective_pairing].
    eapply grows_changed; [by right; right|..].
    - eapply grows_more; [by eexists|apply example_views; simpl; lia|].
      apply grows_other; [done|apply grows_nil].
    - apply grows_error. eapply grows_changed; [by left| |apply grows_end].
      eapply grows_more; [by eexists|apply example_views; simpl; lia|apply grows_nil]. }
  split; [exact He|]. rewrite He. vm_compute. reflexivity.
Defined.
