(* ===== verification/CliContext.v ===== *)
(** * What a command of the user means

    Models [src/cli/context.rs]: which project, configuration, stack and run a command is
    about, and what the command line knows when the daemon does not answer.

    The working directory, the file system, the parsers and the daemon's answers are
    arguments; a time is the number of its instant. *)

From S2P Require Import Prelude Bytes BMap Util Json ConfigModel ConfigPlan ConfigValidate RunModel Lifecycle Manifest Sort.
From Stdlib Require Import Lia ZArith.

Record ProjectContext := mkProjectContext { pj_project_dir : string; pj_config_path : option string }.

Record RunSummary := mkRunSummary {
  rm_run_id : string;
  rm_stack : string;
  rm_project_dir : string;
  rm_state : RunLifecycle;
  rm_created_at : string;
  rm_stopped_at : option string;
}.

(** Whether a relative path starts with [.] on its own, which a comparison of paths sees. *)
Definition starts_cur (p : string) : bool :=
  match split_on "/"%char (to_bytes p) with ["."%char] :: _ => true | _ => false end.

(** The comparison of paths: by components. *)
Definition path_eq (p q : string) : bool :=
  eqb (is_absolute p) (is_absolute q) && eqb (starts_cur p) (starts_cur q)
  && bool_decide (components p = components q).

(** [str::cmp]: the comparison of the bytes. *)
Fixpoint bytes_le (a b : bytes) : bool :=
  match a, b with
  | [], _ => true
  | _ :: _, [] => false
  | x :: a, y :: b =>
      (nat_of_ascii x <? nat_of_ascii y) || ((nat_of_ascii x =? nat_of_ascii y) && bytes_le a b)
  end.

Definition DEFAULT_NONINTERACTIVE_FOLLOW_FOR : Z := 15000.

(** Times in milliseconds. *)
Definition resolve_follow_for (follow : bool) (follow_for : option Z) (interactive : bool) : option Z :=
  if negb follow then None
  else match follow_for with
       | Some limit => Some limit
       | None => if interactive then None else Some DEFAULT_NONINTERACTIVE_FOLLOW_FOR
       end.

(** ** Projects and stacks *)

Section project.
Context (home : option string) (exists_ is_file : string -> bool).
Context (debug : string -> string) (parse_yaml parse_toml : bytes -> outcome ConfigFile).
Context (read : string -> outcome bytes).

Definition resolve_project_context_with_cwd (cwd : string) (project file : option string)
    : outcome ProjectContext :=
  match file with
  | Some file =>
      let file_path := absolutize_path home cwd file in
      let project_dir :=
        match project with
        | Some project => absolutize_path home cwd project
        | None => default cwd (parent file_path)
        end in
      Ok (mkProjectContext project_dir (Some file_path))
  | None =>
      match project with
      | Some project =>
          let project_dir := absolutize_path home cwd project in
          Ok (mkProjectContext project_dir (Some (default_path exists_ project_dir)))
      | None =>
          nearest ← find_nearest_path is_file cwd;
          match nearest with
          | Some config_path => Ok (mkProjectContext (default cwd (parent config_path)) (Some config_path))
          | None => Ok (mkProjectContext cwd None)
          end
      end
  end.

Definition ends_with (suffix s : string) : bool :=
  match strip_prefix (reverse (to_bytes suffix)) (reverse (to_bytes s)) with
  | Some _ => true
  | None => false
  end.

Definition looks_like_config_path (value : string) : bool :=
  let lower := str_to_ascii_lowercase value in
  ends_with ".toml" lower || ends_with ".yaml" lower || ends_with ".yml" lower.

Definition resolve_up_context (cwd : string) (stack project file : option string)
    : outcome (ProjectContext * option string) :=
  let '(stack, file) :=
    match file, stack with
    | None, Some candidate =>
        if looks_like_config_path candidate
        then let path := absolutize_path home cwd candidate in
             if is_file path then (None, Some path) else (stack, file)
        else (stack, file)
    | _, _ => (stack, file)
    end in
  context ← resolve_project_context_with_cwd cwd project file;
  Ok (context, stack).

Definition load_cli_config (path : string) : outcome ConfigFile :=
  load_from_path debug parse_yaml parse_toml read path.

Definition stack_names (config : ConfigFile) : list string := bkeys (cf_stacks config).

(** A named stack is checked when there is a file that says which there are. *)
Definition check_stack_name (name : string) (config_path : option string) : outcome string :=
  match config_path with
  | Some config_path =>
      if is_file config_path then
        match load_cli_config config_path with
        | Ok config =>
            let available := stack_names config in
            if negb (bcontains name (cf_stacks config)) && negb (bool_decide (available = []))
            then Err ("stack '" +:+ name +:+ "' not found in " +:+ config_path
                      +:+ "; available stacks: " +:+ join ", " available)
            else Ok name
        | Err _ => Ok name
        | Panic => Panic
        | OutOfFuel => OutOfFuel
        end
      else Ok name
  | None => Ok name
  end.

Definition resolve_stack_name (stack config_path : option string) : outcome string :=
  match stack with
  | Some name => check_stack_name name config_path
  | None =>
      config_path ← ok_or config_path "no devstack config found; run devstack init or pass --file";
      if negb (is_file config_path)
      then Err ("config not found at " +:+ config_path +:+ "; run devstack init or pass --file") else
      config ← load_cli_config config_path;
      match cf_default_stack config with
      | Some default_stack => Ok default_stack
      | None =>
          match stack_names config with
          | [] => Err ("no stacks defined in " +:+ config_path +:+ "; add one or pass --stack")
          | [name] => Ok name
          | stacks => Err ("multiple stacks found in " +:+ config_path +:+ ": " +:+ join ", " stacks
                           +:+ " (use --stack or default_stack)")
          end
      end
  end.
End project.

(** ** Runs *)

Section runs.
Context (canonicalize : string -> option string) (parse_rfc3339 : string -> option Z).
Implicit Types (run : RunSummary) (runs : list RunSummary).

Definition compare_run_recency (a b : RunSummary) : comparison :=
  match parse_rfc3339 (rm_created_at a), parse_rfc3339 (rm_created_at b) with
  | Some a_time, Some b_time => Z.compare a_time b_time
  | Some _, None => Gt
  | None, Some _ => Lt
  | None, None =>
      let a := to_bytes (rm_created_at a) in
      let b := to_bytes (rm_created_at b) in
      if bytes_le a b then (if bytes_le b a then Eq else Lt) else Gt
  end.

Definition run_in_project (run_project_dir project_dir : string) : bool :=
  if path_eq run_project_dir project_dir then true
  else path_eq (default run_project_dir (canonicalize run_project_dir))
         (default project_dir (canonicalize project_dir)).

(** [Iterator::max_by]: of equal elements the last. *)
Definition max_by (compare : RunSummary -> RunSummary -> comparison) (l : list RunSummary)
    : option RunSummary :=
  foldl (fun best run =>
           match best with
           | None => Some run
           | Some b => match compare b run with Gt => Some b | _ => Some run end
           end) None l.

Definition select_latest_run runs (project_dir : string) : option RunSummary :=
  max_by compare_run_recency
    (List.filter (fun run => run_in_project (rm_project_dir run) project_dir) runs).

Definition active_run run : bool :=
  negb (bool_decide (rm_state run = RunStopped)) && bool_decide (rm_stopped_at run = None).

Definition select_latest_active_run runs (project_dir : string) : option RunSummary :=
  max_by compare_run_recency
    (List.filter active_run
       (List.filter (fun run => run_in_project (rm_project_dir run) project_dir) runs)).

Definition run_order (project_dir : string) (a b : RunSummary) : comparison :=
  match run_in_project (rm_project_dir a) project_dir,
        run_in_project (rm_project_dir b) project_dir with
  | true, false => Lt
  | false, true => Gt
  | _, _ => compare_run_recency b a
  end.

Definition run_le (project_dir : string) (a b : RunSummary) : bool :=
  match run_order project_dir a b with Gt => false | _ => true end.

Definition sort_runs_for_project runs (project_dir : string) : list RunSummary :=
  sort_by (run_le project_dir) runs.

(** *** What is on disk *)

Definition summary_of (manifest : PersistedRun) : RunSummary :=
  mkRunSummary (pr_run_id manifest) (pr_stack manifest) (pr_project_dir manifest) (pr_state manifest)
    (pr_created_at manifest) (pr_stopped_at manifest).

(** The directory of the runs, whether a path exists, the entries of a directory, the
    manifests. *)
Context (runs_dir : outcome string) (exists_ : string -> bool).
Context (read_dir : string -> outcome (list (outcome string))).
Context (load_manifest : string -> outcome PersistedRun).
Context (run_manifest_path : string -> outcome string).

Definition disk_entry runs (entry : outcome string) : outcome (list RunSummary) :=
  entry ← entry;
  let manifest_path := path_join entry "manifest.json" in
  if negb (exists_ manifest_path) then Ok runs else
  or_skip (load_manifest manifest_path) runs (fun manifest => Ok (runs ++ [summary_of manifest])).

Definition runs_from_disk : outcome (list RunSummary) :=
  root ← runs_dir;
  if negb (exists_ root) then Ok [] else
  entries ← read_dir root; ofold disk_entry entries [].

(** The answer of the daemon, or else of the disk, and whether it is the disk's. *)
Definition fetch_runs_with_fallback (daemon : outcome (list RunSummary))
    : outcome (list RunSummary * bool) :=
  match daemon with
  | Ok runs => Ok (runs, false)
  | Err err => match runs_from_disk with Ok runs => Ok (runs, true) | Err _ => Err err | o => _ ← o; Err err end
  | Panic => Panic
  | OutOfFuel => OutOfFuel
  end.

Definition fetch_runs (daemon : outcome (list RunSummary)) : outcome (list RunSummary) :=
  runs ← fetch_runs_with_fallback daemon; Ok runs.1.

Definition resolve_run_id (daemon : outcome (list RunSummary)) (project_dir : string)
    (run_id : option string) : outcome string :=
  match run_id with
  | Some run_id => Ok run_id
  | None =>
      runs ← fetch_runs daemon;
      latest ← ok_or (select_latest_run runs project_dir)
        ("no runs found for project " +:+ project_dir +:+ " (use --run or devstack ls --all)");
      Ok (rm_run_id latest)
  end.

Definition resolve_latest_run_id (daemon : outcome (list RunSummary)) (project_dir : string)
    : outcome (option string) :=
  runs ← fetch_runs_with_fallback daemon;
  Ok (rm_run_id <$> select_latest_run runs.1 project_dir).

Definition resolve_active_run_id (daemon : outcome (list RunSummary)) (project_dir : string)
    : outcome (option string) :=
  runs ← fetch_runs_with_fallback daemon;
  Ok (rm_run_id <$> select_latest_active_run runs.1 project_dir).

Definition manifest_status (desired : string) (svc : PersistedService) : ServiceStatus :=
  mkServiceStatus desired None (bool_decide (pv_state svc = Ready)) (pv_state svc)
    (pv_last_failure svc) None None [] (pv_url svc) false false false.

Definition status_from_manifest (run_id : string) : outcome RunStatus :=
  manifest_path ← run_manifest_path run_id;
  manifest ← load_manifest manifest_path;
  let desired := if bool_decide (pr_state manifest = RunStopped) then "stopped" else "running" in
  Ok (mkRunStatus (pr_run_id manifest) (pr_stack manifest) (pr_project_dir manifest) (pr_state manifest)
        (bmap_values (fun _ => manifest_status desired) (pr_services manifest))).
End runs.

(** ** The stack a command starts has a plan *)

Section stacks.
Context (is_file : string -> bool) (debug : string -> string).
Context (parse_yaml parse_toml : bytes -> outcome ConfigFile) (read : string -> outcome bytes).

Lemma default_stack_known cfg name :
  validate cfg = Ok tt -> cf_default_stack cfg = Some name -> bcontains name (cf_stacks cfg) = true.
Proof.
  unfold validate. rewrite bind_unit. intros [Hd _] Hn. rewrite Hn in Hd.
  apply fail_if_Ok in Hd. by apply negb_false_iff in Hd.
Qed.

Lemma bcontains_get {V} (k : string) (m : bmap string V) :
  bcontains k m = true -> exists v, bget k m = Some v.
Proof. unfold bcontains. destruct (bget k m); [eauto|done]. Qed.

Lemma resolved_stack_known stack path cfg name :
  is_file path = true -> load_cli_config debug parse_yaml parse_toml read path = Ok cfg ->
  cf_stacks cfg <> [] ->
  resolve_stack_name is_file debug parse_yaml parse_toml read stack (Some path) = Ok name ->
  bcontains name (cf_stacks cfg) = true.
Proof.
  intros Hf Hl Hne. destruct (load_validated _ _ _ _ _ _ Hl) as (_ & Hv & _).
  unfold resolve_stack_name, check_stack_name. cbn [ok_or mbind outcome_bind]. rewrite Hf, Hl. simpl.
  assert (stack_names cfg <> []) as Hnames by (unfold stack_names; by destruct (cf_stacks cfg)).
  destruct stack as [stack|].
  - rewrite (bool_decide_false (stack_names cfg = [])) by done. cbn [negb]. rewrite andb_true_r.
    destruct (bcontains stack (cf_stacks cfg)) eqn:Hc; simpl; [|done]. by intros [= <-].
  - destruct (cf_default_stack cfg) as [d|] eqn:Hd.
    + intros [= <-]. by apply default_stack_known.
    + destruct (stack_names cfg) as [|n [|n' names]] eqn:Hn; try done. intros [= <-].
      apply bcontains_keys. unfold stack_names in Hn. rewrite Hn. by left.
Qed.

(** When a command finds a configuration that defines a stack, the stack it resolves to,
    named, by default or the only one, is one of that configuration, and the daemon that
    loads the file has a plan for it, with every service after what it depends on. *)
Theorem resolved_stack_plans stack path cfg name :
  is_file path = true -> load_cli_config debug parse_yaml parse_toml read path = Ok cfg ->
  config_wf cfg -> cf_stacks cfg <> [] ->
  resolve_stack_name is_file debug parse_yaml parse_toml read stack (Some path) = Ok name ->
  exists st plan, bget name (cf_stacks cfg) = Some st /\ stack_plan cfg name = Ok plan /\
    sp_order plan ≡ₚ bkeys (st_services st) /\
    forall s svc d, bget s (st_services st) = Some svc -> d ∈ sc_deps svc -> before d s (sp_order plan).
Proof.
  intros Hf Hl [_ Hwf] Hne Hr. destruct (load_validated _ _ _ _ _ _ Hl) as (_ & Hv & _).
  destruct (bcontains_get _ _ (resolved_stack_known _ _ _ _ Hf Hl Hne Hr)) as [st Hst].
  pose proof (bget_Some_in _ _ _ Hst) as Hin. specialize (Hwf _ _ Hin).
  destruct (validate_stacks _ _ _ Hv Hin) as [_ _ Hdeps [order Ho]].
  destruct (topo_sort_order _ _ Hwf Ho) as [Hperm Hbefore].
  exists st, (mkStackPlan name (st_services st) order). split; [done|]. split.
  { unfold stack_plan. rewrite Hst. ored. by rewrite Ho. }
  split; [done|]. intros s svc d Hs Hd. eapply Hbefore; [done..|]. eapply Hdeps; [|done].
  by apply bget_Some_in.
Qed.
End stacks.

(** ** The latest run *)

Section recency.
Context (canonicalize : string -> option string) (parse_rfc3339 : string -> option Z).
Implicit Types (a b c : RunSummary) (runs : list RunSummary).

Lemma bytes_le_total x y : bytes_le x y = true \/ bytes_le y x = true.
Proof.
  revert y. induction x as [|c x IH]; intros [|d y]; simpl; auto.
  destruct (Nat.ltb_spec (nat_of_ascii c) (nat_of_ascii d)); [by left|].
  destruct (Nat.ltb_spec (nat_of_ascii d) (nat_of_ascii c)); [by right|].
  rewrite !(proj2 (Nat.eqb_eq _ _)) by lia. apply IH.
Qed.

Lemma bytes_le_trans x y z : bytes_le x y = true -> bytes_le y z = true -> bytes_le x z = true.
Proof.
  revert y z. induction x as [|c x IH]; intros [|d y] [|e z]; simpl; try done.
  rewrite !orb_true_iff, !andb_true_iff, !Nat.ltb_lt, !Nat.eqb_eq.
  intros [H1|[H1 H1']] [H2|[H2 H2']]; [left; lia..|]. right. split; [congruence|by eapply IH].
Qed.

Definition recency_le a b : Prop := compare_run_recency parse_rfc3339 a b <> Gt.

Lemma recency_total a b : recency_le a b \/ recency_le b a.
Proof.
  unfold recency_le, compare_run_recency.
  destruct (parse_rfc3339 (rm_created_at a)) as [x|], (parse_rfc3339 (rm_created_at b)) as [y|];
    try (by left); try (by right).
  - destruct (Z.compare_spec x y), (Z.compare_spec y x); try (by left); try (by right); lia.
  - destruct (bytes_le_total (to_bytes (rm_created_at a)) (to_bytes (rm_created_at b))) as [->|H].
    + left. by case_match.
    + right. rewrite H. by case_match.
Qed.

Lemma recency_trans a b c : recency_le a b -> recency_le b c -> recency_le a c.
Proof.
  unfold recency_le, compare_run_recency.
  destruct (parse_rfc3339 (rm_created_at a)) as [x|], (parse_rfc3339 (rm_created_at b)) as [y|],
    (parse_rfc3339 (rm_created_at c)) as [z|]; try done.
  - rewrite !Z.compare_ngt_iff. lia.
  - destruct (bytes_le (to_bytes (rm_created_at a)) (to_bytes (rm_created_at b))) eqn:H1; [|done].
    destruct (bytes_le (to_bytes (rm_created_at b)) (to_bytes (rm_created_at c))) eqn:H2; [|done].
    rewrite (bytes_le_trans _ _ _ H1 H2). intros _ _. by case_match.
Qed.

Lemma max_by_spec (l : list RunSummary) :
  match max_by (compare_run_recency parse_rfc3339) l with
  | Some run => run ∈ l /\ forall other, other ∈ l -> recency_le other run
  | None => l = []
  end.
Proof.
  induction l as [|run l IH] using rev_ind; [done|]. unfold max_by in *. rewrite foldl_snoc.
  destruct (foldl _ None l) as [best|] eqn:Hb.
  - destruct IH as [Hin Hall].
    destruct (compare_run_recency parse_rfc3339 best run) eqn:Hc.
    3:{ split; [set_solver|]. intros other [Ho| ->%list_elem_of_singleton]%elem_of_app; [by apply Hall|].
        destruct (recency_total run best) as [?|Hle]; [done|]. by destruct (Hle Hc). }
    all: split; [set_solver|]; intros other [Ho| ->%list_elem_of_singleton]%elem_of_app;
      [eapply recency_trans; [by apply Hall|]; unfold recency_le; by rewrite Hc
      |by destruct (recency_total run run)].
  - subst l. split; [set_solver|]. intros other ->%list_elem_of_singleton.
    by destruct (recency_total run run).
Qed.

(** The runs of a project. *)
Definition of_project (project_dir : string) (run : RunSummary) : bool :=
  run_in_project canonicalize (rm_project_dir run) project_dir.

Lemma run_le_total project_dir a b :
  run_le canonicalize parse_rfc3339 project_dir a b = true \/
  run_le canonicalize parse_rfc3339 project_dir b a = true.
Proof.
  unfold run_le, run_order. fold (of_project project_dir a) (of_project project_dir b).
  pose proof (recency_total a b) as Ht. unfold recency_le in Ht.
  destruct (of_project project_dir a), (of_project project_dir b); try (by left); try (by right);
    (destruct Ht as [Ht|Ht]; [right|left]; by case_match).
Qed.

Lemma run_le_spec project_dir a b :
  run_le canonicalize parse_rfc3339 project_dir a b = true <->
  if of_project project_dir a then (of_project project_dir b = true -> recency_le b a)
  else of_project project_dir b = false /\ recency_le b a.
Proof.
  unfold run_le, run_order, recency_le.
  fold (of_project project_dir a) (of_project project_dir b).
  destruct (of_project project_dir a), (of_project project_dir b); try (by case_match; naive_solver);
    naive_solver.
Qed.

Lemma run_le_trans project_dir a b c :
  run_le canonicalize parse_rfc3339 project_dir a b = true ->
  run_le canonicalize parse_rfc3339 project_dir b c = true ->
  run_le canonicalize parse_rfc3339 project_dir a c = true.
Proof.
  rewrite !run_le_spec. pose proof (recency_trans c b a).
  destruct (of_project project_dir a), (of_project project_dir b), (of_project project_dir c);
    naive_solver.
Qed.

(** Whatever the times of the runs, also those that do not parse, a command without a
    run means the latest of its project, an active one where it needs it, and finds one
    whenever there is one; the list of runs has those of the project first, each part from
    the latest on. *)
Theorem latest_run_meant runs project_dir :
  (forall active : bool,
    let wanted run := of_project project_dir run && (negb active || active_run run) in
    match (if active then select_latest_active_run canonicalize parse_rfc3339 runs project_dir
           else select_latest_run canonicalize parse_rfc3339 runs project_dir) with
    | Some run => run ∈ runs /\ wanted run = true /\
        forall other, other ∈ runs -> wanted other = true -> recency_le other run
    | None => forall run, run ∈ runs -> wanted run = false
    end) /\
  let sorted := sort_runs_for_project canonicalize parse_rfc3339 runs project_dir in
  sorted ≡ₚ runs /\
  forall i j a b, i < j -> sorted !! i = Some a -> sorted !! j = Some b ->
    if of_project project_dir a then (of_project project_dir b = true -> recency_le b a)
    else of_project project_dir b = false /\ recency_le b a.
Proof.
  split; [|split; [apply sort_by_perm|]].
  - intros active wanted.
    assert ((if active then select_latest_active_run canonicalize parse_rfc3339 runs project_dir
             else select_latest_run canonicalize parse_rfc3339 runs project_dir)
      = max_by (compare_run_recency parse_rfc3339) (List.filter wanted runs)) as ->.
    { unfold select_latest_active_run, select_latest_run, wanted, of_project.
      destruct active; simpl; f_equal.
      - induction runs as [|r l IH]; simpl; [done|]. destruct (run_in_project _ _ _); simpl; [|done].
        by rewrite IH.
      - induction runs as [|r l IH]; simpl; [done|]. by rewrite IH, andb_true_r. }
    pose proof (max_by_spec (List.filter wanted runs)) as Hm. case_match.
    + destruct Hm as [Hin Hall]. rewrite list_elem_of_In, filter_In, <- list_elem_of_In in Hin.
      destruct Hin as [Hin Hw]. do 2 (split; [done|]). intros other Ho Hwo. apply Hall.
      by rewrite list_elem_of_In, filter_In, <- list_elem_of_In.
    + intros run Hrun. destruct (wanted run) eqn:Hw; [|done].
      assert (run ∈ List.filter wanted runs) as Hin
        by (by rewrite list_elem_of_In, filter_In, <- list_elem_of_In).
      rewrite Hm in Hin. by apply not_elem_of_nil in Hin.
  - intros i j a b Hij Ha Hb. apply run_le_spec.
    pose proof (sort_by_sorted (run_le canonicalize parse_rfc3339 project_dir)
      (run_le_total project_dir) (run_le_trans project_dir) runs) as Hs.
    by eapply sorted_by_lookup.
Qed.
End recency.

Lemma resolved_stack_plans_witness :
  let load := load_cli_config id (fun _ => Ok sample_config) (fun _ => Err "not toml") (fun _ => Ok []) in
  exists name plan,
    resolve_stack_name (fun _ => true) id (fun _ => Ok sample_config) (fun _ => Err "not toml")
      (fun _ => Ok []) None (Some "/p/devstack.yml") = Ok name /\ name = "dev" /\
    stack_plan sample_config name = Ok plan.
Proof.
  intros load.
  destruct (resolved_stack_plans (fun _ => true) id (fun _ => Ok sample_config)
    (fun _ => Err "not toml") (fun _ => Ok []) None "/p/devstack.yml" sample_config "dev")
    as (st & plan & _ & Hp & _); [reflexivity|by vm_compute| |done|by vm_compute|].
  - split; [repeat constructor|]. intros n st [[= -> ->]|?%elem_of_nil]%elem_of_cons; [|done].
    apply bwf_bcollect.
  - exists "dev", plan. by split; [vm_compute|].
Defined.
