(* ===== verification/LogPrint.v ===== *)
(** * Printing logs

    Models [src/logs.rs]: the structured form of a line, what is printed of a line or an
    entry, and the loop that prints a file and what is added to it.

    What a look at the open file finds is its length and its bytes; the lines that are
    printed are collected. *)

From S2P Require Import Prelude Bytes BMap Util Json Logfmt LogIndex LogText LogQuery.
From Stdlib Require Import Lia ZArith.

Inductive LogOutputFormat := Text | JsonFormat.

Record StructuredLogLine := mkStructuredLogLine {
  st_timestamp : option string;
  st_service : string;
  st_stream : string;
  st_level : option string;
  st_message : string;
  st_attributes : bmap string string;
}.

Section print.
Context `{J : Json} (unicode_digit : bytes -> bool).

Definition normalize_level (level : option string) (message : string) : option string :=
  let detected :=
    let level := detect_log_level unicode_digit message in
    if bool_decide (level = "error") then Some "error"
    else if bool_decide (level = "warn") then Some "warn" else None in
  match level with
  | Some level =>
      let lower := str_to_ascii_lowercase (str_trim level) in
      if bool_decide (lower = "info") || bool_decide (lower = "") then detected else Some lower
  | None => detected
  end.

Definition structured_log_from_raw (service line : string) : StructuredLogLine :=
  let clean := strip_ansi_if_needed line in
  let timestamp := extract_timestamp_str clean in
  let '(stream, message) := extract_log_content clean in
  let level := classify_line_level unicode_digit clean in
  mkStructuredLogLine timestamp service stream (normalize_level (Some level) message) message [].

Definition structured_log_from_entry (entry : LogEntry) : StructuredLogLine :=
  let stream := if bool_decide (le_stream entry = "") then "stdout" else le_stream entry in
  let message := strip_ansi_if_needed (le_message entry) in
  mkStructuredLogLine
    (if bool_decide (str_trim (le_ts entry) = "") then None else Some (le_ts entry))
    (le_service entry) stream (normalize_level (Some (le_level entry)) message) message
    (le_attributes entry).

(** What serde writes: empty attributes are skipped. *)
Definition structured_value (l : StructuredLogLine) : Value :=
  Object ([("timestamp", json_opt String (st_timestamp l)); ("service", String (st_service l));
           ("stream", String (st_stream l)); ("level", json_opt String (st_level l));
           ("message", String (st_message l))]
          ++ match st_attributes l with [] => [] | attributes => [("attributes", json_env attributes)] end).

Definition structured_text (l : StructuredLogLine) : string :=
  default "" (ok (to_string (structured_value l))).

Definition render_log_entry (entry : LogEntry) (format : LogOutputFormat) (no_health : bool)
    : option string :=
  if no_health && is_health_check_message (le_message entry) then None else
  Some (match format with
        | Text => "[" +:+ le_service entry +:+ "] " +:+ le_raw entry
        | JsonFormat => structured_text (structured_log_from_entry entry)
        end).

Definition render_log_line (service line : string) (format : LogOutputFormat) (no_health : bool)
    : option string :=
  if no_health && is_health_check_line line then None else
  Some (match format with
        | Text => line
        | JsonFormat => structured_text (structured_log_from_raw service line)
        end).

(** ** The loop *)

(** A look at the open file: its length, and its bytes when they are read. *)
Record FileLook := mkFileLook { fk_len : Z; fk_bytes : bytes }.

Section stream.
Context (service : string) (format : LogOutputFormat) (no_health : bool).

Definition print_all (lines : list string) : list string :=
  omap (fun line => render_log_line service line format no_health) lines.

(** The new offset with what is printed; a file that ends before its length is an error. *)
Definition read_new_lines (look : FileLook) (offset : Z) : outcome (Z * list string) :=
  if (fk_len look <? offset)%Z then Ok (fk_len look, [])
  else if (fk_len look =? offset)%Z then Ok (offset, [])
  else
    let rest := drop (Z.to_nat offset) (fk_bytes look) in
    let wanted := Z.to_nat (fk_len look - offset) in
    if (length rest <? wanted)%nat then Err "failed to fill whole buffer" else
    let content := of_bytes (from_utf8_lossy (take wanted rest)) in
    Ok (fk_len look, print_all (str_lines content)).

(** One turn for each message or tick, with the time that has passed. *)
Fixpoint follow_file (follow_for : option Z) (offset : Z) (turns : list (Z * FileLook))
    : outcome unit * list string :=
  match turns with
  | [] => (OutOfFuel, [])
  | (elapsed, look) :: turns =>
      if match follow_for with Some limit => (limit <=? elapsed)%Z | None => false end
      then (Ok tt, [])
      else match read_new_lines look offset with
           | Ok (offset, printed) =>
               let '(o, rest) := follow_file follow_for offset turns in (o, printed ++ rest)
           | Err e => (Err e, [])
           | Panic => (Panic, [])
           | OutOfFuel => (OutOfFuel, [])
           end
  end.

(** [opened]: the file is opened for following; a file that is no text counts as empty. *)
Definition stream_logs (exists_ : bool) (path : string) (read : outcome string) (tail : option nat)
    (follow : bool) (follow_for : option Z) (opened : outcome unit) (turns : list (Z * FileLook))
    : outcome unit * list string :=
  if negb exists_ then (Err ("log file not found: " +:+ path), []) else
  let content := default "" (ok read) in
  let lines := str_lines content in
  let start := match tail with Some n => length lines - n | None => 0 end in
  let printed := print_all (drop start lines) in
  if negb follow then (Ok tt, printed) else
  match opened with
  | Ok _ =>
      let '(o, rest) := follow_file follow_for (Z.of_nat (String.length content)) turns in
      (o, printed ++ rest)
  | Err e => (Err ("open log " +:+ path +:+ ": " +:+ e), printed)
  | Panic => (Panic, printed)
  | OutOfFuel => (OutOfFuel, printed)
  end.
End stream.
End print.

(** ** A file that grows by whole lines *)

Section once.
Context `{J : Json} (unicode_digit : bytes -> bool).
Context (service : string) (format : LogOutputFormat) (no_health : bool).

Abbreviation printed_lines := (print_all unicode_digit service format no_health).

(** The looks find more and more of a text, whole lines each time; the file may have grown
    since its length was looked up. *)
Inductive grows_by_lines : bytes -> list (Z * FileLook) -> bytes -> Prop :=
| by_no_line text : grows_by_lines text [] text
| by_lines old new more elapsed look turns text :
    old `prefix_of` new -> ends_line new ->
    fk_len look = Z.of_nat (length new) -> fk_bytes look = new ++ more ->
    grows_by_lines new turns text ->
    grows_by_lines old ((elapsed, look) :: turns) text.

(** The lines of a text. *)
Definition text_lines (text : bytes) : list string := str_lines (of_bytes (from_utf8_lossy text)).

Lemma text_lines_app a b : ends_line a -> text_lines (a ++ b) = text_lines a ++ text_lines b.
Proof.
  intros Ha. unfold text_lines. rewrite from_utf8_lossy_app by done.
  by rewrite str_lines_app by by apply lossy_ends.
Qed.

Lemma print_all_app a b : printed_lines (a ++ b) = printed_lines a ++ printed_lines b.
Proof. apply omap_app. Qed.

Lemma read_new look old more_lines more :
  fk_len look = Z.of_nat (length (old ++ more_lines)) ->
  fk_bytes look = (old ++ more_lines) ++ more ->
  read_new_lines unicode_digit service format no_health look (Z.of_nat (length old))
    = Ok (Z.of_nat (length (old ++ more_lines)), printed_lines (text_lines more_lines)).
Proof.
  intros Hlen Hbytes. unfold read_new_lines. rewrite Hlen, Hbytes, length_app.
  rewrite (proj2 (Z.ltb_ge _ _)) by lia.
  destruct (Z.eqb_spec (Z.of_nat (length old + length more_lines)) (Z.of_nat (length old))) as [E|E].
  - assert (more_lines = []) as -> by (apply length_zero_iff_nil; lia). by rewrite Nat.add_0_r.
  - rewrite Nat2Z.id, <- app_assoc, drop_app_length.
    replace (Z.to_nat _) with (length more_lines) by lia.
    rewrite (proj2 (Nat.ltb_ge _ _)) by (rewrite length_app; lia). by rewrite take_app_length.
Qed.

Lemma follow_grows old turns text :
  grows_by_lines old turns text -> ends_line old ->
  exists more, text = old ++ more /\
    follow_file unicode_digit service format no_health None (Z.of_nat (length old)) turns
      = (OutOfFuel, printed_lines (text_lines more)).
Proof.
  induction 1 as [text|old new more elapsed look turns text [added ->] He Hlen Hbytes Hg IH];
    intros Hold.
  - exists []. by rewrite app_nil_r.
  - destruct (IH He) as (rest & -> & Hrun). exists (added ++ rest). split; [by rewrite app_assoc|].
    cbn [follow_file]. rewrite (read_new look old added more Hlen Hbytes). cbv iota beta.
    rewrite Hrun. f_equal. rewrite <- print_all_app, <- text_lines_app; [done|].
    destruct (decide (added = [])) as [->|]; [by left|by eapply ends_line_suffix].
Qed.

(** Following a file that grows by whole lines prints the asked number of its last lines
    and then every line that is added, once and in order, but for the noise of health
    checks where that is asked for. *)
Theorem follow_file_prints_once path start tail turns text :
  ends_line start -> grows_by_lines start turns text ->
  exists more, text = start ++ more /\
    let lines := str_lines (of_bytes start) in
    stream_logs unicode_digit service format no_health true path (Ok (of_bytes start)) (Some tail) true
      None (Ok tt) turns
    = (OutOfFuel, printed_lines (drop (length lines - tail) lines) ++ printed_lines (text_lines more)).
Proof.
  intros He Hg. destruct (follow_grows start turns text Hg He) as (more & -> & Hrun).
  exists more. split; [done|]. unfold stream_logs. cbn [ok default negb].
  assert (String.length (of_bytes start) = length start) as Hl.
  { rewrite <- (to_of_bytes start) at 2. generalize (of_bytes start). clear.
    induction s as [|c s IH]; simpl; [done|]. by f_equal. }
  cbv zeta. cbn [ok default from_option id]. rewrite Hl, Hrun. done.
Qed.
End once.

(** A line that is looked at when only half of it is written is printed as two. *)
Lemma half_lines_printed :
  let half := to_bytes "disk fa" in
  let whole := half ++ to_bytes "ilure" ++ ["010"%char] in
  (@follow_file concrete_json (fun _ => false) "api" Text false None 0
    [(200%Z, mkFileLook (Z.of_nat (length half)) half);
     (400%Z, mkFileLook (Z.of_nat (length whole)) whole)]).2 = ["disk fa"; "ilure"].
Proof. by vm_compute. Qed.

Lemma follow_file_prints_once_witness :
  let start := to_bytes "up" ++ ["010"%char] in
  let whole := start ++ to_bytes "one" ++ ["010"%char] in
  (@stream_logs concrete_json (fun _ => false) "api" Text false true "/logs/api.log"
    (Ok (of_bytes start)) (Some 10) true None (Ok tt)
    [(200%Z, mkFileLook (Z.of_nat (length whole)) (whole ++ to_bytes "tw"))]).2 = ["up"; "one"].
Proof.
  intros start whole.
  destruct (@follow_file_prints_once concrete_json (fun _ => false) "api" Text false "/logs/api.log" start
    10 [(200%Z, mkFileLook (Z.of_nat (length whole)) (whole ++ to_bytes "tw"))] whole)
    as (more & Hmore & Hrun).
  - right. by exists (to_bytes "up"), "010"%char.
  - eapply (by_lines start whole (to_bytes "tw")); [by eexists| |done|done|apply by_no_line].
    right. by exists (start ++ to_bytes "one"), "010"%char.
  - apply app_inv_head in Hmore. subst more. rewrite Hrun. by vm_compute.
Defined.
