(* ===== verification/AutoShare.v ===== *)
(** * Telling an agent of errors

    Models [src/agent/auto_share.rs] and the choice of its options in
    [src/agent/command.rs]: which run and services are watched, when new lines of a log
    are worth a message, and the loop that asks the daemon for them.

    The daemon's answers and the clock are arguments; a time is a number of seconds. *)

From stdpp Require Import gmap.
From S2P Require Import Prelude Bytes BMap Util Json Logfmt RunModel LogIndex LogQuery LogPrint CliContext.
From Stdlib Require Import Lia ZArith Sorted.

Inductive AutoShareLevel := ShareError | ShareWarn.

#[export] Instance AutoShareLevel_eq_dec : EqDecision AutoShareLevel.
Proof. solve_decision. Defined.

Record AutoShareConfig := mkAutoShareConfig {
  ac_level : AutoShareLevel;
  ac_run_id : string;
  ac_services : list string;
}.

Definition AUTO_SHARE_RATE_LIMIT : Z := 30.

Definition resolve_auto_share (auto_share : option string) (no_auto_share : bool)
    : outcome (option AutoShareLevel) :=
  if no_auto_share then Ok None else
  match auto_share with
  | Some level =>
      if bool_decide (level = "error") then Ok (Some ShareError)
      else if bool_decide (level = "warn") then Ok (Some ShareWarn)
      else Err ("invalid auto-share level: " +:+ level)
  | None => Ok None
  end.

(** [max_by] by the time of creation, as text; of equal ones the last. *)
Definition resolve_latest_run_id_for_cwd (runs : outcome (list RunSummary)) (cwd : string)
    : outcome (option string) :=
  runs ← runs;
  let wanted := List.filter (fun run =>
    bool_decide (rm_project_dir run = cwd) && negb (bool_decide (rm_state run = RunStopped))) runs in
  Ok (rm_run_id <$>
    max_by (fun a b =>
      let a := to_bytes (rm_created_at a) in
      let b := to_bytes (rm_created_at b) in
      if bytes_le a b then (if bytes_le b a then Eq else Lt) else Gt) wanted).

(** The names of the services of a run, as its status lists them, in order. *)
Definition configure_auto_share (level : option AutoShareLevel) (run_id : option string)
    (watch : list string) (runs : outcome (list RunSummary)) (cwd : string)
    (run_services : string -> outcome (list string)) : option AutoShareConfig :=
  level ← level;
  run_id ← match run_id with
           | Some run_id => Some run_id
           | None => match resolve_latest_run_id_for_cwd runs cwd with Ok found => found | _ => None end
           end;
  services ← match watch with
             | [] => match run_services run_id with
                     | Ok [] => None
                     | Ok services => Some services
                     | _ => None
                     end
             | _ => Some watch
             end;
  Some (mkAutoShareConfig level run_id services).

Definition threshold_matches (level : option string) (threshold : AutoShareLevel) : bool :=
  match threshold with
  | ShareError => bool_decide (level = Some "error")
  | ShareWarn => bool_decide (level = Some "warn") || bool_decide (level = Some "error")
  end.

Definition build_logs_command (run_id service : string) (level : AutoShareLevel) : string :=
  let level := match level with ShareError => "error" | ShareWarn => "warn" end in
  "devstack logs --run " +:+ run_id +:+ " --service " +:+ service +:+ " --level " +:+ level
  +:+ " --since 5m --last 200".

Definition build_auto_share_message (run_id service : string) (level : AutoShareLevel) : string :=
  let level_text := match level with ShareError => "error" | ShareWarn => "warn" end in
  "[devstack auto-share] Detected new " +:+ level_text +:+ " logs for " +:+ service
  +:+ ". Investigate with:" +:+ String.String "010" (build_logs_command run_id service level).

(** When a message about a service was last sent. *)
Abbreviation LastSent := (gmap string Z).

Definition should_emit_auto_share (last_sent : LastSent) (service : string) (now : Z)
    : bool * LastSent :=
  match last_sent !! service with
  | Some previous =>
      if (now - previous <? AUTO_SHARE_RATE_LIMIT)%Z then (false, last_sent)
      else (true, <[service := now]> last_sent)
  | None => (true, <[service := now]> last_sent)
  end.

Section share.
Context `{J : Json} (unicode_digit : bytes -> bool).

Definition line_level (service line : string) : string :=
  default "info" (st_level (structured_log_from_raw unicode_digit service line)).

Fixpoint detect_loop (service : string) (lines : list string) (threshold : AutoShareLevel)
    (saw_warn : bool) : option AutoShareLevel :=
  match lines with
  | [] => if saw_warn && bool_decide (threshold = ShareWarn) then Some ShareWarn else None
  | line :: lines =>
      let level := line_level service line in
      if bool_decide (level = "error") && threshold_matches (Some "error") threshold
      then Some ShareError
      else detect_loop service lines threshold (saw_warn || bool_decide (level = "warn"))
  end.

Definition detect_trigger_level (service : string) (lines : list string) (threshold : AutoShareLevel)
    : option AutoShareLevel := detect_loop service lines threshold false.

Definition build_auto_share_notification (config : AutoShareConfig) (service : string)
    (lines : list string) (last_sent : LastSent) (now : Z) : option string * LastSent :=
  if negb (existsb (fun candidate => bool_decide (candidate = service)) (ac_services config))
  then (None, last_sent) else
  match detect_trigger_level service lines (ac_level config) with
  | None => (None, last_sent)
  | Some trigger_level =>
      let '(emit, last_sent) := should_emit_auto_share last_sent service now in
      if negb emit then (None, last_sent)
      else (Some (build_auto_share_message (ac_run_id config) service trigger_level), last_sent)
  end.

(** ** The loop *)

(** The position in the log of each service, and the last messages. *)
Record ShareState := mkShareState { ss_cursors : gmap string Z; ss_last_sent : LastSent }.

(** The cursor behind the last line of a log. *)
Definition latest_cursor (answer : outcome LogsResponse) : Z :=
  match answer with Ok logs => default 0%Z (lg_next_after logs) | _ => 0%Z end.

Definition share_start (config : AutoShareConfig) (latest : string -> outcome LogsResponse) : ShareState :=
  mkShareState
    (foldl (fun cursors service => <[service := latest_cursor (latest service)]> cursors) ∅
       (ac_services config)) ∅.

(** The query of a turn: from the cursor on. *)
Definition share_after (s : ShareState) (service : string) : Z := default 0%Z (ss_cursors s !! service).

(** What one turn does with one service, whose answer came at a time. *)
Definition share_service (config : AutoShareConfig) (s : ShareState)
    (turn : string * outcome LogsResponse * Z) : ShareState * list (string * string * Z) :=
  let '(service, answer, now) := turn in
  match answer with
  | Ok response =>
      let cursors := match lg_next_after response with
                     | Some next_after => <[service := next_after]> (ss_cursors s)
                     | None => ss_cursors s
                     end in
      let '(message, last_sent) :=
        build_auto_share_notification config service (lg_lines response) (ss_last_sent s) now in
      (mkShareState cursors last_sent,
       match message with Some message => [(service, message, now)] | None => [] end)
  | _ => (s, [])
  end.

(** The turns of the monitor, service by service; the messages, each with its service and
    time. *)
Fixpoint run_auto_share_monitor (config : AutoShareConfig) (s : ShareState)
    (turns : list (string * outcome LogsResponse * Z)) : ShareState * list (string * string * Z) :=
  match turns with
  | [] => (s, [])
  | turn :: turns =>
      let '(s, sent) := share_service config s turn in
      let '(s, rest) := run_auto_share_monitor config s turns in
      (s, sent ++ rest)
  end.
End share.

(** ** What is told, and how often *)

Section reports.
Context `{J : Json} (unicode_digit : bytes -> bool) (config : AutoShareConfig).
Implicit Types (s : ShareState) (turns : list (string * outcome LogsResponse * Z)).

(** The level of the worst of the lines, as far as the threshold asks for it. *)
Definition worst_level (service : string) (lines : list string) (threshold : AutoShareLevel)
    : option AutoShareLevel :=
  if existsb (fun line => bool_decide (line_level unicode_digit service line = "error")) lines
  then Some ShareError
  else if bool_decide (threshold = ShareWarn)
          && existsb (fun line => bool_decide (line_level unicode_digit service line = "warn")) lines
  then Some ShareWarn else None.

Lemma detect_worst service lines threshold :
  detect_trigger_level unicode_digit service lines threshold = worst_level service lines threshold.
Proof.
  unfold detect_trigger_level, worst_level.
  assert (forall saw, detect_loop unicode_digit service lines threshold saw =
    if existsb (fun line => bool_decide (line_level unicode_digit service line = "error")) lines
    then Some ShareError
    else if bool_decide (threshold = ShareWarn) && (saw || existsb (fun line =>
      bool_decide (line_level unicode_digit service line = "warn")) lines)
    then Some ShareWarn else None) as H; [|by rewrite H].
  induction lines as [|line lines IH]; intros saw; simpl.
  - by destruct saw, threshold.
  - rewrite IH.
    assert (threshold_matches (Some "error") threshold = true) as -> by (by destruct threshold).
    rewrite andb_true_r. destruct (bool_decide (line_level unicode_digit service line = "error")); [done|].
    simpl. by rewrite orb_assoc.
Qed.

(** A turn that finds lines worth a message, and the message. *)
Definition worth (turn : string * outcome LogsResponse * Z) (message : string) : Prop :=
  let '(service, answer, _) := turn in
  service ∈ ac_services config /\
  exists response level, answer = Ok response /\
    worst_level service (lg_lines response) (ac_level config) = Some level /\
    message = build_auto_share_message (ac_run_id config) service level.

(** What one service does: its turn is worth nothing, or worth a message that is sent, or
    worth one that comes too soon after the last. *)
Lemma share_service_cases s service answer now s' sent :
  share_service unicode_digit config s (service, answer, now) = (s', sent) ->
  (sent = [] /\ ss_last_sent s' = ss_last_sent s /\
   forall message, worth (service, answer, now) message ->
     exists previous, ss_last_sent s !! service = Some previous /\
       (now - previous < AUTO_SHARE_RATE_LIMIT)%Z) \/
  (exists message, sent = [(service, message, now)] /\ worth (service, answer, now) message /\
     ss_last_sent s' = <[service := now]> (ss_last_sent s) /\
     forall previous, ss_last_sent s !! service = Some previous ->
       (AUTO_SHARE_RATE_LIMIT <= now - previous)%Z).
Proof.
  unfold share_service, worth. destruct answer as [response|err| |];
    try (intros [= <- <-]; left; split; [done|split; [done|]]; by intros m (_ & r & l & ? & _)).
  unfold build_auto_share_notification. rewrite detect_worst.
  destruct (existsb _ (ac_services config)) eqn:Hw; cbn [negb].
  2:{ intros [= <- <-]. left. split; [done|split; [done|]]. intros m [Hin _]. exfalso.
      rewrite (proj2 (existsb_exists _ _)) in Hw; [done|]. exists service.
      rewrite <- list_elem_of_In. split; [done|]. by apply bool_decide_true. }
  apply existsb_exists in Hw as (candidate & Hin & ->%bool_decide_eq_true). rewrite <- list_elem_of_In in Hin.
  destruct (worst_level _ _ _) as [level|] eqn:Hl.
  2:{ intros [= <- <-]. left. split; [done|split; [done|]]. intros m (_ & r & l & [= <-] & Hl' & _). congruence. }
  unfold should_emit_auto_share.
  destruct (ss_last_sent s !! service) as [previous|] eqn:Hp;
    [destruct (Z.ltb_spec (now - previous) AUTO_SHARE_RATE_LIMIT) as [Hlt|Hge]|];
    intros [= <- <-]; cbn [negb]; cbv iota.
  - left. split; [done|split; [done|]]. intros m _. by exists previous.
  - right. eexists. split; [done|]. split; [by eauto 10|]. split; [done|]. by intros p [= <-].
  - right. eexists. split; [done|]. split; [by eauto 10|]. split; [done|]. by intros p [=].
Qed.

(** The times of the messages about a service, each so long after the one before. *)
Fixpoint spaced_out (previous : option Z) (times : list Z) : Prop :=
  match times with
  | [] => True
  | t :: times =>
      (forall p, previous = Some p -> (AUTO_SHARE_RATE_LIMIT <= t - p)%Z) /\ spaced_out (Some t) times
  end.

Definition times_of (service : string) (sent : list (string * string * Z)) : list Z :=
  (List.filter (fun m => bool_decide (m.1.1 = service)) sent).*2.

Lemma run_spaced service turns s s' sent :
  run_auto_share_monitor unicode_digit config s turns = (s', sent) ->
  spaced_out (ss_last_sent s !! service) (times_of service sent).
Proof.
  revert s s' sent. induction turns as [|[[other answer] now] turns IH]; intros s s' sent;
    cbn [run_auto_share_monitor]; [by intros [= <- <-]|].
  destruct (share_service _ _ _ _) as [s1 sent1] eqn:H1.
  destruct (run_auto_share_monitor _ _ s1 turns) as [s2 sent2] eqn:H2. intros [= <- <-].
  apply IH in H2. apply share_service_cases in H1 as [(-> & Hl & _)|(m & -> & _ & Hl & Hp)].
  - by rewrite <- Hl.
  - unfold times_of in *. simpl. rewrite Hl in H2. destruct (decide (other = service)) as [->|Hne].
    + rewrite bool_decide_true by done. simpl. split; [done|]. by rewrite lookup_insert_eq in H2.
    + rewrite bool_decide_false by done. by rewrite lookup_insert_ne in H2.
Qed.

Lemma run_sent_worth turns s s' sent service message now :
  run_auto_share_monitor unicode_digit config s turns = (s', sent) -> (service, message, now) ∈ sent ->
  exists answer, (service, answer, now) ∈ turns /\ worth (service, answer, now) message.
Proof.
  revert s s' sent. induction turns as [|[[other answer] time] turns IH]; intros s s' sent;
    cbn [run_auto_share_monitor]; [by intros [= <- <-] ?%elem_of_nil|].
  destruct (share_service _ _ _ _) as [s1 sent1] eqn:H1.
  destruct (run_auto_share_monitor _ _ s1 turns) as [s2 sent2] eqn:H2. intros [= <- <-].
  intros [Hin|Hin]%elem_of_app.
  - apply share_service_cases in H1 as [(-> & _)|(m & -> & Hw & _)]; [by apply elem_of_nil in Hin|].
    apply list_elem_of_singleton in Hin. simplify_eq. exists answer. split; [left|done].
  - destruct (IH _ _ _ H2 Hin) as (a & Ha & Hw). exists a. split; [by right|done].
Qed.

(** No message was sent after a time. *)
Definition sent_before (s : ShareState) (now : Z) : Prop :=
  forall service t, ss_last_sent s !! service = Some t -> (t <= now)%Z.

Lemma run_worth_sent turns s s' sent service answer now message :
  run_auto_share_monitor unicode_digit config s turns = (s', sent) ->
  StronglySorted Z.le (turns.*2) -> (forall t, t ∈ turns.*2 -> sent_before s t) ->
  (service, answer, now) ∈ turns -> worth (service, answer, now) message ->
  exists t, (t <= now < t + AUTO_SHARE_RATE_LIMIT)%Z /\
    (ss_last_sent s !! service = Some t \/ exists message, (service, message, t) ∈ sent).
Proof.
  revert s s' sent. induction turns as [|[[other a] time] turns IH]; intros s s' sent;
    cbn [run_auto_share_monitor]; [by intros _ _ _ ?%elem_of_nil|].
  destruct (share_service _ _ _ _) as [s1 sent1] eqn:H1.
  destruct (run_auto_share_monitor _ _ s1 turns) as [s2 sent2] eqn:H2. intros [= <- <-] Hs Hb Hin Hw.
  rewrite fmap_cons in Hs. inversion Hs as [|? ? Hs' Hall]; subst. rewrite Forall_forall in Hall.
  apply share_service_cases in H1.
  apply elem_of_cons in Hin as [Heq|Hin].
  - simplify_eq. destruct H1 as [(-> & _ & Hp)|(m & -> & _)].
    + destruct (Hp message Hw) as (p & Hp1 & Hp2). exists p. split; [|by left].
      assert (p <= time)%Z by (eapply Hb; [|done]; left). lia.
    + exists time. split; [unfold AUTO_SHARE_RATE_LIMIT; lia|]. right. exists m.
      apply elem_of_app. left. left.
  - assert (forall t, t ∈ turns.*2 -> sent_before s1 t) as Hb'.
    { intros t Ht srv p Hp. destruct H1 as [(_ & Hl & _)|(m & _ & _ & Hl & _)]; rewrite Hl in Hp.
      - eapply Hb; [|done]. by right.
      - apply lookup_insert_Some in Hp as [[<- <-]|[_ Hp]]; [by apply Hall|].
        eapply Hb; [|done]. by right. }
    destruct (IH s1 s2 sent2 H2 Hs' Hb' Hin Hw) as (t & Ht & Hor). 
    destruct Hor as [Hp|[m' Hm']].
    + destruct H1 as [(_ & Hl & _)|(m & -> & _ & Hl & _)]; rewrite Hl in Hp.
      * exists t. split; [done|by left].
      * apply lookup_insert_Some in Hp as [[<- <-]|[_ Hp]].
        -- eexists. split; [done|]. right. exists m. apply elem_of_app. left. left.
        -- exists t. split; [done|by left].
    + exists t. split; [done|]. right. exists m'. apply elem_of_app. by right.
Qed.

(** An agent is told of a service only when new lines of it are as bad as it asked for,
    with the level of the worst of them, and at most every thirty seconds; and whenever
    such lines come, it is told of the service then or was within the thirty seconds
    before. *)
Theorem auto_share_tells turns cursors s sent :
  StronglySorted Z.le (turns.*2) ->
  run_auto_share_monitor unicode_digit config (mkShareState cursors ∅) turns = (s, sent) ->
  (forall service, spaced_out None (times_of service sent)) /\
  (forall service message now, (service, message, now) ∈ sent ->
     exists answer, (service, answer, now) ∈ turns /\ worth (service, answer, now) message) /\
  (forall service answer now message, (service, answer, now) ∈ turns ->
     worth (service, answer, now) message ->
     exists t message', (t <= now < t + AUTO_SHARE_RATE_LIMIT)%Z /\ (service, message', t) ∈ sent).
Proof.
  intros Hs Hrun. split_and!.
  - intros service. by apply (run_spaced service) in Hrun.
  - intros service message now. by eapply run_sent_worth.
  - intros service answer now message Hin Hw.
    destruct (run_worth_sent _ _ _ _ _ _ _ _ Hrun Hs ltac:(done) Hin Hw) as (t & Ht & [?|[m Hm]]); [done|].
    by exists t, m.
Qed.
End reports.

(** ** A concrete monitor *)

Definition example_answer (lines : list string) : outcome LogsResponse :=
  Ok (mkLogsResponse lines false (length lines) 0 0 (Some 7%Z) (length lines)).

Lemma auto_share_tells_witness :
  let turns := [("api", example_answer ["[t1] [stderr] Error: boom"], 100);
                ("api", example_answer ["[t2] [stderr] Error: again"], 110);
                ("api", example_answer ["all is well"], 150)]%Z in
  let config := mkAutoShareConfig ShareError "r1" ["api"] in
  let monitor := @run_auto_share_monitor concrete_json (fun _ => false) config (mkShareState ∅ ∅) turns in
  monitor.2 = [("api", build_auto_share_message "r1" "api" ShareError, 100%Z)] /\
  spaced_out None (times_of "api" monitor.2).
Proof.
  intros turns config monitor. split; [by vm_compute|].
  apply (@auto_share_tells concrete_json (fun _ => false) config turns ∅ monitor.1 monitor.2).
  - repeat constructor; done.
  - apply surjective_pairing.
Defined.
