(* ===== verification/Projects.v ===== *)
(** * The known projects

    Models [src/projects.rs] and [src/daemon/handlers/projects.rs]: the ledger of the
    projects, which every request reads from its file, changes and writes back, and the
    projects that the runs on disk tell of.

    [serde_json] is an interface with its laws; the clock, the file system and the results
    of the writes are arguments. *)

From S2P Require Import Prelude Bytes BMap Util ConfigModel ConfigValidate.
From Stdlib Require Import Lia ZArith.

Record ProjectEntry := mkProjectEntry {
  pe_path : string;
  pe_name : string;
  pe_last_used : option string;
}.

Definition ProjectsLedger : Type := bmap string ProjectEntry.

Record ProjectSummary := mkProjectSummary {
  pm_id : string;
  pm_path : string;
  pm_name : string;
  pm_stacks : list string;
  pm_last_used : option string;
  pm_config_exists : bool;
}.

Class ProjectsFile := {
  projects_to_vec_pretty : ProjectsLedger -> outcome string;
  projects_from_str : string -> outcome ProjectsLedger;
}.

Class ProjectsFileLaws `{ProjectsFile} : Prop := {
  projects_roundtrip : forall l, bwf l ->
    exists text, projects_to_vec_pretty l = Ok text /\ projects_from_str text = Ok l;
}.

(** The file, [None] when it is not there. *)
Abbreviation LedgerFile := (option string).

Section projects.
Context `{ProjectsFile}.
Context (blake3_hex : string -> string) (canonicalize : string -> option string) (debug : string -> string).
Context (projects_path : outcome string).

(** What is read when the file is there. *)
Definition projects_load (file : LedgerFile) : outcome ProjectsLedger :=
  _ ← projects_path;
  match file with
  | None => Ok []
  | Some data => with_context "parse projects ledger" (projects_from_str data)
  end.

(** [written] is the result of the write; the file is as it was when it fails. *)
Definition projects_save (ledger : ProjectsLedger) (written : outcome unit) (file : LedgerFile)
    : outcome unit * LedgerFile :=
  match (_ ← projects_path; projects_to_vec_pretty ledger) with
  | Ok data => match written with Ok _ => (Ok tt, Some data) | o => (o, file) end
  | Err e => (Err e, file)
  | Panic => (Panic, file)
  | OutOfFuel => (OutOfFuel, file)
  end.

Definition canonical_dir (project_dir : string) : string := default project_dir (canonicalize project_dir).

Definition project_id (project_dir : string) : string :=
  project_hash blake3_hex (canonical_dir project_dir).

Definition project_entry (project_dir : string) (last_used : option string) : ProjectEntry :=
  let canonical := canonical_dir project_dir in
  mkProjectEntry (to_string_lossy canonical)
    (match file_name canonical with Some s => to_string_lossy s | None => "unknown" end) last_used.

(** The ledger is changed in memory before it is saved. *)
Definition projects_register (ledger : ProjectsLedger) (project_dir now : string) (written : outcome unit)
    (file : LedgerFile) : outcome string * ProjectsLedger * LedgerFile :=
  let id := project_id project_dir in
  let ledger := binsert id (project_entry project_dir (Some now)) ledger in
  let '(saved, file) := projects_save ledger written file in
  ((_ ← saved; Ok id), ledger, file).

Definition projects_touch (ledger : ProjectsLedger) (project_dir now : string) (written : outcome unit)
    (file : LedgerFile) : outcome unit * ProjectsLedger * LedgerFile :=
  let id := project_id project_dir in
  match bget id ledger with
  | Some entry =>
      let ledger := binsert id (mkProjectEntry (pe_path entry) (pe_name entry) (Some now)) ledger in
      let '(saved, file) := projects_save ledger written file in (saved, ledger, file)
  | None =>
      let '(registered, ledger, file) := projects_register ledger project_dir now written file in
      ((_ ← registered; Ok tt), ledger, file)
  end.

Definition projects_remove (ledger : ProjectsLedger) (id : string) (written : outcome unit)
    (file : LedgerFile) : outcome bool * ProjectsLedger * LedgerFile :=
  let removed := bcontains id ledger in
  let ledger := bremove id ledger in
  if removed
  then let '(saved, file) := projects_save ledger written file in ((_ ← saved; Ok true), ledger, file)
  else (Ok false, ledger, file).

Section summaries.
Context (exists_ : string -> bool) (parse_yaml parse_toml : bytes -> outcome ConfigFile).
Context (read : string -> outcome bytes).

Definition project_summary (id : string) (entry : ProjectEntry) : ProjectSummary :=
  let config_path := default_path exists_ (pe_path entry) in
  let config_exists := exists_ config_path in
  let stacks :=
    if config_exists
    then match load_from_path debug parse_yaml parse_toml read config_path with
         | Ok c => bkeys (cf_stacks c)
         | _ => []
         end
    else [] in
  mkProjectSummary id (pe_path entry) (pe_name entry) stacks (pe_last_used entry) config_exists.

Definition to_summaries (ledger : ProjectsLedger) : list ProjectSummary :=
  map (fun p => project_summary p.1 p.2) ledger.

(** ** The requests *)

Definition list_projects (file : LedgerFile) : outcome (list ProjectSummary) :=
  ledger ← projects_load file; Ok (to_summaries ledger).

(** The load of a request, and what it does with what it loaded; other requests may come
    in between. *)
Definition register_project_save (path now : string) (written : outcome unit) (ledger : ProjectsLedger)
    (file : LedgerFile) : outcome ProjectSummary * LedgerFile :=
  let '(registered, ledger, file) := projects_register ledger path now written file in
  ((id ← registered;
    ok_or (List.find (fun project => bool_decide (pm_id project = id)) (to_summaries ledger))
      "failed to find registered project"), file).

Definition register_project (path now : string) (written : outcome unit) (file : LedgerFile)
    : outcome ProjectSummary * LedgerFile :=
  if negb (exists_ path) then (Err ("path does not exist: " +:+ path), file) else
  match projects_load file with
  | Ok ledger => register_project_save path now written ledger file
  | Err e => (Err e, file)
  | Panic => (Panic, file)
  | OutOfFuel => (OutOfFuel, file)
  end.
End summaries.

Definition remove_project (project_id : string) (written : outcome unit) (file : LedgerFile)
    : outcome unit * LedgerFile :=
  match projects_load file with
  | Ok ledger =>
      let '(removed, _, file) := projects_remove ledger project_id written file in
      ((removed ← removed;
        if negb removed then Err ("project " +:+ project_id +:+ " not found") else Ok tt), file)
  | Err e => (Err e, file)
  | Panic => (Panic, file)
  | OutOfFuel => (OutOfFuel, file)
  end.

(** What [up] does; it ignores every error. *)
Definition touch_project (project_dir now : string) (written : outcome unit) (file : LedgerFile)
    : LedgerFile :=
  match projects_load file with
  | Ok ledger => (projects_touch ledger project_dir now written file).2
  | _ => file
  end.

(** ** Projects of the runs *)

(** An entry of the directory of the runs: an error, or its manifest if it has one that is
    read and parsed, by its project. *)
Definition RunEntry : Type := outcome (option string).

Definition seed_one (s : ProjectsLedger * nat) (entry : RunEntry) : outcome (ProjectsLedger * nat) :=
  entry ← entry;
  match entry with
  | None => Ok s
  | Some project_dir =>
      let id := project_id project_dir in
      if bcontains id s.1 then Ok s
      else Ok (binsert id (project_entry project_dir None) s.1, S s.2)
  end.

Definition seed_from_runs (ledger : ProjectsLedger) (entries : option (outcome (list RunEntry)))
    (written : outcome unit) (file : LedgerFile) : outcome nat * LedgerFile :=
  match entries with
  | None => (Ok 0, file)
  | Some entries =>
      match (entries ← entries; ofold seed_one entries (ledger, 0)) with
      | Ok (ledger, count) =>
          if 0 <? count
          then let '(saved, file) := projects_save ledger written file in ((_ ← saved; Ok count), file)
          else (Ok count, file)
      | Err e => (Err e, file)
      | Panic => (Panic, file)
      | OutOfFuel => (OutOfFuel, file)
      end
  end.
End projects.

(** ** The file is one map *)

Section refinement.
Context `{PF : ProjectsFile} {PL : ProjectsFileLaws}.
Context (blake3_hex : string -> string) (canonicalize : string -> option string).
Context (projects_path : outcome string) (path : string) (Hpath : projects_path = Ok path).
Context (exists_ : string -> bool) (debug : string -> string).
Context (parse_yaml parse_toml : bytes -> outcome ConfigFile) (read : string -> outcome bytes).

(** A request that changes the ledger, with the result of its write. *)
Inductive ProjectOp :=
| OpRegister (dir now : string)
| OpTouch (dir now : string)
| OpRemove (id : string)
| OpSeed (entries : list RunEntry).

Definition project_op (op : ProjectOp) (written : outcome unit) (file : LedgerFile) : LedgerFile :=
  match op with
  | OpRegister dir now =>
      (register_project blake3_hex canonicalize debug projects_path exists_ parse_yaml parse_toml read
         dir now written file).2
  | OpTouch dir now => touch_project blake3_hex canonicalize projects_path dir now written file
  | OpRemove id => (remove_project projects_path id written file).2
  | OpSeed entries =>
      match projects_load projects_path file with
      | Ok ledger =>
          (seed_from_runs blake3_hex canonicalize projects_path ledger (Some (Ok entries)) written file).2
      | _ => file
      end
  end.

(** What it does to the map of the projects. *)
Definition project_op_map (op : ProjectOp) (m : ProjectsLedger) : ProjectsLedger :=
  match op with
  | OpRegister dir now =>
      if exists_ dir
      then binsert (project_id blake3_hex canonicalize dir) (project_entry canonicalize dir (Some now)) m
      else m
  | OpTouch dir now =>
      let id := project_id blake3_hex canonicalize dir in
      binsert id
        match bget id m with
        | Some entry => mkProjectEntry (pe_path entry) (pe_name entry) (Some now)
        | None => project_entry canonicalize dir (Some now)
        end m
  | OpRemove id => bremove id m
  | OpSeed entries =>
      match ofold (seed_one blake3_hex canonicalize) entries (m, 0) with Ok (m, _) => m | _ => m end
  end.

Definition worked (written : outcome unit) : bool := match written with Ok _ => true | _ => false end.

(** The file holds a map. *)
Definition file_holds (file : LedgerFile) (m : ProjectsLedger) : Prop :=
  bwf m /\ projects_load projects_path file = Ok m.

Lemma save_holds ledger written file m :
  bwf ledger -> file_holds file m ->
  file_holds (projects_save projects_path ledger written file).2 (if worked written then ledger else m).
Proof.
  intros Hl Hm. destruct (projects_roundtrip ledger Hl) as (text & Hprint & Hparse).
  unfold projects_save. rewrite Hpath. cbn [mbind outcome_bind]. rewrite Hprint.
  destruct written as [[]|e| |]; try done. split; [done|]. unfold projects_load. rewrite Hpath.
  cbn [mbind outcome_bind snd]. by rewrite Hparse.
Qed.

Lemma seed_wf entries m n m' n' :
  bwf m -> ofold (seed_one blake3_hex canonicalize) entries (m, n) = Ok (m', n') ->
  bwf m' /\ (n' = n -> m' = m) /\ n <= n'.
Proof.
  revert m n. induction entries as [|entry entries IH]; intros m n Hwf; simpl.
  - by intros [= <- <-].
  - unfold seed_one at 1. destruct entry as [[dir|]|e| |]; simpl; try done; [|by apply IH].
    destruct (bcontains _ m); [by apply IH|]. intros Hfold.
    apply IH in Hfold as (Hw & Heq & Hle); [|by apply bwf_binsert].
    split; [done|]. split; [|lia]. intros ->. lia.
Qed.

Lemma project_op_holds op written file m :
  file_holds file m ->
  file_holds (project_op op written file) (if worked written then project_op_map op m else m).
Proof.
  intros Hm. pose proof Hm as [Hwf Hload]. destruct op as [dir now|dir now|id|entries]; simpl.
  - unfold register_project. destruct (exists_ dir) eqn:He; cbn [negb]; [|by destruct (worked written)].
    rewrite Hload. unfold register_project_save, projects_register.
    pose proof (save_holds (binsert (project_id blake3_hex canonicalize dir)
      (project_entry canonicalize dir (Some now)) m) written file m ltac:(by apply bwf_binsert) Hm) as Hs.
    by destruct (projects_save _ _ _ _) as [saved file'].
  - unfold touch_project, projects_touch, projects_register. rewrite Hload.
    destruct (bget _ m) as [entry|];
      match goal with |- context [projects_save _ ?l _ _] =>
        pose proof (save_holds l written file m ltac:(by apply bwf_binsert) Hm) as Hs end;
      by destruct (projects_save _ _ _ _) as [saved file'].
  - unfold remove_project, projects_remove. rewrite Hload. destruct (bcontains id m) eqn:Hc.
    + pose proof (save_holds (bremove id m) written file m ltac:(by apply bwf_bremove) Hm) as Hs.
      by destruct (projects_save _ _ _ _) as [saved file'].
    + assert (bremove id m = m) as ->
        by (apply bremove_absent; unfold bcontains in Hc; by destruct (bget id m)).
      by destruct (worked written).
  - rewrite Hload. unfold seed_from_runs. cbn [mbind outcome_bind].
    destruct (ofold _ entries (m, 0)) as [[m' n]|e| |] eqn:Hf; try (by destruct (worked written)).
    destruct (seed_wf _ _ _ _ _ Hwf Hf) as (Hwf' & Heq & _).
    destruct (Nat.ltb_spec 0 n) as [Hn|Hn].
    + pose proof (save_holds m' written file m Hwf' Hm) as Hs.
      by destruct (projects_save _ _ _ _) as [saved file'].
    + rewrite Heq by lia. by destruct (worked written).
Qed.

(** The map after some requests, by the results of their writes. *)
Definition map_after (ops : list (ProjectOp * outcome unit)) (m : ProjectsLedger) : ProjectsLedger :=
  foldl (fun m op => if worked op.2 then project_op_map op.1 m else m) m ops.

Definition file_after (ops : list (ProjectOp * outcome unit)) (file : LedgerFile) : LedgerFile :=
  foldl (fun file op => project_op op.1 op.2 file) file ops.

Lemma files_hold ops file m : file_holds file m -> file_holds (file_after ops file) (map_after ops m).
Proof.
  revert file m. induction ops as [|[op written] ops IH]; intros file m Hm; [done|]. simpl.
  apply IH. by apply project_op_holds.
Qed.

(** As long as the requests come one after the other, the file of the projects is one
    map: every registration, use and removal whose write succeeds is applied to it and no
    other changes it, the daemon's start adds the projects of the runs that it does not
    know, and a registration is answered with the project it registered. *)
Theorem projects_are_one_map ops file m :
  file_holds file m ->
  projects_load projects_path (file_after ops file) = Ok (map_after ops m) /\
  forall dir now, exists_ dir = true ->
    exists summary, (register_project blake3_hex canonicalize debug projects_path exists_ parse_yaml
      parse_toml read dir now (Ok tt) (file_after ops file)).1 = Ok summary /\
      pm_id summary = project_id blake3_hex canonicalize dir /\
      pm_path summary = pe_path (project_entry canonicalize dir (Some now)) /\
      pm_last_used summary = Some now.
Proof.
  intros Hm. destruct (files_hold ops file m Hm) as [Hwf Hload]. split; [done|].
  intros dir now He. unfold register_project. rewrite He, Hload. cbn [negb].
  unfold register_project_save, projects_register.
  set (id := project_id blake3_hex canonicalize dir).
  set (entry := project_entry canonicalize dir (Some now)).
  assert (bwf (binsert id entry (map_after ops m))) as Hwf' by (by apply bwf_binsert).
  destruct (projects_roundtrip _ Hwf') as (text & Hprint & _).
  unfold projects_save. rewrite Hpath. cbn [mbind outcome_bind]. rewrite Hprint. cbn [fst].
  assert (forall l : ProjectsLedger, bget id l = Some entry ->
    List.find (fun project => bool_decide (pm_id project = id))
      (to_summaries debug exists_ parse_yaml parse_toml read l)
    = Some (project_summary debug exists_ parse_yaml parse_toml read id entry)) as Hfind.
  { induction l as [|[k e] l IH]; simpl; [done|]. destruct (keqb id k) eqn:Hk.
    - apply keqb_true in Hk as <-. intros [= ->]. by rewrite bool_decide_true.
    - apply keqb_false in Hk. rewrite bool_decide_false by done. apply IH. }
  cbn [mbind outcome_bind]. rewrite Hfind by apply bget_binsert_eq. by eexists.
Qed.
End refinement.

(** Two registrations that read the file before either writes it: the first is lost. *)
Lemma concurrent_registration_lost `{PF : ProjectsFile} {PL : ProjectsFileLaws} blake3_hex canonicalize
    debug path exists_ parse_yaml parse_toml read (m : ProjectsLedger) file dir1 dir2 now1 now2 :
  bwf m -> projects_load (Ok path) file = Ok m ->
  let id1 := project_id blake3_hex canonicalize dir1 in
  bget id1 m = None -> id1 <> project_id blake3_hex canonicalize dir2 ->
  let save dir now := register_project_save blake3_hex canonicalize debug (Ok path) exists_ parse_yaml
    parse_toml read dir now (Ok tt) m in
  let '(answer1, file1) := save dir1 now1 file in
  let '(answer2, file2) := save dir2 now2 file1 in
  returns answer1 /\ returns answer2 /\
  exists m', projects_load (Ok path) file2 = Ok m' /\ bget id1 m' = None.
Proof.
  intros Hwf Hload id1 Hnew Hne save. subst save.
  unfold register_project_save, projects_register, projects_save. cbn [mbind outcome_bind].
  destruct (projects_roundtrip (binsert (project_id blake3_hex canonicalize dir1)
    (project_entry canonicalize dir1 (Some now1)) m)) as (t1 & -> & _); [by apply bwf_binsert|].
  destruct (projects_roundtrip (binsert (project_id blake3_hex canonicalize dir2)
    (project_entry canonicalize dir2 (Some now2)) m)) as (t2 & -> & Hp2); [by apply bwf_binsert|].
  split; [apply ok_or_returns|]. split; [apply ok_or_returns|].
  unfold projects_load. cbn [mbind outcome_bind with_context map_err]. rewrite Hp2. eexists. split; [done|].
  by rewrite bget_binsert_ne.
Qed.

(** ** Witness *)

From stdpp Require Import countable.

Definition ledger_to_tree (l : ProjectsLedger) : list (string * (string * string * option string)) :=
  map (fun p => (p.1, (pe_path p.2, pe_name p.2, pe_last_used p.2))) l.

Definition ledger_of_tree (t : list (string * (string * string * option string))) : ProjectsLedger :=
  map (fun p => (p.1, mkProjectEntry p.2.1.1 p.2.1.2 p.2.2)) t.

#[local] Instance tree_file : ProjectsFile :=
  {| projects_to_vec_pretty l := Ok (of_bytes (digits_of_pos (encode (ledger_to_tree l))));
     projects_from_str s :=
       ok_or (ledger_of_tree <$> decode (pos_of_digits (to_bytes s))) "expected value" |}.

#[local] Instance tree_file_laws : ProjectsFileLaws.
Proof.
  split. intros l _. eexists. split; [done|]. cbn.
  rewrite to_of_bytes, pos_digits, decode_encode. cbn. f_equal.
  unfold ledger_of_tree, ledger_to_tree. rewrite map_map. induction l as [|[k []] l IH]; [done|].
  simpl. by f_equal.
Qed.

(** A registration, a use whose write fails, the start of the daemon, which finds a run of
    another project, and the removal of the first. *)
Definition sample_ops : list (ProjectOp * outcome unit) :=
  [(OpRegister "/a" "t1", Ok tt); (OpTouch "/a" "t2", Err "disk full");
   (OpSeed [Ok (Some "/b"); Ok None; Ok (Some "/a")], Ok tt); (OpRemove "/a" , Ok tt)].

Lemma projects_are_one_map_witness :
  let canon := fun d : string => Some d in
  let hash := fun d : string => d in
  let nofile := fun _ : string => Err "no file" in
  projects_load (Ok "/projects.json")
    (file_after hash canon (Ok "/projects.json") (fun _ => true) hash
       (fun _ => Err "bad") (fun _ => Err "bad") nofile sample_ops None)
    = Ok (map_after hash canon (fun _ => true) sample_ops []) /\
  length (map_after hash canon (fun _ => true) sample_ops []) = 1.
Proof.
  split; [|by vm_compute].
  refine (proj1 (projects_are_one_map _ _ (Ok "/projects.json") "/projects.json" eq_refl _ _ _ _ _
    sample_ops None [] _)).
  split; [constructor|done].
Defined.
