(* ===== verification/WatchHash.v ===== *)
(** * The hash of the watched files

    Models [src/watch.rs]: which files of a service are watched and what is hashed of
    them.  A service is started anew, and a task run again, when this hash has changed.

    The walk of the directory, its patterns and [blake3] are third-party code and
    arguments, as are the files. *)

From S2P Require Import Prelude Bytes BMap Util ConfigValidate Sources.
From Stdlib Require Import Lia ZArith.

(** ** The interface of the walk *)

(** What [WalkBuilder] is told, with the overrides if there are any. *)
Record WalkOptions (Override : Type) := mkWalkOptions {
  wo_standard_filters : bool;
  wo_hidden : bool;
  wo_parents : bool;
  wo_custom_ignore_filename : string;
  wo_overrides : option Override;
}.
Arguments mkWalkOptions {Override}.

(** The patterns are checked one by one as they are added to a builder. *)
Class Walker := {
  Override : Type;
  Gitignore : Type;
  override_add : string -> string -> outcome unit;
  override_build : string -> list string -> outcome Override;
  gitignore_add : string -> string -> outcome unit;
  gitignore_build : string -> list string -> outcome Gitignore;
  matched_or_any_parents : Gitignore -> string -> bool -> bool;
}.

(** The length of a file, and the seconds and nanoseconds of its last change if they are
    known and after the epoch. *)
Record Metadata := mkMetadata { md_len : Z; md_modified : option (Z * Z) }.

(** The files: the walk, whose entries are a path and whether it is a directory; the
    metadata of a path, or the text of the error; what reading it gives, piece by piece,
    up to an empty piece. *)
Record WatchedFs `{Walker} := mkWatchedFs {
  wf_walk : string -> WalkOptions Override -> list (outcome (string * bool));
  wf_metadata : string -> outcome Metadata;
  wf_open : string -> outcome (list (outcome bytes));
}.
Arguments mkWatchedFs {_}.

(** ** Paths *)

Fixpoint key_prefix (a b : list (Z * string)) : bool :=
  match a, b with
  | [], _ => true
  | x :: a, y :: b => bool_decide (x = y) && key_prefix a b
  | _ :: _, [] => false
  end.

(** The text after the next [n] names of a path. *)
Fixpoint after_names (n : nat) (s : bytes) : bytes :=
  match n with
  | 0 => s
  | S n => after_names n (drop_while (fun c => negb (Ascii.eqb c "/")) (trim_path_front s))
  end.

(** [as_path] of a path whose components were not begun: only its end is trimmed. *)
Definition trimmed_end (p : string) : string :=
  match reverse (trim_path_front (reverse (to_bytes p))) with
  | [] => if is_absolute p then "/" else if leading_dot p then "." else ""
  | s => of_bytes s
  end.

(** [Path::strip_prefix] *)
Definition path_strip_prefix (base p : string) : option string :=
  if negb (key_prefix (path_key base) (path_key p)) then None
  else if bool_decide (path_key base = []) then Some (trimmed_end p)
  else Some (of_bytes (trim_path (after_names (length (components base)) (to_bytes p)))).

(** ** The hash *)

(** [to_le_bytes] of an integer of [n] bytes. *)
Fixpoint to_le_bytes (n : nat) (z : Z) : bytes :=
  match n with
  | 0 => []
  | S n => ascii_of_N (Z.to_N (z mod 256)) :: to_le_bytes n (z / 256)
  end.

Section hash.
Context `{W : Walker} (blake3_hex : string -> string) (fs : WatchedFs).

Fixpoint hash_pieces (pieces : list (outcome bytes)) (hashed : bytes) : outcome bytes :=
  match pieces with
  | [] => OutOfFuel
  | piece :: pieces =>
      piece ← piece;
      if bool_decide (piece = []) then Ok hashed else hash_pieces pieces (hashed ++ piece)
  end.

Definition hash_file_contents (path : string) (hashed : bytes) : outcome bytes :=
  pieces ← with_context ("open watch file " +:+ to_string_lossy path) (wf_open fs path);
  hash_pieces pieces hashed.

Definition hash_path_metadata (display path : string) (hashed : bytes) : outcome bytes :=
  let hashed := hashed ++ to_bytes (to_string_lossy display) in
  match wf_metadata fs path with
  | Ok meta =>
      let hashed := hashed ++ to_le_bytes 8 (md_len meta) in
      let hashed := match md_modified meta with
                    | Some (secs, nanos) => hashed ++ to_le_bytes 8 secs ++ to_le_bytes 4 nanos
                    | None => hashed
                    end in
      hash_file_contents path hashed
  | Err err => Ok (hashed ++ to_bytes "missing" ++ to_bytes err)
  | Panic => Panic
  | OutOfFuel => OutOfFuel
  end.

Definition is_pattern (p : string) : bool := negb (bool_decide (str_trim p = "")).

Definition build_overrides (root : string) (watch : option (list string)) : outcome (option Override) :=
  let patterns := default [] (List.filter is_pattern <$> watch) in
  _ ← oforall (fun pattern =>
        with_context ("invalid watch pattern '" +:+ pattern +:+ "'") (override_add root pattern)) patterns;
  if bool_decide (patterns = []) then Ok None
  else overrides ← with_context "build watch overrides" (override_build root patterns);
       Ok (Some overrides).

Definition build_ignore_matcher (root : string) (ignore : list string) : outcome (option Gitignore) :=
  let patterns := List.filter is_pattern ignore in
  _ ← oforall (fun pattern =>
        with_context ("invalid ignore pattern '" +:+ pattern +:+ "'") (gitignore_add root pattern)) patterns;
  if bool_decide (patterns = []) then Ok None
  else ignore ← with_context "build ignore matcher" (gitignore_build root patterns);
       Ok (Some ignore).

(** Whether a turn of the walk adds the path of its entry. *)
Definition walked_file (ignore_matcher : option Gitignore) (entry : outcome (string * bool))
    : option string :=
  match entry with
  | Ok (path, is_dir) =>
      if is_dir then None
      else match ignore_matcher with
           | Some ignore => if matched_or_any_parents ignore path is_dir then None else Some path
           | None => Some path
           end
  | _ => None
  end.

(** The set of the files, in the order of their paths. *)
Definition watched_files (root : string) (overrides : option Override)
    (ignore_matcher : option Gitignore) (extra_files : list string) : list string :=
  let builder := mkWalkOptions true false true ".devstackignore" overrides in
  let walked := omap (walked_file ignore_matcher) (wf_walk fs root builder) in
  foldl (fun files p => path_insert p files) [] (walked ++ extra_files).

Definition hash_file (root : string) (hashed : bytes) (path : string) : outcome bytes :=
  hash_path_metadata (default path (path_strip_prefix root path)) path hashed.

Definition compute_watch_hash (root : string) (watch : option (list string)) (ignore extra_files : list string)
    (fingerprint : bytes) : outcome string :=
  overrides ← build_overrides root watch;
  ignore_matcher ← build_ignore_matcher root ignore;
  hashed ← ofold (hash_file root) (watched_files root overrides ignore_matcher extra_files)
             (to_bytes "devstack-watch-v1" ++ fingerprint);
  Ok (blake3_hex (of_bytes hashed)).
End hash.

(** ** What the hash tells *)

Lemma length_le n z : length (to_le_bytes n z) = n.
Proof. revert z. induction n as [|n IH]; intros z; simpl; [done|]. by rewrite IH. Qed.

Lemma le_inj n y z :
  (0 <= y < 256 ^ Z.of_nat n)%Z -> (0 <= z < 256 ^ Z.of_nat n)%Z ->
  to_le_bytes n y = to_le_bytes n z -> y = z.
Proof.
  revert y z. induction n as [|n IH]; intros y z; [simpl; lia|].
  rewrite Nat2Z.inj_succ, Z.pow_succ_r by lia. intros Hy Hz [= Hc Hrest].
  apply IH in Hrest; [|split; [apply Z.div_pos; lia|apply Z.div_lt_upper_bound; lia]..].
  apply (f_equal N_of_ascii) in Hc. pose proof (Z.mod_pos_bound y 256). pose proof (Z.mod_pos_bound z 256).
  rewrite !N_ascii_embedding in Hc by lia.
  rewrite (Z.div_mod y 256), (Z.div_mod z 256) by lia. lia.
Qed.

Section sensitive.
Context `{W : Walker} (blake3_hex : string -> string).

(** All that can be seen of a file. *)
Inductive FileSeen :=
| Found (len : Z) (modified : option (Z * Z)) (contents : bytes)
| Missing (error : string).

Fixpoint read_all (pieces : list (outcome bytes)) : outcome bytes :=
  match pieces with
  | [] => OutOfFuel
  | piece :: pieces =>
      piece ← piece;
      if bool_decide (piece = []) then Ok [] else (rest ← read_all pieces; Ok (piece ++ rest))
  end.

Definition seen (fs : WatchedFs) (path : string) : outcome FileSeen :=
  match wf_metadata fs path with
  | Ok meta =>
      pieces ← with_context ("open watch file " +:+ to_string_lossy path) (wf_open fs path);
      contents ← read_all pieces;
      Ok (Found (md_len meta) (md_modified meta) contents)
  | Err err => Ok (Missing err)
  | Panic => Panic
  | OutOfFuel => OutOfFuel
  end.

(** What the code hashes of it. *)
Definition seen_bytes (s : FileSeen) : bytes :=
  match s with
  | Found len modified contents =>
      to_le_bytes 8 len
      ++ match modified with Some (secs, nanos) => to_le_bytes 8 secs ++ to_le_bytes 4 nanos | None => [] end
      ++ contents
  | Missing err => to_bytes "missing" ++ to_bytes err
  end.

(** A file as the system tells of it: its length is that of its contents, its time is
    known, and an error ends with its code, as in [No such file or directory (os error 2)]. *)
Definition os_error (err : string) : Prop :=
  exists detail, err = of_bytes (detail ++ [")"%char]) /\ (")"%char ∉ detail) /\
    match detail with c :: _ => c <> zero | [] => False end.

Definition regular (s : FileSeen) : Prop :=
  match s with
  | Found len modified contents =>
      len = Z.of_nat (length contents) /\ (len < 2 ^ 56)%Z /\
      exists secs nanos, modified = Some (secs, nanos) /\ (0 <= secs < 2 ^ 64)%Z /\ (0 <= nanos < 2 ^ 32)%Z
  | Missing err => os_error err
  end.

Lemma hash_pieces_read pieces hashed :
  hash_pieces pieces hashed = (rest ← read_all pieces; Ok (hashed ++ rest)).
Proof.
  revert hashed. induction pieces as [|piece pieces IH]; intros hashed; simpl; [done|].
  destruct piece as [piece|e| |]; simpl; try done. case_bool_decide; simpl.
  - by rewrite app_nil_r.
  - rewrite IH. destruct (read_all pieces); simpl; try done. by rewrite app_assoc.
Qed.

Lemma hash_seen fs display path hashed :
  hash_path_metadata fs display path hashed
  = (s ← seen fs path; Ok (hashed ++ to_bytes (to_string_lossy display) ++ seen_bytes s)).
Proof.
  unfold hash_path_metadata, seen. destruct (wf_metadata fs path) as [[len modified]|e| |]; try done.
  - unfold hash_file_contents. cbn [md_len md_modified].
    destruct (with_context _ _) as [pieces|e| |]; try done. cbn [mbind outcome_bind].
    rewrite hash_pieces_read. destruct (read_all pieces); try done. cbn [mbind outcome_bind seen_bytes].
    destruct modified as [[secs nanos]|]; by rewrite <- ?app_assoc.
  - cbn [mbind outcome_bind seen_bytes]. by rewrite <- ?app_assoc.
Qed.

Lemma hash_file_seen fs root hashed path :
  hash_file fs root hashed path
  = (s ← seen fs path;
     Ok (hashed ++ to_bytes (to_string_lossy (default path (path_strip_prefix root path))) ++ seen_bytes s)).
Proof. apply hash_seen. Qed.

Lemma close_paren_split d d' r r' :
  ")"%char ∉ d -> ")"%char ∉ d' -> d ++ ")"%char :: r = d' ++ ")"%char :: r' -> d = d' /\ r = r'.
Proof.
  revert d'. induction d as [|c d IH]; intros [|c' d'] Hd Hd'; simpl.
  - by intros [= ->].
  - intros [= <- _]. destruct Hd'. left.
  - intros [= -> _]. destruct Hd. left.
  - rewrite elem_of_cons in Hd, Hd'. intros [= -> Heq].
    apply IH in Heq as [-> ->]; [done|tauto..].
Qed.

Lemma high_byte len : (0 <= len < 2 ^ 56)%Z -> exists low, to_le_bytes 8 len = low ++ [zero] /\ length low = 7.
Proof.
  intros Hlen. exists (to_le_bytes 7 len). split; [|apply length_le].
  assert (len / 256 / 256 / 256 / 256 / 256 / 256 / 256 = 0)%Z as H0.
  { rewrite !Z.div_div by lia. by apply Z.div_small. }
  change (to_le_bytes 8 len) with (to_le_bytes 7 len ++
    [ascii_of_N (Z.to_N ((len / 256 / 256 / 256 / 256 / 256 / 256 / 256) mod 256))]).
  by rewrite H0.
Qed.

Lemma not_missing len err rest rest' :
  (0 <= len < 2 ^ 56)%Z -> os_error err ->
  to_le_bytes 8 len ++ rest <> (to_bytes "missing" ++ to_bytes err) ++ rest'.
Proof.
  intros Hlen (detail & -> & _ & Hc) Heq. destruct (high_byte len Hlen) as (low & Hl & Hlow).
  rewrite Hl, to_of_bytes, <- !app_assoc in Heq. destruct detail as [|c detail]; [done|].
  apply app_inj_1 in Heq as [_ [= <- _]]; [done|]. by rewrite Hlow.
Qed.

(** What is hashed of a file tells the file, whatever comes after it. *)
Lemma seen_bytes_inj s s' rest rest' :
  regular s -> regular s' -> seen_bytes s ++ rest = seen_bytes s' ++ rest' -> s = s' /\ rest = rest'.
Proof.
  destruct s as [len modified contents|err], s' as [len' modified' contents'|err'];
    cbn [seen_bytes regular].
  - intros (Hl & Hb & secs & nanos & -> & Hs & Hn) (Hl' & Hb' & secs' & nanos' & -> & Hs' & Hn').
    rewrite <- !app_assoc. intros Heq.
    apply app_inj_1 in Heq as [Hlen Heq]; [|by rewrite !length_le].
    apply app_inj_1 in Heq as [Hsecs Heq]; [|by rewrite !length_le].
    apply app_inj_1 in Heq as [Hnanos Heq]; [|by rewrite !length_le].
    apply le_inj in Hlen; [|simpl; lia..]. apply le_inj in Hsecs; [|simpl; lia..].
    apply le_inj in Hnanos; [|simpl; lia..]. subst len' secs' nanos'.
    apply app_inj_1 in Heq as [-> ->]; [by rewrite Hlen|lia].
  - intros (Hl & Hb & secs & nanos & -> & Hs & Hn) He Heq. exfalso.
    rewrite <- app_assoc in Heq. eapply (not_missing len err'); [lia|done|exact Heq].
  - intros He (Hl & Hb & secs & nanos & -> & Hs & Hn) Heq. exfalso.
    symmetry in Heq. rewrite <- app_assoc in Heq. eapply (not_missing len' err); [lia|done|exact Heq].
  - intros (d & -> & Hd & _) (d' & -> & Hd' & _) Heq. rewrite !to_of_bytes, <- !app_assoc in Heq.
    apply app_inv_head in Heq. apply close_paren_split in Heq as [-> ->]; done.
Qed.

Definition all_regular (fs : WatchedFs) (files : list string) : Prop :=
  forall p s, p ∈ files -> seen fs p = Ok s -> regular s.

Lemma hash_files fs fs' root files hashed out out' :
  all_regular fs files -> all_regular fs' files ->
  ofold (hash_file fs root) files hashed = Ok out -> ofold (hash_file fs' root) files hashed = Ok out' ->
  out = out' <-> forall p, p ∈ files -> seen fs p = seen fs' p.
Proof.
  assert (forall fs files hashed out, ofold (hash_file fs root) files hashed = Ok out ->
    exists rest, out = hashed ++ rest) as Hprefix.
  { clear. intros fs files. induction files as [|p files IH]; intros hashed out; cbn [ofold].
    - intros [= ->]. exists []. by rewrite app_nil_r.
    - rewrite hash_file_seen. destruct (seen fs p); try done. cbn [mbind outcome_bind].
      intros (rest & ->)%IH. eexists. by rewrite <- !app_assoc. }
  revert hashed. induction files as [|p files IH]; intros hashed Hr Hr'; cbn [ofold].
  - intros [= <-] [= <-]. split; [|done]. intros _ p Hp. by apply elem_of_nil in Hp.
  - rewrite !hash_file_seen.
    destruct (seen fs p) as [s|e| |] eqn:Hs; try done. destruct (seen fs' p) as [s'|e| |] eqn:Hs'; try done.
    cbn [mbind outcome_bind]. intros Ho Ho'.
    assert (regular s) as Hg by (apply (Hr p); [left|done]).
    assert (regular s') as Hg' by (apply (Hr' p); [left|done]).
    split.
    + intros <-. destruct (Hprefix _ _ _ _ Ho) as [rest Hrest], (Hprefix _ _ _ _ Ho') as [rest' Hrest'].
      rewrite Hrest in Hrest'. rewrite <- !app_assoc in Hrest'. do 2 apply app_inv_head in Hrest'.
      apply seen_bytes_inj in Hrest' as [<- _]; [|done..].
      intros q [->|Hq]%elem_of_cons; [congruence|].
      apply (proj1 (IH _ ltac:(intros ???; eapply Hr; by right) ltac:(intros ???; eapply Hr'; by right)
        Ho Ho') eq_refl q Hq).
    + intros Hsame. assert (s = s') as <-.
      { pose proof (Hsame p ltac:(left)) as Hp. congruence. }
      apply (IH _ ltac:(intros ???; eapply Hr; by right) ltac:(intros ???; eapply Hr'; by right) Ho Ho').
      intros q Hq. apply Hsame. by right.
Qed.

(** The hash of the watched files is the same exactly when each of them looks the same:
    the same length, time and contents, or the same error. *)
Theorem watch_hash_tells_changes fs fs' root watch ignore extra_files fingerprint overrides
    ignore_matcher files hash hash' :
  Inj (=) (=) blake3_hex ->
  build_overrides root watch = Ok overrides -> build_ignore_matcher root ignore = Ok ignore_matcher ->
  watched_files fs root overrides ignore_matcher extra_files = files ->
  watched_files fs' root overrides ignore_matcher extra_files = files ->
  all_regular fs files -> all_regular fs' files ->
  compute_watch_hash blake3_hex fs root watch ignore extra_files fingerprint = Ok hash ->
  compute_watch_hash blake3_hex fs' root watch ignore extra_files fingerprint = Ok hash' ->
  hash = hash' <-> forall p, p ∈ files -> seen fs p = seen fs' p.
Proof.
  intros Hinj Ho Hi Hf Hf' Hr Hr'. unfold compute_watch_hash. rewrite Ho, Hi. cbn [mbind outcome_bind].
  rewrite Hf, Hf'. intros (out & Hout & [= <-])%bind_Ok (out' & Hout' & [= <-])%bind_Ok.
  rewrite <- (hash_files _ _ _ _ _ _ _ Hr Hr' Hout Hout'). split; [|by intros ->].
  intros Heq%Hinj%(f_equal to_bytes). by rewrite !to_of_bytes in Heq.
Qed.
End sensitive.

(** ** Witness *)

#[local] Instance plain_walker : Walker :=
  {| Override := unit; Gitignore := unit; override_add _ _ := Ok tt; override_build _ _ := Ok tt;
     gitignore_add _ _ := Ok tt; gitignore_build _ _ := Ok tt;
     matched_or_any_parents _ p _ := bool_decide (p = "/p/b.log") |}.

(** A directory with two files, one of them ignored, and an environment file that is
    not there. *)
Definition plain_fs (contents : string) : WatchedFs :=
  mkWatchedFs (fun root _ => [Ok (root, true); Ok ("/p/a", false); Err "denied"; Ok ("/p/b.log", false)])
    (fun p => if bool_decide (p = "/p/.env") then Err "No such file or directory (os error 2)"
              else Ok (mkMetadata (Z.of_nat (length (to_bytes contents))) (Some (1700000000%Z, 5%Z))))
    (fun _ => Ok [Ok (to_bytes contents); Ok []]).

Lemma plain_regular contents :
  (Z.of_nat (length (to_bytes contents)) < 2 ^ 56)%Z -> to_bytes contents <> [] ->
  all_regular (plain_fs contents) ["/p/.env"; "/p/a"].
Proof.
  intros Hl Hne p s Hp. unfold seen. cbn [plain_fs wf_metadata wf_open]. case_bool_decide as Henv.
  - intros [= <-]. exists (to_bytes "No such file or directory (os error 2").
    split; [done|]. split; [|done]. by apply (bool_decide_unpack (_ ∉ _)); vm_compute.
  - cbn -[list_ascii_of_string]. rewrite bool_decide_false by done. intros [= <-]. rewrite app_nil_r.
    split; [done|]. split; [done|]. by exists 1700000000%Z, 5%Z.
Qed.

Lemma watch_hash_tells_changes_witness :
  let hash contents := compute_watch_hash id (plain_fs contents) "/p" None ["*.log"] ["/p/.env"] [] in
  hash "one" <> hash "two".
Proof.
  intros hash. destruct (hash "one") as [h|e| |] eqn:H1; [|by vm_compute in H1..].
  destruct (hash "two") as [h'|e| |] eqn:H2; [|by vm_compute in H2..]. intros [= Heq].
  pose proof (proj1 (watch_hash_tells_changes id (plain_fs "one") (plain_fs "two") "/p" None ["*.log"]
    ["/p/.env"] [] None (Some tt) ["/p/.env"; "/p/a"] h h' ltac:(intros ?? ?; done) eq_refl eq_refl
    eq_refl eq_refl ltac:(by apply plain_regular) ltac:(by apply plain_regular) H1 H2) Heq) as Hall.
  specialize (Hall "/p/a" ltac:(by right; left)). by vm_compute in Hall.
Defined.
