(* ===== verification/Shim.v ===== *)
(** * The shim around a service

    Models [src/shim.rs]: the process between the daemon and a service.  It starts the
    command of the service in a process group of its own, writes what comes out of it to
    the log of the service, line by line, and ends the group when the service ends or when
    it is asked to stop.

    The two tasks that write the log interleave line by line, since a line is written
    under the lock of the file.  The ends of the group are a program over the effects of
    the kernel and the clock. *)

From stdpp Require Import countable.
From S2P Require Import Prelude Bytes BMap Util Json Logfmt LogIndex LogText Program.
From Stdlib Require Import Lia ZArith.

(** ** The log *)

(** [read_line] of what is still to come out of a pipe. *)
Definition read_line (reader : bytes) : outcome string * bytes :=
  match split_inclusive reader with
  | [] => (Ok "", [])
  | line :: _ =>
      (if utf8_valid line then Ok (of_bytes line) else Err "stream did not contain valid UTF-8",
       drop (length line) reader)
  end.

(** How much of an entry its write left in the file, [None] when all of it, and whether
    the write of its newline worked. *)
Record EntryWrites := mkEntryWrites { ew_entry : option nat; ew_newline : bool }.

Definition whole_writes : EntryWrites := mkEntryWrites None true.

Section pump.
Context `{Json}.

Definition write_entry (writes : EntryWrites) (entry : string) (file : bytes) : bytes :=
  let file := match ew_entry writes with
              | None => file ++ to_bytes entry
              | Some n => file ++ take n (to_bytes entry)
              end in
  if ew_newline writes then file ++ ["010"%char] else file.

(** A turn of the loop: [None] when it ends. *)
Definition pump_line (label timestamp : string) (writes : EntryWrites) (reader file : bytes)
    : option (bytes * bytes) :=
  match read_line reader with
  | (Ok line, reader) =>
      if bool_decide (line = "") then None else
      let clean := strip_ansi_if_needed line in
      let entry := encode_log_line label clean timestamp in
      Some (reader, write_entry writes entry file)
  | _ => None
  end.

(** What is still to come out of the service, on both pipes, and the log file. *)
Record ShimLog := mkShimLog { sh_stdout : bytes; sh_stderr : bytes; sh_file : bytes }.

Inductive Label := Stdout | Stderr.
#[export] Instance label_eq_dec : EqDecision Label.
Proof. solve_decision. Defined.

Definition label_name (label : Label) : string :=
  match label with Stdout => "stdout" | Stderr => "stderr" end.

Definition pipe_of (label : Label) (log : ShimLog) : bytes :=
  match label with Stdout => sh_stdout log | Stderr => sh_stderr log end.

Record PumpTurn := mkPumpTurn { pt_label : Label; pt_timestamp : string; pt_writes : EntryWrites }.

Definition pump_turn (log : ShimLog) (turn : PumpTurn) : option ShimLog :=
  match pump_line (label_name (pt_label turn)) (pt_timestamp turn) (pt_writes turn)
          (pipe_of (pt_label turn) log) (sh_file log) with
  | Some (reader, file) =>
      Some (match pt_label turn with
            | Stdout => mkShimLog reader (sh_stderr log) file
            | Stderr => mkShimLog (sh_stdout log) reader file
            end)
  | None => None
  end.

Fixpoint pump_turns (log : ShimLog) (turns : list PumpTurn) : option ShimLog :=
  match turns with
  | [] => Some log
  | turn :: turns => log ← pump_turn log turn; pump_turns log turns
  end.
End pump.

(** ** The end of the service *)

Definition SIGTERM : Z := 15.
Definition SIGKILL : Z := 9.

(** What ends the wait for the service: its own end with its code, or a signal to the
    shim. *)
Inductive ShimEvent :=
| ServiceEnded (status : outcome (option Z))
| AskedToStop.

Inductive ShimEffect : Type -> Type :=
| SpawnService : ShimEffect (outcome Z)
| OpenLogFile : ShimEffect (outcome unit)
| ListenForSignals : ShimEffect (outcome unit)
| NextEvent : ShimEffect ShimEvent
| KillGroup (pgid signal : Z) : ShimEffect unit
| GroupExists (pgid : Z) : ShimEffect bool
| Now : ShimEffect Z
| Pause (ms : Z) : ShimEffect unit
| ReapService : ShimEffect unit
| JoinPumps : ShimEffect unit.

Definition shim : Type -> Type := prog ShimEffect.

Definition send_signal_to_pgid (pgid signal : Z) : shim unit := trigger (KillGroup pgid signal).

Fixpoint wait_for_process_group_exit (fuel : nat) (pgid deadline : Z) : shim bool :=
  match fuel with
  | 0 => Ret OutOfFuel
  | S fuel =>
      now ← trigger Now;
      exists_ ← trigger (GroupExists pgid);
      if (deadline <=? now)%Z then mret (negb exists_)
      else if negb exists_ then mret true
      else _ ← trigger (Pause 50); wait_for_process_group_exit fuel pgid deadline
  end.

(** The turns of a wait of some milliseconds. *)
Definition wait_fuel (ms : Z) : nat := Z.to_nat (ms / 50 + 2).

Definition shutdown_process_group (pgid : Z) : shim unit :=
  if (pgid =? 0)%Z then mret tt else
  _ ← send_signal_to_pgid pgid SIGTERM;
  now ← trigger Now;
  gone ← wait_for_process_group_exit (wait_fuel 5000) pgid (now + 5000);
  if gone : bool then mret tt else
  _ ← send_signal_to_pgid pgid SIGKILL;
  now ← trigger Now;
  _ ← wait_for_process_group_exit (wait_fuel 1000) pgid (now + 1000);
  mret tt.

Definition ensure_process_group_gone (pgid : Z) : shim unit :=
  if (pgid =? 0)%Z then mret tt else
  exists_ ← trigger (GroupExists pgid);
  if negb exists_ then mret tt else
  _ ← shutdown_process_group pgid;
  now ← trigger Now;
  _ ← wait_for_process_group_exit (wait_fuel 1000) pgid (now + 1000);
  mret tt.

Definition shutdown_and_exit (pgid : Z) : shim Z :=
  _ ← shutdown_process_group pgid;
  _ ← trigger ReapService;
  _ ← trigger JoinPumps;
  mret 0%Z.

(** The result is the code the shim exits with. *)
Definition shim_run : shim Z :=
  pgid ← on_error (fun _ => "spawn service command") (try_trigger SpawnService);
  _ ← on_error (fun _ => "open log file") (try_trigger OpenLogFile);
  _ ← try_trigger ListenForSignals;
  event ← trigger NextEvent;
  match event with
  | ServiceEnded status =>
      status ← Ret (with_context "wait task" status);
      _ ← ensure_process_group_gone pgid;
      _ ← trigger JoinPumps;
      mret (default 1%Z status)
  | AskedToStop => shutdown_and_exit pgid
  end.

(** ** The group of the service is ended *)

(** The clock in milliseconds, whether the group has a process, and the signals that were
    sent with their times and groups. *)
Record Kernel := mkKernel { kn_now : Z; kn_alive : bool; kn_sent : list (Z * Z * Z) }.

Definition kernel_answers : forall R, ShimEffect R -> Kernel -> R -> Kernel -> Prop := fun R e s =>
  match e in ShimEffect R return R -> Kernel -> Prop with
  | KillGroup pgid signal => fun _ s' =>
      s' = mkKernel (kn_now s) (kn_alive s) (kn_sent s ++ [(kn_now s, pgid, signal)])
  | GroupExists _ => fun r s' => r = kn_alive s /\ s' = s
  | Now => fun r s' => r = kn_now s /\ s' = s
  | Pause ms => fun _ s' =>
      exists t, (kn_now s + ms <= t)%Z /\ s' = mkKernel t (kn_alive s) (kn_sent s)
  | SpawnService | OpenLogFile | ListenForSignals => fun r s' => returns r /\ s' = s
  | NextEvent => fun r s' => s' = s /\ forall status, r = ServiceEnded status -> returns status
  | _ => fun _ s' => s' = s
  end.

(** Time goes on, and a group that is gone stays gone. *)
Definition kernel_moves (s s' : Kernel) : Prop :=
  (kn_now s <= kn_now s')%Z /\ (kn_alive s = false -> kn_alive s' = false) /\ kn_sent s' = kn_sent s.

Definition event_answer (ev : event ShimEffect) : option ShimEvent :=
  match ev with
  | Ev e r => match e in ShimEffect R return R -> option ShimEvent with
              | NextEvent => Some
              | _ => fun _ => None
              end r
  end.

Definition spawn_answer (ev : event ShimEffect) : option (outcome Z) :=
  match ev with
  | Ev e r => match e in ShimEffect R return R -> option (outcome Z) with
              | SpawnService => Some
              | _ => fun _ => None
              end r
  end.

Definition silent (t : list (event ShimEffect)) : Prop :=
  omap event_answer t = [] /\ omap spawn_answer t = [].

Lemma silent_cons ev t :
  event_answer ev = None -> spawn_answer ev = None -> silent t -> silent (ev :: t).
Proof. intros He Hs [Ht Ht']. split; simpl; by rewrite ?He, ?Hs. Qed.

Lemma silent_app t t' : silent t -> silent t' -> silent (t ++ t').
Proof. intros [H1 H2] [H1' H2']. split; rewrite omap_app; by rewrite ?H1, ?H2, ?H1', ?H2'. Qed.

Lemma moves_refl s : kernel_moves s s.
Proof. done. Qed.

Lemma moves_trans s1 s2 s3 : kernel_moves s1 s2 -> kernel_moves s2 s3 -> kernel_moves s1 s3.
Proof.
  intros (H1 & H2 & H3) (H1' & H2' & H3'). split_and!; [lia|auto|congruence].
Qed.

Abbreviation shim_wp := (wp kernel_answers kernel_moves).

Lemma wait_ends fuel pgid deadline s :
  (deadline - kn_now s <= 50 * (Z.of_nat fuel - 1))%Z -> 0 < fuel ->
  shim_wp (wait_for_process_group_exit fuel pgid deadline)
    (fun t o s' => silent t /\ kernel_moves s s' /\ exists gone, o = Ok gone /\
       (gone = true -> kn_alive s' = false) /\ (gone = false -> (deadline <= kn_now s')%Z)) s.
Proof.
  revert s. induction fuel as [|fuel IH]; intros s Hfuel Hpos; [lia|]. cbn.
  intros s1 now s1' Hm1 [-> ->] s2 there s2' Hm2 [-> ->].
  pose proof (moves_trans _ _ _ Hm1 Hm2) as Hm. destruct (Z.leb_spec deadline (kn_now s1)) as [Hd|Hd].
  - cbn. split; [by repeat apply silent_cons|]. split; [done|]. eexists. split; [done|].
    split; [by destruct (kn_alive s2)|]. intros _. destruct Hm2 as [? _]. lia.
  - destruct (kn_alive s2) eqn:Ha; cbn.
    + intros s3 [] s3' Hm3 (t & Ht & ->). eapply wp_mono; [|apply IH]; cycle 1.
      * cbn. destruct Hm1 as [? _], Hm2 as [? _], Hm3 as [? _]. lia.
      * destruct fuel; [|lia]. destruct Hm1 as [? _]. lia.
      * cbn. intros t' o s' (Ht' & Hs' & Ho). split; [by repeat apply silent_cons|]. split; [|done].
        eapply moves_trans; [exact Hm|]. eapply moves_trans; [exact Hm3|].
        eapply moves_trans; [|exact Hs']. split_and!; cbn; [lia|done..].
    + split; [by repeat apply silent_cons|]. split; [done|]. by eexists.
Qed.

Lemma wait_fuel_enough ms :
  (0 <= ms)%Z -> (ms <= 50 * (Z.of_nat (wait_fuel ms) - 1))%Z /\ 0 < wait_fuel ms.
Proof.
  intros Hms. unfold wait_fuel. pose proof (Z.div_mod ms 50). pose proof (Z.mod_pos_bound ms 50).
  pose proof (Z.div_pos ms 50). split; lia.
Qed.

(** A wait of some milliseconds that starts now. *)
Lemma wait_for_ends ms pgid s :
  (0 <= ms)%Z ->
  shim_wp (wait_for_process_group_exit (wait_fuel ms) pgid (kn_now s + ms))
    (fun t o s' => silent t /\ kernel_moves s s' /\ exists gone, o = Ok gone /\
       (gone = true -> kn_alive s' = false) /\ (gone = false -> (kn_now s + ms <= kn_now s')%Z)) s.
Proof. intros Hms. destruct (wait_fuel_enough ms Hms). apply wait_ends; lia. Qed.

(** The group was asked to end, and is gone or was killed
    when five seconds had passed. *)
Definition group_ended (pgid : Z) (s : Kernel) : Prop :=
  exists t, (kn_sent s = [(t, pgid, SIGTERM)] /\ kn_alive s = false) \/
    exists t', (t + 5000 <= t')%Z /\ kn_sent s = [(t, pgid, SIGTERM); (t', pgid, SIGKILL)].

Lemma moves_ended pgid s s' : kernel_moves s s' -> group_ended pgid s -> group_ended pgid s'.
Proof.
  intros (_ & Ha & Hs) (t & [[Ht Hd]|(t' & Hle & Ht)]); exists t; rewrite Hs; [left|right]; eauto.
Qed.

Lemma shutdown_ends pgid s :
  pgid <> 0%Z -> kn_sent s = [] ->
  shim_wp (shutdown_process_group pgid)
    (fun t o s' => silent t /\ o = Ok tt /\ group_ended pgid s') s.
Proof.
  intros Hne Hs. unfold shutdown_process_group. rewrite (proj2 (Z.eqb_neq _ _) Hne). cbn -[wait_fuel].
  intros s1 [] s1' (Hn1 & Ha1 & Hs1) ->. intros s2 now s2' (Hn2 & Ha2 & Hs2) [-> ->].
  rewrite Hs1, Hs in Hs2. cbn in Hs2, Hn2. apply wp_bind. eapply wp_mono; [|by apply wait_for_ends].
  intros t o s3 (Ht & (Hn3 & Ha3 & Hs3) & gone & -> & Hgone & Hlate). cbn [then_post].
  destruct gone; cbn -[wait_fuel].
  - rewrite app_nil_r. split; [by repeat apply silent_cons|]. split; [done|].
    exists (kn_now s1). left. rewrite Hs3, Hs2. auto.
  - intros s4 [] s4' (Hn4 & _ & Hs4) ->. intros s5 now s5' (Hn5 & Ha5 & Hs5) [-> ->].
    cbn in Hs5, Hn5. apply wp_bind. eapply wp_mono; [|by apply wait_for_ends].
    intros t' o s6 (Ht' & (Hn6 & _ & Hs6) & g & -> & _ & _). cbn. rewrite app_nil_r.
    split; [do 2 (apply silent_cons; [done..|]); apply silent_app; [done|]; by repeat apply silent_cons|].
    split; [done|]. exists (kn_now s1). right. exists (kn_now s4).
    specialize (Hlate eq_refl). split; [lia|]. by rewrite Hs6, Hs5, Hs4, Hs3, Hs2.
Qed.

(** The group is gone without a signal. *)
Definition group_left (s : Kernel) : Prop := kn_sent s = [] /\ kn_alive s = false.

Lemma moves_left s s' : kernel_moves s s' -> group_left s -> group_left s'.
Proof. intros (_ & Ha & Hs) [Hn Hd]. split; [congruence|auto]. Qed.

Lemma ensure_ends pgid s :
  pgid <> 0%Z -> kn_sent s = [] ->
  shim_wp (ensure_process_group_gone pgid)
    (fun t o s' => silent t /\ o = Ok tt /\ (group_left s' \/ group_ended pgid s')) s.
Proof.
  intros Hne Hs. unfold ensure_process_group_gone. rewrite (proj2 (Z.eqb_neq _ _) Hne).
  cbn -[wait_fuel shutdown_process_group]. intros s1 there s1' (Hn1 & Ha1 & Hs1) [-> ->].
  destruct (kn_alive s1) eqn:Ha; cbn -[wait_fuel shutdown_process_group].
  - apply wp_bind. eapply wp_mono; [|apply shutdown_ends; [done|congruence]].
    intros t o s2 (Ht & -> & He). cbn -[wait_fuel]. intros s3 now s3' Hm [-> ->].
    apply wp_bind. eapply wp_mono; [|by apply wait_for_ends].
    intros t' o s4 (Ht' & Hm' & g & -> & _). cbn. rewrite app_nil_r. split.
    + apply silent_cons; [done..|]. apply silent_app; [done|]. by apply silent_cons.
    + split; [done|]. right. eapply moves_ended; [|done]. by eapply moves_trans.
  - split; [by repeat apply silent_cons|]. split; [done|]. left. split; [congruence|done].
Qed.

(** The shim comes to its end.  When the service ends, it exits with the code of the
    service, or 1, and when it is asked to stop with 0; either way the group of the service
    is gone then, or it was asked to end and killed when five seconds had passed, and no
    other group gets a signal.  When the service or its log cannot be opened, or the wait
    fails, the shim ends with an error and nothing is signalled. *)
Theorem shim_ends_group s :
  kn_sent s = [] ->
  shim_wp shim_run (fun t o s' =>
    match o with
    | Ok code =>
        exists pgid, omap spawn_answer t = [Ok pgid] /\ (pgid = 0%Z -> kn_sent s' = []) /\
        ((omap event_answer t = [AskedToStop] /\ code = 0%Z /\ (pgid <> 0%Z -> group_ended pgid s')) \/
         exists status, omap event_answer t = [ServiceEnded (Ok status)] /\ code = default 1%Z status /\
           (pgid <> 0%Z -> group_left s' \/ group_ended pgid s'))
    | Err _ => kn_sent s' = []
    | _ => False
    end) s.
Proof.
  intros Hs. unfold shim_run. cbn -[ensure_process_group_gone shutdown_process_group].
  intros s1 spawned s1' (_ & _ & Hs1) [Hret ->]. rewrite Hs in Hs1.
  destruct spawned as [pgid|e| |]; [|done..]. cbn -[ensure_process_group_gone shutdown_process_group].
  intros s2 opened s2' (_ & _ & Hs2) [Hopen ->]. rewrite Hs1 in Hs2.
  destruct opened as [[]|e| |]; [|done..]. cbn -[ensure_process_group_gone shutdown_process_group].
  intros s3 listens s3' (_ & _ & Hs3) [Hlisten ->]. rewrite Hs2 in Hs3.
  destruct listens as [[]|e| |]; [|done..]. cbn -[ensure_process_group_gone shutdown_process_group].
  intros s4 event s4' (_ & _ & Hs4) [-> Hevent]. rewrite Hs3 in Hs4.
  destruct (decide (pgid = 0%Z)) as [->|Hne].
  - destruct event as [status|].
    + specialize (Hevent status eq_refl). destruct status as [status|e| |]; [|done..]. cbn.
      intros s5 [] s5' (_ & _ & Hs5) ->. exists 0%Z. split; [done|]. split; [congruence|]. right.
      by exists status.
    + cbn. intros s5 [] s5' (_ & _ & Hs5) ->. intros s6 [] s6' (_ & _ & Hs6) ->.
      exists 0%Z. split; [done|]. split; [congruence|]. by left.
  - destruct event as [status|].
    + specialize (Hevent status eq_refl). destruct status as [status|e| |]; [|done..].
      cbn -[ensure_process_group_gone]. apply wp_bind. eapply wp_mono; [|by apply ensure_ends].
      intros t o s5 ([He Hsp] & -> & Hg). cbn. intros s6 [] s6' Hm ->. exists pgid.
      rewrite !omap_app, He, Hsp. split; [done|]. split; [done|]. right. exists status.
      split; [done|]. split; [done|]. intros _. destruct Hg; [left|right];
        [by eapply moves_left|by eapply moves_ended].
    + cbn -[shutdown_process_group]. apply wp_bind. eapply wp_mono; [|by apply shutdown_ends].
      intros t o s5 ([He Hsp] & -> & Hg). cbn. intros s6 [] s6' Hm ->. intros s7 [] s7' Hm' ->.
      exists pgid. rewrite !omap_app, He, Hsp. split; [done|]. split; [done|]. left.
      split; [done|]. split; [done|]. intros _. eapply moves_ended; [|done]. by eapply moves_trans.
Qed.

(** ** What the log tells of the service *)

(** The printer writes objects without control characters, so on one line, and they are
    read back. *)
Class JsonLines `{Json} : Prop := {
  printed_back : forall m, round_trips m;
  printed_plain : forall m s, to_string (Object m) = Ok s -> forallb (byte_in 32 255) (to_bytes s) = true;
}.

Section written.
Context `{J : Json}.

(** A line that came out of the service, and when it was written. *)
Record Written := mkWritten { wn_label : Label; wn_line : bytes; wn_time : string }.

Definition written_content (w : Written) : string := strip_ansi_if_needed (of_bytes (wn_line w)).

Definition written_text (w : Written) : string :=
  of_bytes (trim_end_matches is_crlf (to_bytes (written_content w))).

Definition written_entry (w : Written) : string :=
  encode_log_line (label_name (wn_label w)) (written_content w) (wn_time w).

Definition entry_text (w : Written) : bytes := to_bytes (written_entry w) ++ ["010"%char].

Definition one_line (line : bytes) : Prop := split_inclusive line = [line].

Definition lines_of (label : Label) (written : list Written) : list bytes :=
  map wn_line (List.filter (fun w => bool_decide (wn_label w = label)) written).

Lemma split_inclusive_cons s line lines :
  split_inclusive s = line :: lines ->
  line <> [] /\ one_line line /\ s = line ++ concat lines /\ split_inclusive (concat lines) = lines.
Proof.
  intros Hs. pose proof (concat_split_inclusive s) as Hc. rewrite Hs in Hc. simpl in Hc.
  assert (line <> [] /\ one_line line /\ split_inclusive (concat lines) = lines) as (?&?&?); [|done].
  clear Hc. revert line lines Hs. induction s as [|c s IH]; intros line lines; simpl; [done|].
  destruct (is_newline c) eqn:Hn.
  - intros [= <- <-]. unfold one_line. simpl. rewrite Hn. split_and!; [done..|].
    by rewrite concat_split_inclusive.
  - destruct (split_inclusive s) as [|l ls] eqn:E; intros [= <- <-].
    + unfold one_line. simpl. by rewrite Hn.
    + destruct (IH l ls eq_refl) as (Hl & Ho & Hls). unfold one_line. simpl. by rewrite Hn, Ho.
Qed.

Lemma pump_line_written label timestamp reader file reader' file' :
  pump_line (label_name label) timestamp whole_writes reader file = Some (reader', file') ->
  exists line, one_line line /\ utf8_valid line = true /\ reader = line ++ reader' /\
    file' = file ++ entry_text (mkWritten label line timestamp).
Proof.
  unfold pump_line, read_line. destruct (split_inclusive reader) as [|line lines] eqn:E; [done|].
  apply split_inclusive_cons in E as (Hne & Ho & -> & _). destruct (utf8_valid line) eqn:Hv; [|done].
  case_bool_decide; [done|]. rewrite drop_app_length. intros [= <- <-]. exists line.
  unfold write_entry, entry_text. simpl. by rewrite app_assoc.
Qed.

(** The pump of a pipe ends when nothing is left in it, or at a line that is not UTF-8. *)
Lemma pump_line_ends label timestamp writes reader file :
  pump_line label timestamp writes reader file = None ->
  reader = [] \/ exists line rest, reader = line ++ rest /\ one_line line /\ utf8_valid line = false.
Proof.
  unfold pump_line, read_line. destruct (split_inclusive reader) as [|line lines] eqn:E.
  - intros _. left. rewrite <- (concat_split_inclusive reader). by rewrite E.
  - apply split_inclusive_cons in E as (Hne & Ho & -> & _). destruct (utf8_valid line) eqn:Hv.
    + case_bool_decide as Hl; [|done]. apply (f_equal to_bytes) in Hl. by rewrite to_of_bytes in Hl.
    + intros _. right. by exists line, (concat lines).
Qed.

Lemma pump_turns_written turns log log' :
  Forall (fun turn => pt_writes turn = whole_writes) turns -> pump_turns log turns = Some log' ->
  exists written,
    map (fun w => (wn_label w, wn_time w)) written
      = map (fun turn => (pt_label turn, pt_timestamp turn)) turns /\
    Forall (fun w => one_line (wn_line w) /\ utf8_valid (wn_line w) = true) written /\
    (forall label, pipe_of label log = concat (lines_of label written) ++ pipe_of label log') /\
    sh_file log' = sh_file log ++ flat_map entry_text written.
Proof.
  intros Hw. revert log. induction Hw as [|[label ts writes] turns Hwhole _ IH]; intros log; simpl.
  - intros [= ->]. exists []. rewrite app_nil_r. by split_and!.
  - simpl in Hwhole. subst writes. unfold pump_turn. cbn [pt_label pt_timestamp pt_writes].
    destruct (pump_line _ _ _ _ _) as [[reader file]|] eqn:E; [|done].
    apply pump_line_written in E as (line & Ho & Hv & Hr & ->). cbn [mbind option_bind].
    intros (written & Hm & Hall & Hp & Hf)%IH. exists (mkWritten label line ts :: written).
    split_and!; [by simpl; rewrite Hm|by constructor| |].
    + intros label'. specialize (Hp label'). unfold lines_of in *. simpl.
      destruct label, label'; simpl in *; by rewrite ?Hr, Hp, <- ?app_assoc.
    + rewrite Hf. simpl. destruct label; simpl; by rewrite <- app_assoc.
Qed.

Context {JL : JsonLines} (unicode_digit : bytes -> bool) (parse_rfc3339 : string -> option Z).

(** The document of a line of the service: what its log is in the index. *)
Definition tells (source : LogSource) (seq : Z) (w : Written) (d : PendingDoc) : Prop :=
  pd_run_id d = ls_run_id source /\ pd_service d = ls_service source /\ pd_seq d = seq /\
  pd_stream d = label_name (wn_label w) /\ pd_ts d = wn_time w /\ pd_raw d = written_entry w /\
  ((forall o, from_str (written_text w) <> Some (Object o)) -> pd_message d = written_text w).

Lemma entry_plain w : forallb (byte_in 32 255) (to_bytes (written_entry w)) = true.
Proof. eapply printed_plain. by apply encode_line_object, printed_back. Qed.

Lemma plain_no p s :
  (forall c, byte_in 32 255 c = true -> p c = false) -> forallb (byte_in 32 255) s = true ->
  forallb (fun c => negb (p c)) s = true.
Proof.
  intros Hp Hs. rewrite forallb_forall in *. intros c Hc. by rewrite (Hp c (Hs c Hc)).
Qed.

Lemma control_not_plain c n : n < 32 -> byte_in 32 255 c = true -> byte_in n n c = false.
Proof.
  unfold byte_in. intros Hn [H1%Nat.leb_le _]%andb_prop. apply andb_false_iff. right.
  apply Nat.leb_gt. lia.
Qed.

Lemma entry_line_alone w : log_lines (entry_text w) = [to_bytes (written_entry w)].
Proof.
  unfold log_lines, entry_text. pose proof (entry_plain w) as Hp.
  assert (split_inclusive (to_bytes (written_entry w) ++ ["010"%char])
    = [to_bytes (written_entry w) ++ ["010"%char]]) as ->.
  { revert Hp. induction (to_bytes (written_entry w)) as [|c s IH]; simpl; [done|].
    intros [Hc Hs]%andb_prop. unfold is_newline at 1. rewrite (control_not_plain c 10) by (done || lia).
    by rewrite IH. }
  simpl. assert (trim_end_matches is_crlf (to_bytes (written_entry w) ++ ["010"%char])
    = to_bytes (written_entry w)) as ->.
  { unfold trim_end_matches. rewrite reverse_app. simpl. rewrite drop_while_nil.
    - apply reverse_involutive.
    - rewrite forallb_reverse. apply plain_no; [|done]. intros c Hc. unfold is_crlf.
      by rewrite !(control_not_plain c) by (done || lia). }
  destruct (is_empty (to_bytes (written_entry w))) eqn:He; [|done]. exfalso.
  destruct (encode_line_object (label_name (wn_label w)) (written_content w) (wn_time w) (printed_back _))
    as [_ Ho]. unfold written_entry in He.
  destruct (to_bytes (encode_log_line _ _ _)) eqn:E; [|done].
  apply (f_equal of_bytes) in E. rewrite of_to_bytes in E. by rewrite E in Ho.
Qed.

Lemma entry_no_escape w : strip_ansi_if_needed (written_entry w) = written_entry w.
Proof.
  unfold strip_ansi_if_needed, contains_ansi, contains_byte.
  destruct (existsb _ _) eqn:E; [|done]. exfalso. apply existsb_exists in E as (c & Hc & Hesc).
  pose proof (entry_plain w) as Hp. rewrite forallb_forall in Hp. apply Hp in Hc.
  apply Ascii.eqb_eq in Hesc as <-. done.
Qed.

Lemma entry_tells source seq w :
  tells source seq w (doc_at unicode_digit parse_rfc3339 source seq (to_bytes (written_entry w))).
Proof.
  unfold doc_at. rewrite of_to_bytes, entry_no_escape. unfold tells, doc_of.
  destruct (encode_line_object (label_name (wn_label w)) (written_content w) (wn_time w) (printed_back _))
    as [_ Ho]. fold (written_entry w) (written_text w) in Ho. unfold parse_log_line. rewrite Ho. cbn.
  pose proof (encoded_get (label_name (wn_label w)) (written_text w) (wn_time w)) as Hm.
  split_and!; try done.
  - unfold object_stream. rewrite Hm. simpl. by destruct (wn_label w).
  - unfold find_string, time_fields. cbn [first_match]. by rewrite Hm.
  - intros Hno. assert (payload (written_text w) = [("msg", String (written_text w))]) as Hpay.
    { unfold payload. destruct (from_str (written_text w)) as [[]|] eqn:E; try done. by destruct (Hno m). }
    rewrite Hpay in Hm. unfold object_message. by rewrite !Hm.
Qed.

(** C15: While the writes work, the log has one line for each line that came out of the
    service, each pipe's in their order, whatever the order in which the two tasks write,
    and indexed it gives a document for each of them with its stream, its time and, of
    plain text, its text.  A task that writes ends when nothing is left in its pipe or at
    a line that is not UTF-8. *)
Theorem shim_log_tells_output stdout stderr turns log source :
  Forall (fun turn => pt_writes turn = whole_writes) turns ->
  pump_turns (mkShimLog stdout stderr []) turns = Some log ->
  exists written docs,
    map (fun w => (wn_label w, wn_time w)) written
      = map (fun turn => (pt_label turn, pt_timestamp turn)) turns /\
    Forall (fun w => one_line (wn_line w)) written /\
    (forall label, pipe_of label (mkShimLog stdout stderr [])
       = concat (lines_of label written) ++ pipe_of label log) /\
    all_docs unicode_digit parse_rfc3339 source 0 (sh_file log) = docs /\
    length docs = length written /\
    (forall i w d, written !! i = Some w -> docs !! i = Some d -> tells source (Z.of_nat i) w d) /\
    forall turn, pump_turn log turn = None ->
      let reader := pipe_of (pt_label turn) log in
      reader = [] \/ exists line rest, reader = line ++ rest /\ one_line line /\ utf8_valid line = false.
Proof.
  intros Hw Hrun. destruct (pump_turns_written turns _ log Hw Hrun) as (written & Hm & Hall & Hp & Hf).
  assert (log_lines (sh_file log) = map (fun w => to_bytes (written_entry w)) written) as Hlines.
  { rewrite Hf. simpl. clear - JL. induction written as [|w written IH]; simpl; [done|].
    rewrite log_lines_app, entry_line_alone, IH; [done|].
    right. unfold entry_text. by exists (to_bytes (written_entry w)), "010"%char. }
  exists written, (all_docs unicode_digit parse_rfc3339 source 0 (sh_file log)).
  split_and!; try done.
  - eapply Forall_impl; [done|]. by intros w [? _].
  - unfold all_docs. rewrite Hlines. generalize 0%Z. clear. induction written as [|w written IH];
      intros n; simpl; [done|]. by rewrite IH.
  - unfold all_docs. rewrite Hlines. clear - JL. intros i w d. rewrite <- (Z.add_0_l (Z.of_nat i)). revert i w d.
    generalize 0%Z as n. induction written as [|w written IH]; intros n i w' d; [done|].
    destruct i as [|i]; simpl.
    + intros [= <-] [= <-]. rewrite Z.add_0_r. apply entry_tells.
    + intros Hi Hd. specialize (IH (n + 1)%Z i w' d Hi Hd).
      by replace (n + Z.of_nat (S i))%Z with (n + 1 + Z.of_nat i)%Z by lia.
  - intros turn Hnone. unfold pump_turn in Hnone.
    destruct (pump_line _ _ _ _ _) as [[]|] eqn:E; [done|]. by apply pump_line_ends in E.
Qed.
End written.

(** ** Witnesses *)

(** The shim is asked to stop while the service runs; the service ends within the five
    seconds. *)
Lemma shim_ends_group_witness :
  exists t s', runs kernel_answers kernel_moves shim_run (mkKernel 0 true []) t (Ok 0%Z) s' /\
    group_ended 42 s'.
Proof.
  assert (exists t s', runs kernel_answers kernel_moves shim_run (mkKernel 0 true []) t (Ok 0%Z) s' /\
    omap spawn_answer t = [Ok 42%Z] /\ omap event_answer t = [AskedToStop]) as (t & s' & Hr & Hs & He).
  { set (up := mkKernel 0 true []). set (asked := mkKernel 0 true [(0, 42, SIGTERM)]%Z).
    set (down := mkKernel 3000 false [(0, 42, SIGTERM)]%Z).
    eexists _, _. split; [|split].
    - cbn -[Z.leb]. eexists up, (Ok 42%Z), up, _. split; [done|]. split; [done|]. split; [done|].
      cbn -[Z.leb]. eexists up, (Ok tt), up, _. split; [done|]. split; [done|]. split; [done|].
      eexists up, (Ok tt), up, _. split; [done|]. split; [done|]. split; [done|].
      eexists up, AskedToStop, up, _. split; [done|]. split; [done|]. split; [done|].
      cbn -[Z.leb]. eexists up, tt, asked, _. split; [done|]. split; [done|]. split; [done|].
      eexists asked, 0%Z, asked, _. split; [done|]. split; [done|]. split; [done|].
      eexists asked, 0%Z, asked, _. split; [done|]. split; [done|]. split; [done|].
      eexists down, false, down, _. split; [done|]. split; [done|]. split; [done|].
      cbn. eexists down, tt, down, _. split; [done|]. split; [done|]. split; [done|].
      eexists down, tt, down, _. split; [done|]. split; [done|]. split; [done|]. done.
    - done.
    - done. }
  exists t, s'. split; [done|].
  pose proof (wp_runs _ _ _ _ _ _ _ _ (shim_ends_group (mkKernel 0 true []) eq_refl) Hr) as Hp.
  cbn beta iota in Hp. rewrite Hs, He in Hp.
  destruct Hp as (pgid & [= <-] & _ & [(_ & _ & Hg)|(status & [=] & _)]). by apply Hg.
Defined.

Lemma digits_plain p : forallb (byte_in 32 255) (digits_of_pos p) = true.
Proof. by induction p. Qed.

Lemma concrete_json_lines : @JsonLines concrete_json.
Proof.
  split.
  - intros m. exists (of_bytes (digits_of_pos (encode (to_tree (Object m))))).
    assert (print_value (Object m)
      = Ok ("{" +:+ of_bytes (digits_of_pos (encode (to_tree (Object m)))) +:+ "}")) as Hp.
    { unfold print_value. cbn [brace]. f_equal. apply to_bytes_inj.
      by rewrite !to_bytes_app, !to_of_bytes. }
    split; [exact Hp|]. by apply parse_print.
  - intros m s. change (to_string (Object m)) with (print_value (Object m)). unfold print_value.
    set (text := brace _ :: _). intros Hs. assert (s = of_bytes text) as -> by congruence.
    rewrite to_of_bytes. unfold text. cbn [forallb brace]. by rewrite forallb_app, digits_plain.
Qed.

(** A line on each pipe, and a piece of one that has not come to its end. *)
Definition sample_out : bytes := to_bytes "one" ++ ["010"%char] ++ to_bytes "t".
Definition sample_err : bytes := to_bytes "two" ++ ["010"%char].

Definition sample_turns : list PumpTurn :=
  [mkPumpTurn Stderr "t1" whole_writes; mkPumpTurn Stdout "t2" whole_writes].

Lemma shim_log_tells_output_witness :
  exists log, @pump_turns concrete_json (mkShimLog sample_out sample_err []) sample_turns = Some log /\
    sh_stdout log = to_bytes "t" /\
    length (@all_docs concrete_json (fun _ => false) (fun _ => None) (mkSource "run" "web" "/web.log") 0
      (sh_file log)) = 2.
Proof.
  destruct (@pump_turns concrete_json (mkShimLog sample_out sample_err []) sample_turns) as [log|] eqn:E;
    [|by vm_compute in E].
  exists log. split; [done|].
  destruct (@shim_log_tells_output concrete_json concrete_json_lines (fun _ => false) (fun _ => None)
    sample_out sample_err sample_turns log (mkSource "run" "web" "/web.log") ltac:(by repeat constructor) E)
    as (written & docs & Hm & _ & Hp & <- & Hl & _).
  split; [by vm_compute in E; injection E as <-|].
  apply (f_equal length) in Hm. rewrite !length_map in Hm. by rewrite Hl, Hm.
Defined.
