(* ===== verification/Bootstrap.v ===== *)
(** * The start of the daemon

    Models [src/daemon/bootstrap.rs]: the settings from the environment, the choice of the
    service manager, the socket of a daemon that is gone, what is started again of the
    runs and globals that were restored, and the files of the dashboard.

    Sockets and HTTP are third-party code; what they answer is an argument. *)

From S2P Require Import Prelude Bytes BMap Util Json.
From S2P Require Import ConfigModel ConfigPlan ConfigValidate Port RunModel Lifecycle.
From S2P Require Import LaunchEnv LaunchPorts PortSync Manifest Restore Systemd Program Launch Commands.
From S2P Require Import StopRun Sources PortOwners.
From Stdlib Require Import Lia ZArith.

(** ** Settings *)

Definition DASHBOARD_PORT : Z := 47832.
Definition DEFAULT_MAINTENANCE_INTERVAL : Z := 10 * 60.
Definition DEFAULT_MAX_AGE : Z := 7 * 24 * 60 * 60.
Definition DEFAULT_MAX_BYTES : Z := 1024 * 1024 * 1024.

Inductive ProcessManager := ManagerLocal | ManagerSystemd.

Section settings.
Context (var : string -> option string).

Definition number_setting (name : string) (default_value : Z) : Z :=
  default default_value (v ← var name; parse_u64 (to_bytes v)).

(** Seconds. *)
Definition log_index_maintenance_interval : Z :=
  number_setting "DEVSTACK_LOG_INDEX_MAINTENANCE_INTERVAL_SECS" DEFAULT_MAINTENANCE_INTERVAL.

Definition log_index_max_age : Z := number_setting "DEVSTACK_LOG_INDEX_MAX_AGE_SECS" DEFAULT_MAX_AGE.

Definition log_index_max_bytes : Z := number_setting "DEVSTACK_LOG_INDEX_MAX_BYTES" DEFAULT_MAX_BYTES.

Definition dashboard_disabled : bool :=
  match var "DEVSTACK_DISABLE_DASHBOARD" with
  | Some value => bool_decide (str_to_ascii_lowercase (str_trim value) ∈ ["1"; "true"; "yes"; "on"])
  | None => false
  end.

Definition process_manager_override : option string :=
  value ← var "DEVSTACK_PROCESS_MANAGER";
  let value := str_to_ascii_lowercase (str_trim value) in
  if bool_decide (value = "") then None else Some value.

(** [linux] is the target; [connect] the connection to the systemd of the machine. *)
Definition build_process_manager (linux : bool) (debug : string -> string) (connect : outcome unit)
    : outcome ProcessManager :=
  let machine := if linux then _ ← connect; Ok ManagerSystemd else Ok ManagerLocal in
  match process_manager_override with
  | None => machine
  | Some value =>
      if bool_decide (value = "local") then Ok ManagerLocal
      else if bool_decide (value = "systemd")
      then if linux then machine
           else Err "DEVSTACK_PROCESS_MANAGER=systemd is only supported on Linux"
      else Err ("unsupported DEVSTACK_PROCESS_MANAGER value " +:+ debug value
                +:+ "; expected 'local' or 'systemd'")
  end.
End settings.

(** ** One daemon *)

(** What [flock] answers. *)
Inductive Flock := Locked | WouldBlock | FlockFailed (err : string).

Definition acquire_daemon_lock (opened : outcome unit) (flock : Flock) : outcome unit :=
  _ ← with_context "open daemon lock" opened;
  match flock with
  | Locked => Ok tt
  | WouldBlock => Err "daemon already running"
  | FlockFailed err => with_context "flock daemon lock" (Err err)
  end.

(** What connecting to the socket of another daemon gives; the ping is whether its answer
    has a status of success. *)
Inductive SocketProbe :=
| Connected (ping : outcome bool)
| ConnectionRefused
| SocketNotFound
| ProbeFailed (err : string).

(** Whether the socket is removed. *)
Definition clear_stale_socket (there : bool) (probe : SocketProbe) (removed : outcome unit) : outcome bool :=
  if negb there then Ok false else
  _ ← (match probe with
       | Connected ping => fail_if (default false (ok ping)) "daemon already running"
       | ConnectionRefused | SocketNotFound => Ok tt
       | ProbeFailed err => with_context "probe existing daemon socket" (Err err)
       end);
  _ ← with_context "remove stale socket" removed;
  Ok true.

(** ** What is started again *)

Section restore.
Context `{JsonFile}.
Context (render_template : string -> Value -> outcome string) (home : option string).
Context (debug_readiness : ReadinessSpec -> string) (debug : string -> string).
Context (base_dir : outcome string) (blake3_hex : string -> string).
Context (binary_path : string).
Context (parse_yaml parse_toml : bytes -> outcome ConfigFile).
Context `{RegistryCodec} (kernel : nat -> Kernel) (fuel : nat -> nat).

#[local] Abbreviation ensure_globals :=
  (ensure_globals render_template home debug_readiness debug base_dir blake3_hex binary_path kernel fuel).
#[local] Abbreviation load_config_at := (load_config_at debug parse_yaml parse_toml).
#[local] Abbreviation sync_global_auto_restart_watcher := sync_global_auto_restart_watcher.

(** [match o { Ok(a) => a, Err(_) => continue }] in a loop. *)
Definition or_continue {A} (o : outcome A) (f : A -> command unit) : command unit :=
  match o with Ok a => f a | Err _ => mret tt | Panic => Ret Panic | OutOfFuel => Ret OutOfFuel end.

Definition restore_global (entry : outcome string) : command unit :=
  entry ← Ret entry;
  let manifest_path := path_join entry "manifest.json" in
  w ← trigger See;
  if negb (w_exists w manifest_path) then mret tt else
  or_continue (load_global_manifest debug (w_exists w) (w_is_file w) blake3_hex (w_read w) manifest_path)
    (fun manifest =>
  if negb (global_manifest_is_restorable (w_exists w) manifest) then mret tt else
  let config_path := pg_config_path manifest in
  or_continue (load_config_at w config_path) (fun config =>
  match bget (pg_name manifest) (globals_map config) with
  | None => mret tt
  | Some service =>
      let tasks_map := default [] (cf_tasks config) in
      ensured ← attempt (ensure_globals [(pg_name manifest, service)] tasks_map (pg_project_dir manifest)
                  config_path (default (pg_project_dir manifest) (parent config_path)));
      match ensured with
      | Ok _ => ignore (sync_global_auto_restart_watcher (pg_key manifest))
      | _ => mret tt
      end
  end)).

Definition restore_active_globals : command unit :=
  globals_root ← Ret (globals_root base_dir);
  w ← trigger See;
  if negb (w_exists w globals_root) then mret tt else
  entries ← Ret (w_read_dir w globals_root);
  pforeach restore_global entries.

(** One of the loops over the services of the runs. *)
Definition for_each_of (f : string -> string -> command unit) (runs : list RunRecord) : command unit :=
  pforeach (fun run =>
    pforeach (fun service_name => ignore (f (rr_run_id run) service_name)) (bkeys (rr_services run))) runs.

Definition for_each_service (f : string -> string -> command unit) : command unit :=
  runs ← trigger (Look (fun d => bvalues (dm_runs d))); for_each_of f runs.

Definition restore_api_capture_proxies : command unit := for_each_service sync_service_api_capture_proxy.

Definition restore_auto_restart_watchers : command unit :=
  _ ← for_each_service sync_service_auto_restart_watcher;
  globals ← trigger (Globals (fun g => (bvalues g.1, g)));
  pforeach (fun global => ignore (sync_global_auto_restart_watcher (gr_key global))) globals.

(** What the start of the daemon does with what it restored. *)
Definition restore_all : command unit :=
  _ ← sync_ports debug base_dir blake3_hex kernel fuel;
  _ ← restore_active_globals;
  _ ← restore_api_capture_proxies;
  restore_auto_restart_watchers.
End restore.

(** ** The dashboard *)

Definition dashboard_content_type (path : string) : string :=
  let ext := default "" (extension path) in
  if bool_decide (ext = "css") then "text/css; charset=utf-8"
  else if bool_decide (ext = "html") then "text/html; charset=utf-8"
  else if bool_decide (ext = "ico") then "image/x-icon"
  else if bool_decide (ext = "js") then "text/javascript; charset=utf-8"
  else if bool_decide (ext = "json") then "application/json; charset=utf-8"
  else if bool_decide (ext = "png") then "image/png"
  else if bool_decide (ext = "svg") then "image/svg+xml"
  else if bool_decide (ext = "woff2") then "font/woff2"
  else "application/octet-stream".

Fixpoint trim_start_slashes (s : bytes) : bytes :=
  match s with "/"%char :: s => trim_start_slashes s | _ => s end.

(** Pushing components one by one onto an empty path; [None] at one that is not a name. *)
Fixpoint push_names (safe_relative : string) (components : list (Z * string)) : option string :=
  match components with
  | [] => Some safe_relative
  | (rank, part) :: components =>
      if (rank =? 1)%Z then push_names (path_join safe_relative part) components else None
  end.

Definition dashboard_asset_path (is_file : string -> bool) (dist_dir request_path : string) : string :=
  let relative := of_bytes (trim_start_slashes (to_bytes request_path)) in
  let relative := if bool_decide (relative = "") then "index.html" else relative in
  let index := path_join dist_dir "index.html" in
  match push_names "" (path_key relative) with
  | None => index
  | Some safe_relative =>
      let candidate := path_join dist_dir safe_relative in
      if is_file candidate then candidate else index
  end.

Record AssetResponse := mkAssetResponse {
  as_content_type : string;
  as_cache_control : string;
  as_body : bytes;
}.

(** [None] is the answer that nothing was found. *)
Definition serve_dashboard_asset (is_file : string -> bool) (read : string -> outcome bytes)
    (dist_dir uri_path : string) : option AssetResponse :=
  let path := dashboard_asset_path is_file dist_dir uri_path in
  bytes ← ok (read path);
  let cache_control :=
    if bool_decide (file_name path = Some "index.html") then "no-cache"
    else "public, max-age=31536000, immutable" in
  Some (mkAssetResponse (dashboard_content_type path) cache_control bytes).

(** ** What the start and the dashboard do *)

Lemma absolute_app s t : s <> "" -> is_absolute (s +:+ t) = is_absolute s.
Proof.
  destruct s as [|c s]; [done|]. intros _. unfold is_absolute, starts_with. simpl.
  by destruct c as [[] [] [] [] [] [] [] []].
Qed.

Lemma absolute_join base v : is_absolute v = false -> is_absolute (path_join base v) = is_absolute base.
Proof.
  intros Hv. unfold path_join. rewrite Hv. case_bool_decide as Hb; cbn [orb]; [by subst|].
  by destruct (ends_with_slash _); rewrite absolute_app.
Qed.

Lemma push_names_total s l : Forall (fun c => c.1 = 1%Z) l -> is_Some (push_names s l).
Proof.
  revert s. induction l as [|[rank part] l IH]; intros s; simpl; [by eexists|].
  intros [Hr Hl]%Forall_cons. simpl in Hr. subst rank. by apply IH.
Qed.

Lemma push_names_components s l r :
  push_names s l = Some r ->
  Forall (fun c => ("/"%char ∉ to_bytes c.2) /\ c.2 <> "" /\ c.2 <> ".") l ->
  is_absolute s = false ->
  components r = components s ++ l.*2 /\ is_absolute r = false /\ Forall (fun c => c.1 = 1%Z) l.
Proof.
  revert s. induction l as [|[rank part] l IH]; intros s; simpl.
  - intros [= ->] _ Hs. rewrite app_nil_r. by repeat constructor.
  - destruct (Z.eqb_spec rank 1) as [->|]; [|done]. intros Hp [Hc Hl]%Forall_cons Hs.
    destruct Hc as (Hslash & Hne & Hdot). simpl in *.
    apply IH in Hp as (Hcomp & Habs & Hall); [|done|].
    + rewrite Hcomp, components_join_segment by (done || by apply slash_free_relative).
      rewrite <- app_assoc. split_and!; [done..|by constructor].
    + rewrite absolute_join; [done|by apply slash_free_relative].
Qed.

(** A request to the dashboard is answered with a file in its directory: the path that
    is read is that of the directory and then names, none of them [..]; it is the file that
    the request names if there is one, and the index otherwise. *)
Theorem asset_confined is_file dist_dir request :
  (forall p q, components p = components q -> is_absolute p = is_absolute q -> is_file p = is_file q) ->
  let path := dashboard_asset_path is_file dist_dir request in
  let relative := of_bytes (trim_start_slashes (to_bytes request)) in
  let named := if bool_decide (relative = "") then "index.html" else relative in
  exists names,
    components path = components dist_dir ++ names /\ Forall (fun name => name <> "..") names /\
    (names = ["index.html"] \/ names = components named /\ is_file path = true) /\
    (is_file (path_join dist_dir named) = true -> leading_dot named = false ->
     Forall (fun name => name <> "..") (components named) -> names = components named).
Proof.
  intros Hfile path relative named. unfold path, dashboard_asset_path. fold relative named.
  assert (is_absolute named = false) as Habs.
  { unfold named. case_bool_decide; [done|]. unfold relative, is_absolute. clear.
    induction (to_bytes request) as [|c l IH]; [done|]. by destruct c as [[] [] [] [] [] [] [] []]. }
  assert (components (path_join dist_dir "index.html") = components dist_dir ++ ["index.html"]) as Hindex
    by (by apply components_join_const).
  set (names := map (fun w => (component_rank w, w)) (components named)).
  assert (Forall (fun c => c.1 = 1%Z) names <-> Forall (fun name => name <> "..") (components named)) as Hrank.
  { unfold names. rewrite Forall_map. apply Forall_iff. intros w. simpl. unfold component_rank.
    by case_bool_decide. }
  assert (path_key named = (if leading_dot named then [((-1)%Z, "")] else []) ++ names) as Hkey
    by (unfold path_key; by rewrite Habs).
  assert (names.*2 = components named) as Hsnd
    by (unfold names; rewrite <- list_fmap_compose; apply list_fmap_id).
  assert (Forall (fun c : Z * string => ("/"%char ∉ to_bytes c.2) /\ c.2 <> "" /\ c.2 <> ".") names) as Hplain.
  { unfold names. rewrite Forall_map. apply Forall_forall. intros w. apply component_plain. }
  assert (forall safe, push_names "" names = Some safe -> let p := path_join dist_dir safe in
    components p = components dist_dir ++ components named /\ is_absolute p = is_absolute dist_dir) as Hsafe.
  { intros safe Hpush. destruct (push_names_components _ _ _ Hpush Hplain eq_refl) as (Hc & Ha & _).
    rewrite Hsnd in Hc. simpl. rewrite components_join, Hc, absolute_join by done. done. }
  rewrite Hkey. destruct (leading_dot named) eqn:Hdot; simpl.
  { exists ["index.html"]. split_and!; [done|by repeat constructor|by left|done]. }
  destruct (push_names "" names) as [safe|] eqn:Hpush.
  - pose proof (Hsafe _ eq_refl) as [Hc Ha].
    destruct (push_names_components _ _ _ Hpush Hplain eq_refl) as (_ & _ & Hall%Hrank).
    destruct (is_file (path_join dist_dir safe)) eqn:Hf.
    + exists (components named). split_and!; [done..|by right|done].
    + exists ["index.html"]. split_and!; [done|by repeat constructor|by left|].
      intros Hwanted _ _. rewrite (Hfile _ (path_join dist_dir safe)) in Hwanted; [congruence| |].
      * by rewrite Hc, components_join.
      * by rewrite Ha, absolute_join.
  - exists ["index.html"]. split_and!; [done|by repeat constructor|by left|].
    intros _ _ Hall%Hrank. apply (push_names_total "") in Hall as [safe Hs]. congruence.
Qed.

(** The services that are looked at again: their watchers and their proxies. *)
Inductive Restored := Watched (run_id service : string) | Proxied (run_id service : string).

Definition restored_step (ev : event Effect) : option Restored :=
  match ev with
  | Ev e r =>
      match e with
      | Act (ActSyncWatcherBegin run_id service) _ => Some (Watched run_id service)
      | Act (ActSyncCaptureBegin run_id service) _ => Some (Proxied run_id service)
      | _ => None
      end
  end.

(** The services of the runs, in the order of the maps. *)
Definition services_of (runs : list RunRecord) : list (string * string) :=
  flat_map (fun run => map (pair (rr_run_id run)) (bkeys (rr_services run))) runs.

(** Ends without an error, after these steps. *)
Definition did_all (expected l : list Restored) (o : outcome unit) : Prop :=
  match o with Ok _ => l = expected | Err _ => False | _ => True end.

Abbreviation seen_restored := (seen restored_step).

Lemma seen_ignored {A} (p : command A) step :
  seen_restored p (fun l _ => l = [step]) -> seen_restored (ignore p) (did_all [step]).
Proof.
  intros Hp. apply seen_bind, seen_attempt. eapply seen_mono; [|exact Hp].
  by intros l [a|e| |] ->; simpl.
Qed.

Lemma seen_ignored_quiet {A} (p : command A) : quiet restored_step p -> seen_restored (ignore p) (did_all []).
Proof.
  intros Hp. apply seen_bind, seen_attempt. eapply seen_mono; [|exact Hp].
  by intros l [a|e| |] ->; simpl.
Qed.

Lemma seen_each {A} (f : A -> command unit) (expected : A -> list Restored) (l : list A) :
  (forall a, seen_restored (f a) (did_all (expected a))) ->
  seen_restored (pforeach f l) (did_all (flat_map expected l)).
Proof.
  intros Hf. unfold pforeach. induction l as [|a l IH]; simpl; [done|].
  apply seen_bind. eapply seen_mono; [|apply Hf]. intros l1 [[]|e| |]; simpl; try done. intros ->.
  eapply seen_mono; [|exact IH]. intros l2 [[]|e| |]; simpl; try done. by intros ->.
Qed.

Lemma seen_services f step runs :
  (forall run_id service, seen_restored (f run_id service) (fun l _ => l = [step run_id service])) ->
  seen_restored (for_each_of f runs) (did_all (map (fun p => step p.1 p.2) (services_of runs))).
Proof.
  intros Hf. unfold services_of. rewrite flat_map_concat_map, concat_map, map_map.
  rewrite <- flat_map_concat_map. apply seen_each. intros run.
  replace (map _ (map _ _)) with (flat_map (fun service => [step (rr_run_id run) service])
    (bkeys (rr_services run))) by (by induction (bkeys (rr_services run)); simpl; [|f_equal]).
  apply seen_each. intros service. by apply seen_ignored.
Qed.

Lemma seen_watcher run_id service :
  seen_restored (sync_service_auto_restart_watcher run_id service) (fun l _ => l = [Watched run_id service]).
Proof.
  intros start_args. simpl. destruct start_args as [[[paused|]|]|e| |]; simpl; try done.
  intros [[]|e| |]; simpl; try done.
Qed.

Lemma seen_proxy run_id service :
  seen_restored (sync_service_api_capture_proxy run_id service) (fun l _ => l = [Proxied run_id service]).
Proof.
  intros start_config. simpl. destruct start_config as [[[[public target]|]|]|e| |]; simpl; try done.
  intros [[]|e| |]; simpl; try done.
Qed.

Lemma quiet_global_watcher key : quiet restored_step (sync_global_auto_restart_watcher key).
Proof.
  intros start_args. simpl. destruct start_args as [[paused|]|e| |]; simpl; try done.
  intros [[]|e| |]; simpl; try done.
Qed.

(** A loop over the services of the runs there are when it starts. *)
Definition visits (step : string -> string -> Restored) (other : Host -> Host -> Prop) (s : Host)
    (t : list (event Effect)) (o : outcome unit) : Prop :=
  exists s1, other s s1 /\
    did_all (map (fun p => step p.1 p.2) (services_of (bvalues (dm_runs (ho_daemon s1)))))
      (observed restored_step t) o.

Lemma loop_visits step other (k : list RunRecord -> command unit) s :
  (forall runs, seen_restored (k runs) (did_all (map (fun p => step p.1 p.2) (services_of runs)))) ->
  wp host_step other (Vis (Look (fun d => bvalues (dm_runs d))) k) (fun t o _ => visits step other s t o) s.
Proof.
  intros Hk s1 runs s2 Ho [-> ->]. eapply wp_mono; [|apply wp_runs_all]. intros t o s' Hr.
  exists s1. split; [done|]. eapply (seen_runs restored_step) in Hr; [exact Hr|apply Hk].
Qed.

(** When the daemon starts, it looks at every service of every run that it restored,
    in order, to start its proxy and its watcher again; whatever fails for one of them, it
    goes on with the next, and the start of the daemon does not fail. *)
Theorem restored_services_visited other s :
  wp host_step other restore_api_capture_proxies (fun t o _ => visits Proxied other s t o) s /\
  wp host_step other restore_auto_restart_watchers (fun t o _ => visits Watched other s t o) s.
Proof.
  split; apply loop_visits; intros runs.
  - apply seen_services, seen_proxy.
  - apply seen_bind. eapply seen_mono; [|apply seen_services, seen_watcher].
    intros l [[]|e| |]; simpl; try done. intros -> globals.
    eapply seen_mono; [|apply (seen_each _ (fun _ => []))].
    + intros l2 [[]|e| |]; simpl; try done.
      rewrite flat_map_concat_map. intros ->. induction globals; simpl; [by rewrite app_nil_r|done].
    + intros global. apply seen_ignored_quiet, quiet_global_watcher.
Qed.

Lemma asset_confined_witness :
  let is_file p := bool_decide (components p = ["srv"; "dist"; "app.js"]) && is_absolute p in
  (exists names, components (dashboard_asset_path is_file "/srv/dist" "//../../etc/passwd")
     = ["srv"; "dist"] ++ names /\ Forall (fun name => name <> "..") names) /\
  components (dashboard_asset_path is_file "/srv/dist" "/./app.js") = ["srv"; "dist"; "index.html"] /\
  components (dashboard_asset_path is_file "/srv/dist" "/app.js") = ["srv"; "dist"; "app.js"].
Proof.
  intros is_file.
  assert (forall p q, components p = components q -> is_absolute p = is_absolute q -> is_file p = is_file q)
    as Hfile by (intros p q Hc Ha; unfold is_file; by rewrite Hc, Ha).
  split; [|split].
  - destruct (asset_confined is_file "/srv/dist" "//../../etc/passwd" Hfile) as (names & Hc & Hn & _).
    by exists names.
  - by vm_compute.
  - destruct (asset_confined is_file "/srv/dist" "/app.js" Hfile) as (names & Hc & _ & _ & Hw).
    rewrite Hc, (Hw ltac:(by vm_compute) ltac:(by vm_compute) ltac:(by repeat constructor)). by vm_compute.
Defined.
