(* ===== verification/Diagnose.v ===== *)
(** * What is wrong with a run

    Models [src/diagnose.rs]: the report on the services of a run - their states, who
    listens on their ports, the last lines of their logs, and what seems wrong. *)

From S2P Require Import Prelude Bytes BMap Util Json Logfmt ConfigModel RunModel Lifecycle.
From S2P Require Import LaunchEnv Manifest PortOwners.
From Stdlib Require Import Lia ZArith.

Record DiagnosePid := mkDiagnosePid {
  dp_pid : Z;
  dp_comm : option string;
  dp_cmdline : option string;
}.

Record DiagnosePortBinding := mkDiagnosePortBinding {
  db_listening_pids : list DiagnosePid;
  db_owned_by_unit : option bool;
}.

Record DiagnoseService := mkDiagnoseService {
  dg_name : string;
  dg_daemon_state : ServiceState;
  dg_systemd : option SystemdStatus;
  dg_health : option HealthSnapshot;
  dg_expected_port : option Z;
  dg_port_binding : option DiagnosePortBinding;
  dg_last_log_lines : list string;
  dg_issues : list string;
}.

Record DiagnoseResponse := mkDiagnoseResponse {
  di_run_id : string;
  di_stack : string;
  di_project_dir : string;
  di_generated_at : string;
  di_services : list DiagnoseService;
}.

(** [detect_issues], issue by issue. *)
Definition issue (name : string) (there : bool) : list string := if there then [name] else [].

Definition systemd_issues (svc : ServiceStatus) : list string :=
  match su_systemd svc with
  | Some sys =>
      issue "crash-looping"
        (bool_decide (sd_active_state sys = "failed") || bool_decide (sd_result sys = Some "start-limit-hit"))
      ++ issue "inactive"
           (bool_decide (su_desired svc = "running") && bool_decide (sd_active_state sys = "inactive"))
  | None => []
  end.

Definition port_issues (expected_port : option Z) (binding : option PortBindingInfo) : list string :=
  match expected_port with
  | None => []
  | Some _ =>
      match binding with
      | Some binding =>
          if pb_probe_supported binding
          then if negb (pb_has_listener binding) then ["port-not-bound"]
               else issue "wrong-port-or-orphan-listener"
                      (negb (bool_decide (pb_listening_pids binding = []))
                       && bool_decide (pb_owned_by_unit binding = Some false))
          else []
      | None => ["port-not-bound"]
      end
  end.

Definition health_issues (svc : ServiceStatus) : list string :=
  match su_health svc with
  | Some health => issue "health-checks-failing" (3 <=? hs_consecutive_failures health)%Z
  | None => []
  end.

Definition detect_issues (svc : ServiceStatus) (expected_port : option Z)
    (binding : option PortBindingInfo) : list string :=
  systemd_issues svc
  ++ issue "degraded" (bool_decide (su_state svc = Degraded))
  ++ issue "failed" (bool_decide (su_state svc = Failed))
  ++ port_issues expected_port binding ++ health_issues svc.

(** [BufRead::lines], where a line that is not UTF-8 is an error, read as an empty one. *)
Definition file_lines (content : bytes) : list string :=
  let line l := if utf8_valid l then of_bytes (strip_cr l) else "" in
  match reverse (split_on "010" content) with
  | final :: ended =>
      map line (reverse ended)
      ++ (if bool_decide (final = []) then [] else [if utf8_valid final then of_bytes final else ""])
  | [] => []
  end.

(** The ring of the last lines. *)
Definition push_ring (max : nat) (ring : list string) (line : string) : list string :=
  let ring := if (length ring =? max)%nat then drop 1 ring else ring in
  ring ++ [strip_ansi_if_needed line].

Definition tail_file_lines (max : nat) (file : option (outcome bytes)) : outcome (list string) :=
  if (max =? 0)%nat then Ok [] else
  match file with
  | None => Ok []
  | Some opened =>
      content ← with_context "open log file" opened;
      Ok (foldl (push_ring max) [] (file_lines content))
  end.

Section diagnose.
Context (w : ProcWorld) (base_dir : outcome string).
(** The bytes of a file of the kernel, and the log of a path, if it is there. *)
Context (read_bytes : string -> option bytes) (log_file : string -> option (outcome bytes)).

Definition pid_comm (pid : Z) : option string :=
  content ← pw_read w ("/proc/" +:+ show pid +:+ "/comm"); Some (str_trim content).

Definition pid_cmdline (pid : Z) : option string :=
  bytes ← read_bytes ("/proc/" +:+ show pid +:+ "/cmdline");
  let parts := map (fun p => of_bytes (from_utf8_lossy p))
                 (List.filter (fun p => negb (is_empty p)) (split_on zero bytes)) in
  if bool_decide (parts = []) then None else Some (join " " parts).

Definition describe_port_binding (info : PortBindingInfo) : DiagnosePortBinding :=
  mkDiagnosePortBinding (map (fun pid => mkDiagnosePid pid (pid_comm pid) (pid_cmdline pid))
    (pb_listening_pids info)) (pb_owned_by_unit info).

(** The name the report uses for the unit of a service. *)
Definition diagnosed_unit (run_id service : string) : string :=
  let run := sanitize_env_key run_id in
  let svc := sanitize_env_key service in
  "devstack-run-" +:+ run +:+ "-" +:+ svc +:+ ".service".

Definition diagnose_service (run_id : string) (manifest : PersistedRun) (name : string)
    (svc_status : ServiceStatus) : outcome DiagnoseService :=
  let expected_port := svc ← bget name (pr_services manifest); pv_port svc in
  let unit_name := diagnosed_unit run_id name in
  let binding_info :=
    port ← expected_port; Some (linux_port_binding_info_impl w port (Some unit_name)) in
  let port_binding := describe_port_binding <$> binding_info in
  log_path ← run_log_path base_dir run_id name;
  last_log_lines ← tail_file_lines 10 (log_file log_path);
  let issues := detect_issues svc_status expected_port binding_info in
  Ok (mkDiagnoseService name (su_state svc_status) (su_systemd svc_status) (su_health svc_status)
        expected_port port_binding last_log_lines issues).

Definition diagnose_next (run_id : string) (status : RunStatus) (manifest : PersistedRun)
    (service_filter : option string) (services : list DiagnoseService) (name : string)
    : outcome (list DiagnoseService) :=
  if match service_filter with Some filter => negb (bool_decide (filter = name)) | None => false end
  then Ok services else
  svc_status ← ok_or (bget name (ru_services status)) "missing service status";
  service ← diagnose_service run_id manifest name svc_status;
  Ok (services ++ [service]).

Definition diagnose_run (run_id : string) (status : RunStatus) (manifest : PersistedRun)
    (service_filter : option string) (now : string) : outcome DiagnoseResponse :=
  services ← ofold (diagnose_next run_id status manifest service_filter) (bkeys (ru_services status)) [];
  Ok (mkDiagnoseResponse (ru_run_id status) (ru_stack status) (ru_project_dir status) now services).
End diagnose.

(** ** What the report says *)

Lemma ring_last max lines ring :
  0 < max -> length ring <= max ->
  foldl (push_ring max) ring lines
  = drop (length ring + length lines - max) (ring ++ map strip_ansi_if_needed lines).
Proof.
  intros Hmax. revert ring. induction lines as [|line lines IH]; intros ring Hring; simpl.
  - rewrite app_nil_r, Nat.add_0_r. replace (length ring - max) with 0 by lia. done.
  - unfold push_ring at 2. destruct (Nat.eqb_spec (length ring) max) as [Hfull|Hfull].
    + rewrite IH by (rewrite length_app, length_drop; simpl; lia).
      rewrite length_app, length_drop. simpl. rewrite <- app_assoc.
      destruct ring as [|r ring]; [simpl in *; lia|]. simpl in *. subst max.
      replace (S (length ring + S (length lines)) - S (length ring)) with (S (length lines)) by lia.
      replace (length ring - 0 + 1 + length lines - S (length ring)) with (length lines) by lia.
      done.
    + rewrite IH by (rewrite length_app; simpl; lia). rewrite length_app. simpl.
      rewrite <- app_assoc. f_equal. lia.
Qed.

Lemma tail_file_lines_last max content :
  tail_file_lines max (Some (Ok content))
  = Ok (map strip_ansi_if_needed (drop (length (file_lines content) - max) (file_lines content))).
Proof.
  unfold tail_file_lines. destruct (Nat.eqb_spec max 0) as [->|Hmax].
  - rewrite Nat.sub_0_r, drop_all. done.
  - simpl. rewrite ring_last by (simpl; lia). simpl. by rewrite <- skipn_map.
Qed.

Section report.
Context (w : ProcWorld) (base_dir : outcome string).
Context (read_bytes : string -> option bytes) (log_file : string -> option (outcome bytes)).

#[local] Abbreviation diagnose_service := (diagnose_service w base_dir read_bytes log_file).
#[local] Abbreviation diagnose_run := (diagnose_run w base_dir read_bytes log_file).

(** What is said of one service. *)
Definition reported (run_id : string) (manifest : PersistedRun) (status : RunStatus) (d : DiagnoseService)
    : Prop :=
  exists svc path, bget (dg_name d) (ru_services status) = Some svc /\
    run_log_path base_dir run_id (dg_name d) = Ok path /\
    dg_daemon_state d = su_state svc /\
    (forall content, log_file path = Some (Ok content) ->
       dg_last_log_lines d
         = map strip_ansi_if_needed (drop (length (file_lines content) - 10) (file_lines content))) /\
    let binding := port ← dg_expected_port d;
      Some (linux_port_binding_info_impl w port (Some (unit_name_for_run run_id (dg_name d)))) in
    dg_issues d = detect_issues svc (dg_expected_port d) binding.

Lemma diagnose_service_reports run_id manifest status name svc d :
  bget name (ru_services status) = Some svc ->
  diagnose_service run_id manifest name svc = Ok d ->
  dg_name d = name /\ reported run_id manifest status d.
Proof.
  intros Hsvc. unfold Diagnose.diagnose_service.
  intros (path & Hpath & (lines & Hlines & [= <-])%bind_Ok)%bind_Ok. split; [done|].
  exists svc, path. split_and!; try done. intros content Hc. rewrite Hc, tail_file_lines_last in Hlines.
  by injection Hlines as <-.
Qed.

Definition wanted (filter : option string) (name : string) : bool :=
  match filter with Some filter => bool_decide (filter = name) | None => true end.

Lemma diagnose_fold run_id status manifest service_filter names acc services :
  (forall name, name ∈ names -> is_Some (bget name (ru_services status))) ->
  Forall (reported run_id manifest status) acc ->
  ofold (diagnose_next w base_dir read_bytes log_file run_id status manifest service_filter) names acc
    = Ok services ->
  map dg_name services = map dg_name acc ++ List.filter (wanted service_filter) names /\
  Forall (reported run_id manifest status) services.
Proof.
  revert acc. induction names as [|name names IH]; intros acc Hall Hacc; cbn [ofold].
  - intros [= <-]. by rewrite app_nil_r.
  - intros (acc' & Hstep & Hrest)%bind_Ok. simpl.
    assert (forall n, n ∈ names -> is_Some (bget n (ru_services status))) as Hall'
      by (intros n Hn; apply Hall; by right).
    destruct (Hall name ltac:(left)) as [svc Hsvc]. unfold diagnose_next in Hstep.
    assert (match service_filter with Some filter => negb (bool_decide (filter = name)) | None => false end
      = negb (wanted service_filter name)) as Hneg by (by destruct service_filter).
    rewrite Hneg in Hstep. destruct (wanted service_filter name) eqn:Hw; simpl in Hstep.
    + rewrite Hsvc in Hstep. simpl in Hstep. apply bind_Ok in Hstep as (d & Hd & [= <-]).
      destruct (diagnose_service_reports _ _ _ _ _ _ Hsvc Hd) as [Hn Hr].
      apply IH in Hrest as [Hm Hf]; [|done|by apply Forall_app; split; [|constructor]].
      split; [|done]. rewrite Hm, map_app. simpl. by rewrite Hn, <- app_assoc.
    + injection Hstep as <-. by apply IH.
Qed.

(** A report has each service of the run that is asked for, once and in order, with its
    state, the last ten lines of its log, and the issues that its state and the listeners
    of its port give, judged by the unit its launch starts. *)
Theorem diagnose_reports run_id status manifest service_filter now response :
  diagnose_run run_id status manifest service_filter now = Ok response ->
  map dg_name (di_services response) = List.filter (wanted service_filter) (bkeys (ru_services status)) /\
  Forall (reported run_id manifest status) (di_services response).
Proof.
  unfold Diagnose.diagnose_run. intros (services & Hs & [= <-])%bind_Ok.
  apply (diagnose_fold _ _ _ _ (bkeys (ru_services status)) []) in Hs; [done| |constructor].
  intros name. by apply bget_keys.
Qed.
End report.

(** The report looks at the port that clients use.  Behind a capture proxy it is the
    daemon that listens there, so a captured service is suspected when nothing is wrong. *)
Lemma captured_service_suspected w base_dir read_bytes log_file run_id manifest name svc saved public backend d :
  bget name (pr_services manifest) = Some saved -> pv_capture_api saved = true ->
  pv_port saved = Some public -> pv_listen_port saved = Some backend -> backend <> public ->
  let unit := unit_name_for_run run_id name in
  let binding := linux_port_binding_info_impl w public (Some unit) in
  pb_has_listener binding = true -> pb_probe_supported binding = true -> pb_listening_pids binding <> [] ->
  pb_owned_by_unit binding = Some false ->
  verify_port_binding w backend (Some unit) = Ok tt ->
  diagnose_service w base_dir read_bytes log_file run_id manifest name svc = Ok d ->
  "wrong-port-or-orphan-listener" ∈ dg_issues d.
Proof.
  intros Hs _ Hp _ _ unit binding Hl Hps Hpids Ho _. unfold diagnose_service. rewrite Hs. cbn [mbind option_bind].
  rewrite Hp. intros (path & _ & (lines & _ & [= <-])%bind_Ok)%bind_Ok. simpl. unfold detect_issues.
  rewrite !elem_of_app. do 3 right. left. unfold port_issues. change (diagnosed_unit run_id name) with unit.
  fold binding. rewrite Hps, Hl, Ho. simpl. rewrite (bool_decide_false (_ = [])) by done. simpl. left.
Qed.
