(* ===== verification/CliLogs.v ===== *)
(** * The command that shows logs

    Models [src/cli/commands/logs.rs] and what the daemon reads of its requests
    ([LogsQueryWire], [LogViewQueryWire] of [src/api.rs]): what the arguments mean, which
    request is made for them, and what is shown of the answer.

    [urlencoding] and [humantime] are third-party code; the answers of the daemon and of
    [stream_logs] ([LogPrint]) are arguments. *)

From stdpp Require Import gmap.
From S2P Require Import Prelude Bytes BMap Util Json Logfmt LogIndex LogQuery LogPrint.
From S2P Require Import Sources Lifecycle PortOwners CliContext.
From Stdlib Require Import Lia ZArith.

(** ** Requests *)

(** [urlencoding::encode], and what [form_urlencoded] makes of a name or a value. *)
Class UrlEncoding := { url_encode : string -> string; url_decode : bytes -> string }.

(** [A-Z a-z 0-9 - . _ ~] *)
Definition unreserved (c : ascii) : bool :=
  is_ascii_alphanumeric c || Ascii.eqb c "-" || Ascii.eqb c "." || Ascii.eqb c "_" || Ascii.eqb c "~".

Class UrlEncodingLaws `{UrlEncoding} : Prop := {
  url_decode_encode : forall v, url_decode (to_bytes (url_encode v)) = v;
  url_decode_plain : forall s, forallb unreserved s = true -> url_decode s = of_bytes s;
  url_encode_plain : forall v c, c ∈ to_bytes (url_encode v) -> unreserved c = true \/ c = "%"%char;
}.

Section requests.
Context `{UrlEncoding}.

Definition push_param (out : string) (param : string * string) : string :=
  let '(key, value) := param in
  if bool_decide (value = "") then out
  else (if bool_decide (out = "") then "?" else out +:+ "&") +:+ key +:+ "=" +:+ url_encode value.

Definition build_query_string (params : list (string * string)) : string := foldl push_param "" params.

Definition param (key : string) (value : option string) : list (string * string) :=
  match value with Some value => [(key, value)] | None => [] end.

Definition push_log_filter_query_params (filter : LogFilterQuery) : list (string * string) :=
  param "last" (show <$> (Z.of_nat <$> lf_last filter))
  ++ param "search" (lf_search filter)
  ++ param "level" (level ← lf_level filter; if bool_decide (level = "all") then None else Some level)
  ++ param "stream" (lf_stream filter)
  ++ param "since" (lf_since filter).

Definition build_logs_query (tail : nat) (after : option Z) (query level stream since : option string)
    : LogsQuery :=
  mkLogsQuery (mkLogFilterQuery (Some tail) since query level stream) after.

Definition build_log_view_query_string (query : LogViewQuery) : string :=
  build_query_string
    (push_log_filter_query_params (lv_filter query)
     ++ param "service" (lv_service query)
     ++ (if lv_include_entries query then [] else [("include_entries", "false")])
     ++ (if lv_include_facets query then [("include_facets", "true")] else [])
     ++ (if lv_include_total query then [] else [("include_total", "false")])).

Definition build_logs_query_string (query : LogsQuery) : string :=
  build_query_string
    (push_log_filter_query_params (lq_filter query) ++ param "after" (show <$> lq_after query)).

Definition service_logs_path (run_id service : string) (query : LogsQuery) : string :=
  "/v1/runs/" +:+ run_id +:+ "/logs/" +:+ service +:+ build_logs_query_string query.

Definition run_view_path (run_id : string) (query : LogViewQuery) : string :=
  "/v1/runs/" +:+ run_id +:+ "/logs" +:+ build_log_view_query_string query.

Definition source_view_path (source_name : string) (query : LogViewQuery) : string :=
  "/v1/sources/" +:+ source_name +:+ "/logs" +:+ build_log_view_query_string query.

(** ** What the daemon reads of them *)

(** The pairs of a query: its pieces between [&], each up to the first [=] and after it. *)
Definition query_pair (piece : bytes) : option (string * string) :=
  if is_empty piece then None else
  match find_byte (Ascii.eqb "=") piece with
  | Some i => Some (url_decode (take i piece), url_decode (drop (S i) piece))
  | None => Some (url_decode piece, "")
  end.

Definition query_pairs (query : string) : list (string * string) :=
  match to_bytes query with
  | "?"%char :: query => omap query_pair (split_on "&" query)
  | _ => []
  end.

(** A field of a struct that is read from pairs, under its name or its alias. *)
Definition field (names : list string) (pairs : list (string * string)) : outcome (option string) :=
  match List.filter (fun p => bool_decide (p.1 ∈ names)) pairs with
  | [] => Ok None
  | [(_, value)] => Ok (Some value)
  | _ => Err "duplicate field"
  end.

Definition number_field (names : list string) (pairs : list (string * string)) : outcome (option Z) :=
  value ← field names pairs;
  match value with
  | None => Ok None
  | Some value => match parse_u64 (to_bytes value) with
                  | Some n => Ok (Some n)
                  | None => Err "invalid digit found in string"
                  end
  end.

Definition read_filter (pairs : list (string * string)) : outcome LogFilterQuery :=
  last ← number_field ["last"; "tail"] pairs;
  since ← field ["since"] pairs;
  search ← field ["search"; "q"] pairs;
  level ← field ["level"] pairs;
  stream ← field ["stream"] pairs;
  Ok (mkLogFilterQuery (Z.to_nat <$> last) since search level stream).

Definition read_logs_query (query : string) : outcome LogsQuery :=
  let pairs := query_pairs query in
  filter ← read_filter pairs;
  after ← number_field ["after"] pairs;
  Ok (mkLogsQuery filter after).

Definition flag_field (name : string) (default_value : bool) (pairs : list (string * string)) : outcome bool :=
  value ← field [name] pairs;
  match value with
  | None => Ok default_value
  | Some value =>
      if bool_decide (value = "true") then Ok true
      else if bool_decide (value = "false") then Ok false
      else Err "provided string was not `true` or `false`"
  end.

Definition read_log_view_query (query : string) : outcome LogViewQuery :=
  let pairs := query_pairs query in
  filter ← read_filter pairs;
  service ← field ["service"] pairs;
  include_entries ← flag_field "include_entries" true pairs;
  include_facets ← flag_field "include_facets" false pairs;
  include_total ← flag_field "include_total" true pairs;
  Ok (mkLogViewQuery filter service include_entries include_facets include_total).
End requests.

(** ** The daemon reads what was asked *)

Definition nonempty (value : option string) : option string :=
  value ← value; if bool_decide (value = "") then None else Some value.

(** What a filter asks for: an empty text asks for nothing, as does the level [all]. *)
Definition asked_filter (f : LogFilterQuery) : LogFilterQuery :=
  mkLogFilterQuery (lf_last f) (nonempty (lf_since f)) (nonempty (lf_search f))
    (nonempty (level ← lf_level f; if bool_decide (level = "all") then None else Some level))
    (nonempty (lf_stream f)).

Section understood.
Context `{UrlEncoding} {U : UrlEncodingLaws}.

Definition kept (params : list (string * string)) : list (string * string) :=
  List.filter (fun p => negb (bool_decide (p.2 = ""))) params.

Definition piece (p : string * string) : bytes := to_bytes p.1 ++ "="%char :: to_bytes (url_encode p.2).

Definition plain_keys (params : list (string * string)) : Prop :=
  Forall (fun p => forallb unreserved (to_bytes p.1) = true) params.

Lemma push_pieces params out :
  out <> "" ->
  to_bytes (foldl push_param out params)
    = to_bytes out ++ concat (map (fun p => "&"%char :: piece p) (kept params)).
Proof.
  revert out. induction params as [|[k v] params IH]; intros out Hout; cbn -[to_bytes].
  - by rewrite app_nil_r.
  - destruct (decide (v = "")) as [->|Hv]; [by apply IH|].
    rewrite (bool_decide_eq_false_2 (v = "")), (bool_decide_eq_false_2 (out = "")) by done.
    cbn -[to_bytes]. rewrite IH by (by destruct out). unfold piece. rewrite !to_bytes_app.
    change (to_bytes "&") with ["&"%char]. change (to_bytes "=") with ["="%char].
    by repeat (rewrite <- ?app_assoc; cbn -[to_bytes]).
Qed.

Lemma query_pieces params :
  to_bytes (build_query_string params)
    = match kept params with
      | [] => []
      | p :: ps => "?"%char :: piece p ++ concat (map (fun p => "&"%char :: piece p) ps)
      end.
Proof.
  unfold build_query_string. induction params as [|[k v] params IH]; cbn -[to_bytes]; [done|].
  destruct (decide (v = "")) as [->|Hv]; [exact IH|].
  rewrite (bool_decide_eq_false_2 (v = "")) by done. cbn -[to_bytes append].
  rewrite push_pieces by done. unfold piece. rewrite !to_bytes_app.
  change (to_bytes "?") with ["?"%char]. change (to_bytes "=") with ["="%char].
  by repeat (rewrite <- ?app_assoc; cbn -[to_bytes]).
Qed.

Lemma plain_free k c : forallb unreserved (to_bytes k) = true -> unreserved c = false -> c ∉ to_bytes k.
Proof.
  intros Hk Hc Hin. apply list_elem_of_In in Hin.
  pose proof (proj1 (forallb_forall _ _) Hk _ Hin). congruence.
Qed.

Lemma piece_free p : forallb unreserved (to_bytes p.1) = true -> ("&"%char ∉ piece p).
Proof.
  intros Hk. unfold piece. rewrite elem_of_app, elem_of_cons. intros [Hin|[He|Hin]]; [|done|].
  - by eapply plain_free in Hin.
  - by apply url_encode_plain in Hin as [|].
Qed.

Lemma pair_of_piece p : forallb unreserved (to_bytes p.1) = true -> query_pair (piece p) = Some p.
Proof.
  intros Hk. destruct p as [k v]. unfold query_pair, piece. cbn [fst snd] in *.
  destruct (is_empty _) eqn:He; [by destruct (to_bytes k)|]. rewrite find_byte_app; [|..|done].
  - rewrite take_app_length, drop_app_cons, url_decode_plain, of_to_bytes, url_decode_encode; done.
  - apply forallb_forall. intros c Hc. destruct (Ascii.eqb_spec "=" c) as [<-|]; [|done].
    apply list_elem_of_In in Hc. by eapply plain_free in Hc.
Qed.

Lemma split_pieces p ps :
  plain_keys (p :: ps) ->
  split_on "&" (piece p ++ concat (map (fun p => "&"%char :: piece p) ps)) = piece p :: map piece ps.
Proof.
  revert p. induction ps as [|q ps IH]; intros p [Hp Hps]%Forall_cons; cbn [map concat].
  - rewrite app_nil_r. by apply split_on_none, piece_free.
  - cbn [app]. rewrite split_on_app, (split_on_none _ (piece p)) by (by apply piece_free).
    by rewrite IH.
Qed.

Lemma kept_plain params : plain_keys params -> plain_keys (kept params).
Proof.
  unfold plain_keys, kept. rewrite !List.Forall_forall. intros Hp p [Hin _]%List.filter_In. auto.
Qed.

(** The pairs read are those pushed with a value. *)
Lemma pairs_of_query params :
  plain_keys params -> query_pairs (build_query_string params) = kept params.
Proof.
  intros Hp%kept_plain. unfold query_pairs. rewrite query_pieces.
  destruct (kept params) as [|p ps]; [done|]. rewrite split_pieces by done. clear -Hp U.
  change (piece p :: map piece ps) with (map piece (p :: ps)).
  induction Hp as [|q qs Hq _ IH]; [done|]. cbn. by rewrite pair_of_piece, IH.
Qed.
End understood.

Lemma kept_app a b : kept (a ++ b) = kept a ++ kept b.
Proof. apply List.filter_app. Qed.

Lemma kept_param k v : kept (param k v) = param k (nonempty v).
Proof. destruct v as [v|]; [|done]. cbn. by destruct (bool_decide (v = "")). Qed.

Lemma field_other names k v rest :
  k ∉ names -> field names (param k v ++ rest) = field names rest.
Proof.
  intros Hk. destruct v as [v|]; [|done]. unfold field. cbn.
  by rewrite bool_decide_eq_false_2.
Qed.

Definition absent (names : list string) (pairs : list (string * string)) : Prop :=
  Forall (fun p => p.1 ∉ names) pairs.

Lemma field_absent names pairs : absent names pairs -> field names pairs = Ok None.
Proof.
  intros Ha. unfold field. replace (List.filter _ pairs) with (@nil (string * string)); [done|].
  induction Ha as [|p pairs Hp _ IH]; cbn; [done|]. by rewrite bool_decide_eq_false_2.
Qed.

Lemma field_here names k v rest :
  k ∈ names -> absent names rest -> field names (param k v ++ rest) = Ok v.
Proof.
  intros Hk Ha. destruct v as [v|]; [|by apply field_absent].
  pose proof (field_absent _ _ Ha) as Hn. unfold field in *. cbn.
  rewrite bool_decide_eq_true_2 by done. by destruct (List.filter _ rest) as [|[? ?] [|]].
Qed.

Lemma absent_param names k v rest : k ∉ names -> absent names rest -> absent names (param k v ++ rest).
Proof. intros Hk Ha. destruct v; [by constructor|done]. Qed.

Definition flag_params (q : LogViewQuery) : list (string * string) :=
  param "service" (nonempty (lv_service q))
  ++ param "include_entries" (if lv_include_entries q then None else Some "false")
  ++ param "include_facets" (if lv_include_facets q then Some "true" else None)
  ++ param "include_total" (if lv_include_total q then None else Some "false") ++ [].

Definition filter_params (f : LogFilterQuery) (rest : list (string * string)) : list (string * string) :=
  param "last" (show <$> (Z.of_nat <$> lf_last f))
  ++ param "search" (lf_search f) ++ param "level" (lf_level f)
  ++ param "stream" (lf_stream f) ++ param "since" (lf_since f) ++ rest.

Lemma nonempty_show (n : option Z) :
  (forall n', n = Some n' -> 0 <= n')%Z -> nonempty (show <$> n) = show <$> n.
Proof.
  intros Hn. destruct n as [n|]; [|done]. cbn. rewrite bool_decide_eq_false_2; [done|].
  intros He. apply (show_nonempty n); [by apply Hn|by rewrite He].
Qed.

Lemma kept_filter f rest :
  kept (push_log_filter_query_params f ++ rest) = filter_params (asked_filter f) (kept rest).
Proof.
  unfold push_log_filter_query_params, filter_params, asked_filter. cbn [lf_last lf_since lf_search lf_level lf_stream].
  rewrite !kept_app, !kept_param, <- !app_assoc, nonempty_show; [done|].
  intros n Hn. destruct (lf_last f); [|done]. simplify_eq/=. lia.
Qed.

(** The names a filter is read from. *)
Definition filter_names : list string := ["last"; "tail"; "since"; "search"; "q"; "level"; "stream"].

(** A field is read where it was pushed, past the others. *)
Ltac not_named := try unfold filter_names; rewrite ?elem_of_cons, ?elem_of_nil; naive_solver.
Ltac absent_fields := repeat (apply absent_param; [not_named|]).
Ltac find_field :=
  match goal with |- field _ ?pairs = _ => try unfold pairs, filter_params, flag_params end;
  repeat (rewrite field_other by not_named); apply field_here; [set_solver|absent_fields].

Lemma absent_incl names names' pairs :
  names ⊆ names' -> absent names' pairs -> absent names pairs.
Proof. intros Hi Ha. eapply Forall_impl; [exact Ha|]. cbn. intros p Hp Hn. by apply Hp, Hi. Qed.

Lemma number_of names pairs (n : option Z) :
  field names pairs = Ok (show <$> n) -> (forall n', n = Some n' -> in_range 0 u64_max n') ->
  number_field names pairs = Ok n.
Proof.
  intros Hf Hn. unfold number_field. rewrite Hf. destruct n as [n|]; [|done]. cbn.
  unfold parse_u64. by rewrite parse_show by (by apply Hn).
Qed.

(** A [usize] of the machine. *)
Definition fits (f : LogFilterQuery) : Prop :=
  forall n, lf_last f = Some n -> (Z.of_nat n <= u64_max)%Z.

Lemma read_filter_params f rest :
  fits f -> absent filter_names rest -> read_filter (filter_params f rest) = Ok f.
Proof.
  intros Hfit Hrest. unfold read_filter, filter_params.
  assert (forall names, names ⊆ filter_names -> absent names rest) as Ha
    by (intros names Hi; by eapply absent_incl).
  set (pairs := param "last" _ ++ _).
  assert (number_field ["last"; "tail"] pairs = Ok (Z.of_nat <$> lf_last f)) as ->.
  { apply number_of; [find_field; apply Ha; unfold filter_names; set_solver|].
    intros n Hn. destruct (lf_last f) as [k|] eqn:E; [|done]. simplify_eq/=. apply Hfit in E.
    split; lia. }
  assert (field ["since"] pairs = Ok (lf_since f)) as ->
    by (find_field; apply Ha; unfold filter_names; set_solver).
  assert (field ["search"; "q"] pairs = Ok (lf_search f)) as ->
    by (find_field; apply Ha; unfold filter_names; set_solver).
  assert (field ["level"] pairs = Ok (lf_level f)) as ->
    by (find_field; apply Ha; unfold filter_names; set_solver).
  assert (field ["stream"] pairs = Ok (lf_stream f)) as ->
    by (find_field; apply Ha; unfold filter_names; set_solver).
  cbn. destruct f as [[n|] ? ? ? ?]; cbn; by rewrite ?Nat2Z.id.
Qed.

Definition asked (q : LogsQuery) : LogsQuery := mkLogsQuery (asked_filter (lq_filter q)) (lq_after q).

Definition asked_view (q : LogViewQuery) : LogViewQuery :=
  mkLogViewQuery (asked_filter (lv_filter q)) (nonempty (lv_service q))
    (lv_include_entries q) (lv_include_facets q) (lv_include_total q).

Lemma flag_of name default_value pairs b :
  field [name] pairs = Ok (if eqb b default_value then None else Some (if b then "true" else "false")) ->
  flag_field name default_value pairs = Ok b.
Proof. intros Hf. unfold flag_field. rewrite Hf. by destruct b, default_value. Qed.

Lemma plain_param k v params :
  forallb unreserved (to_bytes k) = true -> plain_keys params -> plain_keys (param k v ++ params).
Proof. intros Hk Hp. destruct v; [by constructor|done]. Qed.

Lemma plain_filter f params : plain_keys params -> plain_keys (push_log_filter_query_params f ++ params).
Proof.
  intros Hp. unfold push_log_filter_query_params. rewrite <- !app_assoc.
  by repeat (apply plain_param; [done|]).
Qed.

Ltac find_flag b :=
  match goal with |- field _ ?pairs = _ => unfold pairs, filter_params, flag_params end;
  repeat (rewrite field_other by not_named); rewrite field_here;
  [by destruct b|set_solver|absent_fields; by constructor].

Lemma logs_query_read `{UrlEncoding} {U : UrlEncodingLaws} (q : LogsQuery) :
  fits (lq_filter q) -> (forall after, lq_after q = Some after -> in_range 0 u64_max after) ->
  read_logs_query (build_logs_query_string q) = Ok (asked q).
Proof.
  intros Hq Hafter. unfold read_logs_query, build_logs_query_string.
  rewrite pairs_of_query, kept_filter, kept_param
    by (apply plain_filter; rewrite <- (app_nil_r (param _ _)); by apply plain_param, List.Forall_nil).
  rewrite <- (app_nil_r (param "after" _)), read_filter_params;
    [|done|absent_fields; by constructor].
  cbn [mbind outcome_bind]. rewrite (number_of _ _ (lq_after q)); [done| |done].
  unfold filter_params. rewrite nonempty_show by (intros n Hn; by apply Hafter in Hn as [? ?]).
  find_field. by constructor.
Qed.

Lemma view_query_read `{UrlEncoding} {U : UrlEncodingLaws} (v : LogViewQuery) :
  fits (lv_filter v) ->
  read_log_view_query (build_log_view_query_string v) = Ok (asked_view v).
Proof.
  intros Hv. unfold read_log_view_query, build_log_view_query_string.
  rewrite pairs_of_query, kept_filter.
  2:{ apply plain_filter, plain_param; [done|].
      destruct (lv_include_entries v), (lv_include_facets v), (lv_include_total v); by repeat constructor. }
  replace (kept (param "service" _ ++ _)) with (flag_params v).
  2:{ unfold flag_params. rewrite !kept_app, kept_param.
      by destruct (lv_include_entries v), (lv_include_facets v), (lv_include_total v). }
  set (pairs := filter_params _ _).
  assert (read_filter pairs = Ok (asked_filter (lv_filter v))) as ->
    by (apply read_filter_params; [done|unfold flag_params; absent_fields; by constructor]).
  assert (field ["service"] pairs = Ok (nonempty (lv_service v))) as ->
    by (find_field; by constructor).
  assert (flag_field "include_entries" true pairs = Ok (lv_include_entries v)) as ->
    by (apply flag_of; find_flag (lv_include_entries v)).
  assert (flag_field "include_facets" false pairs = Ok (lv_include_facets v)) as ->
    by (apply flag_of; find_flag (lv_include_facets v)).
  assert (flag_field "include_total" true pairs = Ok (lv_include_total v)) as ->
    by (apply flag_of; find_flag (lv_include_total v)).
  done.
Qed.

(** C32: The daemon understands every request for logs the command makes, whatever the texts
    in it: from the query string of a request ([build_logs_query_string],
    [build_log_view_query_string]) the handlers read the query that was meant
    ([LogsQueryWire], [LogViewQueryWire]) - the same count, cursor, texts, service and flags,
    where an empty text or the level [all] asks for nothing; a text with [&], [=] or [%] in
    it is not taken for another parameter. *)
Theorem log_requests_understood `{UrlEncoding} (U : UrlEncodingLaws) (q : LogsQuery) (v : LogViewQuery) :
  fits (lq_filter q) -> (forall after, lq_after q = Some after -> in_range 0 u64_max after) ->
  fits (lv_filter v) ->
  read_logs_query (build_logs_query_string q) = Ok (asked q) /\
  read_log_view_query (build_log_view_query_string v) = Ok (asked_view v).
Proof. intros. split; [by apply logs_query_read|by apply view_query_read]. Qed.

(** ** A concrete encoding *)

Definition percent (c : ascii) : bytes :=
  let n := Z.of_nat (nat_of_ascii c) in
  if unreserved c then [c] else ["%"%char; hex_digit (n / 16); hex_digit (n mod 16)].

Fixpoint unpercent (s : bytes) : bytes :=
  match s with
  | [] => []
  | c :: s =>
      match s with
      | h :: l :: s' =>
          if Ascii.eqb c "%" then
            match digit16 h, digit16 l with
            | Some h, Some l => ascii_of_nat (Z.to_nat (16 * h + l)) :: unpercent s'
            | _, _ => c :: unpercent s
            end
          else (if Ascii.eqb c "+" then " "%char else c) :: unpercent s
      | _ => (if Ascii.eqb c "+" then " "%char else c) :: unpercent s
      end
  end.

#[export] Instance percent_encoding : UrlEncoding :=
  {| url_encode v := of_bytes (concat (map percent (to_bytes v)));
     url_decode s := of_bytes (unpercent s) |}.

Lemma unpercent_plain c s : unreserved c = true -> unpercent (c :: s) = c :: unpercent s.
Proof. destruct c as [[] [] [] [] [] [] [] []]; try done; by destruct s as [|? [|? ?]]. Qed.

Lemma unpercent_percent c s : unpercent (percent c ++ s) = c :: unpercent s.
Proof.
  destruct (unreserved c) eqn:Hc.
  - unfold percent. rewrite Hc. by apply unpercent_plain.
  - by destruct c as [[] [] [] [] [] [] [] []].
Qed.

Lemma percent_bytes c x : x ∈ percent c -> unreserved x = true \/ x = "%"%char.
Proof.
  unfold percent. destruct (unreserved c) eqn:Hc; [intros ->%list_elem_of_singleton; by left|].
  rewrite !elem_of_cons. intros [->|[->|[->|[]%elem_of_nil]]]; [by right| |]; left; clear Hc;
    by destruct c as [[] [] [] [] [] [] [] []].
Qed.

#[export] Instance percent_encoding_laws : UrlEncodingLaws.
Proof.
  split.
  - intros v. change (of_bytes (unpercent (to_bytes (of_bytes (concat (map percent (to_bytes v)))))) = v).
    rewrite to_of_bytes. rewrite <- (of_to_bytes v) at 2. f_equal.
    induction (to_bytes v) as [|c s IH]; [done|]. cbn [map concat]. by rewrite unpercent_percent, IH.
  - intros s Hs. change (of_bytes (unpercent s) = of_bytes s). f_equal.
    induction s as [|c s IH]; [done|]. cbn [forallb] in Hs.
    apply andb_prop in Hs as [Hc Hs]. by rewrite unpercent_plain, IH.
  - intros v c. change (c ∈ to_bytes (of_bytes (concat (map percent (to_bytes v)))) ->
      unreserved c = true \/ c = "%"%char). rewrite to_of_bytes, list_elem_of_In, List.in_concat.
    intros (x & (a & <- & _)%List.in_map_iff & Hc). apply list_elem_of_In in Hc.
    by apply percent_bytes in Hc.
Qed.

Definition example_logs_query : LogsQuery :=
  build_logs_query 500 (Some 41%Z) (Some "a&level=error") (Some "all") None (Some "").

Definition example_view_query : LogViewQuery :=
  mkLogViewQuery (mkLogFilterQuery None None (Some "100%") (Some "warn") None) (Some "web") false true true.

Lemma log_requests_understood_witness :
  build_logs_query_string example_logs_query = "?last=500&search=a%26level%3Derror&after=41" /\
  read_logs_query (build_logs_query_string example_logs_query)
    = Ok (mkLogsQuery (mkLogFilterQuery (Some 500) None (Some "a&level=error") None None) (Some 41%Z)) /\
  read_log_view_query (build_log_view_query_string example_view_query) = Ok example_view_query.
Proof.
  split; [vm_compute; reflexivity|].
  apply (log_requests_understood percent_encoding_laws example_logs_query example_view_query).
  - intros n [= <-]. vm_compute. done.
  - intros after [= <-]. by split.
  - done.
Defined.
