(* ===== verification/LogCommand.v ===== *)
(** * What the log command shows

    Models the command of [src/cli/commands/logs.rs] around its requests ([CliLogs]): the
    meaning of its target and its times, the choice of the source, the task, the run or the
    service to ask about, what is shown of the answers, the polling of a service, the
    fallback to the file of its log, and the index of a source without a daemon.

    The answers of the daemon are arguments, each poll having its own; [humantime] and
    [time] are third-party code. *)

From stdpp Require Import gmap.
From S2P Require Import Prelude Bytes BMap Util Json Logfmt LogIndex LogIngest LogQuery LogPrint LogFollow.
From S2P Require Import Sources SourceIngest Lifecycle PortOwners Manifest CliContext CliLogs Bootstrap.
From Stdlib Require Import Lia ZArith.

Section command.
Context `{J : Json} `{SearchIndex} `{StateCodec} `{Searcher} `{UrlEncoding}.
Context (unicode_digit : bytes -> bool) (parse_rfc3339 : string -> option Z).

Abbreviation Index := (LogIndex (Response := LogViewResponse)).
Abbreviation IndexM := (LogM (Response := LogViewResponse)).

(** ** Arguments *)

(** The arguments of [logs]; the times are in milliseconds. *)
Record LogsArgs := mkLogsArgs {
  la_run_id : option string;
  la_source : option string;
  la_facets : bool;
  la_all : bool;
  la_target : option string;
  la_service : option string;
  la_task : option string;
  la_tail : option nat;
  la_q : option string;
  la_level : option string;
  la_errors : bool;
  la_stream : option string;
  la_since : option string;
  la_no_health : bool;
  la_follow : bool;
  la_follow_for : option Z;
}.

(** [humantime::parse_duration], and the time that long ago as a text: the subtraction
    panics when it leaves the range of times. *)
Context (parse_duration : string -> option Z) (timestamp_ago : Z -> outcome string).

Definition normalize_since_arg (since : option string) : outcome (option string) :=
  match since with
  | None => Ok None
  | Some since =>
      let since := str_trim since in
      if bool_decide (since = "") then Ok None else
      match parse_rfc3339 since with
      | Some _ => Ok (Some since)
      | None =>
          match parse_duration since with
          | Some duration => timestamp ← timestamp_ago duration; Ok (Some timestamp)
          | None => Err ("invalid --since value " +:+ since
              +:+ "; use RFC3339 (e.g. 2025-01-01T00:00:00Z) or a duration (e.g. 5m, 1h)")
          end
      end
  end.

(** ** The world of the command *)

(** The file of a log: whether it is there, its text, whether it can be followed, and its
    lengths and bytes while it is. *)
Record LogFile := mkLogFile {
  fl_exists : bool;
  fl_read : outcome string;
  fl_opened : outcome unit;
  fl_turns : list (Z * FileLook);
}.

(** The daemon's answers by the path of the request; [wd_runs] is the list of the runs
    with the disk behind it, and [wd_polls] the times since the start and the answers of
    the polls of a service. *)
Record World := mkWorld {
  wd_interactive : bool;
  wd_project_dir : outcome string;
  wd_find_run : string -> option string -> outcome string;
  wd_latest_run : string -> outcome (option string);
  wd_active_run : string -> outcome (option string);
  wd_status : string -> outcome RunStatus;
  wd_logs : string -> outcome LogsResponse;
  wd_views : string -> outcome LogViewResponse;
  wd_polls : list (Z * (string -> outcome LogsResponse));
  wd_daemon_is_running : bool;
  wd_ledger : outcome SourcesLedger;
  wd_index : outcome Index;
  wd_file : string -> LogFile;
}.

(** The paths and the environment. *)
Context (base_dir : outcome string) (blake3_hex : string -> string) (home : option string).
Context (env : SourceEnv) (log_env : LogEnv) (now max_age : Z).

Definition resolve_log_target (w : World) (project_dir : string)
    (target source_flag service_flag run_id : option string)
    : option string * option string :=
  match source_flag, service_flag, target with
  | None, None, None => (None, None)
  | None, None, Some target =>
      let run_id :=
        match run_id with
        | Some rid => Some rid
        | None => rid ← ok (wd_latest_run w project_dir); rid
        end in
      let of_run :=
        match run_id with
        | Some rid => match wd_status w ("/v1/runs/" +:+ rid +:+ "/status") with
                      | Ok status => bcontains target (ru_services status)
                      | _ => false
                      end
        | None => false
        end in
      if of_run then (None, Some target) else
      match wd_ledger w with
      | Ok ledger => if bcontains target ledger then (Some target, None) else (None, Some target)
      | _ => (None, Some target)
      end
  | _, _, _ => (source_flag, service_flag)
  end.

Definition service_log_output_format (w : World) : LogOutputFormat :=
  if wd_interactive w then Text else JsonFormat.

Definition aggregate_log_output_format : LogOutputFormat := JsonFormat.

(** ** What is shown *)

Inductive Shown :=
  | Line (text : string)
  | Facets (label : string) (response : LogViewResponse)
  | Response (response : LogViewResponse).

(** How the command ended, and what it printed. *)
Definition Ran : Type := outcome unit * list Shown.

(** [?] *)
Definition need {A} (o : outcome A) (next : A -> Ran) : Ran :=
  match o with
  | Ok a => next a
  | Err e => (Err e, [])
  | Panic => (Panic, [])
  | OutOfFuel => (OutOfFuel, [])
  end.

Definition showing (shown : list Shown) (r : Ran) : Ran := (r.1, shown ++ r.2).

Definition print_entries (entries : list LogEntry) (no_health : bool) : list Shown :=
  Line <$> omap (fun entry => render_log_entry unicode_digit entry aggregate_log_output_format no_health)
             entries.

Definition print_lines (w : World) (service : string) (no_health : bool) (lines : list string)
    : list Shown :=
  Line <$> print_all unicode_digit service (service_log_output_format w) no_health lines.

Definition stream_file (w : World) (path service : string) (args : LogsArgs) (follow_for : option Z)
    : Ran :=
  let file := wd_file w path in
  let '(o, printed) := stream_logs unicode_digit service (service_log_output_format w)
    (la_no_health args) (fl_exists file) path (fl_read file) (la_tail args) (la_follow args)
    follow_for (fl_opened file) (fl_turns file) in
  (o, Line <$> printed).

(** ** The index of a source *)

Definition source_log_sources (ledger : SourcesLedger) (source_name : string) : outcome (list LogSource) :=
  resolved ← ledger_resolve_log_sources home env source_name ledger;
  Ok (map (fun item => mkSource (source_run_id source_name) (rv_service item) (rv_path item)) resolved).

(** The time before which lines of a source are too old, from the seconds kept for it. *)
Definition source_cutoff (ledger : SourcesLedger) (source_name : string) : Z :=
  let retention := match bget source_name ledger with
                   | Some entry => source_retention_seconds entry max_age
                   | None => max_age
                   end in
  retention_cutoff_nanos now (retention * 10 ^ 9).

Definition query_source_log_view_local (ledger : SourcesLedger) (source_name : string)
    (query : LogViewQuery) : IndexM LogViewResponse :=
  sources ← st_lift (source_log_sources ledger source_name);
  match sources with
  | [] => mret (mkLogViewResponse [] false 0 true [])
  | _ =>
      _ ← ingest_sources_after unicode_digit parse_rfc3339 log_env sources
            (Some (source_cutoff ledger source_name));
      query_view parse_rfc3339 (source_run_id source_name) query
  end.

(** What the source answers, and the index after it. *)
Definition query_source_log_view (w : World) (source_name : string) (query : LogViewQuery)
    : outcome LogViewResponse * outcome Index :=
  if wd_daemon_is_running w then (wd_views w (source_view_path source_name query), wd_index w) else
  match (ledger ← wd_ledger w; index ← wd_index w; Ok (ledger, index)) with
  | Ok (ledger, st) =>
      let '(o, st) := query_source_log_view_local ledger source_name query st in (o, Ok st)
  | Err e => (Err e, wd_index w)
  | Panic => (Panic, wd_index w)
  | OutOfFuel => (OutOfFuel, wd_index w)
  end.

Definition refresh_source_index (ledger : outcome SourcesLedger) (source_name : string) : IndexM unit :=
  _ ← delete_run log_env (source_run_id source_name);
  ledger ← st_lift ledger;
  if negb (bcontains source_name ledger) then mret tt else
  sources ← st_lift (source_log_sources ledger source_name);
  match sources with
  | [] => mret tt
  | _ => ingest_sources_after unicode_digit parse_rfc3339 log_env sources
           (Some (source_cutoff ledger source_name))
  end.

Definition absolutize_source_patterns (cwd : outcome string) (paths : list string)
    : outcome (list string) :=
  cwd ← cwd;
  Ok (map (fun pattern =>
        let expanded := expand_home home pattern in
        to_string_lossy (if is_absolute expanded then expanded else path_join cwd expanded)) paths).

(** ** The log of a task *)

Definition push_unique (paths : list string) (path : string) : list string :=
  if existsb (fun candidate => path_eq candidate path) paths then paths else paths ++ [path].

Definition push_task_log (run_id : option string) (task_name : string) (candidates : list string)
    : outcome (list string) :=
  match run_id with
  | Some run_id => path ← task_log_path base_dir run_id task_name; Ok (push_unique candidates path)
  | None => Ok candidates
  end.

Definition task_log_path_candidates_for (project_dir task_name : string)
    (explicit_run_id active_run_id latest_run_id : option string) : outcome (list string) :=
  match explicit_run_id with
  | Some run_id => push_task_log (Some run_id) task_name []
  | None =>
      candidates ← push_task_log active_run_id task_name [];
      candidates ← push_task_log latest_run_id task_name candidates;
      path ← ad_hoc_task_log_path base_dir blake3_hex project_dir task_name;
      Ok (push_unique candidates path)
  end.

Definition task_log_path_candidates (w : World) (project_dir task_name : string)
    (explicit_run_id : option string) : outcome (list string) :=
  match explicit_run_id with
  | Some _ => task_log_path_candidates_for project_dir task_name explicit_run_id None None
  | None =>
      active_run_id ← wd_active_run w project_dir;
      latest_run_id ← wd_latest_run w project_dir;
      task_log_path_candidates_for project_dir task_name None active_run_id latest_run_id
  end.

(** ** The log of a service *)

(** The loop of the polls; without a limit it ends when the command is interrupted. *)
Fixpoint poll_logs (w : World) (run_id service : string) (request : nat -> option Z -> LogsQuery)
    (no_health : bool) (follow_for : option Z) (after : option Z)
    (polls : list (Z * (string -> outcome LogsResponse))) : Ran :=
  match polls with
  | [] => (OutOfFuel, [])
  | (elapsed, answer) :: polls =>
      if match follow_for with Some limit => (limit <=? elapsed)%Z | None => false end
      then (Ok tt, [])
      else need (answer (service_logs_path run_id service (request FOLLOW_LIMIT after))) (fun response =>
        showing (print_lines w service no_health (lg_lines response))
          (poll_logs w run_id service request no_health follow_for (next_cursor after response) polls))
  end.

Definition stream_service_logs_api (w : World) (run_id service : string)
    (request : nat -> option Z -> LogsQuery) (initial_tail : nat) (follow_for : option Z)
    (no_health : bool) : Ran :=
  need (wd_logs w (service_logs_path run_id service (request initial_tail None))) (fun response =>
    showing (print_lines w service no_health (lg_lines response))
      (poll_logs w run_id service request no_health follow_for (lg_next_after response) (wd_polls w))).

Definition request_of (args : LogsArgs) (level since : option string) (tail : nat) (after : option Z)
    : LogsQuery :=
  build_logs_query tail after (la_q args) level (la_stream args) since.

(** [is_some] *)
Definition given {A} (o : option A) : bool := match o with Some _ => true | None => false end.

(** The part of [run] for one service. *)
Definition show_service (w : World) (args : LogsArgs) (run_id service : string)
    (level since : option string) (follow_for : option Z) : Ran :=
  let request := request_of args level since in
  let api_only := given (la_q args) || given level || given (la_stream args) || given since in
  if la_follow args then
    let '(api_result, shown) := stream_service_logs_api w run_id service request
      (default 200%nat (la_tail args)) follow_for (la_no_health args) in
    match api_result with
    | Err e =>
        if api_only then (Err e, shown) else
        showing shown (need (run_log_path base_dir run_id service) (fun log_path =>
          stream_file w log_path service args follow_for))
    | o => (o, shown)
    end
  else
    let tail := default 500%nat (la_tail args) in
    need (wd_logs w (service_logs_path run_id service (request tail None))) (fun response =>
      (Ok tt, print_lines w service (la_no_health args) (lg_lines response))).

(** The part of [run] for a task. *)
Definition show_task (w : World) (args : LogsArgs) (project_dir task_name : string)
    (service level since : option string) (follow_for : option Z) : Ran :=
  if la_all args || given service || given (la_q args) || given level || given (la_stream args)
     || given since
  then (Err "--task cannot be combined with --all, --service, --search, --level, --stream, or --since", [])
  else need (task_log_path_candidates w project_dir task_name (la_run_id args)) (fun candidates =>
    match List.find (fun path => fl_exists (wd_file w path)) candidates with
    | Some log_path => stream_file w log_path task_name args follow_for
    | None => (Err ("task log not found for '" +:+ task_name +:+ "' (looked at "
                    +:+ join ", " candidates +:+ ")"), [])
    end).

Definition logs_run (w : World) (args : LogsArgs) : Ran :=
  need (wd_project_dir w) (fun project_dir =>
  let '(source, service) := resolve_log_target w project_dir (la_target args) (la_source args)
    (la_service args) (la_run_id args) in
  let follow_for := resolve_follow_for (la_follow args) (la_follow_for args) (wd_interactive w) in
  need (normalize_since_arg (la_since args)) (fun since =>
  let level := if la_errors args then Some "error" else la_level args in
  let view_query tail include_entries include_facets :=
    mkLogViewQuery (mkLogFilterQuery tail since (la_q args) level (la_stream args))
      service include_entries include_facets true in
  match source with
  | Some source_name =>
      if la_follow args then (Err "--follow is not supported with --source", []) else
      let tail := match la_tail args with Some tail => tail | None => 500%nat end in
      need (query_source_log_view w source_name
              (view_query (Some tail) (negb (la_facets args)) (la_facets args))).1 (fun response =>
        (Ok tt,
         if la_facets args
         then [if wd_interactive w then Facets ("Source: " +:+ source_name) response else Response response]
         else print_entries (vr_entries response) (la_no_health args)))
  | None =>
  if la_facets args then
    need (wd_find_run w project_dir (la_run_id args)) (fun run_id =>
    need (wd_views w (run_view_path run_id (view_query None false true))) (fun response =>
      (Ok tt, [if wd_interactive w then Facets ("Run: " +:+ run_id) response else Response response])))
  else
  match la_task args with
  | Some task_name => show_task w args project_dir task_name service level since follow_for
  | None =>
    need (wd_find_run w project_dir (la_run_id args)) (fun run_id =>
    if la_all args then
      if la_follow args
      then (Err "--follow requires --service (cannot be used with --all)", [])
      else
        let tail := default 500%nat (la_tail args) in
        need (wd_views w (run_view_path run_id (view_query (Some tail) true false))) (fun response =>
          (Ok tt, print_entries (vr_entries response) (la_no_health args)))
    else
      match service with
      | None => (Err "--service is required unless --all or --task is set", [])
      | Some service => show_service w args run_id service level since follow_for
      end)
  end
  end)).
End command.

(** ** The command and the daemon together *)

Section together.
Context `{J : Json} `{SearchIndex} `{StateCodec} `{Searcher} `{UrlEncoding}.
Context {SL : SearcherLaws} {UL : UrlEncodingLaws}.
Context (unicode_digit : bytes -> bool) (parse_rfc3339 : string -> option Z).
Context (Hblank : parse_rfc3339 "" = None).

Abbreviation Index := (LogIndex (Response := LogViewResponse)).

(** What the daemon answers to a request for the lines of a service, on the index as it is
    at the time. *)
Definition daemon_logs (run_id service : string) (st : Index) (path : string) : outcome LogsResponse :=
  match strip_prefix (to_bytes ("/v1/runs/" +:+ run_id +:+ "/logs/" +:+ service)) (to_bytes path) with
  | Some query =>
      query ← read_logs_query (of_bytes query); search_lines parse_rfc3339 run_id service query st
  | None => Err "not found"
  end.

Lemma nonempty_cases v : nonempty v = v \/ v = Some "" /\ nonempty v = None.
Proof.
  destruct v as [v|]; [|by left]. cbn. destruct (decide (v = "")) as [->|Hv]; [by right|left].
  by rewrite bool_decide_eq_false_2.
Qed.

(** An empty text and the level [all] filter nothing. *)
Lemma search_asked run_id service q (st : Index) :
  search_lines parse_rfc3339 run_id service (asked q) st
  = search_lines parse_rfc3339 run_id service q st.
Proof.
  destruct q as [[last since search level stream] after]. unfold search_lines, asked, asked_filter.
  cbn [lq_filter lq_after lf_last lf_since lf_search lf_level lf_stream].
  assert ((since ← nonempty since; parse_timestamp_nanos parse_rfc3339 since)
          = (since ← since; parse_timestamp_nanos parse_rfc3339 since)) as ->.
  { destruct (nonempty_cases since) as [->|[-> ->]]; [done|]. cbn. unfold parse_timestamp_nanos.
    by rewrite Hblank. }
  assert (forall base, add_text_query base (nonempty search) = add_text_query base search) as Htext.
  { intros base. by destruct (nonempty_cases search) as [->|[-> ->]]. }
  rewrite Htext. clear Htext.
  assert (forall base, add_level_filter base
            (default "all" (nonempty (level ← level; if bool_decide (level = "all") then None else Some level)))
          = add_level_filter base (default "all" level)) as Hlevel.
  { intros base. destruct level as [level|]; [|done]. cbn [mbind option_bind].
    destruct (decide (level = "all")) as [->|Hl]; [done|].
    rewrite (bool_decide_eq_false_2 (level = "all")) by done.
    by destruct (nonempty_cases (Some level)) as [->|[[= ->] ->]]. }
  rewrite Hlevel. clear Hlevel. by destruct (nonempty_cases stream) as [->|[-> ->]].
Qed.

Lemma daemon_answers run_id service q (st : Index) :
  fits (lq_filter q) -> (forall after, lq_after q = Some after -> in_range 0 u64_max after) ->
  daemon_logs run_id service st (service_logs_path run_id service q)
    = search_lines parse_rfc3339 run_id service q st.
Proof.
  intros Hq Hafter. unfold daemon_logs, service_logs_path.
  assert (strip_prefix (to_bytes ("/v1/runs/" +:+ run_id +:+ "/logs/" +:+ service))
    (to_bytes ("/v1/runs/" +:+ run_id +:+ "/logs/" +:+ service +:+ build_logs_query_string q))
    = Some (to_bytes (build_logs_query_string q))) as ->.
  { apply strip_prefix_Some. rewrite <- to_bytes_app. by rewrite <- !str_app_assoc. }
  rewrite of_to_bytes, logs_query_read by done. apply search_asked.
Qed.

(** The cursor of an answer is the number of a document. *)
Lemma search_cursor run_id service q (st : Index) r n :
  search_lines parse_rfc3339 run_id service q st = Ok r -> lg_next_after r = Some n ->
  n ∈ map pd_seq (searched st).
Proof.
  unfold search_lines. set (found := add_text_query _ _). destruct found as [p|e| |]; try done.
  cbn [mbind outcome_bind]. intros [= <-]. cbn [lg_next_after].
  assert (forall f up tail, top_docs f up tail (select p st) ⊆ searched st) as Htop.
  { intros f up tail d. destruct (top_docs_law f up tail (select p st)) as (l & Hl & _ & ->).
    intros Hd. assert (d ∈ select p st) as Hin.
    { rewrite <- Hl. rewrite <- (take_drop tail l). apply elem_of_app. by left. }
    by apply filter_elem in Hin as [Hin _]. }
  set (docs := if (_ =? 0)%nat then [] else _).
  assert (docs ⊆ searched st) as Hdocs.
  { unfold docs. destruct (_ =? 0)%nat; [by intros d ?%elem_of_nil|]. destruct (lq_after q); apply Htop. }
  clearbody docs. destruct docs as [|d docs]; [done|]. intros Hn.
  destruct (next_of_spec docs (pd_seq d)) as (c & Hc & _ & Hin & _).
  assert (c = n) as <- by (change (foldl next_of (Some (pd_seq d)) docs = Some n) in Hn; congruence).
  apply list_elem_of_fmap. destruct Hin as [->|Hin].
  - exists d. split; [done|]. apply Hdocs. left.
  - apply list_elem_of_fmap in Hin as (x & -> & Hx). exists x. split; [done|]. apply Hdocs. by right.
Qed.

(** The numbers of the documents fit their field. *)
Definition ranged (st : Index) : Prop := forall d, d ∈ searched st -> in_range 0 u64_max (pd_seq d).

Lemma cursor_ranged run_id service q (st : Index) r n :
  ranged st -> search_lines parse_rfc3339 run_id service q st = Ok r -> lg_next_after r = Some n ->
  in_range 0 u64_max n.
Proof.
  intros Hr Hs Hn. pose proof (search_cursor _ _ _ _ _ _ Hs Hn) as Hin.
  apply list_elem_of_fmap in Hin as (d & -> & Hd). by apply Hr.
Qed.

Context (w : World) (args : LogsArgs) (level since : option string) (run_id service : string).

(** What the arguments keep. *)
Definition args_filter : LogFilterQuery :=
  mkLogFilterQuery None since (la_q args) level (la_stream args).

(** The polls before the limit, each on the index of its time. *)
Definition polled (limit : Z) (poll : Z * (string -> outcome LogsResponse)) (st : Index) : Prop :=
  (poll.1 < limit)%Z /\ (forall path, poll.2 path = daemon_logs run_id service st path) /\ ranged st.

Lemma showing_app a b r : showing a (showing b r) = showing (a ++ b) r.
Proof. unfold showing. cbn. by rewrite app_assoc. Qed.

Lemma print_lines_app no_health a b :
  print_lines unicode_digit w service no_health (a ++ b)
  = print_lines unicode_digit w service no_health a ++ print_lines unicode_digit w service no_health b.
Proof. unfold print_lines, print_all. by rewrite omap_app, fmap_app. Qed.

Lemma limit_fits : fits (with_last args_filter FOLLOW_LIMIT).
Proof. intros n [= <-]. by vm_compute. Qed.

Lemma polls_follow limit no_health polls indexes last rest after lines final :
  Forall2 (polled limit) polls indexes -> (limit <= last.1)%Z ->
  (forall n, after = Some n -> in_range 0 u64_max n) ->
  follow_loop parse_rfc3339 run_id service args_filter after indexes = Ok (lines, final) ->
  poll_logs unicode_digit w run_id service (request_of args level since) no_health (Some limit) after
    (polls ++ last :: rest)
  = (Ok tt, print_lines unicode_digit w service no_health lines).
Proof.
  intros Hp Hlast. revert after lines final.
  induction Hp as [|[elapsed answer] st polls indexes (Hlt & Hans & Hr) _ IH]; intros after lines final Ha Hf.
  - destruct last as [elapsed answer]. cbn in *. injection Hf as <- <-.
    by rewrite (proj2 (Z.leb_le _ _) Hlast).
  - cbn in Hlt, Hans. cbn [app poll_logs]. rewrite (proj2 (Z.leb_gt _ _) Hlt), Hans, daemon_answers; [|exact limit_fits|exact Ha].
    change (request_of args level since FOLLOW_LIMIT after)
      with (mkLogsQuery (with_last args_filter FOLLOW_LIMIT) after).
    cbn [follow_loop] in Hf. destruct (search_lines _ _ _ _ st) as [r|e| |] eqn:Hs; try done.
    cbn [mbind outcome_bind need] in *.
    destruct (follow_loop _ _ _ _ (next_cursor after r) indexes) as [[more final']|e| |] eqn:Hloop; try done.
    injection Hf as <- <-. rewrite (IH _ more final'); [| |exact Hloop].
    + unfold showing. cbn. by rewrite print_lines_app.
    + intros n Hn. unfold next_cursor in Hn. destruct (lg_next_after r) as [next|] eqn:En; [|by apply Ha].
      pose proof (cursor_ranged _ _ _ _ _ _ Hr Hs En) as [? ?]. injection Hn as <-.
      destruct after as [current|]; [|by split]. destruct (Ha current eq_refl) as [? ?]. split; lia.
Qed.

(** ** What a filter lets through *)

(** An answer to the command: of the first request or of a poll. *)
Definition answered (path : string) (response : LogsResponse) : Prop :=
  wd_logs w path = Ok response \/ exists poll, poll ∈ wd_polls w /\ poll.2 path = Ok response.

(** A line that an answer holds, to a request from which the daemon reads this filter. *)
Definition let_through (line : string) : Prop :=
  exists query response asked_query,
    answered ("/v1/runs/" +:+ run_id +:+ "/logs/" +:+ service +:+ query) response /\
    line ∈ lg_lines response /\ read_logs_query query = Ok asked_query /\
    with_last (lq_filter asked_query) 0 = with_last (asked_filter args_filter) 0.

Lemma printed_line no_health lines text :
  Line text ∈ print_lines unicode_digit w service no_health lines ->
  exists line, line ∈ lines /\
    render_log_line unicode_digit service line (service_log_output_format w) no_health = Some text.
Proof.
  unfold print_lines, print_all. intros (t & [= <-] & Ht)%list_elem_of_fmap.
  by apply list_elem_of_omap in Ht.
Qed.

Lemma answer_through tail after response line :
  (Z.of_nat tail <= u64_max)%Z -> (forall n, after = Some n -> in_range 0 u64_max n) ->
  answered (service_logs_path run_id service (request_of args level since tail after)) response ->
  line ∈ lg_lines response -> let_through line.
Proof.
  intros Ht Ha Hans Hl. set (q := request_of args level since tail after) in *.
  exists (build_logs_query_string q), response, (asked q). split_and!; [done|done| |done].
  apply logs_query_read; [|exact Ha]. by intros n [= <-].
Qed.

(** The cursors that answers name fit their field. *)
Definition cursors_fit : Prop := forall path response n,
  answered path response -> lg_next_after response = Some n -> in_range 0 u64_max n.

Definition shown_through (no_health : bool) (shown : list Shown) : Prop :=
  forall text, Line text ∈ shown -> exists line, let_through line /\
    render_log_line unicode_digit service line (service_log_output_format w) no_health = Some text.

Lemma nothing_shown no_health : shown_through no_health [].
Proof. by intros text ?%elem_of_nil. Qed.

Lemma shown_through_app no_health a b :
  shown_through no_health a -> shown_through no_health b -> shown_through no_health (a ++ b).
Proof. intros Ha Hb text [Ht|Ht]%elem_of_app; [by apply Ha|by apply Hb]. Qed.

Lemma answer_shown no_health tail after response :
  (Z.of_nat tail <= u64_max)%Z -> (forall n, after = Some n -> in_range 0 u64_max n) ->
  answered (service_logs_path run_id service (request_of args level since tail after)) response ->
  shown_through no_health (print_lines unicode_digit w service no_health (lg_lines response)).
Proof.
  intros Ht Ha Hans text (line & Hl & Hr)%printed_line. exists line. split; [|done].
  exact (answer_through _ _ _ _ Ht Ha Hans Hl).
Qed.

Lemma polls_shown no_health follow_for polls after :
  cursors_fit -> (forall n, after = Some n -> in_range 0 u64_max n) -> polls ⊆ wd_polls w ->
  shown_through no_health (poll_logs unicode_digit w run_id service (request_of args level since)
    no_health follow_for after polls).2.
Proof.
  intros Hfit. revert after. induction polls as [|[elapsed answer] polls IH]; intros after Ha Hin.
  { apply nothing_shown. }
  cbn [poll_logs]. destruct (match follow_for with Some _ => _ | None => _ end); [apply nothing_shown|].
  destruct (answer _) as [response|e| |] eqn:He; try apply nothing_shown. cbn [need].
  assert (answered (service_logs_path run_id service (request_of args level since FOLLOW_LIMIT after)) response)
    as Hans by (right; exists (elapsed, answer); split; [apply Hin; left|done]).
  apply shown_through_app;
    [by apply (answer_shown _ FOLLOW_LIMIT after); [by vm_compute|..]|].
  apply IH; [|by intros p Hp; apply Hin; right]. intros n Hn. unfold next_cursor in Hn.
  destruct (lg_next_after response) as [next|] eqn:En; [|by apply Ha].
  pose proof (Hfit _ _ _ Hans En) as [? ?]. injection Hn as <-.
  destruct after as [current|]; [|by split]. destruct (Ha current eq_refl). split; lia.
Qed.

(** The polls of the command from a cursor on that were made and answered: the cursor after
    them, and what they show. *)
Inductive answered_polls (no_health : bool) (follow_for : option Z)
    : option Z -> list (Z * (string -> outcome LogsResponse)) -> option Z -> list Shown -> Prop :=
  | no_polls after : answered_polls no_health follow_for after [] after []
  | next_poll after elapsed answer response polls last shown :
      (forall limit, follow_for = Some limit -> (elapsed < limit)%Z) ->
      answer (service_logs_path run_id service (request_of args level since FOLLOW_LIMIT after))
        = Ok response ->
      answered_polls no_health follow_for (next_cursor after response) polls last shown ->
      answered_polls no_health follow_for after ((elapsed, answer) :: polls) last
        (print_lines unicode_digit w service no_health (lg_lines response) ++ shown).

Lemma in_time (follow_for : option Z) elapsed :
  (forall limit, follow_for = Some limit -> (elapsed < limit)%Z) ->
  match follow_for with Some limit => (limit <=? elapsed)%Z | None => false end = false.
Proof. destruct follow_for as [limit|]; [|done]. intros Hl. apply Z.leb_gt. by apply Hl. Qed.

Lemma failed_poll no_health follow_for after polls last shown elapsed answer rest e :
  answered_polls no_health follow_for after polls last shown ->
  (forall limit, follow_for = Some limit -> (elapsed < limit)%Z) ->
  answer (service_logs_path run_id service (request_of args level since FOLLOW_LIMIT last)) = Err e ->
  poll_logs unicode_digit w run_id service (request_of args level since) no_health follow_for after
    (polls ++ (elapsed, answer) :: rest) = (Err e, shown).
Proof.
  intros Hp He Ha. induction Hp as [after|after elapsed' answer' response polls last shown Ht Hr _ IH]; cbn.
  - by rewrite in_time, Ha.
  - rewrite in_time, Hr by done. cbn. by rewrite IH.
Qed.

Lemma service_shown base_dir follow_for :
  cursors_fit -> (forall n, la_tail args = Some n -> (Z.of_nat n <= u64_max)%Z) ->
  given (la_q args) || given level || given (la_stream args) || given since = true ->
  shown_through (la_no_health args)
    (show_service unicode_digit base_dir w args run_id service level since follow_for).2.
Proof.
  intros Hfit Ht Hapi. unfold show_service. rewrite Hapi.
  assert (forall n, (Z.of_nat n <= u64_max)%Z -> (Z.of_nat (default n (la_tail args)) <= u64_max)%Z) as Htail.
  { intros n Hn. destruct (la_tail args); [by apply Ht|done]. }
  assert (forall (n : Z), None = Some n -> in_range 0 u64_max n) as Hnone by done.
  destruct (la_follow args).
  - unfold stream_service_logs_api.
    destruct (wd_logs w _) as [response|e| |] eqn:He; try apply nothing_shown. cbn [need].
    assert (answered (service_logs_path run_id service
      (request_of args level since (default 200%nat (la_tail args)) None)) response) as Hans by (by left).
    pose proof (answer_shown (la_no_health args) _ _ _ (Htail 200%nat ltac:(by vm_compute)) Hnone Hans) as Hfirst.
    pose proof (polls_shown (la_no_health args) follow_for (wd_polls w) (lg_next_after response) Hfit
      (fun n => Hfit _ _ n Hans) ltac:(done)) as Hpolls.
    destruct (poll_logs _ _ _ _ _ _ _ _ _) as [[u|e| |] shown]; cbn; by apply shown_through_app.
  - destruct (wd_logs w _) as [response|e| |] eqn:He; try apply nothing_shown. cbn [need].
    apply (answer_shown _ _ _ _ (Htail 500%nat ltac:(by vm_compute)) Hnone). by left.
Qed.
End together.

(** C22: A filter is never dropped: when [logs] is asked for a service with a search, a
    level, a stream or a time, every line it shows, followed or not, was in an answer of the
    daemon to a request from which the daemon reads that very filter (an empty text and the
    level [all] filter nothing); and the first of its requests that fails, the one at the
    start or a later poll, ends the command with its error, nothing shown after the lines
    answered before: the file of the log, which nothing filters, is not shown instead. *)
Theorem filtered_logs_let_through `{J : Json} `{SearchIndex} `{StateCodec} `{Searcher}
    `{UrlEncoding} (UL : UrlEncodingLaws) unicode_digit parse_rfc3339 parse_duration timestamp_ago
    base_dir blake3_hex home env log_env now max_age (w : World) (args : LogsArgs) (service : string) :
  let level := if la_errors args then Some "error" else la_level args in
  let normalized := normalize_since_arg parse_rfc3339 parse_duration timestamp_ago (la_since args) in
  let follow_for := resolve_follow_for (la_follow args) (la_follow_for args) (wd_interactive w) in
  let ran := logs_run unicode_digit parse_rfc3339 parse_duration timestamp_ago base_dir blake3_hex
               home env log_env now max_age w args in
  la_service args = Some service -> la_source args = None -> la_facets args = false ->
  la_task args = None -> la_all args = false ->
  (forall since, normalized = Ok since ->
     given (la_q args) || given level || given (la_stream args) || given since = true) ->
  (forall n, la_tail args = Some n -> (Z.of_nat n <= u64_max)%Z) -> cursors_fit w ->
  (forall text, Line text ∈ ran.2 -> exists since run_id line,
     normalized = Ok since /\ let_through w args level since run_id service line /\
     render_log_line unicode_digit service line (service_log_output_format w) (la_no_health args) = Some text) /\
  forall project_dir since run_id,
    wd_project_dir w = Ok project_dir -> normalized = Ok since ->
    wd_find_run w project_dir (la_run_id args) = Ok run_id ->
    let tail := default (if la_follow args then 200%nat else 500%nat) (la_tail args) in
    match wd_logs w (service_logs_path run_id service (request_of args level since tail None)) with
    | Ok response =>
        let first := print_lines unicode_digit w service (la_no_health args) (lg_lines response) in
        (la_follow args = false -> ran = (Ok tt, first)) /\
        (la_follow args = true -> forall polls last shown elapsed answer rest e,
           wd_polls w = polls ++ (elapsed, answer) :: rest ->
           answered_polls unicode_digit w args level since run_id service (la_no_health args) follow_for
             (lg_next_after response) polls last shown ->
           (forall limit, follow_for = Some limit -> (elapsed < limit)%Z) ->
           answer (service_logs_path run_id service (request_of args level since FOLLOW_LIMIT last)) = Err e ->
           ran = (Err e, first ++ shown))
    | Err e => ran = (Err e, [])
    | _ => ran.2 = []
    end.
Proof.
  intros level normalized follow_for ran Hservice Hsource Hfacets Htask Hall Hfilter Htail Hfit.
  unfold ran, logs_run, resolve_log_target. rewrite Hsource, Hservice, Hfacets, Htask, Hall. split.
  - intros text. destruct (wd_project_dir w) as [dir|e| |]; try by intros ?%elem_of_nil. cbn [need].
    fold normalized. destruct normalized as [since|e| |]; try by intros ?%elem_of_nil. cbn [need].
    destruct (wd_find_run w dir (la_run_id args)) as [run_id|e| |]; try by intros ?%elem_of_nil. cbn [need].
    intros Hin. exists since, run_id.
    apply service_shown in Hin as (line & Hl & Hr); [by exists line|done|done|by apply Hfilter].
  - intros dir since run_id Hdir Hsince Hrun. rewrite Hdir. cbn [need]. fold normalized.
    rewrite Hsince. cbn [need]. rewrite Hrun. cbn [need]. fold level follow_for. specialize (Hfilter since Hsince).
    unfold show_service. rewrite Hfilter. unfold stream_service_logs_api.
    destruct (la_follow args); destruct (wd_logs w _) as [response|e| |]; cbn [need]; try done.
    split; [done|]. intros _ polls last shown elapsed answer rest e Hpolls Hans Htime Ha.
    by rewrite Hpolls, (failed_poll _ _ _ _ _ _ _ _ _ _ _ _ _ _ _ _ _ Hans Htime Ha).
Qed.

(** C5: Following a service through the daemon shows what the follower of the index finds
    ([follow_logs]): with the daemon answering from the index as it grows, until the time is
    up, the command ends well having printed the lines of the follower - through the encoded
    requests, the cursors and the printer - in order, once each. *)
Theorem follow_through_daemon `{J : Json} `{SearchIndex} `{StateCodec} `{Searcher} `{UrlEncoding}
    (SL : SearcherLaws) (UL : UrlEncodingLaws) unicode_digit parse_rfc3339 base_dir
    (w : World) (args : LogsArgs) (level since : option string) (run_id service : string)
    st indexes polls elapsed answer limit lines final :
  parse_rfc3339 "" = None -> la_follow args = true ->
  (Z.of_nat (default 200%nat (la_tail args)) <= u64_max)%Z ->
  (forall path, wd_logs w path = daemon_logs parse_rfc3339 run_id service st path) -> ranged st ->
  wd_polls w = polls ++ [(elapsed, answer)] ->
  Forall2 (polled parse_rfc3339 run_id service limit) polls indexes -> (limit <= elapsed)%Z ->
  follow_logs parse_rfc3339 run_id service (args_filter args level since)
    (default 200%nat (la_tail args)) st indexes = Ok (lines, final) ->
  show_service unicode_digit base_dir w args run_id service level since (Some limit)
    = (Ok tt, print_lines unicode_digit w service (la_no_health args) lines).
Proof.
  intros Hblank Hfollow Htail Hlogs Hst Hpolls Hp Hlast Hf. unfold show_service. rewrite Hfollow.
  unfold stream_service_logs_api. rewrite Hlogs, daemon_answers;
    [|done|by intros n [= <-]|done].
  change (request_of args level since (default 200%nat (la_tail args)) None)
    with (mkLogsQuery (with_last (args_filter args level since) (default 200%nat (la_tail args))) None).
  unfold follow_logs in Hf. destruct (search_lines _ _ _ _ st) as [r|e| |] eqn:Hs; try done.
  cbn [mbind outcome_bind need] in *.
  destruct (follow_loop _ _ _ _ (lg_next_after r) indexes) as [[more final']|e| |] eqn:Hloop; try done.
  injection Hf as <- <-. rewrite Hpolls.
  rewrite (polls_follow unicode_digit parse_rfc3339 Hblank w args level since run_id service limit
    _ polls indexes (elapsed, answer) [] _ more final'); try done.
  - unfold showing. cbn. by rewrite print_lines_app.
  - intros n Hn. by eapply cursor_ranged.
Qed.

(** Without [--follow] the file of the log is never looked at: when the daemon does not
    answer, its error is the command's, although the command is written to show the file. *)
Lemma no_fallback_unfollowed `{J : Json} `{SearchIndex} `{UrlEncoding}
    unicode_digit base_dir (w : World) args run_id service level since follow_for err :
  la_follow args = false -> (forall path, wd_logs w path = Err err) ->
  show_service unicode_digit base_dir w args run_id service level since follow_for = (Err err, []).
Proof. intros Hf Hw. unfold show_service. by rewrite Hf, Hw. Qed.

(** ** Concrete commands *)

#[local] Existing Instance list_index.
#[local] Existing Instance tree_codec.
#[local] Existing Instance concrete_json.
#[local] Existing Instance sorted_search.
#[local] Existing Instance sorted_search_laws.

Lemma ranged_check (st : LogIndex (Response := LogViewResponse)) :
  forallb (fun d => (0 <=? pd_seq d)%Z && (pd_seq d <=? u64_max)%Z) (searched st) = true -> ranged st.
Proof.
  intros Hc d Hd. apply list_elem_of_In in Hd.
  pose proof (proj1 (forallb_forall _ _) Hc d Hd) as [H1 H2]%andb_prop.
  apply Z.leb_le in H1, H2. by split.
Qed.

Definition example_world (logs : string -> outcome LogsResponse)
    (polls : list (Z * (string -> outcome LogsResponse))) : World :=
  mkWorld true (Ok "/p") (fun _ run => ok_or run "no run") (fun _ => Ok None) (fun _ => Ok None)
    (fun _ => Err "no status") logs (fun _ => Err "no view") polls true (Ok []) (Ok no_documents)
    (fun _ => mkLogFile false (Err "no file") (Err "no file") []).

Definition example_args (q : option string) (follow : bool) (follow_for : option Z) : LogsArgs :=
  mkLogsArgs (Some "run") None false false None (Some "web") None None q None false None None false
    follow follow_for.

Definition example_answer : LogsResponse := mkLogsResponse ["one"; "a two"] false 2 0 0 (Some 1%Z) 2.

Lemma filtered_logs_let_through_witness :
  let w := example_world (fun _ => Ok example_answer) [] in
  let args := example_args (Some "a b") false None in
  exists since run_id line,
    normalize_since_arg (fun _ => None) (fun _ => None) (fun _ => Panic) (la_since args) = Ok since /\
    let_through w args None since run_id "web" line /\
    render_log_line (fun _ => false) "web" line Text false = Some "a two".
Proof.
  intros w args.
  destruct (filtered_logs_let_through percent_encoding_laws (fun _ => false) (fun _ => None) (fun _ => None)
    (fun _ => Panic) (Ok "/base") (fun s => s) None
    (mkSourceEnv "" 0 (Ok tt) 0 (Ok tt) (fun _ => Err "") (fun _ => false))
    (LogIngest.sample_env [] (Ok tt)) 0 0 w args "web") as [Hlines _]; try reflexivity.
  - done.
  - intros path response n [Hr|(poll & Hin & _)] Hn; [|by apply elem_of_nil in Hin].
    injection Hr as <-. injection Hn as <-. by split.
  - apply (Hlines "a two"). right. left.
Defined.

Definition second_logs : string -> outcome LogsResponse :=
  daemon_logs (fun _ => None) "run" "web" second_poll.

Lemma follow_through_daemon_witness :
  let w := example_world (daemon_logs (fun _ => None) "run" "web" first_poll)
             ([(200%Z, second_logs); (400%Z, second_logs)] ++ [(600%Z, second_logs)]) in
  show_service (fun _ => false) (Ok "/base") w (example_args None true (Some 500%Z)) "run" "web" None None
    (Some 500%Z) = (Ok tt, print_lines (fun _ => false) w "web" false ["one"; "two"]) /\
  print_lines (fun _ => false) w "web" false ["one"; "two"] = [Line "one"; Line "two"].
Proof.
  intros w. split; [|reflexivity].
  apply (follow_through_daemon sorted_search_laws percent_encoding_laws (fun _ => false) (fun _ => None)
    (Ok "/base") w (example_args None true (Some 500%Z)) None None "run" "web"
    first_poll [second_poll; second_poll] [(200%Z, second_logs); (400%Z, second_logs)]
    600 second_logs 500 ["one"; "two"] (Some 1%Z)); try done.
  - apply ranged_check. vm_compute. reflexivity.
  - assert (forall elapsed, (elapsed < 500)%Z ->
      polled (fun _ => None) "run" "web" 500 (elapsed, second_logs) second_poll) as Hp.
    { intros elapsed He. split_and!; [done|done|]. apply ranged_check. vm_compute. reflexivity. }
    constructor; [by apply Hp|]. constructor; [by apply Hp|constructor].
Defined.
