(* ===== verification/Events.v ===== *)
(** * The streams of events

    Models the events of [src/api.rs] as they are sent to a client, the loop of
    [src/daemon/handlers/events.rs] behind each stream, and the tails of logs that the
    streams hold ([LogTail]).

    The broadcast channel is third-party code: what a receiver gets of it is [receives]. *)

From stdpp Require Import gmap.
From S2P Require Import Prelude Bytes BMap Json RunModel Tasks Manifest LogTail.
From Stdlib Require Import Lia ZArith.

(** ** Events *)

Record DaemonGlobalEvent := mkDaemonGlobalEvent { ge_key : string; ge_state : RunLifecycle }.

Section event.
Context `{J : Json}.

Inductive Event :=
  | RunEvent (e : DaemonRunEvent)
  | ServiceEvent (e : DaemonServiceEvent)
  | TaskEvent (e : DaemonTaskEvent)
  | GlobalEvent (e : DaemonGlobalEvent)
  | LogEvent (e : DaemonLogEvent).

Definition event_name (event : Event) : string :=
  match event with
  | RunEvent _ => "run"
  | ServiceEvent _ => "service"
  | TaskEvent _ => "task"
  | GlobalEvent _ => "global"
  | LogEvent _ => "log"
  end.

Definition run_event_kind (kind : DaemonRunEventKind) : string :=
  match kind with
  | RunCreated => "created" | RunStateChanged => "state_changed" | RunRemoved => "removed"
  end.

Definition task_event_kind (kind : DaemonTaskEventKind) : string :=
  match kind with
  | TaskStarted => "started" | TaskEventCompleted => "completed" | TaskEventFailed => "failed"
  end.

Definition task_state_name (state : TaskExecutionState) : string :=
  match state with
  | TaskRunning => "running" | TaskCompleted => "completed" | TaskFailed => "failed"
  end.

Definition run_event_json (e : DaemonRunEvent) : Value :=
  Object ([("kind", String (run_event_kind (re_kind e))); ("run_id", String (re_run_id e))]
          ++ skip_none "state" (fun state => String (run_lifecycle_name state)) (re_state e)
          ++ skip_none "stack" String (re_stack e)
          ++ skip_none "project_dir" String (re_project_dir e)).

Definition service_event_json (e : DaemonServiceEvent) : Value :=
  Object [("kind", String "state_changed"); ("run_id", String (se_run_id e));
          ("service", String (se_service e)); ("state", String (service_state_name (se_state e)))].

Definition task_event_json (e : DaemonTaskEvent) : Value :=
  Object ([("kind", String (task_event_kind (te_kind e)));
           ("execution_id", String (te_execution_id e)); ("task", String (te_task e))]
          ++ skip_none "run_id" String (te_run_id e)
          ++ [("state", String (task_state_name (te_state e)));
              ("started_at", String (te_started_at e))]
          ++ skip_none "finished_at" String (te_finished_at e)
          ++ skip_none "exit_code" json_int (te_exit_code e)
          ++ skip_none "duration_ms" json_int (te_duration_ms e)).

Definition global_event_json (e : DaemonGlobalEvent) : Value :=
  Object [("kind", String "state_changed"); ("key", String (ge_key e));
          ("state", String (run_lifecycle_name (ge_state e)))].

Definition log_event_json (e : DaemonLogEvent) : Value :=
  Object ([("run_id", String (le_run_id e)); ("service", String (le_service e));
           ("ts", String (le_ts e)); ("stream", String (le_stream e)); ("level", String (le_level e));
           ("message", String (le_message e)); ("raw", String (le_raw e))]
          ++ skip_none "json" id (le_json e)
          ++ match le_attributes e with [] => [] | attributes => [("attributes", json_env attributes)] end).

Definition payload_json (event : Event) : outcome string :=
  match event with
  | RunEvent e => to_string (run_event_json e)
  | ServiceEvent e => to_string (service_event_json e)
  | TaskEvent e => to_string (task_event_json e)
  | GlobalEvent e => to_string (global_event_json e)
  | LogEvent e => to_string (log_event_json e)
  end.

Definition should_deliver (event : Event) (run_id : option string) : bool :=
  match event with
  | LogEvent e => bool_decide (run_id = Some (le_run_id e))
  | TaskEvent e => match run_id with
                   | Some filter => bool_decide (te_run_id e = Some filter)
                   | None => true
                   end
  | _ => true
  end.

(** ** The loop of a stream *)

(** [RecvError] and [Ok] of [broadcast::Receiver::recv]. *)
Inductive Recv := Got (event : Event) | Lagged (n : nat) | Closed.

Record SseEvent := mkSseEvent { sse_event : string; sse_data : string }.

(** For each message whether the client is still there. What was sent, and whether the
    loop ended. *)
Fixpoint event_loop (run_filter : option string) (turns : list (Recv * bool)) : list SseEvent * bool :=
  match turns with
  | [] => ([], false)
  | (Got event, there) :: turns =>
      if negb (should_deliver event run_filter) then event_loop run_filter turns else
      match payload_json event with
      | Ok payload =>
          if there : bool then
            let '(sent, ended) := event_loop run_filter turns in
            (mkSseEvent (event_name event) payload :: sent, ended)
          else ([], true)
      | _ => event_loop run_filter turns
      end
  | (Lagged _, _) :: turns => event_loop run_filter turns
  | (Closed, _) :: _ => ([], true)
  end.
End event.

(** ** The streams and the tails they hold *)

(** The open streams, by the run each asked for; the runs whose release was spawned by the
    end of a stream and has not come yet. *)
Record Streams := mkStreams {
  sm_registry : TailRegistry;
  sm_open : list (option string);
  sm_dropped : list string;
}.

Definition Streams_default : Streams := mkStreams TailRegistry_default [] [].

(** A new stream; [exists_] is whether the run is known. *)
Definition events (exists_ : string -> bool) (run_id : option string) (st : Streams) : outcome Streams :=
  match run_id with
  | Some run =>
      if negb (exists_ run) then Err ("run " +:+ run +:+ " not found") else
      Ok (mkStreams (retain_run_log_tail run (sm_registry st)) (Some run :: sm_open st) (sm_dropped st))
  | None => Ok (mkStreams (sm_registry st) (None :: sm_open st) (sm_dropped st))
  end.

(** [Drop for LogTailSubscription] *)
Definition drop_subscription (run_id : option string) (dropped : list string) : list string :=
  match run_id with Some run => run :: dropped | None => dropped end.

(** A step, and the task of a tail that fails in it. *)
Inductive streams_step : option nat -> Streams -> Streams -> Prop :=
  | stream_opens exists_ run_id st st' :
      events exists_ run_id st = Ok st' -> streams_step None st st'
  | stream_ends run_id a b registry dropped :
      streams_step None (mkStreams registry (a ++ run_id :: b) dropped)
        (mkStreams registry (a ++ b) (drop_subscription run_id dropped))
  | release_comes run a b registry opened :
      streams_step None (mkStreams registry opened (a ++ run :: b))
        (mkStreams (release_run_log_tail run registry) opened (a ++ b))
  | tail_fails task registry opened dropped :
      task ∈ tr_live registry ->
      streams_step (Some task) (mkStreams registry opened dropped)
        (mkStreams (tail_task_ends task registry) opened dropped).

(** The streams after any steps, with the tasks that have failed. *)
Inductive streams_after : gset nat -> Streams -> Prop :=
  | streams_start : streams_after ∅ Streams_default
  | streams_next failed st task st' :
      streams_after failed st -> streams_step task st st' ->
      streams_after (failed ∪ match task with Some task => {[task]} | None => ∅ end) st'.

(** ** What a client is told *)

Section told.
Context `{J : Json}.

(** What a receiver gets of the events sent since it subscribed: each once and in order,
    but for those it was too slow for, whose number it is told. *)
Inductive receives : list Event -> list Recv -> Prop :=
  | receives_nothing emitted : receives emitted []
  | receives_event event emitted received :
      receives emitted received -> receives (event :: emitted) (Got event :: received)
  | receives_lag skipped emitted received :
      receives emitted received -> receives (skipped ++ emitted) (Lagged (length skipped) :: received)
  | receives_closed : receives [] [Closed].

Definition sse_of (event : Event) : option SseEvent :=
  match payload_json event with
  | Ok payload => Some (mkSseEvent (event_name event) payload)
  | _ => None
  end.

Definition lost (recv : Recv) : nat := match recv with Lagged n => n | _ => 0 end.

(** The events that were received. *)
Definition heard_of (turns : list (Recv * bool)) : list Event :=
  omap (fun turn => match turn.1 with Got event => Some event | _ => None end) turns.

(** Whom an event is meant for: the lines of a log for the streams of its run, the tasks of a
    run for its streams and for those of all runs, the others for everybody. *)
Definition meant_for (run_filter : option string) (event : Event) : Prop :=
  match event with
  | LogEvent e => run_filter = Some (le_run_id e)
  | TaskEvent e => run_filter = None \/ te_run_id e = run_filter
  | _ => True
  end.

#[export] Instance meant_for_decision run_filter event : Decision (meant_for run_filter event).
Proof. destruct event; simpl; apply _. Defined.

Definition told_of (run_filter : option string) (heard : list Event) : list SseEvent :=
  omap sse_of (filter (meant_for run_filter) heard).

Lemma should_deliver_spec run_filter event :
  should_deliver event run_filter = bool_decide (meant_for run_filter event).
Proof.
  destruct event as [e|e|e|e|e]; cbn; try done. destruct run_filter as [run|].
  - apply bool_decide_ext. naive_solver.
  - symmetry. apply bool_decide_eq_true_2. by left.
Qed.

Definition is_closed (turn : Recv * bool) : bool := match turn.1 with Closed => true | _ => false end.

(** What is received of what was sent. *)
Lemma receives_heard emitted turns :
  receives emitted (map fst turns) ->
  exists passed rest, emitted = passed ++ rest /\ sublist (heard_of turns) passed /\
    length passed = length (heard_of turns) + sum_list (map (fun turn => lost turn.1) turns).
Proof.
  remember (map fst turns) as received eqn:Hreceived. intros Hr. revert turns Hreceived.
  induction Hr as [emitted|event emitted received _ IH|skipped emitted received _ IH|];
    intros [|[recv there] turns] Hreceived; try done; try (by exists [], emitted);
    cbn in Hreceived; injection Hreceived as <- Hreceived; unfold heard_of; cbn.
  - destruct (IH _ Hreceived) as (passed & rest & -> & Hs & Hl). exists (event :: passed), rest.
    split; [done|]. split; [by constructor|]. cbn. unfold heard_of in Hl. lia.
  - destruct (IH _ Hreceived) as (passed & rest & -> & Hs & Hl). exists (skipped ++ passed), rest.
    split; [by rewrite app_assoc|]. split; [by apply sublist_inserts_l|]. rewrite length_app.
    unfold heard_of in Hl. lia.
  - destruct turns; [|done]. by exists [], [].
Qed.

(** The loop sends what it receives, until the channel is closed. *)
Lemma event_loop_told run_filter emitted turns :
  receives emitted (map fst turns) -> Forall (fun turn => turn.2 = true) turns ->
  event_loop run_filter turns = (told_of run_filter (heard_of turns), existsb is_closed turns).
Proof.
  remember (map fst turns) as received eqn:Hreceived. intros Hr. revert turns Hreceived.
  induction Hr as [emitted|event emitted received _ IH|skipped emitted received _ IH|];
    intros [|[recv there] turns] Hreceived Hthere; try done;
    cbn in Hreceived; injection Hreceived as <- Hreceived; apply Forall_cons in Hthere as [Ht Hthere];
    unfold heard_of, told_of in *; cbn [event_loop omap list_omap existsb is_closed fst orb].
  - rewrite should_deliver_spec, filter_cons. rewrite (IH _ Hreceived Hthere). cbn in Ht. subst there.
    case_bool_decide as Hm; [rewrite decide_True by done|by rewrite decide_False].
    cbn [negb omap list_omap]. destruct (sse_of event) as [sse|] eqn:Hsse; unfold sse_of in Hsse;
      destruct (payload_json event); by simplify_eq.
  - by apply IH.
  - destruct turns; [|done]. done.
Qed.
End told.

Lemma sublist_full {A} (a b : list A) : sublist a b -> length a = length b -> a = b.
Proof.
  induction 1 as [|x a b _ IH|x a b Hs IH]; cbn; [done|..].
  - intros [= Hl]. by rewrite IH.
  - intros Hl. apply sublist_length in Hs. lia.
Qed.


(** A client that is gone is noticed only when an event is to be sent to it: while none is
    meant for its stream the stream goes on, and with it the tail of its run. *)
Lemma quiet_stream_stays `{J : Json} run_filter turns :
  Forall (fun turn => exists event, turn.1 = Got event /\ should_deliver event run_filter = false) turns ->
  event_loop run_filter turns = ([], false).
Proof.
  induction 1 as [|[recv there] turns (event & He & Hd) _ IH]; [done|]. cbn in He. subst recv. cbn. by rewrite Hd, IH.
Qed.

(** ** Streams and tails *)

Section held.

Definition holds (run_id : string) (opened : list (option string)) : Z :=
  Z.of_nat (length (List.filter (fun run => bool_decide (run = Some run_id)) opened)).

Definition released (run_id : string) (dropped : list string) : Z :=
  Z.of_nat (length (List.filter (fun run => bool_decide (run = run_id)) dropped)).

(** The streams of a run, with those that have ended and are not released yet. *)
Definition holders (st : Streams) (run_id : string) : Z :=
  (holds run_id (sm_open st) + released run_id (sm_dropped st))%Z.

Definition streams_ok (st : Streams) : Prop := registry_ok (holders st) True (sm_registry st).

Lemma tail_fails_ok count task r :
  registry_ok count True r -> registry_ok count True (tail_task_ends task r).
Proof.
  intros [Hn Hs Hd Ho Hl]. split; cbn; try done.
  - intros t [Ht _]%elem_of_difference. by apply Ho.
  - intros run_id handle _. by left.
Qed.

Lemma holds_app run_id a b : holds run_id (a ++ b) = (holds run_id a + holds run_id b)%Z.
Proof. unfold holds. rewrite List.filter_app, length_app. lia. Qed.

Lemma holds_cons run_id run b :
  holds run_id (run :: b) = ((if bool_decide (run = Some run_id) then 1 else 0) + holds run_id b)%Z.
Proof. unfold holds. cbn. case_bool_decide; cbn [length]; lia. Qed.

Lemma released_app run_id a b : released run_id (a ++ b) = (released run_id a + released run_id b)%Z.
Proof. unfold released. rewrite List.filter_app, length_app. lia. Qed.

Lemma released_cons run_id run b :
  released run_id (run :: b) = ((if bool_decide (run = run_id) then 1 else 0) + released run_id b)%Z.
Proof. unfold released. cbn. case_bool_decide; cbn [length]; lia. Qed.

Lemma step_ok failed st st' : streams_step failed st st' -> streams_ok st -> streams_ok st'.
Proof.
  intros Hstep Hok. unfold streams_ok, holders in *.
  destruct Hstep as [exists_ [run|] [registry opened dropped] st' He|run_id a b registry dropped|
    run a b registry opened|task registry opened dropped Hlive]; cbn [sm_open sm_dropped sm_registry] in *.
  - unfold events in He. destruct (exists_ run); [|done]. injection He as <-.
    cbn [sm_open sm_dropped sm_registry] in *. eapply registry_ok_ext; [|exact id|by apply retain_ok].
    intros id. cbn beta. rewrite holds_cons. repeat case_bool_decide; simplify_eq; try lia; congruence.
  - injection He as <-. cbn [sm_open sm_dropped sm_registry] in *.
    eapply registry_ok_ext; [|exact id|exact Hok]. intros id. cbn beta. by rewrite holds_cons.
  - eapply registry_ok_ext; [|exact id|exact Hok]. intros id. cbn beta. rewrite !holds_app, holds_cons.
    destruct run_id as [run|]; cbn [drop_subscription]; [rewrite released_cons|];
      repeat case_bool_decide; simplify_eq; try lia; congruence.
  - eapply registry_ok_ext; [|exact id|exact (release_ok _ _ _ run Hok)].
    intros id. cbn beta. rewrite !released_app, !released_cons. unfold holds, released.
    repeat case_bool_decide; simplify_eq; lia.
  - by apply tail_fails_ok.
Qed.

(** Tasks have numbers of their own, and each has failed or runs while it has a handle. *)
Record tasks_ok (failed : gset nat) (r : TailRegistry) : Prop := {
  to_fresh task : task ∈ failed \/ task ∈ tr_live r -> task < tr_next r;
  to_failed task : task ∈ failed -> task ∉ tr_live r;
  to_runs run_id handle : tr_runs r !! run_id = Some handle -> lt_task handle ∈ failed \/ lt_task handle ∈ tr_live r;
}.

Lemma retain_tasks failed r run_id : tasks_ok failed r -> tasks_ok failed (retain_run_log_tail run_id r).
Proof.
  intros [Hf Hd Hr]. unfold retain_run_log_tail. destruct (tr_runs r !! run_id) as [handle|] eqn:Hh; split; cbn.
  - done.
  - done.
  - intros id h. rewrite lookup_insert_Some. intros [[<- <-]|[_ Hi]]; [exact (Hr run_id _ Hh)|exact (Hr id _ Hi)].
  - intros task [Ht|[->%elem_of_singleton|Ht]%elem_of_union]; [|lia|].
    + assert (task < tr_next r) by (apply Hf; by left). lia.
    + assert (task < tr_next r) by (apply Hf; by right). lia.
  - intros task Ht [->%elem_of_singleton|Hl]%elem_of_union; [|by eapply Hd].
    assert (tr_next r < tr_next r) by (apply Hf; by left). lia.
  - intros id h. rewrite lookup_insert_Some. intros [[<- <-]|[_ Hi]]; [set_solver|]. destruct (Hr id h Hi); set_solver.
Qed.

Lemma release_tasks failed count r run_id :
  registry_ok count True r -> tasks_ok failed r -> tasks_ok failed (release_run_log_tail run_id r).
Proof.
  intros Hok [Hf Hd Hr]. unfold release_run_log_tail. destruct (tr_runs r !! run_id) as [entry|] eqn:Hh; [|by split].
  destruct (1 <? lt_subscribers entry)%Z; split; cbn; try done.
  - intros id h. rewrite lookup_insert_Some. intros [[<- <-]|[_ Hi]]; [exact (Hr run_id _ Hh)|exact (Hr id _ Hi)].
  - intros task Ht. apply Hf. set_solver.
  - intros task Ht. specialize (Hd task Ht). set_solver.
  - intros id h. rewrite lookup_delete_Some. intros [Hne Hi]. destruct (Hr id h Hi) as [|Hl]; [by left|].
    right. apply elem_of_difference. split; [done|]. intros Heq. apply elem_of_singleton in Heq. apply Hne.
    by eapply (ro_distinct _ _ _ Hok run_id id entry h).
Qed.

Lemma fails_tasks failed r task :
  task ∈ tr_live r -> tasks_ok failed r -> tasks_ok (failed ∪ {[task]}) (tail_task_ends task r).
Proof.
  intros Hl [Hf Hd Hr]. split; cbn.
  - intros t Ht. apply Hf. set_solver.
  - intros t [Ht|Ht]%elem_of_union [Hlt Hne]%elem_of_difference; [by eapply Hd|done].
  - intros id h Hi. destruct (Hr id h Hi) as [|Hlt]; [left; by apply elem_of_union_l|].
    destruct (decide (lt_task h = task)) as [->|Hne]; [left; by apply elem_of_union_r, elem_of_singleton|].
    right. apply elem_of_difference. split; [done|]. by rewrite elem_of_singleton.
Qed.

Lemma step_tasks failed task st st' :
  streams_ok st -> streams_step task st st' -> tasks_ok failed (sm_registry st) ->
  tasks_ok (failed ∪ match task with Some task => {[task]} | None => ∅ end) (sm_registry st').
Proof.
  intros Hok Hstep Ht. destruct Hstep as [exists_ [run|] st st' He|run_id a b registry dropped|
    run a b registry opened|task registry opened dropped Hlive]; cbn in *; rewrite ?union_empty_r_L.
  - unfold events in He. destruct (exists_ run); [|done]. injection He as <-. by apply retain_tasks.
  - by injection He as <-.
  - done.
  - by eapply release_tasks.
  - by apply fails_tasks.
Qed.

Lemma reachable_ok failed st : streams_after failed st -> streams_ok st /\ tasks_ok failed (sm_registry st).
Proof.
  induction 1 as [|failed st task st' _ [IH1 IH2] Hs].
  - split; [by split; try set_solver|]. split; set_solver.
  - split; [by eapply step_ok|by eapply step_tasks].
Qed.
End held.

(** C23: Streams and tails keep step. However streams open and end, releases come late and
    tails fail: a run has no handle exactly while no stream of it is open and no release of
    one is to come; otherwise it has one, which counts them, and its task runs unless that
    task has failed - then the run has no tail until its last stream is released. Two runs
    never share a task, and no task runs for a run without a stream. *)
Theorem streams_hold_tails failed st :
  streams_after failed st ->
  (forall run_id,
     match tr_runs (sm_registry st) !! run_id with
     | Some handle => lt_subscribers handle = holders st run_id /\ (0 < holders st run_id)%Z /\
         (lt_task handle ∈ tr_live (sm_registry st) <-> lt_task handle ∉ failed)
     | None => holders st run_id = 0%Z
     end) /\
  (forall run1 run2 h1 h2, tr_runs (sm_registry st) !! run1 = Some h1 ->
     tr_runs (sm_registry st) !! run2 = Some h2 -> lt_task h1 = lt_task h2 -> run1 = run2) /\
  (forall task, task ∈ tr_live (sm_registry st) -> exists run_id handle,
     tr_runs (sm_registry st) !! run_id = Some handle /\ lt_task handle = task /\ (0 < holders st run_id)%Z).
Proof.
  intros [[Hn Hs Hd Ho Hl] [Hf Hfl Hr]]%reachable_ok. split_and!; [|done|].
  - intros run_id. destruct (tr_runs (sm_registry st) !! run_id) as [handle|] eqn:Hh; [|by apply Hn].
    destruct (Hs _ _ Hh) as (Hc & Hpos & _). rewrite Hc. split_and!; [done..|].
    specialize (Hr _ _ Hh). specialize (Hfl (lt_task handle)). naive_solver.
  - intros task Ht. destruct (Ho _ Ht) as (run_id & handle & Hh & Htask). exists run_id, handle.
    destruct (Hs _ _ Hh) as (Hc & Hpos & _). split_and!; [done..|]. by rewrite Hc.
Qed.

(** ** Concrete streams *)

#[local] Existing Instance concrete_json.

Definition example_service_event : Event :=
  ServiceEvent (mkDaemonServiceEvent "r" "web" Ready).
Definition example_global_event : Event := GlobalEvent (mkDaemonGlobalEvent "g" RunRunning).
Definition other_log_event : Event :=
  LogEvent (mkDaemonLogEvent _ "other" "web" "t" "stdout" "info" "m" "m" None []).

Definition example_turns : list (Recv * bool) :=
  [(Got other_log_event, true); (Lagged 1, true); (Got example_service_event, true)].


Lemma streams_hold_tails_witness :
  exists st, streams_after ∅ st /\ sm_open st = [Some "r"] /\ sm_dropped st = ["r"] /\
    forall handle, tr_runs (sm_registry st) !! "r" = Some handle ->
      lt_subscribers handle = 2%Z /\ lt_task handle ∈ tr_live (sm_registry st).
Proof.
  pose (opened := retain_run_log_tail "r" TailRegistry_default).
  exists (mkStreams (retain_run_log_tail "r" opened) ([] ++ [Some "r"]) ["r"]).
  assert (streams_after ∅
    (mkStreams (retain_run_log_tail "r" opened) ([] ++ [Some "r"]) ["r"])) as Hst.
  { replace (∅ : gset nat) with ((∅ ∪ ∅ ∪ ∅ ∪ ∅) : gset nat) by set_solver.
    eapply (streams_next _ _ None); [|apply (stream_ends (Some "r") [] [Some "r"])].
    apply (streams_next _ (mkStreams opened [Some "r"] []) None);
      [|by apply (stream_opens (fun _ => true) (Some "r"))].
    apply (streams_next _ (mkStreams TailRegistry_default [] []) None);
      [|by apply (stream_opens (fun _ => true) (Some "r"))].
    apply streams_start. }
  split; [exact Hst|]. split; [done|]. split; [done|]. intros handle Hh.
  destruct (streams_hold_tails _ _ Hst) as (Hall & _). specialize (Hall "r"). rewrite Hh in Hall.
  destruct Hall as (-> & _ & ->). split; [reflexivity|set_solver].
Defined.
