(* ===== verification/Queries.v ===== *)
(** * What the daemon answers

    Models the queries of [src/app/queries/], the errors of [src/app/error.rs] and their HTTP
    answers, the handlers of [src/daemon/handlers/logs.rs], and what the client of
    [src/infra/ipc/unix_daemon_client.rs] makes of an answer.

    HTTP and the socket are third-party code and I/O. *)

From stdpp Require Import gmap.
From S2P Require Import Prelude Bytes BMap Util Json Sort Files ConfigValidate RunModel Sessions Tasks.
From S2P Require Import LogIndex LogIngest LogQuery CliContext.
From Stdlib Require Import Lia ZArith.

(** ** Errors *)

Inductive AppError :=
  | NotFound (message : string)
  | BadRequest (message : string)
  | Internal (message : string).

(** [Result] of a query. *)
Definition AppResult (A : Type) : Type := (A + AppError)%type.

Definition app_error_status (error : AppError) : Z :=
  match error with NotFound _ => 404 | BadRequest _ => 400 | Internal _ => 500 end.

Definition app_error_message (error : AppError) : string :=
  match error with NotFound m | BadRequest m | Internal m => m end.

(** What a task that may block gives when it is joined: a panic of it is an error. *)
Definition join_blocking {A} (panicked : string) (failed : string -> AppError) (o : outcome A)
    : AppResult A :=
  match o with
  | Ok a => inl a
  | Err err => inr (failed err)
  | Panic | OutOfFuel => inr (Internal panicked)
  end.

Definition map_log_index_error (message : string) : AppError :=
  match strip_prefix (to_bytes "bad_query:") (to_bytes message) with
  | Some rest => BadRequest (str_trim (of_bytes rest))
  | None => Internal message
  end.

Section answer.
Context `{J : Json}.

(** The status and the body of an answer. *)
Definition into_response (error : AppError) : Z * outcome string :=
  (app_error_status error, to_string (Object [("error", String (app_error_message error))])).

(** What [request_inner] makes of a status, with its text, and a body; [from_slice] reads a
    body. *)
Definition client_answer (from_slice : bytes -> outcome Value) (failure_prefix : string)
    (status : Z) (status_text : string) (body : bytes) : outcome Value :=
  if negb ((200 <=? status)%Z && (status <? 300)%Z)
  then Err (failure_prefix +:+ " " +:+ status_text +:+ " " +:+ of_bytes (from_utf8_lossy body))
  else if is_empty body then Ok (Object [])
  else from_slice body.
End answer.

(** ** Projections of the stores *)

Definition latest_agent_session (kill : Z -> option Z) (project_dir : string) (sessions : AgentSessionStore)
    : option AgentSession * AgentSessionStore :=
  find_latest_for_project kill project_dir sessions.

Definition get_navigation_intent (navigation : NavigationStore) : option NavigationIntent :=
  get_intent navigation.

Record GlobalSummary := mkGlobalSummary {
  gu_key : string;
  gu_name : string;
  gu_project_dir : string;
  gu_state : RunLifecycle;
  gu_port : option Z;
  gu_url : option string;
}.

Definition global_summary (global : GlobalRecord) : GlobalSummary :=
  mkGlobalSummary (gr_key global) (gr_name global) (to_string_lossy (gr_project_dir global))
    (gr_state global) (sl_port (sv_launch (gr_service global))) (sl_url (sv_launch (gr_service global))).

Definition queries_list_globals (globals : list GlobalRecord) : list GlobalSummary :=
  map global_summary globals.

Definition run_summary (run : RunRecord) : RunSummary :=
  mkRunSummary (rr_run_id run) (rr_stack run) (to_string_lossy (rr_project_dir run)) (rr_state run)
    (rr_created_at run) (rr_stopped_at run).

Definition queries_list_runs (runs : RunMap) : list RunSummary := map run_summary (list_runs runs).

Record WatchServiceStatus := mkWatchServiceStatus {
  ws_auto_restart : bool;
  ws_active : bool;
  ws_paused : bool;
}.

Record RunWatchResponse := mkRunWatchResponse {
  rw_run_id : string;
  rw_services : bmap string WatchServiceStatus;
}.

Definition watch_service_status (service : ServiceRecord) : WatchServiceStatus :=
  mkWatchServiceStatus (ss_auto_restart (sv_spec service)) (watch_active service)
    (sr_watch_paused (sv_runtime service)).

Definition run_not_found (run_id : string) : AppError := NotFound ("run " +:+ run_id +:+ " not found").

Definition build_watch_status (runs : RunMap) (run_id : string) : AppResult RunWatchResponse :=
  match with_run run_id (fun run =>
          mkRunWatchResponse run_id (bmap_values (fun _ => watch_service_status) (rr_services run))) runs with
  | Ok response => inl response
  | _ => inr (run_not_found run_id)
  end.

(** ** Logs *)

Section logs.
Context `{J : Json} `{SearchIndex} `{StateCodec} `{Searcher}.
Context (unicode_digit : bytes -> bool) (parse_rfc3339 : string -> option Z).
(** The files of the logs as the index reads them, and whether a path exists. *)
Context (env : LogEnv) (exists_ : string -> bool).

Abbreviation Index := (LogIndex (Response := LogViewResponse)).

Definition no_lines : LogsResponse := mkLogsResponse [] false 0 0 0 None 0.

Definition read_service_logs (runs : RunMap) (run_id service : string) (query : LogsQuery) (st : Index)
    : AppResult LogsResponse * Index :=
  match with_run run_id (fun run => sl_log_path <$> (sv_launch <$> bget service (rr_services run))) runs with
  | Ok (Some log_path) =>
      if negb (exists_ log_path) then (inl no_lines, st) else
      let '(o, st) := search_service unicode_digit parse_rfc3339 env run_id service log_path query st in
      (join_blocking "log search task failed" map_log_index_error o, st)
  | Ok None => (inr (NotFound ("service " +:+ service +:+ " not found")), st)
  | _ => (inr (run_not_found run_id), st)
  end.

(** An entry of the directory of the logs of the tasks: its path, and whether it is a file. *)
Definition task_source (run_id : string) (sources : list LogSource) (entry : outcome (string * outcome bool))
    : outcome (list LogSource) :=
  '(path, is_file) ← entry;
  is_file ← is_file;
  if negb is_file then Ok sources else
  if negb (bool_decide (extension path = Some "log")) then Ok sources else
  match file_stem <$> file_name path with
  | Some name => if utf8_valid (to_bytes name)
                 then Ok (sources ++ [mkSource run_id ("task:" +:+ name) path]) else Ok sources
  | None => Ok sources
  end.

Definition source_le (left right : LogSource) : bool := str_le (ls_service left) (ls_service right).

Definition discover_task_log_sources (base_dir : outcome string)
    (read_dir : string -> outcome (list (outcome (string * outcome bool)))) (run_id : string)
    : outcome (list LogSource) :=
  task_logs_dir ← run_task_logs_dir base_dir run_id;
  if negb (exists_ task_logs_dir) then Ok [] else
  entries ← read_dir task_logs_dir;
  sources ← ofold (task_source run_id) entries [];
  Ok (sort_by source_le sources).

Definition run_sources (run_id : string) (run : RunRecord) : list LogSource :=
  map (fun '(service, record) => mkSource run_id service (sl_log_path (sv_launch record))) (rr_services run).

Definition logs_view (base_dir : outcome string)
    (read_dir : string -> outcome (list (outcome (string * outcome bool))))
    (runs : RunMap) (run_id : string) (query : LogViewQuery) (st : Index)
    : AppResult LogViewResponse * Index :=
  match with_run run_id (run_sources run_id) runs with
  | Ok sources =>
      match discover_task_log_sources base_dir read_dir run_id with
      | Ok task_sources =>
          let '(o, st) :=
            mbind (M := LogM) (fun _ => query_view parse_rfc3339 run_id query)
              (ingest_sources unicode_digit parse_rfc3339 env (sources ++ task_sources)) st in
          (join_blocking "log view task failed" map_log_index_error o, st)
      | Err err => (inr (Internal err), st)
      | _ => (inr (Internal "panic"), st)
      end
  | _ => (inr (run_not_found run_id), st)
  end.
End logs.

(** ** What an answer says *)

Section said.
Context `{J : Json} `{SearchIndex} `{StateCodec} `{Searcher}.
Context (unicode_digit : bytes -> bool) (parse_rfc3339 : string -> option Z).

Abbreviation Index := (LogIndex (Response := LogViewResponse)).

(** The search fails only for its text. *)
Lemma search_lines_err run_id service query (st : Index) e :
  search_lines parse_rfc3339 run_id service query st = Err e ->
  exists text err, lf_search (lq_filter query) = Some text /\ parse_query (str_trim text) = Err err /\
    e = "bad_query: " +:+ err.
Proof.
  unfold search_lines, add_text_query. destruct (lf_search (lq_filter query)) as [text|]; [|done].
  destruct (bool_decide (str_trim text = "")); [done|].
  destruct (parse_query (str_trim text)) as [parsed|err| |] eqn:Hp; try done. intros [= <-]. by exists text, err.
Qed.

Lemma bad_query_told err :
  map_log_index_error ("bad_query: " +:+ err) = BadRequest (str_trim (" " +:+ err)).
Proof.
  unfold map_log_index_error.
  assert (strip_prefix (to_bytes "bad_query:") (to_bytes ("bad_query: " +:+ err))
    = Some (to_bytes (" " +:+ err))) as -> by (apply strip_prefix_Some; by rewrite <- to_bytes_app).
  by rewrite of_to_bytes.
Qed.

Lemma trim_space s : trim (" "%char :: s) = trim s.
Proof. reflexivity. Qed.

Lemma str_trim_space s : str_trim (" " +:+ s) = str_trim s.
Proof. unfold str_trim. rewrite to_bytes_app. change (to_bytes " ") with [" "%char]. cbn [app]. by rewrite trim_space. Qed.

(** The status of an answer to a request for the lines of a service tells what went wrong.
    404 means that the run is not known or has no such service; 400 means that the text of the
    search does not parse, with the complaint of its parser; 500 that the log could not be read
    into the index or that its task panicked. Otherwise the answer is the search on the index
    brought up to date with the file, or empty when there is no file. *)
Theorem log_request_told (env : LogEnv) (exists_ : string -> bool) (runs : RunMap)
    run_id service query st answer st' :
  read_service_logs unicode_digit parse_rfc3339 env exists_ runs run_id service query st = (answer, st') ->
  let record := run ← bget run_id runs; bget service (rr_services run) in
  let ingested path :=
    ingest_sources unicode_digit parse_rfc3339 env [mkSource run_id service path] st in
  match answer with
  | inl response =>
      exists r, record = Some r /\
        let path := sl_log_path (sv_launch r) in
        if exists_ path then
          exists st1, ingested path = (Ok tt, st1) /\
            search_lines parse_rfc3339 run_id service query st1 = Ok response
        else response = no_lines /\ st' = st
  | inr error =>
      (app_error_status error = 404%Z <-> record = None) /\
      (app_error_status error = 400%Z ->
       exists r, record = Some r /\
         ((exists text err, lf_search (lq_filter query) = Some text /\
             parse_query (str_trim text) = Err err /\ error = BadRequest (str_trim err)) \/
          (exists e, (ingested (sl_log_path (sv_launch r))).1 = Err e /\ error = map_log_index_error e))) /\
      (app_error_status error = 500%Z ->
       exists r o, record = Some r /\ (ingested (sl_log_path (sv_launch r))).1 = o /\
         (o <> Ok tt \/ error = Internal "log search task failed"))
  end.
Proof.
  intros Ha record ingested. subst record ingested. unfold read_service_logs, with_run in Ha.
  destruct (bget run_id runs) as [run|]; cbn [mbind option_bind];
    [|injection Ha as <- <-; by split_and!].
  destruct (bget service (rr_services run)) as [r|]; cbn [fmap option_fmap option_map] in *;
    [|injection Ha as <- <-; by split_and!].
  destruct (exists_ (sl_log_path (sv_launch r))) eqn:Hex; cbn [negb] in Ha;
    [|injection Ha as <- <-; exists r; cbn zeta; by rewrite Hex].
  unfold search_service in Ha. cbn zeta. unfold mbind in Ha at 1. unfold st_bind in Ha.
  destruct (ingest_sources _ _ _ _ st) as [[[]|e| |] st1] eqn:Hi; cbn [join_blocking] in Ha; revert Ha.
  - destruct (search_lines _ _ _ _ st1) as [response|e| |] eqn:Hs; cbn [join_blocking]; intros [= <- <-].
    + exists r. split; [done|]. rewrite Hex. by exists st1.
    + destruct (search_lines_err _ _ _ _ _ Hs) as (text & err & Ht & Hp & ->).
      rewrite bad_query_told, str_trim_space. split_and!; [done| |done]. intros _. exists r. split; [done|].
      left. by exists text, err.
    + split_and!; [done..|]. intros _. exists r, (Ok tt). split_and!; [done|by rewrite Hi|by right].
    + split_and!; [done..|]. intros _. exists r, (Ok tt). split_and!; [done|by rewrite Hi|by right].
  - intros [= <- <-]. assert (record_error : app_error_status (map_log_index_error e) <> 404%Z)
      by (unfold map_log_index_error; by destruct (strip_prefix _ _)).
    split_and!; [done| |].
    + intros _. exists r. split; [done|]. right. exists e. by rewrite Hi.
    + intros _. exists r, (Err e). split_and!; [done|by rewrite Hi|by left].
  - intros [= <- <-]. split_and!; [done..|]. intros _. exists r, Panic. split_and!; [done|by rewrite Hi|by left].
  - intros [= <- <-]. split_and!; [done..|]. intros _. exists r, OutOfFuel. split_and!; [done|by rewrite Hi|by left].
Qed.
End said.

(** ** A concrete request *)

#[local] Existing Instance list_index.
#[local] Existing Instance tree_codec.
#[local] Existing Instance concrete_json.

(** A search whose texts must not begin with a parenthesis. *)
#[local] Instance strict_search : Searcher :=
  {| top_docs f up n docs :=
       take n (sort_by (fun a b => if up : bool then (f a <=? f b)%Z else (f b <=? f a)%Z) docs);
     parse_query text := if starts_with "(" text then Err "unbalanced" else Ok (fun d => contains_sub text (pd_message d)) |}.

Definition logged_web : ServiceRecord :=
  ServiceRecord_new (mkServiceSpec "web" [] (ConfigModel.ReadinessSpec_new ConfigModel.NoReadiness) false [] [])
    (mkServiceLaunchPlan "u" "/p" [] "run" "/web.log" None None "http" None false 0 [] "h" [] []).

Definition logged_runs : RunMap :=
  [("run", mkRunRecord "run" "dev" "/p" "/p" [] [("web", logged_web)] RunRunning "t0" None)].

Definition ask_logs (run_id : string) (search : option string)
    : AppResult LogsResponse * LogIndex (Response := LogViewResponse) :=
  read_service_logs (fun _ => false) (fun _ => None) (sample_env sample_text (Ok tt)) (fun _ => true)
    logged_runs run_id "web" (mkLogsQuery (mkLogFilterQuery None None search None None) None)
    (mkLogIndex ([], []) ingest_state_default None [] 0).

Lemma log_request_told_witness :
  (ask_logs "other" None).1 = inr (NotFound "run other not found") /\
  (ask_logs "run" (Some "(a")).1 = inr (BadRequest "unbalanced") /\
  exists text err, Some "(a" = Some text /\ parse_query (str_trim text) = Err err /\
    BadRequest "unbalanced" = BadRequest (str_trim err).
Proof.
  split; [reflexivity|]. assert ((ask_logs "run" (Some "(a")).1 = inr (BadRequest "unbalanced")) as Ha
    by (vm_compute; reflexivity).
  split; [exact Ha|].
  pose proof (log_request_told (fun _ => false) (fun _ => None) (sample_env sample_text (Ok tt))
    (fun _ => true) logged_runs "run" "web" (mkLogsQuery (mkLogFilterQuery None None (Some "(a") None None) None)
    (mkLogIndex ([], []) ingest_state_default None [] 0) _ _ (surjective_pairing (ask_logs "run" (Some "(a"))))
    as Hold.
  rewrite Ha in Hold. destruct Hold as (_ & H400 & _).
  destruct (H400 eq_refl) as (r & Hr & [(text & err & Ht & Hp & He)|(e & He & _)]); [exists text, err; exact (conj Ht (conj Hp He))|].
  injection Hr as <-. vm_compute in He. discriminate He.
Defined.
