(* ===== verification/CliCommands.v ===== *)
(** * The other commands

    Models [src/cli/commands/lifecycle.rs], [sources.rs], [projects.rs] and [tasks.rs] as
    programs ([Program]) over the requests to the daemon, what is shown, and the files and
    processes of the command itself.  [CliContext] holds what their arguments mean. An [Ask]
    is answered in its type; an answer that cannot be read is an error of the request. *)

From stdpp Require Import gmap.
From S2P Require Import Prelude Bytes BMap Util Json Program ConfigModel ConfigPlan ConfigValidate RunModel Manifest.
From S2P Require Import Lifecycle Commands Tasks Sources SourceIngest Projects Diagnose LogQuery CliContext CliLogs LogCommand Queries.
From Stdlib Require Import Lia ZArith.

(** ** Requests *)

Record SetNavigationIntentRequest := mkSetNavigationIntentRequest {
  sn_run_id : option string;
  sn_service : option string;
  sn_search : option string;
  sn_level : option string;
  sn_stream : option string;
  sn_since : option string;
  sn_last : option nat;
}.

Record StartTaskRequest := mkStartTaskRequest {
  st_project_dir : string;
  st_file : option string;
  st_task : string;
  st_args : list string;
}.

Record StartTaskResponse := mkStartTaskResponse {
  sk_execution_id : string;
  sk_task : string;
  sk_run_id : option string;
}.

Record TaskStatusResponse := mkTaskStatusResponse {
  tk_execution_id : string;
  tk_task : string;
  tk_state : TaskExecutionState;
  tk_project_dir : string;
  tk_run_id : option string;
  tk_started_at : string;
  tk_finished_at : option string;
  tk_exit_code : option Z;
  tk_duration_ms : Z;
}.

Record GcResponse := mkGcResponse { gc_removed_runs : list string; gc_removed_globals : list string }.

Inductive WatchAction := Pause (service : option string) | Resume (service : option string).

(** The requests of the commands, by what they are answered with. *)
Inductive Request : Type -> Type :=
  | Up (request : UpRequest) : Request RunResponse
  | StatusOf (run_id : string) : Request RunStatus
  | ListRuns : Request (list RunSummary)
  | WatchStatus (run_id : string) : Request RunWatchResponse
  | WatchControl (run_id action : string) (service : option string) : Request RunWatchResponse
  | SetIntent (request : SetNavigationIntentRequest) : Request unit
  | Down (run_id : string) (purge : bool) : Request RunResponse
  | Kill (run_id : string) : Request RunResponse
  | Gc (older_than : option string) (all : bool) : Request GcResponse
  | AddSource (request : AddSourceRequest) : Request unit
  | RemoveSource (name : string) : Request unit
  | TaskStatus (execution_id : string) : Request TaskStatusResponse
  | StartTask (request : StartTaskRequest) : Request StartTaskResponse
  | ListProjects : Request (list ProjectSummary)
  | RegisterProject (path : string) : Request ProjectSummary
  | RemoveProject (project_id : string) : Request unit.

Inductive Method := GET | POST | DELETE.

Definition request_method {A} (r : Request A) : Method :=
  match r with
  | StatusOf _ | ListRuns | WatchStatus _ | TaskStatus _ | ListProjects => GET
  | RemoveSource _ | RemoveProject _ => DELETE
  | _ => POST
  end.

Definition request_path {A} (r : Request A) : string :=
  match r with
  | Up _ => "/v1/runs/up"
  | StatusOf run_id => "/v1/runs/" +:+ run_id +:+ "/status"
  | ListRuns => "/v1/runs"
  | WatchStatus run_id => "/v1/runs/" +:+ run_id +:+ "/watch"
  | WatchControl run_id action _ => "/v1/runs/" +:+ run_id +:+ "/watch/" +:+ action
  | SetIntent _ => "/v1/navigation/intent"
  | Down _ _ => "/v1/runs/down"
  | Kill _ => "/v1/runs/kill"
  | Gc _ _ => "/v1/gc"
  | AddSource _ => "/v1/sources"
  | RemoveSource name => "/v1/sources/" +:+ name
  | TaskStatus execution_id => "/v1/tasks/" +:+ execution_id
  | StartTask _ => "/v1/tasks/run"
  | ListProjects => "/v1/projects"
  | RegisterProject _ => "/v1/projects/register"
  | RemoveProject project_id => "/v1/projects/" +:+ project_id
  end.

(** ** Effects *)

(** What is printed: for a person, in the compact form for programs, or as a warning. *)
Inductive Printed :=
  | RunsStarted (answers : list RunResponse)
  | RunAnswer (answer : RunResponse)
  | RunStatusShown (status : RunStatus)
  | WatchShown (status : RunWatchResponse)
  | Diagnosis (response : DiagnoseResponse)
  | RunList (runs : list RunSummary)
  | Collected (response : GcResponse)
  | SourceList (sources : list SourceEntry)
  | SourceSummaries (sources : list SourceSummary)
  | SourceDone (name : string)
  | ProjectList (projects : list ProjectSummary)
  | ProjectRegistered (project : ProjectSummary)
  | ProjectRemoved (project project_id : string)
  | TaskShown (status : TaskStatusResponse)
  | TaskStarted_ (response : StartTaskResponse)
  | InitDone (stack : string)
  | TaskNames (tasks : bmap string TaskConfig)
  | TaskDone (task : string) (result : TaskResult)
  | Note (text : string).

Inductive Audience := Person | Machine | Errors.

(** Where a task of the command keeps its log and its history. *)
Inductive TaskExecutionTarget := TargetRun (run_id : string) | TargetAdHoc.

Inductive CliE : Type -> Type :=
  | Ask {A} (r : Request A) : CliE (outcome A)
  | Print (audience : Audience) (what : Printed) : CliE unit
  | DaemonIsRunning : CliE bool
  | LoadLedger : CliE (outcome SourcesLedger)
  | AddToLedger (name : string) (paths : list string) (retention_seconds : option Z) : CliE (outcome unit)
  | RemoveFromLedger (name : string) : CliE (outcome bool)
  | RefreshSourceIndex (name : string) : CliE (outcome unit)
  | RunInitTasks (target : TaskExecutionTarget) (history_path : string) (init : list string)
      : CliE (outcome unit)
  | RunTask (target : TaskExecutionTarget) (history_path task : string) (config : TaskConfig)
      (args : list string) : CliE (outcome TaskResult)
  | Exec (program : string) (args : list string) (dir : string) (env : bmap string string)
      : CliE (outcome (option Z))
  | OpenBrowser : CliE unit
  | ExitWith (code : Z) : CliE unit.

Abbreviation cmd := (prog CliE).

Definition ask {A} (r : Request A) : cmd A := try_trigger (Ask r).
Definition print (interactive : bool) (what : Printed) : cmd unit :=
  trigger (Print (if interactive then Person else Machine) what).
Definition print_toon (what : Printed) : cmd unit := trigger (Print Machine what).
Definition warn (text : string) : cmd unit := trigger (Print Errors (Note text)).

(** ** Commands *)

Section commands.
(** The process and its files, as [CliContext] takes them. *)
Context (interactive : bool) (cwd : outcome string) (home : option string).
Context (exists_ is_file : string -> bool) (debug : string -> string).
Context (parse_yaml parse_toml : bytes -> outcome ConfigFile) (read : string -> outcome bytes).
Context (canonicalize : string -> option string) (parse_rfc3339 : string -> option Z).
Context (runs_dir : outcome string) (read_dir : string -> outcome (list (outcome string))).
Context (load_manifest : string -> outcome PersistedRun) (run_manifest_path : string -> outcome string).
Context (base_dir : outcome string) (blake3_hex : string -> string).
Context (parse_duration : string -> option Z) (timestamp_ago : Z -> outcome string).
Context (parse_retention : string -> outcome Z) (max_age : Z).
Context (diagnose : string -> RunStatus -> PersistedRun -> option string -> outcome DiagnoseResponse).

Definition resolve_project_context (project file : option string) : outcome ProjectContext :=
  cwd ← cwd; resolve_project_context_with_cwd home exists_ is_file cwd project file.

Definition resolve_project_dir_from_cwd : outcome string :=
  context ← resolve_project_context None None; Ok (pj_project_dir context).

(** The runs the daemon knows, or else those on disk. *)
Definition cli_fetch_runs : cmd (list RunSummary * bool) :=
  daemon ← attempt (ask ListRuns);
  Ret (fetch_runs_with_fallback runs_dir exists_ read_dir load_manifest daemon).

Definition cli_resolve_run_id (project_dir : string) (run_id : option string) : cmd string :=
  match run_id with
  | Some run_id => mret run_id
  | None =>
      runs ← cli_fetch_runs;
      latest ← Ret (ok_or (select_latest_run canonicalize parse_rfc3339 runs.1 project_dir)
        ("no runs found for project " +:+ project_dir +:+ " (use --run or devstack ls --all)"));
      mret (rm_run_id latest)
  end.

(** The run a command is about, in the project of the working directory. *)
Definition the_run (run_id : option string) : cmd string :=
  project_dir ← Ret resolve_project_dir_from_cwd; cli_resolve_run_id project_dir run_id.

Definition split_up_targets (targets : list string) : option string * list string :=
  match targets with
  | [] => (None, [])
  | [stack] => (Some stack, [])
  | stack :: services => (Some stack, services)
  end.

Record UpArgs := mkUpArgs {
  ua_targets : list string;
  ua_stack_flag : option string;
  ua_new : bool;
  ua_force : bool;
  ua_all : bool;
  ua_project : option string;
  ua_run_id : option string;
  ua_file : option string;
  ua_no_wait : bool;
}.

Definition up (args : UpArgs) : cmd unit :=
  let '(stack_positional, services) := split_up_targets (ua_targets args) in
  let stack := match ua_stack_flag args with Some stack => Some stack | None => stack_positional end in
  '(resolved_context, stack) ← Ret (cwd ← cwd;
    resolve_up_context home exists_ is_file cwd stack (ua_project args) (ua_file args));
  let project_dir := pj_project_dir resolved_context in
  let config_path := pj_config_path resolved_context in
  if ua_all args then
    config_path ← Ret (ok_or config_path "no devstack config found; run devstack init or pass --file");
    config ← Ret (load_cli_config debug parse_yaml parse_toml read config_path);
    runs ← pfold (fun runs stack_name =>
        response ← ask (Up (mkUpRequest stack_name (to_string_lossy project_dir) None
          (Some (to_string_lossy config_path)) (ua_no_wait args) (ua_new args) (ua_force args) []));
        mret (runs ++ [response])) (stack_names config) [];
    print_toon (RunsStarted runs)
  else
    stack ← Ret (resolve_stack_name is_file debug parse_yaml parse_toml read stack config_path);
    response ← ask (Up (mkUpRequest stack (to_string_lossy project_dir) (ua_run_id args)
      (to_string_lossy <$> config_path) (ua_no_wait args) (ua_new args) (ua_force args) services));
    print interactive (RunAnswer response).

Definition status (run_id : option string) : cmd unit :=
  run_id ← the_run run_id;
  answer ← attempt (ask (StatusOf run_id));
  match answer with
  | Ok status => print interactive (RunStatusShown status)
  | Err err =>
      match status_from_manifest load_manifest run_manifest_path run_id with
      | Ok fallback =>
          _ ← warn ("warning: daemon unavailable (" +:+ err +:+ "); using cached manifest");
          print interactive (RunStatusShown fallback)
      | Err _ => Ret (Err err)
      | Panic => Ret Panic
      | OutOfFuel => Ret OutOfFuel
      end
  | Panic => Ret Panic
  | OutOfFuel => Ret OutOfFuel
  end.

Definition watch (action : option WatchAction) : cmd unit :=
  run_id ← the_run None;
  status ← match action with
           | None => ask (WatchStatus run_id)
           | Some (Pause service) => ask (WatchControl run_id "pause" service)
           | Some (Resume service) => ask (WatchControl run_id "resume" service)
           end;
  print interactive (WatchShown status).

Definition diagnose_command (run_id service : option string) : cmd unit :=
  run_id ← the_run run_id;
  status ← ask (StatusOf run_id);
  manifest_path ← Ret (run_manifest_path run_id);
  manifest ← Ret (load_manifest manifest_path);
  response ← Ret (diagnose run_id status manifest service);
  print_toon (Diagnosis response).

Definition list_runs (all : bool) : cmd unit :=
  project_dir ← Ret resolve_project_dir_from_cwd;
  '(runs, fallback) ← cli_fetch_runs;
  let runs := if all then runs
              else List.filter (fun run => run_in_project canonicalize (rm_project_dir run) project_dir) runs in
  _ ← (if fallback : bool then warn "warning: daemon unavailable; showing cached manifests" else mret tt);
  print_toon (RunList runs).

Definition show_command (run_id service q level stream since : option string) (tail : option nat) : cmd unit :=
  project_dir ← Ret resolve_project_dir_from_cwd;
  resolved_run_id ← match run_id with
                    | Some run_id => mret (Some run_id)
                    | None =>
                        runs ← cli_fetch_runs;
                        mret (rm_run_id <$> select_latest_run canonicalize parse_rfc3339 runs.1 project_dir)
                    end;
  since ← Ret (normalize_since_arg parse_rfc3339 parse_duration timestamp_ago since);
  _ ← ask (SetIntent (mkSetNavigationIntentRequest resolved_run_id service q level stream since tail));
  trigger OpenBrowser.

Definition down (run_id : option string) (purge : bool) : cmd unit :=
  run_id ← the_run run_id; response ← ask (Down run_id purge); print_toon (RunAnswer response).

Definition kill (run_id : option string) : cmd unit :=
  run_id ← the_run run_id; response ← ask (Kill run_id); print_toon (RunAnswer response).

Definition gc (older_than : option string) (all : bool) : cmd unit :=
  response ← ask (Gc older_than all); print_toon (Collected response).

Definition exec_command (run_id : string) (command : list string) : cmd unit :=
  match command with
  | [] => Ret (Err "exec requires a command")
  | program :: args =>
      manifest_path ← Ret (run_manifest_path run_id);
      manifest ← Ret (load_manifest manifest_path);
      code ← try_trigger (Exec program args (pr_project_dir manifest) (pr_env manifest));
      trigger (ExitWith (default 1%Z code))
  end.

Definition exec (run_id : option string) (command : list string) : cmd unit :=
  run_id ← the_run run_id; exec_command run_id command.

(** ** Sources *)

Inductive SourcesAction := SourcesLs | SourcesAdd (name : string) (paths : list string) (retention : option string)
  | SourcesRm (name : string).

Definition sources_run (action : option SourcesAction) : cmd unit :=
  match default SourcesLs action with
  | SourcesLs =>
      ledger ← try_trigger LoadLedger;
      let sources := bvalues ledger in
      if interactive then print true (SourceList sources)
      else print_toon (SourceSummaries (map (fun entry => SourceIngest.source_summary entry max_age) sources))
  | SourcesAdd name paths retention =>
      patterns ← Ret (absolutize_source_patterns home cwd paths);
      retention_seconds ← Ret (parse_retention_seconds parse_retention debug retention);
      running ← trigger DaemonIsRunning;
      _ ← (if running : bool
           then ask (AddSource (mkAddSourceRequest name patterns retention))
           else _ ← try_trigger LoadLedger;
                _ ← try_trigger (AddToLedger name patterns retention_seconds);
                try_trigger (RefreshSourceIndex name));
      print interactive (SourceDone name)
  | SourcesRm name =>
      running ← trigger DaemonIsRunning;
      _ ← (if running : bool
           then ask (RemoveSource name)
           else _ ← try_trigger LoadLedger;
                removed ← try_trigger (RemoveFromLedger name);
                if negb removed then Ret (Err ("source not found: " +:+ name)) else
                try_trigger (RefreshSourceIndex name));
      print interactive (SourceDone name)
  end.

(** ** Projects *)

Inductive ProjectsAction := ProjectsLs | ProjectsAdd (path : string) | ProjectsRemove (project : string).

(** The project that was meant: by its id, or else by its path or its name. *)
Definition find_project (project : string) (projects : list ProjectSummary) : outcome string :=
  match List.find (fun item => bool_decide (pm_id item = project)) projects with
  | Some found => Ok (pm_id found)
  | None =>
      match List.find (fun item => bool_decide (pm_path item = project)
                                   || bool_decide (pm_name item = project)) projects with
      | Some found => Ok (pm_id found)
      | None => Err ("project not found: " +:+ project)
      end
  end.

Definition projects_run (action : option ProjectsAction) : cmd unit :=
  match default ProjectsLs action with
  | ProjectsLs => projects ← ask ListProjects; print interactive (ProjectList projects)
  | ProjectsAdd path =>
      abs_path ← Ret (ok_or (canonicalize path) ("path does not exist: " +:+ path));
      registered ← ask (RegisterProject (to_string_lossy abs_path));
      print interactive (ProjectRegistered registered)
  | ProjectsRemove project =>
      projects ← ask ListProjects;
      project_id ← Ret (find_project project projects);
      _ ← ask (RemoveProject project_id);
      print interactive (ProjectRemoved project project_id)
  end.

(** ** Tasks *)

Record RunArgs := mkRunArgs {
  ra_name : option string;
  ra_init : bool;
  ra_stack : option string;
  ra_project : option string;
  ra_file : option string;
  ra_detach : bool;
  ra_status : option string;
  ra_args : list string;
}.

Definition history_path (target : TaskExecutionTarget) (project_dir : string) : outcome string :=
  match target with
  | TargetRun run_id => task_history_path base_dir run_id
  | TargetAdHoc => ad_hoc_task_history_path base_dir blake3_hex project_dir
  end.

Definition resolve_task_execution_target (project_dir : string) : cmd TaskExecutionTarget :=
  runs ← cli_fetch_runs;
  mret (match select_latest_active_run canonicalize parse_rfc3339 runs.1 project_dir with
        | Some run => TargetRun (rm_run_id run)
        | None => TargetAdHoc
        end).

(** The init tasks of the services of a stack, in the order of its plan; whether any ran. *)
Definition init_service (target : TaskExecutionTarget) (path : string)
    (services : bmap string ServiceConfig) (ran_any : bool) (svc_name : string) : cmd bool :=
  svc ← Ret (unwrap (bget svc_name services));
  match sc_init svc with
  | Some (task :: tasks) => _ ← try_trigger (RunInitTasks target path (task :: tasks)); mret true
  | _ => mret ran_any
  end.

Definition init_tasks (target : TaskExecutionTarget) (path : string) (plan : StackPlan) : cmd bool :=
  pfold (init_service target path (sp_services plan)) (sp_order plan) false.

Definition tasks_run (args : RunArgs) : cmd unit :=
  match ra_status args with
  | Some execution_id => status ← ask (TaskStatus execution_id); print interactive (TaskShown status)
  | None =>
      resolved_context ← Ret (resolve_project_context (ra_project args) (ra_file args));
      config_path ← Ret (ok_or (pj_config_path resolved_context)
        "no devstack config found; run devstack init or pass --file");
      if negb (is_file config_path)
      then Ret (Err ("config not found at " +:+ to_string_lossy config_path
                     +:+ "; run devstack init or pass --file")) else
      config ← Ret (load_cli_config debug parse_yaml parse_toml read config_path);
      let project_dir := pj_project_dir resolved_context in
      let tasks_map := default [] (cf_tasks config) in
      if ra_init args then
        target ← resolve_task_execution_target project_dir;
        stack_name ← Ret (resolve_stack_name is_file debug parse_yaml parse_toml read (ra_stack args)
          (Some config_path));
        plan ← Ret (stack_plan config stack_name);
        path ← Ret (history_path target project_dir);
        ran_any ← init_tasks target path plan;
        _ ← (if ran_any : bool then mret tt
             else warn ("no init tasks defined for stack '" +:+ stack_name +:+ "'"));
        if interactive then mret tt else print_toon (InitDone stack_name)
      else if ra_detach args && negb (given (ra_name args))
      then Ret (Err "--detach requires a task name")
      else
        match ra_name args with
        | None =>
            if bool_decide (tasks_map = [])
            then warn ("no tasks defined in " +:+ to_string_lossy config_path)
            else print interactive (TaskNames tasks_map)
        | Some task_name =>
            if ra_detach args then
              response ← ask (StartTask (mkStartTaskRequest (to_string_lossy project_dir)
                (Some (to_string_lossy config_path)) task_name (ra_args args)));
              print interactive (TaskStarted_ response)
            else
              target ← resolve_task_execution_target project_dir;
              task ← Ret (ok_or (bget task_name tasks_map) ("unknown task '" +:+ task_name +:+ "'"));
              path ← Ret (history_path target project_dir);
              result ← try_trigger (RunTask target path task_name task (ra_args args));
              _ ← print interactive (TaskDone task_name result);
              if success result then mret tt else trigger (ExitWith (tr_exit_code result))
        end
  end.
End commands.

(** ** What commands do *)

(** What changes something: a request that is not a GET, a write of the command itself, a
    process or a task it runs, a browser it opens. *)
Inductive Act :=
  | Requested (method : Method) (path : string)
  | Wrote (name : string)
  | RanTask
  | RanProcess
  | OpenedBrowser.

Definition act_of (ev : event CliE) : option Act :=
  match ev with
  | Ev e _ =>
      match e with
      | Ask r => match request_method r with GET => None | m => Some (Requested m (request_path r)) end
      | Print _ _ | DaemonIsRunning | LoadLedger | ExitWith _ => None
      | AddToLedger name _ _ | RemoveFromLedger name | RefreshSourceIndex name => Some (Wrote name)
      | RunInitTasks _ _ _ | RunTask _ _ _ _ _ => Some RanTask
      | Exec _ _ _ _ => Some RanProcess
      | OpenBrowser => Some OpenedBrowser
      end
  end.

#[local] Abbreviation still := (quiet act_of).

Lemma still_ask {A} (r : Request A) : request_method r = GET -> still (ask r).
Proof. intros Hr. apply quiet_try. intros x. unfold act_of. by rewrite Hr. Qed.

Lemma still_print interactive what : still (print interactive what).
Proof. by apply quiet_trigger. Qed.

Lemma still_toon what : still (print_toon what).
Proof. by apply quiet_trigger. Qed.

Lemma still_warn text : still (warn text).
Proof. by apply quiet_trigger. Qed.

Lemma still_mret {A} (a : A) : still (mret a).
Proof. done. Qed.

#[local] Hint Resolve still_mret still_ask still_print still_toon still_warn : quiet.
#[local] Hint Extern 2 (quiet _ (match ?x with _ => _ end)) => destruct x : quiet.
#[local] Hint Extern 3 (quiet _ _) => progress cbn beta iota zeta : quiet.

Section looking.
Context (interactive : bool) (cwd : outcome string) (home : option string).
Context (exists_ is_file : string -> bool) (debug : string -> string).
Context (parse_yaml parse_toml : bytes -> outcome ConfigFile) (read : string -> outcome bytes).
Context (canonicalize : string -> option string) (parse_rfc3339 : string -> option Z).
Context (runs_dir : outcome string) (read_dir : string -> outcome (list (outcome string))).
Context (load_manifest : string -> outcome PersistedRun) (run_manifest_path : string -> outcome string).

Lemma still_fetch_runs : still (cli_fetch_runs exists_ runs_dir read_dir load_manifest).
Proof. unfold cli_fetch_runs. auto with quiet. Qed.

Lemma still_the_run run_id :
  still (the_run cwd home exists_ is_file canonicalize parse_rfc3339 runs_dir read_dir load_manifest run_id).
Proof.
  unfold the_run, cli_resolve_run_id. apply quiet_bind; [auto with quiet|]. intros dir.
  destruct run_id; [auto with quiet|]. apply quiet_bind; [apply still_fetch_runs|auto with quiet].
Qed.
End looking.

(** Commands that look change nothing: whatever the daemon answers and whatever the files
    hold, [status], [watch] without an action, [diagnose], [ls], [sources ls], [projects ls]
    and [run --status] only make requests by GET, and write no file, run no task and no
    process. *)
Theorem looking_changes_nothing interactive cwd home exists_ is_file debug parse_yaml parse_toml read
    canonicalize parse_rfc3339 runs_dir read_dir load_manifest run_manifest_path base_dir blake3_hex
    parse_retention max_age diagnose run_id service all execution_id name init stack project file detach rest :
  still (status interactive cwd home exists_ is_file canonicalize parse_rfc3339 runs_dir read_dir
           load_manifest run_manifest_path run_id) /\
  still (watch interactive cwd home exists_ is_file canonicalize parse_rfc3339 runs_dir read_dir
           load_manifest None) /\
  still (diagnose_command cwd home exists_ is_file canonicalize parse_rfc3339 runs_dir read_dir
           load_manifest run_manifest_path diagnose run_id service) /\
  still (list_runs cwd home exists_ is_file canonicalize runs_dir read_dir load_manifest all) /\
  still (sources_run interactive cwd home debug parse_retention max_age (Some SourcesLs)) /\
  still (projects_run interactive canonicalize (Some ProjectsLs)) /\
  still (tasks_run interactive cwd home exists_ is_file debug parse_yaml parse_toml read canonicalize
           parse_rfc3339 runs_dir read_dir load_manifest base_dir blake3_hex
           (mkRunArgs name init stack project file detach (Some execution_id) rest)).
Proof.
  split_and!.
  - apply quiet_bind; [apply still_the_run|]. intros id. apply quiet_bind; [auto with quiet|].
    intros [answer|err| |]; auto with quiet.
  - apply quiet_bind; [apply still_the_run|auto with quiet].
  - apply quiet_bind; [apply still_the_run|]. intros id. repeat (apply quiet_bind; [auto with quiet|intros ?]).
    auto with quiet.
  - apply quiet_bind; [auto with quiet|]. intros dir. apply quiet_bind; [apply still_fetch_runs|].
    intros [runs []]; repeat (apply quiet_bind; [auto with quiet|intros ?]); auto with quiet.
  - cbn [sources_run default]. apply quiet_bind; [by apply quiet_try|]. intros ledger.
    destruct interactive; auto with quiet.
  - cbn [projects_run default]. apply quiet_bind; auto with quiet.
  - unfold tasks_run. cbn [ra_status]. apply quiet_bind; auto with quiet.
Qed.

(** ** One writer of the sources *)

(** Who changes the sources: whether the command saw a daemon, what it asked of it, what it
    wrote itself. *)
Inductive SourceAct :=
  | Saw (running : bool)
  | AskedDaemon
  | WroteHere.

Definition source_act_of (ev : event CliE) : option SourceAct :=
  match ev with
  | @Ev _ R e r =>
      match e in CliE R return R -> option SourceAct with
      | DaemonIsRunning => fun running => Some (Saw running)
      | Ask _ => fun _ => Some AskedDaemon
      | AddToLedger _ _ _ => fun _ => Some WroteHere
      | RemoveFromLedger _ => fun _ => Some WroteHere
      | RefreshSourceIndex _ => fun _ => Some WroteHere
      | _ => fun _ => None
      end r
  end.

Definition one_writer (acts : list SourceAct) : Prop :=
  acts = [] \/ (exists rest, acts = Saw true :: rest /\ Forall (fun a => a = AskedDaemon) rest)
  \/ (exists rest, acts = Saw false :: rest /\ Forall (fun a => a = WroteHere) rest).

Ltac see_acts :=
  repeat first
    [ progress cbn [seen mbind prog_bind trigger try_trigger ask print print_toon option_list app]
    | match goal with
      | |- context [if ?b then _ else _] => destruct b
      | |- context [Ret ?o ≫= _] => destruct o
      | |- forall r : outcome _, _ => intros []
      | |- forall r, _ => intros r
      end ].

(** The sources have one writer. A command that sees a daemon leaves the ledger and the
    index to it and only asks; one that sees none makes no request and writes both itself; and
    it looks before it does either, whatever the answers. *)
Theorem sources_have_one_writer interactive cwd home debug parse_retention max_age action :
  seen source_act_of (sources_run interactive cwd home debug parse_retention max_age action)
    (fun acts _ => one_writer acts).
Proof.
  assert (forall rest, Forall (fun a => a = AskedDaemon) rest -> one_writer (Saw true :: rest)) as Hasked
    by (intros rest Hr; right; left; by exists rest).
  assert (forall rest, Forall (fun a => a = WroteHere) rest -> one_writer (Saw false :: rest)) as Hwrote
    by (intros rest Hr; right; right; by exists rest).
  assert (one_writer []) as Hnone by by left.
  destruct action as [[|name paths retention|name]|]; unfold sources_run, default, id.
  2: do 2 (apply seen_quiet; [apply quiet_ret|intros ?|intros ?; exact Hnone|exact Hnone..]).
  all: see_acts; cbn; first [exact Hnone | apply Hasked; by repeat constructor | apply Hwrote; by repeat constructor].
Qed.

(** ** Every stack is started *)

Definition started_stack (ev : event CliE) : option string :=
  match ev with Ev (Ask (Up request)) _ => Some (up_stack request) | _ => None end.

Section start_all.
Context (request : string -> UpRequest) (Hstack : forall name, up_stack (request name) = name).

Definition start_one (runs : list RunResponse) (name : string) : cmd (list RunResponse) :=
  response ← ask (Up (request name)); mret (runs ++ [response]).

Lemma start_all_seen names runs (P : list string -> outcome (list RunResponse) -> Prop) :
  (forall done runs' rest, names = done ++ rest -> length runs' = length runs + length done ->
     rest = [] -> P done (Ok runs')) ->
  (forall done name rest o, names = done ++ name :: rest -> (forall a, o <> Ok a) -> P (done ++ [name]) o) ->
  seen started_stack (pfold start_one names runs) P.
Proof.
  revert runs P. induction names as [|name names IH]; intros runs P Hok Hfail.
  - apply (Hok [] runs []); [done|cbn; lia|done].
  - cbn [pfold]. apply seen_bind. unfold start_one at 1. cbn. intros [response|e| |]; cbn; rewrite Hstack.
    + apply IH.
      * intros done runs' rest -> Hlen ->. apply (Hok (name :: done) _ []); [done| |done].
        rewrite Hlen, length_app. cbn. lia.
      * intros done name' rest o -> Ho. by apply (Hfail (name :: done) name' rest).
    + by apply (Hfail [] name names).
    + by apply (Hfail [] name names).
    + by apply (Hfail [] name names).
Qed.
End start_all.

(** [up --all] starts the stacks of the configuration one after the other in the order of
    their names, each once; it stops at the first that is refused, and ends well only when all
    have been started - the run and the services that were named with it are left aside. *)
Theorem up_all_starts_stacks interactive cwd home exists_ is_file debug parse_yaml parse_toml read
    targets stack_flag new force project run_id file no_wait :
  seen started_stack
    (up interactive cwd home exists_ is_file debug parse_yaml parse_toml read
       (mkUpArgs targets stack_flag new force true project run_id file no_wait))
    (fun started o => started = [] /\ (forall u, o <> Ok u) \/
       exists config_path config,
         load_cli_config debug parse_yaml parse_toml read config_path = Ok config /\
         started `prefix_of` stack_names config /\ (o = Ok tt -> started = stack_names config)).
Proof.
  unfold up. cbn [ua_all ua_targets ua_stack_flag ua_project ua_file ua_no_wait ua_new ua_force].
  destruct (split_up_targets targets) as [positional services]. apply seen_quiet; [apply quiet_ret| |by left..]. intros [ctx stack].
  apply seen_quiet; [apply quiet_ret| |by left..]. intros config_path.
  destruct (load_cli_config debug parse_yaml parse_toml read config_path) as [config|e| |] eqn:Hload;
    [|by left..].
  change (Ret (Ok config) ≫= ?f) with (f config). apply seen_bind.
  set (req name := mkUpRequest name (to_string_lossy (pj_project_dir ctx)) None
    (Some (to_string_lossy config_path)) no_wait new force []).
  apply (start_all_seen req (fun _ => eq_refl)).
  - intros done runs rest Hnames _ ->. rewrite app_nil_r in Hnames. cbn. intros u. right.
    exists config_path, config. rewrite app_nil_r, Hnames. by split_and!.
  - intros done name rest o Hnames Ho. assert ((done ++ [name]) `prefix_of` stack_names config) as Hp
      by (exists rest; by rewrite Hnames, <- app_assoc).
    destruct o as [a|e| |]; [by destruct (Ho a)|right; exists config_path, config..]; by split_and!.
Qed.
