(* ===== verification/Routes.v ===== *)
(** * The routes of the daemon

    Models [build_router] of [src/daemon/router.rs], and proves that what the commands and the
    agent ask for arrives at the handlers that were meant.

    The router is third-party code, and so is the decoding of parameters: both are parameters
    here ([take_route], [path_decode]). What is relied on of the router is stated as laws: of
    the patterns that match a path it takes the one that has a name where the others have a
    parameter. *)

From stdpp Require Import gmap.
From S2P Require Import Prelude Bytes BMap Util Json LogIndex LogQuery CliLogs Commands CliCommands.
From Stdlib Require Import Lia ZArith.

(** ** The table *)

Inductive Endpoint :=
  | Ping | RegisterAgentSession | UnregisterAgentSession | PostAgentMessage | PollAgentMessages
  | GetLatestAgentSession | ShareAgentMessage | EventStream | RunsUp | RunsDown | RunsKill
  | RestartService | RunStatusOf | RunsList | StartTask_ | TaskStatusOf | RunTasks | WatchStatusOf
  | WatchPause | WatchResume | Logs | LogsView | GlobalsList | ProjectsList | RegisterProject_
  | RemoveProject_ | SourcesList | AddSource_ | SourceStatus | RemoveSource_ | SourceLogsView
  | GetNavigationIntent | SetNavigationIntent | ClearNavigationIntent | GcRun.

Inductive Segment := Static (name : string) | Param.

Record Route := mkRoute { ro_pattern : list Segment; ro_handlers : list (Method * Endpoint) }.

Abbreviation v1 rest := (Static "v1" :: rest).

Definition build_router : list Route := [
  mkRoute (v1 [Static "ping"]) [(GET, Ping)];
  mkRoute (v1 [Static "agent"; Static "sessions"]) [(POST, RegisterAgentSession)];
  mkRoute (v1 [Static "agent"; Static "sessions"; Param]) [(DELETE, UnregisterAgentSession)];
  mkRoute (v1 [Static "agent"; Static "sessions"; Param; Static "messages"]) [(POST, PostAgentMessage)];
  mkRoute (v1 [Static "agent"; Static "sessions"; Param; Static "messages"; Static "poll"])
    [(GET, PollAgentMessages)];
  mkRoute (v1 [Static "agent"; Static "sessions"; Static "latest"]) [(GET, GetLatestAgentSession)];
  mkRoute (v1 [Static "agent"; Static "share"]) [(POST, ShareAgentMessage)];
  mkRoute (v1 [Static "events"]) [(GET, EventStream)];
  mkRoute (v1 [Static "runs"; Static "up"]) [(POST, RunsUp)];
  mkRoute (v1 [Static "runs"; Static "down"]) [(POST, RunsDown)];
  mkRoute (v1 [Static "runs"; Static "kill"]) [(POST, RunsKill)];
  mkRoute (v1 [Static "runs"; Param; Static "restart-service"]) [(POST, RestartService)];
  mkRoute (v1 [Static "runs"; Param; Static "status"]) [(GET, RunStatusOf)];
  mkRoute (v1 [Static "runs"]) [(GET, RunsList)];
  mkRoute (v1 [Static "tasks"; Static "run"]) [(POST, StartTask_)];
  mkRoute (v1 [Static "tasks"; Param]) [(GET, TaskStatusOf)];
  mkRoute (v1 [Static "runs"; Param; Static "tasks"]) [(GET, RunTasks)];
  mkRoute (v1 [Static "runs"; Param; Static "watch"]) [(GET, WatchStatusOf)];
  mkRoute (v1 [Static "runs"; Param; Static "watch"; Static "pause"]) [(POST, WatchPause)];
  mkRoute (v1 [Static "runs"; Param; Static "watch"; Static "resume"]) [(POST, WatchResume)];
  mkRoute (v1 [Static "runs"; Param; Static "logs"; Param]) [(GET, Logs)];
  mkRoute (v1 [Static "runs"; Param; Static "logs"]) [(GET, LogsView)];
  mkRoute (v1 [Static "globals"]) [(GET, GlobalsList)];
  mkRoute (v1 [Static "projects"]) [(GET, ProjectsList)];
  mkRoute (v1 [Static "projects"; Static "register"]) [(POST, RegisterProject_)];
  mkRoute (v1 [Static "projects"; Param]) [(DELETE, RemoveProject_)];
  mkRoute (v1 [Static "sources"]) [(GET, SourcesList); (POST, AddSource_)];
  mkRoute (v1 [Static "sources"; Param]) [(GET, SourceStatus); (DELETE, RemoveSource_)];
  mkRoute (v1 [Static "sources"; Param; Static "logs"]) [(GET, SourceLogsView)];
  mkRoute (v1 [Static "navigation"; Static "intent"])
    [(GET, GetNavigationIntent); (POST, SetNavigationIntent); (DELETE, ClearNavigationIntent)];
  mkRoute (v1 [Static "gc"]) [(POST, GcRun)]].

(** ** The router *)

#[export] Instance method_eq_dec : EqDecision Method.
Proof. solve_decision. Defined.

(** What a path is answered with. *)
Inductive Dispatched :=
  | Handled (endpoint : Endpoint) (params : list string)
  | MethodNotAllowed
  | NoRoute
  | BadParam.

Fixpoint match_segments (pattern : list Segment) (segments : list string) : option (list string) :=
  match pattern, segments with
  | [], [] => Some []
  | Static name :: pattern, segment :: segments =>
      if String.eqb segment name then match_segments pattern segments else None
  | Param :: pattern, segment :: segments =>
      if String.eqb segment "" then None
      else params ← match_segments pattern segments; Some (segment :: params)
  | _, _ => None
  end.

(** Whether a pattern is preferred to another one. *)
Fixpoint preferred (p q : list Segment) : bool :=
  match p, q with
  | Static _ :: p, Static _ :: q => preferred p q
  | Param :: p, Param :: q => preferred p q
  | Static _ :: _, Param :: _ => true
  | _, _ => false
  end.

Definition matches (segments : list string) (route : Route) : Prop :=
  match_segments (ro_pattern route) segments <> None.

(** The router's choice among the routes, and what is relied on. *)
Class RouterLaws (take_route : list Route -> list string -> option Route) : Prop := {
  take_route_best routes segments route :
    route ∈ routes -> matches segments route ->
    (forall other, other ∈ routes -> matches segments other ->
       other = route \/ preferred (ro_pattern route) (ro_pattern other) = true) ->
    take_route routes segments = Some route;
  take_route_none routes segments :
    (forall route, route ∈ routes -> ~ matches segments route) -> take_route routes segments = None
}.

Section router.
(** The choice among the routes, and the decoding of a parameter. *)
Context (take_route : list Route -> list string -> option Route).
Context (path_decode : string -> option string).

Definition without_query (path : bytes) : bytes :=
  match find_byte (Ascii.eqb "?") path with Some i => take i path | None => path end.

Definition path_segments (path : string) : list string :=
  match without_query (to_bytes path) with
  | "/"%char :: rest => of_bytes <$> split_on "/" rest
  | _ => []
  end.

Definition dispatch (method : Method) (path : string) : Dispatched :=
  let segments := path_segments path in
  match take_route build_router segments with
  | None => NoRoute
  | Some route =>
      match List.find (fun h => bool_decide (h.1 = method)) (ro_handlers route) with
      | None => MethodNotAllowed
      | Some (_, endpoint) =>
          match mapM path_decode (default [] (match_segments (ro_pattern route) segments)) with
          | Some params => Handled endpoint params
          | None => BadParam
          end
      end
  end.
End router.

(** ** What is asked for *)

(** A name that a request path holds as it is. *)
Definition plain (name : string) : Prop := name <> "" /\ forallb unreserved (to_bytes name) = true.

Definition intended {A} (r : Request A) : Endpoint * list string :=
  match r with
  | Up _ => (RunsUp, [])
  | StatusOf run_id => (RunStatusOf, [run_id])
  | ListRuns => (RunsList, [])
  | WatchStatus run_id => (WatchStatusOf, [run_id])
  | WatchControl run_id action _ =>
      (if bool_decide (action = "pause") then WatchPause else WatchResume, [run_id])
  | SetIntent _ => (SetNavigationIntent, [])
  | Down _ _ => (RunsDown, [])
  | Kill _ => (RunsKill, [])
  | Gc _ _ => (GcRun, [])
  | AddSource _ => (AddSource_, [])
  | RemoveSource name => (RemoveSource_, [name])
  | TaskStatus execution_id => (TaskStatusOf, [execution_id])
  | StartTask _ => (StartTask_, [])
  | ListProjects => (ProjectsList, [])
  | RegisterProject _ => (RegisterProject_, [])
  | RemoveProject project_id => (RemoveProject_, [project_id])
  end.

Definition names_ok {A} (r : Request A) : Prop :=
  match r with
  | StatusOf run_id | WatchStatus run_id => plain run_id
  | WatchControl run_id action _ => plain run_id /\ (action = "pause" \/ action = "resume")
  | RemoveSource name => plain name
  | TaskStatus execution_id => plain execution_id /\ execution_id <> "run"
  | RemoveProject project_id => plain project_id /\ project_id <> "register"
  | _ => True
  end.

(** What the agent asks for: the names are encoded. *)
Section agent.
Context `{UrlEncoding}.

Definition encoded_logs_path (run_id service query : string) : string :=
  "/v1/runs/" +:+ url_encode run_id +:+ "/logs/" +:+ url_encode service +:+ "?" +:+ query.

Definition fetch_service_logs_after_path (run_id service : string) (after : Z) : string :=
  encoded_logs_path run_id service ("after=" +:+ show after +:+ "&last=200").

Definition fetch_latest_service_cursor_path (run_id service : string) : string :=
  encoded_logs_path run_id service "last=1".

(** A request of a command or of the agent, by its method and its path, with the handler and
    the names that it is meant for. *)
Inductive client_call : Method -> string -> Endpoint -> list string -> Prop :=
  | call_request A (r : Request A) :
      names_ok r -> client_call (request_method r) (request_path r) (intended r).1 (intended r).2
  | call_logs run_id service query :
      plain run_id -> plain service ->
      client_call GET (service_logs_path run_id service query) Logs [run_id; service]
  | call_view run_id query : plain run_id -> client_call GET (run_view_path run_id query) LogsView [run_id]
  | call_source_view name query :
      plain name -> client_call GET (source_view_path name query) SourceLogsView [name]
  | call_logs_after run_id service after :
      run_id <> "" -> service <> "" ->
      client_call GET (fetch_service_logs_after_path run_id service after) Logs [run_id; service]
  | call_register : client_call POST "/v1/agent/sessions" RegisterAgentSession []
  | call_unregister agent_id :
      plain agent_id -> agent_id <> "latest" ->
      client_call DELETE ("/v1/agent/sessions/" +:+ agent_id) UnregisterAgentSession [agent_id]
  | call_poll agent_id :
      plain agent_id ->
      client_call GET ("/v1/agent/sessions/" +:+ agent_id +:+ "/messages/poll") PollAgentMessages [agent_id]
  | call_cursor run_id service :
      run_id <> "" -> service <> "" ->
      client_call GET (fetch_latest_service_cursor_path run_id service) Logs [run_id; service].
End agent.

(** ** They arrive *)

(** A path by its segments, and what follows them. *)
Definition path_of (segments : list string) (query : string) : string :=
  foldr (fun segment rest => "/" +:+ segment +:+ rest) query segments.

(** A segment neither ends nor becomes a query. *)
Definition bare (segment : string) : Prop :=
  ("/"%char ∉ to_bytes segment) /\ ("?"%char ∉ to_bytes segment).

Definition is_query (query : string) : Prop := query = "" \/ exists q, query = "?" +:+ q.

Lemma to_bytes_path segment rest :
  to_bytes ("/" +:+ segment +:+ rest) = "/"%char :: to_bytes segment ++ to_bytes rest.
Proof. by rewrite !to_bytes_app. Qed.

Lemma path_of_app segments query : path_of segments query = path_of segments "" +:+ query.
Proof.
  apply to_bytes_inj. rewrite to_bytes_app. induction segments as [|segment segments IH]; [done|].
  unfold path_of in *. cbn [foldr]. rewrite !to_bytes_path, IH. cbn [app]. by rewrite <- app_assoc.
Qed.

Lemma path_of_free segments : Forall bare segments -> "?"%char ∉ to_bytes (path_of segments "").
Proof.
  induction 1 as [|segment segments [_ Hq] _ IH]; [by intros ?%elem_of_nil|]. cbn [path_of foldr].
  rewrite to_bytes_path, elem_of_cons, elem_of_app. by intros [[=]|[Hin|Hin]].
Qed.

Lemma without_query_app s query :
  "?"%char ∉ s -> is_query query -> without_query (s ++ to_bytes query) = s.
Proof.
  intros Hs Hq. assert (forallb (fun x => negb (Ascii.eqb "?" x)) s = true) as Hf.
  { apply forallb_forall. intros c Hc. destruct (Ascii.eqb_spec "?" c) as [<-|]; [|done].
    by apply list_elem_of_In in Hc. }
  unfold without_query. destruct Hq as [->|[q ->]].
  - rewrite app_nil_r. apply find_byte_None in Hf. by rewrite Hf.
  - rewrite to_bytes_app. change (to_bytes "?") with ["?"%char]. cbn [app].
    rewrite (proj2 (find_byte_Some _ _ (length s))); [by rewrite take_app_length|].
    by exists s, "?"%char, (to_bytes q).
Qed.

Lemma split_path segments :
  Forall bare segments -> segments <> [] ->
  exists rest, to_bytes (path_of segments "") = "/"%char :: rest /\
    of_bytes <$> split_on "/" rest = segments.
Proof.
  induction 1 as [|segment segments [Hs _] _ IH]; [done|]. intros _. cbn [path_of foldr].
  rewrite to_bytes_path. eexists. split; [done|]. destruct segments as [|next segments].
  - cbn. rewrite app_nil_r, split_on_none by done. cbn. by rewrite of_to_bytes.
  - destruct IH as (rest & Hr & Hsplit); [done|]. change (foldr _ "" (next :: segments)) with (path_of (next :: segments) "").
    rewrite Hr, split_on_app, split_on_none by done. cbn. by rewrite of_to_bytes, <- Hsplit.
Qed.

Lemma path_segments_of segments query :
  Forall bare segments -> segments <> [] -> is_query query ->
  path_segments (path_of segments query) = segments.
Proof.
  intros Hb Hne Hq. unfold path_segments. rewrite path_of_app, to_bytes_app, without_query_app by (by try apply path_of_free).
  by destruct (split_path segments Hb Hne) as (rest & -> & Hs).
Qed.

(** *** Paths of names *)

Lemma app_nil_str s : s +:+ "" = s.
Proof. apply to_bytes_inj. by rewrite to_bytes_app, app_nil_r. Qed.

(** A piece of a path: a known segment, or a name, with the names that it is not. *)
Inductive Piece := Known (s : string) | Name (avoided : list string).

Fixpoint fill (pieces : list Piece) (names : list string) : list string :=
  match pieces, names with
  | [], _ => []
  | Known s :: pieces, _ => s :: fill pieces names
  | Name _ :: pieces, name :: names => name :: fill pieces names
  | Name _ :: _, [] => []
  end.

Fixpoint good_names (pieces : list Piece) (names : list string) : Prop :=
  match pieces, names with
  | [], [] => True
  | Known _ :: pieces, _ => good_names pieces names
  | Name avoided :: pieces, name :: names =>
      (name <> "" /\ bare name /\ name ∉ avoided) /\ good_names pieces names
  | _, _ => False
  end.

(** Whether a pattern may match, and whether it does with the names as its parameters. *)
Fixpoint may_match (pattern : list Segment) (pieces : list Piece) : bool :=
  match pattern, pieces with
  | [], [] => true
  | Static name :: pattern, Known s :: pieces => String.eqb s name && may_match pattern pieces
  | Static name :: pattern, Name avoided :: pieces => negb (bool_decide (name ∈ avoided)) && may_match pattern pieces
  | Param :: pattern, _ :: pieces => may_match pattern pieces
  | _, _ => false
  end.

Fixpoint fits (pattern : list Segment) (pieces : list Piece) : bool :=
  match pattern, pieces with
  | [], [] => true
  | Static name :: pattern, Known s :: pieces => String.eqb s name && fits pattern pieces
  | Param :: pattern, Name _ :: pieces => fits pattern pieces
  | _, _ => false
  end.

(** The handler of the route that is preferred to all the others that may match. *)
Definition known_bare (piece : Piece) : bool :=
  match piece with
  | Known s => forallb (fun c => negb (Ascii.eqb c "/") && negb (Ascii.eqb c "?")) (to_bytes s)
  | Name _ => true
  end.

Definition aim (routes : list Route) (method : Method) (pieces : list Piece) : option Endpoint :=
  match List.filter (fun route => may_match (ro_pattern route) pieces) routes with
  | route :: others =>
      if fits (ro_pattern route) pieces && forallb known_bare pieces &&
         forallb (fun other => preferred (ro_pattern route) (ro_pattern other)) others
      then snd <$> List.find (fun h => bool_decide (h.1 = method)) (ro_handlers route) else None
  | [] => None
  end.

Lemma matches_may pattern pieces names :
  good_names pieces names -> match_segments pattern (fill pieces names) <> None -> may_match pattern pieces = true.
Proof.
  revert pattern names. induction pieces as [|[s|avoided] pieces IH]; intros [|[name|] pattern] names Hg Hm;
    try (by destruct names); cbn in *.
  - destruct (String.eqb_spec s name); [|done]. by eapply IH.
  - destruct (String.eqb s ""); [done|]. apply (IH _ names); [done|]. by destruct (match_segments _ _).
  - destruct names as [|n names]; [done|]. destruct Hg as [(_ & _ & Ha) Hg].
    destruct (String.eqb_spec n name) as [<-|]; [|done]. rewrite bool_decide_false by done. by eapply IH.
  - destruct names as [|n names]; [done|]. destruct Hg as [_ Hg]. cbn in Hm.
    destruct (String.eqb n ""); [done|]. apply (IH _ names); [done|]. by destruct (match_segments _ _).
Qed.

Lemma fits_matches pattern pieces names :
  good_names pieces names -> fits pattern pieces = true -> match_segments pattern (fill pieces names) = Some names.
Proof.
  revert pattern names. induction pieces as [|[s|avoided] pieces IH]; intros [|[name|] pattern] names Hg Hm; try done.
  - by destruct names.
  - cbn in *. apply andb_prop in Hm as [-> Hm]. by apply IH.
  - destruct names as [|n names]; [done|]. destruct Hg as [(Hne & _ & _) Hg]. cbn in *.
    destruct (String.eqb_spec n ""); [done|]. by rewrite IH.
Qed.

Lemma fill_bare pieces names : good_names pieces names -> forallb known_bare pieces = true -> Forall bare (fill pieces names).
Proof.
  revert names. induction pieces as [|[s|avoided] pieces IH]; intros names Hg Hk; cbn in *; [constructor|..].
  - apply andb_prop in Hk as [Hs Hk]. constructor; [|by apply IH]. rewrite forallb_forall in Hs.
    split; intros Hc; apply list_elem_of_In, Hs in Hc; done.
  - destruct names as [|n names]; [done|]. destruct Hg as [(_ & Hb & _) Hg]. constructor; [done|by apply IH].
Qed.

Section arrive.
Context `{UrlEncoding} {UL : UrlEncodingLaws}.
Context (take_route : list Route -> list string -> option Route) {RL : RouterLaws take_route}.
Context (path_decode : string -> option string).
Context (Hplain : forall s, forallb unreserved (to_bytes s) = true -> path_decode s = Some s).
Context (Hencoded : forall s, path_decode (url_encode s) = Some s).

Lemma take_aimed routes method pieces names endpoint :
  good_names pieces names -> aim routes method pieces = Some endpoint ->
  exists route, take_route routes (fill pieces names) = Some route /\
    match_segments (ro_pattern route) (fill pieces names) = Some names /\
    List.find (fun h => bool_decide (h.1 = method)) (ro_handlers route) = Some (method, endpoint).
Proof.
  intros Hg Ha. unfold aim in Ha. destruct (List.filter _ routes) as [|route others] eqn:Ef; [done|].
  assert (forall r, r ∈ route :: others <-> r ∈ routes /\ may_match (ro_pattern r) pieces = true) as Hall.
  { intros r. by rewrite <- Ef, !list_elem_of_In, filter_In. }
  destruct (fits _ _) eqn:Efit; [|done]. destruct (forallb known_bare pieces); [|done].
  destruct (forallb _ others) eqn:Ep; [|done]. cbn in Ha.
  destruct (List.find _ _) as [[m e]|] eqn:Eh; [|done]. injection Ha as ->.
  pose proof (fits_matches _ _ _ Hg Efit) as Hm.
  assert (m = method) as -> by (apply find_some in Eh as [_ Eh]; by apply bool_decide_eq_true in Eh).
  exists route. split; [|done]. apply take_route_best.
  - apply Hall. by left.
  - unfold matches. by rewrite Hm.
  - intros other Ho Hom. assert (other ∈ route :: others) as [->|Hr]%elem_of_cons; [|by left|].
    { apply Hall. split; [done|]. by eapply matches_may. }
    right. rewrite forallb_forall in Ep. by apply Ep, list_elem_of_In.
Qed.

Lemma aim_bare routes method pieces endpoint : aim routes method pieces = Some endpoint -> forallb known_bare pieces = true.
Proof.
  unfold aim. destruct (List.filter _ _); [done|]. destruct (fits _ _); [|done].
  by destruct (forallb known_bare pieces).
Qed.

(** A path of some pieces goes to the handler that the table aims them at. *)
Lemma dispatch_pieces method pieces names query endpoint decoded :
  good_names pieces names -> pieces <> [] -> is_query query -> aim build_router method pieces = Some endpoint ->
  mapM path_decode names = Some decoded ->
  dispatch take_route path_decode method (path_of (fill pieces names) query) = Handled endpoint decoded.
Proof.
  intros Hg Hne Hq Ha Hd. unfold dispatch. cbv zeta.
  assert (fill pieces names <> []) as Hne' by (by destruct pieces as [|[] ?], names).
  rewrite path_segments_of by eauto using fill_bare, aim_bare.
  destruct (take_aimed _ _ _ _ _ Hg Ha) as (route & -> & Hs & Hh). rewrite Hh, Hs.
  change (default [] (Some names)) with names. by rewrite Hd.
Qed.

Lemma plain_bare name : plain name -> bare name.
Proof. intros [_ Hp]. split; intros Hin; by eapply plain_free in Hin. Qed.

Lemma encoded_bare name : bare (url_encode name).
Proof. split; intros Hin; by apply url_encode_plain in Hin as [|]. Qed.

Lemma encoded_nonempty name : name <> "" -> url_encode name <> "".
Proof.
  intros Hn He. pose proof (Hencoded name) as Hd. rewrite He in Hd.
  rewrite Hplain in Hd by done. by injection Hd.
Qed.

Lemma query_string_query params : is_query (build_query_string params).
Proof.
  pose proof (query_pieces params) as Hq. destruct (kept params) as [|p ps]; [left|right].
  - by apply to_bytes_inj.
  - eexists (of_bytes _). apply to_bytes_inj. rewrite Hq, to_bytes_app, to_of_bytes. reflexivity.
Qed.


Lemma to_path path path' method e ps :
  path' = path -> dispatch take_route path_decode method path = Handled e ps ->
  dispatch take_route path_decode method path' = Handled e ps.
Proof. by intros ->. Qed.

Lemma not_avoided (name : string) : name ∉ [].
Proof. apply not_elem_of_nil. Qed.

Lemma not_avoided_one (name other : string) : name <> other -> name ∉ [other].
Proof. by intros Hne ->%list_elem_of_singleton. Qed.

Ltac good :=
  cbn; repeat match goal with |- _ /\ good_names _ _ => split | |- _ /\ _ => split | |- True => exact I end;
  first [done | by apply plain_bare | apply encoded_bare | by apply encoded_nonempty | apply not_avoided
        | by apply not_avoided_one].

(** The path is that of the pieces filled with the names, with the query after it. *)
Ltac arrives pieces names query :=
  eapply (to_path (path_of (fill pieces names) query)); [cbn; rewrite ?app_nil_str; reflexivity|];
  apply dispatch_pieces;
  [ good
  | done | eauto using query_string_query | vm_compute; reflexivity
  | cbn; rewrite ?Hplain, ?Hencoded by done; reflexivity ].

Lemma request_arrives {A} (r : Request A) :
  names_ok r ->
  dispatch take_route path_decode (request_method r) (request_path r) = Handled (intended r).1 (intended r).2.
Proof.
  assert (is_query "") as Hq by by left.
  destruct r as [u|run_id| |run_id|run_id action service|sn|run_id purge|run_id|older all|a|name|id|st| |path|id];
    cbn [request_method request_path intended names_ok fst snd]; intros Hok.
  - arrives [Known "v1"; Known "runs"; Known "up"] (@nil string) "".
  - destruct Hok as [Hne Hp]. arrives [Known "v1"; Known "runs"; Name []; Known "status"] [run_id] "".
  - arrives [Known "v1"; Known "runs"] (@nil string) "".
  - destruct Hok as [Hne Hp]. arrives [Known "v1"; Known "runs"; Name []; Known "watch"] [run_id] "".
  - destruct Hok as [[Hne Hp] [-> | ->]].
    + arrives [Known "v1"; Known "runs"; Name []; Known "watch"; Known "pause"] [run_id] "".
    + arrives [Known "v1"; Known "runs"; Name []; Known "watch"; Known "resume"] [run_id] "".
  - arrives [Known "v1"; Known "navigation"; Known "intent"] (@nil string) "".
  - arrives [Known "v1"; Known "runs"; Known "down"] (@nil string) "".
  - arrives [Known "v1"; Known "runs"; Known "kill"] (@nil string) "".
  - arrives [Known "v1"; Known "gc"] (@nil string) "".
  - arrives [Known "v1"; Known "sources"] (@nil string) "".
  - destruct Hok as [Hne Hp]. arrives [Known "v1"; Known "sources"; Name []] [name] "".
  - destruct Hok as [[Hne Hp] Hx]. arrives [Known "v1"; Known "tasks"; Name ["run"]] [id] "".
  - arrives [Known "v1"; Known "tasks"; Known "run"] (@nil string) "".
  - arrives [Known "v1"; Known "projects"] (@nil string) "".
  - arrives [Known "v1"; Known "projects"; Known "register"] (@nil string) "".
  - destruct Hok as [[Hne Hp] Hx]. arrives [Known "v1"; Known "projects"; Name ["register"]] [id] "".
Qed.

(** C34: Every request of the commands and of the agent arrives: a request is dispatched to the
    handler it is meant for, with the names the client gave, when the names that are put into
    its path unencoded hold unreserved bytes only and are not words of the table; the agent
    encodes its names, so its requests for logs arrive for any names. *)
Theorem client_requests_arrive method path endpoint names :
  client_call method path endpoint names ->
  dispatch take_route path_decode method path = Handled endpoint names.
Proof.
  assert (is_query "") as Hq0 by by left. assert (forall q, is_query ("?" +:+ q)) as Hq1 by (intros q; right; by eexists).
  destruct 1 as [A r Hok|run_id service query [Hr Hr'] [Hs Hs']|run_id query [Hr Hr']|name query [Hn Hn']|
    run_id service after Hr Hs| |agent_id [Ha Ha'] Hl|agent_id [Ha Ha']|run_id service Hr Hs].
  - by apply request_arrives.
  - arrives [Known "v1"; Known "runs"; Name []; Known "logs"; Name []] [run_id; service] (build_logs_query_string query).
  - arrives [Known "v1"; Known "runs"; Name []; Known "logs"] [run_id] (build_log_view_query_string query).
  - arrives [Known "v1"; Known "sources"; Name []; Known "logs"] [name] (build_log_view_query_string query).
  - arrives [Known "v1"; Known "runs"; Name []; Known "logs"; Name []] [url_encode run_id; url_encode service]
      ("?" +:+ "after=" +:+ show after +:+ "&last=200").
  - arrives [Known "v1"; Known "agent"; Known "sessions"] (@nil string) "".
  - arrives [Known "v1"; Known "agent"; Known "sessions"; Name ["latest"]] [agent_id] "".
  - arrives [Known "v1"; Known "agent"; Known "sessions"; Name []; Known "messages"; Known "poll"] [agent_id] "".
  - arrives [Known "v1"; Known "runs"; Name []; Known "logs"; Name []] [url_encode run_id; url_encode service]
      ("?" +:+ "last=1").
Qed.
End arrive.

(** ** A router *)

#[export] Instance segment_eq_dec : EqDecision Segment.
Proof. solve_decision. Defined.
#[export] Instance endpoint_eq_dec : EqDecision Endpoint.
Proof. solve_decision. Defined.
#[export] Instance route_eq_dec : EqDecision Route.
Proof. solve_decision. Defined.

Definition matchesb (segments : list string) (route : Route) : bool :=
  match match_segments (ro_pattern route) segments with Some _ => true | None => false end.

Definition best_route (routes : list Route) (segments : list string) : option Route :=
  List.find (fun route => matchesb segments route &&
    forallb (fun other => negb (matchesb segments other) || bool_decide (other = route) ||
                          preferred (ro_pattern route) (ro_pattern other)) routes) routes.

Lemma matchesb_true segments route : matchesb segments route = true <-> matches segments route.
Proof. unfold matchesb, matches. by destruct (match_segments _ _). Qed.

Lemma preferred_asym p q : preferred p q = true -> preferred q p = true -> False.
Proof. revert q. induction p as [|[n|] p IH]; intros [|[n'|] q]; cbn; try done; apply IH. Qed.

Lemma best_route_best routes segments route :
  route ∈ routes -> matches segments route ->
  forallb (fun other => negb (matchesb segments other) || bool_decide (other = route) ||
                        preferred (ro_pattern route) (ro_pattern other)) routes = true ->
  best_route routes segments = Some route.
Proof.
  intros Hin Hm Hall. unfold best_route. destruct (List.find _ routes) as [found|] eqn:Ef.
  - apply find_some in Ef as [Hf [Hfm Hfall]%andb_prop]. rewrite !forallb_forall in *.
    pose proof (Hall _ Hf) as H1. specialize (Hfall route). rewrite Hfm in H1.
    rewrite (proj2 (matchesb_true segments route)) in Hfall by done. cbn in *.
    case_bool_decide; [by subst|]. rewrite bool_decide_false in Hfall by done.
    exfalso. eapply preferred_asym; [exact H1|]. by apply Hfall, list_elem_of_In.
  - exfalso. eapply find_none in Ef; [|by apply list_elem_of_In]. cbv beta in Ef.
    by rewrite Hall, (proj2 (matchesb_true _ _) Hm) in Ef.
Qed.

#[export] Instance best_route_laws : RouterLaws best_route.
Proof.
  split.
  - intros routes segments route Hin Hm Hall. apply best_route_best; [done..|].
    apply forallb_forall. intros other Ho%list_elem_of_In. destruct (matchesb segments other) eqn:E; [|done].
    apply matchesb_true in E. destruct (Hall _ Ho E) as [->| ->]; [by rewrite bool_decide_true|apply orb_true_r].
  - intros routes segments Hnone. unfold best_route. destruct (List.find _ routes) as [found|] eqn:Ef; [|done].
    apply find_some in Ef as [Hf [Hfm _]%andb_prop]. destruct (Hnone found); [by apply list_elem_of_In|].
    by apply matchesb_true.
Qed.

Lemma client_requests_arrive_witness :
  dispatch best_route (fun s => Some (url_decode (to_bytes s))) DELETE "/v1/sources/web-1" =
    Handled RemoveSource_ ["web-1"] /\
  dispatch best_route (fun s => Some (url_decode (to_bytes s))) GET
    (fetch_service_logs_after_path "run 1" "a/b" 7) = Handled Logs ["run 1"; "a/b"].
Proof.
  assert (forall s, forallb unreserved (to_bytes s) = true -> Some (url_decode (to_bytes s)) = Some s) as Hp.
  { intros s Hs. rewrite url_decode_plain by done. by rewrite of_to_bytes. }
  assert (forall s, Some (url_decode (to_bytes (url_encode s))) = Some s) as He by (intros s; by rewrite url_decode_encode).
  split; apply (client_requests_arrive _ _ Hp He).
  - apply (call_request _ (RemoveSource "web-1")). split; [done|vm_compute; reflexivity].
  - by apply call_logs_after.
Defined.

(** The commands put the name of a source into the path as it is: the source [a/b] is not
    reached, neither to remove it nor to read its logs, and the removal of the source [b/logs]
    is refused as a request for logs of [b]. *)
Lemma slashed_source_lost :
  let decode := fun s => Some (url_decode (to_bytes s)) in
  dispatch best_route decode DELETE (request_path (RemoveSource "a/b")) = NoRoute /\
  dispatch best_route decode GET (source_view_path "a/b" (mkLogViewQuery LogFilterQuery_default None false true true)) = NoRoute /\
  dispatch best_route decode DELETE (request_path (RemoveSource "b/logs")) = MethodNotAllowed.
Proof. repeat split; vm_compute; reflexivity. Qed.
