(* ===== verification/Completions.v ===== *)
(** * Completions

    Models [src/cli/commands/completions.rs]: what the shell is told to offer for the word
    that is being typed. What is printed is the result of [complete]. *)

From stdpp Require Import gmap.
From S2P Require Import Prelude Bytes BMap Util Json Program ConfigModel ConfigPlan ConfigValidate RunModel Manifest.
From S2P Require Import Lifecycle Commands Tasks Sort CliContext CliCommands.
From Stdlib Require Import Lia ZArith.

(** ** The words *)

(** The words from the first [devstack] on, when the first word is another one. *)
Fixpoint from_devstack (words : list string) : option (list string) :=
  match words with
  | [] => None
  | word :: rest => if bool_decide (word = "devstack") then Some words else from_devstack rest
  end.

Definition command_words (words : list string) : list string := default words (from_devstack words).

(** The word being typed, and the one before it. *)
Definition current (words : list string) (cword : nat) : string := default "" (words !! cword).
Definition previous (words : list string) (cword : nat) : string :=
  match cword with 0 => "" | S i => default "" (words !! i) end.

Definition find_subcommand (words : list string) : option string :=
  List.find (fun word => negb (starts_with "-" word)) (tl words).

Definition subcommands : list string :=
  ["install"; "init"; "daemon"; "up"; "status"; "watch"; "diagnose"; "ls"; "logs"; "show"; "down";
   "kill"; "exec"; "lint"; "doctor"; "gc"; "ui"; "run"; "projects"; "sources"; "openapi"; "completions"].

Definition global_options : list string := [].

Definition options_for_subcommand (sub : string) : list string :=
  match sub with
  | "up" => ["--stack"; "--project"; "--run"; "--file"; "--no-wait"; "--all"; "--new"; "--force"]
  | "status" => ["--run"]
  | "watch" => ["--service"]
  | "diagnose" => ["--run"; "--service"]
  | "ls" => ["--all"]
  | "logs" => ["--run"; "--source"; "--facets"; "--all"; "--service"; "--task"; "--last"; "--search";
               "--level"; "--stream"; "--since"; "--no-noise"; "--follow"; "--follow-for"]
  | "show" => ["--run"; "--service"; "--search"; "--level"; "--stream"; "--since"; "--last"]
  | "down" => ["--run"; "--purge"]
  | "kill" => ["--run"]
  | "exec" => ["--run"]
  | "gc" => ["--older-than"; "--all"]
  | "init" => ["--project"; "--file"]
  | "lint" => ["--project"; "--file"]
  | "run" => ["--init"; "--stack"; "--project"; "--file"; "--detach"; "--status"; "--verbose"]
  | "openapi" => ["--out"; "--watch"]
  | _ => []
  end%string.

Definition is_option_value (prev cur option : string) : bool :=
  bool_decide (prev = option) || starts_with (option +:+ "=") cur.

Definition option_value_prefix (cur option : string) : string :=
  match strip_prefix (to_bytes (option +:+ "=")) (to_bytes cur) with
  | Some rest => of_bytes rest
  | None => cur
  end.

Definition print_completions_filtered (candidates : list string) (prefix : string) : list string :=
  if bool_decide (prefix = "") then candidates
  else List.filter (fun item => starts_with prefix item) candidates.

(** The values of an option, in the form the word being typed has. *)
Definition print_values (candidates : list string) (cur option : string) : list string :=
  let value_prefix := option_value_prefix cur option in
  if starts_with (option +:+ "=") cur
  then print_completions_filtered (map (fun value => option +:+ "=" +:+ value) candidates)
         (option +:+ "=" +:+ value_prefix)
  else print_completions_filtered candidates value_prefix.

Fixpoint extract_arg_value (words : list string) (opt : string) : option string :=
  match words with
  | [] => None
  | word :: rest =>
      if bool_decide (word = "--") then None else
      let inline := of_bytes <$> strip_prefix (to_bytes (opt +:+ "=")) (to_bytes word) in
      if bool_decide (word = opt) then
        match rest with
        | value :: _ => Some value
        | [] => inline
        end
      else match inline with Some value => Some value | None => extract_arg_value rest opt end
  end.

(** ** The stack of [up] *)

Definition up_option_value_step (word : string) : option nat :=
  if bool_decide (word ∈ ["--stack"; "--project"; "--run"; "--run-id"; "--file"]) then Some 2
  else if bool_decide (word ∈ ["--no-wait"; "--new"]) then Some 1
  else if starts_with "--stack=" word || starts_with "--project=" word || starts_with "--run=" word
          || starts_with "--run-id=" word || starts_with "--file=" word then Some 1
  else None.

(** The words between [up] and the one being typed: whether a stack and whether [--all] was
    given, or nothing when there is a positional word. *)
Fixpoint scan_up (rest : list string) (stack_set all_set : bool) : option (bool * bool) :=
  match rest with
  | [] => Some (stack_set, all_set)
  | word :: rest =>
      let skip_two stack_set :=
        match rest with [] => Some (stack_set, all_set) | _ :: rest => scan_up rest stack_set all_set end in
      if bool_decide (word = "--") then Some (stack_set, all_set)
      else if bool_decide (word = "--all") then scan_up rest stack_set true
      else if bool_decide (word = "--new") || bool_decide (word = "--force") then scan_up rest stack_set all_set
      else if bool_decide (word = "--stack") then skip_two true
      else if starts_with "--stack=" word then scan_up rest true all_set
      else match up_option_value_step word with
           | Some 2 => skip_two stack_set
           | Some _ => scan_up rest stack_set all_set
           | None => if starts_with "-" word then scan_up rest stack_set all_set else None
           end
  end.

Fixpoint position_of (name : string) (words : list string) : option nat :=
  match words with
  | [] => None
  | word :: rest => if bool_decide (word = name) then Some 0 else S <$> position_of name rest
  end.

(** [words[cword - 1]] panics when there is no such word. *)
Definition is_positional_stack (words : list string) (cword : nat) (cur : string) : outcome bool :=
  if starts_with "-" cur then Ok false else
  match position_of "up" words with
  | None => Ok false
  | Some sub_idx =>
      if cword <=? sub_idx then Ok false else
      match scan_up (drop (S sub_idx) (take cword words)) false false with
      | None => Ok false
      | Some (stack_set, all_set) =>
          if stack_set || all_set then Ok false else
          match cword with
          | 0 => Ok true
          | S i => word ← unwrap (words !! i);
                   Ok (match up_option_value_step word with Some step => negb (1 <? step) | None => true end)
          end
      end
  end.

(** ** What is offered *)

Section complete.
Context (cwd : outcome string) (home : option string) (exists_ is_file : string -> bool).
Context (debug : string -> string) (parse_yaml parse_toml : bytes -> outcome ConfigFile).
Context (read : string -> outcome bytes).
Context (canonicalize : string -> option string) (parse_rfc3339 : string -> option Z).
Context (runs_dir : outcome string) (read_dir : string -> outcome (list (outcome string))).
Context (load_manifest : string -> outcome PersistedRun) (run_manifest_path : string -> outcome string).

(** The configuration of the project of the working directory, when there is one. *)
Definition completion_config {A} (none : A) (f : ConfigFile -> A) : outcome A :=
  resolved_context ← resolve_project_context cwd home exists_ is_file None None;
  match pj_config_path resolved_context with
  | Some path =>
      if is_file path
      then config ← load_cli_config debug parse_yaml parse_toml read path; Ok (f config)
      else Ok none
  | None => Ok none
  end.

(** The keys of a map are in order. *)
Definition completion_stacks : outcome (list string) := completion_config [] stack_names.

Definition completion_tasks : outcome (list string) :=
  completion_config [] (fun config => bkeys (default [] (cf_tasks config))).

(** [if let Ok(values) = r { candidates = values; }] *)
Definition or_nothing (r : outcome (list string)) : cmd (list string) :=
  r ← attempt (Ret r); mret (match r with Ok values => values | _ => [] end).

Definition completion_runs : cmd (list string) :=
  dir ← attempt (Ret (resolve_project_dir_from_cwd cwd home exists_ is_file));
  match dir with
  | Ok project_dir =>
      runs ← attempt (cli_fetch_runs exists_ runs_dir read_dir load_manifest);
      mret (match runs with
            | Ok runs => map rm_run_id (sort_runs_for_project canonicalize parse_rfc3339 runs.1 project_dir)
            | _ => []
            end)
  | _ => mret []
  end.

Definition completion_run_id (words : list string) : cmd (option string) :=
  match extract_arg_value words "--run" with
  | Some value => mret (Some value)
  | None =>
      match extract_arg_value words "--run-id" with
      | Some value => mret (Some value)
      | None =>
          dir ← attempt (Ret (resolve_project_dir_from_cwd cwd home exists_ is_file));
          match dir with
          | Ok project_dir =>
              runs ← attempt (cli_fetch_runs exists_ runs_dir read_dir load_manifest);
              mret (match runs with
                    | Ok runs => rm_run_id <$> select_latest_run canonicalize parse_rfc3339 runs.1 project_dir
                    | _ => None
                    end)
          | _ => mret None
          end
      end
  end.

Definition completion_services (words : list string) : cmd (option (list string)) :=
  run_id ← completion_run_id words;
  match run_id with
  | None => mret None
  | Some run_id =>
      manifest_path ← Ret (run_manifest_path run_id);
      manifest ← attempt (Ret (load_manifest manifest_path));
      mret (match manifest with Ok manifest => Some (bkeys (pr_services manifest)) | _ => None end)
  end.

Definition complete (cword : nat) (words : list string) : cmd (list string) :=
  if bool_decide (words = []) then mret [] else
  let words := command_words words in
  let cur := current words cword in
  let prev := previous words cword in
  match find_subcommand words with
  | None => mret (print_completions_filtered (if starts_with "-" cur then global_options else subcommands) cur)
  | Some sub =>
      if is_option_value prev cur "--run" || is_option_value prev cur "--run-id" then
        candidates ← completion_runs;
        mret (print_values candidates cur
                (if bool_decide (prev = "--run-id") || starts_with "--run-id=" cur then "--run-id" else "--run"))
      else if is_option_value prev cur "--service" then
        services ← completion_services words;
        mret (print_values (default [] services) cur "--service")
      else if is_option_value prev cur "--task" then
        candidates ← or_nothing completion_tasks; mret (print_values candidates cur "--task")
      else if is_option_value prev cur "--stack" then
        candidates ← or_nothing completion_stacks; mret (print_values candidates cur "--stack")
      else if is_option_value prev cur "--file" || is_option_value prev cur "--project" then mret []
      else
        positional ← Ret (if bool_decide (sub = "up") then is_positional_stack words cword cur else Ok false);
        if positional : bool then
          candidates ← or_nothing completion_stacks; mret (print_completions_filtered candidates cur)
        else if starts_with "-" cur then mret (print_completions_filtered (options_for_subcommand sub) cur)
        else mret []
  end.
End complete.

(** ** What fits *)

Lemma starts_with_nil c : starts_with "" c = true.
Proof. apply starts_with_spec. by exists c. Qed.

Lemma filtered_fits candidates prefix c :
  c ∈ print_completions_filtered candidates prefix -> c ∈ candidates /\ starts_with prefix c = true.
Proof.
  unfold print_completions_filtered. case_bool_decide as Hp; [subst; by rewrite starts_with_nil|].
  rewrite !list_elem_of_In. apply filter_In.
Qed.

Lemma inline_prefix cur opt :
  starts_with (opt +:+ "=") cur = true -> opt +:+ "=" +:+ option_value_prefix cur opt = cur.
Proof.
  unfold starts_with, option_value_prefix. destruct (strip_prefix _ _) as [rest|] eqn:E; [|done]. intros _.
  apply strip_prefix_Some in E. apply to_bytes_inj. rewrite !to_bytes_app, to_of_bytes, E.
  by rewrite to_bytes_app, <- app_assoc.
Qed.

Lemma bare_prefix cur opt : starts_with (opt +:+ "=") cur = false -> option_value_prefix cur opt = cur.
Proof. unfold starts_with, option_value_prefix. by destruct (strip_prefix _ _). Qed.

(** A value, alone or after its option. *)
Definition spells (opt value c : string) : Prop := c = value \/ c = opt +:+ "=" +:+ value.

Lemma values_fit candidates cur opt c :
  c ∈ print_values candidates cur opt ->
  starts_with cur c = true /\ exists value, value ∈ candidates /\ spells opt value c.
Proof.
  unfold print_values. destruct (starts_with _ cur) eqn:E; intros [Hin Hs]%filtered_fits.
  - rewrite inline_prefix in Hs by done. split; [done|].
    apply list_elem_of_In, in_map_iff in Hin as (value & <- & Hv). exists value.
    split; [by apply list_elem_of_In|by right].
  - rewrite bare_prefix in Hs by done. split; [done|]. exists c. split; [done|by left].
Qed.

Lemma dashed_not_prefix opt word :
  starts_with "-" word = false -> starts_with (("--" +:+ opt) +:+ "=") word = false.
Proof.
  intros Hw. destruct (starts_with (_ +:+ _) word) eqn:E; [|done]. apply starts_with_spec in E as [r ->].
  rewrite <- Hw. symmetry. apply starts_with_spec. by exists (String.String "-" ((opt +:+ "=") +:+ r)).
Qed.

(** After a word that is no option and before one that is none no value is completed. *)
Lemma no_option_value prev cur :
  starts_with "-" prev = false -> starts_with "-" cur = false ->
  Forall (fun opt => is_option_value prev cur opt = false)
    ["--run"; "--run-id"; "--service"; "--task"; "--stack"; "--file"; "--project"].
Proof.
  intros Hp Hc. assert (forall opt, is_option_value prev cur ("--" +:+ opt) = false) as Hopt.
  { intros opt. unfold is_option_value. rewrite dashed_not_prefix by done. rewrite bool_decide_false; [done|].
    intros ->. done. }
  repeat constructor; [apply (Hopt "run")|apply (Hopt "run-id")|apply (Hopt "service")|apply (Hopt "task")
    |apply (Hopt "stack")|apply (Hopt "file")|apply (Hopt "project")].
Qed.

(** What a completion hears of the daemon, and what it does besides. *)
Inductive Heard := Told (answer : outcome (list RunSummary)) | Did (act : Act).

Definition heard_of (ev : event CliE) : option Heard :=
  match ev with
  | @Ev _ R e r =>
      match e in CliE R return R -> option Act -> option Heard with
      | @Ask A request =>
          match request in Request A return outcome A -> option Act -> option Heard with
          | ListRuns => fun r _ => Some (Told r)
          | _ => fun _ act => Did <$> act
          end
      | _ => fun _ act => Did <$> act
      end r (act_of ev)
  end.

Section offered.
Context (cwd : outcome string) (home : option string) (exists_ is_file : string -> bool).
Context (debug : string -> string) (parse_yaml parse_toml : bytes -> outcome ConfigFile).
Context (read : string -> outcome bytes).
Context (canonicalize : string -> option string) (parse_rfc3339 : string -> option Z).
Context (runs_dir : outcome string) (read_dir : string -> outcome (list (outcome string))).
Context (load_manifest : string -> outcome PersistedRun) (run_manifest_path : string -> outcome string).

(** The values an option may be given, of what was heard. *)
Inductive value_of (heard : list Heard) : string -> string -> Prop :=
  | value_run opt answer runs run :
      opt ∈ ["--run"; "--run-id"] -> Told answer ∈ heard ->
      fetch_runs_with_fallback runs_dir exists_ read_dir load_manifest answer = Ok runs -> run ∈ runs.1 ->
      value_of heard opt (rm_run_id run)
  | value_service run_id path manifest service :
      run_manifest_path run_id = Ok path -> load_manifest path = Ok manifest ->
      service ∈ bkeys (pr_services manifest) -> value_of heard "--service" service
  | value_task config_path config task :
      load_cli_config debug parse_yaml parse_toml read config_path = Ok config ->
      task ∈ bkeys (default [] (cf_tasks config)) -> value_of heard "--task" task
  | value_stack config_path config stack :
      load_cli_config debug parse_yaml parse_toml read config_path = Ok config ->
      stack ∈ stack_names config -> value_of heard "--stack" stack.

(** What may be offered: a command while there is none, an option of the command, or a value
    of an option. *)
Inductive offers (words : list string) (heard : list Heard) (c : string) : Prop :=
  | offers_command : find_subcommand words = None -> c ∈ subcommands -> offers words heard c
  | offers_option sub :
      find_subcommand words = Some sub -> c ∈ options_for_subcommand sub -> offers words heard c
  | offers_value opt value : value_of heard opt value -> spells opt value c -> offers words heard c.

(** Only the runs are asked for, and at most once. *)
Definition only_asked (heard : list Heard) : Prop := heard = [] \/ exists answer, heard = [Told answer].

#[local] Abbreviation runs_of := (completion_runs cwd home exists_ is_file canonicalize parse_rfc3339 runs_dir read_dir load_manifest).
#[local] Abbreviation services_of :=
  (completion_services cwd home exists_ is_file canonicalize parse_rfc3339 runs_dir read_dir load_manifest run_manifest_path).

Lemma fetch_heard (P : list Heard -> outcome (outcome (list RunSummary * bool)) -> Prop) :
  (forall answer r,
     (forall runs, r = Ok (Ok runs) -> fetch_runs_with_fallback runs_dir exists_ read_dir load_manifest answer = Ok runs) ->
     P [Told answer] r) ->
  seen heard_of (attempt (cli_fetch_runs exists_ runs_dir read_dir load_manifest)) P.
Proof.
  intros HP. apply seen_attempt. unfold cli_fetch_runs. cbn. intros [runs|e| |]; cbn; [by apply HP; intros ? [= <-]| |by apply HP..].
  destruct (runs_from_disk _ _ _ _) as [runs|e'| |] eqn:E; apply HP; try done. intros ? [= <-]. cbn. by rewrite E.
Qed.

(** A computation that nothing is asked for. *)
Lemma seen_attempt_ret {A B} (o : outcome A) (f : outcome A -> cmd B) (P : list Heard -> outcome B -> Prop) :
  (o <> Panic -> o <> OutOfFuel -> seen heard_of (f o) P) -> P [] Panic -> P [] OutOfFuel ->
  seen heard_of (attempt (Ret o) ≫= f) P.
Proof. intros Hf Hp Ho. by destruct o; cbn; [apply Hf|apply Hf| |]. Qed.

#[local] Abbreviation sound words P := (fun heard (o : outcome (list string)) =>
  only_asked heard /\ forall offered c, o = Ok offered -> c ∈ offered -> P words heard c).

Lemma runs_seen (P : list Heard -> outcome (list string) -> Prop) :
  (forall heard o, only_asked heard ->
     (forall ids id opt, o = Ok ids -> id ∈ ids -> opt ∈ ["--run"; "--run-id"] -> value_of heard opt id) -> P heard o) ->
  seen heard_of runs_of P.
Proof.
  intros HP. assert (forall o, (forall ids, o <> Ok ids) -> P [] o) as Hnone.
  { intros o Ho. apply HP; [by left|]. intros ids ? ? ->. by destruct (Ho ids). }
  unfold completion_runs. apply seen_attempt_ret; [|by apply Hnone..]. intros _ _.
  destruct (resolve_project_dir_from_cwd _ _ _ _) as [dir|e| |].
  2-4: apply HP; [by left|]; by intros ? ? ? [= <-] ?%elem_of_nil.
  apply seen_bind, fetch_heard. intros answer r Hr.
  assert (only_asked [Told answer]) as Hone by (right; by exists answer).
  destruct r as [[runs|e| |]|e| |]; cbn; apply HP; rewrite ?app_nil_r; try done;
    try by (intros ? ? ? [= <-] ?%elem_of_nil).
  intros ids id opt [= <-] Hid Hopt. apply list_elem_of_fmap in Hid as (run & -> & Hrun).
  unfold sort_runs_for_project in Hrun. rewrite sort_by_perm in Hrun.
  eapply value_run; [done|by apply list_elem_of_singleton|by apply Hr|done].
Qed.

Lemma run_id_seen words (P : list Heard -> outcome (option string) -> Prop) :
  (forall heard o, only_asked heard -> P heard o) ->
  seen heard_of (completion_run_id cwd home exists_ is_file canonicalize parse_rfc3339 runs_dir read_dir
                   load_manifest words) P.
Proof.
  intros HP. assert (forall o, P [] o) as Hnone by (intros o; apply HP; by left). unfold completion_run_id.
  destruct (extract_arg_value words "--run"); [apply Hnone|].
  destruct (extract_arg_value words "--run-id"); [apply Hnone|].
  apply seen_attempt_ret; [|apply Hnone..]. intros _ _.
  destruct (resolve_project_dir_from_cwd _ _ _ _); [|apply Hnone..].
  apply seen_bind, fetch_heard. intros answer r _.
  assert (only_asked [Told answer]) as Hone by (right; by exists answer).
  destruct r as [[]|e| |]; cbn; rewrite ?app_nil_r; by apply HP.
Qed.

Lemma services_seen words (P : list Heard -> outcome (option (list string)) -> Prop) :
  (forall heard o, only_asked heard ->
     (forall services service, o = Ok (Some services) -> service ∈ services -> value_of heard "--service" service) ->
     P heard o) ->
  seen heard_of (services_of words) P.
Proof.
  intros HP. unfold completion_services. apply seen_bind, run_id_seen. intros heard o Ha.
  assert (forall o, (forall s, o <> Ok (Some s)) -> P heard o) as Hnone.
  { intros o' Ho. apply HP; [done|]. intros s ? ->. by destruct (Ho s). }
  destruct o as [[run_id|]|e| |]; cbn; rewrite ?app_nil_r; try by apply Hnone.
  destruct (run_manifest_path run_id) as [path|e| |] eqn:Hp; cbn; rewrite ?app_nil_r; try by apply Hnone.
  destruct (load_manifest path) as [manifest|e| |] eqn:Hm; cbn; rewrite ?app_nil_r; try by apply Hnone.
  apply HP; [done|]. intros s service [= <-] Hs. by eapply value_service.
Qed.

Lemma config_keys {A} (none : list A) (f : ConfigFile -> list A) values value :
  completion_config cwd home exists_ is_file debug parse_yaml parse_toml read none f = Ok values ->
  value ∈ values -> value ∈ none \/
  exists path config, load_cli_config debug parse_yaml parse_toml read path = Ok config /\ value ∈ f config.
Proof.
  unfold completion_config. destruct (resolve_project_context _ _ _ _ _ _) as [ctx|e| |]; cbn; try done.
  destruct (pj_config_path ctx) as [path|]; cbn; [|intros [= <-]; by left].
  destruct (is_file path); [|intros [= <-]; by left].
  destruct (load_cli_config _ _ _ _ path) as [config|e| |] eqn:E; cbn; try done.
  intros [= <-] Hv. right. by exists path, config.
Qed.

Lemma or_nothing_seen (r : outcome (list string)) (P : list Heard -> outcome (list string) -> Prop) :
  (forall o, (forall values value, o = Ok values -> value ∈ values -> r = Ok values) -> P [] o) ->
  seen heard_of (or_nothing r) P.
Proof.
  intros HP. destruct r as [values|e| |]; cbn; apply HP; try done.
  by intros ? ? [= <-] ?%elem_of_nil.
Qed.

(** Whatever the daemon answers and whatever the files hold, what is offered for the word
    that is being typed continues it: each offer starts with the word, and is a command while
    there is none, an option of the command, or a value that exists - a run of the answer of
    the daemon or else of the disk, a service of the manifest of a run, a task or a stack of a
    configuration - alone or after its option. To find them the runs are asked for at most
    once, and nothing is changed. *)
Theorem completions_fit cword words :
  seen heard_of
    (complete cwd home exists_ is_file debug parse_yaml parse_toml read canonicalize parse_rfc3339 runs_dir
       read_dir load_manifest run_manifest_path cword words)
    (fun heard o => only_asked heard /\
       forall offered c, o = Ok offered -> c ∈ offered ->
         starts_with (current (command_words words) cword) c = true /\ offers (command_words words) heard c).
Proof.
  assert (only_asked []) as Hnone by by left.
  assert (forall heard (o : outcome (list string)) cur ws, only_asked heard -> (forall l, o <> Ok l) ->
    only_asked heard /\ forall offered c, o = Ok offered -> c ∈ offered ->
      starts_with cur c = true /\ offers ws heard c) as Hfail.
  { intros heard o cur ws Ha Ho. split; [done|]. intros l c ->. by destruct (Ho l). }
  unfold complete. destruct (bool_decide (words = [])).
  { split; [done|]. by intros ? c [= <-] ?%elem_of_nil. }
  generalize (command_words words). intros ws. cbv zeta. set (cur := current ws cword).
  destruct (find_subcommand ws) as [sub|] eqn:Hsub.
  2: { split; [done|]. intros offered c [= <-] [Hin Hs]%filtered_fits. split; [done|].
       destruct (starts_with "-" cur); [by apply elem_of_nil in Hin|by apply offers_command]. }
  destruct (is_option_value (previous ws cword) cur "--run" || _).
  { apply seen_bind, runs_seen. intros heard [ids|e| |] Ha Hids; cbn; rewrite ?app_nil_r; try by apply Hfail.
    split; [done|]. intros offered c [= <-] [Hs (value & Hv & Hspell)]%values_fit. split; [done|].
    eapply offers_value; [|exact Hspell]. apply (Hids ids); [done..|]. case_match; set_solver. }
  destruct (is_option_value _ cur "--service").
  { apply seen_bind, services_seen. intros heard [services|e| |] Ha Hsv; cbn; rewrite ?app_nil_r; try by apply Hfail.
    split; [done|]. intros offered c [= <-] [Hs (value & Hv & Hspell)]%values_fit. split; [done|].
    destruct services as [services|]; [|by apply elem_of_nil in Hv].
    eapply offers_value; [|exact Hspell]. by apply (Hsv services). }
  destruct (is_option_value _ cur "--task").
  { apply seen_bind, or_nothing_seen. intros [tasks|e| |] Ht; cbn; try by apply Hfail.
    split; [done|]. intros offered c [= <-] [Hs (value & Hv & Hspell)]%values_fit. split; [done|].
    eapply offers_value; [|exact Hspell]. pose proof (Ht _ _ eq_refl Hv) as Hc. unfold completion_tasks in Hc.
    destruct (config_keys _ _ _ _ Hc Hv) as [?%elem_of_nil|(path & config & ? & ?)]; [done|]. by eapply value_task. }
  destruct (is_option_value _ cur "--stack").
  { apply seen_bind, or_nothing_seen. intros [stacks|e| |] Ht; cbn; try by apply Hfail.
    split; [done|]. intros offered c [= <-] [Hs (value & Hv & Hspell)]%values_fit. split; [done|].
    eapply offers_value; [|exact Hspell]. pose proof (Ht _ _ eq_refl Hv) as Hc. unfold completion_stacks in Hc.
    destruct (config_keys _ _ _ _ Hc Hv) as [?%elem_of_nil|(path & config & ? & ?)]; [done|]. by eapply value_stack. }
  destruct (is_option_value _ cur "--file" || _).
  { split; [done|]. by intros ? c [= <-] ?%elem_of_nil. }
  destruct (if bool_decide (sub = "up") then _ else _) as [[]|e| |]; cbn; try by apply Hfail.
  - apply seen_bind, or_nothing_seen. intros [stacks|e| |] Ht; cbn; try by apply Hfail.
    split; [done|]. intros offered c [= <-] [Hv Hs]%filtered_fits. split; [done|].
    eapply (offers_value _ _ _ "--stack" c); [|by left]. pose proof (Ht _ _ eq_refl Hv) as Hc. unfold completion_stacks in Hc.
    destruct (config_keys _ _ _ _ Hc Hv) as [?%elem_of_nil|(path & config & ? & ?)]; [done|]. by eapply value_stack.
  - destruct (starts_with "-" cur); cbn; (split; [done|]); [|by intros ? c [= <-] ?%elem_of_nil].
    intros offered c [= <-] [Hv Hs]%filtered_fits. split; [done|]. by eapply offers_option.
Qed.

(** The stack of [up] is completed from all the stacks of the configuration. *)
Lemma stacks_completed word path config ctx :
  resolve_project_context cwd home exists_ is_file None None = Ok ctx -> pj_config_path ctx = Some path ->
  is_file path = true -> load_cli_config debug parse_yaml parse_toml read path = Ok config ->
  starts_with "-" word = false ->
  complete cwd home exists_ is_file debug parse_yaml parse_toml read canonicalize parse_rfc3339 runs_dir
    read_dir load_manifest run_manifest_path 2 ["devstack"; "up"; word]
  = Ret (Ok (print_completions_filtered (stack_names config) word)).
Proof.
  intros Hctx Hpath Hfile Hload Hword.
  pose proof (no_option_value "up" word eq_refl Hword) as Hno.
  repeat (apply Forall_cons in Hno as [? Hno]). unfold complete. rewrite (bool_decide_false (_ = [])) by done. cbv zeta.
  change (command_words _) with ["devstack"; "up"; word]. 
  assert (find_subcommand ["devstack"; "up"; word] = Some "up") as -> by reflexivity.
  change (current _ 2) with word. change (previous _ 2) with "up".
  repeat match goal with H : is_option_value _ _ _ = false |- _ => rewrite H; clear H end.
  cbn. unfold is_positional_stack. rewrite Hword. cbn. unfold completion_stacks, completion_config.
  rewrite Hctx. cbn. by rewrite Hpath, Hfile, Hload.
Qed.
End offered.

(** ** What is not offered *)

Section shells.
Context (cwd : outcome string) (home : option string) (exists_ is_file : string -> bool).
Context (debug : string -> string) (parse_yaml parse_toml : bytes -> outcome ConfigFile).
Context (read : string -> outcome bytes).
Context (canonicalize : string -> option string) (parse_rfc3339 : string -> option Z).
Context (runs_dir : outcome string) (read_dir : string -> outcome (list (outcome string))).
Context (load_manifest : string -> outcome PersistedRun) (run_manifest_path : string -> outcome string).
#[local] Abbreviation complete_ := (complete cwd home exists_ is_file debug parse_yaml parse_toml read
  canonicalize parse_rfc3339 runs_dir read_dir load_manifest run_manifest_path).

(** The panic needs a position after the end of the words. *)
Lemma positional_total words cword cur : cword <= length words -> is_positional_stack words cword cur <> Panic.
Proof.
  intros Hc. unfold is_positional_stack. destruct (starts_with "-" cur); [done|].
  destruct (position_of "up" words); [|done]. case_match; [done|]. destruct (scan_up _ _ _) as [[? ?]|]; [|done].
  destruct (_ || _); [done|]. destruct cword as [|i]; [done|]. cbn.
  destruct (lookup_lt_is_Some_2 words i) as [word ->]; [lia|]. done.
Qed.

(** The commands are never completed: the word that is being typed is taken for the command
    itself, as bash sends it, also when it is empty. *)
Lemma commands_not_completed word : complete_ 1 ["devstack"; word] = Ret (Ok []).
Proof.
  unfold complete. rewrite (bool_decide_false (_ = [])) by done. cbv zeta. change (command_words _) with ["devstack"; word].
  change (current _ 1) with word. change (previous _ 1) with "devstack".
  unfold find_subcommand. cbn [tl List.find]. destruct (starts_with "-" word) eqn:Hd; cbn [negb].
  - unfold print_completions_filtered. by destruct (bool_decide _).
  - pose proof (no_option_value "devstack" word eq_refl Hd) as Hno. repeat (apply Forall_cons in Hno as [? Hno]).
    repeat match goal with H : is_option_value _ _ _ = false |- _ => rewrite H; clear H end.
    cbn [orb]. unfold is_positional_stack. rewrite Hd. case_bool_decide as Hup; [by subst word|done].
Qed.

(** Behind another command the position is not moved with the words: the last word is not
    looked at, and the position before it is after the end. *)
Lemma completion_panics : complete_ 5 ["sudo"; "-E"; "devstack"; "up"; "--new"; "--fo"] = Ret Panic.
Proof. reflexivity. Qed.
End shells.
