(* ===== verification/AgentProxy.v ===== *)
(** * The proxy around an agent

    Models [src/agent/pty_proxy.rs] and [run] of [src/agent/command.rs]: the life of the proxy
    as a program over its effects ([run_proxy]), and the bytes it moves between the user, the
    daemon, the monitor of the logs and the wrapped command ([proxy_turn], one turn of one of
    its tasks). *)

From stdpp Require Import gmap.
From S2P Require Import Prelude Bytes BMap Util Program Sessions.
From Stdlib Require Import Lia ZArith.

(** ** The life of the proxy *)

(** [struct winsize]: rows and columns. *)
Record Winsize := mkWinsize { ws_row : Z; ws_col : Z }.

(** What ends the wait for the command. *)
Inductive ProxyEvent :=
  | CommandEnded (status : outcome (option Z))
  | Terminated.

Record SessionRequest := mkSessionRequest {
  sr_agent_id : string;
  sr_project_dir : string;
  sr_stack : option string;
  sr_command : string;
  sr_pid : Z;
}.

Section life.
(** The mode of a terminal, and what [cfmakeraw] makes of one. *)
Context {Mode : Type} (cfmakeraw : Mode -> Mode).

Inductive ProxyE : Type -> Type :=
  | OpenPty : ProxyE (outcome unit)
  | ReadWinsize (fd : Z) : ProxyE (outcome Winsize)
  | ResizePty (size : Winsize) : ProxyE (outcome unit)
  | SpawnCommand (program : string) (args : list string) (env : list (string * string))
      : ProxyE (outcome (option Z))
  | ProxyPid : ProxyE Z
  | CurrentDir : ProxyE (option string)
  | RegisterSession (request : SessionRequest) : ProxyE (outcome unit)
  | Warn (text : string) : ProxyE unit
  | IsATty (fd : Z) : ProxyE bool
  | GetMode (fd : Z) : ProxyE (outcome Mode)
  | SetMode (fd : Z) (mode : Mode) : ProxyE (outcome unit)
  | StartTasks (registered auto_share resizing : bool) : ProxyE unit
  | ListenForSigterm : ProxyE (outcome unit)
  | NextProxyEvent : ProxyE ProxyEvent
  | KillCommand : ProxyE unit
  | WaitCommand : ProxyE (outcome (option Z))
  | StopTasks : ProxyE unit
  | JoinWriter : ProxyE unit
  | JoinReader : ProxyE unit
  | UnregisterSession (agent_id : string) : ProxyE (outcome unit).

Abbreviation proxy := (prog ProxyE).

(** A terminal without a size has 24 rows of 80 columns. *)
Definition read_terminal_size (fd : Z) : proxy Winsize :=
  winsize ← try_trigger (ReadWinsize fd);
  mret (mkWinsize (if (ws_row winsize =? 0)%Z then 24 else ws_row winsize)
                  (if (ws_col winsize =? 0)%Z then 80 else ws_col winsize)).

Record TerminalModeGuard := mkGuard { tg_fd : Z; tg_original : Mode; tg_active : bool }.

Definition activate (fd : option Z) : proxy (option TerminalModeGuard) :=
  match fd with
  | None => mret None
  | Some fd =>
      tty ← trigger (IsATty fd);
      if negb tty then mret None else
      original ← try_trigger (GetMode fd);
      _ ← try_trigger (SetMode fd (cfmakeraw original));
      mret (Some (mkGuard fd original true))
  end.

Definition restore (guard : TerminalModeGuard) : proxy TerminalModeGuard :=
  if negb (tg_active guard) then mret guard else
  _ ← try_trigger (SetMode (tg_fd guard) (tg_original guard));
  mret (mkGuard (tg_fd guard) (tg_original guard) false).

(** [Drop]: what becomes of it does not matter. *)
Definition drop_guard (guard : option TerminalModeGuard) : proxy unit :=
  match guard with Some guard => ignore (restore guard) | None => mret tt end.

(** From where the guard is held to where it is dropped. *)
Definition proxy_session (agent_id : string) (registered auto_share resizing : bool) : proxy (option Z) :=
  _ ← trigger (StartTasks registered auto_share resizing);
  _ ← try_trigger ListenForSigterm;
  event ← trigger NextProxyEvent;
  status ← match event with
           | CommandEnded status => Ret status
           | Terminated => _ ← trigger KillCommand; try_trigger WaitCommand
           end;
  _ ← trigger StopTasks;
  _ ← trigger JoinWriter;
  _ ← trigger JoinReader;
  _ ← (if registered then ignore (try_trigger (UnregisterSession agent_id)) else mret tt);
  mret status.

(** The result is the code the proxy exits with. *)
Definition run_proxy (command : list string) (agent_id : string) (terminal_fd : option Z) (auto_share : bool)
    : proxy Z :=
  match command with
  | [] => Ret (Err "agent command is required")
  | program :: args =>
      _ ← try_trigger OpenPty;
      _ ← match terminal_fd with
          | Some fd => size ← read_terminal_size fd; try_trigger (ResizePty size)
          | None => mret tt
          end;
      id ← try_trigger (SpawnCommand program args [("DEVSTACK_AGENT_ID", agent_id)]);
      pid ← match id with Some pid => mret pid | None => trigger ProxyPid end;
      dir ← trigger CurrentDir;
      answer ← attempt (try_trigger (RegisterSession
        (mkSessionRequest agent_id (to_string_lossy (default "" dir)) None (join " " command) pid)));
      registered ← match answer with
                   | Err err => _ ← trigger (Warn ("warning: failed to register agent session: " +:+ err)); mret false
                   | _ => mret true
                   end;
      guard ← activate terminal_fd;
      status ← attempt (proxy_session agent_id registered auto_share
                          (match terminal_fd with Some _ => true | None => false end));
      _ ← drop_guard guard;
      status ← Ret status;
      mret (default 1%Z status)
  end.
End life.

(** ** The bytes it moves *)

Definition format_message_for_pty (message : string) : string := message +:+ String "013" "".

(** The chunk a task reads at most. *)
Definition CHUNK : nat := 4096.

(** What the user typed and is not read, the channel to the writer, what was written to the
    command; what the command printed and is not read, and what was shown of it; the tasks
    that still run; the sessions of the daemon. *)
Record Plane := mkPlane {
  pl_typed : bytes;
  pl_channel : list bytes;
  pl_written : bytes;
  pl_printed : bytes;
  pl_shown : bytes;
  pl_reading : bool;
  pl_writing : bool;
  pl_showing : bool;
  pl_sessions : AgentSessionStore;
}.

Definition with_typed typed reading p :=
  mkPlane typed (pl_channel p) (pl_written p) (pl_printed p) (pl_shown p) reading (pl_writing p)
    (pl_showing p) (pl_sessions p).
Definition with_channel channel written writing p :=
  mkPlane (pl_typed p) channel written (pl_printed p) (pl_shown p) (pl_reading p) writing
    (pl_showing p) (pl_sessions p).
Definition with_shown printed shown showing p :=
  mkPlane (pl_typed p) (pl_channel p) (pl_written p) printed shown (pl_reading p) (pl_writing p)
    showing (pl_sessions p).
Definition with_sessions sessions p :=
  mkPlane (pl_typed p) (pl_channel p) (pl_written p) (pl_printed p) (pl_shown p) (pl_reading p)
    (pl_writing p) (pl_showing p) sessions.

(** [tx.send(chunk)]: whether there is a receiver. *)
Definition send (chunk : bytes) (p : Plane) : bool * Plane :=
  if pl_writing p then (true, with_channel (pl_channel p ++ [chunk]) (pl_written p) true p) else (false, p).

(** A write of a chunk: all of it, or an error after some bytes. *)
Inductive WriteAll := Whole | Broken (after : nat).

(** A turn of a task: what its read, its write or its request gives. *)
Inductive ProxyTurn :=
  | TypedTurn (read : nat)             (* the user's input: this many bytes, 0 at its end *)
  | PolledTurn (kill : Z -> option Z) (answered : bool)
                                       (* a poll that reached the daemon, its answer or not *)
  | UnreachedTurn                      (* a poll that did not *)
  | SharedTurn (message : string)      (* the monitor of the logs has a message *)
  | WrittenTurn (result : WriteAll)    (* the next chunk of the channel *)
  | ShownTurn (read : nat) (result : WriteAll)
                                       (* the output of the command *)
  | DaemonTurn (call : (Z -> option Z) * SessionOp).
                                       (* a call of somebody else *)

Section plane.
Context (agent_id : string).

Definition read_chunk (read : nat) (from : bytes) : nat := Nat.min read (Nat.min CHUNK (length from)).

Definition proxy_turn (p : Plane) (turn : ProxyTurn) : Plane :=
  match turn with
  | TypedTurn read =>
      if negb (pl_reading p) then p else
      let read := read_chunk read (pl_typed p) in
      if read =? 0 then with_typed (pl_typed p) false p else
      let '(sent, q) := send (take read (pl_typed p)) p in
      with_typed (drop read (pl_typed p)) sent q
  | PolledTurn kill answered =>
      let '(answer, sessions) := poll_messages kill agent_id (pl_sessions p) in
      let p := with_sessions sessions p in
      match answer with
      | Ok messages =>
          if answered
          then foldl (fun p message => (send (to_bytes (format_message_for_pty message)) p).2) p messages
          else p
      | _ => p
      end
  | UnreachedTurn => p
  | SharedTurn message => (send (to_bytes (format_message_for_pty message)) p).2
  | WrittenTurn result =>
      if negb (pl_writing p) then p else
      match pl_channel p with
      | [] => p
      | chunk :: channel =>
          match result with
          | Whole => with_channel channel (pl_written p ++ chunk) true p
          | Broken after => with_channel [] (pl_written p ++ take after chunk) false p
          end
      end
  | ShownTurn read result =>
      if negb (pl_showing p) then p else
      let read := read_chunk read (pl_printed p) in
      let chunk := take read (pl_printed p) in
      match result with
      | Whole => with_shown (drop read (pl_printed p)) (pl_shown p ++ chunk) (negb (read =? 0)) p
      | Broken after => with_shown (drop read (pl_printed p)) (pl_shown p ++ take after chunk) false p
      end
  | DaemonTurn call => with_sessions (session_op call (pl_sessions p)) p
  end.

Definition proxy_turns (p : Plane) (turns : list ProxyTurn) : Plane := foldl proxy_turn p turns.
End plane.

(** ** What arrives *)

(** A chunk, by where it came from. *)
Inductive Chunk := FromUser (typed : bytes) | FromDaemon (message : string) | FromMonitor (message : string).

Definition chunk_bytes (chunk : Chunk) : bytes :=
  match chunk with
  | FromUser typed => typed
  | FromDaemon message | FromMonitor message => to_bytes (format_message_for_pty message)
  end.

Definition typed_of (chunks : list Chunk) : bytes :=
  flat_map (fun chunk => match chunk with FromUser typed => typed | _ => [] end) chunks.
Definition messages_of (chunks : list Chunk) : list string :=
  flat_map (fun chunk => match chunk with FromDaemon message => [message] | _ => [] end) chunks.
Definition shares_of (chunks : list Chunk) : list string :=
  flat_map (fun chunk => match chunk with FromMonitor message => [message] | _ => [] end) chunks.

(** What is sent to the agent, and what the monitor has, in a turn. *)
Definition posted (agent_id : string) (turn : ProxyTurn) : list string :=
  match turn with DaemonTurn call => sent agent_id call | _ => [] end.
Definition shared (turn : ProxyTurn) : list string :=
  match turn with SharedTurn message => [message] | _ => [] end.

(** Writes work, polls that reach the daemon are answered, the process of the agent lives and
    stays registered, and nobody else polls for it. *)
Definition smooth (agent_id : string) (pids : list Z) (turn : ProxyTurn) : Prop :=
  match turn with
  | PolledTurn kill answered => answered = true /\ forall pid, pid ∈ pids -> session_pid_alive kill pid = true
  | WrittenTurn result | ShownTurn _ result => result = Whole
  | DaemonTurn call => stays agent_id pids call /\ (forall id, call.2 = OpPoll id -> id <> agent_id)
  | _ => True
  end.

(** From one state to another the chunks went into the channel, and what left it was
    written. *)
Definition flow (p : Plane) (chunks : list Chunk) (p' : Plane) : Prop :=
  pl_writing p' = true /\
  exists done, pl_channel p ++ map chunk_bytes chunks = done ++ pl_channel p' /\
    pl_written p' = pl_written p ++ concat done.

Lemma flow_refl p : pl_writing p = true -> flow p [] p.
Proof. intros Hw. split; [done|]. exists []. by rewrite !app_nil_r. Qed.

Lemma flow_trans p1 p2 p3 c1 c2 : flow p1 c1 p2 -> flow p2 c2 p3 -> flow p1 (c1 ++ c2) p3.
Proof.
  intros [_ (d1 & E1 & W1)] [Hw (d2 & E2 & W2)]. split; [done|]. exists (d1 ++ d2).
  rewrite map_app, app_assoc, E1, <- app_assoc, E2, app_assoc. split; [done|].
  by rewrite W2, W1, concat_app, app_assoc.
Qed.

Lemma flow_same p p1 p' chunks :
  pl_writing p1 = pl_writing p' -> pl_channel p1 = pl_channel p' -> pl_written p1 = pl_written p' ->
  flow p chunks p1 -> flow p chunks p'.
Proof. unfold flow. by intros -> -> ->. Qed.

Lemma send_flow chunk p :
  pl_writing p = true -> flow p [chunk] (send (chunk_bytes chunk) p).2 /\ (send (chunk_bytes chunk) p).1 = true.
Proof.
  intros Hw. unfold send. rewrite Hw. split; [|done]. split; [done|]. exists []. by rewrite app_nil_r.
Qed.

Lemma send_rest chunk p :
  pl_sessions (send chunk p).2 = pl_sessions p /\ pl_typed (send chunk p).2 = pl_typed p /\
  pl_shown (send chunk p).2 = pl_shown p /\ pl_printed (send chunk p).2 = pl_printed p.
Proof. unfold send. by destruct (pl_writing p). Qed.

Definition send_message (p : Plane) (message : string) : Plane :=
  (send (to_bytes (format_message_for_pty message)) p).2.

Lemma messages_flow messages p :
  pl_writing p = true ->
  let p' := foldl send_message p messages in
  flow p (map FromDaemon messages) p' /\ pl_sessions p' = pl_sessions p /\ pl_typed p' = pl_typed p /\
  pl_shown p' = pl_shown p /\ pl_printed p' = pl_printed p.
Proof.
  revert p. induction messages as [|m messages IH]; intros p Hw; cbn; [by split; [apply flow_refl|]|].
  destruct (send_flow (FromDaemon m) p Hw) as [Hf _].
  destruct (send_rest (chunk_bytes (FromDaemon m)) p) as (Hs & Ht & Hsh & Hp).
  destruct (IH (send_message p m)) as (Hf' & Hs' & Ht' & Hsh' & Hp'); [apply Hf|].
  unfold send_message in *. cbn in *. rewrite Hs', Ht', Hsh', Hp'. split_and!; [|done..].
  apply (flow_trans _ _ _ [FromDaemon m] _ Hf Hf').
Qed.

(** What a turn keeps of the accounts. *)
Definition accounts (agent_id : string) (pids : list Z) (turns : list ProxyTurn) (p p' : Plane)
    (session session' : AgentSessionState) (chunks : list Chunk) : Prop :=
  flow p chunks p' /\ bwf (pl_sessions p') /\ bget agent_id (pl_sessions p') = Some session' /\
  as_pid session' ∈ pids /\
  pl_typed p = typed_of chunks ++ pl_typed p' /\
  as_pending_messages session ++ flat_map (posted agent_id) turns
    = messages_of chunks ++ as_pending_messages session' /\
  flat_map shared turns = shares_of chunks /\
  pl_shown p' ++ pl_printed p' = pl_shown p ++ pl_printed p.

Lemma daemon_messages messages :
  typed_of (map FromDaemon messages) = [] /\ messages_of (map FromDaemon messages) = messages /\
  shares_of (map FromDaemon messages) = [].
Proof.
  unfold typed_of, messages_of, shares_of.
  induction messages as [|m messages (IH1 & IH2 & IH3)]; [done|]. cbn. by rewrite IH1, IH2, IH3.
Qed.

Lemma turn_accounts agent_id pids p session turn :
  pl_writing p = true -> bwf (pl_sessions p) -> bget agent_id (pl_sessions p) = Some session ->
  as_pid session ∈ pids -> smooth agent_id pids turn ->
  exists session' chunks, accounts agent_id pids [turn] p (proxy_turn agent_id p turn) session session' chunks.
Proof.
  intros Hw Hb Hg Hp Hs. unfold accounts.
  destruct turn as [read|kill answered| |message|result|read result|call]; cbn [proxy_turn].
  - exists session. destruct (pl_reading p) eqn:Hr; cbn [negb].
    2:{ exists []. cbn. rewrite !app_nil_r. split_and!; by try apply flow_refl. }
    destruct (_ =? 0).
    { exists []. cbn. rewrite !app_nil_r. split_and!; try done. by eapply flow_same, flow_refl. }
    set (n := read_chunk _ _). destruct (send_flow (FromUser (take n (pl_typed p))) p Hw) as [Hf _].
    destruct (send_rest (take n (pl_typed p)) p) as (Es & Et & Eh & Ep). cbn [chunk_bytes] in Hf.
    destruct (send (take n (pl_typed p)) p) as [sent_ q]. cbn in *. exists [FromUser (take n (pl_typed p))].
    cbn. rewrite !app_nil_r, Es, Eh, Ep, take_drop. split_and!; by try (eapply flow_same; [..|exact Hf]).
  - destruct Hs as [-> Hlive].
    destruct (session_op_messages agent_id pids (kill, OpPoll agent_id) _ session Hb Hg Hp) as (s' & Hg' & Hp' & Hm);
      [by split|]. pose proof (bwf_session_op (kill, OpPoll agent_id) _ Hb) as Hb'. cbn in Hg', Hb', Hm.
    rewrite bool_decide_true in Hm by done. destruct (poll_messages _ _ _) as [answer sessions]. cbn in *.
    exists s'. destruct answer as [messages|e| |]; cbn in Hm; rewrite !app_nil_r in Hm.
    + exists (map FromDaemon messages).
      destruct (messages_flow messages (with_sessions sessions p) Hw) as (Hf & Es & Et & Eh & Ep).
      destruct (daemon_messages messages) as (E1 & E2 & E3).
      unfold typed_of, messages_of, shares_of in *. rewrite E1, E2, E3, app_nil_r.
      change (foldl _ _ messages) with (foldl send_message (with_sessions sessions p) messages).
      rewrite Es, Et, Eh, Ep. split_and!; done.
    + exists []. rewrite !app_nil_r. split_and!; try done. by eapply flow_same, flow_refl.
    + exists []. rewrite !app_nil_r. split_and!; try done. by eapply flow_same, flow_refl.
    + exists []. rewrite !app_nil_r. split_and!; try done. by eapply flow_same, flow_refl.
  - exists session, []. cbn. rewrite !app_nil_r. split_and!; by try apply flow_refl.
  - exists session, [FromMonitor message]. destruct (send_flow (FromMonitor message) p Hw) as [Hf _].
    destruct (send_rest (chunk_bytes (FromMonitor message)) p) as (Es & Et & Eh & Ep). cbn in *.
    rewrite !app_nil_r, Es, Et, Eh, Ep. by split_and!.
  - exists session, []. cbn in Hs. subst result. rewrite Hw. cbn. rewrite !app_nil_r.
    destruct (pl_channel p) as [|chunk channel] eqn:Hc.
    + split_and!; by try apply flow_refl.
    + split_and!; try done. split; [done|]. exists [chunk]. cbn. by rewrite Hc, !app_nil_r.
  - exists session, []. cbn in Hs. subst result. destruct (pl_showing p); cbn; rewrite !app_nil_r.
    + split_and!; try done; [by eapply flow_same, flow_refl|]. by rewrite <- app_assoc, take_drop.
    + split_and!; by try apply flow_refl.
  - destruct Hs as [Hst Hno].
    destruct (session_op_messages agent_id pids call _ session Hb Hg Hp Hst) as (s' & Hg' & Hp' & Hm).
    exists s', []. cbn. rewrite !app_nil_r. split_and!; try done; [by eapply flow_same, flow_refl|by apply bwf_session_op|].
    rewrite Hm. destruct call as [kill op]. cbn. destruct op; cbn; try done.
    rewrite bool_decide_false; [done|]. by apply Hno.
Qed.

Lemma accounts_trans agent_id pids turns1 turns2 p1 p2 p3 s1 s2 s3 c1 c2 :
  accounts agent_id pids turns1 p1 p2 s1 s2 c1 -> accounts agent_id pids turns2 p2 p3 s2 s3 c2 ->
  accounts agent_id pids (turns1 ++ turns2) p1 p3 s1 s3 (c1 ++ c2).
Proof.
  intros (F1 & _ & _ & _ & T1 & M1 & S1 & O1) (F2 & B & G & P & T2 & M2 & S2 & O2).
  unfold accounts, typed_of, messages_of, shares_of in *. rewrite !flat_map_app, <- !app_assoc.
  split_and!; try done; [by eapply flow_trans|by rewrite T1, T2| |by rewrite S1, S2|by rewrite O2, O1].
  by rewrite app_assoc, M1, <- app_assoc, M2.
Qed.

Lemma turns_accounts agent_id pids turns p session :
  pl_writing p = true -> bwf (pl_sessions p) -> bget agent_id (pl_sessions p) = Some session ->
  as_pid session ∈ pids -> Forall (smooth agent_id pids) turns ->
  exists session' chunks, accounts agent_id pids turns p (proxy_turns agent_id p turns) session session' chunks.
Proof.
  intros Hw Hb Hg Hp Hall. revert p session Hw Hb Hg Hp.
  induction Hall as [|turn turns Hs _ IH]; intros p session Hw Hb Hg Hp.
  { exists session, []. unfold accounts. cbn. rewrite !app_nil_r. split_and!; by try apply flow_refl. }
  destruct (turn_accounts agent_id pids p session turn Hw Hb Hg Hp Hs) as (s1 & c1 & H1).
  destruct (IH (proxy_turn agent_id p turn) s1) as (s2 & c2 & H2); [apply H1..|].
  exists s2, (c1 ++ c2). change (turn :: turns) with ([turn] ++ turns). by eapply accounts_trans.
Qed.

(** *** Until the proxy ends *)

(** The proxy while it runs [proxy_session]: the bytes, whether its tasks were started and
    those that send to the channel were aborted, and what was done so far. *)
Record Running := mkRunning {
  ru_plane : Plane;
  ru_started : bool;
  ru_stopped : bool;
  ru_done : list ProxyTurn;
}.

Section running.
Context (agent_id : string) (pids : list Z).

(** Which task may have a turn: a task that sends to the channel only until the tasks are
    stopped, those that write to the command and read from it also after that. *)
Definition may_turn (r : Running) (turn : ProxyTurn) : Prop :=
  match turn with
  | DaemonTurn _ => True
  | WrittenTurn _ | ShownTurn _ _ => ru_started r = true
  | _ => ru_started r = true /\ ru_stopped r = false
  end.

(** The output of the command ends when all of it was read. *)
Definition output_ends (p : Plane) (turn : ProxyTurn) : Prop :=
  match turn with ShownTurn 0 _ => pl_printed p = [] | _ => True end.

Definition task_step (r r' : Running) : Prop :=
  exists turn, may_turn r turn /\ smooth agent_id pids turn /\ output_ends (ru_plane r) turn /\
    r' = mkRunning (proxy_turn agent_id (ru_plane r) turn) (ru_started r) (ru_stopped r) (ru_done r ++ [turn]).

(** What an effect of [proxy_session] may answer and change: to join the writer is to wait
    until it has come to the end of the channel, whose senders are gone, or broke off; to
    join the reader, until it has ended. The session is unregistered after the account. *)
Definition proxy_step {Mode} (R : Type) (e : ProxyE (Mode := Mode) R) (r : Running) (answer : R) (r' : Running) : Prop :=
  match e with
  | StartTasks _ _ _ => r' = mkRunning (ru_plane r) true (ru_stopped r) (ru_done r)
  | StopTasks => r' = mkRunning (ru_plane r) (ru_started r) true (ru_done r)
  | JoinWriter => r' = r /\ (ru_stopped r = true /\ pl_channel (ru_plane r) = [] \/ pl_writing (ru_plane r) = false)
  | JoinReader => r' = r /\ pl_showing (ru_plane r) = false
  | _ => r' = r
  end.

(** The accounts of everything done since the start. *)
Definition in_order (p : Plane) (session : AgentSessionState) (r : Running) : Prop :=
  (exists session' chunks, accounts agent_id pids (ru_done r) p (ru_plane r) session session' chunks) /\
  (pl_showing (ru_plane r) = false -> pl_printed (ru_plane r) = []).

(** What the writer and the reader have come to stays so. *)
Definition writer_done (r : Running) : Prop := ru_stopped r = true /\ pl_channel (ru_plane r) = [].
Definition reader_done (r : Running) : Prop := pl_showing (ru_plane r) = false.

Lemma step_in_order p session r r' : in_order p session r -> task_step r r' -> in_order p session r'.
Proof.
  intros [(s1 & c1 & H1) Hshown] (turn & _ & Hsm & Hend & ->).
  pose proof H1 as (Hfl & Hb & Hg & Hp & _).
  destruct (turn_accounts agent_id pids (ru_plane r) s1 turn (proj1 Hfl) Hb Hg Hp Hsm) as (s2 & c2 & H2).
  split; [exists s2, (c1 ++ c2); by eapply accounts_trans|]. cbn.
  destruct turn as [read|kill answered| |message|result|read result|call]; cbn.
  - destruct (pl_reading _); cbn; [|done]. destruct (_ =? 0); [done|]. unfold send.
    by destruct (pl_writing _).
  - destruct (poll_messages _ _ _) as [[messages|e| |] sessions]; cbn; try done. destruct answered; [|done].
    destruct Hsm as [_ _].
    assert (forall l q, pl_showing (foldl send_message q l) = pl_showing q /\ pl_printed (foldl send_message q l) = pl_printed q)
      as Hsend.
    { induction l as [|m l IH]; intros q; cbn; [done|]. destruct (IH (send_message q m)) as [-> ->].
      unfold send_message, send. by destruct (pl_writing q). }
    change (foldl _ _ messages) with (foldl send_message (with_sessions sessions (ru_plane r)) messages).
    by destruct (Hsend messages (with_sessions sessions (ru_plane r))) as [-> ->].
  - done.
  - unfold send. by destruct (pl_writing _).
  - destruct (pl_writing _); cbn; [|done]. destruct (pl_channel _); [done|]. by destruct result.
  - cbn in Hsm, Hend. subst result. destruct (pl_showing (ru_plane r)) eqn:Hs; cbn; [|by intros _; apply Hshown].
    rewrite negb_false_iff. intros Hz%Nat.eqb_eq. unfold read_chunk in *.
    destruct (pl_printed (ru_plane r)) as [|c l] eqn:Hpr; [by rewrite drop_nil|]. exfalso.
    destruct read as [|read]; [done|]. cbn in Hz. lia.
  - done.
Qed.

Lemma step_writer_done r r' : writer_done r -> task_step r r' -> writer_done r'.
Proof.
  intros [Hst Hc] (turn & Hmay & _ & _ & ->). split; [done|]. cbn.
  destruct turn; cbn in *; try (destruct Hmay; congruence); try done.
  - destruct (pl_writing _); cbn; [|done]. by rewrite Hc.
  - destruct (pl_showing _); cbn; [|done]. by destruct result.
Qed.

Lemma step_reader_done r r' : reader_done r -> task_step r r' -> reader_done r'.
Proof.
  unfold reader_done. intros Hs (turn & _ & _ & _ & ->). cbn.
  destruct turn as [read|kill answered| |message|result|read result|call]; cbn.
  - destruct (pl_reading _); cbn; [|done]. destruct (_ =? 0); [done|]. unfold send. by destruct (pl_writing _).
  - destruct (poll_messages _ _ _) as [[messages|e| |] sessions]; cbn; try done. destruct answered; [|done].
    change (foldl _ _ messages) with (foldl send_message (with_sessions sessions (ru_plane r)) messages).
    assert (forall l q, pl_showing (foldl send_message q l) = pl_showing q) as ->; [|done].
    induction l as [|m l IH]; intros q; cbn; [done|]. rewrite IH. unfold send_message, send. by destruct (pl_writing q).
  - done.
  - unfold send. by destruct (pl_writing _).
  - destruct (pl_writing _); cbn; [|done]. destruct (pl_channel _); [done|]. by destruct result.
  - by rewrite Hs.
  - done.
Qed.

Lemma steps_keep (I : Running -> Prop) r r' :
  (forall r r', I r -> task_step r r' -> I r') -> I r -> rtc task_step r r' -> I r'.
Proof. intros Hstep HI Hr. induction Hr as [|r r1 r' Hs _ IH]; [done|]. eauto. Qed.

(** Between two effects, and in one. *)
Definition so_far (p : Plane) (session : AgentSessionState) (written shown : Prop) (r : Running) : Prop :=
  in_order p session r /\ (written -> writer_done r) /\ (shown -> reader_done r).

Lemma effect_keeps {Mode} p session written shown R (e : ProxyE (Mode := Mode) R) r r1 answer r2 :
  so_far p session written shown r -> rtc task_step r r1 -> proxy_step R e r1 answer r2 ->
  so_far p session written shown r2.
Proof.
  intros (Hi & Hw & Hs) Hr He.
  assert (so_far p session written shown r1) as Hsf.
  { split; [by eapply steps_keep; [apply step_in_order|..]|].
    split; intros Hyp; (eapply steps_keep; [first [apply step_writer_done|apply step_reader_done]|auto|done]). }
  assert (r2 = r1 \/ exists b1 b2, r2 = mkRunning (ru_plane r1) b1 b2 (ru_done r1) /\ (ru_stopped r1 = true -> b2 = true))
    as [->|(b1 & b2 & -> & Hb)]; [|done|].
  { destruct e; cbn in He; try (by left); try (by left; destruct He); right; subst; by do 2 eexists. }
  destruct Hsf as (Hi1 & Hw1 & Hs1). split; [done|]. split; [|done].
  intros Hyp. destruct (Hw1 Hyp). split; [by apply Hb|done].
Qed.

Lemma joined_writer {Mode} p session shown r r1 answer r2 :
  so_far p session False shown r -> rtc task_step r r1 ->
  proxy_step (Mode := Mode) _ JoinWriter r1 answer r2 -> so_far p session True shown r2.
Proof.
  intros Hr Ho He. pose proof (effect_keeps _ _ _ _ _ _ _ _ _ _ Hr Ho He) as (Hi & _ & Hs).
  split; [done|]. split; [|done]. intros _. destruct He as [-> [?|Hw]]; [done|].
  destruct Hi as [(s' & c & [[Hw' _] _]) _]. congruence.
Qed.

Lemma joined_reader {Mode} p session r r1 answer r2 :
  so_far p session True False r -> rtc task_step r r1 ->
  proxy_step (Mode := Mode) _ JoinReader r1 answer r2 -> so_far p session True True r2.
Proof.
  intros Hr Ho He. pose proof (effect_keeps _ _ _ _ _ _ _ _ _ _ Hr Ho He) as (Hi & Hw & _).
  split; [done|]. split; [done|]. intros _. by destruct He as [-> ?].
Qed.

Lemma session_ends {Mode} p session registered auto_share resizing r t code r' :
  so_far p session False False r ->
  runs (proxy_step (Mode := Mode)) (rtc task_step) (proxy_session agent_id registered auto_share resizing)
    r t (Ok code) r' ->
  so_far p session True True r'.
Proof.
  intros H0 (r1 & a1 & s1 & t1 & Ho1 & He1 & -> & Hr).
  pose proof (effect_keeps _ _ _ _ _ _ _ _ _ _ H0 Ho1 He1) as H1. clear He1.
  destruct Hr as (r2 & a2 & s2 & t2 & Ho2 & He2 & -> & Hr).
  pose proof (effect_keeps _ _ _ _ _ _ _ _ _ _ H1 Ho2 He2) as H2. clear He2.
  destruct a2 as [u|e| |]; [|by destruct Hr as (_ & ? & _)..].
  destruct Hr as (r3 & ev & s3 & t3 & Ho3 & He3 & -> & Hr).
  pose proof (effect_keeps _ _ _ _ _ _ _ _ _ _ H2 Ho3 He3) as H3. clear He3.
  assert (forall status s3 t3, so_far p session False False s3 ->
    runs (proxy_step (Mode := Mode)) (rtc task_step)
      (_ ← trigger StopTasks; _ ← trigger JoinWriter; _ ← trigger JoinReader;
       _ ← (if registered then ignore (try_trigger (UnregisterSession agent_id)) else mret tt);
       mret status) s3 t3 (Ok code) r' -> so_far p session True True r') as Hend.
  { clear. intros status s3 t3 H3 (r4 & a4 & s4 & t4 & Ho4 & He4 & -> & Hr).
    pose proof (effect_keeps _ _ _ _ _ _ _ _ _ _ H3 Ho4 He4) as H4. clear He4.
    destruct Hr as (r5 & a5 & s5 & t5 & Ho5 & He5 & -> & Hr).
    pose proof (joined_writer _ _ _ _ _ _ _ H4 Ho5 He5) as H5. clear He5.
    destruct Hr as (r6 & a6 & s6 & t6 & Ho6 & He6 & -> & Hr).
    pose proof (joined_reader _ _ _ _ _ _ H5 Ho6 He6) as H6. clear He6.
    destruct registered; [|by destruct Hr as (_ & _ & ->)].
    destruct Hr as (r7 & a7 & s7 & t7 & Ho7 & He7 & -> & Hr).
    pose proof (effect_keeps _ _ _ _ _ _ _ _ _ _ H6 Ho7 He7) as H7.
    by destruct a7; destruct Hr as (_ & ? & ->). }
  destruct ev as [status|].
  - destruct status as [status|e| |]; [by eapply Hend|by destruct Hr as (_ & ? & _)..].
  - destruct Hr as (r4 & a4 & s4 & t4 & Ho4 & He4 & -> & Hr).
    pose proof (effect_keeps _ _ _ _ _ _ _ _ _ _ H3 Ho4 He4) as H4. clear He4.
    destruct Hr as (r5 & a5 & s5 & t5 & Ho5 & He5 & -> & Hr).
    pose proof (effect_keeps _ _ _ _ _ _ _ _ _ _ H4 Ho5 He5) as H5. clear He5.
    destruct a5 as [status|e| |]; [by eapply Hend|by destruct Hr as (_ & ? & _)..].
Qed.
End running.

(** C11: Everything arrives at the wrapped agent. Take any run of the proxy from the start of
    its tasks to their join that returns the code of the command, with the turns of the tasks
    in any order, in which the writes work and each poll that reaches the daemon is answered.
    What was written to the agent is a sequence of whole chunks - what was read of the user's
    input, in order; each message that was sent to the agent, once, in the order of sending
    and ended as if Enter was pressed, except those that still wait in the daemon; each
    message of the monitor - and no chunk is inside another one or left in the channel; and
    all that the agent printed was shown. *)
Theorem agent_gets_everything {Mode} agent_id pids p session registered auto_share resizing t code r' :
  pl_writing p = true -> pl_showing p = true -> pl_channel p = [] -> pl_written p = [] ->
  bwf (pl_sessions p) -> bget agent_id (pl_sessions p) = Some session -> as_pid session ∈ pids ->
  runs proxy_step (rtc (task_step agent_id pids))
    (proxy_session (Mode := Mode) agent_id registered auto_share resizing)
    (mkRunning p false false []) t (Ok code) r' ->
  let p' := ru_plane r' in
  exists session' chunks,
    pl_written p' = concat (map chunk_bytes chunks) /\ pl_channel p' = [] /\
    pl_typed p = typed_of chunks ++ pl_typed p' /\
    bget agent_id (pl_sessions p') = Some session' /\
    as_pending_messages session ++ flat_map (posted agent_id) (ru_done r')
      = messages_of chunks ++ as_pending_messages session' /\
    flat_map shared (ru_done r') = shares_of chunks /\
    pl_shown p' = pl_shown p ++ pl_printed p.
Proof.
  intros Hw Hsh Hc Hwr Hb Hg Hp Hruns.
  assert (in_order agent_id pids p session (mkRunning p false false [])) as H0.
  { split; [|by cbn; congruence]. exists session, []. unfold accounts. cbn. rewrite !app_nil_r.
    split_and!; by try apply flow_refl. }
  destruct (session_ends agent_id pids p session registered auto_share resizing _ _ _ _ (conj H0 (conj (False_ind _) (False_ind _))) Hruns)
    as ([(s' & chunks & [_ (done & Hch & Hd)] & _ & Hg' & _ & Ht & Hm & Hms & Ho) Hall] & Hwd & Hrd).
  destruct (Hwd I) as [_ He]. specialize (Hall (Hrd I)). exists s', chunks.
  rewrite He, Hc, app_nil_r in Hch. rewrite Hwr in Hd. cbn in Hch, Hd. rewrite Hall, app_nil_r in Ho.
  split_and!; try done. by rewrite Hd, Hch.
Qed.

(** Given turns of the tasks, one after the other. *)
Definition take_turns (agent_id : string) (r : Running) (turns : list ProxyTurn) : Running :=
  foldl (fun r turn => mkRunning (proxy_turn agent_id (ru_plane r) turn) (ru_started r) (ru_stopped r) (ru_done r ++ [turn]))
    r turns.

Fixpoint turns_allowed (agent_id : string) (pids : list Z) (r : Running) (turns : list ProxyTurn) : Prop :=
  match turns with
  | [] => True
  | turn :: turns =>
      may_turn r turn /\ smooth agent_id pids turn /\ output_ends (ru_plane r) turn /\
      turns_allowed agent_id pids (take_turns agent_id r [turn]) turns
  end.

Lemma turns_taken agent_id pids r turns :
  turns_allowed agent_id pids r turns -> rtc (task_step agent_id pids) r (take_turns agent_id r turns).
Proof.
  revert r. induction turns as [|turn turns IH]; intros r; [by constructor|].
  intros (H1 & H2 & H3 & H4). eapply rtc_l; [by exists turn|]. by apply (IH (take_turns agent_id r [turn])).
Qed.

(** The user types two letters, a message comes and is polled; the rest is written and shown
    after the command has ended. *)
Definition sample_plane : Plane :=
  mkPlane (to_bytes "ls") [] [] (to_bytes "ok") [] true true true sample_sessions.
Definition sample_first : list ProxyTurn :=
  [TypedTurn 1; DaemonTurn (all_alive, OpQueue "a" "hi"); PolledTurn all_alive true; TypedTurn 1].
Definition sample_last : list ProxyTurn :=
  [WrittenTurn Whole; ShownTurn 2 Whole; WrittenTurn Whole; WrittenTurn Whole; ShownTurn 0 Whole].

Definition sample_running : Running := mkRunning sample_plane true false [].
Definition sample_stopping : Running :=
  let r := take_turns "a" sample_running sample_first in mkRunning (ru_plane r) true true (ru_done r).

Lemma sample_run :
  exists t, runs (proxy_step (Mode := unit)) (rtc (task_step "a" [7%Z]))
    (proxy_session "a" true false false) (mkRunning sample_plane false false []) t (Ok (Some 0%Z))
    (take_turns "a" sample_stopping sample_last).
Proof.
  assert (rtc (task_step "a" [7%Z]) sample_running (take_turns "a" sample_running sample_first)) as Hfirst.
  { apply turns_taken. cbn. split_and!; try done; 
      try (by intros pid ->%list_elem_of_singleton). split; [by intros pid ->%list_elem_of_singleton|done]. }
  assert (rtc (task_step "a" [7%Z]) sample_stopping (take_turns "a" sample_stopping sample_last)) as Hlast.
  { apply turns_taken. by vm_compute. }
  eexists. unfold proxy_session.
  eapply (runs_vis _ _ _ _ _ _ tt sample_running); [constructor|done|].
  eapply (runs_vis _ _ _ _ _ _ (Ok tt)); [exact Hfirst|reflexivity|].
  eapply (runs_vis _ _ _ _ _ _ (CommandEnded (Ok (Some 0%Z)))); [constructor|reflexivity|].
  eapply (runs_vis _ _ _ _ _ _ tt sample_stopping); [constructor|reflexivity|].
  eapply (runs_vis _ _ _ _ _ _ tt); [exact Hlast|by split; [|left]|].
  eapply (runs_vis _ _ _ _ _ _ tt); [constructor|by split|].
  eapply (runs_vis _ _ _ _ _ _ (Ok tt)); [constructor|reflexivity|].
  by split_and!.
Qed.

Lemma agent_gets_everything_witness :
  exists session' chunks, let r := take_turns "a" sample_stopping sample_last in
    pl_written (ru_plane r) = concat (map chunk_bytes chunks) /\
    ["hi"] = messages_of chunks ++ as_pending_messages session'.
Proof.
  destruct sample_run as [t Hr].
  destruct (agent_gets_everything "a" [7%Z] sample_plane (AgentSessionState_new "t1" "a" "/p" None "claude" 7%Z)
    true false false t (Some 0%Z) (take_turns "a" sample_stopping sample_last))
    as (session' & chunks & Hw & _ & _ & _ & Hm & _); try done.
  - apply (bwf_binsert "a" _ []), bwf_nil.
  - left.
  - exists session', chunks. by split.
Defined.

(** A message is lost when the daemon's answer to the poll is: the daemon has forgotten it. *)
Lemma lost_answer_loses_message :
  let p := mkPlane [] [] [] [] [] true true true sample_sessions in
  let p' := proxy_turns "a" p [DaemonTurn (all_alive, OpQueue "a" "hi"); PolledTurn all_alive false;
                               PolledTurn all_alive true] in
  pl_channel p' = [] /\ pl_written p' = [] /\
  (as_pending_messages <$> bget "a" (pl_sessions p')) = Some [].
Proof. by vm_compute. Qed.

(** ** What it leaves behind *)

Section leaves.
Context {Mode : Type} (cfmakeraw : Mode -> Mode).

(** What is done to the mode of a terminal and to the session. *)
Inductive Deed :=
  | GotMode (fd : Z) (mode : Mode)
  | ModeSet (fd : Z) (mode : Mode) (r : outcome unit)
  | Registered (r : outcome unit)
  | Unregistered (agent_id : string).

Definition deed_of (ev : event (ProxyE (Mode := Mode))) : option Deed :=
  match ev with
  | @Ev _ R e r =>
      match e in ProxyE R return R -> option Deed with
      | GetMode fd => fun r => match r with Ok mode => Some (GotMode fd mode) | _ => None end
      | SetMode fd mode => fun r => Some (ModeSet fd mode r)
      | RegisterSession _ => fun r => Some (Registered r)
      | UnregisterSession agent_id => fun _ => Some (Unregistered agent_id)
      | _ => fun _ => None
      end r
  end.

(** The terminal was not touched, or not made raw, or made raw and then given its own mode
    again. *)
Inductive mode_settled (terminal_fd : option Z) : list Deed -> Prop :=
  | not_touched : mode_settled terminal_fd []
  | not_raw fd original r :
      terminal_fd = Some fd -> r <> Ok tt ->
      mode_settled terminal_fd [GotMode fd original; ModeSet fd (cfmakeraw original) r]
  | given_back fd original r :
      terminal_fd = Some fd ->
      mode_settled terminal_fd [GotMode fd original; ModeSet fd (cfmakeraw original) (Ok tt); ModeSet fd original r].

Definition of_mode (deed : Deed) : bool := match deed with GotMode _ _ | ModeSet _ _ _ => true | _ => false end.
Definition modes (deeds : list Deed) : list Deed := List.filter of_mode deeds.
Definition session_deeds (deeds : list Deed) : list Deed := List.filter (fun d => negb (of_mode d)) deeds.

Lemma session_seen agent_id registered auto_share resizing :
  seen deed_of (proxy_session (Mode := Mode) agent_id registered auto_share resizing)
    (fun deeds o => modes deeds = [] /\
       forall code, o = Ok code -> session_deeds deeds = if registered then [Unregistered agent_id] else []).
Proof.
  assert (modes [] = [] /\ modes [Unregistered agent_id] = []) as [Hm Hm'] by done.
  unfold proxy_session. cbn. intros _ [u|e| |]; cbn; try done.
  intros [status|]; cbn; [destruct status as [status|e| |]; cbn; try done; intros _ _ _
                         |intros _ [status|e| |]; cbn; try done; intros _ _ _].
  all: destruct registered; cbn; [|done]; intros [u'|e| |]; cbn; done.
Qed.

Lemma drop_seen (guard : option (TerminalModeGuard (Mode := Mode))) (P : list Deed -> outcome unit -> Prop) :
  (forall r o, P (match guard with
                  | Some guard => if tg_active guard then [ModeSet (tg_fd guard) (tg_original guard) r] else []
                  | None => []
                  end) o) ->
  seen deed_of (drop_guard guard) P.
Proof.
  intros HP. destruct guard as [[fd original []]|]; cbn; [|by apply (HP (Ok tt))..].
  intros r. cbn. destruct r as [u|e| |]; cbn; [apply (HP (Ok u))|apply (HP (Err e))|apply (HP Panic)|apply (HP OutOfFuel)].
Qed.

(** A panic unwinds the stack, which is not modelled. *)
Definition returned {A} (o : outcome A) : Prop := match o with Panic | OutOfFuel => False | _ => True end.

(** While the guard is held, and its drop. *)
Definition held (agent_id : string) (registered auto_share resizing : bool)
    (guard : option (TerminalModeGuard (Mode := Mode))) : prog (ProxyE (Mode := Mode)) Z :=
  status ← attempt (proxy_session agent_id registered auto_share resizing);
  _ ← drop_guard guard;
  status ← Ret status;
  mret (default 1%Z status).

#[local] Arguments held : simpl never.

Definition unregisters (agent_id : string) (registered : bool) (deeds : list Deed) (o : outcome Z) : Prop :=
  forall code, o = Ok code -> session_deeds deeds = if registered then [Unregistered agent_id] else [].

Lemma held_seen agent_id registered auto_share resizing guard :
  seen deed_of (held agent_id registered auto_share resizing guard)
    (fun deeds o => unregisters agent_id registered deeds o /\
       (returned o -> exists r, modes deeds =
          match guard with
          | Some guard => if tg_active guard then [ModeSet (tg_fd guard) (tg_original guard) r] else []
          | None => []
          end)).
Proof.
  unfold held. apply seen_bind, seen_attempt. eapply seen_mono; [|apply session_seen].
  intros deeds o [Hm Hs]. assert (forall (r : outcome (option Z)), o = r -> returned r -> seen deed_of
    (_ ← drop_guard guard; status ← Ret r; mret (default 1%Z status)) (fun l2 o' =>
      unregisters agent_id registered (deeds ++ l2) o' /\ (returned o' -> exists r, modes (deeds ++ l2) =
          match guard with
          | Some guard => if tg_active guard then [ModeSet (tg_fd guard) (tg_original guard) r] else []
          | None => []
          end))) as Hok.
  { intros r -> Hr. apply seen_bind, drop_seen. intros rm od. set (gd := match guard with Some _ => _ | None => [] end).
    assert (modes (deeds ++ gd) = gd /\ session_deeds (deeds ++ gd) = session_deeds deeds) as [E1 E2].
    { unfold modes, session_deeds in *. rewrite !List.filter_app, Hm.
      subst gd. destruct guard as [[? ? []]|]; cbn; by rewrite ?app_nil_r. }
    unfold unregisters. destruct od as [u|e| |]; cbn; try done.
    - destruct r as [status|e| |]; cbn; try done; rewrite app_nil_r, E1, E2; (split; [|intros _; by exists rm]); [|done].
      intros code _. by eapply Hs.
    - rewrite E1. split; [done|]. intros _. by exists rm. }
  destruct o as [status|e| |]; [by apply (Hok (Ok status))|by apply (Hok (Err e))|by split..].
Qed.

Lemma guarded_seen agent_id terminal_fd registered auto_share resizing :
  seen deed_of (guard ← activate cfmakeraw terminal_fd; held agent_id registered auto_share resizing guard)
    (fun deeds o => unregisters agent_id registered deeds o /\ (returned o -> mode_settled terminal_fd (modes deeds))).
Proof.
  pose proof (held_seen agent_id registered auto_share resizing) as Hheld.
  assert (forall o, (forall code, o <> Ok code) -> unregisters agent_id registered [] o) as Hnone.
  { intros o Ho code ->. by destruct (Ho code). }
  destruct terminal_fd as [fd|]; cbn.
  2:{ eapply seen_mono; [|apply (Hheld None)]. intros deeds o [Hu Hr]. split; [done|]. intros Ho.
      destruct (Hr Ho) as [_ Hm]. change (mode_settled ?t (List.filter of_mode deeds)) with (mode_settled t (modes deeds)).
      rewrite Hm. constructor. }
  intros []; cbn.
  2:{ eapply seen_mono; [|apply (Hheld None)]. intros deeds o [Hu Hr]. split; [done|]. intros Ho.
      destruct (Hr Ho) as [_ Hm]. change (mode_settled ?t (List.filter of_mode deeds)) with (mode_settled t (modes deeds)).
      rewrite Hm. constructor. }
  intros [original|e| |]; cbn; try (by split; [apply Hnone|intros; constructor]).
  intros [u|e| |]; cbn; try (by split; [intros code|intros _; apply (not_raw _ fd original)]).
  eapply seen_mono; [|apply (Hheld (Some (mkGuard fd original true)))]. intros deeds o [Hu Hr]. split; [exact Hu|].
  intros Ho. destruct (Hr Ho) as [r Hm]. unfold modes in *. cbn in *. rewrite Hm. destruct u.
  by apply (given_back _ fd original r).
Qed.

(** The proxy leaves the terminal and the daemon as it found them. However it returns, the
    mode of the terminal was not changed to raw, or it was given back the mode it had before;
    and when it returns the code of the command, the session that was registered has been
    unregistered, once, and one that could not be registered has not. *)
Theorem proxy_leaves_no_trace command agent_id terminal_fd auto_share :
  seen deed_of (run_proxy cfmakeraw command agent_id terminal_fd auto_share)
    (fun deeds o => (returned o -> mode_settled terminal_fd (modes deeds)) /\
       forall code, o = Ok code ->
         session_deeds deeds = [Registered (Ok tt); Unregistered agent_id] \/
         exists e, session_deeds deeds = [Registered (Err e)]).
Proof.
  assert (forall o : outcome Z, (forall code, o <> Ok code) ->
    (returned o -> mode_settled terminal_fd (modes [])) /\ forall code, o = Ok code ->
       session_deeds [] = [Registered (Ok tt); Unregistered agent_id] \/ exists e, session_deeds [] = [Registered (Err e)]) as Hnone.
  { intros o Ho. split; [constructor|]. intros code ->. by destruct (Ho code). }
  unfold run_proxy. destruct command as [|program args]; [by apply Hnone|].
  apply seen_quiet; [by apply quiet_try|intros _|by intros; apply Hnone..].
  apply seen_quiet; [|intros _|by intros; apply Hnone..].
  { destruct terminal_fd as [fd|]; [|apply quiet_ret]. apply quiet_bind; [|by intros; apply quiet_try].
    apply quiet_bind; [by apply quiet_try|]. intros; apply quiet_ret. }
  apply seen_quiet; [by apply quiet_try|intros id|by intros; apply Hnone..].
  apply seen_quiet; [destruct id; [apply quiet_ret|by apply quiet_trigger]|intros pid|by intros; apply Hnone..].
  apply seen_quiet; [by apply quiet_trigger|intros dir|by intros; apply Hnone..].
  pose proof (guarded_seen agent_id terminal_fd) as Hg.
  assert (forall (answer : outcome unit) registered deeds o,
    registered = match answer with Ok _ => true | _ => false end -> returned answer ->
    unregisters agent_id registered deeds o /\ (returned o -> mode_settled terminal_fd (modes deeds)) ->
    (returned o -> mode_settled terminal_fd (modes (Registered answer :: deeds))) /\
    forall code, o = Ok code ->
      session_deeds (Registered answer :: deeds) = [Registered (Ok tt); Unregistered agent_id] \/
      exists e, session_deeds (Registered answer :: deeds) = [Registered (Err e)]) as Hfin.
  { intros answer registered deeds o -> Ha [Hu Hr]. split; [done|]. intros code Ho. specialize (Hu code Ho).
    change (session_deeds (Registered answer :: deeds)) with (Registered answer :: session_deeds deeds). rewrite Hu.
    destruct answer as [[]|e| |]; [by left|right; by exists e|done..]. }
  change (seen deed_of ?p) with (seen deed_of p). intros answer. destruct answer as [u|err| |]; cbn.
  - eapply seen_mono; [|apply (Hg true)]. intros deeds o. by apply (Hfin (Ok u)).
  - intros _. eapply seen_mono; [|apply (Hg false)]. intros deeds o. by apply (Hfin (Err err)).
  - by split.
  - by split.
Qed.
End leaves.
