(* ===== verification/Output.v ===== *)
(** * What is shown to a person

    Models [src/cli/output.rs]: the lines that describe a run, its services, the watching of
    their files and the facets of a search. The answers in the form for programs
    ([print_toon]) are written by a library. *)

From stdpp Require Import gmap.
From S2P Require Import Prelude Bytes BMap Util Json RunModel Lifecycle Manifest Commands LogQuery Queries.
From Stdlib Require Import Lia ZArith.

(** ** Text *)

(** A string is UTF-8: its characters are the bytes that do not continue one. *)
Definition continues (b : ascii) : bool := (Z.land (Z.of_nat (nat_of_ascii b)) 192 =? 128)%Z.
Definition char_count (s : string) : nat := length (List.filter (fun b => negb (continues b)) (to_bytes s)).

Definition spaces (n : nat) : string := of_bytes (replicate n " "%char).

(** [{:width$}] and [{:>width$}] *)
Definition pad_right (width : nat) (s : string) : string := s +:+ spaces (width - char_count s).
Definition pad_left (width : nat) (s : string) : string := spaces (width - char_count s) +:+ s.

(** [str::len] and the longest of some. *)
Definition byte_len (s : string) : nat := length (to_bytes s).
Definition longest (l : list string) : nat := foldr Nat.max 0 (map byte_len l).

Definition newline : string := String.String "010" "".

Fixpoint comma_loop (digits : bytes) : bytes :=
  match digits with
  | [] => []
  | ch :: rest =>
      let remaining := length rest in
      ch :: (if (0 <? remaining) && (remaining mod 3 =? 0) then [","%char] else []) ++ comma_loop rest
  end.

Definition format_count_with_commas (value : nat) : string := of_bytes (comma_loop (to_bytes (show (Z.of_nat value)))).

(** ** Facets *)

Definition facet_row (value_width count_width : nat) (item : FacetValueCount * string) : string :=
  "  " +:+ pad_right value_width (fv_value item.1) +:+ "  " +:+ pad_left count_width item.2 +:+ newline.

Definition format_facet_section (name : string) (values : list FacetValueCount) : string :=
  let header := name +:+ " (" +:+ show (Z.of_nat (length values)) +:+ "):" +:+ newline in
  if bool_decide (values = []) then header else
  let max_value_width := longest (map fv_value values) in
  let formatted_counts := map (fun item => format_count_with_commas (fv_count item)) values in
  let max_count_width := longest formatted_counts in
  foldl (fun out item => out +:+ facet_row max_value_width max_count_width item) header
    (zip values formatted_counts).

(** The filters of an answer, with an empty line between two of them. *)
Fixpoint facet_sections (out : string) (filters : list FacetFilter) : string :=
  match filters with
  | [] => out
  | filter :: rest =>
      let section_name := ff_field filter +:+ " [" +:+ ff_kind filter +:+ "]" in
      let out := out +:+ format_facet_section section_name (ff_values filter) in
      facet_sections (match rest with [] => out | _ :: _ => out +:+ newline end) rest
  end.

Definition format_log_facets `{Json} (label : string) (response : LogViewResponse) : string :=
  let out := label +:+ newline +:+ newline in
  if bool_decide (vr_filters response = []) then out +:+ "filters (0):" +:+ newline
  else facet_sections out (vr_filters response).

(** ** Times *)

Definition MINUTE : Z := 60.
Definition HOUR : Z := 60 * MINUTE.
Definition DAY : Z := 24 * HOUR.

Definition format_compact_duration (seconds : Z) : string :=
  if (DAY <=? seconds)%Z then show (seconds / DAY)%Z +:+ "d"
  else if (HOUR <=? seconds)%Z then show (seconds / HOUR)%Z +:+ "h"
  else if (MINUTE <=? seconds)%Z then show (seconds / MINUTE)%Z +:+ "m"
  else show seconds +:+ "s".

Section status.
(** The clock and the times it is compared with, in nanoseconds. *)
Context (parse_rfc3339 : string -> option Z) (now : Z).

Definition format_relative_timestamp (timestamp : string) : string :=
  match parse_rfc3339 timestamp with
  | None => "unknown"
  | Some ts =>
      let elapsed := Z.quot (now - ts) (10 ^ 9) in
      if (elapsed <=? 0)%Z then "just now" else format_compact_duration elapsed +:+ " ago"
  end.

(** ** Runs *)

Definition is_service_healthy (svc : ServiceStatus) : bool :=
  if negb (bool_decide (su_state svc = Ready)) then false
  else default true (stats ← su_health svc; hs_last_ok stats).

Definition colored (code text : string) : string := String.String "027" ("[" +:+ code +:+ "m" +:+ text +:+ String.String "027" "[0m").

Definition colored_state (is_tty : bool) (state : ServiceState) : string :=
  let label := service_state_name state in
  if is_tty
  then match state with
       | Ready => colored "32" label
       | Degraded => colored "33" label
       | Failed => colored "31" label
       | _ => label
       end
  else label.

Definition status_lines_of (is_tty : bool) (max_name_len : nat) (entry : string * ServiceStatus) : list string :=
  let '(name, svc) := entry in
  let uptime := match su_uptime_seconds svc with
                | Some s => "(up " +:+ format_compact_duration s +:+ ")"
                | None => "(up unknown)"
                end in
  let watch_suffix := if su_auto_restart svc then if su_watch_paused svc then "  [paused]" else "  [watching]"
                      else "" in
  ("  " +:+ pad_right max_name_len name +:+ "  " +:+ colored_state is_tty (su_state svc) +:+ "  "
    +:+ default "" (su_url svc) +:+ "  " +:+ uptime +:+ watch_suffix)
  :: match last (su_recent_errors svc) with
     | Some (timestamp, message) =>
         ["    last error (" +:+ from_option format_relative_timestamp "unknown" timestamp +:+ "): " +:+ message]
     | None => []
     end.

Definition print_status_human (is_tty : bool) (status : RunStatus) : list string :=
  let total_services := length (ru_services status) in
  let healthy_services := length (List.filter is_service_healthy (bvalues (ru_services status))) in
  ("stack: " +:+ ru_stack status +:+ " (" +:+ run_lifecycle_name (ru_state status) +:+ ", "
    +:+ show (Z.of_nat healthy_services) +:+ "/" +:+ show (Z.of_nat total_services) +:+ " healthy)")
  :: flat_map (status_lines_of is_tty (longest (bkeys (ru_services status)))) (ru_services status).

Definition icon_and_state (state : ServiceState) : string * string :=
  match state with
  | Ready => ("✓", "ready")
  | Starting => ("●", "starting")
  | Failed => ("✗", "failed")
  | Degraded => ("!", "degraded")
  | Stopped => ("○", "stopped")
  end.

Definition up_lines_of (is_tty : bool) (max_name_len : nat) (entry : string * ServiceResponse) : list string :=
  let '(name, svc) := entry in
  let '(icon, state) := icon_and_state (sp_state svc) in
  let text := icon +:+ " " +:+ state in
  let shown := if is_tty
               then match sp_state svc with
                    | Ready => colored "32" text
                    | Failed => colored "31" text
                    | Degraded => colored "33" text
                    | _ => text
                    end
               else text in
  let url := default "" (sp_url svc) in
  ("  " +:+ pad_right max_name_len name +:+ "  " +:+ shown +:+ (if bool_decide (url = "") then "" else "  " +:+ url))
  :: match sp_last_failure svc with Some failure => ["    " +:+ failure] | None => [] end.

Definition print_up_summary (is_tty : bool) (run : RunResponse) : list string :=
  flat_map (up_lines_of is_tty (longest (bkeys (rp_services run)))) (rp_services run).

Definition watch_state (svc : WatchServiceStatus) : string :=
  if negb (ws_auto_restart svc) then "disabled"
  else if ws_paused svc then "paused"
  else if ws_active svc then "watching" else "inactive".

Definition show_bool (b : bool) : string := if b then "true" else "false".

Definition print_watch_status_human (status : RunWatchResponse) : list string :=
  ("watch: " +:+ rw_run_id status)
  :: "  service    auto_restart  status"
  :: map (fun entry : string * WatchServiceStatus =>
       "  " +:+ pad_right 9 entry.1 +:+ "  " +:+ pad_right 12 (show_bool (ws_auto_restart entry.2)) +:+ "  "
       +:+ watch_state entry.2) (rw_services status).
End status.

(** ** The table of the facets *)

Lemma char_count_app a b : char_count (a +:+ b) = char_count a + char_count b.
Proof. unfold char_count. by rewrite to_bytes_app, List.filter_app, length_app. Qed.

Lemma char_count_spaces n : char_count (spaces n) = n.
Proof. unfold char_count, spaces. rewrite to_of_bytes. induction n as [|n IH]; [done|]. change (S (length (List.filter (fun b => negb (continues b)) (replicate n " "%char))) = S n). by rewrite IH. Qed.

Lemma char_count_bytes s : char_count s <= byte_len s.
Proof. apply filter_length_le. Qed.

Lemma longest_spec s l : s ∈ l -> byte_len s <= longest l.
Proof.
  unfold longest. induction l as [|x l IH]; [by intros ?%elem_of_nil|]. cbn. rewrite elem_of_cons.
  intros [->|Hin%IH]; lia.
Qed.

Lemma pad_right_width width s : char_count s <= width -> char_count (pad_right width s) = width.
Proof. intros Hs. unfold pad_right. rewrite char_count_app, char_count_spaces. lia. Qed.

Lemma pad_left_width width s : char_count s <= width -> char_count (pad_left width s) = width.
Proof. intros Hs. unfold pad_left. rewrite char_count_app, char_count_spaces. lia. Qed.

Lemma comma_loop_groups digits :
  digits <> [] -> exists head groups,
    comma_loop digits = head ++ flat_map (cons ","%char) groups /\
    digits = head ++ concat groups /\ 1 <= length head <= 3 /\ Forall (fun g => length g = 3) groups.
Proof.
  induction digits as [|ch [|d rest] IH]; [done| |].
  { intros _. exists [ch], []. cbn. split_and!; try done; lia. }
  intros _. destruct IH as (head & groups & E & Ed & Hh & Hg); [done|].
  assert (length (d :: rest) = length head + 3 * length groups) as Hl.
  { rewrite Ed, length_app. f_equal. clear -Hg. induction Hg as [|g groups Hlen _ IH]; cbn; [done|].
    rewrite length_app, IH. lia. }
  remember (d :: rest) as tail eqn:Htail. cbn [comma_loop]. rewrite E.
  replace (0 <? length tail) with true by (symmetry; apply Nat.ltb_lt; rewrite Htail; cbn; lia). cbn [andb].
  destruct (Nat.eqb_spec (length tail mod 3) 0) as [H3|H3].
  - exists [ch], (head :: groups). cbn. rewrite Ed. split_and!; try done; try lia. constructor; [|done].
    assert (length head mod 3 = 0) by (rewrite Hl, Nat.mul_comm, Nat.Div0.mod_add in H3; done).
    destruct (length head) as [|[|[|[|n]]]]; cbn in *; lia.
  - exists (ch :: head), groups. cbn. rewrite Ed. split_and!; try done; try lia.
    assert (length head <> 3); [|lia]. intros Hc. apply H3. rewrite Hl, Hc, Nat.mul_comm, Nat.Div0.mod_add. done.
Qed.

(** A number with its digits in groups of three from the right. *)
Definition thousands (n : nat) (text : string) : Prop :=
  exists head groups,
    to_bytes text = head ++ flat_map (cons ","%char) groups /\
    to_bytes (show (Z.of_nat n)) = head ++ concat groups /\ 1 <= length head <= 3 /\
    Forall (fun g => length g = 3) groups.

Lemma pretty_N_go_end x s : exists r, to_bytes (pretty_N_go x s) = r ++ to_bytes s.
Proof.
  revert s. induction (N.lt_wf_0 x) as [x _ IH]. intros s. destruct (decide (0 < x)%N) as [Hpos|Hz].
  - rewrite pretty_N_go_step by done. destruct (IH (x `div` 10)%N) with (s := String.String (pretty_N_char (x `mod` 10)) s)
      as [r ->]; [by apply N.div_lt|]. exists (r ++ [pretty_N_char (x `mod` 10)]). by rewrite <- app_assoc.
  - assert (x = 0)%N as -> by lia. exists []. by rewrite pretty_N_go_0.
Qed.

Lemma shown_nonempty n : (0 <= n)%Z -> to_bytes (show n) <> [].
Proof.
  intros Hn. destruct (decide (n = 0)%Z) as [->|]; [done|]. rewrite show_nat by lia.
  rewrite pretty_N_go_step by lia.
  destruct (pretty_N_go_end (Z.to_N n `div` 10) (String.String (pretty_N_char (Z.to_N n `mod` 10)) "")) as [r ->].
  by destruct r.
Qed.

Lemma count_thousands n : thousands n (format_count_with_commas n).
Proof.
  unfold thousands, format_count_with_commas. rewrite to_of_bytes.
  destruct (comma_loop_groups (to_bytes (show (Z.of_nat n)))) as (head & groups & H); [apply shown_nonempty; lia|].
  by exists head, groups.
Qed.

(** A row of a table: the value, padded, and its count, flush right. *)
Definition row_of (width : nat) (item : FacetValueCount) (row : string) : Prop :=
  char_count row = width /\ exists a b count,
    row = "  " +:+ fv_value item +:+ spaces a +:+ "  " +:+ spaces b +:+ count +:+ newline /\ thousands (fv_count item) count.

(** The table of a filter: how many values it has, and a row for each of them. *)
Definition table_of (filter : FacetFilter) (section : string) : Prop :=
  exists width rows,
    to_bytes section
      = to_bytes (ff_field filter +:+ " [" +:+ ff_kind filter +:+ "] (" +:+ show (Z.of_nat (length (ff_values filter)))
                  +:+ "):" +:+ newline) ++ concat (map to_bytes rows) /\
    Forall2 (row_of width) (ff_values filter) rows.

Lemma rows_foldl {A} (f : A -> string) l out :
  to_bytes (foldl (fun out a => out +:+ f a) out l) = to_bytes out ++ concat (map (fun a => to_bytes (f a)) l).
Proof.
  revert out. induction l as [|a l IH]; intros out; cbn; [by rewrite app_nil_r|].
  by rewrite IH, to_bytes_app, <- app_assoc.
Qed.

Lemma facet_row_of vw cw item :
  byte_len (fv_value item) <= vw -> byte_len (format_count_with_commas (fv_count item)) <= cw ->
  row_of (vw + cw + 5) item (facet_row vw cw (item, format_count_with_commas (fv_count item))).
Proof.
  intros Hv Hc. pose proof (char_count_bytes (fv_value item)). pose proof (char_count_bytes (format_count_with_commas (fv_count item))).
  unfold row_of, facet_row. cbn [fst snd]. split.
  - rewrite !char_count_app, pad_right_width, pad_left_width by lia. change (char_count "  ") with 2.
    change (char_count newline) with 1. lia.
  - eexists _, _, _. split; [|apply count_thousands]. unfold pad_right, pad_left. apply to_bytes_inj.
    rewrite !to_bytes_app, <- !app_assoc. reflexivity.
Qed.

Lemma section_table filter :
  table_of filter (format_facet_section (ff_field filter +:+ " [" +:+ ff_kind filter +:+ "]") (ff_values filter)).
Proof.
  unfold table_of, format_facet_section. set (values := ff_values filter). 
  set (header := (ff_field filter +:+ " [" +:+ ff_kind filter +:+ "]") +:+ " (" +:+ show (Z.of_nat (length values)) +:+ "):" +:+ newline).
  assert (to_bytes (ff_field filter +:+ " [" +:+ ff_kind filter +:+ "] (" +:+ show (Z.of_nat (length values)) +:+ "):" +:+ newline)
          = to_bytes header) as ->.
  { subst header. rewrite !to_bytes_app, <- !app_assoc. reflexivity. }
  case_bool_decide as Hv.
  { exists 0, []. rewrite Hv, app_nil_r. by split. }
  set (vw := longest (map fv_value values)). set (counts := map _ values). set (cw := longest counts).
  exists (vw + cw + 5), (map (facet_row vw cw) (zip values counts)). rewrite rows_foldl, map_map. split; [done|].
  assert (forall l, (forall item, item ∈ l -> item ∈ values) ->
    Forall2 (row_of (vw + cw + 5)) l
      (map (facet_row vw cw) (zip l (map (fun item => format_count_with_commas (fv_count item)) l)))) as Hrows.
  { induction l as [|item l IH]; intros Hl; constructor.
    - apply facet_row_of; apply longest_spec, list_elem_of_In, in_map_iff; exists item;
        (split; [done|]); apply list_elem_of_In, Hl; by left.
    - apply IH. intros i Hi. apply Hl. by right. }
  by apply Hrows.
Qed.

Lemma sections_join (filters : list FacetFilter) out :
  to_bytes (facet_sections out filters)
  = to_bytes out ++ to_bytes (join newline (map (fun filter =>
      format_facet_section (ff_field filter +:+ " [" +:+ ff_kind filter +:+ "]") (ff_values filter)) filters)).
Proof.
  revert out. induction filters as [|filter [|next filters] IH]; intros out;
    [by rewrite app_nil_r|by cbn [facet_sections map join]; rewrite to_bytes_app|].
  cbn [facet_sections map join]. cbn [facet_sections map] in IH. rewrite IH, !to_bytes_app, <- !app_assoc. done.
Qed.

(** The facets are shown in full and in tables: after the label there is for each filter
    of the answer, in order and apart by an empty line, a header with the number of its values
    and a row for each value with its count - the rows of one table end in the same column,
    and a count reads as its digits, in groups of three. *)
Theorem facets_tabled `{Json} label response :
  exists tables,
    Forall2 table_of (vr_filters response) tables /\
    format_log_facets label response
      = label +:+ newline +:+ newline +:+
        (if bool_decide (vr_filters response = []) then "filters (0):" +:+ newline else join newline tables).
Proof.
  exists (map (fun filter => format_facet_section (ff_field filter +:+ " [" +:+ ff_kind filter +:+ "]") (ff_values filter))
            (vr_filters response)). split.
  { induction (vr_filters response) as [|filter filters IH]; constructor; [apply section_table|done]. }
  unfold format_log_facets. case_bool_decide as Hf; apply to_bytes_inj;
    [by rewrite !to_bytes_app, <- !app_assoc|].
  by rewrite sections_join, !to_bytes_app, <- !app_assoc.
Qed.

(** A duration is shown in the largest unit that fits: the number is how many whole units
    of it there are, and it is at least one, of seconds only below a minute. *)
Theorem compact_duration_spec seconds :
  (0 <= seconds)%Z ->
  exists n unit size, (unit, size) ∈ [("s", 1); ("m", MINUTE); ("h", HOUR); ("d", DAY)]%Z /\
    format_compact_duration seconds = show n +:+ unit /\ (n * size <= seconds < (n + 1) * size)%Z /\
    forall unit' size', (unit', size') ∈ [("s", 1); ("m", MINUTE); ("h", HOUR); ("d", DAY)]%Z ->
      (size' <= seconds -> size' <= size)%Z.
Proof.
  intros Hs. unfold format_compact_duration. change MINUTE with 60%Z. change HOUR with 3600%Z. change DAY with 86400%Z.
  destruct (Z.leb_spec 86400 seconds); [eexists _, "d", 86400%Z|destruct (Z.leb_spec 3600 seconds);
    [eexists _, "h", 3600%Z|destruct (Z.leb_spec 60 seconds); [eexists _, "m", 60%Z|eexists _, "s", 1%Z]]].
  all: split; [set_solver|]; split; [done|]; split; [Z.to_euclidean_division_equations; lia|].
  all: intros unit' size'; rewrite !elem_of_cons, elem_of_nil; intros [[= -> ->]|[[= -> ->]|[[= -> ->]|[[= -> ->]|[]]]]]; lia.
Qed.

(** A service counts as healthy when it is ready and its last check, if there was one, passed. *)
Lemma healthy_spec svc :
  is_service_healthy svc = true <->
  su_state svc = Ready /\ forall stats, su_health svc = Some stats -> hs_last_ok stats <> Some false.
Proof.
  unfold is_service_healthy. case_bool_decide as Hr; cbn; [|naive_solver].
  destruct (su_health svc) as [stats|]; cbn; [|naive_solver].
  destruct (hs_last_ok stats) as [[]|] eqn:E; cbn; naive_solver.
Qed.
