(* ===== verification/Setup.v ===== *)
(** * Setting up

    Models [src/cli/commands/setup.rs] on Linux: the service file of the daemon, the first
    configuration of a project and its check, and the description of the interface that is
    kept up to date with the source. *)

From stdpp Require Import gmap.
From S2P Require Import Prelude Bytes BMap Util Program ConfigModel ConfigPlan ConfigValidate CliContext.
From Stdlib Require Import Lia ZArith.

Definition quote : string := String "034" "".
Definition line_feed : string := String "010" "".
Definition quoted (s : string) : string := quote +:+ s +:+ quote.

Inductive SetupE : Type -> Type :=
  | CurrentDir : SetupE (outcome string)
  | CurrentExe : SetupE (outcome string)
  | HomeVar : SetupE (outcome string)
  | Exists (path : string) : SetupE bool
  | CreateDirAll (path : string) : SetupE (outcome unit)
  | WriteFile (path contents : string) : SetupE (outcome unit)
  | RunCommand (program : string) (args : list string) : SetupE (outcome bool)
  | WatchPath (path : string) : SetupE (outcome unit)
  | Say (text : string) : SetupE unit.

Abbreviation setup := (prog SetupE).

(** ** The service of the daemon *)

Definition unit_contents (exe : string) : string :=
  join line_feed
    ["[Unit]"; "Description=devstack daemon"; ""; "[Service]"; "Type=notify";
     "ExecStart=" +:+ to_string_lossy exe +:+ " daemon"; "Restart=on-failure"; "NotifyAccess=main"; "";
     "[Install]"; "WantedBy=default.target"; ""].

Definition run_checked (program : string) (args : list string) (failure : string) : setup unit :=
  success ← try_trigger (RunCommand program args);
  if success : bool then mret tt else Ret (Err failure).

Definition install : setup unit :=
  exe ← on_error (fun _ => "current_exe") (try_trigger CurrentExe);
  home ← try_trigger HomeVar;
  let service_dir := path_join home ".config/systemd/user" in
  _ ← try_trigger (CreateDirAll service_dir);
  let unit_path := path_join service_dir "devstack.service" in
  _ ← try_trigger (WriteFile unit_path (unit_contents exe));
  _ ← run_checked "systemctl" ["--user"; "daemon-reload"] "systemctl --user daemon-reload failed";
  _ ← run_checked "systemctl" ["--user"; "enable"; "--now"; "devstack.service"] "systemctl --user enable --now failed";
  trigger (Say ("Installed systemd user service at " +:+ to_string_lossy unit_path)).

(** ** The first configuration *)

Definition template : string :=
  join line_feed
    ["# devstack config"; "version = 1"; "";
     "[stacks.app.services.api]";
     "cmd = " +:+ quoted "python3 -m http.server {{ services.api.port }}";
     "readiness = { tcp = {} }"; "";
     "[stacks.app.services.web]";
     "cmd = " +:+ quoted "python3 -m http.server {{ services.web.port }}";
     "deps = [" +:+ quoted "api" +:+ "]";
     "readiness = { tcp = {} }";
     "env = { API_URL = " +:+ quoted "{{ services.api.url }}" +:+ " }"; ""].

#[local] Arguments template : simpl never.

(** [ConfigFile::default_path]: the file that is there, or the one to make. *)
Definition default_path_of (project_dir : string) : setup string :=
  let toml := path_join project_dir "devstack.toml" in
  has_toml ← trigger (Exists toml);
  if has_toml : bool then mret toml else
  let yaml := path_join project_dir "devstack.yml" in
  has_yaml ← trigger (Exists yaml);
  if has_yaml : bool then mret yaml else
  let yaml_alt := path_join project_dir "devstack.yaml" in
  has_alt ← trigger (Exists yaml_alt);
  mret (if has_alt : bool then yaml_alt else toml).

(** The working directory is asked for in any case. *)
Definition init (project file : option string) : setup unit :=
  cwd ← try_trigger CurrentDir;
  let project_dir := default cwd project in
  config_path ← match file with Some file => mret file | None => default_path_of project_dir end;
  there ← trigger (Exists config_path);
  if there : bool then Ret (Err ("config already exists at " +:+ to_string_lossy config_path)) else
  _ ← try_trigger (CreateDirAll project_dir);
  _ ← try_trigger (WriteFile config_path template);
  trigger (Say ("Wrote " +:+ to_string_lossy config_path)).

(** ** Its check *)

Record LintResponse := mkLintResponse {
  ln_path : string;
  ln_default_stack : option string;
  ln_stacks : list string;
  ln_globals : list string;
}.

Section lint.
Context (cwd : outcome string) (home : option string) (exists_ is_file : string -> bool).
Context (debug : string -> string) (parse_yaml parse_toml : bytes -> outcome ConfigFile).
Context (read : string -> outcome bytes).

(** The keys of a map are in order. *)
Definition lint (project file : option string) : outcome LintResponse :=
  resolved_context ← (cwd ← cwd; resolve_project_context_with_cwd home exists_ is_file cwd project file);
  config_path ← ok_or (pj_config_path resolved_context) "no devstack config found; run devstack init or pass --file";
  if negb (is_file config_path)
  then Err ("config not found at " +:+ to_string_lossy config_path +:+ "; run devstack init or pass --file") else
  config ← load_cli_config debug parse_yaml parse_toml read config_path;
  Ok (mkLintResponse (to_string_lossy config_path) (cf_default_stack config) (stack_names config)
        (bkeys (default [] (cf_globals config)))).
End lint.

(** ** The description of the interface *)

Fixpoint repo_root_from (fuel : nat) (dir : string) : setup string :=
  found ← trigger (Exists (path_join dir "Cargo.toml"));
  if found : bool then mret dir else
  match parent dir with
  | None => Ret (Err "could not find Cargo.toml (run from repo root)")
  | Some dir => match fuel with 0 => Ret OutOfFuel | S fuel => repo_root_from fuel dir end
  end.

Definition find_repo_root : setup string :=
  dir ← try_trigger CurrentDir; repo_root_from (String.length dir) dir.

Definition resolve_openapi_output (out : option string) : setup string :=
  match out with
  | Some out => mret out
  | None => root ← find_repo_root; mret (path_join root "openapi.json")
  end.

(** The description and what a change of a file may be. *)
Section openapi.
Context (spec_json : outcome string).

Definition write_openapi (out : option string) : setup unit :=
  out ← resolve_openapi_output out;
  json ← Ret spec_json;
  _ ← try_trigger (WriteFile out json);
  trigger (Say ("Wrote OpenAPI spec to " +:+ to_string_lossy out)).

Definition watch_paths (root : string) : list string :=
  map (path_join root) ["src/api.rs"; "src/model/lifecycle.rs"; "src/daemon.rs"; "src/openapi.rs"; "Cargo.toml"].

Definition watch_existing (watched_any : bool) (path : string) : setup bool :=
  there ← trigger (Exists path);
  if there : bool then _ ← try_trigger (WatchPath path); mret true else mret watched_any.

(** What the watcher reports: an error, or an event at a time in milliseconds and whether it
    is a change of a file. *)
Inductive WatcherReport := WatcherError (err : string) | WatcherEvent (at_ : Z) (changes : bool).

Definition on_report (out : string) (last_write : Z) (report : WatcherReport) : setup Z :=
  match report with
  | WatcherError err => _ ← trigger (Say ("warning: watcher error: " +:+ err)); mret last_write
  | WatcherEvent at_ changes =>
      if changes && (200 <=? at_ - last_write)%Z then
        answer ← attempt (write_openapi (Some out));
        _ ← match answer with
            | Err err => trigger (Say ("warning: failed to write OpenAPI: " +:+ err))
            | _ => mret tt
            end;
        mret at_
      else mret last_write
  end.

Definition watch_openapi (out : option string) (start : Z) (reports : list WatcherReport) : setup unit :=
  root ← find_repo_root;
  out ← resolve_openapi_output out;
  watched_any ← pfold watch_existing (watch_paths root) false;
  if negb watched_any
  then Ret (Err "no watch paths found; run from the repo root so src/*.rs is available") else
  _ ← write_openapi (Some out);
  _ ← trigger (Say "Watching for API changes...");
  _ ← pfold (on_report out) reports (start - 1000)%Z;
  mret tt.

Definition openapi (out : option string) (watch : bool) (start : Z) (reports : list WatcherReport) : setup unit :=
  if watch then watch_openapi out start reports else write_openapi out.
End openapi.

(** ** Nothing is overwritten *)

(** What is looked for and what is written. *)
Inductive FileAct := Looked (path : string) (there : bool) | Wrote_ (path contents : string).

Definition file_act (ev : event SetupE) : option FileAct :=
  match ev with
  | @Ev _ R e r =>
      match e in SetupE R return R -> option FileAct with
      | Exists path => fun there => Some (Looked path there)
      | WriteFile path contents => fun _ => Some (Wrote_ path contents)
      | _ => fun _ => None
      end r
  end.

Definition looks (act : FileAct) : Prop := match act with Looked _ _ => True | Wrote_ _ _ => False end.

(** [init] overwrites no configuration: it writes one file at most, the template, and only
    when it has just seen that there is no such file; when it ends well it has written it. *)
Theorem init_overwrites_nothing project file :
  seen file_act (init project file)
    (fun acts o => exists seen_ written, acts = seen_ ++ written /\ Forall looks seen_ /\
       (written = [] \/ exists path, last seen_ = Some (Looked path false) /\ written = [Wrote_ path template]) /\
       (o = Ok tt -> written <> [])).
Proof.
  assert (forall seen_ o, Forall looks seen_ -> (o <> Ok tt) -> exists s w, seen_ = s ++ w /\ Forall looks s /\
    (w = [] \/ exists path, last s = Some (Looked path false) /\ w = [Wrote_ path template]) /\ (o = Ok tt -> w <> [])) as Hnone.
  { intros s o Hs Ho. exists s, []. rewrite app_nil_r. split_and!; try done. by left. }
  unfold init. apply seen_quiet; [by apply quiet_try|intros cwd|by intros; apply (Hnone [])..].
  assert (forall config_path looked, Forall looks looked ->
    seen file_act (there ← trigger (Exists config_path);
      if there : bool then Ret (Err ("config already exists at " +:+ to_string_lossy config_path)) else
      _ ← try_trigger (CreateDirAll (default cwd project));
      _ ← try_trigger (WriteFile config_path template);
      trigger (Say ("Wrote " +:+ to_string_lossy config_path)))
    (fun acts o => exists s w, looked ++ acts = s ++ w /\ Forall looks s /\
       (w = [] \/ exists path, last s = Some (Looked path false) /\ w = [Wrote_ path template]) /\ (o = Ok tt -> w <> []))) as Hrest.
  { intros path looked Hl. cbn. intros there.
    assert (Forall looks (looked ++ [Looked path there])) as Hl' by (apply Forall_app; by repeat constructor).
    destruct there; cbn; [by apply Hnone|]. intros [u|e| |]; cbn; try by apply Hnone.
    assert (forall o : outcome unit, exists s w, looked ++ [Looked path false; Wrote_ path template] = s ++ w /\ Forall looks s /\
       (w = [] \/ exists path, last s = Some (Looked path false) /\ w = [Wrote_ path template]) /\ (o = Ok tt -> w <> [])) as Hdone.
    { intros o. exists (looked ++ [Looked path false]), [Wrote_ path template]. rewrite <- app_assoc. split_and!; try done.
      right. exists path. by rewrite last_snoc. }
    intros [u'|e| |]; cbn; [intros said| | |]; by apply Hdone. }
  destruct file as [file|]; [by apply (Hrest file [])|]. unfold default_path_of. cbn.
  intros []; cbn; [apply (Hrest _ [Looked _ true]); by repeat constructor|].
  intros []; cbn; [apply (Hrest _ [Looked _ false; Looked _ true]); by repeat constructor|].
  intros []; cbn; [apply (Hrest _ [Looked _ false; Looked _ false; Looked _ true])
                  |apply (Hrest _ [Looked _ false; Looked _ false; Looked _ false])]; by repeat constructor.
Qed.

(** ** The template is a configuration *)

Definition template_service (cmd : string) (deps : list string) (env : bmap string string) : ServiceConfig :=
  mkServiceConfig cmd deps None None None None None []
    (Some (mkReadinessConfig (Some tt) None None None None None None)) None env None [] [] false None None None.

(** What the template means as TOML. *)
Definition template_config : ConfigFile :=
  mkConfigFile 1
    [("app", mkStackConfig
        [("api", template_service "python3 -m http.server {{ services.api.port }}" [] []);
         ("web", template_service "python3 -m http.server {{ services.web.port }}" ["api"]
                   [("API_URL", "{{ services.api.url }}")])])]
    None None None [] None.

(** What [init] writes into a TOML file is a configuration that [lint] accepts, with one
    stack that starts the two services in the order of their dependency. *)
Theorem template_lints cwd home exists_ is_file debug parse_yaml parse_toml read project file ctx path :
  parse_toml (to_bytes template) = Ok template_config ->
  (cwd ← cwd; resolve_project_context_with_cwd home exists_ is_file cwd project file) = Ok ctx ->
  pj_config_path ctx = Some path -> extension path = Some "toml" -> is_file path = true ->
  read path = Ok (to_bytes template) ->
  lint cwd home exists_ is_file debug parse_yaml parse_toml read project file
    = Ok (mkLintResponse (to_string_lossy path) None ["app"] []) /\
  exists plan, stack_plan template_config "app" = Ok plan /\ sp_order plan = ["api"; "web"].
Proof.
  intros Hparse Hctx Hpath Hext Hfile Hread. split.
  2: { eexists. split; [vm_compute; reflexivity|reflexivity]. }
  unfold lint. rewrite Hctx. cbn. rewrite Hpath. cbn. rewrite Hfile. cbn.
  assert (load_cli_config debug parse_yaml parse_toml read path = Ok template_config) as ->; [|done].
  unfold load_cli_config, load_from_path. rewrite Hread. cbn [with_context map_err]. rewrite Hext.
  rewrite bool_decide_true by done. unfold parse_toml_bytes.
  assert (utf8_valid (to_bytes template) = true) as Hutf by (vm_compute; reflexivity).
  assert (validate template_config = Ok tt) as Hval by (vm_compute; reflexivity).
  change (Ok ?x ≫= ?f) with (f x). cbv beta. rewrite Hutf. cbn [with_context map_err].
  change (Ok ?x ≫= ?f) with (f x). cbv beta. rewrite Hparse. cbn [with_context map_err].
  change (Ok ?x ≫= ?f) with (f x). cbv beta. by rewrite Hval.
Qed.

Lemma template_lints_witness :
  let read := fun _ => Ok (to_bytes template) in
  lint (Ok "/home/me/app") None (fun _ => false) (fun p => bool_decide (p = "/home/me/app/devstack.toml"))
    id (fun _ => Err "yaml") (fun _ => Ok template_config) read None None
    = Ok (mkLintResponse (to_string_lossy "/home/me/app/devstack.toml") None ["app"] []) /\
  exists plan, stack_plan template_config "app" = Ok plan /\ sp_order plan = ["api"; "web"].
Proof.
  intros read.
  apply (template_lints (Ok "/home/me/app") None (fun _ => false) (fun p => bool_decide (p = "/home/me/app/devstack.toml"))
    id (fun _ => Err "yaml") (fun _ => Ok template_config) read None None
    (mkProjectContext "/home/me/app" (Some "/home/me/app/devstack.toml"))); vm_compute; reflexivity.
Defined.

(** ** The root of the repository *)

(** From a directory up to the first with a [Cargo.toml], or to the top. *)
Inductive climbs : string -> list FileAct -> outcome string -> Prop :=
  | climb_found dir : climbs dir [Looked (path_join dir "Cargo.toml") true] (Ok dir)
  | climb_up dir up acts o :
      parent dir = Some up -> climbs up acts o -> climbs dir (Looked (path_join dir "Cargo.toml") false :: acts) o
  | climb_top dir :
      parent dir = None ->
      climbs dir [Looked (path_join dir "Cargo.toml") false] (Err "could not find Cargo.toml (run from repo root)").

(** The search ends: it finds the nearest directory. *)
Lemma repo_root_climbs fuel dir :
  String.length dir <= fuel -> seen file_act (repo_root_from fuel dir) (climbs dir).
Proof.
  revert dir. induction fuel as [|fuel IH]; intros dir Hf; cbn; intros []; cbn; try apply climb_found.
  - destruct (parent dir) as [up|] eqn:Hp; [|by apply climb_top]. apply parent_shorter in Hp. lia.
  - destruct (parent dir) as [up|] eqn:Hp; [|by apply climb_top]. eapply seen_mono; [|apply IH].
    + intros acts o. by apply climb_up.
    + apply parent_shorter in Hp. lia.
Qed.

(** ** The description never changes *)

Section same.
Context (spec_json : outcome string).

(** What is written is the description. *)
Definition same (acts : list FileAct) : Prop :=
  forall path contents, Wrote_ path contents ∈ acts -> spec_json = Ok contents.

#[local] Abbreviation writes_same p := (seen file_act p (fun acts _ => same acts)).

Lemma same_nil : same [].
Proof. by intros ? ? ?%elem_of_nil. Qed.

Lemma same_bind {A B} (p : setup A) (f : A -> setup B) :
  writes_same p -> (forall a, writes_same (f a)) -> writes_same (p ≫= f).
Proof.
  intros Hp Hf. apply seen_bind. eapply seen_mono; [|exact Hp]. intros acts [a|e| |] Ha; try done.
  eapply seen_mono; [|apply Hf]. intros acts2 o2 H2 path contents. rewrite elem_of_app. intros [?|?]; eauto.
Qed.

Lemma same_quiet {A} (p : setup A) : quiet file_act p -> writes_same p.
Proof. intros Hp. eapply seen_mono; [|exact Hp]. intros acts o ->. apply same_nil. Qed.

Lemma same_attempt {A} (p : setup A) : writes_same p -> writes_same (attempt p).
Proof. intros Hp. apply seen_attempt. eapply seen_mono; [|exact Hp]. by intros acts [a|e| |]. Qed.

Lemma same_exists path : writes_same (trigger (Exists path)).
Proof. intros there. intros p contents [=]%list_elem_of_singleton. Qed.

Lemma same_pfold {A B} (f : B -> A -> setup B) l b :
  (forall b a, writes_same (f b a)) -> writes_same (pfold f l b).
Proof.
  intros Hf. revert b. induction l as [|a l IH]; intros b; [apply same_nil|]. cbn [pfold]. by apply same_bind.
Qed.

Lemma same_write out : writes_same (write_openapi spec_json (Some out)).
Proof.
  unfold write_openapi. cbn. destruct spec_json as [json|e| |] eqn:E; cbn; try apply same_nil.
  assert (same [Wrote_ out json]) as Hw by (intros p contents [= -> ->]%list_elem_of_singleton; exact E).
  by intros [u|e| |]; cbn.
Qed.

Lemma same_root : writes_same find_repo_root.
Proof.
  apply same_bind; [by apply same_quiet, quiet_try|]. intros dir. generalize (String.length dir). intros fuel.
  revert dir. induction fuel as [|fuel IH]; intros dir; cbn [repo_root_from];
    (apply same_bind; [apply same_exists|]); intros []; try apply same_nil;
    destruct (parent dir); try apply same_nil; apply IH.
Qed.

(** Whatever changes in the source, [openapi --watch] writes the description that is built
    into the program, always the same. *)
Lemma openapi_writes_same out watch start reports :
  writes_same (openapi spec_json out watch start reports).
Proof.
  assert (forall out, writes_same (resolve_openapi_output out)) as Hout.
  { intros [o|]; [apply same_nil|]. apply same_bind; [apply same_root|intros; apply same_nil]. }
  unfold openapi. destruct watch.
  2: { apply (same_bind (resolve_openapi_output out) (fun o => write_openapi spec_json (Some o)));
       [apply Hout|apply same_write]. }
  unfold watch_openapi. apply same_bind; [apply same_root|]. intros root.
  apply same_bind; [apply Hout|]. intros o. apply same_bind.
  { apply same_pfold. intros any path. apply same_bind; [apply same_exists|]. intros []; [|apply same_nil].
    apply same_bind; [by apply same_quiet, quiet_try|intros; apply same_nil]. }
  intros any. destruct (negb any); [apply same_nil|]. apply same_bind; [apply same_write|]. intros _.
  apply same_bind; [by apply same_quiet, quiet_trigger|]. intros _. apply same_bind; [|intros; apply same_nil].
  apply same_pfold. intros last [err|at_ changes]; cbn [on_report].
  - apply same_bind; [by apply same_quiet, quiet_trigger|intros; apply same_nil].
  - destruct (changes && _); [|apply same_nil]. apply same_bind; [apply same_attempt, same_write|].
    intros answer. apply same_bind; [|intros; apply same_nil].
    destruct answer; [apply same_nil|by apply same_quiet, quiet_trigger|apply same_nil..].
Qed.
End same.
