(* ===== verification/Cli.v ===== *)
(** * The command line

    Models [Commands] of [src/cli/args.rs] and [run] of [src/cli/commands/mod.rs]: the
    commands with their arguments, and the program each of them is. The parser of the
    arguments is a library. *)

From stdpp Require Import gmap.
From S2P Require Import Prelude Bytes BMap Util Json Program ConfigModel ConfigPlan ConfigValidate RunModel Manifest.
From S2P Require Import Lifecycle Commands Tasks Sources SourceIngest Projects Diagnose CliContext LogCommand.
From S2P Require Import CliCommands Completions Setup.
From Stdlib Require Import Lia ZArith.

Inductive Command :=
  | CmdInstall
  | CmdInit (project file : option string)
  | CmdDaemon
  | CmdUp (args : UpArgs)
  | CmdStatus (run_id : option string)
  | CmdWatch (action : option WatchAction)
  | CmdDiagnose (run_id service : option string)
  | CmdLs (all : bool)
  | CmdLogs (args : LogsArgs)
  | CmdShow (run_id service q level stream since : option string) (tail : option nat)
  | CmdAgent (auto_share : option string) (no_auto_share : bool) (watch : option (list string))
      (run_id : option string) (command : list string)
  | CmdDown (run_id : option string) (purge : bool)
  | CmdKill (run_id : option string)
  | CmdExec (run_id : option string) (command : list string)
  | CmdLint (project file : option string)
  | CmdDoctor
  | CmdCompletions (shell : string)
  | CmdGc (older_than : option string) (all : bool)
  | CmdUi
  | CmdProjects (action : option ProjectsAction)
  | CmdSources (action : option SourcesAction)
  | CmdRun (args : RunArgs)
  | CmdOpenapi (out : option string) (watch : bool)
  | CmdComplete (cword : nat) (words : list string)
  | CmdShim (run_id service cmd cwd log_file : string).

(** What a command is: requests and effects of a command, completions, a text, effects of the
    installation, or a part of the program that is a program of its own. *)
Inductive Ran :=
  | Asks (p : cmd unit)
  | Completes (p : cmd (list string))
  | Tells (o : outcome LintResponse)
  | Scripts (o : outcome string)
  | SetsUp (p : setup unit)
  | Separate_ (command : Command).

Section run.
Context (interactive : bool) (cwd : outcome string) (home : option string).
Context (exists_ is_file : string -> bool) (debug : string -> string).
Context (parse_yaml parse_toml : bytes -> outcome ConfigFile) (read : string -> outcome bytes).
Context (canonicalize : string -> option string) (parse_rfc3339 : string -> option Z).
Context (runs_dir : outcome string) (read_dir : string -> outcome (list (outcome string))).
Context (load_manifest : string -> outcome PersistedRun) (run_manifest_path : string -> outcome string).
Context (base_dir : outcome string) (blake3_hex : string -> string).
Context (parse_duration : string -> option Z) (timestamp_ago : Z -> outcome string).
Context (parse_retention : string -> outcome Z) (max_age : Z).
Context (diagnose : string -> RunStatus -> PersistedRun -> option string -> outcome DiagnoseResponse).
(** The scripts for the shells, the description of the interface, and what its watcher reports. *)
Context (bash_script zsh_script fish_script : string) (spec_json : outcome string).
Context (start : Z) (reports : list WatcherReport).

Definition print_script (shell : string) : outcome string :=
  if bool_decide (shell = "bash") then Ok bash_script
  else if bool_decide (shell = "zsh") then Ok zsh_script
  else if bool_decide (shell = "fish") then Ok fish_script
  else Err ("unsupported shell " +:+ shell +:+ " (use bash, zsh, or fish)").

Definition run (command : Command) : Ran :=
  match command with
  | CmdInstall => SetsUp install
  | CmdInit project file => SetsUp (init project file)
  | CmdUp args => Asks (up interactive cwd home exists_ is_file debug parse_yaml parse_toml read args)
  | CmdStatus run_id =>
      Asks (status interactive cwd home exists_ is_file canonicalize parse_rfc3339 runs_dir read_dir
              load_manifest run_manifest_path run_id)
  | CmdWatch action =>
      Asks (watch interactive cwd home exists_ is_file canonicalize parse_rfc3339 runs_dir read_dir load_manifest action)
  | CmdDiagnose run_id service =>
      Asks (diagnose_command cwd home exists_ is_file canonicalize parse_rfc3339 runs_dir read_dir
              load_manifest run_manifest_path diagnose run_id service)
  | CmdLs all => Asks (list_runs cwd home exists_ is_file canonicalize runs_dir read_dir load_manifest all)
  | CmdShow run_id service q level stream since tail =>
      Asks (show_command cwd home exists_ is_file canonicalize parse_rfc3339 runs_dir read_dir load_manifest
              parse_duration timestamp_ago run_id service q level stream since tail)
  | CmdDown run_id purge =>
      Asks (down cwd home exists_ is_file canonicalize parse_rfc3339 runs_dir read_dir load_manifest run_id purge)
  | CmdKill run_id =>
      Asks (kill cwd home exists_ is_file canonicalize parse_rfc3339 runs_dir read_dir load_manifest run_id)
  | CmdExec run_id command =>
      Asks (exec cwd home exists_ is_file canonicalize parse_rfc3339 runs_dir read_dir load_manifest
              run_manifest_path run_id command)
  | CmdLint project file =>
      Tells (lint cwd home exists_ is_file debug parse_yaml parse_toml read project file)
  | CmdCompletions shell => Scripts (print_script shell)
  | CmdGc older_than all => Asks (gc older_than all)
  | CmdUi => Asks (trigger OpenBrowser)
  | CmdProjects action => Asks (projects_run interactive canonicalize action)
  | CmdSources action => Asks (sources_run interactive cwd home debug parse_retention max_age action)
  | CmdRun args =>
      Asks (tasks_run interactive cwd home exists_ is_file debug parse_yaml parse_toml read canonicalize
              parse_rfc3339 runs_dir read_dir load_manifest base_dir blake3_hex args)
  | CmdOpenapi out watch => SetsUp (openapi spec_json out watch start reports)
  | CmdComplete cword words =>
      Completes (complete cwd home exists_ is_file debug parse_yaml parse_toml read canonicalize parse_rfc3339
                   runs_dir read_dir load_manifest run_manifest_path cword words)
  | CmdDaemon | CmdLogs _ | CmdAgent _ _ _ _ _ | CmdDoctor | CmdShim _ _ _ _ _ => Separate_ command
  end.
End run.

(** ** Looking *)

Definition looks (command : Command) : bool :=
  match command with
  | CmdStatus _ | CmdWatch None | CmdDiagnose _ _ | CmdLs _ | CmdLint _ _ | CmdCompletions _
  | CmdSources (None | Some SourcesLs) | CmdProjects (None | Some ProjectsLs) | CmdComplete _ _ => true
  | CmdRun args => match ra_status args with Some _ => true | None => false end
  | _ => false
  end.

(** A program of requests that only looks. *)
Definition only_looks (ran : Ran) : Prop :=
  match ran with
  | Asks p => quiet act_of p
  | Completes p => quiet act_of p
  | Tells _ | Scripts _ => True
  | SetsUp _ | Separate_ _ => False
  end.

Section looking.
Context (interactive : bool) (cwd : outcome string) (home : option string).
Context (exists_ is_file : string -> bool) (debug : string -> string).
Context (parse_yaml parse_toml : bytes -> outcome ConfigFile) (read : string -> outcome bytes).
Context (canonicalize : string -> option string) (parse_rfc3339 : string -> option Z).
Context (runs_dir : outcome string) (read_dir : string -> outcome (list (outcome string))).
Context (load_manifest : string -> outcome PersistedRun) (run_manifest_path : string -> outcome string).

#[local] Hint Extern 2 (quiet _ (match ?x with _ => _ end)) => destruct x : quiet.
#[local] Hint Extern 3 (quiet _ _) => progress cbn beta iota zeta : quiet.

Lemma fetch_quiet : quiet act_of (attempt (cli_fetch_runs exists_ runs_dir read_dir load_manifest)).
Proof. apply quiet_attempt, still_fetch_runs. Qed.
#[local] Hint Resolve fetch_quiet : quiet.

Lemma mret_quiet {A} (a : A) : quiet act_of (mret a).
Proof. done. Qed.
#[local] Hint Resolve mret_quiet : quiet.

Lemma complete_quiet cword words :
  quiet act_of (complete cwd home exists_ is_file debug parse_yaml parse_toml read canonicalize parse_rfc3339
                  runs_dir read_dir load_manifest run_manifest_path cword words).
Proof.
  assert (forall r, quiet act_of (or_nothing r)) as Hnone by (intros r; unfold or_nothing; auto with quiet).
  unfold complete, completion_runs, completion_services, completion_run_id.
  repeat first [case_match | apply quiet_bind | intros ?]; auto with quiet.
Qed.
End looking.

(** Commands that look change nothing: whatever the daemon answers and whatever the files
    hold, they only make requests by GET, and write no file, run no task and no process. *)
Theorem looking_commands_look interactive cwd home exists_ is_file debug parse_yaml parse_toml read
    canonicalize parse_rfc3339 runs_dir read_dir load_manifest run_manifest_path base_dir blake3_hex
    parse_duration timestamp_ago parse_retention max_age diagnose bash_script zsh_script fish_script
    spec_json start reports command :
  looks command = true ->
  only_looks (run interactive cwd home exists_ is_file debug parse_yaml parse_toml read canonicalize parse_rfc3339
    runs_dir read_dir load_manifest run_manifest_path base_dir blake3_hex parse_duration timestamp_ago
    parse_retention max_age diagnose bash_script zsh_script fish_script spec_json start reports command).
Proof.
  intros Hl.
  pose proof (looking_changes_nothing interactive cwd home exists_ is_file debug parse_yaml parse_toml read
    canonicalize parse_rfc3339 runs_dir read_dir load_manifest run_manifest_path base_dir blake3_hex
    parse_retention max_age diagnose) as H.
  destruct command as [| | | |run_id|[|]|run_id service|all| | | | | | | | | | | |action|action|args| | |]; try done; cbn.
  - apply (H run_id None false "" None false None None None false []).
  - apply (H None None false "" None false None None None false []).
  - apply (H run_id service false "" None false None None None false []).
  - apply (H None None all "" None false None None None false []).
  - destruct action as [[]|]; try done; apply (H None None false "" None false None None None false []).
  - destruct action as [[]|]; try done; apply (H None None false "" None false None None None false []).
  - destruct args as [name ini stack project file detach [id|] rest]; [|done].
    apply (H None None false id name ini stack project file detach rest).
  - apply complete_quiet.
Qed.

Lemma looking_commands_look_witness :
  only_looks (run true (Ok "/home/me/app") None (fun _ => false) (fun _ => false) id (fun _ => Err "yaml")
    (fun _ => Err "toml") (fun _ => Err "read") (fun _ => None) (fun _ => None) (Ok "/runs") (fun _ => Ok [])
    (fun _ => Err "manifest") (fun run_id => Ok run_id) (Ok "/base") id (fun _ => None) (fun _ => Err "ago")
    (fun _ => Err "retention") 604800%Z (fun _ _ _ _ => Err "diagnose") "bash" "zsh" "fish" (Ok "{}") 0%Z []
    (CmdStatus (Some "app-1"))).
Proof. apply looking_commands_look. reflexivity. Defined.
