(* ===== verification/RecentErrors.v ===== *)
(** * The recent errors of a service

    Models the end of [src/app/queries/status.rs]: the last lines on stderr of the log of a
    service, read from the end of the file in chunks, and the cache of them. *)

From stdpp Require Import gmap.
From S2P Require Import Prelude Bytes Util Json Logfmt LogIndex LogText.
From Stdlib Require Import Lia ZArith.

Record RecentErrorLine := mkRecentErrorLine { re_timestamp : option string; re_message : string }.

Definition STDERR_NEEDLE : bytes := to_bytes "stderr".

(** The clock and the time a service started, in nanoseconds. *)
Definition uptime_seconds_since (parse_rfc3339 : string -> option Z) (now : Z) (last_started_at : option string)
    : option Z :=
  started_at ← last_started_at;
  started_at ← parse_rfc3339 started_at;
  let elapsed := Z.quot (now - started_at) (10 ^ 9) in
  if (elapsed <? 0)%Z then Some 0%Z else Some elapsed.

Section recent.
Context `{J : Json}.

Definition recent_error_from_raw (raw_line : string) : RecentErrorLine :=
  mkRecentErrorLine (extract_timestamp_str raw_line) (extract_log_content raw_line).2.

(** A line that is pushed, if the list is not full. *)
Definition stderr_line (raw_line : bytes) : option RecentErrorLine :=
  match find_sub STDERR_NEEDLE raw_line with
  | None => None
  | Some _ =>
      let raw_line := strip_ansi_if_needed (of_bytes (trim_end_matches is_crlf (from_utf8_lossy raw_line))) in
      if bool_decide (raw_line = "") then None
      else if negb (bool_decide ((extract_log_content raw_line).1 = "stderr")) then None
      else Some (recent_error_from_raw raw_line)
  end.

Definition push_recent_stderr_line (lines : list RecentErrorLine) (raw_line : bytes) (limit : nat)
    : list RecentErrorLine :=
  if limit <=? length lines then lines else lines ++ option_list (stderr_line raw_line).

(** The lines of a chunk from its end; what is left before the first of them. *)
Fixpoint scan_chunk (fuel : nat) (chunk : bytes) (lines : list RecentErrorLine) (limit : nat)
    : outcome (list RecentErrorLine * bytes) :=
  match rposition is_newline chunk with
  | None => Ok (lines, chunk)
  | Some newline_idx =>
      let lines := push_recent_stderr_line lines (drop (newline_idx + 1) chunk) limit in
      let chunk := take newline_idx chunk in
      if limit <=? length lines then Ok (lines, chunk) else
      match fuel with 0 => OutOfFuel | S fuel => scan_chunk fuel chunk lines limit end
  end.

Section read.
(** The contents of the file, up to the length it had when it was opened. *)
Context (CHUNK_SIZE : nat) (contents : bytes) (limit : nat).

Fixpoint read_back (fuel offset : nat) (trailing : bytes) (lines : list RecentErrorLine)
    : outcome (list RecentErrorLine * bytes) :=
  if (offset =? 0) || (limit <=? length lines) then Ok (lines, trailing) else
  match fuel with
  | 0 => OutOfFuel
  | S fuel =>
      let read_len := Nat.min offset CHUNK_SIZE in
      let offset := offset - read_len in
      let chunk := take read_len (drop offset contents) ++ trailing in
      '(lines, trailing) ← scan_chunk (length chunk) chunk lines limit;
      read_back fuel offset trailing lines
  end.

Definition recent_stderr_lines_of : outcome (list RecentErrorLine) :=
  '(lines, trailing) ← read_back (length contents) (length contents) [] [];
  let lines := if (length lines <? limit) && negb (is_empty trailing)
               then push_recent_stderr_line lines trailing limit else lines in
  Ok (reverse lines).
End read.

Definition CHUNK_SIZE : nat := Z.to_nat (64 * 1024).

(** Nothing is read of a file that is not there. *)
Definition recent_stderr_lines_from_file (exists_ : bool) (open_ : outcome bytes) (limit : nat)
    : outcome (list RecentErrorLine) :=
  if (limit =? 0) || negb exists_ then Ok [] else
  contents ← open_; recent_stderr_lines_of CHUNK_SIZE contents limit.
End recent.

(** ** The last ones *)

Section last_lines.
Context `{J : Json}.

(** The lines of a log on stderr, and the last of some. *)
Definition stderr_lines (contents : bytes) : list RecentErrorLine :=
  omap stderr_line (split_on "010"%char contents).
Definition lastn {A} (n : nat) (l : list A) : list A := drop (length l - n) l.

(** What is found going back from the end of a text, after some lines. *)
Definition going_back (limit : nat) (lines : list RecentErrorLine) (s : bytes) : list RecentErrorLine :=
  take limit (lines ++ reverse (stderr_lines s)).

Lemma rposition_split s i :
  rposition is_newline s = Some i ->
  s = take i s ++ "010"%char :: drop (i + 1) s /\ "010"%char ∉ drop (i + 1) s.
Proof.
  unfold rposition. destruct (find_byte is_newline (reverse s)) as [k|] eqn:E; [|done]. cbn.
  apply find_byte_Some in E as (a & c & b & Hs & Hl & Hc & Ha). intros [= <-].
  assert (c = "010"%char) as -> by (destruct c as [[] [] [] [] [] [] [] []]; done).
  assert (s = reverse b ++ "010"%char :: reverse a) as ->.
  { by rewrite <- (reverse_involutive s), Hs, reverse_app, reverse_cons, <- app_assoc. }
  rewrite length_app. cbn [length]. rewrite !length_reverse.
  replace (length b + S (length a) - 1 - k) with (length (reverse b)) by (rewrite length_reverse; lia).
  rewrite take_app_length. replace (length (reverse b) + 1) with (length (reverse b ++ ["010"%char]))
    by (rewrite length_app; done).
  change (reverse b ++ "010"%char :: reverse a) with (reverse b ++ ["010"%char] ++ reverse a).
  rewrite app_assoc, drop_app_length, <- app_assoc. split; [done|]. rewrite elem_of_reverse. intros Hin.
  apply list_elem_of_In in Hin. rewrite forallb_forall in Ha. by apply Ha in Hin.
Qed.

Lemma rposition_none s : rposition is_newline s = None -> "010"%char ∉ s.
Proof.
  unfold rposition. destruct (find_byte is_newline (reverse s)) as [k|] eqn:E; [done|]. intros _ Hin.
  rewrite find_byte_None, forallb_forall in E. by apply elem_of_reverse, list_elem_of_In, E in Hin.
Qed.

Lemma push_take limit lines raw rest :
  take limit (push_recent_stderr_line lines raw limit ++ rest)
  = take limit (lines ++ option_list (stderr_line raw) ++ rest).
Proof.
  unfold push_recent_stderr_line. destruct (Nat.leb_spec limit (length lines)).
  - by rewrite !take_app_le by done.
  - by rewrite <- app_assoc.
Qed.

Lemma push_length limit lines raw :
  length lines <= limit -> length (push_recent_stderr_line lines raw limit) <= limit.
Proof.
  intros Hl. unfold push_recent_stderr_line. destruct (Nat.leb_spec limit (length lines)); [done|].
  rewrite length_app. destruct (stderr_line raw); cbn; lia.
Qed.

Lemma stderr_lines_newline a b :
  "010"%char ∉ b -> stderr_lines (a ++ "010"%char :: b) = stderr_lines a ++ option_list (stderr_line b).
Proof.
  intros Hb. unfold stderr_lines. rewrite split_on_app, omap_app, (split_on_none _ b) by done. cbn.
  by destruct (stderr_line b).
Qed.

Lemma going_back_push limit lines a b :
  "010"%char ∉ b ->
  going_back limit lines (a ++ "010"%char :: b) = going_back limit (push_recent_stderr_line lines b limit) a.
Proof.
  intros Hb. unfold going_back. rewrite push_take, stderr_lines_newline, reverse_app by done.
  by destruct (stderr_line b).
Qed.

(** A chunk is scanned to its first line or until there are enough lines; nothing that is
    looked for is passed over. *)
Lemma scan_chunk_spec fuel chunk lines limit prefix :
  length chunk <= fuel -> length lines <= limit ->
  exists lines' trailing, scan_chunk fuel chunk lines limit = Ok (lines', trailing) /\ length lines' <= limit /\
    going_back limit lines' (prefix ++ trailing) = going_back limit lines (prefix ++ chunk) /\
    (length lines' < limit -> "010"%char ∉ trailing).
Proof.
  revert chunk lines. induction fuel as [|fuel IH]; intros chunk lines Hf Hl; cbn [scan_chunk];
    (destruct (rposition is_newline chunk) as [i|] eqn:Hr;
     [|exists lines, chunk; split_and!; try done; intros _; by apply rposition_none]).
  - destruct chunk; [done|cbn in Hf; lia].
  - apply rposition_split in Hr as [Hs Hn]. set (lines1 := push_recent_stderr_line _ _ _).
    assert (length lines1 <= limit) as Hl1 by by apply push_length.
    assert (going_back limit lines1 (prefix ++ take i chunk) = going_back limit lines (prefix ++ chunk)) as Hg.
    { rewrite Hs at 2. rewrite app_assoc, going_back_push; done. }
    destruct (Nat.leb_spec limit (length lines1)) as [Hfull|Hmore].
    { exists lines1, (take i chunk). split_and!; try done. lia. }
    destruct (IH (take i chunk) lines1) as (lines' & trailing & Hscan & Hl' & Hg' & Ht); [|done|].
    { assert (length chunk = length (take i chunk) + 1 + length (drop (i + 1) chunk)) as E.
      { rewrite Hs at 1. rewrite length_app. cbn. lia. } lia. }
    exists lines', trailing. split_and!; try done. by rewrite Hg'.
Qed.

Lemma read_back_spec chunk_size contents limit fuel offset trailing lines :
  0 < chunk_size -> offset <= fuel -> offset <= length contents -> length lines <= limit ->
  (limit <= length lines \/ ~ ("010"%char ∈ trailing)) ->
  exists lines' trailing', read_back chunk_size contents limit fuel offset trailing lines = Ok (lines', trailing') /\
    length lines' <= limit /\
    (limit <= length lines' /\ lines' = going_back limit lines (take offset contents ++ trailing) \/
     length lines' < limit /\ ("010"%char ∉ trailing') /\
     going_back limit lines' trailing' = going_back limit lines (take offset contents ++ trailing)).
Proof.
  intros Hc. revert offset trailing lines. induction fuel as [|fuel IH]; intros offset trailing lines Hf Ho Hl Ht.
  all: cbn [read_back]; destruct (Nat.leb_spec limit (length lines)) as [Hfull|Hmore]; [rewrite orb_true_r|rewrite orb_false_r].
  1,3: exists lines, trailing; split_and!; [done..|]; left; split; [done|]; unfold going_back; by rewrite take_app_le, take_ge by lia.
  - replace offset with 0 by lia. cbn. exists lines, trailing. split_and!; try done. right. split_and!; try done.
    destruct Ht; [lia|done].
  - destruct (Nat.eqb_spec offset 0) as [->|Hne].
    { exists lines, trailing. split_and!; try done. right. split_and!; try done. destruct Ht; [lia|done]. }
    cbv zeta. set (n := Nat.min offset chunk_size). assert (0 < n <= offset) as Hn by lia.
    set (chunk := take n (drop (offset - n) contents) ++ trailing).
    destruct (scan_chunk_spec (length chunk) chunk lines limit (take (offset - n) contents))
      as (lines1 & trailing1 & -> & Hl1 & Hg1 & Ht1); [done|lia|].
    assert (take (offset - n) contents ++ chunk = take offset contents ++ trailing) as Heq.
    { subst chunk. rewrite app_assoc. f_equal. rewrite <- (take_drop (offset - n) (take offset contents)).
      rewrite take_take, skipn_firstn_comm. do 2 f_equal; lia. }
    rewrite Heq in Hg1.
    destruct (IH (offset - n) trailing1 lines1) as (lines' & trailing' & Hread & Hl' & Hcase); [lia|lia|done| |].
    { destruct (decide (limit <= length lines1)); [by left|right; apply Ht1; lia]. }
    exists lines', trailing'. split; [exact Hread|]. split; [done|]. by rewrite Hg1 in Hcase.
Qed.

(** Reading a log from its end in chunks finds its last lines on stderr: whatever the size
    of the chunks and wherever they cut the lines, the result is the last [limit] of the lines
    of the whole file that are on stderr, in the order of the file. *)
Theorem recent_lines_are_last chunk_size contents limit :
  0 < chunk_size ->
  recent_stderr_lines_of chunk_size contents limit = Ok (lastn limit (stderr_lines contents)).
Proof.
  intros Hc. unfold recent_stderr_lines_of.
  destruct (read_back_spec chunk_size contents limit (length contents) (length contents) [] [])
    as (lines & trailing & -> & Hl & Hcase); [done..|cbn; lia|right; apply not_elem_of_nil|].
  rewrite firstn_all, app_nil_r in Hcase. change (Ok ?x ≫= ?f) with (f x). cbv beta iota zeta.
  assert (going_back limit [] contents = reverse (lastn limit (stderr_lines contents))) as Hall.
  { unfold going_back, lastn. cbn [app]. rewrite <- (reverse_involutive (take _ _)). f_equal.
    by rewrite take_reverse, reverse_involutive. }
  rewrite Hall in Hcase.
  assert (forall l, l = reverse (lastn limit (stderr_lines contents)) -> Ok (reverse l) = Ok (lastn limit (stderr_lines contents))) as Hfin.
  { intros l ->. by rewrite reverse_involutive. }
  apply Hfin. destruct Hcase as [[Hfull ->]|(Hmore & Hn & Hg)].
  - destruct (Nat.ltb_spec (length (reverse (lastn limit (stderr_lines contents)))) limit); [lia|done].
  - rewrite (proj2 (Nat.ltb_lt _ _) Hmore). cbn [andb]. rewrite <- Hg. unfold going_back, stderr_lines.
    rewrite split_on_none by done. cbn. destruct trailing as [|c trailing]; cbn [is_empty negb].
    + change (stderr_line []) with (@None RecentErrorLine). by cbn; rewrite app_nil_r, take_ge by lia.
    + unfold push_recent_stderr_line. rewrite (proj2 (Nat.leb_gt _ _) Hmore).
      destruct (stderr_line (c :: trailing)); cbn; rewrite take_ge; rewrite ?length_app; cbn; try done; lia.
Qed.
End last_lines.

Definition sample_log : bytes :=
  to_bytes ("[t0] [stderr] one" +:+ String.String "010" ("[t1] [stdout] two" +:+ String.String "010"
             ("[t2] [stderr] three" +:+ String.String "010" ("[t3] [stderr] four" +:+ String.String "010" "")))).

Lemma recent_lines_are_last_witness :
  recent_stderr_lines_of (J := concrete_json) 5 sample_log 2
    = Ok (lastn 2 (stderr_lines (J := concrete_json) sample_log)) /\
  map re_message (lastn 2 (stderr_lines (J := concrete_json) sample_log)) = ["three"; "four"].
Proof. split; [apply recent_lines_are_last; lia|vm_compute; reflexivity]. Defined.

(** ** The cache *)

Section cache.
Context `{J : Json}.

(** The length of a file and the time of its last change. *)
Definition Signature : Type := Z * option Z.

Record RecentStderrCacheEntry := mkCacheEntry {
  ce_len : Z;
  ce_modified : option Z;
  ce_limit : nat;
  ce_lines : list RecentErrorLine;
}.

Definition RecentStderrCache : Type := gmap string RecentStderrCacheEntry.

Definition cached_recent_stderr_lines (log_path : string) (limit : nat) (signature : Signature)
    (cache : RecentStderrCache) : option (list RecentErrorLine) :=
  entry ← cache !! log_path;
  if bool_decide (ce_limit entry = limit) && bool_decide (ce_len entry = signature.1)
     && bool_decide (ce_modified entry = signature.2)
  then Some (ce_lines entry) else None.

(** The signatures of the file before and after it was read, and the result of that. *)
Definition recent_stderr_lines (log_path : string) (limit : nat) (before after : option Signature)
    (result : outcome (list RecentErrorLine)) (cache : RecentStderrCache)
    : list RecentErrorLine * RecentStderrCache :=
  if limit =? 0 then ([], cache) else
  match before with
  | None => ([], delete log_path cache)
  | Some signature =>
      match cached_recent_stderr_lines log_path limit signature cache with
      | Some lines => (lines, cache)
      | None =>
          let lines := match result with Ok lines => lines | _ => [] end in
          (lines, if bool_decide (after = Some signature)
                  then <[log_path := mkCacheEntry signature.1 signature.2 limit lines]> cache else cache)
      end
  end.

(** ** The cache is fresh *)

(** A log file at some moment. *)
Record LogState := mkLogState { lo_contents : bytes; lo_modified : option Z }.

Definition signature_of (st : LogState) : Signature := (Z.of_nat (length (lo_contents st)), lo_modified st).

Definition errors_of (limit : nat) (st : option LogState) : list RecentErrorLine :=
  match st with Some st => lastn limit (stderr_lines (lo_contents st)) | None => [] end.

(** A call, with the file before, while and after it is read, and the error of the reading if
    it fails: the file does not open, a part of it is not read, or the task of it panics. *)
Record ErrorsCall := mkErrorsCall {
  ec_path : string;
  ec_limit : nat;
  ec_before : option LogState;
  ec_during : option LogState;
  ec_after : option LogState;
  ec_failure : option string;
}.

Definition read_errors (call : ErrorsCall) : outcome (list RecentErrorLine) :=
  match ec_failure call with
  | Some err => Err err
  | None =>
      recent_stderr_lines_from_file (match ec_during call with Some _ => true | None => false end)
        (match ec_during call with Some st => Ok (lo_contents st) | None => Err "open log file" end) (ec_limit call)
  end.

Definition call_errors (call : ErrorsCall) (cache : RecentStderrCache) : list RecentErrorLine * RecentStderrCache :=
  recent_stderr_lines (ec_path call) (ec_limit call) (signature_of <$> ec_before call) (signature_of <$> ec_after call)
    (read_errors call) cache.

Fixpoint call_all (calls : list ErrorsCall) (cache : RecentStderrCache) : list (list RecentErrorLine) * RecentStderrCache :=
  match calls with
  | [] => ([], cache)
  | call :: calls =>
      let '(answer, cache) := call_errors call cache in
      let '(answers, cache) := call_all calls cache in
      (answer :: answers, cache)
  end.

Section fresh.
(** The states that the file at a path is ever in. *)
Context (ever : string -> LogState -> Prop).

(** A change of the contents shows in the length or the time; a file that is the same before
    and after it is read was the same while it was read. *)
Definition signature_tells : Prop :=
  forall path st st', ever path st -> ever path st' -> signature_of st = signature_of st' ->
    lo_contents st = lo_contents st'.

Definition call_in (call : ErrorsCall) : Prop :=
  (forall st, ec_before call = Some st -> ever (ec_path call) st) /\
  (signature_of <$> ec_before call = signature_of <$> ec_after call ->
   lo_contents <$> ec_during call = lo_contents <$> ec_before call).

(** An earlier call for the lines of the file as it is to a call, whose reading failed. *)
Definition failed_before (earlier : ErrorsCall) (path : string) (limit : nat) (signature : Signature) : Prop :=
  is_Some (ec_failure earlier) /\ ec_path earlier = path /\ ec_limit earlier = limit /\
  signature_of <$> ec_before earlier = Some signature.

(** An entry was read from a state with its signature, or is empty since that failed. *)
Definition cache_fresh (past : list ErrorsCall) (cache : RecentStderrCache) : Prop :=
  forall path entry, cache !! path = Some entry ->
    (exists st, ever path st /\ signature_of st = (ce_len entry, ce_modified entry) /\
       ce_lines entry = errors_of (ce_limit entry) (Some st)) \/
    (ce_lines entry = [] /\ exists earlier, earlier ∈ past /\
       failed_before earlier path (ce_limit entry) (ce_len entry, ce_modified entry)).

(** What a call may be answered, after others. *)
Definition rightly_answered (past : list ErrorsCall) (call : ErrorsCall) (answer : list RecentErrorLine) : Prop :=
  answer = errors_of (ec_limit call) (ec_before call) \/
  ec_failure call = None /\ answer = errors_of (ec_limit call) (ec_during call) \/
  answer = [] /\ (is_Some (ec_failure call) \/
    exists earlier signature, earlier ∈ past /\ signature_of <$> ec_before call = Some signature /\
      failed_before earlier (ec_path call) (ec_limit call) signature).

Lemma read_spec call :
  ec_limit call <> 0 ->
  read_errors call = match ec_failure call with
                     | Some err => Err err
                     | None => Ok (errors_of (ec_limit call) (ec_during call))
                     end.
Proof.
  intros Hl. unfold read_errors, recent_stderr_lines_from_file. rewrite (proj2 (Nat.eqb_neq _ _) Hl).
  destruct (ec_failure call); [done|]. destruct (ec_during call) as [st|]; [|done].
  cbn. apply recent_lines_are_last. unfold CHUNK_SIZE. lia.
Qed.

Lemma cache_fresh_later past call cache : cache_fresh past cache -> cache_fresh (past ++ [call]) cache.
Proof.
  intros Hf path entry [?|(He & earlier & Hin & Hfail)]%Hf; [by left|]. right. split; [done|].
  exists earlier. split; [|done]. apply elem_of_app. by left.
Qed.

Lemma call_fresh past call cache answer cache' :
  signature_tells -> call_in call -> cache_fresh past cache -> call_errors call cache = (answer, cache') ->
  cache_fresh (past ++ [call]) cache' /\ rightly_answered past call answer.
Proof.
  intros Htells [Hever Hsteady] Hf. unfold call_errors, recent_stderr_lines, rightly_answered.
  pose proof (cache_fresh_later past call cache Hf) as Hf'.
  destruct (Nat.eqb_spec (ec_limit call) 0) as [H0|H0].
  { intros [= <- <-]. split; [done|]. left. rewrite H0. destruct (ec_before call) as [st|]; [|done]. cbn.
    unfold lastn. by rewrite Nat.sub_0_r, drop_all. }
  rewrite read_spec by done. destruct (ec_before call) as [st|] eqn:Eb; cbn [fmap option_fmap option_map].
  2:{ intros [= <- <-]. split; [|by left]. intros path entry He. apply lookup_delete_Some in He as [_ He]. by eapply Hf'. }
  destruct (cached_recent_stderr_lines _ _ _ _) as [lines|] eqn:Ec.
  - intros [= <- <-]. split; [done|]. unfold cached_recent_stderr_lines in Ec.
    destruct (cache !! ec_path call) as [entry|] eqn:Ee; [|done]. cbn in Ec.
    repeat (case_bool_decide; cbn in Ec; [|done]). injection Ec as <-. subst.
    destruct (Hf _ _ Ee) as [(st0 & Hst0 & Hsig & ->)|(-> & earlier & Hin & Hfail)].
    + left. assert (lo_contents st0 = lo_contents st) as Hc.
      { apply (Htells (ec_path call)); [done|by apply Hever|]. rewrite Hsig. unfold signature_of. by f_equal. }
      cbn. by rewrite Hc, H.
    + right. right. split; [done|]. right. exists earlier, (signature_of st). split_and!; [done..|].
      rewrite <- H. replace (signature_of st) with (ce_len entry, ce_modified entry); [done|].
      unfold signature_of. by f_equal.
  - intros [= <- <-]. split.
    + case_bool_decide as Ha; [|done].
      intros path entry He. apply lookup_insert_Some in He as [[<- <-]|[_ He]]; [|by eapply Hf'].
      destruct (ec_failure call) as [err|] eqn:Efail; cbn.
      * right. split; [done|]. exists call. split; [apply elem_of_app; right; by apply list_elem_of_here|].
        split_and!; [by exists err|done..|by rewrite Eb].
      * left. exists st. split; [by apply Hever|]. split; [done|].
        assert (lo_contents <$> ec_during call = Some (lo_contents st)) as Hd by (apply Hsteady; by rewrite Ha).
        destruct (ec_during call) as [d|]; [|done]. cbn in *. by injection Hd as ->.
    + right. destruct (ec_failure call) as [err|]; [right|by left]. split; [done|]. left. by exists err.
Qed.

(** C33: The cache of the recent errors is never stale while files are read: whichever calls
    come and however the logs grow meanwhile, each call is answered with the last lines on
    stderr of the file as it was when the call began, or as it was when it was read. The only
    other answer is the empty one when a reading failed: this call's, or that of an earlier
    call for as many lines of the file when it was the same as now. *)
Theorem cached_errors_fresh calls answers cache :
  signature_tells -> Forall call_in calls -> call_all calls ∅ = (answers, cache) ->
  length answers = length calls /\
  forall past call later, calls = past ++ call :: later ->
    exists answer, answers !! length past = Some answer /\ rightly_answered past call answer.
Proof.
  intros Htells Hin.
  assert (forall calls done_ c0 answers cache, Forall call_in calls -> cache_fresh done_ c0 ->
    call_all calls c0 = (answers, cache) -> length answers = length calls /\
    forall past call later, calls = past ++ call :: later ->
      exists answer, answers !! length past = Some answer /\ rightly_answered (done_ ++ past) call answer) as Hall;
    [|apply (Hall calls [] ∅ answers cache); [done|by intros path entry ?%lookup_empty_Some]].
  clear calls answers cache Hin. intros calls. induction calls as [|call calls IH];
    intros past0 c0 answers cache Hin Hf; cbn; [intros [= <- <-]; split; [done|by intros []]|].
  apply Forall_cons in Hin as [Hc Hin].
  destruct (call_errors call c0) as [answer c1] eqn:E1. destruct (call_all calls c1) as [rest c2] eqn:E2.
  intros [= <- <-]. destruct (call_fresh _ _ _ _ _ Htells Hc Hf E1) as [Hf1 Ha].
  destruct (IH _ _ _ _ Hin Hf1 E2) as [Hlen Hrest]. split; [cbn; by rewrite Hlen|].
  intros [|call' past] call2 later [= <- Hcalls].
  - exists answer. by rewrite app_nil_r.
  - destruct (Hrest past call2 later Hcalls) as (answer2 & Hl & Hr2). exists answer2.
    by rewrite <- app_assoc in Hr2.
Qed.
End fresh.
End cache.

Definition sample_early : LogState := mkLogState (take 36 sample_log) (Some 1%Z).
Definition sample_late : LogState := mkLogState sample_log (Some 2%Z).

Definition sample_error_calls : list ErrorsCall :=
  [mkErrorsCall "/log" 1 (Some sample_early) (Some sample_early) (Some sample_early) None;
   mkErrorsCall "/log" 1 (Some sample_early) (Some sample_late) (Some sample_late) None;
   mkErrorsCall "/log" 1 (Some sample_late) (Some sample_late) (Some sample_late) None].

Lemma cached_errors_fresh_witness :
  let '(answers, cache) := call_all (J := concrete_json) sample_error_calls ∅ in
  exists answer, answers !! 2 = Some answer /\
    rightly_answered (J := concrete_json) (take 2 sample_error_calls)
      (mkErrorsCall "/log" 1 (Some sample_late) (Some sample_late) (Some sample_late) None) answer.
Proof.
  destruct (call_all (J := concrete_json) sample_error_calls ∅) as [answers cache] eqn:E.
  refine (proj2 (cached_errors_fresh (J := concrete_json) (fun _ st => st = sample_early \/ st = sample_late)
    sample_error_calls answers cache _ _ E) (take 2 sample_error_calls) _ [] eq_refl).
  - intros path st st' [->| ->] [->| ->]; done || (intros [=]).
  - assert (forall b d a, (b = sample_early \/ b = sample_late) -> (signature_of b = signature_of a -> d = b) ->
      call_in (fun _ st => st = sample_early \/ st = sample_late) (mkErrorsCall "/log" 1 (Some b) (Some d) (Some a) None)) as Hin.
    { intros b d a Hb Hd. split; cbn; [by intros st [= <-]|]. intros [= Hs Hm]. rewrite Hd; [done|].
      unfold signature_of. by rewrite Hs, Hm. }
    repeat (apply Forall_cons; split; [apply Hin; auto; intros [=]|]). constructor.
Defined.

(** A log that could not be read is remembered as one without errors, until it changes. *)
Lemma failed_read_remembered `{J : Json} path limit st cache :
  limit <> 0 -> cache !! path = None ->
  let '(answer, cache) := recent_stderr_lines path limit (Some (signature_of st)) (Some (signature_of st))
                            (Err "open log file") cache in
  answer = [] /\
  forall result, (recent_stderr_lines path limit (Some (signature_of st)) (Some (signature_of st)) result cache).1 = [].
Proof.
  intros Hl Hn. unfold recent_stderr_lines, cached_recent_stderr_lines. rewrite (proj2 (Nat.eqb_neq _ _) Hl), Hn.
  cbn [mbind option_bind]. rewrite bool_decide_true by done. split; [done|]. intros result.
  change RecentStderrCache with (gmap string RecentStderrCacheEntry) in *. rewrite lookup_insert_eq. cbn. by rewrite !bool_decide_true.
Qed.
