(* ===== verification/AutoRestart.v ===== *)
(** * Restarts after changes

    Models the tasks of [spawn_service_auto_restart_watcher] and
    [spawn_global_auto_restart_watcher] of [src/app/launch/watch.rs]: the turns in which a task
    waits for changes of the watched files, lets them settle, and looks whether the service
    must be restarted. The section under the lock is [watcher_fire] of [Lifecycle]. *)

From stdpp Require Import gmap.
From S2P Require Import Prelude Bytes BMap RunModel Lifecycle LifecycleInv Launch Commands.
From Stdlib Require Import Lia ZArith.

(** What a turn gets within its 100 milliseconds. *)
Inductive Received := Changed | OtherEvent | WatchError (err : string) | Closed | Quiet.

(** A turn: whether the task is asked to stop, what it gets and when, the time when it looks
    whether the files have settled, and, if it goes on, whether it is paused and the hash. *)
Record WatchTurn := mkWatchTurn {
  wt_stop : bool;
  wt_received : Received;
  wt_at : Z;
  wt_now : Z;
  wt_paused : bool;
  wt_hash : outcome string;
}.

Record Watcher := mkWatcher { ww_pending : bool; ww_last_event_at : Z }.

Definition DEBOUNCE : Z := 500.

(** What comes of a turn: nothing yet, or a look at the files: not while paused, without a
    hash, or with one. *)
Inductive Looked := NotYet | WhilePaused | HashFailed (err : string) | Hashed (hash : string).

(** A turn ends the task, or leaves it in a state. *)
Definition watch_turn (w : Watcher) (turn : WatchTurn) : option (Watcher * Looked) :=
  if wt_stop turn then None else
  let after := match wt_received turn with
               | Changed => Some (mkWatcher true (wt_at turn))
               | Closed => None
               | OtherEvent | WatchError _ | Quiet => Some w
               end in
  w ← after;
  if negb (ww_pending w) || (wt_now turn - ww_last_event_at w <? DEBOUNCE)%Z then Some (w, NotYet) else
  let w := mkWatcher false (ww_last_event_at w) in
  if wt_paused turn then Some (w, WhilePaused) else
  match wt_hash turn with
  | Ok hash => Some (w, Hashed hash)
  | Err err => Some (w, HashFailed err)
  | Panic | OutOfFuel => None
  end.

(** What a task does: the hash it looked at, under the lock of a state, and whether it asked
    for a restart. *)
Record Look := mkLook { lk_looked : Looked; lk_restarts : bool }.

Section watch_loop.
(** The section under the lock: whether to restart, nothing when the record is gone. *)
Context {S : Type} (fire : string -> S -> option bool * S).

(** The turns of a task, each with the state that its lock is taken in. *)
Fixpoint watch_loop (w : Watcher) (turns : list (WatchTurn * S)) : list Look :=
  match turns with
  | [] => []
  | (turn, s) :: turns =>
      match watch_turn w turn with
      | None => []
      | Some (w, Hashed hash) =>
          match (fire hash s).1 with
          | Some restarts => mkLook (Hashed hash) restarts :: watch_loop w turns
          | None => []
          end
      | Some (w, looked) => mkLook looked false :: watch_loop w turns
      end
  end.
End watch_loop.

(** A task of a service, and of a global. *)
Definition service_fire (run_id service : string) (h : nat) (hash : string) (d : Daemon)
    : option bool * Daemon :=
  match watcher_fire run_id service hash h d with
  | (Ok (Some restarts), d) => (Some restarts, d)
  | (_, d) => (None, d)
  end.

Definition spawn_service_auto_restart_watcher (run_id service : string) (h : nat)
    (turns : list (WatchTurn * Daemon)) : list Look :=
  watch_loop (service_fire run_id service h) (mkWatcher false 0) turns.

(** The section of the task of a global. *)
Definition put_watch_hash (hash : string) (record : ServiceRecord) : ServiceRecord :=
  let l := sv_launch record in
  mkServiceRecord (sv_spec record)
    (mkServiceLaunchPlan (sl_unit_name l) (sl_cwd l) (sl_env l) (sl_cmd l) (sl_log_path l)
       (sl_port l) (sl_listen_port l) (sl_scheme l) (sl_url l) (sl_capture_api l)
       (sl_capture_api_body_limit l) (sl_capture_api_ignore l) hash
       (sl_watch_fingerprint l) (sl_watch_extra_files l))
    (sv_runtime record) (sv_handles record).

Definition global_fire (key : string) (h : nat) (hash : string) (g : GlobalState) : option bool * GlobalState :=
  let '(answer, g) := with_global_mut key (fun global fl =>
    let record := gr_service global in
    let fl := store_paused h (sr_watch_paused (sv_runtime record)) fl in
    if negb (ss_auto_restart (sv_spec record)) || sr_watch_paused (sv_runtime record)
       || bool_decide (sl_watch_hash (sv_launch record) = hash)
    then (global, fl, false)
    else
      (mkGlobalRecord (gr_key global) (gr_name global) (gr_project_dir global) (gr_config_path global)
         (gr_service_config global) (gr_tasks_map global) (put_watch_hash hash record) RunStarting
         (gr_created_at global) (gr_stopped_at global), fl, true)) g in
  (match answer with Ok restarts => Some restarts | _ => None end, g).

Definition spawn_global_auto_restart_watcher (key : string) (h : nat) (turns : list (WatchTurn * GlobalState))
    : list Look :=
  watch_loop (global_fire key h) (mkWatcher false 0) turns.

(** ** When a task looks *)

(** The last change before the [n]-th turn was in the [j]-th, at a time. *)
Definition last_change (turns : list WatchTurn) (n j : nat) (at_ : Z) : Prop :=
  j < n /\ (exists turn, turns !! j = Some turn /\ wt_received turn = Changed /\ wt_at turn = at_) /\
  forall k turn, j < k < n -> turns !! k = Some turn -> wt_received turn <> Changed.

(** From the [j]-th turn to before the [n]-th nothing was looked at. *)
Definition untouched (looks : list Looked) (n j : nat) : Prop := forall k, j <= k < n -> looks !! k = Some NotYet.

(** In the [i]-th turn, something has changed since the last look, and the last change is
    long enough ago. *)
Definition settled (turns : list WatchTurn) (looks : list Looked) (i : nat) (turn : WatchTurn) : Prop :=
  exists j at_, last_change turns (S i) j at_ /\ untouched looks i j /\ (DEBOUNCE <= wt_now turn - at_)%Z.

(** The state of a task says what it has got. *)
Definition knows (w : Watcher) (turns : list WatchTurn) (looks : list Looked) (n m : nat) : Prop :=
  forall at_, ww_pending w = true /\ ww_last_event_at w = at_ <->
    exists j, last_change turns n j at_ /\ untouched looks m j.

Lemma last_change_snoc turns turn j at_ :
  wt_received turn <> Changed ->
  last_change (turns ++ [turn]) (S (length turns)) j at_ <-> last_change turns (length turns) j at_.
Proof.
  intros Hn. unfold last_change. split; intros (Hj & (t & Ht & Hc & Ha) & Hall).
  - assert (j < length turns) as Hj'.
    { destruct (decide (j = length turns)) as [->|]; [|lia]. rewrite list_lookup_middle in Ht by done. by injection Ht as <-. }
    split; [done|]. split; [exists t; by rewrite lookup_app_l in Ht|].
    intros k t' Hk Hlk. apply (Hall k t'); [lia|]. by rewrite lookup_app_l by lia.
  - split; [lia|]. split; [exists t; by rewrite lookup_app_l|]. intros k t' Hk Hlk.
    destruct (decide (k = length turns)) as [->|].
    + rewrite list_lookup_middle in Hlk by done. by injection Hlk as <-.
    + rewrite lookup_app_l in Hlk by lia. apply (Hall k t'); [lia|done].
Qed.

Lemma last_change_now turns turn j at_ :
  wt_received turn = Changed ->
  last_change (turns ++ [turn]) (S (length turns)) j at_ <-> j = length turns /\ wt_at turn = at_.
Proof.
  intros Hc. assert ((turns ++ [turn]) !! length turns = Some turn) as Hl by by rewrite list_lookup_middle.
  split.
  - intros (Hj & (t & Ht & _ & Ha) & Hall). destruct (decide (j = length turns)) as [->|Hne].
    + rewrite Hl in Ht. by injection Ht as <-.
    + exfalso. apply (Hall (length turns) turn); [lia|done..].
  - intros [-> <-]. split; [lia|]. split; [by exists turn|]. intros k t ?. lia.
Qed.

(** The task after it got what a turn has for it, and whether it looks then. *)
Definition received (w : Watcher) (turn : WatchTurn) : Watcher :=
  match wt_received turn with Changed => mkWatcher true (wt_at turn) | _ => w end.

Definition due (w : Watcher) (turn : WatchTurn) : Prop :=
  ww_pending (received w turn) = true /\ (DEBOUNCE <= wt_now turn - ww_last_event_at (received w turn))%Z.

Lemma knows_received w turns looks turn :
  length looks = length turns -> knows w turns looks (length turns) (length turns) ->
  knows (received w turn) (turns ++ [turn]) looks (S (length turns)) (length turns).
Proof.
  intros Hlen Hk at_. unfold received. destruct (wt_received turn) eqn:Hr.
  1:{ cbn. split.
      - intros [_ <-]. exists (length turns). split; [by apply last_change_now|]. intros k ?. lia.
      - intros (j & Hj & _). apply last_change_now in Hj as [_ ->]; done. }
  all: rewrite (Hk at_); split; intros (j & Hj & Hu); exists j; (split; [|done]);
    apply last_change_snoc in Hj || apply last_change_snoc; rewrite ?Hr; done.
Qed.

(** A look leaves nothing to look at; without one everything is still there. *)
Lemma knows_looked w w' turns looks looked :
  length looks = length turns - 1 -> 0 < length turns ->
  knows w turns looks (length turns) (length turns - 1) ->
  (looked = NotYet /\ w' = w \/ looked <> NotYet /\ ww_pending w' = false) ->
  knows w' turns (looks ++ [looked]) (length turns) (length turns).
Proof.
  intros Hlen Hpos Hk [[-> ->]|[Hl Hw]] at_.
  - rewrite (Hk at_). split; intros (j & Hj & Hu); exists j; (split; [done|]); intros k Hkj.
    + destruct (decide (k = length looks)) as [->|]; [by rewrite list_lookup_middle|].
      rewrite lookup_app_l by lia. apply Hu. lia.
    + specialize (Hu k). rewrite lookup_app_l in Hu by lia. apply Hu. lia.
  - rewrite Hw. split; [by intros [? _]|]. intros (j & (Hj & _) & Hu). exfalso.
    specialize (Hu (length looks)). rewrite list_lookup_middle in Hu by done. apply Hl.
    assert (Some looked = Some NotYet) as [= ->]; [apply Hu; lia|done].
Qed.

Lemma last_change_prefix turns more n j at_ :
  n <= length turns -> last_change (turns ++ more) n j at_ <-> last_change turns n j at_.
Proof.
  intros Hn. unfold last_change.
  split; intros (Hj & (t & Ht & H) & Hall); (split; [done|]); split;
    try (exists t; rewrite lookup_app_l in *; by try lia);
    intros k t' Hk Hlk; apply (Hall k t'); try done; rewrite lookup_app_l in *; by try lia.
Qed.

Lemma untouched_prefix looks more n j :
  n <= length looks -> untouched (looks ++ more) n j <-> untouched looks n j.
Proof. intros Hn. split; intros Hu k Hk; specialize (Hu k Hk); by rewrite lookup_app_l in * by lia. Qed.

(** The task looks when it is due, and that is when the changes have settled. *)
Lemma due_settled w past plooks turn turns looks :
  length plooks = length past -> knows w past plooks (length past) (length past) ->
  settled (past ++ turn :: turns) (plooks ++ looks) (length past) turn <-> due w turn.
Proof.
  intros Hlen Hk. pose proof (knows_received w past plooks turn Hlen Hk) as Hk1. unfold due.
  set (w1 := received w turn) in *. unfold settled. rewrite cons_middle, app_assoc. split.
  - intros (j & at_ & Hc & Hu & Hd). rewrite last_change_prefix in Hc by (rewrite length_app; cbn; lia).
    rewrite untouched_prefix in Hu by lia. destruct (proj2 (Hk1 at_)) as [Hp <-]; [by exists j|done].
  - intros [Hp Hd]. destruct (proj1 (Hk1 (ww_last_event_at w1))) as (j & Hc & Hu); [done|].
    exists j, (ww_last_event_at w1). split; [by rewrite last_change_prefix by (rewrite length_app; cbn; lia)|].
    split; [|done]. by rewrite untouched_prefix by lia.
Qed.

(** *** One turn *)

Definition ended (turn : WatchTurn) : Prop := wt_stop turn = true \/ wt_received turn = Closed.

Lemma turn_ended w turn : ended turn -> watch_turn w turn = None.
Proof. unfold watch_turn. intros [->| ->]; [done|]. by destruct (wt_stop turn). Qed.

Lemma turn_not_due w turn : ~ ended turn -> ~ due w turn -> watch_turn w turn = Some (received w turn, NotYet).
Proof.
  intros He Hd. unfold watch_turn, ended, due, received in *.
  destruct (wt_stop turn), (wt_received turn); try (exfalso; apply He; auto; fail); cbn in *;
    repeat match goal with
      | |- context [negb (ww_pending ?w)] => destruct (ww_pending w); cbn in *; [|done]
      | |- context [(?a <? ?b)%Z] => destruct (Z.ltb_spec a b); [done|exfalso; by apply Hd]
      end.
Qed.

Lemma turn_due w turn :
  ~ ended turn -> due w turn ->
  watch_turn w turn =
    let w := mkWatcher false (ww_last_event_at (received w turn)) in
    if wt_paused turn then Some (w, WhilePaused) else
    match wt_hash turn with
    | Ok hash => Some (w, Hashed hash)
    | Err err => Some (w, HashFailed err)
    | Panic | OutOfFuel => None
    end.
Proof.
  intros He [Hp Hd]. unfold watch_turn, ended, received in *.
  destruct (wt_stop turn), (wt_received turn); try (exfalso; apply He; auto; fail); cbn in *;
    by rewrite ?Hp, (proj2 (Z.ltb_ge _ _) Hd).
Qed.

#[export] Instance due_dec w turn : Decision (due w turn).
Proof. unfold due. apply _. Defined.

#[export] Instance ended_dec turn : Decision (ended turn).
Proof.
  unfold ended, Decision. destruct (wt_stop turn), (wt_received turn); (left; by auto) || (right; by intros [?|?]).
Defined.

Lemma turn_knows w past plooks turn w' looked :
  length plooks = length past -> knows w past plooks (length past) (length past) ->
  watch_turn w turn = Some (w', looked) ->
  knows w' (past ++ [turn]) (plooks ++ [looked]) (length (past ++ [turn])) (length (past ++ [turn])).
Proof.
  intros Hlen Hk Ht. pose proof (knows_received w past plooks turn Hlen Hk) as Hk1.
  assert (length (past ++ [turn]) = S (length past)) as Hl1 by (rewrite length_app; cbn; lia).
  apply (knows_looked (received w turn)); [lia|lia| |].
  - rewrite Hl1. replace (S (length past) - 1) with (length past) by lia. exact Hk1.
  - destruct (ended_dec turn) as [He|He]; [by rewrite turn_ended in Ht|].
    destruct (decide (due w turn)) as [Hd|Hd].
    + rewrite turn_due in Ht by done. right. cbv zeta in Ht.
      destruct (wt_paused turn), (wt_hash turn); try discriminate Ht; by injection Ht as <- <-.
    + rewrite turn_not_due in Ht by done. injection Ht as <- <-. by left.
Qed.

(** A turn of a task that has not ended before it. *)
Lemma loop_at {S} (fire : string -> S -> option bool * S) turns w past plooks i turn s :
  length plooks = length past -> knows w past plooks (length past) (length past) ->
  turns !! i = Some (turn, s) -> i <= length (watch_loop fire w turns) ->
  exists wi before,
    length before = i /\ map lk_looked (watch_loop fire w turns) = before ++ map lk_looked (drop i (watch_loop fire w turns)) /\
    knows wi (past ++ take i (map fst turns)) (plooks ++ before) (length past + i) (length past + i) /\
    watch_loop fire w turns !! i = watch_loop fire wi [(turn, s)] !! 0.
Proof.
  revert w past plooks i. induction turns as [|[turn1 s1] turns IH]; intros w past plooks i Hlen Hk Hi Hle; [done|].
  destruct i as [|i].
  { injection Hi as <- <-. exists w, []. rewrite take_0, !app_nil_r, Nat.add_0_r. split_and!; [done..|].
    cbn. destruct (watch_turn w turn1) as [[w' [| |e|hash]]|]; try done. by destruct (fire hash s1).1. }
  assert (forall w' looked restarts, watch_turn w turn1 = Some (w', looked) ->
    watch_loop fire w ((turn1, s1) :: turns) = mkLook looked restarts :: watch_loop fire w' turns ->
    i <= length (watch_loop fire w' turns) ->
    exists wi before,
      length before = Datatypes.S i /\
      map lk_looked (mkLook looked restarts :: watch_loop fire w' turns)
        = before ++ map lk_looked (drop (Datatypes.S i) (mkLook looked restarts :: watch_loop fire w' turns)) /\
      knows wi (past ++ take (Datatypes.S i) (map fst ((turn1, s1) :: turns))) (plooks ++ before)
        (length past + Datatypes.S i) (length past + Datatypes.S i) /\
      (mkLook looked restarts :: watch_loop fire w' turns) !! Datatypes.S i = watch_loop fire wi [(turn, s)] !! 0) as Hgo.
  { intros w' looked restarts Ht _ Hle'. pose proof (turn_knows w past plooks turn1 w' looked Hlen Hk Ht) as Hk'.
    destruct (IH w' (past ++ [turn1]) (plooks ++ [looked]) i) as (wi & before & Hb & Hm & Hkn & Hl);
      [rewrite !length_app; cbn; lia|done|done|done|].
    exists wi, (looked :: before). split_and!; [cbn; by rewrite Hb|cbn; by rewrite Hm| |done].
    rewrite <- !app_assoc, length_app in Hkn. cbn in Hkn.
    by replace (length past + Datatypes.S i) with (length past + 1 + i) by lia. }
  cbn [watch_loop] in *. destruct (watch_turn w turn1) as [[w' looked]|]; [|cbn in Hle; lia].
  destruct looked as [| |err|hash]; [..|destruct (fire hash s1).1 as [restarts|]; [|cbn in Hle; lia]];
    (eapply Hgo; [done|done|cbn in Hle; lia]).
Qed.

(** ** What it does then *)

Lemma service_fire_spec run_id service h hash d restarts :
  (service_fire run_id service h hash d).1 = Some restarts ->
  exists run record, bget run_id (dm_runs d) = Some run /\ bget service (rr_services run) = Some record /\
    (restarts = true <-> ss_auto_restart (sv_spec record) = true /\ sr_watch_paused (sv_runtime record) = false /\
                         sl_watch_hash (sv_launch record) <> hash) /\
    (restarts = true -> exists run' record',
       bget run_id (dm_runs (service_fire run_id service h hash d).2) = Some run' /\
       bget service (rr_services run') = Some record' /\ sl_watch_hash (sv_launch record') = hash).
Proof.
  unfold service_fire, watcher_fire, update_run, with_run_mut, update_service.
  destruct (bget run_id (dm_runs d)) as [run|] eqn:Hrun; cbn; [|done].
  destruct (bget service (rr_services run)) as [record|] eqn:Hrec; cbn; [|done].
  destruct (negb (ss_auto_restart (sv_spec record)) || sr_watch_paused (sv_runtime record) ||
            bool_decide (sl_watch_hash (sv_launch record) = hash)) eqn:Hb; cbn; intros [= <-]; exists run, record;
    (split; [done|]); (split; [done|]).
  - split; [|done]. split; [done|]. intros (Ha & Hp & Hh). rewrite Ha, Hp in Hb. cbn in Hb.
    by apply bool_decide_eq_true in Hb.
  - apply orb_false_elim in Hb as [[Ha Hp]%orb_false_elim Hh%bool_decide_eq_false]. apply negb_false_iff in Ha. split; [done|].
    intros _. rewrite bget_binsert_eq. eexists _, _. split; [done|]. cbn. by rewrite bget_binsert_eq.
Qed.

(** The record that the task watches is gone. *)
Definition gone (run_id service : string) (d : Daemon) : Prop :=
  forall run, bget run_id (dm_runs d) = Some run -> bget service (rr_services run) = None.

Lemma service_fire_gone run_id service h hash d :
  (service_fire run_id service h hash d).1 = None <-> gone run_id service d.
Proof.
  unfold gone, service_fire, watcher_fire, update_run, with_run_mut, update_service.
  destruct (bget run_id (dm_runs d)) as [run|]; cbn; [|done].
  destruct (bget service (rr_services run)) as [record|] eqn:Hrec; cbn.
  2:{ split; [|done]. by intros _ ? [= <-]. }
  destruct (_ || _); cbn; (split; [done|intros Hg; by rewrite (Hg run eq_refl) in Hrec]).
Qed.

(** A turn of a task that looks: what it looks at, and what comes of it. *)
Lemma one_turn {S} (fire : string -> S -> option bool * S) w turn s :
  watch_loop fire w [(turn, s)] !! 0 =
    if decide (ended turn) is left _ then None else
    if decide (due w turn) is left _ then
      if wt_paused turn then Some (mkLook WhilePaused false) else
      match wt_hash turn with
      | Ok hash => mkLook (Hashed hash) <$> (fire hash s).1
      | Err err => Some (mkLook (HashFailed err) false)
      | Panic | OutOfFuel => None
      end
    else Some (mkLook NotYet false).
Proof.
  cbn [watch_loop]. destruct (decide (ended turn)) as [He|He]; [by rewrite turn_ended|].
  destruct (decide (due w turn)) as [Hd|Hd]; [|by rewrite turn_not_due].
  rewrite turn_due by done. cbv zeta. destruct (wt_paused turn); [done|].
  destruct (wt_hash turn) as [hash|e| |]; try done. by destruct (fire hash s).1.
Qed.

(** C24: A service is restarted for changes that have settled. The
    task of a watcher looks at the files in a turn exactly when something changed since it
    last looked and the last change is at least half a second ago; then it hashes them unless
    it is paused. It asks for a restart exactly when it has a hash and under the lock the
    service is to be restarted, is not paused and was started with another hash; it leaves
    the new hash, so that the same files are no reason for another restart. It ends in no
    other turn than one in which it was asked to stop, the channel of the changes was closed,
    the hashing panicked or the record of the service is gone. *)
Theorem settled_changes_restart run_id service h turns i turn d :
  let looks := spawn_service_auto_restart_watcher run_id service h turns in
  let due := settled (map fst turns) (map lk_looked looks) i turn in
  turns !! i = Some (turn, d) -> i <= length looks ->
  (looks !! i = None <-> wt_stop turn = true \/ wt_received turn = Closed \/
     due /\ wt_paused turn = false /\
       match wt_hash turn with Ok _ => gone run_id service d | Err _ => False | _ => True end) /\
  forall look, looks !! i = Some look ->
    (lk_looked look = NotYet <-> ~ due) /\
    (lk_looked look = WhilePaused <-> due /\ wt_paused turn = true) /\
    (forall err, lk_looked look = HashFailed err <-> due /\ wt_paused turn = false /\ wt_hash turn = Err err) /\
    (forall hash, lk_looked look = Hashed hash <-> due /\ wt_paused turn = false /\ wt_hash turn = Ok hash) /\
    (lk_restarts look = true <->
       exists hash run record, lk_looked look = Hashed hash /\ bget run_id (dm_runs d) = Some run /\
         bget service (rr_services run) = Some record /\ ss_auto_restart (sv_spec record) = true /\
         sr_watch_paused (sv_runtime record) = false /\ sl_watch_hash (sv_launch record) <> hash) /\
    (lk_restarts look = true -> exists hash run' record', lk_looked look = Hashed hash /\
       bget run_id (dm_runs (service_fire run_id service h hash d).2) = Some run' /\
       bget service (rr_services run') = Some record' /\ sl_watch_hash (sv_launch record') = hash).
Proof.
  intros looks due0 Hturn Hle. unfold looks, spawn_service_auto_restart_watcher in *.
  set (fire := service_fire run_id service h) in *.
  assert (knows (mkWatcher false 0) [] [] 0 0) as Hk0.
  { intros at_. split; [by intros [? _]|]. intros (j & (Hj & _) & _). lia. }
  destruct (loop_at fire turns (mkWatcher false 0) [] [] i turn d eq_refl Hk0 Hturn Hle)
    as (w & before & Hb & Hlooks & Hk & Hl).
  cbn [app length] in Hk. rewrite Nat.add_0_l in Hk.
  assert (length (take i (map fst turns)) = i) as Ht.
  { rewrite length_take, length_map. apply lookup_lt_Some in Hturn. lia. }
  assert (due0 <-> due w turn) as Hdue.
  { pose proof (fun looks => due_settled w (take i (map fst turns)) before turn (drop (S i) (map fst turns)) looks) as Hds.
    rewrite Ht, <- (drop_S (map fst turns) turn i), take_drop in Hds by by rewrite (list_lookup_fmap fst), Hturn.
    subst due0. rewrite Hlooks. by apply Hds. }
  clearbody due0. rewrite Hl, one_turn. clear Hl Hlooks.
  destruct (decide (ended turn)) as [He|He].
  { split; [|done]. destruct He; tauto. }
  destruct (decide (due w turn)) as [Hd|Hd]; rewrite <- Hdue in Hd.
  2:{ split; [split; [done|]; unfold ended in He; tauto|]. intros look [= <-]. cbn. naive_solver. }
  destruct (wt_paused turn) eqn:Hp.
  { split; [split; [done|]; unfold ended in He; naive_solver|]. intros look [= <-]. cbn. naive_solver. }
  destruct (wt_hash turn) as [hash|e| |] eqn:Hh.
  2:{ split; [split; [done|]; unfold ended in He; naive_solver|]. intros look [= <-]. cbn. naive_solver. }
  2,3: split; [tauto|done].
  rewrite fmap_None. subst fire. rewrite service_fire_gone. split; [unfold ended in He; naive_solver|].
  intros look (restarts & Hfire & ->)%fmap_Some.
  destruct (service_fire_spec _ _ _ _ _ _ Hfire) as (run & record & H1 & H2 & H3 & H4). cbn.
  split_and!; [naive_solver..| |].
  - rewrite H3. split.
    + intros. by exists hash, run, record.
    + intros (hash' & run' & record' & [= <-] & H1' & H2' & H5). rewrite H1 in H1'. injection H1' as <-.
      rewrite H2 in H2'. by injection H2' as <-.
  - intros Hr. destruct (H4 Hr) as (run' & record' & H5). by exists hash, run', record'.
Qed.

Lemma settled_changes_restart_witness :
  let d := (execute initial start_web).1 in
  let turns := [(mkWatchTurn false Changed 0 0 false (Ok "new"), d);
                (mkWatchTurn false Quiet 600 600 false (Ok "new"), d)] in
  spawn_service_auto_restart_watcher "r" "web" 0 turns !! 1 = Some (mkLook (Hashed "new") true) /\
  exists hash run' record', Hashed "new" = Hashed hash /\
    bget "r" (dm_runs (service_fire "r" "web" 0 hash d).2) = Some run' /\
    bget "web" (rr_services run') = Some record' /\ sl_watch_hash (sv_launch record') = hash.
Proof.
  intros d turns.
  assert (spawn_service_auto_restart_watcher "r" "web" 0 turns !! 1 = Some (mkLook (Hashed "new") true)) as Hl
    by (vm_compute; reflexivity).
  split; [exact Hl|].
  destruct (settled_changes_restart "r" "web" 0 turns 1 _ d eq_refl ltac:(by vm_compute; lia))
    as (_ & Hlook).
  destruct (Hlook _ Hl) as (_ & _ & _ & _ & _ & Hr). exact (Hr eq_refl).
Defined.

(** What changes while a watcher is paused is not looked at when it is resumed: only the next
    change is. *)
Lemma paused_change_waits {S} (fire : string -> S -> option bool * S) (s : S) hash :
  watch_loop fire (mkWatcher false 0)
    [(mkWatchTurn false Changed 0 0 true (Ok hash), s); (mkWatchTurn false Quiet 600 600 true (Ok hash), s);
     (mkWatchTurn false Quiet 2000 2000 false (Ok hash), s)]
  = [mkLook NotYet false; mkLook WhilePaused false; mkLook NotYet false].
Proof. reflexivity. Qed.
