(* ===== verification/TaskRun.v ===== *)
(** * The run of a task

    Models [run_task] and [spawn_log_pump] of [src/services/tasks/executor.rs], the
    history behind it ([src/services/tasks/history.rs]) and [execute_detached_task] of
    [src/app/commands/tasks.rs].

    The two threads that write what comes out of a task interleave: each takes the lock of
    the log of the task, then that of the log of the service, then that of the last line on
    stderr, for every line.  The run itself is a program over the effects of the shell, the
    files and the clock. *)

From S2P Require Import Prelude Bytes BMap Util Json Logfmt LogIndex LogText ConfigModel ConfigValidate RunModel Lifecycle Program Tasks Shim Launch Commands CliCommands.
From Stdlib Require Import Lia ZArith.

(** ** The threads that write *)

(** What a thread has left to do with a line. *)
Inductive Stage := Reading | ToService (clean timestamp : string) | ToLast (clean : string) | Ended.

Record TaskPump := mkTaskPump { tp_pipe : bytes; tp_stage : Stage }.

(** What is still to come out of the task, the log of the task and the one of the service,
    and the last line on stderr that is not blank. *)
Record TaskOutput := mkTaskOutput {
  to_stdout : TaskPump;
  to_stderr : TaskPump;
  to_log : bytes;
  to_service : bytes;
  to_last : option string;
}.

Definition pump_of (label : Label) (o : TaskOutput) : TaskPump :=
  match label with Stdout => to_stdout o | Stderr => to_stderr o end.

Definition put_pump (label : Label) (p : TaskPump) (o : TaskOutput) : TaskOutput :=
  match label with
  | Stdout => mkTaskOutput p (to_stderr o) (to_log o) (to_service o) (to_last o)
  | Stderr => mkTaskOutput (to_stdout o) p (to_log o) (to_service o) (to_last o)
  end.

(** [let _ = writeln!(file, ..)]: how much of the text its write left, [None] when all. *)
Definition write_text (write : option nat) (text : string) (file : bytes) : bytes :=
  let text := to_bytes text ++ ["010"%char] in
  file ++ match write with None => text | Some n => take n text end.

Definition is_blank (line : string) : bool := bool_decide (str_trim line = "").

Section pump.
Context `{Json}.
(** The stream of the lines in the log of the service, if they go there. *)
Context (service_log : option string).

Definition task_entry (label : Label) (timestamp clean : string) : string :=
  "[" +:+ timestamp +:+ "] [" +:+ label_name label +:+ "] " +:+ clean.

Definition clean_line (line : string) : string :=
  strip_ansi_if_needed (of_bytes (trim_end_matches is_crlf (to_bytes line))).

(** One section of a thread, with the time of its clock and what becomes of its write. *)
Definition log_pump_section (label : Label) (timestamp : string) (write : option nat)
    (o : TaskOutput) : TaskOutput :=
  let pump := pump_of label o in
  match tp_stage pump with
  | Reading =>
      match read_line (tp_pipe pump) with
      | (Ok line, rest) =>
          if bool_decide (line = "") then put_pump label (mkTaskPump rest Ended) o else
          let clean := clean_line line in
          let next := match service_log with
                      | Some _ => ToService clean timestamp
                      | None => ToLast clean
                      end in
          let o := put_pump label (mkTaskPump rest next) o in
          mkTaskOutput (to_stdout o) (to_stderr o)
            (write_text write (task_entry label timestamp clean) (to_log o)) (to_service o) (to_last o)
      | (_, rest) => put_pump label (mkTaskPump rest Ended) o
      end
  | ToService clean timestamp =>
      let stream := default "" service_log in
      let o := put_pump label (mkTaskPump (tp_pipe pump) (ToLast clean)) o in
      mkTaskOutput (to_stdout o) (to_stderr o) (to_log o)
        (write_text write (encode_log_line stream clean timestamp) (to_service o)) (to_last o)
  | ToLast clean =>
      let o := put_pump label (mkTaskPump (tp_pipe pump) Reading) o in
      mkTaskOutput (to_stdout o) (to_stderr o) (to_log o) (to_service o)
        (if bool_decide (label = Stderr) && negb (is_blank clean) then Some clean else to_last o)
  | Ended => o
  end.

(** The sections of both threads, in some order. *)
Record Section_ := mkSection { se_label : Label; se_timestamp : string; se_write : option nat }.

Definition log_pumps (sections : list Section_) (o : TaskOutput) : TaskOutput :=
  foldl (fun o s => log_pump_section (se_label s) (se_timestamp s) (se_write s) o) o sections.
End pump.

Definition fresh_output (stdout stderr service : bytes) : TaskOutput :=
  mkTaskOutput (mkTaskPump stdout Reading) (mkTaskPump stderr Reading) [] service None.

(** ** The command line, its directory and its environment *)

Record ShellCommand := mkShellCommand {
  sh_line : string;
  sh_cwd : string;
  sh_env : bmap string string;
  sh_inherit : bool;
}.

Definition task_cmd_parts (task : TaskConfig)
    : string * option string * bmap string string * option string :=
  match task with
  | TaskCommand cmd => (cmd, None, [], None)
  | TaskStructured def => (td_cmd def, td_cwd def, td_env def, td_env_file def)
  end.

(** The items of an environment file, up to the first that is not one. *)
Definition env_items (err : string) (items : list (outcome (string * string)))
    (env : bmap string string) : outcome (bmap string string) :=
  ofold (fun env item => '(k, v) ← in_context err item; Ok (binsert k v env)) items env.

(** ** Effects *)

Inductive TaskE : Type -> Type :=
  | FileExists (path : string) : TaskE bool
  | ReadEnvFile (path : string) : TaskE (outcome (list (outcome (string * string))))
  | WallClock : TaskE string
  | Instant : TaskE Z
  | RunShell (c : ShellCommand) : TaskE (outcome (option Z))
  | SpawnShell (c : ShellCommand) : TaskE (outcome unit)
  | CreateDir (path : string) : TaskE (outcome unit)
  | CreateLog (path : string) : TaskE (outcome unit)
  | OpenServiceLog (path : string) : TaskE (outcome unit)
  | StartPump (label : Label) (stream : option string) : TaskE unit
  | WaitShell : TaskE (outcome (option Z))
  | JoinPump (label : Label) : TaskE unit
  | LastStderr : TaskE (option string)
  | ReadHistory (path : string) : TaskE (outcome TaskHistory)
  | WriteHistory (path : string) (history : TaskHistory) : TaskE (outcome unit)
  | UpdateTask (execution_id : string) (exit_code : option Z) : TaskE (outcome DetachedTaskExecution)
  | IngestLog (run_id service path : string) : TaskE (outcome unit)
  | EmitTask (e : DaemonTaskEvent) : TaskE unit.

Abbreviation task_prog := (prog TaskE).

Definition history_load (path : string) : task_prog TaskHistory :=
  there ← trigger (FileExists path);
  if there : bool then on_error (fun _ => "read task history " +:+ path) (try_trigger (ReadHistory path))
  else mret [].

Definition append_to_history (path task_name : string) (scope : TaskLogScope)
    (started_at finished_at : string) (result : TaskResult) : task_prog unit :=
  history ← history_load path;
  on_error (fun _ => "write task history " +:+ path)
    (try_trigger (WriteHistory path (append_task_execution history task_name scope started_at finished_at result))).

(** The directory of a path that is created when it has one. *)
Definition create_parent (what path : string) : task_prog unit :=
  match parent path with
  | Some dir => on_error (fun _ => "create " +:+ what +:+ " dir " +:+ dir) (try_trigger (CreateDir dir))
  | None => mret tt
  end.

Section run_task.
(** [shlex::try_quote], the directory of the data and the hash of a project. *)
Context (try_quote : string -> outcome string).
Context (base_dir : outcome string) (blake3_hex : string -> string).

Definition add_arg (cmd arg : string) : outcome string :=
  quoted ← map_err (fun e => "failed to shell-escape arg: " +:+ e) (try_quote arg);
  Ok (cmd +:+ " " +:+ quoted).

Definition task_line (cmd : string) (trailing_args : list string) : outcome string :=
  ofold add_arg trailing_args cmd.

Definition scope_log_path (project_dir task_name : string) (scope : TaskLogScope) : outcome string :=
  match scope with
  | ScopeOfRun run_id => task_log_path base_dir run_id task_name
  | AdHoc => ad_hoc_task_log_path base_dir blake3_hex project_dir task_name
  end.

Definition with_env_file (cwd : string) (env_file : option string) (env : bmap string string)
    : task_prog (bmap string string) :=
  match env_file with
  | None => mret env
  | Some env_file =>
      let env_path := if is_absolute env_file then env_file else path_join cwd env_file in
      there ← trigger (FileExists env_path);
      if there : bool then
        items ← on_error (fun _ => "read env file " +:+ env_path) (try_trigger (ReadEnvFile env_path));
        Ret (env_items ("parse env file " +:+ env_path) items env)
      else mret env
  end.

Definition shell_of (task : TaskConfig) (project_dir : string) (verbose : bool)
    (trailing_args : list string) (base_env : bmap string string) : task_prog ShellCommand :=
  let '(cmd, cwd, env, env_file) := task_cmd_parts task in
  cmd ← Ret (task_line cmd trailing_args);
  let cwd := match cwd with
             | Some p => if is_absolute p then p else path_join project_dir p
             | None => project_dir
             end in
  file_env ← with_env_file cwd env_file base_env;
  mret (mkShellCommand cmd cwd (bextend file_env env) verbose).

Definition duration_ms (start now : Z) : Z := (Z.max 0 (now - start) / 1000000)%Z.

(** The shell behind pipes, with the last line that it wrote on stderr. *)
Definition run_piped (command : ShellCommand) (task_name log_path : string)
    (service_log : option ServiceLogSink) : task_prog (option Z * option string) :=
  _ ← create_parent "task log" log_path;
  _ ← on_error (fun _ => "run task") (try_trigger (SpawnShell command));
  _ ← on_error (fun _ => "create task log " +:+ log_path) (try_trigger (CreateLog log_path));
  stream ← (match service_log with
            | Some sink =>
                let path := lk_path sink in
                _ ← create_parent "service log" path;
                _ ← on_error (fun _ => "open service log " +:+ path) (try_trigger (OpenServiceLog path));
                mret (Some (lk_stream_prefix sink +:+ ":" +:+ task_name))
            | None => mret None
            end);
  _ ← trigger (StartPump Stdout stream);
  _ ← trigger (StartPump Stderr stream);
  status ← on_error (fun _ => "wait for task") (try_trigger WaitShell);
  _ ← trigger (JoinPump Stdout);
  _ ← trigger (JoinPump Stderr);
  last ← trigger LastStderr;
  mret (status, last).

Definition run_task (task_name : string) (task : TaskConfig) (project_dir : string)
    (scope : TaskLogScope) (history_path : string) (verbose : bool) (trailing_args : list string)
    (base_env : bmap string string) (service_log : option ServiceLogSink) : task_prog TaskResult :=
  command ← shell_of task project_dir verbose trailing_args base_env;
  started_at ← trigger WallClock;
  start ← trigger Instant;
  '(status, last) ← (if verbose then
      status ← on_error (fun _ => "run task") (try_trigger (RunShell command)); mret (status, None)
    else
      log_path ← Ret (scope_log_path project_dir task_name scope);
      run_piped command task_name log_path service_log);
  now ← trigger Instant;
  let result := mkResult (default 1%Z status) (duration_ms start now) last in
  finished_at ← trigger WallClock;
  _ ← append_to_history history_path task_name scope started_at finished_at result;
  mret result.

(** ** Detached tasks *)

(** [spawn_blocking]: a panic is an error of the join. The work has no fuel. *)
Fixpoint worker {A} (p : task_prog A) : task_prog (outcome A) :=
  match p with
  | Ret Panic | Ret OutOfFuel => mret (Err "task worker failed: panic")
  | Ret o => mret o
  | Vis e k => Vis e (fun r => worker (k r))
  end.

Definition detached_scope (t : DetachedTaskExecution) : TaskLogScope :=
  match dt_run_id t with Some run_id => ScopeOfRun run_id | None => AdHoc end.

Definition detached_history_path (t : DetachedTaskExecution) : outcome string :=
  match dt_run_id t with
  | Some run_id => task_history_path base_dir run_id
  | None => ad_hoc_task_history_path base_dir blake3_hex (dt_project_dir t)
  end.

Definition ingest_task_log (run_id task_name : string) : task_prog unit :=
  path ← Ret (task_log_path base_dir run_id task_name);
  there ← trigger (FileExists path);
  if there : bool then try_trigger (IngestLog run_id ("task:" +:+ task_name) path) else mret tt.

Definition detached_work (detached_task : DetachedTaskExecution) (task : TaskConfig) (args : list string)
    : task_prog TaskResult :=
  history_path ← Ret (detached_history_path detached_task);
  run_task (dt_task detached_task) task (dt_project_dir detached_task) (detached_scope detached_task)
    history_path false args [] None.

Definition execute_detached_task (detached_task : DetachedTaskExecution) (task : TaskConfig)
    (args : list string) : task_prog unit :=
  result ← worker (detached_work detached_task task args);
  let exit_code := match result with Ok r => Some (tr_exit_code r) | _ => None end in
  updated ← trigger (UpdateTask (dt_execution_id detached_task) exit_code);
  let updated_task := match updated with Ok t => t | _ => detached_task end in
  _ ← (match dt_run_id updated_task with
       | Some run_id => _ ← worker (ingest_task_log run_id (dt_task updated_task)); mret tt
       | None => mret tt
       end);
  let kind := match dt_state updated_task with
              | TaskCompleted => TaskEventCompleted
              | _ => TaskEventFailed
              end in
  trigger (EmitTask (task_event updated_task kind)).
End run_task.

(** ** The start of a detached task *)

Definition find_latest_active_run_for_project (canonicalize : string -> option string)
    (project_dir : string) (d : Daemon) : option string :=
  latest_run (fun run => same_dir canonicalize (rr_project_dir run) project_dir
    && negb (bool_decide (rr_state run = RunStopped)) && bool_decide (rr_stopped_at run = None)) (dm_runs d).

Section start.
Context (canonicalize : string -> option string) (exists_ : string -> bool).
Context (load_from_path : string -> outcome ConfigFile).

(** Everything before the store is looked at: the execution and its task. *)
Definition new_detached_task (now : Tasks.Now) (execution_id : string) (req : StartTaskRequest) (d : Daemon)
    : outcome (DetachedTaskExecution * TaskConfig) :=
  let project_dir := st_project_dir req in
  let config_path := default (default_path exists_ project_dir) (st_file req) in
  config ← load_from_path config_path;
  task ← ok_or (bget (st_task req) (default [] (cf_tasks config))) ("unknown task '" +:+ st_task req +:+ "'");
  let run_id := find_latest_active_run_for_project canonicalize project_dir d in
  Ok (DetachedTaskExecution_new now execution_id (st_task req) project_dir run_id, task).

(** The store when it is asked for the same task, and when the execution is added: other
    requests may come between. What is spawned comes with the event. *)
Definition start_task (now : Tasks.Now) (execution_id : string) (req : StartTaskRequest) (d : Daemon)
    (checked added : TaskStore)
    : outcome (StartTaskResponse * DaemonTaskEvent * (DetachedTaskExecution * TaskConfig * list string))
      * TaskStore :=
  match ('(detached_task, task) ← new_detached_task now execution_id req d;
         _ ← start_check canonicalize detached_task checked;
         Ok (detached_task, task)) with
  | Ok (detached_task, task) =>
      let '(started, store) := start_add detached_task added in
      ((event ← started;
        Ok (mkStartTaskResponse execution_id (st_task req) (dt_run_id detached_task), event,
            (detached_task, task, st_args req))), store)
  | Err e => (Err e, added)
  | Panic => (Panic, added)
  | OutOfFuel => (OutOfFuel, added)
  end.

(** A start that fails leaves the store alone; one that succeeds adds its execution, which
    runs for the latest run of the project that is not stopped. *)
Lemma start_task_spec now execution_id req d checked added :
  match start_task now execution_id req d checked added with
  | (Ok (response, event, (detached_task, task, args)), store) =>
      store = binsert execution_id detached_task added /\ bcontains execution_id added = false /\
      dt_state detached_task = TaskRunning /\ event = task_event detached_task TaskStarted /\
      dt_run_id detached_task = find_latest_active_run_for_project canonicalize (st_project_dir req) d /\
      sk_run_id response = dt_run_id detached_task /\ sk_execution_id response = execution_id /\
      args = st_args req /\ has_running_task canonicalize (st_task req) (dt_run_id detached_task)
                                (st_project_dir req) checked = false
  | (_, store) => store = added
  end.
Proof.
  unfold start_task, new_detached_task. destruct (load_from_path _) as [config|e| |]; try done. cbn.
  destruct (bget (st_task req) _) as [task|]; [|done]. cbn.
  unfold start_check, fail_if. cbn [dt_task dt_run_id dt_project_dir DetachedTaskExecution_new].
  destruct (has_running_task _ _ _ _ checked) eqn:Hr; [done|]. cbn.
  unfold start_add, add_task. cbn. destruct (bcontains execution_id added) eqn:Hc; [done|]. cbn.
  by split_and!.
Qed.
End start.

(** ** What the logs tell *)

Section logs.
Context `{Json}.

Definition written_clean (w : Written) : string := clean_line (of_bytes (wn_line w)).

Definition task_text (w : Written) : bytes :=
  to_bytes (task_entry (wn_label w) (wn_time w) (written_clean w)) ++ ["010"%char].

Definition service_text (stream : string) (w : Written) : bytes :=
  to_bytes (encode_log_line stream (written_clean w) (wn_time w)) ++ ["010"%char].

Definition of_label (label : Label) (written : list Written) : list Written :=
  List.filter (fun w => bool_decide (wn_label w = label)) written.

(** The last line that is not blank. *)
Definition last_loud (written : list Written) : option string :=
  last (List.filter (fun clean => negb (is_blank clean)) (map written_clean written)).

Lemma of_label_snoc label written w :
  of_label label (written ++ [w])
  = of_label label written ++ (if bool_decide (wn_label w = label) then [w] else []).
Proof. unfold of_label. rewrite List.filter_app. simpl. by case_bool_decide. Qed.

Lemma lines_of_label label written : lines_of label written = map wn_line (of_label label written).
Proof. done. Qed.

Lemma last_loud_snoc written w :
  last_loud (written ++ [w])
  = if is_blank (written_clean w) then last_loud written else Some (written_clean w).
Proof.
  unfold last_loud. rewrite map_app, List.filter_app. simpl.
  destruct (is_blank _); simpl; [by rewrite app_nil_r|by rewrite last_snoc].
Qed.

(** What a thread cannot read, or nothing. *)
Definition unreadable (rest : bytes) : Prop :=
  rest = [] \/ exists line more, rest = line ++ more /\ one_line line /\ utf8_valid line = false.

Variable service_log : option string.

(** How far the thread of a stream is with its lines: those it is done with, and the one
    it has in hand. *)
Definition pump_told (label : Label) (pipe0 : bytes) (written served : list Written) (o : TaskOutput)
    : Prop :=
  exists before hand, of_label label written = before ++ hand /\
    (label = Stderr -> to_last o = last_loud before) /\
    match tp_stage (pump_of label o) with
    | Reading => hand = [] /\ pipe0 = concat (lines_of label written) ++ tp_pipe (pump_of label o) /\
        (is_Some service_log -> of_label label served = before)
    | Ended => hand = [] /\ (is_Some service_log -> of_label label served = before) /\
        exists rest, pipe0 = concat (lines_of label written) ++ rest /\ unreadable rest
    | ToService clean timestamp => exists w, hand = [w] /\ clean = written_clean w /\ timestamp = wn_time w /\
        pipe0 = concat (lines_of label written) ++ tp_pipe (pump_of label o) /\
        is_Some service_log /\ of_label label served = before
    | ToLast clean => exists w, hand = [w] /\ clean = written_clean w /\
        pipe0 = concat (lines_of label written) ++ tp_pipe (pump_of label o) /\
        (is_Some service_log -> of_label label served = before ++ hand)
    end.

Definition files_told (service0 : bytes) (written served : list Written) (o : TaskOutput) : Prop :=
  to_log o = flat_map task_text written /\
  to_service o = service0 ++ flat_map (service_text (default "" service_log)) served /\
  (service_log = None -> served = []) /\
  Forall (fun w => one_line (wn_line w) /\ utf8_valid (wn_line w) = true) written.

(** A thread does not touch what the other one has. *)
Lemma pump_told_other label label' pipe0 written served written' served' o o' :
  label <> label' ->
  pump_of label' o' = pump_of label' o ->
  (label' = Stderr -> to_last o' = to_last o) ->
  of_label label' written' = of_label label' written ->
  of_label label' served' = of_label label' served ->
  pump_told label' pipe0 written served o -> pump_told label' pipe0 written' served' o'.
Proof.
  intros Hne Hp Hl Hw Hs. unfold pump_told. rewrite Hp, !lines_of_label, Hw, Hs.
  intros (before & hand & Hb & Hlast & Hst). exists before, hand. split; [done|]. split; [|done].
  intros E. rewrite Hl by done. auto.
Qed.

Lemma pump_of_put label label' p o :
  pump_of label' (put_pump label p o) = if bool_decide (label = label') then p else pump_of label' o.
Proof. by destruct label, label'. Qed.

Definition told (pipes : Label -> bytes) (service0 : bytes) (written served : list Written)
    (o : TaskOutput) : Prop :=
  (forall label, pump_told label (pipes label) written served o) /\
  files_told service0 written served o.

Lemma read_line_cases pipe :
  (pipe = [] /\ read_line pipe = (Ok "", [])) \/
  exists line rest, pipe = line ++ rest /\ one_line line /\
    if utf8_valid line then read_line pipe = (Ok (of_bytes line), rest) /\ of_bytes line <> ""
    else exists e, read_line pipe = (Err e, rest).
Proof.
  unfold read_line. destruct (split_inclusive pipe) as [|line lines] eqn:E.
  - left. split; [|done]. rewrite <- (concat_split_inclusive pipe). by rewrite E.
  - right. apply split_inclusive_cons in E as (Hne & Ho & -> & _). exists line, (concat lines).
    rewrite drop_app_length. split; [done|]. split; [done|]. destruct (utf8_valid line); [|by eexists].
    split; [done|]. intros Hl. apply (f_equal to_bytes) in Hl. by rewrite to_of_bytes in Hl.
Qed.

(** One section keeps it. *)
Lemma section_told pipes service0 written served label timestamp o :
  told pipes service0 written served o ->
  exists written' served', told pipes service0 written' served' (log_pump_section service_log label timestamp None o).
Proof.
  intros [Hp Hf]. pose proof (Hp label) as (before & hand & Hb & Hlast & Hst).
  unfold log_pump_section. destruct (tp_stage (pump_of label o)) as [|clean ts|clean|] eqn:Hstage.
  - destruct Hst as (-> & Hpipe & Hserved). rewrite app_nil_r in Hb.
    destruct (read_line_cases (tp_pipe (pump_of label o))) as [[He ->]|(line & rest & He & Ho & Hr)].
    + cbn [bool_decide]. rewrite bool_decide_true by done. exists written, served. split; [|by destruct label].
      intros label'. destruct (decide (label = label')) as [<-|Hne].
      * exists before, []. rewrite pump_of_put, bool_decide_true by done. cbn. rewrite app_nil_r.
        split; [done|]. split; [by destruct label|]. split; [done|]. split; [done|]. exists [].
        rewrite Hpipe, He. split; [done|by left].
      * eapply pump_told_other; [exact Hne| | |done|done|apply Hp];
          [by rewrite pump_of_put, bool_decide_false|by destruct label].
    + destruct (utf8_valid line) eqn:Hv; [destruct Hr as [-> Hl]|destruct Hr as [e ->]].
      * rewrite bool_decide_false by done.
        set (w := mkWritten label line timestamp).
        set (next := match service_log with Some _ => _ | None => _ end).
        exists (written ++ [w]), served. split.
        { intros label'. destruct (decide (label = label')) as [<-|Hne].
          - exists before, [w]. rewrite of_label_snoc, Hb. cbn [wn_label w]. rewrite bool_decide_true by done.
            split; [done|]. split; [by destruct label|].
            set (o' := mkTaskOutput _ _ _ _ _).
            assert (pump_of label o' = mkTaskPump rest next) as -> by (by destruct label).
            assert (pipes label = concat (lines_of label (written ++ [w])) ++ rest) as Hrest.
            { rewrite lines_of_label, of_label_snoc. cbn [wn_label w]. rewrite bool_decide_true by done.
              rewrite map_app, concat_app, <- lines_of_label. cbn. by rewrite app_nil_r, <- app_assoc, <- He. }
            cbn [tp_stage tp_pipe]. subst next. destruct service_log as [stream|].
            + exists w. split_and!; try done. by apply Hserved.
            + exists w. by split_and!.
          - eapply (pump_told_other label); [exact Hne| | | |done|apply Hp];
              [by destruct label, label'|by destruct label|].
            rewrite of_label_snoc. cbn [wn_label w]. by rewrite bool_decide_false, app_nil_r. }
        { destruct Hf as (Hlog & Hservice & Hnone & Hall). split_and!.
          - cbn. rewrite flat_map_app. cbn. rewrite app_nil_r. destruct label; cbn; by rewrite <- Hlog.
          - by destruct label.
          - done.
          - apply Forall_app. split; [done|]. by constructor. }
      * exists written, served. split; [|by destruct label].
        intros label'. destruct (decide (label = label')) as [<-|Hne].
        -- exists before, []. rewrite pump_of_put, bool_decide_true by done. cbn. rewrite app_nil_r.
           split; [done|]. split; [by destruct label|]. split; [done|]. split; [done|].
           exists (line ++ rest). rewrite Hpipe, He. split; [done|]. right. by exists line, rest.
        -- eapply pump_told_other; [exact Hne| | |done|done|apply Hp];
             [by rewrite pump_of_put, bool_decide_false|by destruct label].
  - destruct Hst as (w & -> & -> & -> & Hpipe & [stream Hsome] & Hserved).
    assert (wn_label w = label) as Hwl.
    { assert (w ∈ of_label label written) as Hin by (rewrite Hb; set_solver).
      apply list_elem_of_In, filter_In in Hin as [_ ?%bool_decide_eq_true]. done. }
    exists written, (served ++ [w]). split.
    + intros label'. destruct (decide (label = label')) as [<-|Hne].
      * exists before, [w]. split; [done|]. split; [by destruct label|].
        set (o' := mkTaskOutput _ _ _ _ _).
        assert (pump_of label o' = mkTaskPump (tp_pipe (pump_of label o)) (ToLast (written_clean w))) as ->
          by (by destruct label).
        cbn. exists w. split_and!; try done. intros _. rewrite of_label_snoc, Hserved.
        by rewrite bool_decide_true.
      * eapply (pump_told_other label); [exact Hne| | |done| |apply Hp];
          [by destruct label, label'|by destruct label|].
        rewrite of_label_snoc, Hwl. by rewrite bool_decide_false, app_nil_r.
    + destruct Hf as (Hlog & Hservice & Hnone & Hall). split_and!.
      * by destruct label.
      * cbn. rewrite flat_map_app. cbn. rewrite app_nil_r, app_assoc. destruct label; cbn; by rewrite <- Hservice.
      * by rewrite Hsome.
      * done.
  - destruct Hst as (w & -> & -> & Hpipe & Hserved). exists written, served. split.
    + intros label'. destruct (decide (label = label')) as [<-|Hne].
      * exists (before ++ [w]), []. rewrite app_nil_r. split; [done|]. split.
        -- intros ->. rewrite last_loud_snoc. cbn. destruct (is_blank _); cbn; [by apply Hlast|done].
        -- set (o' := mkTaskOutput _ _ _ _ _).
           assert (pump_of label o' = mkTaskPump (tp_pipe (pump_of label o)) Reading) as -> by (by destruct label).
           cbn. by split_and!.
      * eapply pump_told_other; [exact Hne| | |done|done|apply Hp]; [by destruct label, label'|].
        intros ->. destruct label; [done|by destruct Hne].
    + by destruct label.
  - exists written, served. by split.
Qed.

Lemma pumps_told pipes service0 sections written served o :
  Forall (fun s => se_write s = None) sections -> told pipes service0 written served o ->
  exists written' served', told pipes service0 written' served' (log_pumps service_log sections o).
Proof.
  intros Hw. revert written served o. induction Hw as [|s sections Hs _ IH]; intros written served o Ht; [by eauto|].
  cbn. rewrite Hs. destruct (section_told _ _ _ _ (se_label s) (se_timestamp s) _ Ht) as (w' & s' & Ht'). by eapply IH.
Qed.

(** The sections that a thread still needs for what is in its pipe. *)
Definition sections_left (p : TaskPump) : nat :=
  let lines := length (split_inclusive (tp_pipe p)) in
  match tp_stage p with
  | Reading => 3 * lines + 1
  | ToService _ _ => 3 * lines + 3
  | ToLast _ => 3 * lines + 2
  | Ended => 0
  end.

Lemma section_progress label timestamp write o label' :
  sections_left (pump_of label' (log_pump_section service_log label timestamp write o))
  <= sections_left (pump_of label' o) - (if bool_decide (label = label') then 1 else 0).
Proof.
  destruct (decide (label = label')) as [<-|Hne].
  2:{ rewrite bool_decide_false by done. unfold log_pump_section.
      destruct (tp_stage (pump_of label o)); [destruct (read_line _) as [[] ?]; try case_bool_decide|..];
        destruct label, label'; try done; cbn; lia. }
  rewrite bool_decide_true by done. unfold log_pump_section.
  destruct (tp_stage (pump_of label o)) as [|clean ts|clean|] eqn:Hs.
  - unfold sections_left at 2. rewrite Hs. unfold read_line.
    destruct (split_inclusive (tp_pipe (pump_of label o))) as [|line lines] eqn:E.
    + rewrite bool_decide_true by done. destruct label; cbn; lia.
    + apply split_inclusive_cons in E as (Hne & Ho & Hp & Hl). rewrite Hp, drop_app_length.
      destruct (utf8_valid line); [case_bool_decide|]; [destruct label; cbn; lia| |destruct label; cbn; lia].
      destruct service_log, label; cbn -[split_inclusive Nat.mul]; rewrite Hl; cbn; lia.
  - unfold sections_left at 2. rewrite Hs. destruct label; cbn -[Nat.mul]; lia.
  - unfold sections_left at 2. rewrite Hs. destruct label; cbn -[Nat.mul]; lia.
  - unfold sections_left at 1. rewrite Hs. lia.
Qed.

(** A thread that gets its turns ends. *)
Lemma pumps_end label sections o :
  sections_left (pump_of label o) <= length (List.filter (fun s => bool_decide (se_label s = label)) sections) ->
  tp_stage (pump_of label (log_pumps service_log sections o)) = Ended.
Proof.
  revert o. induction sections as [|s sections IH]; intros o.
  - cbn. unfold sections_left. destruct (tp_stage (pump_of label o)); [lia..|done].
  - intros Hl. cbn. apply IH. pose proof (section_progress (se_label s) (se_timestamp s) (se_write s) o label).
    cbn in Hl. destruct (bool_decide (se_label s = label)); cbn in Hl; lia.
Qed.

Definition turns_of (label : Label) (sections : list Section_) : nat :=
  length (List.filter (fun s => bool_decide (se_label s = label)) sections).

(** C17: Nothing of what a task says is lost. When both threads get the turns they need, in
    whatever order, and their writes work, the log of the task has one line for each line
    that came out of the task, marked with its stream and each stream's in their order; the
    log of a service whose task it is gets the same lines; and the line that is kept is the
    last one on stderr that is not blank. A stream is followed to its end, or to a line that
    is not UTF-8. *)
Theorem task_log_tells_output stdout stderr service0 sections :
  Forall (fun s => se_write s = None) sections ->
  (forall label, 3 * length (split_inclusive (match label with Stdout => stdout | Stderr => stderr end)) + 1
     <= turns_of label sections) ->
  let o := log_pumps service_log sections (fresh_output stdout stderr service0) in
  exists written served,
    to_log o = flat_map task_text written /\
    to_service o = service0 ++ flat_map (service_text (default "" service_log)) served /\
    match service_log with
    | Some _ => forall label, of_label label served = of_label label written
    | None => served = []
    end /\
    (forall label, exists rest,
       match label with Stdout => stdout | Stderr => stderr end = concat (lines_of label written) ++ rest /\
       unreadable rest) /\
    Forall (fun w => one_line (wn_line w)) written /\
    to_last o = last_loud (of_label Stderr written).
Proof.
  intros Hw Hturns. cbv zeta.
  set (pipes := fun label => match label with Stdout => stdout | Stderr => stderr end).
  assert (told pipes service0 [] [] (fresh_output stdout stderr service0)) as H0.
  { split; [|split_and!; [done|cbn; by rewrite app_nil_r|done..]]. intros label. exists [], [].
    split; [done|]. split; [done|]. by destruct label. }
  destruct (pumps_told pipes service0 sections [] [] _ Hw H0) as (written & served & Hp & Hlog & Hservice & Hnone & Hall).
  assert (forall label, tp_stage (pump_of label (log_pumps service_log sections (fresh_output stdout stderr service0)))
            = Ended) as Hended.
  { intros label. apply pumps_end. specialize (Hturns label). unfold turns_of in Hturns.
    by destruct label. }
  assert (forall label, exists before, of_label label written = before /\ (label = Stderr ->
     to_last (log_pumps service_log sections (fresh_output stdout stderr service0)) = last_loud before) /\
     (is_Some service_log -> of_label label served = before) /\
     exists rest, pipes label = concat (lines_of label written) ++ rest /\ unreadable rest) as Hend.
  { intros label. destruct (Hp label) as (before & hand & Hb & Hl & Hst). rewrite Hended in Hst.
    destruct Hst as (-> & Hs & Hr). rewrite app_nil_r in Hb. by exists before. }
  exists written, served. split_and!; [done|done| | | |].
  - destruct service_log; [|by apply Hnone]. intros label. destruct (Hend label) as (before & -> & _ & Hs & _).
    by apply Hs.
  - intros label. destruct (Hend label) as (before & _ & _ & _ & Hr). exact Hr.
  - eapply Forall_impl; [exact Hall|]. by intros w [? _].
  - destruct (Hend Stderr) as (before & -> & Hl & _). by apply Hl.
Qed.
End logs.

Definition sample_sections : list Section_ :=
  let turn label := mkSection label "t" None in
  [turn Stdout; turn Stderr; turn Stderr; turn Stdout; turn Stderr; turn Stdout; turn Stdout; turn Stderr;
   turn Stdout; turn Stdout; turn Stdout].

(** The line "one" and a piece without its end on stdout, "two" on stderr. *)
Lemma task_log_tells_output_witness :
  let o := @log_pumps concrete_json (Some "task") sample_sections (fresh_output sample_out sample_err []) in
  to_log o = to_bytes "[t] [stdout] one" ++ ["010"%char] ++ to_bytes "[t] [stderr] two" ++ ["010"%char]
             ++ to_bytes "[t] [stdout] t" ++ ["010"%char] /\
  to_last o = Some "two" /\
  exists written, to_log o = flat_map task_text written /\ to_last o = last_loud (of_label Stderr written).
Proof.
  destruct (@task_log_tells_output concrete_json (Some "task") sample_out sample_err [] sample_sections)
    as (written & served & Hlog & _ & _ & Hp & Hone & Hlast).
  - by repeat constructor.
  - intros []; vm_compute; lia.
  - split; [vm_compute; reflexivity|]. split; [vm_compute; reflexivity|].
    exists written. split; [exact Hlog|exact Hlast].
Defined.

(** A line that is not UTF-8 ends its thread: what comes after it is not in the logs. *)
Lemma binary_line_silences_task :
  let stdout := ["255"%char; "010"%char] ++ to_bytes "done" ++ ["010"%char] in
  let sections := map (fun label => mkSection label "t" None) (repeat Stdout 10) in
  let o := @log_pumps concrete_json None sections (fresh_output stdout [] []) in
  to_log o = [] /\ tp_stage (to_stdout o) = Ended.
Proof. vm_compute. by split. Qed.

(** ** What a run does *)

Inductive Told :=
  | ReadVars (items : list (outcome (string * string)))
  | Ran (c : ShellCommand) (status : outcome (option Z))
  | Started (c : ShellCommand)
  | Waited (status : outcome (option Z))
  | Joined (label : Label)
  | Kept (last : option string)
  | Recorded (path : string) (history : TaskHistory)
  | Updated (execution_id : string) (exit_code : option Z) (answer : outcome DetachedTaskExecution)
  | Announced (e : DaemonTaskEvent).

Definition told_of (ev : event TaskE) : option Told :=
  match ev with
  | Ev e r =>
      match e in TaskE R return R -> option Told with
      | ReadEnvFile _ => fun r => match r with Ok items => Some (ReadVars items) | _ => None end
      | RunShell c => fun r => Some (Ran c r)
      | SpawnShell c => fun r => match r with Ok _ => Some (Started c) | _ => None end
      | WaitShell => fun r => Some (Waited r)
      | JoinPump label => fun _ => Some (Joined label)
      | LastStderr => fun r => Some (Kept r)
      | WriteHistory path history => fun r => match r with Ok _ => Some (Recorded path history) | _ => None end
      | UpdateTask id code => fun r => Some (Updated id code r)
      | EmitTask e => fun _ => Some (Announced e)
      | _ => fun _ => None
      end r
  end.

Abbreviation task_seen := (seen told_of).

(** A process of the task. *)
Definition is_process (t : Told) : bool := match t with Ran _ _ | Started _ => true | _ => false end.
Definition is_record (t : Told) : bool := match t with Recorded _ _ => true | _ => false end.
Definition of_daemon (t : Told) : bool := match t with Updated _ _ _ | Announced _ => true | _ => false end.

(** Of a run that fails: nothing is recorded and at most one process was started. *)
Definition unrecorded (l : list Told) : Prop :=
  existsb is_record l = false /\ length (List.filter is_process l) <= 1.

Lemma env_items_Ok err items env env' :
  env_items err items env = Ok env' -> exists vars, items = map Ok vars /\ env' = bextend env vars.
Proof.
  unfold env_items. revert env. induction items as [|item items IH]; intros env; cbn.
  - intros [= <-]. by exists [].
  - destruct item as [[k v]|e| |]; [|done..]. cbn. intros (vars & -> & ->)%IH. by exists ((k, v) :: vars).
Qed.

Section told.
Context (try_quote : string -> outcome string).
Context (base_dir : outcome string) (blake3_hex : string -> string).
Context (task_name : string) (task : TaskConfig) (project_dir : string) (scope : TaskLogScope).
Context (path : string) (verbose : bool) (args : list string) (base_env : bmap string string).
Context (service_log : option ServiceLogSink).

(** The command is the one of the configuration with the arguments quoted behind it, in
    the directory of the task; its environment are the variables it is run with, then those
    of the file, then those of the task. *)
Definition configured (files : list (list (outcome (string * string)))) (c : ShellCommand) : Prop :=
  let '(cmd, _, env, env_file) := task_cmd_parts task in
  task_line try_quote cmd args = Ok (sh_line c) /\ sh_cwd c = task_cwd task project_dir /\
  sh_inherit c = verbose /\ length files <= 1 /\ (env_file = None -> files = []) /\
  exists vars, concat files = map Ok vars /\ sh_env c = bextend (bextend base_env vars) env.

(** What is seen of a process that comes to its end. *)
Definition process (c : ShellCommand) (status : option Z) (last : option string) : list Told :=
  if verbose then [Ran c (Ok status)]
  else [Started c; Waited (Ok status); Joined Stdout; Joined Stderr; Kept last].

Definition run_recorded (l : list Told) (result : TaskResult) : Prop :=
  exists files c status last history started_at finished_at,
    l = map ReadVars files ++ process c status last
        ++ [Recorded path (append_task_execution history task_name scope started_at finished_at result)] /\
    configured files c /\ tr_exit_code result = default 1%Z status /\
    tr_last_stderr_line result = (if verbose then None else last).

Lemma shell_of_seen :
  task_seen (shell_of try_quote task project_dir verbose args base_env) (fun l o =>
    exists files, l = map ReadVars files /\ match o with Ok c => configured files c | _ => True end).
Proof.
  unfold shell_of, configured. destruct task as [cmd|[cmd cwd watch env env_file]]; cbn [task_cmd_parts].
  - cbn. destruct (task_line try_quote cmd args) as [line|e| |]; cbn; [|by exists []..].
    exists []. do 6 (split; [done||(cbn; lia)|]). by exists [].
  - cbn. destruct (task_line try_quote cmd args) as [line|e| |]; cbn; [|by exists []..].
    destruct env_file as [env_file|]; cbn.
    + set (env_path := if is_absolute env_file then _ else _). intros there. destruct there; cbn.
      * intros r. destruct r as [items|e| |]; cbn; [|by exists []..].
        destruct (env_items _ items base_env) as [env'|e| |] eqn:Ee; cbn; exists [items]; (split; [done|]); try done.
        apply env_items_Ok in Ee as (vars & -> & ->). split; [done|]. split; [by destruct cwd|].
        split; [done|]. split; [cbn; lia|]. split; [done|]. exists vars. split; [cbn; by rewrite app_nil_r|done].
      * exists []. split; [done|]. split; [done|]. split; [by destruct cwd|].
        split; [done|]. split; [cbn; lia|]. split; [done|]. by exists [].
    + exists []. split; [done|]. split; [done|]. split; [by destruct cwd|].
      split; [done|]. split; [cbn; lia|]. split; [done|]. by exists [].
Qed.

Lemma run_piped_seen command log_path :
  task_seen (run_piped command task_name log_path service_log) (fun l o =>
    match o with
    | Ok (status, last) =>
        l = [Started command; Waited (Ok status); Joined Stdout; Joined Stderr; Kept last]
    | _ => unrecorded l
    end).
Proof.
  unfold run_piped, create_parent.
  destruct (parent log_path); cbn; [intros [[]|e| |]; cbn; [|by split; cbn; lia..]|];
    (intros [[]|e| |]; cbn; [|by split; cbn; lia..]);
    (intros [[]|e| |]; cbn; [|by split; cbn; lia..]);
    (destruct service_log as [sink|]; cbn;
       [destruct (parent (lk_path sink)); cbn; [intros [[]|e| |]; cbn; [|by split; cbn; lia..]|];
        (intros [[]|e| |]; cbn; [|by split; cbn; lia..])|]);
    intros _ _ [status|e| |]; cbn; try (by split; cbn; lia); intros _ _ last; done.
Qed.

Lemma append_seen started_at finished_at result :
  task_seen (append_to_history path task_name scope started_at finished_at result) (fun l o =>
    match o with
    | Ok _ => exists history,
        l = [Recorded path (append_task_execution history task_name scope started_at finished_at result)]
    | _ => l = []
    end).
Proof.
  unfold append_to_history, history_load. cbn. intros []; cbn.
  - intros [history|e| |]; cbn; try done. intros [[]|e| |]; cbn; try done. by exists history.
  - intros [[]|e| |]; cbn; try done. by exists [].
Qed.

Lemma vars_unrecorded files : unrecorded (map ReadVars files).
Proof. split; [|]; induction files; cbn in *; (done || lia). Qed.

Lemma unrecorded_vars files l : unrecorded l -> unrecorded (map ReadVars files ++ l).
Proof.
  intros [Hr Hp]. split.
  - rewrite existsb_app, Hr. by destruct (vars_unrecorded files) as [-> _].
  - rewrite List.filter_app, length_app. replace (List.filter is_process (map ReadVars files)) with (@nil Told); [done|].
    by induction files.
Qed.

Lemma process_unrecorded c status last : unrecorded (process c status last).
Proof. unfold process. by destruct verbose; split; cbn; try lia. Qed.

(** A task is run once and told of once. When [run_task] succeeds it has run one shell,
    with the command of the configuration behind which the arguments are quoted, in the
    directory of the task and with its environment; the history got one execution, after the
    shell ended and all its output was taken, with the exit code of the result, which is the
    shell's or 1 when a signal ended it. When it fails the history got nothing and at most
    one shell was started. *)
Theorem task_run_recorded :
  task_seen (run_task try_quote base_dir blake3_hex task_name task project_dir scope path verbose args
               base_env service_log) (fun l o =>
    match o with Ok result => run_recorded l result | _ => unrecorded l end).
Proof.
  unfold run_task. apply seen_bind. eapply seen_mono; [|apply shell_of_seen].
  intros l [command|e| |] (files & -> & Hc); [|apply vars_unrecorded..].
  cbn. intros started_at start.
  assert (forall status last finished_now finished_at (r := mkResult (default 1%Z status) (duration_ms start finished_now) (if verbose then None else last)),
    task_seen (_ ← append_to_history path task_name scope started_at finished_at r; mret r) (fun l2 o =>
      match o with
      | Ok result => run_recorded (map ReadVars files ++ process command status last ++ l2) result
      | _ => unrecorded (map ReadVars files ++ process command status last ++ l2)
      end)) as Hend.
  { intros status last fnow fat r. apply seen_bind. eapply seen_mono; [|apply append_seen].
    intros l2 [[]|e| |]; cbn.
    - intros [history ->]. exists files, command, status, last, history, started_at, fat.
      split; [done|]. split; [done|]. split; [done|]. by subst r.
    - intros ->. rewrite app_nil_r. apply unrecorded_vars, process_unrecorded.
    - intros ->. rewrite app_nil_r. apply unrecorded_vars, process_unrecorded.
    - intros ->. rewrite app_nil_r. apply unrecorded_vars, process_unrecorded. }
  unfold process in Hend. destruct verbose.
  - cbn. intros [status|e| |]; cbn; try (apply unrecorded_vars; by split; cbn; lia).
    intros fnow fat. exact (Hend status None fnow fat).
  - destruct (scope_log_path base_dir blake3_hex project_dir task_name scope) as [log_path|e| |];
      cbn; try (rewrite app_nil_r; apply vars_unrecorded).
    apply seen_bind. eapply seen_mono; [|apply run_piped_seen].
    intros l [[status last]|e| |]; [|by apply unrecorded_vars..]. intros ->. cbn.
    intros fnow fat. exact (Hend status last fnow fat).
Qed.

(** Of the variables of a task the task's own settings win, then the last one of its file,
    then those it is run with. *)
Lemma task_variables files c k :
  bwf (task_cmd_parts task).1.2 -> configured files c -> exists vars, concat files = map Ok vars /\
  bget k (sh_env c) = match bget k (task_cmd_parts task).1.2 with
                      | Some v => Some v
                      | None => match bget k (reverse vars) with
                                | Some v => Some v
                                | None => bget k base_env
                                end
                      end.
Proof.
  unfold configured. destruct (task_cmd_parts task) as [[[cmd cwd] env] env_file]. cbn.
  intros Hwf (_ & _ & _ & _ & _ & vars & Hv & ->). exists vars. split; [done|].
  by rewrite bget_bextend_map, bget_bextend.
Qed.
End told.

(** ** Detached tasks *)

Section detached.
Context (try_quote : string -> outcome string).
Context (base_dir : outcome string) (blake3_hex : string -> string).

(** What is seen of a worker is what is seen of its work. *)
Lemma seen_worker {A} (p : task_prog A) (P : list Told -> outcome A -> Prop) :
  task_seen p P ->
  task_seen (worker p) (fun l o => exists r r', o = Ok r /\ P l r' /\ (forall a, r = Ok a -> r' = Ok a) /\
                                    ((forall a, r <> Ok a) -> forall a, r' <> Ok a)).
Proof.
  revert P. induction p as [[a|e| |]|R e k IH]; intros P; cbn; [..|intros Hp r; by apply IH];
    intros Hp; eexists _, _; (split; [done|]); (split; [exact Hp|]); by split.
Qed.

Lemma ingest_quiet run_id task_name : quiet told_of (ingest_task_log base_dir run_id task_name).
Proof.
  unfold ingest_task_log. destruct (task_log_path _ _ _); cbn; try done. intros []; [|done]. by intros [].
Qed.

(** An execution that runs on its own is told of once. Whatever becomes of it, its
    state in the store is set once, to the exit code of its run or to failed when it could
    not be run or recorded; then exactly one event says how it ended, and says completed
    exactly when the store says so. *)
Theorem detached_task_told detached_task task args :
  task_seen (execute_detached_task try_quote base_dir blake3_hex detached_task task args) (fun l o =>
    o = Ok tt /\
    exists ran exit_code answer,
      l = ran ++ [Updated (dt_execution_id detached_task) exit_code answer;
                  Announced (let t := default detached_task (ok answer) in
                             task_event t (match dt_state t with
                                           | TaskCompleted => TaskEventCompleted
                                           | _ => TaskEventFailed
                                           end))] /\
      match exit_code with
      | Some code => exists result path, detached_history_path base_dir blake3_hex detached_task = Ok path /\
          run_recorded try_quote (dt_task detached_task) task (dt_project_dir detached_task)
            (detached_scope detached_task) path false args [] ran result /\ code = tr_exit_code result
      | None => unrecorded ran
      end).
Proof.
  unfold execute_detached_task. apply seen_bind.
  set (work := detached_work _ _ _ _ _ _).
  assert (task_seen work (fun l o => match o with
      | Ok result => exists path, detached_history_path base_dir blake3_hex detached_task = Ok path /\
          run_recorded try_quote (dt_task detached_task) task (dt_project_dir detached_task)
            (detached_scope detached_task) path false args [] l result
      | _ => unrecorded l
      end)) as Hwork.
  { subst work. unfold detached_work. destruct (detached_history_path _ _ _) as [path|e| |]; [|by split; cbn; lia..].
    apply (seen_mono _ _ (fun l o => match o with
      | Ok result => run_recorded try_quote (dt_task detached_task) task (dt_project_dir detached_task)
            (detached_scope detached_task) path false args [] l result
      | _ => unrecorded l end)); [|apply task_run_recorded].
    intros l [result|e| |]; try done. intros Hr. by exists path. }
  eapply seen_mono; [|apply (seen_worker _ _ Hwork)]. intros l o (r & r' & -> & Hr & Hok & Hno).
  set (exit_code := match r with Ok r => Some (tr_exit_code r) | _ => None end). cbn [mbind].
  intros answer. cbn [told_of option_list app].
  set (updated := match answer with Ok t => t | _ => detached_task end).
  assert (default detached_task (ok answer) = updated) as Hu by (by destruct answer).
  apply seen_bind. eapply (seen_mono _ _ (fun l' o => l' = [] /\ o = Ok tt)).
  2:{ match goal with |- context [dt_run_id ?t] => destruct (dt_run_id t) as [run_id|] end; [|by split].
      apply seen_bind.
      eapply seen_mono; [|apply seen_worker, (ingest_quiet run_id (dt_task updated))].
      by intros l' o (? & ? & -> & -> & _). }
  intros l' o [-> ->] []. split; [done|]. exists l, exit_code, answer. split; [by rewrite Hu|].
  subst exit_code. destruct r as [result|e| |].
  1:{ specialize (Hok result eq_refl). subst r'. destruct Hr as (path & Hp & Hr). by exists result, path. }
  all: destruct r' as [a| | |]; try done; by destruct (Hno ltac:(done) a).
Qed.
End detached.

(** A disk on which no file can be made: the shell is started before its log, so it goes on
    without anybody who reads what it says or waits for it. *)
Definition full_disk : forall R, TaskE R -> unit -> R * unit := fun R e _ =>
  (match e in TaskE R return R with
   | FileExists _ => false
   | ReadEnvFile _ => Err "no file"
   | WallClock => "t"
   | Instant => 0%Z
   | RunShell _ | WaitShell => Ok (Some 0%Z)
   | SpawnShell _ | CreateDir _ => Ok tt
   | CreateLog _ | OpenServiceLog _ | WriteHistory _ _ | IngestLog _ _ _ => Err "no space left on device"
   | StartPump _ _ | JoinPump _ | EmitTask _ => tt
   | LastStderr => None
   | ReadHistory _ => Err "no file"
   | UpdateTask _ _ => Err "not found"
   end, tt).

Lemma unlogged_task_left_running :
  let '(t, o, _) := run_with full_disk
    (run_task Ok (Ok "/data") (fun s => s) "build" (TaskCommand "make") "/p" (ScopeOfRun "r") "/h" false [] [] None) tt in
  observed told_of t = [Started (mkShellCommand "make" "/p" [] false)] /\
  o = Err "create task log /data/task-logs/r/build.log".
Proof. vm_compute. by split. Qed.
