(* ===== verification/SystemdBus.v ===== *)
(** * The service manager over D-Bus

    Models [RealSystemd] and [LocalSystemd::cleanup_registry] of [src/systemd.rs]. The first
    passes the operations on to the service manager of the user; every call on the bus is an
    effect. The second ends what is left of a local service manager without one: the units
    come from its registry file. *)

From stdpp Require Import gmap.
From S2P Require Import Prelude Bytes Program Systemd.
From Stdlib Require Import Lia ZArith.

(** ** The calls *)

Inductive Value_ :=
  | VStr (s : string)
  | VStrs (l : list string)
  | VExec (l : list (string * list string * bool))
  | VI32 (n : Z)
  | VU32 (n : Z)
  | VU64 (n : Z)
  | VBool (b : bool).

Inductive Mode := Replace.

(** What the bus is asked; [ManagerProxy::new] and the builders of proxies may fail too. *)
Inductive BusE : Type -> Type :=
  | NewManager : BusE (outcome unit)
  | StartTransientUnit (unit_name : string) (mode : Mode) (properties : list (string * Value_)) : BusE (outcome unit)
  | BusStopUnit (unit_name : string) (mode : Mode) : BusE (outcome unit)
  | BusRestartUnit (unit_name : string) (mode : Mode) : BusE (outcome unit)
  | BusKillUnit (unit_name whom : string) (signal : Z) : BusE (outcome unit)
  | GetUnit (unit_name : string) : BusE (outcome string)
  | UnitProxyPath (path : string) : BusE (outcome unit)
  | UnitProxyBuild (path : string) : BusE (outcome unit)
  | ActiveState (path : string) : BusE (outcome string)
  | SubState (path : string) : BusE (outcome string)
  | ServiceProxyPath (path : string) : BusE (outcome unit)
  | ServiceProxyBuild (path : string) : BusE (outcome unit)
  | ServiceResult (path : string) : BusE (outcome string).

Abbreviation bus := (prog BusE).

Definition manager : bus unit := on_error (fun _ => "create ManagerProxy") (try_trigger NewManager).

Definition exec_of (e : ExecStart) : list (string * list string * bool) :=
  [(ex_path e, ex_argv e, ex_ignore_failure e)].

Definition properties_of (props : UnitProperties) : list (string * Value_) :=
  [("Description", VStr (up_description props));
   ("Type", VStr "exec");
   ("WorkingDirectory", VStr (up_working_directory props));
   ("Environment", VStrs (up_environment props));
   ("ExecStart", VExec (exec_of (up_exec_start props)));
   ("KillMode", VStr (up_kill_mode props));
   ("KillSignal", VI32 (up_kill_signal props));
   ("TimeoutStopUSec", VU64 (up_timeout_stop_usec props));
   ("SendSIGKILL", VBool (up_send_sigkill props));
   ("RemainAfterExit", VBool (up_remain_after_exit props));
   ("Restart", VStr (up_restart props));
   ("RestartUSec", VU64 (up_restart_usec props));
   ("StartLimitIntervalUSec", VU64 (up_start_limit_interval_usec props));
   ("StartLimitBurst", VU32 (up_start_limit_burst props))].

Definition real_start (unit_name : string) (props : UnitProperties) : bus unit :=
  _ ← manager;
  on_error (fun _ => "start transient unit")
    (try_trigger (StartTransientUnit unit_name Replace (properties_of props))).

Definition real_stop (unit_name : string) : bus unit :=
  _ ← manager; on_error (fun _ => "stop unit") (try_trigger (BusStopUnit unit_name Replace)).

Definition real_restart (unit_name : string) : bus unit :=
  _ ← manager; on_error (fun _ => "restart unit") (try_trigger (BusRestartUnit unit_name Replace)).

Definition real_kill (unit_name : string) (signal : Z) : bus unit :=
  _ ← manager; on_error (fun _ => "kill unit") (try_trigger (BusKillUnit unit_name "all" signal)).

(** [str::to_lowercase] of the name of a state, all of whose letters are ASCII. *)
Definition state_name (debug : string) : string := str_to_ascii_lowercase debug.

Definition or_else {A} (a : A) (o : outcome A) : outcome A :=
  match o with Err _ => Ok a | _ => o end.

(** A call whose error is a value. *)
Definition optional {A} (p : bus A) : bus (option A) :=
  r ← attempt p; Ret (or_else None (Some <$> r)).

Definition real_status (unit_name : string) : bus (option UnitStatus) :=
  _ ← manager;
  found ← optional (try_trigger (GetUnit unit_name));
  match found with
  | None => mret None
  | Some path =>
      _ ← try_trigger (UnitProxyPath path);
      _ ← on_error (fun _ => "create UnitProxy") (try_trigger (UnitProxyBuild path));
      active_state ← optional (try_trigger (ActiveState path));
      sub_state ← optional (try_trigger (SubState path));
      result ← optional (_ ← try_trigger (ServiceProxyPath path);
                         _ ← try_trigger (ServiceProxyBuild path);
                         try_trigger (ServiceResult path));
      mret (Some (mkUnitStatus (state_name (default "Inactive" active_state))
                    (default "" sub_state) result))
  end.

(** ** Cleaning up *)

Inductive CleanE : Type -> Type :=
  | Signalled (signal : Signal) : CleanE unit
  | ClockNow : CleanE Z
  | GroupThere (pgid : nat) : CleanE bool
  | SleepMs (ms : Z) : CleanE unit
  | RemoveRegistry : CleanE (outcome unit).

Abbreviation clean := (prog CleanE).

Definition signal_each (u : LocalUnit) (signal : Z) : clean unit :=
  pforeach (fun s => trigger (Signalled s)) (signal_unit u signal).

Definition unit_there (u : LocalUnit) : clean bool :=
  match lu_pgid u with Some pgid => trigger (GroupThere pgid) | None => mret false end.

(** [units.values().any(..)] *)
Fixpoint any_there (units : list LocalUnit) : clean bool :=
  match units with
  | [] => mret false
  | u :: units => there ← unit_there u; if there : bool then mret true else any_there units
  end.

Fixpoint wait_all_gone (fuel : nat) (units : list LocalUnit) (deadline : Z) : clean unit :=
  match fuel with
  | 0 => Ret OutOfFuel
  | S fuel =>
      now ← trigger ClockNow;
      if negb (now <? deadline)%Z then mret tt else
      there ← any_there units;
      if there : bool then _ ← trigger (SleepMs 50); wait_all_gone fuel units deadline else mret tt
  end.

Definition kill_left (u : LocalUnit) : clean unit :=
  there ← unit_there u; if there : bool then signal_each u SIGKILL else mret tt.

(** The units of the registry, in the order of its map. *)
Definition cleanup_registry (units : list LocalUnit) : clean unit :=
  _ ← pforeach (fun u => signal_each u SIGTERM) units;
  now ← trigger ClockNow;
  _ ← wait_all_gone 62 units (now + 3000);
  _ ← pforeach kill_left units;
  _ ← trigger RemoveRegistry; mret tt.

Section registry.
Context `{RegistryFile}.

Definition cleanup_registry_file (file : option string) : clean unit :=
  cleanup_registry (map snd (map_to_list (load_units file))).
End registry.

(** ** What the cleanup leaves *)

(** The clock in milliseconds, the groups that have a process, and the signals with their
    times. *)
Record CleanKernel := mkCleanKernel { ck_now : Z; ck_alive : gset nat; ck_sent : list (Z * Signal) }.

Definition clean_answers : forall R, CleanE R -> CleanKernel -> R -> CleanKernel -> Prop := fun R e s =>
  match e in CleanE R return R -> CleanKernel -> Prop with
  | Signalled signal => fun _ s' => s' = mkCleanKernel (ck_now s) (ck_alive s) (ck_sent s ++ [(ck_now s, signal)])
  | ClockNow => fun r s' => r = ck_now s /\ s' = s
  | GroupThere pgid => fun r s' => r = bool_decide (pgid ∈ ck_alive s) /\ s' = s
  | SleepMs ms => fun _ s' => exists t, (ck_now s + ms <= t)%Z /\ s' = mkCleanKernel t (ck_alive s) (ck_sent s)
  | RemoveRegistry => fun _ s' => s' = s
  end.

(** Time goes on, and a group that is gone stays gone. *)
Definition clean_moves (s s' : CleanKernel) : Prop :=
  (ck_now s <= ck_now s')%Z /\ ck_alive s' ⊆ ck_alive s /\ ck_sent s' = ck_sent s.

Abbreviation clean_wp := (wp clean_answers clean_moves).

#[export] Instance clean_moves_preorder : PreOrder clean_moves.
Proof.
  split; [by intros s; split_and!|]. intros s1 s2 s3 (H1 & H2 & H3) (H1' & H2' & H3').
  split_and!; [lia|set_solver|congruence].
Qed.

(** [ck_sent] only grows. *)
Definition later (s s' : CleanKernel) : Prop :=
  (ck_now s <= ck_now s')%Z /\ ck_alive s' ⊆ ck_alive s /\ ck_sent s ⊆ ck_sent s'.

#[export] Instance later_preorder : PreOrder later.
Proof.
  split; [by intros s; split_and!|]. intros s1 s2 s3 (H1 & H2 & H3) (H1' & H2' & H3').
  split_and!; [lia|set_solver|set_solver].
Qed.

Lemma moves_later s s' : clean_moves s s' -> later s s'.
Proof. intros (? & ? & He). split_and!; [done..|by rewrite He]. Qed.

(** The groups of units. *)
Definition group_of (units : list LocalUnit) (pgid : nat) : Prop :=
  exists u, u ∈ units /\ lu_pgid u = Some pgid.

Definition loaded_unit (u : LocalUnit) : Prop := lu_child u = None.

Definition groups_gone (units : list LocalUnit) (s : CleanKernel) : Prop :=
  forall pgid, group_of units pgid -> pgid ∉ ck_alive s.

Lemma unit_there_wp u s :
  clean_wp (unit_there u) (fun t o s' => clean_moves s s' /\ exists b, o = Ok b /\
    (b = false -> forall pgid, lu_pgid u = Some pgid -> pgid ∉ ck_alive s') /\
    (b = true -> is_Some (lu_pgid u))) s.
Proof.
  unfold unit_there. destruct (lu_pgid u) as [pgid|]; cbn.
  - intros s1 r s2 Hm [-> ->]. split; [done|]. eexists. split; [done|].
    split; [|by eauto]. intros ?%bool_decide_eq_false p [= <-]. done.
  - split; [done|]. exists false. by split_and!.
Qed.

Lemma any_there_wp units s :
  clean_wp (any_there units) (fun t o s' => clean_moves s s' /\ exists b, o = Ok b /\
    (b = false -> groups_gone units s')) s.
Proof.
  revert s. induction units as [|u units IH]; intros s; cbn.
  - split; [done|]. exists false. split; [done|]. by intros _ pgid (u & ?%elem_of_nil & _).
  - apply wp_bind. eapply wp_mono; [|apply unit_there_wp]. intros t o s1 (Hm & b & -> & Hb & _). cbn.
    destruct b; [split; [done|]; by exists true|].
    eapply wp_mono; [|apply IH]. intros t2 o s2 (Hm2 & b & -> & Hb2). split; [by etrans|].
    exists b. split; [done|]. intros -> pgid (u' & [->|Hin]%elem_of_cons & Hp).
    + intros Hal. apply (Hb eq_refl pgid Hp). destruct Hm2 as (_ & Hsub & _). set_solver.
    + apply (Hb2 eq_refl). by exists u'.
Qed.

Lemma wait_all_gone_wp fuel units deadline s :
  (deadline - ck_now s <= 50 * (Z.of_nat fuel - 1))%Z -> 0 < fuel ->
  clean_wp (wait_all_gone fuel units deadline) (fun t o s' => o = Ok tt /\ clean_moves s s' /\
    ((deadline <= ck_now s')%Z \/ groups_gone units s')) s.
Proof.
  revert s. induction fuel as [|fuel IH]; intros s Hf Hpos; [lia|]. cbn [wait_all_gone]. cbn [mbind prog_bind trigger].
  intros s1 now s1' Hm1 [-> ->]. cbn [mbind prog_bind]. destruct (Z.ltb_spec (ck_now s1) deadline) as [Hd|Hd]; cbn [negb].
  2:{ cbn. split; [done|]. split; [done|]. by left. }
  apply wp_bind. eapply wp_mono; [|apply any_there_wp]. intros t o s2 (Hm2 & b & -> & Hb). cbn [then_post].
  destruct b; cbn.
  - intros s3 [] s3' Hm3 (t' & Ht & ->). destruct Hm1 as (H1 & H1a & H1b), Hm2 as (H2 & H2a & H2b), Hm3 as (H3 & H3a & H3b).
    destruct fuel as [|fuel]; [lia|]. eapply wp_mono; [|apply IH]; [|cbn [ck_now]; lia|lia].
    intros t2 o s4 (-> & (H4 & H4a & H4b) & Hr). cbn in H4, H4a, H4b.
    split; [done|]. split; [|done]. split_and!; [lia|set_solver|congruence].
  - split; [done|]. split; [by etrans|]. right. by apply Hb.
Qed.

Lemma signal_each_wp u signal s :
  loaded_unit u ->
  clean_wp (signal_each u signal) (fun t o s' => o = Ok tt /\ later s s' /\
    (forall pgid, lu_pgid u = Some pgid -> exists t, (ck_now s <= t)%Z /\ (t <= ck_now s')%Z /\ (t, ToGroup pgid signal) ∈ ck_sent s') /\
    (forall t sig, (t, sig) ∈ ck_sent s' -> (t, sig) ∈ ck_sent s \/
       exists pgid, lu_pgid u = Some pgid /\ sig = ToGroup pgid signal)) s.
Proof.
  unfold loaded_unit, signal_each, signal_unit. intros ->. destruct (lu_pgid u) as [pgid|]; cbn.
  - intros s1 [] s2 (Hn & Ha & Hs) ->. cbn. split; [done|]. split; [split_and!; cbn; [done..|rewrite Hs; set_solver]|].
    split.
    + intros p [= <-]. exists (ck_now s1). split; [done|]. split; [done|]. set_solver.
    + intros t sig. rewrite Hs, elem_of_app, list_elem_of_singleton. intros [?|[= -> ->]]; [by left|right; by exists pgid].
  - split; [done|]. split; [done|]. split; [done|]. by left.
Qed.

Lemma group_of_snoc units u pgid :
  group_of (units ++ [u]) pgid <-> group_of units pgid \/ lu_pgid u = Some pgid.
Proof.
  unfold group_of. split.
  - intros (u' & [Hin| ->%list_elem_of_singleton]%elem_of_app & Hp); [left; by exists u'|by right].
  - intros [(u' & Hin & Hp)|Hp]; [exists u'|exists u]; set_solver.
Qed.

(** Every group was asked to end. *)
Definition asked (units : list LocalUnit) (s : CleanKernel) : Prop :=
  forall pgid, group_of units pgid -> exists t, (t <= ck_now s)%Z /\ (t, ToGroup pgid SIGTERM) ∈ ck_sent s.

(** No other process got a signal. *)
Definition only_ours (units : list LocalUnit) (s : CleanKernel) : Prop :=
  forall t sig, (t, sig) ∈ ck_sent s -> exists pgid, group_of units pgid /\
    (sig = ToGroup pgid SIGTERM \/ sig = ToGroup pgid SIGKILL).

(** A group is gone, or it was killed at a time or later. *)
Definition ended (units : list LocalUnit) (deadline : Z) (s : CleanKernel) : Prop :=
  forall pgid, group_of units pgid -> pgid ∉ ck_alive s \/
    exists t, (deadline <= t)%Z /\ (t, ToGroup pgid SIGKILL) ∈ ck_sent s.

Lemma asked_later units s s' : later s s' -> asked units s -> asked units s'.
Proof. intros (Hn & _ & Hs) Ha pgid Hg. destruct (Ha pgid Hg) as (t & Ht & Hin). exists t. split; [lia|set_solver]. Qed.

Lemma ended_later units deadline s s' : later s s' -> ended units deadline s -> ended units deadline s'.
Proof. intros (_ & Ha & Hs) He pgid Hg. destruct (He pgid Hg) as [?|(t & Ht & Hin)]; [left|right; exists t]; set_solver. Qed.

Lemma only_moves units s s' : clean_moves s s' -> only_ours units s -> only_ours units s'.
Proof. intros (_ & _ & Hs) Ho t sig. rewrite Hs. apply Ho. Qed.

Lemma term_all units s :
  Forall loaded_unit units -> ck_sent s = [] ->
  clean_wp (pforeach (fun u => signal_each u SIGTERM) units)
    (fun t o s' => o = Ok tt /\ asked units s' /\ only_ours units s') s.
Proof.
  intros Hl Hs. rewrite Forall_forall in Hl. unfold pforeach.
  apply (wp_pfold _ _ _ units tt s
    (fun rest _ _ s' => exists done, units = done ++ rest /\ asked done s' /\ only_ours units s')
    (fun _ o s' => o = Ok tt /\ asked units s' /\ only_ours units s')) with (t := []).
  - intros u rest t [] s1 (done_ & Hu & Ha & Ho). eapply wp_mono; [|apply signal_each_wp, Hl; rewrite Hu; set_solver].
    intros t2 o s2 (-> & Hlater & Hsig & Honly). exists (done_ ++ [u]). rewrite <- app_assoc. split; [done|]. split.
    + intros pgid [Hg|Hg]%group_of_snoc; [by apply (asked_later _ _ _ Hlater Ha)|].
      destruct (Hsig pgid Hg) as (t' & _ & Ht & Hin). by exists t'.
    + intros t' sig [Hin|(pgid & Hp & ->)]%Honly; [by eapply Ho|]. exists pgid. split; [|by left].
      exists u. rewrite Hu. set_solver.
  - intros t [] s' (done_ & Hu & Ha & Ho). rewrite app_nil_r in Hu. by subst done_.
  - exists []. split; [done|]. split; [by intros pgid (u & ?%elem_of_nil & _)|].
    intros t sig. rewrite Hs. by intros ?%elem_of_nil.
Qed.

Lemma kill_all units deadline s :
  Forall loaded_unit units -> only_ours units s ->
  ((deadline <= ck_now s)%Z \/ groups_gone units s) ->
  clean_wp (pforeach kill_left units)
    (fun t o s' => o = Ok tt /\ later s s' /\ only_ours units s' /\ ended units deadline s') s.
Proof.
  intros Hl Ho Hd. rewrite Forall_forall in Hl. unfold pforeach.
  apply (wp_pfold _ _ _ units tt s
    (fun rest _ _ s' => exists done, units = done ++ rest /\ only_ours units s' /\
       ended done deadline s' /\ later s s')
    (fun _ o s' => o = Ok tt /\ later s s' /\ only_ours units s' /\ ended units deadline s')) with (t := []).
  - intros u rest t [] s1 (done_ & Hu & Ho1 & He1 & Hl1). unfold kill_left.
    apply wp_bind. eapply wp_mono; [|apply unit_there_wp]. intros t1 o s2 (Hm & b & -> & Hgone & Hsome). cbn [then_post].
    assert (later s1 s2) as Hl2 by by apply moves_later. destruct b.
    + destruct (Hsome eq_refl) as [pgid Hp].
      eapply wp_mono; [|apply signal_each_wp, Hl; rewrite Hu; set_solver].
      intros t2 o s3 (-> & Hl3 & Hsig & Honly). exists (done_ ++ [u]). rewrite <- app_assoc. split; [done|].
      split; [|split].
      * intros t' sig [Hin|(pgid' & Hp' & ->)]%Honly; [by eapply (only_moves _ _ _ Hm Ho1)|].
        exists pgid'. split; [|by right]. exists u. rewrite Hu. set_solver.
      * intros p [Hg|Hg]%group_of_snoc; [eapply (ended_later _ _ s1); [by etrans|done|done]|].
        destruct Hd as [Hd|Hd].
        -- right. destruct (Hsig p Hg) as (t' & Ht1 & _ & Hin). exists t'. split; [|done].
           destruct Hl1 as (H1 & _), Hl2 as (H2 & _). lia.
        -- left. assert (p ∉ ck_alive s) as Hn by (apply Hd; exists u; rewrite Hu; set_solver).
           destruct Hl1 as (_ & H1 & _), Hl2 as (_ & H2 & _), Hl3 as (_ & H3 & _). set_solver.
      * etrans; [exact Hl1|]. by etrans.
    + cbn. exists (done_ ++ [u]). rewrite <- app_assoc. split; [done|].
      split; [by eapply only_moves|]. split; [|by etrans].
      intros p [Hg|Hg]%group_of_snoc; [by eapply (ended_later _ _ s1)|]. left. by apply Hgone.
  - intros t [] s' (done_ & Hu & Ho1 & He1 & Hl1). rewrite app_nil_r in Hu. by subst done_.
  - exists []. split; [done|]. split; [done|]. split; [by intros pgid (u & ?%elem_of_nil & _)|done].
Qed.

Lemma loaded_units `{RegistryFile} file : Forall loaded_unit (map snd (map_to_list (load_units file))).
Proof.
  apply Forall_forall. intros u Hin. change (map snd ?l) with (snd <$> l) in Hin.
  apply list_elem_of_fmap in Hin as ([n u'] & -> & Hin). apply elem_of_map_to_list in Hin.
  unfold load_units in Hin. destruct file as [raw|]; [|by rewrite lookup_empty in Hin].
  destruct (units_of_json raw) as [m|]; [|by rewrite lookup_empty in Hin].
  rewrite lookup_fmap in Hin. by destruct (m !! n); simplify_eq/=.
Qed.

(** The cleanup of a registry comes to its end, and ends what the registry tells of and
    nothing else: the group of every unit was asked to end, and is gone or was killed three
    seconds later or more. *)
Theorem cleanup_ends_units `{RegistryFile} file s :
  ck_sent s = [] ->
  clean_wp (cleanup_registry_file file) (fun t o s' =>
    o = Ok tt /\
    (forall pgid, group_of (map snd (map_to_list (load_units file))) pgid ->
       exists t, (t, ToGroup pgid SIGTERM) ∈ ck_sent s' /\
         (pgid ∉ ck_alive s' \/ exists t', (t + 3000 <= t')%Z /\ (t', ToGroup pgid SIGKILL) ∈ ck_sent s')) /\
    only_ours (map snd (map_to_list (load_units file))) s') s.
Proof.
  intros Hs. unfold cleanup_registry_file. pose proof (loaded_units file) as Hl.
  set (units := map snd _) in *. unfold cleanup_registry. apply wp_bind.
  eapply wp_mono; [|by apply term_all]. intros t o s1 (-> & Ha & Ho). cbn [then_post].
  intros s2 now s2' Hm [-> ->]. cbn [mbind prog_bind]. apply wp_bind.
  eapply wp_mono; [|apply wait_all_gone_wp; lia]. intros t2 o s3 (-> & Hm3 & Hd). cbn [then_post].
  apply wp_bind. eapply wp_mono; [|apply (kill_all units (ck_now s2 + 3000)); [done| |done]].
  2:{ eapply only_moves; [exact Hm3|]. by eapply only_moves. }
  intros t3 o s4 (-> & Hl4 & Ho4 & He4). cbn. intros s5 r s5' (Hn5 & Hal5 & Hs5) ->. split; [done|].
  split; [|by intros t' sig; rewrite Hs5; apply Ho4]. intros pgid Hg.
  assert (asked units s2) as Ha2 by (by eapply asked_later; [apply moves_later|]).
  destruct (Ha2 pgid Hg) as (t1 & Ht1 & Hin). exists t1. rewrite Hs5. split.
  - destruct Hl4 as (_ & _ & H4), Hm3 as (_ & _ & H3). apply H4. by rewrite H3.
  - destruct (He4 pgid Hg) as [?|(t' & Ht & Hk)]; [left; set_solver|right]. exists t'. split; [lia|done].
Qed.

(** A registry of one unit, which ends when it is asked to. *)
Definition one_unit_file : string :=
  @units_to_json concrete_registry {["web" := mkPersistedLocalUnit sample_props (Some 7) None]}.

Lemma one_unit_loaded :
  map snd (map_to_list (@load_units concrete_registry (Some one_unit_file))) = [mkLocalUnit sample_props None (Some 7) None].
Proof.
  unfold load_units, one_unit_file. rewrite units_roundtrip, map_fmap_singleton.
  by rewrite map_to_list_singleton.
Qed.

Lemma cleanup_ends_units_witness :
  exists t s', runs clean_answers clean_moves (@cleanup_registry_file concrete_registry (Some one_unit_file))
      (mkCleanKernel 0 {[7]} []) t (Ok tt) s' /\
    exists t, (t, ToGroup 7 SIGTERM) ∈ ck_sent s'.
Proof.
  set (up := mkCleanKernel 0 {[7]} []). set (asked := mkCleanKernel 0 {[7]} [(0%Z, ToGroup 7 SIGTERM)]).
  set (down := mkCleanKernel 100 ∅ [(0%Z, ToGroup 7 SIGTERM)]).
  assert (exists t, runs clean_answers clean_moves (@cleanup_registry_file concrete_registry (Some one_unit_file))
      up t (Ok tt) down) as [t Hr].
  { unfold cleanup_registry_file. rewrite one_unit_loaded. eexists. cbn.
    eexists up, tt, asked, _. split; [done|]. split; [done|]. split; [done|].
    eexists down, 100%Z, down, _. split; [by split_and!|]. split; [done|]. split; [done|].
    eexists down, 100%Z, down, _. split; [done|]. split; [done|]. split; [done|]. cbn.
    eexists down, false, down, _. split; [done|]. split; [done|]. split; [done|]. cbn.
    eexists down, false, down, _. split; [done|]. split; [done|]. split; [done|]. cbn.
    eexists down, (Ok tt), down, _. split; [done|]. split; [done|]. split; [done|]. cbn.
    by split_and!. }
  exists t, down. split; [done|].
  destruct (wp_runs _ _ _ _ _ _ _ _ (@cleanup_ends_units concrete_registry (Some one_unit_file) up eq_refl) Hr)
    as (_ & Ht & _).
  destruct (Ht 7) as (t' & Hin & _); [|by exists t'].
  exists (mkLocalUnit sample_props None (Some 7) None). split; [|reflexivity]. rewrite one_unit_loaded. constructor.
Defined.

(** ** What the bus is told *)

Inductive BusCall :=
  | CStart (unit_name : string) (mode : Mode) (properties : list (string * Value_))
  | CStop (unit_name : string) (mode : Mode)
  | CRestart (unit_name : string) (mode : Mode)
  | CKill (unit_name whom : string) (signal : Z).

(** The calls that change something, with their answers. *)
Definition bus_call (ev : event BusE) : option (BusCall * outcome unit) :=
  match ev with
  | Ev e r =>
      match e in BusE R return R -> option (BusCall * outcome unit) with
      | StartTransientUnit n m p => fun r => Some (CStart n m p, r)
      | BusStopUnit n m => fun r => Some (CStop n m, r)
      | BusRestartUnit n m => fun r => Some (CRestart n m, r)
      | BusKillUnit n whom signal => fun r => Some (CKill n whom signal, r)
      | _ => fun _ => None
      end r
  end.

Definition real_op (op : Op) : bus unit :=
  match op with
  | OpStart n props => real_start n props
  | OpStop n => real_stop n
  | OpRestart n => real_restart n
  | OpKill n signal => real_kill n signal
  end.

Definition call_of (op : Op) : BusCall :=
  match op with
  | OpStart n props => CStart n Replace (properties_of props)
  | OpStop n => CStop n Replace
  | OpRestart n => CRestart n Replace
  | OpKill n signal => CKill n "all" signal
  end.

(** A description of a unit, by the names of its properties. *)
Definition property (p : list (string * Value_)) (name : string) : option Value_ :=
  snd <$> List.find (fun kv => bool_decide (kv.1 = name)) p.

Definition str_of (v : Value_) : option string := match v with VStr s => Some s | _ => None end.
Definition strs_of (v : Value_) : option (list string) := match v with VStrs l => Some l | _ => None end.
Definition num_of (v : Value_) : option Z := match v with VI32 n | VU32 n | VU64 n => Some n | _ => None end.
Definition bool_of (v : Value_) : option bool := match v with VBool b => Some b | _ => None end.
Definition exec_back (v : Value_) : option ExecStart :=
  match v with VExec [(path, argv, ignore)] => Some (mkExecStart path argv ignore) | _ => None end.

Definition described (p : list (string * Value_)) : option UnitProperties :=
  description ← property p "Description" ≫= str_of;
  cwd ← property p "WorkingDirectory" ≫= str_of;
  environment ← property p "Environment" ≫= strs_of;
  exec ← property p "ExecStart" ≫= exec_back;
  kill_mode ← property p "KillMode" ≫= str_of;
  kill_signal ← property p "KillSignal" ≫= num_of;
  timeout ← property p "TimeoutStopUSec" ≫= num_of;
  sigkill ← property p "SendSIGKILL" ≫= bool_of;
  restart ← property p "Restart" ≫= str_of;
  restart_usec ← property p "RestartUSec" ≫= num_of;
  interval ← property p "StartLimitIntervalUSec" ≫= num_of;
  burst ← property p "StartLimitBurst" ≫= num_of;
  remain ← property p "RemainAfterExit" ≫= bool_of;
  Some (mkUnitProperties description cwd environment exec kill_mode kill_signal timeout sigkill restart
          restart_usec interval burst remain).

Lemma properties_described props : described (properties_of props) = Some props.
Proof. by destruct props as [desc cwd env [path argv ignore] mode signal timeout kill restart usec interval burst remain]. Qed.

(** An operation on a unit is one call on the bus, of the unit and with the arguments of
    the operation, whose answer is its result; when the manager of the bus cannot be reached
    it fails without one. What a unit is started with is read back from the properties that
    the call carries. *)
Theorem real_manager_calls op :
  seen bus_call (real_op op) (fun l o =>
    (l = [] /\ o <> Ok tt) \/
    exists answer, l = [(call_of op, answer)] /\ (o = Ok tt <-> answer = Ok tt)) /\
  match op with OpStart _ props => described (properties_of props) = Some props | _ => True end.
Proof.
  split; [|destruct op; try done; apply properties_described].
  destruct op; cbn; intros [[]|e| |]; cbn; try (by left); intros answer; destruct answer as [[]|e| |];
    cbn; right; eexists; by split.
Qed.

(** Asking for the state of a unit changes nothing. A bus that does not answer looks like
    one without the unit. *)
Lemma real_status_quiet unit_name : quiet bus_call (real_status unit_name).
Proof.
  unfold real_status, manager, optional. cbn.
  intros [[]|e| |]; cbn; try done. intros [path|e| |]; cbn; try done.
  intros [[]|e| |]; cbn; try done. intros [[]|e| |]; cbn; try done.
  intros [active|e| |]; cbn; try done; intros [sub|e'| |]; cbn; try done;
    intros [[]|e''| |]; cbn; try done; intros [[]|e3| |]; cbn; try done; by intros [].
Qed.

Definition answers_with (get : outcome string) (state : outcome string) : forall R, BusE R -> unit -> R * unit :=
  fun R e _ =>
  (match e in BusE R return R with
   | GetUnit _ => get
   | ActiveState _ | SubState _ | ServiceResult _ => state
   | _ => Ok tt
   end, tt).

(** A bus that times out, or one that cannot tell the state of a unit. *)
Lemma silent_bus_no_unit :
  (run_with (answers_with (Err "timeout") (Ok "active")) (real_status "u") tt).1.2 = Ok None /\
  (run_with (answers_with (Ok "/u") (Err "timeout")) (real_status "u") tt).1.2
  = Ok (Some (mkUnitStatus "inactive" "" None)).
Proof. by split. Qed.
