(* ===== verification/Server.v ===== *)
(** * From the client to the handlers

    Models the client of the socket ([src/infra/ipc/unix_daemon_client.rs]), the calls of an
    agent through it ([UnixAgentSessionClient] of [src/agent/pty_proxy.rs],
    [src/agent/command.rs]), and the handlers of agent sessions and of the navigation intent
    ([src/daemon/handlers/agent.rs], [navigation.rs], [ping.rs]) behind the routes of [Routes].

    The connection is a program over effects. HTTP, its framing and what the framework answers
    to a body that it cannot read are third-party code. *)

From stdpp Require Import gmap.
From S2P Require Import Prelude Bytes BMap Util Json Program Sessions Queries CliLogs CliCommands AgentProxy Routes.
From Stdlib Require Import Lia ZArith.

(** ** The client *)

Record UnixDaemonClient := mkClient {
  uc_require_existing_socket : bool;
  uc_missing_socket_message : option string;
  uc_connect_context : option string;
  uc_failure_prefix : string;
}.

Definition default_client : UnixDaemonClient := mkClient false None None "daemon request failed:".

Definition require_existing_socket (required : bool) (c : UnixDaemonClient) : UnixDaemonClient :=
  mkClient required (uc_missing_socket_message c) (uc_connect_context c) (uc_failure_prefix c).
Definition with_missing_socket_message (message : string) (c : UnixDaemonClient) : UnixDaemonClient :=
  mkClient (uc_require_existing_socket c) (Some message) (uc_connect_context c) (uc_failure_prefix c).
Definition with_connect_context (context : string) (c : UnixDaemonClient) : UnixDaemonClient :=
  mkClient (uc_require_existing_socket c) (uc_missing_socket_message c) (Some context) (uc_failure_prefix c).
Definition with_failure_prefix (prefix : string) (c : UnixDaemonClient) : UnixDaemonClient :=
  mkClient (uc_require_existing_socket c) (uc_missing_socket_message c) (uc_connect_context c) prefix.

Definition for_cli : UnixDaemonClient :=
  with_failure_prefix "daemon error:"
    (with_connect_context
       "connect to daemon socket at {socket} (is the daemon running? try `devstack daemon` or `devstack install`)"
       (with_missing_socket_message
          "daemon socket missing at {socket}; run `devstack daemon` (foreground) or `devstack install` (system service)"
          (require_existing_socket true default_client))).

(** [str::replace] of a text that is not empty. *)
Fixpoint replace_all (fuel : nat) (from to s : bytes) : bytes :=
  match s with
  | [] => []
  | c :: rest =>
      match fuel with
      | 0 => s
      | S fuel =>
          match strip_prefix from s with
          | Some after => to ++ replace_all fuel from to after
          | None => c :: replace_all fuel from to rest
          end
      end
  end.

Definition put_socket (template socket_path : string) : string :=
  let s := to_bytes template in
  of_bytes (replace_all (length s) (to_bytes "{socket}") (to_bytes (to_string_lossy socket_path)) s).

Definition format_missing_socket_message (c : UnixDaemonClient) (socket_path : string) : string :=
  put_socket (default "daemon socket missing at {socket}" (uc_missing_socket_message c)) socket_path.

Definition format_connect_context (c : UnixDaemonClient) (socket_path : string) : string :=
  put_socket (default "connect to daemon socket {socket}" (uc_connect_context c)) socket_path.

Inductive ClientE : Type -> Type :=
  | SocketExists (path : string) : ClientE bool
  | Connect (path : string) : ClientE (outcome unit)
  | Handshake : ClientE (outcome unit)
  | SendRequest (method : Method) (path : string) (body : bytes) : ClientE (outcome Z)
  | CollectBody : ClientE (outcome bytes)
  | TimedOut : ClientE bool.

Abbreviation client := (prog ClientE).

Definition daemon_dir (base_dir : outcome string) : outcome string := b ← base_dir; Ok (path_join b "daemon").
Definition daemon_socket_path (base_dir : outcome string) : outcome string :=
  d ← daemon_dir base_dir; Ok (path_join d "devstackd.sock").

Section client.
Context `{J : Json}.
(** [serde_json::from_slice], the text of a status, the directory of the data, and whether the
    request can be built. *)
Context (from_slice : bytes -> outcome Value) (status_text : Z -> string).
Context (base_dir : outcome string) (build_request : Method -> string -> outcome unit).
Context (c : UnixDaemonClient).

Definition request_body (body : option Value) : outcome bytes :=
  match body with
  | Some payload => text ← to_string payload; Ok (to_bytes text)
  | None => Ok []
  end.

(** From the connection on. *)
Definition send_request (socket_path : string) (method : Method) (path : string) (body : option Value) : client Value :=
  _ ← on_error (fun _ => format_connect_context c socket_path) (try_trigger (Connect socket_path));
  _ ← on_error (fun _ => "handshake with daemon") (try_trigger Handshake);
  body_bytes ← Ret (request_body body);
  _ ← Ret (build_request method ("http://localhost" +:+ path));
  status ← on_error (fun _ => "send request") (try_trigger (SendRequest method path body_bytes));
  body ← try_trigger CollectBody;
  Ret (client_answer from_slice (uc_failure_prefix c) status (status_text status) body).

Definition request_inner (method : Method) (path : string) (body : option Value) : client Value :=
  socket_path ← Ret (daemon_socket_path base_dir);
  there ← (if uc_require_existing_socket c then trigger (SocketExists socket_path) else mret true);
  if negb there then Ret (Err (format_missing_socket_message c socket_path)) else
  send_request socket_path method path body.

(** [tokio::time::timeout]: at every await the time may be over. *)
Fixpoint within {A} (p : client A) : client A :=
  match p with
  | Ret o => Ret o
  | Vis e k => Vis e (fun r => late ← trigger TimedOut;
                               if late : bool then Ret (Err "daemon request timed out") else within (k r))
  end.

Definition client_request (method : Method) (path : string) (body : option Value) (timed : bool) : client Value :=
  if timed then within (request_inner method path body) else request_inner method path body.

Definition request_json {A} (from_value : Value -> outcome A) (method : Method) (path : string)
    (body : option Value) (timed : bool) : client A :=
  response ← client_request method path body timed; Ret (from_value response).
End client.

(** ** Requests and answers as JSON *)

Section wire.
Context `{J : Json} `{!JsonUnsigned}.

Definition fields (v : Value) : option Map := match v with Object m => Some m | _ => None end.

Definition str_field (k : string) (m : Map) : option string := map_get k m ≫= as_str.

(** [#[serde(default)]] of an option. *)
Definition opt_str_field (k : string) (m : Map) : option (option string) :=
  match map_get k m with
  | None | Some Null => Some None
  | Some (String s) => Some (Some s)
  | Some _ => None
  end.

Definition uint_field (max : Z) (k : string) (m : Map) : option Z :=
  match map_get k m with
  | Some (Number n) => u ← as_u64 n; if (u <=? max)%Z then Some u else None
  | _ => None
  end.

Definition opt_uint_field (max : Z) (k : string) (m : Map) : option (option Z) :=
  match map_get k m with
  | None | Some Null => Some None
  | Some (Number n) => u ← as_u64 n; if (u <=? max)%Z then Some (Some u) else None
  | Some _ => None
  end.

Definition register_value (r : SessionRequest) : Value :=
  Object [("agent_id", String (sr_agent_id r)); ("project_dir", String (sr_project_dir r));
          ("stack", json_opt String (sr_stack r)); ("command", String (sr_command r));
          ("pid", json_int (sr_pid r))].

Definition register_of_value (v : Value) : option SessionRequest :=
  m ← fields v;
  agent_id ← str_field "agent_id" m;
  project_dir ← str_field "project_dir" m;
  stack ← opt_str_field "stack" m;
  command ← str_field "command" m;
  pid ← uint_field (2 ^ 32 - 1) "pid" m;
  Some (mkSessionRequest agent_id project_dir stack command pid).

Definition session_value (s : AgentSession) : Value :=
  Object [("agent_id", String (ag_agent_id s)); ("project_dir", String (ag_project_dir s));
          ("stack", json_opt String (ag_stack s)); ("command", String (ag_command s));
          ("pid", json_int (ag_pid s)); ("created_at", String (ag_created_at s))].

Definition message_value (message : string) : Value := Object [("message", String message)].
Definition message_of_value (v : Value) : option string := m ← fields v; str_field "message" m.

Definition queued_value (queued : nat) : Value := Object [("queued", json_int (Z.of_nat queued))].

Definition poll_value (messages : list string) : Value := Object [("messages", json_strings messages)].

Definition poll_of_value (v : Value) : outcome (list string) :=
  match fields v ≫= map_get "messages" with
  | Some (Array l) => ok_or (mapM as_str l) "invalid type"
  | _ => Err "missing field `messages`"
  end.

Definition latest_value (session : option AgentSession) : Value :=
  Object [("session", json_opt session_value session)].

Definition share_of_value (v : Value) : option (string * option string * string) :=
  m ← fields v;
  project_dir ← str_field "project_dir" m;
  command ← opt_str_field "command" m;
  message ← str_field "message" m;
  Some (project_dir, command, message).

Definition share_value (answer : string * nat) : Value :=
  Object [("agent_id", String answer.1); ("queued", json_int (Z.of_nat answer.2))].

Definition intent_of_value (v : Value) : option NavigationIntent :=
  m ← fields v;
  run_id ← opt_str_field "run_id" m;
  service ← opt_str_field "service" m;
  search ← opt_str_field "search" m;
  level ← opt_str_field "level" m;
  stream ← opt_str_field "stream" m;
  since ← opt_str_field "since" m;
  last ← opt_uint_field u64_max "last" m;
  Some (mkIntent run_id service search level stream since last "").

Definition intent_value (i : NavigationIntent) : Value :=
  Object [("run_id", json_opt String (ni_run_id i)); ("service", json_opt String (ni_service i));
          ("search", json_opt String (ni_search i)); ("level", json_opt String (ni_level i));
          ("stream", json_opt String (ni_stream i)); ("since", json_opt String (ni_since i));
          ("last", json_opt json_int (ni_last i)); ("created_at", String (ni_created_at i))].

Definition intent_response (intent : option NavigationIntent) : Value :=
  Object [("intent", json_opt intent_value intent)].

Definition ok_value : Value := Object [("ok", Bool true)].
End wire.

(** ** The calls of an agent *)

Section agent_client.
Context `{J : Json}.
Context (from_slice : bytes -> outcome Value) (status_text : Z -> string).
Context (base_dir : outcome string) (build_request : Method -> string -> outcome unit).
Context (c : UnixDaemonClient).

Abbreviation ask := (client_request from_slice status_text base_dir build_request c).

Definition client_register (request : SessionRequest) : client unit :=
  _ ← ask POST "/v1/agent/sessions" (Some (register_value request)) false; mret tt.

Definition client_unregister (agent_id : string) : client unit :=
  _ ← ask DELETE ("/v1/agent/sessions/" +:+ agent_id) None false; mret tt.

Definition client_poll (agent_id : string) : client (list string) :=
  request_json from_slice status_text base_dir build_request c poll_of_value GET
    ("/v1/agent/sessions/" +:+ agent_id +:+ "/messages/poll") None false.
End agent_client.

(** [generate_agent_id], of sixteen random digits. *)
Definition hex_char (n : nat) : ascii := nth n (to_bytes "0123456789abcdef") "0"%char.
Definition generate_agent_id (digits : list nat) : string :=
  "agent-" +:+ of_bytes (hex_char <$> digits).

(** ** The handlers *)

Record DaemonStores := mkStores { ds_sessions : AgentSessionStore; ds_navigation : NavigationStore }.

Definition with_sessions_ (sessions : AgentSessionStore) (st : DaemonStores) : DaemonStores :=
  mkStores sessions (ds_navigation st).

Section handlers.
Context `{J : Json} `{!JsonUnsigned}.
(** Which processes live: at the first and at the second call on the store. *)
Context (kill1 kill2 : Z -> option Z).
(** What other requests do between them. *)
Context (meanwhile : AgentSessionStore -> AgentSessionStore).

(** What a handler that fails is made of. *)
Definition app_result {A} (to_error : string -> AppError) (f : A -> Value) (o : outcome A) : AppResult Value :=
  match o with
  | Ok a => inl (f a)
  | Err e => inr (to_error e)
  | Panic | OutOfFuel => inr (Internal "panic")
  end.

(** What a request gives its handler: the names of its path, its query parameters decoded, its
    body when that is JSON, the time. *)
Record HttpRequest := mkHttpRequest {
  hr_params : list string;
  hr_query : string -> option string;
  hr_body : option Value;
  hr_now : string;
}.

Definition register_agent_session (r : HttpRequest) (st : DaemonStores)
    : option (AppResult Value * DaemonStores) :=
  request ← hr_body r ≫= register_of_value;
  let '(session, sessions) := register_session kill1 (hr_now r) (sr_agent_id request) (sr_project_dir request)
      (sr_stack request) (sr_command request) (sr_pid request) (ds_sessions st) in
  Some (inl (session_value session), with_sessions_ sessions st).

Definition unregister_session_handler (agent_id : string) (st : DaemonStores) : AppResult Value * DaemonStores :=
  let '(o, sessions) := unregister_agent_session kill1 agent_id (ds_sessions st) in
  (app_result NotFound (fun _ => ok_value) o, with_sessions_ sessions st).

Definition post_agent_message (agent_id : string) (r : HttpRequest) (st : DaemonStores)
    : option (AppResult Value * DaemonStores) :=
  message ← hr_body r ≫= message_of_value;
  let '(o, sessions) := queue_message kill1 agent_id message (ds_sessions st) in
  Some (app_result Internal queued_value o, with_sessions_ sessions st).

Definition poll_agent_messages (agent_id : string) (st : DaemonStores) : AppResult Value * DaemonStores :=
  let '(o, sessions) := poll_messages kill1 agent_id (ds_sessions st) in
  (app_result Internal poll_value o, with_sessions_ sessions st).

Definition get_latest_agent_session (r : HttpRequest) (st : DaemonStores)
    : option (AppResult Value * DaemonStores) :=
  project_dir ← hr_query r "project_dir";
  let '(session, sessions) := latest_agent_session kill1 project_dir (ds_sessions st) in
  Some (inl (latest_value session), with_sessions_ sessions st).

(** A project without a session is not found; one whose session goes meanwhile is an internal
    error. *)
Definition share_agent_message_handler (r : HttpRequest) (st : DaemonStores)
    : option (AppResult Value * DaemonStores) :=
  '(project_dir, command, message) ← hr_body r ≫= share_of_value;
  let '(o, sessions) := share_agent_message kill1 kill2 meanwhile project_dir message command (ds_sessions st) in
  let found := (find_latest_for_project kill1 project_dir (ds_sessions st)).1 in
  Some (app_result (match found with Some _ => Internal | None => NotFound end) share_value o,
        with_sessions_ sessions st).

Definition set_navigation_intent_handler (r : HttpRequest) (st : DaemonStores)
    : option (AppResult Value * DaemonStores) :=
  request ← hr_body r ≫= intent_of_value;
  let '(intent, navigation) := set_navigation_intent (hr_now r) request (ds_navigation st) in
  Some (inl (intent_response (Some intent)), mkStores (ds_sessions st) navigation).

Definition get_navigation_intent_handler (st : DaemonStores) : AppResult Value * DaemonStores :=
  (inl (intent_response (get_navigation_intent (ds_navigation st))), st).

Definition clear_navigation_intent (st : DaemonStores) : AppResult Value * DaemonStores :=
  (inl ok_value, mkStores (ds_sessions st) (clear_intent (ds_navigation st)).2).

Definition ping (st : DaemonStores) : AppResult Value * DaemonStores := (inl ok_value, st).

(** A handler of the agent's or of the navigation: nothing when it rejects its request. *)
Definition agent_handler (endpoint : Endpoint) (r : HttpRequest) (st : DaemonStores)
    : option (AppResult Value * DaemonStores) :=
  match endpoint, hr_params r with
  | Ping, _ => Some (ping st)
  | RegisterAgentSession, _ => register_agent_session r st
  | UnregisterAgentSession, [agent_id] => Some (unregister_session_handler agent_id st)
  | PostAgentMessage, [agent_id] => post_agent_message agent_id r st
  | PollAgentMessages, [agent_id] => Some (poll_agent_messages agent_id st)
  | GetLatestAgentSession, _ => get_latest_agent_session r st
  | ShareAgentMessage, _ => share_agent_message_handler r st
  | SetNavigationIntent, _ => set_navigation_intent_handler r st
  | GetNavigationIntent, _ => Some (get_navigation_intent_handler st)
  | ClearNavigationIntent, _ => Some (clear_navigation_intent st)
  | _, _ => None
  end.

(** A status and a body. *)
Definition answer_of (result : AppResult Value) : Z * bytes :=
  let '(status, text) := match result with
                         | inl v => (200%Z, to_string v)
                         | inr error => into_response error
                         end in
  match text with
  | Ok text => (status, to_bytes text)
  | Err e => (500%Z, to_bytes e)
  | Panic | OutOfFuel => (500%Z, [])
  end.

Section serve.
Context (take_route : list Route -> list string -> option Route) (path_decode : string -> option string).
Context (from_slice : bytes -> outcome Value) (query_of : string -> string -> option string).
(** What the framework answers to a request that a handler rejects. *)
Context (reject : Endpoint -> Z * bytes).

Definition serve (now : string) (method : Method) (path : string) (body : bytes) (st : DaemonStores)
    : (Z * bytes) * DaemonStores :=
  match dispatch take_route path_decode method path with
  | Handled endpoint params =>
      match agent_handler endpoint (mkHttpRequest params (query_of path) (ok (from_slice body)) now) st with
      | Some (result, st) => (answer_of result, st)
      | None => (reject endpoint, st)
      end
  | MethodNotAllowed => ((405%Z, []), st)
  | NoRoute => ((404%Z, []), st)
  | BadParam => ((400%Z, []), st)
  end.
End serve.
End handlers.

(** ** A call is what it is meant to be *)

(** Printing gives a text that is read back. *)
Class WireJson `{Json} (from_slice : bytes -> outcome Value) : Prop := {
  wire_prints : forall v, exists text, to_string v = Ok text /\ text <> "" /\ from_slice (to_bytes text) = Ok v;
}.

(** The stores of the daemon, and the body of the answer that is on its way. *)
Record Wire := mkWire { wi_stores : DaemonStores; wi_body : bytes }.

Section served.
Context `{J : Json} `{!JsonUnsigned}.
Context (take_route : list Route -> list string -> option Route) {RL : RouterLaws take_route}.
Context (path_decode : string -> option string).
Context (Hplain : forall s, forallb unreserved (to_bytes s) = true -> path_decode s = Some s).
Context (from_slice : bytes -> outcome Value) {WJ : WireJson from_slice}.
Context (query_of : string -> string -> option string) (reject : Endpoint -> Z * bytes) (status_text : Z -> string).
Context (base_dir : outcome string) (build_request : Method -> string -> outcome unit).
Context (Hbase : exists dir, base_dir = Ok dir) (Hbuild : forall method path, build_request method path = Ok tt).
(** What other requests and tasks do to the stores. *)
Context (others : DaemonStores -> DaemonStores -> Prop) `{!PreOrder others}.
Context (c : UnixDaemonClient).

Abbreviation served now kill1 kill2 meanwhile := (serve kill1 kill2 meanwhile take_route path_decode from_slice query_of reject now).

(** A connection that holds. *)
Definition wire_answers : forall R, ClientE R -> Wire -> R -> Wire -> Prop := fun R e w =>
  match e in ClientE R return R -> Wire -> Prop with
  | SocketExists _ => fun r w' => r = true /\ w' = w
  | Connect _ | Handshake => fun r w' => r = Ok tt /\ w' = w
  | SendRequest method path body => fun r w' => exists now kill1 kill2 meanwhile,
      let '((status, answer), stores) := served now kill1 kill2 meanwhile method path body (wi_stores w) in
      r = Ok status /\ w' = mkWire stores answer
  | CollectBody => fun r w' => r = Ok (wi_body w) /\ w' = w
  | TimedOut => fun _ w' => w' = w
  end.

Definition wire_moves (w w' : Wire) : Prop := others (wi_stores w) (wi_stores w') /\ wi_body w' = wi_body w.

Abbreviation wire_wp := (wp wire_answers wire_moves).

Definition body_of (body : option Value) : bytes := default [] (ok (request_body body)).

Lemma request_body_of body : request_body body = Ok (body_of body).
Proof.
  unfold body_of. destruct body as [v|]; [|done]. cbn. destruct (wire_prints v) as (text & -> & _). done.
Qed.

(** Of a request, its answer is that of one handler at one time. *)
Definition served_once (method : Method) (path : string) (body : option Value) (w : Wire) (o : outcome Value) (w' : Wire)
    : Prop :=
  exists s1 now kill1 kill2 meanwhile, others (wi_stores w) s1 /\
    let '((status, answer), s2) := served now kill1 kill2 meanwhile method path (body_of body) s1 in
    others s2 (wi_stores w') /\
    o = client_answer from_slice (uc_failure_prefix c) status (status_text status) answer.

Lemma send_served socket_path method path body w :
  wire_wp (send_request from_slice status_text build_request c socket_path method path body)
    (fun _ => fun o w' => served_once method path body w o w') w.
Proof.
  unfold send_request. rewrite request_body_of, Hbuild. cbn. intros w1 ? w1' Hm1 [-> ->]. cbn. intros w2 ? w2' Hm2 [-> ->]. cbn.
  intros w3 status w3' Hm3 (now & kill1 & kill2 & meanwhile & Hserve).
  destruct (served _ _ _ _ _ _ _ _) as [[st answer] stores] eqn:Es.
  destruct Hserve as [-> ->]. cbn. intros w4 ? w4' [Hm4 Hb4] [-> ->]. cbn.
  exists (wi_stores w3), now, kill1, kill2, meanwhile. split.
  - destruct Hm1, Hm2, Hm3. etrans; [done|]. by etrans.
  - rewrite Es. split; [exact Hm4|]. by rewrite Hb4.
Qed.

Lemma request_served method path body w :
  wire_wp (request_inner from_slice status_text base_dir build_request c method path body)
    (fun _ => fun o w' => served_once method path body w o w') w.
Proof.
  destruct Hbase as [dir Hdir]. unfold request_inner. rewrite Hdir. unfold daemon_socket_path, daemon_dir. cbn [mbind prog_bind outcome_bind].
  destruct (uc_require_existing_socket c).
  - cbn [mbind prog_bind trigger]. intros w1 r w1' Hm [-> ->]. cbn [negb mbind prog_bind].
    eapply wp_mono; [|apply send_served]. intros t o w' (s1 & now & k1 & k2 & mw & Ho & Hr).
    exists s1, now, k1, k2, mw. split; [|done]. destruct Hm. by etrans.
  - cbn [mbind prog_bind negb mret prog_ret]. apply send_served.
Qed.

(** What the client tells of an error of a handler. *)
Definition told_error (error : AppError) : string :=
  uc_failure_prefix c +:+ " " +:+ status_text (app_error_status error) +:+ " " +:+
  of_bytes (from_utf8_lossy (default [] (ok (to_bytes <$> (into_response error).2)))).

Lemma answer_back (result : AppResult Value) :
  client_answer from_slice (uc_failure_prefix c) (answer_of result).1 (status_text (answer_of result).1) (answer_of result).2
  = match result with inl v => Ok v | inr error => Err (told_error error) end.
Proof.
  unfold answer_of, client_answer, told_error. destruct result as [v|error].
  - destruct (wire_prints v) as (text & -> & Hne & Hback). cbn. destruct (to_bytes text) as [|b bs] eqn:E.
    { destruct Hne. apply to_bytes_inj. by rewrite E. }
    cbn. exact Hback.
  - unfold into_response. destruct (wire_prints (Object [("error", String (app_error_message error))])) as (text & -> & _).
    by destruct error.
Qed.

Lemma agent_sessions_arrive : dispatch take_route path_decode POST "/v1/agent/sessions" = Handled RegisterAgentSession [].
Proof.
  apply (dispatch_pieces take_route path_decode POST [Known "v1"; Known "agent"; Known "sessions"] [] "");
    [done|done|by left|vm_compute; reflexivity|done].
Qed.

Lemma agent_session_arrives agent_id :
  plain agent_id -> agent_id <> "latest" ->
  dispatch take_route path_decode DELETE ("/v1/agent/sessions/" +:+ agent_id) = Handled UnregisterAgentSession [agent_id].
Proof.
  intros [Ha Ha'] Hl.
  eapply to_path; [|apply (dispatch_pieces take_route path_decode DELETE
    [Known "v1"; Known "agent"; Known "sessions"; Name ["latest"]] [agent_id] "" UnregisterAgentSession [agent_id])];
    [cbn; by rewrite app_nil_str| |done|by left|vm_compute; reflexivity|cbn; by rewrite Hplain].
  cbn. split; [|done]. split; [done|]. split; [by apply plain_bare|]. by intros ->%list_elem_of_singleton.
Qed.

Lemma agent_poll_arrives agent_id :
  plain agent_id ->
  dispatch take_route path_decode GET ("/v1/agent/sessions/" +:+ agent_id +:+ "/messages/poll")
  = Handled PollAgentMessages [agent_id].
Proof.
  intros [Ha Ha'].
  eapply to_path; [|apply (dispatch_pieces take_route path_decode GET
    [Known "v1"; Known "agent"; Known "sessions"; Name []; Known "messages"; Known "poll"] [agent_id] "" PollAgentMessages
    [agent_id])];
    [done| |done|by left|vm_compute; reflexivity|cbn; by rewrite Hplain].
  cbn. split; [|done]. split; [done|]. split; [by apply plain_bare|]. apply not_elem_of_nil.
Qed.

Lemma register_back request :
  (0 <= sr_pid request < 2 ^ 32)%Z -> register_of_value (register_value request) = Some request.
Proof.
  intros Hp. destruct request as [agent_id project_dir stack command pid]. cbn in Hp.
  assert (uint_field (2 ^ 32 - 1) "pid" [("pid", json_int pid)] = Some pid) as Hpid.
  { unfold uint_field, json_int. simpl. rewrite as_u64_of_integer by (unfold u64_max; lia).
    simpl. by rewrite (proj2 (Z.leb_le _ _)) by lia. }
  unfold register_of_value, register_value. destruct stack; simpl;
    (change (uint_field ?m "pid" _) with (uint_field m "pid" [("pid", json_int pid)])); by rewrite Hpid.
Qed.

Lemma poll_back messages : poll_of_value (poll_value messages) = Ok messages.
Proof.
  assert (mapM as_str (String <$> messages) = Some messages) as Hm.
  { apply mapM_Some_2. rewrite Forall2_fmap_l. by apply Forall_Forall2_diag, Forall_true. }
  unfold poll_of_value. change (fields (poll_value messages) ≫= map_get "messages") with (Some (json_strings messages)).
  unfold json_strings. by rewrite Hm.
Qed.

(** What a call of the agent is on the sessions: at one time between other calls, with its
    answer. *)
Definition call_on {A B} (op : string -> (Z -> option Z) -> AgentSessionStore -> A * AgentSessionStore)
    (answer : A -> outcome B) (w : Wire) (o : outcome B) (w' : Wire) : Prop :=
  exists s1 now kill, others (wi_stores w) s1 /\
    others (with_sessions_ (op now kill (ds_sessions s1)).2 s1) (wi_stores w') /\
    o = answer (op now kill (ds_sessions s1)).1.

Lemma body_read v : ok (from_slice (body_of (Some v))) = Some v.
Proof.
  unfold body_of, request_body. destruct (wire_prints v) as (text & -> & _ & Hback). simpl. by rewrite Hback.
Qed.

(** An answer of a handler, as a call. *)
Lemma call_of_served {A B} (op : string -> (Z -> option Z) -> AgentSessionStore -> A * AgentSessionStore)
    (result : A -> AppResult Value) (decode : Value -> outcome B) (answer : A -> outcome B) method path body w (o : outcome Value) w' :
  served_once method path body w o w' ->
  (forall now kill1 kill2 meanwhile st,
     served now kill1 kill2 meanwhile method path (body_of body) st
     = (answer_of (result (op now kill1 (ds_sessions st)).1), with_sessions_ (op now kill1 (ds_sessions st)).2 st)) ->
  (forall a, answer a = match result a with inl v => decode v | inr error => Err (told_error error) end) ->
  call_on op answer w (o ≫= decode) w'.
Proof.
  intros (s1 & now & kill1 & kill2 & mw & Ho & Hs) Hserve Hanswer. rewrite Hserve in Hs.
  destruct (answer_of _) as [status text] eqn:Ea. destruct Hs as [Hothers ->].
  exists s1, now, kill1. split; [done|]. split; [done|].
  pose proof (answer_back (result (op now kill1 (ds_sessions s1)).1)) as Hb. rewrite Ea in Hb. cbn [fst snd] in Hb.
  rewrite Hb, Hanswer. by destruct (result _).
Qed.

(** C12: The calls of an agent to the daemon are the operations on its sessions. While the
    connection holds, registering, unregistering and polling take effect once each, at one time
    between the calls of others, on the session of the agent; a poll gives the agent the
    messages that the store gave it, and a call that the daemon refuses fails with the status
    and the message of the refusal. An unknown session is refused with its name; to unregister
    one is 404, as documented. For a poll the theorem leaves open with which status: the
    documentation says 404 and the code answers 500, see [unknown_agent_is_internal]. *)
Theorem agent_calls_served request agent_id w :
  (0 <= sr_pid request < 2 ^ 32)%Z -> plain agent_id -> agent_id <> "latest" ->
  wire_wp (client_register from_slice status_text base_dir build_request c request)
    (fun _ => call_on (fun now kill => register_session kill now (sr_agent_id request) (sr_project_dir request)
                                       (sr_stack request) (sr_command request) (sr_pid request))
                (fun _ => Ok tt) w) w /\
  wire_wp (client_unregister from_slice status_text base_dir build_request c agent_id)
    (fun _ => call_on (fun _ kill => unregister_session kill agent_id)
                (fun removed : bool => if removed then Ok tt
                                       else Err (told_error (NotFound ("agent session " +:+ agent_id +:+ " not found")))) w) w /\
  exists refusal : string -> AppError, refusal ∈ [NotFound; Internal] /\
  wire_wp (client_poll from_slice status_text base_dir build_request c agent_id)
    (fun _ => call_on (fun _ kill => poll_messages kill agent_id)
                (fun r => match r with
                          | Ok messages => Ok messages
                          | _ => Err (told_error (refusal ("agent session " +:+ agent_id +:+ " not found")))
                          end) w) w.
Proof.
  intros Hpid Ha Hl. split; [|split].
  - apply wp_bind. eapply wp_mono; [|apply request_served].
    intros t o w' Hs.
    assert (call_on (fun now kill => register_session kill now (sr_agent_id request) (sr_project_dir request)
              (sr_stack request) (sr_command request) (sr_pid request)) (fun _ => Ok tt) w (o ≫= (fun _ => Ok tt)) w') as Hc.
    { eapply (call_of_served _ (fun session => inl (session_value session))); [exact Hs| |done].
      intros now kill1 kill2 mw st. unfold serve. rewrite agent_sessions_arrive. cbn [agent_handler hr_params].
      unfold register_agent_session. cbn [hr_body hr_now]. rewrite body_read. cbn [mbind option_bind].
      rewrite register_back by done. cbn [mbind option_bind]. by destruct (register_session _ _ _ _ _ _ _ _). }
    by destruct o.
  - apply wp_bind. eapply wp_mono; [|apply request_served].
    intros t o w' Hs.
    assert (call_on (fun _ kill => unregister_session kill agent_id)
              (fun removed : bool => if removed then Ok tt
                 else Err (told_error (NotFound ("agent session " +:+ agent_id +:+ " not found")))) w (o ≫= (fun _ => Ok tt)) w') as Hc.
    { eapply (call_of_served _ (fun removed : bool => if removed then inl ok_value
                 else inr (NotFound ("agent session " +:+ agent_id +:+ " not found")))); [exact Hs| |by intros []].
      intros now kill1 kill2 mw st. unfold serve. rewrite agent_session_arrives by done. cbn [agent_handler hr_params].
      unfold unregister_session_handler, unregister_agent_session.
      by destruct (unregister_session kill1 agent_id (ds_sessions st)) as [[] sessions]. }
    by destruct o.
  - exists Internal. split; [set_solver|]. apply wp_bind. eapply wp_mono; [|apply request_served].
    intros t o w' Hs.
    assert (call_on (fun _ kill => poll_messages kill agent_id)
              (fun r => match r with
                        | Ok messages => Ok messages
                        | _ => Err (told_error (Internal ("agent session " +:+ agent_id +:+ " not found")))
                        end) w (o ≫= poll_of_value) w') as Hc.
    { eapply (call_of_served _ (fun r => match r with
                        | Ok messages => inl (poll_value messages)
                        | _ => inr (Internal ("agent session " +:+ agent_id +:+ " not found"))
                        end)); [exact Hs| |by intros [messages|e| |]; rewrite ?poll_back].
      intros now kill1 kill2 mw st. unfold serve. rewrite agent_poll_arrives by done. cbn [agent_handler hr_params].
      unfold poll_agent_messages, poll_messages. destruct (bget agent_id _) as [session|]; [|done].
      by destruct (drain_messages session). }
    by destruct o.
Qed.
End served.

(** ** A daemon that answers *)

Definition concrete_slice (b : bytes) : outcome (@Value (@json_number concrete_json)) :=
  ok_or (parse_value (of_bytes b)) "expected value".

#[export] Instance concrete_wire : @WireJson concrete_json concrete_slice.
Proof.
  split. intros v. change (@to_string concrete_json v) with (print_value v).
  destruct (print_value v) as [text|e| |] eqn:E; try done. exists text. split; [done|]. split.
  - intros ->. unfold print_value in E. destruct (brace v) eqn:Eb; by injection E.
  - unfold concrete_slice. rewrite of_to_bytes. by rewrite (parse_print v text E).
Qed.

Definition waiting_agent : Wire :=
  mkWire (mkStores [("agent-1", mkSession "agent-1" "/p" None "claude" 7 "t" ["hi"])] None) [].

Definition sample_request : SessionRequest := mkSessionRequest "agent-1" "/p" None "claude" 7.

Abbreviation sample_poll :=
  (@client_poll concrete_json concrete_slice (fun _ => "status") (Ok "/d") (fun _ _ => Ok tt) default_client "agent-1").

Abbreviation sample_wire :=
  (@wire_answers concrete_json integers_unsigned best_route Some concrete_slice (fun _ _ => None) (fun _ => (422%Z, []))).

(** A poll that takes the message that waits. *)
Lemma agent_calls_served_witness :
  exists t w', runs sample_wire (wire_moves eq) sample_poll waiting_agent t (Ok ["hi"]) w' /\
    exists s1 (now : string) kill, wi_stores waiting_agent = s1 /\ Ok ["hi"] = match (poll_messages kill "agent-1" (ds_sessions s1)).1 with
      | Ok messages => Ok messages | _ => Err "refused" end.
Proof.
  set (polled := mkStores [("agent-1", mkSession "agent-1" "/p" None "claude" 7 "t" [])] None).
  set (answer := (@answer_of concrete_json (inl (@poll_value concrete_json ["hi"]))).2).
  assert (exists t, runs sample_wire (wire_moves eq) sample_poll waiting_agent t (Ok ["hi"]) (mkWire polled answer)) as [t Hr].
  { eexists. unfold client_poll, request_json, client_request, request_inner, send_request. cbn -[poll_of_value].
    eexists waiting_agent, (Ok tt), waiting_agent, _. split; [done|]. split; [done|]. split; [done|]. cbn -[poll_of_value].
    eexists waiting_agent, (Ok tt), waiting_agent, _. split; [done|]. split; [done|]. split; [done|]. cbn -[poll_of_value].
    eexists waiting_agent, (Ok 200%Z), (mkWire polled answer), _. split; [done|]. split.
    { exists "t1", (fun _ => None), (fun _ => None), (fun s => s).
      assert (@serve concrete_json integers_unsigned (fun _ => None) (fun _ => None) (fun s => s) best_route Some concrete_slice
        (fun _ _ => None) (fun _ => (422%Z, [])) "t1" GET ("/v1/agent/sessions/" +:+ "agent-1" +:+ "/messages/poll") []
        (wi_stores waiting_agent) = ((200%Z, answer), polled)) as -> by (vm_compute; reflexivity). done. }
    split; [done|]. cbn -[poll_of_value].
    eexists (mkWire polled answer), (Ok answer), (mkWire polled answer), _. split; [done|]. split; [done|]. split; [done|].
    cbn -[poll_of_value]. split; [done|]. split; [|done]. vm_compute. reflexivity. }
  exists t, (mkWire polled answer). split; [exact Hr|].
  destruct (@agent_calls_served concrete_json integers_unsigned best_route best_route_laws Some (fun _ _ => eq_refl)
    concrete_slice concrete_wire (fun _ _ => None) (fun _ => (422%Z, [])) (fun _ => "status") (Ok "/d") (fun _ _ => Ok tt)
    (ex_intro _ "/d" eq_refl) (fun _ _ => eq_refl) eq _ default_client sample_request "agent-1" waiting_agent)
    as (_ & _ & refusal & _ & Hp); [by vm_compute|by split|done|].
  destruct (wp_runs _ _ _ _ _ _ _ _ Hp Hr) as (s1 & now & kill & Hs & _ & Ho).
  exists s1, now, kill. split; [exact Hs|]. rewrite Ho. by destruct (poll_messages kill "agent-1" (ds_sessions s1)).1.
Defined.

(** The ids that agents get meet what their calls need. *)
Lemma generated_id_plain digits : plain (generate_agent_id digits) /\ generate_agent_id digits <> "latest".
Proof.
  assert (to_bytes (generate_agent_id digits) = to_bytes "agent-" ++ (hex_char <$> digits)) as Hb
    by (unfold generate_agent_id; by rewrite to_bytes_app, to_of_bytes).
  split; [split|].
  - intros He. rewrite He in Hb. done.
  - rewrite Hb, forallb_app. cbn [forallb]. apply andb_true_intro. split; [done|]. apply forallb_forall.
    intros c (n & <- & _)%in_map_iff. do 16 (destruct n as [|n]; [done|]). by destruct n.
  - intros He. rewrite He in Hb. done.
Qed.

(** A message for an agent that is not there, and a poll of one, are answered with an internal
    error, not with 404. *)
Lemma unknown_agent_is_internal kill text :
  let st := mkStores [] None in
  let r := @mkHttpRequest concrete_json ["agent-1"] (fun _ => None) (Some (message_value text)) "t" in
  (@agent_handler concrete_json integers_unsigned kill kill (fun s => s) PostAgentMessage r st)
  = Some (inr (Internal "agent session agent-1 not found"), st) /\
  (@agent_handler concrete_json integers_unsigned kill kill (fun s => s) PollAgentMessages r st)
  = Some (inr (Internal "agent session agent-1 not found"), st).
Proof. by split. Qed.
