(* ===== verification/Float64.v ===== *)
(** * 64-bit floating point

    The arithmetic of Rust's [f64] as the program uses it - integers as floats, a product,
    a quotient, and back to an integer - by the Standard Library's specification of IEEE 754,
    and how far a share computed with it is from the exact one. *)

From Stdlib Require Import SpecFloat ZArith Lia Reals Lra Psatz.
From S2P Require Import Prelude Bytes.
#[local] Open Scope Z_scope.

Definition f64_of (n : Z) : spec_float := binary_normalize 53 1024 n 0 false.
Definition f64_mul : spec_float -> spec_float -> spec_float := SFmul 53 1024.
Definition f64_div : spec_float -> spec_float -> spec_float := SFdiv 53 1024.

(** [as usize]: towards zero, saturating; 0 for what is not a number. *)
Definition f64_to_usize (x : spec_float) : Z :=
  match x with
  | S754_finite false m e => Z.min u64_max (if (0 <=? e)%Z then Z.shiftl (Zpos m) e else Z.shiftr (Zpos m) (- e))
  | S754_infinity false => u64_max
  | _ => 0%Z
  end.

(** ** Mantissas *)

Lemma digits_bounds z : 0 < z -> 2 ^ (Zdigits2 z - 1) <= z < 2 ^ Zdigits2 z.
Proof.
  destruct z as [|p|p]; try lia. intros _. cbn [Zdigits2].
  assert (forall n, 0 <= n -> 2 ^ (Z.succ n) = 2 * 2 ^ n) as Hpow by (intros; by apply Z.pow_succ_r).
  induction p as [p IH|p IH|]; cbn [digits2_pos]; [..|by cbv].
  all: rewrite Pos2Z.inj_succ; replace (Z.succ (Z.pos (digits2_pos p)) - 1) with (Z.pos (digits2_pos p)) by lia;
    rewrite Hpow by lia; pose proof (Hpow (Z.pos (digits2_pos p) - 1) ltac:(lia)) as Hp;
    replace (Z.succ (Z.pos (digits2_pos p) - 1)) with (Z.pos (digits2_pos p)) in Hp by lia; lia.
Qed.

Lemma digits_at_least z k : 0 <= k -> 2 ^ k <= z -> k < Zdigits2 z.
Proof.
  intros Hk Hz. pose proof (Z.pow_pos_nonneg 2 k ltac:(lia) Hk).
  pose proof (digits_bounds z ltac:(lia)) as [_ Hd]. apply (Z.pow_lt_mono_r_iff 2); [lia| |lia].
  destruct z; cbn; lia.
Qed.

Lemma digits_at_most z k : 0 < z -> 0 <= k -> z < 2 ^ k -> Zdigits2 z <= k.
Proof.
  intros Hz Hk Hlt. pose proof (digits_bounds z Hz) as [Hd _].
  assert (Zdigits2 z - 1 < k); [|lia]. apply (Z.pow_lt_mono_r_iff 2); lia.
Qed.

Lemma shr_1_half mrs : 0 <= shr_m mrs -> shr_m (shr_1 mrs) = shr_m mrs / 2.
Proof.
  destruct mrs as [[|[p|p|]|p] r s]; cbn [shr_m]; intros Hp; try lia; cbn; try done.
  - change (Z.pos p~1) with (2 * Z.pos p + 1)%Z. apply Z.div_unique with 1; lia.
  - change (Z.pos p~0) with (2 * Z.pos p)%Z. apply Z.div_unique with 0; lia.
Qed.

Lemma iter_shr p mrs : 0 <= shr_m mrs -> shr_m (SpecFloat.iter_pos shr_1 p mrs) = shr_m mrs / 2 ^ Zpos p.
Proof.
  assert (forall m k, 0 <= m -> 0 <= k -> 0 <= m / 2 ^ k) as Hdiv.
  { intros m k Hm Hk. apply Z.div_pos; [done|]. by apply Z.pow_pos_nonneg. }
  revert mrs. induction p as [p IH|p IH|]; intros mrs Hm; cbn [SpecFloat.iter_pos].
  - assert (0 <= shr_m (shr_1 mrs)) as H1 by (rewrite shr_1_half by done; apply (Hdiv _ 1); lia).
    assert (0 <= shr_m (SpecFloat.iter_pos shr_1 p (shr_1 mrs))) by (rewrite IH by done; by apply Hdiv).
    rewrite !IH by done. rewrite shr_1_half by done. rewrite !Z.div_div by lia.
    f_equal. rewrite (Pos2Z.inj_xI p).
    replace (2 * Z.pos p + 1) with (Z.pos p + Z.pos p + 1) by lia. rewrite !Z.pow_add_r by lia. lia.
  - assert (0 <= shr_m (SpecFloat.iter_pos shr_1 p mrs)) by (rewrite IH by done; by apply Hdiv).
    rewrite !IH by done. rewrite Z.div_div by lia. f_equal. rewrite (Pos2Z.inj_xO p).
    replace (2 * Z.pos p) with (Z.pos p + Z.pos p) by lia. rewrite Z.pow_add_r by lia. lia.
  - by apply shr_1_half.
Qed.

Lemma shr_spec mrs e n :
  0 <= shr_m mrs -> 0 <= n -> shr_m (shr mrs e n).1 = shr_m mrs / 2 ^ n /\ (shr mrs e n).2 = e + n.
Proof.
  intros Hm Hn. destruct n as [|p|p]; cbn; [by rewrite Z.div_1_r, Z.add_0_r| |lia]. by rewrite iter_shr.
Qed.

Lemma loc_kept m l : loc_of_shr_record (shr_record_of_loc m l) = l /\ shr_m (shr_record_of_loc m l) = m.
Proof. by destruct l as [|[]]. Qed.

Lemma round_near m l : m <= round_nearest_even m l <= m + 1.
Proof. destruct l as [|[]]; cbn; try destruct (Z.even m); lia. Qed.

(** Rounding a mantissa of [53 + n] binary digits moves it by less than the place of its last
    digit, and leaves 53. *)
Lemma round_aux_spec mx ex lx :
  let n := Zdigits2 mx - 53 in
  0 < mx -> 0 <= n -> -1074 <= ex + n -> ex + n <= 970 ->
  exists m e, binary_round_aux 53 1024 false mx ex lx = S754_finite false m e /\
    ex + n <= e <= ex + n + 1 /\ 2 ^ 52 <= Zpos m < 2 ^ 53 /\
    mx + 1 - 2 ^ n <= Zpos m * 2 ^ (e - ex) <= mx + 2 ^ n /\ 2 ^ 52 * 2 ^ n <= mx.
Proof.
  intros n Hmx Hn Hlow Hhigh. unfold binary_round_aux, shr_fexp, fexp, emin.
  replace (Z.max (Zdigits2 mx + ex - 53) (3 - 1024 - 53) - ex) with n by lia.
  destruct (loc_kept mx lx) as [_ Hm0].
  pose proof (shr_spec (shr_record_of_loc mx lx) ex n ltac:(lia) Hn) as [Hq He]. rewrite Hm0 in Hq.
  destruct (shr (shr_record_of_loc mx lx) ex n) as [mrs' e'] eqn:Hshr. cbn [fst snd] in Hq, He.
  pose proof (digits_bounds mx Hmx) as [Hlo Hhi].
  pose proof (Z.pow_pos_nonneg 2 n ltac:(lia) Hn) as Hpn.
  assert (2 ^ 52 * 2 ^ n <= mx /\ mx < 2 ^ 53 * 2 ^ n) as [Hlo' Hhi'].
  { rewrite <- !Z.pow_add_r by lia. replace (52 + n) with (Zdigits2 mx - 1) by lia.
    replace (53 + n) with (Zdigits2 mx) by lia. done. }
  pose proof (Z.div_mod mx (2 ^ n) ltac:(lia)) as Hdm. pose proof (Z.mod_pos_bound mx (2 ^ n) Hpn) as Hmod.
  rewrite <- Hq in Hdm. set (q := shr_m mrs') in *.
  assert (2 ^ 52 <= q < 2 ^ 53) as Hq53 by (split; nia).
  pose proof (round_near q (loc_of_shr_record mrs')) as Hround.
  set (m1 := round_nearest_even q (loc_of_shr_record mrs')) in *.
  assert (mx + 1 - 2 ^ n <= m1 * 2 ^ n <= mx + 2 ^ n) as Hnear by nia.
  destruct (loc_kept m1 loc_Exact) as [_ Hm1].
  destruct (Z.eq_dec m1 (2 ^ 53)) as [Heq|Hne].
  - assert (Zdigits2 m1 = 54) as -> by (rewrite Heq; reflexivity).
    replace (Z.max (54 + e' - 53) (3 - 1024 - 53) - e') with 1 by lia.
    pose proof (shr_spec (shr_record_of_loc m1 loc_Exact) e' 1 ltac:(lia) ltac:(lia)) as [Hq2 He2].
    rewrite Hm1 in Hq2. destruct (shr (shr_record_of_loc m1 loc_Exact) e' 1) as [mrs2 e2]. cbn [fst snd] in Hq2, He2.
    rewrite Heq in Hq2.
    change (2 ^ 53 / 2 ^ 1) with 4503599627370496 in Hq2. rewrite Hq2.
    destruct (Z.leb_spec e2 (1024 - 53)); [|lia].
    eexists _, _. split; [reflexivity|]. split; [lia|]. split; [lia|]. split; [|done].
    replace (e2 - ex) with (1 + n) by lia. rewrite Z.pow_add_r by lia. lia.
  - assert (Zdigits2 m1 = 53) as Hd.
    { pose proof (digits_at_least m1 52 ltac:(lia) ltac:(lia)).
      pose proof (digits_at_most m1 53 ltac:(lia) ltac:(lia) ltac:(lia)). lia. }
    rewrite Hd. replace (Z.max (53 + e' - 53) (3 - 1024 - 53) - e') with 0 by lia.
    pose proof (shr_spec (shr_record_of_loc m1 loc_Exact) e' 0 ltac:(lia) ltac:(lia)) as [Hq2 He2].
    rewrite Hm1, Z.div_1_r in Hq2. destruct (shr (shr_record_of_loc m1 loc_Exact) e' 0) as [mrs2 e2]. cbn [fst snd] in Hq2, He2.
    rewrite Hq2. destruct m1 as [|p|p]; [lia| |lia].
    destruct (Z.leb_spec e2 (1024 - 53)); [|lia].
    eexists _, _. split; [reflexivity|]. split; [lia|]. split; [lia|]. split; [|done].
    replace (e2 - ex) with n by lia. lia.
Qed.

(** ** Nearness *)

Section nearness.
#[local] Open Scope R_scope.

Definition bpow (e : Z) : R := powerRZ 2 e.
Definition one_up : R := 1 + / IZR (2 ^ 52).

(** Near up to [k] factors of a rounding. *)
Definition near (k : nat) (x v : R) : Prop := 0 < x /\ 0 < v /\ v <= x * one_up ^ k /\ x <= v * one_up ^ k.

Lemma bpow_pos e : 0 < bpow e.
Proof. apply powerRZ_lt. lra. Qed.

Lemma bpow_add e f : bpow (e + f) = bpow e * bpow f.
Proof. apply powerRZ_add. lra. Qed.

Lemma bpow_pow e : (0 <= e)%Z -> bpow e = IZR (2 ^ e).
Proof.
  intros He. unfold bpow. rewrite <- (Z2Nat.id e) by done. by rewrite <- pow_powerRZ, pow_IZR.
Qed.

Lemma one_up_ge : 1 <= one_up.
Proof. unfold one_up. assert (0 < / IZR (2 ^ 52)) by (apply Rinv_0_lt_compat, IZR_lt; lia). lra. Qed.

Lemma one_up_pow_ge k : 1 <= one_up ^ k.
Proof. apply pow_R1_Rle, one_up_ge. Qed.

Lemma near_trans j k x y z : near j x y -> near k y z -> near (j + k) x z.
Proof.
  intros (Hx & Hy & H1 & H2) (_ & Hz & H3 & H4). pose proof (one_up_pow_ge j). pose proof (one_up_pow_ge k).
  unfold near. rewrite pow_add. split_and!; [done|done|nra|nra].
Qed.

Lemma near_mul j k x v y w : near j x v -> near k y w -> near (j + k) (x * y) (v * w).
Proof.
  intros (Hx & Hv & H1 & H2) (Hy & Hw & H3 & H4). pose proof (one_up_pow_ge j). pose proof (one_up_pow_ge k).
  unfold near. rewrite pow_add. split_and!; [nra|nra|..].
  - replace (x * y * (one_up ^ j * one_up ^ k)) with ((x * one_up ^ j) * (y * one_up ^ k)) by ring. apply Rmult_le_compat; lra.
  - replace (v * w * (one_up ^ j * one_up ^ k)) with ((v * one_up ^ j) * (w * one_up ^ k)) by ring. apply Rmult_le_compat; lra.
Qed.

Lemma near_inv k x v : near k x v -> near k (/ x) (/ v).
Proof.
  intros (Hx & Hv & H1 & H2). pose proof (one_up_pow_ge k). pose proof (Rinv_0_lt_compat x Hx). pose proof (Rinv_0_lt_compat v Hv).
  split_and!; [done|done|..].
  - apply (Rmult_le_reg_r (v * x)); [nra|]. replace (/ v * (v * x)) with x by (field; lra).
    replace (/ x * one_up ^ k * (v * x)) with (v * one_up ^ k) by (field; lra). done.
  - apply (Rmult_le_reg_r (v * x)); [nra|]. replace (/ x * (v * x)) with v by (field; lra).
    replace (/ v * one_up ^ k * (v * x)) with (x * one_up ^ k) by (field; lra). done.
Qed.

(** Rounding a mantissa with a value between it and the next. *)
Lemma round_aux_near mx ex lx v :
  let n := (Zdigits2 mx - 53)%Z in
  (0 < mx)%Z -> (0 <= n)%Z -> (-1074 <= ex + n)%Z -> (ex + n <= 970)%Z ->
  IZR mx * bpow ex <= v -> v <= IZR (mx + 1) * bpow ex ->
  exists m e, binary_round_aux 53 1024 false mx ex lx = S754_finite false m e /\
    (ex + n <= e <= ex + n + 1)%Z /\ (2 ^ 52 <= Zpos m < 2 ^ 53)%Z /\ near 2 (IZR (Zpos m) * bpow e) v.
Proof.
  intros n Hmx Hn Hlow Hhigh Hv1 Hv2.
  destruct (round_aux_spec mx ex lx Hmx Hn Hlow Hhigh) as (m & e & -> & He & Hm & Hnear & Hdig).
  fold n in He, Hnear, Hdig. exists m, e. split_and!; [done|lia..|].
  set (A := (Zpos m * 2 ^ (e - ex))%Z) in *. set (N := (2 ^ n)%Z) in *.
  assert (IZR (Zpos m) * bpow e = IZR A * bpow ex) as ->.
  { unfold A. rewrite mult_IZR, <- bpow_pow by lia. replace e with ((e - ex) + ex)%Z at 1 by lia. rewrite bpow_add. ring. }
  assert (0 < A)%Z as HA by lia.
  pose proof (bpow_pos ex) as Hb. pose proof (IZR_lt 0 mx Hmx) as HmxR. pose proof (IZR_lt 0 A HA) as HAR.
  assert (IZR A * 4503599627370496 <= IZR mx * 4503599627370497) as Hup by (rewrite <- !mult_IZR; apply IZR_le; lia).
  assert (IZR (mx + 1) * (4503599627370496 * 4503599627370496) <= IZR A * (4503599627370497 * 4503599627370497)) as Hdown
    by (rewrite <- !mult_IZR; apply IZR_le; lia).
  assert (one_up ^ 2 = (4503599627370497 * 4503599627370497) / (4503599627370496 * 4503599627370496)) as Hg.
  { unfold one_up. change (2 ^ 52)%Z with 4503599627370496%Z. simpl. field. }
  assert (0 < v) as Hv by nra.
  unfold near. rewrite Hg. split_and!; [nra|done|..].
  - apply Rle_trans with (IZR (mx + 1) * bpow ex); [done|].
    apply Rle_trans with (bpow ex * (IZR A * ((4503599627370497 * 4503599627370497) / (4503599627370496 * 4503599627370496)))); [|lra].
    rewrite Rmult_comm. apply Rmult_le_compat_l; lra.
  - apply Rle_trans with (IZR mx * bpow ex * ((4503599627370497 * 4503599627370497) / (4503599627370496 * 4503599627370496))).
    + apply Rle_trans with (bpow ex * (IZR mx * ((4503599627370497 * 4503599627370497) / (4503599627370496 * 4503599627370496)))); [|lra].
      rewrite Rmult_comm. apply Rmult_le_compat_l; lra.
    + apply Rmult_le_compat_r; [lra|done].
Qed.

Lemma iter_double p k : Zpos (Pos.iter xO p k) = (Zpos p * 2 ^ Zpos k)%Z.
Proof.
  induction k as [|k IH] using Pos.peano_ind; [cbn; lia|].
  rewrite Pos.iter_succ, Pos2Z.inj_xO, IH, Pos2Z.inj_succ, Z.pow_succ_r by lia. lia.
Qed.

(** An integer as a float. *)
Lemma of_near z :
  (0 < z < 2 ^ 64)%Z ->
  exists m e, f64_of z = S754_finite false m e /\ (-52 <= e <= 12)%Z /\ (2 ^ 52 <= Zpos m < 2 ^ 53)%Z /\
    near 2 (IZR (Zpos m) * bpow e) (IZR z).
Proof.
  destruct z as [|p|p]; try lia. intros [_ Hz]. unfold f64_of, binary_normalize, binary_round, shl_align, fexp, emin.
  pose proof (digits_bounds (Zpos p) ltac:(lia)) as [Hlo Hhi]. cbn [Zdigits2] in Hlo, Hhi.
  pose proof (digits_at_most (Zpos p) 64 ltac:(lia) ltac:(lia) Hz) as Hd. cbn [Zdigits2] in Hd.
  set (d := Zpos (digits2_pos p)) in *. assert (1 <= d)%Z by (unfold d; lia).
  replace (Z.max (d + 0 - 53) (3 - 1024 - 53) - 0)%Z with (d - 53)%Z by lia.
  destruct (Z.ltb_spec d 53) as [Hsmall|Hlarge].
  - destruct (d - 53)%Z as [|k|k] eqn:Ek; [lia..|].
    replace (Z.max (d + 0 - 53) (3 - 1024 - 53)) with (- Zpos k)%Z by lia.
    pose proof (iter_double p k) as Hi. set (q := Pos.iter xO p k) in *.
    assert (2 ^ 52 <= Zpos q < 2 ^ 53)%Z as Hq.
    { rewrite Hi. replace (2 ^ 52)%Z with (2 ^ (d - 1) * 2 ^ Zpos k)%Z by (rewrite <- Z.pow_add_r by lia; f_equal; lia).
      replace (2 ^ 53)%Z with (2 ^ d * 2 ^ Zpos k)%Z by (rewrite <- Z.pow_add_r by lia; f_equal; lia).
      pose proof (Z.pow_pos_nonneg 2 (Zpos k) ltac:(lia) ltac:(lia)). nia. }
    assert (Zdigits2 (Zpos q) = 53)%Z as Hdq.
    { pose proof (digits_at_least (Zpos q) 52 ltac:(lia) ltac:(lia)).
      pose proof (digits_at_most (Zpos q) 53 ltac:(lia) ltac:(lia) ltac:(lia)). lia. }
    assert (IZR (Zpos q) * bpow (- Zpos k) = IZR (Zpos p)) as Hv.
    { rewrite Hi, mult_IZR, <- bpow_pow, Rmult_assoc, <- bpow_add by lia.
      replace (Z.pos k + - Z.pos k)%Z with 0%Z by lia. unfold bpow. simpl. ring. }
    destruct (round_aux_near (Zpos q) (- Zpos k) loc_Exact (IZR (Zpos p))) as (m & e & -> & He & Hm & Hnear);
      rewrite ?Hdq; try lia; [rewrite <- Hv; lra|rewrite <- Hv; apply Rmult_le_compat_r;
        [pose proof (bpow_pos (- Zpos k)); lra|apply IZR_le; lia]|].
    exists m, e. split_and!; [done|rewrite Hdq in He; lia..|done].
  - assert (match (d - 53)%Z with Z.neg k => (Pos.iter xO p k, Z.max (d + 0 - 53) (3 - 1024 - 53)) | _ => (p, 0%Z) end
      = (p, 0%Z)) as -> by (destruct (d - 53)%Z eqn:E; (done || lia)).
    destruct (round_aux_near (Zpos p) 0 loc_Exact (IZR (Zpos p))) as (m & e & -> & He & Hm & Hnear);
      cbn [Zdigits2]; fold d; try lia; [unfold bpow; simpl; lra|unfold bpow; rewrite plus_IZR; simpl; lra|].
    exists m, e. cbn [Zdigits2] in He. fold d in He. split_and!; [done|lia..|done].
Qed.

(** A product and a quotient of floats with all their digits. *)
Lemma mul_near m1 e1 m2 e2 :
  (2 ^ 52 <= Zpos m1 < 2 ^ 53)%Z -> (2 ^ 52 <= Zpos m2 < 2 ^ 53)%Z -> (-1000 <= e1 + e2 <= 900)%Z ->
  exists m e, f64_mul (S754_finite false m1 e1) (S754_finite false m2 e2) = S754_finite false m e /\
    near 2 (IZR (Zpos m) * bpow e) (IZR (Zpos m1) * bpow e1 * (IZR (Zpos m2) * bpow e2)).
Proof.
  intros Hm1 Hm2 He. unfold f64_mul, SFmul. cbn [xorb]. rewrite Pos2Z.inj_mul.
  set (p := (Zpos m1 * Zpos m2)%Z). assert (2 ^ 104 <= p < 2 ^ 106)%Z as Hp by (unfold p; split; nia).
  pose proof (digits_at_least p 104 ltac:(lia) ltac:(lia)). pose proof (digits_at_most p 106 ltac:(lia) ltac:(lia) ltac:(lia)).
  assert (IZR (Zpos m1) * bpow e1 * (IZR (Zpos m2) * bpow e2) = IZR p * bpow (e1 + e2)) as ->.
  { unfold p. rewrite mult_IZR, bpow_add. ring. }
  destruct (round_aux_near p (e1 + e2) loc_Exact (IZR p * bpow (e1 + e2))) as (m & e & -> & _ & _ & Hnear); try lia; [lra| |].
  - apply Rmult_le_compat_r; [pose proof (bpow_pos (e1 + e2)); lra|apply IZR_le; lia].
  - by exists m, e.
Qed.

Lemma div_near m1 e1 m2 e2 :
  (2 ^ 52 <= Zpos m1 < 2 ^ 53)%Z -> (2 ^ 52 <= Zpos m2 < 2 ^ 53)%Z -> (-900 <= e1 - e2 <= 900)%Z ->
  exists m e, f64_div (S754_finite false m1 e1) (S754_finite false m2 e2) = S754_finite false m e /\
    (e1 - e2 - 53 <= e <= e1 - e2 - 51)%Z /\ (2 ^ 52 <= Zpos m < 2 ^ 53)%Z /\
    near 2 (IZR (Zpos m) * bpow e) (IZR (Zpos m1) * bpow e1 * / (IZR (Zpos m2) * bpow e2)).
Proof.
  intros Hm1 Hm2 He. unfold f64_div, SFdiv, SFdiv_core_binary. cbn [xorb].
  assert (forall m, 2 ^ 52 <= Zpos m < 2 ^ 53 -> Zdigits2 (Zpos m) = 53)%Z as Hd53.
  { intros m Hm. pose proof (digits_at_least (Zpos m) 52 ltac:(lia) ltac:(lia)).
    pose proof (digits_at_most (Zpos m) 53 ltac:(lia) ltac:(lia) ltac:(lia)). lia. }
  rewrite !Hd53 by done. unfold fexp, emin.
  replace (Z.min (Z.max (53 + e1 - (53 + e2) - 53) (3 - 1024 - 53)) (e1 - e2))%Z with (e1 - e2 - 53)%Z by lia.
  replace (e1 - e2 - (e1 - e2 - 53))%Z with 53%Z by lia.
  change (Z.shiftl (Zpos m1) 53) with (Z.shiftl (Zpos m1) (Z.of_nat 53)). rewrite Z.shiftl_mul_pow2 by lia.
  change (Z.of_nat 53) with 53%Z.
  pose proof (Z_div_mod (Zpos m1 * 2 ^ 53) (Zpos m2) ltac:(lia)) as Hdiv.
  destruct (Z.div_eucl (Zpos m1 * 2 ^ 53) (Zpos m2)) as [q r]. destruct Hdiv as [Hq Hr].
  assert (2 ^ 52 <= q < 2 ^ 54)%Z as Hqr by (split; nia).
  pose proof (digits_at_least q 52 ltac:(lia) ltac:(lia)). pose proof (digits_at_most q 54 ltac:(lia) ltac:(lia) ltac:(lia)).
  pose proof (bpow_pos (e1 - e2 - 53)) as Hb. assert (0 < IZR (Zpos m2)) as Hm2R by by apply (IZR_lt 0).
  assert (IZR (Zpos m1) * bpow e1 * / (IZR (Zpos m2) * bpow e2)
    = IZR (Zpos m1 * 2 ^ 53) * / IZR (Zpos m2) * bpow (e1 - e2 - 53)) as ->.
  { rewrite mult_IZR, <- (bpow_pow 53) by lia. pose proof (bpow_pos e2).
    replace (bpow e1) with (bpow 53 * bpow (e1 - e2 - 53) * bpow e2) by (rewrite <- !bpow_add; f_equal; lia). field. split; lra. }
  destruct (round_aux_near q (e1 - e2 - 53) (new_location (Zpos m2) r)
    (IZR (Zpos m1 * 2 ^ 53) * / IZR (Zpos m2) * bpow (e1 - e2 - 53))) as (m & e & -> & He' & Hm & Hnear); try lia.
  - apply Rmult_le_compat_r; [lra|]. apply (Rmult_le_reg_r (IZR (Zpos m2))); [done|].
    rewrite Rmult_assoc, Rinv_l, Rmult_1_r, <- mult_IZR by lra. apply IZR_le. lia.
  - apply Rmult_le_compat_r; [lra|]. apply (Rmult_le_reg_r (IZR (Zpos m2))); [done|].
    rewrite Rmult_assoc, Rinv_l, Rmult_1_r, <- mult_IZR by lra. apply IZR_le. lia.
  - exists m, e. split_and!; [done|lia..|done].
Qed.

(** The integer part of a float. *)
Lemma to_usize_floor m e :
  let t := if (0 <=? e)%Z then Z.shiftl (Zpos m) e else Z.shiftr (Zpos m) (- e) in
  (0 <= t)%Z /\ IZR t <= IZR (Zpos m) * bpow e < IZR (t + 1).
Proof.
  cbv zeta. destruct (Z.leb_spec 0 e) as [He|He].
  - rewrite Z.shiftl_mul_pow2, bpow_pow, <- mult_IZR by done.
    pose proof (Z.pow_pos_nonneg 2 e ltac:(lia) He). split; [nia|]. split; [lra|]. apply IZR_lt. lia.
  - rewrite Z.shiftr_div_pow2 by lia. pose proof (Z.pow_pos_nonneg 2 (- e) ltac:(lia) ltac:(lia)) as Hp.
    pose proof (Z.div_mod (Zpos m) (2 ^ (- e)) ltac:(lia)) as Hdm. pose proof (Z.mod_pos_bound (Zpos m) (2 ^ (- e)) Hp) as Hmod.
    set (t := (Zpos m / 2 ^ (- e))%Z) in *. assert (0 <= t)%Z by (apply Z.div_pos; lia).
    assert (bpow e * IZR (2 ^ (- e)) = 1) as Hone.
    { rewrite <- bpow_pow, <- bpow_add by lia. replace (e + - e)%Z with 0%Z by lia. done. }
    pose proof (bpow_pos e). split; [done|]. split.
    + apply Rle_trans with (IZR (t * 2 ^ (- e)) * bpow e).
      * rewrite mult_IZR, Rmult_assoc, (Rmult_comm _ (bpow e)), Hone. lra.
      * apply Rmult_le_compat_r; [lra|]. apply IZR_le. lia.
    + apply Rlt_le_trans with (IZR ((t + 1) * 2 ^ (- e)) * bpow e).
      * apply Rmult_lt_compat_r; [done|]. apply IZR_lt. nia.
      * rewrite mult_IZR, Rmult_assoc, (Rmult_comm _ (bpow e)), Hone. lra.
Qed.

Lemma ten_roundings : one_up ^ 10 <= 1 + / IZR (2 ^ 48).
Proof.
  unfold one_up. change (2 ^ 52)%Z with 4503599627370496%Z. change (2 ^ 48)%Z with 281474976710656%Z. simpl. lra.
Qed.
End nearness.

(** The share [m / c] of [n] as it is computed with floats is the exact one up to a relative
    error of [2 ^ -48] and the rounding to an integer. *)
Lemma f64_share n m c :
  0 < n <= 2 ^ 63 -> 0 <= m < c -> c < 2 ^ 64 ->
  let t := f64_to_usize (f64_mul (f64_of n) (f64_div (f64_of m) (f64_of c))) in
  0 <= t /\ t * c * 2 ^ 48 <= n * m * (2 ^ 48 + 1) /\ n * m * 2 ^ 48 < (t + 1) * c * (2 ^ 48 + 1).
Proof.
  intros Hn Hm Hc t.
  destruct (of_near n ltac:(lia)) as (mn & en & En & Hen & Hmn & Nn).
  destruct (of_near c ltac:(lia)) as (mc & ec & Ec & Hec & Hmc & Nc).
  destruct (Z.eq_dec m 0) as [->|Hm0].
  { assert (t = 0) as -> by (unfold t; rewrite En, Ec; reflexivity). lia. }
  destruct (of_near m ltac:(lia)) as (mm & em & Em & Hem & Hmm & Nm).
  destruct (div_near mm em mc ec Hmm Hmc ltac:(lia)) as (mq & eq & Eq & Heq & Hmq & Nq).
  destruct (mul_near mn en mq eq Hmn Hmq ltac:(lia)) as (mr & er & Er & Nr).
  assert (near 10 (IZR (Zpos mr) * bpow er) (IZR n * (IZR m * / IZR c))) as Hnear.
  { apply (near_trans 2 8 _ _ _ Nr), (near_mul 2 6 _ _ _ _ Nn), (near_trans 2 4 _ _ _ Nq).
    apply (near_mul 2 2 _ _ _ _ Nm), near_inv, Nc. }
  pose proof (to_usize_floor mr er) as Hfloor. cbv zeta in Hfloor.
  unfold t. rewrite En, Em, Ec, Eq, Er. cbn [f64_to_usize].
  set (t0 := if 0 <=? er then Z.shiftl (Zpos mr) er else Z.shiftr (Zpos mr) (- er)) in *. clearbody t0. clear t.
  destruct Hfloor as (Ht0 & Hf1 & Hf2), Hnear as (Hx & Hv & Hn1 & Hn2).
  pose proof ten_roundings as Hten. set (x := (IZR (Zpos mr) * bpow er)%R) in *.
  assert (0 < IZR c)%R as HcR by (apply (IZR_lt 0); lia).
  assert (IZR n * (IZR m * / IZR c) * IZR c = IZR (n * m))%R as Hnm by (rewrite mult_IZR; field; lra).
  assert (0 < / IZR (2 ^ 48))%R as Hinv by (apply Rinv_0_lt_compat, IZR_lt; lia).
  assert ((1 + / IZR (2 ^ 48)) * IZR (2 ^ 48) = IZR (2 ^ 48 + 1))%R as H48
    by (rewrite plus_IZR; field; apply not_0_IZR; lia).
  assert (0 < IZR (2 ^ 48))%R as HKR by (apply (IZR_lt 0); lia).
  assert (t0 * c * 2 ^ 48 <= n * m * (2 ^ 48 + 1) /\ n * m * 2 ^ 48 < (t0 + 1) * c * (2 ^ 48 + 1)) as [H1 H2].
  { split.
    - apply le_IZR. rewrite (mult_IZR (n * m)), <- Hnm, !mult_IZR, <- H48.
      set (v := (IZR n * (IZR m * / IZR c))%R) in *.
      assert (IZR t0 <= v * (1 + / IZR (2 ^ 48)))%R as Hle.
      { apply Rle_trans with x; [done|]. apply Rle_trans with (v * one_up ^ 10)%R; [done|]. apply Rmult_le_compat_l; lra. }
      replace (v * IZR c * ((1 + / IZR (2 ^ 48)) * IZR (2 ^ 48)))%R
        with (v * (1 + / IZR (2 ^ 48)) * IZR c * IZR (2 ^ 48))%R by ring.
      apply Rmult_le_compat_r; [lra|]. apply Rmult_le_compat_r; lra.
    - apply lt_IZR. rewrite (mult_IZR (n * m)), <- Hnm, !mult_IZR, <- H48.
      set (v := (IZR n * (IZR m * / IZR c))%R) in *.
      assert (v < IZR (t0 + 1) * (1 + / IZR (2 ^ 48)))%R as Hlt.
      { apply Rle_lt_trans with (x * one_up ^ 10)%R; [done|].
        apply Rle_lt_trans with (x * (1 + / IZR (2 ^ 48)))%R; [apply Rmult_le_compat_l; lra|].
        apply Rmult_lt_compat_r; lra. }
      replace (IZR (t0 + 1) * IZR c * ((1 + / IZR (2 ^ 48)) * IZR (2 ^ 48)))%R
        with (IZR (t0 + 1) * (1 + / IZR (2 ^ 48)) * IZR c * IZR (2 ^ 48))%R by ring.
      apply Rmult_lt_compat_r; [done|]. apply Rmult_lt_compat_r; lra. }
  assert (t0 <= u64_max) as Hmax.
  { assert (n * m * (2 ^ 48 + 1) < n * c * (2 ^ 48 + 1)) by nia. unfold u64_max. nia. }
  rewrite Z.min_r by done. done.
Qed.

(** A share of at most [2 ^ 48] is the exact one, less at most two and by less than one more. *)
Lemma f64_share_exact n m c :
  0 < n <= 2 ^ 48 -> 0 <= m < c -> c < 2 ^ 64 ->
  let t := f64_to_usize (f64_mul (f64_of n) (f64_div (f64_of m) (f64_of c))) in
  0 <= t <= n /\ n * m <= (t + 2) * c /\ t * c < n * m + c.
Proof.
  intros Hn Hm Hc t. destruct (f64_share n m c ltac:(lia) Hm Hc) as (H0 & H1 & H2). fold t in H0, H1, H2.
  clearbody t. assert (n * m < 2 ^ 48 * c) as Hnm by nia.
  assert (t * c < n * m + c) as Hup by lia.
  assert (t <= n) as Htn by nia. split; [lia|]. split; [|done].
  assert ((t + 1) * c <= (2 ^ 48 + 1) * c) by nia. lia.
Qed.
