(* ===== verification/Eviction.v ===== *)
(** * Eviction by size, and compaction

    Models [evict], [evict_to_size] and [age_cutoff_nanos] of
    [src/infra/logs/index/eviction.rs], the batches of
    [src/infra/logs/index/compaction.rs], and the turns of the maintenance task of
    [src/daemon/bootstrap.rs].

    The number of documents to keep is computed in 64-bit floating point ([Float64]). Merging segments changes no document: a
    merge is a batch of segments here. *)

From S2P Require Import Prelude Bytes BMap Json Sort Float64 LogIndex LogIngest LogQuery LogFollow.
From Stdlib Require Import Lia ZArith.

(** ** The share that is kept *)

Definition target_docs (total_docs : nat) (max_bytes current_size : Z) : nat :=
  let ratio := f64_div (f64_of max_bytes) (f64_of current_size) in
  Z.to_nat (f64_to_usize (f64_mul (f64_of (Z.of_nat total_docs)) ratio)).

(** It is the exact share, less at most two and by less than one more. *)
Lemma target_docs_share n m c :
  (Z.of_nat n <= 2 ^ 48)%Z -> (0 <= m < c)%Z -> (c <= u64_max)%Z ->
  target_docs n m c <= n /\
  (Z.of_nat n * m <= (Z.of_nat (target_docs n m c) + 2) * c)%Z /\
  (Z.of_nat (target_docs n m c) * c < Z.of_nat n * m + c)%Z.
Proof.
  intros Hn Hm Hc. destruct (decide (n = 0)) as [->|Hne].
  { assert (target_docs 0 m c = 0) as ->; [|lia]. unfold target_docs. cbn.
    by destruct (f64_div (f64_of m) (f64_of c)) as [[]|[]| |[]]. }
  unfold u64_max in Hc. destruct (f64_share_exact (Z.of_nat n) m c) as ([H0 H1] & H2 & H3); [lia..|].
  unfold target_docs. cbv zeta. rewrite Z2Nat.id by done. split_and!; [lia|done..].
Qed.

Example half_is_kept : target_docs 1000 (2 ^ 30) (2 ^ 31) = 500%nat.
Proof. vm_compute. reflexivity. Qed.

(** ** Eviction *)

(** [SystemTime::now] since the epoch, less the age, as nanoseconds in an [i64]. *)
Definition age_cutoff_nanos (now max_age : Z) : Z :=
  let cutoff := Z.max 0 (now - max_age) in
  ((cutoff + 2 ^ 63) mod 2 ^ 64 - 2 ^ 63)%Z.

(** [read_dir] with the metadata of its entries that have some: whether each is a file, and
    its length. *)
Definition dir_size_bytes (entries : option (list (bool * Z))) : Z :=
  match entries with
  | Some entries => foldl (fun total (entry : bool * Z) => if entry.1 then (total + entry.2)%Z else total) 0%Z entries
  | None => 0%Z
  end.

Section eviction.
Context `{Json} `{SearchIndex} `{Searcher}.
Abbreviation Index := (LogIndex (Response := LogViewResponse)).
Abbreviation IndexM := (LogM (Response := LogViewResponse)).

(** The time of the newest of the documents that are to go. *)
Definition newest_of (docs : list PendingDoc) : option Z :=
  match docs with
  | [] => None
  | d :: docs => Some (foldl Z.max (pd_ts_nanos d) (map pd_ts_nanos docs))
  end.

(** [search]: whether the first and the second search succeed. A range that includes its end
    is one that ends before the next nanosecond. *)
Definition evict_to_size (current_size max_bytes : Z) (search1 search2 : outcome unit) : IndexM nat := fun st =>
  if (current_size <=? max_bytes)%Z then (Ok 0%nat, st) else
  let docs := committed (lx_writer st) in
  match search1 with
  | Ok _ =>
      let total_docs := length docs in
      if (total_docs =? 0)%nat then (Ok 0%nat, st) else
      let docs_to_remove := (total_docs - target_docs total_docs max_bytes current_size)%nat in
      if (docs_to_remove =? 0)%nat then (Ok 0%nat, st) else
      match search2 with
      | Ok _ =>
          match newest_of (top_docs pd_ts_nanos true docs_to_remove docs) with
          | None => (Ok 0%nat, st)
          | Some cutoff_ts =>
              (_ ← with_writer (delete_query (QBefore (cutoff_ts + 1)));
               _ ← with_writer commit;
               _ ← clear_facet_cache;
               mret docs_to_remove) st
          end
      | Err e => (Err e, st)
      | Panic => (Panic, st)
      | OutOfFuel => (OutOfFuel, st)
      end
  | Err e => (Err e, st)
  | Panic => (Panic, st)
  | OutOfFuel => (OutOfFuel, st)
  end.

Record EvictionStats := mkEvictionStats { es_age_deleted : nat; es_size_deleted : nat }.

Definition evict (count : outcome nat) (now max_age current_size max_bytes : Z) (search1 search2 : outcome unit)
    : IndexM EvictionStats :=
  age_deleted ← evict_older_than count (age_cutoff_nanos now max_age);
  size_deleted ← evict_to_size current_size max_bytes search1 search2;
  mret (mkEvictionStats age_deleted size_deleted).

(** A turn of the maintenance task: what it says, if anything. A panic ends the thread that
    evicts, and is not looked at. *)
Definition maintenance_turn (count : outcome nat) (now max_age current_size max_bytes : Z) (search1 search2 : outcome unit)
    (st : Index) : option string * Index :=
  let '(o, st) := evict count now max_age current_size max_bytes search1 search2 st in
  (match o with
   | Ok stats =>
       if (0 <? es_age_deleted stats)%nat || (0 <? es_size_deleted stats)%nat
       then Some ("[log-index] evicted " +:+ show (Z.of_nat (es_age_deleted stats)) +:+ " docs by age, "
                  +:+ show (Z.of_nat (es_size_deleted stats)) +:+ " docs by size")
       else None
   | Err err => Some ("[log-index] eviction failed: " +:+ err)
   | Panic | OutOfFuel => None
   end, st).

(** ** Compaction *)

Definition COMPACTION_SEGMENT_BATCH_SIZE : nat := 32.
Definition COMPACTION_MAX_BATCHES_PER_PASS : nat := 8.

Section compaction.
Context {SegmentId : Type}.

(** [slice::chunks] *)
Fixpoint chunks (fuel n : nat) (l : list SegmentId) : list (list SegmentId) :=
  match l, fuel with
  | [], _ | _, 0 => []
  | l, S fuel => take n l :: chunks fuel n (drop n l)
  end.

Definition chunks_of (n : nat) (l : list SegmentId) : list (list SegmentId) := chunks (length l) n l.

(** The batches that a candidate adds, and whether that fills the pass. *)
Fixpoint push_chunks (batches chunks : list (list SegmentId)) : list (list SegmentId) * bool :=
  match chunks with
  | [] => (batches, false)
  | chunk :: chunks =>
      if (length chunk <? 2)%nat then push_chunks batches chunks else
      let batches := batches ++ [chunk] in
      if (COMPACTION_MAX_BATCHES_PER_PASS <=? length batches)%nat then (batches, true) else push_chunks batches chunks
  end.

Fixpoint push_candidates (batches candidates : list (list SegmentId)) : list (list SegmentId) :=
  match candidates with
  | [] => batches
  | candidate :: candidates =>
      match push_chunks batches (chunks_of COMPACTION_SEGMENT_BATCH_SIZE candidate) with
      | (batches, true) => batches
      | (batches, false) => push_candidates batches candidates
      end
  end.

(** [segments]: those that can be searched, none when they cannot be listed; the candidates are
    the merge policy's. *)
Definition compaction_batches (segments : outcome (list SegmentId))
    (compute_merge_candidates : list SegmentId -> list (list SegmentId)) : list (list SegmentId) :=
  let segments := match segments with Ok segments => segments | _ => [] end in
  if (length segments <=? 1)%nat then [] else push_candidates [] (compute_merge_candidates segments).
End compaction.
End eviction.

(** ** What is evicted *)

Section spec.
Context `{Json} `{SearchIndexLaws} `{SearcherLaws}.
Abbreviation Index := (LogIndex (Response := LogViewResponse)).

Lemma newest_of_spec docs t :
  newest_of docs = Some t -> (forall d, d ∈ docs -> (pd_ts_nanos d <= t)%Z) /\ exists d, d ∈ docs /\ pd_ts_nanos d = t.
Proof.
  destruct docs as [|d docs]; [done|]. cbn. intros [= <-].
  assert (forall l m, (forall x, x = m \/ x ∈ l -> (x <= foldl Z.max m l)%Z) /\
                      (foldl Z.max m l = m \/ foldl Z.max m l ∈ l)) as Hmax.
  { clear. intros l. induction l as [|y l IH]; intros m; cbn.
    - split; [|by left]. intros x [->|Hin%elem_of_nil]; [lia|done].
    - destruct (IH (Z.max m y)) as [Hle Hin]. split.
      + intros x [->|[->|Hx]%elem_of_cons]; [..|by apply Hle; right];
          (etrans; [|apply (Hle (Z.max m y)); by left]); lia.
      + destruct Hin as [Heq|Hin]; [|right; by right]. destruct (Z.max_spec m y) as [[_ E]|[_ E]]; rewrite Heq, E;
          [right; by left|by left]. }
  destruct (Hmax (map pd_ts_nanos docs) (pd_ts_nanos d)) as [Hle Hin]. split.
  - intros d' [->|Hd]%elem_of_cons; apply Hle; [by left|]. right. apply list_elem_of_fmap. by exists d'.
  - destruct Hin as [->|Hin]; [exists d; by split; [left|]|].
    apply list_elem_of_fmap in Hin as (d' & -> & Hd). exists d'. by split; [right|].
Qed.

(** An eviction by size is one by age, or nothing. *)
Lemma evict_to_size_is_eviction current_size max_bytes search1 search2 (st : Index) :
  (evict_to_size current_size max_bytes search1 search2 st).2 = st /\
  (forall n, (evict_to_size current_size max_bytes search1 search2 st).1 = Ok n -> n = 0%nat) \/
  exists n cutoff, n <> 0%nat /\
    evict_to_size current_size max_bytes search1 search2 st = evict_older_than (Ok n) (cutoff + 1) st /\
    n = (length (committed (lx_writer st)) - target_docs (length (committed (lx_writer st))) max_bytes current_size)%nat /\
    newest_of (top_docs pd_ts_nanos true n (committed (lx_writer st))) = Some cutoff.
Proof.
  unfold evict_to_size. destruct (current_size <=? max_bytes)%Z; [left; split; [done|]; by intros n [= <-]|].
  destruct search1; [|by left..]. destruct (_ =? 0)%nat; [left; split; [done|]; by intros n [= <-]|].
  set (k := (length _ - _)%nat). destruct (k =? 0)%nat eqn:En; [left; split; [done|]; by intros n [= <-]|].
  destruct search2; [|by left..]. destruct (newest_of _) as [cutoff|] eqn:Ec; [|left; split; [done|]; by intros n [= <-]].
  right. exists k, cutoff. split; [by apply Nat.eqb_neq|]. split; [|done].
  clearbody k. by destruct k.
Qed.

Definition later_than (t : Z) (d : PendingDoc) : bool := (t <? pd_ts_nanos d)%Z.

Lemma evicted_docs n cutoff (st st' : Index) m :
  n <> 0%nat -> outlook (lx_writer st) ≡ₚ committed (lx_writer st) ->
  evict_older_than (Ok n) (cutoff + 1) st = (Ok m, st') ->
  m = n /\ committed (lx_writer st') ≡ₚ List.filter (later_than cutoff) (committed (lx_writer st)).
Proof.
  intros Hn Hout Hev. destruct n as [|n]; [done|].
  apply st_bind_Ok in Hev as (? & ? & [= <- <-] & Hev). cbn [Nat.eqb] in Hev.
  apply st_bind_Ok in Hev as ([] & s1 & H1' & Hev). apply st_bind_Ok in Hev as ([] & s2 & H2' & Hev).
  apply st_bind_Ok in Hev as ([] & s3 & [= <-] & [= <- <-]). split; [done|].
  unfold with_writer in H1', H2'.
  pose proof (delete_query_law (QBefore (cutoff + 1)) (lx_writer st)) as Hd.
  destruct (delete_query _ _) as [r1 w1]. injection H1' as -> <-. destruct Hd as [_ [Ho|[? _]]]; [|done].
  pose proof (commit_law w1) as Hc. cbn [lx_writer] in H2'. destruct (commit w1) as [r2 w2]. injection H2' as -> <-.
  cbn [lx_writer]. destruct Hc as [[Hc _]|[? _]]; [|done]. rewrite Hc, Ho, Hout.
  assert (forall l, List.filter (fun d => negb (matches (QBefore (cutoff + 1)) d)) l = List.filter (later_than cutoff) l) as ->; [|done].
  intros l. apply List.filter_ext. intros d. unfold matches, later_than.
  destruct (Z.ltb_spec (pd_ts_nanos d) (cutoff + 1)), (Z.ltb_spec cutoff (pd_ts_nanos d)); (done || lia).
Qed.

Definition older_than (t : Z) (d : PendingDoc) : bool := (pd_ts_nanos d <? t)%Z.

(** When it succeeds, an eviction of an index that is too large removes what is said. *)
Lemma evicted_size current_size max_bytes search1 search2 (st st' : Index) n :
  (max_bytes < current_size)%Z ->
  evict_to_size current_size max_bytes search1 search2 st = (Ok n, st') ->
  let docs := committed (lx_writer st) in
  n = (length docs - target_docs (length docs) max_bytes current_size)%nat /\
  (n = 0%nat /\ st' = st \/
   n <> 0%nat /\ exists cutoff, evict_older_than (Ok n) (cutoff + 1) st = (Ok n, st') /\
     newest_of (top_docs pd_ts_nanos true n docs) = Some cutoff).
Proof.
  intros Hsize Hev docs. unfold evict_to_size in Hev. rewrite (proj2 (Z.leb_gt _ _) Hsize) in Hev. fold docs in Hev.
  destruct search1; try discriminate Hev.
  destruct (length docs =? 0)%nat eqn:E0.
  { injection Hev as <- <-. apply Nat.eqb_eq in E0. rewrite E0. split; [done|by left]. }
  set (k := (length docs - target_docs (length docs) max_bytes current_size)%nat) in *.
  destruct (k =? 0)%nat eqn:Ek; [injection Hev as <- <-; apply Nat.eqb_eq in Ek; split; [done|by left]|].
  apply Nat.eqb_neq in Ek. destruct search2; try discriminate Hev.
  destruct (newest_of (top_docs pd_ts_nanos true k docs)) as [cutoff|] eqn:Ec.
  - assert (evict_older_than (Ok k) (cutoff + 1) st = (Ok n, st')) as He by (rewrite <- Hev; by destruct k).
    assert (n = k) as ->; [|split; [done|]; right; split; [done|]; by exists cutoff].
    clear -He Ek. destruct k as [|k]; [done|].
    apply st_bind_Ok in He as (? & ? & [= <- <-] & He). cbn [Nat.eqb] in He.
    apply st_bind_Ok in He as ([] & s1 & _ & He). apply st_bind_Ok in He as ([] & s2 & _ & He).
    by apply st_bind_Ok in He as ([] & s3 & _ & [= <- _]).
  - exfalso. destruct (top_docs_law pd_ts_nanos true k docs) as (l & Hl & _ & Htop). rewrite Htop in Ec.
    apply Nat.eqb_neq in E0. rewrite <- (Permutation_length Hl) in E0. destruct l; [done|]. by destruct k.
Qed.

(** The documents up to the newest of the [k] oldest: those strictly older are fewer. *)
Lemma oldest_split k (docs : list PendingDoc) cutoff :
  k <= length docs -> newest_of (top_docs pd_ts_nanos true k docs) = Some cutoff ->
  length (List.filter (later_than cutoff) docs) + k <= length docs /\
  length (List.filter (older_than cutoff) docs) < k /\ exists d, d ∈ docs /\ pd_ts_nanos d = cutoff.
Proof.
  intros Hk Hc. destruct (top_docs_law pd_ts_nanos true k docs) as (l & Hl & Hsorted & Htop). rewrite Htop in Hc.
  apply newest_of_spec in Hc as [Hle (d & Hd & Ht)].
  assert (forall f, length (List.filter f docs) = length (List.filter f (take k l)) + length (List.filter f (drop k l))) as Hsplit.
  { intros f. rewrite <- length_app, <- List.filter_app, take_drop. apply Permutation_length.
    clear - Hl. induction Hl; cbn; repeat case_match; eauto using Permutation. }
  assert (forall f l', (forall x, x ∈ l' -> f x = false) -> List.filter f l' = @nil PendingDoc) as Hnone.
  { intros f l' Hf. induction l' as [|x l' IH]; [done|]. cbn. rewrite (Hf x) by left. apply IH. intros y Hy. apply Hf. by right. }
  pose proof (Permutation_length Hl) as Hlen.
  split_and!; [rewrite Hsplit, (Hnone _ (take k l))|rewrite Hsplit, (Hnone _ (drop k l))|].
  - cbn. pose proof (List.filter_length_le (later_than cutoff) (drop k l)). rewrite length_drop in *. lia.
  - intros x Hx%Hle. unfold later_than. apply Z.ltb_ge. done.
  - cbn. rewrite Nat.add_0_r.
    assert (older_than cutoff d = false) as Hnd by (unfold older_than; apply Z.ltb_ge; lia).
    assert (forall l', d ∈ l' -> length (List.filter (older_than cutoff) l') < length l') as Hless.
    { clear -Hnd. induction l' as [|x l' IH]; [by intros ?%elem_of_nil|]. cbn.
      pose proof (List.filter_length_le (older_than cutoff) l').
      intros [<-|Hin%IH]%elem_of_cons; [rewrite Hnd|destruct (older_than cutoff x)]; cbn; lia. }
    specialize (Hless _ Hd). rewrite length_take in Hless. lia.
  - intros x Hx. unfold older_than. apply Z.ltb_ge. rewrite <- Ht.
    rewrite <- (take_drop k l) in Hsorted. apply sorted_by_app_inv in Hsorted as (_ & _ & Hall).
    apply Z.leb_le. by apply (Hall d x).
  - exists d. split; [|done]. rewrite <- Hl. apply elem_of_take in Hd as (i & Hd & _). by eapply list_elem_of_lookup_2.
Qed.

(** C35: An eviction by size brings the index down to its share, and the oldest documents go.
    An index that is not too large stays as it is. Otherwise, when it succeeds, the number of
    documents left is less than one above their part that the allowed size is of the actual
    one; it says how many it means to remove, which leaves at most two fewer than that part;
    and what is removed are all the documents up to a time: those strictly older than it are
    fewer than it says, so that more go only when they have just that time. *)
Theorem oldest_evicted current_size max_bytes search1 search2 (st st' : Index) n :
  outlook (lx_writer st) ≡ₚ committed (lx_writer st) ->
  (0 <= max_bytes)%Z -> (current_size <= u64_max)%Z -> (Z.of_nat (length (committed (lx_writer st))) <= 2 ^ 48)%Z ->
  evict_to_size current_size max_bytes search1 search2 st = (Ok n, st') ->
  let docs := committed (lx_writer st) in
  let left := committed (lx_writer st') in
  if (current_size <=? max_bytes)%Z then n = 0%nat /\ st' = st else
  (Z.of_nat (length left) * current_size < Z.of_nat (length docs) * max_bytes + current_size)%Z /\
  n + length left <= length docs /\
  (Z.of_nat (length docs) * max_bytes <= (Z.of_nat (length docs - n) + 2) * current_size)%Z /\
  (n = 0%nat /\ st' = st \/
   n <> 0%nat /\ exists cutoff, left ≡ₚ List.filter (later_than cutoff) docs /\
     length (List.filter (older_than cutoff) docs) < n /\ exists d, d ∈ docs /\ pd_ts_nanos d = cutoff).
Proof.
  intros Hout Hmax Hcur Hmany Hev docs left. destruct (Z.leb_spec current_size max_bytes) as [Hfits|Hlarge].
  { unfold evict_to_size in Hev. rewrite (proj2 (Z.leb_le _ _) Hfits) in Hev. by injection Hev as <- <-. }
  destruct (evicted_size _ _ _ _ _ _ _ Hlarge Hev) as [Hn Hcase]. fold docs in Hn, Hcase, Hmany.
  destruct (target_docs_share (length docs) max_bytes current_size) as (Htle & Hlow & Hup); [lia..|].
  assert (length left + n <= length docs) as Hleft.
  { destruct Hcase as [[-> Hst]|(Hne & cutoff & Heq & Hc)]; [subst left; rewrite Hst; fold docs; lia|].
    apply evicted_docs in Heq as [_ Hdocs]; [|done..]. fold docs left in Hdocs. rewrite Hdocs.
    apply oldest_split in Hc; lia. }
  split_and!; [nia|lia| |].
  - replace (length docs - n)%nat with (target_docs (length docs) max_bytes current_size) by lia. lia.
  - destruct Hcase as [?|(Hne & cutoff & Heq & Hc)]; [by left|]. right. split; [done|]. exists cutoff.
    apply evicted_docs in Heq as [_ Hdocs]; [|done..]. split; [done|]. apply oldest_split in Hc; [tauto|lia].
Qed.

(** When all documents have the same time an eviction that removes one removes them all. *)
Lemma equal_times_all_evicted current_size max_bytes search1 search2 (st st' : Index) n t :
  outlook (lx_writer st) ≡ₚ committed (lx_writer st) ->
  (forall d, d ∈ committed (lx_writer st) -> pd_ts_nanos d = t) ->
  evict_to_size current_size max_bytes search1 search2 st = (Ok n, st') -> n <> 0%nat ->
  committed (lx_writer st') = [].
Proof.
  intros Hout Ht Hev Hn.
  destruct (evict_to_size_is_eviction current_size max_bytes search1 search2 st) as [[_ Hsame]|(k & cutoff & Hk & Heq & _ & Hc)].
  { destruct Hn. apply Hsame. by rewrite Hev. }
  rewrite Hev in Heq. symmetry in Heq. apply evicted_docs in Heq as [-> Hdocs]; [|done..].
  set (docs := committed (lx_writer st)) in *.
  destruct (top_docs_law pd_ts_nanos true k docs) as (l & Hl & _ & Htop). rewrite Htop in Hc.
  apply newest_of_spec in Hc as [_ (d & Hd & Hcut)].
  assert (cutoff = t) as ->.
  { rewrite <- Hcut. apply Ht. rewrite <- Hl. apply elem_of_take in Hd as (i & Hd & _). by eapply list_elem_of_lookup_2. }
  apply Permutation_nil_r. rewrite Hdocs. assert (List.filter (later_than t) docs = []) as ->; [|done].
  assert (forall x, x ∈ List.filter (later_than t) docs -> False) as Hno.
  { intros x [Hx Hlt]%list_elem_of_In%filter_In. apply list_elem_of_In, Ht in Hx. unfold later_than in Hlt. lia. }
  destruct (List.filter _ docs) as [|x xs]; [done|]. destruct (Hno x). by left.
Qed.
End spec.

(** ** What is merged *)

Section batches.
Context {SegmentId : Type}.
Implicit Types (l : list SegmentId) (batches candidates : list (list SegmentId)).

Lemma chunks_spec fuel n l :
  0 < n -> length l <= fuel -> concat (chunks fuel n l) = l /\ Forall (fun chunk => length chunk <= n) (chunks fuel n l).
Proof.
  intros Hn. revert l. induction fuel as [|fuel IH]; intros [|a l] Hl; cbn in *; try (split; [done|constructor]).
  { lia. }
  destruct n as [|n]; [lia|]. cbn [take drop]. destruct (IH (drop n l)) as [Hc Hf]; [rewrite length_drop; lia|].
  split.
  - cbn. by rewrite Hc, take_drop.
  - constructor; [|exact Hf]. cbn. rewrite length_take. lia.
Qed.

(** A list of batches: few, none of one segment, none too large. *)
Definition small_batches batches : Prop :=
  length batches <= COMPACTION_MAX_BATCHES_PER_PASS /\
  Forall (fun batch => 2 <= length batch <= COMPACTION_SEGMENT_BATCH_SIZE) batches.

Lemma push_chunks_spec batches cs :
  length batches < COMPACTION_MAX_BATCHES_PER_PASS -> small_batches batches ->
  Forall (fun chunk => length chunk <= COMPACTION_SEGMENT_BATCH_SIZE) cs ->
  let '(batches', full) := push_chunks batches cs in
  small_batches batches' /\ (full = false -> length batches' < COMPACTION_MAX_BATCHES_PER_PASS) /\
  exists more, batches' = batches ++ more /\ more `sublist_of` cs.
Proof.
  intros Hlen Hsmall Hf. revert batches Hlen Hsmall. induction Hf as [|chunk cs Hchunk _ IH]; intros batches Hlen Hsmall; cbn [push_chunks].
  - split; [done|]. split; [done|]. exists []. by rewrite app_nil_r.
  - destruct (length chunk <? 2)%nat eqn:Hc.
    + specialize (IH batches Hlen Hsmall). destruct (push_chunks batches cs) as [b f].
      destruct IH as (H1 & H2 & more & H3 & H4). split; [done|]. split; [done|]. exists more. split; [done|]. by apply sublist_cons.
    + apply Nat.ltb_ge in Hc.
      assert (small_batches (batches ++ [chunk])) as Hs.
      { destruct Hsmall as [_ Hall]. split; [rewrite length_app; cbn; lia|]. apply Forall_app. split; [done|]. by constructor. }
      destruct (COMPACTION_MAX_BATCHES_PER_PASS <=? length (batches ++ [chunk]))%nat eqn:Hfull.
      * split; [done|]. split; [done|]. exists [chunk]. split; [done|]. apply sublist_skip, sublist_nil_l.
      * apply Nat.leb_gt in Hfull. specialize (IH _ Hfull Hs). destruct (push_chunks _ cs) as [b f].
        destruct IH as (H1 & H2 & more & -> & H4). split; [done|]. split; [done|].
        exists (chunk :: more). rewrite <- app_assoc. split; [done|]. by apply sublist_skip.
Qed.

Lemma concat_sublist batches batches' : batches `sublist_of` batches' -> concat batches `sublist_of` concat batches'.
Proof.
  induction 1 as [|b bs cs _ IH|b bs cs _ IH]; cbn; [done|by apply sublist_app|].
  by apply sublist_inserts_l.
Qed.

Lemma push_candidates_spec batches candidates :
  length batches < COMPACTION_MAX_BATCHES_PER_PASS -> small_batches batches ->
  small_batches (push_candidates batches candidates) /\
  exists more, push_candidates batches candidates = batches ++ more /\ concat more `sublist_of` concat candidates.
Proof.
  revert batches. induction candidates as [|candidate candidates IH]; intros batches Hlen Hsmall; cbn [push_candidates concat].
  - split; [done|]. exists []. by rewrite app_nil_r.
  - unfold chunks_of. destruct (chunks_spec (length candidate) COMPACTION_SEGMENT_BATCH_SIZE candidate) as [Hc Hf];
      [unfold COMPACTION_SEGMENT_BATCH_SIZE; lia|done|].
    pose proof (push_chunks_spec batches _ Hlen Hsmall Hf) as Hp. destruct (push_chunks _ _) as [b [|]].
    + destruct Hp as (H1 & _ & more & -> & Hsub). split; [done|]. exists more. split; [done|].
      apply concat_sublist in Hsub. rewrite Hc in Hsub. by apply sublist_inserts_r.
    + destruct Hp as (H1 & H2 & more & -> & Hsub). destruct (IH _ (H2 eq_refl) H1) as (H3 & more' & H4 & H5).
      split; [done|]. exists (more ++ more'). rewrite H4, <- app_assoc. split; [done|].
      rewrite concat_app. apply sublist_app; [|done]. apply concat_sublist in Hsub. by rewrite Hc in Hsub.
Qed.

(** A pass merges at most eight batches, each of two to thirty-two segments, and no segment
    twice when the policy names none twice. *)
Lemma compaction_bounded segments (policy : list SegmentId -> list (list SegmentId)) :
  (forall l, NoDup (concat (policy l))) ->
  small_batches (compaction_batches segments policy) /\ NoDup (concat (compaction_batches segments policy)).
Proof.
  intros Hnd. unfold compaction_batches. set (s := match segments with Ok s => s | _ => [] end).
  destruct (length s <=? 1)%nat; [split; [by split; [cbn; lia|]|constructor]|].
  destruct (push_candidates_spec [] (policy s)) as (H1 & more & H2 & H3);
    [unfold COMPACTION_MAX_BATCHES_PER_PASS; cbn; lia|by split; [cbn; lia|]|].
  split; [done|]. rewrite H2. by eapply sublist_NoDup.
Qed.
End batches.

(** ** Witness *)

Definition timed_doc (t : Z) : PendingDoc := mkDoc "run" "web" "stdout" "info" t "t" t "line" "line" [].

Definition four_docs : LogIndex (H0 := list_index) (Response := @LogViewResponse concrete_json) :=
  let docs := map timed_doc [4; 1; 3; 2]%Z in @mkLogIndex list_index _ (docs, docs) ingest_state_default None [] 0.

Definition two_docs : LogIndex (H0 := list_index) (Response := @LogViewResponse concrete_json) :=
  let docs := map timed_doc [4; 3]%Z in @mkLogIndex list_index _ (docs, docs) ingest_state_default None [] 0.

Lemma half_evicted :
  @evict_to_size concrete_json list_index sorted_search 200 100 (Ok tt) (Ok tt) four_docs = (Ok 2%nat, two_docs).
Proof. vm_cast_no_check (@eq_refl (outcome nat * _) (Ok 2%nat, two_docs)). Qed.

(** Half of four documents are to go. *)
Lemma oldest_evicted_witness :
  exists cutoff, @committed list_index (lx_writer two_docs) ≡ₚ
    List.filter (later_than cutoff) (@committed list_index (lx_writer four_docs)).
Proof.
  destruct (@oldest_evicted concrete_json list_index list_index_laws sorted_search sorted_search_laws
    200 100 (Ok tt) (Ok tt) four_docs two_docs 2 (reflexivity _) ltac:(lia) ltac:(by vm_compute) ltac:(by vm_compute)
    half_evicted) as (_ & _ & _ & [[[=] _]|(_ & cutoff & Hdocs & _)]).
  exists cutoff. exact Hdocs.
Defined.
