(* ===== verification/LogView.v ===== *)
(** * The cached views of the log index

    [query_view] of [LogQuery] answers a request for facets alone from a cache.  What
    it answers is what it would compute, as long as the operations on the index do
    not overlap with it; when they do, an old answer can stay in the cache. *)

From S2P Require Import Prelude Bytes BMap Json Logfmt Sort LogIndex LogIngest LogQuery LogFollow Eviction.
From Stdlib Require Import Lia ZArith.

Section view.
Context `{Json} `{SearchIndex} `{StateCodec} `{Searcher}.
Context (unicode_digit : bytes -> bool) (parse_rfc3339 : string -> option Z).

Abbreviation Index := (LogIndex (Response := LogViewResponse)).
Abbreviation compute_view := (compute_view parse_rfc3339).
Abbreviation query_view := (query_view parse_rfc3339).
Implicit Types (st : Index).

Lemma facet_key_eqb_eq a b : facet_key_eqb a b = true <-> a = b.
Proof.
  unfold facet_key_eqb. rewrite !andb_true_iff, !bool_decide_eq_true.
  destruct a, b; simpl. split; [intros (((((-> & ->) & ->) & ->) & ->) & ->); done|].
  by intros [= -> -> -> -> -> ->].
Qed.

(** Requests with one key have one answer. *)
Lemma compute_view_key run_id run_id' q q' key st :
  facet_cache_key run_id q = Some key -> facet_cache_key run_id' q' = Some key ->
  compute_view run_id q st = compute_view run_id' q' st.
Proof.
  unfold facet_cache_key. destruct (lv_include_facets q) eqn:Ef, (lv_include_entries q) eqn:Ee; try done.
  destruct (lv_include_facets q') eqn:Ef', (lv_include_entries q') eqn:Ee'; try done. simpl.
  intros [= <-] [= -> Hs Hsince Hsearch Hlevel Hstream]. unfold LogQuery.compute_view.
  rewrite Hs, Hsince, Hsearch, Hlevel, Hstream. unfold view_search. by rewrite Ef, Ee, Ef', Ee'.
Qed.

(** Every answer in the cache is the one that would be computed. *)
Definition cache_sound st : Prop :=
  forall key response, cached key st = Some response ->
  forall run_id query, facet_cache_key run_id query = Some key ->
  compute_view run_id query st = Ok response.

Lemma empty_cache_sound st : lx_facet_cache st = [] -> cache_sound st.
Proof. intros Hc key response. unfold cached. by rewrite Hc. Qed.

Lemma query_view_computes run_id query st :
  cache_sound st -> (query_view run_id query st).1 = compute_view run_id query st.
Proof.
  intros Hs. unfold LogQuery.query_view. destruct (facet_cache_key run_id query) as [key|] eqn:Ek; simpl.
  - destruct (cached key st) as [response|] eqn:Ec; simpl; [symmetry; by eapply Hs|].
    by destruct (compute_view run_id query st).
  - by destruct (compute_view run_id query st).
Qed.

Lemma query_view_sound run_id query st :
  cache_sound st -> cache_sound (query_view run_id query st).2.
Proof.
  intros Hs. unfold LogQuery.query_view. destruct (facet_cache_key run_id query) as [key|] eqn:Ek; simpl.
  - destruct (cached key st) as [response|] eqn:Ec; simpl; [done|].
    destruct (compute_view run_id query st) as [response|e| |] eqn:Ev; simpl; try done.
    intros key' response' Hc run' query' Hk. unfold cached, cache_response in Hc. simpl in Hc.
    change (compute_view run' query' (cache_response key response st))
      with (compute_view run' query' st).
    destruct (facet_key_eqb key' key) eqn:E; [|by eapply Hs].
    apply facet_key_eqb_eq in E as ->. simpl in Hc. injection Hc as <-.
    by rewrite (compute_view_key run' run_id query' query key).
  - by destruct (compute_view run_id query st).
Qed.

(** ** Operations that change the documents *)

(** The cache is empty, or nothing happened. *)
Definition settled st0 st : Prop := lx_facet_cache st = [] \/ st = st0.

Lemma settled_sound st0 st : cache_sound st0 -> settled st0 st -> cache_sound st.
Proof. by intros Hs [Hc| ->]; [apply empty_cache_sound|]. Qed.

Abbreviation ends_empty m := (hoare (fun _ => True) m (fun _ (st : Index) => lx_facet_cache st = [])
                                (fun _ => True)).

Lemma any_hoare {A} (m : LogM (Response := LogViewResponse) A) :
  hoare (fun _ => True) m (fun _ _ => True) (fun _ => True).
Proof. intros st _. by destruct (m st) as [[a|e| |] st']. Qed.

Lemma clear_then_update env f {A} (a : A) :
  ends_empty (_ ← clear_facet_cache; _ ← update_ingest env f; mret a).
Proof.
  apply (hoare_bind _ _ _ (fun _ st => lx_facet_cache st = [])); [by intros ? _|]. intros _.
  apply (hoare_bind _ _ _ (fun _ st => lx_facet_cache st = [])); [|by intros ? ? ?].
  intros st Hst. unfold update_ingest. by destruct (le_save env _).
Qed.

Lemma commit_empties env b : ib_pending_updates b <> [] -> ends_empty (commit_ingest_batch env b).
Proof.
  intros Hb. unfold commit_ingest_batch. destruct (ib_pending_updates b) as [|u l]; [done|].
  do 4 (eapply hoare_bind; [apply any_hoare|intros ?]). apply clear_then_update.
Qed.

Lemma commit_settles env b st0 :
  hoare (settled st0) (commit_ingest_batch env b) (fun _ => settled st0) (fun _ => True).
Proof.
  intros st Hst. destruct (ib_pending_updates b) as [|u l] eqn:Hb.
  - unfold commit_ingest_batch. by rewrite Hb.
  - pose proof (commit_empties env b ltac:(by rewrite Hb) st I) as Hc.
    destruct (commit_ingest_batch env b st) as [[b'|e| |] st']; [by left|done..].
Qed.

Lemma read_loop_settles env source key min reads carry cursor del b st0 :
  hoare (settled st0)
    (read_loop unicode_digit parse_rfc3339 env source key min reads carry cursor del b)
    (fun _ => settled st0) (fun _ => True).
Proof.
  revert carry cursor del b. induction reads as [|read reads IH]; intros carry cursor del b;
    cbn [read_loop]; [apply (hoare_ret (fun _ => settled st0))|].
  destruct read as [chunk|e| |]; [|by intros st Hst..]. apply hoare_bind_ok. cbv beta.
  destruct (is_empty chunk); [apply (hoare_ret (fun _ => settled st0))|]. cbv zeta.
  destruct (rposition is_newline (carry ++ chunk)) as [i|]; [|apply IH].
  destruct (collect_complete_lines _ _ _ _ _ _ _ _ _) as [c b1].
  destruct (if (_ =? _)%Z then _ else (c, b1)) as [c2 b2]. eapply hoare_bind; [|intros b3; apply IH].
  destruct (should_flush b2); [apply commit_settles|apply (hoare_ret (fun _ => settled st0))].
Qed.

Lemma ingest_settles env sources min st0 :
  hoare (settled st0) (ingest_sources_after unicode_digit parse_rfc3339 env sources min)
    (fun _ => settled st0) (fun _ => True).
Proof.
  assert (forall cursors, hoare (settled st0)
    (batch ← sfold (ingest_source unicode_digit parse_rfc3339 env cursors min) sources batch_default;
     _ ← commit_ingest_batch env batch; mret tt) (fun _ => settled st0) (fun _ => True)) as Hh;
    [|intros st Hst; unfold ingest_sources_after; destruct sources; [done|by apply Hh]].
  intros cursors. eapply hoare_bind.
  - apply (hoare_fold (fun _ => settled st0)). intros source b _. unfold ingest_source.
    destruct (lf_metadata _) as [[[] len]|]; try apply (hoare_ret (fun _ => settled st0)).
    assert (forall c, hoare (settled st0) (read_source unicode_digit parse_rfc3339 env source min c b)
      (fun _ => settled st0) (fun _ => True)) as Hread.
    { intros c. unfold read_source. destruct (lf_reads _ _) as [reads|e| |]; [|by intros st Hst..].
      apply hoare_bind_ok. apply read_loop_settles. }
    case_match; [apply Hread|]. case_match; [apply (hoare_ret (fun _ => settled st0))|apply Hread].
  - intros b. eapply hoare_bind; [apply commit_settles|]. intros b'. apply (hoare_ret (fun _ => settled st0)).
Qed.

Lemma evict_settles count cutoff st0 :
  hoare (settled st0) (evict_older_than (Response := LogViewResponse) count cutoff)
    (fun _ => settled st0) (fun _ => True).
Proof.
  unfold evict_older_than. destruct count as [n|e| |]; [|by intros st Hst..].
  apply hoare_bind_ok. destruct (n =? 0)%nat; [apply (hoare_ret (fun _ => settled st0))|].
  apply (hoare_pre _ (fun _ => True)); [done|].
  do 2 (eapply hoare_bind; [apply any_hoare|intros ?]). intros st _. by left.
Qed.

Lemma delete_run_settles env run_id st0 :
  hoare (settled st0) (delete_run (Response := LogViewResponse) env run_id)
    (fun _ => settled st0) (fun _ => True).
Proof.
  unfold delete_run. apply (hoare_pre _ (fun _ => True)); [done|].
  do 2 (eapply hoare_bind; [apply any_hoare|intros ?]).
  eapply (hoare_bind _ _ _ (fun _ st => lx_facet_cache st = [])); [by intros ? _|]. intros _ st Hst.
  unfold update_ingest. destruct (le_save env _); [by left|done..].
Qed.

(** ** Operations one after another *)

Lemma compute_view_ext run_id query st st' :
  lx_writer st' = lx_writer st -> is_facet_fields (lx_ingest st') = is_facet_fields (lx_ingest st) ->
  compute_view run_id query st' = compute_view run_id query st.
Proof.
  intros Hw Hf. unfold LogQuery.compute_view, select, searched, facet_fields_for_scope. by rewrite Hw, Hf.
Qed.

Lemma mark_current_sound env sources st :
  cache_sound st -> cache_sound (mark_sources_current env sources st).2.
Proof.
  intros Hs. unfold mark_sources_current. destruct sources as [|s l]; [done|]. unfold update_ingest.
  destruct (le_save env _); cbn [snd]; intros key response Hc run_id query Hk;
    (rewrite (compute_view_ext _ _ st); [by eapply Hs|done..]).
Qed.

Lemma settles_sound {A} (m : LogM (Response := LogViewResponse) A) st a st' :
  (forall st0, hoare (settled st0) m (fun _ => settled st0) (fun _ => True)) ->
  m st = (Ok a, st') -> cache_sound st -> cache_sound st'.
Proof.
  intros Hm E Hs. apply (settled_sound st); [done|]. specialize (Hm st st (or_intror eq_refl)).
  by rewrite E in Hm.
Qed.

(** The operations of the daemon on its index, each finished before the next starts,
    and those that change documents successful; requests may fail. *)
Inductive operated : Index -> Prop :=
| operated_open readable st : operated (open_from_tantivy_index readable st)
| operated_ingest env sources min st st' :
    operated st ->
    ingest_sources_after unicode_digit parse_rfc3339 env sources min st = (Ok tt, st') -> operated st'
| operated_evict count cutoff n st st' :
    operated st -> evict_older_than count cutoff st = (Ok n, st') -> operated st'
| operated_evict_to_size current_size max_bytes search1 search2 n st st' :
    operated st -> evict_to_size current_size max_bytes search1 search2 st = (Ok n, st') -> operated st'
| operated_delete env run_id st st' :
    operated st -> delete_run env run_id st = (Ok tt, st') -> operated st'
| operated_mark env sources st : operated st -> operated (mark_sources_current env sources st).2
| operated_query run_id query st : operated st -> operated (query_view run_id query st).2
| operated_warm run_id st : operated st -> operated (warm_facets parse_rfc3339 run_id st).

Lemma operated_sound st : operated st -> cache_sound st.
Proof.
  induction 1 as [readable st|env sources min st st' _ IH E|count cutoff n st st' _ IH E
    |current_size max_bytes search1 search2 n st st' _ IH E|env run_id st st' _ IH E|env sources st _ IH|run_id query st _ IH|run_id st _ IH].
  - by apply empty_cache_sound.
  - eapply settles_sound; [apply ingest_settles|exact E|done].
  - eapply settles_sound; [apply evict_settles|exact E|done].
  - destruct (evict_to_size_is_eviction current_size max_bytes search1 search2 st)
      as [[Hsame _]|(k & cutoff & _ & Heq & _)]; [rewrite E in Hsame; cbn in Hsame; by subst st'|].
    rewrite Heq in E. eapply settles_sound; [apply evict_settles|exact E|done].
  - eapply settles_sound; [apply delete_run_settles|exact E|done].
  - by apply mark_current_sound.
  - by apply query_view_sound.
  - by apply query_view_sound.
Qed.
End view.

(** C30: the cache of facets is invisible.  Whatever successful operations happened one
    after another - ingestions, evictions by age and size, removals of runs, requests, restarts - a
    request is answered with what its computation from the documents would give,
    whether the answer comes from the cache or not. *)
Theorem cached_views_fresh `{Json} `{SearchIndex} `{StateCodec} `{Searcher}
    (unicode_digit : bytes -> bool) (parse_rfc3339 : string -> option Z)
    (st : LogIndex (Response := LogViewResponse)) (run_id : string) (query : LogViewQuery) :
  operated unicode_digit parse_rfc3339 st ->
  (query_view parse_rfc3339 run_id query st).1 = compute_view parse_rfc3339 run_id query st.
Proof. intros Hs. by eapply query_view_computes, operated_sound. Qed.

(** ** Counting values *)

Section facets.
Context (column : string).

Definition has_term (value : string) (d : PendingDoc) : bool :=
  bool_decide (term_of column d = Some value).

Definition term_count (value : string) (docs : list PendingDoc) : nat :=
  length (List.filter (has_term value) docs).

Lemma facet_counts_get docs value :
  value <> "" ->
  bget value (facet_counts column docs) =
    if (term_count value docs =? 0)%nat then None else Some (term_count value docs).
Proof.
  intros Hne. unfold facet_counts. induction docs as [|d docs IH] using rev_ind; [done|].
  rewrite foldl_app. cbn [foldl]. unfold term_count in *. rewrite List.filter_app, length_app.
  unfold count_term at 1. cbn [List.filter]. unfold has_term at 2 4.
  destruct (term_of column d) as [v|]; [|by rewrite Nat.add_0_r].
  destruct (decide (v = value)) as [->|Hv].
  - rewrite (bool_decide_eq_false_2 (value = "")), bool_decide_eq_true_2, bget_binsert_eq, IH by done.
    cbn [length]. rewrite Nat.add_1_r. by destruct (Nat.eqb_spec (length (List.filter (has_term value) docs)) 0)
      as [->|_].
  - rewrite (bool_decide_eq_false_2 (Some v = Some value)) by congruence. rewrite Nat.add_0_r.
    case_bool_decide; [done|]. by rewrite bget_binsert_ne.
Qed.

Lemma facet_counts_wf docs : bwf (facet_counts column docs).
Proof.
  unfold facet_counts. induction docs as [|d docs IH] using rev_ind; [apply bwf_nil|].
  rewrite foldl_app. cbn [foldl]. unfold count_term at 1. destruct (term_of column d); [|done].
  case_bool_decide; auto with bmap.
Qed.

Definition listed (counts : bmap string nat) : list FacetValueCount :=
  map (fun kv => mkFacetValueCount kv.1 kv.2)
    (List.filter (fun kv => negb (bool_decide (kv.1 = ""))) counts).

Lemma listed_elem docs value n :
  mkFacetValueCount value n ∈ listed (facet_counts column docs) <->
  value <> "" /\ n = term_count value docs /\ (0 < n)%nat.
Proof.
  unfold listed. rewrite list_elem_of_fmap. split.
  - intros ([k m] & [= -> ->] & [Hin Hk]%filter_elem). cbn in *.
    apply negb_true_iff, bool_decide_eq_false in Hk. apply (bget_in _ _ _ (facet_counts_wf docs)) in Hin.
    rewrite facet_counts_get in Hin by done.
    destruct (Nat.eqb_spec (term_count k docs) 0); [done|]. injection Hin as <-. split_and!; [done..|lia].
  - intros (Hne & -> & Hpos). exists (value, term_count value docs). split; [done|]. apply filter_elem.
    split; [|by rewrite bool_decide_eq_false_2]. apply (bget_in _ _ _ (facet_counts_wf docs)).
    rewrite facet_counts_get by done. by destruct (Nat.eqb_spec (term_count value docs) 0); [lia|].
Qed.

Lemma listed_values_nodup docs : NoDup (map fv_value (listed (facet_counts column docs))).
Proof.
  pose proof (bwf_NoDup_keys _ (bwf_bretain (fun k _ => negb (bool_decide (k = ""))) _
    (facet_counts_wf docs))) as Hn.
  unfold listed. rewrite map_map. exact Hn.
Qed.

Lemma facet_value_le_total a b : facet_value_le a b = true \/ facet_value_le b a = true.
Proof.
  unfold facet_value_le. rewrite (Nat.compare_antisym (fv_count a) (fv_count b)).
  destruct (fv_count a ?= fv_count b)%nat; simpl; [|by auto..].
  rewrite (kcmp_antisym (fv_value a) (fv_value b)). destruct (kcmp (fv_value a) (fv_value b)); auto.
Qed.

Lemma facet_value_le_lex a b :
  facet_value_le a b = true <->
  (fv_count b < fv_count a)%nat \/ fv_count a = fv_count b /\ kcmp (fv_value a) (fv_value b) <> Gt.
Proof.
  unfold facet_value_le.
  destruct (Nat.compare_spec (fv_count b) (fv_count a)), (kcmp (fv_value a) (fv_value b));
    (split; [intros; first [done|left; lia|right; split; [lia|done]]
            |intros [?|[? ?]]; first [done|lia]]).
Qed.

Lemma facet_value_le_trans a b c :
  facet_value_le a b = true -> facet_value_le b c = true -> facet_value_le a c = true.
Proof.
  rewrite !facet_value_le_lex. intros [Hab|[Hab Hk]] [Hbc|[Hbc Hk']]; try (left; lia).
  right. split; [lia|]. by eapply kcmp_le_trans.
Qed.
End facets.

(** The values of a facet.  Each listed value is that of some matching document,
    with the number of matching documents that have it; no value is listed twice and
    the empty one never; they come most frequent first, equally frequent ones in the
    order of their text; and a value is left out only when fifty others are listed,
    none of which it precedes. *)
Theorem facet_values_spec (column : string) (docs : list PendingDoc) :
  let values := facet_values_from_counts (facet_counts column docs) in
  (forall value n, mkFacetValueCount value n ∈ values ->
     value <> "" /\ n = term_count column value docs /\ (0 < n)%nat) /\
  NoDup (map fv_value values) /\ sorted_by facet_value_le values /\
  (length values <= FACET_TERMS_LIMIT)%nat /\
  (forall value, value <> "" -> (0 < term_count column value docs)%nat ->
     let this := mkFacetValueCount value (term_count column value docs) in
     this ∈ values \/
     length values = FACET_TERMS_LIMIT /\ forall x, x ∈ values -> facet_value_le x this = true).
Proof.
  intros values. unfold facet_values_from_counts in values.
  fold (listed (facet_counts column docs)) in values. set (sorted := sort_by facet_value_le _) in values.
  assert (sorted ≡ₚ listed (facet_counts column docs)) as Hp by apply sort_by_perm.
  assert (sorted_by facet_value_le (values ++ drop FACET_TERMS_LIMIT sorted)) as Hs.
  { unfold values. rewrite take_drop.
    apply sort_by_sorted; [apply facet_value_le_total|apply facet_value_le_trans]. }
  apply sorted_by_app_inv in Hs as (Hs & _ & Hcross). split_and!; [| |done| |].
  - intros value n Hin. apply (listed_elem column docs). rewrite <- Hp.
    rewrite <- (take_drop FACET_TERMS_LIMIT sorted). apply elem_of_app. by left.
  - assert (NoDup (map fv_value (values ++ drop FACET_TERMS_LIMIT sorted))) as Hn.
    { unfold values. rewrite take_drop, Hp. apply listed_values_nodup. }
    rewrite map_app in Hn. by apply NoDup_app in Hn as [Hn _].
  - unfold values. rewrite length_take. lia.
  - intros value Hne Hpos this. assert (this ∈ sorted) as Hin.
    { rewrite Hp. by apply listed_elem. }
    rewrite <- (take_drop FACET_TERMS_LIMIT sorted) in Hin. apply elem_of_app in Hin as [Hin|Hin]; [by left|right].
    split; [|intros x Hx; by apply Hcross]. unfold values. rewrite length_take.
    assert (drop FACET_TERMS_LIMIT sorted <> []) as Hd by (intros E; rewrite E in Hin; by apply elem_of_nil in Hin).
    destruct (Nat.le_gt_cases (length sorted) FACET_TERMS_LIMIT) as [Hle|Hgt]; [|lia].
    by rewrite drop_ge in Hd.
Qed.

(** ** Concrete requests *)

#[local] Existing Instance list_index.
#[local] Existing Instance tree_codec.
#[local] Existing Instance concrete_json.
#[local] Existing Instance sorted_search.

Definition facet_request : LogViewQuery := mkLogViewQuery LogFilterQuery_default None false true true.

Abbreviation ask := (query_view (fun _ => None) "run" facet_request).
Abbreviation answer := (compute_view (fun _ => None) "run" facet_request).

(** A log of one line is indexed, its facets are asked for, the log grows. *)
Definition one_line : LogIndex (Response := LogViewResponse) :=
  ingested sample_prefix (open_from_tantivy_index true no_documents).
Definition asked : LogIndex (Response := LogViewResponse) := (ask one_line).2.
Definition two_lines : LogIndex (Response := LogViewResponse) := ingested sample_text asked.

Lemma ingested_Ok text st :
  (ingest_sources (fun _ => false) (fun _ => None) (LogIngest.sample_env text (Ok tt))
     [sample_source] st).1 = Ok tt ->
  operated (fun _ => false) (fun _ => None) st ->
  operated (fun _ => false) (fun _ => None) (ingested text st).
Proof.
  intros Hr Hst. apply (operated_ingest _ _ (LogIngest.sample_env text (Ok tt)) [sample_source] None st);
    [exact Hst|]. unfold ingested. fold (ingest_sources (Response := LogViewResponse) (fun _ => false)
    (fun _ => None) (LogIngest.sample_env text (Ok tt)) [sample_source]).
  destruct (ingest_sources _ _ _ _ st) as [r st']. cbn [fst snd] in *. by subst r.
Qed.

Lemma cached_views_fresh_witness :
  length (lx_facet_cache asked) = 1 /\ (ask asked).1 = answer asked /\
  vr_total <$> (ask asked).1 = Ok 1 /\
  (ask two_lines).1 = answer two_lines /\ vr_total <$> (ask two_lines).1 = Ok 2.
Proof.
  assert (operated (fun _ => false) (fun _ => None) asked) as Hasked.
  { apply operated_query. apply ingested_Ok; [vm_compute; reflexivity|apply operated_open]. }
  assert (operated (fun _ => false) (fun _ => None) two_lines) as Htwo.
  { apply ingested_Ok; [vm_compute; reflexivity|exact Hasked]. }
  split; [vm_compute; reflexivity|]. split; [exact (cached_views_fresh _ _ asked "run" facet_request Hasked)|].
  split; [vm_compute; reflexivity|]. split; [exact (cached_views_fresh _ _ two_lines "run" facet_request Htwo)|].
  vm_compute. reflexivity.
Defined.

(** A request that found nothing in the cache and computed its answer from [before]
    stores it when the index is [after]: [query_view] holds no lock between the two. *)
Definition stored_late (before after : LogIndex (Response := LogViewResponse))
    : LogIndex (Response := LogViewResponse) :=
  match facet_cache_key "run" facet_request, answer before with
  | Some key, Ok response => cache_response key response after
  | _, _ => after
  end.

(** An answer can stay when operations overlap.  A request that computes its answer
    before an ingestion commits and stores it afterwards leaves the old answer in the
    cache that the ingestion has just cleared: from then on the new line is missing
    from what is answered, although it is in the index. *)
Theorem overlapping_request_stale :
  let after := ingested sample_text one_line in
  let st := stored_late one_line after in
  lx_writer st = lx_writer after /\
  (vr_total <$> answer one_line) = Ok 1 /\
  (vr_total <$> (ask st).1) = Ok 1 /\ (vr_total <$> answer st) = Ok 2.
Proof. split_and!; vm_compute; reflexivity. Qed.
