(* ===== verification/Gc.v ===== *)
(** * Garbage collection

    Models [run_gc] of [src/app/commands/gc.rs] as a program: the section under the lock of the
    runs, in which the directories of old stopped runs are removed, the manifests of stopped
    globals on disk, the events, the documents of the removed runs. [Lifecycle] has the effect
    of the section on the daemon alone. *)

From S2P Require Import Prelude Bytes BMap Util RunModel Lifecycle Manifest Program CliCommands.
From Stdlib Require Import Lia ZArith.

(** ** Effects *)

Inductive GcE : Type -> Type :=
  | GcNow : GcE Z
  | CollectRuns (threshold : Z) : GcE (outcome (list string) * list string)
  | PathExists (path : string) : GcE bool
  | ListDir (path : string) : GcE (outcome (list (outcome (string * string))))
  | LoadGlobal (path : string) : GcE (outcome PersistedGlobal)
  | RemoveTree (path : string) : GcE unit
  | GcEmit (e : DaemonEvent) : GcE unit
  | DeleteRunDocs (run_id : string) : GcE unit
  | ForceCompact : GcE unit
  | WriteDaemonState : GcE unit.

Abbreviation gc := (prog GcE).

Section gc.
(** [humantime::parse_duration], RFC 3339 as nanoseconds, and [OffsetDateTime::from], which
    panics outside of its years. *)
Context (parse_duration : string -> outcome Z) (parse_rfc3339 : string -> option Z).
Context (offset_date_time : Z -> outcome Z).
Context (base_dir : outcome string).

(** Whether something that stopped then, if that is known, is old enough. *)
Definition stale (threshold : Z) (stopped_at : option string) : outcome bool :=
  match stopped_at with
  | None => Ok true
  | Some stopped_at =>
      match parse_rfc3339 stopped_at with
      | Some stopped_time => threshold ← offset_date_time threshold; Ok (negb (threshold <? stopped_time)%Z)
      | None => Ok false
      end
  end.

(** The section under the lock: the runs that were removed, unless it panics, and the
    directories. *)
Fixpoint collect_runs (threshold : Z) (run_ids removed dirs : list string) (runs : RunMap)
    : outcome (list string) * list string * RunMap :=
  match run_ids with
  | [] => (Ok removed, dirs, runs)
  | run_id :: run_ids =>
      match bget run_id runs with
      | None => collect_runs threshold run_ids removed dirs runs
      | Some run =>
          if negb (bool_decide (rr_state run = RunStopped)) then collect_runs threshold run_ids removed dirs runs else
          match stale threshold (rr_stopped_at run) with
          | Ok false => collect_runs threshold run_ids removed dirs runs
          | Ok true =>
              match run_dir base_dir run_id with
              | Ok dir => collect_runs threshold run_ids (removed ++ [run_id]) (dirs ++ [dir]) (bremove run_id runs)
              | _ => (Panic, dirs, runs)
              end
          | _ => (Panic, dirs, runs)
          end
      end
  end.

Definition collect_section (threshold : Z) (d : Daemon) : (outcome (list string) * list string) * Daemon :=
  let '(removed, dirs, runs) := collect_runs threshold (bkeys (dm_runs d)) [] [] (dm_runs d) in
  ((removed, dirs), mkDaemon runs (dm_flags d)).

Definition DAY : Z := 24 * 3600 * 1000000000.

(** [SystemTime::checked_sub]: its seconds are an [i64]. *)
Definition checked_sub (now duration : Z) : option Z :=
  let t := (now - duration)%Z in
  if (- 2 ^ 63 * 1000000000 <=? t)%Z then Some t else None.

(** One entry of the directory of the globals: its path and its name. *)
Definition gc_global (threshold : Z) (removed : list string) (entry : outcome (string * string)) : gc (list string) :=
  '(path, name) ← Ret entry;
  let manifest_path := path_join path "manifest.json" in
  there ← trigger (PathExists manifest_path);
  if negb there then mret removed else
  loaded ← trigger (LoadGlobal manifest_path);
  match loaded with
  | Ok manifest =>
      if negb (bool_decide (pg_state manifest = RunStopped)) then mret removed else
      old ← Ret (stale threshold (pg_stopped_at manifest));
      if old : bool then _ ← trigger (RemoveTree path); mret (removed ++ [to_string_lossy name])
      else mret removed
  | _ => mret removed
  end.

Definition gc_globals (threshold : Z) : gc (list string) :=
  globals_root ← Ret (globals_root base_dir);
  there ← trigger (PathExists globals_root);
  if negb there then mret [] else
  entries ← trigger (ListDir globals_root);
  entries ← Ret entries;
  pfold (gc_global threshold) entries [].

Definition run_gc (older_than : option string) (all : bool) : gc GcResponse :=
  older_than ← Ret (match older_than with
                    | Some text => map_err (fun err => "invalid older_than duration: " +:+ err) (parse_duration text)
                    | None => Ok (7 * DAY)%Z
                    end);
  now ← trigger GcNow;
  threshold ← Ret (ok_or (checked_sub now older_than) "older_than duration is too large");
  '(removed_runs, _) ← trigger (CollectRuns threshold);
  removed_runs ← Ret removed_runs;
  removed_globals ← (if all then gc_globals threshold else mret []);
  _ ← (if bool_decide (removed_runs = []) then mret tt else
       _ ← pforeach (fun run_id => trigger (GcEmit (run_removed_event run_id))) removed_runs;
       _ ← pforeach (fun run_id => trigger (DeleteRunDocs run_id)) removed_runs;
       trigger ForceCompact);
  _ ← trigger WriteDaemonState;
  mret (mkGcResponse removed_runs removed_globals).

(** ** The section *)

(** What the section may remove. *)
Definition collectable (threshold : Z) (runs : RunMap) (run_id : string) : Prop :=
  exists run dir, bget run_id runs = Some run /\ rr_state run = RunStopped /\
    stale threshold (rr_stopped_at run) = Ok true /\ run_dir base_dir run_id = Ok dir.

(** The removed runs and their directories of an outcome of the section. *)
Definition section_removes (threshold : Z) (before after : RunMap) (gone dirs : list string) : Prop :=
  Forall (collectable threshold before) gone /\ Forall2 (fun run_id dir => run_dir base_dir run_id = Ok dir) gone dirs /\
  forall j, bget j after = if bool_decide (j ∈ gone) then None else bget j before.

Lemma removes_nothing threshold runs : section_removes threshold runs runs [] [].
Proof. split; [constructor|split; [constructor|]]. intros j. by rewrite bool_decide_eq_false_2; [|set_solver]. Qed.

Lemma removes_cons threshold run_id dir runs after gone dirs :
  collectable threshold runs run_id -> run_dir base_dir run_id = Ok dir ->
  section_removes threshold (bremove run_id runs) after gone dirs ->
  section_removes threshold runs after (run_id :: gone) (dir :: dirs).
Proof.
  intros Hc Hd (Hg & Hds & Ha). split; [|split; [by constructor|]].
  - constructor; [done|]. eapply Forall_impl; [exact Hg|]. intros j (run & d & Hr & Hs).
    exists run, d. split; [|done]. rewrite bget_bremove in Hr. by destruct (keqb run_id j).
  - intros j. rewrite Ha, bget_bremove. destruct (keqb run_id j) eqn:Hk.
    + apply keqb_true in Hk as ->. repeat case_bool_decide; set_solver.
    + apply keqb_false in Hk. repeat case_bool_decide; set_solver.
Qed.

(** The section over some runs, whatever it had removed before. *)
Definition collects (threshold : Z) (run_ids removed dirs : list string) (runs : RunMap)
    (result : outcome (list string) * list string * RunMap) : Prop :=
  exists gone gone_dirs, section_removes threshold runs result.2 gone gone_dirs /\
    result.1.2 = dirs ++ gone_dirs /\
    ((result.1.1 = Ok (removed ++ gone) /\ forall j, j ∈ run_ids -> collectable threshold runs j -> j ∈ gone) \/
     result.1.1 = Panic).

Lemma collects_kept threshold run_id run_ids removed dirs runs result :
  ~ collectable threshold runs run_id -> collects threshold run_ids removed dirs runs result ->
  collects threshold (run_id :: run_ids) removed dirs runs result.
Proof.
  intros Hn (gone & gone_dirs & Hs & Hd & Ho). exists gone, gone_dirs. split; [done|]. split; [done|].
  destruct Ho as [[Ho Hall]|Ho]; [left|by right]. split; [done|]. intros j [->|Hj]%elem_of_cons; [done|auto].
Qed.

Lemma collects_panic threshold run_ids removed dirs runs :
  collects threshold run_ids removed dirs runs (Panic, dirs, runs).
Proof. exists [], []. rewrite app_nil_r. split; [apply removes_nothing|]. split; [done|by right]. Qed.

Lemma collects_removed threshold run_id dir run_ids removed dirs runs result :
  collectable threshold runs run_id -> run_dir base_dir run_id = Ok dir ->
  collects threshold run_ids (removed ++ [run_id]) (dirs ++ [dir]) (bremove run_id runs) result ->
  collects threshold (run_id :: run_ids) removed dirs runs result.
Proof.
  intros Hc Hdir (gone & gone_dirs & Hs & Hd & Ho). exists (run_id :: gone), (dir :: gone_dirs).
  split; [by apply removes_cons|]. rewrite <- app_assoc in Hd. split; [done|].
  destruct Ho as [[Ho Hall]|Ho]; [left|by right]. rewrite <- app_assoc in Ho. split; [done|].
  intros j Hj Hcj. destruct (decide (j = run_id)) as [->|Hne]; [set_solver|].
  apply elem_of_cons in Hj as [->|Hj]; [done|]. apply elem_of_cons. right. apply Hall; [done|].
  destruct Hcj as (run & d & Hr & Hrest). exists run, d. split; [|done].
  rewrite bget_bremove. by rewrite (proj2 (keqb_false run_id j)).
Qed.

Lemma collect_runs_spec threshold run_ids : forall removed dirs runs,
  collects threshold run_ids removed dirs runs (collect_runs threshold run_ids removed dirs runs).
Proof.
  induction run_ids as [|run_id run_ids IH]; intros removed dirs runs; simpl.
  { exists [], []. simpl. rewrite !app_nil_r. split; [apply removes_nothing|]. split; [done|]. left. set_solver. }
  destruct (bget run_id runs) as [run|] eqn:Hrun; simpl.
  2:{ apply collects_kept; [|apply IH]. intros (r & d & Hr & _). congruence. }
  case_bool_decide as Hst; simpl.
  2:{ apply collects_kept; [|apply IH]. intros (r & d & Hr & ? & _). congruence. }
  destruct (stale threshold (rr_stopped_at run)) as [[]|e| |] eqn:Hold; try apply collects_panic.
  - destruct (run_dir base_dir run_id) as [dir|e| |] eqn:Hdir; try apply collects_panic.
    eapply collects_removed; [by exists run, dir|done|apply IH].
  - apply collects_kept; [|apply IH]. intros (r & d & Hr & _ & ? & _). congruence.
Qed.

(** ** What is seen of the collection *)

Inductive gc_label :=
  | Collected_ (threshold : Z) (removed : outcome (list string))
  | Looked (path : string) (manifest : outcome PersistedGlobal)
  | Cleared (path : string)
  | Told_ (e : DaemonEvent)
  | Forgotten (run_id : string).

Definition gc_observe (e : event GcE) : option gc_label :=
  match e with
  | Ev e r =>
      match e in GcE R return R -> option gc_label with
      | CollectRuns threshold => fun r => Some (Collected_ threshold r.1)
      | LoadGlobal path => fun r => Some (Looked path r)
      | RemoveTree path => fun _ => Some (Cleared path)
      | GcEmit e => fun _ => Some (Told_ e)
      | DeleteRunDocs run_id => fun _ => Some (Forgotten run_id)
      | _ => fun _ => None
      end r
  end.

(** What is done about the globals: a directory goes only after its manifest said that the
    global stopped, long enough ago. *)
Inductive gc_globals_done (threshold : Z) : list gc_label -> Prop :=
  | globals_end : gc_globals_done threshold []
  | globals_kept path manifest l : gc_globals_done threshold l -> gc_globals_done threshold (Looked path manifest :: l)
  | globals_cleared path manifest l :
      pg_state manifest = RunStopped -> stale threshold (pg_stopped_at manifest) = Ok true ->
      gc_globals_done threshold l ->
      gc_globals_done threshold (Looked (path_join path "manifest.json") (Ok manifest) :: Cleared path :: l).

Lemma globals_app threshold l1 l2 :
  gc_globals_done threshold l1 -> gc_globals_done threshold l2 -> gc_globals_done threshold (l1 ++ l2).
Proof. intros H H2. induction H; simpl; [done|by constructor..]. Qed.

Lemma gc_global_done threshold removed entry :
  seen gc_observe (gc_global threshold removed entry) (fun l _ => gc_globals_done threshold l).
Proof.
  destruct entry as [[path name]|e| |]; simpl; try constructor.
  intros []; simpl; [|constructor]. intros [manifest|e| |]; simpl; try (do 2 constructor).
  case_bool_decide as Hst; simpl; [|do 2 constructor].
  destruct (stale threshold (pg_stopped_at manifest)) as [[]|e| |] eqn:Hold; simpl; try (do 2 constructor).
  intros _. by repeat constructor.
Qed.

Lemma gc_globals_seen threshold :
  seen gc_observe (gc_globals threshold) (fun l _ => gc_globals_done threshold l).
Proof.
  unfold gc_globals. destruct (globals_root base_dir) as [root|e| |]; simpl; try constructor.
  intros []; simpl; [|constructor]. intros [entries|e| |]; simpl; try constructor.
  generalize (@nil string) as removed. induction entries as [|entry entries IH]; intros removed; simpl; [constructor|].
  apply seen_bind. eapply seen_mono; [|apply gc_global_done].
  intros l [removed'|e| |] Hl; simpl; try done. eapply seen_mono; [|apply IH].
  intros l2 o Hl2. by apply globals_app.
Qed.

(** A loop whose steps each show one label. *)
Lemma seen_one_each {A} (f : A -> gc unit) (label : A -> gc_label) (l : list A) P :
  (forall a Q, Q [label a] (Ok tt) -> seen gc_observe (f a) Q) ->
  P (map label l) (Ok tt) -> seen gc_observe (pforeach f l) P.
Proof.
  intros Hf. revert P. induction l as [|a l IH]; intros P HP; simpl; [done|].
  apply seen_bind, Hf. apply IH, HP.
Qed.

(** How long something must have stopped to be removed. *)
Definition gc_age (older_than : option string) : outcome Z :=
  match older_than with Some text => parse_duration text | None => Ok (7 * DAY)%Z end.

Definition gc_done (older_than : option string) (all : bool) (l : list gc_label) (o : outcome GcResponse) : Prop :=
  match l with
  | [] => match o with Ok _ => False | _ => True end
  | Collected_ threshold answer :: l =>
      (exists age now, gc_age older_than = Ok age /\ checked_sub now age = Some threshold) /\
      exists globals_part l', l = globals_part ++ l' /\ gc_globals_done threshold globals_part /\
        (all = false -> globals_part = []) /\
        match answer, o with
        | Ok removed, Ok response =>
            gc_removed_runs response = removed /\
            l' = map (fun run_id => Told_ (run_removed_event run_id)) removed ++ map Forgotten removed
        | Ok _, _ => all = true /\ l' = []
        | _, Ok _ => False
        | _, _ => globals_part = [] /\ l' = []
        end
  | _ => False
  end.

(** Collecting garbage removes from the runs exactly those that stopped long enough ago,
    and their directories; every other run stays as it is. The directory of a global goes only
    when all was asked for and its manifest says that it stopped that long ago. Every removed run is told
    and its documents are deleted, once and in order, unless the globals cannot be read; a
    duration that is not understood or reaches too far back changes nothing. *)
Theorem gc_spares_live older_than all :
  (forall threshold d, let '((answer, dirs), d') := collect_section threshold d in
     dm_flags d' = dm_flags d /\
     exists gone, section_removes threshold (dm_runs d) (dm_runs d') gone dirs /\
       (answer = Ok gone /\ (forall run_id, ~ collectable threshold (dm_runs d') run_id) \/ answer = Panic)) /\
  seen gc_observe (run_gc older_than all) (gc_done older_than all).
Proof.
  split.
  - intros threshold d. unfold collect_section.
    pose proof (collect_runs_spec threshold (bkeys (dm_runs d)) [] [] (dm_runs d)) as (gone & gone_dirs & Hs & Hd & Ho).
    destruct (collect_runs _ _ _ _ _) as [[answer dirs] runs]. simpl in *. subst dirs. split; [done|].
    exists gone. split; [done|]. destruct Ho as [[Ho Hall]|Ho]; [left|by right]. split; [done|].
    intros j (run & dir & Hr & Hrest). destruct Hs as (_ & _ & Hs). pose proof (Hs j) as Hj. rewrite Hr in Hj.
    case_bool_decide as Hin; [done|]. apply Hin, Hall; [apply bget_keys; by exists run|]. by exists run, dir.
  - unfold run_gc. apply seen_bind.
    destruct (match older_than with Some _ => _ | None => _ end) as [age|e| |] eqn:Hage; simpl; try done.
    assert (gc_age older_than = Ok age) as Ha.
    { unfold gc_age. destruct older_than; [|done]. by destruct (parse_duration s). }
    intros now. destruct (checked_sub now age) as [threshold|] eqn:Hsub; simpl; [|done].
    intros [[removed|e| |] dirs]; simpl; try (split; [by exists age, now|by exists [], []; repeat constructor]).
    apply seen_bind. eapply (seen_mono _ _ (fun l o => gc_globals_done threshold l /\ (all = false -> l = [] /\ exists g, o = Ok g))).
    2:{ destruct all; [eapply seen_mono; [|apply gc_globals_seen]; by intros|]. simpl. split; [constructor|]. by eauto. }
    intros l [globals|e| |] [Hl Hall];
      try (split; [by exists age, now|exists l, []; rewrite app_nil_r; repeat split; try done; destruct all; try done;
        by destruct Hall as [_ [? ?]]]).
    assert (forall l', l' = map (fun run_id => Told_ (run_removed_event run_id)) removed ++ map Forgotten removed ->
      gc_done older_than all (Collected_ threshold (Ok removed) :: l ++ l') (Ok (mkGcResponse removed globals))) as Hdone.
    { intros l' ->. split; [by exists age, now|]. eexists l, _. repeat split; [done|]. intros ->. by apply Hall. }
    apply seen_bind. case_bool_decide as Hr; simpl.
    + intros r. apply Hdone. by subst.
    + apply seen_bind, seen_one_each with (label := fun run_id => Told_ (run_removed_event run_id)).
      { intros a Q HQ []. exact HQ. }
      apply seen_bind, seen_one_each with (label := Forgotten).
      { intros a Q HQ []. exact HQ. }
      intros [] r. simpl. rewrite !app_nil_r. by apply Hdone.
Qed.
End gc.
