(* ===== verification/LogOpen.v ===== *)
(** * Opening the log index

    Models the opening of [src/infra/logs/index/schema.rs] as a program over the calls it
    makes: the version of the schema, the removal of an index that does not open, the
    creation of a new one, the writer that another process may hold. [LogIngest] says what
    an index holds as long as it and the file of its cursors go together; here it is shown
    that no opening, wherever it fails or stops, takes one without the other, unless the file
    of the cursors is there and cannot be read. *)

From stdpp Require Import gmap.
From S2P Require Import Prelude Bytes BMap Util Json Program LogIndex LogText LogCommit LogIngest.
From Stdlib Require Import Lia ZArith.

Definition CURRENT_SCHEMA_VERSION : string := "6".

(** ** The schema *)

Inductive FieldOption := STRING | STORED | FAST | INDEXED | TEXT.

Inductive FieldType :=
  | TextField (options : list FieldOption)
  | I64Field (options : list FieldOption)
  | U64Field (options : list FieldOption)
  | JsonField (options : list FieldOption).

(** The fields in order; a field is known by its place. *)
Definition Schema : Type := list (string * FieldType).

Record LogIndexFields := mkLogIndexFields {
  fi_run_id : nat;
  fi_service : nat;
  fi_stream : nat;
  fi_level : nat;
  fi_ts_nanos : nat;
  fi_ts : nat;
  fi_seq : nat;
  fi_message : nat;
  fi_raw : nat;
  fi_attrs : nat;
}.

Definition build_schema : Schema := [
  ("run_id", TextField [STRING; STORED; FAST]);
  ("service", TextField [STRING; STORED; FAST]);
  ("stream", TextField [STRING; STORED; FAST]);
  ("level", TextField [STRING; STORED; FAST]);
  ("ts_nanos", I64Field [INDEXED; FAST; STORED]);
  ("ts", TextField [STORED]);
  ("seq", U64Field [INDEXED; FAST; STORED]);
  ("message", TextField [TEXT; STORED]);
  ("raw", TextField [STORED]);
  ("attrs", JsonField [STORED; FAST])].

(** [Schema::get_field] *)
Fixpoint get_field (name : string) (schema : Schema) : option nat :=
  match schema with
  | [] => None
  | (field, _) :: schema => if bool_decide (field = name) then Some 0 else S <$> get_field name schema
  end.

Definition resolve_field (schema : Schema) (name : string) : outcome nat :=
  ok_or (get_field name schema) ("tantivy schema missing field " +:+ name).

Definition resolve_fields (schema : Schema) : outcome LogIndexFields :=
  run_id ← resolve_field schema "run_id";
  service ← resolve_field schema "service";
  stream ← resolve_field schema "stream";
  level ← resolve_field schema "level";
  ts_nanos ← resolve_field schema "ts_nanos";
  ts ← resolve_field schema "ts";
  seq ← resolve_field schema "seq";
  message ← resolve_field schema "message";
  raw ← resolve_field schema "raw";
  attrs ← resolve_field schema "attrs";
  Ok (mkLogIndexFields run_id service stream level ts_nanos ts seq message raw attrs).

(** A new index has every field. *)
Lemma built_schema_resolves :
  resolve_fields build_schema = Ok (mkLogIndexFields 0 1 2 3 4 5 6 7 8 9).
Proof. reflexivity. Qed.

(** ** The program *)

Inductive OpenE : Type -> Type :=
  | ReadVersion (path : string) : OpenE (outcome string)
  | PathExists (path : string) : OpenE bool
  | RemoveTree (path : string) : OpenE (outcome unit)
  | RemoveFile (path : string) : OpenE (outcome unit)
  | CreateDirs (path : string) : OpenE (outcome unit)
  | OpenInDir (path : string) : OpenE (outcome Schema)
  | CreateInDir (path : string) (schema : Schema) : OpenE (outcome Schema)
  | AtomicWrite (path text : string) : OpenE (outcome unit)
  | BuildReader : OpenE (outcome unit)
  | OpenWriter : OpenE (outcome unit)
  | Sleep (milliseconds : Z) : OpenE unit
  | ReadState (path : string) : OpenE (outcome bytes).

Abbreviation opening := (prog OpenE).

(** The new index in memory, as far as the files tell: its fields and its cursors. *)
Record Opened := mkOpened { op_fields : LogIndexFields; op_ingest : IngestStateFile }.

Section open.
Context `{StateCodec}.

Definition schema_version_path (index_dir : string) : string := path_join index_dir "schema_version".

Definition reset_index_storage (index_dir ingest_state_path : string) : opening unit :=
  there ← trigger (PathExists index_dir);
  _ ← (if there : bool then try_trigger (RemoveTree index_dir) else mret tt);
  there ← trigger (PathExists ingest_state_path);
  if there : bool then try_trigger (RemoveFile ingest_state_path) else mret tt.

Definition reset_for_schema_version (index_dir ingest_state_path : string) : opening unit :=
  version ← trigger (ReadVersion (schema_version_path index_dir));
  let version_matches := match version with
                         | Ok version => bool_decide (str_trim version = CURRENT_SCHEMA_VERSION)
                         | _ => false
                         end in
  if version_matches then mret tt else reset_index_storage index_dir ingest_state_path.

Definition open_or_create_tantivy_index (index_dir : string) : opening Schema :=
  _ ← try_trigger (CreateDirs index_dir);
  opened ← trigger (OpenInDir index_dir);
  index ← match opened with
          | Ok index => mret index
          | _ =>
              _ ← reset_index_storage index_dir (path_join index_dir "ingest_state.json");
              _ ← try_trigger (CreateDirs index_dir);
              try_trigger (CreateInDir index_dir build_schema)
          end;
  _ ← try_trigger (AtomicWrite (schema_version_path index_dir) CURRENT_SCHEMA_VERSION);
  mret index.

(** [retries] attempts may still follow this one. *)
Fixpoint writer_attempts (retries : nat) (attempt : Z) : opening unit :=
  r ← trigger OpenWriter;
  match r, retries with
  | Err err, S retries =>
      if contains_sub "LockBusy" err then
        let attempt := (attempt + 1)%Z in
        _ ← trigger (Sleep (10 * attempt));
        writer_attempts retries attempt
      else Ret (Err err)
  | r, _ => Ret r
  end.

Definition open_writer_with_retry : opening unit := writer_attempts 5 0.

Definition open_from_tantivy_index (ingest_state_path : string) (schema : Schema) : opening Opened :=
  fields ← Ret (resolve_fields schema);
  _ ← try_trigger BuildReader;
  _ ← open_writer_with_retry;
  there ← trigger (PathExists ingest_state_path);
  if there : bool then
    data ← trigger (ReadState ingest_state_path);
    let data := match data with Ok data => data | _ => [] end in
    mret (mkOpened fields (default ingest_state_default (state_from_slice data)))
  else mret (mkOpened fields ingest_state_default).

Definition open_or_create_at (index_dir ingest_state_path : string) : opening Opened :=
  _ ← reset_for_schema_version index_dir ingest_state_path;
  index ← open_or_create_tantivy_index index_dir;
  opened ← attempt (open_from_tantivy_index ingest_state_path index);
  match opened with
  | Ok index => mret index
  | _ =>
      _ ← reset_index_storage index_dir ingest_state_path;
      index ← open_or_create_tantivy_index index_dir;
      open_from_tantivy_index ingest_state_path index
  end.

Section base.
Context (base_dir : outcome string).

Definition logs_index_dir : outcome string := d ← base_dir; mret (path_join d "logs_index").
Definition logs_ingest_state_path : outcome string := d ← logs_index_dir; mret (path_join d "ingest_state.json").

Definition create_dir_all (path : outcome string) : opening unit :=
  path ← Ret path; try_trigger (CreateDirs path).

Definition ensure_base_layout : opening unit :=
  _ ← create_dir_all (d ← base_dir; mret (path_join d "daemon"));
  _ ← create_dir_all (runs_dir base_dir);
  _ ← create_dir_all (globals_root base_dir);
  _ ← create_dir_all (d ← base_dir; mret (path_join d "task-logs"));
  _ ← create_dir_all (d ← base_dir; mret (path_join d "dashboard"));
  create_dir_all logs_index_dir.

Definition open_or_create : opening Opened :=
  _ ← ensure_base_layout;
  index_dir ← Ret logs_index_dir;
  ingest_state_path ← Ret logs_ingest_state_path;
  open_or_create_at index_dir ingest_state_path.
End base.
End open.

(** ** The files *)

Section files.
Context `{SearchIndex} `{StateCodec}.

(** The directory of the index: its version, the index in it if it opens - its schema and
    its documents - and the file of the cursors. *)
Record Disk := mkDisk {
  dk_dir : bool;
  dk_version : option string;
  dk_index : option (Schema * writer);
  dk_saved : option bytes;
}.

Definition no_files : Disk := mkDisk false None None None.

(** Nothing is in a directory that is not there. *)
Definition disk_ok (d : Disk) : Prop := dk_dir d = false -> d = no_files.

(** An index as it is created. *)
Definition fresh (index : Schema * writer) : Prop :=
  index.1 = build_schema /\ committed index.2 = [] /\ outlook index.2 = [].

(** What a removal that stops midway leaves: an index that misses a file does not open. *)
Definition remains (d d' : Disk) : Prop :=
  d' = no_files \/
  dk_dir d' = dk_dir d /\ (dk_version d' = dk_version d \/ dk_version d' = None) /\
  (dk_index d' = dk_index d \/ dk_index d' = None) /\ (dk_saved d' = dk_saved d \/ dk_saved d' = None).

Context (index_dir : string).

Definition state_path : string := path_join index_dir "ingest_state.json".

Definition with_dir (d : Disk) : Disk := mkDisk true (dk_version d) (dk_index d) (dk_saved d).

(** What a call may answer, and what it leaves. *)
Definition disk_step (R : Type) (e : OpenE R) (d : Disk) : R -> Disk -> Prop :=
  match e in OpenE R return R -> Disk -> Prop with
  | ReadVersion _ => fun r d' => d' = d /\ forall v, r = Ok v -> dk_version d = Some v
  | PathExists p => fun r d' => d' = d /\ (p = index_dir -> r = dk_dir d) /\
      (p = state_path -> r = bool_decide (is_Some (dk_saved d)))
  | RemoveTree _ => fun r d' => (r = Ok tt /\ d' = no_files) \/ (r <> Ok tt /\ remains d d')
  | RemoveFile _ => fun r d' =>
      (r = Ok tt /\ d' = mkDisk (dk_dir d) (dk_version d) (dk_index d) None) \/ (r <> Ok tt /\ d' = d)
  | CreateDirs _ => fun r d' => (r = Ok tt /\ d' = with_dir d) \/ (r <> Ok tt /\ (d' = d \/ d' = with_dir d))
  | OpenInDir _ => fun r d' => d' = d /\ forall schema, r = Ok schema -> exists w, dk_index d = Some (schema, w)
  | CreateInDir _ schema => fun r d' => exists index, d' = mkDisk (dk_dir d) (dk_version d) index (dk_saved d) /\
      match r with
      | Ok schema' => schema' = schema /\ exists w, index = Some (schema, w) /\ committed w = [] /\ outlook w = []
      | _ => index = dk_index d \/ index = None \/ exists w, index = Some (schema, w) /\ committed w = [] /\ outlook w = []
      end
  | AtomicWrite _ text => fun r d' =>
      (r = Ok tt /\ d' = mkDisk true (Some text) (dk_index d) (dk_saved d)) \/
      (r <> Ok tt /\ (d' = d \/ d' = with_dir d))
  | BuildReader | OpenWriter => fun _ d' => d' = d
  | Sleep _ => fun _ d' => d' = d
  | ReadState _ => fun r d' => d' = d /\ forall data, r = Ok data -> dk_saved d = Some data
  end.

(** ** What holds all the way *)

(** The program from [d] on: every state satisfies [I], and every result [Q]. *)
Fixpoint along {A} (I : Disk -> Prop) (p : opening A) (Q : outcome A -> Disk -> Prop) (d : Disk) : Prop :=
  I d /\ match p with
         | Ret o => Q o d
         | Vis e k => forall r d', disk_step _ e d r d' -> along I (k r) Q d'
         end.

(** The states in which the program may be stopped. *)
Fixpoint reaches {A} (p : opening A) (d d' : Disk) : Prop :=
  d' = d \/ match p with
            | Ret _ => False
            | Vis e k => exists r d1, disk_step _ e d r d1 /\ reaches (k r) d1 d'
            end.

Lemma along_reaches {A} I (p : opening A) Q d d' : along I p Q d -> reaches p d d' -> I d'.
Proof.
  revert d. induction p as [o|R e k IH]; intros d; simpl.
  - by intros [HI _] [->|[]].
  - intros [HI Hk] [->|(r & d1 & Hs & Hr)]; [done|]. eapply IH; [by apply Hk|done].
Qed.

Lemma along_runs {A} I (p : opening A) Q d t o d' :
  along I p Q d -> runs disk_step eq p d t o d' -> Q o d'.
Proof.
  revert d t. induction p as [r|R e k IH]; intros d t; simpl.
  - by intros [_ HQ] (_ & -> & ->).
  - intros [_ Hk] (s1 & r & s2 & t2 & <- & Hs & _ & Hr). eapply IH; [by apply Hk|done].
Qed.

Lemma along_mono {A} (I : Disk -> Prop) (p : opening A) (Q Q' : outcome A -> Disk -> Prop) d :
  (forall o d', I d' -> Q o d' -> Q' o d') -> along I p Q d -> along I p Q' d.
Proof.
  intros HQ. revert d. induction p as [o|R e k IH]; intros d; simpl; [intros []; auto|].
  intros [HI Hk]. split; [done|]. intros r d' Hs. by apply IH, Hk.
Qed.

Lemma along_bind {A B} I (p : opening A) (f : A -> opening B) Q d :
  along I p (fun o d' => match o with
                         | Ok a => along I (f a) Q d'
                         | Err e => Q (Err e) d'
                         | Panic => Q Panic d'
                         | OutOfFuel => Q OutOfFuel d'
                         end) d -> along I (p ≫= f) Q d.
Proof.
  revert d. induction p as [[a|e| |]|R e k IH]; intros d; simpl; try done.
  - by intros [_ ?].
  - intros [HI Hk]. split; [done|]. intros r d' Hs. by apply IH, Hk.
Qed.

Lemma along_attempt {A} I (p : opening A) Q d :
  along I p (fun o d' => match o with
                         | Panic => Q Panic d'
                         | OutOfFuel => Q OutOfFuel d'
                         | _ => Q (Ok o) d'
                         end) d -> along I (attempt p) Q d.
Proof.
  revert d. induction p as [[a|e| |]|R e k IH]; intros d; simpl; try done.
  intros [HI Hk]. split; [done|]. intros r d' Hs. by apply IH, Hk.
Qed.

(** *** The parts of the opening *)

Definition is_current (d : Disk) : Prop := exists v, dk_version d = Some v /\ str_trim v = CURRENT_SCHEMA_VERSION.

(** What is there came from the beginning, with the cursors that were there or without, or
    is new and has none; a version that is current was so then. *)
Definition settled (d0 d : Disk) : Prop :=
  disk_ok d /\ forall index, dk_index d = Some index ->
    (dk_index d0 = Some index /\ (dk_saved d = dk_saved d0 \/ dk_saved d = None) /\ (is_current d -> is_current d0)) \/
    (fresh index /\ dk_saved d = None).

(** The index in the directory may be opened. *)
Definition openable (d : Disk) : Prop :=
  forall index, dk_index d = Some index -> is_current d \/ (fresh index /\ dk_saved d = None).

Context (d0 : Disk) (Hd0 : disk_ok d0).

Lemma settled_start : settled d0 d0.
Proof. split; [done|]. intros index Hi. left. auto. Qed.

Lemma settled_none : settled d0 no_files.
Proof. by split. Qed.

Lemma settled_remains d d' : settled d0 d -> remains d d' -> settled d0 d'.
Proof.
  intros [Hok Hs] [->|(Hdir & Hv & Hi & Hsv)]; [apply settled_none|]. split.
  - intros Hf. rewrite Hdir in Hf. rewrite (Hok Hf) in *. destruct d' as [? ? ? ?]. simpl in *. subst.
    destruct Hv, Hi, Hsv; by subst.
  - intros index Hx. destruct Hi as [Hi|Hi]; [|congruence]. rewrite Hi in Hx.
    destruct (Hs index Hx) as [(H1 & H2 & H3)|[H1 H2]].
    + left. split; [done|]. split; [destruct Hsv; destruct H2; [left|right|right|right]; congruence|].
      intros (v & Hv' & Ht). apply H3. exists v. destruct Hv; [split; congruence|congruence].
    + right. split; [done|]. destruct Hsv; congruence.
Qed.

Lemma settled_with_dir d : settled d0 d -> settled d0 (with_dir d).
Proof. by intros [Hok Hs]. Qed.

Lemma reset_along Q d :
  settled d0 d -> (Q (Ok tt) no_files) -> (forall o d', o <> Ok tt -> settled d0 d' -> Q o d') ->
  along (settled d0) (reset_index_storage index_dir state_path) Q d.
Proof.
  intros Hd Hok Herr. unfold reset_index_storage. cbn. split; [done|]. intros there d1 (-> & Hdir & _).
  rewrite (Hdir eq_refl). destruct (dk_dir d) eqn:Hd1.
  - cbn. split; [done|]. intros r d1 [[-> ->]|[Hr Hrem]].
    + cbn. split; [apply settled_none|]. intros there2 d2 (-> & _ & Hsv). rewrite (Hsv eq_refl).
      cbn. split; [apply settled_none|done].
    + pose proof (settled_remains _ _ Hd Hrem) as Hs.
      destruct r as [[]|e| |]; [done|..]; cbn; (split; [done|]; by apply Herr).
  - assert (d = no_files) as -> by by apply Hd. cbn. split; [apply settled_none|].
    intros there2 d2 (-> & _ & Hsv). rewrite (Hsv eq_refl). cbn. by split; [apply settled_none|].
Qed.

Lemma version_along Q d :
  settled d0 d -> (forall d', settled d0 d' -> openable d' -> Q (Ok tt) d') ->
  (forall o d', o <> Ok tt -> settled d0 d' -> Q o d') ->
  along (settled d0) (reset_for_schema_version index_dir state_path) Q d.
Proof.
  intros Hd Hok Herr. unfold reset_for_schema_version. split; [done|]. intros r d1 [-> Hv].
  cbv beta zeta. cbn [mbind prog_bind trigger].
  destruct r as [version|e| |]; try case_bool_decide;
    try (apply reset_along; [done| |done]; apply Hok; [apply settled_none|by intros [? ?]]).
  cbn. split; [done|]. apply Hok; [done|]. intros index _. left. exists version. auto.
Qed.

(** An index that may be used. *)
Definition ready_index (schema : Schema) (d : Disk) : Prop :=
  settled d0 d /\ is_current d /\ exists w, dk_index d = Some (schema, w).

Lemma write_along Q d schema :
  settled d0 d -> openable d -> (exists w, dk_index d = Some (schema, w)) ->
  (forall d', ready_index schema d' -> Q (Ok schema) d') ->
  (forall o d', (forall schema, o <> Ok schema) -> settled d0 d' -> Q o d') ->
  along (settled d0) (_ ← try_trigger (AtomicWrite (schema_version_path index_dir) CURRENT_SCHEMA_VERSION);
    mret schema) Q d.
Proof.
  intros Hd Hopen [w Hw] Hok Herr. cbn. split; [done|].
  intros r d' [[-> ->]|[Hr Hd']].
  - assert (settled d0 (mkDisk true (Some CURRENT_SCHEMA_VERSION) (dk_index d) (dk_saved d))) as Hs.
    { split; [done|]. simpl. intros index Hi. destruct Hd as [_ Hs].
      destruct (Hopen index Hi) as [Hc|?]; [|by right]. destruct (Hs index Hi) as [(? & ? & H3)|?]; [left|by right].
      split; [done|]. split; [done|]. intros _. by apply H3. }
    cbn. split; [done|]. apply Hok. split; [done|]. split; [by exists CURRENT_SCHEMA_VERSION|by exists w].
  - assert (settled d0 d') as Hs by (destruct Hd' as [->| ->]; [done|by apply settled_with_dir]).
    destruct r as [[]|e| |]; [done|..]; cbn; (split; [done|]; by apply Herr).
Qed.

Lemma create_along Q d :
  settled d0 d -> (forall schema d', ready_index schema d' -> Q (Ok schema) d') ->
  (forall o d', (forall schema, o <> Ok schema) -> settled d0 d' -> Q o d') ->
  along (settled d0) (index ← (_ ← reset_index_storage index_dir (path_join index_dir "ingest_state.json");
                               _ ← try_trigger (CreateDirs index_dir);
                               try_trigger (CreateInDir index_dir build_schema));
    _ ← try_trigger (AtomicWrite (schema_version_path index_dir) CURRENT_SCHEMA_VERSION); mret index) Q d.
Proof.
  intros Hd Hok Herr. apply along_bind, along_bind, reset_along; [done| |].
  2:{ intros [[]|e| |] d' Ho Hs; [done|..]; by apply Herr. }
  cbn. split; [apply settled_none|]. intros r d1 Hd1.
  assert (settled d0 d1) as Hs1.
  { destruct Hd1 as [[_ ->]|[_ [->| ->]]]; try apply settled_none; apply settled_with_dir, settled_none. }
  destruct Hd1 as [[-> ->]|[Hr _]].
  2:{ destruct r as [[]|e| |]; [done|..]; cbn; (split; [done|]; by apply Herr). }
  cbn. split; [done|]. intros r d1 (index & -> & Hr).
  assert (settled d0 (mkDisk true None index None)) as Hs2.
  { split; [done|]. simpl. intros i Hi. right. subst index. split; [|done].
    destruct r as [schema|e| |]; (destruct Hr as [-> (w & [= ->] & ? & ?)] || destruct Hr as [Hr|[Hr|(w & [= ->] & ? & ?)]]); done. }
  destruct r as [schema|e| |]; try (cbn; split; [done|]; by apply Herr).
  destruct Hr as [-> (w & -> & HC & HO)]. cbn [mbind prog_bind try_trigger].
  split; [done|]. apply (write_along Q); [done| |by exists w|apply Hok|done].
  intros index [= <-]. right. by split.
Qed.

Lemma tantivy_along Q d :
  settled d0 d -> openable d -> (forall schema d', ready_index schema d' -> Q (Ok schema) d') ->
  (forall o d', (forall schema, o <> Ok schema) -> settled d0 d' -> Q o d') ->
  along (settled d0) (open_or_create_tantivy_index index_dir) Q d.
Proof.
  intros Hd Hopen Hok Herr. unfold open_or_create_tantivy_index. split; [done|]. intros r d1 Hd1.
  assert (settled d0 d1 /\ openable d1) as [Hs1 Ho1].
  { destruct Hd1 as [[_ ->]|[_ [->| ->]]]; (split; [done || by apply settled_with_dir|done]). }
  destruct r as [[]|e| |]; try (split; [done|]; by apply Herr).
  split; [done|]. intros opened d2 [-> Hw].
  destruct opened as [schema|e| |]; try by apply create_along.
  apply (write_along Q); [done|done|by apply Hw|apply Hok|done].
Qed.

Lemma writer_along (I : Disk -> Prop) Q retries attempt d :
  I d -> (forall o, Q o d) -> along I (writer_attempts retries attempt) Q d.
Proof.
  revert attempt. induction retries as [|retries IH]; intros attempt HI HQ; (split; [done|]); intros r d1 ->;
    destruct r as [[]|e| |]; cbn [mbind prog_bind trigger]; try done.
  destruct (contains_sub "LockBusy" e); [|done]. split; [done|]. intros [] d1 ->. by apply IH.
Qed.

(** What the new process takes for the cursors. *)
Definition unread : IngestStateFile := default ingest_state_default (state_from_slice []).

Definition opened_as (schema : Schema) (o : outcome Opened) (d : Disk) : Prop :=
  match o with
  | Ok opened => resolve_fields schema = Ok (op_fields opened)
  | _ => True
  end.

Lemma opened_along (I : Disk -> Prop) schema d :
  I d -> along I (open_from_tantivy_index state_path schema) (fun o d' => d' = d /\ opened_as schema o d) d.
Proof.
  intros HI. unfold open_from_tantivy_index.
  destruct (resolve_fields schema) as [fields|e| |] eqn:Hf; try by split.
  split; [done|]. intros r d1 ->. destruct r as [[]|e| |]; try by split.
  apply along_bind, writer_along; [done|]. intros [[]|e| |]; try by split.
  split; [done|]. intros there d1 (-> & _ & Hsv). rewrite (Hsv eq_refl).
  case_bool_decide as Hs; cbn; [|by split_and!]. split; [done|]. by intros data d1 [-> Hdata].
Qed.

(** The result of an opening. *)
Definition opened_well (o : outcome Opened) (d : Disk) : Prop :=
  settled d0 d /\ match o with
                  | Ok _ => exists schema, ready_index schema d /\ opened_as schema o d
                  | _ => True
                  end.

Lemma open_along d : settled d0 d -> along (settled d0) (open_or_create_at index_dir state_path) opened_well d.
Proof.
  intros Hd. unfold open_or_create_at. apply along_bind, version_along; [done| |].
  2:{ intros [[]|e| |] d' Ho Hs; [done|..]; by split. }
  intros d1 Hs1 Ho1. apply along_bind, tantivy_along; [done|done| |].
  2:{ intros [schema|e| |] d' Ho Hs; [by destruct (Ho schema)|..]; by split. }
  intros schema d2 Hready. assert (settled d0 d2) as Hs2 by apply Hready.
  apply along_bind, along_attempt. eapply along_mono; [|by apply opened_along].
  intros o d3 _ [-> Hop].
  assert (along (settled d0) (_ ← reset_index_storage index_dir state_path;
      index ← open_or_create_tantivy_index index_dir; open_from_tantivy_index state_path index) opened_well d2) as Hagain.
  { apply along_bind, reset_along; [done| |].
    2:{ intros [[]|e'| |] d' Ho Hs; [done|..]; by split. }
    apply along_bind, tantivy_along; [apply settled_none|done| |].
    2:{ intros [s|e'| |] d' Ho Hs; [by destruct (Ho s)|..]; by split. }
    intros schema2 d3 Hready2. assert (settled d0 d3) as Hs3 by apply Hready2.
    eapply along_mono; [|by apply opened_along]. intros o' d4 _ [-> Hop'].
    split; [done|]. destruct o'; [|done..]. by exists schema2. }
  destruct o as [opened|e| |]; [|exact Hagain|by split|by split].
  split; [done|]. split; [done|]. by exists schema.
Qed.

(** *** The cursors that are taken *)

(** The file of the cursors was there and was not read. *)
Definition state_unread (ev : event OpenE) : Prop :=
  match ev with
  | Ev e r =>
      match e in OpenE R return R -> Prop with
      | ReadState _ => fun r => forall data, r <> Ok data
      | _ => fun _ => False
      end r
  end.

Lemma runs_bind_ok {A B} (p : opening A) (f : A -> opening B) d t b d' :
  runs disk_step eq (p ≫= f) d t (Ok b) d' ->
  exists t1 a d1 t2, t = t1 ++ t2 /\ runs disk_step eq p d t1 (Ok a) d1 /\
    runs disk_step eq (f a) d1 t2 (Ok b) d'.
Proof.
  revert d t. induction p as [[a|e| |]|R e k IH]; intros d t; simpl; try by intros (_ & ? & _).
  - intros Hr. by exists [], a, d, t.
  - intros (s1 & r & s2 & t2 & Ho & Hs & -> & Hr).
    apply IH in Hr as (t1 & a & d1 & t3 & -> & H1 & H2).
    exists (Ev e r :: t1), a, d1, t3. split_and!; [done| |done]. by exists s1, r, s2, t1.
Qed.

Lemma runs_attempt_ok {A} (p : opening A) d t o d' :
  runs disk_step eq (attempt p) d t (Ok o) d' -> runs disk_step eq p d t o d'.
Proof.
  revert d t. induction p as [[a|e| |]|R e k IH]; intros d t; simpl; try (by intros (-> & [= ->] & ->)); try by intros (_ & ? & _).
  intros (s1 & r & s2 & t2 & Ho & Hs & -> & Hr). exists s1, r, s2, t2. split_and!; [done..|]. by apply IH.
Qed.

(** The cursors are those of the file, unless it is there and reading it failed. *)
Lemma cursors_taken schema d t opened d' :
  runs disk_step eq (open_from_tantivy_index state_path schema) d t (Ok opened) d' ->
  op_ingest opened = saved_ingest (dk_saved d') \/ op_ingest opened = unread /\ Exists state_unread t.
Proof.
  unfold open_from_tantivy_index.
  intros (t1 & fields & d1 & t2 & -> & _ & Hr)%runs_bind_ok.
  apply runs_bind_ok in Hr as (t3 & [] & d2 & t4 & -> & _ & Hr).
  apply runs_bind_ok in Hr as (t5 & [] & d3 & t6 & -> & _ & Hr).
  destruct Hr as (s1 & there & s2 & t7 & <- & (-> & _ & Hsv) & -> & Hr). rewrite (Hsv eq_refl) in Hr.
  case_bool_decide as Hs; cbn in Hr.
  - destruct Hr as (s1 & data & s2 & t8 & <- & [-> Hdata] & -> & _ & [= ->] & ->). cbn.
    destruct data as [data|e| |]; [left; by rewrite (Hdata data eq_refl)|right..];
      (split; [done|]); rewrite !Exists_app; right; right; right; apply Exists_cons_tl, Exists_cons_hd; by intros ?.
  - destruct Hr as (_ & [= ->] & ->). left. cbn. destruct (dk_saved d3); [by destruct Hs|done].
Qed.

Lemma opening_cursors d t opened d' :
  runs disk_step eq (open_or_create_at index_dir state_path) d t (Ok opened) d' ->
  op_ingest opened = saved_ingest (dk_saved d') \/ op_ingest opened = unread /\ Exists state_unread t.
Proof.
  unfold open_or_create_at. intros (t1 & [] & d1 & t2 & -> & _ & Hr)%runs_bind_ok.
  apply runs_bind_ok in Hr as (t3 & schema & d2 & t4 & -> & _ & Hr).
  apply runs_bind_ok in Hr as (t5 & o & d3 & t6 & -> & Ho & Hr). apply runs_attempt_ok in Ho.
  destruct o as [index|e| |].
  - destruct Hr as (-> & [= <-] & ->). rewrite !Exists_app. destruct (cursors_taken _ _ _ _ _ Ho); tauto.
  - apply runs_bind_ok in Hr as (t7 & [] & d4 & t8 & -> & _ & Hr).
    apply runs_bind_ok in Hr as (t9 & schema2 & d5 & t10 & -> & _ & Hr).
    rewrite !Exists_app. destruct (cursors_taken _ _ _ _ _ Hr); tauto.
  - apply runs_bind_ok in Hr as (t7 & [] & d4 & t8 & -> & _ & Hr).
    apply runs_bind_ok in Hr as (t9 & schema2 & d5 & t10 & -> & _ & Hr).
    rewrite !Exists_app. destruct (cursors_taken _ _ _ _ _ Hr); tauto.
  - apply runs_bind_ok in Hr as (t7 & [] & d4 & t8 & -> & _ & Hr).
    apply runs_bind_ok in Hr as (t9 & schema2 & d5 & t10 & -> & _ & Hr).
    rewrite !Exists_app. destruct (cursors_taken _ _ _ _ _ Hr); tauto.
Qed.

Lemma openings_settled d d' :
  settled d0 d -> rtc (reaches (open_or_create_at index_dir state_path)) d d' -> settled d0 d'.
Proof.
  intros Hd. induction 1 as [|d1 d2 d3 Hr _ IH]; [done|]. apply IH. by eapply along_reaches; [apply open_along|].
Qed.
End files.

(** A call that works; an index that is there opens when the call works. *)
Definition works (ev : event OpenE) : Prop :=
  match ev with
  | Ev e r =>
      match e in OpenE R return R -> Prop with
      | ReadVersion _ => fun r => exists v, r = Ok v
      | RemoveTree _ | RemoveFile _ | CreateDirs _ | AtomicWrite _ _ | BuildReader | OpenWriter => fun r => r = Ok tt
      | OpenInDir _ | CreateInDir _ _ => fun r => exists schema, r = Ok schema
      | ReadState _ => fun r => exists data, r = Ok data
      | PathExists _ | Sleep _ => fun _ => True
      end r
  end.

Section sound.
Context `{Json} `{SearchIndexLaws} `{StateCodecLaws} {Response : Type}.
Context (unicode_digit : bytes -> bool) (parse_rfc3339 : string -> option Z) (oldest : Z).
Context (universe : list LogSource) (index_dir : string).

Abbreviation history := (history (Response := Response) unicode_digit parse_rfc3339 oldest universe).
Abbreviation open_at := (open_or_create_at index_dir (state_path index_dir)).

(** The index in the directory with the cursors of its file, and as a process has it that
    opened it. *)
Definition files_state (w : writer) (saved : option bytes) (n : nat) : LogIndex (Response := Response) :=
  mkLogIndex (open_index w) (saved_ingest saved) saved [] n.

Definition opened_state (w : writer) (opened : Opened) (saved : option bytes) (n : nat)
    : LogIndex (Response := Response) :=
  mkLogIndex (open_index w) (op_ingest opened) saved [] n.

Lemma kept_history logs (st : LogIndex) saved :
  history logs st -> saved = lx_saved st \/ saved = None ->
  exists n, history logs (files_state (lx_writer st) saved n).
Proof.
  intros Hh [->| ->]; exists (lx_commits st).
  - pose proof (history_restart _ _ _ _ _ _ Hh) as Hr. by destruct st as [w i []].
  - exact (history_restart _ _ _ _ _ _ (history_forgotten _ _ _ _ _ _ Hh)).
Qed.

Lemma fresh_history logs schema w : fresh (schema, w) -> history logs (files_state w None 0).
Proof.
  intros (_ & HC & _). simpl in HC. destruct (open_index_law w) as [HoC HoO]. rewrite HC in HoC, HoO.
  apply history_start; [by apply Permutation_nil_r in HoC|by apply Permutation_nil_r in HoO|done|done].
Qed.

(** C31: The index and its cursors stay together. Whatever happened to an index, and however
    often its opening was tried before - failing at any call or stopped at any point, in the
    middle of a removal too - an opening that succeeds finds it at the current version of the
    schema with every field, and finds either the documents that were there, if they were of
    that version, with their cursors or without any, or a new index without documents and
    cursors. The process starts from the cursors of the file, so that it goes on as the
    history of the index says, with all that ingestion needs to index every line once - unless
    the file is there and reading it fails: then it starts without cursors. *)
Theorem opened_index_sound logs (st : LogIndex) schema0 d0 d t opened d' :
  history logs st ->
  disk_ok d0 -> dk_index d0 = Some (schema0, lx_writer st) -> dk_saved d0 = lx_saved st ->
  rtc (reaches index_dir open_at) d0 d ->
  runs (disk_step index_dir) eq open_at d t (Ok opened) d' ->
  is_current d' /\
  exists schema w, dk_index d' = Some (schema, w) /\ resolve_fields schema = Ok (op_fields opened) /\
    (schema = schema0 /\ w = lx_writer st /\ is_current d0 \/ fresh (schema, w) /\ dk_saved d' = None) /\
    exists n, history logs (files_state w (dk_saved d') n) /\
      (opened_state w opened (dk_saved d') n = files_state w (dk_saved d') n \/
       op_ingest opened = unread /\ Exists state_unread t).
Proof.
  intros Hh Hok Hi Hsv Hr Hruns.
  pose proof (openings_settled index_dir d0 d0 d (settled_start d0 Hok) Hr) as Hs.
  destruct (along_runs _ _ _ _ _ _ _ _ (open_along index_dir d0 d Hs) Hruns)
    as [[_ Hd'] (schema & (_ & Hc & w & Hw) & Hf)].
  split; [done|]. exists schema, w. split; [done|]. split; [done|].
  assert (forall n, opened_state w opened (dk_saved d') n = files_state w (dk_saved d') n \/
            op_ingest opened = unread /\ Exists state_unread t) as Htaken.
  { intros n. unfold opened_state, files_state.
    destruct (opening_cursors _ _ _ _ _ Hruns) as [->|Hu]; [by left|by right]. }
  destruct (Hd' _ Hw) as [(Hidx & Hsaved & Hcur)|[Hfr Hn]].
  - rewrite Hi in Hidx. injection Hidx as <- <-. rewrite Hsv in Hsaved. split; [left; auto|].
    destruct (kept_history logs st (dk_saved d') Hh Hsaved) as [n Hn]. by exists n.
  - split; [by right|]. exists 0. split; [rewrite Hn; by eapply fresh_history|done].
Qed.

(** One call of a run that works. *)
Ltac run_step Hr Hw r Hs Hworks :=
  let d1 := fresh "d" in let t2 := fresh "t" in
  destruct Hr as (? & r & d1 & t2 & <- & Hs & -> & Hr);
  apply Forall_cons in Hw as [Hworks Hw]; cbn [works disk_step] in Hs, Hworks;
  cbn [mbind prog_bind] in Hr.

(** When every call works, an index of the current version is opened as it is, with the
    cursors of its file. *)
Lemma working_opening_keeps schema fields w d t o d' :
  is_current d -> dk_index d = Some (schema, w) -> resolve_fields schema = Ok fields ->
  runs (disk_step index_dir) eq open_at d t o d' -> Forall works t ->
  o = Ok (mkOpened fields (saved_ingest (dk_saved d))) /\
  dk_index d' = dk_index d /\ dk_saved d' = dk_saved d.
Proof.
  intros (v & Hv & Hcur) Hi Hf Hr Hw.
  unfold open_or_create_at, reset_for_schema_version in Hr.
  run_step Hr Hw r1 Hs1 Hk1. destruct Hs1 as [-> Hs1], Hk1 as [v' ->]. rewrite (Hs1 v' eq_refl) in Hv.
  injection Hv as ->. cbv zeta in Hr. rewrite bool_decide_eq_true_2 in Hr by done.
  run_step Hr Hw r2 Hs2 Hk2. subst r2. destruct Hs2 as [[_ ->]|[[] _]]; [|done].
  run_step Hr Hw r3 Hs3 Hk3. destruct Hk3 as [schema' ->], Hs3 as [-> Hs3].
  destruct (Hs3 schema' eq_refl) as [w' Hw']. simpl in Hw'. rewrite Hi in Hw'. injection Hw' as <- <-.
  run_step Hr Hw r4 Hs4 Hk4. subst r4. destruct Hs4 as [[_ ->]|[[] _]]; [|done].
  unfold mret, prog_ret in Hr. cbn [prog_bind] in Hr. unfold open_from_tantivy_index in Hr.
  rewrite Hf in Hr. cbn [mbind prog_bind attempt] in Hr.
  run_step Hr Hw r5 Hs5 Hk5. subst r5 d0. cbn [attempt] in Hr.
  run_step Hr Hw r6 Hs6 Hk6. subst r6 d0. cbn [attempt] in Hr.
  run_step Hr Hw r7 Hs7 Hk7. destruct Hs7 as (-> & _ & Hs7). rewrite (Hs7 eq_refl) in Hr. simpl in Hr.
  case_bool_decide as Hsv.
  - run_step Hr Hw r8 Hs8 Hk8. destruct Hk8 as [data ->], Hs8 as [-> Hs8]. cbn [attempt] in Hr.
    destruct Hr as (_ & -> & ->). simpl. specialize (Hs8 data eq_refl). simpl in Hs8. by rewrite Hs8.
  - destruct Hr as (_ & -> & ->). simpl. destruct (dk_saved d); [by destruct Hsv|done].
Qed.
End sound.

(** ** Files that work *)

#[local] Existing Instance LogIngest.list_index.
#[local] Existing Instance LogIngest.list_index_laws.
#[local] Existing Instance LogIngest.tree_codec.
#[local] Existing Instance LogIngest.tree_codec_laws.
#[local] Existing Instance Json.concrete_json.

Definition sample_dir : string := "/d/logs_index".

(** Every call works, but the writer is another process's while [busy]. *)
Definition files_answer (busy : Disk -> bool) (R : Type) (e : OpenE R) (d : Disk) : R * Disk :=
  match e in OpenE R return R * Disk with
  | ReadVersion _ => (ok_or (dk_version d) "No such file or directory (os error 2)", d)
  | PathExists p =>
      (if bool_decide (p = sample_dir) then dk_dir d
       else bool_decide (p = state_path sample_dir) && bool_decide (is_Some (dk_saved d)), d)
  | RemoveTree _ => (Ok tt, no_files)
  | RemoveFile _ => (Ok tt, mkDisk (dk_dir d) (dk_version d) (dk_index d) None)
  | CreateDirs _ => (Ok tt, with_dir d)
  | OpenInDir _ => (ok_or (fst <$> dk_index d) "index does not exist", d)
  | CreateInDir _ schema =>
      (Ok schema, mkDisk (dk_dir d) (dk_version d) (Some (schema, ([], []))) (dk_saved d))
  | AtomicWrite _ text => (Ok tt, mkDisk true (Some text) (dk_index d) (dk_saved d))
  | BuildReader => (Ok tt, d)
  | OpenWriter => (if busy d then Err "Failed to acquire Lockfile: LockBusy." else Ok tt, d)
  | Sleep _ => (tt, d)
  | ReadState _ => (ok_or (dk_saved d) "No such file or directory (os error 2)", d)
  end.

Lemma files_steps busy R (e : OpenE R) d :
  disk_step sample_dir R e d (files_answer busy R e d).1 (files_answer busy R e d).2.
Proof.
  destruct e; simpl; try (by left); try done.
  - split; [done|]. intros v Hv. by destruct (dk_version d); [injection Hv as ->|].
  - split; [done|]. split; [intros ->; by rewrite bool_decide_eq_true_2|]. intros ->.
    rewrite bool_decide_eq_false_2 by done. by rewrite bool_decide_eq_true_2.
  - split; [done|]. intros schema Hs. destruct (dk_index d) as [[s w]|]; [|done]. injection Hs as ->. by exists w.
  - eexists. split; [done|]. split; [done|]. by exists ([], []).
  - split; [done|]. intros data Hv. by destruct (dk_saved d); [injection Hv as ->|].
Qed.

Definition run_opening (busy : Disk -> bool) (d : Disk) : list (event OpenE) * outcome Opened * Disk :=
  run_with (files_answer busy) (open_or_create_at sample_dir (state_path sample_dir)) d.

(** The disk after [LogIngest]'s sample. *)
Definition sample_disk : Disk :=
  mkDisk true (Some "6") (Some (build_schema, lx_writer sample_state)) (lx_saved sample_state).

Definition has_documents (d : Disk) : bool :=
  match dk_index d with Some (_, w) => negb (bool_decide (committed w = [])) | None => false end.

Definition documents_of (d : Disk) : nat :=
  match dk_index d with Some (_, w) => length (committed w) | None => 0 end.
Example opened_keeps : documents_of sample_disk = 1 /\ documents_of (run_opening (fun _ => false) sample_disk).2 = 1.
Proof. vm_compute. split; reflexivity. Qed.

(** While another process holds the writer - the command that indexes a source, or the last
    daemon that still ends - an opening deletes its index and makes a new one. *)
Lemma busy_index_deleted :
  let '(_, o, d) := run_opening has_documents sample_disk in
  is_Some (ok o) /\ documents_of sample_disk = 1 /\ documents_of d = 0.
Proof. vm_compute. split; [by eexists|done]. Qed.

Lemma opened_index_sound_witness :
  exists opened w n, (run_opening (fun _ => false) sample_disk).1.2 = Ok opened /\
    dk_index (run_opening (fun _ => false) sample_disk).2 = Some (build_schema, w) /\
    history (Response := unit) (fun _ => false) (fun _ => None) 0 [sample_source] (fun _ => sample_text)
      (opened_state w opened (dk_saved (run_opening (fun _ => false) sample_disk).2) n).
Proof.
  destruct (run_opening (fun _ => false) sample_disk).1.2 as [opened|e| |] eqn:Ho; try (exfalso; revert Ho; by vm_compute).
  pose proof (run_with_runs _ (disk_step sample_dir) (open_or_create_at sample_dir (state_path sample_dir))
    sample_disk (files_steps (fun _ => false))) as Hr.
  change (run_with _ _ _) with (run_opening (fun _ => false) sample_disk) in Hr. rewrite Ho in Hr.
  destruct (opened_index_sound (Response := unit) (fun _ => false) (fun _ => None) 0 [sample_source] sample_dir
    (fun _ => sample_text) sample_state build_schema sample_disk sample_disk _ opened _ sample_history
    ltac:(done) eq_refl eq_refl ltac:(constructor) Hr) as (_ & schema & w & Hw & _ & _ & n & Hh & Hst).
  assert (schema = build_schema) as ->.
  { assert (fst <$> dk_index (run_opening (fun _ => false) sample_disk).2 = Some build_schema) as Hf by by vm_compute.
    rewrite Hw in Hf. by injection Hf. }
  exists opened, w, n. split; [done|]. split; [done|].
  destruct Hst as [->|[_ Hu]]; [exact Hh|]. exfalso. revert Hu. vm_compute. intros Hu.
  repeat (apply Exists_cons in Hu as [Hu|Hu]; [try done; by specialize (Hu _ eq_refl)|]). by apply Exists_nil in Hu.
Defined.
